(* ===== verification/_CoqProject ===== *)
-Q . S2P
Prelude.v
Sql.v
Json.v
JsString.v
JsonText.v
JsNumber.v
JsText.v
ShareConfig.v
IpAddress.v
DockerChecks.v
DockerImages.v
DockerNetworks.v
VodProtocol.v
Http.v
Base64.v
TermuxProtocol.v
TermuxClient.v
NasRoots.v
TerminalTabs.v
TerminalSessions.v
TerminalManager.v
TerminalServer.v
TerminalRoutes.v
Locks.v
OpsRuns.v
Downloads.v
DownloadRoutes.v
IndexQueue.v
IndexRuns.v
CoreDb.v
Jobs.v
Operations.v
FileBatches.v
FileSystem.v
Files.v
PathSafety.v
Config.v
Confinement.v
DockerMounts.v
DockerCreate.v
DockerRegistry.v
Archives.v
BackupRuns.v
MountReadiness.v
BackupManifest.v
BackupStaging.v
Backup.v
Mutations.v
Rollback.v
StorageScope.v
FileBatchRunner.v
ApprovalRoutes.v
ApprovalHistory.v
DockerRoutes.v
PiTools.v
Settings.v
SettingsRoutes.v
ShareSettings.v
Processor.v
FileOperationRoutes.v
Migrations.v
