(* ===== verification/Prelude.v ===== *)
(** * ZOS: a verification development

    ZOS is a personal NAS: an HTTP API (apps/api), a worker that runs agent
    turns (apps/worker), a runner of scheduled tasks (apps/ops), Rust daemons
    for indexing and downloading, and one SQLite database (packages/db) that
    all these processes share.  What a user asks for becomes a job; what is
    dangerous - a file mutation, a docker, share, storage or vm operation, a
    tool call of the agent - becomes an approval that a person decides first.
    This development models the part of the TypeScript code that decides what
    happens: the tables and the functions on them, the handlers that change
    them, the loops that work on them and the checks that keep file paths
    inside a root.

    ** How the program is modelled

    A function that only reads the database is a function on its tables; one
    that writes and may throw is a [prog] (this file): a function from the
    store to a result or a thrown [exn], and the new store.  What was written
    before a throw stays, except in a [transaction].  [new Date()] and
    [randomUUID()] are arguments.  A handler runs in one piece from one [await]
    to the next; a handler with awaits is cut there, and the histories of
    several processes interleave the pieces.  JavaScript strings are strings
    of code units below 256, numbers are [Z] where the code keeps integers,
    JSON values are [json].  Code outside the repository - Docker, libvirt, the
    host daemon, the model provider, archive programs - is a parameter, with
    what the code relies on as named laws; node:fs, node:path, JSON and the
    SQLite statements are defined, since the code is written in their terms.

    ** The files

    The language and its libraries: Prelude (effects, errors, records), Sql
    (statements on tables), Json, JsString (string methods, node:path),
    JsonText (JSON.stringify and JSON.parse), JsNumber (Number of a string,
    32-bit integers), JsText (trimmed texts, conversions), FileSystem and Files (node:fs on a tree with symbolic links
    and failing calls), Http (replies).

    The database, packages/db/src/repositories: NasRoots (nas-roots.ts,
    root-readiness.ts), Locks (execution-locks.ts),
    OpsRuns (ops-runs.ts, with runTrackedTask of apps/ops), Downloads
    (downloads.ts), IndexQueue (indexer-queue.ts), IndexRuns
    (index-run-lifecycle.ts, index-run-status.ts), CoreDb (the rows of sessions,
    jobs, events, approvals, operations and batches), Jobs (sessions.ts,
    jobs.ts, approvals.ts, operation-notifications.ts), Operations (the
    recorded operations, console tickets, file operations, trash), FileBatches
    (file-batches.ts), TerminalTabs (terminal-tabs.ts); Migrations (schema.ts
    and the migrations' order).

    The API, apps/api/src: DownloadRoutes (routes/downloads.ts), FileBatchRunner
    (lib/file-batch-runner.ts), ApprovalRoutes (routes/approvals.ts and the
    cancel route of routes/jobs.ts), ApprovalHistory (their pieces interleaved
    with the worker), FileOperationRoutes (lib/operations.ts,
    routes/operations.ts: restoring and rolling back), TerminalSessions and
    TerminalManager (lib/terminal-sessions.ts: one session; the manager, and
    the WebSocket connections of routes/terminal.ts), TerminalServer (their
    steps and what holds in every reachable state), TerminalRoutes (the tab
    routes, the admission of a WebSocket and its messages); the requests that
    create containers, volumes and networks, lib/docker-create.ts: IpAddress
    (addresses and blocks), DockerChecks (validators), DockerImages
    (docker-images.ts of packages/shared), DockerNetworks, DockerMounts and
    DockerCreate (the prepared request and the calls of the engine);
    DockerRegistry (docker-registry-credentials.ts of packages/db,
    lib/docker-registry.ts and the registry handlers) and DockerRoutes
    (routes/docker.ts: the create handler around those calls, pulling an image,
    consoles).

    Configuration and settings: Config (config.ts and paths.ts of
    packages/shared), ShareConfig (the shares of the configuration and of the
    table, share-settings-mapper.ts), Settings (settings.ts,
    settings-mappers.ts of packages/db), SettingsRoutes (lib/settings.ts,
    routes/settings.ts), ShareSettings (lib/share-settings.ts,
    routes/shares.ts and what lib/share-service.ts shows).

    The backup command, apps/backup/src: BackupRuns (backup-runs.ts of
    packages/db), MountReadiness (mount-readiness.ts of packages/nas-tools),
    BackupManifest (the staging directory, its manifest and the check of a
    restored one), BackupStaging (the proofs of what is in the directory),
    Backup (backup.ts and restic.ts: the runs, the check, the
    restore, and the lock around them).

    The agent: PiTools (tool policies, approvals and helpers of
    packages/agent/src/pi-agent.ts), Processor (apps/worker/src/processor.ts
    and its ticks).

    Files, packages/nas-tools/src: PathSafety (path-safety.ts), Confinement
    (what the mutations share), Archives and Mutations (mutation-tools.ts),
    Rollback (what undoing a mutation gives back), StorageScope
    (storage-scope.ts of nas-tools and of the API).

    Protocols: VodProtocol (vod-player-protocol.ts of packages/shared and its
    client), Base64, TermuxProtocol and TermuxClient (termux-protocol.ts of
    packages/shared, termux-client.ts of the API: buffers, the frames of the
    terminal daemon, the client that reads and writes them).

    ** What the theorems show

    - Approval: no dangerous tool call runs that was not approved; each
      approval is decided once, however handlers, worker and cancellations
      interleave; a finished job stays finished; what runs before and
      after an approved operation is applied is stated apart, since other
      requests run in between.
    - Files: mutations change nothing outside the root and the trash, whatever
      they are asked for and wherever a call fails; undoing a mutation gives
      the tree back; a path accepted in the scope of a storage pool is in that
      pool; index paths stay inside.
    - Batches: counters equal the item statuses in every reachable database;
      the runner ends every batch; a crash between the disk and the database
      does not repeat a mutation.
    - Jobs and the worker: the oldest queued job is claimed, and settled
      whatever its turn does; the log can be paged without loss.
    - Leases: locks and console tickets are exclusive through any sequence of
      calls of the others; so are download leases, but for a transition of the
      task that may start from [running], after which the worker can write
      nothing more; downloads keep their invariant.
    - Roots: the enabled roots are the configured ones, and readiness speaks
      of the mount that is configured.
    - Runs: one running run per task and per root, bounded histories.
    - Migrations: any processes of any releases refine the one upgrade path.
    - Terminals: tabs keep their invariant; no output of a terminal is lost
      without a notice; the manager keeps its limit and forgets no session it
      holds; a connection gets only sessions of the root it named.
    - Docker: an accepted request binds only what is at or below an enabled
      root, which is ready if it must be mounted, and nothing but [/] itself
      that holds the socket of the engine; an image is looked for and pulled as
      the policy says; one resource is created at most, and started only after
      that; a request
      is settled whatever the engine answers, and no stored password is shown
      in an error message.
    - Configuration and settings: a configuration that is accepted listens on
      the loopback interface and keeps its directories apart; settings that
      are saved are in range and read back as they were, or, for Docker and the
      photo map, as far as they were valid; the handlers of the settings
      always reply; shares that are accepted lie below their roots
      and can be served.
    - Backup: a run reported completed has saved every root and a directory
      with the database, its manifest and, unless copying it failed, the
      trash; whatever fails, a run is over in the table when the command is;
      a restored state that passes the check holds the files that were saved.
    - Protocols: messages survive the socket, however they are cut into
      chunks, and what is accepted is of its type; what a terminal prints or
      is typed arrives whole and in order.

    ** Bounds and fuel

    Recursion is on data, with these exceptions.  [waitForApprovalDecision]
    polls until a decision: [fuel] counts the polls, and the theorem speaks of
    any number of them.  The runner's [drain] and the worker's [ticks] take as
    much fuel as there are items or queued jobs, plus one, which the theorems
    prove to be enough.  The JSON parser and the loop that reads lines have the
    length of their text.  A path follows at most 40 links ([MAX_LINKS]), as on
    Linux.  The check of an unpacked tree recurses on the entries the limit of
    the code leaves; copying and hashing a staging directory recurse at most
    4096 levels, more than a path of Linux has.

    ** Not modelled

    The React application (apps/web) and its text resources; the clients of
    Docker, libvirt and the host daemon, and the routes that hand their
    answers on; the photo library's queries, full text search and
    health readings; generated protocol types; the Rust
    services.  They are I/O, rendering or queries without state of their own;
    the manifest lists them.  Of SQLite the model has the statements, keys,
    references and transactions the code uses, not its files; of the file
    system no permissions, times or hard links. *)
From Stdlib Require Import Bool Ascii.
From stdpp Require Export base tactics list gmap strings numbers option sorting.
From Stdlib Require Export ZArith Lia.

(** ** Errors and effects

    A thrown JavaScript error, with the fields the code inspects: its class
    name, its message, the [statusCode] some classes carry, the [code] of the
    errors that Node and SQLite raise, and the [sourcePaths] of a batch
    conflict. *)
Record exn := Exn {
  exn_name : string;
  exn_message : string;
  exn_status : option Z;
  exn_code : option string;
  exn_paths : list string
}.

Global Instance exn_eq_dec : EqDecision exn.
Proof. solve_decision. Defined.

(** [new Error(message)]. *)
Definition Error (message : string) : exn := Exn "Error" message None None [].

(** What SQLite raises when a constraint fails, and Node when a system call
    fails. *)
Definition SqliteError (code : string) : exn := Exn "SqliteError" code None (Some code) [].
Definition ErrnoException (code : string) : exn := Exn "Error" code None (Some code) [].

(** A computation over a mutable store [S]: it returns or throws, and the
    store keeps what was written before the throw. *)
Definition prog (S A : Type) : Type := S → (exn + A) * S.

Global Instance prog_ret {S} : MRet (prog S) := λ A a s, (inr a, s).
Global Instance prog_bind {S} : MBind (prog S) := λ A B k m s,
  match m s with
  | (inr a, s') => k a s'
  | (inl e, s') => (inl e, s')
  end.
Global Instance prog_fmap {S} : FMap (prog S) := λ A B f m s,
  match m s with
  | (inr a, s') => (inr (f a), s')
  | (inl e, s') => (inl e, s')
  end.

(** Checks that throw but change nothing: a result or an error. *)
Global Instance check_ret : MRet (sum exn) := λ A, inr.
Global Instance check_bind : MBind (sum exn) := λ A B k m, match m with inl e => inl e | inr a => k a end.
Global Instance check_fmap : FMap (sum exn) := λ A B f m, match m with inl e => inl e | inr a => inr (f a) end.
Definition check {S A} (r : exn + A) : prog S A := λ s, (r, s).
Lemma check_inv {A B} (m : exn + A) (k : A → exn + B) b : (m ≫= k) = inr b → ∃ a, m = inr a ∧ k a = inr b.
Proof. destruct m as [e|a]; [done|]. by exists a. Qed.
Lemma check_map_inv {A B} (f : A → B) (m : exn + A) b : (f <$> m) = inr b → ∃ a, m = inr a ∧ b = f a.
Proof. destruct m as [e|a]; [done|]. intros [= <-]. by exists a. Qed.
(** Every item is checked, in order. *)
Fixpoint check_all {A B} (f : A → exn + B) (l : list A) : exn + list B :=
  match l with
  | [] => inr []
  | x :: l => y ← f x; ys ← check_all f l; inr (y :: ys)
  end.

Definition throw {S A} (e : exn) : prog S A := λ s, (inl e, s).
Definition gets {S A} (f : S → A) : prog S A := λ s, (inr (f s), s).
Definition modify {S} (f : S → S) : prog S unit := λ s, (inr tt, f s).
Definition guard_throw {S} (b : bool) (e : exn) : prog S unit :=
  if b then throw e else mret tt.
Definition when {S} (b : bool) (m : prog S unit) : prog S unit :=
  if b then m else mret tt.

(** [try { m } catch (e) { h }]. *)
Definition try_catch {S A} (m : prog S A) (h : exn → prog S A) : prog S A := λ s,
  match m s with
  | (inr a, s') => (inr a, s')
  | (inl e, s') => h e s'
  end.

(** [db.transaction(m)()]: a throw rolls every write of [m] back. *)
Definition transaction {S A} (m : prog S A) : prog S A := λ s,
  match m s with
  | (inr a, s') => (inr a, s')
  | (inl e, _) => (inl e, s)
  end.

Fixpoint for_each {S A} (f : A → prog S unit) (l : list A) : prog S unit :=
  match l with
  | [] => mret tt
  | x :: l => f x ≫= λ _, for_each f l
  end.

Fixpoint map_m {S A B} (f : A → prog S B) (l : list A) : prog S (list B) :=
  match l with
  | [] => mret []
  | x :: l => y ← f x; ys ← map_m f l; mret (y :: ys)
  end.

(** A computation that cannot change the store. *)
Definition reads {S A} (m : prog S A) : Prop := ∀ s, (m s).2 = s.

(** [m] keeps [I], whether it returns or throws. *)
Definition keeps {S A} (I : S → Prop) (m : prog S A) : Prop := ∀ s, I s → I (m s).2.

Section Keeps.
Context {S : Type} (I : S → Prop).

Lemma keeps_ret {A} (a : A) : keeps I (mret a).
Proof. by intros s Hs. Qed.

Lemma keeps_throw {A} e : keeps I (throw (A:=A) e).
Proof. by intros s Hs. Qed.

Lemma keeps_gets {A} (f : S → A) : keeps I (gets f).
Proof. by intros s Hs. Qed.

Lemma keeps_modify (f : S → S) : (∀ s, I s → I (f s)) → keeps I (modify f).
Proof. intros H s Hs. by apply H. Qed.

Lemma keeps_bind {A B} (m : prog S A) (k : A → prog S B) :
  keeps I m → (∀ a, keeps I (k a)) → keeps I (m ≫= k).
Proof.
  intros Hm Hk s Hs. specialize (Hm s Hs). unfold mbind, prog_bind.
  destruct (m s) as [[e|a] s']; [done|]. by apply Hk.
Qed.

Lemma keeps_fmap {A B} (f : A → B) (m : prog S A) : keeps I m → keeps I (f <$> m).
Proof.
  intros Hm s Hs. specialize (Hm s Hs). unfold fmap, prog_fmap. by destruct (m s) as [[e|a] s'].
Qed.

Lemma keeps_guard b e : keeps I (guard_throw b e).
Proof. destruct b; [apply keeps_throw|apply keeps_ret]. Qed.

Lemma keeps_when b m : keeps I m → keeps I (when b m).
Proof. destruct b; [done|]. intros _. apply keeps_ret. Qed.

Lemma keeps_try {A} (m : prog S A) h :
  keeps I m → (∀ e, keeps I (h e)) → keeps I (try_catch m h).
Proof.
  intros Hm Hh s Hs. specialize (Hm s Hs). unfold try_catch.
  destruct (m s) as [[e|a] s']; [by apply Hh|done].
Qed.

Lemma keeps_transaction {A} (m : prog S A) : keeps I m → keeps I (transaction m).
Proof.
  intros Hm s Hs. specialize (Hm s Hs). unfold transaction.
  by destruct (m s) as [[e|a] s'].
Qed.

Lemma keeps_for_each {A} (f : A → prog S unit) l :
  (∀ x, keeps I (f x)) → keeps I (for_each f l).
Proof.
  intros Hf. induction l as [|x l IH]; simpl; [apply keeps_ret|].
  apply keeps_bind; auto.
Qed.
End Keeps.

Create HintDb keeps.
#[export] Hint Resolve keeps_ret keeps_throw keeps_gets keeps_fmap keeps_guard keeps_when
  keeps_try keeps_transaction keeps_for_each : keeps.

(** One step of a [keeps] proof: through a bind, or into a branch. *)
Ltac keeps_step :=
  cbv zeta;
  lazymatch goal with
  | |- keeps _ (mbind _ _) => apply keeps_bind; [|intros ?]
  | |- keeps _ (_ <$> _) => apply keeps_fmap
  | |- keeps _ (try_catch _ _) => apply keeps_try; [|intros ?]
  | |- keeps _ (transaction _) => apply keeps_transaction
  | |- keeps _ (when _ _) => apply keeps_when
  | |- keeps _ (match ?x with _ => _ end) => destruct x
  | |- keeps _ _ => solve [eauto with keeps]
  end.
Ltac keeps_all := repeat keeps_step.

(** One step of a computation. *)
Lemma bind_gets {S A B} (f : S → A) (k : A → prog S B) s : (gets f ≫= k) s = k (f s) s.
Proof. done. Qed.

Lemma bind_inr {S A B} (m : prog S A) (k : A → prog S B) s a s' :
  m s = (inr a, s') → (m ≫= k) s = k a s'.
Proof. unfold mbind, prog_bind. by intros ->. Qed.

Lemma bind_inl {S A B} (m : prog S A) (k : A → prog S B) s e s' :
  m s = (inl e, s') → (m ≫= k) s = (inl e, s').
Proof. unfold mbind, prog_bind. by intros ->. Qed.

Lemma bind_inv {S A B} (m : prog S A) (k : A → prog S B) s b s' :
  (m ≫= k) s = (inr b, s') → ∃ a s1, m s = (inr a, s1) ∧ k a s1 = (inr b, s').
Proof. unfold mbind, prog_bind. destruct (m s) as [[e|a] s1] eqn:E; [done|]. eauto. Qed.

Lemma guard_inv {S} b e (s s' : S) u : guard_throw b e s = (inr u, s') → b = false ∧ s' = s.
Proof. unfold guard_throw. by destruct b; intros [= ? ?]. Qed.

(** What a transaction leaves: what its body wrote, or nothing. *)
Lemma transaction_snd {S A} (m : prog S A) s :
  (transaction m s).2 = s ∨ ∃ a, m s = (inr a, (transaction m s).2).
Proof. unfold transaction. destruct (m s) as [[e|a] s']; [by left|right; by exists a]. Qed.

(** A transaction that throws leaves the store as it was. *)
Lemma transaction_throw {S A} (m : prog S A) s e s' :
  transaction m s = (inl e, s') → s' = s.
Proof. unfold transaction. destruct (m s) as [[?|?] ?]; naive_solver. Qed.

(** ** Options *)
Definition isSome {A} (o : option A) : bool := match o with Some _ => true | None => false end.

Lemma isSome_true {A} (o : option A) : isSome o = true ↔ is_Some o.
Proof. destruct o; simpl; split; naive_solver. Qed.

(** [a ?? b], written [a ⁇ b]. *)
Notation "a ⁇ b" := (default b a) (at level 60, right associativity) : stdpp_scope.

(** ** Lists *)
(** [[...new Set(l)]]: the first of equal elements stays. *)
Definition distinct {A} `{EqDecision A} (l : list A) : list A :=
  foldl (λ seen x, if bool_decide (x ∈ seen) then seen else seen ++ [x]) [] l.

Lemma distinct_elem_of {A} `{EqDecision A} (l : list A) x : x ∈ distinct l ↔ x ∈ l.
Proof.
  unfold distinct. assert (∀ seen, x ∈ foldl (λ s y, if bool_decide (y ∈ s) then s else s ++ [y]) seen l ↔ x ∈ seen ∨ x ∈ l) as H.
  { induction l as [|y l IH]; intros seen; simpl; [set_solver|]. rewrite IH. case_bool_decide; set_solver. }
  rewrite H. set_solver.
Qed.

(** ** Strings *)
Lemma string_leb_trans (a b c : string) :
  String.leb a b = true → String.leb b c = true → String.leb a c = true.
Proof.
  intros H1 H2. assert (strings.String.le a c) as H; [|by apply Is_true_true].
  etrans; apply Is_true_true; [exact H1|exact H2].
Qed.

(** ** Record update: [r <| field := v |>], for records with an [Eta] instance *)
Class Eta (R : Type) := eta : R → R.
Class Setter {R T : Type} (p : R → T) := MkSetter { set_to : T → R → R }.
Ltac set_field p :=
  let P := type of p in
  lazymatch P with
  | ?R → ?T =>
    let e := constr:(_ : Eta R) in
    let e' := eval hnf in e in
    exact (@MkSetter R T p (λ (v : T) (r : R), ltac:(
      let b := eval cbv beta in (e' r) in
      let b' := eval pattern (p r) in b in
      lazymatch b' with
      | ?f _ => let t := eval cbv beta in (f v) in exact t
      end)))
  end.
#[export] Hint Extern 0 (Setter ?p) => set_field p : typeclass_instances.
Definition with_field {R T : Type} (p : R → T) {s : Setter p} (v : T) (r : R) : R := set_to v r.
Arguments set_to {R T} p {Setter} v r /.
Arguments with_field {R T} p {s} v r /.
Notation "r <| p := v |>" := (with_field p v r) (at level 12, left associativity, p at level 10).

(** One step of a parser that returned a value: a bound result, or a guard. *)
Ltac opt_step H :=
  match type of H with
  | mbind _ _ = Some _ => let x := fresh "x" in let Hx := fresh "Hx" in apply bind_Some in H as (x & Hx & H)
  | (if negb ?b then None else _) = Some _ => let Hb := fresh "Hb" in destruct b eqn:Hb; cbn [negb] in H; [|done]
  | (if ?b then None else _) = Some _ => let Hb := fresh "Hb" in destruct b eqn:Hb; [done|]
  | (if ?b then _ else None) = Some _ => let Hb := fresh "Hb" in destruct b eqn:Hb; [|done]
  end.

(** One step of checks that passed. *)
Ltac check_step H :=
  lazymatch type of H with
  | mbind _ _ = inr _ =>
      let x := fresh "x" in let Hx := fresh "Hx" in apply check_inv in H as (x & Hx & H)
  | fmap _ _ = inr _ => let x := fresh "x" in let Hx := fresh "Hx" in apply check_map_inv in H as (x & Hx & H)
  end.
