(* ===== verification/Sql.v ===== *)
(** * SQL tables

    The SQLite statements of packages/db as functions on tables.  A table is
    the list of its rows in rowid order; a statement's WHERE clause is a bool
    predicate on rows, in which every comparison with NULL ([None]) is false.
    Where ORDER BY leaves ties, the rows keep their rowid order. *)
From S2P Require Import Prelude.

(** Comparisons of nullable columns, [NULL] making them false. *)
Definition eq_col (o : option string) (x : string) : bool := bool_decide (o = Some x).
Definition lt_col (o : option Z) (x : Z) : bool := from_option (λ y, bool_decide (y < x)%Z) false o.
Definition le_col (o : option Z) (x : Z) : bool := from_option (λ y, bool_decide (y ≤ x)%Z) false o.
Definition is_null {A} (o : option A) : bool := match o with None => true | Some _ => false end.
Definition not_null {A} (o : option A) : bool := negb (is_null o).
(** [COALESCE(a, b)]. *)
Definition coalesce {A} (a b : option A) : option A := match a with Some _ => a | None => b end.

Section Table.
Context {R : Type}.
Implicit Types (p : R → bool) (f : R → R) (t : list R).

Definition select p t : list R := List.filter p t.
Definition get_row p t : option R := List.find p t.
Definition count_where p t : nat := length (select p t).
Definition exists_where p t : bool := existsb p t.
Definition update_where p f t : list R := (λ r, if p r then f r else r) <$> t.
(** The row [UPDATE ... RETURNING] yields to [.get()]. *)
Definition returning p f t : option R := f <$> get_row p t.
Definition delete_where p t : list R := List.filter (λ r, negb (p r)) t.
Definition insert_row (r : R) t : list R := t ++ [r].

(** ORDER BY: a stable insertion sort. *)
Fixpoint insert_by (le : R → R → bool) (x : R) (l : list R) : list R :=
  match l with
  | [] => [x]
  | y :: l' => if le x y then x :: l else y :: insert_by le x l'
  end.
Definition order_by (le : R → R → bool) (t : list R) : list R :=
  foldr (insert_by le) [] t.
(** ORDER BY ... LIMIT 1. *)
Definition first_by (le : R → R → bool) p t : option R := head (order_by le (select p t)).

Lemma select_In p t r : In r (select p t) ↔ In r t ∧ p r = true.
Proof. apply filter_In. Qed.

Lemma get_row_Some p t r : get_row p t = Some r → In r t ∧ p r = true.
Proof. apply find_some. Qed.

Lemma get_row_None p t : get_row p t = None ↔ ∀ r, In r t → p r = false.
Proof.
  split; [apply find_none|]. induction t as [|x t IH]; simpl; [done|]. intros H.
  rewrite (H x (or_introl eq_refl)). apply IH. auto.
Qed.

Lemma get_row_is_Some p t r : In r t → p r = true → is_Some (get_row p t).
Proof.
  intros Hin Hp. destruct (get_row p t) eqn:E; [done|].
  rewrite get_row_None in E. rewrite (E r Hin) in Hp. done.
Qed.

Lemma count_where_pos p t : 0 < count_where p t ↔ ∃ r, In r t ∧ p r = true.
Proof.
  unfold count_where. split.
  - destruct (select p t) as [|r l] eqn:E; simpl; [lia|]. intros _. exists r.
    apply select_In. rewrite E. by left.
  - intros (r & Hr & Hp). assert (In r (select p t)) as H by (by apply select_In).
    destruct (select p t); [done|simpl; lia].
Qed.

Lemma count_where_0 p t : count_where p t = 0 ↔ ∀ r, In r t → p r = false.
Proof.
  split.
  - intros H r Hr. destruct (p r) eqn:E; [|done].
    assert (0 < count_where p t) by (apply count_where_pos; eauto). lia.
  - intros H. destruct (decide (0 < count_where p t)) as [(r & Hr & Hp)%count_where_pos|]; [|lia].
    rewrite H in Hp; done.
Qed.

Lemma exists_where_true p t : exists_where p t = true ↔ ∃ r, In r t ∧ p r = true.
Proof. apply existsb_exists. Qed.

Lemma exists_where_false p t : exists_where p t = false ↔ ∀ r, In r t → p r = false.
Proof.
  split.
  - intros H r Hr. destruct (p r) eqn:E; [|done].
    assert (exists_where p t = true) by (apply exists_where_true; eauto). congruence.
  - intros H. destruct (exists_where p t) eqn:E; [|done].
    apply exists_where_true in E as (r & Hr & Hp). rewrite H in Hp; done.
Qed.

Lemma update_where_In p f t r :
  In r (update_where p f t) ↔ ∃ r0, In r0 t ∧ r = if p r0 then f r0 else r0.
Proof.
  unfold update_where. rewrite <-!list_elem_of_In, list_elem_of_fmap.
  setoid_rewrite <-list_elem_of_In. naive_solver.
Qed.

Lemma update_where_length p f t : length (update_where p f t) = length t.
Proof. apply length_fmap. Qed.

Lemma update_where_Forall (P : R → Prop) p f t :
  Forall P t → (∀ r, P r → p r = true → P (f r)) → Forall P (update_where p f t).
Proof.
  intros Ht Hf. apply Forall_fmap. eapply Forall_impl; [done|].
  intros r Hr; simpl. destruct (p r) eqn:E; auto.
Qed.

Lemma delete_where_In p t r : In r (delete_where p t) ↔ In r t ∧ p r = false.
Proof. unfold delete_where. rewrite filter_In. destruct (p r); naive_solver. Qed.

Lemma delete_where_Forall (P : R → Prop) p t : Forall P t → Forall P (delete_where p t).
Proof.
  rewrite !Forall_forall. intros H r Hr. apply H.
  rewrite list_elem_of_In in *. by apply delete_where_In in Hr as [? _].
Qed.

Lemma insert_row_In r0 t r : In r (insert_row r0 t) ↔ In r t ∨ r = r0.
Proof. unfold insert_row. rewrite in_app_iff. simpl. naive_solver. Qed.

Lemma insert_row_Forall (P : R → Prop) r t : Forall P t → P r → Forall P (insert_row r t).
Proof. intros. apply Forall_app; auto. Qed.

Lemma Forall_In (P : R → Prop) t r : Forall P t → In r t → P r.
Proof. rewrite Forall_forall. intros H Hr. apply H. by apply list_elem_of_In. Qed.

Lemma update_where_none p f t : get_row p t = None → update_where p f t = t.
Proof.
  rewrite get_row_None. unfold update_where. induction t as [|x t IH]; intros H; [done|].
  rewrite fmap_cons, (H x (or_introl eq_refl)). f_equal. apply IH. intros r Hr. apply H. by right.
Qed.

Lemma returning_None p f t : returning p f t = None → update_where p f t = t.
Proof. unfold returning. destruct (get_row p t) eqn:E; [done|]. intros _. by apply update_where_none. Qed.

(** ** Ordering *)
Lemma insert_by_perm le x l : insert_by le x l ≡ₚ x :: l.
Proof.
  induction l as [|y l IH]; simpl; [done|]. destruct (le x y); [done|].
  rewrite IH. apply Permutation_swap.
Qed.

Lemma order_by_perm le t : order_by le t ≡ₚ t.
Proof.
  induction t as [|x t IH]; simpl; [done|]. rewrite insert_by_perm. by apply Permutation_skip.
Qed.

Lemma order_by_In le t r : In r (order_by le t) ↔ In r t.
Proof. rewrite <-!list_elem_of_In. by rewrite order_by_perm. Qed.

Section Ordered.
Context (le : R → R → bool).
Context (le_total : ∀ x y, le x y = true ∨ le y x = true).
Context (le_trans : ∀ x y z, le x y = true → le y z = true → le x z = true).

Lemma insert_by_sorted x l :
  StronglySorted (λ a b, le a b = true) l → StronglySorted (λ a b, le a b = true) (insert_by le x l).
Proof using le_total le_trans.
  induction 1 as [|y l Hl IH Hy]; simpl; [repeat constructor|].
  destruct (le x y) eqn:E.
  - constructor; [by constructor|]. constructor; [done|].
    eapply Forall_impl; [exact Hy|]. simpl; eauto.
  - constructor; [done|]. rewrite insert_by_perm. constructor; [|done].
    destruct (le_total x y); congruence.
Qed.

Lemma order_by_sorted t : StronglySorted (λ a b, le a b = true) (order_by le t).
Proof using le_total le_trans. induction t; simpl; [constructor|]. by apply insert_by_sorted. Qed.

(** [ORDER BY ... LIMIT 1] returns a least matching row. *)
Lemma first_by_least p t r :
  first_by le p t = Some r →
  In r t ∧ p r = true ∧ ∀ r', In r' t → p r' = true → le r r' = true.
Proof using le_total le_trans.
  unfold first_by. intros H.
  pose proof (order_by_sorted (select p t)) as Hs.
  destruct (order_by le (select p t)) as [|x l] eqn:E; simplify_eq/=.
  assert (In r (select p t)) as Hr.
  { apply (order_by_In le). rewrite E. by left. }
  apply select_In in Hr as [Hr Hp]. repeat split; [done..|].
  intros r' Hr' Hp'. assert (In r' (order_by le (select p t))) as Hin.
  { apply order_by_In. by apply select_In. }
  rewrite E in Hin. inversion Hs as [|? ? _ Hall]; subst.
  destruct Hin as [<-|Hin]; [destruct (le_total r r); done|].
  by apply (Forall_In _ _ _ Hall).
Qed.
End Ordered.

Lemma first_by_In le p t r : first_by le p t = Some r → In r t ∧ p r = true.
Proof.
  unfold first_by. intros H. apply select_In. apply (order_by_In le).
  destruct (order_by le (select p t)); simplify_eq/=. by left.
Qed.

Lemma first_by_None le p t : first_by le p t = None ↔ ∀ r, In r t → p r = false.
Proof.
  unfold first_by. split.
  - intros H r Hr. destruct (p r) eqn:E; [|done].
    assert (In r (order_by le (select p t))) as Hin by (apply order_by_In, select_In; done).
    by destruct (order_by le (select p t)).
  - intros H. destruct (order_by le (select p t)) as [|x l] eqn:E; [done|].
    assert (In x (select p t)) as Hx by (apply (order_by_In le); rewrite E; by left).
    apply select_In in Hx as [Hx Hp]. by rewrite H in Hp.
Qed.
End Table.

Lemma order_by_id {R} (le : R → R → bool) t :
  StronglySorted (λ a b, le a b = true) t → order_by le t = t.
Proof.
  induction 1 as [|x t Ht IH Hx]; [done|]. simpl. rewrite IH. destruct t as [|y t]; [done|].
  simpl. inversion Hx as [|? ? Hxy]; subst. by rewrite Hxy.
Qed.

Lemma StronglySorted_filter {R} (P : R → R → Prop) (p : R → bool) t :
  StronglySorted P t → StronglySorted P (List.filter p t).
Proof.
  induction 1 as [|x t Ht IH Hx]; simpl; [constructor|]. destruct (p x); [|done].
  constructor; [done|]. apply Forall_forall. intros y Hy. rewrite Forall_forall in Hx. apply Hx.
  rewrite list_elem_of_In in *. by apply filter_In in Hy as [? _].
Qed.

(** ** Counting *)
Lemma count_where_delete {R} (p q : R → bool) t : (count_where p (delete_where q t) ≤ count_where p t)%nat.
Proof.
  unfold count_where, select, delete_where. induction t as [|x t IH]; simpl; [done|].
  destruct (q x), (p x) eqn:E; simpl; rewrite ?E; simpl; lia.
Qed.

Lemma count_where_update {R} (p q : R → bool) f t :
  (∀ r, In r t → q r = true → p (f r) = p r) → count_where p (update_where q f t) = count_where p t.
Proof.
  unfold count_where, select, update_where. induction t as [|x t IH]; intros H; simpl; [done|].
  assert (p (if q x then f x else x) = p x) as -> by (destruct (q x) eqn:E; [by apply H; [left|]|done]).
  destruct (p x); simpl; [f_equal|]; apply IH; intros r Hr; apply H; by right.
Qed.

Lemma count_where_update_le {R} (p q : R → bool) f t :
  (∀ r, p (f r) = true → p r = true) → (count_where p (update_where q f t) ≤ count_where p t)%nat.
Proof.
  intros H. unfold count_where, select, update_where. induction t as [|x t IH]; [done|].
  rewrite fmap_cons. simpl. destruct (q x), (p (f x)) eqn:E, (p x) eqn:E'; simpl; try lia.
  by rewrite H in E'.
Qed.

Lemma count_where_update_lt {R} (p q : R → bool) f t x :
  In x t → q x = true → p x = true → p (f x) = false → (∀ r, p (f r) = true → p r = true) →
  (count_where p (update_where q f t) < count_where p t)%nat.
Proof.
  intros Hin Hq Hp Hf Hle. induction t as [|y t IH]; [done|].
  assert (count_where p (update_where q f (y :: t)) =
    ((if p (if q y then f y else y) then 1 else 0) + count_where p (update_where q f t))%nat) as ->.
  { unfold count_where, select, update_where. simpl. by destruct (p (if q y then f y else y)). }
  assert (count_where p (y :: t) = ((if p y then 1 else 0) + count_where p t)%nat) as ->.
  { unfold count_where, select. simpl. by destruct (p y). }
  pose proof (count_where_update_le p q f t Hle) as Hrest. destruct Hin as [->|Hin].
  - rewrite Hq, Hp, Hf. lia.
  - specialize (IH Hin). specialize (Hle y). destruct (q y), (p (f y)), (p y); simpl; try lia; by specialize (Hle eq_refl).
Qed.

Lemma count_where_insert {R} (p : R → bool) r t :
  count_where p (insert_row r t) = (count_where p t + if p r then 1 else 0)%nat.
Proof.
  unfold count_where, select, insert_row. rewrite List.filter_app, length_app. simpl. by destruct (p r).
Qed.

Lemma get_row_ext {R} (p q : R → bool) t : (∀ r, p r = q r) → get_row p t = get_row q t.
Proof. intros H. unfold get_row. induction t as [|x t IH]; simpl; [done|]. by rewrite H, IH. Qed.

Lemma update_where_ext {R} (p q : R → bool) f t : (∀ r, p r = q r) → update_where p f t = update_where q f t.
Proof. intros H. unfold update_where. apply list_fmap_ext. intros _ r _. by rewrite H. Qed.

(** ** Primary keys *)
Section Keyed.
Context {R K : Type} `{EqDecision K} (key : R → K).

Definition has_key (k : K) (r : R) : bool := bool_decide (key r = k).
Definition by_key (k : K) (t : list R) : option R := get_row (has_key k) t.
Definition unique_keys (t : list R) : Prop := NoDup (key <$> t).

Lemma by_key_Some k t r : by_key k t = Some r → In r t ∧ key r = k.
Proof. intros [? Hk]%get_row_Some. split; [done|]. by apply bool_decide_eq_true in Hk. Qed.

Lemma by_key_None k t : by_key k t = None ↔ ∀ r, In r t → key r ≠ k.
Proof. unfold by_key. rewrite get_row_None. unfold has_key. by setoid_rewrite bool_decide_eq_false. Qed.

Lemma by_key_unique t r : unique_keys t → In r t → by_key (key r) t = Some r.
Proof.
  unfold unique_keys, by_key, get_row. induction t as [|x t IH]; simpl; [done|].
  rewrite NoDup_cons. intros [Hx Ht] [->|Hr].
  - unfold has_key. by rewrite bool_decide_true.
  - unfold has_key at 1. case_bool_decide as E.
    + destruct Hx. rewrite E. apply list_elem_of_fmap. exists r. by rewrite list_elem_of_In.
    + by apply IH.
Qed.

Lemma unique_key_eq t r r' : unique_keys t → In r t → In r' t → key r = key r' → r = r'.
Proof.
  intros Ht Hr Hr' E. apply (by_key_unique _ _ Ht) in Hr, Hr'. rewrite E in Hr. congruence.
Qed.

Lemma update_where_keys p f (t : list R) :
  (∀ r, key (f r) = key r) → key <$> update_where p f t = key <$> t.
Proof.
  intros Hf. unfold update_where. rewrite <-list_fmap_compose. apply list_fmap_ext.
  intros _ r _. simpl. destruct (p r); auto.
Qed.

Lemma unique_keys_update p f t :
  (∀ r, key (f r) = key r) → unique_keys t → unique_keys (update_where p f t).
Proof. intros Hf. unfold unique_keys. by rewrite update_where_keys. Qed.

Lemma unique_keys_delete p t : unique_keys t → unique_keys (delete_where p t).
Proof.
  unfold unique_keys, delete_where. induction t as [|x t IH]; simpl; [done|].
  rewrite NoDup_cons. intros [Hx Ht]. destruct (p x); simpl; [auto|].
  apply NoDup_cons. split; [|auto]. contradict Hx.
  apply list_elem_of_fmap in Hx as (y & E & Hy). apply list_elem_of_fmap.
  exists y. split; [done|]. rewrite list_elem_of_In in *. by apply filter_In in Hy as [? _].
Qed.

Lemma unique_keys_insert r t :
  unique_keys t → by_key (key r) t = None → unique_keys (insert_row r t).
Proof.
  unfold unique_keys, insert_row. intros Ht Hn. rewrite fmap_app. apply NoDup_app.
  split; [done|]. split; [|apply NoDup_singleton].
  intros k Hk. simpl. rewrite list_elem_of_singleton. intros ->.
  apply list_elem_of_fmap in Hk as (y & E & Hy). rewrite by_key_None in Hn.
  apply (Hn y); [by apply list_elem_of_In|done].
Qed.

Lemma by_key_update p f k t :
  (∀ r, key (f r) = key r) →
  by_key k (update_where p f t) = (λ r, if p r then f r else r) <$> by_key k t.
Proof.
  intros Hf. unfold by_key, get_row, update_where, has_key.
  induction t as [|x t IH]; simpl; [done|].
  assert (key (if p x then f x else x) = key x) as -> by (destruct (p x); auto).
  case_bool_decide; [done|]. apply IH.
Qed.

(** It is enough that the changed rows keep their key. *)
Lemma update_where_on p f (t : list R) : update_where p f t = update_where p (λ r, if p r then f r else r) t.
Proof. unfold update_where. apply list_fmap_ext. intros _ r _. by destruct (p r) eqn:E; simpl; rewrite ?E. Qed.

Lemma by_key_update_on p f k t :
  (∀ r, p r = true → key (f r) = key r) →
  by_key k (update_where p f t) = (λ r, if p r then f r else r) <$> by_key k t.
Proof.
  intros Hf. rewrite update_where_on, by_key_update.
  - destruct (by_key k t) as [r|]; [|done]. simpl. by destruct (p r).
  - intros r. destruct (p r) eqn:E; auto.
Qed.

Lemma unique_keys_update_on p f t :
  (∀ r, p r = true → key (f r) = key r) → unique_keys t → unique_keys (update_where p f t).
Proof. intros Hf. rewrite update_where_on. apply unique_keys_update. intros r. destruct (p r) eqn:E; auto. Qed.

Lemma by_key_insert r k t :
  by_key k (insert_row r t) =
    match by_key k t with Some x => Some x | None => if has_key k r then Some r else None end.
Proof.
  unfold by_key, get_row, insert_row. induction t as [|x t IH]; simpl; [by destruct (has_key k r)|].
  destruct (has_key k x); auto.
Qed.

Lemma by_key_delete p k t :
  unique_keys t →
  by_key k (delete_where p t) = match by_key k t with Some r => if p r then None else Some r | None => None end.
Proof.
  intros Hu. destruct (by_key k t) as [r|] eqn:E.
  - apply by_key_Some in E as [Hr <-]. destruct (p r) eqn:Ep.
    + apply by_key_None. intros r' [Hr' Hp']%delete_where_In E.
      rewrite (unique_key_eq t r' r) in Hp'; congruence.
    + rewrite <-(by_key_unique (delete_where p t) r); [done| |].
      * by apply unique_keys_delete.
      * by apply delete_where_In.
  - rewrite by_key_None in E |- *. intros r [? _]%delete_where_In. auto.
Qed.

(** An UPDATE whose condition names the key of one of its rows changes that row. *)
Lemma update_one_row (q : R → bool) (f : R → R) (t : list R) (r : R) :
  unique_keys t → (∀ x, key (f x) = key x) → In r t → q r = true →
  (∀ x, q x = true → key x = key r) →
  returning q f t = Some (f r) ∧
  ∀ k, by_key k (update_where q f t) = if bool_decide (k = key r) then Some (f r) else by_key k t.
Proof.
  intros Hu Hf Hr Hp Hk. split.
  - unfold returning. destruct (get_row q t) as [x|] eqn:E.
    + apply get_row_Some in E as [Hx Hq%Hk]. simpl. by rewrite (unique_key_eq t x r).
    + rewrite get_row_None in E. specialize (E r Hr). congruence.
  - intros k. rewrite by_key_update by done. case_bool_decide as E; subst.
    + rewrite by_key_unique by done. simpl. by rewrite Hp.
    + destruct (by_key k t) as [x|] eqn:Ex; [|done]. simpl.
      apply by_key_Some in Ex as [_ Hx]. destruct (q x) eqn:Hq; [|done]. apply Hk in Hq. congruence.
Qed.

(** A statement that names a primary key touches at most one row. *)
Lemma count_key_le_1 k p t : unique_keys t → count_where (λ r, has_key k r && p r) t ≤ 1.
Proof.
  unfold unique_keys, count_where, select. induction t as [|x t IH]; simpl; [lia|].
  rewrite NoDup_cons. intros [Hx Ht]. specialize (IH Ht).
  destruct (has_key k x && p x) eqn:E; [|lia]. simpl.
  enough (List.filter (λ r, has_key k r && p r) t = []) as -> by (simpl; lia).
  destruct (List.filter _ t) as [|y l] eqn:El; [done|].
  assert (In y (List.filter (λ r, has_key k r && p r) t)) as Hy by (rewrite El; by left).
  apply filter_In in Hy as [Hy Hk]. unfold has_key in *.
  apply andb_prop in E as [E _]. apply andb_prop in Hk as [Hk _].
  apply bool_decide_eq_true in E, Hk. destruct Hx. rewrite E, <-Hk.
  apply list_elem_of_fmap. exists y. by rewrite list_elem_of_In.
Qed.
End Keyed.

(** ** DELETE ... WHERE key IN (SELECT key ... ORDER BY ... LIMIT -1 OFFSET n) *)
Section Retention.
Context {R K : Type} `{EqDecision K} (key : R → K) (le : R → R → bool) (q : R → bool) (n : nat).
Implicit Types t : list R.

Definition beyond t : list K := key <$> drop n (order_by le (select q t)).
Definition delete_beyond t : list R := delete_where (λ r, bool_decide (key r ∈ beyond t)) t.

Lemma select_delete (p : R → bool) t : select p t = delete_where (λ r, negb (p r)) t.
Proof. apply filter_ext. intros r. by rewrite negb_involutive. Qed.

Lemma unique_keys_select p t : unique_keys key t → unique_keys key (select p t).
Proof. rewrite select_delete. apply unique_keys_delete. Qed.

Lemma unique_keys_sorted t : unique_keys key t → NoDup (key <$> order_by le (select q t)).
Proof. intros Ht. rewrite order_by_perm. by apply unique_keys_select. Qed.

Lemma beyond_In t r : unique_keys key t → In r t →
  key r ∈ beyond t ↔ In r (drop n (order_by le (select q t))).
Proof.
  intros Hu Hr. unfold beyond. rewrite list_elem_of_fmap. split.
  - intros (r' & E & Hr'). rewrite list_elem_of_In in Hr'.
    rewrite (unique_key_eq key t r r'); [done|done|done| |done].
    assert (In r' (order_by le (select q t))) as H.
    { rewrite <-(take_drop n (order_by _ _)). apply in_app_iff. by right. }
    by apply order_by_In, select_In in H as [? _].
  - intros H. exists r. by rewrite list_elem_of_In.
Qed.

(** Among the selected rows, exactly the first [n] stay. *)
Lemma delete_beyond_In t r : unique_keys key t → q r = true →
  In r (delete_beyond t) ↔ In r (take n (order_by le (select q t))).
Proof.
  intros Hu Hq. unfold delete_beyond. rewrite delete_where_In, bool_decide_eq_false. split.
  - intros [Hr Hb]. rewrite (beyond_In t r Hu Hr) in Hb.
    assert (In r (order_by le (select q t))) as H by (by apply order_by_In, select_In).
    rewrite <-(take_drop n (order_by _ _)) in H. by apply in_app_iff in H as [?|?].
  - intros H. assert (In r t) as Hr.
    { assert (In r (order_by le (select q t))) as Hs.
      { rewrite <-(take_drop n (order_by _ _)). apply in_app_iff. by left. }
      by apply order_by_In, select_In in Hs as [? _]. }
    split; [done|]. rewrite (beyond_In t r Hu Hr). intros Hd.
    pose proof (unique_keys_sorted t Hu) as Hnd.
    rewrite <-(take_drop n (order_by _ _)), fmap_app in Hnd.
    apply NoDup_app in Hnd as (_ & Hdis & _).
    apply (Hdis (key r)); apply list_elem_of_fmap; exists r; by rewrite list_elem_of_In.
Qed.

(** The other rows are not touched. *)
Lemma delete_beyond_other t r : unique_keys key t → q r = false →
  In r (delete_beyond t) ↔ In r t.
Proof.
  intros Hu Hq. unfold delete_beyond. rewrite delete_where_In, bool_decide_eq_false.
  split; [by intros [? _]|]. intros Hr. split; [done|]. rewrite (beyond_In t r Hu Hr). intros Hd.
  assert (In r (order_by le (select q t))) as H.
  { rewrite <-(take_drop n (order_by _ _)). apply in_app_iff. by right. }
  apply order_by_In, select_In in H as [_ ?]. congruence.
Qed.

Lemma delete_beyond_count t : unique_keys key t →
  count_where q (delete_beyond t) = Nat.min n (count_where q t).
Proof.
  intros Hu. unfold count_where.
  rewrite <-(Permutation_length (order_by_perm le (select q t))), <-length_take.
  apply Permutation_length, NoDup_Permutation.
  - apply (NoDup_fmap_1 key). apply unique_keys_select. by apply unique_keys_delete.
  - apply (NoDup_fmap_1 key). pose proof (unique_keys_sorted t Hu) as Hnd.
    rewrite <-(take_drop n (order_by _ _)), fmap_app in Hnd.
    by apply NoDup_app in Hnd as [? _].
  - intros r. rewrite !list_elem_of_In, select_In. split.
    + intros [Hr Hq]. by apply delete_beyond_In.
    + intros Hr. assert (q r = true) as Hq.
      { assert (In r (order_by le (select q t))) as H.
        { rewrite <-(take_drop n (order_by _ _)). apply in_app_iff. by left. }
        by apply order_by_In, select_In in H as [_ ?]. }
      split; [|done]. by apply delete_beyond_In.
Qed.

(** A row that stays comes before every row that goes. *)
Lemma delete_beyond_before t r r' :
  (∀ x y, le x y = true ∨ le y x = true) →
  (∀ x y z, le x y = true → le y z = true → le x z = true) →
  unique_keys key t → In r t → ¬ In r (delete_beyond t) →
  In r' (delete_beyond t) → q r' = true → q r = true ∧ le r' r = true.
Proof.
  intros Htot Htr Hu Hr Hgone Hkept Hq'. destruct (q r) eqn:Hq.
  - split; [done|]. rewrite delete_beyond_In in Hkept by done.
    rewrite delete_beyond_In in Hgone by done.
    assert (In r (order_by le (select q t))) as H by (by apply order_by_In, select_In).
    pose proof (order_by_sorted le Htot Htr (select q t)) as Hs.
    rewrite <-(take_drop n (order_by _ _)) in H, Hs. apply in_app_iff in H as [?|H]; [done|].
    apply (StronglySorted_app_1_elem_of _ _ _ _ _ Hs); by rewrite list_elem_of_In.
  - by rewrite delete_beyond_other in Hgone.
Qed.
End Retention.

Create HintDb sql.
#[export] Hint Resolve update_where_Forall delete_where_Forall insert_row_Forall
  unique_keys_update unique_keys_delete unique_keys_insert : sql.

(** Rows that satisfy [p] and carry one of the keys [ks]. *)
Lemma count_where_keys {R} (key : R → string) (p : R → bool) (ks : list string) t :
  unique_keys key t → (∀ r, In r t → p r = true → key r ∈ ks) → (count_where p t ≤ length ks)%nat.
Proof.
  intros Hu Hk. unfold count_where. rewrite <-(length_fmap key).
  apply submseteq_length, NoDup_submseteq.
  - by apply unique_keys_select.
  - intros k (r & -> & Hr)%list_elem_of_fmap. rewrite list_elem_of_In in Hr.
    apply select_In in Hr as [? ?]. auto.
Qed.

(** ** A table whose rows all changed in place *)
Section Mapped.
Context {R : Type} (key : R → string).

Lemma by_key_fmap (f : R → R) k t : (∀ r, key (f r) = key r) → by_key key k (f <$> t) = f <$> by_key key k t.
Proof. intros Hf. apply (by_key_update key (λ _, true) f k t Hf). Qed.

Lemma unique_keys_fmap (f : R → R) t : (∀ r, key (f r) = key r) → unique_keys key t → unique_keys key (f <$> t).
Proof. intros Hf. apply (unique_keys_update key (λ _, true) f t Hf). Qed.

Lemma count_where_fmap (p q : R → bool) (f : R → R) t :
  (∀ r, In r t → p (f r) = q r) → count_where p (f <$> t) = count_where q t.
Proof.
  unfold count_where, select. induction t as [|x t IH]; intros H; simpl; [done|].
  rewrite (H x (or_introl eq_refl)). assert (IH' := IH (λ r Hr, H r (or_intror Hr))).
  destruct (q x); simpl; [f_equal|]; exact IH'.
Qed.

Lemma count_where_mono (p q : R → bool) t :
  (∀ r, In r t → p r = true → q r = true) → (count_where p t ≤ count_where q t)%nat.
Proof.
  unfold count_where, select. induction t as [|x t IH]; intros H; simpl; [done|].
  assert (IH' := IH (λ r Hr, H r (or_intror Hr))). pose proof (H x (or_introl eq_refl)) as Hx.
  destruct (p x); simpl; [rewrite Hx by done; simpl; lia|destruct (q x); simpl; lia].
Qed.
End Mapped.
