(* ===== verification/Json.v ===== *)
(** * JSON values and the dynamic checks made on them

    The values of [JSON.parse], with the predicates of the language the
    parsers of packages/shared apply to an [unknown]: [typeof], [=== null],
    [Array.isArray], [Object.keys], [Object.hasOwn], [Number.isInteger] and
    [===].  [undefined] is the [None] of a property lookup.  An object is the
    list of its properties; the number 1e999 reads as [Infinity]. *)
From Stdlib Require Import QArith.
From S2P Require Import Prelude.
Open Scope Z_scope.

Inductive number :=
| Num (q : Q)
| Infinity
| NegInfinity
| NaN.

Inductive json :=
| JNull
| JBool (b : bool)
| JNum (n : number)
| JStr (s : string)
| JArr (l : list json)
| JObj (ps : list (string * json)).

Definition int (z : Z) : json := JNum (Num (inject_Z z)).

Definition num_le (a b : number) : bool :=
  match a, b with
  | NaN, _ | _, NaN => false
  | NegInfinity, _ => true
  | _, Infinity => true
  | Num p, Num q => Qle_bool p q
  | _, _ => false
  end.
Definition num_lt (a b : number) : bool :=
  match a, b with
  | NaN, _ | _, NaN => false
  | _, _ => negb (num_le b a)
  end.
Definition num_eq (a b : number) : bool :=
  match a, b with
  | Num p, Num q => Qeq_bool p q
  | Infinity, Infinity | NegInfinity, NegInfinity => true
  | _, _ => false
  end.
(** The number literal [z] of the source. *)
Definition lit (z : Z) : number := Num (inject_Z z).

(** [Number.isFinite], [Number.isInteger], [Number.isSafeInteger]. *)
Definition isFinite (n : number) : bool := match n with Num _ => true | _ => false end.
Definition isInteger (n : number) : bool :=
  match n with Num q => bool_decide (Qnum q mod Zpos (Qden q) = 0) | _ => false end.
Definition isSafeInteger (n : number) : bool :=
  isInteger n && num_le (lit (- 9007199254740991)) n && num_le n (lit 9007199254740991).

(** [value[key]] of an object. *)
Fixpoint prop (ps : list (string * json)) (k : string) : option json :=
  match ps with
  | [] => None
  | (k', v) :: ps => if bool_decide (k = k') then Some v else prop ps k
  end.
Definition keys (ps : list (string * json)) : list string := ps.*1.
Definition hasOwn (ps : list (string * json)) (k : string) : bool := bool_decide (k ∈ keys ps).

(** [a === b] on possibly undefined values; two objects read from different
    places are never identical. *)
Definition strict_eq (a b : option json) : bool :=
  match a, b with
  | None, None => true
  | Some JNull, Some JNull => true
  | Some (JBool x), Some (JBool y) => Bool.eqb x y
  | Some (JNum x), Some (JNum y) => num_eq x y
  | Some (JStr x), Some (JStr y) => bool_decide (x = y)
  | _, _ => false
  end.
Definition is_str (v : option json) (s : string) : bool := strict_eq v (Some (JStr s)).
Definition is_true_json (v : option json) : bool := strict_eq v (Some (JBool true)).
Definition is_null_json (v : option json) : bool := strict_eq v (Some JNull).

Definition as_string (v : option json) : option string :=
  match v with Some (JStr s) => Some s | _ => None end.
Definition as_bool (v : option json) : option bool :=
  match v with Some (JBool b) => Some b | _ => None end.
Definition as_number (v : option json) : option number :=
  match v with Some (JNum n) => Some n | _ => None end.
Definition as_array (v : option json) : option (list json) :=
  match v with Some (JArr l) => Some l | _ => None end.
Definition as_object (v : option json) : option (list (string * json)) :=
  match v with Some (JObj ps) => Some ps | _ => None end.

Definition is_string (v : option json) : bool := isSome (as_string v).
Definition is_boolean (v : option json) : bool := isSome (as_bool v).
Definition is_array (v : option json) : bool := isSome (as_array v).

(** A string of the code, or null. *)
Definition nullable (o : option string) : json := from_option JStr JNull o.

Lemma prop_keys ps k : is_Some (prop ps k) ↔ k ∈ keys ps.
Proof.
  induction ps as [|[k' v] ps IH]; simpl.
  - split; [by intros []|by intros ?%not_elem_of_nil].
  - case_bool_decide; subst.
    + split; [|eauto]. intros _. by left.
    + rewrite IH. unfold keys. simpl. rewrite elem_of_cons. naive_solver.
Qed.

Lemma is_str_Some v s : is_str v s = true ↔ v = Some (JStr s).
Proof.
  unfold is_str, strict_eq. destruct v as [[]|]; try (split; congruence).
  rewrite bool_decide_eq_true. split; congruence.
Qed.

Lemma is_true_Some v : is_true_json v = true ↔ v = Some (JBool true).
Proof. unfold is_true_json, strict_eq. destruct v as [[| [] | | | |]|]; simpl; split; congruence. Qed.

Lemma num_le_int a b : num_le (lit a) (lit b) = bool_decide (a ≤ b).
Proof.
  unfold num_le, lit, Qle_bool, inject_Z. simpl. rewrite !Z.mul_1_r.
  case_bool_decide; [by apply Z.leb_le|]. apply Z.leb_gt. lia.
Qed.

Lemma isInteger_int z : isInteger (lit z) = true.
Proof. unfold isInteger, lit. simpl. rewrite Z.mod_1_r. done. Qed.

(** An integer number of a JSON text is one of the integers. *)
Lemma isInteger_inv n : isInteger n = true → ∃ z, num_eq n (lit z) = true.
Proof.
  unfold isInteger. destruct n as [[a b]| | |]; try done. simpl.
  intros Hm%bool_decide_eq_true. exists (a / Zpos b). simpl.
  apply Qeq_bool_iff. unfold Qeq. simpl. rewrite Z.mul_1_r.
  pose proof (Z_div_mod_eq_full a (Zpos b)). lia.
Qed.

(** [{ ...a, ...b }]. *)
Fixpoint set_prop (ps : list (string * json)) (k : string) (v : json) : list (string * json) :=
  match ps with
  | [] => [(k, v)]
  | (k', v') :: ps => if bool_decide (k' = k) then (k, v) :: ps else (k', v') :: set_prop ps k v
  end.
Definition spread (a b : list (string * json)) : list (string * json) :=
  foldl (λ ps p, set_prop ps p.1 p.2) a b.

Lemma set_prop_lookup ps k v k' : prop (set_prop ps k v) k' = if bool_decide (k' = k) then Some v else prop ps k'.
Proof.
  induction ps as [|[k1 v1] ps IH]; simpl; [done|].
  destruct (decide (k1 = k)) as [->|Hne].
  - rewrite (bool_decide_true (k = k)) by done. simpl. by case_bool_decide.
  - rewrite (bool_decide_false (k1 = k)) by done. simpl. rewrite IH.
    destruct (decide (k' = k1)) as [->|]; [by rewrite (bool_decide_true (k1 = k1)), bool_decide_false by done|].
    by rewrite (bool_decide_false (k' = k1)) by done.
Qed.

(** The integer that a number is. *)
Definition number_Z (n : number) : Z := match n with Num q => Qnum q / Zpos (Qden q) | _ => 0 end.

Lemma number_Z_int z : number_Z (lit z) = z.
Proof. unfold number_Z, lit. simpl. apply Z.div_1_r. Qed.

Lemma number_Z_bounds n a b : isInteger n = true → num_lt n (lit a) = false → num_lt (lit b) n = false → a ≤ number_Z n ≤ b.
Proof.
  destruct n as [[x y]| | |]; try done. unfold isInteger, num_lt, num_le, Qle_bool, lit, number_Z. simpl.
  rewrite !Z.mul_1_r. intros Hm%bool_decide_eq_true H1%negb_false_iff%Z.leb_le H2%negb_false_iff%Z.leb_le.
  pose proof (Z_div_mod_eq_full x (Zpos y)). nia.
Qed.
