(* ===== verification/JsString.v ===== *)
(** * JavaScript strings and POSIX paths

    The string methods and the functions of node:path (posix) that the program
    calls.  A string is the sequence of its UTF-16 code units below 256. *)
From Stdlib Require Import Ascii.
From S2P Require Import Prelude.

#[global] Arguments String.append : simpl nomatch.

Definition code (c : ascii) : nat := nat_of_ascii c.
Definition between (lo hi : nat) (c : ascii) : bool := (lo <=? code c) && (code c <=? hi).

(** White space of [trim] and of [\s]. *)
Definition is_white (c : ascii) : bool := between 9 13 c || bool_decide (code c ∈ [32; 160]).
Definition is_digit : ascii → bool := between 48 57.
Definition is_lower : ascii → bool := between 97 122.
Definition is_upper : ascii → bool := between 65 90.
Definition is_alnum (c : ascii) : bool := is_digit c || is_lower c || is_upper c.
Definition is_hex (c : ascii) : bool := is_digit c || between 97 102 c.

Fixpoint all_chars (p : ascii → bool) (s : string) : bool :=
  match s with "" => true | String c s => p c && all_chars p s end.
Fixpoint map_chars (f : ascii → ascii) (s : string) : string :=
  match s with "" => "" | String c s => String (f c) (map_chars f s) end.
Fixpoint trimStart (s : string) : string :=
  match s with String c s' => if is_white c then trimStart s' else s | "" => "" end.
Fixpoint trimEnd (s : string) : string :=
  match s with
  | "" => ""
  | String c s => match trimEnd s with
                  | "" => if is_white c then "" else String c ""
                  | s' => String c s'
                  end
  end.
Definition trim (s : string) : string := trimEnd (trimStart s).

Definition lower_char (c : ascii) : ascii :=
  if is_upper c || (between 192 222 c && negb (code c =? 215)) then ascii_of_nat (code c + 32) else c.
Definition toLowerCase : string → string := map_chars lower_char.
(** SQLite's [lower] folds the ASCII letters. *)
Definition sqlite_lower : string → string :=
  map_chars (λ c, if is_upper c then ascii_of_nat (code c + 32) else c).

Definition len (s : string) : Z := Z.of_nat (String.length s).
(** [Buffer.byteLength(s, "utf8")]. *)
Fixpoint byteLength (s : string) : Z :=
  match s with "" => 0 | String c s => (if code c <? 128 then 1 else 2) + byteLength s end.

Lemma byteLength_nonneg s : (0 ≤ byteLength s)%Z.
Proof. induction s as [|c s IH]; simpl; [lia|]. destruct (code c <? 128)%nat; lia. Qed.

Definition startsWith (p s : string) : bool := String.prefix p s.
Fixpoint includes (p s : string) : bool :=
  startsWith p s || match s with "" => false | String _ s' => includes p s' end.
(** [s.replaceAll(\, /)], and [/^[A-Za-z]:\//]. *)
Definition slashed : string → string := map_chars (λ c, if Ascii.eqb c "\" then "/"%char else c).
Definition drive_prefix (s : string) : bool :=
  match s with String c (String ":" (String "/" _)) => is_lower c || is_upper c | _ => false end.
(** [s.indexOf(p)]. *)
Fixpoint indexOf (p s : string) : option nat :=
  if startsWith p s then Some 0%nat
  else match s with "" => None | String _ s => S <$> indexOf p s end.
Definition has_char (c : ascii) (s : string) : bool := negb (all_chars (λ x, negb (Ascii.eqb x c)) s).
Arguments has_char c%_char_scope s%_stdpp_scope.
Fixpoint last_char (s : string) : option ascii :=
  match s with "" => None | String c "" => Some c | String _ s => last_char s end.
Definition endsWith_char (c : ascii) (s : string) : bool := bool_decide (last_char s = Some c).
(** [s.slice(n)]. *)
Fixpoint drop_str (n : nat) (s : string) : string :=
  match n, s with 0, _ => s | S n, String _ s => drop_str n s | S _, "" => "" end.
(** [s.slice(0, n)]. *)
Fixpoint take_str (n : nat) (s : string) : string :=
  match n, s with 0, _ => "" | S n, String c s => String c (take_str n s) | S _, "" => "" end.

(** [s.split(c)] for a one-character separator. *)
Fixpoint split_on (c : ascii) (s : string) : list string :=
  match s with
  | "" => [""]
  | String x s' =>
      if Ascii.eqb x c then "" :: split_on c s'
      else match split_on c s' with
           | [] => [String x ""]
           | w :: ws => String x w :: ws
           end
  end.
Fixpoint join (sep : string) (l : list string) : string :=
  match l with [] => "" | [x] => x | x :: l => x +:+ sep +:+ join sep l end.

Lemma all_chars_app p a b : all_chars p (a +:+ b) = all_chars p a && all_chars p b.
Proof. induction a as [|c a IH]; simpl; [done|]. by rewrite IH, andb_assoc. Qed.

Lemma all_chars_impl (p q : ascii → bool) s :
  (∀ c, p c = true → q c = true) → all_chars p s = true → all_chars q s = true.
Proof. intros H. induction s; simpl; [done|]. intros [Hp Hs]%andb_prop. rewrite (H _ Hp). auto. Qed.

Lemma split_on_cons c s : ∃ w ws, split_on c s = w :: ws.
Proof.
  induction s as [|x s IH]; simpl; [eauto|]. destruct (Ascii.eqb x c); [eauto|].
  destruct IH as (w & ws & ->). eauto.
Qed.

Lemma join_split c s : join (String c "") (split_on c s) = s.
Proof.
  induction s as [|x s IH]; simpl; [done|]. destruct (Ascii.eqb x c) eqn:E.
  - apply Ascii.eqb_eq in E as ->. destruct (split_on_cons c s) as (w & ws & Hw).
    rewrite Hw in *. simpl in *. by rewrite IH.
  - destruct (split_on_cons c s) as (w & ws & Hw). rewrite Hw in *.
    destruct ws as [|w' ws]; [by rewrite <-IH|]. by rewrite <-IH.
Qed.

Definition no_char (c : ascii) (s : string) : Prop := has_char c s = false.

Lemma no_char_all c s : no_char c s ↔ all_chars (λ x, negb (Ascii.eqb x c)) s = true.
Proof. unfold no_char, has_char. destruct (all_chars _ s); simpl; split; congruence. Qed.

Lemma no_char_String c x s : no_char c (String x s) ↔ x ≠ c ∧ no_char c s.
Proof.
  rewrite !no_char_all. simpl. rewrite andb_true_iff, negb_true_iff, Ascii.eqb_neq. done.
Qed.

Lemma no_char_app c a b : no_char c a → no_char c b → no_char c (a +:+ b).
Proof. rewrite !no_char_all, all_chars_app. by intros -> ->. Qed.

Lemma length_append (a b : string) : String.length (a +:+ b) = (String.length a + String.length b)%nat.
Proof. induction a as [|c a IH]; simpl; [done|]. by rewrite IH. Qed.

Lemma split_on_no_char c s : Forall (no_char c) (split_on c s).
Proof.
  induction s as [|x s IH]; simpl; [by constructor|]. destruct (Ascii.eqb x c) eqn:E; [by constructor|].
  apply Ascii.eqb_neq in E. destruct (split_on_cons c s) as (w & ws & Hw). rewrite Hw in *.
  inversion IH; subst. constructor; [|done]. by apply no_char_String.
Qed.

Lemma split_on_single c s : no_char c s → split_on c s = [s].
Proof.
  induction s as [|x s IH]; simpl; [done|]. intros [Hx Hs]%no_char_String.
  rewrite (proj2 (Ascii.eqb_neq x c) Hx). by rewrite IH.
Qed.

Lemma split_on_app c a b : no_char c a → split_on c (a +:+ String c b) = a :: split_on c b.
Proof.
  induction a as [|x a IH]; simpl; [by rewrite Ascii.eqb_refl|]. intros [Hx Hs]%no_char_String.
  rewrite (proj2 (Ascii.eqb_neq x c) Hx). by rewrite IH.
Qed.

Lemma split_on_app_all c a b : split_on c (a +:+ String c b) = split_on c a ++ split_on c b.
Proof.
  induction a as [|x a IH]; simpl; [by rewrite Ascii.eqb_refl|]. rewrite IH.
  destruct (Ascii.eqb x c); [done|]. by destruct (split_on_cons c a) as (w & ws & ->).
Qed.

Lemma split_join c l : l ≠ [] → Forall (no_char c) l → split_on c (join (String c "") l) = l.
Proof.
  intros Hl. induction 1 as [|x l Hx Hl' IH]; [done|]. destruct l as [|y l]; simpl.
  - by apply split_on_single.
  - simpl in IH. rewrite split_on_app by done. f_equal. by apply IH.
Qed.

Lemma string_app_assoc (a b c : string) : (a +:+ b) +:+ c = a +:+ b +:+ c.
Proof. induction a; simpl; congruence. Qed.

Lemma string_app_nil_r (a : string) : a +:+ "" = a.
Proof. induction a; simpl; congruence. Qed.

Lemma string_app_inv_head (a b c : string) : a +:+ b = a +:+ c → b = c.
Proof. induction a; simpl; [done|]. intros H. injection H. done. Qed.

Lemma startsWith_app p s : startsWith p s = true ↔ ∃ r, s = p +:+ r.
Proof.
  unfold startsWith. revert s. induction p as [|c p IH]; intros s; simpl.
  - split; [by exists s|by destruct s].
  - destruct s as [|x s]; [split; [done|by intros [r Hr]]|].
    change (String.prefix (String c p) (String x s)) with
      (if ascii_dec c x then String.prefix p s else false).
    destruct (ascii_dec c x) as [->|Hc].
    + split; [intros [r Hr]%IH|intros [r Hr]; apply IH]; exists r; congruence.
    + split; [done|]. intros [r Hr]. congruence.
Qed.

Lemma trimEnd_white s : all_chars is_white s = true ↔ trimEnd s = "".
Proof.
  induction s as [|c s IH]; simpl; [done|]. destruct (trimEnd s) eqn:E.
  - rewrite (proj2 IH eq_refl), andb_true_r. destruct (is_white c); done.
  - split; [|done]. intros [_ H]%andb_prop. by apply IH in H.
Qed.

(** [trim] leaves no white space at either end. *)
Lemma trimEnd_last s c : last_char (trimEnd s) = Some c → is_white c = false.
Proof.
  induction s as [|x s IH]; simpl; [done|]. destruct (trimEnd s) as [|y s'] eqn:E.
  - destruct (is_white x) eqn:Hx; simpl; [done|]. by intros [= ->].
  - intros H. apply IH. simpl in *. destruct s'; done.
Qed.

(** ** node:path *)
Definition sep : ascii := "/".

Definition isAbsolute (p : string) : bool := startsWith "/" p.
Definition segments (p : string) : list string := split_on sep p.

(** [normalizeString]: [st] is the list of the segments kept, last first. *)
Fixpoint norm_segments (allowAboveRoot : bool) (st segs : list string) : list string :=
  match segs with
  | [] => reverse st
  | x :: segs =>
      if bool_decide (x = "" ∨ x = ".") then norm_segments allowAboveRoot st segs
      else if bool_decide (x = "..") then
        match st with
        | y :: st' => if bool_decide (y = "..") then norm_segments allowAboveRoot (x :: st) segs
                      else norm_segments allowAboveRoot st' segs
        | [] => norm_segments allowAboveRoot (if allowAboveRoot then [x] else []) segs
        end
      else norm_segments allowAboveRoot (x :: st) segs
  end.
Definition normalizeString (p : string) (allowAboveRoot : bool) : list string :=
  norm_segments allowAboveRoot [] (segments p).

Definition normalize (p : string) : string :=
  if bool_decide (p = "") then "." else
  let s := join "/" (normalizeString p (negb (isAbsolute p))) in
  let trailing := endsWith_char sep p in
  if bool_decide (s = "") then
    if isAbsolute p then "/" else if trailing then "./" else "."
  else let s := if trailing then s +:+ "/" else s in
       if isAbsolute p then "/" +:+ s else s.

Definition path_join (args : list string) : string :=
  match List.filter (λ a, negb (bool_decide (a = ""))) args with
  | [] => "."
  | l => normalize (join "/" l)
  end.

(** [path.resolve(cwd, ...args)]: the last absolute argument and what follows
    it; the working directory is absolute. *)
Fixpoint resolve_from (acc : string) (args : list string) : string :=
  match args with
  | [] => acc
  | a :: args =>
      if bool_decide (a = "") then resolve_from acc args
      else if isAbsolute a then resolve_from a args
      else resolve_from (acc +:+ "/" +:+ a) args
  end.
Definition resolve (cwd : string) (args : list string) : string :=
  "/" +:+ join "/" (normalizeString (resolve_from cwd args) false).

Fixpoint strip_common (a b : list string) : list string * list string :=
  match a, b with
  | x :: a', y :: b' => if bool_decide (x = y) then strip_common a' b' else (a, b)
  | _, _ => (a, b)
  end.
(** [path.relative(from, to)]. *)
Definition relative (cwd from to : string) : string :=
  let '(f, t) := strip_common (normalizeString (resolve cwd [from]) false)
                              (normalizeString (resolve cwd [to]) false) in
  join "/" (((λ _, "..") <$> f) ++ t).

Fixpoint drop_trailing_seps (l : list string) : list string :=
  match l with "" :: l => drop_trailing_seps l | _ => l end.
(** [path.basename(p)] and [path.dirname(p)]: trailing separators are ignored. *)
Definition basename (p : string) : string :=
  match drop_trailing_seps (reverse (segments p)) with [] => "" | x :: _ => x end.
Definition dirname (p : string) : string :=
  match drop_trailing_seps (reverse (segments p)) with
  | [] => if isAbsolute p then "/" else "."
  | [_] => "."
  | [_; ""] => "/"
  | _ :: rest => let d := join "/" (reverse rest) in if bool_decide (d = "/") then "//" else d
  end.

Example path_ex1 : path_join ["/srv/zos"; "data/../state/./zos.sqlite"] = "/srv/zos/state/zos.sqlite".
Proof. reflexivity. Qed.
Example path_ex2 : resolve "/w" ["a/b"; "../../../c"; ""] = "/c" ∧ resolve "/w" ["a"; "/b/"; "c//d/"] = "/b/c/d".
Proof. done. Qed.
Example path_ex3 : relative "/" "/a/b/c" "/a/d" = "../../d" ∧ relative "/" "/a" "/a/" = "" ∧
  relative "/w" "x" "x/..y" = "..y".
Proof. done. Qed.
Example path_ex4 : dirname "/a/b//" = "/a" ∧ dirname "/a" = "/" ∧ dirname "a" = "." ∧ dirname "/" = "/" ∧
  basename "/a/b//" = "b" ∧ basename "/" = "" ∧ dirname "//a" = "//" ∧ dirname "a//b" = "a/".
Proof. done. Qed.
Example path_ex5 : normalize "./" = "./" ∧ normalize "a/../../b/" = "../b/" ∧ normalize "/.." = "/" ∧
  path_join [""; ""] = "." ∧ path_join ["."; "x"] = "x".
Proof. done. Qed.

(** A real name: what [normalizeString] keeps of a rooted path. *)
Definition plain_name (x : string) : Prop := x ≠ "" ∧ x ≠ "." ∧ x ≠ ".." ∧ no_char sep x.
#[global] Instance plain_name_dec x : Decision (plain_name x).
Proof. unfold plain_name, no_char. apply _. Defined.

Lemma norm_segments_plain st segs :
  Forall plain_name st → Forall (no_char sep) segs → Forall plain_name (norm_segments false st segs).
Proof.
  intros Hst Hs. revert st Hst. induction Hs as [|x segs Hx Hs IH]; intros st Hst; simpl.
  - by apply Forall_reverse.
  - case_bool_decide as E1; [by apply IH|]. case_bool_decide as E2.
    + destruct Hst as [|y st Hy Hst]; [by apply IH|].
      case_bool_decide as E3; [|by apply IH]. destruct Hy as (_&_&Hy&_). done.
    + apply IH. constructor; [|done]. unfold plain_name. naive_solver.
Qed.

Lemma normalizeString_plain p : Forall plain_name (normalizeString p false).
Proof. apply norm_segments_plain; [done|]. apply split_on_no_char. Qed.

Lemma norm_segments_id above st segs :
  Forall plain_name segs → norm_segments above st segs = reverse st ++ segs.
Proof.
  intros H. revert st. induction H as [|x segs (H1&H2&H3&H4) Hs IH]; intros st; simpl.
  - by rewrite app_nil_r.
  - rewrite bool_decide_false by naive_solver. rewrite bool_decide_false by done.
    rewrite IH, reverse_cons. by rewrite <-app_assoc.
Qed.

Definition rooted (l : list string) : string := "/" +:+ join "/" l.

(** The segments of a rooted plain path are read back. *)
Lemma normalizeString_rooted l : Forall plain_name l → normalizeString (rooted l) false = l.
Proof.
  intros H. unfold normalizeString, segments, rooted.
  assert (split_on sep ("/" +:+ join "/" l) = "" :: split_on sep (join "/" l)) as -> by done.
  simpl. destruct l as [|x l]; [done|].
  rewrite split_join; [by apply norm_segments_id|done|].
  eapply Forall_impl; [done|]. by intros ? (_&_&_&?).
Qed.

Lemma resolve_rooted cwd args : resolve cwd args = rooted (normalizeString (resolve_from cwd args) false).
Proof. done. Qed.

Lemma rooted_absolute l : isAbsolute (rooted l) = true.
Proof. apply startsWith_app. by exists (join "/" l). Qed.

(** [path.resolve] is idempotent. *)
Lemma resolve_resolve cwd cwd' args : resolve cwd' [resolve cwd args] = resolve cwd args.
Proof.
  rewrite (resolve_rooted cwd args), resolve_rooted. f_equal. cbn [resolve_from].
  rewrite bool_decide_false by done. rewrite rooted_absolute.
  apply normalizeString_rooted, normalizeString_plain.
Qed.

Lemma rooted_inj a b : Forall plain_name a → Forall plain_name b → rooted a = rooted b → a = b.
Proof.
  intros Ha Hb E. rewrite <-(normalizeString_rooted a), <-(normalizeString_rooted b) by done.
  by rewrite E.
Qed.

Lemma join_app s a b : a ≠ [] → b ≠ [] → join s (a ++ b) = join s a +:+ s +:+ join s b.
Proof.
  intros Ha Hb. induction a as [|x a IH]; [done|]. destruct a as [|y a]; simpl.
  - destruct b; done.
  - simpl in IH. rewrite IH by done. by rewrite !string_app_assoc.
Qed.

Lemma segments_rooted l : Forall plain_name l → l ≠ [] → segments (rooted l) = "" :: l.
Proof.
  intros H Hne. unfold segments, rooted. simpl. f_equal. apply split_join; [done|].
  eapply Forall_impl; [done|]. by intros ? (_&_&_&?).
Qed.

(** One rooted path is a string prefix, up to a separator, of another exactly
    when its segments are a proper prefix. *)
Lemma rooted_prefix a b : Forall plain_name a → Forall plain_name b → a ≠ [] →
  startsWith (rooted a +:+ "/") (rooted b) = true ↔ ∃ r, r ≠ [] ∧ b = a ++ r.
Proof.
  intros Ha Hb Hne. rewrite startsWith_app. split.
  - intros [s Hs]. exists (segments s). rewrite string_app_assoc in Hs.
    change ("/" +:+ s) with (String sep s) in Hs.
    assert (segments (rooted b) = "" :: a ++ segments s) as E.
    { rewrite Hs. unfold segments. rewrite split_on_app_all. fold (segments (rooted a)). by rewrite segments_rooted. }
    split; [unfold segments; by destruct (split_on_cons sep s) as (?&?&->)|].
    destruct b as [|y b]; [|by rewrite segments_rooted in E by done; injection E].
    destruct Ha as [|x a (Hx&_)]; [done|]. unfold rooted, segments in E. simpl in E.
    injection E as E _. congruence.
  - intros (r & Hr & ->). exists (join "/" r). unfold rooted.
    rewrite join_app by done. by rewrite !string_app_assoc.
Qed.

(** ** Identifiers *)
Definition hex_digit (c : ascii) : bool := is_hex (lower_char c).
Definition hex_group (n : Z) (s : string) : bool := bool_decide (len s = n)%Z && all_chars hex_digit s.
Definition first_in (p : ascii → bool) (s : string) : bool :=
  match s with EmptyString => false | String c _ => p c end.
(** The usual expression for a UUID, ignoring case, with these versions. *)
Definition uuid_form (versions : list ascii) (value : string) : bool :=
  match split_on "-" value with
  | [a; b; c; d; e] =>
      hex_group 8 a && hex_group 4 b && hex_group 4 c && hex_group 4 d && hex_group 12 e &&
      first_in (λ x, bool_decide (x ∈ versions)) c &&
      first_in (λ x, bool_decide (lower_char x ∈ ["8"; "9"; "a"; "b"]%char)) d
  | _ => false
  end.

(** ** Lines *)
Definition line_feed : ascii := "010".

Lemma byteLength_app a b : byteLength (a +:+ b) = (byteLength a + byteLength b)%Z.
Proof. induction a as [|c a IH]; simpl; [done|]. rewrite IH. lia. Qed.

Lemma indexOf_char_none c s : no_char c s → indexOf (String c "") s = None.
Proof.
  induction s as [|x s IH]; [done|]. intros [Hx Hs]%no_char_String. simpl. rewrite IH by done.
  destruct (ascii_dec c x) as [->|]; done.
Qed.
Lemma indexOf_char c a b : no_char c a → indexOf (String c "") (a +:+ String c b) = Some (String.length a).
Proof.
  induction a as [|x a IH]; intros Ha.
  - simpl. destruct (ascii_dec c c); [by destruct b|done].
  - apply no_char_String in Ha as [Hx Ha]. simpl. rewrite IH by done. destruct (ascii_dec c x) as [->|]; done.
Qed.
Lemma take_str_app a b : take_str (String.length a) (a +:+ b) = a.
Proof. induction a as [|c a IH]; simpl; [by destruct b|]. by rewrite IH. Qed.
Lemma drop_str_all a : drop_str (String.length a) a = "".
Proof. by induction a as [|c a IH]. Qed.

(** A prefix of a line: it has no line feed yet, or is the whole line. *)
Lemma line_prefix c a r s : no_char c s → a +:+ r = s +:+ String c "" → no_char c a ∨ (a = s +:+ String c "" ∧ r = "").
Proof.
  revert s. induction a as [|x a IH]; intros s Hs H; [by left|]. destruct s as [|y s]; simpl in H.
  - injection H as -> H. right. destruct a; [by simpl in *; subst|done].
  - injection H as -> H. apply no_char_String in Hs as [Hy Hs]. destruct (IH s Hs H) as [Ha|[-> ->]]; [|by right].
    left. by apply no_char_String.
Qed.
