(* ===== verification/JsonText.v ===== *)
(** * JSON texts

    [JSON.stringify] and [JSON.parse], from the language, on the values of
    Json.  A double stands for the decimal number its shortest notation
    denotes; [JSON.parse] does not round a longer notation, and refuses an
    escape of a code unit above 255, which no string of the model holds.  The
    round trip is proved for the texts of what the program sends. *)
From Stdlib Require Import Ascii QArith.
From S2P Require Import Prelude Json JsString.
Open Scope Z_scope.

(** ** Decimal digits *)
Definition digit_char (d : Z) : ascii := ascii_of_nat (Z.to_nat (48 + d)).
Definition digit_val (c : ascii) : Z := Z.of_nat (code c) - 48.

(** [n] in [w] digits, in front of [acc]. *)
Fixpoint fixed (w : nat) (n : Z) (acc : string) : string :=
  match w with
  | O => acc
  | S w => fixed w (n / 10) (String (digit_char (n mod 10)) acc)
  end.
Fixpoint count_digits (fuel : nat) (n : Z) : nat :=
  match fuel with
  | O => 1
  | S fuel => if bool_decide (n < 10) then 1 else S (count_digits fuel (n / 10))
  end.
Definition width (n : Z) : nat := count_digits (Z.to_nat (Z.log2 n)) n.
Definition digits (n : Z) : string := fixed (width n) n "".

(** The digits in front of [s]: the number they continue [v] to, how many they
    are, and the rest. *)
Fixpoint read_digits (v : Z) (k : nat) (s : string) : Z * nat * string :=
  match s with
  | String c s' => if is_digit c then read_digits (10 * v + digit_val c) (S k) s' else (v, k, s)
  | "" => (v, k, "")
  end.

Definition no_digit (s : string) : Prop := match s with String c _ => is_digit c = false | "" => True end.

Lemma digit_char_spec d : 0 ≤ d < 10 → is_digit (digit_char d) = true ∧ digit_val (digit_char d) = d.
Proof.
  intros H. assert (d = 0 ∨ d = 1 ∨ d = 2 ∨ d = 3 ∨ d = 4 ∨ d = 5 ∨ d = 6 ∨ d = 7 ∨ d = 8 ∨ d = 9) as E by lia.
  by destruct E as [->|[->|[->|[->|[->|[->|[->|[->|[->| ->]]]]]]]]].
Qed.

Lemma read_stop v k s : no_digit s → read_digits v k s = (v, k, s).
Proof. destruct s as [|c s]; simpl; [done|]. by intros ->. Qed.

Lemma read_fixed w n v k s : 0 ≤ n < 10 ^ Z.of_nat w →
  read_digits v k (fixed w n s) = read_digits (v * 10 ^ Z.of_nat w + n) (k + w) s.
Proof.
  revert n s. induction w as [|w IH]; intros n s Hn.
  - cbn [fixed]. rewrite Nat.add_0_r. f_equal. change (10 ^ Z.of_nat 0) with 1 in *. lia.
  - assert (10 ^ Z.of_nat (S w) = 10 * 10 ^ Z.of_nat w) as Ep by (rewrite Nat2Z.inj_succ, Z.pow_succ_r; lia).
    cbn [fixed]. rewrite IH.
    2: { split; [apply Z.div_pos; lia|]. apply Z.div_lt_upper_bound; lia. }
    cbn [read_digits]. destruct (digit_char_spec (n mod 10)) as [-> ->]; [apply Z.mod_pos_bound; lia|].
    replace (k + S w)%nat with (S (k + w)) by lia. f_equal. rewrite Ep.
    pose proof (Z.div_mod n 10). lia.
Qed.

Lemma fixed_app w n a b : fixed w n a +:+ b = fixed w n (a +:+ b).
Proof. revert n a. induction w as [|w IH]; intros n a; cbn [fixed]; [done|]. by rewrite IH. Qed.

Lemma count_digits_spec fuel n : 0 ≤ n < 2 ^ Z.of_nat (S fuel) →
  n < 10 ^ Z.of_nat (count_digits fuel n) ∧
  ((1 < count_digits fuel n)%nat → 10 ^ Z.of_nat (count_digits fuel n - 1) ≤ n).
Proof.
  revert n. induction fuel as [|fuel IH]; intros n Hn; cbn [count_digits].
  - change (2 ^ Z.of_nat 1) with 2 in Hn. split; [simpl; lia|lia].
  - case_bool_decide; [split; [simpl; lia|lia]|].
    assert (2 ^ Z.of_nat (S (S fuel)) = 2 * 2 ^ Z.of_nat (S fuel)) as E2 by (rewrite (Nat2Z.inj_succ (S fuel)), Z.pow_succ_r; lia).
    destruct (IH (n / 10)) as [H1 H2].
    { split; [apply Z.div_pos; lia|]. apply Z.div_lt_upper_bound; lia. }
    set (c := count_digits fuel (n / 10)) in *. pose proof (Z.div_mod n 10). pose proof (Z.mod_pos_bound n 10).
    assert (10 ^ Z.of_nat (S c) = 10 * 10 ^ Z.of_nat c) as E1 by (rewrite Nat2Z.inj_succ, Z.pow_succ_r; lia).
    split; [lia|]. intros _. replace (S c - 1)%nat with c by lia.
    destruct (decide (1 < c)%nat) as [Hc|Hc].
    + specialize (H2 Hc). replace c with (S (c - 1)) by lia. rewrite Nat2Z.inj_succ, Z.pow_succ_r by lia. lia.
    + assert (10 ^ Z.of_nat c ≤ 10 ^ 1) by (apply Z.pow_le_mono_r; lia). lia.
Qed.

Lemma width_spec n : 0 ≤ n →
  n < 10 ^ Z.of_nat (width n) ∧ ((1 < width n)%nat → 10 ^ Z.of_nat (width n - 1) ≤ n) ∧ (0 < width n)%nat.
Proof.
  intros Hn. unfold width. destruct (count_digits_spec (Z.to_nat (Z.log2 n)) n) as [H1 H2].
  - split; [done|]. rewrite Nat2Z.inj_succ, Z2Nat.id by apply Z.log2_nonneg.
    destruct (decide (n = 0)) as [->|]; [done|]. apply Z.log2_spec. lia.
  - split_and!; [done|done|]. destruct (Z.to_nat (Z.log2 n)); simpl; [lia|]. case_bool_decide; lia.
Qed.

(** ** Numbers *)
(** The fewest decimal places that make a multiple of 1/[b] out of [a]/[b]. *)
Fixpoint places (fuel j : nat) (a b : Z) : nat :=
  match fuel with
  | O => j
  | S fuel => if bool_decide (a mod b = 0) then j else places fuel (S j) (a * 10) b
  end.

(** The digits of [d], without the zeros at the end. *)
Fixpoint drop_zeros (s : string) : string :=
  match s with
  | "" => ""
  | String c s => match drop_zeros s with
                  | "" => if Ascii.eqb c "0" then "" else String c ""
                  | s => String c s
                  end
  end.
(** The notation with an exponent, of [d] / 10^[j]. *)
Definition exponent_text (d : Z) (j : nat) : string :=
  let e := Z.of_nat (width d) - Z.of_nat j - 1 in
  let mantissa := match drop_zeros (digits d) with
                  | String c "" => String c ""
                  | String c s => String c ("." +:+ s)
                  | "" => ""
                  end in
  mantissa +:+ "e" +:+ (if bool_decide (0 ≤ e) then "+" else "-") +:+ digits (Z.abs e).

(** The sign, the decimal places and the digits of a number. *)
Definition sign_text (q : Q) : string := if bool_decide (Qnum q < 0) then "-" else "".
Definition decimals (q : Q) : nat := places (Pos.size_nat (Qden q)) 0 (Z.abs (Qnum q)) (Zpos (Qden q)).
Definition all_digits (q : Q) : Z := Z.abs (Qnum q) * 10 ^ Z.of_nat (decimals q) / Zpos (Qden q).

(** Number::toString. *)
Definition number_text (n : number) : string :=
  match n with
  | NaN => "NaN"
  | Infinity => "Infinity"
  | NegInfinity => "-Infinity"
  | Num q =>
      let j := decimals q in
      let d := all_digits q in
      sign_text q +:+
      (if bool_decide (j = 0%nat) then
         if bool_decide (d < 10 ^ 21) then digits d else exponent_text d j
       else if bool_decide (10 ^ Z.of_nat j ≤ d * 10 ^ 6) then
         digits (d / 10 ^ Z.of_nat j) +:+ String "." (fixed j (d mod 10 ^ Z.of_nat j) "")
       else exponent_text d j)
  end.
#[global] Instance Q_eq_dec : EqDecision Q. Proof. solve_decision. Defined.
(** A number that is written without an exponent. *)
Definition plain_number (n : number) : bool :=
  match n with
  | Num q =>
      let j := decimals q in
      bool_decide (q = Qred q) && bool_decide (Z.abs (Qnum q) * 10 ^ Z.of_nat j = all_digits q * Zpos (Qden q)) &&
      bool_decide (all_digits q < 10 ^ 21 * 10 ^ Z.of_nat j) &&
      (bool_decide (j = 0%nat) || bool_decide (10 ^ Z.of_nat j ≤ all_digits q * 10 ^ 6))
  | _ => false
  end.

(** The magnitude from which a literal reads as infinity. *)
Definition overflow : Z := 2 ^ 1024 - 2 ^ 970.
(** [m] * 10^[p]. *)
Definition decimal (m p : Z) : number :=
  let q := if bool_decide (0 ≤ p) then inject_Z (m * 10 ^ p) else Qred (m # Z.to_pos (10 ^ (- p))) in
  if Qle_bool (inject_Z overflow) q then Infinity
  else if Qle_bool q (inject_Z (- overflow)) then NegInfinity else Num q.

Definition strip_minus (s : string) : bool * string := match s with String "-" s => (true, s) | _ => (false, s) end.
Definition parse_exponent (s : string) : option (Z * string) :=
  match s with
  | String c s1 =>
      if Ascii.eqb c "e" || Ascii.eqb c "E" then
        let '(neg, s2) := match s1 with
                          | String "-" s2 => (true, s2)
                          | String "+" s2 => (false, s2)
                          | _ => (false, s1)
                          end in
        let '(x, k, s3) := read_digits 0 0 s2 in
        if bool_decide (k = 0%nat) then None else Some (if neg : bool then - x else x, s3)
      else Some (0, s)
  | "" => Some (0, s)
  end.
(** The fraction of a number whose integer part is [i]: all the digits as one
    number, and the places. *)
Definition parse_fraction (i : Z) (s : string) : option (Z * nat * string) :=
  match s with
  | String "." s => let '(f, j, s) := read_digits i 0 s in if bool_decide (j = 0%nat) then None else Some (f, j, s)
  | _ => Some (i, 0%nat, s)
  end.
Definition parse_number (s : string) : option (number * string) :=
  let '(neg, s) := strip_minus s in
  let '(i, k, s) := read_digits 0 0 s in
  if bool_decide (k = 0%nat) || (bool_decide (1 < k)%nat && bool_decide (i < 10 ^ Z.of_nat (k - 1))) then None else
  '(f, j, s) ← parse_fraction i s;
  '(e, s) ← parse_exponent s;
  Some (decimal (if neg : bool then - f else f) (e - Z.of_nat j), s).

Example number_texts : number_text (lit 120) = "120" ∧ number_text (Num (-3 # 2)) = "-1.5" ∧
  number_text (Num (1 # 1000000)) = "0.000001" ∧ number_text (Num (15 # 100000000)) = "1.5e-7" ∧
  number_text (lit (10 ^ 21)) = "1e+21" ∧ number_text (lit (123 * 10 ^ 20)) = "1.23e+22" ∧ number_text (lit 0) = "0".
Proof. vm_compute. done. Qed.
Example number_parses : parse_number "120," = Some (lit 120, ",") ∧ parse_number "-1.50e1]" = Some (lit (-15), "]") ∧
  parse_number "01" = None ∧ parse_number "1." = None ∧ parse_number "1e999" = Some (Infinity, "") ∧
  parse_number "12.5E-1" = Some (Num (5 # 4), "").
Proof. vm_compute. done. Qed.

(** What may follow a number. *)
Definition number_end (s : string) : Prop :=
  match s with String c _ => is_digit c = false ∧ c ≠ "."%char ∧ c ≠ "e"%char ∧ c ≠ "E"%char | "" => True end.

Lemma number_end_digit s : number_end s → no_digit s.
Proof. destruct s; simpl; naive_solver. Qed.

Lemma number_end_exponent s : number_end s → parse_exponent s = Some (0, s).
Proof.
  destruct s as [|c s]; [done|]. intros (_&_&H1&H2). unfold parse_exponent.
  by rewrite (proj2 (Ascii.eqb_neq _ _) H1), (proj2 (Ascii.eqb_neq _ _) H2).
Qed.

Lemma number_end_fraction i s : number_end s → parse_fraction i s = Some (i, 0%nat, s).
Proof. destruct s as [|c s]; [done|]. intros (_&H&_). destruct c as [[] [] [] [] [] [] [] []]; done. Qed.

Lemma fixed_digit w n s : 0 ≤ n → (0 < w)%nat → ∃ c r, fixed w n s = String c r ∧ is_digit c = true.
Proof.
  intros Hn Hw. destruct w as [|w]; [lia|]. clear Hw. revert n s Hn. induction w as [|w IH]; intros n s Hn.
  - exists (digit_char (n mod 10)), s. split; [done|]. apply digit_char_spec. apply Z.mod_pos_bound. lia.
  - cbn [fixed]. apply IH. apply Z.div_pos; lia.
Qed.

Lemma strip_minus_digit c s : is_digit c = true → strip_minus (String c s) = (false, String c s).
Proof. destruct c as [[] [] [] [] [] [] [] []]; done. Qed.

(** The integer part. *)
Lemma read_integer n s : 0 ≤ n → no_digit s →
  read_digits 0 0 (fixed (width n) n s) = (n, width n, s) ∧
  (bool_decide (width n = 0%nat) || (bool_decide (1 < width n)%nat && bool_decide (n < 10 ^ Z.of_nat (width n - 1)))) = false.
Proof.
  intros Hn Hs. destruct (width_spec n Hn) as (H1&H2&H3). split.
  - rewrite read_fixed by lia. by apply read_stop.
  - rewrite bool_decide_false by lia. case_bool_decide as Hw; [|done]. specialize (H2 Hw).
    by rewrite bool_decide_false by lia.
Qed.

Lemma plain_decimal q : plain_number (Num q) = true →
  decimal (if bool_decide (Qnum q < 0) then - all_digits q else all_digits q) (0 - Z.of_nat (decimals q)) = Num q.
Proof.
  unfold plain_number. intros (((Hq%bool_decide_eq_true&Hd%bool_decide_eq_true)%andb_prop&Hb%bool_decide_eq_true)%andb_prop&_)%andb_prop.
  set (j := decimals q) in *. set (d := all_digits q) in *.
  assert (0 < 10 ^ Z.of_nat j) as HD by (apply Z.pow_pos_nonneg; lia). set (D := 10 ^ Z.of_nat j) in *.
  set (m := if bool_decide (Qnum q < 0) then - d else d).
  assert (m * Zpos (Qden q) = Qnum q * D) as Hm by (unfold m; case_bool_decide; nia).
  assert (Z.abs (Qnum q) < 10 ^ 21 * Zpos (Qden q)) as Habs by nia.
  unfold decimal. set (v := if bool_decide _ then _ else _). assert (v = q) as ->.
  { unfold v. case_bool_decide as Hj.
    - assert (j = 0%nat) as Ej by lia. unfold D in Hm. rewrite Ej in *. change (10 ^ Z.of_nat 0) with 1 in Hm.
      pose proof (gcd_Qred q) as Hg. rewrite <-Hq in Hg.
      assert (Z.gcd (Qnum q) (Zpos (Qden q)) = Zpos (Qden q)) as Hg'.
      { rewrite Z.gcd_comm. apply Z.divide_gcd_iff; [done|]. exists m. lia. }
      change (10 ^ (0 - Z.of_nat 0)) with 1. destruct q as [x y]. simpl in *. unfold inject_Z.
      rewrite Hg' in Hg. injection Hg as ->. f_equal. lia.
    - rewrite Hq. apply Qred_complete. unfold Qeq. simpl.
      replace (- (0 - Z.of_nat j)) with (Z.of_nat j) by lia. fold D. rewrite Z2Pos.id by done. lia. }
  assert (10 ^ 21 < overflow) as Hov by (vm_compute; done).
  unfold Qle_bool, inject_Z. simpl. rewrite !Z.mul_1_r.
  rewrite (proj2 (Z.leb_gt _ _)) by nia. rewrite (proj2 (Z.leb_gt _ _)) by nia. done.
Qed.

Lemma parse_number_text n s : plain_number n = true → number_end s →
  parse_number (number_text n +:+ s) = Some (n, s).
Proof.
  destruct n as [q| | |]; try done. intros Hp Hs. pose proof (plain_decimal q Hp) as Hdec.
  unfold plain_number in Hp. apply andb_prop in Hp as [[_ Hbig%bool_decide_eq_true]%andb_prop Hsmall].
  assert (0 ≤ all_digits q) as Hd by (apply Z.div_pos; lia).
  unfold number_text. set (j := decimals q) in *. set (d := all_digits q) in *.
  assert (0 < 10 ^ Z.of_nat j) as HD by (apply Z.pow_pos_nonneg; lia).
  set (body := if bool_decide (j = 0%nat) then _ else _).
  assert (∃ i w r, body +:+ s = fixed (width i) i r ∧ w = width i ∧ 0 ≤ i ∧ no_digit r ∧ parse_fraction i r = Some (d, j, s))
    as (i&w&r&Hbody&Hw&Hi&Hr&Hfrac).
  { unfold body. destruct (decide (j = 0%nat)) as [Ej|Ej].
    - rewrite (bool_decide_true (j = 0%nat)) by done. rewrite Ej in Hbig. change (10 ^ Z.of_nat 0) with 1 in Hbig.
      rewrite bool_decide_true by lia. exists d, (width d), s. unfold digits. rewrite fixed_app, Ej.
      split_and!; [done..|by apply number_end_digit|by apply number_end_fraction].
    - rewrite bool_decide_false in Hsmall |- * by done. cbn [orb] in Hsmall. rewrite Hsmall.
      exists (d / 10 ^ Z.of_nat j), (width (d / 10 ^ Z.of_nat j)), (String "." (fixed j (d mod 10 ^ Z.of_nat j) s)).
      unfold digits. rewrite fixed_app. split_and!; [|done|by apply Z.div_pos; lia|done|].
      + rewrite fixed_app. cbn [String.append]. by rewrite fixed_app.
      + simpl. rewrite read_fixed by (apply Z.mod_pos_bound; lia). rewrite read_stop by (by apply number_end_digit).
        rewrite bool_decide_false by lia. rewrite (Z.mul_comm (d / _)), <-Z.div_mod by lia. done. }
  destruct (read_integer i r Hi Hr) as [Hread Hlead]. destruct (width_spec i Hi) as (_&_&Hpos).
  assert (strip_minus (body +:+ s) = (false, body +:+ s)) as Hstrip.
  { rewrite Hbody. destruct (fixed_digit (width i) i r Hi Hpos) as (c&r'&->&Hc). by apply strip_minus_digit. }
  assert (strip_minus (sign_text q +:+ body +:+ s) = (bool_decide (Qnum q < 0), body +:+ s)) as Hsign.
  { unfold sign_text. destruct (bool_decide (Qnum q < 0)); [done|exact Hstrip]. }
  rewrite string_app_assoc. unfold parse_number. rewrite Hsign, Hbody, Hread, Hlead. cbn [mbind option_bind].
  rewrite Hfrac. cbn [mbind option_bind]. rewrite number_end_exponent by done. cbn [mbind option_bind].
  rewrite <-Hdec. by destruct (bool_decide (Qnum q < 0)).
Qed.

(** ** Strings *)
Definition dq : ascii := Ascii false true false false false true false false.
Definition hex_char (n : nat) : ascii := ascii_of_nat (if bool_decide (n < 10)%nat then 48 + n else 87 + n).
Definition escape_char (c : ascii) : string :=
  if Ascii.eqb c dq then String "\" (String dq "")
  else if Ascii.eqb c "\" then "\\"
  else if Ascii.eqb c "008" then "\b"
  else if Ascii.eqb c "009" then "\t"
  else if Ascii.eqb c "010" then "\n"
  else if Ascii.eqb c "012" then "\f"
  else if Ascii.eqb c "013" then "\r"
  else if bool_decide (code c < 32)%nat then
    "\u00" +:+ String (hex_char (code c / 16)) (String (hex_char (code c mod 16)) "")
  else String c "".
Fixpoint escape (s : string) : string :=
  match s with "" => "" | String c s => escape_char c +:+ escape s end.
Definition quote (s : string) : string := String dq (escape s +:+ String dq "").

Definition unescape (c : ascii) : option ascii :=
  if Ascii.eqb c dq || Ascii.eqb c "\" || Ascii.eqb c "/" then Some c
  else if Ascii.eqb c "b" then Some "008"%char
  else if Ascii.eqb c "t" then Some "009"%char
  else if Ascii.eqb c "n" then Some "010"%char
  else if Ascii.eqb c "f" then Some "012"%char
  else if Ascii.eqb c "r" then Some "013"%char else None.
Definition hex_val (c : ascii) : option nat :=
  if is_digit c then Some (code c - 48)%nat
  else if between 97 102 c then Some (code c - 87)%nat
  else if between 65 70 c then Some (code c - 55)%nat else None.
Definition hex4 (a b c d : ascii) : option nat :=
  a ← hex_val a; b ← hex_val b; c ← hex_val c; d ← hex_val d; Some (((a * 16 + b) * 16 + c) * 16 + d)%nat.

(** What follows the opening quote. *)
Fixpoint parse_string (s : string) : option (string * string) :=
  match s with
  | "" => None
  | String c s =>
      if Ascii.eqb c dq then Some ("", s)
      else if Ascii.eqb c "\" then
        match s with
        | "" => None
        | String e s1 =>
            if Ascii.eqb e "u" then
              match s1 with
              | String a (String b (String x (String y s2))) =>
                  h ← hex4 a b x y;
                  if bool_decide (h < 256)%nat then '(r, t) ← parse_string s2; Some (String (ascii_of_nat h) r, t) else None
              | _ => None
              end
            else c' ← unescape e; '(r, t) ← parse_string s1; Some (String c' r, t)
        end
      else if bool_decide (code c < 32)%nat then None
      else '(r, t) ← parse_string s; Some (String c r, t)
  end.

Lemma parse_escape_char c t : parse_string (escape_char c +:+ t) = '(r, t) ← parse_string t; Some (String c r, t).
Proof. destruct c as [[] [] [] [] [] [] [] []]; reflexivity. Qed.

Lemma parse_escape s t : parse_string (escape s +:+ String dq t) = Some (s, t).
Proof.
  induction s as [|c s IH]; [done|]. simpl. by rewrite string_app_assoc, parse_escape_char, IH.
Qed.

(** ** Values *)
Fixpoint JSON_stringify (v : json) : string :=
  match v with
  | JNull => "null"
  | JBool b => if b then "true" else "false"
  | JNum n => match n with Num _ => number_text n | _ => "null" end
  | JStr s => quote s
  | JArr l => "[" +:+ join "," (JSON_stringify <$> l) +:+ "]"
  | JObj ps => "{" +:+ join "," ((λ p, quote p.1 +:+ ":" +:+ JSON_stringify p.2) <$> ps) +:+ "}"
  end.

Fixpoint skip_ws (s : string) : string :=
  match s with
  | String c s' => if bool_decide (c ∈ [" "; "009"; "010"; "013"]%char) then skip_ws s' else s
  | "" => ""
  end.
Definition literal (w : string) (s : string) : option string :=
  if startsWith w s then Some (drop_str (String.length w) s) else None.

Section Loops.
Context (value : string → option (json * string)).
(** What follows the opening bracket of an array or object that is not empty. *)
Fixpoint elements (fuel : nat) (s : string) : option (list json * string) :=
  match fuel with
  | O => None
  | S fuel =>
      '(v, s) ← value s;
      match skip_ws s with
      | String "," s => '(vs, s) ← elements fuel s; Some (v :: vs, s)
      | String "]" s => Some ([v], s)
      | _ => None
      end
  end.
Definition member (s : string) : option (string * json * string) :=
  match skip_ws s with
  | String c s =>
      if Ascii.eqb c dq then
        '(k, s) ← parse_string s;
        match skip_ws s with String ":" s => '(v, s) ← value s; Some (k, v, s) | _ => None end
      else None
  | "" => None
  end.
Fixpoint members (fuel : nat) (s : string) : option (list (string * json) * string) :=
  match fuel with
  | O => None
  | S fuel =>
      '(k, v, s) ← member s;
      match skip_ws s with
      | String "," s => '(ps, s) ← members fuel s; Some ((k, v) :: ps, s)
      | String "}" s => Some ([(k, v)], s)
      | _ => None
      end
  end.
End Loops.

(** A property given twice keeps its place and takes the later value. *)
Fixpoint value (fuel : nat) (s : string) : option (json * string) :=
  match fuel with
  | O => None
  | S fuel =>
      match skip_ws s with
      | "" => None
      | String c r =>
          if Ascii.eqb c dq then '(x, r) ← parse_string r; Some (JStr x, r)
          else if Ascii.eqb c "[" then
            match skip_ws r with
            | String "]" r => Some (JArr [], r)
            | _ => '(vs, r) ← elements (value fuel) fuel r; Some (JArr vs, r)
            end
          else if Ascii.eqb c "{" then
            match skip_ws r with
            | String "}" r => Some (JObj [], r)
            | _ => '(ps, r) ← members (value fuel) fuel r; Some (JObj (spread [] ps), r)
            end
          else if Ascii.eqb c "t" then r ← literal "true" (String c r); Some (JBool true, r)
          else if Ascii.eqb c "f" then r ← literal "false" (String c r); Some (JBool false, r)
          else if Ascii.eqb c "n" then r ← literal "null" (String c r); Some (JNull, r)
          else '(n, r) ← parse_number (String c r); Some (JNum n, r)
      end
  end.
(** [None]: a SyntaxError.  Every level of nesting takes a character. *)
Definition JSON_parse (s : string) : option json :=
  '(v, r) ← value (S (String.length s)) s;
  if bool_decide (skip_ws r = "") then Some v else None.

Example parse_example : JSON_parse " [ 1, -2.50 ,{} , [ ]] " = Some (JArr [int 1; JNum (Num (-5 # 2)); JObj []; JArr []]) ∧
  JSON_parse "[1,]" = None ∧ JSON_parse "[1]x" = None ∧ JSON_parse "tru" = None ∧
  JSON_parse ("{" +:+ quote "a" +:+ ":1," +:+ quote "b" +:+ ": null," +:+ quote "a" +:+ ":true}") =
    Some (JObj [("a", JBool true); ("b", JNull)]).
Proof. vm_compute. done. Qed.

(** ** The round trip *)
(** What JSON.stringify writes without an exponent, and JSON.parse reads back:
    plain numbers, and no property twice. *)
Fixpoint wf_json (v : json) : bool :=
  match v with
  | JNum n => plain_number n
  | JArr l => forallb wf_json l
  | JObj ps => bool_decide (NoDup (keys ps)) && forallb (λ p, wf_json p.2) ps
  | _ => true
  end.

(** Induction that reaches the elements of arrays and objects. *)
Section Induction.
Context (P : json → Prop) (Hnull : P JNull) (Hbool : ∀ b, P (JBool b)) (Hnum : ∀ n, P (JNum n))
  (Hstr : ∀ s, P (JStr s)) (Harr : ∀ l, Forall P l → P (JArr l)) (Hobj : ∀ ps, Forall (λ p, P p.2) ps → P (JObj ps)).
Fixpoint json_nested_ind (v : json) : P v :=
  match v with
  | JNull => Hnull
  | JBool b => Hbool b
  | JNum n => Hnum n
  | JStr s => Hstr s
  | JArr l => Harr l ((fix go l := match l return Forall P l with
                                   | [] => Forall_nil_2 P
                                   | v :: l => Forall_cons_2 P v l (json_nested_ind v) (go l)
                                   end) l)
  | JObj ps => Hobj ps ((fix go ps := match ps return Forall (λ p, P p.2) ps with
                                      | [] => Forall_nil_2 _
                                      | p :: ps => Forall_cons_2 _ p ps (json_nested_ind p.2) (go ps)
                                      end) ps)
  end.
End Induction.

(** A text starts with a character that is neither white space nor a bracket
    that closes. *)
Definition starts_value (s : string) : Prop :=
  ∃ c r, s = String c r ∧ skip_ws s = s ∧ c ≠ "]"%char ∧ c ≠ "}"%char.

Lemma starts_value_app s t : starts_value s → starts_value (s +:+ t).
Proof.
  intros (c&r&->&Hs&H). exists c, (r +:+ t). split; [done|]. split; [|done].
  simpl in *. case_bool_decide; [|done]. exfalso. assert (∀ r, (String.length (skip_ws r) ≤ String.length r)%nat) as Hlen.
  { clear. induction r as [|c r IH]; simpl; [lia|]. case_bool_decide; simpl; lia. }
  specialize (Hlen r). rewrite Hs in Hlen. simpl in Hlen. lia.
Qed.

Lemma digit_starts c r : is_digit c = true → starts_value (String c r).
Proof.
  intros H. exists c, r. split; [done|]. destruct c as [[] [] [] [] [] [] [] []]; done.
Qed.

Lemma number_starts n : plain_number n = true → starts_value (number_text n).
Proof.
  destruct n as [q| | |]; try done. unfold plain_number, number_text.
  intros [[_ Hbig%bool_decide_eq_true]%andb_prop Hsmall]%andb_prop. unfold sign_text.
  destruct (bool_decide (Qnum q < 0)); [by eexists "-"%char, _|].
  assert (0 ≤ all_digits q) as Hd by (apply Z.div_pos; lia).
  assert (∀ n t, 0 ≤ n → starts_value (digits n +:+ t)) as Hdig.
  { intros n t Hn. unfold digits. rewrite fixed_app. destruct (width_spec n Hn) as (_&_&Hw).
    destruct (fixed_digit (width n) n ("" +:+ t) Hn Hw) as (c&r&->&Hc). by apply digit_starts. }
  destruct (decide (decimals q = 0%nat)) as [Ej|Ej].
  - rewrite Ej in *. rewrite Z.mul_1_r in Hbig. rewrite !bool_decide_true by done.
    rewrite <-(string_app_nil_r (digits _)). by apply (Hdig _ "").
  - rewrite bool_decide_false in Hsmall |- * by done. cbn [orb] in Hsmall. rewrite Hsmall. apply (Hdig _ _). by apply Z.div_pos; lia.
Qed.

Lemma stringify_starts v : wf_json v = true → starts_value (JSON_stringify v).
Proof.
  destruct v as [|[]|n|s|l|ps]; simpl; intros H; try by eexists _, _.
  destruct n; [by apply number_starts|done..].
Qed.

Lemma join_bounds (sep : string) (l : list string) : sep ≠ "" → Forall starts_value l →
  (length l ≤ String.length (join sep l))%nat ∧ ∀ x, x ∈ l → (String.length x ≤ String.length (join sep l))%nat.
Proof.
  intros Hsep.
  assert (0 < String.length sep)%nat by (destruct sep; simpl; [done|lia]).
  induction 1 as [|x l Hx Hl IH]; [split; [simpl; lia|by intros ? ?%not_elem_of_nil]|].
  destruct IH as [IH1 IH2]. destruct l as [|y l].
  - destruct Hx as (c&r&->&_). split; [simpl; lia|]. by intros z ->%list_elem_of_singleton.
  - destruct Hx as (c&r&->&_). set (j := join sep (y :: l)) in *.
    change (join sep (String c r :: y :: l)) with (String c r +:+ sep +:+ j). rewrite !length_append. cbn [length String.length] in *.
    split; [lia|]. intros z [->|Hz]%elem_of_cons; cbn [String.length]; [lia|]. specialize (IH2 z Hz). lia.
Qed.

Lemma skip_ws_char c t : bool_decide (c ∈ [" "; "009"; "010"; "013"]%char) = false → skip_ws (String c t) = String c t.
Proof. simpl. by intros ->. Qed.

Lemma elements_join (val : string → option (json * string)) g l s : l ≠ [] → (length l ≤ g)%nat →
  (∀ x t, x ∈ l → number_end t → val (JSON_stringify x +:+ t) = Some (x, t)) →
  elements val g (join "," (JSON_stringify <$> l) +:+ String "]" s) = Some (l, s).
Proof.
  revert g. induction l as [|x l IH]; intros g Hne Hg Hval; [done|]. destruct g as [|g]; [simpl in Hg; lia|].
  cbn [elements]. destruct l as [|y l].
  - simpl. rewrite Hval by (by left || done). done.
  - change (join "," (JSON_stringify <$> x :: y :: l)) with
      (JSON_stringify x +:+ "," +:+ join "," (JSON_stringify <$> y :: l)).
    rewrite !string_app_assoc. rewrite Hval by (by left || done). cbn [mbind option_bind].
    cbn [String.append]. rewrite skip_ws_char by done.
    rewrite IH; [done|done|simpl in *; lia|]. intros z t Hz. apply Hval. by right.
Qed.

Definition member_text (p : string * json) : string := quote p.1 +:+ ":" +:+ JSON_stringify p.2.

Lemma member_spec (val : string → option (json * string)) p t :
  val (JSON_stringify p.2 +:+ t) = Some (p.2, t) → member val (member_text p +:+ t) = Some (p, t).
Proof.
  intros Hval. unfold member, member_text, quote. rewrite string_app_assoc. cbn [String.append].
  rewrite skip_ws_char by done. rewrite Ascii.eqb_refl, string_app_assoc.
  cbn [String.append]. rewrite parse_escape. cbn [mbind option_bind].
  rewrite skip_ws_char by done. rewrite Hval. by destruct p.
Qed.

Lemma members_join (val : string → option (json * string)) g ps s : ps ≠ [] → (length ps ≤ g)%nat →
  (∀ p t, p ∈ ps → number_end t → val (JSON_stringify p.2 +:+ t) = Some (p.2, t)) →
  members val g (join "," (member_text <$> ps) +:+ String "}" s) = Some (ps, s).
Proof.
  revert g. induction ps as [|p ps IH]; intros g Hne Hg Hval; [done|]. destruct g as [|g]; [simpl in Hg; lia|].
  cbn [members]. destruct ps as [|q ps].
  - change (join "," (member_text <$> [p])) with (member_text p).
    rewrite (member_spec val p) by (apply Hval; by left || done). cbn [mbind option_bind]. by destruct p.
  - change (join "," (member_text <$> p :: q :: ps)) with (member_text p +:+ "," +:+ join "," (member_text <$> q :: ps)).
    rewrite !string_app_assoc. rewrite (member_spec val p) by (apply Hval; by left || done). cbn [mbind option_bind].
    cbn [String.append]. rewrite skip_ws_char by done.
    destruct p. rewrite IH; [done|done|simpl in *; lia|]. intros z t Hz. apply Hval. by right.
Qed.

(** Distinct properties are stored as they come. *)
Lemma spread_distinct acc ps : NoDup (keys acc ++ keys ps) → spread acc ps = acc ++ ps.
Proof.
  unfold spread. revert acc. induction ps as [|[k v] ps IH]; intros acc H; simpl; [by rewrite app_nil_r|].
  assert (set_prop acc k v = acc ++ [(k, v)]) as ->.
  { unfold keys in H. rewrite fmap_cons in H. apply NoDup_app in H as (_&H&_).
    assert (k ∉ acc.*1) as Hk. { intros Hin. apply (H k Hin). by left. } clear -Hk.
    induction acc as [|[k' v'] acc IH]; simpl; [done|]. rewrite fmap_cons, not_elem_of_cons in Hk. destruct Hk as [Hk Hk'].
    rewrite bool_decide_false by (simpl in Hk; congruence). by rewrite IH. }
  rewrite IH; [by rewrite <-app_assoc|]. unfold keys in *. rewrite fmap_app, <-app_assoc. exact H.
Qed.

Lemma member_starts p : starts_value (member_text p).
Proof. destruct p as [k v]. by eexists dq, _. Qed.

Lemma member_length p : (String.length (JSON_stringify p.2) ≤ String.length (member_text p))%nat.
Proof. unfold member_text. rewrite !length_append. lia. Qed.

(** The bracket that opens an array or object with something in it. *)
Lemma value_array fuel l s : l ≠ [] → Forall starts_value (JSON_stringify <$> l) →
  value (S fuel) (String "[" (join "," (JSON_stringify <$> l) +:+ String "]" s)) =
  '(vs, r) ← elements (value fuel) fuel (join "," (JSON_stringify <$> l) +:+ String "]" s); Some (JArr vs, r).
Proof.
  intros Hne Hst. destruct l as [|x l]; [done|]. apply Forall_cons in Hst as [Hx _].
  assert (starts_value (join "," (JSON_stringify <$> x :: l) +:+ String "]" s)) as (c&r&E&Hws&Hc&_).
  { apply starts_value_app. destruct l; [done|]. by apply starts_value_app. }
  rewrite E in *. cbn [value]. rewrite skip_ws_char by done. change (Ascii.eqb "[" dq) with false.
  change (Ascii.eqb "[" "[") with true. cbv beta iota. rewrite Hws. destruct c as [[] [] [] [] [] [] [] []]; done.
Qed.

Lemma value_object fuel ps s : ps ≠ [] →
  value (S fuel) (String "{" (join "," (member_text <$> ps) +:+ String "}" s)) =
  '(ps', r) ← members (value fuel) fuel (join "," (member_text <$> ps) +:+ String "}" s); Some (JObj (spread [] ps'), r).
Proof.
  intros Hne. destruct ps as [|p ps]; [done|].
  assert (starts_value (join "," (member_text <$> p :: ps) +:+ String "}" s)) as (c&r&E&Hws&_&Hc).
  { apply starts_value_app. destruct ps; [apply member_starts|]. apply (starts_value_app (member_text p)), member_starts. }
  rewrite E in *. cbn [value]. rewrite skip_ws_char by done. change (Ascii.eqb "{" dq) with false.
  change (Ascii.eqb "{" "[") with false. change (Ascii.eqb "{" "{") with true. cbv beta iota.
  rewrite Hws. destruct c as [[] [] [] [] [] [] [] []]; done.
Qed.

Lemma value_number fuel n s : plain_number n = true → number_end s →
  value (S fuel) (number_text n +:+ s) = Some (JNum n, s).
Proof.
  intros Hn Hs. destruct (starts_value_app _ s (number_starts n Hn)) as (c&r&E&Hws&_).
  pose proof (parse_number_text n s Hn Hs) as Hp. rewrite E in *. cbn [value]. rewrite Hws.
  assert (Ascii.eqb c dq = false ∧ Ascii.eqb c "[" = false ∧ Ascii.eqb c "{" = false ∧ Ascii.eqb c "t" = false ∧
    Ascii.eqb c "f" = false ∧ Ascii.eqb c "n" = false) as (->&->&->&->&->&->); [|by rewrite Hp].
  clear -Hp. destruct c as [[] [] [] [] [] [] [] []]; first [by split_and!|by vm_compute in Hp].
Qed.

Lemma literal_app w s : literal w (w +:+ s) = Some s.
Proof.
  unfold literal. rewrite (proj2 (startsWith_app w (w +:+ s))) by eauto. f_equal. by induction w.
Qed.

(** What is written is read back, whatever follows. *)
Lemma value_stringify v : ∀ fuel s, wf_json v = true → number_end s →
  (String.length (JSON_stringify v) ≤ fuel)%nat → value (S fuel) (JSON_stringify v +:+ s) = Some (v, s).
Proof.
  induction v as [|b|n|x|l IH|ps IH] using json_nested_ind; intros fuel s Hwf Hs Hlen.
  - etrans; [apply (eq_refl (r ← literal "null" ("null" +:+ s); Some (JNull, r)))|]. by rewrite literal_app.
  - destruct b.
    + etrans; [apply (eq_refl (r ← literal "true" ("true" +:+ s); Some (JBool true, r)))|]. by rewrite literal_app.
    + etrans; [apply (eq_refl (r ← literal "false" ("false" +:+ s); Some (JBool false, r)))|]. by rewrite literal_app.
  - destruct n; [by apply value_number|done..].
  - cbn [JSON_stringify quote String.append value]. unfold quote. cbn [String.append]. rewrite skip_ws_char by done.
    rewrite Ascii.eqb_refl, string_app_assoc. cbn [String.append]. by rewrite parse_escape.
  - destruct l as [|y l]; [done|]. cbn [JSON_stringify] in Hlen |- *. rewrite !string_app_assoc. cbn [String.append].
    cbn [wf_json] in Hwf. rewrite forallb_forall in Hwf.
    assert (Forall starts_value (JSON_stringify <$> y :: l)) as Hst.
    { apply Forall_fmap, List.Forall_forall. intros z Hz. by apply stringify_starts, Hwf. }
    destruct (join_bounds "," (JSON_stringify <$> y :: l)) as [Hb1 Hb2]; [done|done|].
    rewrite length_fmap in Hb1. set (j := join "," (JSON_stringify <$> y :: l)) in *.
    assert (String.length j + 2 ≤ fuel)%nat as Hf.
    { rewrite !length_append in Hlen. simpl in Hlen. fold j in Hlen. lia. }
    subst j. destruct fuel as [|fuel]; [lia|]. rewrite (value_array (S fuel) (y :: l) s) by done.
    rewrite elements_join; [done|done|lia|]. intros z t Hz Ht. rewrite Forall_forall in IH. apply IH; [done| |done|].
    + apply Hwf. by apply list_elem_of_In.
    + specialize (Hb2 (JSON_stringify z) (list_elem_of_fmap_2 _ _ _ Hz)). lia.
  - destruct ps as [|p ps]; [done|]. cbn [JSON_stringify] in Hlen |- *.
    change (λ p, quote p.1 +:+ ":" +:+ JSON_stringify p.2) with member_text in *.
    rewrite !string_app_assoc. cbn [String.append].
    cbn [wf_json] in Hwf. apply andb_prop in Hwf as [Hnd%bool_decide_eq_true Hwf]. rewrite forallb_forall in Hwf.
    assert (Forall starts_value (member_text <$> p :: ps)) as Hst.
    { apply Forall_fmap, Forall_true. apply member_starts. }
    destruct (join_bounds "," (member_text <$> p :: ps)) as [Hb1 Hb2]; [done|done|].
    rewrite length_fmap in Hb1.
    assert (String.length (join "," (member_text <$> p :: ps)) + 2 ≤ fuel)%nat as Hf.
    { rewrite !length_append in Hlen. cbn [String.length] in Hlen. lia. }
    destruct fuel as [|fuel]; [lia|]. rewrite (value_object (S fuel) (p :: ps) s) by done.
    rewrite members_join; [|done|lia|].
    + cbn [mbind option_bind]. by rewrite spread_distinct.
    + intros q t Hq Ht. rewrite Forall_forall in IH. apply (IH q Hq); [|done|].
      * apply Hwf. by apply list_elem_of_In.
      * specialize (Hb2 (member_text q) (list_elem_of_fmap_2 _ _ _ Hq)).
        pose proof (member_length q). lia.
Qed.

Theorem JSON_roundtrip v : wf_json v = true → JSON_parse (JSON_stringify v) = Some v.
Proof.
  intros Hwf. unfold JSON_parse. rewrite <-(string_app_nil_r (JSON_stringify v)) at 2.
  by rewrite value_stringify.
Qed.

(** ** Frames *)
(** A text holds no control character: no line feed ends it early. *)
Definition printable (c : ascii) : bool := bool_decide (32 ≤ code c)%nat.

Lemma printable_escape s : all_chars printable (escape s) = true.
Proof.
  induction s as [|c s IH]; simpl; [done|]. rewrite all_chars_app, IH, andb_true_r.
  by destruct c as [[] [] [] [] [] [] [] []].
Qed.

Lemma printable_fixed w n s : 0 ≤ n → all_chars printable s = true → all_chars printable (fixed w n s) = true.
Proof.
  revert n s. induction w as [|w IH]; intros n s Hn Hs; cbn [fixed]; [done|]. apply IH; [apply Z.div_pos; lia|].
  simpl. rewrite Hs, andb_true_r. destruct (digit_char_spec (n mod 10)) as [Hd _]; [apply Z.mod_pos_bound; lia|].
  revert Hd. by destruct (digit_char (n mod 10)) as [[] [] [] [] [] [] [] []].
Qed.

Lemma printable_number n : plain_number n = true → all_chars printable (number_text n) = true.
Proof.
  destruct n as [q| | |]; try done. unfold plain_number, number_text.
  intros [[_ Hbig%bool_decide_eq_true]%andb_prop Hsmall]%andb_prop. rewrite all_chars_app.
  assert (0 ≤ all_digits q) as Hd by (apply Z.div_pos; lia).
  assert (all_chars printable (sign_text q) = true) as -> by (unfold sign_text; by destruct (bool_decide (Qnum q < 0))).
  destruct (decide (decimals q = 0%nat)) as [Ej|Ej]; simpl.
  - rewrite Ej in *. rewrite Z.mul_1_r in Hbig. rewrite !bool_decide_true by done. by apply (printable_fixed _ _ "").
  - rewrite bool_decide_false in Hsmall |- * by done. cbn [orb] in Hsmall. rewrite Hsmall.
    rewrite all_chars_app. apply andb_true_iff. split; [apply printable_fixed; [by apply Z.div_pos; lia|done]|].
    simpl. apply printable_fixed; [apply Z.mod_pos_bound; lia|done].
Qed.

Lemma printable_join l : Forall (λ s, all_chars printable s = true) l → all_chars printable (join "," l) = true.
Proof.
  induction 1 as [|x l Hx Hl IH]; simpl; [done|]. destruct l; [done|]. by rewrite all_chars_app, Hx.
Qed.

Lemma stringify_printable v : wf_json v = true → all_chars printable (JSON_stringify v) = true.
Proof.
  induction v as [|b|n|x|l IH|ps IH] using json_nested_ind; intros Hwf; simpl in *.
  - done.
  - by destruct b.
  - destruct n; [by apply printable_number|done..].
  - by rewrite all_chars_app, printable_escape.
  - rewrite all_chars_app, andb_true_r. apply printable_join. apply Forall_fmap.
    rewrite forallb_forall in Hwf. rewrite Forall_forall in IH |- *. intros y Hy. apply IH; [done|].
    apply Hwf. by apply list_elem_of_In.
  - rewrite all_chars_app, andb_true_r. apply printable_join. apply Forall_fmap.
    apply andb_prop in Hwf as [_ Hwf]. rewrite forallb_forall in Hwf. rewrite Forall_forall in IH |- *.
    intros p Hp. simpl. rewrite !all_chars_app, printable_escape. simpl. apply IH; [done|]. apply Hwf. by apply list_elem_of_In.
Qed.

Lemma stringify_no_newline v : wf_json v = true → no_char "010" (JSON_stringify v).
Proof.
  intros H. apply no_char_all. eapply all_chars_impl; [|by apply stringify_printable].
  intros c Hc. by destruct c as [[] [] [] [] [] [] [] []].
Qed.
