(* ===== verification/JsNumber.v ===== *)
(** * Numbers out of strings, and 32-bit integers

    [Number(s)], [Number.parseInt(s, 16)], [Math.round] and the operands of the
    bitwise operators, from the language. *)
From Stdlib Require Import Ascii QArith.
From S2P Require Import Prelude Json JsString JsonText.
Open Scope Z_scope.

(** ** [Number(s)] *)
(** Decimal digits with an optional fraction and exponent, to the end of the text. *)
Definition decimal_literal (s : string) : option number :=
  let '(i, k, s) := read_digits 0 0 s in
  let '(f, j, s) := match s with String "." s => read_digits i 0 s | _ => (i, 0%nat, s) end in
  if bool_decide (k + j = 0)%nat then None else
  match parse_exponent s with Some (e, "") => Some (decimal f (e - Z.of_nat j)) | _ => None end.
Definition number_neg (n : number) : number :=
  match n with Num q => Num (- q) | Infinity => NegInfinity | NegInfinity => Infinity | NaN => NaN end.
Definition unsigned_literal (s : string) : number :=
  if bool_decide (s = "Infinity") then Infinity else from_option id NaN (decimal_literal s).

Definition digit_in (base : Z) (c : ascii) : option Z :=
  let c := lower_char c in
  let v := if is_digit c then digit_val c else if is_lower c then Z.of_nat (code c) - 87 else 99 in
  if bool_decide (v < base) then Some v else None.
(** The digits of [base] in front of [s]: their number and count, and the rest. *)
Fixpoint read_base (base v : Z) (k : nat) (s : string) : Z * nat * string :=
  match s with
  | String c s' => match digit_in base c with Some d => read_base base (base * v + d) (S k) s' | None => (v, k, s) end
  | "" => (v, k, "")
  end.
Definition based_literal (base : Z) (s : string) : number :=
  match read_base base 0 0 s with (v, S _, "") => lit v | _ => NaN end.

Definition to_number (s : string) : number :=
  match trim s with
  | "" => lit 0
  | String "0" (String c s') as t =>
      let c := lower_char c in
      if Ascii.eqb c "x" then based_literal 16 s'
      else if Ascii.eqb c "o" then based_literal 8 s'
      else if Ascii.eqb c "b" then based_literal 2 s'
      else unsigned_literal t
  | String "-" s' => number_neg (unsigned_literal s')
  | String "+" s' => unsigned_literal s'
  | t => unsigned_literal t
  end.

(** ** [Number.parseInt(s, 16)] *)
Definition parse_int16 (s : string) : number :=
  let '(neg, s) := match trimStart s with
                   | String "-" s => (true, s)
                   | String "+" s => (false, s)
                   | s => (false, s)
                   end in
  let s := match s with
           | String "0" (String c s') => if Ascii.eqb (lower_char c) "x" then s' else s
           | _ => s
           end in
  match read_base 16 0 0 s with
  | (_, O, _) => NaN
  | (v, _, _) => lit (if neg : bool then - v else v)
  end.

(** ** Integers *)
(** ToInt32, what the bitwise operators make of their operands. *)
Definition wrap32 (n : Z) : Z := (n + 2 ^ 31) mod 2 ^ 32 - 2 ^ 31.
Definition to_int32 (n : number) : Z :=
  match n with Num q => wrap32 (Z.quot (Qnum q) (Zpos (Qden q))) | _ => 0 end.
(** [Math.round]: halves go up. *)
Definition round (n : number) : number :=
  match n with Num q => lit ((2 * Qnum q + Zpos (Qden q)) / (2 * Zpos (Qden q))) | _ => n end.

Example to_number_texts :
  to_number "24" = lit 24 ∧ to_number "" = lit 0 ∧ to_number " 0x18 " = lit 24 ∧ to_number "2.4e1" = lit 24 ∧
  to_number "24a" = NaN ∧ to_number "-8" = lit (-8) ∧ to_number "0b" = NaN ∧ to_number "5." = lit 5 ∧ to_number "." = NaN.
Proof. by vm_compute. Qed.
Example parse_int16_texts : parse_int16 "ff" = lit 255 ∧ parse_int16 "1%eth0" = lit 1 ∧ parse_int16 "%" = NaN ∧ parse_int16 "-0x1f" = lit (-31).
Proof. by vm_compute. Qed.
