(* ===== verification/JsText.v ===== *)
(** * Optional texts and values read with a fallback

    Helpers that the settings, the configuration and the requests share:
    [value?.trim() || null], fields of values that may not be objects, and
    the conversions [Number(value)] and [Boolean(value)] of a JSON value. *)
From Stdlib Require Import Ascii QArith.
From stdpp Require Import pretty.
From S2P Require Import Prelude Json JsString JsonText JsNumber.
Open Scope Z_scope.

Definition nonempty (s : string) : option string := if bool_decide (s = "") then None else Some s.
(** [normalizeText] of config.ts. *)
Definition normalizeText (value : option string) : option string := value ≫= λ s, nonempty (trim s).
(** [normalizeString] of the mappers, [normalizeText] of the routes: a value
    that is not a text is none. *)
Definition text_of (value : option json) : option string := normalizeText (as_string value).
(** [recordFrom]: the properties of an object, else none. *)
Definition recordFrom (value : option json) : list (string * json) := as_object value ⁇ [].
Definition bool_or (value : option json) (fallback : bool) : bool := as_bool value ⁇ fallback.

(** [Boolean(value)]. *)
Definition to_boolean (value : option json) : bool :=
  match value with
  | None | Some JNull => false
  | Some (JBool b) => b
  | Some (JNum (Num q)) => negb (bool_decide (Qnum q = 0))
  | Some (JNum NaN) => false
  | Some (JStr s) => negb (bool_decide (s = ""))
  | _ => true
  end.

(** [String(value)] and [Number(value)]: an object whose own [toString] is no
    function cannot be converted. *)
Definition TypeError (message : string) : exn := Exn "TypeError" message None None [].
Fixpoint string_of (v : json) : exn + string :=
  match v with
  | JNull => inr "null"
  | JBool b => inr (if b then "true" else "false")
  | JNum n => inr (number_text n)
  | JStr s => inr s
  | JArr l => l ← check_all (λ v, match v with JNull => inr "" | _ => string_of v end) l; inr (join "," l)
  | JObj ps => if hasOwn ps "toString" then inl (TypeError "Cannot convert object to primitive value") else inr "[object Object]"
  end.
Definition number_of (v : json) : exn + number :=
  match v with
  | JNull => inr (lit 0)
  | JBool b => inr (lit (if b then 1 else 0))
  | JNum n => inr n
  | JStr s => inr (to_number s)
  | JArr _ | JObj _ => s ← string_of v; inr (to_number s)
  end.
Example conversions : number_of (JArr []) = inr (lit 0) ∧ number_of (JArr [JStr "0x10"]) = inr (lit 16) ∧ number_of (JObj []) = inr NaN ∧
  string_of (JArr [int 1; JNull; JArr [JBool true; JNull]]) = inr "1,,true,".
Proof. by vm_compute. Qed.

Lemma trimStart_front c s : is_white c = false → trimStart (String c s) = String c s.
Proof. intros H. cbn [trimStart]. by rewrite H. Qed.
Lemma trimStart_idem s : trimStart (trimStart s) = trimStart s.
Proof. induction s as [|c s IH]; [done|]. cbn [trimStart]. destruct (is_white c) eqn:E; [done|]. by apply trimStart_front. Qed.
Lemma trimEnd_idem s : trimEnd (trimEnd s) = trimEnd s.
Proof.
  induction s as [|c s IH]; [done|]. cbn [trimEnd]. destruct (trimEnd s) as [|d t] eqn:E.
  - destruct (is_white c) eqn:Ec; [done|]. cbn. by rewrite Ec.
  - cbn [trimEnd] in *. by rewrite IH.
Qed.
Lemma trimEnd_first_char c s : is_white c = false → ∃ r, trimEnd (String c s) = String c r.
Proof. intros H. cbn [trimEnd]. destruct (trimEnd s); [rewrite H|]; by eexists. Qed.
Lemma trim_idem s : trim (trim s) = trim s.
Proof.
  unfold trim. destruct (trimStart s) as [|c r] eqn:E; [done|]. assert (is_white c = false) as Hc.
  { revert E. induction s as [|d s IH]; [done|]. cbn [trimStart]. destruct (is_white d) eqn:Ed; [done|]. by intros [= -> _]. }
  destruct (trimEnd_first_char c r Hc) as [r' E']. rewrite E', trimStart_front by done. rewrite <-E'. apply trimEnd_idem.
Qed.
Lemma normalizeText_idem v s : normalizeText v = Some s → normalizeText (Some s) = Some s.
Proof.
  unfold normalizeText, nonempty. destruct v as [t|]; [|done]. cbn. case_bool_decide as E; [done|].
  intros [= <-]. rewrite trim_idem. by rewrite bool_decide_false.
Qed.
(** A text that reads back as itself. *)
Definition plain_text (s : string) : Prop := trim s = s ∧ s ≠ "".
Lemma normalizeText_plain v s : normalizeText v = Some s → plain_text s.
Proof.
  unfold normalizeText, nonempty. destruct v as [t|]; [|done]. cbn. case_bool_decide; [done|]. intros [= <-]. split; [apply trim_idem|done].
Qed.
Lemma text_of_plain s : plain_text s → text_of (Some (JStr s)) = Some s.
Proof. intros [E Hs]. unfold text_of, normalizeText, nonempty. cbn. rewrite E. by rewrite bool_decide_false. Qed.

(** ** Properties of an object that is written out *)
Lemma prop_here k v ps : prop ((k, v) :: ps) k = Some v.
Proof. cbn. by rewrite bool_decide_true. Qed.
Lemma prop_skip k k' v ps : k ≠ k' → prop ((k', v) :: ps) k = prop ps k.
Proof. intros H. cbn. by rewrite bool_decide_false. Qed.
Lemma recordFrom_obj ps : recordFrom (Some (JObj ps)) = ps.
Proof. done. Qed.
(** Looks the literal keys of the goal up. *)
Ltac props_step := repeat first [rewrite prop_here | rewrite prop_skip by done | rewrite recordFrom_obj].

(** ** Texts without white space *)
Definition no_white (s : string) : Prop := all_chars (λ c, negb (is_white c)) s = true.
Lemma no_white_trim s : no_white s → trim s = s.
Proof.
  intros H. unfold trim. assert (trimStart s = s) as ->.
  { destruct s as [|c s]; [done|]. apply andb_prop in H as [H _]. apply trimStart_front. by apply negb_true_iff. }
  unfold no_white in H. induction s as [|c s IH]; [done|]. cbn [all_chars] in H. apply andb_prop in H as [Hc Hs]. cbn [trimEnd].
  rewrite IH by done. apply negb_true_iff in Hc. rewrite Hc. by destruct s.
Qed.
Lemma no_white_plain s : s ≠ "" → no_white s → plain_text s.
Proof. intros Hs H. split; [by apply no_white_trim|done]. Qed.
Lemma no_white_app a b : no_white a → no_white b → no_white (a +:+ b).
Proof. unfold no_white. rewrite all_chars_app. by intros -> ->. Qed.
Lemma pretty_nat_no_white (n : nat) : no_white (pretty n).
Proof.
  unfold pretty, pretty_nat, pretty, pretty_N. case_decide; [done|]. rename n into m. 
  assert (∀ x acc, no_white acc → no_white (pretty_N_go x acc)) as H'; [|by apply H'].
  intros x. induction (N.lt_wf_0 x) as [x _ IH]. intros acc Hacc. destruct (decide (x = 0)%N) as [->|Hx]; [done|].
  rewrite pretty_N_go_step by lia. apply IH; [by apply N.div_lt; lia|]. unfold no_white in *. cbn [all_chars]. rewrite Hacc, andb_true_r.
  unfold pretty_N_char. by repeat case_match.
Qed.
