(* ===== verification/ShareConfig.v ===== *)
(** * The configuration of shares

    The types of packages/shared for shares and their protocols, what
    config.ts makes of the table [shares] of the configuration file, and
    share-settings-mapper.ts of packages/db, which reads the stored settings. *)
From Stdlib Require Import Ascii.
From stdpp Require Import pretty.
From S2P Require Import Prelude Json JsString JsonText JsNumber JsText.
Open Scope Z_scope.

(** ** packages/shared/src/types.ts *)
Inductive ShareProtocol := p_smb | p_webdav | p_ftp | p_nfs | p_dlna.
Definition SHARE_PROTOCOLS : list ShareProtocol := [p_smb; p_webdav; p_ftp; p_nfs; p_dlna].
Inductive DlnaMediaType := media_audio | media_video | media_pictures.
#[global] Instance DlnaMediaType_eq_dec : EqDecision DlnaMediaType. Proof. solve_decision. Defined.
Record SmbShareConfig := SmbShare { smb_enabled : bool; smb_readOnly : bool; smb_browseable : bool; smb_allowGuest : bool }.
Record WebDavShareConfig := WebDavShare {
  wd_enabled : bool; wd_readOnly : bool; wd_allowGuest : bool; wd_port : number; wd_pathPrefix : string }.
Record FtpShareConfig := FtpShare {
  ftp_enabled : bool; ftp_readOnly : bool; ftp_allowGuest : bool; ftp_port : number;
  ftp_passivePortStart : number; ftp_passivePortEnd : number }.
Record NfsShareConfig := NfsShare { nfs_enabled : bool; nfs_readOnly : bool; nfs_allowedCidrs : list string; nfs_rootSquash : bool }.
Record DlnaShareConfig := DlnaShare {
  dl_enabled : bool; dl_mediaTypes : list DlnaMediaType; dl_bindInterface : option string; dl_bindAddress : option string;
  dl_friendlyName : string }.
Record ShareProtocolConfig := ShareProtocols {
  sp_smb : SmbShareConfig; sp_webdav : WebDavShareConfig; sp_ftp : FtpShareConfig; sp_nfs : NfsShareConfig; sp_dlna : DlnaShareConfig }.
Record ShareDefinitionConfig := ShareDefinition {
  sd_id : string; sd_name : string; sd_rootId : string; sd_path : string; sd_description : string; sd_protocols : ShareProtocolConfig }.
Record ShareAccountConfig := ShareAccount { sa_username : string; sa_password : option string }.
Record ShareConfig := Shares { sh_enabled : bool; sh_account : ShareAccountConfig; sh_shares : list ShareDefinitionConfig }.
Record ShareSettingsRecord := ShareSettings { ss_config : ShareConfig; ss_updatedAt : string }.

(** ** Shared by config.ts and the mapper *)
Definition media_text (m : DlnaMediaType) : string :=
  match m with media_audio => "audio" | media_video => "video" | media_pictures => "pictures" end.
Definition DLNA_MEDIA_TYPES : list DlnaMediaType := [media_audio; media_video; media_pictures].
Definition isDlnaMediaType (value : string) : option DlnaMediaType := List.find (λ m, bool_decide (media_text m = value)) DLNA_MEDIA_TYPES.
Definition media_or_all (l : list DlnaMediaType) : list DlnaMediaType := match l with [] => DLNA_MEDIA_TYPES | _ => l end.

(** [value.trim().toLowerCase().replace(/[^a-z0-9]+/gu, "-").replace(/^-|-$/gu, "") || "share"] *)
Definition slug_char (c : ascii) : bool := is_lower c || is_digit c.
Fixpoint dash_runs (in_run : bool) (s : string) : string :=
  match s with
  | "" => ""
  | String c s => if slug_char c then String c (dash_runs false s)
                  else if in_run then dash_runs true s else String "-" (dash_runs true s)
  end.
Definition drop_dashes (s : string) : string :=
  let s := match s with String c s' => if Ascii.eqb c "-" then s' else s | "" => "" end in
  if endsWith_char "-" s then take_str (String.length s - 1) s else s.
Definition idPath (value : string) : string :=
  let s := drop_dashes (dash_runs false (toLowerCase (trim value))) in if bool_decide (s = "") then "share" else s.
Example idPath_texts : idPath " My Share! " = "my-share" ∧ idPath "--" = "share" ∧ idPath "a--b c" = "a-b-c".
Proof. by vm_compute. Qed.

(** ** config.ts *)
Record toml_smb := TomlSmb { tsm_enabled : option bool; tsm_read_only : option bool; tsm_browseable : option bool; tsm_allow_guest : option bool }.
Record toml_webdav := TomlWebdav {
  tw_enabled : option bool; tw_read_only : option bool; tw_allow_guest : option bool; tw_port : option number; tw_path_prefix : option string }.
Record toml_ftp := TomlFtp {
  tf_enabled : option bool; tf_read_only : option bool; tf_allow_guest : option bool; tf_port : option number;
  tf_passive_port_start : option number; tf_passive_port_end : option number }.
Record toml_nfs := TomlNfs { tn_enabled : option bool; tn_read_only : option bool; tn_allowed_cidrs : option (list string); tn_root_squash : option bool }.
Record toml_dlna := TomlDlna {
  tdl_enabled : option bool; tdl_media_types : option (list string); tdl_bind_interface : option string; tdl_bind_address : option string;
  tdl_friendly_name : option string }.
Record toml_share := TomlShare {
  tsh_id : option string; tsh_name : option string; tsh_root_id : option string; tsh_path : option string; tsh_description : option string;
  tsh_smb : option toml_smb; tsh_webdav : option toml_webdav; tsh_ftp : option toml_ftp; tsh_nfs : option toml_nfs; tsh_dlna : option toml_dlna }.

Definition share_media_types (values : option (list string)) : list DlnaMediaType :=
  media_or_all (omap isDlnaMediaType (values ⁇ (media_text <$> DLNA_MEDIA_TYPES))).
(** [toPositiveInteger] of a number, or of an absent one. *)
Definition positive_number (n : number) : bool := isInteger n && num_lt (lit 0) n.
Definition positive_or (n : option number) (fallback : number) : number :=
  match n with Some n => if positive_number n then n else fallback | None => fallback end.
Definition normalizeShareProtocols (item : toml_share) (name : string) : ShareProtocolConfig :=
  ShareProtocols
    (SmbShare ((tsh_smb item ≫= tsm_enabled) ⁇ false) ((tsh_smb item ≫= tsm_read_only) ⁇ true)
       ((tsh_smb item ≫= tsm_browseable) ⁇ true) ((tsh_smb item ≫= tsm_allow_guest) ⁇ false))
    (WebDavShare ((tsh_webdav item ≫= tw_enabled) ⁇ false) ((tsh_webdav item ≫= tw_read_only) ⁇ true)
       ((tsh_webdav item ≫= tw_allow_guest) ⁇ false) (positive_or (tsh_webdav item ≫= tw_port) (lit 8088))
       (normalizeText (tsh_webdav item ≫= tw_path_prefix) ⁇ ("/shares/" +:+ idPath name)))
    (FtpShare ((tsh_ftp item ≫= tf_enabled) ⁇ false) ((tsh_ftp item ≫= tf_read_only) ⁇ true)
       ((tsh_ftp item ≫= tf_allow_guest) ⁇ false) (positive_or (tsh_ftp item ≫= tf_port) (lit 2121))
       (positive_or (tsh_ftp item ≫= tf_passive_port_start) (lit 50000)) (positive_or (tsh_ftp item ≫= tf_passive_port_end) (lit 50100)))
    (NfsShare ((tsh_nfs item ≫= tn_enabled) ⁇ false) ((tsh_nfs item ≫= tn_read_only) ⁇ true)
       (List.filter (λ s, negb (bool_decide (s = ""))) (trim <$> ((tsh_nfs item ≫= tn_allowed_cidrs) ⁇ [])))
       ((tsh_nfs item ≫= tn_root_squash) ⁇ true))
    (DlnaShare ((tsh_dlna item ≫= tdl_enabled) ⁇ false) (share_media_types (tsh_dlna item ≫= tdl_media_types))
       (normalizeText (tsh_dlna item ≫= tdl_bind_interface)) (normalizeText (tsh_dlna item ≫= tdl_bind_address))
       (normalizeText (tsh_dlna item ≫= tdl_friendly_name) ⁇ name)).
Definition normalizeShareItem (item : toml_share) (index : nat) : option ShareDefinitionConfig :=
  rootId ← normalizeText (tsh_root_id item);
  sharePath ← normalizeText (tsh_path item);
  let id := normalizeText (tsh_id item) ⁇ ("share-" +:+ pretty (S index)) in
  let name := normalizeText (tsh_name item) ⁇ id in
  Some (ShareDefinition id name rootId sharePath (normalizeText (tsh_description item) ⁇ "") (normalizeShareProtocols item name)).

(** ** share-settings-mapper.ts *)
Definition positive_of (value : option json) : option number := n ← as_number value; if positive_number n then Some n else None.
Definition normalizeStringArray (value : option json) : list string :=
  match value with Some (JArr l) => omap (λ v, text_of (Some v)) l | _ => [] end.
Definition normalizeDlnaMediaTypes (value : option json) : list DlnaMediaType :=
  match value with
  | Some (JArr l) => media_or_all (omap (λ v, s ← as_string (Some v); isDlnaMediaType s) l)
  | _ => DLNA_MEDIA_TYPES
  end.
Definition normalizeShareProtocolConfig (value : option json) (shareName : string) : ShareProtocolConfig :=
  let protocols := recordFrom value in
  let smb := recordFrom (prop protocols "smb") in
  let webdav := recordFrom (prop protocols "webdav") in
  let ftp := recordFrom (prop protocols "ftp") in
  let nfs := recordFrom (prop protocols "nfs") in
  let dlna := recordFrom (prop protocols "dlna") in
  ShareProtocols
    (SmbShare (bool_or (prop smb "enabled") false) (bool_or (prop smb "readOnly") true)
       (bool_or (prop smb "browseable") true) (bool_or (prop smb "allowGuest") false))
    (WebDavShare (bool_or (prop webdav "enabled") false) (bool_or (prop webdav "readOnly") true)
       (bool_or (prop webdav "allowGuest") false) (positive_of (prop webdav "port") ⁇ lit 8088)
       (text_of (prop webdav "pathPrefix") ⁇ ("/shares/" +:+ idPath shareName)))
    (FtpShare (bool_or (prop ftp "enabled") false) (bool_or (prop ftp "readOnly") true)
       (bool_or (prop ftp "allowGuest") false) (positive_of (prop ftp "port") ⁇ lit 2121)
       (positive_of (prop ftp "passivePortStart") ⁇ lit 50000) (positive_of (prop ftp "passivePortEnd") ⁇ lit 50100))
    (NfsShare (bool_or (prop nfs "enabled") false) (bool_or (prop nfs "readOnly") true)
       (normalizeStringArray (prop nfs "allowedCidrs")) (bool_or (prop nfs "rootSquash") true))
    (DlnaShare (bool_or (prop dlna "enabled") false) (normalizeDlnaMediaTypes (prop dlna "mediaTypes"))
       (text_of (prop dlna "bindInterface")) (text_of (prop dlna "bindAddress")) (text_of (prop dlna "friendlyName") ⁇ shareName)).
Definition normalizeShareDefinition (value : json) (index : nat) : option ShareDefinitionConfig :=
  let share := recordFrom (Some value) in
  rootId ← text_of (prop share "rootId");
  sharePath ← text_of (prop share "path");
  let id := text_of (prop share "id") ⁇ ("share-" +:+ pretty (S index)) in
  let name := text_of (prop share "name") ⁇ id in
  Some (ShareDefinition id name rootId sharePath (text_of (prop share "description") ⁇ "")
          (normalizeShareProtocolConfig (prop share "protocols") name)).
Definition normalizeShareDefinitions (shares : option json) : list ShareDefinitionConfig :=
  match shares with
  | Some (JArr l) => omap id (imap (λ index share, normalizeShareDefinition share index) l)
  | _ => []
  end.
Definition normalizeShareSettings (settings : list (string * json)) (updatedAt : string) : ShareSettingsRecord :=
  let account := recordFrom (prop settings "account") in
  ShareSettings
    (Shares (bool_or (prop settings "enabled") false)
       (ShareAccount (text_of (prop account "username") ⁇ "zos-share") (text_of (prop account "password")))
       (normalizeShareDefinitions (prop settings "shares")))
    updatedAt.

(** *** [JSON.stringify] of the settings *)
Definition smb_json (c : SmbShareConfig) : json :=
  JObj [("enabled", JBool (smb_enabled c)); ("readOnly", JBool (smb_readOnly c)); ("browseable", JBool (smb_browseable c));
        ("allowGuest", JBool (smb_allowGuest c))].
Definition webdav_json (c : WebDavShareConfig) : json :=
  JObj [("enabled", JBool (wd_enabled c)); ("readOnly", JBool (wd_readOnly c)); ("allowGuest", JBool (wd_allowGuest c));
        ("port", JNum (wd_port c)); ("pathPrefix", JStr (wd_pathPrefix c))].
Definition ftp_json (c : FtpShareConfig) : json :=
  JObj [("enabled", JBool (ftp_enabled c)); ("readOnly", JBool (ftp_readOnly c)); ("allowGuest", JBool (ftp_allowGuest c));
        ("port", JNum (ftp_port c)); ("passivePortStart", JNum (ftp_passivePortStart c)); ("passivePortEnd", JNum (ftp_passivePortEnd c))].
Definition nfs_json (c : NfsShareConfig) : json :=
  JObj [("enabled", JBool (nfs_enabled c)); ("readOnly", JBool (nfs_readOnly c)); ("allowedCidrs", JArr (JStr <$> nfs_allowedCidrs c));
        ("rootSquash", JBool (nfs_rootSquash c))].
Definition dlna_json (c : DlnaShareConfig) : json :=
  JObj [("enabled", JBool (dl_enabled c)); ("mediaTypes", JArr ((λ m, JStr (media_text m)) <$> dl_mediaTypes c));
        ("bindInterface", nullable (dl_bindInterface c)); ("bindAddress", nullable (dl_bindAddress c)); ("friendlyName", JStr (dl_friendlyName c))].
Definition share_json (s : ShareDefinitionConfig) : json :=
  let p := sd_protocols s in
  JObj [("id", JStr (sd_id s)); ("name", JStr (sd_name s)); ("rootId", JStr (sd_rootId s)); ("path", JStr (sd_path s));
        ("description", JStr (sd_description s));
        ("protocols", JObj [("smb", smb_json (sp_smb p)); ("webdav", webdav_json (sp_webdav p)); ("ftp", ftp_json (sp_ftp p));
                            ("nfs", nfs_json (sp_nfs p)); ("dlna", dlna_json (sp_dlna p))])].
Definition share_settings_props (s : ShareSettingsRecord) : list (string * json) :=
  let c := ss_config s in
  [("enabled", JBool (sh_enabled c));
   ("account", JObj [("username", JStr (sa_username (sh_account c))); ("password", nullable (sa_password (sh_account c)))]);
   ("shares", JArr (share_json <$> sh_shares c)); ("updatedAt", JStr (ss_updatedAt s))].

(** ** What is stored reads back *)
Definition plain_option (o : option string) : Prop := from_option plain_text True o.
Record protocols_ok (p : ShareProtocolConfig) : Prop := ProtocolsOk {
  po_wport : positive_number (wd_port (sp_webdav p)) = true;
  po_prefix : plain_text (wd_pathPrefix (sp_webdav p));
  po_fport : positive_number (ftp_port (sp_ftp p)) = true;
  po_start : positive_number (ftp_passivePortStart (sp_ftp p)) = true;
  po_end : positive_number (ftp_passivePortEnd (sp_ftp p)) = true;
  po_cidrs : Forall plain_text (nfs_allowedCidrs (sp_nfs p));
  po_media : dl_mediaTypes (sp_dlna p) ≠ [];
  po_interface : plain_option (dl_bindInterface (sp_dlna p));
  po_address : plain_option (dl_bindAddress (sp_dlna p));
  po_friendly : plain_text (dl_friendlyName (sp_dlna p))
}.
Record share_ok (s : ShareDefinitionConfig) : Prop := ShareOk {
  so_id : plain_text (sd_id s);
  so_name : plain_text (sd_name s);
  so_root : plain_text (sd_rootId s);
  so_path : plain_text (sd_path s);
  so_description : sd_description s = "" ∨ plain_text (sd_description s);
  so_protocols : protocols_ok (sd_protocols s)
}.
Record share_settings_ok (s : ShareSettingsRecord) : Prop := ShareSettingsOk {
  sko_username : plain_text (sa_username (sh_account (ss_config s)));
  sko_password : plain_option (sa_password (sh_account (ss_config s)));
  sko_shares : Forall share_ok (sh_shares (ss_config s))
}.

Lemma text_of_nullable o : plain_option o → text_of (Some (nullable o)) = o.
Proof. destruct o as [s|]; [apply text_of_plain|done]. Qed.
Lemma positive_of_num n : positive_number n = true → positive_of (Some (JNum n)) = Some n.
Proof. unfold positive_of. cbn. by intros ->. Qed.
Lemma string_array_plain l : Forall plain_text l → normalizeStringArray (Some (JArr (JStr <$> l))) = l.
Proof.
  cbn [normalizeStringArray]. induction 1 as [|s l Hs Hl IH]; [done|]. cbn [fmap list_fmap omap list_omap].
  by rewrite text_of_plain, IH.
Qed.
Lemma media_types_back l : l ≠ [] → normalizeDlnaMediaTypes (Some (JArr ((λ m, JStr (media_text m)) <$> l))) = l.
Proof.
  intros Hl. cbn [normalizeDlnaMediaTypes]. assert (∀ l, omap (λ v, s ← as_string (Some v); isDlnaMediaType s) ((λ m, JStr (media_text m)) <$> l) = l) as ->; [|by destruct l].
  clear l Hl. induction l as [|m l IH]; [done|]. cbn [fmap list_fmap omap list_omap]. rewrite IH. by destruct m.
Qed.
Lemma protocols_back p name : protocols_ok p →
  normalizeShareProtocolConfig (Some (JObj [("smb", smb_json (sp_smb p)); ("webdav", webdav_json (sp_webdav p)); ("ftp", ftp_json (sp_ftp p));
    ("nfs", nfs_json (sp_nfs p)); ("dlna", dlna_json (sp_dlna p))])) name = p.
Proof.
  destruct p as [[] [] [] [] []]. intros [H1 H2 H3 H4 H5 H6 H7 H8 H9 H10]. simpl in *. unfold normalizeShareProtocolConfig.
  cbv zeta. unfold smb_json, webdav_json, ftp_json, nfs_json, dlna_json. props_step.
  cbn [sp_smb sp_webdav sp_ftp sp_nfs sp_dlna smb_enabled smb_readOnly smb_browseable smb_allowGuest wd_enabled wd_readOnly wd_allowGuest
    wd_port wd_pathPrefix ftp_enabled ftp_readOnly ftp_allowGuest ftp_port ftp_passivePortStart ftp_passivePortEnd nfs_enabled nfs_readOnly
    nfs_allowedCidrs nfs_rootSquash dl_enabled dl_mediaTypes dl_bindInterface dl_bindAddress dl_friendlyName bool_or as_bool default from_option id].
  by rewrite !positive_of_num, !text_of_nullable, !text_of_plain, string_array_plain, media_types_back by done.
Qed.
Lemma share_back s index : share_ok s → normalizeShareDefinition (share_json s) index = Some s.
Proof.
  destruct s as [id name root path description p]. intros [H1 H2 H3 H4 H5 H6]. simpl in *. unfold normalizeShareDefinition.
  unfold share_json. props_step. cbv zeta. cbn [sd_id sd_name sd_rootId sd_path sd_description sd_protocols]. rewrite (text_of_plain root), (text_of_plain path), (text_of_plain id), (text_of_plain name) by done.
  cbn [mbind option_bind default from_option]. rewrite protocols_back by done. do 2 f_equal. destruct H5 as [->|H5]; [done|]. by rewrite text_of_plain.
Qed.
Lemma shares_back l k : Forall share_ok l → omap id (imap (λ index share, normalizeShareDefinition share (k + index)) (share_json <$> l)) = l.
Proof.
  intros H. revert k. induction H as [|s l Hs Hl IH]; intros k; [done|]. cbn [fmap list_fmap]. rewrite imap_cons. cbn [omap list_omap id].
  rewrite share_back by done. cbn. f_equal. rewrite <-(IH (S k)) at 2. f_equal. apply imap_ext. intros i x _. cbn. f_equal. lia.
Qed.
(** The stored settings read back as they are. *)
Lemma share_settings_back s updatedAt : share_settings_ok s →
  normalizeShareSettings (share_settings_props s) updatedAt = ShareSettings (ss_config s) updatedAt.
Proof.
  destruct s as [[enabled [username password] shares] t]. intros [H1 H2 H3]. simpl in *. unfold normalizeShareSettings.
  unfold share_settings_props. props_step. cbv zeta. cbn [ss_config sh_enabled sh_account sh_shares sa_username sa_password].
  rewrite text_of_plain, text_of_nullable by done.
  cbn [normalizeShareDefinitions]. by rewrite <-(shares_back shares 0 H3) at 2.
Qed.

Lemma take_str_chars (p : ascii → bool) n s : all_chars p s = true → all_chars p (take_str n s) = true.
Proof. revert n. induction s as [|c s IH]; intros [|n]; [done..|]. cbn. intros [-> H]%andb_prop. by apply IH. Qed.
Lemma drop_dashes_chars (p : ascii → bool) s : all_chars p s = true → all_chars p (drop_dashes s) = true.
Proof.
  intros H. unfold drop_dashes. cbv zeta. assert (all_chars p match s with String c s' => if Ascii.eqb c "-" then s' else s | "" => "" end = true).
  { destruct s as [|c s]; [done|]. destruct (Ascii.eqb _ _); [|done]. by apply andb_prop in H as [_ H]. }
  destruct (endsWith_char _ _); [by apply take_str_chars|done].
Qed.
Definition slug_or_dash (c : ascii) : bool := slug_char c || Ascii.eqb c "-".
Lemma dash_runs_chars b s : all_chars slug_or_dash (dash_runs b s) = true.
Proof.
  revert b. induction s as [|c s IH]; intros b; [done|]. cbn [dash_runs]. destruct (slug_char c) eqn:E.
  - cbn. unfold slug_or_dash at 1. by rewrite E, IH.
  - destruct b; [apply IH|]. cbn. by rewrite IH.
Qed.
Lemma idPath_no_white value : idPath value ≠ "" ∧ no_white (idPath value).
Proof.
  unfold idPath. cbv zeta. case_bool_decide as E; [done|]. split; [done|]. unfold no_white.
  apply (all_chars_impl slug_or_dash); [|apply drop_dashes_chars, dash_runs_chars].
  intros c. unfold slug_or_dash, slug_char, is_white, is_lower, is_digit, JsString.between. intros H. apply negb_true_iff, not_true_iff_false. intros H'.
  apply orb_prop in H' as [H'|H'].
  - apply andb_prop in H' as [H1%Nat.leb_le H2%Nat.leb_le]. apply orb_prop in H as [H|Ed%Ascii.eqb_eq]; [|subst; by vm_compute in H2; lia].
    apply orb_prop in H as [H|H]; apply andb_prop in H as [H3%Nat.leb_le H4%Nat.leb_le]; lia.
  - apply bool_decide_eq_true in H'. assert (code c = 32 ∨ code c = 160)%nat as Hc by set_solver.
    apply orb_prop in H as [H|Ed%Ascii.eqb_eq]; [|subst; vm_compute in Hc; lia].
    apply orb_prop in H as [H|H]; apply andb_prop in H as [H3%Nat.leb_le H4%Nat.leb_le]; lia.
Qed.
Lemma default_plain (o : option string) d : plain_option o → plain_text d → plain_text (o ⁇ d).
Proof. by destruct o. Qed.
Lemma text_of_option v : plain_option (text_of v).
Proof. destruct (text_of v) as [s|] eqn:E; [|done]. by apply normalizeText_plain in E. Qed.
Lemma positive_of_ok v z : positive_number z = true → positive_number (positive_of v ⁇ z) = true.
Proof.
  intros Hz. unfold positive_of. destruct (as_number v) as [n|]; [|done]. cbn. by destruct (positive_number n) eqn:E.
Qed.
Lemma default_prefix_plain name : plain_text ("/shares/" +:+ idPath name).
Proof. destruct (idPath_no_white name) as [H1 H2]. apply no_white_plain; [done|]. by apply (no_white_app "/shares/"). Qed.

Lemma string_array_ok v : Forall plain_text (normalizeStringArray v).
Proof.
  unfold normalizeStringArray. destruct v as [[]|]; try constructor. induction l as [|v' l IH]; [constructor|]. cbn [omap list_omap].
  pose proof (text_of_option (Some v')). destruct (text_of (Some v')); [by constructor|done].
Qed.
Lemma normalized_protocols_ok v name : plain_text name → protocols_ok (normalizeShareProtocolConfig v name).
Proof.
  intros Hn. unfold normalizeShareProtocolConfig. cbv zeta.
  split; cbn [sp_smb sp_webdav sp_ftp sp_nfs sp_dlna wd_port wd_pathPrefix ftp_port ftp_passivePortStart ftp_passivePortEnd nfs_allowedCidrs
    dl_mediaTypes dl_bindInterface dl_bindAddress dl_friendlyName]; try (by apply positive_of_ok); try apply text_of_option.
  - apply default_plain; [apply text_of_option|apply default_prefix_plain].
  - apply string_array_ok.
  - unfold normalizeDlnaMediaTypes, media_or_all. by repeat case_match.
  - by apply default_plain; [apply text_of_option|].
Qed.
Lemma normalized_share_ok v index s : normalizeShareDefinition v index = Some s → share_ok s.
Proof.
  unfold normalizeShareDefinition. cbv zeta. intros (root & Er & H)%bind_Some. apply bind_Some in H as (path & Ep & [= <-]).
  apply normalizeText_plain in Er, Ep.
  assert (plain_text (text_of (prop (recordFrom (Some v)) "id") ⁇ ("share-" +:+ pretty (S index)))) as Hid.
  { apply default_plain; [apply text_of_option|]. apply no_white_plain; [done|]. apply (no_white_app "share-"); [done|apply pretty_nat_no_white]. }
  assert (∀ n d, plain_text d → plain_text (text_of n ⁇ d)) as Hname by (intros n d ?; apply default_plain; [apply text_of_option|done]).
  split; cbn [sd_id sd_name sd_rootId sd_path sd_description sd_protocols]; try done; [by apply Hname| |].
  - destruct (text_of (prop _ "description")) eqn:E; [right; by apply normalizeText_plain in E|by left].
  - by apply normalized_protocols_ok, Hname.
Qed.
Lemma normalized_settings_ok settings updatedAt : share_settings_ok (normalizeShareSettings settings updatedAt).
Proof.
  unfold normalizeShareSettings. cbv zeta.
  split; cbn [ss_config sh_account sh_shares sa_username sa_password]; [apply default_plain; [apply text_of_option|by split]|apply text_of_option|].
  unfold normalizeShareDefinitions. destruct (prop settings "shares") as [[]|]; try constructor.
  apply Forall_forall. intros s (o & Ho & Es)%list_elem_of_omap. cbn in Es. subst o. apply list_elem_of_lookup_1 in Ho as [i Hi].
  rewrite list_lookup_imap in Hi. destruct (l !! i); [|done]. injection Hi as Hi. by apply normalized_share_ok in Hi.
Qed.
