(* ===== verification/IpAddress.v ===== *)
(** * Network addresses

    The addresses and the CIDR blocks that apps/api/src/lib/docker-create.ts
    reads: [isIP] of node:net, and [parseCidr], [ipBytes], [cidrContains] and
    [cidrOverlaps].  A block is shown to hold exactly the addresses with its
    first bits, and two blocks to overlap exactly when some address is in both. *)
From Stdlib Require Import Ascii QArith.
From S2P Require Import Prelude Json JsString JsonText JsNumber.
Open Scope Z_scope.

Definition DockerCreateValidationError (message : string) (statusCode : Z) : exn :=
  Exn "DockerCreateValidationError" message (Some statusCode) None [].

(** ** [isIP] of node:net *)
Definition v4_segment (s : string) : bool :=
  bool_decide (1 ≤ len s ≤ 3) && all_chars is_digit s &&
  (bool_decide (len s = 1) || negb (startsWith "0" s)) && bool_decide ((read_digits 0 0 s).1.1 ≤ 255).
Definition isIPv4 (s : string) : bool :=
  match split_on "." s with [a; b; c; d] => v4_segment a && v4_segment b && v4_segment c && v4_segment d | _ => false end.

Definition v6_segment (s : string) : bool := bool_decide (1 ≤ len s ≤ 4) && all_chars hex_digit s.
(** The 16-bit groups that segments stand for; the last may be an IPv4 address. *)
Fixpoint group_count (l : list string) : option nat :=
  match l with
  | [] => Some 0%nat
  | [x] => if v6_segment x then Some 1%nat else if isIPv4 x then Some 2%nat else None
  | x :: l => if v6_segment x then S <$> group_count l else None
  end.
Definition halves_of (s : string) : list string := if bool_decide (s = "") then [] else split_on ":" s.
Definition v6_address (s : string) : bool :=
  match indexOf "::" s with
  | None => bool_decide (group_count (split_on ":" s) = Some 8%nat)
  | Some i =>
      let left := halves_of (take_str i s) in
      forallb v6_segment left &&
      match group_count (halves_of (drop_str (i + 2) s)) with Some n => bool_decide (length left + n ≤ 7)%nat | None => false end
  end.
Definition zone_char (c : ascii) : bool := is_alnum c || bool_decide (c ∈ ["-"; "."; ":"]%char).
Definition isIPv6 (s : string) : bool :=
  match indexOf "%" s with
  | None => v6_address s
  | Some i => v6_address (take_str i s) && negb (bool_decide (drop_str (i + 1) s = "")) && all_chars zone_char (drop_str (i + 1) s)
  end.
Definition isIP (s : string) : Z := if isIPv4 s then 4 else if isIPv6 s then 6 else 0.

(** ** [ipBytes] *)
(** [value.split("::")]. *)
Fixpoint split_double (s : string) : list string :=
  match s with
  | String c s' =>
      let more := match split_double s' with [] => [String c ""] | w :: ws => String c w :: ws end in
      match s' with
      | String d s'' => if Ascii.eqb c ":" && Ascii.eqb d ":" then "" :: split_double s'' else more
      | "" => more
      end
  | "" => [""]
  end.
Definition shl32 (n k : Z) : Z := wrap32 (Z.shiftl n k).
Definition at_or_0 (bytes : list number) (i : nat) : Z := to_int32 (bytes !! i ⁇ lit 0).
Definition part_groups (part : string) : list Z :=
  if has_char "." part then
    let bytes := to_number <$> split_on "." part in
    [Z.lor (shl32 (at_or_0 bytes 0) 8) (at_or_0 bytes 1); Z.lor (shl32 (at_or_0 bytes 2) 8) (at_or_0 bytes 3)]
  else [to_int32 (parse_int16 part)].
Definition parseHalf (half : string) : list Z :=
  if bool_decide (half = "") then [] else split_on ":" half ≫= part_groups.
Definition group_bytes (g : Z) : list Z := [Z.land (Z.shiftr g 8) 255; Z.land g 255].
Definition ipBytes (value : string) : list Z :=
  if bool_decide (isIP value = 4) then (λ s, number_Z (to_number s)) <$> split_on "." value else
  let halves := split_double (toLowerCase value) in
  if bool_decide (2 < length halves)%nat then [] else
  let left := parseHalf (halves !! 0%nat ⁇ "") in
  let right := parseHalf (halves !! 1%nat ⁇ "") in
  let groups := if bool_decide (length halves = 2%nat) then left ++ replicate (8 - length left - length right) 0 ++ right else left in
  groups ≫= group_bytes.

(** ** CIDR blocks *)
Record cidr := Cidr { ci_family : Z; ci_prefix : Z; ci_bytes : list Z }.
Definition parseCidr (value field : string) : exn + cidr :=
  let error := inl (DockerCreateValidationError (field +:+ " must be a valid CIDR") 400) in
  match split_on "/" value with
  | [address; rawPrefix] =>
      let family := isIP address in
      let prefix := to_number rawPrefix in
      let bits := if bool_decide (family = 4) then 32 else if bool_decide (family = 6) then 128 else 0 in
      if bool_decide (family = 0) || negb (isInteger prefix) || num_lt prefix (lit 0) || num_lt (lit bits) prefix then error
      else inr (Cidr family (number_Z prefix) (ipBytes address))
  | _ => error
  end.

Definition cidrContains (c : cidr) (address : list Z) : bool :=
  if negb (bool_decide (length (ci_bytes c) = length address)) then false else
  let wholeBytes := Z.to_nat (ci_prefix c / 8) in
  let remainingBits := ci_prefix c mod 8 in
  if negb (forallb (λ i, bool_decide (ci_bytes c !! i = address !! i)) (seq 0 wholeBytes)) then false
  else if bool_decide (remainingBits = 0) then true
  else
    let mask := Z.land (Z.shiftl 255 (8 - remainingBits)) 255 in
    bool_decide (Z.land (ci_bytes c !! wholeBytes ⁇ 0) mask = Z.land (address !! wholeBytes ⁇ 0) mask).
Definition cidrOverlaps (left right : cidr) : bool :=
  bool_decide (ci_family left = ci_family right) && (cidrContains left (ci_bytes right) || cidrContains right (ci_bytes left)).

Example addresses :
  isIP "192.168.1.20" = 4 ∧ isIP "192.168.01.2" = 0 ∧ isIP "256.1.1.1" = 0 ∧ isIP "::1" = 6 ∧ isIP "fe80::1%eth0" = 6 ∧
  isIP "1:2:3:4:5:6:7::" = 6 ∧ isIP "1:2:3:4:5:6:7:8::" = 0 ∧ isIP "::ffff:1.2.3.4" = 6 ∧ isIP "a:::b" = 0 ∧ isIP "" = 0 ∧
  ipBytes "10.1.2.3" = [10; 1; 2; 3] ∧ ipBytes "::ffff:1.2.3.4" = [0; 0; 0; 0; 0; 0; 0; 0; 0; 0; 255; 255; 1; 2; 3; 4] ∧
  ipBytes "fe80::1" = [254; 128; 0; 0; 0; 0; 0; 0; 0; 0; 0; 0; 0; 0; 0; 1].
Proof. by vm_compute. Qed.

(** A prefix that is no decimal number: the empty text reads as 0, and other
    notations of [Number] are taken. *)
Example odd_prefixes :
  parseCidr "10.0.0.0/" "IPAM subnet" = inr (Cidr 4 0 [10; 0; 0; 0]) ∧
  parseCidr "10.0.0.0/0x18" "IPAM subnet" = inr (Cidr 4 24 [10; 0; 0; 0]).
Proof. by vm_compute. Qed.

(** ** Blocks as sets of addresses

    An address of [n] bytes is a number below [256 ^ n]; a block of prefix [p]
    holds the addresses that agree with its own in the first [p] bits. *)
Definition is_byte (b : Z) : Prop := 0 ≤ b < 256.
Definition address_value (bytes : list Z) : Z := foldl (λ v b, v * 256 + b) 0 bytes.
Definition top_bits (p : Z) (bytes : list Z) : Z := address_value bytes / 2 ^ (8 * Z.of_nat (length bytes) - p).
Record cidr_ok (c : cidr) : Prop := CidrOk {
  ck_bytes : Forall is_byte (ci_bytes c);
  ck_prefix : 0 ≤ ci_prefix c ≤ 8 * Z.of_nat (length (ci_bytes c))
}.

Lemma value_from v l : foldl (λ v b, v * 256 + b) v l = v * 256 ^ Z.of_nat (length l) + address_value l.
Proof.
  unfold address_value. revert v. induction l as [|b l IH]; intros v; [cbn [foldl length]; lia|]. cbn [foldl length].
  rewrite IH, (IH (0 * 256 + b)). rewrite Nat2Z.inj_succ, Z.pow_succ_r by lia. lia.
Qed.
Lemma value_app a b : address_value (a ++ b) = address_value a * 256 ^ Z.of_nat (length b) + address_value b.
Proof. unfold address_value at 1. rewrite foldl_app. apply value_from. Qed.
Lemma value_bound l : Forall is_byte l → 0 ≤ address_value l < 256 ^ Z.of_nat (length l).
Proof.
  induction 1 as [|b l Hb Hl IH]; [done|]. change (b :: l) with ([b] ++ l). rewrite value_app.
  change (address_value [b]) with (0 * 256 + b). cbn [length app]. rewrite Nat2Z.inj_succ, Z.pow_succ_r by lia.
  destruct Hb. nia.
Qed.
Lemma value_inj a b : length a = length b → Forall is_byte a → Forall is_byte b → address_value a = address_value b → a = b.
Proof.
  revert b. induction a as [|x a IH]; intros [|y b] Hl; try done. intros [Hx Ha]%Forall_cons [Hy Hb]%Forall_cons.
  change (x :: a) with ([x] ++ a). change (y :: b) with ([y] ++ b). rewrite !value_app.
  change (address_value [x]) with (0 * 256 + x). change (address_value [y]) with (0 * 256 + y). injection Hl as Hl. rewrite Hl.
  pose proof (value_bound a Ha) as Ba. pose proof (value_bound b Hb) as Bb. rewrite Hl in Ba. intros E.
  assert (x = y) as -> by nia. f_equal. apply IH; [done|done|done|lia].
Qed.

(** The mask of the partial byte keeps its first bits: the numbers below 256,
    checked one by one. *)
Lemma masks : forallb (λ r, forallb (λ x, bool_decide (Z.land x (Z.land (Z.shiftl 255 (8 - r)) 255) = x / 2 ^ (8 - r) * 2 ^ (8 - r)))
  (Z.of_nat <$> seq 0 256)) (Z.of_nat <$> seq 1 7) = true.
Proof. by vm_compute. Qed.
Lemma mask_spec r x : 1 ≤ r < 8 → is_byte x → Z.land x (Z.land (Z.shiftl 255 (8 - r)) 255) = x / 2 ^ (8 - r) * 2 ^ (8 - r).
Proof.
  intros Hr [Hx0 Hx]. pose proof masks as H. rewrite forallb_forall in H.
  assert (In r (Z.of_nat <$> seq 1 7)) as Hin.
  { apply list_elem_of_In, list_elem_of_fmap. exists (Z.to_nat r). split; [lia|]. apply elem_of_seq. lia. }
  apply H in Hin. rewrite forallb_forall in Hin. apply (bool_decide_eq_true _), Hin.
  apply list_elem_of_In, list_elem_of_fmap. exists (Z.to_nat x). split; [lia|]. apply elem_of_seq. lia.
Qed.

Lemma lookups_take (a b : list Z) n : length a = length b →
  forallb (λ i, bool_decide (a !! i = b !! i)) (seq 0 n) = bool_decide (take n a = take n b).
Proof.
  intros Hl. apply eq_true_iff_eq. rewrite forallb_forall, bool_decide_eq_true. split.
  - intros H. apply list_eq. intros i. rewrite !lookup_take. destruct (decide (i < n)%nat); [|done].
    apply (bool_decide_eq_true (a !! i = b !! i)), H. apply in_seq. lia.
  - intros H i Hi%in_seq. apply bool_decide_eq_true. assert (take n a !! i = take n b !! i) as E by (by rewrite H).
    by rewrite !lookup_take, !decide_True in E by lia.
Qed.

(** The first bits of an address: its whole bytes, and the bits of the next. *)
Lemma top_whole n l : Forall is_byte l → (n ≤ length l)%nat → top_bits (8 * Z.of_nat n) l = address_value (take n l).
Proof.
  intros Hl Hn. unfold top_bits. rewrite <-(take_drop n l) at 1. rewrite value_app, length_drop.
  replace (8 * Z.of_nat (length l) - 8 * Z.of_nat n) with (8 * Z.of_nat (length l - n)) by lia.
  rewrite Z.pow_mul_r by lia. change (2 ^ 8) with 256.
  pose proof (value_bound (drop n l) (Forall_drop _ _ _ Hl)) as H. rewrite length_drop in H.
  rewrite Z.div_add_l by lia. rewrite (Z.div_small (address_value (drop n l))) by lia. lia.
Qed.

Lemma top_part n r l x : Forall is_byte l → l !! n = Some x → 1 ≤ r < 8 →
  top_bits (8 * Z.of_nat n + r) l = address_value (take n l) * 2 ^ r + x / 2 ^ (8 - r).
Proof.
  intros Hl Hx Hr. assert (n < length l)%nat as Hn by (by eapply lookup_lt_Some).
  pose proof (top_whole (S n) l Hl ltac:(lia)) as H. unfold top_bits in *.
  rewrite (take_S_r _ _ _ Hx), value_app in H. change (address_value [x]) with (0 * 256 + x) in H. cbn [length] in H.
  replace (8 * Z.of_nat (length l) - (8 * Z.of_nat n + r)) with ((8 * Z.of_nat (length l) - 8 * Z.of_nat (S n)) + (8 - r)) by lia.
  rewrite Z.pow_add_r, <-Z.div_div by lia. rewrite H. change (256 ^ Z.of_nat 1) with (2 ^ 8).
  replace (2 ^ 8) with (2 ^ r * 2 ^ (8 - r)) by (rewrite <-Z.pow_add_r by lia; f_equal; lia).
  rewrite Z.mul_0_l, Z.add_0_l, Z.mul_assoc, Z.div_add_l by lia. done.
Qed.

Lemma bytes_take n l : Forall is_byte l → Forall is_byte (take n l).
Proof. apply Forall_take. Qed.

(** A block holds exactly the addresses with its first bits. *)
Theorem cidr_contains_spec c a : cidr_ok c → length (ci_bytes c) = length a → Forall is_byte a →
  cidrContains c a = bool_decide (top_bits (ci_prefix c) a = top_bits (ci_prefix c) (ci_bytes c)).
Proof.
  intros [Hc Hp] Hl Ha. unfold cidrContains. rewrite bool_decide_true by done. cbn [negb].
  pose proof (Z.div_mod (ci_prefix c) 8 ltac:(lia)) as Hdm. pose proof (Z.mod_pos_bound (ci_prefix c) 8 ltac:(lia)) as Hr.
  set (r := ci_prefix c mod 8) in *. pose proof (Z.div_pos (ci_prefix c) 8 ltac:(lia) ltac:(lia)) as Hq.
  set (w := Z.to_nat (ci_prefix c / 8)). assert (ci_prefix c = 8 * Z.of_nat w + r) as Ep by lia. clearbody w r. clear Hdm Hq.
  rewrite lookups_take by done. destruct (decide (r = 0)) as [->|Hr0].
  - rewrite (bool_decide_true (0 = 0)) by done. rewrite Ep, Z.add_0_r in *. rewrite !top_whole by (try done; lia).
    case_bool_decide as E; cbn [negb]; symmetry; [apply bool_decide_eq_true; by rewrite E|apply bool_decide_eq_false].
    intros Hv. apply E. apply value_inj; [rewrite !length_take; lia|by apply bytes_take..|done].
  - rewrite (bool_decide_false (r = 0)) by done. assert (w < length a)%nat as Hw by lia.
    destruct (lookup_lt_is_Some_2 a w Hw) as [y Hy]. destruct (lookup_lt_is_Some_2 (ci_bytes c) w ltac:(lia)) as [x Hx].
    rewrite Hx, Hy. cbn [default from_option id]. rewrite Ep, (top_part w r _ x Hc Hx), (top_part w r _ y Ha Hy) by lia.
    pose proof (Forall_lookup_1 _ _ _ _ Hc Hx) as Bx. pose proof (Forall_lookup_1 _ _ _ _ Ha Hy) as By.
    simpl. rewrite !mask_spec by (try done; lia).
    assert (∀ z, is_byte z → 0 ≤ z / 2 ^ (8 - r) < 2 ^ r) as Hz.
    { intros z [Hz0 Hz]. split; [apply Z.div_pos; lia|]. apply Z.div_lt_upper_bound; [lia|].
      rewrite <-Z.pow_add_r by lia. by replace (8 - r + r) with 8 by lia. }
    pose proof (Hz x Bx). pose proof (Hz y By).
    assert (0 < 2 ^ r ∧ 0 < 2 ^ (8 - r)) as [H2 H3] by lia. set (X := x / 2 ^ (8 - r)) in *. set (Y := y / 2 ^ (8 - r)) in *.
    case_bool_decide as E; cbn [negb].
    + rewrite E. apply bool_decide_ext. split; [intros Hm; f_equal; nia|intros Hm; nia].
    + symmetry. apply bool_decide_eq_false. intros Hm. apply E, value_inj; [rewrite !length_take; lia|by apply bytes_take..|nia].
Qed.

(** Two blocks overlap exactly when some address is in both. *)
Lemma top_bits_less p q a b : length a = length b → 0 ≤ p ≤ q → q ≤ 8 * Z.of_nat (length a) →
  top_bits q a = top_bits q b → top_bits p a = top_bits p b.
Proof.
  unfold top_bits. intros Hl Hp Hq E. rewrite Hl in *.
  replace (8 * Z.of_nat (length b) - p) with ((8 * Z.of_nat (length b) - q) + (q - p)) by lia.
  rewrite Z.pow_add_r, <-!Z.div_div by lia. by rewrite E.
Qed.

Theorem cidr_overlaps_spec l r : cidr_ok l → cidr_ok r →
  (ci_family l = ci_family r ↔ length (ci_bytes l) = length (ci_bytes r)) →
  cidrOverlaps l r = true ↔ ∃ a, Forall is_byte a ∧ cidrContains l a = true ∧ cidrContains r a = true.
Proof.
  intros Hl Hr Hf. unfold cidrOverlaps. rewrite andb_true_iff, bool_decide_eq_true, orb_true_iff.
  assert (∀ c, cidr_ok c → cidrContains c (ci_bytes c) = true) as Hself.
  { intros c Hc. rewrite cidr_contains_spec; [by apply bool_decide_eq_true|done|done|by destruct Hc]. }
  split.
  - intros [_ [H|H]]; [exists (ci_bytes r)|exists (ci_bytes l)]; (split; [by apply ck_bytes|]); split; auto.
  - intros (a & Ha & Hla & Hra).
    assert (∀ c, cidrContains c a = true → length (ci_bytes c) = length a) as Hlen.
    { intros c. unfold cidrContains. by case_bool_decide. }
    pose proof (Hlen l Hla) as L1. pose proof (Hlen r Hra) as L2. split; [apply Hf; congruence|].
    rewrite (cidr_contains_spec l) in Hla by done. rewrite (cidr_contains_spec r) in Hra by done.
    rewrite (cidr_contains_spec l), (cidr_contains_spec r) by (try done; try congruence; by apply ck_bytes).
    apply bool_decide_eq_true in Hla, Hra. rewrite !bool_decide_eq_true.
    pose proof (ck_prefix l Hl). pose proof (ck_prefix r Hr).
    destruct (Z.le_ge_cases (ci_prefix l) (ci_prefix r)) as [Hle|Hge].
    + left. rewrite <-Hla. symmetry. apply (top_bits_less _ (ci_prefix r)); [congruence|lia|rewrite <-L2; lia|done].
    + right. rewrite <-Hra. symmetry. apply (top_bits_less _ (ci_prefix l)); [congruence|lia|rewrite <-L1; lia|done].
Qed.

(** ** The bytes of an address *)
Lemma lower_mark d c : d = ":"%char ∨ d = "."%char → Ascii.eqb (lower_char c) d = Ascii.eqb c d.
Proof. intros [->| ->]; by destruct c as [[] [] [] [] [] [] [] []]. Qed.

Lemma split_lower d s : d = ":"%char ∨ d = "."%char → split_on d (toLowerCase s) = toLowerCase <$> split_on d s.
Proof.
  intros Hd. unfold toLowerCase. induction s as [|c s IH]; [done|]. cbn [map_chars split_on]. rewrite IH, lower_mark by done.
  destruct (Ascii.eqb c d); [done|]. by destruct (split_on d s).
Qed.

(** Halves: no text, or groups. *)
Fixpoint double_in (s : string) : bool :=
  match s with
  | String c s' => match s' with String d _ => (Ascii.eqb c ":" && Ascii.eqb d ":") || double_in s' | "" => false end
  | "" => false
  end.
Lemma split_double_cons c d s : split_double (String c (String d s)) =
  if Ascii.eqb c ":" && Ascii.eqb d ":" then "" :: split_double s
  else match split_double (String d s) with [] => [String c ""] | w :: ws => String c w :: ws end.
Proof. done. Qed.
Lemma double_in_cons c d s : double_in (String c (String d s)) = (Ascii.eqb c ":" && Ascii.eqb d ":") || double_in (String d s).
Proof. done. Qed.
Lemma split_double_none s : double_in s = false → split_double s = [s].
Proof.
  induction s as [|c s IH]; [done|]. destruct s as [|d s]; [done|]. rewrite double_in_cons, split_double_cons.
  intros [-> H2]%orb_false_iff. by rewrite IH.
Qed.
Lemma double_lower s : double_in (toLowerCase s) = double_in s.
Proof.
  unfold toLowerCase. induction s as [|c s IH]; [done|]. destruct s as [|d s]; [done|]. cbn [map_chars] in *.
  by rewrite !double_in_cons, IH, !lower_mark by (by left).
Qed.
Lemma prefix_double c d s : String.prefix "::" (String c (String d s)) = Ascii.eqb c ":" && Ascii.eqb d ":".
Proof.
  cbn [String.prefix]. destruct (ascii_dec ":" c) as [<-|Hc]; [destruct (ascii_dec ":" d) as [<-|Hd]|].
  - by destruct s.
  - simpl. symmetry. apply Ascii.eqb_neq. congruence.
  - symmetry. apply andb_false_iff. left. apply Ascii.eqb_neq. congruence.
Qed.
Lemma indexOf_cons p c s : indexOf p (String c s) = if startsWith p (String c s) then Some 0%nat else S <$> indexOf p s.
Proof. done. Qed.
Lemma indexOf_double s :
  match indexOf "::" s with
  | None => double_in s = false
  | Some i => ∀ r, double_in (drop_str (i + 2) s) = false → r = toLowerCase s →
      split_double r = [toLowerCase (take_str i s); toLowerCase (drop_str (i + 2) s)]
  end.
Proof.
  induction s as [|c s IH]; [done|]. destruct s as [|d s].
  { cbn [indexOf]. unfold startsWith. cbn [String.prefix]. by destruct (ascii_dec ":" c). }
  rewrite indexOf_cons. unfold startsWith. rewrite prefix_double, double_in_cons. destruct (Ascii.eqb c ":" && Ascii.eqb d ":") eqn:E.
  - intros r Hr ->. unfold toLowerCase in *. cbn [map_chars]. rewrite split_double_cons, !lower_mark, E by (by left).
    cbn [Nat.add drop_str] in Hr |- *. rewrite split_double_none by (by rewrite double_lower). done.
  - destruct (indexOf "::" (String d s)) as [i|]; cbn [fmap option_fmap option_map orb]; [|exact IH].
    intros r Hr ->. unfold toLowerCase in *. cbn [map_chars]. rewrite split_double_cons, !lower_mark, E by (by left).
    cbn [Nat.add drop_str take_str map_chars] in *. by rewrite (IH _ Hr eq_refl).
Qed.

(** *** Groups *)
Lemma part_groups_length p : length (part_groups p) = if has_char "." p then 2%nat else 1%nat.
Proof. unfold part_groups. by destruct (has_char "." p). Qed.
Lemma has_char_lower p : has_char "." (toLowerCase p) = has_char "." p.
Proof.
  unfold has_char. f_equal. unfold toLowerCase. induction p as [|c p IH]; [done|]. cbn [map_chars all_chars].
  by rewrite IH, lower_mark by (by right).
Qed.
Lemma v6_no_dot x : v6_segment x = true → has_char "." x = false.
Proof.
  unfold v6_segment, has_char. intros [_ H]%andb_prop. apply negb_false_iff. eapply all_chars_impl; [|exact H].
  intros c. by destruct c as [[] [] [] [] [] [] [] []].
Qed.
Lemma isIPv4_dot x : isIPv4 x = true → has_char "." x = true.
Proof.
  unfold isIPv4. intros H. destruct (has_char "." x) eqn:E; [done|]. by rewrite (split_on_single "." x E) in H.
Qed.
Lemma groups_length l n : group_count l = Some n → length ((toLowerCase <$> l) ≫= part_groups) = n.
Proof.
  revert n. induction l as [|x l IH]; intros n; [by intros [= <-]|]. cbn [group_count fmap list_fmap mbind list_bind].
  rewrite length_app, part_groups_length, has_char_lower. destruct l as [|y l].
  - destruct (v6_segment x) eqn:Ex; [by intros [= <-]; rewrite v6_no_dot|]. destruct (isIPv4 x) eqn:E4; [|done].
    intros [= <-]. by rewrite isIPv4_dot.
  - destruct (v6_segment x) eqn:Ex; [|done]. intros (m & Hm & ->)%fmap_Some. rewrite v6_no_dot by done. by rewrite (IH m Hm).
Qed.
Lemma parseHalf_length s n : group_count (halves_of s) = Some n → length (parseHalf (toLowerCase s)) = n.
Proof.
  unfold parseHalf, halves_of. case_bool_decide as E; [by subst; intros [= <-]|]. intros H. rewrite bool_decide_false.
  - rewrite split_lower by (by left). by apply groups_length.
  - intros E'. by destruct s.
Qed.
Lemma count_segments l : forallb v6_segment l = true → group_count l = Some (length l).
Proof.
  induction l as [|x l IH]; [done|]. intros [Hx Hl]%andb_prop. cbn [group_count]. rewrite Hx. destruct l as [|y l]; [done|].
  by rewrite IH.
Qed.

(** Groups are not empty, so there is no second double colon. *)
Lemma empty_group l m : group_count (l ++ "" :: m) = None.
Proof.
  induction l as [|x l IH]; [by destruct m|]. cbn [app group_count]. destruct (l ++ "" :: m) eqn:E; [by destruct l|].
  rewrite IH. by destruct (v6_segment x).
Qed.
Lemma double_split s : double_in s = true → ∃ w l m, split_on ":" s = w :: l ++ "" :: m.
Proof.
  induction s as [|c s IH]; [done|]. destruct s as [|d s]; [done|]. rewrite double_in_cons. intros [H|H]%orb_prop.
  - apply andb_prop in H as [Hc Hd]. exists "", [], (split_on ":" s). cbn [split_on]. by rewrite Hc, Hd.
  - destruct (IH H) as (w & l & m & E). cbn [split_on] in *. rewrite E. destruct (Ascii.eqb c ":").
    + by exists "", (w :: l), m.
    + by exists (String c w), l, m.
Qed.
Lemma groups_no_double s n : group_count (halves_of s) = Some n → double_in s = false.
Proof.
  unfold halves_of. case_bool_decide as E; [by subst|]. intros H. destruct (double_in s) eqn:Ed; [|done].
  destruct (double_split s Ed) as (w & l & m & E'). rewrite E' in H.
  change (w :: l ++ "" :: m) with ((w :: l) ++ "" :: m) in H. by rewrite empty_group in H.
Qed.

Lemma v6_bytes_length s : isIPv4 s = false → v6_address s = true → length (ipBytes s) = 16%nat.
Proof.
  intros H4 H. assert (∀ gs, length gs = 8%nat → length (gs ≫= group_bytes) = 16%nat) as Hg.
  { intros gs. do 8 (destruct gs as [|? gs]; [done|]). by destruct gs. }
  unfold ipBytes. assert (bool_decide (isIP s = 4) = false) as ->.
  { apply bool_decide_eq_false. unfold isIP. rewrite H4. by destruct (isIPv6 s). }
  unfold v6_address in H. pose proof (indexOf_double s) as Hi. destruct (indexOf "::" s) as [i|].
  - apply andb_prop in H as [Hl Hr]. destruct (group_count (halves_of (drop_str (i + 2) s))) as [n|] eqn:En; [|done].
    apply bool_decide_eq_true in Hr. rewrite (Hi _ (groups_no_double _ _ En) eq_refl). cbn [length]. cbv zeta.
    rewrite bool_decide_false by lia. rewrite bool_decide_true by done. apply Hg. simpl.
    pose proof (count_segments _ Hl) as Hl'. apply parseHalf_length in Hl'. apply parseHalf_length in En.
    rewrite !length_app, length_replicate, Hl', En. lia.
  - apply bool_decide_eq_true in H. rewrite split_double_none by (by rewrite double_lower). cbn [length]. cbv zeta.
    rewrite bool_decide_false by lia. rewrite bool_decide_false by done. apply Hg. simpl.
    assert (halves_of s = split_on ":" s) as E by (unfold halves_of; case_bool_decide; [by subst|done]).
    apply parseHalf_length. by rewrite E.
Qed.

Lemma group_bytes_ok g : Forall is_byte (group_bytes g).
Proof.
  unfold group_bytes. assert (∀ x, is_byte (Z.land x 255)) as H.
  { intros x. change 255 with (Z.ones 8). rewrite Z.land_ones by lia. apply Z.mod_pos_bound. lia. }
  by repeat constructor; apply H.
Qed.

(** An octet reads as its number: the texts of at most three digits, checked
    one by one. *)
Definition digit_chars : list ascii := ["0"; "1"; "2"; "3"; "4"; "5"; "6"; "7"; "8"; "9"]%char.
Fixpoint digit_texts (n : nat) : list string :=
  "" :: match n with O => [] | S n => digit_chars ≫= λ c, String c <$> digit_texts n end.
Lemma digit_texts_In n s : all_chars is_digit s = true → (String.length s ≤ n)%nat → In s (digit_texts n).
Proof.
  revert n. induction s as [|c s IH]; intros n Hs Hn; [by destruct n; left|]. destruct n as [|n]; simpl in Hn; [lia|].
  apply andb_prop in Hs as [Hc Hs]. right. apply list_elem_of_In, list_elem_of_bind. exists c. split.
  - apply list_elem_of_fmap. exists s. split; [done|]. apply list_elem_of_In, IH; [done|lia].
  - revert Hc. clear. destruct c as [[] [] [] [] [] [] [] []]; vm_compute; intros Hc; try discriminate; set_solver.
Qed.
Lemma octets : forallb (λ x, implb (v4_segment x) (bool_decide (0 ≤ number_Z (to_number x)) && bool_decide (number_Z (to_number x) < 256)))
  (digit_texts 3) = true.
Proof. by vm_compute. Qed.
Lemma v4_segment_value x : v4_segment x = true → is_byte (number_Z (to_number x)).
Proof.
  intros Hx. pose proof octets as H. rewrite forallb_forall in H. specialize (H x). rewrite Hx in H. cbn [implb] in H.
  unfold v4_segment in Hx. apply andb_prop in Hx as [[[Hl%bool_decide_eq_true Hd]%andb_prop _]%andb_prop _].
  unfold len in Hl. apply andb_prop in H as [H0 H1]; [|apply digit_texts_In; [done|lia]].
  apply bool_decide_eq_true in H0, H1. done.
Qed.

(** The bytes of an address without a zone. *)
Lemma ipBytes_ok s : isIP s ≠ 0 → has_char "%" s = false →
  Forall is_byte (ipBytes s) ∧ length (ipBytes s) = (if bool_decide (isIP s = 4%Z) then 4 else 16)%nat.
Proof.
  intros Hip Hz. unfold isIP in Hip |- *. destruct (isIPv4 s) eqn:E4.
  - rewrite (bool_decide_true (4 = 4)) by done. unfold ipBytes, isIP. rewrite E4, bool_decide_true by done. unfold isIPv4 in E4.
    destruct (split_on "." s) as [|a [|b [|c [|d [|]]]]]; try done. split; [|done].
    apply andb_prop in E4 as [[[Ha Hb]%andb_prop Hc]%andb_prop Hd]. cbn [fmap list_fmap].
    by repeat constructor; apply v4_segment_value.
  - destruct (isIPv6 s) eqn:E6; [|done]. rewrite bool_decide_false by done. split.
    + unfold ipBytes, isIP. rewrite E4, E6, bool_decide_false by done. cbv zeta. case_bool_decide; [constructor|].
      apply Forall_bind, Forall_forall. intros g _. apply group_bytes_ok.
    + apply v6_bytes_length; [done|]. unfold isIPv6 in E6. by rewrite (indexOf_char_none "%" s Hz) in E6.
Qed.

Lemma split_on_none c d s : no_char d s → Forall (no_char d) (split_on c s).
Proof.
  induction s as [|x s IH]; [by repeat constructor|]. intros [Hx Hs]%no_char_String. specialize (IH Hs). simpl.
  destruct (Ascii.eqb x c); [by constructor|]. destruct (split_on c s) as [|w ws]; [by repeat constructor; apply no_char_String|].
  apply Forall_cons in IH as [Hw Hws]. constructor; [by apply no_char_String|done].
Qed.

Theorem parseCidr_ok value field c : has_char "%" value = false → parseCidr value field = inr c →
  cidr_ok c ∧ (ci_family c = 4 ∧ length (ci_bytes c) = 4%nat ∨ ci_family c = 6 ∧ length (ci_bytes c) = 16%nat).
Proof.
  unfold parseCidr. intros Hz. assert (Forall (λ x, has_char "%" x = false) (split_on "/" value)) as Hs.
  { by apply split_on_none. }
  destruct (split_on "/" value) as [|address [|rawPrefix [|]]]; try done. apply Forall_cons in Hs as [Ha _]. cbv zeta.
  case_bool_decide as E0; [done|]. destruct (isInteger (to_number rawPrefix)) eqn:Ei; [|done]. cbn [negb orb].
  set (bits := if bool_decide (isIP address = 4) then 32 else _).
  destruct (num_lt (to_number rawPrefix) (lit 0)) eqn:E1; [done|]. destruct (num_lt (lit bits) (to_number rawPrefix)) eqn:E2; [done|].
  intros [= <-]. cbn [ci_family ci_prefix ci_bytes]. destruct (ipBytes_ok address E0 Ha) as [Hb Hl].
  assert (isIP address = 4 ∨ isIP address = 6) as Hf.
  { unfold isIP in *. destruct (isIPv4 address); [by left|]. destruct (isIPv6 address); [by right|done]. }
  assert (0 ≤ number_Z (to_number rawPrefix) ≤ bits) as Hp by (by apply number_Z_bounds).
  split.
  - split; cbn [ci_prefix ci_bytes]; [done|]. rewrite Hl. unfold bits in Hp. destruct Hf as [Hf|Hf]; rewrite Hf in *; simpl in *; lia.
  - rewrite Hl. destruct Hf as [Hf|Hf]; rewrite Hf; [left|right]; done.
Qed.
