(* ===== verification/DockerChecks.v ===== *)
(** * Checks of a Docker create request

    The validators of apps/api/src/lib/docker-create.ts: a value of the request
    or a [DockerCreateValidationError].  [None] is undefined. *)
From Stdlib Require Import Ascii QArith.
From S2P Require Import Prelude Json JsString JsonText JsNumber IpAddress.
Open Scope Z_scope.

Definition refuse {A} (message : string) : exn + A := inl (DockerCreateValidationError message 400).
Definition refuse_unless (b : bool) (message : string) : exn + unit := if b then inr tt else refuse message.

Lemma refuse_unless_inv b message u : refuse_unless b message = inr u → b = true.
Proof. by destruct b. Qed.

Definition MAX_STRING : Z := 4096.
Definition MAX_ITEMS : Z := 128.
Definition MAX_SAFE_INTEGER : Z := 9007199254740991.

(** ** Patterns *)
Definition name_char (c : ascii) : bool := is_alnum c || bool_decide (c ∈ ["_"; "."; "-"]%char).
Definition NAME_PATTERN (s : string) : bool :=
  match s with String c r => is_alnum c && bool_decide (len r ≤ 127) && all_chars name_char r | "" => false end.
Definition LABEL_KEY_PATTERN (s : string) : bool :=
  match s with
  | String c r => is_alnum c && bool_decide (len r ≤ 127) && all_chars (λ c, name_char c || bool_decide (c = "/"%char)) r
  | "" => false
  end.
Definition HOSTNAME_PATTERN (s : string) : bool :=
  match s with
  | String c "" => is_alnum c
  | String c r => is_alnum c && bool_decide (len r ≤ 252) && all_chars (λ c, is_alnum c || bool_decide (c ∈ ["."; "-"]%char)) r &&
                  from_option is_alnum false (last_char r)
  | "" => false
  end.
Definition ENVIRONMENT_KEY_PATTERN (s : string) : bool :=
  match s with
  | String c r => (is_lower c || is_upper c || bool_decide (c = "_"%char)) && all_chars (λ c, is_alnum c || bool_decide (c = "_"%char)) r
  | "" => false
  end.
Definition platform_part (s : string) : bool :=
  match s with
  | String c r => (is_lower c || is_digit c) && all_chars (λ c, is_lower c || is_digit c || bool_decide (c ∈ ["_"; "."; "-"]%char)) r
  | "" => false
  end.
Definition PLATFORM_PATTERN (s : string) : bool :=
  let parts := split_on "/" s in bool_decide (2 ≤ length parts ≤ 3)%nat && forallb platform_part parts.
Definition is_number (s : string) : bool := negb (bool_decide (s = "")) && all_chars is_digit s.
Definition cpuset_pattern (s : string) : bool :=
  forallb (λ r, let ends := split_on "-" r in bool_decide (length ends ≤ 2)%nat && forallb is_number ends) (split_on "," s).
(** [SIG] is made of capitals itself. *)
Definition stop_signal_pattern (s : string) : bool := negb (bool_decide (s = "")) && all_chars (λ c, is_upper c || is_digit c) s.
Definition mac_pattern (s : string) : bool :=
  let pairs := split_on ":" s in bool_decide (length pairs = 6%nat) && forallb (hex_group 2) pairs.

(** ** Values *)
Definition record (value : option json) (field : string) : exn + list (string * json) :=
  match value with Some (JObj ps) => inr ps | _ => refuse (field +:+ " must be an object") end.
Definition allowed (source : list (string * json)) (accepted : list string) : exn + unit :=
  match List.find (λ k, negb (bool_decide (k ∈ accepted))) (keys source) with
  | Some unknown => if bool_decide (unknown = "") then inr tt else refuse ("Unsupported Docker create field: " +:+ unknown)
  | None => inr tt
  end.
Definition array (value : option json) (field : string) : exn + list json :=
  match value with
  | None => inr []
  | Some (JArr l) => if bool_decide (Z.of_nat (length l) ≤ MAX_ITEMS) then inr l
                     else refuse (field +:+ " must be an array with at most 128 entries")
  | _ => refuse (field +:+ " must be an array with at most 128 entries")
  end.
Definition requiredString (value : option json) (field : string) (maximum : Z) : exn + string :=
  let error := refuse (field +:+ " is required and must be at most " +:+ digits maximum +:+ " characters") in
  match value with
  | Some (JStr s) =>
      if bool_decide (trim s = "") || bool_decide (maximum < len s) || has_char "000" s then error else inr (trim s)
  | _ => error
  end.
Definition optionalString (value : option json) (field : string) (maximum : Z) : exn + option string :=
  match value with
  | None | Some JNull | Some (JStr "") => inr None
  | _ => Some <$> requiredString value field maximum
  end.
Definition resourceName (value : option json) (field : string) : exn + string :=
  name ← requiredString value field 128;
  if NAME_PATTERN name then inr name else refuse (field +:+ " is invalid").
Definition boolean (value : option json) (field : string) (fallback : bool) : exn + bool :=
  match value with
  | None => inr fallback
  | Some (JBool b) => inr b
  | _ => refuse (field +:+ " must be a boolean")
  end.
Definition integer (value : option json) (field : string) (minimum maximum : Z) : exn + number :=
  let error := refuse (field +:+ " must be an integer between " +:+ number_text (lit minimum) +:+ " and " +:+ number_text (lit maximum)) in
  match value with
  | Some (JNum n) => if negb (isSafeInteger n) || num_lt n (lit minimum) || num_lt (lit maximum) n then error else inr n
  | _ => error
  end.
Definition optionalInteger (value : option json) (field : string) (minimum maximum : Z) : exn + option number :=
  match value with None => inr None | _ => Some <$> integer value field minimum maximum end.
Definition optionalNumber (value : option json) (field : string) (minimum maximum : number) : exn + option number :=
  let error := refuse (field +:+ " must be between " +:+ number_text minimum +:+ " and " +:+ number_text maximum) in
  match value with
  | None => inr None
  | Some (JNum n) => if negb (isFinite n) || num_lt n minimum || num_lt maximum n then error else inr (Some n)
  | _ => error
  end.
Definition enumValue (value : option json) (field : string) (values : list string) (fallback : option string) : exn + string :=
  match value, fallback with
  | None, Some fallback => inr fallback
  | Some (JStr s), _ => if bool_decide (s ∈ values) then inr s else refuse (field +:+ " is invalid")
  | _, _ => refuse (field +:+ " is invalid")
  end.
Definition stringArray (value : option json) (field : string) : exn + list string :=
  items ← array value field;
  values ← check_all (λ item, requiredString (Some item) field MAX_STRING) items;
  if bool_decide (NoDup values) then inr values else refuse (field +:+ " entries must be unique").
Definition ipArray (value : option json) (field : string) : exn + list string :=
  values ← stringArray value field;
  check_all (λ item, if bool_decide (isIP item = 0) then refuse (field +:+ " must contain valid IP addresses") else inr item) values.
Definition optionalIp (value : option json) (field : string) (family : option Z) : exn + option string :=
  result ← optionalString value field 64;
  match result with
  | Some ip =>
      if bool_decide (isIP ip = 0) || from_option (λ f, negb (bool_decide (isIP ip = f))) false family
      then refuse (field +:+ " must be a valid" +:+
                   match family with Some f => " IPv" +:+ digits f | None => " IP" end +:+ " address")
      else inr result
  | None => inr None
  end.
Definition map_entry (field : string) (labels : bool) (e : string * json) : exn + string * string :=
  let '(key, raw) := e in
  if bool_decide (key = "") || bool_decide (128 < len key) || has_char "000" key || (labels && negb (LABEL_KEY_PATTERN key))
  then refuse (field +:+ " contains an invalid key")
  else if labels && startsWith "io.zos." (toLowerCase key) then refuse "Labels in the io.zos.* namespace are reserved"
  else match raw with
       | JStr s => if bool_decide (MAX_STRING < len s) || has_char "000" s
                   then refuse (field +:+ " values must be strings of at most 4096 characters") else inr (key, s)
       | _ => refuse (field +:+ " values must be strings of at most 4096 characters")
       end.
(** [result["__proto__"] = raw] adds no entry. *)
Definition stringMap (value : option json) (field : string) (labels : bool) : exn + list (string * string) :=
  match value with
  | None => inr []
  | _ =>
      source ← record value field;
      if bool_decide (MAX_ITEMS < Z.of_nat (length source)) then refuse (field +:+ " may contain at most 128 entries")
      else List.filter (λ e, negb (bool_decide (e.1 = "__proto__"))) <$> check_all (map_entry field labels) source
  end.
Definition absoluteContainerPath (value field : string) : exn + string :=
  if negb (isAbsolute value) || negb (bool_decide (normalize value = value)) || has_char "000" value
  then refuse (field +:+ " must be a normalized absolute container path") else inr value.

(** ** The engine *)
Record DockerSummary := Summary {
  ds_negotiatedApiVersion : option string;
  ds_resourceCapabilities : option (gmap string bool);
  ds_containers : list string;
  ds_volumes : list string;
  ds_networks : list string
}.
(** [compareVersions(left, right) < 0]. *)
Definition version_part (s : string) (i : nat) : number := from_option to_number (lit 0) (split_on "." s !! i).
Definition version_below (left right : string) : bool :=
  if num_eq (version_part left 0) (version_part right 0) then num_lt (version_part left 1) (version_part right 1)
  else num_lt (version_part left 0) (version_part right 0).
Definition requireApiVersion (summary : DockerSummary) (minimum feature : string) : exn + unit :=
  let error := refuse (feature +:+ " requires Docker API " +:+ minimum +:+ " or newer") in
  match ds_negotiatedApiVersion summary with
  | Some current => if bool_decide (current = "") || version_below current minimum then error else inr tt
  | None => error
  end.
Definition require_if (b : bool) (summary : DockerSummary) (minimum feature : string) : exn + unit :=
  if b then requireApiVersion summary minimum feature else inr tt.

(** packages/shared/src/docker-resources.ts *)
Definition DOCKER_RESOURCE_FIELDS : list (string * string) :=
  [("cpuLimit", "cpuQuota"); ("cpuShares", "cpuShares"); ("cpusetCpus", "cpuset"); ("memoryLimitBytes", "memoryLimit");
   ("memoryReservationBytes", "memoryLimit"); ("memorySwapBytes", "swapLimit"); ("pidsLimit", "pidsLimit")].
Definition getDockerResourceCapability (capability : string) (capabilities : option (gmap string bool)) : option bool :=
  let value := capabilities ≫= (.!! capability) in
  if bool_decide (capability = "swapLimit") then
    let memory := capabilities ≫= (.!! "memoryLimit") in
    if bool_decide (value = Some false) || bool_decide (memory = Some false) then Some false
    else if bool_decide (value = Some true) && bool_decide (memory = Some true) then Some true else None
  else value.
Definition configured (v : option json) : bool :=
  match v with Some (JStr s) => negb (bool_decide (trim s = "")) | Some _ => true | None => false end.
Definition getUnsupportedDockerResource (input : list (string * option json)) (capabilities : option (gmap string bool)) :
    option (string * string) :=
  List.find (λ f, existsb (λ p, bool_decide (p.1 = f.1) && configured p.2) input &&
                  negb (bool_decide (getDockerResourceCapability f.2 capabilities = Some true)))
    DOCKER_RESOURCE_FIELDS.
