(* ===== verification/DockerImages.v ===== *)
(** * Docker image references

    packages/shared/src/docker-images.ts.  [url_hostname h] stands for
    [new URL("http://" + h).hostname] of the WHATWG URL parser; [None] when the
    constructor throws. *)
From Stdlib Require Import Ascii.
From S2P Require Import Prelude JsString JsonText.
Open Scope Z_scope.

Definition DOCKER_HUB_ALIASES : list string := ["docker.io"; "index.docker.io"; "registry-1.docker.io"].
Definition low_alnum (c : ascii) : bool := is_lower c || is_digit c.

(** What [REPOSITORY_COMPONENT] has read: nothing, a word, one underscore, a
    dash, or a separator that takes no more. *)
Inductive component_state := cs_start | cs_word | cs_underscore | cs_dash | cs_separator.
Definition component_step (st : component_state) (c : ascii) : option component_state :=
  if low_alnum c then Some cs_word else
  match st with
  | cs_word =>
      if Ascii.eqb c "." then Some cs_separator else if Ascii.eqb c "_" then Some cs_underscore
      else if Ascii.eqb c "-" then Some cs_dash else None
  | cs_underscore => if Ascii.eqb c "_" then Some cs_separator else None
  | cs_dash => if Ascii.eqb c "-" then Some cs_dash else None
  | cs_start | cs_separator => None
  end.
Fixpoint component_run (st : component_state) (s : string) : bool :=
  match s with
  | "" => match st with cs_word => true | _ => false end
  | String c s => match component_step st c with Some st => component_run st s | None => false end
  end.
Definition REPOSITORY_COMPONENT : string → bool := component_run cs_start.

Definition tag_char (c : ascii) : bool := is_alnum c || Ascii.eqb c "_".
Definition IMAGE_TAG (s : string) : bool :=
  match s with
  | String c r => tag_char c && bool_decide (len r ≤ 127) && all_chars (λ c, tag_char c || bool_decide (c ∈ ["."; "-"]%char)) r
  | "" => false
  end.
Definition DIGEST_LENGTHS (algorithm : string) : option Z :=
  if bool_decide (algorithm = "sha256") then Some 64 else if bool_decide (algorithm = "sha384") then Some 96
  else if bool_decide (algorithm = "sha512") then Some 128 else None.
(** [^([a-z0-9]+):([a-fA-F0-9]+)$] and the length of its second group. *)
Definition digest_ok (s : string) : bool :=
  match split_on ":" s with
  | [algorithm; hex] =>
      negb (bool_decide (algorithm = "")) && all_chars low_alnum algorithm &&
      negb (bool_decide (hex = "")) && all_chars hex_digit hex && bool_decide (DIGEST_LENGTHS algorithm = Some (len hex))
  | _ => false
  end.

(** [s.lastIndexOf(c)], -1 when there is none. *)
Fixpoint lastIndexOf_from (c : ascii) (i last : Z) (s : string) : Z :=
  match s with "" => last | String x s => lastIndexOf_from c (i + 1) (if Ascii.eqb x c then i else last) s end.
Definition lastIndexOf (c : ascii) (s : string) : Z := lastIndexOf_from c 0 (-1) s.
Definition slice (first last : Z) (s : string) : string := take_str (Z.to_nat (last - first)) (drop_str (Z.to_nat first) s).

(** A host name in front of [:] or the end, and the port. *)
Definition port_text (s : string) : option (option string) :=
  match s with
  | "" => Some None
  | String ":" p => if bool_decide (1 ≤ len p ≤ 5) && all_chars is_digit p then Some (Some p) else None
  | _ => None
  end.
Definition server_match (candidate : string) : option (string * option string) :=
  let cut n := port ← port_text (drop_str n candidate); Some (take_str n candidate, port) in
  match candidate with
  | String "[" r =>
      i ← indexOf "]" r;
      if bool_decide (i = 0%nat) || negb (all_chars (λ c, is_digit c || between 97 102 c || bool_decide (c ∈ [":"; "."]%char)) (take_str i r))
      then None else cut (i + 2)%nat
  | String c _ =>
      let n := indexOf ":" candidate ⁇ String.length candidate in
      if low_alnum c && all_chars (λ c, low_alnum c || bool_decide (c ∈ ["."; "-"]%char)) (take_str n candidate) then cut n else None
  | "" => None
  end.
Definition host_label (s : string) : bool :=
  bool_decide (1 ≤ len s ≤ 63) && all_chars (λ c, low_alnum c || Ascii.eqb c "-") s &&
  first_in low_alnum s && from_option low_alnum false (last_char s).

Section References.
Context (url_hostname : string → option string).

Definition normalizeDockerRegistryServerAddress (value : string) : option string :=
  let candidate := toLowerCase (trim value) in
  '(hostname, port) ← server_match candidate;
  if bool_decide (255 < len candidate) then None else
  let number p := (read_digits 0 0 p).1.1 in
  if from_option (λ p, bool_decide (number p < 1) || bool_decide (65535 < number p)) false port then None else
  if negb (startsWith "[" hostname) && negb (forallb host_label (split_on "." hostname)) then None else
  normalizedHost ← url_hostname hostname;
  let normalized := normalizedHost +:+ match port with Some p => ":" +:+ digits (number p) | None => "" end in
  Some (if bool_decide (normalized ∈ DOCKER_HUB_ALIASES) then "docker.io" else normalized).

Record image_reference := ImageReference { im_reference : string; im_serverAddress : string }.
(** The repository without its tag; [None] when the tag is bad. *)
Definition strip_tag (repository : string) : option string :=
  let lastColon := lastIndexOf ":" repository in
  if bool_decide (lastIndexOf "/" repository < lastColon) then
    if IMAGE_TAG (slice (lastColon + 1) (len repository) repository) then Some (slice 0 lastColon repository) else None
  else Some repository.
Definition registry_component (s : string) : bool :=
  bool_decide (toLowerCase s = "localhost") || has_char "." s || has_char ":" s || startsWith "[" s.
(** The registry, and the path below it. *)
Definition split_registry (repository : string) : option (string * string) :=
  match indexOf "/" repository with
  | Some (S _ as firstSlash) =>
      let firstComponent := take_str firstSlash repository in
      if registry_component firstComponent then
        normalized ← normalizeDockerRegistryServerAddress firstComponent;
        if bool_decide (normalized = "") then None else Some (normalized, drop_str (firstSlash + 1) repository)
      else Some ("docker.io", repository)
  | _ => Some ("docker.io", repository)
  end.
Definition parseDockerImageReference (value : string) : option image_reference :=
  let reference := trim value in
  if bool_decide (reference = "") || bool_decide (512 < len reference) then None else
  let parts := split_on "@" reference in
  if bool_decide (2 < length parts)%nat then None else
  if from_option (λ digest, negb (digest_ok digest)) false (parts !! 1%nat) then None else
  repository ← strip_tag (parts !! 0%nat ⁇ "");
  if bool_decide (repository = "") || bool_decide (255 < len repository) then None else
  '(serverAddress, repositoryPath) ← split_registry repository;
  if negb (forallb REPOSITORY_COMPONENT (split_on "/" repositoryPath)) then None else
  Some (ImageReference reference serverAddress).
End References.

Example references :
  let parse v := im_serverAddress <$> parseDockerImageReference Some v in
  parse "nginx" = Some "docker.io" ∧ parse "library/nginx:1.27" = Some "docker.io" ∧
  parse "index.docker.io/library/nginx" = Some "docker.io" ∧ parse "ghcr.io/a/b:latest" = Some "ghcr.io" ∧
  parse "localhost:05000/a" = Some "localhost:5000" ∧ parse "[::1]:5000/a" = Some "[::1]:5000" ∧
  parse "my__app/x--y.z" = Some "docker.io" ∧ parse "my___app" = None ∧ parse "Nginx" = None ∧ parse "a//b" = None ∧
  parse "/a" = None ∧ parse "a:" = None ∧ parse "a@sha256:00" = None ∧ parse "bad_.io/a" = None ∧ parse "a:b:c" = None.
Proof. by vm_compute. Qed.

(** ** The grammar of a repository component

    Words of small letters and digits, separated by a dot, one or two
    underscores, or dashes: what the regular expression says. *)
Definition word (w : string) : Prop := w ≠ "" ∧ all_chars low_alnum w = true.
Definition dashes : string → bool := all_chars (λ c, Ascii.eqb c "-").
Definition separator (p : string) : Prop := p ∈ ["."; "_"; "__"] ∨ (p ≠ "" ∧ dashes p = true).
Inductive component : string → Prop :=
  | component_word w : word w → component w
  | component_more w p r : word w → separator p → component r → component (w +:+ p +:+ r).

Lemma run_word st w s : word w → component_run st (w +:+ s) = component_run cs_word s.
Proof.
  revert st. induction w as [|c w IH]; intros st [Hne Hw]; [done|]. apply andb_prop in Hw as [Hc Hw].
  change (String c w +:+ s) with (String c (w +:+ s)). cbn [component_run]. unfold component_step at 1. rewrite Hc.
  destruct w as [|d w]; [done|]. by apply IH.
Qed.
Lemma run_dashes w s : dashes w = true → component_run cs_dash (w +:+ s) = component_run cs_dash s.
Proof.
  induction w as [|c w IH]; [done|]. intros [Hc%Ascii.eqb_eq Hw]%andb_prop. subst.
  change (String "-" w +:+ s) with (String "-" (w +:+ s)). by apply IH.
Qed.
Lemma component_head r : component r → ∃ w s, word w ∧ r = w +:+ s.
Proof. intros [w Hw|w p s Hw Hp Hs]; [exists w, ""|exists w, (p +:+ s)]; split; [done| |done|done]. by rewrite string_app_nil_r. Qed.
Lemma run_separator p r : separator p → component r → component_run cs_word (p +:+ r) = component_run cs_start r.
Proof.
  intros Hp Hr. destruct (component_head r Hr) as (w & s & Hw & ->). rewrite (run_word cs_start) by done.
  destruct Hp as [Hp|[Hne Hp]].
  - assert (p = "." ∨ p = "_" ∨ p = "__") as [->|[->| ->]] by set_solver;
      [change (component_run cs_separator (w +:+ s) = component_run cs_word s)
      |change (component_run cs_underscore (w +:+ s) = component_run cs_word s)
      |change (component_run cs_separator (w +:+ s) = component_run cs_word s)]; by apply run_word.
  - destruct p as [|c p]; [done|]. apply andb_prop in Hp as [Hc%Ascii.eqb_eq Hp]. subst.
    change (component_run cs_dash (p +:+ w +:+ s) = component_run cs_word s). rewrite run_dashes by done. by apply run_word.
Qed.

Lemma word_snoc w c : word w → low_alnum c = true → word (w +:+ String c "").
Proof.
  intros [Hne Hw] Hc. split; [by destruct w|]. rewrite all_chars_app, Hw. cbn [all_chars andb]. by rewrite Hc.
Qed.
Lemma word_char c : low_alnum c = true → word (String c "").
Proof. intros Hc. split; [done|]. cbn [all_chars]. by rewrite Hc. Qed.

(** What is left to read in each state. *)
Definition reads_as (st : component_state) (s : string) : Prop :=
  match st with
  | cs_start | cs_separator => component s
  | cs_word => ∀ w, word w → component (w +:+ s)
  | cs_underscore => component s ∨ ∃ s', s = String "_" s' ∧ component s'
  | cs_dash => ∃ d s', dashes d = true ∧ s = d +:+ s' ∧ component s'
  end.
Lemma run_reads s : ∀ st, component_run st s = true → reads_as st s.
Proof.
  induction s as [|c s IH]; intros st H.
  - destruct st; try done. intros w Hw. rewrite string_app_nil_r. by constructor.
  - cbn [component_run] in H. unfold component_step in H. destruct (low_alnum c) eqn:Hc.
    + specialize (IH _ H). cbn [reads_as] in IH. assert (component (String c s)) as Hcs by (by apply (IH (String c "")), word_char).
      destruct st; cbn [reads_as]; [done| |by left|by exists "", (String c s)|done]. intros w Hw.
      change (String c s) with (String c "" +:+ s). rewrite <-string_app_assoc. by apply IH, word_snoc.
    + destruct st; try done.
      * destruct (Ascii.eqb c ".") eqn:E1; [apply Ascii.eqb_eq in E1 as ->|destruct (Ascii.eqb c "_") eqn:E2;
          [apply Ascii.eqb_eq in E2 as ->|destruct (Ascii.eqb c "-") eqn:E3; [apply Ascii.eqb_eq in E3 as ->|done]]];
          specialize (IH _ H); cbn [reads_as] in IH; intros w Hw.
        -- apply (component_more w "." s); [done|left; set_solver|done].
        -- destruct IH as [IH|(s' & -> & IH)]; [apply (component_more w "_" s)|apply (component_more w "__" s')];
             try done; left; set_solver.
        -- destruct IH as (d & s' & Hd & -> & IH). apply (component_more w (String "-" d) s'); [done| |done]. right. by split.
      * destruct (Ascii.eqb c "_") eqn:E; [apply Ascii.eqb_eq in E as ->|done]. right. exists s. split; [done|]. by apply (IH _ H).
      * destruct (Ascii.eqb c "-") eqn:E; [apply Ascii.eqb_eq in E as ->|done]. destruct (IH _ H) as (d & s' & Hd & -> & Hs).
        by exists (String "-" d), s'.
Qed.

Theorem repository_component_spec s : REPOSITORY_COMPONENT s = true ↔ component s.
Proof.
  split; [apply run_reads|]. unfold REPOSITORY_COMPONENT. induction 1 as [w Hw|w p r Hw Hp Hr IH].
  - rewrite <-(string_app_nil_r w). by rewrite run_word.
  - by rewrite run_word, run_separator.
Qed.
