(* ===== verification/DockerNetworks.v ===== *)
(** * The networks of a Docker create request

    [ipamConfigs], [portBindings], [extraHostEntries] and [containerNetwork] of
    apps/api/src/lib/docker-create.ts.  Address blocks that are accepted
    together share no address, and ranges, gateways and auxiliary addresses lie
    inside their block. *)
From Stdlib Require Import Ascii QArith.
From S2P Require Import Prelude Json JsString JsonText JsNumber IpAddress DockerChecks.
Open Scope Z_scope.

Definition at_index (what : string) (i : nat) : string := what +:+ digits (Z.of_nat i + 1).

(** ** Address blocks *)
Record ipam_config := IpamConfig {
  ip_subnet : option string;
  ip_range : option string;
  ip_gateway : option string;
  ip_auxAddresses : list (string * string)
}.
(** The texts and blocks of the entries before. *)
Record ipam_seen := IpamSeen { is_subnets : list string; is_parsedSubnets : list cidr; is_parsedRanges : list cidr }.
Definition parse_optional (value : option string) (field : string) : exn + option cidr :=
  match value with Some s => Some <$> parseCidr s field | None => inr None end.
Definition address_inside (parsedSubnet : option cidr) (address : string) : bool :=
  match parsedSubnet with
  | Some c => bool_decide (isIP address = ci_family c) && cidrContains c (ipBytes address)
  | None => false
  end.
Definition range_inside (parsedSubnet : option cidr) (range : cidr) : bool :=
  match parsedSubnet with
  | Some c => bool_decide (ci_family range = ci_family c) && negb (bool_decide (ci_prefix range < ci_prefix c)) &&
              cidrContains c (ci_bytes range)
  | None => false
  end.
Definition family_disabled (enableIpv4 enableIpv6 : bool) (c : cidr) : bool :=
  (bool_decide (ci_family c = 4) && negb enableIpv4) || (bool_decide (ci_family c = 6) && negb enableIpv6).

Definition ipam_entry (enableIpv4 enableIpv6 : bool) (seen : ipam_seen) (index : nat) (raw : json) : exn + (ipam_config * ipam_seen) :=
  source ← record (Some raw) (at_index "IPAM configuration " index);
  _ ← allowed source ["subnet"; "ipRange"; "gateway"; "auxAddresses"];
  subnet ← optionalString (prop source "subnet") "IPAM subnet" 128;
  parsedSubnet ← parse_optional subnet "IPAM subnet";
  _ ← refuse_unless (negb (from_option (λ s, bool_decide (s ∈ is_subnets seen)) false subnet)) "IPAM subnets must be unique";
  _ ← refuse_unless (negb (from_option (λ c, existsb (λ e, cidrOverlaps e c) (is_parsedSubnets seen)) false parsedSubnet))
        "IPAM subnets must not overlap";
  _ ← refuse_unless (negb (from_option (family_disabled enableIpv4 enableIpv6) false parsedSubnet))
        "IPAM subnet uses a disabled address family";
  ipRange ← optionalString (prop source "ipRange") "IPAM range" 128;
  parsedRange ← parse_optional ipRange "IPAM range";
  _ ← refuse_unless (from_option (range_inside parsedSubnet) true parsedRange) "IPAM range must stay inside its subnet";
  _ ← refuse_unless (negb (from_option (λ c, existsb (λ e, cidrOverlaps e c) (is_parsedRanges seen)) false parsedRange))
        "IPAM ranges must not overlap";
  gateway ← optionalIp (prop source "gateway") "IPAM gateway" None;
  _ ← refuse_unless (from_option (address_inside parsedSubnet) true gateway) "IPAM gateway must stay inside its subnet";
  auxAddresses ← stringMap (prop source "auxAddresses") "IPAM auxiliary addresses" false;
  _ ← refuse_unless (forallb (λ e, address_inside parsedSubnet e.2) auxAddresses)
        "IPAM auxiliary addresses must stay inside their subnet";
  inr (IpamConfig subnet ipRange gateway auxAddresses,
       IpamSeen (is_subnets seen ++ option_list subnet) (is_parsedSubnets seen ++ option_list parsedSubnet)
                (is_parsedRanges seen ++ option_list parsedRange)).
Fixpoint ipam_entries (enableIpv4 enableIpv6 : bool) (seen : ipam_seen) (index : nat) (items : list json) : exn + list ipam_config :=
  match items with
  | [] => inr []
  | raw :: items =>
      '(config, seen) ← ipam_entry enableIpv4 enableIpv6 seen index raw;
      configs ← ipam_entries enableIpv4 enableIpv6 seen (S index) items;
      inr (config :: configs)
  end.
Definition ipamConfigs (value : option json) (enableIpv4 enableIpv6 : bool) : exn + list ipam_config :=
  items ← array value "IPAM configurations";
  ipam_entries enableIpv4 enableIpv6 (IpamSeen [] [] []) 0 items.

(** ** Ports *)
Record port_binding := PortBinding {
  pb_containerPort : number;
  pb_protocol : string;
  pb_hostIp : option string;
  pb_hostPort : option number
}.
Definition port_key (p : port_binding) : string :=
  number_text (pb_containerPort p) +:+ "/" +:+ pb_protocol p +:+ "/" +:+ (pb_hostIp p ⁇ "") +:+ "/" +:+
  from_option number_text "" (pb_hostPort p).
Definition port_entry (seen : list string) (index : nat) (raw : json) : exn + port_binding :=
  source ← record (Some raw) (at_index "Port " index);
  _ ← allowed source ["containerPort"; "protocol"; "hostIp"; "hostPort"];
  containerPort ← integer (prop source "containerPort") "Container port" 1 65535;
  protocol ← enumValue (prop source "protocol") "Port protocol" ["tcp"; "udp"; "sctp"] (Some "tcp");
  hostIp ← optionalIp (prop source "hostIp") "Host IP" None;
  hostPort ← optionalInteger (prop source "hostPort") "Host port" 1 65535;
  _ ← refuse_unless (negb (isSome hostIp && negb (isSome hostPort))) "Host IP requires a host port";
  let p := PortBinding containerPort protocol hostIp hostPort in
  _ ← refuse_unless (negb (bool_decide (port_key p ∈ seen))) "Port bindings must be unique";
  inr p.
Fixpoint port_entries (seen : list string) (index : nat) (items : list json) : exn + list port_binding :=
  match items with
  | [] => inr []
  | raw :: items =>
      p ← port_entry seen index raw;
      ps ← port_entries (seen ++ [port_key p]) (S index) items;
      inr (p :: ps)
  end.
Definition portBindings (value : option json) : exn + list port_binding :=
  items ← array value "Ports"; port_entries [] 0 items.

(** ** Extra hosts *)
Definition host_entry (names : list string) (index : nat) (raw : json) : exn + string * string :=
  source ← record (Some raw) (at_index "Extra host " index);
  _ ← allowed source ["hostname"; "address"];
  hostname ← requiredString (prop source "hostname") "Extra host name" 253;
  _ ← refuse_unless (HOSTNAME_PATTERN hostname && negb (bool_decide (hostname ∈ names))) "Extra host names must be valid and unique";
  address ← requiredString (prop source "address") "Extra host address" 64;
  _ ← refuse_unless (bool_decide (address = "host-gateway") || negb (bool_decide (isIP address = 0)))
        "Extra host address must be an IP address or host-gateway";
  inr (hostname, address).
Fixpoint host_entries (names : list string) (index : nat) (items : list json) : exn + list (string * string) :=
  match items with
  | [] => inr []
  | raw :: items =>
      h ← host_entry names index raw;
      hs ← host_entries (names ++ [h.1]) (S index) items;
      inr (h :: hs)
  end.
(** The pairs of the input; the engine gets [host:address]. *)
Definition extraHostEntries (value : option json) : exn + list (string * string) :=
  items ← array value "Extra hosts"; host_entries [] 0 items.

(** ** The network of a container *)
Record container_network := ContainerNetwork {
  cn_mode : string;
  cn_networkName : option string;
  cn_aliases : list string;
  cn_ipv4Address : option string;
  cn_ipv6Address : option string;
  cn_macAddress : option string
}.
Definition check_each (ok : string → bool) (message : string) (values : list string) : exn + list string :=
  check_all (λ v, if ok v then inr v else refuse message) values.
Definition containerNetwork (value : option json) (summary : DockerSummary) : exn + container_network :=
  match value with
  | None => inr (ContainerNetwork "bridge" None [] None None None)
  | _ =>
      source ← record value "Container network";
      _ ← allowed source ["mode"; "networkName"; "aliases"; "ipv4Address"; "ipv6Address"; "macAddress"];
      mode ← enumValue (prop source "mode") "Container network mode" ["bridge"; "host"; "none"; "custom"] (Some "bridge");
      networkName ← optionalString (prop source "networkName") "Network name" 128;
      _ ← (if bool_decide (mode = "custom")
           then refuse_unless (from_option (λ n, bool_decide (n ∈ ds_networks summary)) false networkName)
                  "Selected Docker network does not exist"
           else refuse_unless (negb (isSome networkName)) "Network name is only valid for a custom network");
      names ← stringArray (prop source "aliases") "Network aliases";
      aliases ← check_each HOSTNAME_PATTERN "Network alias is invalid" names;
      ipv4Address ← optionalIp (prop source "ipv4Address") "Static IPv4 address" (Some 4);
      ipv6Address ← optionalIp (prop source "ipv6Address") "Static IPv6 address" (Some 6);
      macAddress ← optionalString (prop source "macAddress") "Endpoint MAC address" 17;
      _ ← refuse_unless (from_option mac_pattern true macAddress) "Endpoint MAC address is invalid";
      _ ← refuse_unless (bool_decide (mode = "custom") ||
                         negb (negb (bool_decide (aliases = [])) || isSome ipv4Address || isSome ipv6Address || isSome macAddress))
            "Endpoint settings require a custom network";
      inr (ContainerNetwork mode networkName aliases ipv4Address ipv6Address macAddress)
  end.

(** ** Blocks accepted together

    The addresses of an entry; an address with a zone ([%eth0]) is left out. *)
Definition in_block (c : cidr) (x : list Z) : Prop :=
  Forall is_byte x ∧ length x = length (ci_bytes c) ∧ top_bits (ci_prefix c) x = top_bits (ci_prefix c) (ci_bytes c).
Definition block (text : option string) : option cidr :=
  text ≫= λ s, match parseCidr s "" with inr c => Some c | inl _ => None end.
Definition in_text (text : option string) (x : list Z) : Prop := ∃ c, block text = Some c ∧ in_block c x.
Definition no_zone (text : option string) : Prop := from_option (λ s, has_char "%" s = false) True text.
Definition without_zones (a : ipam_config) : Prop :=
  no_zone (ip_subnet a) ∧ no_zone (ip_range a) ∧ no_zone (ip_gateway a) ∧ Forall (λ e, no_zone (Some e.2)) (ip_auxAddresses a).

(** What the checks of one entry leave. *)
Record entry_ok (enableIpv4 enableIpv6 : bool) (a : ipam_config) : Prop := EntryOk {
  eo_family : ∀ c, block (ip_subnet a) = Some c → family_disabled enableIpv4 enableIpv6 c = false;
  eo_range : ∀ r, block (ip_range a) = Some r → range_inside (block (ip_subnet a)) r = true;
  eo_gateway : ∀ g, ip_gateway a = Some g → address_inside (block (ip_subnet a)) g = true;
  eo_aux : Forall (λ e, address_inside (block (ip_subnet a)) e.2 = true) (ip_auxAddresses a)
}.

Lemma parseCidr_field s f f' c : parseCidr s f = inr c → parseCidr s f' = inr c.
Proof.
  unfold parseCidr. destruct (split_on "/" s) as [|address [|rawPrefix [|]]]; try done. cbv zeta.
  by destruct (_ || num_lt _ (to_number rawPrefix)).
Qed.
Lemma parse_optional_block o f c : parse_optional o f = inr c → c = block o.
Proof.
  destruct o as [s|]; cbn [parse_optional]; [|by intros [= <-]]. intros H. check_step H. subst. cbn [block mbind option_bind].
  by rewrite (parseCidr_field s f "" x Hx).
Qed.
Lemma ipam_entry_ok e4 e6 seen i raw a seen' : ipam_entry e4 e6 seen i raw = inr (a, seen') →
  entry_ok e4 e6 a ∧ is_parsedSubnets seen' = is_parsedSubnets seen ++ option_list (block (ip_subnet a)) ∧
  ∀ c e, block (ip_subnet a) = Some c → e ∈ is_parsedSubnets seen → cidrOverlaps e c = false.
Proof.
  unfold ipam_entry. intros H. check_step H. check_step H. check_step H. check_step H. check_step H. check_step H. check_step H.
  check_step H. check_step H. check_step H. check_step H. check_step H. check_step H. check_step H. check_step H.
  injection H as <- <-. repeat match goal with E : refuse_unless _ _ = inr _ |- _ => apply refuse_unless_inv in E end.
  repeat match goal with E : parse_optional _ _ = inr ?c |- _ => apply parse_optional_block in E; subst c end.
  cbn [ip_subnet ip_range ip_gateway ip_auxAddresses is_parsedSubnets].
  split; [split; cbn [ip_subnet ip_range ip_gateway ip_auxAddresses]|split; [done|]].
  - intros c Ec. rewrite Ec in *. by apply negb_true_iff.
  - intros r Er. rewrite Er in *. done.
  - intros g ->. done.
  - apply Forall_forall. intros e He. match goal with E : forallb _ _ = true |- _ => rewrite forallb_forall in E; apply E end. by apply list_elem_of_In.
  - intros c e Ec He. rewrite Ec in *. cbn [from_option] in *.
    match goal with E : negb (existsb _ _) = true |- _ => apply negb_true_iff in E; apply not_true_iff_false; intros Eo; revert E;
      apply not_false_iff_true, existsb_exists; exists e; split; [by apply list_elem_of_In|done] end.
Qed.

(** No block meets one before it. *)
Fixpoint apart (seen : list cidr) (l : list ipam_config) : Prop :=
  match l with
  | [] => True
  | a :: l => (∀ c e, block (ip_subnet a) = Some c → e ∈ seen → cidrOverlaps e c = false) ∧
              apart (seen ++ option_list (block (ip_subnet a))) l
  end.
Lemma ipam_entries_ok e4 e6 items : ∀ seen i l, ipam_entries e4 e6 seen i items = inr l →
  Forall (entry_ok e4 e6) l ∧ apart (is_parsedSubnets seen) l.
Proof.
  induction items as [|raw items IH]; intros seen i l; cbn [ipam_entries]; [by intros [= <-]|]. intros H. check_step H.
  destruct x as [a seen']. check_step H. injection H as <-. apply ipam_entry_ok in Hx as (Ha & E & Ho). apply IH in Hx0 as [Hl Hs].
  split; [by constructor|]. cbn [apart]. by rewrite <-E.
Qed.
Lemma apart_seen seen l i a c e : apart seen l → l !! i = Some a → block (ip_subnet a) = Some c → e ∈ seen → cidrOverlaps e c = false.
Proof.
  revert seen i. induction l as [|b l IH]; intros seen i H; [done|]. destruct H as [H Hl], i as [|i].
  - intros [= ->]. by apply H.
  - intros Hi Hb He. apply (IH _ _ Hl Hi Hb). apply elem_of_app. by left.
Qed.
Lemma apart_pair seen l i j a b ca cb : apart seen l → l !! i = Some a → l !! j = Some b → (i < j)%nat →
  block (ip_subnet a) = Some ca → block (ip_subnet b) = Some cb → cidrOverlaps ca cb = false.
Proof.
  revert seen i j. induction l as [|x l IH]; intros seen i j H Hi Hj Hij Ha Hb; [done|]. destruct H as [H Hl], i as [|i], j as [|j]; try lia.
  - injection Hi as ->. apply (apart_seen _ _ _ _ _ _ Hl Hj Hb). rewrite Ha. apply elem_of_app. right. apply list_elem_of_here.
  - by apply (IH _ i j Hl Hi Hj ltac:(lia)).
Qed.

Lemma block_ok o c : no_zone o → block o = Some c → cidr_ok c ∧
  (ci_family c = 4 ∧ length (ci_bytes c) = 4%nat ∨ ci_family c = 6 ∧ length (ci_bytes c) = 16%nat).
Proof.
  destruct o as [s|]; [|done]. cbn [block mbind option_bind no_zone from_option]. intros Hz.
  destruct (parseCidr s "") as [e|c'] eqn:E; [done|]. intros [= ->]. by apply (parseCidr_ok s "").
Qed.
Lemma in_block_contains c x : cidr_ok c → in_block c x ↔ Forall is_byte x ∧ cidrContains c x = true.
Proof.
  intros Hc. unfold in_block. split.
  - intros (Hx & Hl & Ht). split; [done|]. rewrite cidr_contains_spec by done. by apply bool_decide_eq_true.
  - intros [Hx H]. assert (length (ci_bytes c) = length x) as Hl.
    { unfold cidrContains in H. case_bool_decide as E; [done|]. done. }
    rewrite cidr_contains_spec in H by done. apply bool_decide_eq_true in H. by split_and!.
Qed.
Lemma overlap_free o o' c c' x : no_zone o → no_zone o' → block o = Some c → block o' = Some c' →
  cidrOverlaps c c' = false → in_block c x → ¬ in_block c' x.
Proof.
  intros Hz Hz' E E' Ho Hx Hx'. destruct (block_ok o c Hz E) as [Hc Hf], (block_ok o' c' Hz' E') as [Hc' Hf'].
  apply not_true_iff_false in Ho. apply Ho. apply cidr_overlaps_spec; [done|done|lia|]. exists x.
  apply in_block_contains in Hx as [Hb Hx]; [|done]. by apply in_block_contains in Hx' as [_ Hx'].
Qed.
Lemma inside_address o g : no_zone o → no_zone (Some g) → address_inside (block o) g = true → in_text o (ipBytes g).
Proof.
  intros Hz Hg H. unfold address_inside in H. destruct (block o) as [c|] eqn:E; [|done]. exists c. split; [done|].
  apply andb_prop in H as [Hf%bool_decide_eq_true H]. destruct (block_ok o c Hz E) as [Hc Hl]. apply in_block_contains; [done|].
  split; [|done]. destruct (ipBytes_ok g ltac:(lia) Hg); done.
Qed.
Lemma inside_range o o' r x : no_zone o → no_zone o' → block o' = Some r → range_inside (block o) r = true →
  in_block r x → in_text o x.
Proof.
  intros Hz Hz' E H Hx. unfold range_inside in H. destruct (block o) as [c|] eqn:Ec; [|done]. exists c. split; [done|].
  apply andb_prop in H as [[_ Hp%negb_true_iff%bool_decide_eq_false]%andb_prop H].
  destruct (block_ok o c Hz Ec) as [Hc _], (block_ok o' r Hz' E) as [Hr _]. destruct Hx as (Hb & Hl & Ht).
  assert (in_block c (ci_bytes r)) as (_ & Hl' & Ht') by (by apply in_block_contains; [|split; [apply ck_bytes|]]).
  split; [done|]. split; [congruence|]. rewrite <-Ht'. apply (top_bits_less (ci_prefix c) (ci_prefix r)); try done.
  - destruct Hc as [_ Hc]. lia.
  - rewrite Hl. destruct Hr. lia.
Qed.

(** Address blocks that [ipamConfigs] accepts together share no address, of
    whatever family and prefix they are; and every address of an entry's range,
    its gateway and its auxiliary addresses lie in the entry's own block, whose
    family is enabled.  (Texts with an IPv6 zone are left out.) *)
Theorem ipam_blocks_apart value enableIpv4 enableIpv6 l (H : ipamConfigs value enableIpv4 enableIpv6 = inr l)
    (Hz : Forall without_zones l) :
  (∀ i j a b x, l !! i = Some a → l !! j = Some b → i ≠ j → in_text (ip_subnet a) x → ¬ in_text (ip_subnet b) x) ∧
  Forall (λ a,
    (∀ c, block (ip_subnet a) = Some c → if bool_decide (ci_family c = 4) then enableIpv4 = true else enableIpv6 = true) ∧
    (∀ x, in_text (ip_range a) x → in_text (ip_subnet a) x) ∧
    (∀ g, ip_gateway a = Some g → in_text (ip_subnet a) (ipBytes g)) ∧
    Forall (λ e, in_text (ip_subnet a) (ipBytes e.2)) (ip_auxAddresses a)) l.
Proof.
  unfold ipamConfigs in H. check_step H. apply ipam_entries_ok in H as [Hl Ha]. rewrite Forall_forall in Hz, Hl. split.
  - intros i j a b y Hi Hj Hij (ca & Eca & Hx1) (cb & Ecb & Hx2).
    destruct (Hz a (list_elem_of_lookup_2 _ _ _ Hi)) as [Hza _], (Hz b (list_elem_of_lookup_2 _ _ _ Hj)) as [Hzb _].
    assert (i < j ∨ j < i)%nat as [Hlt|Hlt] by lia.
    + pose proof (apart_pair _ _ _ _ _ _ _ _ Ha Hi Hj Hlt Eca Ecb) as Ho. exact (overlap_free _ _ _ _ _ Hza Hzb Eca Ecb Ho Hx1 Hx2).
    + pose proof (apart_pair _ _ _ _ _ _ _ _ Ha Hj Hi Hlt Ecb Eca) as Ho. exact (overlap_free _ _ _ _ _ Hzb Hza Ecb Eca Ho Hx2 Hx1).
  - apply Forall_forall. intros a Hin. destruct (Hz a Hin) as (Hzs & Hzr & Hzg & Hzx), (Hl a Hin) as [Hf Hr Hg Hx']. split_and!.
    + intros c Ec. specialize (Hf c Ec). destruct (block_ok _ c Hzs Ec) as [_ [[Hc _]|[Hc _]]]; rewrite Hc in *; unfold family_disabled in Hf;
        rewrite Hc in Hf; by destruct enableIpv4, enableIpv6.
    + intros y (r & Er & Hy). apply (inside_range (ip_subnet a) (ip_range a) r); [done|done|done|by apply Hr|done].
    + intros g Eg. apply inside_address; [done|by rewrite <-Eg|by apply Hg].
    + rewrite Forall_forall in Hzx, Hx' |- *. intros e He. apply inside_address; [done|by apply Hzx|by apply Hx'].
Qed.

(** A zone that holds colons is read as groups by [ipBytes], so the same
    block passes twice: why zones are left out. *)
Example zone_hides_overlap :
  isSome (match ipamConfigs (Some (JArr [JObj [("subnet", JStr "fd00::/64")]; JObj [("subnet", JStr "fd00::%a:b:c:d:e:f:1/64")]])) true true with
          | inr l => Some l | inl _ => None end) = true.
Proof. by vm_compute. Qed.

Module IpamDemo.
Definition subnet (s : string) : json := JObj [("subnet", JStr s)].
Definition first : json :=
  JObj [("subnet", JStr "10.1.0.0/16"); ("ipRange", JStr "10.1.4.0/22"); ("gateway", JStr "10.1.0.1");
        ("auxAddresses", JObj [("printer", JStr "10.1.0.9")])].
Definition accepted : list ipam_config :=
  [IpamConfig (Some "10.1.0.0/16") (Some "10.1.4.0/22") (Some "10.1.0.1") [("printer", "10.1.0.9")];
   IpamConfig (Some "fd00::/64") None None []].

Example refused_blocks :
  ipamConfigs (Some (JArr [subnet "10.0.0.0/8"; subnet "10.1.0.0/16"])) true true = refuse "IPAM subnets must not overlap" ∧
  ipamConfigs (Some (JArr [first; first])) true true = refuse "IPAM subnets must be unique" ∧
  ipamConfigs (Some (JArr [subnet "fd00::/64"])) true false = refuse "IPAM subnet uses a disabled address family".
Proof. by vm_compute. Qed.

Lemma ipam_blocks_apart_witness :
  in_text (Some "10.1.0.0/16") (ipBytes "10.1.0.1") ∧ ¬ in_text (Some "fd00::/64") (ipBytes "10.1.0.1").
Proof.
  destruct (ipam_blocks_apart (Some (JArr [first; subnet "fd00::/64"])) true true accepted) as [H Hin].
  - by vm_compute.
  - repeat constructor; by vm_compute.
  - apply Forall_cons in Hin as [(_ & _ & Hg & _) _].
    assert (in_text (Some "10.1.0.0/16") (ipBytes "10.1.0.1")) as H1 by (by apply Hg).
    split; [exact H1|].
    by apply (H 0%nat 1%nat (IpamConfig (Some "10.1.0.0/16") (Some "10.1.4.0/22") (Some "10.1.0.1") [("printer", "10.1.0.9")])
                (IpamConfig (Some "fd00::/64") None None [])).
Defined.
End IpamDemo.
