(* ===== verification/VodProtocol.v ===== *)
(** * The protocol of the VOD player

    packages/shared/src/vod-player-protocol.ts: the requests and responses on
    the socket of the player service, one line of JSON each, and the parsers
    that check them.  packages/shared/src/vod-player-client.ts: the client,
    which collects the line from the chunks the socket delivers. *)
From Stdlib Require Import Ascii QArith.
From S2P Require Import Prelude Json JsString JsonText.
Open Scope Z_scope.

Definition VOD_PLAYER_PROTOCOL_VERSION : Z := 1.
Definition VOD_PLAYER_BROKER_MAX_FRAME_BYTES : Z := 128 * 1024.
Definition VOD_PLAYER_BROKER_CONNECT_TIMEOUT_MS : Z := 5000.

(** ** Data *)
Inductive VodPlayerState := vod_idle | vod_starting | vod_playing | vod_paused | vod_recovering | vod_stopped | vod_error.
Definition state_text (s : VodPlayerState) : string :=
  match s with
  | vod_idle => "idle" | vod_starting => "starting" | vod_playing => "playing" | vod_paused => "paused"
  | vod_recovering => "recovering" | vod_stopped => "stopped" | vod_error => "error"
  end.
Definition vod_states : list VodPlayerState :=
  [vod_idle; vod_starting; vod_playing; vod_paused; vod_recovering; vod_stopped; vod_error].

Inductive VodPlayerErrorCode :=
| VOD_PLAYER_DISABLED | VOD_PLAYER_UNAVAILABLE | MPV_UNAVAILABLE | DRM_UNAVAILABLE | AUDIO_UNAVAILABLE
| PERMISSION_DENIED | STORAGE_UNAVAILABLE | SOURCE_CHANGED | UNSUPPORTED_MEDIA | PLAYBACK_FAILED | COMMAND_TIMEOUT
| SESSION_CONFLICT | INVALID_COMMAND | INVALID_PATH | PROTOCOL_ERROR | INTERNAL.
Definition error_code_text (c : VodPlayerErrorCode) : string :=
  match c with
  | VOD_PLAYER_DISABLED => "VOD_PLAYER_DISABLED" | VOD_PLAYER_UNAVAILABLE => "VOD_PLAYER_UNAVAILABLE"
  | MPV_UNAVAILABLE => "MPV_UNAVAILABLE" | DRM_UNAVAILABLE => "DRM_UNAVAILABLE" | AUDIO_UNAVAILABLE => "AUDIO_UNAVAILABLE"
  | PERMISSION_DENIED => "PERMISSION_DENIED" | STORAGE_UNAVAILABLE => "STORAGE_UNAVAILABLE"
  | SOURCE_CHANGED => "SOURCE_CHANGED" | UNSUPPORTED_MEDIA => "UNSUPPORTED_MEDIA" | PLAYBACK_FAILED => "PLAYBACK_FAILED"
  | COMMAND_TIMEOUT => "COMMAND_TIMEOUT" | SESSION_CONFLICT => "SESSION_CONFLICT" | INVALID_COMMAND => "INVALID_COMMAND"
  | INVALID_PATH => "INVALID_PATH" | PROTOCOL_ERROR => "PROTOCOL_ERROR" | INTERNAL => "INTERNAL"
  end.
Definition vod_error_codes : list VodPlayerErrorCode :=
  [VOD_PLAYER_DISABLED; VOD_PLAYER_UNAVAILABLE; MPV_UNAVAILABLE; DRM_UNAVAILABLE; AUDIO_UNAVAILABLE; PERMISSION_DENIED;
   STORAGE_UNAVAILABLE; SOURCE_CHANGED; UNSUPPORTED_MEDIA; PLAYBACK_FAILED; COMMAND_TIMEOUT; SESSION_CONFLICT;
   INVALID_COMMAND; INVALID_PATH; PROTOCOL_ERROR; INTERNAL].

(** [hardwareDecode] holds the value as it came: the check looks at its string. *)
Record VodPlayerCapabilities := Capabilities {
  ca_mpvAvailable : bool; ca_drmAvailable : bool; ca_audioAvailable : bool; ca_hardwareDecode : json; ca_error : option string }.
Record VodPlayerStatus := Status {
  vs_state : VodPlayerState; vs_sessionId : option string; vs_serviceInstanceId : string; vs_revision : number;
  vs_rootId : option string; vs_storagePoolId : option string; vs_relativePath : option string;
  vs_fileName : option string; vs_positionSeconds : number; vs_durationSeconds : option number; vs_volume : number;
  vs_retryCount : number; vs_nextRetryAt : option string; vs_capabilities : VodPlayerCapabilities;
  vs_error : option string; vs_errorCode : option VodPlayerErrorCode; vs_updatedAt : string }.
Inductive session_action := act_pause | act_resume | act_stop | act_retry.
Definition action_text (a : session_action) : string :=
  match a with act_pause => "pause" | act_resume => "resume" | act_stop => "stop" | act_retry => "retry" end.
Definition session_actions : list session_action := [act_pause; act_resume; act_stop; act_retry].
Inductive VodPlayerCommand :=
| cmd_status
| cmd_play (rootId storagePoolId relativePath : string) (startPositionSeconds : option number)
| cmd_session (action : session_action) (sessionId : string)
| cmd_seek (sessionId : string) (seconds : number)
| cmd_set_volume (sessionId : string) (volume : number).
Record VodPlayerBrokerRequest := Request { rq_id : string; rq_command : VodPlayerCommand }.
Inductive VodPlayerBrokerResponse :=
| response_ok (id : string) (status : VodPlayerStatus)
| response_error (id error : string) (code : VodPlayerErrorCode) (statusCode : Z).

(** The member of a union of string literals that a string is. *)
Definition of_text {A} (text : A → string) (all : list A) (s : string) : option A :=
  List.find (λ a, bool_decide (text a = s)) all.

(** ** The messages as values *)
Definition capabilities_json (c : VodPlayerCapabilities) : json :=
  JObj [("mpvAvailable", JBool (ca_mpvAvailable c)); ("drmAvailable", JBool (ca_drmAvailable c));
        ("audioAvailable", JBool (ca_audioAvailable c)); ("hardwareDecode", ca_hardwareDecode c);
        ("error", nullable (ca_error c))].
Definition status_json (s : VodPlayerStatus) : json :=
  JObj [("state", JStr (state_text (vs_state s))); ("sessionId", nullable (vs_sessionId s));
        ("serviceInstanceId", JStr (vs_serviceInstanceId s)); ("revision", JNum (vs_revision s));
        ("rootId", nullable (vs_rootId s)); ("storagePoolId", nullable (vs_storagePoolId s));
        ("relativePath", nullable (vs_relativePath s)); ("fileName", nullable (vs_fileName s));
        ("positionSeconds", JNum (vs_positionSeconds s)); ("durationSeconds", from_option JNum JNull (vs_durationSeconds s));
        ("volume", JNum (vs_volume s)); ("retryCount", JNum (vs_retryCount s)); ("nextRetryAt", nullable (vs_nextRetryAt s));
        ("capabilities", capabilities_json (vs_capabilities s)); ("error", nullable (vs_error s));
        ("errorCode", nullable (error_code_text <$> vs_errorCode s)); ("updatedAt", JStr (vs_updatedAt s))].
Definition command_json (c : VodPlayerCommand) : json :=
  JObj match c with
       | cmd_status => [("type", JStr "status")]
       | cmd_play rootId pool path start =>
           [("type", JStr "play"); ("rootId", JStr rootId); ("storagePoolId", JStr pool); ("relativePath", JStr path)] ++
           match start with Some n => [("startPositionSeconds", JNum n)] | None => [] end
       | cmd_session a id => [("type", JStr (action_text a)); ("sessionId", JStr id)]
       | cmd_seek id seconds => [("type", JStr "seek"); ("sessionId", JStr id); ("seconds", JNum seconds)]
       | cmd_set_volume id volume => [("type", JStr "set-volume"); ("sessionId", JStr id); ("volume", JNum volume)]
       end.
Definition request_json (r : VodPlayerBrokerRequest) : json :=
  JObj [("version", int VOD_PLAYER_PROTOCOL_VERSION); ("id", JStr (rq_id r)); ("command", command_json (rq_command r))].
Definition response_json (r : VodPlayerBrokerResponse) : json :=
  match r with
  | response_ok id status =>
      JObj [("version", int VOD_PLAYER_PROTOCOL_VERSION); ("id", JStr id); ("ok", JBool true); ("status", status_json status)]
  | response_error id error code statusCode =>
      JObj [("version", int VOD_PLAYER_PROTOCOL_VERSION); ("id", JStr id); ("ok", JBool false); ("error", JStr error);
            ("code", JStr (error_code_text code)); ("statusCode", int statusCode)]
  end.
Definition encodeVodPlayerBrokerMessage (message : json) : string := JSON_stringify message +:+ String line_feed "".

(** ** The parsers *)
Definition hasOnlyKeys (ps : list (string * json)) (allowed : list string) : bool :=
  forallb (λ k, bool_decide (k ∈ allowed)) (keys ps).
Definition safe_string (limit : Z) (s : string) : bool :=
  bool_decide (0 < len s) && bool_decide (len s ≤ limit) && negb (has_char "000" s).
Definition safeIdentifier (v : option json) : option string :=
  match as_string v with Some s => if safe_string 256 s then Some s else None | None => None end.
Definition safeRequestId (v : option json) : option string :=
  match as_string v with Some s => if safe_string 128 s then Some s else None | None => None end.
Definition safeRelativePath (s : string) : bool :=
  negb (startsWith "/" s) && negb (existsb (λ x, bool_decide (x = "" ∨ x = "." ∨ x = "..")) (split_on "/" s)).

Definition finiteNumber (v : option json) : option number :=
  match as_number v with Some n => if isFinite n then Some n else None | None => None end.
Definition nonNegative (v : option json) : option number :=
  match finiteNumber v with Some n => if num_le (lit 0) n then Some n else None | None => None end.
Definition nonNegativeInteger (v : option json) : option number :=
  match nonNegative v with Some n => if isSafeInteger n then Some n else None | None => None end.
Definition optionalNonNegative (v : option json) : option number :=
  match v with None => None | _ => nonNegative v end.
Definition in_volume (n : number) : bool := negb (num_lt n (lit 0)) && negb (num_lt (lit 100) n).
Definition isVodPlayerState (v : option json) : option VodPlayerState := s ← as_string v; of_text state_text vod_states s.
Definition isVodPlayerErrorCode (v : option json) : option VodPlayerErrorCode :=
  s ← as_string v; of_text error_code_text vod_error_codes s.
(** [typeof v === "string" || v === null]. *)
Definition string_or_null (v : option json) : option (option string) :=
  match v with Some (JStr s) => Some (Some s) | Some JNull => Some None | _ => None end.

(** [String(value)]. *)
Fixpoint to_string (v : json) : string :=
  match v with
  | JNull => "null"
  | JBool b => if b then "true" else "false"
  | JNum n => number_text n
  | JStr s => s
  | JArr l => join "," ((λ v, match v with JNull => "" | _ => to_string v end) <$> l)
  | JObj _ => "[object Object]"
  end.
Definition decode_modes : list string := ["enabled"; "software"; "unknown"].

Definition parseCapabilities (v : option json) : option VodPlayerCapabilities :=
  ps ← as_object v;
  if negb (hasOnlyKeys ps ["mpvAvailable"; "drmAvailable"; "audioAvailable"; "hardwareDecode"; "error"]) then None else
  mpv ← as_bool (prop ps "mpvAvailable");
  drm ← as_bool (prop ps "drmAvailable");
  audio ← as_bool (prop ps "audioAvailable");
  decode ← prop ps "hardwareDecode";
  if negb (bool_decide (to_string decode ∈ decode_modes)) then None else
  error ← string_or_null (prop ps "error");
  Some (Capabilities mpv drm audio decode error).

Definition status_keys : list string :=
  ["state"; "sessionId"; "serviceInstanceId"; "revision"; "rootId"; "storagePoolId"; "relativePath"; "fileName";
   "positionSeconds"; "durationSeconds"; "volume"; "retryCount"; "nextRetryAt"; "capabilities"; "error"; "errorCode";
   "updatedAt"].
Definition parseStatus (v : option json) : option VodPlayerStatus :=
  ps ← as_object v;
  if negb (hasOnlyKeys ps status_keys) then None else
  state ← isVodPlayerState (prop ps "state");
  sessionId ← string_or_null (prop ps "sessionId");
  instance ← as_string (prop ps "serviceInstanceId");
  if bool_decide (instance = "") then None else
  revision ← nonNegativeInteger (prop ps "revision");
  retryCount ← nonNegativeInteger (prop ps "retryCount");
  rootId ← string_or_null (prop ps "rootId");
  pool ← string_or_null (prop ps "storagePoolId");
  path ← string_or_null (prop ps "relativePath");
  fileName ← string_or_null (prop ps "fileName");
  position ← nonNegative (prop ps "positionSeconds");
  duration ← (if is_null_json (prop ps "durationSeconds") then Some None else Some <$> nonNegative (prop ps "durationSeconds"));
  volume ← finiteNumber (prop ps "volume");
  if negb (in_volume volume) then None else
  nextRetryAt ← string_or_null (prop ps "nextRetryAt");
  capabilities ← parseCapabilities (prop ps "capabilities");
  error ← string_or_null (prop ps "error");
  errorCode ← (if is_null_json (prop ps "errorCode") then Some None else Some <$> isVodPlayerErrorCode (prop ps "errorCode"));
  updatedAt ← as_string (prop ps "updatedAt");
  Some (Status state sessionId instance revision rootId pool path fileName position duration volume retryCount
          nextRetryAt capabilities error errorCode updatedAt).

Definition parseCommand (ps : list (string * json)) : option VodPlayerCommand :=
  let type := prop ps "type" in
  if is_str type "status" then (if hasOnlyKeys ps ["type"] then Some cmd_status else None)
  else if is_str type "play" then
    if negb (hasOnlyKeys ps ["type"; "rootId"; "storagePoolId"; "relativePath"; "startPositionSeconds"]) then None else
    rootId ← safeIdentifier (prop ps "rootId");
    pool ← safeIdentifier (prop ps "storagePoolId");
    path ← as_string (prop ps "relativePath");
    if negb (safeRelativePath path) then None else
    let given := prop ps "startPositionSeconds" in
    let start := optionalNonNegative given in
    if isSome given && negb (is_null_json given) && negb (isSome start) then None else
    Some (cmd_play rootId pool path start)
  else
    sessionId ← safeIdentifier (prop ps "sessionId");
    match s ← as_string type; of_text action_text session_actions s with
    | Some a => if hasOnlyKeys ps ["type"; "sessionId"] then Some (cmd_session a sessionId) else None
    | None =>
        if is_str type "seek" then
          if negb (hasOnlyKeys ps ["type"; "sessionId"; "seconds"]) then None else
          seconds ← nonNegative (prop ps "seconds"); Some (cmd_seek sessionId seconds)
        else if is_str type "set-volume" then
          if negb (hasOnlyKeys ps ["type"; "sessionId"; "volume"]) then None else
          volume ← finiteNumber (prop ps "volume");
          if in_volume volume then Some (cmd_set_volume sessionId volume) else None
        else None
    end.

Definition parseJsonRecord (raw : string) : option (list (string * json)) :=
  if bool_decide (VOD_PLAYER_BROKER_MAX_FRAME_BYTES < byteLength raw) then None else as_object (JSON_parse raw).
(** The id, when version and id are right. *)
Definition baseEnvelope (ps : list (string * json)) : option string :=
  if strict_eq (prop ps "version") (Some (int VOD_PLAYER_PROTOCOL_VERSION)) then safeRequestId (prop ps "id") else None.

Definition parseVodPlayerBrokerRequest (raw : string) : option VodPlayerBrokerRequest :=
  ps ← parseJsonRecord raw;
  id ← baseEnvelope ps;
  if negb (hasOnlyKeys ps ["version"; "id"; "command"]) then None else
  command ← as_object (prop ps "command");
  Request id <$> parseCommand command.

Definition parseVodPlayerBrokerResponse (raw : string) : option VodPlayerBrokerResponse :=
  ps ← parseJsonRecord raw;
  id ← baseEnvelope ps;
  ok ← as_bool (prop ps "ok");
  if negb ok then
    if negb (hasOnlyKeys ps ["version"; "id"; "ok"; "error"; "code"; "statusCode"]) then None else
    error ← as_string (prop ps "error");
    if bool_decide (4096 < len error) then None else
    code ← isVodPlayerErrorCode (prop ps "code");
    statusCode ← as_number (prop ps "statusCode");
    if negb (isInteger statusCode) || num_lt statusCode (lit 400) || num_lt (lit 599) statusCode then None else
    Some (response_error id error code (number_Z statusCode))
  else
    if negb (hasOnlyKeys ps ["version"; "id"; "ok"; "status"]) then None else
    response_ok id <$> parseStatus (prop ps "status").

(** ** Valid messages *)
Definition seconds_ok (n : number) : bool := isFinite n && num_le (lit 0) n.
Definition command_ok (c : VodPlayerCommand) : bool :=
  match c with
  | cmd_status => true
  | cmd_play rootId pool path start =>
      safe_string 256 rootId && safe_string 256 pool && safeRelativePath path && from_option seconds_ok true start
  | cmd_session _ id => safe_string 256 id
  | cmd_seek id seconds => safe_string 256 id && seconds_ok seconds
  | cmd_set_volume id volume => safe_string 256 id && isFinite volume && in_volume volume
  end.
Definition request_ok (r : VodPlayerBrokerRequest) : bool := safe_string 128 (rq_id r) && command_ok (rq_command r).
Definition status_ok (s : VodPlayerStatus) : bool :=
  negb (bool_decide (vs_serviceInstanceId s = "")) &&
  (seconds_ok (vs_revision s) && isSafeInteger (vs_revision s)) &&
  (seconds_ok (vs_retryCount s) && isSafeInteger (vs_retryCount s)) &&
  seconds_ok (vs_positionSeconds s) && from_option seconds_ok true (vs_durationSeconds s) &&
  (isFinite (vs_volume s) && in_volume (vs_volume s)) &&
  bool_decide (to_string (ca_hardwareDecode (vs_capabilities s)) ∈ decode_modes).
Definition response_valid (r : VodPlayerBrokerResponse) : bool :=
  match r with
  | response_ok id status => safe_string 128 id && status_ok status
  | response_error id error _ statusCode =>
      safe_string 128 id && bool_decide (len error ≤ 4096) && bool_decide (400 ≤ statusCode ≤ 599)
  end.

(** ** What the parsers accept *)
Lemma safeIdentifier_Some v s : safeIdentifier v = Some s → safe_string 256 s = true.
Proof. unfold safeIdentifier. destruct (as_string v); [|done]. by destruct (safe_string _ _) eqn:E; intros [= <-]. Qed.

Lemma safeRequestId_Some v s : safeRequestId v = Some s → safe_string 128 s = true.
Proof. unfold safeRequestId. destruct (as_string v); [|done]. by destruct (safe_string _ _) eqn:E; intros [= <-]. Qed.

Lemma finiteNumber_Some v n : finiteNumber v = Some n → isFinite n = true.
Proof. unfold finiteNumber. destruct (as_number v); [|done]. by destruct (isFinite _) eqn:E; intros [= <-]. Qed.

Lemma nonNegative_Some v n : nonNegative v = Some n → seconds_ok n = true.
Proof.
  unfold nonNegative, seconds_ok. destruct (finiteNumber v) as [m|] eqn:Em; [|done]. apply finiteNumber_Some in Em.
  destruct (num_le (lit 0) m) eqn:E; [|done]. intros [= <-]. by rewrite Em, E.
Qed.

Lemma nonNegativeInteger_Some v n : nonNegativeInteger v = Some n → seconds_ok n && isSafeInteger n = true.
Proof.
  unfold nonNegativeInteger. destruct (nonNegative v) as [m|] eqn:Em; [|done]. apply nonNegative_Some in Em.
  destruct (isSafeInteger m) eqn:E; [|done]. intros [= <-]. by rewrite Em, E.
Qed.

Lemma optionalNonNegative_Some v n : optionalNonNegative v = Some n → seconds_ok n = true.
Proof. destruct v; [|done]. apply nonNegative_Some. Qed.

Lemma baseEnvelope_Some ps id : baseEnvelope ps = Some id → safe_string 128 id = true.
Proof. unfold baseEnvelope. destruct (strict_eq _ _); [|done]. apply safeRequestId_Some. Qed.

Lemma parseCommand_ok ps c : parseCommand ps = Some c → command_ok c = true.
Proof.
  unfold parseCommand. destruct (is_str _ "status"); [intros H; opt_step H; by injection H as <-|].
  destruct (is_str _ "play"); intros H.
  - do 5 opt_step H. cbv zeta in H. opt_step H. injection H as <-. simpl.
    rewrite (safeIdentifier_Some _ _ Hx), (safeIdentifier_Some _ _ Hx0), Hb0. simpl.
    destruct (optionalNonNegative _) eqn:E; [|done]. by apply optionalNonNegative_Some in E.
  - opt_step H. apply safeIdentifier_Some in Hx.
    destruct (_ ≫= _) as [a|] eqn:Ea; [opt_step H; by injection H as <-|].
    destruct (is_str _ "seek"); [|destruct (is_str _ "set-volume"); [|done]]; do 2 opt_step H.
    + injection H as <-. simpl. by rewrite Hx, (nonNegative_Some _ _ Hx0).
    + opt_step H. injection H as <-. simpl. by rewrite Hx, (finiteNumber_Some _ _ Hx0), Hb0.
Qed.

Lemma parseCapabilities_ok v c : parseCapabilities v = Some c →
  bool_decide (to_string (ca_hardwareDecode c) ∈ decode_modes) = true.
Proof. unfold parseCapabilities. intros H. repeat opt_step H. by injection H as <-. Qed.

Lemma parseStatus_ok v s : parseStatus v = Some s → status_ok s = true.
Proof.
  unfold parseStatus. intros H. repeat opt_step H. injection H as <-. unfold status_ok. simpl.
  repeat match goal with
  | Hx : nonNegativeInteger _ = Some _ |- _ => apply nonNegativeInteger_Some in Hx; rewrite Hx
  | Hx : nonNegative _ = Some _ |- _ => apply nonNegative_Some in Hx; rewrite Hx
  | Hx : finiteNumber _ = Some _ |- _ => apply finiteNumber_Some in Hx; rewrite Hx
  | Hx : parseCapabilities _ = Some _ |- _ => apply parseCapabilities_ok in Hx; rewrite Hx
  | Hb : in_volume _ = true |- _ => rewrite Hb
  | Hb : bool_decide (_ = "") = false |- _ => rewrite Hb
  end.
  assert (from_option seconds_ok true x10 = true) as ->; [|done]. destruct x10 as [n|]; [|done].
  destruct (is_null_json (prop x "durationSeconds")); [done|].
  apply fmap_Some in Hx10 as (m & Hm & [= ->]). by apply nonNegative_Some in Hm.
Qed.

(** ** What the types of the protocol declare *)
Definition id_declared (limit : Z) (s : string) : Prop := s ≠ "" ∧ len s ≤ limit ∧ no_char "000" s.
(** Names below a root, one inside the other. *)
Definition path_declared (s : string) : Prop := ∃ names, names ≠ [] ∧ s = join "/" names ∧ Forall plain_name names.
Definition seconds_declared (n : number) : Prop := ∃ q, n = Num q ∧ (0 <= q)%Q.
Definition count_declared (n : number) : Prop := ∃ q z, n = Num q ∧ (q == inject_Z z)%Q ∧ 0 ≤ z ≤ 9007199254740991.
Definition volume_declared (n : number) : Prop := ∃ q, n = Num q ∧ (0 <= q)%Q ∧ (q <= 100)%Q.
Definition command_declared (c : VodPlayerCommand) : Prop :=
  match c with
  | cmd_status => True
  | cmd_play rootId pool path start => id_declared 256 rootId ∧ id_declared 256 pool ∧ path_declared path ∧ from_option seconds_declared True start
  | cmd_session _ id => id_declared 256 id
  | cmd_seek id seconds => id_declared 256 id ∧ seconds_declared seconds
  | cmd_set_volume id volume => id_declared 256 id ∧ volume_declared volume
  end.
(** [String(hardwareDecode)] is a mode: the mode itself, or an array of it. *)
Definition status_declared (s : VodPlayerStatus) : Prop :=
  vs_serviceInstanceId s ≠ "" ∧ count_declared (vs_revision s) ∧ count_declared (vs_retryCount s) ∧
  seconds_declared (vs_positionSeconds s) ∧ from_option seconds_declared True (vs_durationSeconds s) ∧ volume_declared (vs_volume s) ∧
  to_string (ca_hardwareDecode (vs_capabilities s)) ∈ ["enabled"; "software"; "unknown"].
Definition response_declared (r : VodPlayerBrokerResponse) : Prop :=
  match r with
  | response_ok id status => id_declared 128 id ∧ status_declared status
  | response_error id error _ statusCode => id_declared 128 id ∧ len error ≤ 4096 ∧ 400 ≤ statusCode ≤ 599
  end.

Lemma safe_string_declared limit s : safe_string limit s = true → id_declared limit s.
Proof.
  intros [[H1%bool_decide_eq_true H2%bool_decide_eq_true]%andb_prop H3%negb_true_iff]%andb_prop. split_and!; [by intros ->|done|done].
Qed.
Lemma safe_path_declared s : safeRelativePath s = true → path_declared s.
Proof.
  intros [_ H%negb_true_iff]%andb_prop. exists (split_on "/" s). destruct (split_on_cons "/" s) as (w & ws & E).
  split; [by rewrite E|]. split; [symmetry; apply join_split|]. pose proof (split_on_no_char "/" s) as Hn.
  rewrite Forall_forall in *. intros x Hx. specialize (Hn x Hx). apply not_true_iff_false in H. rewrite existsb_exists in H.
  assert (¬ (x = "" ∨ x = "." ∨ x = "..")) as Hd by (intros Hd; apply H; exists x; rewrite <-list_elem_of_In, bool_decide_eq_true; done).
  split_and!; [naive_solver..|exact Hn].
Qed.
Lemma seconds_ok_declared n : seconds_ok n = true → seconds_declared n.
Proof. intros [H1 H2]%andb_prop. destruct n as [q| | |]; try done. exists q. split; [done|]. by apply Qle_bool_iff. Qed.
Lemma count_ok_declared n : seconds_ok n && isSafeInteger n = true → count_declared n.
Proof.
  intros [(q & -> & Hq)%seconds_ok_declared H]%andb_prop. apply andb_prop in H as [[Hi%bool_decide_eq_true _]%andb_prop Hhi].
  apply Qle_bool_iff in Hhi. destruct q as [p d]. cbn in Hi. apply Z.div_exact in Hi; [|done]. cbn in Hi.
  exists (p # d), (p / Zpos d). split; [done|]. unfold Qeq, Qle, inject_Z in *. cbn in *. split; [lia|]. nia.
Qed.
Lemma volume_ok_declared n : isFinite n = true → in_volume n = true → volume_declared n.
Proof.
  intros Hf [H1%negb_true_iff H2%negb_true_iff]%andb_prop. destruct n as [q| | |]; try done. unfold num_lt, lit in *.
  apply negb_false_iff in H1, H2. exists q. split; [done|]. split; by apply Qle_bool_iff.
Qed.
Lemma command_ok_declared c : command_ok c = true → command_declared c.
Proof.
  destruct c as [|r p f start|a id|id n|id n]; cbn [command_ok command_declared]; intros H; [done| | | |].
  - apply andb_prop in H as [[[Hr Hp]%andb_prop Hf]%andb_prop Hs]. split_and!; [by apply safe_string_declared..|by apply safe_path_declared|].
    destruct start; [by apply seconds_ok_declared|done].
  - by apply safe_string_declared.
  - apply andb_prop in H as [Hi Hs]. split; [by apply safe_string_declared|by apply seconds_ok_declared].
  - apply andb_prop in H as [[Hi Hf]%andb_prop Hv]. split; [by apply safe_string_declared|by apply volume_ok_declared].
Qed.
Lemma status_ok_declared s : status_ok s = true → status_declared s.
Proof.
  unfold status_ok.
  intros [[[[[[Hi Hrev]%andb_prop Hrc]%andb_prop Hpos]%andb_prop Hdur]%andb_prop [Hf Hvol]%andb_prop]%andb_prop Hcap]%andb_prop.
  split_and!; [|by apply count_ok_declared..|by apply seconds_ok_declared| |by apply volume_ok_declared|by apply bool_decide_eq_true in Hcap].
  - by apply negb_true_iff, bool_decide_eq_false in Hi.
  - destruct (vs_durationSeconds s); [by apply seconds_ok_declared|done].
Qed.
Lemma request_accepted raw r : parseVodPlayerBrokerRequest raw = Some r → request_ok r = true.
Proof.
  unfold parseVodPlayerBrokerRequest. intros H. repeat opt_step H. apply fmap_Some in H as (c&Hc&->). unfold request_ok. simpl.
  by rewrite (baseEnvelope_Some _ _ Hx0), (parseCommand_ok _ _ Hc).
Qed.
Lemma response_accepted raw r : parseVodPlayerBrokerResponse raw = Some r → response_valid r = true.
Proof.
  unfold parseVodPlayerBrokerResponse. intros H. repeat opt_step H.
  apply baseEnvelope_Some in Hx0. destruct x1; cbn [negb] in H; repeat opt_step H.
  - apply fmap_Some in H as (s&Hs&->). simpl. by rewrite Hx0, (parseStatus_ok _ _ Hs).
  - injection H as <-. apply bool_decide_eq_false in Hb0. apply orb_false_iff in Hb1 as [[Hi Hlo]%orb_false_iff Hhi].
    apply negb_false_iff in Hi. pose proof (number_Z_bounds _ _ _ Hi Hlo Hhi). simpl. rewrite Hx0.
    by rewrite !bool_decide_true by lia.
Qed.
Lemma frame_bounded raw ps : parseJsonRecord raw = Some ps → byteLength raw ≤ 131072.
Proof. unfold parseJsonRecord, VOD_PLAYER_BROKER_MAX_FRAME_BYTES. case_bool_decide; [done|]. lia. Qed.

(** C38: Soundness of the wire parsers.  A request or response that is
    accepted has at most 128 KiB; its id and the ids of roots, pools and
    sessions are not empty, at most 128 or 256 long and without NUL; the path
    to play is made of one or more names, none of them empty, [.] or [..];
    times are finite and not negative, revision and retry count safe integers
    that are not negative, a volume is from 0 to 100, a status code an integer
    from 400 to 599, an error text at most 4096 long, the service instance is
    named.  Of the decoding mode only the string is checked: it prints as one
    of the three modes, as an array of one does too ([decode_mode_array]). *)
Theorem vod_parsers_sound raw :
  (∀ r, parseVodPlayerBrokerRequest raw = Some r →
     byteLength raw ≤ 131072 ∧ id_declared 128 (rq_id r) ∧ command_declared (rq_command r)) ∧
  (∀ r, parseVodPlayerBrokerResponse raw = Some r → byteLength raw ≤ 131072 ∧ response_declared r).
Proof.
  split; intros r H; (split; [revert H; cbv [parseVodPlayerBrokerRequest parseVodPlayerBrokerResponse]; intros H; opt_step H; by eapply frame_bounded|]).
  - apply request_accepted, andb_prop in H as [Hid Hc]. split; [by apply safe_string_declared|by apply command_ok_declared].
  - apply response_accepted in H. destruct r as [id s|id error code n].
    + apply andb_prop in H as [Hid Hs]. split; [by apply safe_string_declared|by apply status_ok_declared].
    + apply andb_prop in H as [[Hid He%bool_decide_eq_true]%andb_prop Hn%bool_decide_eq_true]. split_and!; try done; [by apply safe_string_declared|lia..].
Qed.

(** ** Reading back what was written *)
(** The numbers of a message are written without an exponent. *)
Definition command_plain (c : VodPlayerCommand) : bool :=
  match c with
  | cmd_play _ _ _ start => from_option plain_number true start
  | cmd_seek _ n | cmd_set_volume _ n => plain_number n
  | _ => true
  end.
Definition status_plain (s : VodPlayerStatus) : bool :=
  plain_number (vs_revision s) && plain_number (vs_retryCount s) && plain_number (vs_positionSeconds s) &&
  from_option plain_number true (vs_durationSeconds s) && plain_number (vs_volume s) &&
  wf_json (ca_hardwareDecode (vs_capabilities s)).
Definition response_plain (r : VodPlayerBrokerResponse) : bool :=
  match r with response_ok _ s => status_plain s | response_error _ _ _ _ => true end.

Lemma wf_nullable o : wf_json (nullable o) = true.
Proof. by destruct o. Qed.

Lemma request_wf r : command_plain (rq_command r) = true → wf_json (request_json r) = true.
Proof.
  destruct r as [id []]; simpl; intros H; try done; try by rewrite H.
  destruct startPositionSeconds; simpl in *; [by rewrite H|done].
Qed.

Lemma status_wf s : status_plain s = true → wf_json (status_json s) = true.
Proof.
  unfold status_plain. intros [[[[[H1 H2]%andb_prop H3]%andb_prop H4]%andb_prop H5]%andb_prop H6]%andb_prop.
  unfold status_json, capabilities_json. cbn [wf_json forallb snd].
  rewrite !wf_nullable, H1, H2, H3, H5, H6, !andb_true_r.
  destruct (vs_durationSeconds s) as [n|]; [simpl in H4; cbn [from_option wf_json]; rewrite H4|]; by vm_compute.
Qed.

Lemma plain_int z : Z.abs z < 10 ^ 21 → plain_number (lit z) = true.
Proof.
  intros H. unfold plain_number, lit. assert (decimals (inject_Z z) = 0%nat) as Ej.
  { unfold decimals. cbn [inject_Z Qden Qnum Pos.size_nat places]. rewrite Z.mod_1_r. done. }
  assert (all_digits (inject_Z z) = Z.abs z) as Ed.
  { unfold all_digits. rewrite Ej. cbn [inject_Z Qden Qnum]. by rewrite Z.mul_1_r, Z.div_1_r. }
  rewrite Ej, Ed. cbn [inject_Z Qnum Qden]. rewrite !Z.mul_1_r.
  rewrite (bool_decide_true (0%nat = 0%nat)), (bool_decide_true (Z.abs z = Z.abs z)), (bool_decide_true (Z.abs z < _)) by done.
  rewrite bool_decide_true; [done|]. symmetry. unfold Qred, inject_Z. simpl.
  pose proof (Z.ggcd_correct_divisors z 1) as Hd. pose proof (Z.ggcd_gcd z 1) as Hg. rewrite Z.gcd_1_r in Hg.
  destruct (Z.ggcd z 1) as [g [a b]]. simpl in *. subst g. destruct Hd as [Ha Hb]. rewrite Z.mul_1_l in Ha, Hb. by subst.
Qed.

Lemma response_wf r : response_valid r = true → response_plain r = true → wf_json (response_json r) = true.
Proof.
  destruct r as [id s|id error code n]; intros Hv Hp; cbn [response_json wf_json forallb snd].
  - rewrite (status_wf s Hp). by vm_compute.
  - assert (plain_number (lit n) = true) as Hn.
    { apply plain_int. cbn [response_valid] in Hv. apply andb_prop in Hv as [_ Hv%bool_decide_eq_true]. lia. }
    change (wf_json (int n)) with (plain_number (lit n)). rewrite Hn. by vm_compute.
Qed.

Arguments string_or_null : simpl never.
Arguments nonNegative : simpl never.
Arguments nonNegativeInteger : simpl never.
Arguments finiteNumber : simpl never.
Arguments safeIdentifier : simpl never.
Arguments safeRequestId : simpl never.
Arguments parseCapabilities : simpl never.
Arguments of_text : simpl never.
Arguments isInteger : simpl never.
Arguments num_lt : simpl never.
Arguments number_Z : simpl never.

Lemma of_text_action a : of_text action_text session_actions (action_text a) = Some a.
Proof. by destruct a. Qed.
Lemma of_text_code c : of_text error_code_text vod_error_codes (error_code_text c) = Some c.
Proof. by destruct c. Qed.
Lemma of_text_state c : of_text state_text vod_states (state_text c) = Some c.
Proof. by destruct c. Qed.
Lemma string_or_null_nullable o : string_or_null (Some (nullable o)) = Some o.
Proof. by destruct o. Qed.
Lemma nonNegative_num n : seconds_ok n = true → nonNegative (Some (JNum n)) = Some n.
Proof. unfold seconds_ok, nonNegative, finiteNumber. simpl. intros [-> H]%andb_prop. by rewrite H. Qed.
Lemma nonNegativeInteger_num n : seconds_ok n && isSafeInteger n = true → nonNegativeInteger (Some (JNum n)) = Some n.
Proof. intros [H1 H2]%andb_prop. unfold nonNegativeInteger. by rewrite nonNegative_num, H2. Qed.
Lemma finiteNumber_num n : isFinite n = true → finiteNumber (Some (JNum n)) = Some n.
Proof. unfold finiteNumber. simpl. by intros ->. Qed.
Lemma safeIdentifier_str s : safe_string 256 s = true → safeIdentifier (Some (JStr s)) = Some s.
Proof. unfold safeIdentifier. simpl. by intros ->. Qed.
Lemma safeRequestId_str s : safe_string 128 s = true → safeRequestId (Some (JStr s)) = Some s.
Proof. unfold safeRequestId. simpl. by intros ->. Qed.

Lemma parse_command_json c : command_ok c = true → ∃ ps, command_json c = JObj ps ∧ parseCommand ps = Some c.
Proof.
  unfold command_json. intros H. eexists. split; [done|]. destruct c as [|r p f start|a id|id n|id n]; cbn [command_ok] in H.
  - done.
  - apply andb_prop in H as [[[Hr Hp]%andb_prop Hf]%andb_prop Hs]. unfold parseCommand.
    destruct start as [n|]; simpl.
    + rewrite (safeIdentifier_str r), (safeIdentifier_str p) by done. simpl. rewrite Hf. simpl.
      simpl in Hs. by rewrite nonNegative_num.
    + rewrite (safeIdentifier_str r), (safeIdentifier_str p) by done. simpl. by rewrite Hf.
  - unfold parseCommand. destruct a; simpl; by rewrite safeIdentifier_str.
  - apply andb_prop in H as [Hi Hs]. unfold parseCommand. simpl. rewrite safeIdentifier_str by done. simpl.
    by rewrite nonNegative_num.
  - apply andb_prop in H as [[Hi Hf]%andb_prop Hv]. unfold parseCommand. simpl. rewrite safeIdentifier_str by done. simpl.
    rewrite finiteNumber_num by done. simpl. by rewrite Hv.
Qed.

Lemma parse_capabilities_json c : bool_decide (to_string (ca_hardwareDecode c) ∈ decode_modes) = true →
  parseCapabilities (Some (capabilities_json c)) = Some c.
Proof.
  destruct c as [m d a h e]. intros H. unfold parseCapabilities, capabilities_json. simpl in *.
  rewrite H. simpl. by rewrite string_or_null_nullable.
Qed.

Lemma parse_status_json s : status_ok s = true → parseStatus (Some (status_json s)) = Some s.
Proof.
  destruct s as [st sid inst rev root pool path fn pos dur vol rc nra cap err ec upd]. unfold status_ok. simpl.
  intros [[[[[[Hi Hrev]%andb_prop Hrc]%andb_prop Hpos]%andb_prop Hdur]%andb_prop [Hf Hvol]%andb_prop]%andb_prop Hcap]%andb_prop.
  unfold parseStatus, status_json, isVodPlayerState, isVodPlayerErrorCode.
  assert (hasOnlyKeys (match status_json (Status st sid inst rev root pool path fn pos dur vol rc nra cap err ec upd) with
    JObj ps => ps | _ => [] end) status_keys = true) as Hk by (by vm_compute).
  unfold status_json in Hk. cbn [as_object mbind option_bind]. rewrite Hk. cbn [negb prop]. simpl.
  rewrite of_text_state. simpl. rewrite string_or_null_nullable. simpl.
  apply negb_true_iff in Hi. rewrite Hi. rewrite !nonNegativeInteger_num by done. simpl.
  rewrite !string_or_null_nullable. simpl. rewrite nonNegative_num by done. simpl.
  destruct dur as [n|]; simpl in *; [rewrite nonNegative_num by done; simpl|];
    rewrite finiteNumber_num by done; simpl; rewrite Hvol; simpl;
    rewrite parse_capabilities_json by done; simpl;
    destruct ec as [c|]; simpl; try rewrite of_text_code; done.
Qed.

Lemma request_roundtrip r : request_ok r = true → command_plain (rq_command r) = true →
  byteLength (JSON_stringify (request_json r)) ≤ VOD_PLAYER_BROKER_MAX_FRAME_BYTES →
  parseVodPlayerBrokerRequest (JSON_stringify (request_json r)) = Some r.
Proof.
  intros [Hid Hc]%andb_prop Hp Hsize. unfold parseVodPlayerBrokerRequest, parseJsonRecord.
  rewrite bool_decide_false by lia. rewrite JSON_roundtrip by (by apply request_wf).
  destruct r as [id c]. destruct (parse_command_json c Hc) as (ps&E&Hps). unfold request_json. cbn [rq_id rq_command] in *.
  rewrite E. unfold baseEnvelope. simpl. rewrite safeRequestId_str by done. cbn [mbind option_bind].
  change (Request id <$> parseCommand ps = Some (Request id c)). by rewrite Hps.
Qed.

Lemma response_roundtrip r : response_valid r = true → response_plain r = true →
  byteLength (JSON_stringify (response_json r)) ≤ VOD_PLAYER_BROKER_MAX_FRAME_BYTES →
  parseVodPlayerBrokerResponse (JSON_stringify (response_json r)) = Some r.
Proof.
  intros Hv Hp Hsize. unfold parseVodPlayerBrokerResponse, parseJsonRecord.
  rewrite bool_decide_false by lia. rewrite JSON_roundtrip by (by apply response_wf).
  destruct r as [id s|id error code n]; cbn [response_valid] in Hv; unfold baseEnvelope; simpl.
  - apply andb_prop in Hv as [Hid Hs]. rewrite safeRequestId_str by done. simpl.
    change (JObj _) with (status_json s). by rewrite parse_status_json.
  - apply andb_prop in Hv as [[Hid He%bool_decide_eq_true]%andb_prop Hn%bool_decide_eq_true].
    rewrite safeRequestId_str by done. simpl. rewrite bool_decide_false by lia.
    unfold isVodPlayerErrorCode. simpl. rewrite of_text_code. simpl.
    assert (isInteger (lit n) = true) as Hi by apply isInteger_int.
    assert (num_lt (lit n) (lit 400) = false ∧ num_lt (lit 599) (lit n) = false) as [H1 H2].
    { unfold num_lt. cbn [lit]. fold (lit 400) (lit 599) (lit n). by rewrite !num_le_int, !bool_decide_true by lia. }
    pose proof (number_Z_int n) as H3. unfold lit in *. by rewrite Hi, H1, H2, H3.
Qed.

(** ** The client *)
Definition VodPlayerRuntimeError (message : string) (statusCode : Z) (code : VodPlayerErrorCode) : exn :=
  Exn "VodPlayerRuntimeError" message (Some statusCode) (Some (error_code_text code)) [].

Definition disabledStatus (now : string) : VodPlayerStatus :=
  Status vod_idle None "disabled" (lit 0) None None None None (lit 0) None (lit 100) (lit 0) None
    (Capabilities false false false (JStr "unknown") (Some "VOD Player is disabled"))
    (Some "VOD Player is disabled") (Some VOD_PLAYER_DISABLED) now.

Definition commandTimeout (startupTimeoutMs commandTimeoutMs : Z) (c : VodPlayerCommand) : Z :=
  let processStopBudgetMs := 12000 in
  let responseBudgetMs := 2000 in
  match c with
  | cmd_play _ _ _ _ | cmd_session act_retry _ =>
      Z.max VOD_PLAYER_BROKER_CONNECT_TIMEOUT_MS
        (startupTimeoutMs + commandTimeoutMs * 5 + processStopBudgetMs * 2 + 5000 + responseBudgetMs)
  | _ => Z.max VOD_PLAYER_BROKER_CONNECT_TIMEOUT_MS (commandTimeoutMs + processStopBudgetMs + responseBudgetMs)
  end.

(** What a call comes to at once, or the command and timeout of a request. *)
Definition getStatus (enabled : bool) (now : string) : VodPlayerStatus + VodPlayerCommand * Z :=
  if negb enabled then inl (disabledStatus now) else inr (cmd_status, VOD_PLAYER_BROKER_CONNECT_TIMEOUT_MS).
Definition command (enabled : bool) (startupTimeoutMs commandTimeoutMs : Z) (c : VodPlayerCommand)
    : exn + VodPlayerCommand * Z :=
  if negb enabled then inl (VodPlayerRuntimeError "VOD Player is disabled" 503 VOD_PLAYER_DISABLED)
  else inr (c, commandTimeout startupTimeoutMs commandTimeoutMs c).

Definition socketError (code : option string) (message : string) : exn :=
  if bool_decide (code = Some "EACCES" ∨ code = Some "EPERM") then
    VodPlayerRuntimeError "VOD Player socket access was denied" 403 PERMISSION_DENIED
  else if bool_decide (code = Some "ENOENT" ∨ code = Some "ECONNREFUSED") then
    VodPlayerRuntimeError "VOD Player is unavailable" 503 VOD_PLAYER_UNAVAILABLE
  else VodPlayerRuntimeError (if bool_decide (message = "") then "VOD Player connection failed" else message)
         503 VOD_PLAYER_UNAVAILABLE.

(** The state of one request: the buffer, and how the promise was settled. *)
Record client := Client { cl_buffer : string; cl_outcome : option (exn + VodPlayerStatus) }.
Definition finish (o : exn + VodPlayerStatus) (c : client) : client :=
  match cl_outcome c with Some _ => c | None => Client (cl_buffer c) (Some o) end.

Definition response_id (r : VodPlayerBrokerResponse) : string :=
  match r with response_ok id _ | response_error id _ _ _ => id end.
Definition response_outcome (r : VodPlayerBrokerResponse) : exn + VodPlayerStatus :=
  match r with
  | response_ok _ status => inr status
  | response_error _ error code statusCode => inl (VodPlayerRuntimeError error statusCode code)
  end.
Definition on_data (id chunk : string) (c : client) : client :=
  let buffer := cl_buffer c +:+ chunk in
  let c := Client buffer (cl_outcome c) in
  if bool_decide (VOD_PLAYER_BROKER_MAX_FRAME_BYTES < byteLength buffer) then
    finish (inl (VodPlayerRuntimeError "VOD Player response is too large" 502 PROTOCOL_ERROR)) c
  else
    match indexOf (String line_feed "") buffer with
    | None => c
    | Some n =>
        match parseVodPlayerBrokerResponse (take_str n buffer) with
        | Some r => if bool_decide (response_id r = id) && bool_decide (trim (drop_str (n + 1) buffer) = "")
                    then finish (response_outcome r) c
                    else finish (inl (VodPlayerRuntimeError "Invalid response from VOD Player" 502 PROTOCOL_ERROR)) c
        | None => finish (inl (VodPlayerRuntimeError "Invalid response from VOD Player" 502 PROTOCOL_ERROR)) c
        end
    end.

Inductive socket_event :=
| ev_data (chunk : string)
| ev_error (code : option string) (message : string)
| ev_close
| ev_timeout.
Definition client_event (id : string) (c : client) (e : socket_event) : client :=
  match e with
  | ev_data chunk => on_data id chunk c
  | ev_error code message => finish (inl (socketError code message)) c
  | ev_close => finish (inl (VodPlayerRuntimeError "VOD Player is unavailable" 503 VOD_PLAYER_UNAVAILABLE)) c
  | ev_timeout => finish (inl (VodPlayerRuntimeError "VOD Player request timed out" 504 COMMAND_TIMEOUT)) c
  end.

(** The first outcome stays. *)
Lemma outcome_stays id c es o : cl_outcome c = Some o → cl_outcome (foldl (client_event id) c es) = Some o.
Proof.
  revert c. induction es as [|e es IH]; intros c H; simpl; [done|]. apply IH.
  destruct e; unfold client_event, on_data, finish; simpl; rewrite ?H; try done.
  repeat case_match; simpl in *; congruence.
Qed.

(** However the line is cut into chunks, the client settles by its response. *)
Lemma line_settles id r text chunks c later :
  no_char line_feed text → byteLength (text +:+ String line_feed "") ≤ VOD_PLAYER_BROKER_MAX_FRAME_BYTES →
  parseVodPlayerBrokerResponse text = Some r → response_id r = id →
  no_char line_feed (cl_buffer c) → cl_outcome c = None →
  cl_buffer c +:+ foldr String.append "" chunks = text +:+ String line_feed "" →
  cl_outcome (foldl (client_event id) c ((ev_data <$> chunks) ++ later)) = Some (response_outcome r).
Proof.
  intros Htext Hsize Hparse Hid. revert c. induction chunks as [|ch chunks IH]; intros c Hbuf Hout Hall; simpl in Hall.
  - rewrite string_app_nil_r in Hall. exfalso. rewrite Hall in Hbuf. apply no_char_all in Hbuf.
    rewrite all_chars_app in Hbuf. apply andb_prop in Hbuf as [_ Hbuf]. simpl in Hbuf. done.
  - rewrite <-string_app_assoc in Hall. simpl.
    assert (byteLength (cl_buffer c +:+ ch) ≤ VOD_PLAYER_BROKER_MAX_FRAME_BYTES) as Hb.
    { rewrite <-Hall, byteLength_app in Hsize. pose proof (byteLength_nonneg (foldr String.append "" chunks)). lia. }
    destruct (line_prefix _ _ _ _ Htext Hall) as [Hno|[Hwhole _]].
    + assert (on_data id ch c = Client (cl_buffer c +:+ ch) None) as ->.
      { unfold on_data. rewrite bool_decide_false by lia. by rewrite indexOf_char_none, Hout. }
      by apply IH.
    + apply outcome_stays. unfold on_data. rewrite bool_decide_false by lia. rewrite Hwhole, indexOf_char by done.
      rewrite take_str_app, Hparse. rewrite bool_decide_true by done.
      assert (drop_str (String.length text + 1) (text +:+ String line_feed "") = "") as ->.
      { assert (String.length text + 1 = String.length (text +:+ String line_feed ""))%nat as ->
          by (by rewrite length_append). apply drop_str_all. }
      simpl. unfold finish. simpl. by rewrite Hout.
Qed.

(** C37: An exchange with the player service loses nothing.  The line the
    client sends for a valid command is one line, which the service parses to
    the same id and command; and however the service's line for a valid
    response to this id is cut into chunks, and whatever the socket does
    afterwards, the call settles exactly once, with the status or the error
    the response carries. *)
Theorem vod_exchange id c r chunks later :
  request_ok (Request id c) = true → command_plain c = true → response_valid r = true → response_plain r = true →
  response_id r = id →
  byteLength (encodeVodPlayerBrokerMessage (request_json (Request id c))) ≤ VOD_PLAYER_BROKER_MAX_FRAME_BYTES →
  byteLength (encodeVodPlayerBrokerMessage (response_json r)) ≤ VOD_PLAYER_BROKER_MAX_FRAME_BYTES →
  foldr String.append "" chunks = encodeVodPlayerBrokerMessage (response_json r) →
  (∃ line, encodeVodPlayerBrokerMessage (request_json (Request id c)) = line +:+ String line_feed "" ∧
    no_char line_feed line ∧ parseVodPlayerBrokerRequest line = Some (Request id c)) ∧
  cl_outcome (foldl (client_event id) (Client "" None) ((ev_data <$> chunks) ++ later)) = Some (response_outcome r).
Proof.
  unfold encodeVodPlayerBrokerMessage. intros Hrq Hplain Hv Hp Hid Hs1 Hs2 Hch.
  assert (∀ s, byteLength (s +:+ String line_feed "") = byteLength s + 1) as Hlen by (intros s; by rewrite byteLength_app).
  split.
  - eexists. split; [done|]. split; [by apply stringify_no_newline, request_wf|].
    apply request_roundtrip; [done..|]. rewrite Hlen in Hs1. lia.
  - eapply line_settles; [| |apply response_roundtrip| |..]; simpl; try done.
    + by apply stringify_no_newline, response_wf.
    + rewrite Hlen in Hs2. lia.
Qed.

(** ** One exchange *)
Definition demo_play : VodPlayerBrokerRequest := Request "q-1" (cmd_play "r1" "p1" "films/a.mkv" (Some (Num (3 # 2)))).
Definition demo_status : VodPlayerBrokerResponse :=
  response_ok "q-1" (Status vod_playing (Some "s1") "i1" (lit 7) (Some "r1") (Some "p1") (Some "films/a.mkv") (Some "a.mkv")
    (Num (3 # 2)) (Some (lit 5400)) (lit 80) (lit 0) None (Capabilities true true true (JStr "enabled") None)
    None None "2026-01-01T00:00:00.000Z").
Definition demo_line : string := encodeVodPlayerBrokerMessage (response_json demo_status).
Definition demo_chunks : list string := [take_str 10 demo_line; ""; drop_str 10 demo_line].

Lemma vod_parsers_sound_witness : ∃ r,
  parseVodPlayerBrokerRequest (JSON_stringify (request_json demo_play)) = Some r ∧ command_declared (rq_command r).
Proof.
  destruct (vod_parsers_sound (JSON_stringify (request_json demo_play))) as [H _]. exists demo_play.
  assert (parseVodPlayerBrokerRequest (JSON_stringify (request_json demo_play)) = Some demo_play) as E by (vm_compute; reflexivity).
  split; [exact E|exact (proj2 (proj2 (H demo_play E)))].
Defined.

Lemma vod_exchange_witness :
  parseVodPlayerBrokerRequest (JSON_stringify (request_json demo_play)) = Some demo_play ∧
  cl_outcome (foldl (client_event "q-1") (Client "" None) ((ev_data <$> demo_chunks) ++ [ev_close])) =
    Some (response_outcome demo_status).
Proof.
  destruct (vod_exchange "q-1" (rq_command demo_play) demo_status demo_chunks [ev_close]) as [_ H];
    [vm_compute; done..|]. split; [vm_compute; reflexivity|exact H].
Defined.

(** A decoding mode inside an array passes the check of the capabilities. *)
Example decode_mode_array : parseCapabilities (Some (JObj [("mpvAvailable", JBool true); ("drmAvailable", JBool true);
  ("audioAvailable", JBool true); ("hardwareDecode", JArr [JStr "enabled"]); ("error", JNull)])) =
  Some (Capabilities true true true (JArr [JStr "enabled"]) None).
Proof. vm_compute. done. Qed.
(** A line feed inside a string is escaped. *)
Example escaped_line : JSON_stringify (request_json (Request "a" (cmd_seek ("x" +:+ String line_feed "y") (lit 2)))) =
  "{" +:+ quote "version" +:+ ":1," +:+ quote "id" +:+ ":" +:+ quote "a" +:+ "," +:+ quote "command" +:+ ":{" +:+
  quote "type" +:+ ":" +:+ quote "seek" +:+ "," +:+ quote "sessionId" +:+ ":" +:+ String dq ("x\ny" +:+ String dq ",") +:+
  quote "seconds" +:+ ":2}}".
Proof. vm_compute. done. Qed.
