(* ===== verification/Http.v ===== *)
(** * Replies of the HTTP handlers

    What [reply.status(n).send(body)] sends: a value, an [{ error }] body or
    nothing. *)
From S2P Require Import Prelude.
Open Scope Z_scope.

Inductive body (A : Type) :=
| Sent (a : A)
| ErrorBody (message : string)
| NoBody.
Arguments Sent {A} a.
Arguments ErrorBody {A} message.
Arguments NoBody {A}.

Record reply (A : Type) := Reply { rp_status : Z; rp_body : body A }.
Arguments Reply {A} rp_status rp_body.
Arguments rp_status {A} r.
Arguments rp_body {A} r.

Definition send {A} (a : A) : reply A := Reply 200 (Sent a).
Definition send_status {A} (n : Z) (a : A) : reply A := Reply n (Sent a).
Definition send_error {A} (n : Z) (message : string) : reply A := Reply n (ErrorBody message).

Definition has_code (e : exn) (codes : list string) : bool :=
  match exn_code e with Some c => bool_decide (c ∈ codes) | None => false end.
Definition instance_of (name : string) (e : exn) : bool := bool_decide (exn_name e = name).
