(* ===== verification/Base64.v ===== *)
(** * Buffers and base64

    Node's [Buffer] as the list of its bytes, with [Buffer.from(s, "utf8")] and
    the base64 text of packages/shared/src/termux-protocol.ts: what is encoded
    is accepted and decodes to itself, and only canonical texts are accepted. *)
From Stdlib Require Import Ascii.
From S2P Require Import Prelude JsString.
Open Scope Z_scope.

Notation buffer := (list ascii).

(** [Buffer.from(s, "utf8")]; code units stay below 256. *)
Definition byte (n : Z) : ascii := ascii_of_nat (Z.to_nat n).
Definition unit_of (c : ascii) : Z := Z.of_nat (code c).
Fixpoint utf8_bytes (s : string) : buffer :=
  match s with
  | "" => []
  | String c s => (if bool_decide (unit_of c < 128) then [c]
                   else [byte (192 + unit_of c / 64); byte (128 + unit_of c mod 64)]) ++ utf8_bytes s
  end.

(** ** The alphabet *)
Definition sextet (n : Z) : ascii :=
  if bool_decide (n < 26) then byte (65 + n)
  else if bool_decide (n < 52) then byte (71 + n)
  else if bool_decide (n < 62) then byte (n - 4)
  else if bool_decide (n = 62) then "+"%char else "/"%char.
Definition sextet_value (c : ascii) : Z :=
  if is_upper c then unit_of c - 65
  else if is_lower c then unit_of c - 71
  else if is_digit c then unit_of c + 4
  else if bool_decide (c = "+"%char) then 62 else 63.
Definition is_sextet (c : ascii) : bool := is_alnum c || bool_decide (c = "+"%char) || bool_decide (c = "/"%char).

(** ** Encoding and decoding *)
(** [buffer.toString("base64")]. *)
Fixpoint to_base64 (b : buffer) : string :=
  match b with
  | x :: y :: z :: b =>
      String (sextet (unit_of x / 4)) (String (sextet (unit_of x mod 4 * 16 + unit_of y / 16))
        (String (sextet (unit_of y mod 16 * 4 + unit_of z / 64)) (String (sextet (unit_of z mod 64)) (to_base64 b))))
  | [x; y] =>
      String (sextet (unit_of x / 4)) (String (sextet (unit_of x mod 4 * 16 + unit_of y / 16))
        (String (sextet (unit_of y mod 16 * 4)) "="))
  | [x] => String (sextet (unit_of x / 4)) (String (sextet (unit_of x mod 4 * 16)) "==")
  | [] => ""
  end.
(** [Buffer.from(s, "base64")], on the texts of [base64_form]. *)
Fixpoint from_base64 (s : string) : buffer :=
  match s with
  | String a (String b (String c (String d s))) =>
      let a := sextet_value a in
      let b := sextet_value b in
      if bool_decide (c = "="%char) then [byte (a * 4 + b / 16)]
      else
        let c := sextet_value c in
        if bool_decide (d = "="%char) then [byte (a * 4 + b / 16); byte (b mod 16 * 16 + c / 4)]
        else byte (a * 4 + b / 16) :: byte (b mod 16 * 16 + c / 4) :: byte (c mod 4 * 64 + sextet_value d) :: from_base64 s
  | _ => []
  end.

(** The regular expression of [isCanonicalBase64]: groups of four, the last
    of which may end in one or two equals signs. *)
Fixpoint base64_form (s : string) : bool :=
  match s with
  | "" => true
  | String a (String b (String c (String d s))) =>
      is_sextet a && is_sextet b &&
      ((is_sextet c && is_sextet d && base64_form s) ||
       (bool_decide (s = "") && bool_decide (d = "="%char) && (is_sextet c || bool_decide (c = "="%char))))
  | _ => false
  end.

Definition TERMUX_MAX_INPUT_BYTES : Z := 64 * 1024.
(** [Math.ceil(n / 3)]. *)
Definition ceil3 (n : Z) : Z := (n + 2) / 3.
Definition isCanonicalBase64 (value : string) : bool :=
  if bool_decide (ceil3 TERMUX_MAX_INPUT_BYTES * 4 < len value) || negb (base64_form value) then false
  else bool_decide (to_base64 (from_base64 value) = value).
Definition encodeTermuxData (data : buffer) : string := to_base64 data.
Definition decodeTermuxData (data : string) : option buffer :=
  if negb (isCanonicalBase64 data) then None else Some (from_base64 data).

(** ** The round trip *)
Lemma unit_bound c : 0 ≤ unit_of c < 256.
Proof. unfold unit_of, code. pose proof (nat_ascii_bounded c). lia. Qed.

Lemma byte_unit c : byte (unit_of c) = c.
Proof. unfold byte, unit_of, code. rewrite Nat2Z.id. apply ascii_nat_embedding. Qed.

Lemma byte_of c n : n = unit_of c → byte n = c.
Proof. intros ->. apply byte_unit. Qed.

(** The numbers below 64, checked one by one. *)
Lemma sextets : forallb (λ n, is_sextet (sextet n) && bool_decide (sextet_value (sextet n) = n)) (Z.of_nat <$> seq 0 64) = true.
Proof. by vm_compute. Qed.
Lemma sextet_spec n : 0 ≤ n < 64 → is_sextet (sextet n) = true ∧ sextet_value (sextet n) = n.
Proof.
  intros H. pose proof sextets as Hs. rewrite forallb_forall in Hs.
  assert (In n (Z.of_nat <$> seq 0 64)) as Hin.
  { apply list_elem_of_In, list_elem_of_fmap. exists (Z.to_nat n). split; [lia|]. apply elem_of_seq. lia. }
  apply Hs, andb_prop in Hin as [Ha Hb]. by apply bool_decide_eq_true in Hb.
Qed.
Lemma sextet_plain n : 0 ≤ n < 64 → sextet n ≠ "="%char.
Proof. intros H E. destruct (sextet_spec n H) as [Hs _]. by rewrite E in Hs. Qed.

(** Three bytes at a time. *)
Lemma triples (P : buffer → Prop) : P [] → (∀ x, P [x]) → (∀ x y, P [x; y]) →
  (∀ x y z b, P b → P (x :: y :: z :: b)) → ∀ b, P b.
Proof.
  intros H0 H1 H2 H3 b. remember (length b) as n eqn:E. revert b E. induction (lt_wf n) as [n _ IH].
  intros [|x [|y [|z b]]] ->; auto. apply H3. apply (IH (length b)); simpl; lia.
Qed.

Ltac sextet_bounds :=
  repeat match goal with |- context [unit_of ?c] =>
    lazymatch goal with H : 0 ≤ unit_of c < 256 |- _ => fail | _ => pose proof (unit_bound c) end end.
Ltac by_sextets := sextet_bounds; Z.to_euclidean_division_equations; lia.

(** A group of four is read back as its three, two or one bytes. *)
Lemma group_bounds x y z :
  0 ≤ unit_of x / 4 < 64 ∧ 0 ≤ unit_of x mod 4 * 16 < 64 ∧ 0 ≤ unit_of x mod 4 * 16 + unit_of y / 16 < 64 ∧
  0 ≤ unit_of y mod 16 * 4 < 64 ∧ 0 ≤ unit_of y mod 16 * 4 + unit_of z / 64 < 64 ∧ 0 ≤ unit_of z mod 64 < 64.
Proof. split_and!; by_sextets. Qed.

Lemma group_bytes x y z :
  unit_of x / 4 * 4 + unit_of x mod 4 * 16 / 16 = unit_of x ∧
  unit_of x / 4 * 4 + (unit_of x mod 4 * 16 + unit_of y / 16) / 16 = unit_of x ∧
  (unit_of x mod 4 * 16 + unit_of y / 16) mod 16 * 16 + unit_of y mod 16 * 4 / 4 = unit_of y ∧
  (unit_of x mod 4 * 16 + unit_of y / 16) mod 16 * 16 + (unit_of y mod 16 * 4 + unit_of z / 64) / 4 = unit_of y ∧
  (unit_of y mod 16 * 4 + unit_of z / 64) mod 4 * 64 + unit_of z mod 64 = unit_of z.
Proof. split_and!; by_sextets. Qed.

Lemma from_to_base64 b : base64_form (to_base64 b) = true ∧ from_base64 (to_base64 b) = b.
Proof.
  induction b as [|x|x y|x y z b [IHf IHd]] using triples; [done|..];
    cbn [to_base64 base64_form from_base64].
  - destruct (group_bounds x x x) as (H1 & H2 & _), (group_bytes x x x) as (B & _).
    destruct (sextet_spec _ H1) as [S1 V1], (sextet_spec _ H2) as [S2 V2].
    rewrite S1, S2, V1, V2, B, byte_unit. done.
  - destruct (group_bounds x y y) as (H1 & _ & H2 & H3 & _), (group_bytes x y y) as (_ & B1 & B2 & _).
    destruct (sextet_spec _ H1) as [S1 V1], (sextet_spec _ H2) as [S2 V2], (sextet_spec _ H3) as [S3 V3].
    rewrite S1, S2, S3, V1, V2, V3, B1, B2, !byte_unit.
    rewrite (bool_decide_false (sextet _ = _)) by (by apply sextet_plain). done.
  - destruct (group_bounds x y z) as (H1 & _ & H2 & _ & H3 & H4), (group_bytes x y z) as (_ & B1 & _ & B2 & B3).
    destruct (sextet_spec _ H1) as [S1 V1], (sextet_spec _ H2) as [S2 V2], (sextet_spec _ H3) as [S3 V3], (sextet_spec _ H4) as [S4 V4].
    rewrite S1, S2, S3, S4, V1, V2, V3, V4, B1, B2, B3, !byte_unit, IHf, IHd.
    rewrite !(bool_decide_false (sextet _ = _)) by (by apply sextet_plain). done.
Qed.

Lemma to_base64_length b : len (to_base64 b) = ceil3 (Z.of_nat (length b)) * 4.
Proof.
  unfold len. induction b as [|x|x y|x y z b IH] using triples; try done.
  cbn [to_base64 String.length length]. unfold ceil3 in *. Z.to_euclidean_division_equations. lia.
Qed.

(** The text is of letters, digits and signs that JSON leaves as they are. *)
Definition plain_char (c : ascii) : bool := is_sextet c || bool_decide (c = "="%char).
Lemma to_base64_plain b : all_chars plain_char (to_base64 b) = true.
Proof.
  assert (∀ n, 0 ≤ n < 64 → plain_char (sextet n) = true) as Hp.
  { intros n H. unfold plain_char. by rewrite (proj1 (sextet_spec n H)). }
  induction b as [|x|x y|x y z b IH] using triples; [done|..]; cbn [to_base64 all_chars];
    rewrite !Hp by by_sextets; done.
Qed.

(** What is encoded within the limit decodes to itself, and a text that is
    accepted is the encoding of what it decodes to. *)
Theorem base64_roundtrip :
  (∀ b, Z.of_nat (length b) ≤ TERMUX_MAX_INPUT_BYTES → decodeTermuxData (encodeTermuxData b) = Some b) ∧
  (∀ s b, decodeTermuxData s = Some b → s = encodeTermuxData b ∧ Z.of_nat (length b) ≤ TERMUX_MAX_INPUT_BYTES + 2).
Proof.
  unfold decodeTermuxData, encodeTermuxData, isCanonicalBase64. split.
  - intros b Hb. destruct (from_to_base64 b) as [Hf Hd]. rewrite Hf, Hd, to_base64_length.
    rewrite bool_decide_false; [by rewrite bool_decide_true|].
    unfold ceil3, TERMUX_MAX_INPUT_BYTES in *. Z.to_euclidean_division_equations. lia.
  - intros s b. case_bool_decide as Hl; [done|]. destruct (base64_form s); [|done]. cbn [orb negb].
    case_bool_decide as E; [|done]. cbn [negb]. intros [= <-]. split; [done|].
    rewrite <-E, to_base64_length in Hl. unfold ceil3, TERMUX_MAX_INPUT_BYTES in *.
    Z.to_euclidean_division_equations. lia.
Qed.

Example base64_texts :
  encodeTermuxData (utf8_bytes "ls") = "bHM=" ∧ decodeTermuxData "bHM=" = Some ["l"; "s"]%char ∧
  decodeTermuxData "bHN=" = None ∧ decodeTermuxData "bHM" = None ∧ decodeTermuxData "" = Some [] ∧
  encodeTermuxData (utf8_bytes (String "233" "")) = "w6k=".
Proof. by vm_compute. Qed.
