(* ===== verification/TermuxProtocol.v ===== *)
(** * The terminal daemon's protocol

    packages/shared/src/termux-protocol.ts: one JSON object per line.  Requests
    and commands of the client, responses and events of the daemon, their text
    and their parsers. *)
From Stdlib Require Import Ascii QArith.
From S2P Require Import Prelude Json JsString JsonText Base64.
Open Scope Z_scope.

Definition TERMUX_PROTOCOL_VERSION : Z := 1.
Definition TERMUX_MAX_FRAME_BYTES : Z := 256 * 1024.
Definition TERMUX_MIN_COLS : Z := 2.
Definition TERMUX_MAX_COLS : Z := 500.
Definition TERMUX_MIN_ROWS : Z := 1.
Definition TERMUX_MAX_ROWS : Z := 200.

(** ** Frames *)
Record TermuxOpenPayload := OpenPayload {
  op_user : string;
  op_cols : number;
  op_rows : number;
  op_sessionName : option string;
  op_persistent : bool
}.
Inductive TermuxClientFrame :=
| fr_open (id : string) (payload : TermuxOpenPayload)
| fr_close (id streamId : string) (destroy : bool)
| fr_destroy (id user sessionName : string)
| fr_input (streamId data : string)
| fr_resize (streamId : string) (cols rows : number).

Definition termux_error_codes : list string :=
  ["protocol_error"; "validation"; "forbidden"; "not_found"; "conflict"; "session_limit"; "timeout"; "output_too_large";
   "unavailable"; "operation_failed"; "internal"].
Record TermuxProtocolError := ProtocolError {
  pe_status : number;
  pe_code : string;
  pe_message : string;
  pe_retryable : bool;
  pe_details : option json
}.
Inductive TermuxResponse :=
| resp_ok (id : string) (result : list (string * json))
| resp_error (id : string) (error : TermuxProtocolError).
Inductive TermuxEvent :=
| ev_output (data : string)
| ev_exit (exitCode : number) (signal : option number) (recoverable : bool)
| ev_error (code message : string) (retryable : bool).
Inductive TermuxServerFrame := fr_response (r : TermuxResponse) | fr_event (streamId : string) (e : TermuxEvent).

(** ** Their text *)
Definition opt_field (k : string) (o : option json) : list (string * json) :=
  match o with Some v => [(k, v)] | None => [] end.
Definition termuxRequest (id operation : string) (payload : list (string * json)) : json :=
  JObj [("version", int TERMUX_PROTOCOL_VERSION); ("kind", JStr "request"); ("id", JStr id); ("operation", JStr operation);
        ("payload", JObj payload)].
Definition termuxCommand (streamId operation : string) (payload : list (string * json)) : json :=
  JObj [("version", int TERMUX_PROTOCOL_VERSION); ("kind", JStr "command"); ("streamId", JStr streamId);
        ("operation", JStr operation); ("payload", JObj payload)].
Definition client_json (f : TermuxClientFrame) : json :=
  match f with
  | fr_open id p => termuxRequest id "session.open"
      ([("user", JStr (op_user p)); ("cols", JNum (op_cols p)); ("rows", JNum (op_rows p))] ++
       opt_field "sessionName" (JStr <$> op_sessionName p) ++ opt_field "persistent" (if op_persistent p then Some (JBool true) else None))
  | fr_close id streamId destroy => termuxRequest id "session.close"
      (("streamId", JStr streamId) :: opt_field "destroy" (if destroy then Some (JBool true) else None))
  | fr_destroy id user sessionName => termuxRequest id "session.destroy" [("user", JStr user); ("sessionName", JStr sessionName)]
  | fr_input streamId data => termuxCommand streamId "terminal.input" [("data", JStr data)]
  | fr_resize streamId cols rows => termuxCommand streamId "terminal.resize" [("cols", JNum cols); ("rows", JNum rows)]
  end.

Definition error_json (e : TermuxProtocolError) : json :=
  JObj ([("status", JNum (pe_status e)); ("code", JStr (pe_code e)); ("message", JStr (pe_message e));
         ("retryable", JBool (pe_retryable e))] ++ opt_field "details" (pe_details e)).
Definition event_json (e : TermuxEvent) : string * json :=
  match e with
  | ev_output data => ("terminal.output", JObj [("data", JStr data)])
  | ev_exit exitCode signal recoverable =>
      ("terminal.exit", JObj (("exitCode", JNum exitCode) :: opt_field "signal" (JNum <$> signal) ++ [("recoverable", JBool recoverable)]))
  | ev_error code message retryable =>
      ("terminal.error", JObj [("code", JStr code); ("message", JStr message); ("retryable", JBool retryable)])
  end.
Definition server_json (f : TermuxServerFrame) : json :=
  match f with
  | fr_response (resp_ok id result) =>
      JObj [("version", int TERMUX_PROTOCOL_VERSION); ("kind", JStr "response"); ("id", JStr id); ("ok", JBool true); ("result", JObj result)]
  | fr_response (resp_error id error) =>
      JObj [("version", int TERMUX_PROTOCOL_VERSION); ("kind", JStr "response"); ("id", JStr id); ("ok", JBool false); ("error", error_json error)]
  | fr_event streamId e =>
      JObj [("version", int TERMUX_PROTOCOL_VERSION); ("kind", JStr "event"); ("streamId", JStr streamId); ("event", JStr (event_json e).1);
            ("payload", (event_json e).2)]
  end.
Definition encodeTermuxFrame (frame : json) : string := JSON_stringify frame +:+ String line_feed "".

(** ** Parsers *)
Definition hasOnlyKeys (value : list (string * json)) (expected optional : list string) : bool :=
  forallb (λ k, bool_decide (k ∈ expected)) (keys value) &&
  forallb (λ k, bool_decide (k ∈ optional) || hasOwn value k) expected.
Definition isUuid (v : option json) : option string :=
  s ← as_string v; if uuid_form ["1"; "2"; "3"; "4"; "5"; "6"; "7"; "8"]%char s then Some s else None.
Definition session_char (c : ascii) : bool := is_alnum c || bool_decide (c = "_"%char) || bool_decide (c = "-"%char).
Definition isSessionName (s : string) : bool := bool_decide (0 < len s) && bool_decide (len s ≤ 96) && all_chars session_char s.
Definition isErrorCode (v : option json) : option string :=
  s ← as_string v; if bool_decide (s ∈ termux_error_codes) then Some s else None.
Definition integer (v : option json) : option number :=
  n ← as_number v; if isInteger n then Some n else None.
Definition dimension (v : option json) (min max : Z) : option number :=
  n ← integer v; if num_le (lit min) n && num_le n (lit max) then Some n else None.
Definition parseDimensions (value : list (string * json)) : option (number * number) :=
  cols ← dimension (prop value "cols") TERMUX_MIN_COLS TERMUX_MAX_COLS;
  rows ← dimension (prop value "rows") TERMUX_MIN_ROWS TERMUX_MAX_ROWS;
  Some (cols, rows).
(** [undefined] or a boolean: whether it is [true]. *)
Definition flag (v : option json) : option bool := match v with None => Some false | _ => as_bool v end.

Definition parseOpenPayload (value : list (string * json)) : option TermuxOpenPayload :=
  if negb (hasOnlyKeys value ["user"; "cols"; "rows"; "sessionName"; "persistent"] ["sessionName"; "persistent"]) then None else
  user ← as_string (prop value "user");
  dimensions ← parseDimensions value;
  sessionName ← match prop value "sessionName" with
                | None | Some JNull => Some None
                | v => s ← as_string v; if isSessionName s then Some (Some s) else None
                end;
  persistent ← flag (prop value "persistent");
  Some (OpenPayload user dimensions.1 dimensions.2 sessionName persistent).
Definition parseClosePayload (value : list (string * json)) : option (string * bool) :=
  if negb (hasOnlyKeys value ["streamId"; "destroy"] ["destroy"]) then None else
  streamId ← isUuid (prop value "streamId");
  destroy ← flag (prop value "destroy");
  Some (streamId, destroy).
Definition parseDestroyPayload (value : list (string * json)) : option (string * string) :=
  if negb (hasOnlyKeys value ["user"; "sessionName"] []) then None else
  user ← as_string (prop value "user");
  sessionName ← as_string (prop value "sessionName");
  if isSessionName sessionName then Some (user, sessionName) else None.
Definition terminal_data (payload : list (string * json)) : option string :=
  if negb (hasOnlyKeys payload ["data"] []) then None else
  data ← as_string (prop payload "data");
  if isSome (decodeTermuxData data) then Some data else None.

Definition parseRecord (raw : string) : option (list (string * json)) := as_object (JSON_parse raw).
Definition right_version (value : list (string * json)) : bool :=
  strict_eq (prop value "version") (Some (int TERMUX_PROTOCOL_VERSION)).
Definition parseTermuxClientFrame (raw : string) : option TermuxClientFrame :=
  value ← parseRecord raw;
  if negb (right_version value) then None else
  let kind := prop value "kind" in
  id ← isUuid (if is_str kind "request" then prop value "id" else prop value "streamId");
  if is_str kind "request" then
    if negb (hasOnlyKeys value ["version"; "kind"; "id"; "operation"; "payload"] []) then None else
    operation ← as_string (prop value "operation");
    payload ← as_object (prop value "payload");
    if bool_decide (operation = "session.open") then fr_open id <$> parseOpenPayload payload
    else if bool_decide (operation = "session.close") then (λ p, fr_close id p.1 p.2) <$> parseClosePayload payload
    else if bool_decide (operation = "session.destroy") then (λ p, fr_destroy id p.1 p.2) <$> parseDestroyPayload payload
    else None
  else if is_str kind "command" then
    if negb (hasOnlyKeys value ["version"; "kind"; "streamId"; "operation"; "payload"] []) then None else
    operation ← as_string (prop value "operation");
    payload ← as_object (prop value "payload");
    if bool_decide (operation = "terminal.input") then fr_input id <$> terminal_data payload
    else if bool_decide (operation = "terminal.resize") && hasOnlyKeys payload ["cols"; "rows"] []
    then (λ d, fr_resize id d.1 d.2) <$> parseDimensions payload
    else None
  else None.

Definition parseProtocolError (v : option json) : option TermuxProtocolError :=
  value ← as_object v;
  if negb (hasOnlyKeys value ["status"; "code"; "message"; "retryable"; "details"] ["details"]) then None else
  status ← integer (prop value "status");
  code ← isErrorCode (prop value "code");
  message ← as_string (prop value "message");
  retryable ← as_bool (prop value "retryable");
  Some (ProtocolError status code message retryable (prop value "details")).
Definition parseResponse (value : list (string * json)) : option TermuxResponse :=
  id ← isUuid (prop value "id");
  ok ← as_bool (prop value "ok");
  if ok : bool then
    if negb (hasOnlyKeys value ["version"; "kind"; "id"; "ok"; "result"] []) then None else
    resp_ok id <$> as_object (prop value "result")
  else
    if negb (hasOnlyKeys value ["version"; "kind"; "id"; "ok"; "error"] []) then None else
    resp_error id <$> parseProtocolError (prop value "error").
Definition parseEvent (event : option json) (payload : list (string * json)) : option TermuxEvent :=
  if is_str event "terminal.output" then ev_output <$> terminal_data payload
  else if is_str event "terminal.exit" then
    if negb (hasOnlyKeys payload ["exitCode"; "signal"; "recoverable"] ["signal"]) then None else
    exitCode ← integer (prop payload "exitCode");
    signal ← match prop payload "signal" with None => Some None | v => Some <$> integer v end;
    recoverable ← as_bool (prop payload "recoverable");
    Some (ev_exit exitCode signal recoverable)
  else if is_str event "terminal.error" then
    if negb (hasOnlyKeys payload ["code"; "message"; "retryable"] []) then None else
    code ← isErrorCode (prop payload "code");
    message ← as_string (prop payload "message");
    retryable ← as_bool (prop payload "retryable");
    Some (ev_error code message retryable)
  else None.
Definition parseTermuxServerFrame (raw : string) : option TermuxServerFrame :=
  value ← parseRecord raw;
  if negb (right_version value) then None else
  if is_str (prop value "kind") "response" then fr_response <$> parseResponse value
  else if negb (is_str (prop value "kind") "event") then None
  else if negb (hasOnlyKeys value ["version"; "kind"; "streamId"; "event"; "payload"] []) then None else
  streamId ← isUuid (prop value "streamId");
  payload ← as_object (prop value "payload");
  fr_event streamId <$> parseEvent (prop value "event") payload.

Record TermuxOpenResult := OpenResult { or_streamId : string; or_user : string; or_cwd : string; or_shell : string }.
Definition parseTermuxOpenResult (result : list (string * json)) : option TermuxOpenResult :=
  if negb (hasOnlyKeys result ["streamId"; "user"; "cwd"; "shell"] []) then None else
  streamId ← isUuid (prop result "streamId");
  user ← as_string (prop result "user");
  cwd ← as_string (prop result "cwd");
  shell ← as_string (prop result "shell");
  Some (OpenResult streamId user cwd shell).

(** ** What the parsers accept *)
Definition is_uuid (s : string) : bool := isSome (isUuid (Some (JStr s))).
Definition dimensions_ok (cols rows : number) : bool :=
  isSome (dimension (Some (JNum cols)) TERMUX_MIN_COLS TERMUX_MAX_COLS) &&
  isSome (dimension (Some (JNum rows)) TERMUX_MIN_ROWS TERMUX_MAX_ROWS).
Definition client_ok (f : TermuxClientFrame) : bool :=
  match f with
  | fr_open id p => is_uuid id && dimensions_ok (op_cols p) (op_rows p) && from_option isSessionName true (op_sessionName p)
  | fr_close id streamId _ => is_uuid id && is_uuid streamId
  | fr_destroy id _ sessionName => is_uuid id && isSessionName sessionName
  | fr_input streamId data => is_uuid streamId && isSome (decodeTermuxData data)
  | fr_resize streamId cols rows => is_uuid streamId && dimensions_ok cols rows
  end.
Definition error_ok (e : TermuxProtocolError) : bool :=
  isInteger (pe_status e) && bool_decide (pe_code e ∈ termux_error_codes).
Definition event_ok (e : TermuxEvent) : bool :=
  match e with
  | ev_output data => isSome (decodeTermuxData data)
  | ev_exit exitCode signal _ => isInteger exitCode && from_option isInteger true signal
  | ev_error code _ _ => bool_decide (code ∈ termux_error_codes)
  end.
Definition server_ok (f : TermuxServerFrame) : bool :=
  match f with
  | fr_response (resp_ok id _) => is_uuid id
  | fr_response (resp_error id e) => is_uuid id && error_ok e
  | fr_event streamId e => is_uuid streamId && event_ok e
  end.

Lemma isUuid_Some v s : isUuid v = Some s → is_uuid s = true.
Proof.
  unfold is_uuid, isUuid. destruct v as [[| | |x| |]|]; try done. simpl. destruct (uuid_form _ x) eqn:E; [|done].
  intros [= <-]. by rewrite E.
Qed.
Lemma isUuid_ok s : is_uuid s = true → isUuid (Some (JStr s)) = Some s.
Proof. unfold is_uuid, isUuid. simpl. by destruct (uuid_form _ s). Qed.
Lemma isErrorCode_Some v s : isErrorCode v = Some s → bool_decide (s ∈ termux_error_codes) = true.
Proof.
  unfold isErrorCode. destruct v as [[| | |x| |]|]; try done. simpl. destruct (bool_decide _) eqn:E; [|done]. by intros [= <-].
Qed.
Lemma isErrorCode_ok s : bool_decide (s ∈ termux_error_codes) = true → isErrorCode (Some (JStr s)) = Some s.
Proof. unfold isErrorCode. simpl. by intros ->. Qed.
Lemma integer_Some v n : integer v = Some n → v = Some (JNum n) ∧ isInteger n = true.
Proof.
  unfold integer. destruct v as [[| |x| | |]|]; try done. simpl. destruct (isInteger x) eqn:E; [|done]. by intros [= <-].
Qed.
Lemma integer_ok n : isInteger n = true → integer (Some (JNum n)) = Some n.
Proof. unfold integer. simpl. by intros ->. Qed.
Lemma dimension_Some v lo hi n : dimension v lo hi = Some n → v = Some (JNum n).
Proof.
  unfold dimension. destruct (integer v) as [m|] eqn:E; [|done]. simpl. apply integer_Some in E as [-> _].
  destruct (_ && _); [|done]. by intros [= ->].
Qed.
Lemma dimension_ok n lo hi : isSome (dimension (Some (JNum n)) lo hi) = true → dimension (Some (JNum n)) lo hi = Some n.
Proof.
  destruct (dimension _ lo hi) as [m|] eqn:E; [|done]. intros _. apply dimension_Some in E. by injection E as ->.
Qed.
Lemma dimension_int z lo hi : lo ≤ z ≤ hi → dimension (Some (JNum (lit z))) lo hi = Some (lit z).
Proof.
  intros H. unfold dimension. rewrite integer_ok by apply isInteger_int. cbn [mbind option_bind].
  by rewrite !num_le_int, !bool_decide_true by lia.
Qed.
Lemma parseDimensions_Some v d : parseDimensions v = Some d → dimensions_ok d.1 d.2 = true.
Proof.
  unfold parseDimensions. destruct (dimension (prop v "cols") _ _) as [c|] eqn:Ec; [|done]. simpl.
  destruct (dimension (prop v "rows") _ _) as [r|] eqn:Er; [|done]. simpl. intros [= <-]. unfold dimensions_ok. simpl.
  pose proof (dimension_Some _ _ _ _ Ec) as Hc. pose proof (dimension_Some _ _ _ _ Er) as Hr. rewrite Hc in Ec. rewrite Hr in Er.
  by rewrite Ec, Er.
Qed.
Lemma parseDimensions_ok v c r : prop v "cols" = Some (JNum c) → prop v "rows" = Some (JNum r) → dimensions_ok c r = true →
  parseDimensions v = Some (c, r).
Proof.
  intros Hc Hr [H1 H2]%andb_prop. unfold parseDimensions. rewrite Hc, Hr.
  rewrite (dimension_ok _ _ _ H1). simpl. by rewrite (dimension_ok _ _ _ H2).
Qed.
Lemma terminal_data_Some v s : terminal_data v = Some s → isSome (decodeTermuxData s) = true.
Proof.
  unfold terminal_data. destruct (negb _); [done|]. destruct (as_string _) as [x|]; [|done]. cbn [mbind option_bind].
  destruct (isSome _) eqn:E; [|done]. by intros [= <-].
Qed.
Lemma terminal_data_ok s : isSome (decodeTermuxData s) = true → terminal_data [("data", JStr s)] = Some s.
Proof. intros H. unfold terminal_data. change ((if isSome (decodeTermuxData s) then Some s else None) = Some s). by rewrite H. Qed.

(** *** Round trips *)
(** A client frame that is valid is understood as it was meant. *)
Theorem client_roundtrip f : client_ok f = true → wf_json (client_json f) = true →
  parseTermuxClientFrame (JSON_stringify (client_json f)) = Some f.
Proof.
  intros Hok Hwf. unfold parseTermuxClientFrame, parseRecord. rewrite JSON_roundtrip by done. clear Hwf.
  destruct f as [id p|id streamId destroy|id user name|streamId data|streamId cols rows]; cbn [client_ok] in Hok.
  - apply andb_prop in Hok as [[Hid Hd]%andb_prop Hn].
    change ((x ← isUuid (Some (JStr id)); fr_open x <$> parseOpenPayload
       ([("user", JStr (op_user p)); ("cols", JNum (op_cols p)); ("rows", JNum (op_rows p))] ++
        opt_field "sessionName" (JStr <$> op_sessionName p) ++
        opt_field "persistent" (if op_persistent p then Some (JBool true) else None))) = Some (fr_open id p)).
    rewrite (isUuid_ok id Hid). destruct p as [user c r name persistent]. simpl in Hd, Hn.
    cbn [op_user op_cols op_rows op_sessionName op_persistent mbind option_bind].
    unfold parseOpenPayload. rewrite (parseDimensions_ok _ c r); [|done..].
    destruct name as [s|], persistent; simpl in Hn |- *; rewrite ?Hn; done.
  - apply andb_prop in Hok as [Hid Hs].
    change ((x ← isUuid (Some (JStr id)); (λ p, fr_close x p.1 p.2) <$> parseClosePayload
      (("streamId", JStr streamId) :: opt_field "destroy" (if destroy then Some (JBool true) else None))) = Some (fr_close id streamId destroy)).
    rewrite (isUuid_ok id Hid). unfold parseClosePayload. destruct destroy; simpl; by rewrite (isUuid_ok _ Hs).
  - apply andb_prop in Hok as [Hid Hs].
    change ((x ← isUuid (Some (JStr id)); (λ p, fr_destroy x p.1 p.2) <$> parseDestroyPayload
      [("user", JStr user); ("sessionName", JStr name)]) = Some (fr_destroy id user name)).
    rewrite (isUuid_ok id Hid). unfold parseDestroyPayload. simpl. by rewrite Hs.
  - apply andb_prop in Hok as [Hid Hs].
    change ((x ← isUuid (Some (JStr streamId)); fr_input x <$> terminal_data [("data", JStr data)]) = Some (fr_input streamId data)).
    rewrite (isUuid_ok _ Hid), terminal_data_ok by done. done.
  - apply andb_prop in Hok as [Hid Hs].
    change ((x ← isUuid (Some (JStr streamId)); (λ d, fr_resize x d.1 d.2) <$> parseDimensions [("cols", JNum cols); ("rows", JNum rows)])
      = Some (fr_resize streamId cols rows)).
    rewrite (isUuid_ok _ Hid), (parseDimensions_ok _ cols rows) by done. done.
Qed.

Lemma parse_error_json e : error_ok e = true → parseProtocolError (Some (error_json e)) = Some e.
Proof.
  destruct e as [status code message retryable details]. intros [Hs Hc]%andb_prop. unfold parseProtocolError, error_json.
  cbn [pe_status pe_code pe_message pe_retryable pe_details] in *.
  destruct details as [d|]; simpl; rewrite (integer_ok _ Hs); simpl; by rewrite (isErrorCode_ok _ Hc).
Qed.

Lemma parse_event_json e : event_ok e = true →
  match (event_json e).2 with JObj payload => parseEvent (Some (JStr (event_json e).1)) payload = Some e | _ => False end.
Proof.
  destruct e as [data|exitCode signal recoverable|code message retryable]; cbn [event_ok event_json snd fst]; intros Hok.
  - change (ev_output <$> terminal_data [("data", JStr data)] = Some (ev_output data)). by rewrite terminal_data_ok.
  - apply andb_prop in Hok as [He Hs]. unfold parseEvent.
    destruct signal as [s|]; simpl in Hs |- *; rewrite (integer_ok _ He); simpl; [by rewrite (integer_ok _ Hs)|done].
  - unfold parseEvent. simpl. by rewrite (isErrorCode_ok _ Hok).
Qed.

(** A frame of the daemon that is valid is understood as it was meant. *)
Theorem server_roundtrip f : server_ok f = true → wf_json (server_json f) = true →
  parseTermuxServerFrame (JSON_stringify (server_json f)) = Some f.
Proof.
  intros Hok Hwf. unfold parseTermuxServerFrame, parseRecord. rewrite JSON_roundtrip by done. clear Hwf.
  destruct f as [[id result|id error]|streamId e]; cbn [server_ok] in Hok.
  - simpl. unfold parseResponse. simpl. by rewrite (isUuid_ok id Hok).
  - apply andb_prop in Hok as [Hid He].
    change (fr_response <$> (x ← isUuid (Some (JStr id)); resp_error x <$> parseProtocolError (Some (error_json error)))
      = Some (fr_response (resp_error id error))). by rewrite (isUuid_ok id Hid), parse_error_json.
  - apply andb_prop in Hok as [Hid He]. pose proof (parse_event_json e He) as Hp.
    destruct (event_json e).2 as [| | | | |payload] eqn:E; try done. unfold server_json. rewrite E.
    change ((x ← isUuid (Some (JStr streamId)); fr_event x <$> parseEvent (Some (JStr (event_json e).1)) payload)
      = Some (fr_event streamId e)). by rewrite (isUuid_ok streamId Hid), Hp.
Qed.

(** *** Soundness *)
Lemma parseOpenPayload_Some v p : parseOpenPayload v = Some p →
  dimensions_ok (op_cols p) (op_rows p) = true ∧ from_option isSessionName true (op_sessionName p) = true.
Proof.
  unfold parseOpenPayload. intros H. repeat opt_step H. injection H as <-. simpl.
  match goal with Hd : parseDimensions _ = Some _ |- _ => apply parseDimensions_Some in Hd; split; [done|] end.
  destruct x1 as [s|]; [|done]. simpl.
  destruct (prop v "sessionName") as [[| | |t| |]|]; try done; simpl in Hx1; destruct (isSessionName t) eqn:E; by simplify_eq.
Qed.

Lemma parseEvent_Some ev payload e : parseEvent ev payload = Some e → event_ok e = true.
Proof.
  unfold parseEvent. destruct (is_str ev "terminal.output").
  { intros (s & Hs & ->)%fmap_Some. by apply terminal_data_Some in Hs. }
  destruct (is_str ev "terminal.exit"); [|destruct (is_str ev "terminal.error"); [|done]]; intros H; repeat opt_step H; injection H as <-.
  - simpl. apply integer_Some in Hx as [_ ->]. simpl. destruct x0 as [s|]; [|done]. simpl.
    destruct (prop payload "signal") as [y|]; [|done]. apply fmap_Some in Hx0 as (t & Ht & [= ->]). by apply integer_Some in Ht as [_ ->].
  - simpl. by eapply isErrorCode_Some.
Qed.

(** Whatever arrives, an accepted frame has valid ids, sizes, names, codes and
    data: the types the parsers declare. *)
Theorem termux_parsers_sound raw :
  (∀ f, parseTermuxClientFrame raw = Some f → client_ok f = true) ∧
  (∀ f, parseTermuxServerFrame raw = Some f → server_ok f = true).
Proof.
  split; intros f.
  - unfold parseTermuxClientFrame. intros H. do 2 opt_step H. cbv zeta in H. opt_step H. apply isUuid_Some in Hx0.
    destruct (is_str (prop x "kind") "request"); [|destruct (is_str _ "command"); [|done]]; do 3 opt_step H.
    + case_bool_decide; [|case_bool_decide; [|case_bool_decide; [|done]]]; apply fmap_Some in H as (p & Hp & ->); simpl; rewrite Hx0.
      * by apply parseOpenPayload_Some in Hp as [-> ->].
      * unfold parseClosePayload in Hp. repeat opt_step Hp. injection Hp as <-. simpl. by eapply isUuid_Some.
      * unfold parseDestroyPayload in Hp. repeat opt_step Hp. injection Hp as <-. done.
    + case_bool_decide; [|destruct (_ && _); [|done]]; apply fmap_Some in H as (p & Hp & ->); simpl; rewrite Hx0.
      * by apply terminal_data_Some in Hp.
      * by apply parseDimensions_Some in Hp.
  - unfold parseTermuxServerFrame. intros H. do 2 opt_step H. destruct (is_str _ "response").
    + apply fmap_Some in H as (r & Hr & ->). unfold parseResponse in Hr. do 2 opt_step Hr. apply isUuid_Some in Hx0.
      destruct x1; opt_step Hr; apply fmap_Some in Hr as (y & Hy & ->); simpl; rewrite Hx0; [done|]. simpl.
      unfold parseProtocolError in Hy. repeat opt_step Hy. injection Hy as <-. unfold error_ok. simpl.
      match goal with Hi : integer _ = Some _ |- _ => apply integer_Some in Hi as [_ ->] end. simpl. by eapply isErrorCode_Some.
    + repeat opt_step H. apply fmap_Some in H as (e & He & ->). simpl.
      match goal with Hu : isUuid _ = Some _ |- _ => apply isUuid_Some in Hu; rewrite Hu end. by apply parseEvent_Some in He.
Qed.
