(* ===== verification/TermuxClient.v ===== *)
(** * The client of the terminal daemon

    apps/api/src/lib/termux-client.ts: the connection with its first response,
    and the terminal that reads events and writes commands.  A socket is the
    sequence of its text chunks and events; what the terminal does to its
    socket and its listeners is logged.  Node's [StringDecoder] is a parameter,
    since the strings of this model hold code units below 256 only. *)
From Stdlib Require Import Ascii QArith.
From S2P Require Import Prelude Sql Json JsString JsonText Base64 TermuxProtocol.
Open Scope Z_scope.

(** ** Lines

    Both ends of a connection read with the same loop: while there is a line
    feed, what stands before it is handled, until a handler returns. *)
Definition strip_return (s : string) : string :=
  if endsWith_char "013" s then take_str (String.length s - 1) s else s.
Section EachLine.
Context {S : Type} (handle : string → S → S * bool).
Fixpoint each_line (fuel : nat) (buffer : string) (s : S) : string * S * bool :=
  match fuel with
  | O => (buffer, s, false)
  | Datatypes.S fuel =>
      match indexOf (String line_feed "") buffer with
      | None => (buffer, s, false)
      | Some newlineIndex =>
          let frame := strip_return (take_str newlineIndex buffer) in
          let buffer := drop_str (newlineIndex + 1) buffer in
          let '(s, stop) := handle frame s in
          if stop : bool then (buffer, s, true) else each_line fuel buffer s
      end
  end.
End EachLine.
Definition too_large (buffer : string) : bool :=
  bool_decide (TERMUX_MAX_FRAME_BYTES < byteLength buffer) && negb (has_char line_feed buffer).

(** ** Waiting for the response: [waitForResponseWithPending] *)
Record handshake := Handshake {
  hs_buffer : string;
  hs_response : option TermuxResponse;
  hs_pending : list TermuxServerFrame;
  hs_outcome : option (exn + TermuxResponse * list TermuxServerFrame * string)
}.
#[export] Instance handshake_eta : Eta handshake := λ h,
  Handshake (hs_buffer h) (hs_response h) (hs_pending h) (hs_outcome h).
Definition handshake_fail (e : exn) (h : handshake) : handshake :=
  match hs_outcome h with Some _ => h | None => h <| hs_outcome := Some (inl e) |> end.
Definition matches (requestId : string) (r : TermuxResponse) : bool :=
  match r with resp_ok id _ | resp_error id _ => bool_decide (id = requestId) end.
Definition handshake_line (requestId raw : string) (h : handshake) : handshake * bool :=
  match parseTermuxServerFrame raw with
  | None => (handshake_fail (Error "Invalid Termux response") h, true)
  | Some frame =>
      match hs_response h with
      | Some _ => (h <| hs_pending := hs_pending h ++ [frame] |>, false)
      | None =>
          match frame with
          | fr_response r =>
              if matches requestId r then (h <| hs_response := Some r |>, false)
              else (handshake_fail (Error "Termux sent a frame before the matching response") h, true)
          | fr_event _ _ => (handshake_fail (Error "Termux sent a frame before the matching response") h, true)
          end
      end
  end.
Definition handshake_data (requestId chunk : string) (h : handshake) : handshake :=
  if isSome (hs_outcome h) then h else
  let buffer := hs_buffer h +:+ chunk in
  if too_large buffer then handshake_fail (Error "Termux frame is too large") h else
  let '(buffer, h, stop) := each_line (handshake_line requestId) (S (String.length buffer)) buffer h in
  let h := h <| hs_buffer := buffer |> in
  if stop : bool then h else
  match hs_response h with
  | Some r => h <| hs_outcome := Some (inr (r, hs_pending h, buffer)) |>
  | None => h
  end.

(** ** The terminal: [TermuxTerminalPty]

    Listeners are numbers, each one function; the working directory and the
    shell are those of the [TermuxOpenResult]. *)
Record exit_event := ExitEvent { xe_exitCode : number; xe_signal : option number; xe_recoverable : bool }.
Inductive pty_effect :=
| pf_data (listener : nat) (data : string)
| pf_exit (listener : nat) (e : exit_event)
| pf_sent (frame : TermuxClientFrame)
| pf_ended
| pf_destroyed.

Section Pty.
Context {decoder : Type} (decoder_new : decoder).
Context (decoder_write : decoder → buffer → string * decoder) (decoder_end : decoder → string * decoder).

Record pty := Pty {
  pt_streamId : string;
  pt_frameBuffer : string;
  pt_pendingData : list string;
  pt_exitEvent : option exit_event;
  pt_exited : bool;
  pt_closed : bool;
  pt_decoder : decoder;
  pt_dataListeners : list nat;
  pt_exitListeners : list nat;
  pt_destroyed : bool;
  pt_log : list pty_effect
}.
#[local] Instance pty_eta : Eta pty := λ p,
  Pty (pt_streamId p) (pt_frameBuffer p) (pt_pendingData p) (pt_exitEvent p) (pt_exited p) (pt_closed p) (pt_decoder p)
    (pt_dataListeners p) (pt_exitListeners p) (pt_destroyed p) (pt_log p).

Definition emit (es : list pty_effect) (p : pty) : pty := p <| pt_log := pt_log p ++ es |>.

Definition finish (exitCode : number) (signal : option number) (recoverable : bool) (p : pty) : pty :=
  if pt_exited p then p else
  let e := ExitEvent exitCode signal recoverable in
  emit ((λ l, pf_exit l e) <$> pt_exitListeners p)
    (p <| pt_exited := true |> <| pt_closed := true |> <| pt_exitEvent := Some e |>).
Definition fail (recoverable : bool) (p : pty) : pty :=
  if pt_closed p then p else
  finish (lit (-1)) None recoverable (emit [pf_destroyed] (p <| pt_closed := true |> <| pt_destroyed := true |>)).

Definition deliver (data : string) (p : pty) : pty :=
  if bool_decide (data = "") then p
  else match pt_dataListeners p with
       | [] => p <| pt_pendingData := pt_pendingData p ++ [data] |>
       | ls => emit ((λ l, pf_data l data) <$> ls) p
       end.
Definition flushDecoder (p : pty) : pty :=
  let '(data, d) := decoder_end (pt_decoder p) in deliver data (p <| pt_decoder := d |>).
Definition handleEvent (e : TermuxEvent) (p : pty) : pty :=
  match e with
  | ev_output data =>
      match decodeTermuxData data with
      | None => fail true p
      | Some bytes => let '(data, d) := decoder_write (pt_decoder p) bytes in deliver data (p <| pt_decoder := d |>)
      end
  | ev_exit exitCode signal recoverable => finish exitCode signal recoverable (flushDecoder p)
  | ev_error _ _ retryable => fail retryable p
  end.
Definition handleFrame (f : TermuxServerFrame) (p : pty) : pty :=
  match f with
  | fr_response _ => fail true p
  | fr_event streamId e => if negb (bool_decide (streamId = pt_streamId p)) then fail true p else handleEvent e p
  end.

Definition pty_line (frame : string) (p : pty) : pty * bool :=
  if bool_decide (TERMUX_MAX_FRAME_BYTES < byteLength frame) then (fail true p, true)
  else match parseTermuxServerFrame frame with
       | None => (fail true p, true)
       | Some f => (handleFrame f p, false)
       end.
Definition receive (chunk : string) (p : pty) : pty :=
  if pt_closed p then p else
  let buffer := pt_frameBuffer p +:+ chunk in
  if too_large buffer then fail true (p <| pt_frameBuffer := buffer |>) else
  let '(buffer, p, _) := each_line pty_line (S (String.length buffer)) buffer p in
  p <| pt_frameBuffer := buffer |>.

(** The constructor: the frames that came with the response are handled. *)
Definition new_pty (streamId initialBuffer : string) (initialFrames : list TermuxServerFrame) : pty :=
  foldl (λ p f, handleFrame f p) (Pty streamId initialBuffer [] None false false decoder_new [] [] false []) initialFrames.

Definition onData (listener : nat) (p : pty) : pty :=
  emit (pf_data listener <$> pt_pendingData p)
    (p <| pt_dataListeners := pt_dataListeners p ++ [listener] |> <| pt_pendingData := [] |>).
Definition onExit (listener : nat) (p : pty) : pty :=
  match pt_exitEvent p with
  | Some e => emit [pf_exit listener e] p
  | None => p <| pt_exitListeners := pt_exitListeners p ++ [listener] |>
  end.
Definition dispose (listener : nat) (p : pty) : pty :=
  p <| pt_dataListeners := List.filter (λ l, negb (bool_decide (l = listener))) (pt_dataListeners p) |>
    <| pt_exitListeners := List.filter (λ l, negb (bool_decide (l = listener))) (pt_exitListeners p) |>.

Definition send (frame : TermuxClientFrame) (p : pty) : pty :=
  if negb (pt_closed p) && negb (pt_destroyed p) then emit [pf_sent frame] p else p.
(** The pieces of at most [size] bytes. *)
Definition pieces (size : nat) (bytes : buffer) : list buffer :=
  (λ k, take size (drop (k * size) bytes)) <$> seq 0 ((length bytes + (size - 1)) / size).
Definition write (data : string) (p : pty) : pty :=
  foldl (λ p piece, send (fr_input (pt_streamId p) (encodeTermuxData piece)) p) p 
    (pieces (Z.to_nat TERMUX_MAX_INPUT_BYTES) (utf8_bytes data)).
Definition resize (columns rows : Z) (p : pty) : pty := send (fr_resize (pt_streamId p) (lit columns) (lit rows)) p.
Definition close (uuid : string) (destroy : bool) (p : pty) : pty :=
  if pt_closed p then p else
  emit [pf_ended] (send (fr_close uuid (pt_streamId p) destroy) p <| pt_closed := true |> <| pt_exited := true |>).
Definition kill (uuid : string) : pty → pty := close uuid true.
Definition disconnect (uuid : string) : pty → pty := close uuid false.
(** The socket failed or was closed. *)
Definition socket_gone (p : pty) : pty := finish (lit (-1)) None true (p <| pt_destroyed := true |>).

(** ** A connection: [connect], from the request that was written on *)
Inductive connection := co_waiting (h : handshake) | co_failed (e : exn) | co_ready (p : pty).
Definition open_payload (user : string) (cols rows : Z) (sessionName : option string) (persistent : bool) : TermuxOpenPayload :=
  OpenPayload user (lit cols) (lit rows)
    (match sessionName with Some s => if bool_decide (s = "") then None else Some s | None => None end) persistent.
Definition opened (user : string) (o : exn + TermuxResponse * list TermuxServerFrame * string) : connection :=
  match o with
  | inl e => co_failed e
  | inr (resp_error _ error, _, _) => co_failed (Error (pe_message error))
  | inr (resp_ok _ result, frames, buffer) =>
      match parseTermuxOpenResult result with
      | Some ready => if bool_decide (or_user ready = user) then co_ready (new_pty (or_streamId ready) buffer frames)
                      else co_failed (Error "Termux returned an invalid session.open result")
      | None => co_failed (Error "Termux returned an invalid session.open result")
      end
  end.

Inductive connection_event :=
| ce_data (chunk : string)
| ce_listen (listener : nat)
| ce_listen_exit (listener : nat)
| ce_dispose (listener : nat)
| ce_write (data : string)
| ce_resize (columns rows : Z)
| ce_close (uuid : string) (destroy : bool)
| ce_gone (e : exn)
| ce_timeout.
Definition handshake_event (requestId action : string) (e : connection_event) (h : handshake) : handshake :=
  match e with
  | ce_data chunk => handshake_data requestId chunk h
  | ce_gone e => handshake_fail e h
  | ce_timeout => handshake_fail (Error ("Timed out " +:+ action)) h
  | _ => h
  end.
Definition step_waiting (requestId user : string) (e : connection_event) (h : handshake) : connection :=
  let h := handshake_event requestId "connecting to Termux" e h in
  match hs_outcome h with Some o => opened user o | None => co_waiting h end.
Definition pty_event (e : connection_event) (p : pty) : pty :=
  match e with
  | ce_data chunk => receive chunk p
  | ce_listen l => onData l p
  | ce_listen_exit l => onExit l p
  | ce_dispose l => dispose l p
  | ce_write data => write data p
  | ce_resize columns rows => resize columns rows p
  | ce_close uuid destroy => close uuid destroy p
  | ce_gone _ => socket_gone p
  | ce_timeout => p
  end.
Definition connection_step (requestId user : string) (c : connection) (e : connection_event) : connection :=
  match c with
  | co_waiting h => step_waiting requestId user e h
  | co_failed _ => c
  | co_ready p => co_ready (pty_event e p)
  end.
Definition connecting : connection := co_waiting (Handshake "" None [] None).

(** [createTerminalRuntime]: the user of the configuration, and the exchange
    that destroys a session; [None] while no answer has come. *)
Definition configured_user (user : option string) : exn + string :=
  match user with
  | Some user => if bool_decide (user = "") then inl (Error "Terminal user is not configured") else inr user
  | None => inl (Error "Terminal user is not configured")
  end.
Definition destroy_result (sessionName : string) (o : exn + TermuxResponse * list TermuxServerFrame * string) : exn + unit :=
  match o with
  | inl e => inl e
  | inr (resp_error _ error, _, _) => inl (Error (pe_message error))
  | inr (resp_ok _ result, _, _) =>
      if is_str (prop result "sessionName") sessionName then inr tt
      else inl (Error "Termux returned an unexpected destroy response")
  end.
Definition destroySession (user : option string) (requestId sessionName : string) (events : list connection_event) : option (exn + unit) :=
  match configured_user user with
  | inl e => Some (inl e)
  | inr _ => destroy_result sessionName <$>
               hs_outcome (foldl (λ h e, handshake_event requestId "destroying terminal session" e h) (Handshake "" None [] None) events)
  end.

(** ** Lines: how a text is cut into chunks does not matter *)
Fixpoint lines_text (ls : list string) (r : string) : string :=
  match ls with [] => r | l :: ls => l +:+ String line_feed (lines_text ls r) end.
(** A line of JSON: no line feed, no trailing return, not too large. *)
Definition good_line (l : string) : Prop :=
  no_char line_feed l ∧ strip_return l = l ∧ byteLength l ≤ TERMUX_MAX_FRAME_BYTES.

Lemma strip_printable s : all_chars printable s = true → strip_return s = s.
Proof.
  intros H. unfold strip_return, endsWith_char. rewrite bool_decide_false; [done|]. intros E.
  assert (∀ s c, all_chars printable s = true → last_char s = Some c → printable c = true) as Hl.
  { clear. induction s as [|x s IH]; [done|]. intros c. simpl. intros [Hx Hs]%andb_prop. destruct s as [|y s]; [by intros [= <-]|]. by apply IH. }
  by apply (Hl s "013"%char H) in E.
Qed.

Lemma drop_line l s : drop_str (String.length l + 1) (l +:+ String line_feed s) = s.
Proof. induction l as [|c l IH]; simpl; [by destruct s|done]. Qed.

Lemma lines_text_length ls r : (length ls ≤ String.length (lines_text ls r))%nat.
Proof. induction ls as [|l ls IH]; simpl; [lia|]. rewrite length_append. simpl. lia. Qed.

(** The loop handles the lines in order, up to a handler that returns. *)
Lemma each_line_all {S} (handle : string → S → S * bool) (step : string → S → S) ls r fuel s :
  Forall (λ l, no_char line_feed l ∧ strip_return l = l) ls → no_char line_feed r → (length ls < fuel)%nat →
  (∀ pre l post s', ls = pre ++ l :: post → s' = foldl (λ s l, step l s) s pre → handle l s' = (step l s', false)) →
  each_line handle fuel (lines_text ls r) s = (r, foldl (λ s l, step l s) s ls, false).
Proof.
  revert fuel s. induction ls as [|l ls IH]; intros [|fuel] s Hls Hr Hf Hh; simpl in Hf; try lia.
  - simpl. by rewrite indexOf_char_none.
  - inversion Hls as [|? ? [Hl Hs] Hls']; subst. simpl. rewrite indexOf_char by done.
    rewrite take_str_app, Hs, drop_line. rewrite (Hh [] l ls s eq_refl eq_refl). apply IH; [done|done|lia|].
    intros pre l' post s' -> ->. by apply (Hh (l :: pre) l' post).
Qed.

Lemma byteLength_prefix a b : byteLength a ≤ byteLength (a +:+ b).
Proof. rewrite byteLength_app. pose proof (byteLength_nonneg b). lia. Qed.

(** A first part of some lines: whole lines, and a part of the next. *)
Lemma cut_lines a q ts : Forall good_line ts → a +:+ q = lines_text ts "" →
  ∃ us vs r, ts = us ++ vs ∧ a = lines_text us r ∧ no_char line_feed r ∧ r +:+ q = lines_text vs "" ∧
    byteLength r ≤ TERMUX_MAX_FRAME_BYTES.
Proof.
  intros Hts. revert a. induction Hts as [|t ts (Ht & _ & Hb) _ IH]; intros a E; simpl in E.
  - exists [], [], "". by destruct a.
  - assert (no_char line_feed a ∧ byteLength a ≤ TERMUX_MAX_FRAME_BYTES ∨
      ∃ a', a = t +:+ String line_feed a' ∧ a' +:+ q = lines_text ts "") as [[Ha Hl]|(a' & -> & E')].
    { clear IH. revert t Ht Hb E. induction a as [|x a IHa]; intros t Ht Hb E; [left; split; [done|by vm_compute]|].
      destruct t as [|y t]; simpl in E; injection E as -> E.
      - right. by exists a.
      - apply no_char_String in Ht as [Hy Ht]. simpl in Hb. destruct (IHa t Ht) as [[Hn Hl]|(a' & -> & E')]; [|done|..].
        + destruct (code y <? 128)%nat; lia.
        + left. split; [by apply no_char_String|].
          assert (∃ z, t = a +:+ z) as [z ->]; [|simpl; rewrite byteLength_app in Hb; pose proof (byteLength_nonneg z); lia].
          clear -E Hn. revert t E. induction a as [|x a IH]; intros t E; [by exists t|].
          apply no_char_String in Hn as [Hx Hn]. destruct t as [|y t]; simpl in E; injection E as -> E; [done|].
          destruct (IH Hn t E) as [z ->]. by exists z.
        + right. by exists a'. }
    + exists [], (t :: ts), a. done.
    + destruct (IH a' E') as (us & vs & r & -> & -> & H). by exists (t :: us), vs, r.
Qed.

(** ** What the terminal does with the events of its stream *)
Definition frame_line (streamId : string) (e : TermuxEvent) : string := JSON_stringify (server_json (fr_event streamId e)).
(** Frames of the daemon that end, if at all, with an exit. *)
Fixpoint stream_of (es : list TermuxEvent) : bool :=
  match es with
  | [] => true
  | ev_output data :: es => isSome (decodeTermuxData data) && stream_of es
  | [ev_exit exitCode signal _] => isInteger exitCode && from_option isInteger true signal
  | _ => false
  end.
(** The text they carry, and the exit they announce. *)
Fixpoint stream_text (d : decoder) (es : list TermuxEvent) : string :=
  match es with
  | ev_output data :: es =>
      match decodeTermuxData data with
      | Some bytes => let '(s, d) := decoder_write d bytes in s +:+ stream_text d es
      | None => ""
      end
  | ev_exit _ _ _ :: _ => (decoder_end d).1
  | _ => ""
  end.
Fixpoint stream_exit (es : list TermuxEvent) : option exit_event :=
  match es with
  | ev_output _ :: es => stream_exit es
  | ev_exit exitCode signal recoverable :: _ => Some (ExitEvent exitCode signal recoverable)
  | _ => None
  end.

Definition concat_text (l : list string) : string := foldr String.append "" l.
Definition heard (listener : nat) (log : list pty_effect) : string :=
  concat_text (omap (λ e, match e with pf_data l data => if bool_decide (l = listener) then Some data else None | _ => None end) log).
(** What the listener was told, and what waits for it. *)
Definition shown (listener : nat) (p : pty) : string := heard listener (pt_log p) +:+ concat_text (pt_pendingData p).

Lemma concat_text_app a b : concat_text (a ++ b) = concat_text a +:+ concat_text b.
Proof. induction a as [|x a IH]; simpl; [done|]. by rewrite IH, string_app_assoc. Qed.
Lemma heard_app l a b : heard l (a ++ b) = heard l a +:+ heard l b.
Proof. unfold heard. by rewrite omap_app, concat_text_app. Qed.

Lemma heard_pending l xs : heard l (pf_data l <$> xs) = concat_text xs.
Proof.
  unfold heard. induction xs as [|x xs IH]; simpl; [done|]. by rewrite bool_decide_true, <-IH by done.
Qed.

(** Nothing waits while somebody listens; only [l] listens. *)
Record sound_pty (l : nat) (streamId : string) (es : list TermuxEvent) (p : pty) : Prop := SoundPty {
  sp_streamId : pt_streamId p = streamId;
  sp_destroyed : pt_destroyed p = false;
  sp_listeners : pt_dataListeners p = [] ∨ (pt_dataListeners p = [l] ∧ pt_pendingData p = []);
  sp_open : match pt_exitEvent p with
            | None => pt_closed p = false ∧ pt_exited p = false
            | Some _ => es = []
            end
}.
(** The text and the exit that the listener of [p] gets in the end. *)
Definition all_text (l : nat) (es : list TermuxEvent) (p : pty) : string := shown l p +:+ stream_text (pt_decoder p) es.
Definition final_exit (es : list TermuxEvent) (p : pty) : option exit_event :=
  match pt_exitEvent p with Some e => Some e | None => stream_exit es end.

Lemma deliver_sound l sid es data p : sound_pty l sid es p → pt_exitEvent p = None →
  sound_pty l sid es (deliver data p) ∧ shown l (deliver data p) = shown l p +:+ data ∧
  pt_decoder (deliver data p) = pt_decoder p ∧ pt_exitEvent (deliver data p) = None ∧ pt_exited (deliver data p) = pt_exited p.
Proof.
  intros [H1 H2 H3 H4] He. unfold deliver. case_bool_decide as E; [by subst; rewrite string_app_nil_r|].
  destruct H3 as [H3|[H3 H5]]; rewrite H3; simpl.
  - split; [by split; try done; left|]. split; [|done]. unfold shown. simpl.
    by rewrite concat_text_app, string_app_assoc; simpl; rewrite string_app_nil_r.
  - split; [by split; try done; right|]. split; [|done]. unfold shown, emit. simpl. rewrite heard_app, H5. unfold heard at 2. simpl.
    rewrite bool_decide_true by done. simpl. by rewrite !string_app_nil_r.
Qed.

Lemma handleEvent_sound l sid e es p : sound_pty l sid (e :: es) p → stream_of (e :: es) = true →
  sound_pty l sid es (handleEvent e p) ∧ stream_of es = true ∧
  all_text l es (handleEvent e p) = all_text l (e :: es) p ∧
  final_exit es (handleEvent e p) = final_exit (e :: es) p.
Proof.
  intros Hp Hes. assert (pt_exitEvent p = None) as He by (pose proof (sp_open _ _ _ _ Hp); by destruct (pt_exitEvent p)).
  destruct e as [data|exitCode signal recoverable|]; cbn [stream_of handleEvent] in *; [| |done].
  - apply andb_prop in Hes as [Hd Hes]. unfold all_text, final_exit. cbn [stream_text stream_exit].
    destruct (decodeTermuxData data) as [bytes|]; [|done]. destruct (decoder_write (pt_decoder p) bytes) as [s d] eqn:Ed.
    assert (sound_pty l sid es (p <| pt_decoder := d |>)) as Hp' by (destruct Hp as [H1 H2 H3 H4]; split; try done; simpl; by rewrite He in *).
    destruct (deliver_sound l sid es s _ Hp' He) as (Hs & Ht & Hdec & Hx & _).
    split; [done|]. split; [done|]. rewrite Ht, Hdec, Hx, He. split; [|done]. simpl. by rewrite string_app_assoc.
  - destruct es; [|done]. unfold flushDecoder. destruct (decoder_end (pt_decoder p)) as [s d] eqn:Ed.
    assert (sound_pty l sid [] (p <| pt_decoder := d |>)) as Hp' by (destruct Hp as [H1 H2 H3 H4]; split; try done; simpl; by rewrite He in *).
    destruct (deliver_sound l sid [] s _ Hp' He) as ([H1 H2 H3 H4] & Ht & Hdec & Hx & Hxd).
    rewrite Hx in H4. destruct H4 as [Hc Hex]. unfold finish. rewrite Hex.
    split; [by split|]. split; [done|]. unfold all_text, final_exit. cbn [stream_text stream_exit]. rewrite He, Ed. simpl.
    split; [|done]. rewrite string_app_nil_r. change (shown l (p <| pt_decoder := d |>)) with (shown l p) in Ht. rewrite <-Ht.
    unfold shown. simpl. rewrite heard_app. f_equal.
    assert (∀ ls e, heard l ((λ l, pf_exit l e) <$> ls) = "") as -> by (intros ls e; by induction ls).
    by rewrite string_app_nil_r.
Qed.

Lemma onData_sound l sid es p : sound_pty l sid es p → pt_dataListeners p = [] →
  sound_pty l sid es (onData l p) ∧ all_text l es (onData l p) = all_text l es p ∧ final_exit es (onData l p) = final_exit es p.
Proof.
  intros [H1 H2 H3 H4] Hl. split; [|split; [|done]].
  - split; try done. right. simpl. by rewrite Hl.
  - unfold all_text, shown, onData. simpl. rewrite heard_app. f_equal. rewrite string_app_assoc. f_equal.
    rewrite string_app_nil_r, heard_pending. done.
Qed.

(** ** Reading a stream *)
Definition carried (streamId : string) (es : list TermuxEvent) : Prop :=
  stream_of es = true ∧ is_uuid streamId = true ∧
  Forall (λ e, wf_json (server_json (fr_event streamId e)) = true ∧ byteLength (frame_line streamId e) ≤ TERMUX_MAX_FRAME_BYTES) es.

Lemma stream_of_tail e es : stream_of (e :: es) = true → event_ok e = true ∧ stream_of es = true.
Proof. destruct e as [data|c s r|]; simpl; [by intros [-> ->]%andb_prop| |done]. destruct es; [|done]. by intros ->. Qed.

Lemma carried_tail sid e es : carried sid (e :: es) → carried sid es ∧ good_line (frame_line sid e) ∧
  parseTermuxServerFrame (frame_line sid e) = Some (fr_event sid e).
Proof.
  intros ([He Hes]%stream_of_tail & Hs & [[Hwf Hl] Hf]%Forall_cons). split; [done|]. split.
  - split; [by apply stringify_no_newline|]. split; [|done]. by apply strip_printable, stringify_printable.
  - apply server_roundtrip; [|done]. simpl. by rewrite Hs.
Qed.

Lemma carried_good sid es : carried sid es → Forall good_line (frame_line sid <$> es).
Proof. induction es as [|e es IH]; [by left|]. intros (H & Hg & _)%carried_tail. right; [done|]. by apply IH. Qed.

Lemma carried_app sid us vs : carried sid (us ++ vs) → carried sid vs.
Proof. induction us as [|e us IH]; [done|]. intros (H & _)%carried_tail. by apply IH. Qed.

Lemma handleFrame_buffer f p : pt_frameBuffer (handleFrame f p) = pt_frameBuffer p.
Proof.
  assert (∀ r p, pt_frameBuffer (fail r p) = pt_frameBuffer p) as Hf.
  { intros r q. unfold fail, finish. simpl. destruct (pt_closed q); [done|]. simpl. by destruct (pt_exited q). }
  assert (∀ s p, pt_frameBuffer (deliver s p) = pt_frameBuffer p) as Hd.
  { intros s q. unfold deliver. case_bool_decide; [done|]. by destruct (pt_dataListeners q). }
  destruct f as [r|sid e]; simpl; [apply Hf|]. destruct (negb _); [apply Hf|].
  destruct e as [data|c s r|c m r]; simpl; [| |apply Hf].
  - destruct (decodeTermuxData data) as [b|]; [|apply Hf]. destruct (decoder_write _ b) as [s d]. by rewrite Hd.
  - unfold finish, flushDecoder. destruct (decoder_end _) as [x d]. destruct (pt_exited _); simpl; by rewrite Hd.
Qed.
Lemma frames_buffer sid us p : pt_frameBuffer (foldl (λ p e, handleFrame (fr_event sid e) p) p us) = pt_frameBuffer p.
Proof. revert p. induction us as [|e us IH]; intros p; [done|]. cbn [foldl]. by rewrite IH, handleFrame_buffer. Qed.
Lemma foldl_fmap_l {A B C} (f : C → B → C) (g : A → B) l s : foldl f s (g <$> l) = foldl (λ s x, f s (g x)) s l.
Proof. revert s. induction l as [|x l IH]; intros s; [done|]. apply IH. Qed.

(** Several events, in the order they came. *)
Lemma handleFrames_sound l sid us vs p : sound_pty l sid (us ++ vs) p → carried sid (us ++ vs) →
  let p' := foldl (λ p e, handleFrame (fr_event sid e) p) p us in
  sound_pty l sid vs p' ∧ all_text l vs p' = all_text l (us ++ vs) p ∧ final_exit vs p' = final_exit (us ++ vs) p.
Proof.
  revert p. induction us as [|e us IH]; intros p Hp Hc; [done|]. cbn [foldl app].
  destruct (handleEvent_sound l sid e (us ++ vs) p Hp (proj1 Hc)) as (Hp' & _ & Ht & Hx).
  assert (handleFrame (fr_event sid e) p = handleEvent e p) as ->.
  { simpl. by rewrite (sp_streamId _ _ _ _ Hp), bool_decide_true. }
  apply carried_tail in Hc as [Hc _]. destruct (IH _ Hp' Hc) as (H1 & H2 & H3).
  split; [done|]. by rewrite H2, H3.
Qed.

Definition line_step (line : string) (p : pty) : pty :=
  match parseTermuxServerFrame line with Some f => handleFrame f p | None => p end.

Lemma line_steps sid us vs p : carried sid (us ++ vs) →
  foldl (λ p line, line_step line p) p (frame_line sid <$> us) = foldl (λ p e, handleFrame (fr_event sid e) p) p us.
Proof.
  revert p. induction us as [|e us IH]; intros p; [done|]. intros (H & _ & Hp)%carried_tail. simpl.
  unfold line_step at 2. rewrite Hp. by apply IH.
Qed.

Lemma set_buffer_sound l sid es b p : sound_pty l sid es p → sound_pty l sid es (p <| pt_frameBuffer := b |>).
Proof. by intros []. Qed.

(** [p] has read what comes before [rest] of a stream with [es] to come. *)
Definition reading (l : nat) (sid : string) (es : list TermuxEvent) (rest : string) (p : pty) : Prop :=
  sound_pty l sid es p ∧ carried sid es ∧ no_char line_feed (pt_frameBuffer p) ∧
  pt_frameBuffer p +:+ rest = lines_text (frame_line sid <$> es) "".

Lemma lines_fuel ls r a : a = lines_text ls r → (length ls < S (String.length a))%nat.
Proof. intros ->. pose proof (lines_text_length ls r). lia. Qed.

Lemma cut_small a us r : a = lines_text us r → no_char line_feed r → byteLength r ≤ TERMUX_MAX_FRAME_BYTES → too_large a = false.
Proof.
  intros -> Hr Hb. unfold too_large. destruct us as [|u us]; simpl.
  - by rewrite bool_decide_false by lia.
  - apply andb_false_iff. right. apply negb_false_iff. destruct (has_char line_feed _) eqn:E; [done|]. exfalso.
    apply no_char_all in E. rewrite all_chars_app in E. by apply andb_prop in E as [_ E].
Qed.

Lemma receive_reading l sid es chunk rest p : reading l sid es (chunk +:+ rest) p → ∃ vs, reading l sid vs rest (receive chunk p) ∧
  all_text l vs (receive chunk p) = all_text l es p ∧ final_exit vs (receive chunk p) = final_exit es p.
Proof.
  intros (Hp & Hc & Hb & E). unfold receive. destruct (pt_closed p) eqn:Ecl.
  { exists es. assert (es = []) as -> by (pose proof (sp_open _ _ _ _ Hp) as H; destruct (pt_exitEvent p); [done|destruct H; congruence]).
    simpl in E. destruct (pt_frameBuffer p) eqn:Ef, chunk; try done. split; [|done]. by rewrite <-Ef in Hb; split_and!; rewrite ?Ef. }
  rewrite <-string_app_assoc in E. destruct (cut_lines _ _ _ (carried_good _ _ Hc) E) as (us' & vs' & r & Hsplit & Ha & Hr & Erest & Hbr).
  apply fmap_app_inv in Hsplit as (us & vs & -> & -> & ->).
  rewrite (cut_small _ _ _ Ha Hr Hbr). pose proof (lines_fuel _ _ _ Ha) as Hfuel. rewrite Ha in *.
  rewrite (each_line_all pty_line line_step).
  - destruct (handleFrames_sound l sid us vs p Hp Hc) as (H1 & H2 & H3). rewrite (line_steps sid us vs p Hc). exists vs.
    split; [|done]. split; [by apply set_buffer_sound|]. split; [by eapply carried_app|]. done.
  - assert (Forall good_line (frame_line sid <$> us)) as Hg.
    { pose proof (carried_good _ _ Hc) as Hg. rewrite fmap_app in Hg. by apply Forall_app in Hg as [Hg _]. }
    eapply Forall_impl; [exact Hg|]. by intros ? (? & ? & _).
  - done.
  - done.
  - intros pre line post p' Hpre _. assert (∃ e, line = frame_line sid e ∧ good_line line ∧ parseTermuxServerFrame line = Some (fr_event sid e)) as (e & -> & Hg & Hparse).
    { clear -Hc Hpre. revert pre Hpre. induction us as [|e us IH]; intros [|x pre] Hpre; simpl in Hpre; try done; simplify_eq/=.
      - exists e. by apply carried_tail in Hc as (_ & Hg & Hx).
      - apply carried_tail in Hc as [Hc _]. by eapply IH. }
    unfold pty_line, line_step. rewrite bool_decide_false by (destruct Hg as (_ & _ & Hg); lia). by rewrite Hparse.
Qed.

(** ** From the request to the last event *)
Lemma each_line_keeps {S T} (handle : string → S → S * bool) (f : S → T) fuel buffer s :
  (∀ l s, f (handle l s).1 = f s) → f (each_line handle fuel buffer s).1.2 = f s.
Proof.
  intros H. revert buffer s. induction fuel as [|fuel IH]; intros buffer s; [done|]. simpl.
  destruct (indexOf _ buffer) as [i|]; [|done]. specialize (H (strip_return (take_str i buffer)) s).
  destruct (handle _ s) as [s' [|]]; simpl in H |- *; [done|]. by rewrite IH.
Qed.

Lemma fail_listeners r p : pt_dataListeners (fail r p) = pt_dataListeners p.
Proof. unfold fail, finish. simpl. destruct (pt_closed p); [done|]. simpl. by destruct (pt_exited p). Qed.
Lemma deliver_listeners s p : pt_dataListeners (deliver s p) = pt_dataListeners p.
Proof. unfold deliver. case_bool_decide; [done|]. destruct (pt_dataListeners p) eqn:E; simpl; by rewrite ?E. Qed.
Lemma finish_listeners c s r p : pt_dataListeners (finish c s r p) = pt_dataListeners p.
Proof. unfold finish. by destruct (pt_exited p). Qed.
Lemma handleFrame_listeners f p : pt_dataListeners (handleFrame f p) = pt_dataListeners p.
Proof.
  destruct f as [r|sid e]; simpl; [apply fail_listeners|]. destruct (negb _); [apply fail_listeners|].
  destruct e as [data|c s r|c m r]; simpl; [| |apply fail_listeners].
  - destruct (decodeTermuxData data) as [b|]; [|apply fail_listeners]. destruct (decoder_write _ b) as [s d]. by rewrite deliver_listeners.
  - rewrite finish_listeners. unfold flushDecoder. destruct (decoder_end _) as [x d]. by rewrite deliver_listeners.
Qed.
Lemma receive_listeners chunk p : pt_dataListeners (receive chunk p) = pt_dataListeners p.
Proof.
  unfold receive. destruct (pt_closed p); [done|]. destruct (too_large _); [by rewrite fail_listeners|].
  pose proof (each_line_keeps pty_line pt_dataListeners (S (String.length (pt_frameBuffer p +:+ chunk))) (pt_frameBuffer p +:+ chunk) p) as H.
  destruct (each_line _ _ _ p) as [[b p'] stop]. simpl in H |- *. apply H. intros l s. unfold pty_line.
  case_bool_decide; [apply fail_listeners|]. destruct (parseTermuxServerFrame l); [apply handleFrame_listeners|apply fail_listeners].
Qed.

Section Connection.
Context (requestId user : string) (result : list (string * json)) (ready : TermuxOpenResult) (events : list TermuxEvent).
Context (Hready : parseTermuxOpenResult result = Some ready) (Huser : or_user ready = user).
Notation response := (fr_response (resp_ok requestId result)).
Notation sid := (or_streamId ready).
Context (Hid : is_uuid requestId = true) (Hresponse : wf_json (server_json response) = true).
Context (Hsize : byteLength (JSON_stringify (server_json response)) ≤ TERMUX_MAX_FRAME_BYTES).
Context (Hevents : carried sid events).

Definition response_line : string := JSON_stringify (server_json response).
Lemma response_good : good_line response_line.
Proof.
  split; [by apply stringify_no_newline|]. split; [|exact Hsize]. by apply strip_printable, stringify_printable.
Qed.
Lemma response_parsed : parseTermuxServerFrame response_line = Some response.
Proof. by apply server_roundtrip. Qed.

Definition waiting_for_all (rest : string) (h : handshake) : Prop :=
  hs_response h = None ∧ hs_pending h = [] ∧ hs_outcome h = None ∧ no_char line_feed (hs_buffer h) ∧
  hs_buffer h +:+ rest = lines_text (response_line :: (frame_line sid <$> events)) "".

Definition progress (l : nat) (rest : string) (c : connection) : Prop :=
  match c with
  | co_waiting h => waiting_for_all rest h
  | co_failed _ => False
  | co_ready p => ∃ es, reading l sid es rest p ∧ all_text l es p = stream_text decoder_new events ∧
                        final_exit es p = stream_exit events
  end.

Definition keep_frame (line : string) (h : handshake) : handshake :=
  match parseTermuxServerFrame line with Some f => h <| hs_pending := hs_pending h ++ [f] |> | None => h end.
Lemma keep_frames us vs h : carried sid (us ++ vs) →
  foldl (λ h line, keep_frame line h) h (frame_line sid <$> us) = h <| hs_pending := hs_pending h ++ (fr_event sid <$> us) |>.
Proof.
  revert h. induction us as [|e us IH]; intros h; [intros _; destruct h; simpl; by rewrite app_nil_r|].
  intros (H & _ & Hp)%carried_tail. cbn [fmap list_fmap foldl]. rewrite IH by done. unfold keep_frame. rewrite Hp. simpl.
  by rewrite <-app_assoc.
Qed.

(** The chunk that completes the response, with what came behind it. *)
Lemma handshake_resolves us vs r h : carried sid (us ++ vs) → no_char line_feed r →
  hs_response h = None → hs_pending h = [] →
  each_line (handshake_line requestId) (S (String.length (lines_text (response_line :: (frame_line sid <$> us)) r)))
    (lines_text (response_line :: (frame_line sid <$> us)) r) h =
  (r, h <| hs_response := Some (resp_ok requestId result) |> <| hs_pending := fr_event sid <$> us |>, false).
Proof.
  intros Hc Hr H1 H2. destruct response_good as (Hn & Hs & _).
  cbn [lines_text each_line]. rewrite indexOf_char by done. rewrite take_str_app, Hs, drop_line.
  unfold handshake_line at 1. rewrite response_parsed, H1. cbn [matches]. rewrite bool_decide_true by done. cbn iota.
  rewrite (each_line_all _ keep_frame).
  - rewrite (keep_frames us vs) by done. simpl. by rewrite H2.
  - assert (Forall good_line (frame_line sid <$> us)) as Hg.
    { pose proof (carried_good _ _ Hc) as Hg. rewrite fmap_app in Hg. by apply Forall_app in Hg as [Hg _]. }
    eapply Forall_impl; [exact Hg|]. by intros ? (? & ? & _).
  - done.
  - pose proof (lines_text_length (frame_line sid <$> us) r). rewrite length_append. simpl. lia.
  - intros pre line post h' Hpre ->. assert (∃ e, parseTermuxServerFrame line = Some (fr_event sid e)) as (e & Hparse).
    { clear -Hc Hpre. revert pre Hpre. induction us as [|e us IH]; intros [|x pre] Hpre; simpl in Hpre; try done; simplify_eq/=.
      - exists e. by apply carried_tail in Hc as (_ & _ & Hx).
      - apply carried_tail in Hc as [Hc _]. by eapply IH. }
    unfold handshake_line. rewrite Hparse.
    assert (∀ ls h, hs_response (foldl (λ h line, keep_frame line h) h ls) = hs_response h) as ->.
    { clear. induction ls as [|x ls IH]; intros h; [done|]. simpl. rewrite IH. unfold keep_frame. by destruct (parseTermuxServerFrame x). }
    cbn. unfold keep_frame. by rewrite Hparse.
Qed.

Notation step := (connection_step requestId user).

Lemma data_progress l chunk rest c : progress l (chunk +:+ rest) c → progress l rest (step c (ce_data chunk)).
Proof.
  destruct c as [h|e|p]; [|done|].
  - intros (H1 & H2 & H3 & Hb & E). rewrite <-string_app_assoc in E.
    assert (Forall good_line (response_line :: (frame_line sid <$> events))) as Hg by (constructor; [exact response_good|by apply carried_good]).
    destruct (cut_lines _ _ _ Hg E) as (us & vs & r & Hsplit & Ha & Hr & Erest & Hbr).
    unfold step, connection_step, step_waiting, handshake_event, handshake_data. rewrite H3. cbn [isSome].
    rewrite (cut_small _ _ _ Ha Hr Hbr), Ha. destruct us as [|u us]; simpl in Hsplit.
    + subst vs. cbn [lines_text each_line]. rewrite indexOf_char_none by done. simpl. rewrite H1. simpl. rewrite H3. done.
    + injection Hsplit as <- Hsplit. apply fmap_app_inv in Hsplit as (us0 & vs0 & -> & -> & Hes). rewrite Hes in Hevents.
      rewrite (handshake_resolves us0 vs0 r h) by done. cbn [fst snd]. simpl. rewrite Hready, bool_decide_true by done.
      exists vs0. unfold new_pty.
      set (p0 := Pty sid r [] None false false decoder_new [] [] false []).
      assert (sound_pty l sid (us0 ++ vs0) p0) as Hp0 by (by split; [..|left|]).
      destruct (handleFrames_sound l sid us0 vs0 p0 Hp0 Hevents) as (S1 & S2 & S3).
      rewrite foldl_fmap_l. rewrite Hes. split; [|by rewrite S2, S3].
      split; [done|]. split; [by eapply carried_app|]. rewrite frames_buffer. done.
  - intros (es & Hr & Ht & Hx). destruct (receive_reading _ _ _ _ _ _ Hr) as (vs & Hr' & Ht' & Hx'). exists vs.
    split; [done|]. cbn [pty_event]. by rewrite Ht', Hx'.
Qed.

Lemma chunks_progress l chunks rest c : progress l (concat_text chunks +:+ rest) c →
  progress l rest (foldl step c (ce_data <$> chunks)).
Proof.
  revert c. induction chunks as [|chunk chunks IH]; intros c; [done|]. cbn [concat_text foldr]. rewrite string_app_assoc.
  intros H%data_progress. by apply IH.
Qed.

Lemma chunks_listeners chunks p : ∃ p', foldl step (co_ready p) (ce_data <$> chunks) = co_ready p' ∧ pt_dataListeners p' = pt_dataListeners p.
Proof.
  revert p. induction chunks as [|chunk chunks IH]; intros p; [by exists p|].
  cbn [fmap list_fmap foldl connection_step pty_event]. destruct (IH (receive chunk p)) as (p' & -> & E).
  exists p'. by rewrite E, receive_listeners.
Qed.

Lemma frames_listeners fs p : pt_dataListeners (foldl (λ p f, handleFrame f p) p fs) = pt_dataListeners p.
Proof. revert p. induction fs as [|f fs IH]; intros p; [done|]. cbn [foldl]. by rewrite IH, handleFrame_listeners. Qed.

(** Before anybody listens there is no listener. *)
Lemma no_listeners chunks p : foldl step connecting (ce_data <$> chunks) = co_ready p → pt_dataListeners p = [].
Proof.
  unfold connecting. generalize (Handshake "" None [] None). induction chunks as [|chunk chunks IH]; intros h; [done|].
  cbn [fmap list_fmap foldl connection_step]. unfold step_waiting. cbn [handshake_event].
  destruct (hs_outcome (handshake_data requestId chunk h)) as [[e|[[[id res|id er] fs] b]]|]; [..|apply IH].
  - clear. cbn [opened]. by induction chunks as [|x xs IH].
  - cbn [opened]. assert (∀ e xs p, foldl step (co_failed e) (ce_data <$> xs) = co_ready p → False) as Hf.
    { clear. intros e xs p. by induction xs as [|x xs IH]. }
    destruct (parseTermuxOpenResult res) as [rd|]; [|by intros ?%Hf]. case_bool_decide; [|by intros ?%Hf].
    destruct (chunks_listeners chunks (new_pty (or_streamId rd) b fs)) as (p' & -> & E). intros [= <-]. rewrite E.
    exact (frames_listeners fs _).
  - clear. cbn [opened]. by induction chunks as [|x xs IH].
Qed.

Definition wire_text : string := concat_text (encodeTermuxFrame <$> (server_json response :: ((λ e, server_json (fr_event sid e)) <$> events))).
Lemma wire_text_lines : wire_text = lines_text (response_line :: (frame_line sid <$> events)) "".
Proof.
  unfold wire_text, encodeTermuxFrame. cbn [fmap list_fmap concat_text foldr lines_text]. rewrite string_app_assoc. f_equal. simpl. f_equal.
  clear. induction events as [|e es IH]; [done|]. cbn [fmap list_fmap concat_text foldr lines_text]. rewrite string_app_assoc. f_equal. simpl.
  by f_equal.
Qed.

(** C35: No output of the daemon is lost, changed or reordered, however its
    bytes arrive.  When the daemon answers a request to open a session and
    then sends events, the chunks may end anywhere - inside the response,
    between frames, inside one - and the listener may come at any time after
    the terminal exists: it hears the decoded output, in order, once; what came
    before it waits for it; and the exit is the one the daemon sent. *)
Theorem terminal_stream_delivered l before after : concat_text (before ++ after) = wire_text → ∃ p,
  foldl step connecting ((ce_data <$> before) ++ ce_listen l :: (ce_data <$> after)) = co_ready p ∧
  heard l (pt_log p) +:+ concat_text (pt_pendingData p) = stream_text decoder_new events ∧
  pt_exitEvent p = stream_exit events ∧ pt_destroyed p = false ∧
  ((∃ p1, foldl step connecting (ce_data <$> before) = co_ready p1) → heard l (pt_log p) = stream_text decoder_new events).
Proof.
  intros E. rewrite wire_text_lines, concat_text_app in E.
  assert (progress l (concat_text after) (foldl step connecting (ce_data <$> before))) as H1 by (by apply chunks_progress).
  set (c1 := foldl step connecting (ce_data <$> before)) in *.
  assert (progress l "" (foldl step (step c1 (ce_listen l)) (ce_data <$> after)) ∧
    ∀ p1, c1 = co_ready p1 → pt_dataListeners (onData l p1) = [l]) as [H2 H3].
  { destruct c1 as [h|e|p1] eqn:Ec; [|done|].
    - split; [|done]. apply chunks_progress. rewrite string_app_nil_r. cbn [connection_step]. unfold step_waiting. cbn [handshake_event].
      pose proof H1 as (_ & _ & -> & _). exact H1.
    - pose proof (no_listeners before p1 Ec) as Hl. split; [|intros ? [= <-]; simpl; by rewrite Hl].
      apply chunks_progress. rewrite string_app_nil_r. destruct H1 as (es & (Hp & Hc & Hb & Er) & Ht & Hx).
      destruct (onData_sound l sid es p1 Hp Hl) as (Hp' & Ht' & Hx'). exists es. cbn [pty_event]. by rewrite Ht', Hx'. }
  rewrite foldl_app. cbn [foldl]. fold c1.
  destruct (foldl step (step c1 (ce_listen l)) (ce_data <$> after)) as [h|e|p] eqn:Ep; [|done|].
  { exfalso. destruct H2 as (_ & _ & _ & Hb & Hx). rewrite string_app_nil_r in Hx. rewrite Hx in Hb. apply no_char_all in Hb.
    simpl in Hb. rewrite all_chars_app in Hb. by apply andb_prop in Hb as [_ Hb]. }
  destruct H2 as (es & (Hp & Hc & Hb & Hx) & Ht & He). exists p. split; [done|].
  assert (es = []) as ->.
  { destruct es as [|e es]; [done|]. exfalso. rewrite string_app_nil_r in Hx. rewrite Hx in Hb. apply no_char_all in Hb.
    simpl in Hb. rewrite all_chars_app in Hb. by apply andb_prop in Hb as [_ Hb]. }
  unfold all_text in Ht. simpl in Ht. rewrite string_app_nil_r in Ht. split; [exact Ht|].
  split; [unfold final_exit in He; simpl in He; by destruct (pt_exitEvent p)|]. split; [exact (sp_destroyed _ _ _ _ Hp)|].
  intros [p1 Ec]. rewrite <-Ht. unfold shown. destruct (sp_listeners _ _ _ _ Hp) as [Hl|[_ ->]]; [|by rewrite string_app_nil_r].
  exfalso. rewrite Ec in Ep. cbn [connection_step pty_event] in Ep. destruct (chunks_listeners after (onData l p1)) as (p' & E' & Hl').
  rewrite E' in Ep. injection Ep as <-. rewrite Hl', (H3 _ Ec) in Hl. done.
Qed.
End Connection.

(** ** Writing *)
Lemma pieces_concat size bytes : (0 < size)%nat → mjoin (pieces size bytes) = bytes ∧ Forall (λ b, (length b ≤ size)%nat) (pieces size bytes).
Proof.
  intros Hs. split; [|apply Forall_fmap, Forall_forall; intros k _; simpl; rewrite length_take; lia].
  assert (∀ n k, mjoin ((λ k, take size (drop (k * size) bytes)) <$> seq k n) = take (n * size) (drop (k * size) bytes)) as H.
  { induction n as [|n IH]; intros k; [done|]. simpl. rewrite IH.
    rewrite <-take_take_drop, drop_drop. by replace (k * size + size)%nat with (S k * size)%nat by lia. }
  unfold pieces. rewrite H. simpl. rewrite take_ge; [done|].
  pose proof (Nat.div_mod_eq (length bytes + (size - 1)) size) as E.
  pose proof (Nat.mod_upper_bound (length bytes + (size - 1)) size ltac:(lia)) as Hm.
  rewrite drop_0, (Nat.mul_comm _ size). lia.
Qed.

(** The size of a frame of input. *)
Lemma escape_bytes c : byteLength (escape_char c) ≤ 6 ∧ (plain_char c = true → byteLength (escape_char c) = 1).
Proof. destruct c as [[] [] [] [] [] [] [] []]; vm_compute; split; [discriminate|done|discriminate|done|..]; try discriminate; done. Qed.
Lemma escape_bound s : byteLength (escape s) ≤ 6 * len s.
Proof.
  unfold len. induction s as [|c s IH]; [done|]. cbn [escape String.length]. rewrite byteLength_app.
  destruct (escape_bytes c) as [H _]. lia.
Qed.
Lemma escape_plain s : all_chars plain_char s = true → byteLength (escape s) = len s.
Proof.
  unfold len. induction s as [|c s IH]; [done|]. simpl. intros [Hc Hs]%andb_prop. rewrite byteLength_app, IH by done.
  destruct (escape_bytes c) as [_ H]. rewrite H by done. lia.
Qed.
Lemma byteLength_quote s : byteLength (quote s) = byteLength (escape s) + 2.
Proof. unfold quote. cbn [byteLength]. rewrite byteLength_app. simpl. lia. Qed.

Lemma uuid_length v s : uuid_form v s = true → len s = 36.
Proof.
  unfold uuid_form. rewrite <-(join_split "-" s) at 2. destruct (split_on "-" s) as [|a [|b [|c [|d [|e [|]]]]]]; try done.
  intros [[[[[[Ha Hb]%andb_prop Hc]%andb_prop Hd]%andb_prop He]%andb_prop _]%andb_prop _]%andb_prop.
  repeat match goal with H : hex_group _ _ = true |- _ => apply andb_prop in H as [H _]; apply bool_decide_eq_true in H end.
  unfold len in *. cbn [join]. rewrite !length_append. simpl. lia.
Qed.
Lemma is_uuid_length s : is_uuid s = true → len s = 36.
Proof. intros H%isUuid_ok. unfold isUuid in H. simpl in H. destruct (uuid_form _ s) eqn:E; [|done]. by eapply uuid_length. Qed.

(** The lengths of the constant parts. *)
Ltac byte_lengths := repeat match goal with |- context [byteLength ?x] =>
  let v := eval vm_compute in (byteLength x) in
  lazymatch v with Zpos _ => change (byteLength x) with v end end.

Lemma input_frame_size streamId data : is_uuid streamId = true →
  byteLength (encodeTermuxFrame (client_json (fr_input streamId (encodeTermuxData data)))) ≤
    400 + ceil3 (Z.of_nat (length data)) * 4.
Proof.
  intros Hs%is_uuid_length. pose proof (escape_bound streamId) as Hb.
  pose proof (escape_plain _ (to_base64_plain data)) as He. rewrite to_base64_length in He.
  unfold encodeTermuxFrame, client_json, termuxCommand, encodeTermuxData. cbn [JSON_stringify fmap list_fmap join fst snd].
  repeat first [rewrite byteLength_app | rewrite byteLength_quote]. rewrite He.
  byte_lengths. lia.
Qed.

(** C36: What is typed reaches the daemon whole.  A write to an open terminal
    sends the bytes of the text in order, cut into pieces; every frame fits the
    limit of the daemon and its parser reads it back as it was sent. *)
Theorem terminal_write_whole data p : pt_closed p = false → pt_destroyed p = false → is_uuid (pt_streamId p) = true →
  ∃ sent, pt_log (write data p) = pt_log p ++ (pf_sent <$> ((λ b, fr_input (pt_streamId p) (encodeTermuxData b)) <$> sent)) ∧
    mjoin sent = utf8_bytes data ∧
    Forall (λ b, Z.of_nat (length b) ≤ TERMUX_MAX_INPUT_BYTES ∧
      let f := fr_input (pt_streamId p) (encodeTermuxData b) in
      decodeTermuxData (encodeTermuxData b) = Some b ∧
      byteLength (encodeTermuxFrame (client_json f)) ≤ TERMUX_MAX_FRAME_BYTES ∧
      parseTermuxClientFrame (JSON_stringify (client_json f)) = Some f) sent.
Proof.
  intros Hc Hd Hu. assert (0 < Z.to_nat TERMUX_MAX_INPUT_BYTES)%nat as Hm by (unfold TERMUX_MAX_INPUT_BYTES; lia).
  destruct (pieces_concat _ (utf8_bytes data) Hm) as [Hj Hl]. exists (pieces (Z.to_nat TERMUX_MAX_INPUT_BYTES) (utf8_bytes data)).
  split_and!; [|exact Hj|].
  - unfold write. set (bs := pieces _ _). clearbody bs. clear Hj Hl Hu Hm. set (sid := pt_streamId p).
    assert (pt_streamId p = sid) as Hs by done. clearbody sid. revert p Hc Hd Hs.
    induction bs as [|b bs IH]; intros p Hc Hd Hs; [by rewrite app_nil_r|]. cbn [foldl fmap list_fmap].
    rewrite IH; unfold send; rewrite ?Hc, ?Hd; try done. cbn. by rewrite Hs, <-app_assoc.
  - eapply Forall_impl; [exact Hl|]. intros b Hb. simpl in Hb.
    assert (Z.of_nat (length b) ≤ TERMUX_MAX_INPUT_BYTES) as Hb' by (unfold TERMUX_MAX_INPUT_BYTES in *; lia).
    pose proof (proj1 base64_roundtrip b Hb') as Hdec. split; [done|]. cbv zeta. split; [done|]. split.
    + etrans; [by apply input_frame_size|]. unfold ceil3, TERMUX_MAX_INPUT_BYTES, TERMUX_MAX_FRAME_BYTES in *.
      clear -Hb'. Z.to_euclidean_division_equations. lia.
    + apply client_roundtrip; [simpl; by rewrite Hu, Hdec|done].
Qed.

(** ** The exit *)
Definition exits (l : nat) (log : list pty_effect) : nat :=
  count_where (λ e, match e with pf_exit l' _ => bool_decide (l' = l) | _ => false end) log.
Definition registered (l : nat) (ls : list nat) : nat := count_where (λ l', bool_decide (l' = l)) ls.
Definition sent (log : list pty_effect) : list TermuxClientFrame :=
  omap (λ e, match e with pf_sent f => Some f | _ => None end) log.

(** At most [reg l] exits have been or may still be reported to [l]. *)
Record exit_inv (reg : nat → nat) (p : pty) : Prop := ExitInv {
  ei_log : ∀ l e, In (pf_exit l e) (pt_log p) → pt_exitEvent p = Some e;
  ei_count : ∀ l, (exits l (pt_log p) + (if pt_exited p then 0 else registered l (pt_exitListeners p)) ≤ reg l)%nat;
  ei_exited : is_Some (pt_exitEvent p) → pt_exited p = true;
  ei_closed : pt_exited p = true → pt_closed p = true
}.

Lemma exits_app l a b : exits l (a ++ b) = (exits l a + exits l b)%nat.
Proof. unfold exits, count_where, select. by rewrite List.filter_app, length_app. Qed.
Lemma exits_reported l e ls : exits l ((λ l, pf_exit l e) <$> ls) = registered l ls.
Proof. unfold exits, registered, count_where, select. induction ls as [|x ls IH]; [done|].
  cbn [fmap list_fmap List.filter]. case_bool_decide; cbn [length]; [f_equal|]; exact IH. Qed.

Lemma registered_filter l f ls : (registered l (List.filter f ls) ≤ registered l ls)%nat.
Proof.
  unfold registered, count_where, select. induction ls as [|x ls IH]; [done|]. simpl. destruct (f x); simpl; case_bool_decide; simpl; lia.
Qed.

(** Other effects and the fields the exit does not depend on. *)
Definition silent (es : list pty_effect) : Prop := ∀ l e, ¬ In (pf_exit l e) es.
Lemma silent_exits es l : silent es → exits l es = 0%nat.
Proof.
  intros H. induction es as [|e es IH]; [done|]. unfold exits, count_where, select in *. simpl.
  assert (silent es) as Hs by (intros l' e' Hin; by apply (H l' e'); right).
  destruct e as [| l' e' | | |]; try by apply IH. exfalso. by apply (H l' e'); left.
Qed.
Lemma quiet_inv reg p p' es : exit_inv reg p → silent es → pt_log p' = pt_log p ++ es → pt_exitEvent p' = pt_exitEvent p →
  pt_exited p' = pt_exited p → (pt_closed p = true → pt_closed p' = true) → pt_exitListeners p' = pt_exitListeners p →
  exit_inv reg p'.
Proof.
  intros [H1 H2 H3 H4] Hs El Ee Ex Ec Els. split.
  - intros l e Hin. rewrite El in Hin. rewrite Ee. apply in_app_or in Hin as [Hin|Hin]; [by eapply H1|by apply Hs in Hin].
  - intros l. rewrite El, Ex, Els, exits_app, (silent_exits es) by done. specialize (H2 l). lia.
  - by rewrite Ee, Ex.
  - rewrite Ex. auto.
Qed.

Lemma same_inv reg p p' : exit_inv reg p → pt_log p' = pt_log p → pt_exitEvent p' = pt_exitEvent p →
  pt_exited p' = pt_exited p → (pt_closed p = true → pt_closed p' = true) → pt_exitListeners p' = pt_exitListeners p →
  exit_inv reg p'.
Proof. intros Hp El. apply (quiet_inv reg p p' [] Hp); [by intros l e H; inversion H|]. by rewrite El, app_nil_r. Qed.

Lemma finish_inv reg c s r p : exit_inv reg p → exit_inv reg (finish c s r p).
Proof.
  intros Hp. unfold finish. destruct (pt_exited p) eqn:Ex; [exact Hp|]. destruct Hp as [H1 H2 H3 H4]. rewrite Ex in *. split; simpl; try done.
  - intros l e Hin. apply in_app_or in Hin as [Hin|Hin].
    + apply H1 in Hin. assert (is_Some (pt_exitEvent p)) as Hx by eauto. apply H3 in Hx. congruence.
    + apply list_elem_of_In, list_elem_of_fmap in Hin as (x & [= -> ->] & _). done.
  - intros l. specialize (H2 l). rewrite exits_app, exits_reported. lia.
Qed.
Lemma fail_inv reg r p : exit_inv reg p → exit_inv reg (fail r p).
Proof.
  intros Hp. unfold fail. destruct (pt_closed p) eqn:Ec; [done|]. apply finish_inv.
  apply (quiet_inv reg p _ [pf_destroyed] Hp); try done. by intros l e [|[]].
Qed.
Lemma silent_data ls s : silent ((λ l, pf_data l s) <$> ls).
Proof. intros l e Hin. by apply list_elem_of_In, list_elem_of_fmap in Hin as (x & ? & _). Qed.
Lemma deliver_inv reg s p : exit_inv reg p → exit_inv reg (deliver s p).
Proof.
  intros Hp. unfold deliver. case_bool_decide; [done|]. destruct (pt_dataListeners p) as [|x xs].
  - by apply (same_inv reg p _ Hp).
  - apply (quiet_inv reg p _ ((λ l, pf_data l s) <$> x :: xs) Hp); try done. apply silent_data.
Qed.
Lemma decoder_inv reg d p : exit_inv reg p → exit_inv reg (p <| pt_decoder := d |>).
Proof. intros Hp. by apply (same_inv reg p _ Hp). Qed.
Lemma handleFrame_inv reg f p : exit_inv reg p → exit_inv reg (handleFrame f p).
Proof.
  intros Hp. destruct f as [r|sid e]; simpl; [by apply fail_inv|]. destruct (negb _); [by apply fail_inv|].
  destruct e as [data|c s r|c m r]; simpl; [| |by apply fail_inv].
  - destruct (decodeTermuxData data) as [b|]; [|by apply fail_inv]. destruct (decoder_write _ b) as [s d]. by apply deliver_inv, decoder_inv.
  - apply finish_inv. unfold flushDecoder. destruct (decoder_end _) as [x d]. by apply deliver_inv, decoder_inv.
Qed.
Lemma send_inv reg f p : exit_inv reg p → exit_inv reg (send f p).
Proof.
  intros Hp. unfold send. destruct (_ && _); [|done]. apply (quiet_inv reg p _ [pf_sent f] Hp); try done. by intros l e [|[]].
Qed.

Lemma each_line_inv {S} (handle : string → S → S * bool) (P : S → Prop) fuel b s :
  (∀ l s, P s → P (handle l s).1) → P s → P (each_line handle fuel b s).1.2.
Proof.
  intros H. revert b s. induction fuel as [|fuel IH]; intros b s Hs; [done|]. simpl. destruct (indexOf _ b) as [i|]; [|done].
  specialize (H (strip_return (take_str i b)) s Hs). destruct (handle _ s) as [s' [|]]; simpl in H |- *; [done|]. by apply IH.
Qed.
Lemma receive_inv reg chunk p : exit_inv reg p → exit_inv reg (receive chunk p).
Proof.
  intros Hp. unfold receive. destruct (pt_closed p); [done|].
  assert (∀ b q, exit_inv reg q → exit_inv reg (q <| pt_frameBuffer := b |>)) as Hb.
  { intros b q Hq. by apply (same_inv reg q _ Hq). }
  destruct (too_large _); [by apply fail_inv, Hb|].
  pose proof (each_line_inv pty_line (exit_inv reg) (S (String.length (pt_frameBuffer p +:+ chunk))) (pt_frameBuffer p +:+ chunk) p) as H.
  destruct (each_line _ _ _ p) as [[b p'] stop]. simpl in H. apply Hb, H; [|done]. intros l q Hq. unfold pty_line.
  case_bool_decide; [by apply fail_inv|]. destruct (parseTermuxServerFrame l); [by apply handleFrame_inv|by apply fail_inv].
Qed.

Definition asks (l : nat) (e : connection_event) : nat :=
  match e with ce_listen_exit l' => if bool_decide (l' = l) then 1 else 0 | _ => 0 end.
Lemma pty_event_inv reg e p : exit_inv reg p → exit_inv (λ l, (reg l + asks l e)%nat) (pty_event e p).
Proof.
  intros Hp. assert (exit_inv (λ l, (reg l + asks l e)%nat) p) as Hp'.
  { destruct Hp as [H1 H2 H3 H4]. split; try done. intros l. specialize (H2 l). lia. }
  destruct e as [chunk|l|l|l|data|c r|u d|x|]; cbn [pty_event]; try done.
  - by apply receive_inv.
  - apply (quiet_inv _ p _ (pf_data l <$> pt_pendingData p) Hp'); try done.
    intros l' e Hin. by apply list_elem_of_In, list_elem_of_fmap in Hin as (y & ? & _).
  - clear Hp'. destruct Hp as [H1 H2 H3 H4]. unfold onExit. destruct (pt_exitEvent p) as [e|] eqn:Ee.
    + rewrite H3 in H2 by done. split; simpl; rewrite ?Ee; try done.
      * intros l' e' Hin. apply in_app_or in Hin as [Hin|[[= <- <-]|[]]]; [|done]. apply H1 in Hin. congruence.
      * intros l'. specialize (H2 l'). rewrite exits_app. rewrite H3 by done. unfold exits at 2, count_where, select. simpl.
        case_bool_decide; simpl; lia.
    + split; simpl; rewrite ?Ee; try done. intros l'. specialize (H2 l'). destruct (pt_exited p); [lia|].
      unfold registered, count_where, select in *. rewrite List.filter_app, length_app. simpl. case_bool_decide; simpl; lia.
  - destruct Hp' as [H1 H2 H3 H4]. split; simpl; try done. intros l'. specialize (H2 l'). cbn [asks] in H2. destruct (pt_exited p); [lia|].
    pose proof (registered_filter l' (λ x, negb (bool_decide (x = l))) (pt_exitListeners p)). lia.
  - unfold write. clear Hp. revert p Hp'. induction (pieces _ _) as [|b bs IH]; intros p Hp; [done|]. apply IH. by apply send_inv.
  - by apply send_inv.
  - unfold close. destruct (pt_closed p) eqn:Ec; [done|].
    pose proof (send_inv _ (fr_close u (pt_streamId p) d) p Hp') as [H1 H2 H3 H4]. split; simpl; try done.
    + intros l e Hin. apply in_app_or in Hin as [Hin|[|[]]]; [by eapply H1|done].
    + intros l. specialize (H2 l). rewrite exits_app. unfold exits at 2, count_where, select. simpl. cbn [asks] in H2. destruct (pt_exited (send _ p)); lia.
  - unfold socket_gone. apply finish_inv. by apply (same_inv _ p _ Hp').
Qed.

Lemma sent_silent log (es : list pty_effect) : sent es = [] → sent (log ++ es) = sent log.
Proof. intros H. unfold sent in *. by rewrite omap_app, H, app_nil_r. Qed.
Lemma sent_fmap {A} (f : A → pty_effect) ls : (∀ x, sent [f x] = []) → sent (f <$> ls) = [].
Proof. intros H. induction ls as [|x ls IH]; [done|]. specialize (H x). unfold sent in *. simpl in *. by destruct (f x). Qed.
Lemma finish_sends c s r p : sent (pt_log (finish c s r p)) = sent (pt_log p).
Proof. unfold finish. destruct (pt_exited p); [done|]. simpl. apply sent_silent. by apply sent_fmap. Qed.
Lemma closed_sends e p : pt_closed p = true → sent (pt_log (pty_event e p)) = sent (pt_log p).
Proof.
  intros Hc. assert (∀ f, send f p = p) as Hs by (intros f; unfold send; by rewrite Hc).
  destruct e as [chunk|l|l|l|data|c r|u d|x|]; cbn [pty_event]; try done.
  - unfold receive. by rewrite Hc.
  - simpl. apply sent_silent. by apply sent_fmap.
  - unfold onExit. destruct (pt_exitEvent p); [|done]. simpl. by apply sent_silent.
  - unfold write. induction (pieces _ _) as [|b bs IH]; [done|]. cbn [foldl]. by rewrite Hs.
  - unfold resize. by rewrite Hs.
  - unfold close. by rewrite Hc.
  - unfold socket_gone. by rewrite finish_sends.
Qed.

(** A terminal reports its end once.  Whatever the daemon sends, the
    socket does and the server calls, every listener hears at most one exit for
    each time it registered, all of them hear the same one, and once the
    terminal is closed nothing more is written to its socket. *)
Theorem exit_reported_once sid buffer frames events :
  let p := foldl (λ p e, pty_event e p) (new_pty sid buffer frames) events in
  (∀ l, exits l (pt_log p) ≤ sum_list (asks l <$> events))%nat ∧
  (∀ l e, In (pf_exit l e) (pt_log p) → pt_exitEvent p = Some e) ∧
  (pt_closed p = true → ∀ e, sent (pt_log (pty_event e p)) = sent (pt_log p)).
Proof.
  assert (∀ reg p, exit_inv reg p → exit_inv (λ l, (reg l + sum_list (asks l <$> events))%nat) (foldl (λ p e, pty_event e p) p events)) as H.
  { induction events as [|e es IH]; intros reg p Hp.
    - destruct Hp as [H1 H2 H3 H4]. split; try done. intros l. specialize (H2 l). simpl. lia.
    - destruct (IH _ _ (pty_event_inv reg e p Hp)) as [H1 H2 H3 H4]. split; try done. intros l. specialize (H2 l).
      change (sum_list (asks l <$> e :: es)) with (asks l e + sum_list (asks l <$> es))%nat. cbn [foldl]. lia. }
  assert (exit_inv (λ _, 0%nat) (new_pty sid buffer frames)) as H0.
  { unfold new_pty. assert (exit_inv (λ _, 0%nat) (Pty sid buffer [] None false false decoder_new [] [] false [])) as Hp.
    { split; simpl; done. }
    revert Hp. generalize (Pty sid buffer [] None false false decoder_new [] [] false []).
    induction frames as [|f fs IH]; intros q Hq; [done|]. apply IH. by apply handleFrame_inv. }
  intros p. destruct (H _ _ H0) as [H1 H2 H3 H4]. fold p in H1, H2, H3, H4. split; [intros l; specialize (H2 l); simpl in H2; lia|].
  split; [done|]. intros Hc e. by apply closed_sends.
Qed.
End Pty.

(** ** A connection *)
Module TermuxDemo.
Fixpoint text_of (b : buffer) : string := match b with [] => "" | c :: b => String c (text_of b) end.
(** A decoder of ASCII, and its end. *)
Definition ascii_write (d : unit) (b : buffer) : string * unit := (text_of b, d).
Definition ascii_end (d : unit) : string * unit := ("", d).
Definition id : string := "0a0a0a0a-1111-4222-8333-444444444444".
Definition stream : string := "0b0b0b0b-1111-4222-8333-444444444444".
Definition result : list (string * json) :=
  [("streamId", JStr stream); ("user", JStr "nas"); ("cwd", JStr "/home"); ("shell", JStr "/bin/sh")].
Definition ready : TermuxOpenResult := OpenResult stream "nas" "/home" "/bin/sh".
Definition output (s : string) : TermuxEvent := ev_output (encodeTermuxData (utf8_bytes s)).
Definition events : list TermuxEvent := [output "$ "; output "ls"; ev_exit (lit 0) None false].
Definition wire : string := wire_text id result ready events.
Definition pieces_before : list string := [take_str 90 wire; take_str 300 (drop_str 90 wire)].
Definition pieces_after : list string := [drop_str 390 wire].
Definition run : list connection_event → connection :=
  foldl (connection_step tt ascii_write ascii_end id "nas") connecting.

Example heard_all : ∃ p, run ((ce_data <$> pieces_before) ++ ce_listen 7 :: (ce_data <$> pieces_after)) = co_ready p ∧
  pt_log p = [pf_data 7 "$ "; pf_data 7 "ls"] ∧ pt_exitEvent p = Some (ExitEvent (lit 0) None false).
Proof. by eexists; split; [vm_compute; reflexivity|]. Qed.

(** Output behind the exit: heard when it comes in the same chunk, dropped when
    it comes in the next. *)
Definition open : pty := new_pty tt ascii_write ascii_end stream "" [].
Definition late : string := frame_line stream (ev_exit (lit 0) None false) +:+ String line_feed "".
Definition more : string := frame_line stream (output "x") +:+ String line_feed "".
Definition feed (chunks : list string) : pty :=
  foldl (λ p c, receive ascii_write ascii_end c p) (onData 7 open) chunks.
Example output_after_exit :
  pt_log (feed [late +:+ more]) = [pf_data 7 "x"] ∧ pt_log (feed [late; more]) = [].
Proof. by vm_compute. Qed.
End TermuxDemo.

Lemma terminal_stream_delivered_witness :
  let p := match TermuxDemo.run ((ce_data <$> TermuxDemo.pieces_before) ++ ce_listen 7 :: (ce_data <$> TermuxDemo.pieces_after)) with
           | co_ready p => Some p | _ => None end in
  (λ p, heard 7 (pt_log p)) <$> p = Some "$ ls".
Proof.
  destruct (terminal_stream_delivered tt TermuxDemo.ascii_write TermuxDemo.ascii_end TermuxDemo.id "nas" TermuxDemo.result
    TermuxDemo.ready TermuxDemo.events eq_refl eq_refl eq_refl eq_refl ltac:(vm_compute; discriminate)
    ltac:(split; [vm_compute; reflexivity|split; [vm_compute; reflexivity|repeat constructor; vm_compute; try reflexivity; discriminate]])
    7 TermuxDemo.pieces_before TermuxDemo.pieces_after ltac:(vm_compute; reflexivity)) as (p & E & _ & _ & _ & H).
  unfold TermuxDemo.run. rewrite E. cbn [fmap option_fmap option_map]. rewrite H; [vm_compute; reflexivity|].
  eexists. vm_compute. reflexivity.
Defined.

Lemma terminal_write_whole_witness :
  let p := write "ls" TermuxDemo.open in
  length (sent (pt_log p)) = 1%nat ∧ ∃ sent, mjoin sent = utf8_bytes "ls" ∧ pt_log p = pf_sent <$> ((λ b, fr_input TermuxDemo.stream (encodeTermuxData b)) <$> sent).
Proof.
  split; [vm_compute; reflexivity|].
  destruct (terminal_write_whole "ls" TermuxDemo.open eq_refl eq_refl eq_refl) as (s & E & Hj & _).
  exists s. split; [exact Hj|exact E].
Defined.
