(* ===== verification/NasRoots.v ===== *)
(** * NAS roots

    packages/db/src/repositories/nas-roots.ts and root-readiness.ts: the
    configured roots, stored at the start of every process, and the result of
    the last check of each.  A root that leaves the configuration is disabled,
    never deleted, since sessions, operations and trash entries refer to it. *)
From S2P Require Import Prelude Sql.
Open Scope Z_scope.

Inductive MountPolicy := mount_required | mount_optional.
Inductive RootReadinessStatus := root_ready | root_not_ready | root_unknown | root_config_invalid.
Global Instance MountPolicy_eq_dec : EqDecision MountPolicy.
Proof. solve_decision. Defined.

(** A root of the configuration; an absent field and [null] are the same to
    the code ([??]). *)
Record NasRootConfig := RootConfig {
  rc_id : string;
  rc_name : string;
  rc_path : string;
  rc_mountPolicy : option MountPolicy;
  rc_expectedSource : option string;
  rc_expectedUuid : option string;
  rc_expectedFstype : option string
}.

Record nas_root := NasRootRow {
  nr_id : string;
  nr_name : string;
  nr_path : string;
  nr_enabled : bool;
  nr_mount_policy : MountPolicy;
  nr_expected_source : option string;
  nr_expected_uuid : option string;
  nr_expected_fstype : option string;
  nr_created_at : Z;
  nr_updated_at : Z
}.

Record RootReadiness := Readiness {
  rr_rootId : string;
  rr_status : RootReadinessStatus;
  rr_checkedAt : Z;
  rr_reason : option string;
  rr_source : option string;
  rr_uuid : option string;
  rr_fstype : option string
}.

Record roots_db := RootsDb { rt_roots : list nas_root; rt_readiness : list RootReadiness }.
#[export] Instance roots_db_eta : Eta roots_db := λ d, RootsDb (rt_roots d) (rt_readiness d).
Notation roots_prog := (prog roots_db).

(** ** Reading *)
Definition getNasRoot (rootId : string) (d : roots_db) : option nas_root :=
  get_row (λ r, has_key nr_id rootId r && nr_enabled r) (rt_roots d).
Definition by_name (a b : nas_root) : bool := String.leb (nr_name a) (nr_name b).
Definition listNasRoots (d : roots_db) : list nas_root := order_by by_name (select nr_enabled (rt_roots d)).

Definition getRootReadiness (rootId : string) (d : roots_db) : option RootReadiness :=
  by_key rr_rootId rootId (rt_readiness d).
Definition by_root (a b : RootReadiness) : bool := String.leb (rr_rootId a) (rr_rootId b).
Definition listRootReadiness (rootIds : option (list string)) (d : roots_db) : list RootReadiness :=
  match rootIds with
  | Some ids => select (λ r, bool_decide (rr_rootId r ∈ ids)) (rt_readiness d)
  | None => order_by by_root (rt_readiness d)
  end.

(** ** Readiness: one row per root, replaced by each check *)
Definition upsertRootReadiness (input : RootReadiness) : roots_prog RootReadiness := λ d,
  if isSome (by_key rr_rootId (rr_rootId input) (rt_readiness d))
  then (inr input, d <| rt_readiness := update_where (has_key rr_rootId (rr_rootId input)) (λ _, input) (rt_readiness d) |>)
  else if negb (isSome (by_key nr_id (rr_rootId input) (rt_roots d)))
  then (inl (SqliteError "SQLITE_CONSTRAINT_FOREIGNKEY"), d)
  else (inr input, d <| rt_readiness := insert_row input (rt_readiness d) |>).

(** ** Storing the configuration *)
Definition same_identity (r : nas_root) (root : NasRootConfig) : bool :=
  bool_decide (nr_path r = rc_path root ∧ nr_mount_policy r = (rc_mountPolicy root ⁇ mount_optional) ∧
    nr_expected_source r = rc_expectedSource root ∧ nr_expected_uuid r = rc_expectedUuid root ∧
    nr_expected_fstype r = rc_expectedFstype root).

Definition nasRootsMatchConfig (storedRoots : list nas_root) (roots : list NasRootConfig) : bool :=
  let configuredIds := distinct (rc_id <$> roots) in
  let enabledRoots := select nr_enabled storedRoots in
  if negb (bool_decide (length configuredIds = length roots)) then false
  else if negb (bool_decide (length enabledRoots = length roots)) ||
          existsb (λ root, negb (bool_decide (nr_id root ∈ configuredIds))) enabledRoots then false
  else forallb (λ root, match by_key nr_id (rc_id root) storedRoots with
                        | Some stored => nr_enabled stored && bool_decide (nr_name stored = rc_name root) &&
                                         same_identity stored root
                        | None => false
                        end) roots.

(** The row that [upsert] writes; [created_at] is the one of the insertion. *)
Definition stored_root (now created : Z) (root : NasRootConfig) : nas_root :=
  NasRootRow (rc_id root) (rc_name root) (rc_path root) true (rc_mountPolicy root ⁇ mount_optional)
    (rc_expectedSource root) (rc_expectedUuid root) (rc_expectedFstype root) created now.

Definition clearReadiness (rootId : string) (d : roots_db) : roots_db :=
  d <| rt_readiness := delete_where (has_key rr_rootId rootId) (rt_readiness d) |>.
Definition upsert_root (now : Z) (root : NasRootConfig) (d : roots_db) : roots_db :=
  d <| rt_roots := if isSome (by_key nr_id (rc_id root) (rt_roots d))
                   then update_where (has_key nr_id (rc_id root)) (λ r, stored_root now (nr_created_at r) root) (rt_roots d)
                   else insert_row (stored_root now now root) (rt_roots d) |>.

Definition ensure_root (now : Z) (d : roots_db) (root : NasRootConfig) : roots_db :=
  let d := match by_key nr_id (rc_id root) (rt_roots d) with
           | Some previous => if same_identity previous root then d else clearReadiness (rc_id root) d
           | None => d
           end in
  upsert_root now root d.

(** UPDATE ... WHERE id NOT IN (...): for an empty list the code writes
    NOT IN (NULL), which is true of no row. *)
Definition disable (now : Z) (r : nas_root) : nas_root :=
  NasRootRow (nr_id r) (nr_name r) (nr_path r) false (nr_mount_policy r) (nr_expected_source r)
    (nr_expected_uuid r) (nr_expected_fstype r) (nr_created_at r) now.
Definition disableMissing (now : Z) (ids : list string) (d : roots_db) : roots_db :=
  d <| rt_roots := update_where (λ r, negb (bool_decide (ids = [])) && negb (bool_decide (nr_id r ∈ ids)))
                     (disable now) (rt_roots d) |>.

Definition ensureNasRoots (roots : list NasRootConfig) (now : Z) : roots_prog unit :=
  stored ← gets rt_roots;
  if nasRootsMatchConfig stored roots then mret tt
  else transaction (
    _ ← modify (λ d, foldl (ensure_root now) d roots);
    modify (disableMissing now (rc_id <$> roots))).

(** ** What storing the configuration does *)
Definition configured (roots : list NasRootConfig) (id : string) : option NasRootConfig :=
  List.find (λ c, bool_decide (rc_id c = id)) roots.
(** The row [r] is the enabled root the configuration asks for. *)
Definition serves (root : NasRootConfig) (r : nas_root) : Prop :=
  nr_id r = rc_id root ∧ nr_enabled r = true ∧ nr_name r = rc_name root ∧ same_identity r root = true.
Definition same_mount (r r' : nas_root) : Prop :=
  nr_path r = nr_path r' ∧ nr_mount_policy r = nr_mount_policy r' ∧
  nr_expected_source r = nr_expected_source r' ∧ nr_expected_uuid r = nr_expected_uuid r' ∧
  nr_expected_fstype r = nr_expected_fstype r'.

Lemma stored_serves now created root : serves root (stored_root now created root).
Proof. repeat split; try done. by apply bool_decide_eq_true. Qed.

Lemma same_identity_mount r r' root : same_identity r root = true → same_identity r' root = true → same_mount r r'.
Proof. unfold same_mount. intros ?%bool_decide_eq_true ?%bool_decide_eq_true. destruct_and!. repeat split; congruence. Qed.

Lemma configured_Some roots id c : configured roots id = Some c → In c roots ∧ rc_id c = id.
Proof. intros [? H]%find_some. by apply bool_decide_eq_true in H. Qed.

Lemma configured_None roots id : configured roots id = None ↔ id ∉ rc_id <$> roots.
Proof.
  unfold configured. split.
  - intros H (c & -> & Hc)%list_elem_of_fmap. rewrite list_elem_of_In in Hc.
    apply (find_none _ _ H) in Hc. by apply bool_decide_eq_false in Hc.
  - intros H. destruct (List.find _ _) as [c|] eqn:E; [|done]. apply configured_Some in E as [Hc <-].
    destruct H. apply list_elem_of_fmap. exists c. by rewrite list_elem_of_In.
Qed.

Lemma configured_In roots c : NoDup (rc_id <$> roots) → In c roots → configured roots (rc_id c) = Some c.
Proof.
  intros Hn Hc. destruct (configured roots (rc_id c)) as [c'|] eqn:E.
  - apply configured_Some in E as [Hc' E]. f_equal. by apply (unique_key_eq rc_id roots c' c).
  - apply configured_None in E. destruct E. apply list_elem_of_fmap. exists c. by rewrite list_elem_of_In.
Qed.

(** One configured root. *)
Lemma ensure_root_rows now d root : rt_roots (ensure_root now d root) = rt_roots (upsert_root now root d).
Proof. unfold ensure_root. destruct (by_key nr_id (rc_id root) (rt_roots d)); [|done]. by destruct (same_identity _ _). Qed.

Lemma ensure_root_readiness now d root :
  rt_readiness (ensure_root now d root) =
    match by_key nr_id (rc_id root) (rt_roots d) with
    | Some r => if same_identity r root then rt_readiness d
                else delete_where (has_key rr_rootId (rc_id root)) (rt_readiness d)
    | None => rt_readiness d
    end.
Proof. unfold ensure_root. destruct (by_key nr_id (rc_id root) (rt_roots d)); [|done]. by destruct (same_identity _ _). Qed.

Lemma has_key_true {R} (key : R → string) k r : has_key key k r = true → key r = k.
Proof. apply bool_decide_eq_true. Qed.

Lemma ensure_root_unique now d root :
  unique_keys nr_id (rt_roots d) → unique_keys nr_id (rt_roots (ensure_root now d root)).
Proof.
  intros Hu. rewrite ensure_root_rows. simpl. destruct (by_key nr_id _ _) eqn:E; simpl.
  - apply unique_keys_update_on; [|done]. intros r Hr. by apply has_key_true in Hr.
  - by apply unique_keys_insert.
Qed.

Lemma upsert_root_by_key now root d k :
  by_key nr_id k (rt_roots (upsert_root now root d)) =
    if bool_decide (k = rc_id root)
    then Some (stored_root now (from_option nr_created_at now (by_key nr_id k (rt_roots d))) root)
    else by_key nr_id k (rt_roots d).
Proof.
  simpl. destruct (by_key nr_id (rc_id root) (rt_roots d)) as [r|] eqn:E; simpl.
  - rewrite by_key_update_on by (by intros x Hx%has_key_true).
    case_bool_decide as Hk; [subst k; rewrite E; simpl; apply by_key_Some in E as [_ E]; unfold has_key; by rewrite bool_decide_true|].
    destruct (by_key nr_id k (rt_roots d)) as [x|] eqn:Ex; [|done]. apply by_key_Some in Ex as [_ <-]. simpl.
    unfold has_key. by rewrite bool_decide_false.
  - rewrite by_key_insert. unfold has_key. simpl. case_bool_decide as Hk.
    + subst k. rewrite E. simpl. by rewrite bool_decide_true.
    + rewrite bool_decide_false by congruence. by destruct (by_key nr_id k (rt_roots d)).
Qed.

Lemma ensure_root_by_key now d root k :
  by_key nr_id k (rt_roots (ensure_root now d root)) =
    if bool_decide (k = rc_id root)
    then Some (stored_root now (from_option nr_created_at now (by_key nr_id k (rt_roots d))) root)
    else by_key nr_id k (rt_roots d).
Proof. rewrite ensure_root_rows. apply upsert_root_by_key. Qed.

Lemma ensure_root_readiness_by_key now d root k : unique_keys rr_rootId (rt_readiness d) →
  getRootReadiness k (ensure_root now d root) =
    match by_key nr_id k (rt_roots d) with
    | Some r => if bool_decide (k = rc_id root) && negb (same_identity r root) then None else getRootReadiness k d
    | None => getRootReadiness k d
    end.
Proof.
  intros Hu. unfold getRootReadiness. rewrite ensure_root_readiness.
  destruct (decide (k = rc_id root)) as [->|Hk].
  - rewrite bool_decide_true by done. destruct (by_key nr_id _ _) as [r|]; [|done].
    destruct (same_identity r root); [done|]. simpl. rewrite by_key_delete by done.
    destruct (by_key rr_rootId (rc_id root) (rt_readiness d)) as [x|] eqn:Ex; [|done].
    apply by_key_Some in Ex as [_ Ex]. unfold has_key. by rewrite bool_decide_true.
  - rewrite (bool_decide_false (k = _)) by done. simpl.
    assert (by_key rr_rootId k (delete_where (has_key rr_rootId (rc_id root)) (rt_readiness d)) =
            by_key rr_rootId k (rt_readiness d)) as Hd.
    { rewrite by_key_delete by done. destruct (by_key rr_rootId k (rt_readiness d)) as [x|] eqn:Ex; [|done].
      apply by_key_Some in Ex as [_ Ex]. unfold has_key. by rewrite bool_decide_false by congruence. }
    destruct (by_key nr_id (rc_id root) _) as [r|]; [destruct (same_identity r root)|]; destruct (by_key nr_id k _); done.
Qed.

Lemma ensure_root_readiness_unique now d root :
  unique_keys rr_rootId (rt_readiness d) → unique_keys rr_rootId (rt_readiness (ensure_root now d root)).
Proof.
  rewrite ensure_root_readiness. destruct (by_key nr_id _ _) as [r|]; [|done].
  destruct (same_identity r root); [done|]. apply unique_keys_delete.
Qed.

(** All of them, in the order of the configuration. *)
Definition roots_ok (d : roots_db) : Prop :=
  unique_keys nr_id (rt_roots d) ∧ unique_keys rr_rootId (rt_readiness d).

Lemma ensure_all_ok now roots d : roots_ok d → roots_ok (foldl (ensure_root now) d roots).
Proof.
  revert d. induction roots as [|c roots IH]; intros d [H1 H2]; [done|]. apply IH.
  split; [by apply ensure_root_unique|by apply ensure_root_readiness_unique].
Qed.

Lemma ensure_all_by_key now roots d k : NoDup (rc_id <$> roots) →
  by_key nr_id k (rt_roots (foldl (ensure_root now) d roots)) =
    match configured roots k with
    | Some c => Some (stored_root now (from_option nr_created_at now (by_key nr_id k (rt_roots d))) c)
    | None => by_key nr_id k (rt_roots d)
    end.
Proof.
  revert d. induction roots as [|c roots IH]; intros d Hn; [done|].
  rewrite fmap_cons, NoDup_cons in Hn. destruct Hn as [Hc Hn]. simpl. rewrite IH by done.
  rewrite ensure_root_by_key. destruct (decide (rc_id c = k)) as [<-|Hk].
  - rewrite !bool_decide_true by done. apply configured_None in Hc. by rewrite Hc.
  - rewrite !bool_decide_false by congruence. done.
Qed.

Lemma ensure_all_readiness now roots d k : NoDup (rc_id <$> roots) → roots_ok d →
  getRootReadiness k (foldl (ensure_root now) d roots) =
    match by_key nr_id k (rt_roots d), configured roots k with
    | Some r, Some c => if same_identity r c then getRootReadiness k d else None
    | _, _ => getRootReadiness k d
    end.
Proof.
  revert d. induction roots as [|c roots IH]; intros d Hn Hd; [simpl; by destruct (by_key nr_id k _)|].
  rewrite fmap_cons, NoDup_cons in Hn. destruct Hn as [Hc Hn]. simpl foldl.
  rewrite IH; [|done|apply (ensure_all_ok now [c] d Hd)].
  rewrite ensure_root_by_key, ensure_root_readiness_by_key by apply Hd. cbn [configured List.find].
  destruct (decide (rc_id c = k)) as [<-|Hk].
  - rewrite !bool_decide_true by done. apply configured_None in Hc. rewrite Hc. simpl.
    destruct (by_key nr_id (rc_id c) _) as [r|]; [|done]. by destruct (same_identity r c).
  - rewrite !bool_decide_false by congruence. simpl. unfold configured. by destruct (by_key nr_id k _).
Qed.

Lemma disableMissing_by_key now ids d k : ids ≠ [] →
  by_key nr_id k (rt_roots (disableMissing now ids d)) =
    (λ r, if bool_decide (k ∈ ids) then r else disable now r) <$> by_key nr_id k (rt_roots d).
Proof.
  intros Hids. simpl. rewrite by_key_update by done.
  destruct (by_key nr_id k _) as [r|] eqn:E; [|done]. apply by_key_Some in E as [_ <-]. simpl.
  rewrite (bool_decide_false (ids = [])) by done. simpl. by destruct (bool_decide (nr_id r ∈ ids)).
Qed.

Lemma getNasRoot_by_key id d : unique_keys nr_id (rt_roots d) →
  getNasRoot id d = match by_key nr_id id (rt_roots d) with Some r => if nr_enabled r then Some r else None | None => None end.
Proof.
  unfold getNasRoot. intros Hu. destruct (by_key nr_id id (rt_roots d)) as [r|] eqn:E.
  - apply by_key_Some in E as [Hr <-]. destruct (get_row _ _) as [x|] eqn:Ex.
    + apply get_row_Some in Ex as [Hx [Hk He]%andb_prop]. apply has_key_true in Hk.
      rewrite (unique_key_eq nr_id _ x r Hu Hx Hr Hk) in He |- *. by rewrite He.
    + rewrite get_row_None in Ex. specialize (Ex r Hr). unfold has_key in Ex. rewrite bool_decide_true in Ex by done.
      simpl in Ex. by rewrite Ex.
  - apply get_row_None. intros r Hr. rewrite by_key_None in E. unfold has_key. by rewrite bool_decide_false by (by apply E).
Qed.

(** ** The quick test *)
Lemma distinct_length {A} `{EqDecision A} (l : list A) : NoDup l → length (distinct l) = length l.
Proof.
  unfold distinct. enough (∀ seen, NoDup (seen ++ l) →
    foldl (λ s x, if bool_decide (x ∈ s) then s else s ++ [x]) seen l = seen ++ l) as H by (intros; by rewrite H).
  induction l as [|x l IH]; intros seen Hn; [by rewrite app_nil_r|]. simpl.
  rewrite bool_decide_false.
  - rewrite IH; by rewrite <-app_assoc.
  - apply NoDup_app in Hn as (_ & Hn & _). intros Hx. apply (Hn x Hx). by left.
Qed.

(** The enabled roots are the configured ones. *)
Definition agrees (roots : list NasRootConfig) (rows : list nas_root) : Prop := ∀ k,
  match configured roots k with
  | Some c => ∃ r, by_key nr_id k rows = Some r ∧ serves c r
  | None => ∀ r, by_key nr_id k rows = Some r → nr_enabled r = false
  end.

Lemma agrees_ids roots rows : unique_keys nr_id rows → NoDup (rc_id <$> roots) → agrees roots rows →
  nr_id <$> select nr_enabled rows ≡ₚ rc_id <$> roots.
Proof.
  intros Hu Hn Ha. apply NoDup_Permutation; [by apply unique_keys_select|done|]. intros k.
  specialize (Ha k). split.
  - intros (r & -> & Hr)%list_elem_of_fmap. rewrite list_elem_of_In in Hr. apply select_In in Hr as [Hr He].
    destruct (configured roots (nr_id r)) as [c|] eqn:Ec.
    + apply configured_Some in Ec as [Hc <-]. apply list_elem_of_fmap. exists c. by rewrite list_elem_of_In.
    + rewrite (Ha r) in He; [done|]. by apply by_key_unique.
  - intros Hk. destruct (configured roots k) as [c|] eqn:Ec; [|by apply configured_None in Ec].
    destruct Ha as (r & Hr & Hid & He & _). apply by_key_Some in Hr as [Hr <-].
    apply list_elem_of_fmap. exists r. split; [done|]. by rewrite list_elem_of_In, select_In.
Qed.

Lemma match_complete roots rows : unique_keys nr_id rows → NoDup (rc_id <$> roots) → agrees roots rows →
  nasRootsMatchConfig rows roots = true.
Proof.
  intros Hu Hn Ha. pose proof (agrees_ids _ _ Hu Hn Ha) as Hp. unfold nasRootsMatchConfig.
  rewrite distinct_length, length_fmap, bool_decide_true by done. simpl.
  rewrite bool_decide_true by (by rewrite <-(length_fmap nr_id), Hp, length_fmap). simpl.
  destruct (existsb _ _) eqn:Ex.
  { apply existsb_exists in Ex as (r & Hr & Hno). apply negb_true_iff, bool_decide_eq_false in Hno.
    destruct Hno. apply distinct_elem_of. rewrite <-Hp. apply list_elem_of_fmap. exists r. by rewrite list_elem_of_In. }
  apply forallb_forall. intros c Hc. specialize (Ha (rc_id c)). rewrite (configured_In roots c Hn Hc) in Ha.
  destruct Ha as (r & -> & _ & -> & -> & ->). by rewrite bool_decide_true.
Qed.

Lemma match_sound roots rows : NoDup (rc_id <$> roots) → nasRootsMatchConfig rows roots = true → agrees roots rows.
Proof.
  intros Hn. unfold nasRootsMatchConfig. destruct (negb _); [done|].
  destruct (_ || _) eqn:E1; [done|]. apply orb_false_iff in E1 as [_ E1]. rewrite forallb_forall. intros Hall k.
  destruct (configured roots k) as [c|] eqn:Ec.
  - apply configured_Some in Ec as [Hc <-]. specialize (Hall c Hc).
    destruct (by_key nr_id (rc_id c) rows) as [r|] eqn:Er; [|done]. exists r. split; [done|].
    apply andb_prop in Hall as [[He Hna]%andb_prop Hs]. apply bool_decide_eq_true in Hna.
    apply by_key_Some in Er as [_ Er]. done.
  - intros r Hr. destruct (nr_enabled r) eqn:He; [|done]. apply by_key_Some in Hr as [Hr <-].
    apply configured_None in Ec. destruct Ec.
    assert (existsb (λ root, negb (bool_decide (nr_id root ∈ distinct (rc_id <$> roots)))) (select nr_enabled rows) ≠ true) as Hno by congruence.
    rewrite existsb_exists in Hno. apply distinct_elem_of.
    destruct (bool_decide (nr_id r ∈ distinct (rc_id <$> roots))) eqn:Eb; [by apply bool_decide_eq_true in Eb|].
    destruct Hno. exists r. split; [by apply select_In|by rewrite Eb].
Qed.

(** The database after the slow path. *)
Definition rewritten (roots : list NasRootConfig) (now : Z) (d : roots_db) : roots_db :=
  disableMissing now (rc_id <$> roots) (foldl (ensure_root now) d roots).

Lemma rewritten_ok roots now d : roots_ok d → roots_ok (rewritten roots now d).
Proof.
  intros Hd. destruct (ensure_all_ok now roots d Hd) as [H1 H2]. split; [|done]. by apply unique_keys_update.
Qed.

Lemma rewritten_by_key roots now d k : roots ≠ [] → NoDup (rc_id <$> roots) →
  by_key nr_id k (rt_roots (rewritten roots now d)) =
    match configured roots k with
    | Some c => Some (stored_root now (from_option nr_created_at now (by_key nr_id k (rt_roots d))) c)
    | None => disable now <$> by_key nr_id k (rt_roots d)
    end.
Proof.
  intros Hr Hn. unfold rewritten. rewrite disableMissing_by_key by (by destruct roots).
  rewrite ensure_all_by_key by done. destruct (configured roots k) as [c|] eqn:Ec.
  - simpl. rewrite bool_decide_true; [done|]. apply configured_Some in Ec as [Hc <-].
    apply list_elem_of_fmap. exists c. by rewrite list_elem_of_In.
  - apply configured_None in Ec. by rewrite bool_decide_false.
Qed.

Lemma rewritten_agrees roots now d : roots ≠ [] → NoDup (rc_id <$> roots) → agrees roots (rt_roots (rewritten roots now d)).
Proof.
  intros Hr Hn k. rewrite rewritten_by_key by done. destruct (configured roots k) as [c|] eqn:Ec.
  - eexists. split; [done|]. apply stored_serves.
  - by intros r (? & _ & ->)%fmap_Some.
Qed.

(** storing a configuration of distinct roots makes the enabled roots
    exactly the configured ones; no stored root is deleted and none loses its
    creation time; a readiness that stays was measured on the mount that is
    still configured; and doing it again changes nothing, whatever the time. *)
Theorem ensureNasRoots_spec roots now d (Hd : roots_ok d) (Hr : roots ≠ []) (Hn : NoDup (rc_id <$> roots)) :
  ∃ d', ensureNasRoots roots now d = (inr tt, d') ∧ roots_ok d' ∧
    (∀ k, match configured roots k with
          | Some c => ∃ r, getNasRoot k d' = Some r ∧ serves c r
          | None => getNasRoot k d' = None
          end) ∧
    (∀ k r, by_key nr_id k (rt_roots d) = Some r →
       ∃ r', by_key nr_id k (rt_roots d') = Some r' ∧ nr_created_at r' = nr_created_at r) ∧
    (∀ k x, getRootReadiness k d' = Some x → getRootReadiness k d = Some x ∧
       ∀ r r', by_key nr_id k (rt_roots d) = Some r → getNasRoot k d' = Some r' → same_mount r r') ∧
    ∀ later, ensureNasRoots roots later d' = (inr tt, d').
Proof.
  assert (∀ d' later, roots_ok d' → agrees roots (rt_roots d') → ensureNasRoots roots later d' = (inr tt, d')) as Hfast.
  { intros d' later [Hu _] Ha. unfold ensureNasRoots. rewrite bind_gets, (match_complete _ _ Hu Hn Ha). done. }
  assert (∀ d' k, roots_ok d' → agrees roots (rt_roots d') →
    match configured roots k with Some c => ∃ r, getNasRoot k d' = Some r ∧ serves c r | None => getNasRoot k d' = None end) as Hget.
  { intros d' k [Hu _] Ha. rewrite getNasRoot_by_key by done. specialize (Ha k). destruct (configured roots k).
    - destruct Ha as (r & -> & Hs). exists r. split; [|done]. by destruct Hs as (_ & -> & _).
    - destruct (by_key nr_id k _); [|done]. by rewrite Ha. }
  destruct (nasRootsMatchConfig (rt_roots d) roots) eqn:Em.
  - apply match_sound in Em; [|done]. exists d. rewrite Hfast by done. split_and!; [done..| |by eauto|split; [done|]|by auto].
    + intros k. by apply Hget.
    + intros r r' Hr1 Hr2. rewrite getNasRoot_by_key, Hr1 in Hr2 by apply Hd. destruct (nr_enabled r); simplify_eq. done.
  - exists (rewritten roots now d). pose proof (rewritten_ok roots now d Hd) as Hok.
    pose proof (rewritten_agrees roots now d Hr Hn) as Ha.
    assert (ensureNasRoots roots now d = (inr tt, rewritten roots now d)) as ->.
    { unfold ensureNasRoots. by rewrite bind_gets, Em. }
    split_and!; [done|done|intros k; by apply Hget| | |by auto].
    + intros k r Hk. rewrite rewritten_by_key, Hk by done. destruct (configured roots k); eexists; eauto.
    + intros k x Hx. change (getRootReadiness k (rewritten roots now d)) with
        (getRootReadiness k (foldl (ensure_root now) d roots)) in Hx.
      rewrite ensure_all_readiness in Hx by done.
      split.
      { destruct (by_key nr_id k (rt_roots d)) as [r|], (configured roots k) as [c|]; try done.
        by destruct (same_identity r c). }
      intros r r' Hk Hk'. rewrite getNasRoot_by_key, rewritten_by_key, Hk in Hk' by (done || apply Hok).
      rewrite Hk in Hx. destruct (configured roots k) as [c|]; simplify_eq/=.
      destruct (same_identity r c) eqn:Es; [|done]. apply (same_identity_mount _ _ c); [done|].
      by apply bool_decide_eq_true.
Qed.

(** A check of a stored root is what is read back, for this root only; a check
    of an unknown root is refused. *)
Lemma upsertRootReadiness_spec input d (Hd : roots_ok d) :
  (by_key nr_id (rr_rootId input) (rt_roots d) = None → getRootReadiness (rr_rootId input) d = None →
     upsertRootReadiness input d = (inl (SqliteError "SQLITE_CONSTRAINT_FOREIGNKEY"), d)) ∧
  ∀ d', upsertRootReadiness input d = (inr input, d') →
    roots_ok d' ∧ ∀ k, getRootReadiness k d' =
      if bool_decide (k = rr_rootId input) then Some input else getRootReadiness k d.
Proof.
  unfold upsertRootReadiness, getRootReadiness. split; [by intros -> ->|].
  intros d'. destruct Hd as [H1 H2]. destruct (by_key rr_rootId (rr_rootId input) (rt_readiness d)) as [x|] eqn:E.
  - intros [= <-]. simpl. assert (∀ r, has_key rr_rootId (rr_rootId input) r = true → rr_rootId input = rr_rootId r) as Hf
      by (by intros r ->%has_key_true). split; [split; [done|by apply unique_keys_update_on]|].
    intros k. rewrite by_key_update_on by done. destruct (decide (k = rr_rootId input)) as [->|Hk].
    + rewrite E, bool_decide_true by done. simpl. apply by_key_Some in E as [_ E]. unfold has_key. by rewrite bool_decide_true.
    + rewrite bool_decide_false by done. destruct (by_key rr_rootId k (rt_readiness d)) as [y|] eqn:Ey; [|done].
      simpl. apply by_key_Some in Ey as [_ Ey]. unfold has_key. by rewrite bool_decide_false by congruence.
  - cbn [isSome]. destruct (isSome (by_key nr_id (rr_rootId input) (rt_roots d))); [|done]. intros [= <-]. simpl. split; [split; [done|by apply unique_keys_insert]|].
    intros k. rewrite by_key_insert. unfold has_key. destruct (decide (k = rr_rootId input)) as [->|Hk].
    + rewrite E. by rewrite !bool_decide_true.
    + rewrite !bool_decide_false by congruence. by destruct (by_key rr_rootId k (rt_readiness d)).
Qed.

Module Demo.
Definition local : NasRootConfig := RootConfig "local" "Local" "/data" None None None None.
Definition media : NasRootConfig := RootConfig "media" "Media" "/media" (Some mount_required) (Some "/dev/sdb1") None None.
Definition start : roots_db :=
  RootsDb [NasRootRow "local" "Local" "/srv" true mount_optional None None None 1 1;
           NasRootRow "old" "Old" "/old" true mount_optional None None None 2 2]
    [Readiness "local" root_ready 3 None None None None].

(** "local" has moved, so its readiness goes; "old" is disabled. *)
Example stored :
  (ensureNasRoots [local; media] 9 start).2 =
    RootsDb [NasRootRow "local" "Local" "/data" true mount_optional None None None 1 9;
             NasRootRow "old" "Old" "/old" false mount_optional None None None 2 9;
             NasRootRow "media" "Media" "/media" true mount_required (Some "/dev/sdb1") None None 9 9] [].
Proof. reflexivity. Qed.

(** With no root configured nothing is disabled: NOT IN (NULL). *)
Example empty_config_disables_nothing :
  listNasRoots (ensureNasRoots [] 9 start).2 = listNasRoots start ∧ listNasRoots start ≠ [].
Proof. done. Qed.
End Demo.

Lemma ensureNasRoots_spec_witness :
  let d := Demo.start in
  ∃ d', ensureNasRoots [Demo.local; Demo.media] 9 d = (inr tt, d') ∧ getNasRoot "old" d' = None ∧
    ∀ later, ensureNasRoots [Demo.local; Demo.media] later d' = (inr tt, d').
Proof.
  destruct (ensureNasRoots_spec [Demo.local; Demo.media] 9 Demo.start) as (d' & E & _ & Hget & _ & _ & Hid).
  - split; apply (bool_decide_unpack _); vm_compute; exact I.
  - discriminate.
  - apply (bool_decide_unpack _); vm_compute; exact I.
  - exists d'. split; [exact E|]. split; [exact (Hget "old")|exact Hid].
Defined.
