(* ===== verification/TerminalTabs.v ===== *)
(** * Terminal tabs

    packages/db/src/repositories/terminal-tabs.ts over the tables
    [terminal_tabs] and [terminal_tab_sets] of migration 015, with their keys,
    checks, references and triggers.  A root's set remembers the next ordinal
    and the active tab. *)
From Stdlib Require Import Ascii.
From S2P Require Import Prelude Sql JsString NasRoots.
Open Scope Z_scope.

Record TerminalTab := Tab {
  tt_id : string;
  tt_rootId : string;
  tt_ordinal : Z;
  tt_customTitle : option string;
  tt_createdAt : Z;
  tt_updatedAt : Z
}.

Record terminal_tab_set := TabSet {
  ts_root_id : string;
  ts_active_tab_id : option string;
  ts_next_ordinal : Z;
  ts_initialized_at : Z;
  ts_updated_at : Z
}.

Record TerminalTabState := TabState {
  tst_initialized : bool;
  tst_tabs : list TerminalTab;
  tst_activeTabId : option string;
  tst_maxSessions : Z
}.

Record tabs_db := TabsDb { tb_tabs : list TerminalTab; tb_sets : list terminal_tab_set; tb_roots : roots_db }.
#[export] Instance tabs_db_eta : Eta tabs_db := λ d, TabsDb (tb_tabs d) (tb_sets d) (tb_roots d).
#[export] Instance terminal_tab_eta : Eta TerminalTab := λ t,
  Tab (tt_id t) (tt_rootId t) (tt_ordinal t) (tt_customTitle t) (tt_createdAt t) (tt_updatedAt t).
#[export] Instance terminal_tab_set_eta : Eta terminal_tab_set := λ s,
  TabSet (ts_root_id s) (ts_active_tab_id s) (ts_next_ordinal s) (ts_initialized_at s) (ts_updated_at s).
Notation tabs_prog := (prog tabs_db).

(** ** The constraints of the tables *)
(** SQLite's [length] counts up to the first NUL; its [trim] strips blanks. *)
Fixpoint sqlite_length (s : string) : Z :=
  match s with
  | EmptyString => 0
  | String c s => if Ascii.eqb c "000" then 0 else 1 + sqlite_length s
  end.
Definition sqlite_trimmed (s : string) : bool := negb (startsWith " " s) && negb (endsWith_char " " s).
Definition title_check (t : option string) : bool :=
  match t with
  | None => true
  | Some s => bool_decide (1 ≤ sqlite_length s ≤ 64) && sqlite_trimmed s
  end.
Definition tab_check (t : TerminalTab) : bool := bool_decide (0 < tt_ordinal t) && title_check (tt_customTitle t).

Definition same_place (a b : TerminalTab) : bool :=
  bool_decide (tt_rootId a = tt_rootId b ∧ tt_ordinal a = tt_ordinal b).
Definition insert_tab (t : TerminalTab) : tabs_prog unit := λ d,
  if negb (tab_check t) then (inl (SqliteError "SQLITE_CONSTRAINT_CHECK"), d)
  else if isSome (by_key tt_id (tt_id t) (tb_tabs d)) then (inl (SqliteError "SQLITE_CONSTRAINT_PRIMARYKEY"), d)
  else if exists_where (same_place t) (tb_tabs d) then (inl (SqliteError "SQLITE_CONSTRAINT_UNIQUE"), d)
  else if negb (isSome (by_key nr_id (tt_rootId t) (rt_roots (tb_roots d))))
  then (inl (SqliteError "SQLITE_CONSTRAINT_FOREIGNKEY"), d)
  else (inr tt, d <| tb_tabs := insert_row t (tb_tabs d) |>).

(** trg_terminal_tab_sets_active_insert and _update. *)
Definition active_belongs (root : string) (active : option string) (d : tabs_db) : bool :=
  match active with
  | None => true
  | Some id => exists_where (λ t, has_key tt_id id t && bool_decide (tt_rootId t = root)) (tb_tabs d)
  end.
Definition trigger_error : exn := SqliteError "SQLITE_CONSTRAINT_TRIGGER".

Definition insert_set (s : terminal_tab_set) : tabs_prog unit := λ d,
  if negb (active_belongs (ts_root_id s) (ts_active_tab_id s) d) then (inl trigger_error, d)
  else if isSome (by_key ts_root_id (ts_root_id s) (tb_sets d)) then (inl (SqliteError "SQLITE_CONSTRAINT_PRIMARYKEY"), d)
  else if negb (isSome (by_key nr_id (ts_root_id s) (rt_roots (tb_roots d))))
  then (inl (SqliteError "SQLITE_CONSTRAINT_FOREIGNKEY"), d)
  else (inr tt, d <| tb_sets := insert_row s (tb_sets d) |>).

(** UPDATE terminal_tab_sets SET active_tab_id = ..., with the trigger. *)
Definition update_active (rootId : string) (active : option string) (f : terminal_tab_set → terminal_tab_set) : tabs_prog unit := λ d,
  if isSome (by_key ts_root_id rootId (tb_sets d)) && negb (active_belongs rootId active d) then (inl trigger_error, d)
  else (inr tt, d <| tb_sets := update_where (has_key ts_root_id rootId) (λ s, f s <| ts_active_tab_id := active |>) (tb_sets d) |>).

(** UPDATE terminal_tabs SET custom_title = ?, updated_at = ? WHERE id = ? *)
Definition update_title (id : string) (title : option string) (now : Z) : tabs_prog unit := λ d,
  if isSome (by_key tt_id id (tb_tabs d)) && negb (title_check title) then (inl (SqliteError "SQLITE_CONSTRAINT_CHECK"), d)
  else (inr tt, d <| tb_tabs := update_where (has_key tt_id id)
                       (λ t, t <| tt_customTitle := title |> <| tt_updatedAt := now |>) (tb_tabs d) |>).

(** ** Reading *)
Definition getTerminalTab (id : string) (d : tabs_db) : option TerminalTab := by_key tt_id id (tb_tabs d).
Definition getTerminalTabSet (rootId : string) (d : tabs_db) : option terminal_tab_set := by_key ts_root_id rootId (tb_sets d).
Definition in_root (rootId : string) (t : TerminalTab) : bool := bool_decide (tt_rootId t = rootId).
Definition by_ordinal (a b : TerminalTab) : bool := bool_decide (tt_ordinal a ≤ tt_ordinal b).
Definition listTerminalTabs (rootId : string) (d : tabs_db) : list TerminalTab :=
  order_by by_ordinal (select (in_root rootId) (tb_tabs d)).
Definition getTerminalTabState (rootId : string) (maxSessions : Z) (d : tabs_db) : TerminalTabState :=
  let set := getTerminalTabSet rootId d in
  TabState (isSome set) (listTerminalTabs rootId d) (set ≫= ts_active_tab_id) maxSessions.

(** ** Changing *)
Definition createTerminalTabSet (rootId : string) (now : Z) : tabs_prog unit :=
  insert_set (TabSet rootId None 1 now now).

Definition insertTerminalTab (rootId : string) (maxSessions : Z) (requestedId : option string) (uuid : string) (now : Z) :
    tabs_prog TerminalTab :=
  count ← gets (λ d, Z.of_nat (length (tb_tabs d)));
  _ ← guard_throw (bool_decide (maxSessions ≤ count)) (Error "Terminal session limit reached");
  set ← gets (getTerminalTabSet rootId);
  match set with
  | None => throw (Error "Terminal tab set is not initialized")
  | Some set =>
      let tab := Tab (requestedId ⁇ uuid) rootId (ts_next_ordinal set) None now now in
      _ ← insert_tab tab;
      _ ← update_active rootId (Some (tt_id tab))
            (λ s, s <| ts_next_ordinal := tt_ordinal tab + 1 |> <| ts_updated_at := now |>);
      mret tab
  end.

Definition initializeTerminalTabs (rootId : string) (maxSessions : Z) (legacySessionId : option string)
    (uuid : string) (setNow now : Z) : tabs_prog TerminalTabState := transaction (
  existingSet ← gets (getTerminalTabSet rootId);
  _ ← match existingSet with
      | None =>
          _ ← createTerminalTabSet rootId setNow;
          _ ← insertTerminalTab rootId maxSessions legacySessionId uuid now;
          mret tt
      | Some _ =>
          match legacySessionId with
          | None => mret tt
          | Some legacy =>
              if bool_decide (legacy = "") then mret tt else
              existingTab ← gets (getTerminalTab legacy);
              match existingTab with
              | Some t => guard_throw (negb (bool_decide (tt_rootId t = rootId))) (Error "Terminal session is not available")
              | None => _ ← insertTerminalTab rootId maxSessions (Some legacy) uuid now; mret tt
              end
          end
      end;
  gets (getTerminalTabState rootId maxSessions)).

Definition createTerminalTab (rootId : string) (maxSessions : Z) (uuid : string) (setNow now : Z) :
    tabs_prog TerminalTabState := transaction (
  set ← gets (getTerminalTabSet rootId);
  _ ← (if isSome set then mret tt else createTerminalTabSet rootId setNow);
  _ ← insertTerminalTab rootId maxSessions None uuid now;
  gets (getTerminalTabState rootId maxSessions)).

(** Every operation on an existing tab answers the state of its root. *)
Definition on_tab (id : string) (maxSessions : Z) (m : TerminalTab → tabs_prog unit) :
    tabs_prog (option TerminalTabState) := transaction (
  tab ← gets (getTerminalTab id);
  match tab with
  | None => mret None
  | Some tab => _ ← m tab; state ← gets (getTerminalTabState (tt_rootId tab) maxSessions); mret (Some state)
  end).

Definition activateTerminalTab (id : string) (maxSessions now : Z) : tabs_prog (option TerminalTabState) :=
  on_tab id maxSessions (λ tab,
    update_active (tt_rootId tab) (Some (tt_id tab)) (λ s, s <| ts_updated_at := now |>)).

Definition touch_set (rootId : string) (now : Z) : tabs_prog unit := modify (λ d,
  d <| tb_sets := update_where (has_key ts_root_id rootId) (λ s, s <| ts_updated_at := now |>) (tb_sets d) |>).

Definition renameTerminalTab (id : string) (customTitle : option string) (maxSessions now : Z) :
    tabs_prog (option TerminalTabState) :=
  on_tab id maxSessions (λ tab, _ ← update_title (tt_id tab) customTitle now; touch_set (tt_rootId tab) now).

(** The tab that takes the place of [tab]: the next one to the right, or the
    nearest one to the left. *)
Definition after (o : Z) (t : TerminalTab) : bool := bool_decide (o < tt_ordinal t).
Definition replacement_order (o : Z) (a b : TerminalTab) : bool :=
  match after o a, after o b with
  | true, false => true
  | false, true => false
  | true, true => bool_decide (tt_ordinal a ≤ tt_ordinal b)
  | false, false => bool_decide (- tt_ordinal a ≤ - tt_ordinal b)
  end.
Definition replacement (tab : TerminalTab) (d : tabs_db) : option TerminalTab :=
  first_by (replacement_order (tt_ordinal tab))
    (λ t, in_root (tt_rootId tab) t && negb (has_key tt_id (tt_id tab) t)) (tb_tabs d).

Definition delete_row (now : Z) (tab : TerminalTab) : tabs_prog unit :=
  set ← gets (getTerminalTabSet (tt_rootId tab));
  _ ← (if bool_decide (set ≫= ts_active_tab_id = Some (tt_id tab))
       then next ← gets (replacement tab);
            update_active (tt_rootId tab) (tt_id <$> next) (λ s, s <| ts_updated_at := now |>)
       else touch_set (tt_rootId tab) now);
  modify (λ d, d <| tb_tabs := delete_where (has_key tt_id (tt_id tab)) (tb_tabs d) |>).
Definition deleteTerminalTab (id : string) (maxSessions now : Z) : tabs_prog (option TerminalTabState) :=
  on_tab id maxSessions (delete_row now).

(** ** The invariant *)
Definition place (t : TerminalTab) : string * Z := (tt_rootId t, tt_ordinal t).

(** A set's active tab is one of its root's tabs; without one the root has
    no tab. *)
Definition active_ok (d : tabs_db) (s : terminal_tab_set) : Prop :=
  match ts_active_tab_id s with
  | Some a => ∃ t, getTerminalTab a d = Some t ∧ tt_rootId t = ts_root_id s
  | None => ∀ t, In t (tb_tabs d) → tt_rootId t ≠ ts_root_id s
  end.
(** A tab has a set, whose next ordinal is still free. *)
Definition tab_ok (d : tabs_db) (t : TerminalTab) : Prop :=
  title_check (tt_customTitle t) = true ∧
  ∃ s, getTerminalTabSet (tt_rootId t) d = Some s ∧ 0 < tt_ordinal t < ts_next_ordinal s.

Record tabs_ok (d : tabs_db) : Prop := TabsOk {
  ok_ids : unique_keys tt_id (tb_tabs d);
  ok_roots : unique_keys ts_root_id (tb_sets d);
  ok_places : unique_keys place (tb_tabs d);
  ok_next : ∀ s, In s (tb_sets d) → 0 < ts_next_ordinal s;
  ok_tabs : ∀ t, In t (tb_tabs d) → tab_ok d t;
  ok_active : ∀ s, In s (tb_sets d) → active_ok d s
}.

Lemma active_belongs_true root id d :
  active_belongs root (Some id) d = true ↔ ∃ t, In t (tb_tabs d) ∧ tt_id t = id ∧ tt_rootId t = root.
Proof.
  simpl. rewrite exists_where_true. apply exist_proper. intros t. unfold has_key.
  rewrite andb_true_iff, !bool_decide_eq_true. done.
Qed.

(** What a successful insertion writes. *)
Definition with_tab (t : TerminalTab) (now : Z) (d : tabs_db) : tabs_db :=
  TabsDb (insert_row t (tb_tabs d))
    (update_where (has_key ts_root_id (tt_rootId t))
       (λ s, s <| ts_next_ordinal := tt_ordinal t + 1 |> <| ts_updated_at := now |> <| ts_active_tab_id := Some (tt_id t) |>)
       (tb_sets d)) (tb_roots d).

Lemma insertTerminalTab_inv rootId max requested uuid now d t d' :
  insertTerminalTab rootId max requested uuid now d = (inr t, d') →
  ∃ s, getTerminalTabSet rootId d = Some s ∧ Z.of_nat (length (tb_tabs d)) < max ∧
    t = Tab (requested ⁇ uuid) rootId (ts_next_ordinal s) None now now ∧
    getTerminalTab (tt_id t) d = None ∧ 0 < tt_ordinal t ∧ d' = with_tab t now d.
Proof.
  unfold insertTerminalTab. rewrite bind_gets. intros ([] & d0 & [Hmax ->]%guard_inv & H)%bind_inv.
  apply bool_decide_eq_false in Hmax. rewrite bind_gets in H.
  destruct (getTerminalTabSet rootId d) as [s|] eqn:Es; [|done]. cbv zeta in H.
  apply bind_inv in H as ([] & d1 & Hi & H). apply bind_inv in H as ([] & d2 & Hu & [= <- <-]).
  exists s. split; [done|]. split; [lia|].
  set (t := Tab (requested ⁇ uuid) rootId (ts_next_ordinal s) None now now) in *. split; [done|].
  unfold insert_tab in Hi. destruct (negb (tab_check t)) eqn:Ec; [done|].
  destruct (by_key tt_id (tt_id t) (tb_tabs d)) eqn:Ei; [done|]. simpl in Hi.
  repeat case_match; simplify_eq.
  split; [done|]. apply negb_false_iff, andb_prop in Ec as [Ho _]. apply bool_decide_eq_true in Ho.
  split; [done|]. unfold update_active in Hu. case_match; simplify_eq. done.
Qed.

(** Updates of the sets of one root. *)
Lemma set_update_get f root root' sets : (∀ s, ts_root_id (f s) = ts_root_id s) →
  by_key ts_root_id root' (update_where (has_key ts_root_id root) f sets) =
    (λ s, if bool_decide (root' = root) then f s else s) <$> by_key ts_root_id root' sets.
Proof.
  intros Hf. rewrite by_key_update by done. destruct (by_key ts_root_id root' sets) as [s|] eqn:E; [|done].
  apply by_key_Some in E as [_ <-]. simpl. unfold has_key. by case_bool_decide.
Qed.

Lemma active_ok_tabs d d' s : tb_tabs d' = tb_tabs d → active_ok d s → active_ok d' s.
Proof. unfold active_ok, getTerminalTab. by intros ->. Qed.

(** Sets may be updated as long as roots, ordinals and actives stay right. *)
Lemma update_sets_ok root g d : tabs_ok d →
  (∀ s, ts_root_id (g s) = ts_root_id s ∧ ts_next_ordinal (g s) = ts_next_ordinal s) →
  (∀ s, In s (tb_sets d) → ts_root_id s = root → active_ok d (g s)) →
  tabs_ok (d <| tb_sets := update_where (has_key ts_root_id root) g (tb_sets d) |>).
Proof.
  intros [H1 H2 H3 H4 H5 H6] Hg Ha. split; simpl; try done.
  - apply unique_keys_update; [|done]. intros s. apply Hg.
  - intros s (s0 & Hs & ->)%update_where_In. destruct (has_key _ _ s0); [destruct (Hg s0) as [_ ->]|]; auto.
  - intros t Ht. destruct (H5 t Ht) as [Hc (s & Hs & Ho)]. split; [done|].
    unfold getTerminalTabSet in *. simpl. rewrite set_update_get, Hs by (intros; apply Hg). simpl. eexists. split; [done|].
    destruct (bool_decide _); [|done]. by destruct (Hg s) as [_ ->].
  - intros s (s0 & Hs & ->)%update_where_In. apply (active_ok_tabs d); [done|].
    destruct (has_key ts_root_id root s0) eqn:E; [|auto]. apply has_key_true in E. auto.
Qed.

Lemma new_set_ok rootId now d : tabs_ok d → getTerminalTabSet rootId d = None →
  tabs_ok (d <| tb_sets := insert_row (TabSet rootId None 1 now now) (tb_sets d) |>).
Proof.
  intros [H1 H2 H3 H4 H5 H6] Hn. split; simpl; try done.
  - by apply unique_keys_insert.
  - intros s [Hs| ->]%insert_row_In; [auto|simpl; lia].
  - intros t Ht. destruct (H5 t Ht) as [Hc (s & Hs & Ho)]. split; [done|]. exists s. split; [|done].
    unfold getTerminalTabSet in *. simpl. by rewrite by_key_insert, Hs.
  - intros s [Hs| ->]%insert_row_In; [by apply (active_ok_tabs d), H6|].
    intros t Ht. destruct (H5 t Ht) as [_ (s & Hs & _)]. simpl. congruence.
Qed.

Lemma with_tab_ok t s now d : tabs_ok d →
  getTerminalTabSet (tt_rootId t) d = Some s → tt_ordinal t = ts_next_ordinal s →
  getTerminalTab (tt_id t) d = None → title_check (tt_customTitle t) = true →
  tabs_ok (with_tab t now d).
Proof.
  intros [H1 H2 H3 H4 H5 H6] Hs Ho Hid Hc.
  pose proof (by_key_Some _ _ _ _ Hs) as [Hin Hr]. pose proof (H4 s Hin) as Hpos.
  assert (∀ t', In t' (tb_tabs d) → place t' ≠ place t) as Hplace.
  { intros t' Ht' [= E1 E2]. destruct (H5 t' Ht') as [_ (s' & Hs' & Ho')]. rewrite E1 in Hs'.
    rewrite Hs' in Hs. simplify_eq. lia. }
  assert (∀ root' s', getTerminalTabSet root' d = Some s' → ∃ s'', getTerminalTabSet root' (with_tab t now d) = Some s'' ∧
    ts_next_ordinal s' ≤ ts_next_ordinal s'' ∧ (root' = tt_rootId t → tt_ordinal t < ts_next_ordinal s'')) as Hsets.
  { intros root' s' Hs'. unfold getTerminalTabSet in *. simpl. rewrite set_update_get, Hs' by done. simpl.
    eexists. split; [done|]. case_bool_decide as E; simpl; [|by split; [lia|]].
    rewrite E, Hs in Hs'. simplify_eq. lia. }
  split.
  - by apply unique_keys_insert.
  - by apply unique_keys_update.
  - apply unique_keys_insert; [done|]. apply by_key_None. auto.
  - intros s' (s0 & Hs0 & ->)%update_where_In. destruct (has_key _ _ s0); simpl; [lia|auto].
  - intros t' [Ht'| ->]%insert_row_In.
    + destruct (H5 t' Ht') as [Hc' (s' & Hs' & Ho')]. split; [done|].
      destruct (Hsets _ _ Hs') as (s'' & -> & Hle & _). exists s''. split; [done|lia].
    + split; [done|]. destruct (Hsets _ _ Hs) as (s'' & -> & Hle & Hlt). exists s''. split; [done|].
      specialize (Hlt eq_refl). lia.
  - intros s' (s0 & Hs0 & ->)%update_where_In. unfold active_ok, getTerminalTab. simpl.
    destruct (has_key ts_root_id (tt_rootId t) s0) eqn:E; simpl.
    + apply has_key_true in E. exists t. rewrite by_key_insert. unfold getTerminalTab in Hid. rewrite Hid.
      unfold has_key. rewrite bool_decide_true by done. done.
    + specialize (H6 s0 Hs0). unfold active_ok in H6. destruct (ts_active_tab_id s0) as [a|].
      * destruct H6 as (t0 & Ht0 & Hr0). exists t0. unfold getTerminalTab in Ht0. by rewrite by_key_insert, Ht0.
      * intros t' [Ht'| ->]%insert_row_In; [auto|]. apply bool_decide_eq_false in E. congruence.
Qed.

(** A tab leaves, and the set of its root is updated by [g]. *)
Definition without_tab (tab : TerminalTab) (g : terminal_tab_set → terminal_tab_set) (d : tabs_db) : tabs_db :=
  TabsDb (delete_where (has_key tt_id (tt_id tab)) (tb_tabs d))
    (update_where (has_key ts_root_id (tt_rootId tab)) g (tb_sets d)) (tb_roots d).

Definition next_active_ok (tab : TerminalTab) (active : option string) (d : tabs_db) : Prop :=
  match active with
  | Some a => a ≠ tt_id tab ∧ ∃ t, getTerminalTab a d = Some t ∧ tt_rootId t = tt_rootId tab
  | None => ∀ t, In t (tb_tabs d) → tt_rootId t = tt_rootId tab → tt_id t = tt_id tab
  end.

Lemma deleted_get a id d : unique_keys tt_id (tb_tabs d) →
  by_key tt_id a (delete_where (has_key tt_id id) (tb_tabs d)) = if bool_decide (a = id) then None else getTerminalTab a d.
Proof.
  intros Hu. rewrite by_key_delete by done. unfold getTerminalTab.
  destruct (by_key tt_id a (tb_tabs d)) as [t|] eqn:E; [|by case_bool_decide].
  apply by_key_Some in E as [_ <-]. unfold has_key. done.
Qed.

Lemma without_tab_ok tab g d : tabs_ok d → getTerminalTab (tt_id tab) d = Some tab →
  (∀ s, ts_root_id (g s) = ts_root_id s ∧ ts_next_ordinal (g s) = ts_next_ordinal s) →
  (∀ s, getTerminalTabSet (tt_rootId tab) d = Some s → next_active_ok tab (ts_active_tab_id (g s)) d) →
  tabs_ok (without_tab tab g d).
Proof.
  intros [H1 H2 H3 H4 H5 H6] Hid Hg Ha. split.
  - by apply unique_keys_delete.
  - apply unique_keys_update; [|done]. intros s. apply Hg.
  - by apply unique_keys_delete.
  - intros s (s0 & Hs & ->)%update_where_In. destruct (has_key _ _ s0); [destruct (Hg s0) as [_ ->]|]; auto.
  - intros t [Ht _]%delete_where_In. destruct (H5 t Ht) as [Hc (s & Hs & Ho)]. split; [done|].
    unfold getTerminalTabSet in *. simpl. rewrite set_update_get, Hs by (intros; apply Hg). simpl. eexists. split; [done|].
    destruct (bool_decide _); [|done]. by destruct (Hg s) as [_ ->].
  - intros s (s0 & Hs & ->)%update_where_In. unfold active_ok, getTerminalTab. simpl. destruct (Hg s0) as [Hr _].
    destruct (has_key ts_root_id (tt_rootId tab) s0) eqn:E.
    + apply has_key_true in E. rewrite Hr, E.
      assert (getTerminalTabSet (tt_rootId tab) d = Some s0) as Hs0 by (rewrite <-E; by apply by_key_unique).
      specialize (Ha s0 Hs0). unfold next_active_ok in Ha. destruct (ts_active_tab_id (g s0)) as [a|].
      * destruct Ha as [Hne (t & Ht & Hrt)]. exists t. rewrite deleted_get by done. by rewrite bool_decide_false.
      * intros t [Ht Hk]%delete_where_In Hrt. apply Ha in Hrt; [|done]. unfold has_key in Hk.
        by apply bool_decide_eq_false in Hk.
    + specialize (H6 s0 Hs). unfold active_ok in H6. destruct (ts_active_tab_id s0) as [a|].
      * destruct H6 as (t & Ht & Hrt). exists t. rewrite deleted_get by done. rewrite bool_decide_false; [done|].
        intros ->. rewrite Hid in Ht. simplify_eq. apply bool_decide_eq_false in E. congruence.
      * intros t [Ht _]%delete_where_In. auto.
Qed.

Lemma replacement_Some tab t d : replacement tab d = Some t →
  In t (tb_tabs d) ∧ tt_rootId t = tt_rootId tab ∧ tt_id t ≠ tt_id tab.
Proof.
  intros [Ht [Hr Hk]%andb_prop]%first_by_In. apply bool_decide_eq_true in Hr.
  by apply negb_true_iff, bool_decide_eq_false in Hk.
Qed.

Lemma replacement_None tab d : replacement tab d = None → next_active_ok tab None d.
Proof.
  intros H t Ht Hr. unfold replacement in H. rewrite first_by_None in H. specialize (H t Ht). unfold in_root, has_key in H.
  rewrite bool_decide_true in H by done. simpl in H. by apply negb_false_iff, bool_decide_eq_true in H.
Qed.

(** What the operations on a tab write. *)
Lemma on_tab_inv id max m d r d' : on_tab id max m d = (inr r, d') →
  (getTerminalTab id d = None ∧ r = None ∧ d' = d) ∨
  ∃ tab, getTerminalTab id d = Some tab ∧ m tab d = (inr tt, d') ∧ r = Some (getTerminalTabState (tt_rootId tab) max d').
Proof.
  unfold on_tab, transaction. rewrite bind_gets. destruct (getTerminalTab id d) as [tab|] eqn:E; [|naive_solver].
  unfold mbind at 1, prog_bind at 1. destruct (m tab d) as [[e|[]] d1] eqn:Em; [done|]. rewrite bind_gets. intros [= <- <-]. eauto.
Qed.

Lemma deleteTerminalTab_inv id max now d r d' : tabs_ok d → deleteTerminalTab id max now d = (inr r, d') →
  (getTerminalTab id d = None ∧ r = None ∧ d' = d) ∨
  ∃ tab s, getTerminalTab id d = Some tab ∧ getTerminalTabSet (tt_rootId tab) d = Some s ∧
    let active := if bool_decide (ts_active_tab_id s = Some id) then tt_id <$> replacement tab d else ts_active_tab_id s in
    d' = without_tab tab (λ s, if bool_decide (ts_active_tab_id s = Some id)
                               then s <| ts_updated_at := now |> <| ts_active_tab_id := tt_id <$> replacement tab d |>
                               else s <| ts_updated_at := now |>) d ∧
    next_active_ok tab active d ∧ r = Some (getTerminalTabState (tt_rootId tab) max d').
Proof.
  intros Hd [?|(tab & Ht & Hm & ->)]%on_tab_inv; [by left|]. right.
  pose proof (by_key_Some _ _ _ _ Ht) as [Hin <-]. destruct (ok_tabs d Hd tab Hin) as [_ (s & Hs & _)].
  exists tab, s. split; [done|]. split; [done|]. cbv zeta. unfold delete_row in Hm. rewrite bind_gets, Hs in Hm. simpl in Hm.
  assert (∀ x, In x (tb_sets d) → ts_root_id x = tt_rootId tab → x = s) as Huniq.
  { intros x Hx Hr. apply (by_key_unique ts_root_id _ x (ok_roots d Hd)) in Hx. unfold getTerminalTabSet in Hs. congruence. }
  pose proof (by_key_Some _ _ _ _ Hs) as [Hsin Hsr]. pose proof (ok_active d Hd s Hsin) as Hact. unfold active_ok in Hact.
  apply bind_inv in Hm as ([] & d1 & Hu & [= <-]).
  case_bool_decide as Ea.
  - rewrite bind_gets in Hu. unfold update_active in Hu.
    destruct (isSome (by_key ts_root_id (tt_rootId tab) (tb_sets d)) && _); [done|]. injection Hu as <-.
    split; [|split; [|done]].
    + unfold without_tab. simpl. f_equal. unfold update_where. apply list_fmap_ext. intros i x Hx.
      destruct (has_key ts_root_id (tt_rootId tab) x) eqn:E; [|done]. apply has_key_true in E.
      rewrite (Huniq x); [by rewrite bool_decide_true|apply list_elem_of_In; by eapply list_elem_of_lookup_2|done].
    + destruct (replacement tab d) as [t|] eqn:Er; simpl; [|by apply replacement_None].
      apply replacement_Some in Er as (Hr1 & Hr2 & Hr3). split; [done|]. exists t. split; [|done].
      apply by_key_unique; [apply ok_ids, Hd|done].
  - injection Hu as <-. split; [|split; [|done]].
    + unfold without_tab. simpl. f_equal. unfold update_where. apply list_fmap_ext. intros i x Hx.
      destruct (has_key ts_root_id (tt_rootId tab) x) eqn:E; [|done]. apply has_key_true in E.
      rewrite (Huniq x); [by rewrite bool_decide_false|apply list_elem_of_In; by eapply list_elem_of_lookup_2|done].
    + destruct (ts_active_tab_id s) as [a|]; simpl.
      * destruct Hact as (t & Hta & Htr). split; [congruence|]. exists t. split; [done|congruence].
      * destruct (Hact tab Hin). congruence.
Qed.

(** ** Every operation keeps the invariant *)
Lemma keeps_ok_transaction {A} (m : tabs_prog A) :
  (∀ d a d', tabs_ok d → m d = (inr a, d') → tabs_ok d') → keeps tabs_ok (transaction m).
Proof. intros H d Hd. destruct (transaction_snd m d) as [->|(a & E)]; eauto. Qed.

Lemma createTerminalTabSet_ok rootId now d d' : tabs_ok d → getTerminalTabSet rootId d = None →
  createTerminalTabSet rootId now d = (inr tt, d') → tabs_ok d'.
Proof.
  intros Hd Hn. unfold createTerminalTabSet, insert_set. simpl. unfold getTerminalTabSet in Hn. rewrite Hn. simpl.
  destruct (by_key nr_id rootId _); [|done]. simpl. intros [= <-]. by apply new_set_ok.
Qed.

Lemma insertTerminalTab_ok rootId max requested uuid now d t d' : tabs_ok d →
  insertTerminalTab rootId max requested uuid now d = (inr t, d') →
  tabs_ok d' ∧ Z.of_nat (length (tb_tabs d')) ≤ max.
Proof.
  intros Hd (s & Hs & Hmax & Et & Hid & Ho & ->)%insertTerminalTab_inv. split.
  - apply (with_tab_ok t s); subst t; done.
  - simpl. unfold insert_row. rewrite length_app. simpl. lia.
Qed.

Section Limit.
Context (maxSessions : Z).

(** The invariant, with no more tabs than the limit. *)
Definition limited (d : tabs_db) : Prop := tabs_ok d ∧ Z.of_nat (length (tb_tabs d)) ≤ maxSessions.

Lemma limited_transaction {A} (m : tabs_prog A) :
  (∀ d a d', limited d → m d = (inr a, d') → limited d') → keeps limited (transaction m).
Proof. intros H d Hd. destruct (transaction_snd m d) as [->|(a & E)]; eauto. Qed.

Lemma insert_limited rootId requested uuid now d t d' : tabs_ok d →
  insertTerminalTab rootId maxSessions requested uuid now d = (inr t, d') → limited d'.
Proof. intros. by eapply insertTerminalTab_ok. Qed.

Lemma initialize_limited rootId legacy uuid setNow now :
  keeps limited (initializeTerminalTabs rootId maxSessions legacy uuid setNow now).
Proof.
  apply limited_transaction. intros d a d' Hd. rewrite bind_gets. intros ([] & d1 & H & [= _ <-])%bind_inv.
  destruct (getTerminalTabSet rootId d) as [s|] eqn:Es.
  - destruct legacy as [l|]; [|by injection H as <-]. case_bool_decide; [by injection H as <-|].
    rewrite bind_gets in H. destruct (getTerminalTab l d); [by apply guard_inv in H as [_ ->]|].
    apply bind_inv in H as (t & d2 & H & [= <-]). eapply insert_limited; [apply Hd|done].
  - apply bind_inv in H as ([] & d0 & Hc & H). apply bind_inv in H as (t & d2 & H & [= <-]).
    eapply insert_limited; [|done]. by eapply createTerminalTabSet_ok; [apply Hd| |].
Qed.

Lemma create_limited rootId uuid setNow now : keeps limited (createTerminalTab rootId maxSessions uuid setNow now).
Proof.
  apply limited_transaction. intros d a d' Hd. rewrite bind_gets.
  intros ([] & d0 & Hc & (t & d1 & H & [= _ <-])%bind_inv)%bind_inv. eapply insert_limited; [|done].
  destruct (getTerminalTabSet rootId d) eqn:Es; simpl in Hc; [injection Hc as <-; apply Hd|].
  by eapply createTerminalTabSet_ok; [apply Hd| |].
Qed.

Lemma activate_limited id now : keeps limited (activateTerminalTab id maxSessions now).
Proof.
  apply limited_transaction. intros d r d' Hd.
  rewrite bind_gets. destruct (getTerminalTab id d) as [tab|] eqn:Et; [|by intros [= _ <-]].
  intros ([] & d1 & H & [= _ <-])%bind_inv. unfold update_active in H.
  destruct (isSome _ && _) eqn:Eb; [done|]. injection H as <-. destruct Hd as [Hd Hl]. split; [|done].
  pose proof (by_key_Some _ _ _ _ Et) as [Hin Hid].
  pose proof (update_sets_ok (tt_rootId tab) (λ s, s <| ts_updated_at := now |> <| ts_active_tab_id := Some (tt_id tab) |>) d) as Hu.
  simpl in Hu. apply Hu; [done..|].
  intros s Hs Hr. unfold active_ok. simpl. exists tab. rewrite Hid. done.
Qed.

Lemma touch_limited rootId now d : limited d → limited (touch_set rootId now d).2.
Proof.
  intros [Hd Hl]. split; [|done].
  pose proof (update_sets_ok rootId (λ s, s <| ts_updated_at := now |>) d) as Hu. simpl in Hu. apply Hu; [done..|]. intros s Hs _. exact (ok_active d Hd s Hs).
Qed.

Lemma update_title_ok id title now d d' : limited d → update_title id title now d = (inr tt, d') → limited d'.
Proof.
  intros [[H1 H2 H3 H4 H5 H6] Hl]. unfold update_title.
  destruct (isSome (by_key tt_id id (tb_tabs d)) && _) eqn:Eb; [done|]. intros [= <-].
  split; [|simpl; by rewrite update_where_length]. split; simpl; try done; try (apply unique_keys_update; done).
  - intros t (t0 & Ht & ->)%update_where_In. destruct (H5 t0 Ht) as [Hc Hs].
    destruct (has_key tt_id id t0) eqn:E; [|done]. split; [|done]. simpl.
    apply andb_false_iff in Eb as [Eb|Eb]; [|by apply negb_false_iff in Eb].
    apply has_key_true in E. rewrite <-E, (by_key_unique tt_id _ t0) in Eb; done.
  - intros s Hs. specialize (H6 s Hs). unfold active_ok, getTerminalTab in *. simpl.
    destruct (ts_active_tab_id s) as [a|].
    + destruct H6 as (t & Ht & Hr). rewrite by_key_update, Ht by done. eexists. split; [done|].
      by destruct (has_key tt_id id t).
    + intros t (t0 & Ht & ->)%update_where_In. specialize (H6 t0 Ht). by destruct (has_key tt_id id t0).
Qed.

Lemma rename_limited id title now : keeps limited (renameTerminalTab id title maxSessions now).
Proof.
  apply limited_transaction. intros d r d' Hd.
  rewrite bind_gets. destruct (getTerminalTab id d) as [tab|] eqn:Et; [|by intros [= _ <-]].
  intros ([] & d1 & ([] & d2 & H & Ht)%bind_inv & [= _ <-])%bind_inv.
  apply update_title_ok in H; [|done]. apply (touch_limited (tt_rootId tab) now) in H. by rewrite Ht in H.
Qed.

Lemma delete_limited id now : keeps limited (deleteTerminalTab id maxSessions now).
Proof.
  intros d [Hd Hl]. destruct (deleteTerminalTab id maxSessions now d) as [[e|r] d'] eqn:E.
  { apply transaction_throw in E as ->. done. }
  apply deleteTerminalTab_inv in E as [(_ & _ & ->)|(tab & s & Ht & Hs & -> & Ha & _)]; [done| |done].
  pose proof (by_key_Some _ _ _ _ Ht) as [Hin Hid]. split.
  - apply without_tab_ok; [done|by rewrite Hid|..].
    + intros x. by destruct (bool_decide (ts_active_tab_id x = Some id)).
    + intros x Hx. rewrite Hs in Hx. injection Hx as <-. by destruct (bool_decide (ts_active_tab_id s = Some id)).
  - simpl. etrans; [|exact Hl]. apply inj_le. unfold delete_where. apply filter_length_le.
Qed.

(** The operations of the API, in any order. *)
Inductive tab_op :=
| op_initialize (rootId : string) (legacySessionId : option string) (uuid : string) (setNow now : Z)
| op_create (rootId uuid : string) (setNow now : Z)
| op_activate (id : string) (now : Z)
| op_rename (id : string) (customTitle : option string) (now : Z)
| op_delete (id : string) (now : Z).

Definition run_op (d : tabs_db) (o : tab_op) : tabs_db :=
  match o with
  | op_initialize root legacy uuid t0 t => (initializeTerminalTabs root maxSessions legacy uuid t0 t d).2
  | op_create root uuid t0 t => (createTerminalTab root maxSessions uuid t0 t d).2
  | op_activate id t => (activateTerminalTab id maxSessions t d).2
  | op_rename id title t => (renameTerminalTab id title maxSessions t d).2
  | op_delete id t => (deleteTerminalTab id maxSessions t d).2
  end.

Lemma run_op_limited d o : limited d → limited (run_op d o).
Proof.
  intros Hd. destruct o; simpl.
  - by apply initialize_limited.
  - by apply create_limited.
  - by apply activate_limited.
  - by apply rename_limited.
  - by apply delete_limited.
Qed.
End Limit.

(** ** The order of the tabs *)
Definition lower (a b : TerminalTab) : Prop := tt_ordinal a < tt_ordinal b.

Lemma listing_In rootId d t : In t (listTerminalTabs rootId d) ↔ In t (tb_tabs d) ∧ tt_rootId t = rootId.
Proof. unfold listTerminalTabs. rewrite order_by_In, select_In. unfold in_root. by rewrite bool_decide_eq_true. Qed.

Lemma ordinal_inj d a b : tabs_ok d → In a (tb_tabs d) → In b (tb_tabs d) →
  tt_rootId a = tt_rootId b → tt_ordinal a = tt_ordinal b → a = b.
Proof. intros Hd Ha Hb Hr Ho. apply (unique_key_eq place _ a b (ok_places d Hd) Ha Hb). unfold place. congruence. Qed.

Lemma listing_sorted rootId d : tabs_ok d → StronglySorted lower (listTerminalTabs rootId d).
Proof.
  intros Hd. assert (StronglySorted (λ a b, by_ordinal a b = true) (listTerminalTabs rootId d)) as Hs.
  { apply order_by_sorted.
    - intros x y. unfold by_ordinal. rewrite !bool_decide_eq_true. lia.
    - intros x y z. unfold by_ordinal. rewrite !bool_decide_eq_true. lia. }
  assert (NoDup (listTerminalTabs rootId d)) as Hn.
  { unfold listTerminalTabs. rewrite order_by_perm. apply (NoDup_fmap_1 tt_id), unique_keys_select, (ok_ids d Hd). }
  assert (∀ t, t ∈ listTerminalTabs rootId d → In t (tb_tabs d) ∧ tt_rootId t = rootId) as Hin
    by (intros t; rewrite list_elem_of_In, listing_In; done).
  induction Hs as [|x l Hl IH Hx]; [constructor|]. apply NoDup_cons in Hn as [Hxl Hn]. constructor.
  - apply IH; [done|]. intros t Ht. apply Hin. by right.
  - rewrite Forall_forall in Hx |- *. intros y Hy. specialize (Hx y Hy). unfold by_ordinal in Hx.
    apply bool_decide_eq_true in Hx. unfold lower. enough (tt_ordinal x ≠ tt_ordinal y) by lia. intros E.
    destruct (Hin x) as [Hx1 Hx2]; [by left|]. destruct (Hin y) as [Hy1 Hy2]; [by right|].
    rewrite (ordinal_inj d x y) in Hxl; [done|done..|congruence|done].
Qed.

Lemma lower_NoDup l : StronglySorted lower l → NoDup l.
Proof.
  induction 1 as [|x l _ IH Hx]; [constructor|]. constructor; [|done]. intros Hin. rewrite Forall_forall in Hx.
  specialize (Hx x Hin). unfold lower in Hx. lia.
Qed.

(** The listing is the one sorted list of the root's tabs. *)
Lemma listing_unique rootId d l : tabs_ok d → StronglySorted lower l →
  (∀ t, In t l ↔ In t (tb_tabs d) ∧ tt_rootId t = rootId) → listTerminalTabs rootId d = l.
Proof.
  intros Hd Hl Hin. pose proof (listing_sorted rootId d Hd) as Hs. apply (StronglySorted_unique_strong lower); [|done..|].
  - unfold lower. lia.
  - apply NoDup_Permutation; [by apply lower_NoDup..|]. intros t. by rewrite !list_elem_of_In, listing_In, Hin.
Qed.

Lemma replacement_total o a b : replacement_order o a b = true ∨ replacement_order o b a = true.
Proof. unfold replacement_order. destruct (after o a), (after o b); auto; rewrite !bool_decide_eq_true; lia. Qed.
Lemma replacement_trans o a b c :
  replacement_order o a b = true → replacement_order o b c = true → replacement_order o a c = true.
Proof.
  unfold replacement_order. destruct (after o a), (after o b), (after o c); auto; try done;
    rewrite !bool_decide_eq_true; lia.
Qed.

(** The replacement is the right neighbour, or else the left one. *)
Section Neighbour.
Context (d : tabs_db) (tab : TerminalTab) (l1 l2 : list TerminalTab).
Context (Hd : tabs_ok d) (El : listTerminalTabs (tt_rootId tab) d = l1 ++ tab :: l2).
Notation o := (tt_ordinal tab).

Lemma neighbour_In t : t ∈ l1 ++ tab :: l2 ↔ In t (tb_tabs d) ∧ tt_rootId t = tt_rootId tab.
Proof using El. by rewrite list_elem_of_In, <-El, listing_In. Qed.

Lemma neighbour_sorted : StronglySorted lower (l1 ++ tab :: l2).
Proof using El Hd. rewrite <-El. by apply listing_sorted. Qed.

Lemma neighbour_left t : t ∈ l1 → t ∈ l1 ++ tab :: l2 ∧ tt_ordinal t < o ∧ after o t = false.
Proof using El Hd.
  intros Ht. pose proof neighbour_sorted as Hs. apply StronglySorted_app in Hs as (H & _ & _).
  assert (tt_ordinal t < o) as Ho by (apply (H t tab Ht); by left). split; [apply elem_of_app; by left|].
  split; [done|]. apply bool_decide_eq_false. lia.
Qed.

Lemma neighbour_right t : t ∈ l2 → t ∈ l1 ++ tab :: l2 ∧ o < tt_ordinal t ∧ after o t = true.
Proof using El Hd.
  intros Ht. pose proof neighbour_sorted as Hs. apply StronglySorted_app in Hs as (_ & _ & [H _]%StronglySorted_cons).
  rewrite Forall_forall in H. specialize (H t Ht). split; [apply elem_of_app; right; by right|].
  split; [done|by apply bool_decide_eq_true].
Qed.

(** The rows the query looks at: the root's other tabs. *)
Lemma neighbour_candidate t :
  (In t (tb_tabs d) ∧ in_root (tt_rootId tab) t && negb (has_key tt_id (tt_id tab) t) = true) ↔ t ∈ l1 ∨ t ∈ l2.
Proof using El Hd.
  assert (In tab (tb_tabs d)) as Htab by (apply (neighbour_In tab), elem_of_app; right; by left).
  unfold in_root, has_key. rewrite andb_true_iff, negb_true_iff, bool_decide_eq_true, bool_decide_eq_false. split.
  - intros (Ht & Hr & Hid). assert (t ∈ l1 ++ tab :: l2) as H by (by apply neighbour_In).
    apply elem_of_app in H as [?|H]; [by left|]. apply elem_of_cons in H as [->|?]; [done|by right].
  - intros H. assert (t ∈ l1 ++ tab :: l2 ∧ tt_ordinal t ≠ o) as [[Ht Hr]%neighbour_In Ho].
    { destruct H as [(?&?&_)%neighbour_left|(?&?&_)%neighbour_right]; (split; [done|lia]). }
    split; [done|]. split; [done|]. intros Hid. destruct Ho. f_equal.
    apply (unique_key_eq tt_id (tb_tabs d)); [apply Hd|done..].
Qed.

Lemma neighbour_eq r t : r ∈ l1 ++ tab :: l2 → t ∈ l1 ++ tab :: l2 → tt_ordinal r = tt_ordinal t → r = t.
Proof using El Hd. intros [Hr Hrr]%neighbour_In [Ht Hrt]%neighbour_In Ho. apply (ordinal_inj d); [done..|congruence|done]. Qed.

(** The least candidate when there are tabs to the right, and when not. *)
Lemma neighbour_least_right t l r : l2 = t :: l → r ∈ l1 ∨ r ∈ l2 → replacement_order o r t = true → r = t.
Proof using El Hd.
  intros E Hr Hord. assert (t ∈ l2) as Ht by (rewrite E; by left). destruct (neighbour_right t Ht) as (_ & _ & Hat).
  unfold replacement_order in Hord. rewrite Hat in Hord.
  destruct Hr as [Hr|Hr]; [destruct (neighbour_left r Hr) as (_ & _ & Har); by rewrite Har in Hord|].
  destruct (neighbour_right r Hr) as (_ & _ & Har). rewrite Har in Hord. apply bool_decide_eq_true in Hord.
  pose proof neighbour_sorted as Hs. rewrite E in Hs, Hr.
  apply StronglySorted_app in Hs as (_ & _ & [_ [Hs _]%StronglySorted_cons]%StronglySorted_cons).
  apply elem_of_cons in Hr as [->|Hr]; [done|]. rewrite Forall_forall in Hs. specialize (Hs r Hr). unfold lower in Hs. lia.
Qed.

Lemma neighbour_least_left x l r : l1 = l ++ [x] → r ∈ l1 → replacement_order o r x = true → r = x.
Proof using El Hd.
  intros E Hr Hord. assert (x ∈ l1) as Hx by (rewrite E; apply elem_of_app; right; by left).
  destruct (neighbour_left r Hr) as (_ & _ & Har). destruct (neighbour_left x Hx) as (_ & _ & Hax).
  unfold replacement_order in Hord. rewrite Har, Hax in Hord. apply bool_decide_eq_true in Hord.
  rewrite E in Hr. apply elem_of_app in Hr as [Hr|Hr%list_elem_of_singleton]; [|done].
  pose proof neighbour_sorted as Hs. rewrite E in Hs. apply StronglySorted_app in Hs as (_ & Hs & _).
  apply StronglySorted_app in Hs as (Hs & _). specialize (Hs r x Hr ltac:(by left)). unfold lower in Hs. lia.
Qed.

End Neighbour.

Lemma replacement_neighbour d tab l1 l2 : tabs_ok d → listTerminalTabs (tt_rootId tab) d = l1 ++ tab :: l2 →
  replacement tab d = match l2 with t :: _ => Some t | [] => last l1 end.
Proof.
  intros Hd El. unfold replacement. destruct (first_by _ _ _) as [r|] eqn:Er.
  - apply first_by_least in Er as (Hr & Hp & Hleast); [|apply replacement_total|apply replacement_trans].
    assert (r ∈ l1 ∨ r ∈ l2) as Hrl by (by apply (neighbour_candidate d tab l1 l2)).
    assert (∀ t, t ∈ l1 ∨ t ∈ l2 → replacement_order (tt_ordinal tab) r t = true) as Hmin.
    { intros t [Ht Hpt]%(neighbour_candidate d tab l1 l2); [|done..]. by apply Hleast. }
    destruct l2 as [|t l].
    + destruct Hrl as [Hrl|Hrl]; [|by apply elem_of_nil in Hrl].
      destruct l1 as [|x l _] using rev_ind; [by apply elem_of_nil in Hrl|].
      rewrite last_snoc. f_equal. eapply (neighbour_least_left d tab (l ++ [x]) []); [done..|].
      apply Hmin. left. apply elem_of_app. right. by left.
    + f_equal. eapply (neighbour_least_right d tab l1 (t :: l)); [done..|]. apply Hmin. right. by left.
  - rewrite first_by_None in Er. assert (∀ t, ¬ (t ∈ l1 ∨ t ∈ l2)) as Hno.
    { intros t [Ht Hp]%(neighbour_candidate d tab l1 l2); [|done..]. by rewrite Er in Hp. }
    destruct l2 as [|t l]; [|destruct (Hno t); right; by left].
    destruct l1 as [|x l _] using rev_ind; [done|]. destruct (Hno x). left. apply elem_of_app. right. by left.
Qed.

(** ** The theorems *)
(** The state of a root, as the API shows it. *)
Definition state_of (rootId : string) (d : tabs_db) : bool * list TerminalTab * option string :=
  let s := getTerminalTabState rootId 0 d in (tst_initialized s, tst_tabs s, tst_activeTabId s).

Lemma on_tab_Some id max m tab d d1 : getTerminalTab id d = Some tab → m tab d = (inr tt, d1) →
  on_tab id max m d = (inr (Some (getTerminalTabState (tt_rootId tab) max d1)), d1).
Proof. intros Ht Hm. unfold on_tab, transaction. rewrite bind_gets, Ht. by rewrite (bind_inr _ _ _ _ _ Hm). Qed.

Lemma delete_row_runs now tab d : ∃ d', delete_row now tab d = (inr tt, d').
Proof.
  unfold delete_row. rewrite bind_gets. cbv beta. case_bool_decide; [|eexists; reflexivity].
  enough (∃ d1, update_active (tt_rootId tab) (tt_id <$> replacement tab d) (λ s, s <| ts_updated_at := now |>) d = (inr tt, d1))
    as [d1 E] by (eexists; unfold mbind, prog_bind, gets; rewrite E; reflexivity).
  unfold update_active. destruct (replacement tab d) as [t|] eqn:Er; simpl; [|rewrite andb_false_r; eauto].
  apply replacement_Some in Er as (Hin & Hr & _).
  destruct (exists_where _ _) eqn:Ex; [rewrite andb_false_r; eauto|].
  rewrite exists_where_false in Ex. specialize (Ex t Hin). unfold has_key in Ex.
  rewrite !bool_decide_true in Ex by done. done.
Qed.

Lemma without_tab_listing tab g d l1 l2 : tabs_ok d → tabs_ok (without_tab tab g d) →
  getTerminalTab (tt_id tab) d = Some tab → listTerminalTabs (tt_rootId tab) d = l1 ++ tab :: l2 →
  listTerminalTabs (tt_rootId tab) (without_tab tab g d) = l1 ++ l2.
Proof.
  intros Hd Hd' Ht El. pose proof (neighbour_sorted d tab l1 l2 Hd El) as Hs. apply listing_unique; [done|..].
  - apply StronglySorted_app in Hs as (H12 & H1 & [_ H2]%StronglySorted_cons). apply StronglySorted_app.
    split; [|done]. intros x y Hx Hy. apply H12; [done|by right].
  - intros t. simpl. rewrite delete_where_In. pose proof (neighbour_candidate d tab l1 l2 Hd El t) as Hc.
    rewrite in_app_iff, <-!list_elem_of_In, <-Hc. unfold in_root, has_key.
    rewrite andb_true_iff, negb_true_iff, bool_decide_eq_true, bool_decide_eq_false, list_elem_of_In. naive_solver.
Qed.

Lemma empty_limited maxSessions roots : 0 ≤ maxSessions → limited maxSessions (TabsDb [] [] roots).
Proof. intros Hmax. split; [|done]. split; simpl; try done; by apply NoDup_nil_2. Qed.

Lemma run_ops_limited maxSessions ops d : limited maxSessions d → limited maxSessions (foldl (run_op maxSessions) d ops).
Proof. revert d. induction ops as [|o ops IH]; intros d Hd; [done|]. apply IH. by apply run_op_limited. Qed.

(** whatever the API is asked to do with the terminal tabs, in any order,
    ids stay unique, a tab keeps an ordinal of its own below its root's next
    one and a title of 1 to 64 characters, the active tab of a root is one of
    its tabs and exists whenever the root has any, and there are never more
    tabs than the limit. *)
Theorem terminal_tabs_wf maxSessions roots (ops : list tab_op) (Hmax : 0 ≤ maxSessions) :
  limited maxSessions (foldl (run_op maxSessions) (TabsDb [] [] roots) ops).
Proof. by apply run_ops_limited, empty_limited. Qed.

(** Deleting a tab takes it out of its root's list; when it was the
    active one its right neighbour becomes active, or its left one when it was
    the last, or nothing when it was alone; other roots do not change. *)
Theorem deleteTerminalTab_spec id max now d tab l1 l2 (Hd : tabs_ok d)
    (Ht : getTerminalTab id d = Some tab) (El : listTerminalTabs (tt_rootId tab) d = l1 ++ tab :: l2) :
  ∃ d', deleteTerminalTab id max now d = (inr (Some (getTerminalTabState (tt_rootId tab) max d')), d') ∧ tabs_ok d' ∧
    getTerminalTab id d' = None ∧
    (∀ active, state_of (tt_rootId tab) d = (true, l1 ++ tab :: l2, active) →
       state_of (tt_rootId tab) d' = (true, l1 ++ l2,
         if bool_decide (active = Some id)
         then tt_id <$> match l2 with t :: _ => Some t | [] => last l1 end else active)) ∧
    (∀ root, root ≠ tt_rootId tab → state_of root d' = state_of root d).
Proof.
  destruct (delete_row_runs now tab d) as [d' Em].
  assert (∀ max, deleteTerminalTab id max now d = (inr (Some (getTerminalTabState (tt_rootId tab) max d')), d')) as E
    by (intros; by apply on_tab_Some).
  pose proof (delete_limited (Z.of_nat (length (tb_tabs d))) id now d (conj Hd (Z.le_refl _))) as [Hd' _].
  rewrite E in Hd'. specialize (E max).
  destruct (deleteTerminalTab_inv _ _ _ _ _ _ Hd E) as [(? & _)|(tab' & s & Ht' & Hs & Eq & _)]; [congruence|].
  rewrite Ht in Ht'. injection Ht' as <-. pose proof (by_key_Some _ _ _ _ Ht) as [_ Hid].
  exists d'. split; [exact E|]. split; [done|]. subst d'. rewrite <-Hid in Ht. split_and!.
  - unfold getTerminalTab. simpl. rewrite <-Hid. rewrite deleted_get by apply Hd. by rewrite bool_decide_true.
  - intros active [= _ _ Hact]. unfold state_of. simpl.
    rewrite (without_tab_listing _ _ d l1 l2) by done. unfold getTerminalTabSet in *. simpl.
    rewrite set_update_get by (intros x; by case_bool_decide). rewrite Hs in Hact |- *. simpl in Hact |- *.
    rewrite bool_decide_true by done. subst active. case_bool_decide; [|done].
    simpl. by rewrite (replacement_neighbour d tab l1 l2).
  - intros root Hroot. unfold state_of. simpl. unfold getTerminalTabSet. simpl.
    rewrite set_update_get by (intros x; by case_bool_decide). rewrite bool_decide_false by done.
    f_equal; [f_equal|].
    + by destruct (by_key ts_root_id root (tb_sets d)).
    + apply listing_unique; [done|by apply listing_sorted|]. intros t. rewrite listing_In. simpl. rewrite delete_where_In.
      split; [|tauto]. intros [Hin Hr]. split; [|done]. split; [done|]. unfold has_key. apply bool_decide_eq_false.
      intros Hk. destruct Hroot. rewrite <-Hr. f_equal. apply (unique_key_eq tt_id (tb_tabs d)); [apply Hd|done| |done].
      by apply by_key_Some in Ht as [? _].
    + by destruct (by_key ts_root_id root (tb_sets d)).
Qed.

(** A new tab comes last in its root's list and is active; at the limit, for
    an unknown root or a taken id the call throws and changes nothing. *)
Definition can_create (rootId : string) (maxSessions : Z) (uuid : string) (d : tabs_db) : bool :=
  bool_decide (Z.of_nat (length (tb_tabs d)) < maxSessions) &&
  isSome (by_key nr_id rootId (rt_roots (tb_roots d))) && negb (isSome (getTerminalTab uuid d)).

Lemma with_tab_listing t s now d : tabs_ok d → tabs_ok (with_tab t now d) →
  getTerminalTabSet (tt_rootId t) d = Some s → tt_ordinal t = ts_next_ordinal s →
  listTerminalTabs (tt_rootId t) (with_tab t now d) = listTerminalTabs (tt_rootId t) d ++ [t].
Proof.
  intros Hd Hd' Hs Ho. apply listing_unique; [done|..].
  - apply StronglySorted_app. split; [|split; [by apply listing_sorted|repeat constructor]].
    intros x y Hx ->%list_elem_of_singleton. rewrite list_elem_of_In, listing_In in Hx. destruct Hx as [Hx Hr].
    destruct (ok_tabs d Hd x Hx) as [_ (s' & Hs' & Hlt)]. rewrite Hr, Hs in Hs'. simplify_eq. unfold lower. lia.
  - intros x. rewrite in_app_iff, listing_In. simpl. rewrite insert_row_In. naive_solver.
Qed.

Lemma insertTerminalTab_runs rootId max requested uuid now s d : tabs_ok d →
  getTerminalTabSet rootId d = Some s → can_create rootId max (requested ⁇ uuid) d = true →
  let t := Tab (requested ⁇ uuid) rootId (ts_next_ordinal s) None now now in
  insertTerminalTab rootId max requested uuid now d = (inr t, with_tab t now d).
Proof.
  intros Hd Hs [[Hmax Hroot]%andb_prop Hid]%andb_prop t. apply bool_decide_eq_true in Hmax.
  apply negb_true_iff in Hid. unfold getTerminalTab in Hid.
  pose proof (by_key_Some _ _ _ _ Hs) as [Hin Hr]. pose proof (ok_next d Hd s Hin) as Hpos.
  unfold insertTerminalTab. rewrite bind_gets, bool_decide_false by lia. unfold guard_throw.
  unfold mbind, prog_bind, mret, prog_ret, gets. rewrite Hs. fold t.
  assert (insert_tab t d = (inr tt, d <| tb_tabs := insert_row t (tb_tabs d) |>)) as ->.
  { unfold insert_tab. assert (tab_check t = true) as ->.
    { unfold tab_check. simpl. by rewrite bool_decide_true. }
    simpl. rewrite Hid, Hroot. assert (exists_where (same_place t) (tb_tabs d) = false) as ->; [|done].
    apply exists_where_false. intros x Hx. apply bool_decide_eq_false. intros [E1 E2].
    destruct (ok_tabs d Hd x Hx) as [_ (s' & Hs' & Hlt)]. simpl in E1, E2. rewrite <-E1, Hs in Hs'. simplify_eq. lia. }
  unfold update_active. simpl. assert (exists_where (λ x, has_key tt_id (requested ⁇ uuid) x && bool_decide (tt_rootId x = rootId))
    (insert_row t (tb_tabs d)) = true) as ->; [|by rewrite andb_false_r].
  apply exists_where_true. exists t. rewrite insert_row_In. split; [by right|]. unfold has_key. by rewrite !bool_decide_true.
Qed.

(** The set of the root as the insertion finds it. *)
Definition with_set (rootId : string) (now : Z) (d : tabs_db) : tabs_db :=
  if isSome (getTerminalTabSet rootId d) then d
  else d <| tb_sets := insert_row (TabSet rootId None 1 now now) (tb_sets d) |>.

Lemma with_set_ok rootId now d : tabs_ok d → tabs_ok (with_set rootId now d) ∧ is_Some (getTerminalTabSet rootId (with_set rootId now d)).
Proof.
  intros Hd. unfold with_set. destruct (getTerminalTabSet rootId d) as [s|] eqn:Es; simpl; [by eauto|].
  split; [by apply new_set_ok|]. unfold getTerminalTabSet in *. simpl. rewrite by_key_insert, Es. unfold has_key.
  by rewrite bool_decide_true.
Qed.

(** Below the limit, with a known root and a fresh id, a new tab is last
    in its root's list, and active. *)
Theorem createTerminalTab_spec rootId max uuid setNow now d (Hd : tabs_ok d) (Hc : can_create rootId max uuid d = true) :
  ∃ t d', createTerminalTab rootId max uuid setNow now d = (inr (getTerminalTabState rootId max d'), d') ∧
    tabs_ok d' ∧ tt_id t = uuid ∧ tt_rootId t = rootId ∧
    state_of rootId d' = (true, listTerminalTabs rootId d ++ [t], Some uuid).
Proof.
  destruct (with_set_ok rootId setNow d Hd) as [Hd1 [s Hs]]. set (d1 := with_set rootId setNow d) in *.
  set (t := Tab uuid rootId (ts_next_ordinal s) None now now).
  assert (can_create rootId max uuid d1 = true ∧ listTerminalTabs rootId d1 = listTerminalTabs rootId d) as [Hc1 El].
  { unfold d1, with_set. by destruct (isSome (getTerminalTabSet rootId d)). }
  assert (tabs_ok (with_tab t now d1)) as Hd'.
  { apply (with_tab_ok t s); try done. apply andb_prop in Hc1 as [_ Hc1]. simpl.
    by destruct (getTerminalTab uuid d1). }
  exists t, (with_tab t now d1). split; [|split; [done|]].
  - unfold createTerminalTab, transaction. rewrite bind_gets. rewrite (bind_inr _ _ _ tt d1).
    + by rewrite (bind_inr _ _ _ _ _ (insertTerminalTab_runs rootId max None uuid now s d1 Hd1 Hs Hc1)).
    + unfold d1, with_set. destruct (getTerminalTabSet rootId d) as [s0|] eqn:Es; [done|]. simpl.
      unfold createTerminalTabSet, insert_set. simpl. unfold getTerminalTabSet in Es. rewrite Es. simpl.
      apply andb_prop in Hc as [[_ Hroot]%andb_prop _]. by rewrite Hroot.
  - split; [done|]. split; [done|]. rewrite <-El.
    assert (listTerminalTabs rootId (with_tab t now d1) = listTerminalTabs rootId d1 ++ [t]) as E
      by (by apply (with_tab_listing t s)). unfold state_of. simpl. rewrite E.
    unfold getTerminalTabSet in *. simpl. rewrite set_update_get, Hs by done. simpl. by rewrite bool_decide_true.
Qed.

Module Demo.
Definition roots : roots_db := RootsDb [NasRootRow "r" "R" "/r" true mount_optional None None None 0 0] [].
Definition empty : tabs_db := TabsDb [] [] roots.
Definition ops : list tab_op :=
  [op_initialize "r" None "a" 1 1; op_create "r" "b" 2 2; op_create "r" "c" 3 3; op_activate "b" 4; op_delete "a" 5;
   op_create "r" "d" 6 6; op_rename "c" (Some "logs") 7].
Definition three : tabs_db := foldl (run_op 8) empty ops.

(** Ordinals are not used again. *)
Example three_tabs : (λ t, (tt_id t, tt_ordinal t)) <$> listTerminalTabs "r" three = [("b", 2); ("c", 3); ("d", 4)] ∧
  (state_of "r" three).2 = Some "d".
Proof. done. Qed.

(** A title that begins with NUL has length 0 for SQLite. *)
Example nul_title : ∃ e, renameTerminalTab "c" (Some (String "000" "x")) 8 8 three = (inl e, three) ∧
  exn_code e = Some "SQLITE_CONSTRAINT_CHECK".
Proof. by eexists. Qed.
End Demo.

Lemma terminal_tabs_wf_witness : limited 8 Demo.three.
Proof. apply (terminal_tabs_wf 8 Demo.roots Demo.ops). discriminate. Defined.

Lemma three_ok : tabs_ok Demo.three.
Proof. by apply (run_ops_limited 8 Demo.ops), empty_limited. Qed.

Lemma deleteTerminalTab_spec_witness : ∃ t u v d',
  deleteTerminalTab "d" 8 9 Demo.three = (inr (Some (getTerminalTabState "r" 8 d')), d') ∧
  state_of "r" Demo.three = (true, [t; u; v], Some "d") ∧ state_of "r" d' = (true, [t; u], Some "c").
Proof.
  destruct (deleteTerminalTab_spec "d" 8 9 Demo.three (Tab "d" "r" 4 None 6 6)
    [Tab "b" "r" 2 None 2 2; Tab "c" "r" 3 (Some "logs") 3 7] [] three_ok eq_refl eq_refl) as (d' & E & _ & _ & Hs & _).
  do 4 eexists. split; [exact E|]. split; [reflexivity|]. exact (Hs (Some "d") eq_refl).
Defined.

Lemma createTerminalTab_spec_witness : ∃ t u v w d',
  createTerminalTab "r" 8 "e" 9 9 Demo.three = (inr (getTerminalTabState "r" 8 d'), d') ∧
  state_of "r" d' = (true, [t; u; v; w], Some "e").
Proof.
  destruct (createTerminalTab_spec "r" 8 "e" 9 9 Demo.three three_ok eq_refl) as (w & d' & E & _ & _ & _ & Hs).
  do 4 eexists. exists d'. split; [exact E|exact Hs].
Defined.
