(* ===== verification/TerminalSessions.v ===== *)
(** * Terminal sessions

    apps/api/src/lib/terminal-sessions.ts.  A session joins a pseudo terminal
    and at most one browser socket; output that no socket takes is kept, up to
    a bound, for the next one.  Here is one session: [createTerminalSession]
    and the listeners it registers.  Objects the code compares by identity -
    sockets, terminals, sessions - are numbers. *)
From S2P Require Import Prelude JsString.
Open Scope Z_scope.

(** What is sent to a browser, as JSON. *)
Inductive message :=
| m_output (data : string) (truncated : bool)
| m_ready (cwd sessionId : string)
| m_taken_over
| m_exit (exitCode : Z) (signal : option Z)
| m_error (error : string).

(** What sessions do to the world: messages that were accepted, closed
    sockets, and the ends of terminals. *)
Inductive wire :=
| w_sent (socket : nat) (m : message)
| w_socket_closed (socket : nat)
| w_killed (terminal : nat)
| w_disconnected (terminal : nat)
| w_spawned (sessionName : string) (persistent : bool)
| w_destroyed (sessionName : string)
| w_written (terminal : nat) (data : string)
| w_resized (terminal : nat) (cols rows : Z).

Definition TERMINAL_SESSION_PENDING_OUTPUT_BYTES : Z := 256 * 1024.
Definition crlf : string := String (Ascii.ascii_of_nat 13) (String (Ascii.ascii_of_nat 10) EmptyString).
Definition TERMINAL_SESSION_OUTPUT_GAP : string := crlf +:+ "[terminal output omitted while disconnected]" +:+ crlf.

(** The variables of [createTerminalSession]; [activeSend] is null exactly
    when [activeSocket] is, and always [sendSocket]. *)
Record TerminalSession := Session {
  ses_id : string;
  ses_rootId : string;
  ses_terminal : nat;
  ses_cwd : string;
  ses_activeSocket : option nat;
  ses_pendingOutput : list string;
  ses_pendingOutputBytes : Z;
  ses_pendingOutputTruncated : bool;
  ses_idleTimer : bool;
  ses_detachedAt : Z;
  ses_closed : bool
}.
#[export] Instance session_eta : Eta TerminalSession := λ s,
  Session (ses_id s) (ses_rootId s) (ses_terminal s) (ses_cwd s) (ses_activeSocket s) (ses_pendingOutput s)
    (ses_pendingOutputBytes s) (ses_pendingOutputTruncated s) (ses_idleTimer s) (ses_detachedAt s) (ses_closed s).

Record session_world := SessionWorld { sw_session : TerminalSession; sw_log : list wire }.
#[export] Instance session_world_eta : Eta session_world := λ w, SessionWorld (sw_session w) (sw_log w).
Notation session_prog := (prog session_world).

Definition change (f : TerminalSession → TerminalSession) : session_prog unit :=
  modify (λ w, w <| sw_session := f (sw_session w) |>).
Definition act (e : wire) : session_prog unit := modify (λ w, w <| sw_log := sw_log w ++ [e] |>).

Definition new_session (id rootId : string) (terminal : nat) (cwd : string) (now : Z) : TerminalSession :=
  Session id rootId terminal cwd None [] 0 false false now false.

Definition hasActiveSocket (s : TerminalSession) : bool := isSome (ses_activeSocket s).

(** ** Output that no socket takes *)
Fixpoint drop_over (l : list string) (bytes : Z) (truncated : bool) : list string * Z * bool :=
  match l with
  | [] => ([], bytes, truncated)
  | removed :: rest =>
      if bool_decide (TERMINAL_SESSION_PENDING_OUTPUT_BYTES < bytes)
      then drop_over rest (bytes - byteLength removed) true else (l, bytes, truncated)
  end.
Definition appendPendingOutput (data : string) (s : TerminalSession) : TerminalSession :=
  let '(l, bytes, truncated) := drop_over (ses_pendingOutput s ++ [data])
    (ses_pendingOutputBytes s + byteLength data) (ses_pendingOutputTruncated s) in
  s <| ses_pendingOutput := l |> <| ses_pendingOutputBytes := bytes |> <| ses_pendingOutputTruncated := truncated |>.

Definition scheduleIdleClose (s : TerminalSession) : TerminalSession :=
  if ses_idleTimer s || ses_closed s then s else s <| ses_idleTimer := true |>.
Definition leave (now : Z) (s : TerminalSession) : TerminalSession :=
  s <| ses_activeSocket := None |> <| ses_detachedAt := now |>.
Definition total_bytes (l : list string) : Z := foldr (λ d n, byteLength d + n) 0 l.

Section Session.
(** Whether a socket takes a message may depend on all that has happened. *)
Context (accepts : list wire → nat → message → bool).

Definition sendSocket (socket : nat) (m : message) : session_prog bool := λ w,
  if accepts (sw_log w) socket m then (inr true, w <| sw_log := sw_log w ++ [w_sent socket m] |>)
  else (inr false, w).

(** The listener of the terminal's data. *)
Definition onData (data : string) (now : Z) : session_prog unit :=
  s ← gets sw_session;
  if ses_closed s then mret tt else
  match ses_activeSocket s with
  | Some socket =>
      ok ← sendSocket socket (m_output data false);
      if ok : bool then mret tt else
      _ ← change (leave now);
      _ ← act (w_socket_closed socket);
      _ ← change scheduleIdleClose;
      change (appendPendingOutput data)
  | None => change (appendPendingOutput data)
  end.

Definition refuse_attach (now : Z) : session_prog bool :=
  _ ← change (λ s, scheduleIdleClose (leave now s)); mret false.

(** Sends the kept output; returns what is left when a message is refused. *)
Fixpoint replay (socket : nat) (l : list string) : session_prog (option (list string)) :=
  match l with
  | [] => mret None
  | d :: rest =>
      ok ← sendSocket socket (m_output d false);
      if ok : bool then replay socket rest else mret (Some l)
  end.

Definition take_over (socket : nat) (s : TerminalSession) : session_prog unit :=
  match ses_activeSocket s with
  | Some old => if bool_decide (old = socket) then mret tt
                else _ ← sendSocket old m_taken_over; act (w_socket_closed old)
  | None => mret tt
  end.

(** The second half of [attach]: tells of a gap and sends what was kept. *)
Definition catch_up (socket : nat) (now : Z) (s : TerminalSession) : session_prog bool :=
  told ← (if ses_pendingOutputTruncated s then sendSocket socket (m_output TERMINAL_SESSION_OUTPUT_GAP true) else mret true);
  if negb told then refuse_attach now else
  left ← replay socket (ses_pendingOutput s);
  match left with
  | Some l =>
      _ ← change (λ s, s <| ses_pendingOutput := l |> <| ses_pendingOutputBytes := total_bytes l |>);
      refuse_attach now
  | None =>
      _ ← change (λ s, s <| ses_pendingOutput := [] |> <| ses_pendingOutputBytes := 0 |>
                         <| ses_pendingOutputTruncated := false |> <| ses_detachedAt := 0 |>);
      mret true
  end.

Definition attach (socket : nat) (now : Z) : session_prog bool :=
  s ← gets sw_session;
  if ses_closed s then mret false else
  _ ← take_over socket s;
  _ ← change (λ s, s <| ses_idleTimer := false |> <| ses_activeSocket := Some socket |>);
  ready ← sendSocket socket (m_ready (ses_cwd s) (ses_id s));
  if negb ready then refuse_attach now else catch_up socket now s.

Definition detach (socket : nat) (now : Z) : session_prog unit :=
  s ← gets sw_session;
  if ses_closed s || negb (bool_decide (ses_activeSocket s = Some socket)) then mret tt
  else change (λ s, scheduleIdleClose (leave now s)).

Definition finished (s : TerminalSession) : TerminalSession :=
  s <| ses_closed := true |> <| ses_idleTimer := false |> <| ses_activeSocket := None |>.
Definition close_socket (socket : option nat) : session_prog unit :=
  match socket with Some socket => act (w_socket_closed socket) | None => mret tt end.

(** [close] and [disconnect], up to [options.onExit]: true when it is called. *)
Definition end_session (ending : nat → wire) : session_prog bool :=
  s ← gets sw_session;
  if ses_closed s then mret false else
  _ ← change finished;
  _ ← act (ending (ses_terminal s));
  _ ← close_socket (ses_activeSocket s);
  mret true.
Definition close_session : session_prog bool := end_session w_killed.
Definition disconnect_session : session_prog bool := end_session w_disconnected.

(** The listener of the terminal's exit, likewise. *)
Definition exited (exitCode : Z) (signal : option Z) (recoverable : bool) : session_prog bool :=
  s ← gets sw_session;
  if ses_closed s then mret false else
  _ ← match ses_activeSocket s with
      | Some socket => if recoverable then mret tt else _ ← sendSocket socket (m_exit exitCode signal); mret tt
      | None => mret tt
      end;
  _ ← close_socket (ses_activeSocket s);
  _ ← change finished;
  mret true.
End Session.

(** ** No output is lost silently *)
(** What a reader of the sockets sees of the terminal's output: chunks, and
    notices that something was left out. *)
Inductive token := chunk (d : string) | gap.
Definition token_of (e : wire) : list token :=
  match e with w_sent _ (m_output d truncated) => [if truncated : bool then gap else chunk d] | _ => [] end.
Definition delivered (log : list wire) : list token := log ≫= token_of.
(** What the next socket will be sent. *)
Definition owed (s : TerminalSession) : list token :=
  (if ses_pendingOutputTruncated s then [gap] else []) ++ (chunk <$> ses_pendingOutput s).

(** The tokens tell the output: every chunk in order, with a notice wherever
    chunks are missing. *)
Inductive covers : list token → list string → Prop :=
| covers_nil : covers [] []
| covers_chunk d ts p : covers ts p → covers (chunk d :: ts) (d :: p)
| covers_gap l ts p : covers ts p → covers (gap :: ts) (l ++ p).

Lemma covers_app ts1 ts2 p : covers (ts1 ++ ts2) p ↔ ∃ p1 p2, p = p1 ++ p2 ∧ covers ts1 p1 ∧ covers ts2 p2.
Proof.
  split.
  - revert p. induction ts1 as [|[d|] ts1 IH]; intros p H; simpl in *.
    + exists [], p. split; [done|]. split; [constructor|done].
    + inversion H as [|? ? p0 H0|]; subst. destruct (IH _ H0) as (p1 & p2 & -> & ? & ?).
      exists (d :: p1), p2. split; [done|]. split; [by constructor|done].
    + inversion H as [| |l ? p0 H0]; subst. destruct (IH _ H0) as (p1 & p2 & -> & ? & ?).
      exists (l ++ p1), p2. split; [by rewrite app_assoc|]. split; [by constructor|done].
  - intros (p1 & p2 & -> & H1 & H2). induction H1; simpl; [done|by constructor|].
    rewrite <-app_assoc. by constructor.
Qed.

Lemma covers_snoc ts p d : covers ts p → covers (ts ++ [chunk d]) (p ++ [d]).
Proof. intros H. apply covers_app. exists p, [d]. split; [done|]. split; [done|repeat constructor]. Qed.

(** A notice too many does no harm; a chunk dropped at a notice is told. *)
Lemma covers_more_gap ts1 ts2 p : covers (ts1 ++ ts2) p → covers (ts1 ++ gap :: ts2) p.
Proof.
  rewrite !covers_app. intros (p1 & p2 & -> & H1 & H2). exists p1, p2. split; [done|]. split; [done|].
  by apply (covers_gap []).
Qed.

Lemma covers_drop ts1 d ts2 p : covers (ts1 ++ gap :: chunk d :: ts2) p → covers (ts1 ++ gap :: ts2) p.
Proof.
  rewrite !covers_app. intros (p1 & p2 & -> & H1 & H2). exists p1, p2. split; [done|]. split; [done|].
  inversion H2 as [| |l ? p0 H0]; subst. inversion H0 as [|? ? p' H'|]; subst.
  rewrite (cons_middle d l p'), app_assoc. by constructor.
Qed.

Lemma delivered_app l1 l2 : delivered (l1 ++ l2) = delivered l1 ++ delivered l2.
Proof. apply bind_app. Qed.

Definition accounted (p : list string) (w : session_world) : Prop :=
  covers (delivered (sw_log w) ++ owed (sw_session w)) p.
Definition bytes_ok (s : TerminalSession) : Prop :=
  ses_pendingOutputBytes s = total_bytes (ses_pendingOutput s) ∧
  total_bytes (ses_pendingOutput s) ≤ TERMINAL_SESSION_PENDING_OUTPUT_BYTES.

Lemma total_bytes_nonneg l : 0 ≤ total_bytes l.
Proof. induction l as [|d l IH]; simpl; [lia|]. pose proof (byteLength_nonneg d). lia. Qed.
Lemma total_bytes_app l1 l2 : total_bytes (l1 ++ l2) = total_bytes l1 + total_bytes l2.
Proof. induction l1 as [|d l1 IH]; simpl; lia. Qed.

Lemma drop_over_spec ts p l bytes (truncated : bool) : bytes = total_bytes l →
  covers (ts ++ (if truncated then [gap] else []) ++ (chunk <$> l)) p →
  let '(l', bytes', truncated') := drop_over l bytes truncated in
  covers (ts ++ (if truncated' then [gap] else []) ++ (chunk <$> l')) p ∧
  bytes' = total_bytes l' ∧ total_bytes l' ≤ TERMINAL_SESSION_PENDING_OUTPUT_BYTES.
Proof.
  revert bytes truncated. induction l as [|d l IH]; intros bytes truncated Hb Hc; [by subst|]. simpl.
  case_bool_decide as E; [|split; [done|split; [done|lia]]]. apply IH; [simpl in Hb; lia|].
  apply (covers_drop ts d). destruct truncated; [done|]. by apply covers_more_gap.
Qed.

Lemma append_spec ts p data s : bytes_ok s → covers (ts ++ owed s) p →
  covers (ts ++ owed (appendPendingOutput data s)) (p ++ [data]) ∧ bytes_ok (appendPendingOutput data s).
Proof.
  intros [Hb _] Hc. unfold appendPendingOutput, owed, bytes_ok.
  pose proof (drop_over_spec ts (p ++ [data]) (ses_pendingOutput s ++ [data])
    (ses_pendingOutputBytes s + byteLength data) (ses_pendingOutputTruncated s)) as H.
  destruct (drop_over _ _ _) as [[l' b'] t']. simpl. apply H.
  - rewrite total_bytes_app. simpl. lia.
  - rewrite fmap_app, !app_assoc. apply covers_snoc. by rewrite <-!app_assoc.
Qed.

(** What holds of a session between any two events: an attached socket is
    owed nothing and has no idle timer; a closed session has neither. *)
Record session_ok (s : TerminalSession) : Prop := SessionOk {
  so_bytes : bytes_ok s;
  so_active : hasActiveSocket s = true →
    ses_pendingOutput s = [] ∧ ses_pendingOutputTruncated s = false ∧ ses_idleTimer s = false;
  so_closed : ses_closed s = true → ses_activeSocket s = None ∧ ses_idleTimer s = false
}.
Definition good (p : list string) (w : session_world) : Prop := accounted p w ∧ session_ok (sw_session w).

Lemma schedule_fields s :
  let s' := scheduleIdleClose s in
  ses_id s' = ses_id s ∧ ses_rootId s' = ses_rootId s ∧ ses_terminal s' = ses_terminal s ∧
  ses_activeSocket s' = ses_activeSocket s ∧ ses_closed s' = ses_closed s ∧ owed s' = owed s ∧
  ses_pendingOutput s' = ses_pendingOutput s ∧ ses_pendingOutputBytes s' = ses_pendingOutputBytes s.
Proof. unfold scheduleIdleClose. by destruct (_ || _). Qed.

Lemma schedule_ok s : session_ok s → ses_activeSocket s = None → session_ok (scheduleIdleClose s).
Proof.
  intros [H1 H2 H3] Ha. unfold scheduleIdleClose. destruct (_ || _) eqn:E; [done|].
  apply orb_false_iff in E as [_ E]. split; simpl; [done|unfold hasActiveSocket; simpl; by rewrite Ha|congruence].
Qed.

Lemma left_ok now s : session_ok s → session_ok (scheduleIdleClose (leave now s)).
Proof. intros [H1 H2 H3]. apply schedule_ok; [|done]. split; simpl; [done..|]. intros Hc. by apply H3 in Hc as [_ ?]. Qed.

Lemma append_ok data s p ts : session_ok s → ses_activeSocket s = None → covers (ts ++ owed s) p →
  session_ok (appendPendingOutput data s) ∧ covers (ts ++ owed (appendPendingOutput data s)) (p ++ [data]).
Proof.
  intros [H1 H2 H3] Ha Hc. destruct (append_spec ts p data s H1 Hc) as [Hc' Hb]. split; [|done].
  unfold appendPendingOutput in *. destruct (drop_over _ _ _) as [[l b] t].
  split; simpl; [done|unfold hasActiveSocket; simpl; by rewrite Ha|done].
Qed.

Section Accounting.
Context (accepts : list wire → nat → message → bool).

Lemma sendSocket_eq socket m w :
  sendSocket accepts socket m w =
    (inr (accepts (sw_log w) socket m),
     SessionWorld (sw_session w) (sw_log w ++ if accepts (sw_log w) socket m then [w_sent socket m] else [])).
Proof. unfold sendSocket. destruct (accepts _ _ _); [done|]. rewrite app_nil_r. by destruct w. Qed.

Lemma accounted_log p s log l : delivered l = [] → accounted p (SessionWorld s log) → accounted p (SessionWorld s (log ++ l)).
Proof. intros Hl. unfold accounted. simpl. by rewrite delivered_app, Hl, app_nil_r. Qed.

Lemma onData_good data now w p : good p w →
  good (if ses_closed (sw_session w) then p else p ++ [data]) (onData accepts data now w).2.
Proof.
  destruct w as [s log]. intros [Hc Hs]. unfold onData. rewrite bind_gets. cbn [sw_session].
  destruct (ses_closed s) eqn:Ec; [done|]. unfold accounted in Hc. simpl in Hc.
  destruct (ses_activeSocket s) as [socket|] eqn:Ea.
  - destruct (so_active s Hs) as (Hp & Ht & Hi); [unfold hasActiveSocket; by rewrite Ea|].
    assert (owed s = []) as Ho by (unfold owed; by rewrite Hp, Ht).
    rewrite (bind_inr _ _ _ _ _ (sendSocket_eq _ _ _)). simpl. rewrite Ho, app_nil_r in Hc.
    destruct (accepts log socket _) eqn:Eacc; simpl.
    + split; [|done]. unfold accounted. simpl. rewrite Ho, app_nil_r, delivered_app. by apply covers_snoc.
    + rewrite app_nil_r. pose proof (left_ok now s Hs) as Hl.
      destruct (schedule_fields (leave now s)) as (_ & _ & _ & Ha & _ & Ho' & _).
      assert (owed (scheduleIdleClose (leave now s)) = []) as Ho2 by (rewrite Ho'; exact Ho).
      destruct (append_ok data (scheduleIdleClose (leave now s)) p (delivered log) Hl Ha) as [Hs' Hc'].
      { rewrite Ho2. by rewrite app_nil_r. }
      split; [|exact Hs']. unfold accounted. simpl. rewrite delivered_app. simpl. by rewrite app_nil_r.
  - destruct (append_ok data s p (delivered log) Hs Ea Hc) as [Hs' Hc']. done.
Qed.

Lemma replay_spec socket l w :
  ∃ sent, let '(r, w') := replay accepts socket l w in
    sw_session w' = sw_session w ∧ delivered (sw_log w') = delivered (sw_log w) ++ (chunk <$> sent) ∧
    match r with inr None => l = sent | inr (Some rest) => l = sent ++ rest | inl _ => False end.
Proof.
  revert w. induction l as [|d l IH]; intros w; simpl.
  - exists []. by rewrite app_nil_r.
  - rewrite (bind_inr _ _ _ _ _ (sendSocket_eq _ _ _)). destruct (accepts _ _ _).
    + destruct (IH (SessionWorld (sw_session w) (sw_log w ++ [w_sent socket (m_output d false)]))) as [sent H].
      exists (d :: sent). destruct (replay _ _ _ _) as [[e|[rest|]] w']; [by destruct H as (_ & _ & [])|..];
        destruct H as (H1 & H2 & ->); (split; [done|split; [|done]]); rewrite H2; simpl;
        rewrite delivered_app; simpl; by rewrite <-app_assoc.
    + exists []. simpl. by rewrite !app_nil_r.
Qed.

Lemma refuse_attach_good now w p : accounted p w → session_ok (leave now (sw_session w)) →
  good p (refuse_attach now w).2.
Proof.
  intros Hc Hs. unfold refuse_attach. simpl. split; [|by apply schedule_ok].
  unfold accounted in *. simpl. by destruct (schedule_fields (leave now (sw_session w))) as (_ & _ & _ & _ & _ & -> & _).
Qed.

Lemma leave_ok now s : bytes_ok s → ses_closed s = false → session_ok (leave now s).
Proof. intros Hb Hc. split; simpl; [done..|congruence]. Qed.

Lemma take_over_eq socket s w :
  ∃ l, delivered l = [] ∧ take_over accepts socket s w = (inr tt, SessionWorld (sw_session w) (sw_log w ++ l)).
Proof.
  unfold take_over. destruct (ses_activeSocket s) as [old|]; [|exists []; rewrite app_nil_r; by destruct w].
  case_bool_decide; [exists []; rewrite app_nil_r; by destruct w|].
  rewrite (bind_inr _ _ _ _ _ (sendSocket_eq _ _ _)).
  eexists (_ ++ [w_socket_closed old]). split; [|unfold act, modify; simpl; by rewrite <-app_assoc].
  by destruct (accepts _ _ _).
Qed.

Lemma replayed_good socket now s log p (Hb : bytes_ok s) (Hc : ses_closed s = false) (Hi : ses_idleTimer s = false)
    (ts : list token) :
  delivered log = ts ++ (if ses_pendingOutputTruncated s then [gap] else []) →
  covers (delivered log ++ (chunk <$> ses_pendingOutput s)) p →
  let '(r, w) := replay accepts socket (ses_pendingOutput s) (SessionWorld s log) in
  match r with
  | inr (Some l) =>
      good p (refuse_attach now (SessionWorld (s <| ses_pendingOutput := l |> <| ses_pendingOutputBytes := total_bytes l |>) (sw_log w))).2
  | inr None => good p (SessionWorld (s <| ses_pendingOutput := [] |> <| ses_pendingOutputBytes := 0 |>
                         <| ses_pendingOutputTruncated := false |> <| ses_detachedAt := 0 |>) (sw_log w))
  | inl _ => False
  end ∧ sw_session w = s.
Proof.
  intros Hts Hcov. destruct (replay_spec socket (ses_pendingOutput s) (SessionWorld s log)) as [sent H].
  destruct (replay _ _ _ _) as [[e|[rest|]] w']; [by destruct H as (_ & _ & [])|..]; destruct H as (Hw & Hd & Hp);
    (split; [|done]); simpl in Hd.
  - rewrite Hp, fmap_app, app_assoc in Hcov. apply refuse_attach_good; simpl.
    + unfold accounted. simpl. unfold owed. simpl. rewrite Hd. destruct (ses_pendingOutputTruncated s); [|done].
      by apply covers_more_gap.
    + apply leave_ok; [|done]. split; simpl; [done|]. destruct Hb as [_ Hb]. rewrite Hp, total_bytes_app in Hb.
      pose proof (total_bytes_nonneg sent). lia.
  - split; [|split; simpl; [split; done|done|congruence]]. unfold accounted, owed. simpl.
    by rewrite app_nil_r, Hd, <-Hp.
Qed.

Lemma catch_up_good socket now s log p : bytes_ok s → ses_closed s = false → ses_idleTimer s = false →
  accounted p (SessionWorld s log) → good p (catch_up accepts socket now s (SessionWorld s log)).2.
Proof.
  intros Hb Hc Hi Hcov. unfold accounted, owed in Hcov. simpl in Hcov. unfold catch_up.
  assert (∀ log', delivered log' = delivered log ++ (if ses_pendingOutputTruncated s then [gap] else []) →
    good p ((left ← replay accepts socket (ses_pendingOutput s);
             match left with
             | Some l =>
                 _ ← change (λ s, s <| ses_pendingOutput := l |> <| ses_pendingOutputBytes := total_bytes l |>);
                 refuse_attach now
             | None =>
                 _ ← change (λ s, s <| ses_pendingOutput := [] |> <| ses_pendingOutputBytes := 0 |>
                                    <| ses_pendingOutputTruncated := false |> <| ses_detachedAt := 0 |>);
                 mret true
             end) (SessionWorld s log')).2) as Hrest.
  { intros log' Hl. rewrite app_assoc, <-Hl in Hcov. pose proof (replayed_good socket now s log' p Hb Hc Hi _ Hl Hcov) as H.
    unfold mbind at 1, prog_bind at 1. destruct (replay _ _ _ _) as [[e|[rest|]] w']; destruct H as [H Hw]; [done|..];
      destruct w' as [s' l']; simpl in Hw; subst s'; exact H. }
  destruct (ses_pendingOutputTruncated s) eqn:Et.
  - rewrite (bind_inr _ _ _ _ _ (sendSocket_eq _ _ _)). cbn [sw_session sw_log].
    destruct (accepts log socket _); cbn [negb].
    + apply Hrest. by rewrite delivered_app.
    + rewrite app_nil_r. apply refuse_attach_good; [|by apply leave_ok]. unfold accounted, owed. simpl. by rewrite Et.
  - apply Hrest. by rewrite app_nil_r.
Qed.

Lemma attach_good socket now w p : good p w → good p (attach accepts socket now w).2.
Proof.
  destruct w as [s log]. intros [Hc Hs]. unfold attach. rewrite bind_gets. cbn [sw_session].
  destruct (ses_closed s) eqn:Ecl; [done|].
  destruct (take_over_eq socket s (SessionWorld s log)) as (l & Hl & E). rewrite (bind_inr _ _ _ _ _ E). simpl.
  apply (accounted_log _ _ _ _ Hl) in Hc. clear E.
  set (s1 := s <| ses_idleTimer := false |> <| ses_activeSocket := Some socket |>).
  change (accounted p (SessionWorld s1 (log ++ l))) in Hc. set (log1 := log ++ l) in *.
  unfold change, modify. unfold mbind at 1, prog_bind at 1. simpl. fold s1.
  rewrite (bind_inr _ _ _ _ _ (sendSocket_eq _ _ _)). cbn [sw_session sw_log].
  destruct (accepts log1 socket _); cbn [negb].
  - apply (catch_up_good socket now s1); [apply Hs|done|done|]. by apply accounted_log.
  - rewrite app_nil_r. apply refuse_attach_good; [done|]. apply leave_ok; [apply Hs|done].
Qed.

Lemma detach_good socket now w p : good p w → good p (detach socket now w).2.
Proof.
  intros [Hc Hs]. unfold detach. rewrite bind_gets. destruct (_ || _); [done|]. split; [|by apply left_ok].
  unfold accounted in *. simpl. by destruct (schedule_fields (leave now (sw_session w))) as (_ & _ & _ & _ & _ & -> & _).
Qed.

Lemma finished_ok s : bytes_ok s → session_ok (finished s).
Proof. by split. Qed.

Lemma close_socket_good socket p w : good p w → good p (close_socket socket w).2.
Proof. destruct socket, w; [|done]. intros [Hc Hs]. split; [|done]. by apply accounted_log. Qed.

Lemma end_session_good ending w p : (∀ t, token_of (ending t) = []) → good p w → good p (end_session ending w).2.
Proof.
  intros Hend [Hc Hs]. unfold end_session. rewrite bind_gets. destruct (ses_closed _); [done|].
  unfold mbind, prog_bind. simpl. destruct (ses_activeSocket (sw_session w)); simpl; (split; [|apply finished_ok, Hs]);
    repeat (apply accounted_log; [unfold delivered; simpl; by rewrite ?Hend|]); exact Hc.
Qed.

Lemma exited_good exitCode signal recoverable w p : good p w → good p (exited accepts exitCode signal recoverable w).2.
Proof.
  intros [Hc Hs]. unfold exited. rewrite bind_gets. destruct (ses_closed _); [done|].
  destruct (ses_activeSocket (sw_session w)) as [socket|]; [destruct recoverable|]; unfold mbind, prog_bind; simpl.
  - split; [|apply finished_ok, Hs]. by apply accounted_log.
  - rewrite sendSocket_eq. simpl. split; [|apply finished_ok, Hs]. apply accounted_log; [done|].
    apply accounted_log; [by destruct (accepts _ _ _)|exact Hc].
  - split; [exact Hc|apply finished_ok, Hs].
Qed.
End Accounting.

(** The life of a session: anything its terminal, its sockets and its timer do,
    in any order. *)
Inductive session_event :=
| ev_data (data : string) (now : Z)
| ev_attach (socket : nat) (now : Z)
| ev_detach (socket : nat) (now : Z)
| ev_close
| ev_disconnect
| ev_exit (exitCode : Z) (signal : option Z) (recoverable : bool).

Section Life.
Context (accepts : list wire → nat → message → bool).

Definition session_step (w : session_world) (e : session_event) : session_world :=
  match e with
  | ev_data d now => (onData accepts d now w).2
  | ev_attach socket now => (attach accepts socket now w).2
  | ev_detach socket now => (detach socket now w).2
  | ev_close => (close_session w).2
  | ev_disconnect => (disconnect_session w).2
  | ev_exit c sig recoverable => (exited accepts c sig recoverable w).2
  end.

(** What the terminal wrote while the session listened. *)
Definition output_of (w : session_world) (e : session_event) : list string :=
  match e with ev_data d _ => if ses_closed (sw_session w) then [] else [d] | _ => [] end.
Fixpoint produced (w : session_world) (es : list session_event) : list string :=
  match es with [] => [] | e :: es => output_of w e ++ produced (session_step w e) es end.

Lemma session_step_good w e p : good p w → good (p ++ output_of w e) (session_step w e).
Proof.
  intros H. destruct e; simpl; rewrite ?app_nil_r.
  - pose proof (onData_good accepts data now w p H) as H'. destruct (ses_closed _); [by rewrite app_nil_r|done].
  - by apply attach_good.
  - by apply detach_good.
  - by apply end_session_good.
  - by apply end_session_good.
  - by apply exited_good.
Qed.

Lemma session_steps_good w es p : good p w → good (p ++ produced w es) (foldl session_step w es).
Proof.
  revert w p. induction es as [|e es IH]; intros w p H; simpl; [by rewrite app_nil_r|].
  rewrite app_assoc. apply IH. by apply session_step_good.
Qed.

Lemma new_session_good id rootId t cwd now : good [] (SessionWorld (new_session id rootId t cwd now) []).
Proof. split; [constructor|]. split; [done|done|done]. Qed.

(** C40: what sockets were sent of a terminal's output, followed by what is
    kept for the next one, is the output: each chunk once and in order, and a
    notice wherever chunks are left out - whatever sockets come, go, take over
    or refuse; and what is kept stays within its bound. *)
Theorem terminal_output_accounted id rootId t cwd now es :
  let w0 := SessionWorld (new_session id rootId t cwd now) [] in
  let w := foldl session_step w0 es in
  covers (delivered (sw_log w) ++ owed (sw_session w)) (produced w0 es) ∧
  ses_pendingOutputBytes (sw_session w) = total_bytes (ses_pendingOutput (sw_session w)) ∧
  total_bytes (ses_pendingOutput (sw_session w)) ≤ TERMINAL_SESSION_PENDING_OUTPUT_BYTES.
Proof.
  intros w0 w. destruct (session_steps_good w0 es [] (new_session_good _ _ _ _ _)) as [H1 [H2 _ _]]. done.
Qed.
End Life.

(** Without a notice nothing is missing. *)
Lemma covers_no_gap ts p : covers ts p → gap ∉ ts → ts = chunk <$> p.
Proof.
  induction 1 as [|d ts p H IH|l ts p H IH]; intros Hg; [done| |].
  - rewrite fmap_cons, IH; [done|]. intros ?. apply Hg. by right.
  - destruct Hg. by left.
Qed.

Module Demo.
(** The first socket refuses everything after its third message. *)
Definition accepts (log : list wire) (socket : nat) (m : message) : bool :=
  negb (bool_decide (socket = 1%nat) && bool_decide (3 ≤ Z.of_nat (length log))).
Definition start : session_world := SessionWorld (new_session "s" "r" 7 "/" 0) [].
Example handover :
  sw_log (foldl (session_step accepts) start
    [ev_data "a" 1; ev_attach 1 2; ev_data "b" 3; ev_data "c" 4; ev_attach 2 5; ev_data "d" 6; ev_close]) =
  [w_sent 1 (m_ready "/" "s"); w_sent 1 (m_output "a" false); w_sent 1 (m_output "b" false); w_socket_closed 1;
   w_sent 2 (m_ready "/" "s"); w_sent 2 (m_output "c" false); w_sent 2 (m_output "d" false);
   w_killed 7; w_socket_closed 2].
Proof. reflexivity. Qed.
End Demo.
