(* ===== verification/TerminalManager.v ===== *)
(** * The terminal session manager and its connections

    [TerminalSessionManager] of apps/api/src/lib/terminal-sessions.ts and the
    WebSocket handler of apps/api/src/routes/terminal.ts.  Sessions, pending
    creations, leases and connections are objects, numbered in the order of
    their creation; each spawn yields a terminal object of its own, which has
    the number of its session.  A handler is cut at its awaits; a promise is
    modelled by whether its [then] and its [finally] have run. *)
From Stdlib Require Import Ascii.
From S2P Require Import Prelude Sql JsString TerminalSessions.
Open Scope Z_scope.

(** ** JavaScript maps: entries in insertion order *)
Section JsMap.
Context {V : Type}.
Implicit Types m : list (string * V).
Definition map_get (k : string) m : option V := snd <$> List.find (λ e, bool_decide (e.1 = k)) m.
Definition map_delete (k : string) m : list (string * V) := List.filter (λ e, negb (bool_decide (e.1 = k))) m.
Fixpoint map_set (k : string) (v : V) m : list (string * V) :=
  match m with
  | [] => [(k, v)]
  | e :: m => if bool_decide (e.1 = k) then (k, v) :: m else e :: map_set k v m
  end.
End JsMap.

(** ** Objects *)
Inductive promise := pr_running | pr_resolved (session : nat) | pr_rejected.
Record PendingCreation := Pending {
  pc_key : string;
  pc_rootId : string;
  pc_sessionId : string;
  pc_waiters : nat;
  pc_session : option nat;
  pc_cancelled : bool;
  pc_promise : promise;
  pc_finally : bool
}.
#[export] Instance pending_eta : Eta PendingCreation := λ c,
  Pending (pc_key c) (pc_rootId c) (pc_sessionId c) (pc_waiters c) (pc_session c) (pc_cancelled c) (pc_promise c) (pc_finally c).

(** The closure [release] of a lease on a pending creation. *)
Record lease := Lease { le_pending : nat; le_released : bool }.
#[export] Instance lease_eta : Eta lease := λ l, Lease (le_pending l) (le_released l).

Record manager := Manager {
  tm_log : list wire;
  tm_objects : list TerminalSession;
  tm_creations : list PendingCreation;
  tm_leases : list lease;
  tm_sessions : list (string * nat);
  tm_pendingByKey : list (string * nat);
  tm_closed : bool
}.
#[export] Instance manager_eta : Eta manager := λ t,
  Manager (tm_log t) (tm_objects t) (tm_creations t) (tm_leases t) (tm_sessions t) (tm_pendingByKey t) (tm_closed t).

Definition log (e : wire) (t : manager) : manager := t <| tm_log := tm_log t ++ [e] |>.
Definition update_creation (p : nat) (f : PendingCreation → PendingCreation) (t : manager) : manager :=
  t <| tm_creations := alter f p (tm_creations t) |>.

(** A session operation on one of the objects; [dflt] is for numbers of no object. *)
Definition on_session {A} (i : nat) (dflt : A) (m : session_prog A) (t : manager) : A * manager :=
  match tm_objects t !! i with
  | None => (dflt, t)
  | Some s =>
      match m (SessionWorld s (tm_log t)) with
      | (inr a, w) => (a, t <| tm_objects := <[i := sw_session w]> (tm_objects t) |> <| tm_log := sw_log w |>)
      | (inl _, w) => (dflt, t <| tm_objects := <[i := sw_session w]> (tm_objects t) |> <| tm_log := sw_log w |>)
      end
  end.

(** The [onExit] option of a session. *)
Definition onExit (i : nat) (t : manager) : manager :=
  match tm_objects t !! i with
  | None => t
  | Some s => if bool_decide (map_get (ses_id s) (tm_sessions t) = Some i)
              then t <| tm_sessions := map_delete (ses_id s) (tm_sessions t) |> else t
  end.
(** [session.close()], [session.disconnect()] and the exit of the terminal. *)
Definition ending (i : nat) (m : session_prog bool) (t : manager) : manager :=
  let '(ended, t) := on_session i false m t in if ended : bool then onExit i t else t.
Definition close_object (i : nat) : manager → manager := ending i close_session.
Definition disconnect_object (i : nat) : manager → manager := ending i disconnect_session.
Definition object_active (t : manager) (i : nat) : bool :=
  from_option hasActiveSocket false (tm_objects t !! i).
Definition detached_before (t : manager) (i j : nat) : bool :=
  bool_decide (from_option ses_detachedAt 0 (tm_objects t !! i) ≤ from_option ses_detachedAt 0 (tm_objects t !! j)).

(** ** Session ids *)
Definition isTerminalSessionId : string → bool := uuid_form ["1"; "2"; "3"; "4"; "5"]%char.
Definition normalizeSessionId (value : option string) : option string :=
  let trimmed := from_option trim "" value in
  if isTerminalSessionId trimmed then Some (toLowerCase trimmed) else None.
Definition terminalSessionKey (rootId sessionId : string) : string := rootId +:+ String "000" sessionId.

(** What [acquire] answers at once: a session, or a lease to wait for. *)
Inductive acquired := acq_existing (session : nat) | acq_lease (lease : nat).

Section Manager.
Context (accepts : list wire → nat → message → bool).
(** The name of a session in the terminal daemon: a prefix of a SHA-256. *)
Context (terminalSessionName : string → string → string).
Context (maxSessions : Z).

Definition total (t : manager) : Z := Z.of_nat (length (tm_sessions t) + length (tm_pendingByKey t)).

(** Room for one more session: the session detached for longest makes way. *)
Definition ensureCapacity (t : manager) : (exn + unit) * manager :=
  if bool_decide (total t < maxSessions) then (inr tt, t) else
  let t' := match first_by (detached_before t) (λ i, negb (object_active t i)) (snd <$> tm_sessions t) with
            | None => t
            | Some oldest =>
                let t' := close_object oldest t in
                t' <| tm_sessions := map_delete (from_option ses_id "" (tm_objects t !! oldest)) (tm_sessions t') |>
            end in
  if bool_decide (maxSessions ≤ total t') then (inl (Error "Terminal session limit reached"), t') else (inr tt, t').

(** The waiter's half of [acquire]: [waiters += 1] and a [release]. *)
Definition join (p : nat) (t : manager) : acquired * manager :=
  (acq_lease (length (tm_leases t)),
   update_creation p (λ c, c <| pc_waiters := S (pc_waiters c) |>) t <| tm_leases := tm_leases t ++ [Lease p false] |>).

Definition start_creation (key rootId sessionId : string) (persistent : bool) (t : manager) : manager :=
  let p := length (tm_creations t) in
  log (w_spawned (terminalSessionName rootId sessionId) persistent) t
    <| tm_creations := tm_creations t ++ [Pending key rootId sessionId 0 None false pr_running false] |>
    <| tm_pendingByKey := map_set key p (tm_pendingByKey t) |>.

(** [acquire] up to its [await]; [uuid] is what [randomUUID] returns. *)
Definition acquire (rootId : string) (requestedSessionId : option string) (persistent : bool) (uuid : string)
    (t : manager) : (exn + acquired) * manager :=
  if tm_closed t then (inl (Error "Terminal session manager is closed"), t) else
  let sessionId := normalizeSessionId requestedSessionId ⁇ uuid in
  match map_get sessionId (tm_sessions t) with
  | Some existing =>
      if negb (bool_decide (from_option ses_rootId "" (tm_objects t !! existing) = rootId))
      then (inl (Error "Terminal session is not available"), t) else (inr (acq_existing existing), t)
  | None =>
      let key := terminalSessionKey rootId sessionId in
      match map_get key (tm_pendingByKey t) with
      | Some p => let '(a, t) := join p t in (inr a, t)
      | None =>
          match ensureCapacity t with
          | (inl e, t) => (inl e, t)
          | (inr _, t) =>
              let p := length (tm_creations t) in
              let '(a, t) := join p (start_creation key rootId sessionId persistent t) in (inr a, t)
          end
      end
  end.

(** The [then] of a creation whose spawn succeeded, and its [finally]. *)
Definition creation_done (p : nat) (cwd : string) (now : Z) (t : manager) : manager :=
  match tm_creations t !! p with
  | None => t
  | Some c =>
      let i := length (tm_objects t) in
      let t := update_creation p (λ c, c <| pc_session := Some i |> <| pc_promise := pr_resolved i |>)
                 (t <| tm_objects := tm_objects t ++ [new_session (pc_sessionId c) (pc_rootId c) i cwd now] |>) in
      if tm_closed t then disconnect_object i t
      else if pc_cancelled c || bool_decide (pc_waiters c = 0%nat) then close_object i t
      else t <| tm_sessions := map_set (pc_sessionId c) i (tm_sessions t) |>
  end.
Definition creation_failed (p : nat) : manager → manager :=
  update_creation p (λ c, c <| pc_promise := pr_rejected |>).
Definition creation_finally (p : nat) (t : manager) : manager :=
  match tm_creations t !! p with
  | None => t
  | Some c =>
      let t := update_creation p (λ c, c <| pc_finally := true |>) t in
      if bool_decide (map_get (pc_key c) (tm_pendingByKey t) = Some p)
      then t <| tm_pendingByKey := map_delete (pc_key c) (tm_pendingByKey t) |> else t
  end.

Definition release (l : nat) (keepAlive : bool) (t : manager) : manager :=
  match tm_leases t !! l with
  | None => t
  | Some le =>
      if le_released le then t else
      let t := update_creation (le_pending le) (λ c, c <| pc_waiters := Nat.pred (pc_waiters c) |>)
                 (t <| tm_leases := alter (λ le, le <| le_released := true |>) l (tm_leases t) |>) in
      match tm_creations t !! le_pending le with
      | Some c =>
          match pc_session c with
          | Some i => if negb keepAlive && bool_decide (pc_waiters c = 0%nat) && negb (object_active t i)
                      then close_object i t else t
          | None => t
          end
      | None => t
      end
  end.

(** An empty string counts as an absent id. *)
Definition given_id (id : option string) : option string :=
  match id with Some s => if bool_decide (s = "") then None else Some s | None => None end.

(** [closeSession]: the method [close] of the manager. *)
Definition closeSession (sessionId : string) (rootId : option string) (t : manager) : bool * manager :=
  match map_get sessionId (tm_sessions t) with
  | Some i =>
      if from_option (λ r, negb (bool_decide (from_option ses_rootId "" (tm_objects t !! i) = r))) false (given_id rootId)
      then (false, t)
      else let t := close_object i t in (true, t <| tm_sessions := map_delete sessionId (tm_sessions t) |>)
  | None =>
      let hit c := bool_decide (pc_sessionId c = sessionId) &&
                   from_option (λ r, bool_decide (pc_rootId c = r)) true (given_id rootId) in
      let ps := List.filter (λ p, from_option hit false (tm_creations t !! p)) (snd <$> tm_pendingByKey t) in
      (negb (bool_decide (ps = [])),
       foldr (λ p t, update_creation p (λ c, c <| pc_cancelled := true |>) t) t ps)
  end.

Definition pending_of (rootId : string) (sessionId : option string) (t : manager) (p : nat) : bool :=
  from_option (λ c, bool_decide (pc_rootId c = rootId) && from_option (λ s, bool_decide (pc_sessionId c = s)) true sessionId)
    false (tm_creations t !! p).
Definition cancelPending (rootId : string) (sessionId : option string) (t : manager) : manager :=
  let hit := pending_of rootId sessionId t in
  let ps := List.filter hit (snd <$> tm_pendingByKey t) in
  foldr (λ p t, update_creation p (λ c, c <| pc_cancelled := true |>) t) t ps
    <| tm_pendingByKey := List.filter (λ e, negb (hit e.2)) (tm_pendingByKey t) |>.

(** [reset] up to the await of its [acquire]. *)
Definition reset (rootId : string) (previousSessionId nextSessionId : option string) (persistent : bool) (uuid : string)
    (t : manager) : (exn + acquired) * manager :=
  let t := match given_id previousSessionId with
           | Some previous => cancelPending rootId (Some previous) (closeSession previous (Some rootId) t).2
           | None => cancelPending rootId None t
           end in
  acquire rootId nextSessionId persistent uuid t.

(** [destroy] up to its await - a creation to wait for, or none - and after. *)
Definition destroy_begin (rootId sessionId : string) (t : manager) : (exn + option nat) * manager :=
  let existing := map_get sessionId (tm_sessions t) in
  if from_option (λ i, negb (bool_decide (from_option ses_rootId "" (tm_objects t !! i) = rootId))) false existing
  then (inl (Error "Terminal session is not available"), t)
  else
    let t := match existing with
             | Some i => let t := disconnect_object i t in t <| tm_sessions := map_delete sessionId (tm_sessions t) |>
             | None => t
             end in
    let key := terminalSessionKey rootId sessionId in
    match map_get key (tm_pendingByKey t) with
    | Some p => (inr (Some p), update_creation p (λ c, c <| pc_cancelled := true |>) t
                                 <| tm_pendingByKey := map_delete key (tm_pendingByKey t) |>)
    | None => (inr None, t)
    end.
Definition destroy_end (rootId sessionId : string) : manager → manager :=
  log (w_destroyed (terminalSessionName rootId sessionId)).

(** [detachSession]: the method [detach] of the manager. *)
Definition detachSession (sessionId : string) (socket : nat) (now : Z) (t : manager) : manager :=
  match map_get sessionId (tm_sessions t) with
  | None => t
  | Some i =>
      let '(_, t) := on_session i tt (detach socket now) t in
      if object_active t i then t else disconnect_object i t
  end.

Definition disconnectAll (t : manager) : manager :=
  let t := t <| tm_closed := true |> in
  let t := foldl (λ t i, disconnect_object i t) t (snd <$> tm_sessions t) in
  let t := t <| tm_sessions := [] |> in
  foldr (λ p t, update_creation p (λ c, c <| pc_cancelled := true |>) t) t (snd <$> tm_pendingByKey t)
    <| tm_pendingByKey := [] |>.
End Manager.

(** ** Connections: the WebSocket handler of the route

    A connection waits for its session, is attached to it, or is over; what it
    keeps are the handler's variables [closed], [sessionId], [attachedSession]
    and [lease]. *)
Inductive phase := ph_waiting (a : acquired) | ph_attached (session : nat) | ph_ended.
Record connection := Connection { cn_phase : phase; cn_closed : bool }.
#[export] Instance connection_eta : Eta connection := λ c, Connection (cn_phase c) (cn_closed c).

(** The server: the manager and its connections, a connection's number being
    that of its socket. *)
Record server := Server { sv_manager : manager; sv_connections : list connection }.
#[export] Instance server_eta : Eta server := λ v, Server (sv_manager v) (sv_connections v).
Definition set_connection (n : nat) (c : connection) (v : server) : server :=
  v <| sv_connections := <[n := c]> (sv_connections v) |>.
Definition on_manager (f : manager → manager) (v : server) : server := v <| sv_manager := f (sv_manager v) |>.

Section Server.
Context (accepts : list wire → nat → message → bool).
Context (terminalSessionName : string → string → string).
Context (maxSessions : Z).

Definition sendTo (socket : nat) (m : message) (t : manager) : manager :=
  if accepts (tm_log t) socket m then log (w_sent socket m) t else t.
Definition closeWithError (socket : nat) (error : string) (t : manager) : manager :=
  log (w_socket_closed socket) (sendTo socket (m_error error) t).

(** A request to connect that passed the checks: [acquire] or [reset]. *)
Inductive terminal_request :=
| rq_acquire (sessionId : option string)
| rq_reset (previousSessionId nextSessionId : option string).

Definition connect (rootId : string) (rq : terminal_request) (persistent : bool) (uuid : string) (v : server) : server :=
  let n := length (sv_connections v) in
  let r := match rq with
           | rq_acquire id => acquire terminalSessionName maxSessions rootId id persistent uuid (sv_manager v)
           | rq_reset previous next => reset terminalSessionName maxSessions rootId previous next persistent uuid (sv_manager v)
           end in
  match r with
  | (inr a, t) => Server t (sv_connections v ++ [Connection (ph_waiting a) false])
  | (inl e, t) => Server (closeWithError n (exn_message e) t) (sv_connections v ++ [Connection ph_ended false])
  end.

(** What a waiting connection finds when its promise is settled. *)
Definition outcome (a : acquired) (t : manager) : option (option nat) :=
  match a with
  | acq_existing i => Some (Some i)
  | acq_lease l =>
      match tm_leases t !! l with
      | None => None
      | Some le =>
          match tm_creations t !! le_pending le with
          | Some c => if pc_finally c
                      then match pc_promise c with pr_resolved i => Some (Some i) | _ => Some None end
                      else None
          | None => None
          end
      end
  end.
Definition release_acquired (a : acquired) (keepAlive : bool) (t : manager) : manager :=
  match a with acq_existing _ => t | acq_lease l => release l keepAlive t end.

(** The handler after its await.  A rejected creation has released the lease
    inside [acquire]. *)
Definition continue_connection (n : nat) (error : string) (now : Z) (v : server) : server :=
  match sv_connections v !! n with
  | Some (Connection (ph_waiting a) closed) =>
      match outcome a (sv_manager v) with
      | None => v
      | Some None =>
          set_connection n (Connection ph_ended closed)
            (on_manager (λ t, closeWithError n error (release_acquired a false t)) v)
      | Some (Some i) =>
          if closed : bool then
            set_connection n (Connection ph_ended true) (on_manager (release_acquired a false) v)
          else
            let '(attached, t) := on_session i false (attach accepts n now) (sv_manager v) in
            if attached : bool
            then Server (release_acquired a true t) (<[n := Connection (ph_attached i) false]> (sv_connections v))
            else Server (log (w_socket_closed n) (release_acquired a false t))
                   (<[n := Connection ph_ended true]> (sv_connections v))
      end
  | _ => v
  end.

Definition object_id (i : nat) (t : manager) : string := from_option ses_id "" (tm_objects t !! i).

(** [detachConnection]: the socket closed, failed or answered no ping. *)
Definition detachConnection (n : nat) (now : Z) (v : server) : server :=
  match sv_connections v !! n with
  | Some (Connection ph closed) =>
      if closed : bool then v else
      let v := set_connection n (Connection ph true) v in
      match ph with
      | ph_attached i => on_manager (λ t, detachSession (object_id i t) n now t) v
      | _ => v
      end
  | None => v
  end.

(** The end of a connection by its handler: [fail] with a message, or the
    browser's wish to close. *)
Definition end_connection (n i : nat) (error : option string) (v : server) : server :=
  set_connection n (Connection (ph_attached i) true)
    (on_manager (λ t,
       let t := match error with Some e => sendTo n (m_error e) t | None => t end in
       log (w_socket_closed n) (closeSession (object_id i t) None t).2) v).

Inductive terminal_message := tm_input (data : string) | tm_resize (cols rows : Z) | tm_close.

(** A message of the browser; [works] tells whether the terminal took it. *)
Definition on_message (n : nat) (m : option terminal_message) (works : bool) (v : server) : server :=
  match sv_connections v !! n with
  | Some (Connection (ph_attached i) false) =>
      match m with
      | None => end_connection n i (Some "Invalid terminal message") v
      | Some tm_close => end_connection n i None v
      | Some (tm_input data) =>
          if works then on_manager (log (w_written i data)) v
          else end_connection n i (Some "Unable to update terminal session") v
      | Some (tm_resize cols rows) =>
          if works then on_manager (log (w_resized i cols rows)) v
          else end_connection n i (Some "Unable to update terminal session") v
      end
  | _ => v
  end.
End Server.
