(* ===== verification/TerminalServer.v ===== *)
(** * The terminal server through time

    The manager and its connections as a transition system: requests,
    messages, output, exits, timers, finished spawns and the shutdown, in any
    order.  The invariant says that the limit is kept and that no terminal is
    forgotten: each session in the manager's map is attached to an open
    connection, or has its idle timer running, or is awaited by a connection. *)
From S2P Require Import Prelude Sql JsString TerminalSessions TerminalManager.
Open Scope Z_scope.

(** ** Maps *)
Section JsMapFacts.
Context {V : Type}.
Implicit Types m : list (string * V).

Lemma map_get_In k v m : map_get k m = Some v → In (k, v) m.
Proof.
  unfold map_get. intros ([k' v'] & E & ->)%fmap_Some. apply find_some in E as [Hin Hk].
  apply bool_decide_eq_true in Hk. simpl in Hk. by subst k'.
Qed.

Lemma map_get_unique k v m : NoDup (fst <$> m) → In (k, v) m → map_get k m = Some v.
Proof.
  unfold map_get. induction m as [|[k' v'] m IH]; [done|]. rewrite fmap_cons, NoDup_cons. simpl.
  intros [Hk Hn] [[= -> ->]|Hin]; [by rewrite bool_decide_true|]. rewrite bool_decide_false; [auto|].
  intros ->. destruct Hk. apply list_elem_of_fmap. exists (k, v). by rewrite list_elem_of_In.
Qed.

Lemma map_get_None k m : map_get k m = None ↔ ∀ v, ¬ In (k, v) m.
Proof.
  split.
  - intros H v Hin. unfold map_get in H. apply fmap_None in H. apply (find_none _ _ H) in Hin.
    by apply bool_decide_eq_false in Hin.
  - intros H. destruct (map_get k m) as [v|] eqn:E; [|done]. by destruct (H v (map_get_In _ _ _ E)).
Qed.

Lemma map_delete_sublist k m : map_delete k m `sublist_of` m.
Proof.
  unfold map_delete. induction m as [|e m IH]; simpl; [constructor|]. destruct (negb _); by constructor.
Qed.

Lemma map_delete_In k k' v m : In (k', v) (map_delete k m) ↔ In (k', v) m ∧ k' ≠ k.
Proof. unfold map_delete. rewrite filter_In. simpl. by rewrite negb_true_iff, bool_decide_eq_false. Qed.

Lemma map_set_new k v m : map_get k m = None → map_set k v m = m ++ [(k, v)].
Proof.
  unfold map_get. rewrite fmap_None. induction m as [|e m IH]; simpl; [done|].
  destruct (bool_decide (e.1 = k)); [done|]. intros H. by rewrite IH.
Qed.

Lemma map_set_fst k v m :
  fst <$> map_set k v m = if bool_decide (k ∈ fst <$> m) then fst <$> m else (fst <$> m) ++ [k].
Proof.
  induction m as [|e m IH]; [done|]. rewrite fmap_cons. cbn [map_set]. destruct (decide (e.1 = k)) as [<-|E].
  - rewrite !bool_decide_true; [done|by left|done].
  - rewrite (bool_decide_false (e.1 = k)) by done. rewrite fmap_cons, IH. destruct (decide (k ∈ fst <$> m)) as [H|H].
    + rewrite !bool_decide_true; [done|by right|done].
    + rewrite !bool_decide_false; [done| |done]. intros [?|?]%elem_of_cons; congruence.
Qed.

Lemma map_set_NoDup k v m : NoDup (fst <$> m) → NoDup (fst <$> map_set k v m).
Proof.
  rewrite map_set_fst. case_bool_decide as E; [done|]. intros H. apply NoDup_app. split; [done|].
  split; [|apply NoDup_singleton]. intros x Hx ->%list_elem_of_singleton. done.
Qed.

Lemma map_set_length k v m : (length (map_set k v m) ≤ S (length m))%nat.
Proof.
  rewrite <-(length_fmap fst (map_set k v m)), map_set_fst. case_bool_decide; rewrite ?length_app, length_fmap; simpl; lia.
Qed.

Lemma map_set_In k v e m : NoDup (fst <$> m) → In e (map_set k v m) → e = (k, v) ∨ (In e m ∧ e.1 ≠ k).
Proof.
  induction m as [|e' m IH]; simpl; [naive_solver|]. rewrite NoDup_cons. intros [Hk Hn].
  case_bool_decide as E; simpl.
  - intros [<-|He]; [by left|]. right. split; [by right|]. intros Hk'. destruct Hk.
    apply list_elem_of_fmap. exists e. rewrite list_elem_of_In. split; [congruence|done].
  - intros [<-|[->|[He ?]]%IH]; [right; by auto|by left|right; by auto|done].
Qed.
End JsMapFacts.

Lemma sublist_In {A} (l1 l2 : list A) x : l1 `sublist_of` l2 → In x l1 → In x l2.
Proof. induction 1; simpl; naive_solver. Qed.

Lemma filter_sublist {A} (f : A → bool) l : List.filter f l `sublist_of` l.
Proof. induction l as [|x l IH]; simpl; [constructor|]. destruct (f x); by constructor. Qed.

Lemma filter_sublist_mono {A} (f : A → bool) l1 l2 :
  l1 `sublist_of` l2 → (length (List.filter f l1) ≤ length (List.filter f l2))%nat.
Proof. induction 1 as [|x l1 l2 _ IH|x l1 l2 _ IH]; simpl; [done|..]; destruct (f x); simpl; lia. Qed.

(** ** What most steps do

    Objects only leave, close and fall silent; nothing is created, joined or
    released. *)
Definition held (s : TerminalSession) : Prop :=
  ses_closed s = true ∨ hasActiveSocket s = true ∨ ses_idleTimer s = true.

Record calms (s s' : TerminalSession) : Prop := Calms {
  ca_id : ses_id s' = ses_id s;
  ca_root : ses_rootId s' = ses_rootId s;
  ca_closed : ses_closed s = true → ses_closed s' = true;
  ca_held : held s → held s';
  ca_active : ses_activeSocket s' = ses_activeSocket s ∨ ses_activeSocket s' = None;
  ca_ok : session_ok s → session_ok s'
}.

#[export] Instance calms_preorder : PreOrder calms.
Proof.
  split; [split; auto|]. intros s1 s2 s3 [a1 b1 c1 d1 e1 f1] [a2 b2 c2 d2 e2 f2].
  split; [congruence..|auto|auto| |auto]. destruct e2 as [->|?]; auto.
Qed.

Notation cancel := (λ c, c <| pc_cancelled := true |>).
Definition cancels (c c' : PendingCreation) : Prop := c' = c ∨ c' = cancel c.
#[export] Instance cancels_preorder : PreOrder cancels.
Proof. unfold cancels. split; [by left|]. intros c1 c2 c3 [->| ->] [->| ->]; auto. Qed.

Record shrinks (t t' : manager) : Prop := Shrinks {
  sh_objects : Forall2 calms (tm_objects t) (tm_objects t');
  sh_creations : Forall2 cancels (tm_creations t) (tm_creations t');
  sh_leases : tm_leases t' = tm_leases t;
  sh_sessions : tm_sessions t' `sublist_of` tm_sessions t;
  sh_open : ∀ k i s s', In (k, i) (tm_sessions t') → tm_objects t !! i = Some s → tm_objects t' !! i = Some s' →
    ses_closed s' = ses_closed s;
  sh_pending : tm_pendingByKey t' `sublist_of` tm_pendingByKey t;
  sh_dropped : ∀ k p c', In (k, p) (tm_pendingByKey t) → tm_creations t' !! p = Some c' → pc_promise c' = pr_running →
    In (k, p) (tm_pendingByKey t') ∨ pc_cancelled c' = true;
  sh_closed : tm_closed t' = tm_closed t ∨ tm_pendingByKey t' = []
}.

(** The manager's map names its sessions by their ids. *)
Definition sessions_wf (t : manager) : Prop :=
  NoDup (fst <$> tm_sessions t) ∧
  ∀ k i, In (k, i) (tm_sessions t) → ∃ s, tm_objects t !! i = Some s ∧ ses_id s = k.

#[export] Instance shrinks_preorder : PreOrder shrinks.
Proof.
  split.
  - intros t. split; try done; auto. intros k i s s' _ H1 H2. congruence.
  - intros t1 t2 t3 [o1 c1 l1 s1 p1 q1 d1 e1] [o2 c2 l2 s2 p2 q2 d2 e2]. split; try (by etrans).
    + intros k i s s'' Hin Hs Hs''. destruct (Forall2_lookup_l _ _ _ _ _ o1 Hs) as (s' & Hs' & _).
      rewrite (p2 k i s' s''); [|done..]. apply (p1 k i); [by eapply sublist_In|done..].
    + intros k p c'' Hin Hc Hr. destruct (Forall2_lookup_r _ _ _ _ _ c2 Hc) as (c' & Hc' & Hcc).
      destruct (d1 k p c' Hin Hc') as [Hin'|Hx]; [by destruct Hcc as [->| ->]|by eauto|]. right. by destruct Hcc as [->| ->].
    + destruct e2 as [->|?]; [|by right]. destruct e1 as [?|He]; [by left|]. right.
      rewrite He in q2. by apply sublist_nil_r in q2.
Qed.

Lemma shrinks_wf t t' : shrinks t t' → sessions_wf t → sessions_wf t'.
Proof.
  intros [o c l s p q d e] [Hn Hi]. split.
  - eapply sublist_NoDup; [exact Hn|]. by apply fmap_sublist.
  - intros k i Hin. destruct (Hi k i) as (x & Hx & <-); [by eapply sublist_In|].
    destruct (Forall2_lookup_l _ _ _ _ _ o Hx) as (x' & Hx' & Hc). exists x'. split; [done|]. apply Hc.
Qed.

(** ** The operations on a session, seen from outside *)
Lemma schedule_calms s : ses_activeSocket s = None → calms s (scheduleIdleClose s).
Proof.
  intros Ha. destruct (schedule_fields s) as (E1 & E2 & _ & E4 & E5 & _).
  split; [done..|by rewrite E5| |by left|intros; by apply schedule_ok].
  unfold held, hasActiveSocket. rewrite E5, E4. unfold scheduleIdleClose. destruct (_ || _) eqn:E; [done|]. simpl. auto.
Qed.

(** Leaving a socket starts the timer. *)
Lemma left_calms now s : calms s (scheduleIdleClose (leave now s)).
Proof.
  destruct (schedule_fields (leave now s)) as (E1 & E2 & _ & E4 & E5 & _).
  split; [done..|by rewrite E5| |by right|intros; by apply left_ok].
  intros _. unfold held. rewrite E5. unfold scheduleIdleClose. simpl.
  destruct (ses_idleTimer s) eqn:Ei; simpl; [by rewrite Ei; auto|]. destruct (ses_closed s) eqn:Ec; simpl; auto.
Qed.

Lemma covers_owed s : covers (owed s) (ses_pendingOutput s).
Proof.
  assert (∀ l, covers (chunk <$> l) l) as H by (intros l; induction l; by constructor).
  unfold owed. destruct (ses_pendingOutputTruncated s); [by apply (covers_gap [])|apply H].
Qed.

Lemma append_calms data s : ses_activeSocket s = None → calms s (appendPendingOutput data s).
Proof.
  intros Ha. assert (session_ok s → session_ok (appendPendingOutput data s)) as Hok.
  { intros Hs. by destruct (append_ok data s _ [] Hs Ha (covers_owed s)). }
  revert Hok. unfold appendPendingOutput. destruct (drop_over _ _ _) as [[l b] tr]. intros Hok. split; [done..| |by left|done].
  unfold held, hasActiveSocket. simpl. auto.
Qed.

Section Calm.
Context (accepts : list wire → nat → message → bool).

Lemma onData_calms data now w : calms (sw_session w) (sw_session (onData accepts data now w).2).
Proof.
  destruct w as [s l]. unfold onData. rewrite bind_gets. cbn [sw_session]. destruct (ses_closed s); [done|].
  destruct (ses_activeSocket s) as [socket|] eqn:Ea; [|by apply append_calms].
  rewrite (bind_inr _ _ _ _ _ (sendSocket_eq _ _ _ _)). destruct (accepts _ _ _); [done|].
  etrans; [apply (left_calms now)|]. apply append_calms.
  destruct (schedule_fields (leave now s)) as (_ & _ & _ & E & _). exact E.
Qed.

Lemma detach_calms socket now w : calms (sw_session w) (sw_session (detach socket now w).2).
Proof. unfold detach. rewrite bind_gets. destruct (_ || _); [done|]. apply left_calms. Qed.

Lemma detach_active socket now w s' : sw_session (detach socket now w).2 = s' → ses_closed s' = false →
  ses_activeSocket s' ≠ Some socket.
Proof.
  unfold detach. rewrite bind_gets. intros <-. destruct (_ || _) eqn:E.
  - simpl. intros Hc. rewrite Hc in E. simpl in E. by apply negb_true_iff, bool_decide_eq_false in E.
  - simpl. destruct (schedule_fields (leave now (sw_session w))) as (_ & _ & _ & Ha & _). simpl in Ha. by rewrite Ha.
Qed.

(** The ends of a session: nothing when it is closed already. *)
Definition ends (m : session_prog bool) : Prop := ∀ w,
  if ses_closed (sw_session w) then m w = (inr false, w)
  else ∃ l, m w = (inr true, SessionWorld (finished (sw_session w)) l).

Lemma end_session_ends e : ends (end_session e).
Proof.
  intros [s l]. unfold end_session. rewrite bind_gets. cbn [sw_session]. destruct (ses_closed s); [done|].
  unfold mbind, prog_bind. simpl. destruct (ses_activeSocket s); simpl; eexists; reflexivity.
Qed.

Lemma exited_ends c sig r : ends (exited accepts c sig r).
Proof.
  intros [s l]. unfold exited. rewrite bind_gets. cbn [sw_session]. destruct (ses_closed s); [done|].
  unfold mbind, prog_bind. destruct (ses_activeSocket s) as [socket|]; [destruct r|]; simpl;
    rewrite ?sendSocket_eq; simpl; eexists; reflexivity.
Qed.

Lemma finished_calms s : calms s (finished s).
Proof. split; [done..|by left|by right|]. intros H. apply finished_ok, H. Qed.
End Calm.
#[export] Hint Resolve end_session_ends exited_ends : calm.

(** *** On the manager *)
Lemma update_log_shrinks l t : shrinks t (t <| tm_log := l |>).
Proof. destruct (reflexivity (R:=shrinks) t). by split. Qed.

Lemma on_session_shrinks {A} i (d : A) m t : (∀ w, calms (sw_session w) (sw_session (m w).2)) →
  (∀ w, ses_closed (sw_session (m w).2) = ses_closed (sw_session w)) →
  shrinks t (on_session i d m t).2.
Proof.
  intros Hm Hc. unfold on_session. destruct (tm_objects t !! i) as [s|] eqn:Es; [|done].
  specialize (Hm (SessionWorld s (tm_log t))). specialize (Hc (SessionWorld s (tm_log t))).
  assert (∀ l, shrinks t (t <| tm_objects := <[i := sw_session (m (SessionWorld s (tm_log t))).2]> (tm_objects t) |> <| tm_log := l |>)) as H.
  { intros l. split; simpl; try done; auto.
    - rewrite <-(list_insert_id (tm_objects t) i s) at 1 by done. by apply Forall2_insert.
    - intros k j x x' _ Hx Hx'. destruct (decide (i = j)) as [<-|Hij].
      + rewrite list_lookup_insert_eq in Hx' by (by eapply lookup_lt_Some). by simplify_eq/=.
      + rewrite list_lookup_insert_ne in Hx' by done. congruence. }
  destruct (m _) as [[e|a] w]; apply H.
Qed.

Lemma ending_eq i m t : ends m →
  match tm_objects t !! i with
  | Some s => if ses_closed s then ending i m t = t ∨ ∃ l, ending i m t = t <| tm_log := l |>
              else ∃ l, ending i m t = onExit i (t <| tm_objects := <[i := finished s]> (tm_objects t) |> <| tm_log := l |>)
  | None => ending i m t = t
  end.
Proof.
  intros Hm. unfold ending, on_session. destruct (tm_objects t !! i) as [s|] eqn:Es; [|done].
  specialize (Hm (SessionWorld s (tm_log t))). simpl in Hm. destruct (ses_closed s).
  - rewrite Hm. right. exists (tm_log t). simpl. by rewrite list_insert_id.
  - destruct Hm as [l ->]. eexists. reflexivity.
Qed.

Lemma onExit_sub i t : tm_sessions (onExit i t) `sublist_of` tm_sessions t.
Proof. unfold onExit. destruct (tm_objects t !! i); [|done]. case_bool_decide; [|done]. apply map_delete_sublist. Qed.
Lemma onExit_same i t : tm_objects (onExit i t) = tm_objects t ∧ tm_creations (onExit i t) = tm_creations t ∧
  tm_leases (onExit i t) = tm_leases t ∧ tm_pendingByKey (onExit i t) = tm_pendingByKey t ∧
  tm_closed (onExit i t) = tm_closed t ∧ tm_log (onExit i t) = tm_log t.
Proof. unfold onExit. destruct (tm_objects t !! i); [|done]. by case_bool_decide. Qed.

(** After [onExit] the session is not in the map. *)
Lemma onExit_gone i k t : sessions_wf t → ¬ In (k, i) (tm_sessions (onExit i t)).
Proof.
  intros [Hn Hi] Hin. destruct (Hi k i) as (s & Hs & Hk); [by eapply sublist_In, Hin; apply onExit_sub|].
  unfold onExit in Hin. rewrite Hs in Hin. case_bool_decide as E.
  - simpl in Hin. apply map_delete_In in Hin as [_ Hne]. done.
  - destruct E. apply map_get_unique; [done|by rewrite Hk].
Qed.

(** Ending an object that is not closed: it is finished and out of the map. *)
Lemma ending_shrinks i m t : ends m → sessions_wf t → shrinks t (ending i m t).
Proof.
  intros Hm Hwf. pose proof (ending_eq i m t Hm) as E. destruct (tm_objects t !! i) as [s|] eqn:Es; [|by rewrite E].
  destruct (ses_closed s) eqn:Ec; [destruct E as [->|[l ->]]; [done|apply update_log_shrinks]|]. destruct E as [l ->].
  set (t1 := t <| tm_objects := <[i:=finished s]> (tm_objects t) |> <| tm_log := l |>).
  assert (sessions_wf t1) as Hwf1.
  { destruct Hwf as [Hn Hi]. split; [done|]. intros k j Hin. destruct (Hi k j Hin) as (x & Hx & Hk). simpl.
    destruct (decide (i = j)) as [<-|Hij].
    - exists (finished s). rewrite list_lookup_insert_eq by (by eapply lookup_lt_Some). split; [done|]. simpl. congruence.
    - exists x. by rewrite list_lookup_insert_ne. }
  destruct (onExit_same i t1) as (Ho & Hc & Hl & Hp & Hcl & _).
  split; rewrite ?Ho, ?Hc, ?Hl, ?Hp, ?Hcl; simpl; auto; try reflexivity.
  - rewrite <-(list_insert_id (tm_objects t) i s) at 1 by done. apply Forall2_insert; [reflexivity|apply finished_calms].
  - exact (onExit_sub i t1).
  - intros k j x x' Hin Hx Hx'. destruct (decide (i = j)) as [<-|Hij].
    + by destruct (onExit_gone i k t1).
    + rewrite list_lookup_insert_ne in Hx' by done. congruence.
Qed.

Lemma ending_closed i m t s : ends m → tm_objects (ending i m t) !! i = Some s → ses_closed s = true.
Proof.
  intros Hm. pose proof (ending_eq i m t Hm) as E. destruct (tm_objects t !! i) as [x|] eqn:Es; [|by rewrite E, Es].
  destruct (ses_closed x) eqn:Ec; [destruct E as [->|[l ->]]; simpl; intros; congruence|]. destruct E as [l ->].
  destruct (onExit_same i (t <| tm_objects := <[i:=finished x]> (tm_objects t) |> <| tm_log := l |>)) as (-> & _). simpl.
  rewrite list_lookup_insert_eq by (by eapply lookup_lt_Some). by intros [= <-].
Qed.

(** Dropping a key of the session map once its object is closed changes
    nothing that matters; neither does cancelling. *)
Lemma delete_session_shrinks k t : shrinks t (t <| tm_sessions := map_delete k (tm_sessions t) |>).
Proof.
  destruct (reflexivity (R:=shrinks) t) as [o c l s p q d e]. split; simpl; auto; try reflexivity; [apply map_delete_sublist|].
  intros k' i x x' _ Hx Hx'. congruence.
Qed.

Lemma cancel_shrinks p t : shrinks t (update_creation p cancel t).
Proof.
  destruct (reflexivity (R:=shrinks) t) as [o c l s q r d e]. split; simpl; auto.
  apply Forall2_alter_r; [done|]. intros x y Hx Hy [->| ->]; by right.
Qed.

Lemma cancel_all_shrinks ps t : shrinks t (foldr (λ p t, update_creation p cancel t) t ps).
Proof. induction ps as [|p ps IH]; [reflexivity|]. simpl. etrans; [exact IH|apply cancel_shrinks]. Qed.

Lemma cancel_all_cancelled ps t p c : In p ps →
  tm_creations (foldr (λ p t, update_creation p cancel t) t ps) !! p = Some c → pc_cancelled c = true.
Proof.
  induction ps as [|q ps IH]; [done|]. simpl. intros Hin. rewrite list_lookup_alter.
  destruct (decide (q = p)) as [->|Hne].
  - destruct (tm_creations _ !! p); [|done]. by intros [= <-].
  - destruct Hin as [->|Hin]; [done|]. auto.
Qed.

Lemma cancel_all_same ps t : let t' := foldr (λ p t, update_creation p cancel t) t ps in
  tm_objects t' = tm_objects t ∧ tm_sessions t' = tm_sessions t ∧ tm_pendingByKey t' = tm_pendingByKey t ∧
  tm_leases t' = tm_leases t ∧ tm_closed t' = tm_closed t.
Proof. induction ps as [|p ps IH]; [done|]. exact IH. Qed.

(** *** The manager's methods *)
Lemma close_object_shrinks i t : sessions_wf t → shrinks t (close_object i t).
Proof. apply ending_shrinks, end_session_ends. Qed.
Lemma disconnect_object_shrinks i t : sessions_wf t → shrinks t (disconnect_object i t).
Proof. apply ending_shrinks, end_session_ends. Qed.

Lemma closeSession_shrinks id root t : sessions_wf t → shrinks t (closeSession id root t).2.
Proof.
  intros Hwf. unfold closeSession. destruct (map_get id (tm_sessions t)) as [i|].
  - destruct (from_option _ _ _); [done|]. simpl. etrans; [by apply (close_object_shrinks i)|apply delete_session_shrinks].
  - apply cancel_all_shrinks.
Qed.

(** Cancelled entries may leave the map of pending creations. *)
Lemma drop_pending_shrinks m ps t :
  m `sublist_of` tm_pendingByKey t → (∀ k p, In (k, p) (tm_pendingByKey t) → In (k, p) m ∨ In p ps) →
  shrinks t (foldr (λ p t, update_creation p cancel t) t ps <| tm_pendingByKey := m |>).
Proof.
  intros Hm Hd. destruct (cancel_all_shrinks ps t) as [o c l s q r d e].
  split; simpl; auto.
  - intros k p c' Hin Hc' _. destruct (Hd k p Hin) as [?|Hp]; [by left|]. right. by eapply cancel_all_cancelled.
  - left. apply (cancel_all_same ps t).
Qed.

Lemma cancelPending_shrinks root id t : shrinks t (cancelPending root id t).
Proof.
  apply drop_pending_shrinks; [apply filter_sublist|]. intros k p Hin.
  destruct (pending_of root id t p) eqn:E; [right|left; apply filter_In; simpl; by rewrite E].
  apply filter_In. split; [|done]. apply in_map_iff. by exists (k, p).
Qed.

Lemma destroy_begin_shrinks root id t : sessions_wf t → NoDup (fst <$> tm_pendingByKey t) → shrinks t (destroy_begin root id t).2.
Proof.
  intros Hwf Hn. unfold destroy_begin. destruct (from_option _ false _); [done|].
  set (t1 := match map_get id (tm_sessions t) with Some i => _ | None => t end).
  assert (shrinks t t1) as H1.
  { unfold t1. destruct (map_get id (tm_sessions t)) as [i|]; [|done].
    etrans; [by apply (disconnect_object_shrinks i)|apply delete_session_shrinks]. }
  destruct (map_get _ (tm_pendingByKey t1)) as [p|] eqn:Ep; [|done]. simpl. etrans; [exact H1|].
  apply (drop_pending_shrinks _ [p]); [apply map_delete_sublist|]. intros k q Hin.
  destruct (decide (k = terminalSessionKey root id)) as [->|Hk]; [|left; by apply map_delete_In].
  right. left. apply map_get_unique in Hin; [congruence|]. eapply sublist_NoDup; [exact Hn|].
  apply fmap_sublist, (sh_pending _ _ H1).
Qed.

Lemma detachSession_shrinks id socket now t : sessions_wf t → shrinks t (detachSession id socket now t).
Proof.
  intros Hwf. unfold detachSession. destruct (map_get id (tm_sessions t)) as [i|]; [|done].
  pose proof (on_session_shrinks i tt (detach socket now) t (detach_calms socket now)) as H.
  destruct (on_session i tt (detach socket now) t) as [u t1]. simpl in H.
  assert (shrinks t t1) as H1.
  { apply H. intros w. unfold detach. rewrite bind_gets. destruct (_ || _); [done|]. simpl.
    by destruct (schedule_fields (leave now (sw_session w))) as (_ & _ & _ & _ & -> & _). }
  destruct (object_active t1 i); [done|]. etrans; [exact H1|]. apply disconnect_object_shrinks. by eapply shrinks_wf.
Qed.

Lemma disconnect_each_shrinks l t : sessions_wf t → shrinks t (foldl (λ t i, disconnect_object i t) t l).
Proof.
  revert t. induction l as [|i l IH]; intros t Hwf; [reflexivity|]. simpl. pose proof (disconnect_object_shrinks i t Hwf) as H.
  etrans; [exact H|]. apply IH. by eapply shrinks_wf.
Qed.

Lemma disconnectAll_shrinks t : sessions_wf t → shrinks t (disconnectAll t).
Proof.
  intros Hwf. unfold disconnectAll. set (t1 := t <| tm_closed := true |>).
  assert (shrinks t1 (foldl (λ t i, disconnect_object i t) t1 (snd <$> tm_sessions t1))) as H1 by by apply disconnect_each_shrinks.
  set (t2 := foldl _ t1 _) in *.
  assert (shrinks t2 (t2 <| tm_sessions := [] |>)) as H2.
  { destruct (reflexivity (R:=shrinks) t2) as [o c l s p q d e]. split; simpl; auto; [apply sublist_nil_l|done]. }
  set (t3 := t2 <| tm_sessions := [] |>) in *.
  assert (shrinks t3 (foldr (λ p t, update_creation p cancel t) t3 (snd <$> tm_pendingByKey t3) <| tm_pendingByKey := [] |>)) as H3.
  { apply drop_pending_shrinks; [apply sublist_nil_l|]. intros k p Hin. right. apply in_map_iff. by exists (k, p). }
  pose proof (transitivity (transitivity H1 H2) H3) as [o c l s p q d e]. split; try done. by right.
Qed.

Lemma ensureCapacity_shrinks max t : sessions_wf t → shrinks t (ensureCapacity max t).2.
Proof.
  intros Hwf. unfold ensureCapacity. case_bool_decide; [done|].
  set (t1 := match first_by _ _ _ with None => t | Some o => _ end).
  enough (shrinks t t1) by (by case_bool_decide). unfold t1.
  destruct (first_by _ _ _) as [i|]; [|done]. etrans; [by apply (close_object_shrinks i)|apply delete_session_shrinks].
Qed.

(** ** The invariant of the manager *)
Definition unresolved (t : manager) (e : string * nat) : bool :=
  from_option (λ c, negb (isSome (pc_session c))) true (tm_creations t !! e.2).
(** The sessions there are and those there may still be. *)
Definition load (t : manager) : Z :=
  Z.of_nat (length (tm_sessions t) + length (List.filter (unresolved t) (tm_pendingByKey t))).
Definition waits_for (p : nat) (l : lease) : bool := bool_decide (le_pending l = p) && negb (le_released l).

Section Invariant.
Context (maxSessions : Z).

Record manager_ok (t : manager) : Prop := ManagerOk {
  mo_sessions : sessions_wf t;
  mo_open : ∀ k i s, In (k, i) (tm_sessions t) → tm_objects t !! i = Some s → ses_closed s = false;
  mo_objects : Forall session_ok (tm_objects t);
  mo_pending : NoDup (fst <$> tm_pendingByKey t);
  mo_keys : ∀ k p, In (k, p) (tm_pendingByKey t) →
    ∃ c, tm_creations t !! p = Some c ∧ pc_key c = k ∧ pc_finally c = false;
  mo_running : ∀ p c, tm_creations t !! p = Some c → pc_promise c = pr_running → pc_cancelled c = false →
    tm_closed t = false ∧ In (pc_key c, p) (tm_pendingByKey t);
  mo_promise : ∀ p c, tm_creations t !! p = Some c →
    match pc_promise c with
    | pr_resolved i => pc_session c = Some i ∧ (i < length (tm_objects t))%nat
    | _ => pc_session c = None
    end ∧ (pc_finally c = true → pc_promise c ≠ pr_running);
  mo_waiters : ∀ p c, tm_creations t !! p = Some c → pc_waiters c = count_where (waits_for p) (tm_leases t);
  mo_leases : ∀ l le, tm_leases t !! l = Some le → (le_pending le < length (tm_creations t))%nat;
  mo_load : load t ≤ maxSessions
}.

Lemma cancels_fields c c' : cancels c c' →
  pc_key c' = pc_key c ∧ pc_promise c' = pc_promise c ∧ pc_session c' = pc_session c ∧ pc_finally c' = pc_finally c ∧
  pc_waiters c' = pc_waiters c ∧ (pc_cancelled c' = false → pc_cancelled c = false) ∧ pc_rootId c' = pc_rootId c ∧
  pc_sessionId c' = pc_sessionId c.
Proof. by intros [->| ->]. Qed.

Lemma shrinks_ok t t' : shrinks t t' → manager_ok t → manager_ok t'.
Proof.
  intros Hsh [H1 H2 H3 H4 H5 H6 H7 H8 H9 H10]. pose proof (shrinks_wf _ _ Hsh H1) as Hwf.
  destruct Hsh as [o c l s p q d e]. split.
  - done.
  - intros k i x Hin Hx. destruct (Forall2_lookup_r _ _ _ _ _ o Hx) as (x0 & Hx0 & _).
    rewrite (p k i x0 x) by done. eapply H2; [by eapply sublist_In|done].
  - rewrite Forall_lookup in H3 |- *. intros i x Hx. destruct (Forall2_lookup_r _ _ _ _ _ o Hx) as (x0 & Hx0 & Hc).
    apply Hc. by eapply H3.
  - eapply sublist_NoDup; [exact H4|]. by apply fmap_sublist.
  - intros k n Hin. destruct (H5 k n) as (c0 & Hc0 & Hk & Hf); [by eapply sublist_In|].
    destruct (Forall2_lookup_l _ _ _ _ _ c Hc0) as (c' & Hc' & (E1 & _ & _ & E4 & _)%cancels_fields).
    exists c'. split; [done|]. split; congruence.
  - intros n c' Hc' Hr Hx. destruct (Forall2_lookup_r _ _ _ _ _ c Hc') as (c0 & Hc0 & (E1 & E2 & _ & _ & _ & E6 & _)%cancels_fields).
    destruct (H6 n c0) as [Hcl Hin]; [done|congruence|auto|].
    assert (In (pc_key c', n) (tm_pendingByKey t')) as Hin'.
    { rewrite E1. destruct (d (pc_key c0) n c' Hin Hc' Hr); [done|congruence]. }
    split; [|done]. destruct e as [->|E]; [done|]. by rewrite E in Hin'.
  - intros n c' Hc'. destruct (Forall2_lookup_r _ _ _ _ _ c Hc') as (c0 & Hc0 & (_ & E2 & E3 & E4 & _)%cancels_fields).
    rewrite E2, E3, E4, <-(Forall2_length _ _ _ o). by apply (H7 n).
  - intros n c' Hc'. destruct (Forall2_lookup_r _ _ _ _ _ c Hc') as (c0 & Hc0 & (_ & _ & _ & _ & E5 & _)%cancels_fields).
    rewrite l, E5. by apply H8.
  - rewrite l, <-(Forall2_length _ _ _ c). done.
  - etrans; [|exact H10]. unfold load. apply inj_le, Nat.add_le_mono; [by apply sublist_length|].
    etrans; [by apply (filter_sublist_mono (unresolved t')), q|]. apply Nat.eq_le_incl, f_equal, filter_ext.
    intros [k n]. unfold unresolved. simpl. destruct (tm_creations t !! n) as [c0|] eqn:E.
    + destruct (Forall2_lookup_l _ _ _ _ _ c E) as (c' & -> & (_ & _ & E3 & _)%cancels_fields). simpl. by rewrite E3.
    + apply lookup_ge_None in E. rewrite (Forall2_length _ _ _ c) in E. apply lookup_ge_None in E. by rewrite E.
Qed.

(** *** The steps that create, join, settle and release *)
Lemma log_ok e t : manager_ok t → manager_ok (log e t).
Proof. apply shrinks_ok. apply (update_log_shrinks (tm_log t ++ [e])). Qed.

Lemma alter_lookup_l {A} (f : A → A) (p q : nat) (l : list A) c : l !! q = Some c →
  alter f p l !! q = Some (if bool_decide (p = q) then f c else c).
Proof. intros Hc. rewrite list_lookup_alter. case_decide; [subst; by rewrite Hc, bool_decide_true|by rewrite bool_decide_false]. Qed.

Lemma alter_lookup_r {A} (f : A → A) (p q : nat) (l : list A) c' : alter f p l !! q = Some c' →
  ∃ c, l !! q = Some c ∧ c' = if bool_decide (p = q) then f c else c.
Proof.
  rewrite list_lookup_alter. case_decide as E; [subst; rewrite bool_decide_true by done|rewrite bool_decide_false by done; eauto].
  destruct (l !! q); simpl; naive_solver.
Qed.

Lemma unresolved_alter t t' p f e : tm_creations t' = alter f p (tm_creations t) →
  (∀ c, pc_session (f c) = pc_session c) → unresolved t' e = unresolved t e.
Proof.
  intros E Hf. unfold unresolved. rewrite E, list_lookup_alter. case_decide as Ep; [|done]. rewrite <-Ep.
  destruct (tm_creations t !! p) as [c|]; [|done]. simpl. by rewrite Hf.
Qed.

Lemma load_alter t t' p f : tm_creations t' = alter f p (tm_creations t) → (∀ c, pc_session (f c) = pc_session c) →
  tm_sessions t' = tm_sessions t → tm_pendingByKey t' `sublist_of` tm_pendingByKey t → load t' ≤ load t.
Proof.
  intros E Hf Es Ep. unfold load. rewrite Es. apply inj_le, Nat.add_le_mono_l.
  etrans; [by apply filter_sublist_mono, Ep|]. apply Nat.eq_le_incl, f_equal, filter_ext.
  intros e. by apply (unresolved_alter t t' p f).
Qed.

Lemma join_ok p t : manager_ok t → (p < length (tm_creations t))%nat → manager_ok (join p t).2.
Proof.
  intros [H1 H2 H3 H4 H5 H6 H7 H8 H9 H10] Hp. unfold join. simpl.
  set (f := λ c, c <| pc_waiters := S (pc_waiters c) |>).
  split; simpl; try done.
  - intros k q Hin. destruct (H5 k q Hin) as (c & Hc & Hk & Hf). eexists.
    split; [by apply alter_lookup_l|]. by destruct (bool_decide (p = q)).
  - intros q c' (c & Hc & ->)%alter_lookup_r. destruct (bool_decide (p = q)); apply (H6 q c Hc).
  - intros q c' (c & Hc & ->)%alter_lookup_r. destruct (bool_decide (p = q)); apply (H7 q c Hc).
  - intros q c' (c & Hc & ->)%alter_lookup_r. specialize (H8 q c Hc).
    change (tm_leases t ++ [Lease p false]) with (insert_row (Lease p false) (tm_leases t)). rewrite count_where_insert.
    unfold waits_for at 2. simpl. rewrite andb_true_r. case_bool_decide; simpl; lia.
  - intros l le. rewrite length_alter. intros [Hin|[_ Hin]]%lookup_app_Some; [by eapply H9|].
    apply list_lookup_singleton_Some in Hin as [_ <-]. done.
  - etrans; [by eapply (load_alter t)|done].
Qed.

Lemma start_creation_ok name key root id persistent t : manager_ok t → tm_closed t = false →
  map_get key (tm_pendingByKey t) = None → total t < maxSessions →
  manager_ok (start_creation name key root id persistent t).
Proof.
  intros [H1 H2 H3 H4 H5 H6 H7 H8 H9 H10] Hcl Hk Ht. unfold start_creation. rewrite map_set_new by done.
  set (c0 := Pending _ _ _ _ _ _ _ _). set (p := length (tm_creations t)).
  assert (∀ q c, (tm_creations t ++ [c0]) !! q = Some c → tm_creations t !! q = Some c ∨ (q = p ∧ c = c0)) as Hl.
  { intros q c [?|[Hge Hq]]%lookup_app_Some; [by left|]. apply list_lookup_singleton_Some in Hq as [? <-].
    right. split; [unfold p; lia|done]. }
  assert (∀ k v, In (k, v) (tm_pendingByKey t) → v ≠ p) as Hfresh.
  { intros k v Hin ->. destruct (H5 k p Hin) as (c & Hc & _). apply lookup_lt_Some in Hc. unfold p in Hc. lia. }
  split; simpl; try done.
  - rewrite fmap_app. apply NoDup_app. split; [done|]. split; [|apply NoDup_singleton].
    intros x Hx ->%list_elem_of_singleton. simpl in Hx. apply list_elem_of_fmap in Hx as ([k v] & -> & Hin).
    rewrite map_get_None in Hk. rewrite list_elem_of_In in Hin. by destruct (Hk v).
  - intros k v [Hin|[[= <- <-]|[]]]%in_app_iff.
    + destruct (H5 k v Hin) as (c & Hc & ?). exists c. split; [by apply lookup_app_l_Some|done].
    + exists c0. split; [|done]. by rewrite lookup_app_r, Nat.sub_diag by done.
  - intros q c [Hc|[-> ->]]%Hl Hr Hx.
    + destruct (H6 q c Hc Hr Hx) as [? ?]. split; [done|]. apply in_app_iff. by left.
    + split; [done|]. apply in_app_iff. right. by left.
  - intros q c [Hc|[-> ->]]%Hl; [by apply (H7 q c)|done].
  - intros q c [Hc|[-> ->]]%Hl; [by apply H8|]. simpl. symmetry. apply count_where_0. intros le Hin.
    apply list_elem_of_In, list_elem_of_lookup in Hin as [l Hle]. apply H9 in Hle. unfold waits_for.
    rewrite bool_decide_false; [done|]. unfold p. lia.
  - intros l le Hle. rewrite length_app. simpl. specialize (H9 l le Hle). lia.
  - unfold total in Ht. unfold load. simpl. pose proof (sublist_length _ _ (filter_sublist
      (unresolved (start_creation name key root id persistent t)) (tm_pendingByKey t ++ [(key, p)]))) as Hlen.
    unfold start_creation in Hlen. rewrite map_set_new in Hlen by done. rewrite length_app in Hlen. simpl in Hlen.
    etrans; [apply inj_le, Nat.add_le_mono_l, Hlen|]. lia.
Qed.

Lemma filter_length_mono {A} (f g : A → bool) l : (∀ x, In x l → g x = true → f x = true) →
  (length (List.filter g l) ≤ length (List.filter f l))%nat.
Proof.
  induction l as [|x l IH]; intros H; simpl; [done|]. assert (IH' := IH (λ y Hy, H y (or_intror Hy))).
  pose proof (H x (or_introl eq_refl)) as Hx. destruct (g x), (f x); simpl; try lia; by specialize (Hx eq_refl).
Qed.

Lemma filter_length_lt {A} (f g : A → bool) l x : (∀ x, In x l → g x = true → f x = true) → In x l →
  f x = true → g x = false → (length (List.filter g l) < length (List.filter f l))%nat.
Proof.
  induction l as [|y l IH]; intros H Hin Hf Hg; simpl; [done|].
  pose proof (filter_length_mono f g l (λ y Hy, H y (or_intror Hy))) as Hle. pose proof (H y (or_introl eq_refl)) as Hy.
  destruct Hin as [->|Hin]; [rewrite Hf, Hg; simpl; lia|].
  specialize (IH (λ y Hy, H y (or_intror Hy)) Hin Hf Hg). destruct (g y), (f y); simpl; try lia; by specialize (Hy eq_refl).
Qed.

(** The [then] of a creation registers the session with it... *)
Definition register (p : nat) (s : TerminalSession) (t : manager) : manager :=
  update_creation p (λ c, c <| pc_session := Some (length (tm_objects t)) |> <| pc_promise := pr_resolved (length (tm_objects t)) |>)
    (t <| tm_objects := tm_objects t ++ [s] |>).

Lemma register_unresolved p s t e : unresolved (register p s t) e = true → unresolved t e = true.
Proof.
  unfold unresolved. simpl. rewrite list_lookup_alter. case_decide as E; [|done]. rewrite <-E.
  by destruct (tm_creations t !! p).
Qed.

Lemma register_ok p c s t : manager_ok t → session_ok s →
  tm_creations t !! p = Some c → pc_promise c = pr_running → manager_ok (register p s t).
Proof.
  intros [H1 H2 H3 H4 H5 H6 H7 H8 H9 H10] Hs Hp Hr.
  assert (∀ i x, (tm_objects t ++ [s]) !! i = Some x → (∃ k, In (k, i) (tm_sessions t)) → tm_objects t !! i = Some x) as Hold.
  { intros i x Hx [k Hin]. destruct H1 as [_ H1]. destruct (H1 k i Hin) as (y & Hy & _).
    rewrite lookup_app_l in Hx by (by eapply lookup_lt_Some). done. }
  split; simpl; try done.
  - destruct H1 as [Hn Hi]. split; [done|]. intros k i Hin. destruct (Hi k i Hin) as (x & Hx & Hk).
    exists x. split; [|done]. simpl. by apply lookup_app_l_Some.
  - intros k i x Hin Hx. eapply H2; [done|]. eapply Hold; eauto.
  - apply Forall_app. split; [done|by constructor].
  - intros k q Hin. destruct (H5 k q Hin) as (d & Hd & Hk & Hf). eexists. split; [by apply alter_lookup_l|].
    by destruct (bool_decide (p = q)).
  - intros q c' (d & Hd & ->)%alter_lookup_r. case_bool_decide; [done|]. by apply H6.
  - intros q c' (d & Hd & ->)%alter_lookup_r. rewrite length_app. simpl. case_bool_decide as E; simpl.
    + split; [split; [done|lia]|done].
    + destruct (H7 q d Hd) as [Hq ?]. split; [|done]. destruct (pc_promise d); [done| |done]. split; [apply Hq|]. destruct Hq. lia.
  - intros q c' (d & Hd & ->)%alter_lookup_r. specialize (H8 q d Hd). by destruct (bool_decide (p = q)).
  - intros l le Hle. rewrite length_alter. by eapply H9.
  - etrans; [|exact H10]. unfold load. simpl. apply inj_le, Nat.add_le_mono_l, filter_length_mono.
    intros e _. apply (register_unresolved p s t e).
Qed.

(** ... and, when somebody waits for it, in the map. *)
Lemma registered_ok p c s t : manager_ok t → session_ok s → ses_id s = pc_sessionId c → ses_closed s = false →
  tm_creations t !! p = Some c → pc_promise c = pr_running → pc_cancelled c = false →
  manager_ok (register p s t <| tm_sessions := map_set (pc_sessionId c) (length (tm_objects t)) (tm_sessions t) |>).
Proof.
  intros Hok Hs Hid Hcl Hp Hr Hx. pose proof (register_ok p c s t Hok Hs Hp Hr) as [H1 H2 H3 H4 H5 H6 H7 H8 H9 H10].
  destruct (mo_running t Hok p c Hp Hr Hx) as [_ Hin]. destruct (mo_sessions t Hok) as [Hn Hi].
  assert ((tm_objects t ++ [s]) !! length (tm_objects t) = Some s) as Hnew by (by rewrite lookup_app_r, Nat.sub_diag).
  split; try done.
  - split; [by apply map_set_NoDup|]. intros k i [[= -> ->]|[Hin' _]]%map_set_In; [by exists s|by apply H1|done].
  - intros k i x [[= -> ->]|[Hin' _]]%map_set_In Hl; [|by eapply H2|done]. simpl in Hl. rewrite Hnew in Hl. by simplify_eq.
  - etrans; [|exact (mo_load t Hok)]. unfold load. simpl. apply inj_le.
    pose proof (map_set_length (pc_sessionId c) (length (tm_objects t)) (tm_sessions t)) as Hl.
    enough (length (List.filter (unresolved (register p s t)) (tm_pendingByKey t)) <
            length (List.filter (unresolved t) (tm_pendingByKey t)))%nat as Hlt.
    { unfold unresolved in *. simpl in *. lia. }
    eapply filter_length_lt; [intros e _; apply register_unresolved|exact Hin| |].
    + unfold unresolved. simpl. rewrite Hp. simpl. destruct (mo_promise t Hok p c Hp) as [Hses _]. rewrite Hr in Hses. by rewrite Hses.
    + unfold unresolved. simpl. by rewrite list_lookup_alter, decide_True, Hp by done.
Qed.

Lemma creation_done_ok p c cwd now t : manager_ok t → tm_creations t !! p = Some c → pc_promise c = pr_running →
  manager_ok (creation_done p cwd now t).
Proof.
  intros Hok Hp Hr. unfold creation_done. rewrite Hp.
  set (s := new_session (pc_sessionId c) (pc_rootId c) (length (tm_objects t)) cwd now).
  assert (session_ok s) as Hs by by split.
  change (update_creation p _ _) with (register p s t). pose proof (register_ok p c s t Hok Hs Hp Hr) as Hok'.
  destruct (tm_closed (register p s t)).
  { eapply shrinks_ok; [by apply disconnect_object_shrinks, Hok'|done]. }
  destruct (pc_cancelled c) eqn:Ex; simpl.
  { eapply shrinks_ok; [by apply close_object_shrinks, Hok'|done]. }
  case_bool_decide.
  { eapply shrinks_ok; [by apply close_object_shrinks, Hok'|done]. }
  by apply registered_ok.
Qed.

Lemma creation_failed_ok p c t : manager_ok t → tm_creations t !! p = Some c → pc_promise c = pr_running →
  manager_ok (creation_failed p t).
Proof.
  intros [H1 H2 H3 H4 H5 H6 H7 H8 H9 H10] Hp Hr. unfold creation_failed. split; simpl; try done.
  - intros k q Hin. destruct (H5 k q Hin) as (d & Hd & Hk & Hf). eexists. split; [by apply alter_lookup_l|].
    by destruct (bool_decide (p = q)).
  - intros q c' (d & Hd & ->)%alter_lookup_r. case_bool_decide; [done|]. by apply H6.
  - intros q c' (d & Hd & ->)%alter_lookup_r. destruct (H7 q d Hd) as [Hq Hf]. case_bool_decide as E; [subst q|done].
    rewrite Hp in Hd. injection Hd as <-. rewrite Hr in Hq, Hf. simpl. split; [done|]. intros ?. by destruct Hf.
  - intros q c' (d & Hd & ->)%alter_lookup_r. specialize (H8 q d Hd). by destruct (bool_decide (p = q)).
  - intros l le Hle. rewrite length_alter. by eapply H9.
  - etrans; [by eapply (load_alter t)|done].
Qed.

Lemma creation_finally_ok p c t : manager_ok t → tm_creations t !! p = Some c → pc_promise c ≠ pr_running →
  manager_ok (creation_finally p t).
Proof.
  intros [H1 H2 H3 H4 H5 H6 H7 H8 H9 H10] Hp Hr. unfold creation_finally. rewrite Hp.
  set (f := λ c, c <| pc_finally := true |>).
  set (m := if bool_decide (map_get (pc_key c) (tm_pendingByKey t) = Some p) then map_delete (pc_key c) (tm_pendingByKey t)
            else tm_pendingByKey t).
  assert (m `sublist_of` tm_pendingByKey t) as Hm by (unfold m; case_bool_decide; [apply map_delete_sublist|done]).
  assert (∀ k q, In (k, q) (tm_pendingByKey t) → In (k, q) m ↔ q ≠ p) as Hin.
  { intros k q Hin. destruct (H5 k q Hin) as (d & Hd & Hk & _). unfold m. case_bool_decide as E.
    - rewrite map_delete_In. split.
      + intros [_ Hne] ->. rewrite Hp in Hd. simplify_eq.
      + intros Hne. split; [done|]. intros ->. rewrite (map_get_unique _ q) in E by done. congruence.
    - split; [|done]. intros _ ->. destruct E. rewrite Hp in Hd. simplify_eq. by apply map_get_unique. }
  enough (manager_ok (update_creation p f t <| tm_pendingByKey := m |>)) as Hok.
  { unfold m in Hok. simpl. by destruct (bool_decide _). }
  split; simpl; try done.
  - eapply sublist_NoDup; [exact H4|]. by apply fmap_sublist.
  - intros k q Hq. pose proof (sublist_In _ _ _ Hm Hq) as Hq'. destruct (H5 k q Hq') as (d & Hd & Hk & Hf).
    apply Hin in Hq; [|done]. exists d. split; [|done]. by rewrite list_lookup_alter_ne.
  - intros q c' (d & Hd & ->)%alter_lookup_r. case_bool_decide as E; simpl; intros Hr' Hx.
    + subst q. rewrite Hp in Hd. simplify_eq.
    + destruct (H6 q d Hd Hr' Hx). split; [done|]. apply Hin; [done|congruence].
  - intros q c' (d & Hd & ->)%alter_lookup_r. destruct (H7 q d Hd) as [Hq Hf]. case_bool_decide as E; [subst q|done].
    rewrite Hp in Hd. by simplify_eq.
  - intros q c' (d & Hd & ->)%alter_lookup_r. specialize (H8 q d Hd). by destruct (bool_decide (p = q)).
  - intros l le Hle. rewrite length_alter. by eapply H9.
  - etrans; [by eapply (load_alter t)|done].
Qed.

Lemma count_alter {A} (P : A → bool) (g : A → A) i l x : l !! i = Some x →
  (count_where P (alter g i l) + (if P x then 1 else 0) = count_where P l + (if P (g x) then 1 else 0))%nat.
Proof.
  unfold count_where, select. revert i. induction l as [|y l IH]; intros [|i] Hx; simplify_eq/=; [done..| |].
  - destruct (P x), (P (g x)); simpl; lia.
  - specialize (IH i Hx). change (list_alter g i l) with (alter g i l). destruct (P y); simpl; lia.
Qed.

(** The first half of [release]. *)
Definition released (l p : nat) (t : manager) : manager :=
  update_creation p (λ c, c <| pc_waiters := Nat.pred (pc_waiters c) |>)
    (t <| tm_leases := alter (λ le, le <| le_released := true |>) l (tm_leases t) |>).

Lemma released_ok l p t : manager_ok t → tm_leases t !! l = Some (Lease p false) → manager_ok (released l p t).
Proof.
  intros [H1 H2 H3 H4 H5 H6 H7 H8 H9 H10] Hl. unfold released. split; simpl; try done.
  - intros k q Hin. destruct (H5 k q Hin) as (d & Hd & Hk & Hf). eexists. split; [by apply alter_lookup_l|].
    by destruct (bool_decide (p = q)).
  - intros q c' (d & Hd & ->)%alter_lookup_r. destruct (bool_decide (p = q)); by apply (H6 q d).
  - intros q c' (d & Hd & ->)%alter_lookup_r. destruct (bool_decide (p = q)); by apply (H7 q d).
  - intros q c' (d & Hd & ->)%alter_lookup_r. specialize (H8 q d Hd).
    pose proof (count_alter (waits_for q) (λ le, le <| le_released := true |>) l (tm_leases t) _ Hl) as Hc.
    unfold waits_for at 2 4 in Hc. simpl in Hc. rewrite andb_true_r, andb_false_r in Hc.
    case_bool_decide; simpl; lia.
  - intros l' le (d & Hd & ->)%alter_lookup_r. rewrite length_alter. destruct (bool_decide (l = l')); by eapply (H9 l' d).
  - etrans; [by eapply (load_alter t)|done].
Qed.

(** What [release] does after it. *)
Definition maybe_close (p : nat) (keepAlive : bool) (t : manager) : manager :=
  match tm_creations t !! p ≫= pc_session with
  | Some i => if negb keepAlive && bool_decide (from_option pc_waiters 0%nat (tm_creations t !! p) = 0%nat) &&
                 negb (object_active t i) then close_object i t else t
  | None => t
  end.

Lemma release_eq l p keepAlive t : tm_leases t !! l = Some (Lease p false) →
  release l keepAlive t = maybe_close p keepAlive (released l p t).
Proof.
  intros Hl. unfold release, maybe_close. rewrite Hl. simpl. rewrite list_lookup_alter_eq.
  by destruct (tm_creations t !! p) as [c|].
Qed.

Lemma maybe_close_shrinks p k t : sessions_wf t → shrinks t (maybe_close p k t).
Proof.
  intros Hwf. unfold maybe_close. destruct (_ ≫= _) as [i|]; [|done]. case_match; [|done]. by apply close_object_shrinks.
Qed.

Lemma release_ok l keepAlive t : manager_ok t → manager_ok (release l keepAlive t).
Proof.
  intros Hok. destruct (tm_leases t !! l) as [[p []]|] eqn:El.
  - unfold release. by rewrite El.
  - rewrite (release_eq l p) by done. pose proof (released_ok l p t Hok El) as H.
    eapply shrinks_ok; [by apply maybe_close_shrinks, H|done].
  - unfold release. by rewrite El.
Qed.

(** A session may change as long as it stays the session it is. *)
Lemma replace_ok i s s' l t : manager_ok t → tm_objects t !! i = Some s →
  ses_id s' = ses_id s → ses_closed s' = ses_closed s → session_ok s' →
  manager_ok (t <| tm_objects := <[i := s']> (tm_objects t) |> <| tm_log := l |>).
Proof.
  intros [H1 H2 H3 H4 H5 H6 H7 H8 H9 H10] Hs Hid Hc Hok.
  assert (∀ j x, <[i:=s']> (tm_objects t) !! j = Some x → ∃ y, tm_objects t !! j = Some y ∧ ses_closed x = ses_closed y) as Hl.
  { intros j x. destruct (decide (i = j)) as [<-|Hij]; [|rewrite list_lookup_insert_ne by done; eauto].
    rewrite list_lookup_insert_eq by (by eapply lookup_lt_Some). intros [= <-]. eauto. }
  split; simpl; try done.
  - destruct H1 as [Hn Hi]. split; [done|]. intros k j Hin. destruct (Hi k j Hin) as (x & Hx & Hk). simpl.
    destruct (decide (i = j)) as [<-|Hij]; [|exists x; by rewrite list_lookup_insert_ne].
    exists s'. rewrite list_lookup_insert_eq by (by eapply lookup_lt_Some). split; [done|congruence].
  - intros k j x Hin (y & Hy & ->)%Hl. by eapply H2.
  - apply Forall_insert; done.
  - intros p c Hc'. rewrite length_insert. by apply (H7 p).
Qed.
End Invariant.

Lemma covers_some ts : ∃ p, covers ts p.
Proof.
  induction ts as [|[d|] ts [p IH]].
  - exists []. constructor.
  - exists (d :: p). by constructor.
  - exists p. by apply (covers_gap [] ts p).
Qed.

Section Attach.
Context (accepts : list wire → nat → message → bool).

Lemma attach_keeps_ok socket now w : session_ok (sw_session w) → session_ok (sw_session (attach accepts socket now w).2).
Proof.
  intros Hs. destruct (covers_some (delivered (sw_log w) ++ owed (sw_session w))) as [p Hp].
  destruct (attach_good accepts socket now w p) as [_ H]; [by split|done].
Qed.

Lemma refuse_attach_outside now w :
  ∃ w', refuse_attach now w = (inr false, w') ∧ ses_id (sw_session w') = ses_id (sw_session w) ∧
    ses_closed (sw_session w') = ses_closed (sw_session w) ∧ ses_activeSocket (sw_session w') = None ∧ held (sw_session w').
Proof.
  unfold refuse_attach. eexists. split; [reflexivity|]. simpl.
  destruct (schedule_fields (leave now (sw_session w))) as (E1 & _ & _ & E4 & E5 & _).
  split; [exact E1|]. split; [exact E5|]. split; [exact E4|].
  unfold held, hasActiveSocket. rewrite E4, E5. unfold scheduleIdleClose. simpl.
  destruct (ses_idleTimer (sw_session w)) eqn:Ei; simpl; [by rewrite Ei; auto|].
  destruct (ses_closed (sw_session w)); simpl; auto.
Qed.

(** The outcome of [attach]: the socket is the active one, or nothing happened
    to a closed session, or the session has no socket and its timer runs. *)
Definition attach_outcome (socket : nat) (s : TerminalSession) (b : bool) (s' : TerminalSession) : Prop :=
  ses_id s' = ses_id s ∧ ses_closed s' = ses_closed s ∧
  if b then ses_closed s = false ∧ ses_activeSocket s' = Some socket
  else s' = s ∧ ses_closed s = true ∨ ses_activeSocket s' = None ∧ held s'.

Lemma catch_up_outside socket now s w : ses_activeSocket (sw_session w) = Some socket → ses_closed (sw_session w) = false →
  ∃ b w', catch_up accepts socket now s w = (inr b, w') ∧ attach_outcome socket (sw_session w) b (sw_session w').
Proof.
  intros Ha Hc. assert (∀ w1, ses_id (sw_session w1) = ses_id (sw_session w) → ses_closed (sw_session w1) = ses_closed (sw_session w) →
    ∃ w', refuse_attach now w1 = (inr false, w') ∧ attach_outcome socket (sw_session w) false (sw_session w')) as Href.
  { intros w1 E1 E2. destruct (refuse_attach_outside now w1) as (w' & E & ? & ? & ? & ?). exists w'. split; [done|].
    split; [congruence|]. split; [congruence|]. by right. }
  unfold catch_up. set (k := λ told : bool, if negb told then _ else _).
  assert (∀ log, ∃ b w', k true (SessionWorld (sw_session w) log) = (inr b, w') ∧ attach_outcome socket (sw_session w) b (sw_session w')) as Hk.
  { intros log. unfold k. cbn [negb]. destruct (replay_spec accepts socket (ses_pendingOutput s) (SessionWorld (sw_session w) log)) as [sent H].
    destruct (replay _ _ _ _) as [[e|[rest|]] w1] eqn:E; [by destruct H as (_ & _ & [])|..]; destruct H as (Hw & _ & _);
      rewrite (bind_inr _ _ _ _ _ E); simpl in Hw.
    - unfold change, modify. unfold mbind at 1, prog_bind at 1. edestruct Href as (w' & E' & Ho); [..|exists false, w'; split; [exact E'|exact Ho]];
        simpl; by rewrite Hw.
    - eexists true, _. split; [reflexivity|]. simpl. by rewrite Hw. }
  destruct (ses_pendingOutputTruncated s).
  - rewrite (bind_inr _ _ _ _ _ (sendSocket_eq _ _ _ _)). destruct (accepts _ _ _); [apply Hk|].
    destruct (Href (SessionWorld (sw_session w) (sw_log w ++ []))) as (w' & E' & Ho); [done..|]. exists false, w'. by split.
  - destruct w as [sw lg]. apply Hk.
Qed.

Lemma attach_outside socket now w :
  ∃ b w', attach accepts socket now w = (inr b, w') ∧ attach_outcome socket (sw_session w) b (sw_session w').
Proof.
  destruct w as [s log]. unfold attach. rewrite bind_gets. cbn [sw_session]. destruct (ses_closed s) eqn:Ec.
  { eexists _, _. split; [reflexivity|]. split; [done|]. split; [done|]. by left. }
  destruct (take_over_eq accepts socket s (SessionWorld s log)) as (l & _ & E). rewrite (bind_inr _ _ _ _ _ E). simpl.
  unfold change, modify. unfold mbind at 1, prog_bind at 1. simpl.
  rewrite (bind_inr _ _ _ _ _ (sendSocket_eq _ _ _ _)). cbn [sw_session sw_log]. destruct (accepts _ _ _); cbn [negb].
  - match goal with |- ∃ b w', catch_up _ _ _ _ ?w0 = _ ∧ _ => destruct (catch_up_outside socket now s w0 eq_refl Ec) as (b & w' & Eq & Ho) end.
    exists b, w'. split; [exact Eq|]. destruct Ho as (H1 & H2 & H3). split; [exact H1|]. split; [exact H2|].
    destruct b; [exact H3|]. right. destruct H3 as [[_ H3]|H3]; [|exact H3]. simpl in H3. congruence.
  - match goal with |- ∃ b w', refuse_attach _ ?w0 = _ ∧ _ => destruct (refuse_attach_outside now w0) as (w' & Eq & H1 & H2 & H3 & H4) end.
    exists false, w'. split; [exact Eq|]. split; [exact H1|]. split; [exact H2|]. right. by split.
Qed.
End Attach.

(** ** The server as a transition system *)
Section Server.
Context (accepts : list wire → nat → message → bool).
Context (terminalSessionName : string → string → string).
Context (maxSessions : Z).

Inductive server_step (v : server) : server → Prop :=
| st_connect rootId rq persistent uuid :
    server_step v (connect accepts terminalSessionName maxSessions rootId rq persistent uuid v)
| st_continue n error now : server_step v (continue_connection accepts n error now v)
| st_detach n now : server_step v (detachConnection n now v)
| st_message n m works : server_step v (on_message accepts n m works v)
| st_data i data now : server_step v (on_manager (λ t, (on_session i tt (onData accepts data now) t).2) v)
| st_exit i exitCode signal recoverable :
    server_step v (on_manager (ending i (exited accepts exitCode signal recoverable)) v)
| st_idle i s : tm_objects (sv_manager v) !! i = Some s → ses_idleTimer s = true →
    server_step v (on_manager (close_object i) v)
| st_created p c cwd now : tm_creations (sv_manager v) !! p = Some c → pc_promise c = pr_running →
    server_step v (on_manager (creation_done p cwd now) v)
| st_failed p c : tm_creations (sv_manager v) !! p = Some c → pc_promise c = pr_running →
    server_step v (on_manager (creation_failed p) v)
| st_finally p c : tm_creations (sv_manager v) !! p = Some c → pc_promise c ≠ pr_running →
    server_step v (on_manager (creation_finally p) v)
| st_destroy rootId sessionId : server_step v (on_manager (λ t, (destroy_begin rootId sessionId t).2) v)
| st_destroyed rootId sessionId : server_step v (on_manager (destroy_end terminalSessionName rootId sessionId) v)
| st_shutdown : server_step v (on_manager disconnectAll v).

Definition start : server := Server (Manager [] [] [] [] [] [] false) [].
Inductive reachable : server → Prop :=
| reach_start : reachable start
| reach_step v v' : reachable v → server_step v v' → reachable v'.

(** Somebody waits for the session. *)
Definition awaited (t : manager) (i : nat) : Prop := ∃ l le c,
  tm_leases t !! l = Some le ∧ le_released le = false ∧
  tm_creations t !! le_pending le = Some c ∧ pc_session c = Some i.
Definition remembered_at (t : manager) (i : nat) : Prop := ∀ s, tm_objects t !! i = Some s → held s ∨ awaited t i.
Definition remembered (t : manager) : Prop := ∀ i, remembered_at t i.
Definition waiting_for (l : nat) (c : connection) : Prop := cn_phase c = ph_waiting (acq_lease l).

Record server_ok (v : server) : Prop := ServerOk {
  so_manager : manager_ok maxSessions (sv_manager v);
  so_remembered : remembered (sv_manager v);
  so_leases : ∀ l le, tm_leases (sv_manager v) !! l = Some le → le_released le = false →
    ∃ n c, sv_connections v !! n = Some c ∧ waiting_for l c;
  so_active : ∀ k i s n, In (k, i) (tm_sessions (sv_manager v)) → tm_objects (sv_manager v) !! i = Some s →
    ses_activeSocket s = Some n → sv_connections v !! n = Some (Connection (ph_attached i) false)
}.

Lemma shrinks_awaited t t' i : shrinks t t' → awaited t i → awaited t' i.
Proof.
  intros [o c l s p q d e] (n & le & x & Hle & Hr & Hx & Hs).
  destruct (Forall2_lookup_l _ _ _ _ _ c Hx) as (x' & Hx' & (_ & _ & Es & _)%cancels_fields).
  exists n, le, x'. rewrite l, Es. done.
Qed.

Lemma shrinks_remembered t t' i : shrinks t t' → remembered_at t i → remembered_at t' i.
Proof.
  intros Hsh Hrem s' Hs'. destruct (Forall2_lookup_r _ _ _ _ _ (sh_objects _ _ Hsh) Hs') as (s & Hs & Hc).
  destruct (Hrem s Hs) as [H|H]; [left; by apply Hc|right; by eapply shrinks_awaited].
Qed.

(** A socket active afterwards was active before. *)
Lemma shrinks_active t t' k i s' n : shrinks t t' → In (k, i) (tm_sessions t') → tm_objects t' !! i = Some s' →
  ses_activeSocket s' = Some n →
  ∃ s, In (k, i) (tm_sessions t) ∧ tm_objects t !! i = Some s ∧ ses_activeSocket s = Some n.
Proof.
  intros Hsh Hin Hs' Ha. destruct (Forall2_lookup_r _ _ _ _ _ (sh_objects _ _ Hsh) Hs') as (s & Hs & Hc).
  exists s. split; [by eapply sublist_In, Hin; apply Hsh|]. split; [done|]. destruct (ca_active _ _ Hc); congruence.
Qed.

Lemma shrinks_server v t' : server_ok v → shrinks (sv_manager v) t' → server_ok (Server t' (sv_connections v)).
Proof.
  intros [H1 H2 H3 H4] Hsh. split; simpl.
  - by eapply shrinks_ok.
  - intros i. eapply shrinks_remembered; [exact Hsh|apply H2].
  - rewrite (sh_leases _ _ Hsh). done.
  - intros k i s' n Hin Hs' Ha. destruct (shrinks_active _ _ _ _ _ _ Hsh Hin Hs' Ha) as (s & ? & ? & ?). by eapply H4.
Qed.

Lemma on_manager_shrinks f v : server_ok v → (∀ t, manager_ok maxSessions t → shrinks t (f t)) → server_ok (on_manager f v).
Proof. intros Hv Hf. apply (shrinks_server v); [done|]. apply Hf, Hv. Qed.

(** The manager may also settle creations. *)
Lemma settle_server f v : server_ok v →
  manager_ok maxSessions (f (sv_manager v)) → remembered (f (sv_manager v)) →
  tm_leases (f (sv_manager v)) = tm_leases (sv_manager v) →
  (∀ k i s n, In (k, i) (tm_sessions (f (sv_manager v))) → tm_objects (f (sv_manager v)) !! i = Some s →
     ses_activeSocket s = Some n →
     ∃ s0, In (k, i) (tm_sessions (sv_manager v)) ∧ tm_objects (sv_manager v) !! i = Some s0 ∧ ses_activeSocket s0 = Some n) →
  server_ok (on_manager f v).
Proof.
  intros [H1 H2 H3 H4] Hm Hr Hl Ha. split; simpl; [done|done|by rewrite Hl|].
  intros k i s n Hin Hs Hn. destruct (Ha k i s n Hin Hs Hn) as (s0 & ? & ? & ?). by eapply H4.
Qed.

Lemma waiters_awaited p c i t : manager_ok maxSessions t → tm_creations t !! p = Some c → pc_session c = Some i →
  pc_waiters c ≠ 0%nat → awaited t i.
Proof.
  intros Hok Hc Hs Hw. rewrite (mo_waiters _ t Hok p c Hc) in Hw.
  assert (0 < count_where (waits_for p) (tm_leases t))%nat as Hpos by lia.
  apply count_where_pos in Hpos as (le & Hin & [Hp Hr]%andb_prop). apply bool_decide_eq_true in Hp. apply negb_true_iff in Hr.
  apply list_elem_of_In, list_elem_of_lookup in Hin as [l Hl]. exists l, le, c. by rewrite Hp.
Qed.

(** *** A finished creation *)
Lemma register_remembered p c s t i : tm_creations t !! p = Some c → pc_session c = None →
  i ≠ length (tm_objects t) → remembered_at t i → remembered_at (register p s t) i.
Proof.
  intros Hc Hn Hi Hrem x Hx. simpl in Hx.
  assert (tm_objects t !! i = Some x) as Hx'.
  { apply lookup_app_Some in Hx as [?|[Hge Hx]]; [done|]. apply list_lookup_singleton_Some in Hx as [? _]. lia. }
  destruct (Hrem x Hx') as [?|(l & le & d & Hl & Hr & Hd & Hs)]; [by left|]. right.
  exists l, le, d. simpl. split; [done|]. split; [done|]. split; [|done]. rewrite list_lookup_alter_ne; [done|].
  intros E. rewrite <-E, Hc in Hd. congruence.
Qed.

Lemma creation_done_server p c cwd now v : server_ok v → tm_creations (sv_manager v) !! p = Some c → pc_promise c = pr_running →
  server_ok (on_manager (creation_done p cwd now) v).
Proof.
  intros Hv Hp Hr. pose proof (so_manager v Hv) as Hok. pose proof (creation_done_ok maxSessions p c cwd now _ Hok Hp Hr) as Hok'.
  set (t := sv_manager v) in *. set (i := length (tm_objects t)).
  set (s := new_session (pc_sessionId c) (pc_rootId c) i cwd now).
  assert (session_ok s) as Hs by by split.
  assert (pc_session c = None) as Hnone by (destruct (mo_promise _ t Hok p c Hp) as [H _]; by rewrite Hr in H).
  pose proof (register_ok maxSessions p c s t Hok Hs Hp Hr) as Hreg.
  assert (∀ j, j ≠ i → remembered_at (register p s t) j) as Hrem
    by (intros j Hj; eapply register_remembered; [done..|apply (so_remembered v Hv)]).
  assert (tm_objects (register p s t) !! i = Some s) as Hi by (simpl; by rewrite lookup_app_r, Nat.sub_diag).
  assert (tm_creations (register p s t) !! p = Some (c <| pc_session := Some i |> <| pc_promise := pr_resolved i |>)) as Hpi
    by (simpl; by rewrite list_lookup_alter_eq, Hp).
  assert (∀ k j x n, In (k, j) (tm_sessions t) → tm_objects (register p s t) !! j = Some x → ses_activeSocket x = Some n →
    ∃ y, In (k, j) (tm_sessions t) ∧ tm_objects t !! j = Some y ∧ ses_activeSocket y = Some n) as Hactive.
  { intros k j x n Hin Hx Ha. exists x. split; [done|]. split; [|done]. simpl in Hx.
    apply lookup_app_Some in Hx as [?|[_ Hx]]; [done|]. apply list_lookup_singleton_Some in Hx as [_ <-]. done. }
  assert (∀ m, ends m → server_ok (on_manager (λ t, ending i m (register p s t)) v)) as Hend.
  { intros m Hm. pose proof (ending_shrinks i m _ Hm (mo_sessions _ _ Hreg)) as Hsh. apply settle_server; fold t; [done|..].
    - by eapply shrinks_ok.
    - intros j. destruct (decide (j = i)) as [->|Hj]; [|by eapply shrinks_remembered; [exact Hsh|apply Hrem]].
      intros x Hx. left. left. by eapply ending_closed.
    - apply (sh_leases _ _ Hsh).
    - intros k j x n Hin Hx Ha. destruct (shrinks_active _ _ _ _ _ _ Hsh Hin Hx Ha) as (y & Hy & Hyo & Hya). by eapply Hactive. }
  assert (on_manager (creation_done p cwd now) v = on_manager (λ t0, creation_done p cwd now t) v) as -> by done.
  revert Hok'. unfold creation_done. rewrite Hp. fold i s. change (update_creation p _ _) with (register p s t).
  destruct (tm_closed _); [intros _; apply (Hend (end_session w_disconnected)), end_session_ends|].
  destruct (pc_cancelled c); simpl orb; [intros _; apply (Hend (end_session w_killed)), end_session_ends|].
  case_bool_decide as Hw; [intros _; apply (Hend (end_session w_killed)), end_session_ends|]. intros Hok'.
  apply settle_server; fold t; [done|exact Hok'| |done|].
  - intros j. destruct (decide (j = i)) as [->|Hj]; [|apply (Hrem j Hj)]. intros x _. right.
    by eapply (waiters_awaited p _ i _ Hok' Hpi).
  - intros k j x n Hin Hx Ha. apply map_set_In in Hin as [[= -> ->]|[Hin _]]; [|by eapply Hactive|apply (mo_sessions _ t Hok)].
    fold i in Hx. simpl in Hx, Hi. rewrite Hi in Hx. by simplify_eq.
Qed.

(** *** Asking for a session *)
Record evolves (t t' : manager) : Prop := Evolves {
  ev_remembered : ∀ i, remembered_at t i → remembered_at t' i;
  ev_active : ∀ k i s' n, In (k, i) (tm_sessions t') → tm_objects t' !! i = Some s' → ses_activeSocket s' = Some n →
    ∃ s, In (k, i) (tm_sessions t) ∧ tm_objects t !! i = Some s ∧ ses_activeSocket s = Some n
}.

#[export] Instance evolves_preorder : PreOrder evolves.
Proof.
  split; [split; eauto|]. intros t1 t2 t3 [r1 a1] [r2 a2]. split; [auto|].
  intros k i s n Hin Hs Ha. destruct (a2 k i s n Hin Hs Ha) as (s2 & H1 & H2 & H3). by apply (a1 k i s2 n).
Qed.

Lemma shrinks_evolves t t' : shrinks t t' → evolves t t'.
Proof.
  intros H. split; [intros i; by apply shrinks_remembered|]. intros k i s n. by apply shrinks_active.
Qed.

Lemma same_objects_evolves t t' : tm_objects t' = tm_objects t → tm_sessions t' = tm_sessions t →
  (∀ i, awaited t i → awaited t' i) → evolves t t'.
Proof.
  intros Ho Hs Ha. split.
  - intros i Hr s. rewrite Ho. intros Hx. destruct (Hr s Hx); [by left|right; auto].
  - intros k i s n. rewrite Ho, Hs. eauto.
Qed.

Lemma join_evolves p t : evolves t (join p t).2.
Proof.
  apply same_objects_evolves; [done..|]. intros i (l & le & c & Hl & Hr & Hc & Hs).
  exists l, le. eexists. split; [by apply lookup_app_l_Some|]. split; [done|].
  split; [by apply alter_lookup_l|]. by destruct (bool_decide _).
Qed.

Lemma start_creation_evolves key root id persistent t :
  evolves t (start_creation terminalSessionName key root id persistent t).
Proof.
  apply same_objects_evolves; [done..|]. intros i (l & le & c & Hl & Hr & Hc & Hs).
  exists l, le, c. split; [done|]. split; [done|]. split; [|done]. by apply lookup_app_l_Some.
Qed.

(** What [acquire] leaves: the invariants, and at most one new lease, the one
    it answers. *)
Definition acquired_ok (t : manager) (r : exn + acquired) (t' : manager) : Prop :=
  manager_ok maxSessions t' ∧ evolves t t' ∧
  match r with
  | inr (acq_lease l) => ∃ p, l = length (tm_leases t) ∧ tm_leases t' = tm_leases t ++ [Lease p false]
  | _ => tm_leases t' = tm_leases t
  end.

Lemma join_acquired p t t0 : manager_ok maxSessions t → (p < length (tm_creations t))%nat → evolves t0 t →
  tm_leases t = tm_leases t0 → acquired_ok t0 (inr (join p t).1) (join p t).2.
Proof.
  intros Hok Hp Hev Hl. split; [by apply join_ok|]. split; [etrans; [exact Hev|apply join_evolves]|].
  exists p. simpl. by rewrite Hl.
Qed.

Lemma ensureCapacity_room t : sessions_wf t → (ensureCapacity maxSessions t).1 = inr tt → total (ensureCapacity maxSessions t).2 < maxSessions.
Proof.
  intros Hwf. unfold ensureCapacity. case_bool_decide; [done|]. set (t1 := match first_by _ _ _ with None => t | Some o => _ end).
  case_bool_decide; [done|]. intros _. simpl. lia.
Qed.

Lemma ending_flag i m t : ends m → tm_closed (ending i m t) = tm_closed t.
Proof.
  intros Hm. pose proof (ending_eq i m t Hm) as E. destruct (tm_objects t !! i) as [s|]; [|by rewrite E].
  destruct (ses_closed s); [by destruct E as [->|[l ->]]|]. destruct E as [l ->]. by destruct (onExit_same i
    (t <| tm_objects := <[i:=finished s]> (tm_objects t) |> <| tm_log := l |>)) as (_ & _ & _ & _ & -> & _).
Qed.

Lemma ensureCapacity_flag t : tm_closed (ensureCapacity maxSessions t).2 = tm_closed t.
Proof.
  unfold ensureCapacity. case_bool_decide; [done|]. destruct (first_by _ _ _) as [i|]; case_bool_decide; try done;
    simpl; apply ending_flag, end_session_ends.
Qed.

Lemma acquire_ok root requested persistent uuid t : manager_ok maxSessions t →
  let '(r, t') := acquire terminalSessionName maxSessions root requested persistent uuid t in acquired_ok t r t'.
Proof.
  intros Hok. unfold acquire. destruct (tm_closed t) eqn:Hcl; [done|].
  destruct (map_get _ (tm_sessions t)) as [i|]; [by destruct (negb _)|].
  set (sid := normalizeSessionId requested ⁇ uuid). set (key := terminalSessionKey root sid).
  destruct (map_get key (tm_pendingByKey t)) as [p|] eqn:Ep.
  - destruct (join p t) as [a t'] eqn:Ej. replace a with (join p t).1 by by rewrite Ej. replace t' with (join p t).2 by by rewrite Ej.
    apply join_acquired; [done| |done|done]. apply map_get_In in Ep.
    destruct (mo_keys _ t Hok key p Ep) as (c & Hc & _). by eapply lookup_lt_Some.
  - pose proof (ensureCapacity_shrinks maxSessions t (mo_sessions _ t Hok)) as Hsh.
    pose proof (ensureCapacity_room t (mo_sessions _ t Hok)) as Hroom. pose proof (ensureCapacity_flag t) as Hflag.
    destruct (ensureCapacity maxSessions t) as [[e|[]] t1]; simpl in Hsh, Hroom, Hflag.
    + split; [by eapply shrinks_ok|]. split; [by apply shrinks_evolves|]. apply (sh_leases _ _ Hsh).
    + assert (manager_ok maxSessions t1) as Hok1 by by eapply shrinks_ok.
      assert (map_get key (tm_pendingByKey t1) = None) as Ek.
      { rewrite map_get_None in Ep |- *. intros p Hin. apply (Ep p). by eapply sublist_In; [apply Hsh|]. }
      set (t2 := start_creation terminalSessionName key root sid persistent t1). set (p := length (tm_creations t1)).
      destruct (join p t2) as [a t'] eqn:Ej. replace a with (join p t2).1 by by rewrite Ej. replace t' with (join p t2).2 by by rewrite Ej.
      apply join_acquired.
      * apply start_creation_ok; [done|congruence|done|by apply Hroom].
      * unfold t2, p. simpl. rewrite length_app. simpl. lia.
      * etrans; [by apply shrinks_evolves|apply start_creation_evolves].
      * apply (sh_leases _ _ Hsh).
Qed.

Lemma request_ok root rq persistent uuid t : manager_ok maxSessions t →
  let '(r, t') := match rq with
                  | rq_acquire id => acquire terminalSessionName maxSessions root id persistent uuid t
                  | rq_reset previous next => reset terminalSessionName maxSessions root previous next persistent uuid t
                  end in acquired_ok t r t'.
Proof.
  intros Hok. destruct rq as [id|previous next]; [by apply acquire_ok|]. unfold reset.
  set (t1 := match given_id previous with Some _ => _ | None => _ end).
  assert (shrinks t t1) as Hsh.
  { unfold t1. destruct (given_id previous) as [id|]; [|apply cancelPending_shrinks].
    etrans; [by apply (closeSession_shrinks id (Some root)), Hok|apply cancelPending_shrinks]. }
  pose proof (acquire_ok root next persistent uuid t1) as H.
  destruct (acquire _ _ _ _ _ _ t1) as [r t']. destruct H as (H1 & H2 & H3); [by eapply shrinks_ok|].
  split; [done|]. split; [etrans; [by apply shrinks_evolves|done]|]. by rewrite (sh_leases _ _ Hsh) in H3.
Qed.

Lemma sendTo_shrinks n m t : shrinks t (sendTo accepts n m t).
Proof. unfold sendTo. destruct (accepts _ _ _); [apply update_log_shrinks|done]. Qed.
Lemma closeWithError_shrinks n e t : shrinks t (closeWithError accepts n e t).
Proof. unfold closeWithError. etrans; [apply sendTo_shrinks|apply update_log_shrinks]. Qed.

Lemma connect_server root rq persistent uuid v : server_ok v →
  server_ok (connect accepts terminalSessionName maxSessions root rq persistent uuid v).
Proof.
  intros [H1 H2 H3 H4]. unfold connect. pose proof (request_ok root rq persistent uuid (sv_manager v) H1) as H.
  destruct (match rq with rq_acquire _ => _ | rq_reset _ _ => _ end) as [[e|a] t'].
  - destruct H as (Hok & [Hr Ha] & Hl).
    assert (server_ok (Server t' (sv_connections v ++ [Connection ph_ended false]))) as Hv.
    { split; simpl; [done|intros i; apply Hr, H2|..].
      - rewrite Hl. intros l le Hle Hre. destruct (H3 l le Hle Hre) as (n & c & Hc & ?). exists n, c.
        split; [by apply lookup_app_l_Some|done].
      - intros k i s n Hin Hs Hn. destruct (Ha k i s n Hin Hs Hn) as (s0 & ? & ? & ?). apply lookup_app_l_Some. by eapply H4. }
    apply (shrinks_server _ _ Hv). apply closeWithError_shrinks.
  - destruct H as (Hok & [Hr Ha] & Hl). split; simpl; [done|intros i; apply Hr, H2|..].
    + intros l le Hle Hre. assert (tm_leases (sv_manager v) !! l = Some le ∨ a = acq_lease l) as [Hold|Hnew].
      { destruct a as [i|l0]; [left; by rewrite Hl in Hle|]. destruct Hl as (p & El & Hl). rewrite Hl in Hle.
        apply lookup_app_Some in Hle as [?|[Hge Hle]]; [by left|]. apply list_lookup_singleton_Some in Hle as [? _].
        right. f_equal. lia. }
      * destruct (H3 l le Hold Hre) as (n & c & Hc & ?). exists n, c. split; [by apply lookup_app_l_Some|done].
      * exists (length (sv_connections v)). eexists. split; [by rewrite lookup_app_r, Nat.sub_diag|]. by rewrite Hnew.
    + intros k i s n Hin Hs Hn. destruct (Ha k i s n Hin Hs Hn) as (s0 & ? & ? & ?). apply lookup_app_l_Some. by eapply H4.
Qed.

(** *** Giving a lease back *)
Lemma released_remembered l p t : tm_leases t !! l = Some (Lease p false) → remembered t →
  ∀ i s, tm_objects t !! i = Some s →
    held s ∨ awaited (released l p t) i ∨ tm_creations t !! p ≫= pc_session = Some i.
Proof.
  intros Hl Hrem i s Hs. destruct (Hrem i s Hs) as [?|(l' & le & c & Hl' & Hr & Hc & Hi)]; [by left|]. right.
  destruct (decide (l = l')) as [<-|Hne].
  - right. rewrite Hl in Hl'. injection Hl' as <-. simpl in Hc. by rewrite Hc.
  - left. exists l', le. eexists. simpl. split; [by rewrite list_lookup_alter_ne|]. split; [done|].
    split; [by apply alter_lookup_l|]. by destruct (bool_decide _).
Qed.

Lemma release_remembered l p keepAlive t : manager_ok maxSessions t → tm_leases t !! l = Some (Lease p false) →
  remembered t →
  (keepAlive = true → ∀ i s, tm_creations t !! p ≫= pc_session = Some i → tm_objects t !! i = Some s → held s) →
  remembered (release l keepAlive t).
Proof.
  intros Hok Hl Hrem Hkeep i s' Hs'. rewrite (release_eq l p keepAlive t Hl) in Hs' |- *.
  pose proof (released_ok maxSessions l p t Hok Hl) as Hok1. set (t1 := released l p t) in *.
  pose proof (maybe_close_shrinks p keepAlive t1 (mo_sessions _ _ Hok1)) as Hsh.
  destruct (Forall2_lookup_r _ _ _ _ _ (sh_objects _ _ Hsh) Hs') as (s & Hs & Hc).
  destruct (released_remembered l p t Hl Hrem i s Hs) as [H|[H|H]].
  - left. by apply Hc.
  - right. by eapply shrinks_awaited.
  - destruct keepAlive; [left; apply Hc; by eapply Hkeep|].
    assert (∃ c, tm_creations t1 !! p = Some c ∧ pc_session c = Some i) as (c & Hpc & Hpi).
    { apply bind_Some in H as (c & Hpc & Hpi). simpl. rewrite list_lookup_alter_eq, Hpc. eexists. split; [reflexivity|done]. }
    assert (maybe_close p false t1 = if bool_decide (pc_waiters c = 0%nat) && negb (object_active t1 i) then close_object i t1 else t1) as E.
    { unfold maybe_close. rewrite Hpc. cbn. by rewrite Hpi. }
    rewrite E in Hs' |- *. case_bool_decide as Hw; cbn [andb] in *; [|right; by eapply waiters_awaited].
    destruct (object_active t1 i) eqn:Ea; cbn [negb] in *.
    + change (tm_objects t !! i = Some s') in Hs'. left. right. left.
      change (from_option hasActiveSocket false (tm_objects t !! i) = true) in Ea. by rewrite Hs' in Ea.
    + left. left. by eapply ending_closed; [apply end_session_ends|].
Qed.

Lemma release_leases l keepAlive t l' le : sessions_wf t → tm_leases (release l keepAlive t) !! l' = Some le → le_released le = false →
  tm_leases t !! l' = Some le ∧ l' ≠ l.
Proof.
  intros Hwf. destruct (tm_leases t !! l) as [[p []]|] eqn:El.
  - unfold release. rewrite El. simpl. intros Hl' Hr. split; [done|]. intros ->. rewrite El in Hl'. by injection Hl' as <-.
  - rewrite (release_eq l p) by done. unfold maybe_close.
    assert (tm_leases (released l p t) !! l' = Some le → le_released le = false → tm_leases t !! l' = Some le ∧ l' ≠ l) as H.
    { simpl. intros (d & Hd & ->)%alter_lookup_r. case_bool_decide; [done|]. naive_solver. }
    destruct (_ ≫= _) as [i|]; [|done]. case_match; [|done].
    by rewrite (sh_leases _ _ (close_object_shrinks i (released l p t) Hwf)).
  - unfold release. rewrite El. intros Hl' Hr. split; [done|]. intros ->. congruence.
Qed.

Lemma release_active l keepAlive t k i s n : manager_ok maxSessions t → In (k, i) (tm_sessions (release l keepAlive t)) →
  tm_objects (release l keepAlive t) !! i = Some s → ses_activeSocket s = Some n →
  ∃ s0, In (k, i) (tm_sessions t) ∧ tm_objects t !! i = Some s0 ∧ ses_activeSocket s0 = Some n.
Proof.
  intros Hok. destruct (tm_leases t !! l) as [[p []]|] eqn:El; [unfold release; rewrite El; simpl; eauto| |unfold release; rewrite El; eauto].
  rewrite (release_eq l p) by done. pose proof (released_ok maxSessions l p t Hok El) as Hok1. intros Hin Hs Hn.
  by apply (shrinks_active (released l p t) _ k i s n (maybe_close_shrinks p keepAlive _ (mo_sessions _ _ Hok1))).
Qed.

(** *** A connection after its await *)
Lemma finish_waiting n a cl c' v t' : server_ok v → sv_connections v !! n = Some (Connection (ph_waiting a) cl) →
  manager_ok maxSessions t' → remembered t' →
  (∀ l le, tm_leases t' !! l = Some le → le_released le = false → tm_leases (sv_manager v) !! l = Some le ∧ a ≠ acq_lease l) →
  (∀ k i s m, In (k, i) (tm_sessions t') → tm_objects t' !! i = Some s → ses_activeSocket s = Some m →
     (m = n ∧ c' = Connection (ph_attached i) false) ∨
     ∃ s0, In (k, i) (tm_sessions (sv_manager v)) ∧ tm_objects (sv_manager v) !! i = Some s0 ∧ ses_activeSocket s0 = Some m) →
  server_ok (Server t' (<[n := c']> (sv_connections v))).
Proof.
  intros [H1 H2 H3 H4] Hn Hok Hrem Hl Ha. split; simpl; [done|done|..].
  - intros l le Hle Hr. destruct (Hl l le Hle Hr) as [Hle' Hne]. destruct (H3 l le Hle' Hr) as (m & c & Hc & Hw).
    exists m, c. split; [|done]. rewrite list_lookup_insert_ne; [done|]. intros <-. rewrite Hn in Hc. injection Hc as <-.
    unfold waiting_for in Hw. simpl in Hw. congruence.
  - intros k i s m Hin Hs Hm. destruct (Ha k i s m Hin Hs Hm) as [[-> ->]|(s0 & Hin0 & Hs0 & Hm0)].
    + apply list_lookup_insert_eq. by eapply lookup_lt_Some.
    + specialize (H4 k i s0 m Hin0 Hs0 Hm0). rewrite list_lookup_insert_ne; [done|]. intros <-. congruence.
Qed.

(** What giving an answer back keeps. *)
Lemma release_acquired_ok a keepAlive t : manager_ok maxSessions t → remembered t →
  (keepAlive = true → ∀ i s, outcome a t = Some (Some i) → tm_objects t !! i = Some s → held s) → outcome a t ≠ None →
  let t' := release_acquired a keepAlive t in
  manager_ok maxSessions t' ∧ remembered t' ∧
  (∀ l le, tm_leases t' !! l = Some le → le_released le = false → tm_leases t !! l = Some le ∧ a ≠ acq_lease l) ∧
  (∀ k i s m, In (k, i) (tm_sessions t') → tm_objects t' !! i = Some s → ses_activeSocket s = Some m →
     ∃ s0, In (k, i) (tm_sessions t) ∧ tm_objects t !! i = Some s0 ∧ ses_activeSocket s0 = Some m).
Proof.
  intros Hok Hrem Hkeep Hout. destruct a as [i|l]; simpl; [split; [done|split; [done|split; [done|eauto]]]|].
  split; [by apply release_ok|]. split; [|split].
  - destruct (tm_leases t !! l) as [[p []]|] eqn:El; [unfold release; by rewrite El| |unfold release; by rewrite El].
    apply (release_remembered l p); [done..|]. intros Hk i s Hi Hs. apply (Hkeep Hk i s); [|done].
    simpl in Hout |- *. rewrite El in Hout |- *. simpl in *. apply bind_Some in Hi as (c & Hc & Hi).
    rewrite Hc in Hout |- *. destruct (pc_finally c); [|done].
    destruct (mo_promise _ t Hok p c Hc) as [Hp _]. destruct (pc_promise c) as [|j|]; [congruence| |congruence].
    destruct Hp as [Hp _]. congruence.
  - intros l' le Hl' Hr. destruct (release_leases l keepAlive t l' le (mo_sessions _ t Hok) Hl' Hr). split; [done|]. congruence.
  - intros k i s m. by apply release_active.
Qed.

(** The state after [attach]. *)
Lemma attach_server n i now t : manager_ok maxSessions t → remembered t →
  let '(b, t1) := on_session i false (attach accepts n now) t in
  manager_ok maxSessions t1 ∧ remembered t1 ∧ tm_leases t1 = tm_leases t ∧ tm_creations t1 = tm_creations t ∧
  (∀ s, tm_objects t1 !! i = Some s → held s) ∧
  ∀ k j s m, In (k, j) (tm_sessions t1) → tm_objects t1 !! j = Some s → ses_activeSocket s = Some m →
    (b = true ∧ m = n ∧ j = i) ∨
    ∃ s0, In (k, j) (tm_sessions t) ∧ tm_objects t !! j = Some s0 ∧ ses_activeSocket s0 = Some m.
Proof.
  intros Hok Hrem. unfold on_session. destruct (tm_objects t !! i) as [s|] eqn:Es.
  2: { split_and!; [done..|intros s Hs; congruence|intros k j s m; right; eauto]. }
  destruct (attach_outside accepts n now (SessionWorld s (tm_log t))) as (b & w & E & Ho).
  assert (session_ok s) as Hs by by eapply (Forall_lookup_1 _ _ _ _ (mo_objects _ t Hok)).
  pose proof (attach_keeps_ok accepts n now (SessionWorld s (tm_log t)) Hs) as Hs'. rewrite E in Hs' |- *. simpl in Hs', Ho.
  destruct Ho as (Hid & Hcl & Ho). set (s' := sw_session w) in *.
  assert (held s') as Hheld.
  { destruct b; [right; left; unfold hasActiveSocket; by destruct Ho as [_ ->]|].
    destruct Ho as [[-> Ho]|[_ Ho]]; [by left|done]. }
  assert (∀ j x, <[i:=s']> (tm_objects t) !! j = Some x → (j = i ∧ x = s') ∨ (j ≠ i ∧ tm_objects t !! j = Some x)) as Hl.
  { intros j x. destruct (decide (i = j)) as [<-|Hij]; [|rewrite list_lookup_insert_ne by done; auto].
    rewrite list_lookup_insert_eq by (by eapply lookup_lt_Some). intros [= <-]. by left. }
  split_and!; simpl.
  - by eapply replace_ok.
  - intros j x [[-> ->]|[Hj Hx]]%Hl; [by left|]. by apply Hrem.
  - done.
  - done.
  - intros x [[_ ->]|[? _]]%Hl; done.
  - intros k j x m Hin [[-> ->]|[Hj Hx]]%Hl Hm; [|right; eauto].
    destruct b; [left; destruct Ho as [_ Ho]; rewrite Ho in Hm; by injection Hm as <-|].
    destruct Ho as [[-> _]|[Ho _]]; [right; eauto|congruence].
Qed.

Lemma continue_server n error now v : server_ok v → server_ok (continue_connection accepts n error now v).
Proof.
  intros Hv. unfold continue_connection. destruct (sv_connections v !! n) as [[[a|i|] closed]|] eqn:En; [|done..].
  pose proof (so_manager v Hv) as Hok. pose proof (so_remembered v Hv) as Hrem.
  destruct (outcome a (sv_manager v)) as [[i|]|] eqn:Eout; [| |done].
  - destruct closed.
    + destruct (release_acquired_ok a false (sv_manager v) Hok Hrem) as (R1 & R2 & R3 & R4); [done|congruence|].
      refine (finish_waiting n a true _ v _ Hv En R1 R2 R3 _). intros k j s m Hin Hs Hm. right. by eapply R4.
    + pose proof (attach_server n i now (sv_manager v) Hok Hrem) as Hat.
      destruct (on_session i false _ (sv_manager v)) as [b t1]. destruct Hat as (A1 & A2 & A3 & A4 & A5 & A6).
      assert (outcome a t1 = Some (Some i)) as Eout1.
      { destruct a as [j|l]; [done|]. simpl in Eout |- *. by rewrite A3, A4. }
      destruct (release_acquired_ok a b t1 A1 A2) as (R1 & R2 & R3 & R4);
        [intros _ j s Hj; rewrite Eout1 in Hj; injection Hj as <-; apply A5|congruence|].
      assert (∀ c', (b = true → c' = Connection (ph_attached i) false) →
        server_ok (Server (release_acquired a b t1) (<[n := c']> (sv_connections v)))) as Hfin.
      { intros c' Hc'. rewrite A3 in R3. refine (finish_waiting n a false _ v _ Hv En R1 R2 R3 _).
        intros k j s m Hin Hs Hm. destruct (R4 k j s m Hin Hs Hm) as (s0 & Hin0 & Hs0 & Hm0).
        destruct (A6 k j s0 m Hin0 Hs0 Hm0) as [(Hb & -> & ->)|?]; [left; auto|by right]. }
      destruct b; [by apply Hfin|]. apply (shrinks_server _ _ (Hfin (Connection ph_ended true) ltac:(done))).
      apply update_log_shrinks.
  - destruct (release_acquired_ok a false (sv_manager v) Hok Hrem) as (R1 & R2 & R3 & R4); [done|congruence|].
    assert (server_ok (Server (release_acquired a false (sv_manager v)) (<[n := Connection ph_ended closed]> (sv_connections v)))) as Hfin.
    { refine (finish_waiting n a closed _ v _ Hv En R1 R2 R3 _). intros k j s m Hin Hs Hm. right. by eapply R4. }
    apply (shrinks_server _ _ Hfin). apply closeWithError_shrinks.
Qed.

(** *** A connection that ends *)
Lemma end_of_connection n c closed v t' : server_ok v → sv_connections v !! n = Some c → shrinks (sv_manager v) t' →
  (∀ k i s, In (k, i) (tm_sessions t') → tm_objects t' !! i = Some s → ses_activeSocket s ≠ Some n) →
  server_ok (Server t' (<[n := Connection (cn_phase c) closed]> (sv_connections v))).
Proof.
  intros Hv Hn Hsh Hno. destruct (shrinks_server v t' Hv Hsh) as [H1 H2 H3 H4]. simpl in *. split; simpl; [done|done|..].
  - intros l le Hle Hr. destruct (H3 l le Hle Hr) as (m & c' & Hc & Hw). destruct (decide (n = m)) as [<-|Hne].
    + exists n. eexists. split; [apply list_lookup_insert_eq; by eapply lookup_lt_Some|]. rewrite Hn in Hc. by injection Hc as <-.
    + exists m, c'. split; [|done]. by rewrite list_lookup_insert_ne.
  - intros k i s m Hin Hs Hm. rewrite list_lookup_insert_ne; [by eapply H4|]. intros <-. by eapply Hno.
Qed.

Lemma active_attached v k i s n ph : server_ok v → sv_connections v !! n = Some (Connection ph false) →
  In (k, i) (tm_sessions (sv_manager v)) → tm_objects (sv_manager v) !! i = Some s → ses_activeSocket s = Some n →
  ph = ph_attached i ∧ k = object_id i (sv_manager v) ∧ map_get k (tm_sessions (sv_manager v)) = Some i.
Proof.
  intros Hv Hn Hin Hs Ha. pose proof (so_active v Hv k i s n Hin Hs Ha) as H. rewrite Hn in H. injection H as ->.
  destruct (mo_sessions _ _ (so_manager v Hv)) as [Hnd Hi]. destruct (Hi k i Hin) as (x & Hx & Hk). rewrite Hs in Hx. injection Hx as <-.
  split; [done|]. unfold object_id. rewrite Hs. split; [done|]. by apply map_get_unique.
Qed.

Lemma detached_inactive n i now t s : tm_objects (on_session i tt (detach n now) t).2 !! i = Some s →
  ses_closed s = false → ses_activeSocket s ≠ Some n.
Proof.
  unfold on_session. destruct (tm_objects t !! i) as [x|] eqn:Ex; [|simpl; congruence].
  pose proof (detach_active n now (SessionWorld x (tm_log t))) as H.
  assert (∀ w, tm_objects (t <| tm_objects := <[i := sw_session w]> (tm_objects t) |> <| tm_log := sw_log w |>) !! i = Some s →
    s = sw_session w) as Hw.
  { intros w. simpl. rewrite list_lookup_insert_eq by (by eapply lookup_lt_Some). by intros [= <-]. }
  destruct (detach n now _) as [[e|u] w]; simpl in H |- *; intros ->%Hw; by apply H.
Qed.

Lemma detachSession_silent k i n now t s : manager_ok maxSessions t → map_get k (tm_sessions t) = Some i →
  In (k, i) (tm_sessions (detachSession k n now t)) → tm_objects (detachSession k n now t) !! i = Some s →
  ses_activeSocket s ≠ Some n.
Proof.
  intros Hok Hg Hin Hs. pose proof (detachSession_shrinks k n now t (mo_sessions _ t Hok)) as Hsh.
  pose proof (mo_open _ _ (shrinks_ok maxSessions _ _ Hsh Hok) k i s Hin Hs) as Hopen.
  revert Hs. unfold detachSession. rewrite Hg. pose proof (detached_inactive n i now t) as Hd.
  destruct (on_session i tt (detach n now) t) as [u t1] eqn:E. simpl in Hd.
  destruct (object_active t1 i); [intros Hs; by apply Hd|]. intros Hs.
  pose proof (ending_closed i _ t1 s (end_session_ends w_disconnected) Hs). congruence.
Qed.

Lemma detach_server n now v : server_ok v → server_ok (detachConnection n now v).
Proof.
  intros Hv. unfold detachConnection. destruct (sv_connections v !! n) as [[ph []]|] eqn:En; [done| |done].
  pose proof (so_manager v Hv) as Hok.
  assert (∀ t', shrinks (sv_manager v) t' →
    (∀ k i s, ph = ph_attached i → map_get k (tm_sessions (sv_manager v)) = Some i → k = object_id i (sv_manager v) →
       In (k, i) (tm_sessions t') → tm_objects t' !! i = Some s → ses_activeSocket s ≠ Some n) →
    server_ok (Server t' (<[n := Connection ph true]> (sv_connections v)))) as Hend.
  { intros t' Hsh Hno. apply (end_of_connection n (Connection ph false) true v t' Hv En Hsh).
    intros k i s Hin Hs Ha. destruct (shrinks_active _ _ k i s n Hsh Hin Hs Ha) as (s0 & Hin0 & Hs0 & Ha0).
    destruct (active_attached v k i s0 n ph Hv En Hin0 Hs0 Ha0) as (-> & Hk & Hg). by eapply (Hno k i s). }
  destruct ph as [a|i|]; [apply Hend; [done|intros ? ? ? [=]]| |apply Hend; [done|intros ? ? ? [=]]].
  apply (Hend (detachSession (object_id i (sv_manager v)) n now (sv_manager v))); [by apply detachSession_shrinks, Hok|].
  intros k j s [= <-] Hg -> Hin Hs. by eapply detachSession_silent.
Qed.

Lemma closeSession_gone k i t : map_get k (tm_sessions t) = Some i → ∀ j, ¬ In (k, j) (tm_sessions (closeSession k None t).2).
Proof. intros Hg j. unfold closeSession. rewrite Hg. simpl. rewrite map_delete_In. by intros [_ ?]. Qed.

Lemma end_connection_server n i error v : server_ok v → sv_connections v !! n = Some (Connection (ph_attached i) false) →
  server_ok (end_connection accepts n i error v).
Proof.
  intros Hv En. pose proof (so_manager v Hv) as Hok. unfold end_connection.
  set (t1 := match error with Some e => sendTo accepts n (m_error e) (sv_manager v) | None => sv_manager v end).
  assert (shrinks (sv_manager v) t1 ∧ tm_sessions t1 = tm_sessions (sv_manager v) ∧ tm_objects t1 = tm_objects (sv_manager v)) as (Hsh1 & Es & Eo).
  { unfold t1. destruct error as [e|]; [|done]. split; [apply sendTo_shrinks|]. unfold sendTo. by destruct (accepts _ _ _). }
  assert (sessions_wf t1) as Hwf by (eapply shrinks_wf; [exact Hsh1|apply Hok]).
  set (t' := log (w_socket_closed n) (closeSession (object_id i t1) None t1).2).
  assert (shrinks (sv_manager v) t') as Hsh.
  { etrans; [exact Hsh1|]. etrans; [by apply (closeSession_shrinks (object_id i t1) None)|]. apply update_log_shrinks. }
  apply (end_of_connection n (Connection (ph_attached i) false) true v t' Hv En Hsh).
  intros k j s Hin Hs Ha. destruct (shrinks_active _ _ k j s n Hsh Hin Hs Ha) as (s0 & Hin0 & Hs0 & Ha0).
  destruct (active_attached v k j s0 n _ Hv En Hin0 Hs0 Ha0) as ([= <-] & Hk & Hg). rewrite <-Es in Hg.
  assert (k = object_id i t1) as -> by (rewrite Hk; unfold object_id; by rewrite Eo).
  by apply (closeSession_gone _ i t1 Hg i).
Qed.

Lemma on_message_server n m works v : server_ok v → server_ok (on_message accepts n m works v).
Proof.
  intros Hv. unfold on_message. destruct (sv_connections v !! n) as [[[a|i|] []]|] eqn:En; try done.
  destruct m as [[data|cols rows|]|]; [destruct works|destruct works|..]; try by apply end_connection_server.
  - apply on_manager_shrinks; [done|]. intros t _. apply update_log_shrinks.
  - apply on_manager_shrinks; [done|]. intros t _. apply update_log_shrinks.
Qed.

(** *** Every step *)
Lemma onData_open data now w : ses_closed (sw_session (onData accepts data now w).2) = ses_closed (sw_session w).
Proof.
  destruct w as [s l]. unfold onData. rewrite bind_gets. cbn [sw_session]. destruct (ses_closed s) eqn:Ec; [done|].
  assert (∀ x, ses_closed (appendPendingOutput data x) = ses_closed x) as Hap
    by (intros x; unfold appendPendingOutput; by destruct (drop_over _ _ _) as [[? ?] ?]).
  destruct (ses_activeSocket s) as [socket|]; [|simpl; by rewrite Hap].
  rewrite (bind_inr _ _ _ _ _ (sendSocket_eq _ _ _ _)). destruct (accepts _ _ _); [done|].
  unfold mbind, prog_bind. simpl. rewrite Hap. destruct (schedule_fields (leave now s)) as (_ & _ & _ & _ & E & _).
  rewrite E. exact Ec.
Qed.

Lemma settled_server p f g v : server_ok v → manager_ok maxSessions (f (sv_manager v)) →
  tm_objects (f (sv_manager v)) = tm_objects (sv_manager v) → tm_sessions (f (sv_manager v)) = tm_sessions (sv_manager v) →
  tm_leases (f (sv_manager v)) = tm_leases (sv_manager v) →
  tm_creations (f (sv_manager v)) = alter g p (tm_creations (sv_manager v)) → (∀ c, pc_session (g c) = pc_session c) →
  server_ok (on_manager f v).
Proof.
  intros Hv Hok Ho Hs Hl Hc Hg. assert (evolves (sv_manager v) (f (sv_manager v))) as [Hr Ha].
  { apply same_objects_evolves; [done..|]. intros i (l & le & c & Hl0 & Hr & Hc0 & Hs0). exists l, le. eexists.
    rewrite Hl, Hc. split; [done|]. split; [done|]. split; [by apply alter_lookup_l|].
    destruct (bool_decide _); [by rewrite Hg|done]. }
  apply settle_server; [done|done|intros i; apply Hr, (so_remembered v Hv)|done|exact Ha].
Qed.

Lemma server_step_ok v v' : server_ok v → server_step v v' → server_ok v'.
Proof.
  intros Hv Hstep. pose proof (so_manager v Hv) as Hok. destruct Hstep.
  - by apply connect_server.
  - by apply continue_server.
  - by apply detach_server.
  - by apply on_message_server.
  - apply on_manager_shrinks; [done|]. intros t _. apply on_session_shrinks; [apply onData_calms|apply onData_open].
  - apply on_manager_shrinks; [done|]. intros t Ht. apply ending_shrinks; [apply exited_ends|apply Ht].
  - apply on_manager_shrinks; [done|]. intros t Ht. apply close_object_shrinks, Ht.
  - by eapply creation_done_server.
  - eapply (settled_server p); [done|by eapply creation_failed_ok|done..].
  - eapply (settled_server p _ (λ c, c <| pc_finally := true |>)); [done|by eapply creation_finally_ok|..];
      unfold creation_finally; rewrite ?H; try (by case_bool_decide); done.
  - apply on_manager_shrinks; [done|]. intros t Ht. apply destroy_begin_shrinks; apply Ht.
  - apply on_manager_shrinks; [done|]. intros t Ht. apply update_log_shrinks.
  - apply on_manager_shrinks; [done|]. intros t Ht. apply disconnectAll_shrinks, Ht.
Qed.

Lemma start_ok : 0 ≤ maxSessions → server_ok start.
Proof.
  intros Hmax. split; simpl; [|intros i s [=]|intros l le [=]|intros k i s n []].
  split; simpl; try done; [split; [constructor|done]|constructor].
Qed.

Lemma reachable_ok v : 0 ≤ maxSessions → reachable v → server_ok v.
Proof. intros Hmax. induction 1; [by apply start_ok|by eapply server_step_ok]. Qed.
End Server.

(** ** The theorem *)
Section Forgotten.
Context (accepts : list wire → nat → message → bool).
Context (terminalSessionName : string → string → string).
Context (maxSessions : Z).

(** A creation whose terminal is still to be spawned, and that was not cancelled. *)
Definition under_way (c : PendingCreation) : bool := match pc_promise c with pr_running => negb (pc_cancelled c) | _ => false end.
Lemma filter_positions {A} (p : A → bool) l :
  length (List.filter p l) = length (List.filter (λ i, from_option p false (l !! i)) (seq 0 (length l))).
Proof using Type.
  induction l as [|x l IH] using rev_ind; [done|]. rewrite length_app, Nat.add_comm. cbn [length Nat.add].
  rewrite seq_S, !List.filter_app, !length_app, IH. f_equal.
  - f_equal. apply filter_ext_in. intros i Hi%in_seq. by rewrite lookup_app_l by lia.
  - rewrite Nat.add_0_l. cbn [List.filter]. rewrite lookup_app_r, Nat.sub_diag by lia. cbn. by destruct (p x).
Qed.
Lemma under_way_load t : manager_ok maxSessions t →
  Z.of_nat (length (tm_sessions t) + length (List.filter under_way (tm_creations t))) ≤ load t.
Proof using Type.
  intros Hok. unfold load. apply inj_le, Nat.add_le_mono_l. rewrite filter_positions.
  set (ps := List.filter _ (seq _ _)). set (f := λ i, (from_option pc_key "" (tm_creations t !! i), i)).
  rewrite <-(length_map f ps). apply NoDup_incl_length.
  - apply NoDup_ListNoDup. apply (NoDup_fmap_1 snd). rewrite <-list_fmap_compose. change (snd ∘ f <$> ps) with ((λ i, i) <$> ps). rewrite list_fmap_id.
    apply NoDup_ListNoDup. apply List.NoDup_filter, seq_NoDup.
  - intros e (i & <- & Hi)%in_map_iff. apply filter_In in Hi as [_ Hi]. unfold f. destruct (tm_creations t !! i) as [c|] eqn:Ec; [|done].
    cbn in Hi. unfold under_way in Hi.
    destruct (pc_promise c) eqn:Hr; try done. apply negb_true_iff in Hi as Hn. destruct (mo_running _ _ Hok i c Ec Hr Hn) as [_ Hin].
    apply filter_In. split; [done|]. unfold unresolved. cbn. rewrite Ec. cbn. destruct (mo_promise _ _ Hok i c Ec) as [Hs _].
    rewrite Hr in Hs. by rewrite Hs.
Qed.

(** C33: However connections come, wait, are refused, take over, fail and go,
    while terminals start, write and exit, timers fire, tabs are restarted and
    the server shuts down: the sessions the manager holds and the creations
    under way that nobody cancelled are together never more than the limit;
    no session it holds is forgotten: each is open, under its own id, and is
    attached to a connection that is still open, or has its idle timer
    running, or is awaited by a connection.  Of a session that it does not
    hold and that still runs - one of the same id in another root took its
    place - only this is said: its idle timer runs, or a connection awaits
    it, or it has a connection, which may be closed. *)
Theorem terminals_not_forgotten v (Hmax : 0 ≤ maxSessions) (Hv : reachable accepts terminalSessionName maxSessions v) :
  let t := sv_manager v in
  let awaits i := ∃ n c l le p, sv_connections v !! n = Some c ∧ cn_phase c = ph_waiting (acq_lease l) ∧
    tm_leases t !! l = Some le ∧ tm_creations t !! le_pending le = Some p ∧ pc_session p = Some i in
  Z.of_nat (length (tm_sessions t) + length (List.filter under_way (tm_creations t))) ≤ maxSessions ∧
  (∀ k i, In (k, i) (tm_sessions t) → ∃ s,
     tm_objects t !! i = Some s ∧ ses_id s = k ∧ ses_closed s = false ∧
     (ses_idleTimer s = true ∨
      (∃ n, ses_activeSocket s = Some n ∧ sv_connections v !! n = Some (Connection (ph_attached i) false)) ∨ awaits i)) ∧
  ∀ i s, tm_objects t !! i = Some s → ses_closed s = false →
    ses_idleTimer s = true ∨ is_Some (ses_activeSocket s) ∨ awaits i.
Proof.
  destruct (reachable_ok accepts terminalSessionName maxSessions v Hmax Hv) as [Hok Hrem Hl Ha]. cbv zeta. split_and!.
  - etrans; [by apply under_way_load|apply (mo_load _ _ Hok)].
  - intros k i Hin. destruct (mo_sessions _ _ Hok) as [_ Hi]. destruct (Hi k i Hin) as (s & Hs & Hk). exists s.
    pose proof (mo_open _ _ Hok k i s Hin Hs) as Ho. split; [done|]. split; [done|]. split; [done|].
    destruct (Hrem i s Hs) as [[H|[H|H]]|(l & le & c & Hle & Hr & Hc & Hi')]; [congruence| |by left|].
    + right. left. unfold hasActiveSocket in H. destruct (ses_activeSocket s) as [n|] eqn:En; [|done].
      exists n. split; [done|]. by eapply Ha.
    + right. right. destruct (Hl l le Hle Hr) as (n & x & Hx & Hw). by exists n, x, l, le, c.
  - intros i s Hs Ho. destruct (Hrem i s Hs) as [[H|[H|H]]|(l & le & c & Hle & Hr & Hc & Hi')]; [congruence| |by left|].
    + right. left. unfold hasActiveSocket in H. destruct (ses_activeSocket s); [by eexists|done].
    + right. right. destruct (Hl l le Hle Hr) as (n & x & Hx & Hw). by exists n, x, l, le, c.
Qed.
End Forgotten.

Module TerminalDemo.
Definition accepts (log : list wire) (socket : nat) (m : message) : bool := true.
Definition name (rootId sessionId : string) : string := rootId +:+ sessionId.
Definition id : string := "0a0a0a0a-1111-4222-8333-444444444444".
Definition open (rootId sessionId : string) (v : server) : server :=
  connect accepts name 4 rootId (rq_acquire (Some sessionId)) false id v.
Definition settle (p : nat) (v : server) : server :=
  on_manager (creation_finally p) (on_manager (creation_done p "/" 1) v).
Definition go_on (n : nat) (v : server) : server := continue_connection accepts n "" 2 v.

(** Two connections to one terminal: the second takes over. *)
Definition shared : server := go_on 1 (open "r" id (go_on 0 (settle 0 (open "r" id start)))).
Example taken_over : ses_activeSocket <$> tm_objects (sv_manager shared) !! 0%nat = Some (Some 1%nat) ∧
  tm_log (sv_manager shared) = [w_spawned (name "r" id) false; w_sent 0 (m_ready "/" id); w_sent 0 m_taken_over;
                                w_socket_closed 0; w_sent 1 (m_ready "/" id)].
Proof. done. Qed.

(** Until its socket has closed, the connection that was taken over can still
    write to the terminal and end the session. *)
Example taken_over_writes :
  last (tm_log (sv_manager (on_message accepts 0 (Some (tm_input "x")) true shared))) = Some (w_written 0 "x") ∧
  tm_sessions (sv_manager (on_message accepts 0 (Some tm_close) true shared)) = [].
Proof. done. Qed.

(** A tab whose id has capital letters: restarting it does not find its
    session, which [acquire] registered in small letters. *)
Definition capitals : string := "0A0A0A0A-1111-4222-8333-444444444444".
Example capitals_not_destroyed :
  let v := go_on 0 (settle 0 (open "r" capitals start)) in
  let t := (destroy_begin "r" capitals (sv_manager v)).2 in
  isTerminalSessionId capitals = true ∧ tm_sessions t = [(id, 0%nat)] ∧ ses_closed <$> tm_objects t !! 0%nat = Some false ∧
  name "r" capitals ≠ name "r" id.
Proof. done. Qed.

(** Two roots asked for the same new id: the second session takes the place
    of the first in the map, and the first is not ended with its connection. *)
Example same_id_in_two_roots :
  let v := go_on 1 (settle 1 (go_on 0 (settle 0 (open "q" id (open "r" id start))))) in
  let t := sv_manager (detachConnection 0 3 v) in
  ses_closed <$> tm_objects t !! 0%nat = Some false ∧ ses_activeSocket <$> tm_objects t !! 0%nat = Some (Some 0%nat) ∧
  ses_idleTimer <$> tm_objects t !! 0%nat = Some false.
Proof. done. Qed.

Lemma shared_reachable : reachable accepts name 4 shared.
Proof.
  eapply reach_step; [|apply (st_continue accepts name 4 _ 1 "" 2)].
  eapply reach_step; [|apply (st_connect accepts name 4 _ "r" (rq_acquire (Some id)) false id)].
  eapply reach_step; [|apply (st_continue accepts name 4 _ 0 "" 2)].
  eapply reach_step; [|eapply (st_finally accepts name 4 _ 0); [reflexivity|discriminate]].
  eapply reach_step; [|eapply (st_created accepts name 4 _ 0 _ "/" 1); reflexivity].
  eapply reach_step; [|apply (st_connect accepts name 4 _ "r" (rq_acquire (Some id)) false id)]. apply reach_start.
Qed.
End TerminalDemo.

Lemma terminals_not_forgotten_witness :
  let t := sv_manager TerminalDemo.shared in
  tm_sessions t = [(TerminalDemo.id, 0%nat)] ∧ Z.of_nat (length (tm_sessions t) + length (List.filter under_way (tm_creations t))) ≤ 4.
Proof.
  split; [reflexivity|].
  destruct (terminals_not_forgotten TerminalDemo.accepts TerminalDemo.name 4 TerminalDemo.shared
    ltac:(discriminate) TerminalDemo.shared_reachable) as [H _]. exact H.
Defined.
