(* ===== verification/TerminalRoutes.v ===== *)
(** * Terminal routes

    apps/api/src/routes/terminal.ts and the message parser of
    apps/api/src/lib/terminal.ts: what the HTTP handlers answer, which
    WebSocket requests are admitted, and which messages are understood. *)
From Stdlib Require Import Ascii QArith.
From S2P Require Import Prelude Sql Json JsString JsonText Http.
From S2P Require Import NasRoots TerminalTabs TerminalSessions TerminalManager TerminalServer.
Open Scope Z_scope.

(** ** Messages *)
Definition MIN_TERMINAL_COLS : Z := 2.
Definition MAX_TERMINAL_COLS : Z := 500.
Definition MIN_TERMINAL_ROWS : Z := 1.
Definition MAX_TERMINAL_ROWS : Z := 200.

Definition terminalDimension (value : option json) (min max : Z) : option Z :=
  match value with
  | Some (JNum n) => if negb (isInteger n) || num_lt n (lit min) || num_lt (lit max) n then None else Some (number_Z n)
  | _ => None
  end.

Definition has_type (ps : list (string * json)) (t : string) : bool :=
  match prop ps "type" with Some (JStr s) => bool_decide (s = t) | _ => false end.
Definition string_prop (ps : list (string * json)) (k : string) : option string :=
  match prop ps k with Some (JStr s) => Some s | _ => None end.

Definition other_message (ps : list (string * json)) : option terminal_message :=
  if has_type ps "resize" then
    match terminalDimension (prop ps "cols") MIN_TERMINAL_COLS MAX_TERMINAL_COLS,
          terminalDimension (prop ps "rows") MIN_TERMINAL_ROWS MAX_TERMINAL_ROWS with
    | Some cols, Some rows => Some (tm_resize cols rows)
    | _, _ => None
    end
  else if has_type ps "close" then Some tm_close else None.
Definition terminalMessage (raw : string) : option terminal_message :=
  match JSON_parse raw with
  | Some (JObj ps) =>
      match string_prop ps "data" with
      | Some data => if has_type ps "input" then Some (tm_input data) else other_message ps
      | None => other_message ps
      end
  | _ => None
  end.

(** ** Admission of a WebSocket *)
Record TerminalProtocolData := ProtocolData {
  tp_sessionId : option string;
  tp_resetSessionId : option string;
  tp_nextSessionId : option string;
  tp_reset : bool
}.
(** The header is absent, one text, or several. *)
Inductive protocol_header := no_header | one_header (s : string) | many_headers (l : list string).

Definition session_prefix : string := "zos-session.".
Definition reset_prefix : string := "zos-reset.".
Definition next_prefix : string := "zos-next.".
Definition after_prefix (prefix s : string) : string := drop_str (String.length prefix) s.
Definition read_protocol (result : TerminalProtocolData) (item : string) : TerminalProtocolData :=
  let protocol := trim item in
  if startsWith session_prefix protocol
  then ProtocolData (Some (after_prefix session_prefix protocol)) (tp_resetSessionId result) (tp_nextSessionId result) (tp_reset result)
  else if startsWith reset_prefix protocol
  then ProtocolData (tp_sessionId result) (Some (after_prefix reset_prefix protocol)) (tp_nextSessionId result) true
  else if startsWith next_prefix protocol
  then ProtocolData (tp_sessionId result) (tp_resetSessionId result) (Some (after_prefix next_prefix protocol)) true
  else result.
Definition parseTerminalProtocol (value : protocol_header) : TerminalProtocolData :=
  let protocols := match value with
                   | no_header => []
                   | one_header s => if bool_decide (s = "") then [] else split_on "," s
                   | many_headers l => l
                   end in
  foldl read_protocol (ProtocolData None None None false) protocols.

Record TerminalQuery := Query {
  tq_rootId : option string;
  tq_sessionId : option string;
  tq_nextSessionId : option string;
  tq_reset : option string
}.

Section Admission.
(** [new URL(origin).host]; [None] when it throws. *)
Context (url_host : string → option string).
Context (allowedOrigins : list string).

Definition isAllowedWebSocketOrigin (origin host : option string) : bool :=
  match given_id origin with
  | None => true
  | Some origin =>
      bool_decide (origin ∈ allowedOrigins) ||
      (isSome (given_id host) && bool_decide (url_host origin = host))
  end.

(** The root, the request and whether the session is a tab's; or the error
    the socket is closed with. *)
Definition admission (protocol : protocol_header) (query : TerminalQuery) (origin host : option string) (d : tabs_db) :
    string + (string * terminal_request * bool) :=
  let protocol := parseTerminalProtocol protocol in
  let requestedSessionId := coalesce (tp_sessionId protocol) (tq_sessionId query) in
  let resetSessionId := coalesce (tp_resetSessionId protocol) (tq_sessionId query) in
  let nextSessionId := coalesce (tp_nextSessionId protocol) (tq_nextSessionId query) in
  let shouldReset := tp_reset protocol || bool_decide (tq_reset query = Some "1") in
  match given_id (tq_rootId query) ≫= λ id, getNasRoot id (tb_roots d) with
  | None => inl "NAS root not found"
  | Some root =>
      let requestedTab := given_id requestedSessionId ≫= λ id, getTerminalTab id d in
      let nextTab := given_id nextSessionId ≫= λ id, getTerminalTab id d in
      let of_root t := bool_decide (tt_rootId <$> t = Some (nr_id root)) in
      if (isSome requestedTab && negb (of_root requestedTab)) || (isSome nextTab && negb (of_root nextTab))
      then inl "Terminal session is not available"
      else if negb (isAllowedWebSocketOrigin origin host) then inl "Terminal origin is not allowed"
      else inr (nr_id root,
                if shouldReset then rq_reset resetSessionId nextSessionId else rq_acquire requestedSessionId,
                if shouldReset then of_root nextTab else of_root requestedTab)
  end.
End Admission.

(** ** HTTP handlers *)
Section Handlers.
Context (maxSessions : Z).

Definition terminalErrorMessage (e : exn) : string :=
  if bool_decide (exn_message e = "") then "Unable to start terminal session" else exn_message e.

(** [terminalRoot] and [terminalTab]: what is asked for, or the reply. *)
Definition terminalRoot (rootId : option string) (d : tabs_db) : reply TerminalTabState + nas_root :=
  let id := from_option trim "" rootId in
  if bool_decide (id = "") then inl (send_error 400 "NAS root is required")
  else match getNasRoot id (tb_roots d) with
       | None => inl (send_error 404 "NAS root not found")
       | Some root => inr root
       end.
Definition terminalTab (id : string) (d : tabs_db) : reply TerminalTabState + TerminalTab :=
  if negb (isTerminalSessionId id) then inl (send_error 400 "Invalid terminal session id")
  else match getTerminalTab id d with
       | None => inl (send_error 404 "Terminal tab not found")
       | Some tab => inr tab
       end.

Definition sendTerminalTabMutationError (e : exn) : tabs_prog (reply TerminalTabState) :=
  let message := terminalErrorMessage e in
  if bool_decide (message = "Terminal session limit reached") || bool_decide (message = "Terminal session is not available")
  then mret (send_error 409 message) else throw e.

Definition get_tabs (rootId : option string) : tabs_prog (reply TerminalTabState) :=
  root ← gets (terminalRoot rootId);
  match root with
  | inl r => mret r
  | inr root => send <$> gets (getTerminalTabState (nr_id root) maxSessions)
  end.

Definition post_initialize (rootId legacySessionId : option string) (uuid : string) (setNow now : Z) :
    tabs_prog (reply TerminalTabState) :=
  root ← gets (terminalRoot rootId);
  match root with
  | inl r => mret r
  | inr root =>
      let legacy := given_id (trim <$> legacySessionId) in
      if from_option (λ id, negb (isTerminalSessionId id)) false legacy
      then mret (send_error 400 "Invalid terminal session id")
      else try_catch (send <$> initializeTerminalTabs (nr_id root) maxSessions legacy uuid setNow now)
             sendTerminalTabMutationError
  end.

Definition post_tabs (rootId : option string) (uuid : string) (setNow now : Z) : tabs_prog (reply TerminalTabState) :=
  root ← gets (terminalRoot rootId);
  match root with
  | inl r => mret r
  | inr root => try_catch (send_status 201 <$> createTerminalTab (nr_id root) maxSessions uuid setNow now)
                  sendTerminalTabMutationError
  end.

(** A custom title: [Some JNull] clears it, anything but a text is refused. *)
Definition normalizeTerminalTabTitle (value : option json) : string + option string :=
  match value with
  | Some JNull => inr None
  | Some (JStr s) =>
      let title := trim s in
      if bool_decide (1 ≤ len title ≤ 64) then inr (Some title)
      else inl "Terminal tab title must be between 1 and 64 characters"
  | _ => inl "Terminal tab title is required"
  end.

Definition found (state : option TerminalTabState) : reply TerminalTabState :=
  match state with Some state => send state | None => send_error 404 "Terminal tab not found" end.

Definition patch_tab (id : string) (customTitle : option json) (now : Z) : tabs_prog (reply TerminalTabState) :=
  if negb (isTerminalSessionId id) then mret (send_error 400 "Invalid terminal session id") else
  match normalizeTerminalTabTitle customTitle with
  | inl error => mret (send_error 400 error)
  | inr title => found <$> renameTerminalTab id title maxSessions now
  end.

Definition activate_tab (id : string) (now : Z) : tabs_prog (reply TerminalTabState) :=
  if negb (isTerminalSessionId id) then mret (send_error 400 "Invalid terminal session id")
  else found <$> activateTerminalTab id maxSessions now.

(** *** Restarting and deleting a tab

    Both end the tab's session first: [destroy] up to its await, then, once
    the creation it waits for is over, the daemon's [destroySession]. *)
Record api := Api { ap_tabs : tabs_db; ap_server : server }.
#[export] Instance api_eta : Eta api := λ a, Api (ap_tabs a) (ap_server a).

Inductive tab_request :=
| tab_replied (r : reply TerminalTabState)
| tab_destroying (tab : TerminalTab) (awaits : option nat).

Definition destroy_tab (id : string) (a : api) : tab_request * api :=
  match terminalTab id (ap_tabs a) with
  | inl r => (tab_replied r, a)
  | inr tab =>
      let '(r, t) := destroy_begin (tt_rootId tab) (tt_id tab) (sv_manager (ap_server a)) in
      (match r with
       | inl e => tab_replied (send_error 503 (terminalErrorMessage e))
       | inr awaits => tab_destroying tab awaits
       end, a <| ap_server := ap_server a <| sv_manager := t |> |>)
  end.

(** The creation a restart or deletion waits for has been settled. *)
Definition destroy_ready (awaits : option nat) (a : api) : bool :=
  match awaits with
  | None => true
  | Some p => from_option pc_finally true (tm_creations (sv_manager (ap_server a)) !! p)
  end.

Context (terminalSessionName : string → string → string).
Definition destroySession (tab : TerminalTab) (a : api) : api :=
  a <| ap_server := on_manager (destroy_end terminalSessionName (tt_rootId tab) (tt_id tab)) (ap_server a) |>.

(** [outcome] is the error of [destroySession], or none. *)
Definition restart_tab_end (tab : TerminalTab) (outcome : option exn) (a : api) : reply TerminalTabState * api :=
  let a := destroySession tab a in
  match outcome with
  | Some e => (send_error 503 (terminalErrorMessage e), a)
  | None => (send (getTerminalTabState (tt_rootId tab) maxSessions (ap_tabs a)), a)
  end.
Definition delete_tab_end (tab : TerminalTab) (outcome : option exn) (now : Z) (a : api) : (exn + reply TerminalTabState) * api :=
  let a := destroySession tab a in
  match outcome with
  | Some e => (inr (send_error 503 (terminalErrorMessage e)), a)
  | None => let '(r, d) := (found <$> deleteTerminalTab (tt_id tab) maxSessions now) (ap_tabs a) in (r, a <| ap_tabs := d |>)
  end.
End Handlers.

(** ** Messages: what the panels send is what the server reads *)
Definition message_json (m : terminal_message) : json :=
  match m with
  | tm_input data => JObj [("type", JStr "input"); ("data", JStr data)]
  | tm_resize cols rows => JObj [("type", JStr "resize"); ("cols", int cols); ("rows", int rows)]
  | tm_close => JObj [("type", JStr "close")]
  end.
Definition message_ok (m : terminal_message) : Prop :=
  match m with
  | tm_resize cols rows => MIN_TERMINAL_COLS ≤ cols ≤ MAX_TERMINAL_COLS ∧ MIN_TERMINAL_ROWS ≤ rows ≤ MAX_TERMINAL_ROWS
  | _ => True
  end.

Lemma terminalDimension_range v lo hi n : terminalDimension v lo hi = Some n → lo ≤ n ≤ hi.
Proof.
  unfold terminalDimension. destruct v as [[| |m| | |]|]; try done. destruct (isInteger m) eqn:Ei; [|done]. cbn [negb orb].
  destruct (num_lt m (lit lo)) eqn:El; [done|]. cbn [orb]. destruct (num_lt (lit hi) m) eqn:Eh; [done|]. intros [= <-].
  destruct m as [q| | |]; try done. simpl in *. apply bool_decide_eq_true in Ei.
  unfold num_lt, lit, num_le in El, Eh. apply negb_false_iff, Qle_bool_iff in El, Eh.
  unfold Qle in El, Eh. simpl in El, Eh. pose proof (Z_div_mod_eq_full (Qnum q) (Zpos (Qden q))) as Hd.
  assert (Qnum q = Zpos (Qden q) * (Qnum q / Zpos (Qden q))) by lia. nia.
Qed.

Lemma terminalDimension_int n lo hi : lo ≤ n ≤ hi → terminalDimension (Some (int n)) lo hi = Some n.
Proof.
  intros H. unfold terminalDimension, int. assert (isInteger (Num (inject_Z n)) = true) as ->.
  { simpl. apply bool_decide_eq_true. apply Z.mod_1_r. }
  assert (∀ a b, a ≤ b → num_lt (lit b) (lit a) = false) as Hlt.
  { intros a b Hab. unfold num_lt, lit, num_le. apply negb_false_iff, Qle_bool_iff. rewrite <-Zle_Qle. done. }
  fold (lit n). rewrite (Hlt lo n), (Hlt n hi) by lia. simpl. f_equal. apply Z.div_1_r.
Qed.

Lemma int_plain n : 0 ≤ n < 10 ^ 6 → plain_number (Num (inject_Z n)) = true.
Proof.
  intros H. unfold plain_number. assert (decimals (inject_Z n) = 0%nat) as E.
  { unfold decimals. simpl. by rewrite Z.mod_1_r. }
  unfold all_digits. rewrite E. simpl. rewrite Z.div_1_r. rewrite !bool_decide_true; [done|..]; try lia.
  unfold inject_Z. unfold Qred. destruct (Z.ggcd n 1) as [g [a b]] eqn:Eg. simpl.
  pose proof (Z.ggcd_gcd n 1) as Hg. pose proof (Z.ggcd_correct_divisors n 1) as Hd. rewrite Eg in Hg, Hd. simpl in Hg, Hd.
  rewrite Z.gcd_1_r in Hg. subst g. destruct Hd as [-> Hb]. rewrite Z.mul_1_l in Hb. rewrite <-Hb. f_equal. lia.
Qed.

(** What a panel sends is understood as what it means, and a size that is
    accepted is in range, whatever was sent. *)
Theorem terminal_messages :
  (∀ m, message_ok m → terminalMessage (JSON_stringify (message_json m)) = Some m) ∧
  ∀ raw m, terminalMessage raw = Some m → message_ok m.
Proof.
  split.
  - intros m Hm. unfold terminalMessage. rewrite JSON_roundtrip.
    + destruct m as [data|cols rows|]; [done| |done]. destruct Hm as [Hc Hr].
      change (match terminalDimension (Some (int cols)) MIN_TERMINAL_COLS MAX_TERMINAL_COLS,
                    terminalDimension (Some (int rows)) MIN_TERMINAL_ROWS MAX_TERMINAL_ROWS with
              | Some cols, Some rows => Some (tm_resize cols rows) | _, _ => None end = Some (tm_resize cols rows)).
      by rewrite !terminalDimension_int.
    + destruct m as [data|cols rows|]; [done| |done]. destruct Hm as [Hc Hr].
      unfold MIN_TERMINAL_COLS, MAX_TERMINAL_COLS, MIN_TERMINAL_ROWS, MAX_TERMINAL_ROWS in *.
      change (plain_number (Num (inject_Z cols)) && (plain_number (Num (inject_Z rows)) && true) = true).
      by rewrite !int_plain by lia.
  - intros raw m. unfold terminalMessage, other_message. destruct (JSON_parse raw) as [[| | | | |ps]|]; try done.
    assert (∀ m, (if has_type ps "resize" then
         match terminalDimension (prop ps "cols") MIN_TERMINAL_COLS MAX_TERMINAL_COLS,
               terminalDimension (prop ps "rows") MIN_TERMINAL_ROWS MAX_TERMINAL_ROWS with
         | Some cols, Some rows => Some (tm_resize cols rows) | _, _ => None end
       else if has_type ps "close" then Some tm_close else None) = Some m → message_ok m) as H.
    { intros m'. destruct (has_type ps "resize"); [|destruct (has_type ps "close"); [by intros [= <-]|done]].
      destruct (terminalDimension (prop ps "cols") _ _) as [c|] eqn:Ec; [|done].
      destruct (terminalDimension (prop ps "rows") _ _) as [r|] eqn:Er; [|done]. intros [= <-].
      split; by eapply terminalDimension_range. }
    destruct (string_prop ps "data"); [|apply H]. destruct (has_type ps "input"); [by intros [= <-]|apply H].
Qed.

(** ** Admission *)
(** The id of the session that a request asks for. *)
Definition wanted (rq : terminal_request) : option string :=
  match rq with rq_acquire id => given_id id | rq_reset _ next => given_id next end.

(** C34: A WebSocket is admitted only for an enabled root and from an allowed
    origin; when the session it asks for is a tab, the tab is of that root,
    and a session is persistent exactly when it is a tab's. *)
Theorem admission_safe url_host allowedOrigins protocol query origin host d rootId rq persistent :
  admission url_host allowedOrigins protocol query origin host d = inr (rootId, rq, persistent) →
  is_Some (getNasRoot rootId (tb_roots d)) ∧
  (given_id origin = None ∨ ∃ o, origin = Some o ∧ (o ∈ allowedOrigins ∨ is_Some host ∧ url_host o = host)) ∧
  (∀ t, wanted rq ≫= (λ id, getTerminalTab id d) = Some t → tt_rootId t = rootId) ∧
  (persistent = true ↔ is_Some (wanted rq ≫= λ id, getTerminalTab id d)).
Proof.
  unfold admission. destruct (given_id (tq_rootId query) ≫= _) as [root|] eqn:Er; [|done].
  assert (getNasRoot (nr_id root) (tb_roots d) = Some root) as Hroot.
  { apply bind_Some in Er as (id & _ & Hid). pose proof Hid as [_ [Hk _]%andb_prop]%get_row_Some.
    apply bool_decide_eq_true in Hk. by rewrite Hk. }
  set (req := coalesce (tp_sessionId _) _). set (nxt := coalesce (tp_nextSessionId _) _).
  set (rt := given_id req ≫= _). set (nt := given_id nxt ≫= _).
  destruct (_ || _) eqn:Etabs; [done|]. apply orb_false_iff in Etabs as [E1 E2].
  destruct (isAllowedWebSocketOrigin url_host allowedOrigins origin host) eqn:Eo; [|done]. simpl.
  assert (∀ o : option TerminalTab, isSome o && negb (bool_decide (tt_rootId <$> o = Some (nr_id root))) = false →
    (∀ t, o = Some t → tt_rootId t = nr_id root) ∧ (bool_decide (tt_rootId <$> o = Some (nr_id root)) = true ↔ is_Some o)) as Htab.
  { intros [t|]; simpl; [|split; [done|]; split; [done|by intros []]].
    intros Hx%negb_false_iff. rewrite Hx. apply bool_decide_eq_true in Hx. split; [|done]. intros t' [= <-]. by injection Hx. }
  intros [= <- <- <-]. split; [by rewrite Hroot|]. split.
  - unfold isAllowedWebSocketOrigin in Eo. destruct (given_id origin) as [o|] eqn:Ego; [right|by left]. exists o.
    split; [unfold given_id in Ego; destruct origin as [x|]; [|done]; destruct (bool_decide (x = "")); by simplify_eq|].
    apply orb_prop in Eo as [Eo|[Eh Eo]%andb_prop]; apply bool_decide_eq_true in Eo; [by left|]. right.
    split; [by destruct host|done].
  - destruct (_ || bool_decide (tq_reset query = _)); simpl; [apply (Htab nt E2)|apply (Htab rt E1)].
Qed.

(** ** Titles *)
Lemma trimStart_first s c r : trimStart s = String c r → is_white c = false.
Proof. induction s as [|a s IH]; simpl; [done|]. destruct (is_white a) eqn:E; [done|]. by intros [= -> ->]. Qed.

Lemma trimEnd_first s c r : trimEnd s = String c r → ∃ r', s = String c r'.
Proof.
  destruct s as [|a s]; simpl; [done|]. destruct (trimEnd s); [destruct (is_white a); [done|]|]; intros [= -> _]; eauto.
Qed.

Lemma trim_blanks s : sqlite_trimmed (trim s) = true.
Proof.
  unfold sqlite_trimmed. apply andb_true_iff. split; apply negb_true_iff.
  - unfold trim. destruct (trimEnd (trimStart s)) as [|c r] eqn:E; [done|].
    apply trimEnd_first in E as [r' E]. apply trimStart_first in E. unfold startsWith.
    cbn [String.prefix]. destruct (ascii_dec " " c) as [<-|?]; [discriminate E|done].
  - apply bool_decide_eq_false. intros H. by apply trimEnd_last in H.
Qed.

Lemma sqlite_length_plain s : has_char "000" s = false → sqlite_length s = len s.
Proof.
  unfold has_char, len. induction s as [|c s IH]; [done|]. simpl. intros [Hc Hs]%negb_false_iff%andb_prop.
  apply negb_true_iff in Hc. rewrite Hc, IH by (by rewrite Hs). lia.
Qed.

(** A title that the route accepts is one the table accepts, unless it holds
    a NUL. *)
Lemma accepted_title v title : normalizeTerminalTabTitle v = inr title → (∀ s, title = Some s → has_char "000" s = false) →
  title_check title = true.
Proof.
  unfold normalizeTerminalTabTitle. destruct v as [[| | |s| |]|]; try done; [by intros [= <-]|].
  case_bool_decide as Hl; [|done]. intros [= <-] Hn. simpl. specialize (Hn _ eq_refl).
  rewrite sqlite_length_plain by done. by rewrite bool_decide_true, trim_blanks by done.
Qed.

Lemma update_title_runs id title now d : title_check title = true →
  update_title id title now d = (inr tt, d <| tb_tabs := update_where (has_key tt_id id)
                                   (λ t, t <| tt_customTitle := title |> <| tt_updatedAt := now |>) (tb_tabs d) |>).
Proof. intros Hc. unfold update_title. by rewrite Hc, andb_false_r. Qed.

(** Renaming, on every branch: a title is refused with its reason, an unknown
    tab is not found, and otherwise the tab has the title. *)
Theorem patch_tab_spec max id v now d (Hd : tabs_ok d) :
  match (if isTerminalSessionId id then normalizeTerminalTabTitle v else inl "Invalid terminal session id") with
  | inl error => patch_tab max id v now d = (inr (send_error 400 error), d)
  | inr title =>
      (∀ s, title = Some s → has_char "000" s = false) →
      match getTerminalTab id d with
      | None => patch_tab max id v now d = (inr (send_error 404 "Terminal tab not found"), d)
      | Some tab => ∃ d', patch_tab max id v now d = (inr (send (getTerminalTabState (tt_rootId tab) max d')), d') ∧ tabs_ok d' ∧
          getTerminalTab id d' = Some (tab <| tt_customTitle := title |> <| tt_updatedAt := now |>)
      end
  end.
Proof.
  unfold patch_tab. destruct (isTerminalSessionId id); [|done]. simpl.
  destruct (normalizeTerminalTabTitle v) as [error|title] eqn:Ev; [done|]. intros Hn.
  pose proof (accepted_title v title Ev Hn) as Hc. unfold renameTerminalTab.
  destruct (getTerminalTab id d) as [tab|] eqn:Et; [|unfold on_tab, transaction, fmap, prog_fmap; by rewrite bind_gets, Et].
  pose proof (by_key_Some _ _ _ _ Et) as [_ Hid].
  pose proof (rename_limited (Z.of_nat (length (tb_tabs d))) id title now d (conj Hd (Z.le_refl _))) as [Hok _].
  pose proof (update_title_runs (tt_id tab) title now d Hc) as Hu. revert Hu. set (d1 := d <| tb_tabs := _ |>). intros Hu.
  assert (∃ d2, touch_set (tt_rootId tab) now d1 = (inr tt, d2) ∧ tb_tabs d2 = tb_tabs d1) as (d2 & Ht & Hd2) by eauto.
  assert (∀ m, renameTerminalTab id title m now d = (inr (Some (getTerminalTabState (tt_rootId tab) m d2)), d2)) as E.
  { intros m. apply on_tab_Some; [done|]. by rewrite (bind_inr _ _ _ _ _ Hu). }
  rewrite E in Hok. specialize (E max). unfold renameTerminalTab in E. exists d2. split; [|split; [exact Hok|]].
  - unfold fmap, prog_fmap. by rewrite E.
  - unfold getTerminalTab in *. rewrite Hd2. simpl. rewrite Hid. rewrite by_key_update by done. rewrite Et. simpl.
    unfold has_key. rewrite Hid, bool_decide_true by done. done.
Qed.

(** ** Restarting and deleting *)
Lemma map_get_delete {V} k (m : list (string * V)) : map_get k (map_delete k m) = None.
Proof. apply map_get_None. intros v [_ Hk]%map_delete_In. done. Qed.

Lemma ending_pending i m t : ends m → tm_pendingByKey (ending i m t) = tm_pendingByKey t ∧ tm_creations (ending i m t) = tm_creations t.
Proof.
  intros Hm. pose proof (ending_eq i m t Hm) as E. destruct (tm_objects t !! i) as [s|]; [|by rewrite E].
  destruct (ses_closed s); [destruct E as [->|[l ->]]; done|]. destruct E as [l ->].
  set (t1 := t <| tm_objects := _ |> <| tm_log := l |>). by destruct (onExit_same i t1) as (_ & -> & _ & -> & _).
Qed.

(** What [destroy] leaves when it does not throw. *)
Lemma destroy_begin_clears root id t (Hwf : sessions_wf t) :
  match destroy_begin root id t with
  | (inl _, t') => t' = t
  | (inr awaits, t') =>
      map_get id (tm_sessions t') = None ∧
      map_get (terminalSessionKey root id) (tm_pendingByKey t') = None ∧
      (∀ i, map_get id (tm_sessions t) = Some i → ∃ s, tm_objects t' !! i = Some s ∧ ses_closed s = true) ∧
      awaits = map_get (terminalSessionKey root id) (tm_pendingByKey t) ∧
      (∀ p c, awaits = Some p → tm_creations t' !! p = Some c → pc_cancelled c = true)
  end.
Proof.
  unfold destroy_begin. destruct (from_option _ false _); [done|].
  set (t1 := match map_get id (tm_sessions t) with Some i => _ | None => t end).
  assert (tm_pendingByKey t1 = tm_pendingByKey t ∧ map_get id (tm_sessions t1) = None ∧
    ∀ i, map_get id (tm_sessions t) = Some i → ∃ s, tm_objects t1 !! i = Some s ∧ ses_closed s = true) as (Hp & Hg & Ho).
  { unfold t1. destruct (map_get id (tm_sessions t)) as [i|] eqn:Ei; [|by rewrite Ei]. simpl.
    split; [exact (proj1 (ending_pending i disconnect_session t (end_session_ends _)))|].
    split; [apply map_get_delete|]. intros j [= <-]. apply map_get_In in Ei. destruct (proj2 Hwf _ _ Ei) as (s & Hs & _).
    destruct (Forall2_lookup_l _ _ _ _ _ (sh_objects _ _ (disconnect_object_shrinks i t Hwf)) Hs) as (s' & Hs' & _).
    exists s'. split; [exact Hs'|]. by eapply ending_closed, Hs'; apply end_session_ends. }
  rewrite Hp. destruct (map_get (terminalSessionKey root id) (tm_pendingByKey t)) as [p|] eqn:Ep; simpl.
  - rewrite map_get_delete. split_and!; try done. intros q c [= <-]. rewrite list_lookup_alter, decide_True by done.
    destruct (tm_creations t1 !! p); [|done]. by intros [= <-].
  - by rewrite Hp, Ep.
Qed.

(** When the session of a tab is being destroyed, the manager has no session
    and no creation left under it: the session it had is closed and the
    creation it may wait for is cancelled.  The tab stays as it was. *)
Theorem destroy_tab_clears max id a tab awaits a' (Hok : manager_ok max (sv_manager (ap_server a))) :
  destroy_tab id a = (tab_destroying tab awaits, a') →
  let t := sv_manager (ap_server a) in
  let t' := sv_manager (ap_server a') in
  getTerminalTab id (ap_tabs a) = Some tab ∧ ap_tabs a' = ap_tabs a ∧ manager_ok max t' ∧
  map_get (tt_id tab) (tm_sessions t') = None ∧
  map_get (terminalSessionKey (tt_rootId tab) (tt_id tab)) (tm_pendingByKey t') = None ∧
  (∀ i, map_get (tt_id tab) (tm_sessions t) = Some i → ∃ s, tm_objects t' !! i = Some s ∧ ses_closed s = true) ∧
  awaits = map_get (terminalSessionKey (tt_rootId tab) (tt_id tab)) (tm_pendingByKey t) ∧
  (∀ p c, awaits = Some p → tm_creations t' !! p = Some c → pc_cancelled c = true).
Proof.
  intros E t t'. pose proof Hok as [Hwf _ _ Hn]. fold t in Hwf, Hn. unfold destroy_tab in E.
  destruct (terminalTab id (ap_tabs a)) as [r|tab0] eqn:Et; [done|].
  assert (getTerminalTab id (ap_tabs a) = Some tab0) as Htab.
  { unfold terminalTab in Et. destruct (negb _); [done|]. destruct (getTerminalTab id (ap_tabs a)); [|done]. by injection Et as ->. }
  pose proof (destroy_begin_shrinks (tt_rootId tab0) (tt_id tab0) t Hwf Hn) as Hs.
  pose proof (destroy_begin_clears (tt_rootId tab0) (tt_id tab0) t Hwf) as Hc.
  fold t in E. destruct (destroy_begin _ _ t) as [[e|aw] t1]; [done|]. injection E as <- <- <-. simpl in Hs, Hc, t'.
  split; [done|]. split; [done|]. split; [by eapply shrinks_ok|exact Hc].
Qed.

(** ** An admission *)
Module AdmissionDemo.
Definition id : string := "0a0a0a0a-1111-4222-8333-444444444444".
Definition root (id : string) : nas_root := NasRootRow id id ("/srv/" +:+ id) true mount_optional None None None 0 0.
Definition roots : roots_db := RootsDb [root "r"; root "q"] [].
Definition db : tabs_db := TabsDb [Tab id "r" 1 None 0 0] [TabSet "r" (Some id) 2 0 0] roots.
Definition host (origin : string) : option string := if bool_decide (origin = "http://nas") then Some "nas" else None.
Definition asked (rootId protocol origin : string) :=
  admission host ["http://dev"] (one_header protocol) (Query (Some rootId) None None None) (Some origin) (Some "nas") db.

Example admissions :
  asked "r" ("zos-session." +:+ id) "http://nas" = inr ("r", rq_acquire (Some id), true) ∧
  asked "r" ("zos-reset.x, zos-next." +:+ id) "http://dev" = inr ("r", rq_reset (Some "x") (Some id), true) ∧
  asked "q" ("zos-session." +:+ id) "http://nas" = inl "Terminal session is not available" ∧
  asked "r" ("zos-session." +:+ id) "http://elsewhere" = inl "Terminal origin is not allowed".
Proof. by vm_compute. Qed.
End AdmissionDemo.

Lemma admission_safe_witness :
  AdmissionDemo.asked "r" ("zos-session." +:+ AdmissionDemo.id) "http://nas" = inr ("r", rq_acquire (Some AdmissionDemo.id), true) ∧
  is_Some (getNasRoot "r" AdmissionDemo.roots).
Proof.
  split; [reflexivity|].
  destruct (admission_safe AdmissionDemo.host ["http://dev"] (one_header ("zos-session." +:+ AdmissionDemo.id))
    (Query (Some "r") None None None) (Some "http://nas") (Some "nas") AdmissionDemo.db "r"
    (rq_acquire (Some AdmissionDemo.id)) true eq_refl) as [H _]. exact H.
Defined.
