(* ===== verification/Locks.v ===== *)
(** * Execution locks

    packages/db/src/repositories/execution-locks.ts: named leases in the table
    [execution_locks], the table being the map from the lock's name (its
    primary key) to the rest of the row.  Times are milliseconds. *)
From S2P Require Import Prelude.
Open Scope Z_scope.

Record execution_lock := ExecutionLock {
  lk_owner : string;
  lk_acquired_at : Z;
  lk_heartbeat_at : Z
}.

Global Instance execution_lock_eq_dec : EqDecision execution_lock.
Proof. solve_decision. Defined.

Definition default_stale_ms : Z := 30 * 60 * 1000.

Section Locks.
Implicit Types (db : gmap string execution_lock).

Definition acquireExecutionLock db (name owner : string) (staleAfterMs : option Z) (now : Z)
    : bool * gmap string execution_lock :=
  let cutoff := now - (staleAfterMs ⁇ default_stale_ms) in
  match db !! name with
  | None => (true, <[name := ExecutionLock owner now now]> db)
  | Some l =>
      if bool_decide (lk_heartbeat_at l < cutoff)
      then (true, <[name := ExecutionLock owner now now]> db)
      else (false, db)
  end.

Definition isExecutionLockOwner db (name owner : string) : bool :=
  match db !! name with
  | Some l => bool_decide (lk_owner l = owner)
  | None => false
  end.

Definition heartbeatExecutionLock db (name owner : string) (now : Z)
    : bool * gmap string execution_lock :=
  if isExecutionLockOwner db name owner
  then (true, alter (λ l, ExecutionLock (lk_owner l) (lk_acquired_at l) now) name db)
  else (false, db).

Definition releaseExecutionLock db (name owner : string) : bool * gmap string execution_lock :=
  if isExecutionLockOwner db name owner then (true, delete name db) else (false, db).

Lemma isExecutionLockOwner_true db name owner :
  isExecutionLockOwner db name owner = true ↔
  ∃ l, db !! name = Some l ∧ lk_owner l = owner.
Proof.
  unfold isExecutionLockOwner. destruct (db !! name) as [l|]; [|naive_solver].
  rewrite bool_decide_eq_true. naive_solver.
Qed.
End Locks.

(** ** What the processes sharing the database do with one lock *)
Inductive lock_call :=
| CAcquire (name owner : string) (stale : option Z) (now : Z)
| CHeartbeat (name owner : string) (now : Z)
| CRelease (name owner : string).

Definition lock_step (db : gmap string execution_lock) (c : lock_call)
    : bool * gmap string execution_lock :=
  match c with
  | CAcquire name owner stale now => acquireExecutionLock db name owner stale now
  | CHeartbeat name owner now => heartbeatExecutionLock db name owner now
  | CRelease name owner => releaseExecutionLock db name owner
  end.

Fixpoint lock_run (db : gmap string execution_lock) (cs : list lock_call)
    : list bool * gmap string execution_lock :=
  match cs with
  | [] => ([], db)
  | c :: cs => let '(r, db') := lock_step db c in
               let '(rs, db'') := lock_run db' cs in (r :: rs, db'')
  end.

(** The holder keeps its lease alive: from its last heartbeat [h] on, every
    attempt on the lock comes before the lease is stale, each heartbeat of
    the holder moves [h], and the holder does not release. *)
Fixpoint lease_alive (name holder : string) (h : Z) (cs : list lock_call) : Prop :=
  match cs with
  | [] => True
  | CAcquire n _ stale now :: cs =>
      (n = name → now - (stale ⁇ default_stale_ms) ≤ h) ∧ lease_alive name holder h cs
  | CHeartbeat n o now :: cs =>
      lease_alive name holder (if bool_decide (n = name ∧ o = holder) then now else h) cs
  | CRelease n o :: cs => ¬ (n = name ∧ o = holder) ∧ lease_alive name holder h cs
  end.

(** The calls that would hand the lock [name] out. *)
Definition is_acquire_of (name : string) (c : lock_call) : bool :=
  match c with CAcquire n _ _ _ => bool_decide (n = name) | _ => false end.

Lemma lock_step_holder db name holder l c cs :
  db !! name = Some l → lk_owner l = holder →
  lease_alive name holder (lk_heartbeat_at l) (c :: cs) →
  let '(r, db') := lock_step db c in
  (is_acquire_of name c = true → r = false) ∧
  ∃ l', db' !! name = Some l' ∧ lk_owner l' = holder ∧
        lease_alive name holder (lk_heartbeat_at l') cs.
Proof.
  intros Hl Ho Ha. destruct c as [n o stale now|n o now|n o]; simpl in *.
  - destruct Ha as [Hs Ha]. unfold acquireExecutionLock.
    destruct (decide (n = name)) as [->|Hn].
    + rewrite Hl. rewrite bool_decide_false by (specialize (Hs eq_refl); lia). eauto.
    + assert (∀ x, <[n:=x]> db !! name = Some l) as Hkeep
        by (intros x; by rewrite lookup_insert_ne).
      destruct (db !! n) as [l2|]; [case_bool_decide|];
        (split; [by rewrite bool_decide_false|by eauto]).
  - unfold heartbeatExecutionLock.
    destruct (isExecutionLockOwner db n o) eqn:Eo; simpl; (split; [done|]).
    + apply isExecutionLockOwner_true in Eo as (l2 & Hl2 & <-).
      destruct (decide (n = name)) as [->|Hn].
      * assert (l2 = l) as -> by congruence. rewrite bool_decide_true in Ha by done.
        eexists. rewrite lookup_alter_eq, Hl. simpl. done.
      * rewrite bool_decide_false in Ha by (by intros [? _]).
        exists l. by rewrite lookup_alter_ne.
    + rewrite bool_decide_false in Ha; [by eauto|]. intros [-> ->].
      assert (isExecutionLockOwner db name holder = true)
        by (apply isExecutionLockOwner_true; eauto). congruence.
  - destruct Ha as [Hne Ha]. unfold releaseExecutionLock.
    destruct (isExecutionLockOwner db n o) eqn:Eo; simpl; (split; [done|]); [|by eauto].
    apply isExecutionLockOwner_true in Eo as (l2 & Hl2 & <-).
    destruct (decide (n = name)) as [->|Hn].
    + destruct Hne. split; congruence.
    + exists l. by rewrite lookup_delete_ne.
Qed.

(** C8: A held lock is exclusive.  As long as its holder's heartbeats keep
    the lease fresh and the holder does not release it, every attempt by
    anybody to acquire it fails, through any interleaving of the calls that
    the processes make on any lock, and the holder still owns it at the end. *)
Theorem lock_exclusive db name holder l cs rs db' :
  db !! name = Some l → lk_owner l = holder →
  lease_alive name holder (lk_heartbeat_at l) cs →
  lock_run db cs = (rs, db') →
  Forall2 (λ c r, is_acquire_of name c = true → r = false) cs rs ∧
  isExecutionLockOwner db' name holder = true.
Proof.
  revert db l rs. induction cs as [|c cs IH]; intros db l rs Hl Ho Ha Hr; simpl in Hr.
  - simplify_eq. split; [constructor|]. apply isExecutionLockOwner_true. eauto.
  - pose proof (lock_step_holder db name holder l c cs Hl Ho Ha) as Hstep.
    destruct (lock_step db c) as [r db1]. destruct Hstep as (Hr1 & l' & Hl' & Ho' & Ha').
    destruct (lock_run db1 cs) as [rs1 db2] eqn:E. simplify_eq.
    destruct (IH db1 l' rs1 Hl' Ho' Ha' E) as [Hall Hown]. split; [by constructor|done].
Qed.

Definition lock_example : gmap string execution_lock :=
  {["backup" := ExecutionLock "a" 0 0]}.

Lemma lock_exclusive_witness :
  isExecutionLockOwner
    (lock_run lock_example
       [CAcquire "backup" "b" None 60000; CHeartbeat "backup" "a" 1700000;
        CAcquire "backup" "b" None 3400000; CRelease "backup" "b"]).2 "backup" "a" = true.
Proof.
  refine (proj2 (lock_exclusive lock_example "backup" "a" (ExecutionLock "a" 0 0) _ _ _ _ _ _ _));
    [reflexivity|reflexivity| |apply surjective_pairing].
  repeat split; try (intros _; by vm_compute). by intros [_ ?].
Defined.

(** A lock whose holder died can be taken over once its lease is stale,
    and only then; the new owner's row starts fresh, and the dead owner can
    neither renew nor release it any more. *)
Theorem lock_takeover db name owner owner' l stale now :
  db !! name = Some l → lk_owner l = owner → owner ≠ owner' →
  let '(r, db') := acquireExecutionLock db name owner' stale now in
  (r = true ↔ lk_heartbeat_at l < now - (stale ⁇ default_stale_ms)) ∧
  (r = false → db' = db) ∧
  (r = true → db' !! name = Some (ExecutionLock owner' now now) ∧
     (∀ t, heartbeatExecutionLock db' name owner t = (false, db')) ∧
     releaseExecutionLock db' name owner = (false, db')).
Proof.
  intros Hl Ho Hne. unfold acquireExecutionLock. rewrite Hl.
  case_bool_decide as Hs; (split; [split; [done|]; intros; try done; lia|]); split; try done.
  intros _. split; [apply lookup_insert_eq|].
  assert (isExecutionLockOwner (<[name:=ExecutionLock owner' now now]> db) name owner = false) as E.
  { unfold isExecutionLockOwner. rewrite lookup_insert_eq. simpl. by apply bool_decide_eq_false. }
  unfold heartbeatExecutionLock, releaseExecutionLock. by rewrite E.
Qed.

Lemma lock_takeover_witness :
  (acquireExecutionLock lock_example "backup" "b" None 1800001).1 = true.
Proof.
  pose proof (lock_takeover lock_example "backup" "a" "b" (ExecutionLock "a" 0 0) None 1800001
    eq_refl eq_refl ltac:(discriminate)) as H.
  destruct (acquireExecutionLock lock_example "backup" "b" None 1800001) as [r db'].
  apply H. reflexivity.
Defined.
