(* ===== verification/OpsRuns.v ===== *)
(** * Runs of the scheduled operations tasks

    packages/db/src/repositories/ops-runs.ts, over the table [ops_runs], and
    [runTrackedTask] of apps/ops/src/runner.ts.  The column [summary_json]
    holds the JSON value itself.  Times are milliseconds; the identifiers
    [randomUUID] returns are arguments. *)
From S2P Require Import Prelude Sql Json.
Open Scope Z_scope.

Inductive OpsTask := health | maintenance.
Inductive OpsRunStatus := ops_running | ops_completed | ops_failed | ops_interrupted.
(** The status a run may be finished with. *)
Inductive OpsFinish := finish_completed | finish_failed.
Inductive OpsTaskStatus := never_run | task_running | task_ready | task_failed | task_stale.

Global Instance OpsTask_eq_dec : EqDecision OpsTask.
Proof. solve_decision. Defined.
Global Instance OpsRunStatus_eq_dec : EqDecision OpsRunStatus.
Proof. solve_decision. Defined.

Record ops_run := OpsRun {
  or_id : string;
  or_task : OpsTask;
  or_status : OpsRunStatus;
  or_started_at : Z;
  or_heartbeat_at : Z;
  or_finished_at : option Z;
  or_summary_json : option json;
  or_error : option string
}.

Record OpsTaskOverview := Overview {
  ov_task : OpsTask;
  ov_status : OpsTaskStatus;
  ov_lastRunAt : option Z;
  ov_lastSuccessAt : option Z;
  ov_lastDurationMs : option Z;
  ov_error : option string
}.

Definition STALE_HEARTBEAT_MS : Z := 2 * 60 * 1000.
Definition SUCCESS_MAX_AGE_MS (t : OpsTask) : Z :=
  match t with health => 45 * 60 * 1000 | maintenance => 48 * 60 * 60 * 1000 end.

Definition task_name (t : OpsTask) : string :=
  match t with health => "health" | maintenance => "maintenance" end.

(** [value is OpsTask]. *)
Definition isOpsTask (value : string) : bool := bool_decide (value ∈ ["health"; "maintenance"]).

Notation ops_table := (list ops_run).
Notation ops_prog := (prog (list ops_run)).

Definition is_running (r : ops_run) : bool := bool_decide (or_status r = ops_running).
Definition of_task (t : OpsTask) (r : ops_run) : bool := bool_decide (or_task r = t).

(** ORDER BY started_at DESC, id DESC. *)
Definition newest_first (a b : ops_run) : bool :=
  bool_decide (or_started_at b < or_started_at a) ||
  (bool_decide (or_started_at a = or_started_at b) && String.leb (or_id b) (or_id a)).

(** ORDER BY started_at DESC. *)
Definition latest_started (a b : ops_run) : bool := bool_decide (or_started_at b ≤ or_started_at a).

Definition stale_running (cutoff : Z) (r : ops_run) : bool :=
  is_running r && bool_decide (or_heartbeat_at r < cutoff).
Definition interrupt (now : Z) (r : ops_run) : ops_run :=
  OpsRun (or_id r) (or_task r) ops_interrupted (or_started_at r) (or_heartbeat_at r) (Some now)
    (or_summary_json r) (coalesce (or_error r) (Some "run heartbeat expired")).

Definition recoverStaleOpsRuns (now : Z) (staleAfterMs : option Z) : ops_prog nat := λ db,
  let cutoff := now - (staleAfterMs ⁇ STALE_HEARTBEAT_MS) in
  (inr (count_where (stale_running cutoff) db),
   update_where (stale_running cutoff) (interrupt now) db).

(** The record of a row, whose [summary] is the stored object or null. *)
Definition parseSummary (v : option json) : option json :=
  match v with Some (JObj ps) => Some (JObj ps) | _ => None end.
Definition mapOpsRun (r : ops_run) : ops_run :=
  OpsRun (or_id r) (or_task r) (or_status r) (or_started_at r) (or_heartbeat_at r)
    (or_finished_at r) (parseSummary (or_summary_json r)) (or_error r).

(** INSERT with the primary key checked. *)
Definition insert_ops_run (r : ops_run) : ops_prog unit := λ db,
  if isSome (by_key or_id (or_id r) db)
  then (inl (SqliteError "SQLITE_CONSTRAINT_PRIMARYKEY"), db)
  else (inr tt, insert_row r db).

Definition startOpsRun (id : string) (task : OpsTask) (now : Z) : ops_prog ops_run :=
  transaction (
    _ ← recoverStaleOpsRuns now None;
    running ← gets (first_by latest_started (λ r, of_task task r && is_running r));
    _ ← guard_throw (isSome running) (Error (task_name task +:+ " operation is already running"));
    let row := OpsRun id task ops_running now now None None None in
    _ ← insert_ops_run row;
    mret (mapOpsRun row)).

Definition live_run (runId : string) (r : ops_run) : bool := has_key or_id runId r && is_running r.

Definition heartbeatOpsRun (runId : string) (now : Z) : ops_prog bool := λ db,
  (inr (bool_decide (count_where (live_run runId) db = 1%nat)),
   update_where (live_run runId)
     (λ r, OpsRun (or_id r) (or_task r) (or_status r) (or_started_at r) now (or_finished_at r)
             (or_summary_json r) (or_error r)) db).

(** DELETE of the finished runs of a task beyond the 30 newest. *)
Definition finished_of (task : OpsTask) (r : ops_run) : bool := of_task task r && negb (is_running r).
Definition retainOpsRuns (task : OpsTask) : ops_prog unit := λ db,
  (inr tt, delete_where (λ r, of_task task r &&
     bool_decide (or_id r ∈ beyond or_id newest_first (finished_of task) 30 db)) db).

Definition finish_status (o : OpsFinish) : OpsRunStatus :=
  match o with finish_completed => ops_completed | finish_failed => ops_failed end.
Definition finish_row (status : OpsFinish) (t : Z) (summary : option json) (error : option string)
    (r : ops_run) : ops_run :=
  OpsRun (or_id r) (or_task r) (finish_status status) (or_started_at r) t (Some t) summary error.

Definition finishOpsRun (runId : string) (status : OpsFinish) (summary : option json)
    (error : option string) (finishedAt : Z) : ops_prog (option ops_run) :=
  transaction (λ db,
    let db1 := update_where (live_run runId) (finish_row status finishedAt summary error) db in
    if bool_decide (count_where (live_run runId) db = 1%nat) then
      match by_key or_id runId db1 with
      | Some row => (_ ← retainOpsRuns (or_task row); mret (Some (mapOpsRun row))) db1
      | None => (inr None, db1)
      end
    else (inr None, db1)).

(** [Math.trunc] of the requested limit is taken by the caller's integer. *)
Definition listOpsRuns (db : ops_table) (task : option OpsTask) (limit : option Z) : list ops_run :=
  let n := Z.to_nat (Z.min (Z.max (limit ⁇ 50) 1) 100) in
  mapOpsRun <$> take n (order_by newest_first
    (match task with Some t => select (of_task t) db | None => db end)).

Definition emptyOverview (task : OpsTask) : OpsTaskOverview :=
  Overview task never_run None None None None.

Definition getOpsTaskOverview (db : ops_table) (task : OpsTask) (now : Z) : OpsTaskOverview :=
  let rows := order_by newest_first (select (of_task task) db) in
  match rows with
  | [] => emptyOverview task
  | latest :: _ =>
      let latestSuccess := get_row (λ r, bool_decide (or_status r = ops_completed)) rows in
      let lastSuccessAt := latestSuccess ≫= or_finished_at in
      let lastDurationMs := (λ f, Z.max 0 (f - or_started_at latest)) <$> or_finished_at latest in
      let status :=
        match or_status latest with
        | ops_running =>
            if bool_decide (STALE_HEARTBEAT_MS < now - or_heartbeat_at latest)
            then task_stale else task_running
        | ops_failed | ops_interrupted => task_failed
        | ops_completed =>
            match lastSuccessAt with
            | None => task_stale
            | Some t => if bool_decide (SUCCESS_MAX_AGE_MS task < now - t) then task_stale else task_ready
            end
        end in
      Overview task status (Some (or_started_at latest)) lastSuccessAt lastDurationMs (or_error latest)
  end.

Definition getSystemOperations (db : ops_table) (task : option OpsTask) (limit : option Z) (now : Z)
    : OpsTaskOverview * OpsTaskOverview * list ops_run :=
  (getOpsTaskOverview db health now, getOpsTaskOverview db maintenance now, listOpsRuns db task limit).

(** [runTrackedTask]: the body [execute] is any computation on the table (its
    other effects are outside it), [sanitize] turns its error into the stored
    text. *)
Definition runTrackedTask {T} (id : string) (task : OpsTask) (now finishedAt : Z)
    (sanitize : exn → string) (execute : ops_prog (T * json)) : ops_prog T :=
  run ← startOpsRun id task now;
  try_catch
    (p ← execute;
     finished ← finishOpsRun (or_id run) finish_completed (Some p.2) None finishedAt;
     _ ← guard_throw (negb (isSome finished))
           (Error (task_name task +:+ " operation lifecycle was interrupted"));
     mret p.1)
    (λ error,
     _ ← finishOpsRun (or_id run) finish_failed None (Some (sanitize error)) finishedAt;
     throw error).

(** ** The invariant of the table *)
Record ops_ok (db : ops_table) : Prop := {
  ops_unique : unique_keys or_id db;
  ops_one_running : ∀ r1 r2, In r1 db → In r2 db → or_task r1 = or_task r2 →
    is_running r1 = true → is_running r2 = true → r1 = r2
}.

(** An update that keeps the identity of a run and starts none. *)
Record run_update (f : ops_run → ops_run) : Prop := {
  upd_id : ∀ r, or_id (f r) = or_id r;
  upd_task : ∀ r, or_task (f r) = or_task r;
  upd_running : ∀ r, is_running (f r) = true → is_running r = true
}.

Lemma ops_ok_update p f db : run_update f → ops_ok db → ops_ok (update_where p f db).
Proof.
  intros [Hid Htask Hrun] [Hu Ho]. split; [by apply unique_keys_update|].
  intros r1 r2 (x1 & Hx1 & ->)%update_where_In (x2 & Hx2 & ->)%update_where_In Ht R1 R2.
  enough (x1 = x2) as -> by done. apply Ho; [done..| | |].
  - destruct (p x1), (p x2); rewrite ?Htask in Ht; done.
  - destruct (p x1); auto.
  - destruct (p x2); auto.
Qed.

Lemma ops_ok_delete p db : ops_ok db → ops_ok (delete_where p db).
Proof.
  intros [Hu Ho]. split; [by apply unique_keys_delete|].
  intros r1 r2 [? _]%delete_where_In [? _]%delete_where_In. auto.
Qed.

Lemma ops_ok_insert r db :
  ops_ok db → by_key or_id (or_id r) db = None →
  get_row (λ x, of_task (or_task r) x && is_running x) db = None →
  ops_ok (insert_row r db).
Proof.
  intros [Hu Ho] Hn Hr. split; [by apply unique_keys_insert|].
  rewrite get_row_None in Hr.
  assert (∀ x, In x db → or_task x = or_task r → is_running x = true → False) as Hx.
  { intros x Hx Ht Hrun. specialize (Hr x Hx). unfold of_task in Hr.
    rewrite bool_decide_true in Hr by done. rewrite Hrun in Hr. done. }
  intros r1 r2 [?| ->]%insert_row_In [?| ->]%insert_row_In Ht ??; [by apply Ho|exfalso; eauto|exfalso; eauto|done].
Qed.

Lemma interrupt_update now : run_update (interrupt now).
Proof. split; done. Qed.
Lemma finish_update st t su e : run_update (finish_row st t su e).
Proof. split; [done..|]. by destruct st. Qed.
#[export] Hint Resolve interrupt_update finish_update ops_ok_update ops_ok_delete : ops.

Lemma keeps_recover now stale : keeps ops_ok (recoverStaleOpsRuns now stale).
Proof. intros db H. simpl. auto with ops. Qed.

Lemma keeps_retain task : keeps ops_ok (retainOpsRuns task).
Proof. intros db H. simpl. auto with ops. Qed.

Lemma first_by_running task db :
  first_by latest_started (λ r, of_task task r && is_running r) db = None →
  get_row (λ r, of_task task r && is_running r) db = None.
Proof. intros H. apply get_row_None. by apply (first_by_None latest_started). Qed.

Lemma keeps_start id task now : keeps ops_ok (startOpsRun id task now).
Proof.
  apply keeps_transaction. apply keeps_bind; [apply keeps_recover|]. intros _ db Hok.
  unfold mbind, prog_bind, gets, guard_throw, insert_ops_run. simpl.
  destruct (first_by _ _ db) eqn:E; simpl; [done|].
  destruct (by_key or_id id db) eqn:Ek; simpl; [done|].
  apply ops_ok_insert; [done..|]. by apply first_by_running.
Qed.

Lemma keeps_heartbeat runId now : keeps ops_ok (heartbeatOpsRun runId now).
Proof. intros db H. simpl. apply ops_ok_update; [|done]. split; done. Qed.

Lemma keeps_finish runId st su e t : keeps ops_ok (finishOpsRun runId st su e t).
Proof.
  apply keeps_transaction. intros db Hok.
  assert (ops_ok (update_where (live_run runId) (finish_row st t su e) db)) by auto with ops.
  cbv beta zeta. case_bool_decide; [|done]. destruct (by_key or_id runId _); [|done].
  by apply ops_ok_delete.
Qed.

Lemma keeps_tracked {T} id task now t san (ex : ops_prog (T * json)) :
  keeps ops_ok ex → keeps ops_ok (runTrackedTask id task now t san ex).
Proof.
  intros Hex. apply keeps_bind; [apply keeps_start|]. intros run. apply keeps_try.
  - apply keeps_bind; [done|]. intros p. apply keeps_bind; [apply keeps_finish|].
    intros fin. apply keeps_bind; [apply keeps_guard|]. intros _. apply keeps_ret.
  - intros e. apply keeps_bind; [apply keeps_finish|]. intros _. apply keeps_throw.
Qed.

(** The tables the repository's operations lead to, in any order and with any
    arguments, throws included. *)
Inductive ops_reachable : ops_table → Prop :=
| reach_empty : ops_reachable []
| reach_recover db now stale :
    ops_reachable db → ops_reachable (recoverStaleOpsRuns now stale db).2
| reach_start db id task now :
    ops_reachable db → ops_reachable (startOpsRun id task now db).2
| reach_heartbeat db id now :
    ops_reachable db → ops_reachable (heartbeatOpsRun id now db).2
| reach_finish db id st su e t :
    ops_reachable db → ops_reachable (finishOpsRun id st su e t db).2.

(** C20: In every reachable table of ops_runs the run ids are distinct and
    each task has at most one run in status running. *)
Theorem ops_single_running db :
  ops_reachable db →
  unique_keys or_id db ∧
  ∀ task, (count_where (λ r, of_task task r && is_running r) db ≤ 1)%nat.
Proof.
  intros H. assert (ops_ok db) as [Hu Ho].
  { induction H; [split; [constructor|done]|by apply keeps_recover|by apply keeps_start
      |by apply keeps_heartbeat|by apply keeps_finish]. }
  split; [done|]. intros task.
  destruct (select (λ r, of_task task r && is_running r) db) as [|r1 l] eqn:E;
    unfold count_where; rewrite E; simpl; [lia|].
  assert (∀ r, In r (r1 :: l) → r = r1) as Hall.
  { assert (∀ r, In r (r1 :: l) → In r db ∧ or_task r = task ∧ is_running r = true) as Hin.
    { intros r. rewrite <-E, select_In. intros [Hr [Ht ?]%andb_prop].
      by apply bool_decide_eq_true in Ht. }
    intros r Hr. destruct (Hin r Hr) as (?&?&?), (Hin r1 (or_introl eq_refl)) as (?&?&?).
    apply Ho; congruence. }
  assert (NoDup (r1 :: l)) as Hnd.
  { rewrite <-E. apply (NoDup_fmap_1 or_id).
    assert (select (λ r, of_task task r && is_running r) db =
      delete_where (λ r, negb (of_task task r && is_running r)) db) as ->.
    { unfold select, delete_where. apply filter_ext. intros r. by rewrite negb_involutive. }
    by apply unique_keys_delete. }
  destruct l as [|r2 l]; simpl; [lia|].
  exfalso. rewrite NoDup_cons, list_elem_of_In in Hnd. apply (proj1 Hnd).
  rewrite <-(Hall r2) by (right; by left). by left.
Qed.

Lemma ops_single_running_witness :
  (count_where (λ r, of_task health r && is_running r)
     (startOpsRun "2" health 200000 (startOpsRun "1" health 0 []).2).2 ≤ 1)%nat.
Proof. apply ops_single_running. repeat constructor. Defined.

(** A task starts exactly when no run of it is live: [startOpsRun] throws,
    and leaves the table as it was, when a running run of the task has a
    heartbeat at most two minutes old; otherwise, with a fresh id, the stale
    runs become interrupted and the new run is added, running. *)
Theorem startOpsRun_spec id task now db :
  by_key or_id id db = None →
  let recovered := update_where (stale_running (now - STALE_HEARTBEAT_MS)) (interrupt now) db in
  startOpsRun id task now db =
    if exists_where (λ r, of_task task r && is_running r &&
                          bool_decide (now - STALE_HEARTBEAT_MS ≤ or_heartbeat_at r)) db
    then (inl (Error (task_name task +:+ " operation is already running")), db)
    else let row := OpsRun id task ops_running now now None None None in
         (inr row, insert_row row recovered).
Proof.
  intros Hid recovered. unfold startOpsRun, transaction, mbind, prog_bind, gets, insert_ops_run.
  cbv beta. simpl. fold recovered.
  assert (by_key or_id id recovered = None) as Hid'.
  { unfold recovered. rewrite by_key_update by done. by rewrite Hid. }
  destruct (exists_where _ db) eqn:E.
  - apply exists_where_true in E as (r & Hr & [[Ht Hrun]%andb_prop Hh]%andb_prop).
    assert (In r recovered) as Hr'.
    { apply update_where_In. exists r. split; [done|]. unfold stale_running.
      apply bool_decide_eq_true in Hh. rewrite (bool_decide_false (_ < _)) by lia.
      by rewrite andb_false_r. }
    destruct (first_by latest_started (λ r, of_task task r && is_running r) recovered) eqn:Ef;
      [done|]. rewrite first_by_None in Ef.
    specialize (Ef r Hr'). rewrite Ht, Hrun in Ef. done.
  - rewrite exists_where_false in E.
    assert (first_by latest_started (λ r, of_task task r && is_running r) recovered = None) as ->.
    { apply first_by_None. intros r (x & Hx & ->)%update_where_In. specialize (E x Hx).
      unfold stale_running. destruct (is_running x) eqn:Hx'; simpl.
      - destruct (decide (or_heartbeat_at x < now - STALE_HEARTBEAT_MS)) as [Hh|Hh].
        + rewrite (bool_decide_true (_ < _)) by done. apply andb_false_r.
        + rewrite (bool_decide_false (_ < _)) by done. rewrite Hx'.
          rewrite (bool_decide_true (_ ≤ _)) in E by lia. by rewrite andb_true_r in E.
      - by rewrite Hx', andb_false_r. }
    simpl. by rewrite Hid'.
Qed.

Lemma startOpsRun_spec_witness :
  (startOpsRun "2" health 120001 (startOpsRun "1" health 0 []).2).1 =
  inr (OpsRun "2" health ops_running 120001 120001 None None None).
Proof. by rewrite (startOpsRun_spec "2" health 120001) by reflexivity. Defined.

(** ** Retention *)
Lemma newest_first_total a b : newest_first a b = true ∨ newest_first b a = true.
Proof.
  unfold newest_first. destruct (Z.lt_trichotomy (or_started_at a) (or_started_at b)) as [H|[H|H]].
  - right. by rewrite bool_decide_true.
  - rewrite !(bool_decide_true (or_started_at _ = or_started_at _)) by done.
    destruct (String.leb_total (or_id a) (or_id b)) as [H'|H']; rewrite H'; [right|left];
      by rewrite orb_true_r.
  - left. by rewrite bool_decide_true.
Qed.

Lemma newest_first_trans a b c :
  newest_first a b = true → newest_first b c = true → newest_first a c = true.
Proof.
  unfold newest_first.
  intros [Ha%bool_decide_eq_true|[Ha%bool_decide_eq_true La]%andb_prop]%orb_prop
         [Hb%bool_decide_eq_true|[Hb%bool_decide_eq_true Lb]%andb_prop]%orb_prop;
    try (rewrite bool_decide_true by lia; done).
  rewrite (bool_decide_true (or_started_at a = or_started_at c)) by lia.
  rewrite (string_leb_trans _ _ _ Lb La). by rewrite orb_true_r.
Qed.

Lemma retain_eq task db : unique_keys or_id db →
  (retainOpsRuns task db).2 = delete_beyond or_id newest_first (finished_of task) 30 db.
Proof.
  intros Hu. unfold retainOpsRuns, delete_beyond, delete_where. simpl.
  apply filter_ext_in. intros r Hr. f_equal.
  destruct (of_task task r) eqn:E; [done|]. simpl. symmetry. apply bool_decide_eq_false.
  rewrite beyond_In by done. intros Hd.
  assert (In r (order_by newest_first (select (finished_of task) db))) as H.
  { rewrite <-(take_drop 30 (order_by _ _)). apply in_app_iff. by right. }
  apply order_by_In, select_In in H as [_ H]. unfold finished_of in H. by rewrite E in H.
Qed.

Lemma finish_row_key p st su e t db k :
  by_key or_id k (update_where p (finish_row st t su e) db) =
  (λ r, if p r then finish_row st t su e r else r) <$> by_key or_id k db.
Proof. by apply by_key_update. Qed.

(** Finishing a run keeps the table bounded: when [finishOpsRun] returns
    the finished run, at most 30 finished runs of its task remain, no run of
    the other task and no running run is deleted, and every run that is
    deleted is older than every finished run of the task that stays. *)
Theorem finishOpsRun_retention runId st su e t db row db' :
  unique_keys or_id db →
  finishOpsRun runId st su e t db = (inr (Some row), db') →
  let finished := update_where (live_run runId) (finish_row st t su e) db in
  let task := or_task row in
  (count_where (finished_of task) db' ≤ 30)%nat ∧
  (∀ r, In r finished → finished_of task r = false → In r db') ∧
  (∀ r r', In r finished → ¬ In r db' → In r' db' → finished_of task r' = true →
     newest_first r' r = true).
Proof.
  intros Hu H finished task. unfold finishOpsRun, transaction in H. cbv beta zeta in H.
  fold finished in H. case_bool_decide; [|done].
  destruct (by_key or_id runId finished) as [r0|] eqn:E; [|done].
  unfold mbind, prog_bind, mret, prog_ret in H. simpl in H.
  assert (unique_keys or_id finished) as Huf by (by apply unique_keys_update).
  injection H as Hrow Hdb'.
  assert (task = or_task r0) as Ht by (unfold task; by rewrite <-Hrow).
  pose proof (retain_eq (or_task r0) finished Huf) as Hret. simpl in Hret.
  rewrite Hdb', <-Ht in Hret. rewrite Hret. repeat split.
  - rewrite delete_beyond_count by done. lia.
  - intros r Hr Hf. by rewrite delete_beyond_other.
  - intros r r' Hr Hg Hr' Hf. eapply delete_beyond_before;
      eauto using newest_first_total, newest_first_trans.
Qed.

Definition ops_history : ops_table :=
  OpsRun "live" health ops_running 100 100 None None None ::
  ((λ i, OpsRun (String (Ascii.ascii_of_nat i) "") health ops_completed (Z.of_nat i) (Z.of_nat i)
           (Some (Z.of_nat i)) None None) <$> seq 1 40).

Lemma finishOpsRun_retention_witness :
  (count_where (finished_of health) (finishOpsRun "live" finish_completed None None 200 ops_history).2
     ≤ 30)%nat.
Proof.
  refine (proj1 (finishOpsRun_retention "live" finish_completed None None 200 ops_history
    (OpsRun "live" health ops_completed 100 200 (Some 200) None None) _ _ _)).
  - apply (bool_decide_eq_true_1 (NoDup _)). by vm_compute.
  - by vm_compute.
Defined.

(** ** Tracked tasks *)
Lemma finish_not_running runId st su e t db r :
  In r (finishOpsRun runId st su e t db).2 → or_id r = runId → is_running r = false.
Proof.
  assert (In r (update_where (live_run runId) (finish_row st t su e) db) →
    or_id r = runId → is_running r = false) as Hup.
  { intros (x & Hx & ->)%update_where_In Hid. unfold live_run, has_key in *.
    destruct (bool_decide (or_id x = runId) && is_running x) eqn:E; [by destruct st|].
    rewrite bool_decide_true in E by done. done. }
  unfold finishOpsRun, transaction. cbv beta zeta.
  case_bool_decide; [|by apply Hup]. destruct (by_key or_id runId _); [|by apply Hup].
  simpl. intros [Hr _]%delete_where_In Hid. by apply Hup.
Qed.

Lemma finish_returns runId st su e t db : ∃ o db', finishOpsRun runId st su e t db = (inr o, db').
Proof.
  unfold finishOpsRun, transaction. cbv beta zeta.
  case_bool_decide; [|by eauto]. destruct (by_key or_id runId _); by eauto.
Qed.

(** A tracked task never leaves its run open.  Whatever the task's body
    does - return, throw, or tamper with the table - once [runTrackedTask] is
    over no row of its run is running; it returns only a value the body
    returned, and rethrows the body's error. *)
Theorem runTrackedTask_settles {T} id task now t san (ex : ops_prog (T * json)) db run db1 res db' :
  startOpsRun id task now db = (inr run, db1) →
  runTrackedTask id task now t san ex db = (res, db') →
  (∀ r, In r db' → or_id r = id → is_running r = false) ∧
  match (ex db1).1 with
  | inl e => res = inl e
  | inr p => res = inr p.1 ∨ res = inl (Error (task_name task +:+ " operation lifecycle was interrupted"))
  end.
Proof.
  intros Hs H. unfold runTrackedTask, mbind, prog_bind in H. rewrite Hs in H.
  assert (or_id run = id) as Hid.
  { unfold startOpsRun, transaction, mbind, prog_bind, insert_ops_run, guard_throw in Hs.
    simpl in Hs. destruct (first_by _ _ _); simpl in Hs; [done|].
    destruct (by_key or_id id _); simpl in Hs; [done|]. by simplify_eq. }
  rewrite Hid in H. clear Hid. unfold try_catch in H.
  destruct (ex db1) as [[e|[v su]] db2]; simpl in *.
  - destruct (finish_returns id finish_failed None (Some (san e)) t db2) as (o & db3 & E).
    rewrite E in H. unfold throw in H. simplify_eq. split; [|done].
    intros r Hr. apply (finish_not_running id finish_failed None (Some (san e)) t db2). by rewrite E.
  - destruct (finish_returns id finish_completed (Some su) None t db2) as (o & db3 & E).
    rewrite E in H. destruct o; simpl in H.
    + unfold mret, prog_ret in H. simplify_eq. split; [|by left].
      intros r' Hr. apply (finish_not_running id finish_completed (Some su) None t db2). by rewrite E.
    + set (err := Error _) in *.
      destruct (finish_returns id finish_failed None (Some (san err)) t db3) as (o & db4 & E2).
      rewrite E2 in H. unfold throw in H. simplify_eq. split; [|by right].
      intros r' Hr. apply (finish_not_running id finish_failed None (Some (san err)) t db3). by rewrite E2.
Qed.

Definition failing_body : ops_prog (unit * json) := throw (Error "disk full").

Lemma runTrackedTask_settles_witness :
  (runTrackedTask "1" health 0 5 exn_message failing_body []).1 = inl (Error "disk full").
Proof.
  exact (proj2 (runTrackedTask_settles "1" health 0 5 exn_message failing_body [] _ _ _ _
    eq_refl (surjective_pairing _))).
Defined.
