(* ===== verification/Downloads.v ===== *)
(** * Download tasks

    packages/db/src/repositories/downloads.ts: the queue of download tasks the
    API fills and the download workers lease.  The store holds the task table
    and the tables that reference it; the deletion of a task cascades to its
    segments, its journal and its reservation.  Sizes are the numbers of the
    caller, floored as the code floors them. *)
From Stdlib Require Import QArith Qround.
From S2P Require Import Prelude Sql JsString.
Open Scope Z_scope.

Inductive DownloadTaskStatus := queued | running | paused | completed | failed | cancelled.
Inductive DownloadTaskPhase := probing | downloading | verifying | publishing | retry_wait.
Inductive DownloadMode := mode_single | mode_segmented.
Inductive DownloadControlRequest := ctl_pause | ctl_cancel.
Inductive DownloadErrorCode :=
| err_dns | err_ssrf_blocked | err_connect | err_timeout | err_tls | err_http_status
| err_redirect_policy | err_range_protocol | err_source_changed | err_size_limit
| err_disk_space | err_storage | err_target_conflict | err_checksum_mismatch
| err_permission | err_database | err_internal.

Global Instance DownloadTaskStatus_eq_dec : EqDecision DownloadTaskStatus.
Proof. solve_decision. Defined.
Global Instance DownloadTaskPhase_eq_dec : EqDecision DownloadTaskPhase.
Proof. solve_decision. Defined.
Global Instance DownloadMode_eq_dec : EqDecision DownloadMode.
Proof. solve_decision. Defined.
Global Instance DownloadControlRequest_eq_dec : EqDecision DownloadControlRequest.
Proof. solve_decision. Defined.
Global Instance DownloadErrorCode_eq_dec : EqDecision DownloadErrorCode.
Proof. solve_decision. Defined.

Record DownloadTaskRecord := DownloadTask {
  dt_id : string;
  dt_url : string;
  dt_rootId : string;
  dt_storagePoolId : string;
  dt_targetDirectory : string;
  dt_targetFileName : string;
  dt_targetPath : string;
  dt_partialPath : string;
  dt_status : DownloadTaskStatus;
  dt_receivedBytes : Z;
  dt_totalBytes : option Z;
  dt_speed : Z;
  dt_etag : option string;
  dt_lastModified : option string;
  dt_error : option string;
  dt_workerId : option string;
  dt_leaseExpiresAt : option Z;
  dt_createdAt : Z;
  dt_updatedAt : Z;
  dt_startedAt : option Z;
  dt_finishedAt : option Z;
  dt_lastProgressAt : option Z;
  dt_fileOperationId : option string;
  dt_phase : option DownloadTaskPhase;
  dt_downloadMode : option DownloadMode;
  dt_expectedSha256 : option string;
  dt_actualSha256 : option string;
  dt_errorCode : option DownloadErrorCode;
  dt_errorRetryable : bool;
  dt_retryCount : Z;
  dt_nextRetryAt : option Z;
  dt_controlRequested : option DownloadControlRequest;
  dt_segmentCount : Z
}.

Global Instance DownloadTaskRecord_eq_dec : EqDecision DownloadTaskRecord.
Proof. solve_decision. Defined.

#[export] Instance eta_task : Eta DownloadTaskRecord := λ r,
  DownloadTask (dt_id r) (dt_url r) (dt_rootId r) (dt_storagePoolId r) (dt_targetDirectory r)
    (dt_targetFileName r) (dt_targetPath r) (dt_partialPath r) (dt_status r)
    (dt_receivedBytes r) (dt_totalBytes r) (dt_speed r) (dt_etag r) (dt_lastModified r)
    (dt_error r) (dt_workerId r) (dt_leaseExpiresAt r) (dt_createdAt r) (dt_updatedAt r)
    (dt_startedAt r) (dt_finishedAt r) (dt_lastProgressAt r) (dt_fileOperationId r)
    (dt_phase r) (dt_downloadMode r) (dt_expectedSha256 r) (dt_actualSha256 r)
    (dt_errorCode r) (dt_errorRetryable r) (dt_retryCount r) (dt_nextRetryAt r)
    (dt_controlRequested r) (dt_segmentCount r).

(** A row of download_workers, and the database: the ids of nas_roots and of
    file_operations, which the task table references, and the task ids of the
    rows of download_publish_journal, download_segments and
    download_space_reservations, which reference it. *)
Record download_worker := DownloadWorker { dw_id : string; dw_heartbeat_at : Z }.
Record download_db := DownloadDb {
  dl_tasks : list DownloadTaskRecord;
  dl_roots : list string;
  dl_file_operations : list string;
  dl_journal : list string;
  dl_segments : list string;
  dl_reservations : list string;
  dl_workers : list download_worker
}.
#[export] Instance eta_download_db : Eta download_db := λ d,
  DownloadDb (dl_tasks d) (dl_roots d) (dl_file_operations d) (dl_journal d) (dl_segments d)
    (dl_reservations d) (dl_workers d).

Notation dl_prog := (prog download_db).

Definition is_status (s : DownloadTaskStatus) (r : DownloadTaskRecord) : bool :=
  bool_decide (dt_status r = s).
Definition journaled (d : download_db) (r : DownloadTaskRecord) : bool :=
  bool_decide (dt_id r ∈ dl_journal d).
Definition same_target (rootId pool path : string) (r : DownloadTaskRecord) : bool :=
  bool_decide (dt_rootId r = rootId) && bool_decide (dt_storagePoolId r = pool) &&
  bool_decide (dt_targetPath r = path).

Definition getDownloadTask (id : string) (d : download_db) : option DownloadTaskRecord :=
  by_key dt_id id (dl_tasks d).

Definition getRequiredDownloadTask (id : string) : dl_prog DownloadTaskRecord :=
  o ← gets (getDownloadTask id);
  match o with
  | Some t => mret t
  | None => throw (Error "Download task not found after write")
  end.

Record download_input := DownloadInput {
  in_url : string;
  in_rootId : string;
  in_storagePoolId : string;
  in_targetDirectory : string;
  in_targetFileName : string;
  in_targetPath : string;
  in_expectedSha256 : option string;
  in_partialPath : option string
}.

Definition valid_sha_column (o : option string) : bool :=
  match o with
  | None => true
  | Some s => bool_decide (len s = 64) && bool_decide (sqlite_lower s = s)
  end.

Definition insert_download_task (r : DownloadTaskRecord) : dl_prog unit := λ d,
  if negb (valid_sha_column (dt_expectedSha256 r))
  then (inl (SqliteError "SQLITE_CONSTRAINT_CHECK"), d)
  else if isSome (by_key dt_id (dt_id r) (dl_tasks d))
  then (inl (SqliteError "SQLITE_CONSTRAINT_PRIMARYKEY"), d)
  else if exists_where (same_target (dt_rootId r) (dt_storagePoolId r) (dt_targetPath r)) (dl_tasks d)
  then (inl (SqliteError "SQLITE_CONSTRAINT_UNIQUE"), d)
  else if negb (bool_decide (dt_rootId r ∈ dl_roots d))
  then (inl (SqliteError "SQLITE_CONSTRAINT_FOREIGNKEY"), d)
  else (inr tt, d <| dl_tasks := insert_row r (dl_tasks d) |>).

Definition createDownloadTask (id : string) (input : download_input) (now : Z)
    : dl_prog DownloadTaskRecord :=
  let partialPath := in_partialPath input ⁇
    (in_targetDirectory input +:+ "/." +:+ id +:+ ".zos-download.part") in
  _ ← insert_download_task
        (DownloadTask id (in_url input) (in_rootId input) (in_storagePoolId input)
           (in_targetDirectory input) (in_targetFileName input) (in_targetPath input) partialPath
           queued 0 None 0 None None None None None now now None None None None None None
           (in_expectedSha256 input) None None false 0 None None 0);
  getRequiredDownloadTask id.

Definition newest_task (a b : DownloadTaskRecord) : bool := bool_decide (dt_createdAt b ≤ dt_createdAt a).

Definition listDownloadTasks (statuses : list DownloadTaskStatus) (limit : option Z) (d : download_db)
    : list DownloadTaskRecord :=
  let limit := Z.max 1 (Z.min (limit ⁇ 500) 1000) in
  let where_ r := match statuses with [] => true | _ => bool_decide (dt_status r ∈ statuses) end in
  take (Z.to_nat limit) (order_by newest_task (select where_ (dl_tasks d))).

Definition recover_task (now : Z) (r : DownloadTaskRecord) : DownloadTaskRecord :=
  r <| dt_status := match dt_controlRequested r with
                    | Some ctl_pause => paused
                    | Some ctl_cancel => cancelled
                    | None => queued
                    end |>
    <| dt_workerId := None |> <| dt_leaseExpiresAt := None |> <| dt_speed := 0 |>
    <| dt_phase := None |> <| dt_controlRequested := None |>
    <| dt_finishedAt := match dt_controlRequested r with Some ctl_cancel => Some now | _ => None end |>
    <| dt_updatedAt := now |>.

Definition expired (d : download_db) (now : Z) (r : DownloadTaskRecord) : bool :=
  is_status running r && (is_null (dt_leaseExpiresAt r) || le_col (dt_leaseExpiresAt r) now) &&
  negb (journaled d r).

Definition recoverExpiredDownloadTasks (now : Z) (d : download_db) : nat * download_db :=
  let tasks := update_where (expired d now) (recover_task now) (dl_tasks d) in
  let idle := dt_id <$> select (λ r, negb (is_status running r)) tasks in
  (count_where (expired d now) (dl_tasks d),
   d <| dl_tasks := tasks |>
     <| dl_reservations := List.filter (λ k, negb (bool_decide (k ∈ idle))) (dl_reservations d) |>).

Definition claimable (d : download_db) (now : Z) (r : DownloadTaskRecord) : bool :=
  is_status queued r && (is_null (dt_nextRetryAt r) || le_col (dt_nextRetryAt r) now) &&
  negb (journaled d r).

Definition claim_rank (r : DownloadTaskRecord) : Z := dt_nextRetryAt r ⁇ dt_createdAt r.
Definition claim_order (a b : DownloadTaskRecord) : bool :=
  bool_decide (claim_rank a < claim_rank b) ||
  (bool_decide (claim_rank a = claim_rank b) && bool_decide (dt_createdAt a ≤ dt_createdAt b)).

Definition claim_task (workerId : string) (lease now : Z) (r : DownloadTaskRecord) : DownloadTaskRecord :=
  r <| dt_status := running |> <| dt_workerId := Some workerId |>
    <| dt_leaseExpiresAt := Some lease |> <| dt_startedAt := coalesce (dt_startedAt r) (Some now) |>
    <| dt_finishedAt := None |> <| dt_error := None |> <| dt_errorCode := None |>
    <| dt_errorRetryable := false |> <| dt_phase := Some probing |> <| dt_nextRetryAt := None |>
    <| dt_controlRequested := None |> <| dt_updatedAt := now |>.

Definition claimNextDownloadTask (workerId : string) (leaseMs now : Z) (d : download_db)
    : option DownloadTaskRecord * download_db :=
  let d := (recoverExpiredDownloadTasks now d).2 in
  match first_by claim_order (claimable d now) (dl_tasks d) with
  | None => (None, d)
  | Some next =>
      let q r := has_key dt_id (dt_id next) r && is_status queued r in
      let f := claim_task workerId (now + leaseMs) now in
      (returning q f (dl_tasks d), d <| dl_tasks := update_where q f (dl_tasks d) |>)
  end.

(** [WHERE id = ? AND status = 'running' AND worker_id = ?], and the same for
    a holder that has not been asked to stop. *)
Definition held (id workerId : string) (r : DownloadTaskRecord) : bool :=
  has_key dt_id id r && is_status running r && eq_col (dt_workerId r) workerId.
Definition undisturbed (id workerId : string) (r : DownloadTaskRecord) : bool :=
  held id workerId r && is_null (dt_controlRequested r).

Definition renewDownloadTaskLease (id workerId : string) (leaseMs now : Z) (d : download_db)
    : bool * download_db :=
  (bool_decide (count_where (undisturbed id workerId) (dl_tasks d) = 1%nat),
   d <| dl_tasks := update_where (undisturbed id workerId)
          (λ r, r <| dt_leaseExpiresAt := Some (now + leaseMs) |> <| dt_updatedAt := now |>)
          (dl_tasks d) |>).

Record download_progress := DownloadProgress {
  pr_receivedBytes : Q;
  pr_totalBytes : option Q;
  pr_speed : Q;
  pr_etag : option string;
  pr_lastModified : option string;
  pr_phase : option DownloadTaskPhase;
  pr_downloadMode : option DownloadMode;
  pr_segmentCount : option Z
}.

Definition whole_bytes (q : Q) : Z := Z.max 0 (Qfloor q).

Definition progress_task (p : download_progress) (lease now : Z) (r : DownloadTaskRecord)
    : DownloadTaskRecord :=
  r <| dt_receivedBytes := whole_bytes (pr_receivedBytes p) |>
    <| dt_totalBytes := whole_bytes <$> pr_totalBytes p |>
    <| dt_speed := whole_bytes (pr_speed p) |>
    <| dt_etag := coalesce (pr_etag p) (dt_etag r) |>
    <| dt_lastModified := coalesce (pr_lastModified p) (dt_lastModified r) |>
    <| dt_phase := coalesce (pr_phase p) (dt_phase r) |>
    <| dt_downloadMode := coalesce (pr_downloadMode p) (dt_downloadMode r) |>
    <| dt_segmentCount := (pr_segmentCount p) ⁇ (dt_segmentCount r) |>
    <| dt_leaseExpiresAt := Some lease |> <| dt_lastProgressAt := Some now |>
    <| dt_updatedAt := now |>.

(** A negative segment count violates the column's CHECK. *)
Definition updateDownloadTaskProgress (id workerId : string) (p : download_progress) (leaseMs now : Z)
    : dl_prog bool := λ d,
  if exists_where (undisturbed id workerId) (dl_tasks d) && bool_decide ((pr_segmentCount p ⁇ 0) < 0)
  then (inl (SqliteError "SQLITE_CONSTRAINT_CHECK"), d)
  else (inr (bool_decide (count_where (undisturbed id workerId) (dl_tasks d) = 1%nat)),
        d <| dl_tasks := update_where (undisturbed id workerId) (progress_task p (now + leaseMs) now)
               (dl_tasks d) |>).

Record download_transition := DownloadTransition {
  tr_from : list DownloadTaskStatus;
  tr_to : DownloadTaskStatus;
  tr_error : option string;
  tr_errorCode : option DownloadErrorCode;
  tr_errorRetryable : bool;
  tr_resetProgress : bool
}.

Definition is_final (s : DownloadTaskStatus) : bool :=
  match s with completed | failed | cancelled => true | _ => false end.

Definition transition_task (tr : download_transition) (now : Z) (r : DownloadTaskRecord)
    : DownloadTaskRecord :=
  let reset := tr_resetProgress tr in
  r <| dt_status := tr_to tr |> <| dt_error := tr_error tr |> <| dt_errorCode := tr_errorCode tr |>
    <| dt_errorRetryable := tr_errorRetryable tr |> <| dt_workerId := None |>
    <| dt_leaseExpiresAt := None |> <| dt_speed := 0 |>
    <| dt_receivedBytes := if reset then 0 else dt_receivedBytes r |>
    <| dt_totalBytes := if reset then None else dt_totalBytes r |>
    <| dt_etag := if reset then None else dt_etag r |>
    <| dt_lastModified := if reset then None else dt_lastModified r |>
    <| dt_actualSha256 := if reset then None else dt_actualSha256 r |>
    <| dt_phase := None |>
    <| dt_downloadMode := if reset then None else dt_downloadMode r |>
    <| dt_segmentCount := if reset then 0 else dt_segmentCount r |>
    <| dt_retryCount := if reset then 0 else dt_retryCount r |>
    <| dt_nextRetryAt := None |> <| dt_controlRequested := None |>
    <| dt_finishedAt := if is_final (tr_to tr) then Some now else None |>
    <| dt_updatedAt := now |>.

Definition drop_ids (id : string) (l : list string) : list string :=
  List.filter (λ k, negb (bool_decide (k = id))) l.

Definition transitionDownloadTask (id : string) (tr : download_transition) (now : Z) (d : download_db)
    : option DownloadTaskRecord * download_db :=
  match tr_from tr with
  | [] => (None, d)
  | _ =>
    let q r := has_key dt_id id r && bool_decide (dt_status r ∈ tr_from tr) in
    let f := transition_task tr now in
    let row := returning q f (dl_tasks d) in
    let d' := d <| dl_tasks := update_where q f (dl_tasks d) |> in
    (row, if isSome row && tr_resetProgress tr
          then d' <| dl_segments := drop_ids id (dl_segments d) |>
                  <| dl_reservations := drop_ids id (dl_reservations d) |>
          else d')
  end.

Definition complete_task (receivedBytes : Q) (totalBytes : option Z) (fileOperationId : string) (now : Z)
    (r : DownloadTaskRecord) : DownloadTaskRecord :=
  let received := whole_bytes receivedBytes in
  r <| dt_status := completed |> <| dt_receivedBytes := received |>
    <| dt_totalBytes := coalesce (coalesce totalBytes (dt_totalBytes r)) (Some received) |>
    <| dt_speed := 0 |> <| dt_workerId := None |> <| dt_leaseExpiresAt := None |>
    <| dt_error := None |> <| dt_errorCode := None |> <| dt_errorRetryable := false |>
    <| dt_phase := None |> <| dt_controlRequested := None |> <| dt_nextRetryAt := None |>
    <| dt_finishedAt := Some now |> <| dt_lastProgressAt := Some now |>
    <| dt_fileOperationId := Some fileOperationId |> <| dt_updatedAt := now |>.

Definition completeDownloadTask (id workerId : string) (receivedBytes : Q) (totalBytes : option Z)
    (fileOperationId : string) (now : Z) : dl_prog (option DownloadTaskRecord) := λ d,
  let f := complete_task receivedBytes totalBytes fileOperationId now in
  match returning (held id workerId) f (dl_tasks d) with
  | None => (inr None, d)
  | Some row =>
      if bool_decide ((totalBytes ⁇ 0) < 0)
      then (inl (SqliteError "SQLITE_CONSTRAINT_CHECK"), d)
      else if negb (bool_decide (fileOperationId ∈ dl_file_operations d))
      then (inl (SqliteError "SQLITE_CONSTRAINT_FOREIGNKEY"), d)
      else (inr (Some row), d <| dl_tasks := update_where (held id workerId) f (dl_tasks d) |>)
  end.

Definition reset_partial (now : Z) (r : DownloadTaskRecord) : DownloadTaskRecord :=
  r <| dt_receivedBytes := 0 |> <| dt_totalBytes := None |> <| dt_speed := 0 |> <| dt_etag := None |>
    <| dt_lastModified := None |> <| dt_actualSha256 := None |> <| dt_downloadMode := None |>
    <| dt_segmentCount := 0 |> <| dt_lastProgressAt := Some now |> <| dt_updatedAt := now |>.

Definition resetDownloadTaskPartialState (id workerId : string) (now : Z) (d : download_db)
    : bool * download_db :=
  (bool_decide (count_where (held id workerId) (dl_tasks d) = 1%nat),
   d <| dl_tasks := update_where (held id workerId) (reset_partial now) (dl_tasks d) |>).

Definition control_task (request : DownloadControlRequest) (now : Z) (r : DownloadTaskRecord)
    : DownloadTaskRecord :=
  r <| dt_controlRequested := match dt_controlRequested r with
                              | Some ctl_cancel => Some ctl_cancel
                              | _ => Some request
                              end |>
    <| dt_updatedAt := now |>.

Definition requestDownloadTaskControl (id : string) (request : DownloadControlRequest) (now : Z)
    (d : download_db) : option DownloadTaskRecord * download_db :=
  let q r := has_key dt_id id r && is_status running r in
  (returning q (control_task request now) (dl_tasks d),
   d <| dl_tasks := update_where q (control_task request now) (dl_tasks d) |>).

Inductive worker_status := ready | stale | unavailable.
Record DownloadWorkerHealth := WorkerHealth {
  wh_status : worker_status;
  wh_freshWorkers : nat;
  wh_lastHeartbeatAt : option Z;
  wh_activeTasks : nat;
  wh_queuedTasks : nat;
  wh_retryWaitTasks : nat
}.
Definition max_heartbeat (l : list download_worker) : option Z :=
  foldr (λ w o, Some (Z.max (dw_heartbeat_at w) (o ⁇ dw_heartbeat_at w))) None l.

Definition getDownloadWorkerHealth (now : Z) (d : download_db) : DownloadWorkerHealth :=
  let readyCutoff := now - 15000 in
  let staleCutoff := now - 60000 in
  let fresh := select (λ w, bool_decide (readyCutoff ≤ dw_heartbeat_at w)) (dl_workers d) in
  let last := coalesce (max_heartbeat fresh) (max_heartbeat (dl_workers d)) in
  WorkerHealth
    (if bool_decide (0 < length fresh)%nat then ready
     else if from_option (λ h, bool_decide (staleCutoff ≤ h)) false last then stale else unavailable)
    (length fresh) last
    (count_where (is_status running) (dl_tasks d))
    (count_where (is_status queued) (dl_tasks d))
    (count_where (λ r, is_status queued r && bool_decide (dt_phase r = Some retry_wait)) (dl_tasks d)).

Definition deleteDownloadTask (id : string) (d : download_db) : bool * download_db :=
  let q r := has_key dt_id id r && negb (is_status running r) in
  if bool_decide (count_where q (dl_tasks d) = 1%nat)
  then (true, d <| dl_tasks := delete_where q (dl_tasks d) |>
                <| dl_journal := drop_ids id (dl_journal d) |>
                <| dl_segments := drop_ids id (dl_segments d) |>
                <| dl_reservations := drop_ids id (dl_reservations d) |>)
  else (false, d).

(** ** The invariant of the task table *)
Definition target (r : DownloadTaskRecord) : string * string * string :=
  (dt_rootId r, dt_storagePoolId r, dt_targetPath r).

(** A task is leased exactly while it runs, has an end exactly when it is
    over, and its counters are not negative. *)
Record task_ok (r : DownloadTaskRecord) : Prop := TaskOk {
  ok_leased : dt_status r = running → is_Some (dt_workerId r) ∧ is_Some (dt_leaseExpiresAt r);
  ok_idle : dt_status r ≠ running →
    dt_workerId r = None ∧ dt_leaseExpiresAt r = None ∧ dt_speed r = 0 ∧ dt_controlRequested r = None;
  ok_finished : is_final (dt_status r) = isSome (dt_finishedAt r);
  ok_counters : 0 ≤ dt_receivedBytes r ∧ 0 ≤ dt_speed r ∧ 0 ≤ dt_segmentCount r ∧ 0 ≤ (dt_totalBytes r ⁇ 0)
}.

Record db_ok (d : download_db) : Prop := DbOk {
  ok_ids : unique_keys dt_id (dl_tasks d);
  ok_targets : unique_keys target (dl_tasks d);
  ok_tasks : Forall task_ok (dl_tasks d);
  ok_refs : ∀ k, k ∈ dl_journal d ++ dl_segments d ++ dl_reservations d → k ∈ dt_id <$> dl_tasks d
}.

(** An UPDATE that keeps a row's key and target and its invariant. *)
Record task_update (q : DownloadTaskRecord → bool) (f : DownloadTaskRecord → DownloadTaskRecord) : Prop := {
  upd_id : ∀ r, dt_id (f r) = dt_id r;
  upd_target : ∀ r, target (f r) = target r;
  upd_ok : ∀ r, q r = true → task_ok r → task_ok (f r)
}.

Lemma whole_bytes_nonneg q : 0 ≤ whole_bytes q.
Proof. unfold whole_bytes. lia. Qed.

Lemma is_status_true s r : is_status s r = true ↔ dt_status r = s.
Proof. apply bool_decide_eq_true. Qed.

Ltac solve_update := constructor; try (intros r; simpl; done);
  intros r Hq [Hl Hi Hf (H1&H2&H3&H4)]; constructor; simpl in *.

Lemma recover_update d now : task_update (expired d now) (recover_task now).
Proof.
  solve_update; try done; destruct (dt_controlRequested r) as [[]|]; done.
Qed.

Lemma claim_update q w lease now : task_update q (claim_task w lease now).
Proof. solve_update; try done; eauto. Qed.

Lemma held_running id w r : held id w r = true →
  dt_id r = id ∧ dt_status r = running ∧ dt_workerId r = Some w.
Proof.
  unfold held, has_key, eq_col. rewrite !andb_true_iff, is_status_true, !bool_decide_eq_true. tauto.
Qed.

Lemma undisturbed_held id w r : undisturbed id w r = true → held id w r = true ∧ dt_controlRequested r = None.
Proof. unfold undisturbed. destruct (dt_controlRequested r); rewrite andb_true_iff; naive_solver. Qed.

Lemma renew_update id w lease now :
  task_update (undisturbed id w) (λ r, r <| dt_leaseExpiresAt := Some lease |> <| dt_updatedAt := now |>).
Proof.
  solve_update; try done; apply undisturbed_held in Hq as [(_&Hr&_)%held_running _]; [|done].
  destruct (Hl Hr). eauto.
Qed.

Lemma progress_update id w p lease now : 0 ≤ (pr_segmentCount p ⁇ 0) →
  task_update (undisturbed id w) (progress_task p lease now).
Proof.
  intros Hp. solve_update; try done; apply undisturbed_held in Hq as [(_&Hr&_)%held_running _]; try done.
  - destruct (Hl Hr). eauto.
  - pose proof (whole_bytes_nonneg (pr_receivedBytes p)). pose proof (whole_bytes_nonneg (pr_speed p)).
    destruct (pr_segmentCount p), (pr_totalBytes p) as [t|]; simpl in *;
      try pose proof (whole_bytes_nonneg t); lia.
Qed.

Lemma transition_update q tr now : tr_to tr ≠ running → task_update q (transition_task tr now).
Proof.
  intros Ht. solve_update; try done.
  - by destruct (is_final (tr_to tr)).
  - destruct (tr_resetProgress tr); simpl; lia.
Qed.

Lemma complete_update id w rb tb op now : 0 ≤ (tb ⁇ 0) →
  task_update (held id w) (complete_task rb tb op now).
Proof.
  intros Htb. solve_update; try done. pose proof (whole_bytes_nonneg rb).
  destruct tb, (dt_totalBytes r); simpl in *; lia.
Qed.

Lemma reset_update id w now : task_update (held id w) (reset_partial now).
Proof. solve_update; try done. intros [? ?]%Hi. naive_solver. Qed.

Lemma control_update q c now : (∀ r, q r = true → dt_status r = running) →
  task_update q (control_task c now).
Proof. intros Hr. solve_update; try done. intros []. by apply Hr. Qed.

Lemma db_ok_update d q f : task_update q f → db_ok d → db_ok (d <| dl_tasks := update_where q f (dl_tasks d) |>).
Proof.
  intros [Hid Ht Hf] [Hi Hta Hok Hr]. constructor; simpl.
  - by apply unique_keys_update.
  - by apply unique_keys_update.
  - apply update_where_Forall; [done|]. auto.
  - by rewrite update_where_keys.
Qed.

Definition refs (d : download_db) : list string := dl_journal d ++ dl_segments d ++ dl_reservations d.

Lemma db_ok_refs d d' : db_ok d → dl_tasks d' = dl_tasks d →
  (∀ k, k ∈ refs d' → k ∈ refs d) → db_ok d'.
Proof. intros [? ? ? Hr] Ht Hk. constructor; rewrite ?Ht; auto. Qed.

Lemma filter_sub {A} (p : A → bool) (l : list A) k : k ∈ List.filter p l → k ∈ l.
Proof. rewrite !list_elem_of_In, filter_In. tauto. Qed.

Lemma recover_ok now d : db_ok d → db_ok (recoverExpiredDownloadTasks now d).2.
Proof.
  intros H. eapply db_ok_refs; [apply (db_ok_update d _ _ (recover_update d now) H)|done|].
  unfold refs. simpl. intros k. rewrite !elem_of_app. intros [?|[?|?%filter_sub]]; auto.
Qed.

Lemma claim_ok w lease now d : db_ok d → db_ok (claimNextDownloadTask w lease now d).2.
Proof.
  intros H%(recover_ok now). unfold claimNextDownloadTask. cbv zeta.
  generalize dependent (recoverExpiredDownloadTasks now d).2. intros d' H.
  destruct (first_by _ _ _) as [next|]; [|done].
  exact (db_ok_update d' _ _ (claim_update _ w (now + lease) now) H).
Qed.

Lemma transition_ok id tr now d : tr_to tr ≠ running → db_ok d → db_ok (transitionDownloadTask id tr now d).2.
Proof.
  intros Ht H. unfold transitionDownloadTask. destruct (tr_from tr) as [|s0 l]; [done|]. cbv zeta.
  set (q r := has_key dt_id id r && bool_decide (dt_status r ∈ s0 :: l)).
  pose proof (db_ok_update d q _ (transition_update q tr now Ht) H) as H'. simpl snd.
  destruct (isSome _ && _); [|done].
  apply (db_ok_refs _ _ H'); [done|]. unfold refs, drop_ids. simpl. intros k.
  rewrite !elem_of_app. intros [?|[?%filter_sub|?%filter_sub]]; auto.
Qed.

Lemma delete_ok id d : db_ok d → db_ok (deleteDownloadTask id d).2.
Proof.
  intros [Hi Ht Hok Hr]. unfold deleteDownloadTask. cbv zeta. case_bool_decide; [|by constructor].
  constructor; simpl.
  - by apply unique_keys_delete.
  - by apply unique_keys_delete.
  - by apply delete_where_Forall.
  - intros k Hk. assert (k ≠ id ∧ k ∈ dl_journal d ++ dl_segments d ++ dl_reservations d) as [Hne Hk'].
    { rewrite !elem_of_app in *. unfold drop_ids in Hk. rewrite !list_elem_of_In, !filter_In in *.
      rewrite !negb_true_iff, !bool_decide_eq_false in Hk. tauto. }
    specialize (Hr k Hk'). apply list_elem_of_fmap in Hr as (r & -> & Hr').
    apply list_elem_of_fmap. exists r. split; [done|]. rewrite list_elem_of_In in *.
    apply delete_where_In. split; [done|]. unfold has_key. by rewrite bool_decide_false.
Qed.

Lemma same_target_key r r' : same_target (dt_rootId r') (dt_storagePoolId r') (dt_targetPath r') r =
  has_key target (target r') r.
Proof.
  apply eq_true_iff_eq. unfold same_target, has_key, target.
  rewrite !andb_true_iff, !bool_decide_eq_true. split; [intros [[-> ->] ->]; done|].
  intros [= -> -> ->]. done.
Qed.

Lemma insert_ok r d : task_ok r → db_ok d → db_ok (insert_download_task r d).2.
Proof.
  intros Hr H. unfold insert_download_task.
  destruct (negb _); [done|]. destruct (by_key dt_id (dt_id r) _) eqn:Ek; [done|]. simpl isSome.
  destruct (exists_where _ _) eqn:Ex; [done|]. destruct (negb (bool_decide _)); [done|].
  destruct H as [Hi Ht Hok Href]. constructor; simpl.
  - by apply unique_keys_insert.
  - apply unique_keys_insert; [done|]. apply get_row_None. intros x Hx. rewrite <-same_target_key.
    rewrite exists_where_false in Ex. auto.
  - by apply insert_row_Forall.
  - intros k Hk. unfold insert_row. rewrite fmap_app, elem_of_app. left. auto.
Qed.

Lemma create_ok id input now : keeps db_ok (createDownloadTask id input now).
Proof.
  apply keeps_bind.
  - intros d. apply insert_ok. by constructor.
  - intros _. apply keeps_bind; [apply keeps_gets|]. intros [t|]; auto with keeps.
Qed.

(** The databases that the repository's operations and the workers' rows in
    the other tables lead to. *)
Inductive downloads_reachable : download_db → Prop :=
| dreach_init roots ops : downloads_reachable (DownloadDb [] roots ops [] [] [] [])
| dreach_other d d' : downloads_reachable d → dl_tasks d' = dl_tasks d →
    (∀ k, k ∈ dl_journal d' ++ dl_segments d' ++ dl_reservations d' → k ∈ dt_id <$> dl_tasks d) →
    downloads_reachable d'
| dreach_create d id input now :
    downloads_reachable d → downloads_reachable (createDownloadTask id input now d).2
| dreach_recover d now :
    downloads_reachable d → downloads_reachable (recoverExpiredDownloadTasks now d).2
| dreach_claim d w lease now :
    downloads_reachable d → downloads_reachable (claimNextDownloadTask w lease now d).2
| dreach_renew d id w lease now :
    downloads_reachable d → downloads_reachable (renewDownloadTaskLease id w lease now d).2
| dreach_progress d id w p lease now :
    downloads_reachable d → downloads_reachable (updateDownloadTaskProgress id w p lease now d).2
| dreach_transition d id tr now : tr_to tr ≠ running →
    downloads_reachable d → downloads_reachable (transitionDownloadTask id tr now d).2
| dreach_complete d id w rb tb op now :
    downloads_reachable d → downloads_reachable (completeDownloadTask id w rb tb op now d).2
| dreach_reset d id w now :
    downloads_reachable d → downloads_reachable (resetDownloadTaskPartialState id w now d).2
| dreach_control d id c now :
    downloads_reachable d → downloads_reachable (requestDownloadTaskControl id c now d).2
| dreach_delete d id :
    downloads_reachable d → downloads_reachable (deleteDownloadTask id d).2.

(** C16: In every reachable database the task ids and the targets are unique,
    a task has a worker and a lease exactly while it is running and a pending
    control request only then, it has an end time exactly when it is
    completed, failed or cancelled, its counters are not negative, and the
    segments, journals and reservations belong to existing tasks. *)
Theorem downloads_wf d : downloads_reachable d → db_ok d.
Proof.
  induction 1 as [roots ops|d d' _ IH Ht Hr|d id input now _ IH|d now _ IH|d w lease now _ IH
    |d id w lease now _ IH|d id w p lease now _ IH|d id tr now Ht _ IH|d id w rb tb op now _ IH
    |d id w now _ IH|d id c now _ IH|d id _ IH].
  - constructor; simpl; [constructor|constructor|constructor|by intros k ?%not_elem_of_nil].
  - destruct IH. by constructor; rewrite ?Ht.
  - by apply create_ok.
  - by apply recover_ok.
  - by apply claim_ok.
  - apply db_ok_update; [apply renew_update|done].
  - unfold updateDownloadTaskProgress. case_bool_decide as E; [rewrite andb_true_r|rewrite andb_false_r].
    + destruct (exists_where _ _) eqn:Ex; [done|]. simpl snd.
      rewrite update_where_none; [by destruct d|]. apply get_row_None. by apply exists_where_false.
    + apply db_ok_update; [apply progress_update; lia|done].
  - by apply transition_ok.
  - unfold completeDownloadTask. cbv zeta. destruct (returning _ _ _); [|done].
    case_bool_decide; [done|]. destruct (negb _); [done|].
    apply db_ok_update; [apply complete_update; lia|done].
  - apply db_ok_update; [apply reset_update|done].
  - apply db_ok_update; [apply control_update|done].
    intros r [_ Hr]%andb_prop. by apply is_status_true.
  - by apply delete_ok.
Qed.

Definition sample_input (path : string) : download_input :=
  DownloadInput "https://example.org/a" "root" "pool" "." path path None None.
Definition sample_db : download_db :=
  let d := DownloadDb [] ["root"] ["op"] [] [] [] [] in
  let d := (createDownloadTask "a" (sample_input "x") 10 d).2 in
  (createDownloadTask "b" (sample_input "y") 20 d).2.

Lemma sample_reachable : downloads_reachable sample_db.
Proof. apply dreach_create, dreach_create, dreach_init. Qed.

Lemma downloads_wf_witness : db_ok (claimNextDownloadTask "w" 100 50 sample_db).2.
Proof. apply downloads_wf, dreach_claim, sample_reachable. Defined.

(** ** Claiming *)
Lemma claim_order_total a b : claim_order a b = true ∨ claim_order b a = true.
Proof.
  unfold claim_order. destruct (Z.lt_trichotomy (claim_rank a) (claim_rank b)) as [H|[H|H]].
  - left. by rewrite bool_decide_true.
  - rewrite !(bool_decide_true (claim_rank _ = claim_rank _)) by done. rewrite !orb_true_iff, !andb_true_iff.
    rewrite !bool_decide_eq_true. lia.
  - right. by rewrite bool_decide_true.
Qed.

Lemma claim_order_trans a b c : claim_order a b = true → claim_order b c = true → claim_order a c = true.
Proof.
  unfold claim_order. rewrite !orb_true_iff, !andb_true_iff, !bool_decide_eq_true. lia.
Qed.

(** A worker claims the task that is due first.  After expired tasks are
    recovered, [claimNextDownloadTask] returns nothing and changes nothing
    more exactly when no task is queued, due and free of a publish journal;
    otherwise it leases to the worker one such task, none before it in the
    order of retry or creation time, and leaves every other task alone. *)
Theorem claimNextDownloadTask_spec w leaseMs now d :
  unique_keys dt_id (dl_tasks d) →
  let d1 := (recoverExpiredDownloadTasks now d).2 in
  let '(res, d2) := claimNextDownloadTask w leaseMs now d in
  match res with
  | None => d2 = d1 ∧ ∀ r, In r (dl_tasks d1) → claimable d1 now r = false
  | Some t => ∃ r, In r (dl_tasks d1) ∧ claimable d1 now r = true ∧
      t = claim_task w (now + leaseMs) now r ∧
      (∀ r', In r' (dl_tasks d1) → claimable d1 now r' = true → claim_order r r' = true) ∧
      getDownloadTask (dt_id r) d2 = Some t ∧
      (∀ id, id ≠ dt_id r → getDownloadTask id d2 = getDownloadTask id d1)
  end.
Proof.
  intros Hu d1. unfold claimNextDownloadTask. cbv zeta. fold d1.
  assert (unique_keys dt_id (dl_tasks d1)) as Hu1 by (by apply unique_keys_update).
  clearbody d1. destruct (first_by _ _ _) as [r|] eqn:E; [|split; [done|by apply (first_by_None claim_order)]].
  apply (first_by_least claim_order claim_order_total claim_order_trans) in E as (Hr & Hc & Hmin).
  assert (is_status queued r = true) as Hq.
  { unfold claimable in Hc. rewrite !andb_true_iff in Hc. tauto. }
  destruct (update_one_row dt_id (λ x, has_key dt_id (dt_id r) x && is_status queued x)
    (claim_task w (now + leaseMs) now) (dl_tasks d1) r) as [Hret Hby]; [done..| | |].
  { unfold has_key. by rewrite bool_decide_true, Hq. }
  { by intros x [Hx%bool_decide_eq_true _]%andb_prop. }
  rewrite Hret. exists r. repeat split; try done.
  - unfold getDownloadTask. simpl. rewrite Hby. by rewrite bool_decide_true.
  - intros id Hid. unfold getDownloadTask. simpl. rewrite Hby. by rewrite bool_decide_false.
Qed.

Lemma claimNextDownloadTask_spec_witness :
  ∃ r, In r (dl_tasks sample_db) ∧
       (claimNextDownloadTask "w" 100 50 sample_db).1 = Some (claim_task "w" 150 50 r).
Proof.
  pose proof (claimNextDownloadTask_spec "w" 100 50 sample_db) as H.
  destruct H as (r & Hr & _ & E & _); [apply (bool_decide_eq_true_1 (NoDup _)); by vm_compute|].
  exists r. split; [exact Hr|]. exact (f_equal Some E).
Defined.

(** ** Leases *)
Inductive download_call :=
| DCreate (id : string) (input : download_input) (now : Z)
| DRecover (now : Z)
| DClaim (w : string) (leaseMs now : Z)
| DRenew (id w : string) (leaseMs now : Z)
| DProgress (id w : string) (p : download_progress) (leaseMs now : Z)
| DTransition (id : string) (tr : download_transition) (now : Z)
| DComplete (id w : string) (rb : Q) (tb : option Z) (op : string) (now : Z)
| DReset (id w : string) (now : Z)
| DControl (id : string) (c : DownloadControlRequest) (now : Z)
| DDelete (id : string).

Definition download_step (c : download_call) (d : download_db) : download_db :=
  match c with
  | DCreate id input now => (createDownloadTask id input now d).2
  | DRecover now => (recoverExpiredDownloadTasks now d).2
  | DClaim w leaseMs now => (claimNextDownloadTask w leaseMs now d).2
  | DRenew id w leaseMs now => (renewDownloadTaskLease id w leaseMs now d).2
  | DProgress id w p leaseMs now => (updateDownloadTaskProgress id w p leaseMs now d).2
  | DTransition id tr now => (transitionDownloadTask id tr now d).2
  | DComplete id w rb tb op now => (completeDownloadTask id w rb tb op now d).2
  | DReset id w now => (resetDownloadTaskPartialState id w now d).2
  | DControl id c now => (requestDownloadTaskControl id c now d).2
  | DDelete id => (deleteDownloadTask id d).2
  end.
Definition download_run (cs : list download_call) (d : download_db) : download_db :=
  foldl (λ d c, download_step c d) d cs.

(** A call that is not the holder's own: claims and recoveries before the
    lease of the task ends, what other workers do to their tasks, and whatever
    clients do. *)
Definition foreign_call (id w : string) (lease : Z) (c : download_call) : Prop :=
  match c with
  | DRecover now | DClaim _ _ now => now < lease
  | DRenew id' w' _ _ | DProgress id' w' _ _ _ | DComplete id' w' _ _ _ _ | DReset id' w' _ => id' ≠ id ∨ w' ≠ w
  | DTransition _ _ _ | DCreate _ _ _ | DControl _ _ _ | DDelete _ => True
  end.
(** A transition of the task that may start from [running]: UPDATE ... WHERE
    status IN (...) asks for no worker. *)
Definition takes_away (id : string) (c : download_call) : Prop :=
  match c with DTransition id' tr _ => id' = id ∧ running ∈ tr_from tr | _ => False end.
#[export] Instance takes_away_dec id c : Decision (takes_away id c).
Proof. destruct c; apply _. Defined.
Definition claimed_by (w : string) (c : download_call) : Prop := match c with DClaim w' _ _ => w' = w | _ => False end.

(** The task [id] runs for [w] under the lease, with [n] bytes received. *)
Definition holds (id w : string) (lease n : Z) (d : download_db) : Prop :=
  unique_keys dt_id (dl_tasks d) ∧
  ∃ r, getDownloadTask id d = Some r ∧ dt_status r = running ∧ dt_workerId r = Some w ∧
       dt_leaseExpiresAt r = Some lease ∧ dt_receivedBytes r = n.

Lemma holds_update id w lease n d d' q f : (∀ r, dt_id (f r) = dt_id r) →
  dl_tasks d' = update_where q f (dl_tasks d) →
  (∀ r, dt_id r = id → dt_status r = running → dt_workerId r = Some w → dt_leaseExpiresAt r = Some lease →
     q r = true → dt_status (f r) = running ∧ dt_workerId (f r) = dt_workerId r ∧
     dt_leaseExpiresAt (f r) = dt_leaseExpiresAt r ∧ dt_receivedBytes (f r) = dt_receivedBytes r) →
  holds id w lease n d → holds id w lease n d'.
Proof.
  intros Hf Ht Hq [Hu (r & Hg & Hs & Hw & Hl & Hn)]. split; [rewrite Ht; by apply unique_keys_update|].
  unfold getDownloadTask in *. rewrite Ht, by_key_update, Hg by done. simpl. eexists; split; [done|].
  destruct (q r) eqn:E; [|done]. pose proof Hg as [_ Hid]%by_key_Some.
  destruct (Hq r Hid Hs Hw Hl E) as (->&->&->&->). done.
Qed.

Lemma holds_id id w lease n d d' : dl_tasks d' = dl_tasks d → holds id w lease n d → holds id w lease n d'.
Proof. intros Ht. unfold holds, getDownloadTask. by rewrite Ht. Qed.

Lemma recover_holds id w lease n now d : now < lease →
  holds id w lease n d → holds id w lease n (recoverExpiredDownloadTasks now d).2.
Proof.
  intros Hn. eapply (holds_update _ _ _ _ _ _ (expired d now) (recover_task now)); [done..|].
  intros r _ _ _ Hl Hq. unfold expired in Hq. rewrite Hl in Hq. simpl in Hq.
  rewrite bool_decide_false in Hq by lia. by rewrite andb_false_r in Hq.
Qed.

Lemma not_held id id' w w' r : id' ≠ id ∨ w' ≠ w → dt_id r = id → dt_workerId r = Some w →
  held id' w' r = false.
Proof.
  intros H Hid Hw. destruct (held id' w' r) eqn:E; [|done]. apply held_running in E as (?&_&?).
  destruct H; congruence.
Qed.

Lemma not_undisturbed id id' w w' r : id' ≠ id ∨ w' ≠ w → dt_id r = id → dt_workerId r = Some w →
  undisturbed id' w' r = false.
Proof. intros. unfold undisturbed. by rewrite (not_held id id' w w'). Qed.

Lemma foreign_claim id w lease n w' leaseMs now d : now < lease →
  holds id w lease n d → holds id w lease n (claimNextDownloadTask w' leaseMs now d).2.
Proof.
  intros Hn H%(recover_holds id w lease n now); [|done]. unfold claimNextDownloadTask. cbv zeta.
  generalize dependent (recoverExpiredDownloadTasks now d).2. intros d' H.
  destruct (first_by _ _ _) as [next|]; [|done].
  eapply holds_update; [| |intros r _ Hs _ _ [_ Hq]%andb_prop|exact H]; [|done|].
  - done.
  - apply is_status_true in Hq. congruence.
Qed.

Lemma foreign_transition id w lease n id' tr now d : id' ≠ id ∨ running ∉ tr_from tr →
  holds id w lease n d → holds id w lease n (transitionDownloadTask id' tr now d).2.
Proof.
  intros Hf. unfold transitionDownloadTask. destruct (tr_from tr) as [|s0 l]; [done|]. cbv zeta.
  eapply holds_update; [|simpl; by destruct (_ && _)|]; [done|].
  intros r Hid Hs _ _ [Hk Hq]%andb_prop. apply bool_decide_eq_true in Hk, Hq.
  destruct Hf as [Hf|Hf]; [congruence|]. by rewrite Hs in Hq.
Qed.

Lemma foreign_delete id w lease n id' d :
  holds id w lease n d → holds id w lease n (deleteDownloadTask id' d).2.
Proof.
  intros [Hu (r & Hg & Hs & H)]. unfold deleteDownloadTask. cbv zeta.
  case_bool_decide; [|by split; eauto]. split; [by apply unique_keys_delete|].
  unfold getDownloadTask in *. simpl. rewrite by_key_delete, Hg by done. exists r.
  rewrite (proj2 (is_status_true _ _) Hs), andb_false_r. done.
Qed.

Lemma foreign_create id w lease n id' input now d :
  holds id w lease n d → holds id w lease n (createDownloadTask id' input now d).2.
Proof.
  apply (keeps_bind (holds id w lease n)).
  - clear d. intros d H. unfold insert_download_task. destruct (negb _); [done|].
    destruct (by_key dt_id _ _) as [x|] eqn:Ek; [done|]. simpl isSome.
    destruct (exists_where _ _); [done|]. destruct (negb _); [done|].
    destruct H as [Hu (r & Hg & H)]. split; [by apply unique_keys_insert|].
    exists r. split; [|done]. unfold getDownloadTask in *. simpl. by rewrite by_key_insert, Hg.
  - intros _. apply keeps_bind; [apply keeps_gets|]. intros [t|]; auto with keeps.
Qed.

Lemma foreign_step id w lease n c d : foreign_call id w lease c → ¬ takes_away id c →
  holds id w lease n d → holds id w lease n (download_step c d).
Proof.
  destruct c as [? ? ?|now|? ? now|id' w' ? ?|id' w' p ? ?|id' tr now|id' w' rb tb op now|id' w' now|id' ctl now|id'];
    simpl; intros Hf Ht.
  - apply foreign_create.
  - by apply recover_holds.
  - by apply foreign_claim.
  - eapply holds_update; [|done|]; [done|]. intros r Hid _ Hw _. by rewrite (not_undisturbed id id' w w').
  - unfold updateDownloadTaskProgress. destruct (_ && _); [done|].
    eapply holds_update; [|done|]; [done|]. intros r Hid _ Hw _. by rewrite (not_undisturbed id id' w w').
  - apply foreign_transition. destruct (decide (id' = id)); [right|by left]. intros Hr. by apply Ht.
  - unfold completeDownloadTask. cbv zeta. destruct (returning _ _ _); [|done].
    case_bool_decide; [done|]. destruct (negb _); [done|].
    eapply holds_update; [|done|]; [done|]. intros r Hid _ Hw _. by rewrite (not_held id id' w w').
  - eapply holds_update; [|done|]; [done|]. intros r Hid _ Hw _. by rewrite (not_held id id' w w').
  - by eapply holds_update; [|done|].
  - apply foreign_delete.
Qed.

(** [w] does not run the task: what it does to it changes nothing. *)
Definition lost (id w : string) (d : download_db) : Prop :=
  (∀ leaseMs now, renewDownloadTaskLease id w leaseMs now d = (false, d)) ∧
  (∀ p leaseMs now, updateDownloadTaskProgress id w p leaseMs now d = (inr false, d)) ∧
  (∀ now, resetDownloadTaskPartialState id w now d = (false, d)) ∧
  ∀ rb tb op now, completeDownloadTask id w rb tb op now d = (inr None, d).
Definition unheld (id w : string) (d : download_db) : Prop := ∀ r, In r (dl_tasks d) → held id w r = false.

Lemma same_tasks d : d <| dl_tasks := dl_tasks d |> = d.
Proof. by destruct d. Qed.
Lemma unheld_lost id w d : unheld id w d → lost id w d.
Proof.
  intros H. assert (get_row (held id w) (dl_tasks d) = None) as Hg by (by apply get_row_None).
  assert (∀ r, In r (dl_tasks d) → undisturbed id w r = false) as Hd by (intros r Hr; unfold undisturbed; by rewrite H).
  assert (get_row (undisturbed id w) (dl_tasks d) = None) as Hgd by (by apply get_row_None).
  split_and!; intros; cbv [renewDownloadTaskLease updateDownloadTaskProgress resetDownloadTaskPartialState completeDownloadTask returning].
  - by rewrite (proj2 (count_where_0 _ _) Hd), update_where_none, same_tasks.
  - by rewrite (proj2 (exists_where_false _ _) Hd), (proj2 (count_where_0 _ _) Hd), update_where_none, same_tasks.
  - by rewrite (proj2 (count_where_0 _ _) H), update_where_none, same_tasks.
  - by rewrite Hg.
Qed.
Lemma unheld_update id w d d' q f : (∀ r, q r = true → held id w (f r) = true → held id w r = true) →
  dl_tasks d' = update_where q f (dl_tasks d) → unheld id w d → unheld id w d'.
Proof.
  intros Hf Ht H r Hr. rewrite Ht in Hr. apply update_where_In in Hr as (x & Hx & ->). destruct (q x) eqn:E; [|by apply H].
  destruct (held id w (f x)) eqn:Eh; [|done]. rewrite <-(H x Hx). symmetry. by apply Hf.
Qed.
Lemma unheld_transition id w id' tr now d :
  (∀ r, In r (dl_tasks d) → held id w r = true → dt_id r = id' ∧ dt_status r ∈ tr_from tr) → unheld id w (transitionDownloadTask id' tr now d).2.
Proof.
  intros Hin r Hr. destruct (tr_from tr) as [|s0 l] eqn:Et.
  - unfold transitionDownloadTask in Hr. rewrite Et in Hr. cbn [snd] in Hr. destruct (held id w r) eqn:E; [|done].
    by destruct (Hin r Hr E) as [_ []%elem_of_nil].
  - unfold transitionDownloadTask in Hr. rewrite Et in Hr. cbv zeta in Hr. rewrite <-Et in Hr, Hin.
    assert (In r (update_where (λ r, has_key dt_id id' r && bool_decide (dt_status r ∈ tr_from tr)) (transition_task tr now) (dl_tasks d))) as Hr'.
    { cbn [snd] in Hr. by destruct (_ && _) in Hr. }
    clear Hr. apply update_where_In in Hr' as (x & Hx & ->). destruct (_ && _) eqn:Eq; destruct (held id w _) eqn:E; try done.
    + by apply held_running in E as (_ & _ & E).
    + destruct (Hin x Hx E) as [Hk Hs]. unfold has_key in Eq. by rewrite !bool_decide_true in Eq.
Qed.
Lemma unheld_step id w lease c d : foreign_call id w lease c → ¬ claimed_by w c → unheld id w d → unheld id w (download_step c d).
Proof.
  destruct c as [id' input now|now|w' lm now|id' w' ? ?|id' w' p ? ?|id' tr now|id' w' rb tb op now|id' w' now|id' ctl now|id'];
    cbn [download_step foreign_call claimed_by]; intros Hf Hc.
  - apply (keeps_bind (unheld id w)).
    + clear d. intros d H. unfold insert_download_task. repeat (destruct (_ : bool); [done|]).
      intros r [Hr| ->]%insert_row_In; [by apply H|]. unfold held, is_status. cbn. by rewrite andb_false_r.
    + intros _. apply keeps_bind; [apply keeps_gets|]. intros [t|]; auto with keeps.
  - apply unheld_update with (q := expired d now) (f := recover_task now); [|done]. intros r _ E%held_running. cbn in E. by destruct E as (_ & _ & E).
  - intros H. unfold claimNextDownloadTask. cbv zeta. assert (unheld id w (recoverExpiredDownloadTasks now d).2) as H'.
    { apply unheld_update with (d := d) (q := expired d now) (f := recover_task now); [|done|exact H]. intros r _ E%held_running. cbn in E. by destruct E as (_ & _ & E). }
    destruct (first_by _ _ _) as [next|]; [|done]. eapply unheld_update; [|done|exact H']. intros r _ E%held_running. cbn in E.
    destruct E as (_ & _ & [= E]). by destruct Hc.
  - eapply unheld_update; [|done]. intros r _ E. exact E.
  - unfold updateDownloadTaskProgress. destruct (_ && _); [done|]. eapply unheld_update; [|done]. intros r _ E. exact E.
  - intros H. apply unheld_transition. intros r Hr E. by rewrite (H r Hr) in E.
  - unfold completeDownloadTask. cbv zeta. destruct (returning _ _ _); [|done]. case_bool_decide; [done|]. destruct (negb _); [done|].
    eapply unheld_update; [|done]. intros r _ E%held_running. cbn in E. by destruct E as (_ & E & _).
  - eapply unheld_update; [|done]. intros r _ E. exact E.
  - eapply unheld_update; [|done]. intros r _ E. exact E.
  - unfold deleteDownloadTask. cbv zeta. intros H. case_bool_decide; [|done]. intros r [Hr _]%delete_where_In. by apply H.
Qed.
Lemma holds_lost id w lease n tr now d : running ∈ tr_from tr → holds id w lease n d → unheld id w (transitionDownloadTask id tr now d).2.
Proof.
  intros Htr _. apply unheld_transition. intros r _ (Hid & Hs & _)%held_running. by rewrite Hs.
Qed.
Lemma run_app cs1 cs2 d : download_run (cs1 ++ cs2) d = download_run cs2 (download_run cs1 d).
Proof. apply foldl_app. Qed.

Lemma holder_completes id w lease n d' : holds id w lease n d' → ∀ now rb op, op ∈ dl_file_operations d' →
  ∃ t d'', completeDownloadTask id w rb None op now d' = (inr (Some t), d'') ∧
    dt_status t = completed ∧ dt_receivedBytes t = whole_bytes rb ∧ getDownloadTask id d'' = Some t.
Proof.
  intros Hd' now rb op Hop. destruct Hd' as [Hu (r & Hg & Hs & Hw & _)].
  unfold getDownloadTask in Hg. pose proof Hg as [Hr Hid]%by_key_Some. subst id.
  destruct (update_one_row dt_id (held (dt_id r) w) (complete_task rb None op now) (dl_tasks d') r)
    as [Hret Hby]; [done..| | |].
  { unfold held, has_key, eq_col. by rewrite Hw, (proj2 (is_status_true _ _) Hs), !bool_decide_true. }
  { by intros x (?&_)%held_running. }
  unfold completeDownloadTask. cbv zeta. rewrite Hret. simpl (None ⁇ 0).
  rewrite bool_decide_false by lia. rewrite (bool_decide_true (op ∈ _)) by done.
  eexists _, _. split; [done|]. split; [done|]. split; [done|].
  unfold getDownloadTask. simpl. rewrite Hby. by rewrite bool_decide_true.
Qed.

(** C9: A lease is exclusive.  While a task runs for a worker, take any
    sequence of calls that the worker does not make itself: claims and
    recoveries before the lease ends, other workers' renewals, progress,
    resets and completions, control requests, creations, deletions and
    transitions, whatever they start from.  Either the task still runs for
    the worker under the same lease with the same bytes received, and its
    completion succeeds; or the sequence holds a transition of this very task
    that may start from [running] - the route that cancels passes one -, up
    to which the worker had it, and from which on, as long as it does not
    claim again, its renewals, progress, resets and completions of the task
    change nothing and say so. *)
Theorem download_lease_exclusive id w lease n d cs :
  holds id w lease n d →
  Forall (foreign_call id w lease) cs →
  let d' := download_run cs d in
  (holds id w lease n d' ∧
   ∀ now rb op, op ∈ dl_file_operations d' →
   ∃ t d'', completeDownloadTask id w rb None op now d' = (inr (Some t), d'') ∧
     dt_status t = completed ∧ dt_receivedBytes t = whole_bytes rb ∧ getDownloadTask id d'' = Some t) ∨
  ∃ cs1 tr now cs2, cs = cs1 ++ DTransition id tr now :: cs2 ∧ running ∈ tr_from tr ∧
    holds id w lease n (download_run cs1 d) ∧ (Forall (λ c, ¬ claimed_by w c) cs2 → lost id w d').
Proof.
  intros H Hcs d'. assert (holds id w lease n d' ∨ ∃ cs1 tr now cs2, cs = cs1 ++ DTransition id tr now :: cs2 ∧ running ∈ tr_from tr ∧
    holds id w lease n (download_run cs1 d)) as [Hd'|(cs1 & tr & now & cs2 & -> & Htr & Hh)].
  { unfold d'. clear d'. revert d H. induction Hcs as [|c cs Hc Hcs IH]; intros d H; [by left|].
    destruct (decide (takes_away id c)) as [Ht|Ht].
    - right. destruct c as [| | | | |id' tr now| | | |]; try done. destruct Ht as [-> Ht]. exists [], tr, now, cs. by split_and!.
    - destruct (IH (download_step c d)) as [?|(cs1 & tr & now & cs2 & -> & ? & ?)]; [by eapply foreign_step|by left|right].
      exists (c :: cs1), tr, now, cs2. by split_and!. }
  - left. split; [done|]. by apply (holder_completes id w lease n).
  - right. exists cs1, tr, now, cs2. split_and!; [done..|]. intros Hcl. apply unheld_lost. unfold d'. rewrite run_app.
    apply Forall_app in Hcs as [_ [_ Hcs]%Forall_cons]. assert (unheld id w (download_step (DTransition id tr now) (download_run cs1 d))) as H1 by (by apply (holds_lost id w lease n)).
    cbn [download_run foldl]. fold (download_run cs2). revert H1. generalize (download_step (DTransition id tr now) (download_run cs1 d)). clear -Hcl Hcs.
    induction Hcs as [|c cs Hc Hcs IH]; intros d H; [done|]. apply Forall_cons in Hcl as [Hn Hcl]. cbn. apply IH; [done|]. by eapply unheld_step.
Qed.

Definition leased_db : download_db := (claimNextDownloadTask "w" 100 50 sample_db).2.

Lemma leased_holds : holds "a" "w" 150 0 leased_db.
Proof.
  split; [apply (bool_decide_eq_true_1 (NoDup _)); by vm_compute|]. eexists. by vm_compute.
Qed.

(** A task that a worker has claimed is taken from it by the transition of the
    route that cancels, when the route saw it before the claim. *)
Definition cancel_transition : download_transition := DownloadTransition [queued; running; paused] cancelled None None false false.
Lemma download_lease_exclusive_witness :
  let cs := [DClaim "v" 100 60; DRenew "a" "v" 100 70; DControl "a" ctl_cancel 80; DDelete "a"; DRecover 149] in
  holds "a" "w" 150 0 (download_run cs leased_db) ∧ lost "a" "w" (download_run (cs ++ [DTransition "a" cancel_transition 149]) leased_db).
Proof.
  cbv zeta. split.
  - destruct (download_lease_exclusive "a" "w" 150 0 leased_db [DClaim "v" 100 60; DRenew "a" "v" 100 70; DControl "a" ctl_cancel 80; DDelete "a"; DRecover 149] leased_holds)
      as [[H _]|(cs1 & tr & now & cs2 & E & _)].
    + repeat (apply Forall_cons; split); [| | | | |by constructor]; simpl; [lia|by right|done|done|lia].
    + exact H.
    + repeat (destruct cs1 as [|? cs1]; [discriminate E|injection E as _ E]). by destruct cs1.
  - destruct (download_lease_exclusive "a" "w" 150 0 leased_db
      ([DClaim "v" 100 60; DRenew "a" "v" 100 70; DControl "a" ctl_cancel 80; DDelete "a"; DRecover 149] ++ [DTransition "a" cancel_transition 149]) leased_holds)
      as [[[_ (r & Hg & Hs & _)] _]|(cs1 & tr & now & cs2 & E & _ & _ & H)].
    + repeat (apply Forall_cons; split); [| | | | | |by constructor]; simpl; [lia|by right|done|done|lia|done].
    + vm_compute in Hg. injection Hg as <-. discriminate Hs.
    + apply H. do 5 (destruct cs1 as [|? cs1]; [discriminate E|injection E as _ E]). destruct cs1 as [|? cs1]; [|by destruct cs1].
      injection E as _ _ <-. constructor.
Defined.

(** ** Cancellation *)
(** The task [id] runs under a lease that ends at [lease] and has been asked
    to cancel, or it is cancelled. *)
Definition cancelling (id : string) (lease : option Z) (d : download_db) : Prop :=
  unique_keys dt_id (dl_tasks d) ∧
  ∃ r, getDownloadTask id d = Some r ∧
    (dt_status r = cancelled ∨
     (dt_status r = running ∧ dt_controlRequested r = Some ctl_cancel ∧ dt_leaseExpiresAt r = lease)).

(** What workers and clients do to a task short of retrying, deleting or
    completing it. *)
Definition keeps_cancel (id : string) (c : download_call) : Prop :=
  match c with
  | DCreate _ _ _ | DRecover _ | DClaim _ _ _ | DRenew _ _ _ _ | DProgress _ _ _ _ _
  | DReset _ _ _ | DControl _ _ _ => True
  | DTransition id' tr _ => id' ≠ id ∨ running ∉ tr_from tr ∧ cancelled ∉ tr_from tr
  | DComplete id' _ _ _ _ _ | DDelete id' => id' ≠ id
  end.

Lemma cancelling_update id lease d d' q f : (∀ r, dt_id (f r) = dt_id r) →
  dl_tasks d' = update_where q f (dl_tasks d) →
  (∀ r, dt_id r = id → q r = true →
     (dt_status r = cancelled → dt_status (f r) = cancelled) ∧
     (dt_status r = running → dt_controlRequested r = Some ctl_cancel →
      dt_status (f r) = cancelled ∨
      (dt_status (f r) = running ∧ dt_controlRequested (f r) = Some ctl_cancel ∧
       dt_leaseExpiresAt (f r) = dt_leaseExpiresAt r))) →
  cancelling id lease d → cancelling id lease d'.
Proof.
  intros Hf Ht Hq [Hu (r & Hg & H)]. split; [rewrite Ht; by apply unique_keys_update|].
  unfold getDownloadTask in *. rewrite Ht, by_key_update, Hg by done. simpl. eexists; split; [done|].
  destruct (q r) eqn:E; [|done]. pose proof Hg as [_ Hid]%by_key_Some. destruct (Hq r Hid E) as [Hc Hr].
  destruct H as [H|(Hs&Hctl&Hl)]; [left; auto|]. rewrite <-Hl. auto.
Qed.

Lemma cancelling_other id lease d d' q f : (∀ r, dt_id (f r) = dt_id r) →
  dl_tasks d' = update_where q f (dl_tasks d) →
  (∀ r, dt_id r = id → q r = true → dt_status r ≠ cancelled ∧
     (dt_status r = running → dt_controlRequested r ≠ Some ctl_cancel)) →
  cancelling id lease d → cancelling id lease d'.
Proof.
  intros Hf Ht Hq. eapply cancelling_update; [done|done|]. intros r Hid Hr.
  destruct (Hq r Hid Hr) as [Ha Hb]. split; [by intros|]. intros Hs Hc. by destruct (Hb Hs).
Qed.

Lemma recover_cancelling id lease now d :
  cancelling id lease d → cancelling id lease (recoverExpiredDownloadTasks now d).2.
Proof.
  apply (cancelling_update _ _ _ _ (expired d now) (recover_task now)); [done|done|].
  intros r _ Hq. unfold expired in Hq. rewrite !andb_true_iff, is_status_true in Hq.
  destruct Hq as [[Hq _] _]. split; [congruence|]. intros _ Hc. left. simpl. by rewrite Hc.
Qed.

Lemma create_cancelling id lease id' input now d :
  cancelling id lease d → cancelling id lease (createDownloadTask id' input now d).2.
Proof.
  apply (keeps_bind (cancelling id lease)).
  - clear d. intros d H. unfold insert_download_task. destruct (negb _); [done|].
    destruct (by_key dt_id _ _) as [x|] eqn:Ek; [done|]. simpl isSome.
    destruct (exists_where _ _); [done|]. destruct (negb _); [done|].
    destruct H as [Hu (r & Hg & H)]. split; [by apply unique_keys_insert|].
    exists r. split; [|done]. unfold getDownloadTask in *. simpl. by rewrite by_key_insert, Hg.
  - intros _. apply keeps_bind; [apply keeps_gets|]. intros [t|]; auto with keeps.
Qed.

Lemma delete_cancelling id lease id' d : id' ≠ id →
  cancelling id lease d → cancelling id lease (deleteDownloadTask id' d).2.
Proof.
  intros Hne [Hu (r & Hg & H)]. unfold deleteDownloadTask. cbv zeta.
  case_bool_decide; [|by split; eauto]. split; [by apply unique_keys_delete|].
  exists r. split; [|done]. unfold getDownloadTask in *. simpl. rewrite by_key_delete, Hg by done.
  unfold has_key. rewrite bool_decide_false; [done|]. apply by_key_Some in Hg as [_ ->]. done.
Qed.

Lemma cancelling_step id lease c d : keeps_cancel id c →
  cancelling id lease d → cancelling id lease (download_step c d).
Proof.
  destruct c as [? ? ?|now|w' lm now|id' w' ? ?|id' w' p ? ?|id' tr now|id' w' rb tb op now|id' w' now|id' ctl now|id'];
    simpl; intros Hf.
  - apply create_cancelling.
  - apply recover_cancelling.
  - intros H%(recover_cancelling id lease now). unfold claimNextDownloadTask. cbv zeta.
    generalize dependent (recoverExpiredDownloadTasks now d).2. intros d' H.
    destruct (first_by _ _ _) as [next|]; [|done].
    eapply cancelling_other; [|done| |exact H]; [done|].
    intros r _ [_ Hq%is_status_true]%andb_prop. by rewrite Hq.
  - eapply cancelling_other; [|done|]; [done|].
    intros r _ [(_&Hr&_)%held_running Hc]%undisturbed_held. by rewrite Hr, Hc.
  - unfold updateDownloadTaskProgress. destruct (_ && _); [done|].
    eapply cancelling_other; [|done|]; [done|].
    intros r _ [(_&Hr&_)%held_running Hc]%undisturbed_held. by rewrite Hr, Hc.
  - unfold transitionDownloadTask. destruct (tr_from tr) as [|s0 l]; [done|]. cbv zeta.
    eapply cancelling_other; [|simpl; by destruct (_ && _)|]; [done|].
    intros r Hid [Hk%bool_decide_eq_true Hq%bool_decide_eq_true]%andb_prop.
    destruct Hf as [Hf|[Hf1 Hf2]]; [congruence|]. split; intros H; rewrite H in Hq; done.
  - unfold completeDownloadTask. cbv zeta. destruct (returning _ _ _); [|done].
    case_bool_decide; [done|]. destruct (negb _); [done|].
    eapply cancelling_other; [|done|]; [done|]. intros r Hid (Hk&_)%held_running. congruence.
  - eapply cancelling_update; [|done|]; [done|]. intros r _ (_&Hr&_)%held_running. simpl. rewrite Hr. auto.
  - eapply cancelling_update; [|done|]; [done|]. intros r _ [_ Hr%is_status_true]%andb_prop.
    simpl. rewrite Hr. split; [done|]. intros _ ->. auto.
  - by apply delete_cancelling.
Qed.

(** C14: A cancel request is not lost.  Once a running task has been asked to
    cancel, no sequence of later calls - pause requests, renewals, progress
    and resets of its own worker, recoveries, claims; all but its completion
    and deletion and the transitions that start from [running] or [cancelled]
    - makes it run on or be queued again: it is cancelled, or stays asked to
    cancel under the same lease.  The first recovery after the lease ends
    cancels it if no publish journal holds it; a recovery leaves a task that
    a journal holds as it is. *)
Theorem download_cancel_sticky id now0 d t d0 cs now :
  unique_keys dt_id (dl_tasks d) →
  requestDownloadTaskControl id ctl_cancel now0 d = (Some t, d0) →
  Forall (keeps_cancel id) cs →
  let d' := download_run cs d0 in
  cancelling id (dt_leaseExpiresAt t) d' ∧
  (∀ L, dt_leaseExpiresAt t = Some L → L ≤ now → id ∉ dl_journal d' →
     ∃ r, getDownloadTask id (recoverExpiredDownloadTasks now d').2 = Some r ∧ dt_status r = cancelled) ∧
  (id ∈ dl_journal d' → getDownloadTask id (recoverExpiredDownloadTasks now d').2 = getDownloadTask id d').
Proof.
  intros Hu Hreq Hcs d'. assert (cancelling id (dt_leaseExpiresAt t) d0) as H0.
  { unfold requestDownloadTaskControl in Hreq. cbv zeta in Hreq. injection Hreq as Hret <-.
    unfold returning in Hret.
    destruct (get_row _ (dl_tasks d)) as [r|] eqn:E; [|done].
    apply get_row_Some in E as [Hr Hq]. injection Hret as <-.
    pose proof Hq as [Hk%bool_decide_eq_true Hs%is_status_true]%andb_prop.
    split; [by apply unique_keys_update|]. exists (control_task ctl_cancel now0 r).
    unfold getDownloadTask. simpl. rewrite <-Hk at 1.
    destruct (update_one_row dt_id (λ r, has_key dt_id id r && is_status running r)
      (control_task ctl_cancel now0) (dl_tasks d) r) as [_ ->]; try done.
    { intros x [Hx%bool_decide_eq_true _]%andb_prop. congruence. }
    rewrite bool_decide_true by done. split; [done|]. right. simpl.
    by destruct (dt_controlRequested r) as [[]|]. }
  assert (cancelling id (dt_leaseExpiresAt t) d') as H.
  { unfold d', download_run. clear Hreq d'. revert d0 H0. induction Hcs as [|c cs Hc _ IH]; intros d0 H0; [done|].
    simpl. apply IH. by apply cancelling_step. }
  split; [done|]. clearbody d'. destruct H as [_ (x & Hg & Hx)]. pose proof Hg as [_ Hid]%by_key_Some.
  unfold getDownloadTask in *. simpl. rewrite by_key_update, Hg by done. simpl. split.
  2: { intros Hj. unfold expired, journaled. by rewrite Hid, (bool_decide_true (id ∈ _)), andb_false_r by done. }
  intros L HL Hnow Hj. eexists. split; [done|]. destruct Hx as [Hx|(Hs & Hc & Hl)].
  - destruct (expired d' now x) eqn:E; [|done]. unfold expired in E.
    rewrite !andb_true_iff, is_status_true in E. destruct E as [[E _] _]. congruence.
  - assert (expired d' now x = true) as ->.
    { unfold expired, journaled. rewrite (proj2 (is_status_true _ _) Hs), Hl, HL. simpl.
      apply by_key_Some in Hg as [_ ->]. by rewrite bool_decide_true, bool_decide_false. }
    simpl. by rewrite Hc.
Qed.

Definition cancel_requested : option DownloadTaskRecord * download_db :=
  Eval vm_compute in requestDownloadTaskControl "a" ctl_cancel 60 leased_db.

Lemma download_cancel_sticky_witness :
  cancelling "a" (Some 150) (download_run [DControl "a" ctl_pause 70; DRenew "a" "w" 100 80; DClaim "v" 100 200]
    cancel_requested.2).
Proof.
  refine (proj1 (download_cancel_sticky "a" 60 leased_db
    (default (DownloadTask "" "" "" "" "" "" "" "" queued 0 None 0 None None None None None 0 0 None None None
       None None None None None None false 0 None None 0) cancel_requested.1) cancel_requested.2 _ 300 _ _ _)).
  - apply (bool_decide_eq_true_1 (NoDup _)); by vm_compute.
  - by vm_compute.
  - repeat (apply Forall_cons; split); done.
Defined.
