(* ===== verification/DownloadRoutes.v ===== *)
(** * Download routes

    apps/api/src/routes/downloads.ts: the handlers that create, pause, resume,
    cancel, retry and delete download tasks.  The storage scope of
    storage-scope.ts, the file system and [new URL] are parameters; the files
    that the handlers unlink are logged in the world, in order. *)
From Stdlib Require Import Ascii.
From S2P Require Import Prelude Sql JsString Downloads Http.
Open Scope Z_scope.

Record dl_world := DlWorld { w_db : download_db; w_unlinked : list string }.
Notation dl_handler := (prog dl_world).

Definition on_db {A} (f : download_db → A * download_db) : dl_handler A := λ w,
  let '(a, d) := f (w_db w) in (inr a, DlWorld d (w_unlinked w)).
Definition on_db_prog {A} (m : dl_prog A) : dl_handler A := λ w,
  let '(r, d) := m (w_db w) in (r, DlWorld d (w_unlinked w)).
Definition find_task (id : string) : dl_handler (option DownloadTaskRecord) :=
  gets (λ w, getDownloadTask id (w_db w)).

Definition status_name (s : DownloadTaskStatus) : string :=
  match s with
  | queued => "queued" | running => "running" | paused => "paused"
  | completed => "completed" | failed => "failed" | cancelled => "cancelled"
  end.

Definition isMissingPathError (e : exn) : bool := has_code e ["ENOENT"; "ENOTDIR"].
Definition isPermissionError (e : exn) : bool := has_code e ["EACCES"; "EPERM"].
Definition isUniqueConstraintError (e : exn) : bool := has_code e ["SQLITE_CONSTRAINT_UNIQUE"].

Definition sendDownloadError {A} (e : exn) : reply A :=
  if instance_of "StorageScopeError" e then send_error (exn_status e ⁇ 200) (exn_message e)
  else if isPermissionError e then send_error 403 "Download target is not accessible"
  else if isMissingPathError e then send_error 404 "Download target path not found"
  else send_error 400 (exn_message e).

(** ** Input *)
Definition MAX_URL_LENGTH : Z := 8192.
Definition MAX_FILE_NAME_LENGTH : Z := 255.
Definition MAX_TARGET_DIRECTORY_LENGTH : Z := 4096.

Record url := Url { url_protocol : string; url_username : string; url_password : string; url_href : string }.

Definition trimmed (raw : option string) : string := from_option trim "" raw.

Definition normalizeDownloadUrl (parse : string → option url) (raw : option string) : string + string :=
  let value := trimmed raw in
  if bool_decide (value = "") || bool_decide (MAX_URL_LENGTH < len value)
  then inl "Download URL is required"
  else match parse value with
       | None => inl "Download URL is invalid"
       | Some u =>
           if negb (bool_decide (url_protocol u = "http:")) && negb (bool_decide (url_protocol u = "https:"))
           then inl "Only HTTP and HTTPS downloads are supported"
           else if negb (bool_decide (url_username u = "")) || negb (bool_decide (url_password u = ""))
           then inl "Download URLs with credentials are not supported"
           else inr (url_href u)
       end.

Definition normalizeTargetDirectory (raw : option string) : string + string :=
  let value := trimmed raw in
  if bool_decide (value = "") || bool_decide (MAX_TARGET_DIRECTORY_LENGTH < len value)
  then inl "Download target directory is required" else inr value.

Definition normalizeFileName (raw : option string) : string + string :=
  let name := trimmed raw in
  if bool_decide (name = "") || bool_decide (MAX_FILE_NAME_LENGTH < len name) ||
     bool_decide (MAX_FILE_NAME_LENGTH < byteLength name)
  then inl "Download file name is required"
  else if bool_decide (name = ".") || bool_decide (name = "..") || has_char "000" name ||
          has_char "/" name || has_char "\" name
  then inl "Download file name must be a single file name"
  else inr name.

Definition normalizeSha256 (raw : option string) : string + option string :=
  let value := toLowerCase (trimmed raw) in
  if bool_decide (value = "") then inr None
  else if negb (bool_decide (len value = 64) && all_chars is_hex value)
  then inl "SHA-256 must be exactly 64 hexadecimal characters"
  else inr (Some value).

Record create_body := CreateBody {
  cb_url : option string;
  cb_rootId : option string;
  cb_storagePoolId : option string;
  cb_targetDirectory : option string;
  cb_fileName : option string;
  cb_sha256 : option string
}.

Section Routes.
Context {scope : Type} (scope_root scope_pool : scope → string).
Context (root_exists : string → bool) (system : bool).
Context (resolveStoragePoolScope : option string → option string → exn + scope).
(** [realPath] and [relativePath] of the resolved directory. *)
Context (resolveScopedExistingPath : scope → string → exn + string * string).
Context (resolveScopedTargetPath : scope → string → exn + string).
Context (isDirectory : string → exn + bool) (access : string → exn + unit) (lstat : string → exn + unit).
Context (unlink : string → exn + unit) (parse_url : string → option url).

Definition lift {A} (r : exn + A) : dl_handler A :=
  match r with inl e => throw e | inr a => mret a end.

Definition unlink_file (p : string) : dl_handler unit :=
  _ ← lift (unlink p);
  modify (λ w, DlWorld (w_db w) (w_unlinked w ++ [p])).

Definition removePartialFile (task : DownloadTaskRecord) : dl_handler bool :=
  if negb (root_exists (dt_rootId task)) || negb system then mret false
  else try_catch
    (s ← lift (resolveStoragePoolScope (Some (dt_rootId task)) (Some (dt_storagePoolId task)));
     partial ← lift (resolveScopedTargetPath s (dt_partialPath task));
     _ ← unlink_file partial;
     mret true)
    (λ e, mret (isMissingPathError e)).

Definition exists_path (p : string) : dl_handler bool :=
  match lstat p with
  | inr _ => mret true
  | inl e => if isMissingPathError e then mret false else throw e
  end.

Definition create_checked (id : string) (now : Z) (url fileName : string) (sha256 : option string)
    (targetDirectory : string) (s : scope) : dl_handler (reply DownloadTaskRecord) :=
  dir ← lift (resolveScopedExistingPath s targetDirectory);
  is_dir ← lift (isDirectory dir.1);
  if negb is_dir then mret (send_error 400 "Download target directory must be a directory") else
  writable ← try_catch (_ ← lift (access dir.1); mret true)
               (λ e, if isPermissionError e then mret false else throw e);
  if negb writable then mret (send_error 403 "Download target directory is not writable") else
  let targetPath := path_join [dir.2; fileName] in
  target ← lift (resolveScopedTargetPath s targetPath);
  taken ← exists_path target;
  if (taken : bool) then mret (send_error 409 "Download target already exists") else
  task ← on_db_prog (createDownloadTask id
           (DownloadInput url (scope_root s) (scope_pool s) dir.2 fileName targetPath sha256 None) now);
  mret (send_status 201 task).

(** POST /api/downloads *)
Definition post_download (id : string) (now : Z) (b : create_body) : dl_handler (reply DownloadTaskRecord) :=
  match normalizeDownloadUrl parse_url (cb_url b), normalizeTargetDirectory (cb_targetDirectory b),
        normalizeFileName (cb_fileName b), normalizeSha256 (cb_sha256 b) with
  | inl e, _, _, _ | inr _, inl e, _, _ | inr _, inr _, inl e, _ | inr _, inr _, inr _, inl e =>
      mret (send_error 400 e)
  | inr url, inr dir, inr name, inr sha =>
      match resolveStoragePoolScope (cb_rootId b) (cb_storagePoolId b) with
      | inl e => mret (sendDownloadError e)
      | inr s => try_catch (create_checked id now url name sha dir s)
          (λ e, if isUniqueConstraintError e then mret (send_error 409 "Download target already has a task")
                else mret (sendDownloadError e))
      end
  end.

Definition not_found {A} : dl_handler (reply A) := mret (send_error 404 "Download task not found").

Definition transitionTaskStatus (id : string) (from : list DownloadTaskStatus) (to : DownloadTaskStatus)
    (now : Z) : dl_handler (reply DownloadTaskRecord) :=
  o ← find_task id;
  match o with
  | None => not_found
  | Some task =>
      updated ← on_db (transitionDownloadTask id (DownloadTransition from to None None false false) now);
      match updated with
      | None => mret (send_error 409 ("Download task cannot transition from " +:+ status_name (dt_status task)
                                      +:+ " to " +:+ status_name to))
      | Some u =>
          _ ← (if bool_decide (to = cancelled) then _ ← removePartialFile u; mret tt else mret tt);
          mret (send u)
      end
  end.

Definition post_pause (id : string) (now : Z) : dl_handler (reply DownloadTaskRecord) :=
  o ← find_task id;
  match o with
  | None => not_found
  | Some task =>
      if bool_decide (dt_status task = running)
      then requested ← on_db (requestDownloadTaskControl (dt_id task) ctl_pause now);
           mret (send (requested ⁇ task))
      else transitionTaskStatus id [queued] paused now
  end.

Definition post_resume (id : string) (now : Z) : dl_handler (reply DownloadTaskRecord) :=
  transitionTaskStatus id [paused] queued now.

Definition post_cancel (id : string) (now : Z) : dl_handler (reply DownloadTaskRecord) :=
  o ← find_task id;
  match o with
  | None => not_found
  | Some task =>
      if bool_decide (dt_status task = running)
      then requested ← on_db (requestDownloadTaskControl (dt_id task) ctl_cancel now);
           mret (send (requested ⁇ task))
      else
        c ← on_db (transitionDownloadTask (dt_id task)
                     (DownloadTransition [queued; running; paused] cancelled None None false false) now);
        match c with
        | None => mret (send_error 409 ("Download task cannot be cancelled while " +:+ status_name (dt_status task)))
        | Some c =>
            removed ← removePartialFile c;
            if negb removed then mret (send_error 409 "Download partial file could not be removed")
            else current ← find_task (dt_id task); mret (send (current ⁇ c))
        end
  end.

Definition post_retry (id : string) (now : Z) : dl_handler (reply DownloadTaskRecord) :=
  o ← find_task id;
  match o with
  | None => not_found
  | Some task =>
      let resetProgress := bool_decide (dt_status task = cancelled) ||
                           bool_decide (dt_errorCode task = Some err_checksum_mismatch) in
      removed ← (if resetProgress then removePartialFile task else mret true);
      if negb removed then mret (send_error 409 "Download partial file could not be removed") else
      retried ← on_db (transitionDownloadTask (dt_id task)
                         (DownloadTransition [failed; cancelled] queued None None false resetProgress) now);
      match retried with
      | None => mret (send_error 409 ("Download task cannot be retried while " +:+ status_name (dt_status task)))
      | Some t => mret (send t)
      end
  end.

Definition remove_task (task : DownloadTaskRecord) : dl_handler (reply DownloadTaskRecord) :=
  removed ← (if bool_decide (dt_status task ≠ completed) then removePartialFile task else mret true);
  if negb removed then mret (send_error 409 "Download partial file could not be removed") else
  gone ← on_db (deleteDownloadTask (dt_id task));
  if negb gone then mret (send_error 409 "Download task could not be removed")
  else mret (Reply 204 NoBody).

(** DELETE /api/downloads/:id *)
Definition delete_download (id : string) (now : Z) : dl_handler (reply DownloadTaskRecord) :=
  o ← find_task id;
  match o with
  | None => not_found
  | Some task =>
      if bool_decide (dt_status task = running)
      then mret (send_error 409 "Running download tasks cannot be removed")
      else if bool_decide (dt_status task = completed) || bool_decide (dt_status task = cancelled)
      then remove_task task
      else
        isolated ← on_db (transitionDownloadTask (dt_id task)
                            (DownloadTransition [queued; paused; failed] cancelled None None false false) now);
        match isolated with
        | Some t => remove_task t
        | None =>
            current ← find_task (dt_id task);
            match current with
            | None => not_found
            | Some c =>
                match dt_status c with
                | running => mret (send_error 409 "Running download tasks cannot be removed")
                | completed | cancelled => remove_task c
                | s => mret (send_error 409 ("Download task cannot be removed while " +:+ status_name s))
                end
            end
        end
  end.
End Routes.

(** ** Accepted names *)
Lemma normalizeFileName_plain raw name : normalizeFileName raw = inr name →
  plain_name name ∧ byteLength name ≤ MAX_FILE_NAME_LENGTH ∧ no_char "000" name ∧ no_char "\" name.
Proof.
  unfold normalizeFileName. cbv zeta. set (n := trimmed raw). clearbody n.
  destruct (bool_decide (n = "") || _ || _) eqn:E1; [done|].
  destruct (bool_decide (n = ".") || _ || _ || _ || _) eqn:E2; [done|]. intros [= <-].
  apply orb_false_iff in E1 as [[?%bool_decide_eq_false ?]%orb_false_iff ?%bool_decide_eq_false].
  apply orb_false_iff in E2 as [[[[?%bool_decide_eq_false ?%bool_decide_eq_false]%orb_false_iff
    ?]%orb_false_iff ?]%orb_false_iff ?]. repeat split; try done. lia.
Qed.

(** A name joined to a directory of plain names is its child. *)
Lemma path_join_child l name : Forall plain_name l → l ≠ [] → plain_name name →
  path_join [join "/" l; name] = join "/" (l ++ [name]).
Proof.
  intros Hl Hne Hn. assert (Forall plain_name (l ++ [name])) as Hall by (apply Forall_app; auto).
  assert (∀ k, Forall plain_name k → k ≠ [] → join "/" k ≠ "" ∧ isAbsolute (join "/" k) = false) as Hj.
  { intros k Hk Hk0. destruct Hk as [|x k (H1&_&_&H4) Hk]; [done|].
    destruct x as [|c x]; [done|]. apply no_char_String in H4 as [Hc _].
    assert (∀ s, String c s ≠ "" ∧ isAbsolute (String c s) = false) as Hs.
    { intros s. split; [done|]. unfold isAbsolute, startsWith.
      change (String.prefix "/" (String c s)) with (if ascii_dec "/" c then String.prefix "" s else false).
      by destruct (ascii_dec "/" c). }
    destruct k; simpl; apply Hs. }
  destruct (Hj l Hl Hne) as [Hj1 _], (Hj (l ++ [name]) Hall) as [Hj3 Hj4]; [by destruct l|].
  unfold path_join. simpl. rewrite bool_decide_false by done. simpl.
  destruct Hn as (Hn1&Hn2&Hn3&Hn4). rewrite bool_decide_false by done. simpl.
  assert (join "/" l +:+ String "/" name = join "/" (l ++ [name])) as -> by (by rewrite join_app).
  unfold normalize. rewrite bool_decide_false by done. rewrite Hj4. simpl.
  unfold normalizeString, segments. rewrite split_join; [|by destruct l|].
  2: { eapply Forall_impl; [done|]. by intros ? (_&_&_&?). }
  rewrite norm_segments_id by done. simpl. rewrite bool_decide_false by done.
  enough (endsWith_char sep (join "/" (l ++ [name])) = false) as -> by done.
  apply bool_decide_eq_false. intros Hlast. rewrite join_app in Hlast by done.
  assert (∀ a b, b ≠ "" → last_char (a +:+ b) = last_char b) as Happ.
  { intros a b Hb. induction a as [|c a IH]; [done|]. simpl. rewrite IH. by destruct (a +:+ b) eqn:E; [destruct a|]. }
  rewrite Happ in Hlast by done. simpl in Hlast.
  assert (∀ s, no_char sep s → last_char s ≠ Some sep) as Hno.
  { induction s as [|c s IH]; [done|]. intros [Hc Hs]%no_char_String. simpl.
    destruct s; [congruence|by apply IH]. }
  apply (Hno name Hn4). destruct name; done.
Qed.

Lemma createDownloadTask_cases id input now d :
  (∃ e, createDownloadTask id input now d = (inl e, d)) ∨
  ∃ t, createDownloadTask id input now d = (inr t, d <| dl_tasks := insert_row t (dl_tasks d) |>) ∧
    getDownloadTask id d = None ∧ dt_id t = id ∧ dt_status t = queued ∧ dt_receivedBytes t = 0 ∧
    dt_url t = in_url input ∧ dt_targetDirectory t = in_targetDirectory input ∧ dt_targetPath t = in_targetPath input ∧
    exists_where (same_target (dt_rootId t) (dt_storagePoolId t) (dt_targetPath t)) (dl_tasks d) = false.
Proof.
  unfold createDownloadTask. cbv zeta. set (row := DownloadTask _ _ _ _ _ _ _ _ _ _ _ _ _ _ _ _ _ _ _ _ _ _ _ _ _ _ _ _ _ _ _ _ _).
  unfold mbind, prog_bind, insert_download_task.
  destruct (negb (valid_sha_column _)); [by left; eauto|].
  destruct (by_key dt_id (dt_id row) (dl_tasks d)) eqn:Ek; [by left; eauto|]. simpl isSome. cbv iota.
  destruct (exists_where _ _) eqn:Ex; [by left; eauto|]. destruct (negb _); [by left; eauto|].
  right. exists row. unfold getRequiredDownloadTask, mbind, prog_bind, gets, getDownloadTask. simpl.
  rewrite by_key_insert. simpl in Ek. rewrite Ek. unfold has_key. simpl. by rewrite bool_decide_true.
Qed.

Lemma get_transition id tr now d t s0 :
  getDownloadTask id d = Some t → unique_keys dt_id (dl_tasks d) → dt_status t = s0 → s0 ∈ tr_from tr →
  ∃ d', transitionDownloadTask id tr now d = (Some (transition_task tr now t), d') ∧
    (∀ k, getDownloadTask k d' = if bool_decide (k = id) then Some (transition_task tr now t) else getDownloadTask k d) ∧
    unique_keys dt_id (dl_tasks d') ∧ dl_journal d' = dl_journal d ∧
    dl_segments d' = (if tr_resetProgress tr then drop_ids id (dl_segments d) else dl_segments d) ∧
    dl_reservations d' = (if tr_resetProgress tr then drop_ids id (dl_reservations d) else dl_reservations d).
Proof.
  intros Hg Hu Hs Hin. unfold getDownloadTask in Hg. pose proof Hg as [Hr Hid]%by_key_Some.
  destruct (update_one_row dt_id (λ r, has_key dt_id id r && bool_decide (dt_status r ∈ tr_from tr))
    (transition_task tr now) (dl_tasks d) t) as [Hret Hby]; [done..| | |].
  { unfold has_key. rewrite bool_decide_true by done. by rewrite bool_decide_true by congruence. }
  { intros x [Hx%bool_decide_eq_true _]%andb_prop. congruence. }
  unfold transitionDownloadTask. destruct (tr_from tr) as [|s1 l] eqn:Ef; [by apply not_elem_of_nil in Hin|].
  cbv zeta. rewrite Hret. simpl isSome.
  eexists. split; [done|]. rewrite <-Hid. unfold getDownloadTask.
  destruct (tr_resetProgress tr); simpl; (split; [intros k; by rewrite <-Hby, Hid|]);
    (split; [by apply unique_keys_update|done]).
Qed.

Lemma transition_stuck id tr now d t :
  getDownloadTask id d = Some t → unique_keys dt_id (dl_tasks d) → dt_status t ∉ tr_from tr →
  transitionDownloadTask id tr now d = (None, d).
Proof.
  intros Hg Hu Hn. unfold transitionDownloadTask. destruct (tr_from tr) as [|s l] eqn:Ef; [done|]. cbv zeta.
  assert (get_row (λ r, has_key dt_id id r && bool_decide (dt_status r ∈ s :: l)) (dl_tasks d) = None) as E.
  { apply get_row_None. intros r Hr. apply by_key_Some in Hg as [Ht Hid].
    destruct (has_key dt_id id r) eqn:Hk; [|done]. apply bool_decide_eq_true in Hk.
    rewrite (unique_key_eq dt_id (dl_tasks d) r t) by congruence. simpl. by apply bool_decide_eq_false. }
  unfold returning. rewrite E. rewrite update_where_none by done. simpl. by destruct d.
Qed.

(** No trace of task [id] but for the rows of others. *)
Definition task_gone (id : string) (d d' : download_db) : Prop :=
  getDownloadTask id d' = None ∧
  (∀ k, k ≠ id → getDownloadTask k d' = getDownloadTask k d) ∧
  id ∉ dl_journal d' ++ dl_segments d' ++ dl_reservations d'.

Lemma drop_ids_In id l : id ∉ drop_ids id l.
Proof.
  unfold drop_ids. rewrite list_elem_of_In, filter_In, negb_true_iff, bool_decide_eq_false. tauto.
Qed.

Lemma deleteDownloadTask_gone id d t :
  getDownloadTask id d = Some t → unique_keys dt_id (dl_tasks d) → dt_status t ≠ running →
  ∃ d', deleteDownloadTask id d = (true, d') ∧ task_gone id d d'.
Proof.
  intros Hg Hu Hn. unfold deleteDownloadTask. cbv zeta.
  set (q r := has_key dt_id id r && negb (is_status running r)).
  assert (count_where q (dl_tasks d) = 1%nat) as Hc.
  { pose proof (count_key_le_1 dt_id id (λ r, negb (is_status running r)) (dl_tasks d) Hu) as Hle.
    assert (0 < count_where q (dl_tasks d))%nat; [|unfold q in *; lia].
    apply count_where_pos. exists t. apply by_key_Some in Hg as [Ht Hid]. split; [done|].
    unfold q, has_key, is_status. by rewrite bool_decide_true, bool_decide_false. }
  rewrite bool_decide_true by done. eexists. split; [done|]. unfold task_gone, getDownloadTask in *. simpl.
  rewrite !elem_of_app. pose proof (drop_ids_In id). split; [|split; [|naive_solver]].
  - rewrite by_key_delete, Hg by done. unfold q, is_status.
    pose proof Hg as [_ Hid]%by_key_Some. unfold has_key. by rewrite bool_decide_true, bool_decide_false.
  - intros k Hk. rewrite by_key_delete by done. destruct (by_key dt_id k _) as [x|] eqn:Ex; [|done].
    apply by_key_Some in Ex as [_ Hx]. unfold q, has_key. by rewrite bool_decide_false by congruence.
Qed.

(** ** The routes *)
Section RouteFacts.
#[local] Set Default Proof Using "Type".
Context {scope : Type} (scope_root scope_pool : scope → string).
Context (root_exists : string → bool) (system : bool).
Context (rScope : option string → option string → exn + scope).
Context (rExisting : scope → string → exn + string * string).
Context (rTarget : scope → string → exn + string).
Context (isDir : string → exn + bool) (access lstat : string → exn + unit).
Context (unlink : string → exn + unit) (parse_url : string → option url).

Notation removePartial := (removePartialFile root_exists system rScope rTarget unlink).
Notation createChecked := (create_checked scope_root scope_pool rExisting rTarget isDir access lstat).
Notation postDownload := (post_download scope_root scope_pool rScope rExisting rTarget isDir access lstat parse_url).
Notation deleteDownload := (delete_download root_exists system rScope rTarget unlink).
Notation removeTask := (remove_task root_exists system rScope rTarget unlink).
Notation postRetry := (post_retry root_exists system rScope rTarget unlink).

Lemma removePartialFile_db t w : ∃ b l,
  removePartial t w = (inr b, DlWorld (w_db w) (w_unlinked w ++ l)).
Proof.
  unfold removePartialFile. destruct (_ || _).
  { exists false, []. rewrite app_nil_r. by destruct w. }
  unfold try_catch, mbind, prog_bind, unlink_file, lift, throw, mret, prog_ret, modify.
  destruct (rScope _ _) as [e|s]; [exists (isMissingPathError e), []; rewrite app_nil_r; by destruct w|].
  destruct (rTarget _ _) as [e|p]; [exists (isMissingPathError e), []; rewrite app_nil_r; by destruct w|].
  destruct (unlink p) as [e|[]] eqn:E; unfold mbind, prog_bind; rewrite ?E; simpl.
  - exists (isMissingPathError e), []. rewrite app_nil_r. by destruct w.
  - by exists true, [p].
Qed.

(** What is stored by an accepted request: a queued task whose target is the
    accepted name in the resolved directory. *)
Definition stored_task (id : string) (b : create_body) (d : download_db) (t : DownloadTaskRecord) : Prop :=
  getDownloadTask id d = None ∧ dt_id t = id ∧ dt_status t = queued ∧ dt_receivedBytes t = 0 ∧
  exists_where (same_target (dt_rootId t) (dt_storagePoolId t) (dt_targetPath t)) (dl_tasks d) = false ∧
  ∃ name, normalizeFileName (cb_fileName b) = inr name ∧ plain_name name ∧
    dt_targetPath t = path_join [dt_targetDirectory t; name] ∧
    ∀ l, Forall plain_name l → l ≠ [] → dt_targetDirectory t = join "/" l →
      dt_targetPath t = join "/" (l ++ [name]).

Lemma create_checked_cases id now u b name sha dir s w :
  normalizeFileName (cb_fileName b) = inr name →
  (∃ e, createChecked id now u name sha dir s w = (inl e, w)) ∨
  (∃ n m, createChecked id now u name sha dir s w = (inr (send_error n m), w)) ∨
  ∃ t, createChecked id now u name sha dir s w =
    (inr (send_status 201 t), DlWorld (w_db w <| dl_tasks := insert_row t (dl_tasks (w_db w)) |>) (w_unlinked w)) ∧
    stored_task id b (w_db w) t.
Proof.
  intros Hname. unfold create_checked, try_catch, exists_path, mbind, prog_bind, lift, throw, mret, prog_ret.
  destruct (rExisting s dir) as [e|[rp rel]]; [left; eauto|]. simpl.
  destruct (isDir rp) as [e|[]]; [left; by eauto| |right; left; by eauto]. simpl.
  assert (∀ k : bool → dl_handler (reply DownloadTaskRecord), True) as _ by done.
  destruct (access rp) as [e|[]]; simpl.
  { destruct (isPermissionError e); simpl; [right; left; by eauto|left; by eauto]. }
  destruct (rTarget s _) as [e|target]; [left; by eauto|]. simpl.
  destruct (lstat target) as [e|[]]; simpl; [|right; left; by eauto].
  destruct (isMissingPathError e); simpl; [|left; by eauto]. unfold on_db_prog.
  destruct (createDownloadTask_cases id
    (DownloadInput u (scope_root s) (scope_pool s) rel name (path_join [rel; name]) sha None) now (w_db w))
    as [[e' ->]|(t & -> & Hid & H1 & H2 & H3 & _ & H5 & H6 & H7)]; [left; by destruct w; eauto|].
  right; right. exists t. split; [done|]. repeat split; try done.
  destruct (normalizeFileName_plain _ _ Hname) as (Hp & _). simpl in H5, H6.
  exists name. repeat split; try apply Hp; [done|congruence|].
  intros l Hl Hne Hd. rewrite H6. rewrite <-H5, Hd. by apply path_join_child.
Qed.

(** Creating a download never throws, and does all or nothing.  Either
    the reply is an error and the world is unchanged, or it is 201 with the
    one task that was stored: queued, new in id and in target, and its target
    a single plain file name directly inside the resolved directory. *)
Theorem post_download_spec id now b w :
  ∃ rep w', postDownload id now b w = (inr rep, w') ∧
  ((∃ n m, rep = send_error n m ∧ w' = w) ∨
   ∃ t, rep = send_status 201 t ∧ stored_task id b (w_db w) t ∧ w_unlinked w' = w_unlinked w ∧
     w_db w' = w_db w <| dl_tasks := insert_row t (dl_tasks (w_db w)) |>).
Proof.
  unfold post_download.
  destruct (normalizeDownloadUrl _ _) as [e|u]; [eexists _, _; split; [done|]; left; by eauto|].
  destruct (normalizeTargetDirectory _) as [e|dir]; [eexists _, _; split; [done|]; left; by eauto|].
  destruct (normalizeFileName _) as [e|name] eqn:En; [eexists _, _; split; [done|]; left; by eauto|].
  destruct (normalizeSha256 _) as [e|sha]; [eexists _, _; split; [done|]; left; by eauto|].
  assert (∀ e, ∃ n m, sendDownloadError (A:=DownloadTaskRecord) e = send_error n m) as Hs.
  { intros e. unfold sendDownloadError. destruct (instance_of _ _); [by eauto|].
    destruct (isPermissionError e); [by eauto|]. destruct (isMissingPathError e); by eauto. }
  destruct (rScope _ _) as [e|s].
  { destruct (Hs e) as (n & m & E). exists (send_error n m), w. rewrite E. split; [done|]. left; by eauto. }
  unfold try_catch.
  destruct (create_checked_cases id now u b name sha dir s w En) as [[e ->]|[(n & m & ->)|(t & -> & Ht)]].
  - destruct (isUniqueConstraintError e); [eexists _, _; split; [done|]; left; by eauto|].
    destruct (Hs e) as (n & m & E). exists (send_error n m), w. rewrite E. split; [done|]. left; by eauto.
  - eexists _, _; split; [done|]. left; by eauto.
  - eexists _, _; split; [done|]. right. exists t. done.
Qed.

Lemma remove_task_cases id t w :
  getDownloadTask id (w_db w) = Some t → unique_keys dt_id (dl_tasks (w_db w)) → dt_status t ≠ running →
  ∃ rep w', removeTask t w = (inr rep, w') ∧
  ((rp_status rep = 204 ∧ task_gone id (w_db w) (w_db w')) ∨
   (rp_status rep = 409 ∧ dt_status t ≠ completed ∧ w_db w' = w_db w)).
Proof.
  intros Hg Hu Hn. assert (dt_id t = id) as Hid by (by apply by_key_Some in Hg as [_ ?]).
  destruct (deleteDownloadTask_gone id (w_db w) t Hg Hu Hn) as (d' & Hdel & Hgone).
  unfold remove_task, mbind, prog_bind. case_bool_decide as Hc.
  - destruct (removePartialFile_db t w) as (b & l & ->). destruct b; simpl; [|by eauto 10].
    unfold on_db. simpl. rewrite Hid, Hdel. simpl. eexists _, _. split; [done|]. by left.
  - simpl. unfold on_db. simpl. rewrite Hid, Hdel. simpl. eexists _, _. split; [done|]. by left.
Qed.

(** Deleting a download: an unknown task is 404 and a running one 409,
    with nothing changed; any other task is either gone with all its rows,
    reply 204, its partial file having been removed unless it was completed,
    or - when the partial file cannot be removed - kept, but cancelled, so
    that no worker takes it up. *)
Theorem delete_download_spec id now w :
  unique_keys dt_id (dl_tasks (w_db w)) →
  match getDownloadTask id (w_db w) with
  | None => deleteDownload id now w = (inr (send_error 404 "Download task not found"), w)
  | Some t =>
      if bool_decide (dt_status t = running)
      then deleteDownload id now w = (inr (send_error 409 "Running download tasks cannot be removed"), w)
      else ∃ rep w', deleteDownload id now w = (inr rep, w') ∧
        ((rp_status rep = 204 ∧ task_gone id (w_db w) (w_db w')) ∨
         (rp_status rep = 409 ∧ dt_status t ≠ completed ∧
          ∃ t', getDownloadTask id (w_db w') = Some t' ∧ dt_status t' = cancelled))
  end.
Proof.
  intros Hu. unfold delete_download, find_task. rewrite !bind_gets.
  destruct (getDownloadTask id (w_db w)) as [t|] eqn:Hg; [|done].
  destruct (bool_decide (dt_status t = running)) eqn:Hrun; [done|]. apply bool_decide_eq_false in Hrun.
  destruct (bool_decide (dt_status t = completed) || bool_decide (dt_status t = cancelled)) eqn:E.
  - destruct (remove_task_cases id t w Hg Hu Hrun) as (rep & w' & -> & H).
    exists rep, w'. split; [done|]. destruct H as [H|(H1&H2&H3)]; [by left|right].
    apply orb_true_iff in E as [E%bool_decide_eq_true|E%bool_decide_eq_true]; [done|].
    split; [done|]. split; [done|]. exists t. by rewrite H3.
  - apply orb_false_iff in E as [E1%bool_decide_eq_false E2%bool_decide_eq_false].
    assert (dt_id t = id) as Hid by (by apply by_key_Some in Hg as [_ ?]).
    destruct (get_transition id (DownloadTransition [queued; paused; failed] cancelled None None false false) now
      (w_db w) t (dt_status t)) as (d' & Htr & Hget & Hu' & _ & _ & _); [done..| |].
    { simpl. rewrite !elem_of_cons. destruct (dt_status t); try done; auto. }
    set (t' := transition_task _ _ _) in *. set (w1 := DlWorld d' (w_unlinked w)).
    erewrite bind_inr by (unfold on_db; rewrite Hid, Htr; reflexivity). fold w1.
    assert (getDownloadTask id (w_db w1) = Some t') as Hg' by (simpl; by rewrite Hget, bool_decide_true).
    destruct (remove_task_cases id t' w1 Hg' Hu') as (rep & w' & -> & H); [done|].
    exists rep, w'. split; [done|]. destruct H as [(H1&H2&H3&H4)|(H1&H2&H3)]; [left|right].
    + split; [done|]. split; [done|]. split; [|done]. intros k Hk. rewrite H3 by done. simpl.
      by rewrite Hget, bool_decide_false.
    + split; [done|]. split; [done|]. exists t'. by rewrite H3.
Qed.

(** A retried task starts over when it was cancelled or its checksum failed. *)
Definition restarts (t : DownloadTaskRecord) : bool :=
  bool_decide (dt_status t = cancelled) || bool_decide (dt_errorCode t = Some err_checksum_mismatch).

(** Retrying a download: an unknown task is 404; a task that is neither
    failed nor cancelled is refused with 409 and no database change; any other
    task becomes queued with its error cleared.  It goes on from the bytes it
    has, unless it was cancelled or its checksum did not match: then the
    partial file is removed first - or the retry refused - and the task starts
    from zero bytes with no segments and no reservation. *)
Theorem post_retry_spec id now w :
  unique_keys dt_id (dl_tasks (w_db w)) →
  match getDownloadTask id (w_db w) with
  | None => postRetry id now w = (inr (send_error 404 "Download task not found"), w)
  | Some t => ∃ rep w', postRetry id now w = (inr rep, w') ∧
      ((rp_status rep = 409 ∧ w_db w' = w_db w ∧
        (dt_status t ∉ [failed; cancelled] ∨ restarts t = true)) ∨
       ∃ t', rep = send t' ∧ dt_status t ∈ [failed; cancelled] ∧
         getDownloadTask id (w_db w') = Some t' ∧
         dt_status t' = queued ∧ dt_error t' = None ∧ dt_errorCode t' = None ∧ dt_nextRetryAt t' = None ∧
         if restarts t
         then dt_receivedBytes t' = 0 ∧ dt_totalBytes t' = None ∧ dt_etag t' = None ∧
              id ∉ dl_segments (w_db w') ∧ id ∉ dl_reservations (w_db w')
         else dt_receivedBytes t' = dt_receivedBytes t ∧ dt_totalBytes t' = dt_totalBytes t ∧
              dt_etag t' = dt_etag t ∧ dl_segments (w_db w') = dl_segments (w_db w))
  end.
Proof.
  intros Hu. unfold post_retry, find_task. rewrite !bind_gets.
  destruct (getDownloadTask id (w_db w)) as [t|] eqn:Hg; [|done]. cbv zeta. fold (restarts t).
  assert (dt_id t = id) as Hid by (by apply by_key_Some in Hg as [_ ?]). rewrite Hid.
  assert (∃ b w1, (if restarts t then removePartial t else mret true) w = (inr b, w1) ∧
    w_db w1 = w_db w ∧ (b = false → restarts t = true)) as (b & w1 & Hrm & Hw1 & Hb).
  { destruct (restarts t); [|by exists true, w].
    destruct (removePartialFile_db t w) as (b & l & ->). by eexists _, _. }
  erewrite bind_inr by exact Hrm. cbv beta. destruct b; cbv [negb]; [clear Hb|by eauto 10].
  set (tr := DownloadTransition _ _ _ _ _ _).
  destruct (decide (dt_status t ∈ [failed; cancelled])) as [Hin|Hout].
  - destruct (get_transition id tr now (w_db w1) t (dt_status t))
      as (d' & Htr & Hget & _ & _ & Hseg & Hres); [by rewrite Hw1..|done|done|].
    erewrite bind_inr by (unfold on_db; rewrite Htr; reflexivity). cbv beta iota.
    eexists _, _. split; [done|]. right. eexists. split; [done|]. split; [done|].
    split; [simpl; by rewrite Hget, bool_decide_true|]. do 4 (split; [done|]).
    simpl w_db. rewrite Hseg, Hres. unfold tr. simpl.
    destruct (restarts t); [|by rewrite Hw1]. split; [done|]. split; [done|]. split; [done|].
    split; apply drop_ids_In.
  - erewrite bind_inr by (unfold on_db; rewrite (transition_stuck id tr now (w_db w1) t) by (by rewrite ?Hw1);
      reflexivity).
    eexists _, _. split; [done|]. left. eauto.
Qed.
End RouteFacts.

(** ** A concrete server *)
Definition demo_world : dl_world := DlWorld sample_db [].
Definition demo_delete := delete_download (scope:=unit) (λ _, true) true (λ _ _, inr tt)
  (λ _ p, inr ("/srv/" +:+ p)) (λ _, inr tt).
Definition demo_retry := post_retry (scope:=unit) (λ _, true) true (λ _ _, inr tt)
  (λ _ p, inr ("/srv/" +:+ p)) (λ _, inl (ErrnoException "EACCES")).

Lemma delete_download_spec_witness :
  ∃ rep w', demo_delete "a" 30 demo_world = (inr rep, w') ∧
    ((rp_status rep = 204 ∧ task_gone "a" sample_db (w_db w')) ∨
     (rp_status rep = 409 ∧ queued ≠ completed ∧
      ∃ t', getDownloadTask "a" (w_db w') = Some t' ∧ dt_status t' = cancelled)).
Proof.
  refine (delete_download_spec (scope:=unit) (λ _, true) true (λ _ _, inr tt) (λ _ p, inr ("/srv/" +:+ p))
    (λ _, inr tt) "a" 30 demo_world _).
  apply (bool_decide_eq_true_1 (NoDup _)). by vm_compute.
Defined.

Lemma post_retry_spec_witness :
  demo_retry "zz" 30 demo_world = (inr (send_error 404 "Download task not found"), demo_world).
Proof.
  refine (post_retry_spec (scope:=unit) (λ _, true) true (λ _ _, inr tt) (λ _ p, inr ("/srv/" +:+ p))
    (λ _, inl (ErrnoException "EACCES")) "zz" 30 demo_world _).
  apply (bool_decide_eq_true_1 (NoDup _)). by vm_compute.
Defined.
