(* ===== verification/IndexQueue.v ===== *)
(** * The indexer's queue

    packages/db/src/repositories/indexer-queue.ts: the tasks the API enqueues
    for the indexer, one per root and path, and the status it reports.  Of
    index_root_state and index_content_state the store keeps the columns this
    code reads or writes; the indexer itself (a Rust daemon) is not modelled. *)
From Stdlib Require Import Ascii.
From S2P Require Import Prelude Sql JsString.
Open Scope Z_scope.

Inductive IndexRunKind := kind_full | kind_incremental | kind_manual.
Inductive IndexQueueStatus := iq_queued | iq_running | iq_retrying | iq_failed.
Inductive IndexWatcherStatus := watch_starting | watch_ready | watch_degraded | watch_unsupported.
Inductive IndexRebuildStatus := rebuild_legacy | rebuild_copying | rebuild_rebuilding | rebuild_ready | rebuild_failed.
Inductive IndexServiceState := service_ready | service_stale | service_unavailable.

Global Instance IndexRunKind_eq_dec : EqDecision IndexRunKind.
Proof. solve_decision. Defined.
Global Instance IndexQueueStatus_eq_dec : EqDecision IndexQueueStatus.
Proof. solve_decision. Defined.
Global Instance IndexWatcherStatus_eq_dec : EqDecision IndexWatcherStatus.
Proof. solve_decision. Defined.
Global Instance IndexRebuildStatus_eq_dec : EqDecision IndexRebuildStatus.
Proof. solve_decision. Defined.

Record index_task := IndexTask {
  it_id : string;
  it_root_id : string;
  it_storage_pool_id : option string;
  it_path : string;
  it_recursive : bool;
  it_kind : IndexRunKind;
  it_generation : Z;
  it_priority : Z;
  it_status : IndexQueueStatus;
  it_retry_count : Z;
  it_next_retry_at : option Z;
  it_worker_id : option string;
  it_lease_expires_at : option Z;
  it_error : option string;
  it_error_code : option string;
  it_created_at : Z;
  it_updated_at : Z;
  it_started_at : option Z;
  it_finished_at : option Z
}.
Global Instance index_task_eq_dec : EqDecision index_task.
Proof. solve_decision. Defined.
#[export] Instance eta_index_task : Eta index_task := λ r,
  IndexTask (it_id r) (it_root_id r) (it_storage_pool_id r) (it_path r) (it_recursive r) (it_kind r)
    (it_generation r) (it_priority r) (it_status r) (it_retry_count r) (it_next_retry_at r)
    (it_worker_id r) (it_lease_expires_at r) (it_error r) (it_error_code r) (it_created_at r)
    (it_updated_at r) (it_started_at r) (it_finished_at r).

Record index_root_state := IndexRootState {
  rs_root_id : string;
  rs_watcher_status : IndexWatcherStatus;
  rs_watcher_error : option string;
  rs_reconcile_requested : bool;
  rs_updated_at : Z
}.
#[export] Instance eta_index_root_state : Eta index_root_state := λ r,
  IndexRootState (rs_root_id r) (rs_watcher_status r) (rs_watcher_error r) (rs_reconcile_requested r)
    (rs_updated_at r).
Record index_content_state := IndexContentState {
  cs_root_id : string;
  cs_status : IndexRebuildStatus;
  cs_copied_count : Z;
  cs_legacy_total : Z
}.
Record indexer_worker := IndexerWorker { iw_worker_id : string; iw_heartbeat_at : Z }.

(** [ix_roots]: the ids of nas_roots, which the tables reference. *)
Record index_db := IndexDb {
  ix_roots : list string;
  ix_queue : list index_task;
  ix_root_state : list index_root_state;
  ix_content : list index_content_state;
  ix_workers : list indexer_worker
}.
#[export] Instance eta_index_db : Eta index_db := λ d,
  IndexDb (ix_roots d) (ix_queue d) (ix_root_state d) (ix_content d) (ix_workers d).

(** [value.replaceAll("\\", "/")] and the two regular expressions of
    [normalizeIndexPath]. *)
Definition drop_dot_slash (s : string) : string := if startsWith "./" s then drop_str 2 s else s.
Fixpoint drop_end_slashes (s : string) : string :=
  match s with
  | "" => ""
  | String c s => match drop_end_slashes s with
                  | "" => if Ascii.eqb c "/" then "" else String c ""
                  | s' => String c s'
                  end
  end.

Definition normalizeIndexPath (value : string) : exn + string :=
  let normalized := drop_end_slashes (drop_dot_slash (slashed (trim value))) in
  if bool_decide (normalized = "") || bool_decide (normalized = ".") then inr "."
  else if startsWith "/" normalized ||
          existsb (λ seg, bool_decide (seg = "..") || bool_decide (seg = "")) (segments normalized)
  then inl (Error "Indexer path must be a normalized relative path")
  else inr normalized.

Record enqueue_input := EnqueueInput {
  ei_rootId : string;
  ei_storagePoolId : option string;
  ei_path : option string;
  ei_recursive : bool;
  ei_kind : option IndexRunKind;
  ei_priority : option Z
}.
Record EnqueuedIndexTask := Enqueued { eq_id : string; eq_generation : Z; eq_status : IndexQueueStatus }.

Definition at_path (rootId path : string) (r : index_task) : bool :=
  bool_decide (it_root_id r = rootId) && bool_decide (it_path r = path).

Definition merge_kind (old new : IndexRunKind) : IndexRunKind :=
  match new, old with
  | kind_manual, _ => kind_manual
  | _, kind_manual => old
  | kind_full, _ => kind_full
  | _, _ => old
  end.

(** ON CONFLICT(root_id, path) DO UPDATE, [new] being the excluded row. *)
Definition requeue (new r : index_task) : index_task :=
  r <| it_storage_pool_id := coalesce (it_storage_pool_id new) (it_storage_pool_id r) |>
    <| it_recursive := it_recursive r || it_recursive new |>
    <| it_kind := merge_kind (it_kind r) (it_kind new) |>
    <| it_generation := it_generation r + 1 |>
    <| it_priority := Z.max (it_priority r) (it_priority new) |>
    <| it_status := iq_queued |> <| it_retry_count := 0 |> <| it_next_retry_at := None |>
    <| it_worker_id := None |> <| it_lease_expires_at := None |> <| it_error := None |>
    <| it_error_code := None |> <| it_updated_at := it_updated_at new |> <| it_finished_at := None |>.

Definition default_priority (kind : IndexRunKind) : Z :=
  match kind with kind_manual => 100 | kind_incremental => 50 | kind_full => 10 end.

Definition upsert_task (new : index_task) : prog index_db unit := λ d,
  if exists_where (at_path (it_root_id new) (it_path new)) (ix_queue d)
  then (inr tt, d <| ix_queue := update_where (at_path (it_root_id new) (it_path new)) (requeue new) (ix_queue d) |>)
  else if isSome (by_key it_id (it_id new) (ix_queue d))
  then (inl (SqliteError "SQLITE_CONSTRAINT_PRIMARYKEY"), d)
  else if negb (bool_decide (it_root_id new ∈ ix_roots d))
  then (inl (SqliteError "SQLITE_CONSTRAINT_FOREIGNKEY"), d)
  else (inr tt, d <| ix_queue := insert_row new (ix_queue d) |>).

Definition upsert_root_state (rootId : string) (reconcile : bool) (now : Z) : prog index_db unit := λ d,
  if exists_where (has_key rs_root_id rootId) (ix_root_state d)
  then (inr tt, d <| ix_root_state := update_where (has_key rs_root_id rootId)
          (λ r, r <| rs_reconcile_requested := rs_reconcile_requested r || reconcile |>
                  <| rs_updated_at := now |>) (ix_root_state d) |>)
  else if negb (bool_decide (rootId ∈ ix_roots d))
  then (inl (SqliteError "SQLITE_CONSTRAINT_FOREIGNKEY"), d)
  else (inr tt, d <| ix_root_state :=
          insert_row (IndexRootState rootId watch_starting None reconcile now) (ix_root_state d) |>).

Definition enqueueIndexTask (id : string) (input : enqueue_input) (now : Z) : prog index_db EnqueuedIndexTask :=
  match normalizeIndexPath (ei_path input ⁇ ".") with
  | inl e => throw e
  | inr path =>
      let kind := ei_kind input ⁇ kind_incremental in
      let priority := ei_priority input ⁇ default_priority kind in
      _ ← upsert_task (IndexTask id (ei_rootId input) (ei_storagePoolId input) path (ei_recursive input) kind
            1 priority iq_queued 0 None None None None None now now None None);
      _ ← upsert_root_state (ei_rootId input) (bool_decide (kind = kind_full)) now;
      row ← gets (λ d, get_row (at_path (ei_rootId input) path) (ix_queue d));
      match row with
      | Some r => mret (Enqueued (it_id r) (it_generation r) iq_queued)
      | None => throw (Exn "TypeError" "row is undefined" None None [])
      end
  end.

Record IndexerServiceStatus := ServiceStatus {
  ss_service : IndexServiceState;
  ss_freshWorkers : nat;
  ss_lastHeartbeatAt : option Z;
  ss_watcher : IndexWatcherStatus;
  ss_degradedRoots : list string;
  ss_watcherReason : option string;
  ss_queued : nat;
  ss_running : nat;
  ss_retrying : nat;
  ss_failed : nat;
  ss_oldestQueuedAt : option Z;
  ss_stalled : bool;
  ss_rebuild : IndexRebuildStatus;
  ss_copied : Z;
  ss_total : Z;
  ss_rootsReady : nat;
  ss_rootsTotal : nat
}.

Definition max_of (l : list Z) : option Z := foldr (λ x o, Some (Z.max x (o ⁇ x))) None l.
Definition min_of (l : list Z) : option Z := foldr (λ x o, Some (Z.min x (o ⁇ x))) None l.
Definition by_root (a b : index_root_state) : bool := String.leb (rs_root_id a) (rs_root_id b).
Definition is_degraded (s : IndexWatcherStatus) (r : index_root_state) : bool := bool_decide (rs_watcher_status r = s).
Definition task_in (s : IndexQueueStatus) (r : index_task) : bool := bool_decide (it_status r = s).
Definition content_in (s : IndexRebuildStatus) (r : index_content_state) : bool := bool_decide (cs_status r = s).
(** A string is truthy when it is not empty. *)
Definition truthy (o : option string) : bool := match o with Some s => negb (bool_decide (s = "")) | None => false end.

Definition getIndexerServiceStatus (now : Z) (d : index_db) : IndexerServiceStatus :=
  let fresh := count_where (λ w, bool_decide (now - 20000 ≤ iw_heartbeat_at w)) (ix_workers d) in
  let last := max_of (iw_heartbeat_at <$> ix_workers d) in
  let queue_count s := count_where (task_in s) (ix_queue d) in
  let oldest := min_of (it_created_at <$> select (task_in iq_queued) (ix_queue d)) in
  let watchers := order_by by_root
    (select (λ r, is_degraded watch_degraded r || is_degraded watch_unsupported r) (ix_root_state d)) in
  let content_count s := count_where (content_in s) (ix_content d) in
  let roots_total := length (ix_content d) in
  ServiceStatus
    (if bool_decide (0 < fresh)%nat then service_ready
     else if isSome last then service_stale else service_unavailable)
    fresh last
    (if existsb (is_degraded watch_degraded) watchers then watch_degraded
     else if existsb (is_degraded watch_unsupported) watchers then watch_unsupported
     else if bool_decide (0 < fresh)%nat then watch_ready else watch_starting)
    (rs_root_id <$> watchers)
    (get_row (λ r, truthy (rs_watcher_error r)) watchers ≫= rs_watcher_error)
    (queue_count iq_queued) (queue_count iq_running) (queue_count iq_retrying) (queue_count iq_failed)
    oldest
    (bool_decide (0 < queue_count iq_queued)%nat &&
     match oldest with Some t => bool_decide (60000 < now - t) | None => false end)
    (if bool_decide (0 < content_count rebuild_failed)%nat then rebuild_failed
     else if bool_decide (0 < content_count rebuild_rebuilding)%nat then rebuild_rebuilding
     else if bool_decide (0 < content_count rebuild_copying)%nat then rebuild_copying
     else if bool_decide (0 < roots_total)%nat && bool_decide (content_count rebuild_ready = roots_total)
     then rebuild_ready else rebuild_legacy)
    (foldr Z.add 0 (cs_copied_count <$> ix_content d)) (foldr Z.add 0 (cs_legacy_total <$> ix_content d))
    (content_count rebuild_ready) roots_total.

(** ** Paths *)
Lemma norm_segments_skip st segs :
  Forall (λ x, x ≠ "" ∧ x ≠ "..") segs →
  norm_segments false st segs = reverse st ++ List.filter (λ x, negb (bool_decide (x = "."))) segs.
Proof.
  intros H. revert st. induction H as [|x segs [H1 H2] Hs IH]; intros st; simpl; [by rewrite app_nil_r|].
  case_bool_decide as E1.
  - rewrite bool_decide_true by naive_solver. by rewrite IH.
  - rewrite (bool_decide_false (x = "..")) by done. rewrite (bool_decide_false (x = ".")) by naive_solver.
    simpl. rewrite IH, reverse_cons. by rewrite <-app_assoc.
Qed.

Lemma rooted_join l p : Forall plain_name l → l ≠ [] →
  normalizeString (rooted l +:+ "/" +:+ p) false = norm_segments false (reverse l) (segments p).
Proof.
  intros Hl Hne. unfold normalizeString, segments.
  change ("/" +:+ p) with (String sep p). rewrite split_on_app_all.
  fold (segments (rooted l)). rewrite segments_rooted by done. simpl.
  assert (∀ st, norm_segments false st (l ++ split_on sep p) = norm_segments false (reverse l ++ st) (split_on sep p)) as Hn.
  { clear Hne. induction Hl as [|x l (H1&H2&H3&H4) Hl IH]; intros st; simpl; [done|].
    rewrite bool_decide_false by naive_solver. rewrite bool_decide_false by done.
    rewrite IH, reverse_cons. by rewrite <-app_assoc. }
  by rewrite Hn, app_nil_r.
Qed.

(** C12: An accepted path stays below its root: resolving it from any root
    directory appends real names to the root's own, and never climbs out. *)
Theorem normalizeIndexPath_confined value path root cwd :
  normalizeIndexPath value = inr path → Forall plain_name root → root ≠ [] →
  ∃ names, Forall plain_name names ∧ resolve cwd [rooted root; path] = rooted (root ++ names).
Proof.
  intros H Hroot Hne.
  assert (isAbsolute path = false ∧ path ≠ "" ∧
    (Forall (λ x, x ≠ "" ∧ x ≠ "..") (segments path))) as (Habs & Hnonempty & Hsegs).
  { unfold normalizeIndexPath in H. cbv zeta in H. revert H.
    set (n := drop_end_slashes _). clearbody n. intros H.
    destruct (bool_decide (n = "") || _) eqn:E; [injection H as <-|].
    { split; [done|]. split; [done|]. constructor; [by split|constructor]. }
    destruct (startsWith "/" n || _) eqn:E2; [done|]. injection H as <-.
    apply orb_false_iff in E as [E%bool_decide_eq_false _], E2 as [E2 E3].
    split; [done|]. split; [done|]. apply Forall_forall. intros x Hx.
    assert ((bool_decide (x = "..") || bool_decide (x = "")) = false) as Hf.
    { destruct (_ || _) eqn:Ef; [|done]. assert (existsb (λ seg, bool_decide (seg = "..") || bool_decide (seg = ""))
        (segments n) = true); [|congruence]. apply existsb_exists. exists x. by rewrite <-list_elem_of_In. }
    apply orb_false_iff in Hf as [?%bool_decide_eq_false ?%bool_decide_eq_false]. done. }
  exists (List.filter (λ x, negb (bool_decide (x = "."))) (segments path)). split.
  - apply Forall_forall. intros x Hx. rewrite list_elem_of_In, filter_In in Hx.
    destruct Hx as [Hx Hd%negb_true_iff%bool_decide_eq_false]. apply list_elem_of_In in Hx.
    rewrite Forall_forall in Hsegs. destruct (Hsegs x Hx). repeat split; try done.
    pose proof (split_on_no_char sep path) as Hn. rewrite Forall_forall in Hn. by apply Hn.
  - rewrite resolve_rooted. f_equal. cbn [resolve_from].
    rewrite bool_decide_false by done. rewrite rooted_absolute.
    rewrite (bool_decide_false (path = "")) by done. rewrite Habs.
    rewrite rooted_join by done. rewrite norm_segments_skip by done. by rewrite reverse_involutive.
Qed.

Lemma normalizeIndexPath_confined_witness :
  normalizeIndexPath " ./docs\2024/" = inr "docs/2024" ∧
  ∃ names, Forall plain_name names ∧ resolve "/" [rooted ["srv"]; "docs/2024"] = rooted (["srv"] ++ names).
Proof.
  split; [done|]. apply (normalizeIndexPath_confined " ./docs\2024/"); [done| |done].
  by repeat constructor.
Defined.

(** ** Enqueueing *)
Definition task_key (r : index_task) : string * string := (it_root_id r, it_path r).

Lemma at_path_key rootId path r : at_path rootId path r = has_key task_key (rootId, path) r.
Proof.
  apply eq_true_iff_eq. unfold at_path, has_key, task_key. rewrite andb_true_iff, !bool_decide_eq_true.
  split; [by intros [-> ->]|]. by intros [= -> ->].
Qed.

Lemma upsert_task_cases new d :
  unique_keys task_key (ix_queue d) → it_root_id new ∈ ix_roots d → by_key it_id (it_id new) (ix_queue d) = None →
  ∃ q, upsert_task new d = (inr tt, d <| ix_queue := q |>) ∧ unique_keys task_key q ∧
    match by_key task_key (task_key new) (ix_queue d) with
    | None => q = insert_row new (ix_queue d) ∧ by_key task_key (task_key new) q = Some new
    | Some old => by_key task_key (task_key new) q = Some (requeue new old)
    end ∧
    ∀ k, k ≠ task_key new → by_key task_key k q = by_key task_key k (ix_queue d).
Proof.
  intros Hu Hroot Hid. unfold upsert_task.
  pose proof (at_path_key (it_root_id new) (it_path new)) as Hk. fold (task_key new) in Hk.
  destruct (by_key task_key (task_key new) (ix_queue d)) as [old|] eqn:E.
  - assert (exists_where (at_path (it_root_id new) (it_path new)) (ix_queue d) = true) as ->.
    { apply exists_where_true. apply by_key_Some in E as [Ho Hold]. exists old. split; [done|].
      rewrite Hk. unfold has_key. by apply bool_decide_eq_true. }
    eexists. split; [done|]. rewrite (update_where_ext _ _ _ _ Hk).
    split; [by apply unique_keys_update|]. split.
    + rewrite by_key_update, E by done. simpl. apply by_key_Some in E as [_ E].
      unfold has_key. by rewrite bool_decide_true.
    + intros k Hne. rewrite by_key_update by done. destruct (by_key task_key k (ix_queue d)) as [r|] eqn:Er; [|done].
      simpl. apply by_key_Some in Er as [_ Er]. unfold has_key. by rewrite bool_decide_false by congruence.
  - assert (exists_where (at_path (it_root_id new) (it_path new)) (ix_queue d) = false) as ->.
    { apply exists_where_false. intros r Hr. rewrite Hk. apply bool_decide_eq_false.
      rewrite by_key_None in E. auto. }
    rewrite Hid. simpl. rewrite bool_decide_true by done. simpl.
    eexists. split; [done|]. split; [by apply unique_keys_insert|]. split.
    + split; [done|]. rewrite by_key_insert, E. unfold has_key. by rewrite bool_decide_true.
    + intros k Hne. rewrite by_key_insert. unfold has_key. rewrite bool_decide_false by done.
      by destruct (by_key task_key k (ix_queue d)).
Qed.

Lemma upsert_root_state_ok rootId b now d : rootId ∈ ix_roots d →
  ∃ d', upsert_root_state rootId b now d = (inr tt, d') ∧ ix_queue d' = ix_queue d.
Proof.
  intros H. unfold upsert_root_state. destruct (exists_where _ _); [by eauto|].
  rewrite bool_decide_true by done. simpl. by eauto.
Qed.

(** Enqueueing coalesces.  For an accepted path of a known root there is
    afterwards exactly one task of that root and path, queued and held by no
    worker: a new one of generation 1, or the old one with its generation
    raised by one - so that a worker still busy with it can tell -, neither
    its priority nor its recursion lowered and a manual request never
    downgraded.  The tasks of all other paths are as they were. *)
Theorem enqueueIndexTask_spec id input now d path :
  normalizeIndexPath (ei_path input ⁇ ".") = inr path →
  ei_rootId input ∈ ix_roots d → by_key it_id id (ix_queue d) = None →
  unique_keys task_key (ix_queue d) →
  ∃ t d', enqueueIndexTask id input now d = (inr (Enqueued (it_id t) (it_generation t) iq_queued), d') ∧
    unique_keys task_key (ix_queue d') ∧
    by_key task_key (ei_rootId input, path) (ix_queue d') = Some t ∧
    it_status t = iq_queued ∧ it_worker_id t = None ∧ it_lease_expires_at t = None ∧ it_retry_count t = 0 ∧
    match by_key task_key (ei_rootId input, path) (ix_queue d) with
    | None => it_id t = id ∧ it_generation t = 1
    | Some old => it_id t = it_id old ∧ it_generation t = it_generation old + 1 ∧
        it_priority old ≤ it_priority t ∧ (it_recursive old = true → it_recursive t = true) ∧
        (it_kind old = kind_manual → it_kind t = kind_manual) ∧
        (ei_kind input = Some kind_manual → it_kind t = kind_manual)
    end ∧
    ∀ k, k ≠ (ei_rootId input, path) → by_key task_key k (ix_queue d') = by_key task_key k (ix_queue d).
Proof.
  intros Hp Hroot Hid Hu. unfold enqueueIndexTask. rewrite Hp.
  set (new := IndexTask id _ _ _ _ _ _ _ _ _ _ _ _ _ _ _ _ _ _).
  destruct (upsert_task_cases new d Hu Hroot Hid) as (q & Hq & Huq & Hnew & Hother).
  erewrite bind_inr by exact Hq.
  set (d1 := d <| ix_queue := q |>).
  destruct (upsert_root_state_ok (ei_rootId input) (bool_decide (ei_kind input ⁇ kind_incremental = kind_full))
    now d1 Hroot) as (d' & Hd' & Hqd').
  erewrite bind_inr by exact Hd'. rewrite bind_gets.
  rewrite (get_row_ext _ _ _ (at_path_key _ _)). fold (by_key task_key (ei_rootId input, path) (ix_queue d')).
  assert (ix_queue d' = q) as -> by done. change (ei_rootId input, path) with (task_key new).
  destruct (by_key task_key (task_key new) (ix_queue d)) as [old|] eqn:E.
  - rewrite Hnew. exists (requeue new old), d'. rewrite Hqd'. repeat split; try done; simpl.
    + lia.
    + by intros ->.
    + intros ->. by destruct (ei_kind input ⁇ kind_incremental).
    + by intros ->.
  - destruct Hnew as [_ Hnew]. rewrite Hnew. exists new, d'. rewrite Hqd'. repeat split; done.
Qed.

Definition index_demo : index_db := IndexDb ["r"] [] [] [] [].

Lemma enqueueIndexTask_spec_witness :
  (enqueueIndexTask "2" (EnqueueInput "r" None (Some "docs/") false (Some kind_full) None) 5
    (enqueueIndexTask "1" (EnqueueInput "r" None (Some "docs") true (Some kind_manual) None) 3 index_demo).2).1
  = inr (Enqueued "1" 2 iq_queued).
Proof.
  set (d := (enqueueIndexTask "1" _ _ _).2).
  destruct (enqueueIndexTask_spec "2" (EnqueueInput "r" None (Some "docs/") false (Some kind_full) None) 5 d "docs")
    as (t & d' & E & _ & _ & _ & _ & _ & _ & (Hid & Hgen & _) & _); [done| |done| |].
  - apply (bool_decide_eq_true_1 ("r" ∈ _)). by vm_compute.
  - apply (bool_decide_eq_true_1 (NoDup _)). by vm_compute.
  - rewrite E. simpl. by rewrite Hid, Hgen.
Defined.
