(* ===== verification/IndexRuns.v ===== *)
(** * Index runs

    packages/db/src/repositories/index-run-lifecycle.ts and
    index-run-status.ts: the runs of the indexer on each root, the archive of
    the older ones and the status shown.  A root keeps its last finished run
    and its last finished full run; the others move to the archive, which
    keeps 29 of them. *)
From Stdlib Require Import QArith.
From S2P Require Import Prelude Sql IndexQueue.
Open Scope Z_scope.

Inductive index_run_status := run_running | run_completed | run_failed.
Global Instance index_run_status_eq_dec : EqDecision index_run_status.
Proof. solve_decision. Defined.

(** The counters a run reports. *)
Record run_counts := RunCounts {
  rc_scanned : Z; rc_indexed : Z; rc_unchanged : Z; rc_removed : Z; rc_skipped : Z; rc_failed : Z;
  rc_bytes : Z; rc_file_count : Z; rc_text_file_count : Z
}.
Definition no_counts : run_counts := RunCounts 0 0 0 0 0 0 0 0 0.

Record index_run := IndexRun {
  ir_id : string;
  ir_root_id : string;
  ir_status : index_run_status;
  ir_started_at : Z;
  ir_finished_at : option Z;
  ir_counts : run_counts;
  ir_error : option string;
  ir_duration_ms : option Z;
  ir_phase : option string;
  ir_current_path : option string;
  ir_last_progress_at : option Z;
  ir_kind : IndexRunKind
}.
#[export] Instance eta_index_run : Eta index_run := λ r,
  IndexRun (ir_id r) (ir_root_id r) (ir_status r) (ir_started_at r) (ir_finished_at r) (ir_counts r)
    (ir_error r) (ir_duration_ms r) (ir_phase r) (ir_current_path r) (ir_last_progress_at r) (ir_kind r).

Record index_failure := IndexFailure {
  if_id : string; if_run_id : string; if_root_id : string; if_path : string; if_reason : string; if_created_at : Z
}.
(** A row of index_run_history: the run and its failures, as path and reason. *)
Record archived_run := Archived { ah_run : index_run; ah_failures : list (string * string) }.
Definition ah_id (a : archived_run) : string := ir_id (ah_run a).

Record runs_db := RunsDb {
  rd_roots : list string;
  rd_runs : list index_run;
  rd_failures : list index_failure;
  rd_history : list archived_run
}.
#[export] Instance eta_runs_db : Eta runs_db := λ d,
  RunsDb (rd_roots d) (rd_runs d) (rd_failures d) (rd_history d).

Definition run_in (rootId : string) (r : index_run) : bool := bool_decide (ir_root_id r = rootId).
Definition run_is (s : index_run_status) (r : index_run) : bool := bool_decide (ir_status r = s).
Definition finalized (rootId : string) (r : index_run) : bool := run_in rootId r && negb (run_is run_running r).
Definition is_full (r : index_run) : bool := bool_decide (ir_kind r = kind_full).

(** ORDER BY COALESCE(finished_at, started_at) DESC, started_at DESC, rowid
    DESC, on the rows in descending rowid order. *)
Definition run_end (r : index_run) : Z := ir_finished_at r ⁇ ir_started_at r.
Definition later_run (a b : index_run) : bool :=
  bool_decide (run_end b < run_end a) ||
  (bool_decide (run_end a = run_end b) && bool_decide (ir_started_at b ≤ ir_started_at a)).
Definition finalized_runs (rootId : string) (d : runs_db) : list index_run :=
  order_by later_run (rev (select (finalized rootId) (rd_runs d))).

Definition by_created (a b : index_failure) : bool :=
  bool_decide (if_created_at a < if_created_at b) ||
  (bool_decide (if_created_at a = if_created_at b) && String.leb (if_id a) (if_id b)).
Definition failures_of (runId : string) (d : runs_db) : list (string * string) :=
  (λ f, (if_path f, if_reason f)) <$>
    order_by by_created (select (λ f, bool_decide (if_run_id f = runId)) (rd_failures d)).

(** INSERT OR REPLACE of the archived row. *)
Definition archiveIndexRun (runId : string) (d : runs_db) : runs_db :=
  match get_row (λ r, has_key ir_id runId r && negb (run_is run_running r)) (rd_runs d) with
  | None => d
  | Some r => d <| rd_history := insert_row (Archived r (failures_of runId d))
                     (delete_where (has_key ah_id runId) (rd_history d)) |>
  end.

Definition later_archived (a b : archived_run) : bool :=
  bool_decide (ir_started_at (ah_run b) ≤ ir_started_at (ah_run a)).
Definition archived_in (rootId : string) (a : archived_run) : bool := run_in rootId (ah_run a).

Definition retained_ids (runs : list index_run) : list string :=
  (match runs with [] => [] | r :: _ => [ir_id r] end) ++
  (match List.find is_full runs with Some r => [ir_id r] | None => [] end).

Definition retainLatestFinalizedIndexRun (rootId : string) (d : runs_db) : runs_db :=
  let runs := finalized_runs rootId d in
  let stale := ir_id <$> List.filter (λ r, negb (bool_decide (ir_id r ∈ retained_ids runs))) runs in
  let d := foldl (λ d id, archiveIndexRun id d) d stale in
  let d := d <| rd_failures := delete_where (λ f, bool_decide (if_run_id f ∈ stale)) (rd_failures d) |>
             <| rd_runs := delete_where (λ r, bool_decide (ir_id r ∈ stale)) (rd_runs d) |> in
  d <| rd_history := delete_beyond ah_id later_archived (archived_in rootId) 29 (rd_history d) |>.

Definition interrupt_run (now : Z) (r : index_run) : index_run :=
  r <| ir_status := run_failed |> <| ir_finished_at := Some now |> <| ir_error := Some "interrupted/superseded" |>.

(** The distinct root ids of index_runs, in the order of their first row. *)
Definition run_roots (d : runs_db) : list string := remove_dups (ir_root_id <$> rd_runs d).

Definition recoverInterruptedIndexRuns (rootId : option string) (now : Z) (d : runs_db) : nat * runs_db :=
  let roots := match rootId with Some r => [r] | None => run_roots d end in
  let hit r := match rootId with Some id => run_in id r | None => true end && run_is run_running r in
  let d' := d <| rd_runs := update_where hit (interrupt_run now) (rd_runs d) |> in
  (count_where hit (rd_runs d), foldl (λ d id, retainLatestFinalizedIndexRun id d) d' roots).

Record started_run := Started { st_id : string; st_rootId : string; st_startedAt : Z }.

Definition startIndexRun (id rootId : string) (kind : option IndexRunKind) (now : Z) : prog runs_db started_run := λ d,
  let d := (recoverInterruptedIndexRuns (Some rootId) now d).2 in
  if isSome (by_key ir_id id (rd_runs d)) then (inl (SqliteError "SQLITE_CONSTRAINT_PRIMARYKEY"), d)
  else if negb (bool_decide (rootId ∈ rd_roots d)) then (inl (SqliteError "SQLITE_CONSTRAINT_FOREIGNKEY"), d)
  else (inr (Started id rootId now),
        d <| rd_runs := insert_row (IndexRun id rootId run_running now None no_counts None None None None None
                                      (kind ⁇ kind_full)) (rd_runs d) |>).

Definition live (runId : string) (r : index_run) : bool := has_key ir_id runId r && run_is run_running r.
Definition isIndexRunRunning (runId : string) (d : runs_db) : bool := exists_where (live runId) (rd_runs d).

Definition recordIndexFailure (id runId : string) (rootId : option string) (path reason : string) (now : Z)
    : prog runs_db unit := λ d,
  match by_key ir_id runId (rd_runs d) with
  | None => (inl (Error "Index run not found"), d)
  | Some run =>
      if match rootId with Some r => negb (bool_decide (ir_root_id run = r)) | None => false end
      then (inl (Error "Index failure root does not match index run"), d)
      else if isSome (by_key if_id id (rd_failures d))
      then (inl (SqliteError "SQLITE_CONSTRAINT_PRIMARYKEY"), d)
      else (inr tt, d <| rd_failures := insert_row (IndexFailure id runId (ir_root_id run) path reason now)
                            (rd_failures d) |>)
  end.

Inductive final_status := final_completed | final_failed.
Record finish_input := FinishInput {
  fi_status : final_status;
  fi_scanned : Z; fi_indexed : Z; fi_unchanged : Z; fi_removed : Z; fi_skipped : Z; fi_failed : Z;
  fi_error : option string;
  fi_durationMs : option Z;
  fi_bytes : option Z;
  fi_fileCount : option Z;
  fi_textFileCount : option Z;
  fi_phase : option string;
  fi_currentPath : option string;
  fi_lastProgressAt : option Z
}.
Definition finish_counts (i : finish_input) : run_counts :=
  RunCounts (fi_scanned i) (fi_indexed i) (fi_unchanged i) (fi_removed i) (fi_skipped i) (fi_failed i)
    (fi_bytes i ⁇ 0) (fi_fileCount i ⁇ fi_indexed i) (fi_textFileCount i ⁇ 0).
Definition finish_run (i : finish_input) (finishedAt : Z) (r : index_run) : index_run :=
  r <| ir_status := match fi_status i with final_completed => run_completed | final_failed => run_failed end |>
    <| ir_finished_at := Some finishedAt |> <| ir_counts := finish_counts i |> <| ir_error := fi_error i |>
    <| ir_duration_ms := fi_durationMs i |> <| ir_phase := fi_phase i |> <| ir_current_path := fi_currentPath i |>
    <| ir_last_progress_at := Some (fi_lastProgressAt i ⁇ finishedAt) |>.

Definition finishIndexRun (runId : string) (i : finish_input) (finishedAt : Z) (d : runs_db) : bool * runs_db :=
  match by_key ir_id runId (rd_runs d) with
  | None => (false, d)
  | Some run =>
      if bool_decide (count_where (live runId) (rd_runs d) = 0%nat) then (false, d)
      else (true, retainLatestFinalizedIndexRun (ir_root_id run)
                    (d <| rd_runs := update_where (live runId) (finish_run i finishedAt) (rd_runs d) |>))
  end.

(** [updateIndexRunProgress], [i] holding the counters, phase and path. *)
Definition progress_run (i : finish_input) (at_ : Z) (r : index_run) : index_run :=
  r <| ir_counts := finish_counts i |> <| ir_phase := fi_phase i |> <| ir_current_path := fi_currentPath i |>
    <| ir_last_progress_at := Some at_ |>.
Definition updateIndexRunProgress (runId : string) (i : finish_input) (at_ : Z) (d : runs_db) : bool * runs_db :=
  (bool_decide (count_where (live runId) (rd_runs d) = 1%nat),
   d <| rd_runs := update_where (live runId) (progress_run i at_) (rd_runs d) |>).

(** ** Status *)
Record run_metrics := RunMetrics {
  rm_durationMs : option Z;
  rm_scanRate : option Q;
  rm_indexSizeBytes : option Z;
  rm_freshnessMs : option Z;
  rm_consecutiveFailures : nat
}.
Record IndexRootStatus := RootStatus {
  rt_rootId : string;
  rt_run : option index_run;
  rt_failures : list (string * string);
  rt_metrics : option run_metrics
}.

Definition mapIndexRun (clock : Z) (row : index_run) (failures : list (string * string)) : IndexRootStatus :=
  let durationMs := match ir_duration_ms row with
                    | Some v => Some v
                    | None => (λ f, Z.max 0 (f - ir_started_at row)) <$> ir_finished_at row
                    end in
  RootStatus (ir_root_id row) (Some row) failures
    (Some (RunMetrics durationMs
       (match durationMs with
        | Some v => if bool_decide (0 < v) then Some (inject_Z (rc_scanned (ir_counts row)) / (inject_Z v / 1000))%Q
                    else None
        | None => None
        end)
       None ((λ f, Z.max 0 (clock - f)) <$> ir_finished_at row) 0)).

Definition started_later (a b : index_run * list (string * string)) : bool :=
  bool_decide (ir_started_at b.1 ≤ ir_started_at a.1).

Definition listIndexRunHistory (clock : Z) (rootId : string) (limit : nat) (d : runs_db) : list IndexRootStatus :=
  let current := (λ r, (r, failures_of (ir_id r) d)) <$> select (run_in rootId) (rd_runs d) in
  let archived := (λ a, (ah_run a, ah_failures a)) <$>
    take limit (order_by later_archived (select (archived_in rootId) (rd_history d))) in
  (λ p, mapIndexRun clock p.1 p.2) <$> take limit (order_by started_later (current ++ archived)).

(** The full runs of a root, current and archived, latest start first. *)
Definition full_runs (rootId : string) (d : runs_db) : list (index_run * option (list (string * string))) :=
  order_by (λ a b, bool_decide (ir_started_at b.1 ≤ ir_started_at a.1))
    (((λ r, (r, None)) <$> select (λ r, run_in rootId r && is_full r) (rd_runs d)) ++
     ((λ a, (ah_run a, Some (ah_failures a))) <$>
        select (λ a, archived_in rootId a && is_full (ah_run a)) (rd_history d))).

Fixpoint leading_failures (l : list index_run) : nat :=
  match l with r :: l => if run_is run_failed r then S (leading_failures l) else 0%nat | [] => 0%nat end.
Definition countConsecutiveIndexFailures (rootId : string) (d : runs_db) : nat :=
  leading_failures (take 30 ((full_runs rootId d).*1)).

Definition getIndexFreshnessMs (rootId : string) (now : Z) (d : runs_db) : option Z :=
  let ends := omap ir_finished_at (select (run_is run_completed) ((full_runs rootId d).*1)) in
  (λ t, Z.max 0 (now - t)) <$> max_of ends.

Definition getIndexSizeBytes (pageCount pageSize : option Z) : option Z :=
  match pageCount, pageSize with
  | Some c, Some s => if bool_decide (Z.abs (c * s) ≤ 9007199254740991) then Some (c * s) else None
  | _, _ => None
  end.

Definition getIndexRootStatus (pages pageSize : option Z) (clock : Z) (rootId : string) (now : Z) (d : runs_db)
    : IndexRootStatus :=
  match full_runs rootId d with
  | [] => RootStatus rootId None [] None
  | (row, archived) :: _ =>
      let failures := archived ⁇ failures_of (ir_id row) d in
      let st := mapIndexRun clock row failures in
      RootStatus (rt_rootId st) (rt_run st) (rt_failures st)
        ((λ m, RunMetrics (rm_durationMs m) (rm_scanRate m) (getIndexSizeBytes pages pageSize)
                 (getIndexFreshnessMs rootId now d) (countConsecutiveIndexFailures rootId d)) <$> rt_metrics st)
  end.
Definition listIndexRootStatuses (pages pageSize : option Z) (clock now : Z) (rootIds : list string) (d : runs_db)
    : list IndexRootStatus :=
  (λ r, getIndexRootStatus pages pageSize clock r now d) <$> rootIds.

(** ** Retention *)
Lemma later_run_total a b : later_run a b = true ∨ later_run b a = true.
Proof. unfold later_run. rewrite !orb_true_iff, !andb_true_iff, !bool_decide_eq_true. lia. Qed.
Lemma later_run_trans a b c : later_run a b = true → later_run b c = true → later_run a c = true.
Proof. unfold later_run. rewrite !orb_true_iff, !andb_true_iff, !bool_decide_eq_true. lia. Qed.
Lemma later_archived_total a b : later_archived a b = true ∨ later_archived b a = true.
Proof. unfold later_archived. rewrite !bool_decide_eq_true. lia. Qed.
Lemma later_archived_trans a b c :
  later_archived a b = true → later_archived b c = true → later_archived a c = true.
Proof. unfold later_archived. rewrite !bool_decide_eq_true. lia. Qed.

Definition stale_ids (rootId : string) (d : runs_db) : list string :=
  ir_id <$> List.filter (λ r, negb (bool_decide (ir_id r ∈ retained_ids (finalized_runs rootId d))))
              (finalized_runs rootId d).

Lemma finalized_runs_In rootId d r :
  In r (finalized_runs rootId d) ↔ In r (rd_runs d) ∧ finalized rootId r = true.
Proof. unfold finalized_runs. rewrite order_by_In, <-in_rev, select_In. done. Qed.

Lemma stale_ids_In rootId d r : unique_keys ir_id (rd_runs d) → In r (rd_runs d) →
  ir_id r ∈ stale_ids rootId d ↔
  finalized rootId r = true ∧ ir_id r ∉ retained_ids (finalized_runs rootId d).
Proof.
  intros Hu Hr. unfold stale_ids. rewrite list_elem_of_fmap. split.
  - intros (x & E & Hx). rewrite list_elem_of_In, filter_In, finalized_runs_In in Hx.
    destruct Hx as [[Hx Hf] Hk%negb_true_iff%bool_decide_eq_false].
    by rewrite (unique_key_eq ir_id (rd_runs d) r x).
  - intros [Hf Hk]. exists r. split; [done|]. rewrite list_elem_of_In, filter_In, finalized_runs_In.
    split; [done|]. by apply negb_true_iff, bool_decide_eq_false.
Qed.

Lemma archive_same id d : rd_runs (archiveIndexRun id d) = rd_runs d ∧
  rd_failures (archiveIndexRun id d) = rd_failures d ∧ rd_roots (archiveIndexRun id d) = rd_roots d.
Proof. unfold archiveIndexRun. by destruct (get_row _ _). Qed.

Lemma archive_fold_same ids d :
  let d' := foldl (λ d id, archiveIndexRun id d) d ids in
  rd_runs d' = rd_runs d ∧ rd_failures d' = rd_failures d ∧ rd_roots d' = rd_roots d.
Proof.
  revert d. induction ids as [|id ids IH]; intros d; [done|]. simpl.
  destruct (archive_same id d) as (H1&H2&H3), (IH (archiveIndexRun id d)) as (?&?&?). by rewrite <-H1, <-H2, <-H3.
Qed.

Lemma retain_runs rootId d : rd_runs (retainLatestFinalizedIndexRun rootId d) =
  delete_where (λ r, bool_decide (ir_id r ∈ stale_ids rootId d)) (rd_runs d).
Proof.
  unfold retainLatestFinalizedIndexRun. cbv zeta. fold (stale_ids rootId d). simpl.
  by destruct (archive_fold_same (stale_ids rootId d) d) as (-> & _).
Qed.

(** What stays is named by the retained ids, at most two. *)
Lemma retain_bound rootId d : unique_keys ir_id (rd_runs d) →
  (count_where (finalized rootId) (rd_runs (retainLatestFinalizedIndexRun rootId d)) ≤ 2)%nat.
Proof.
  intros Hu. rewrite retain_runs. etrans.
  - apply (count_where_keys ir_id _ (retained_ids (finalized_runs rootId d))); [by apply unique_keys_delete|].
    intros r [Hr Hs%bool_decide_eq_false]%delete_where_In Hf.
    destruct (decide (ir_id r ∈ retained_ids (finalized_runs rootId d))); [done|].
    destruct Hs. by apply stale_ids_In.
  - unfold retained_ids. rewrite length_app. destruct (finalized_runs rootId d); simpl; [lia|].
    destruct (if is_full i then _ else _); simpl; lia.
Qed.

Lemma archive_history id d : unique_keys ah_id (rd_history d) →
  unique_keys ah_id (rd_history (archiveIndexRun id d)) ∧
  (∀ a, ah_id a ≠ id → In a (rd_history (archiveIndexRun id d)) ↔ In a (rd_history d)).
Proof.
  intros Hu. unfold archiveIndexRun. destruct (get_row _ _) as [r|] eqn:E; [|done].
  apply get_row_Some in E as [Hr [Hk%bool_decide_eq_true _]%andb_prop]. split; simpl.
  - apply unique_keys_insert; [by apply unique_keys_delete|]. apply by_key_None.
    intros a [_ Ha%bool_decide_eq_false]%delete_where_In. unfold ah_id at 2. simpl. congruence.
  - intros a Ha. rewrite insert_row_In, delete_where_In. unfold has_key. rewrite bool_decide_eq_false.
    split; [|by left]. intros [[? _]| ->]; [done|]. by destruct Ha.
Qed.

Lemma archive_fold ids d : unique_keys ah_id (rd_history d) →
  let d' := foldl (λ d id, archiveIndexRun id d) d ids in
  unique_keys ah_id (rd_history d') ∧ ∀ a, ah_id a ∉ ids → In a (rd_history d') ↔ In a (rd_history d).
Proof.
  revert d. induction ids as [|id ids IH]; intros d Hu; simpl; [done|].
  destruct (archive_history id d Hu) as [Hu1 H1], (IH (archiveIndexRun id d) Hu1) as [Hu2 H2].
  split; [done|]. intros a Ha. rewrite not_elem_of_cons in Ha. rewrite H2, H1; naive_solver.
Qed.

(** Each archived run is in the archive, with the failures it had. *)
Lemma archive_fold_In ids d r : unique_keys ah_id (rd_history d) → unique_keys ir_id (rd_runs d) →
  In r (rd_runs d) → run_is run_running r = false → ir_id r ∈ ids →
  In (Archived r (failures_of (ir_id r) d)) (rd_history (foldl (λ d id, archiveIndexRun id d) d ids)).
Proof.
  intros Hh Hu Hr Hn. revert d Hh Hu Hr. induction ids as [|id ids IH]; intros d Hh Hu Hr Hid; simpl.
  { by apply not_elem_of_nil in Hid. }
  destruct (archive_same id d) as (E1&E2&E3), (archive_history id d Hh) as [Hh1 _].
  assert (failures_of (ir_id r) (archiveIndexRun id d) = failures_of (ir_id r) d) as Ef.
  { unfold failures_of. by rewrite E2. }
  destruct (decide (ir_id r ∈ ids)) as [Hin|Hout].
  - rewrite <-Ef. apply IH; [done|by rewrite E1|by rewrite E1|done].
  - apply elem_of_cons in Hid as [Hid|]; [|done].
    apply (archive_fold ids _ Hh1); [done|]. unfold archiveIndexRun.
    assert (get_row (λ x, has_key ir_id id x && negb (run_is run_running x)) (rd_runs d) = Some r) as ->.
    { destruct (get_row _ _) as [x|] eqn:E.
      - apply get_row_Some in E as [Hx [Hk%bool_decide_eq_true _]%andb_prop].
        f_equal. apply (unique_key_eq ir_id (rd_runs d)); congruence.
      - rewrite get_row_None in E. specialize (E r Hr). unfold has_key in E.
        rewrite Hn, bool_decide_true in E by done. done. }
    simpl. apply insert_row_In. right. by rewrite Hid.
Qed.

Lemma stale_root rootId d id r : unique_keys ir_id (rd_runs d) → id ∈ stale_ids rootId d →
  In r (rd_runs d) → ir_id r = id → finalized rootId r = true.
Proof. intros Hu Hid Hr <-. by apply (stale_ids_In rootId d r Hu Hr) in Hid as [? _]. Qed.

Lemma archive_fold_count rootId root' ids d : unique_keys ah_id (rd_history d) → root' ≠ rootId →
  (∀ r, In r (rd_runs d) → ir_id r ∈ ids → ir_root_id r = rootId) →
  (count_where (archived_in root') (rd_history (foldl (λ d id, archiveIndexRun id d) d ids)) ≤
   count_where (archived_in root') (rd_history d))%nat.
Proof.
  intros Hh Hne. revert d Hh. induction ids as [|id ids IH]; intros d Hh Hids; simpl; [done|].
  destruct (archive_same id d) as (E1&E2&E3), (archive_history id d Hh) as [Hh1 _].
  etrans; [apply IH; [done|]|].
  - intros r. rewrite E1. intros Hr Hi. apply Hids; [done|]. by right.
  - unfold archiveIndexRun. destruct (get_row _ _) as [x|] eqn:E; [|done].
    apply get_row_Some in E as [Hx [Hk%bool_decide_eq_true _]%andb_prop]. simpl.
    rewrite count_where_insert. unfold archived_in at 2, run_in. simpl.
    rewrite bool_decide_false by (rewrite (Hids x Hx); [congruence|rewrite Hk; by left]).
    pose proof (count_where_delete (archived_in root') (has_key ah_id id) (rd_history d)). lia.
Qed.

(** The bounds of the tables: run and archive ids are unique, a root has at
    most one running run, two finished ones and 29 archived ones. *)
Record runs_ok (d : runs_db) : Prop := RunsOk {
  ok_run_ids : unique_keys ir_id (rd_runs d);
  ok_history_ids : unique_keys ah_id (rd_history d);
  ok_running : ∀ root, (count_where (λ r, run_in root r && run_is run_running r) (rd_runs d) ≤ 1)%nat;
  ok_history : ∀ root, (count_where (archived_in root) (rd_history d) ≤ 29)%nat
}.
Definition finalized_ok (d : runs_db) (root : string) : Prop :=
  (count_where (finalized root) (rd_runs d) ≤ 2)%nat.

Lemma retain_history rootId d : rd_history (retainLatestFinalizedIndexRun rootId d) =
  delete_beyond ah_id later_archived (archived_in rootId) 29
    (rd_history (foldl (λ d id, archiveIndexRun id d) d (stale_ids rootId d))).
Proof. done. Qed.

Lemma retain_ok rootId d : runs_ok d → runs_ok (retainLatestFinalizedIndexRun rootId d).
Proof.
  intros [Hu Hh Hr Ha]. pose proof (archive_fold (stale_ids rootId d) d Hh) as [Hh1 _].
  constructor.
  - rewrite retain_runs. by apply unique_keys_delete.
  - rewrite retain_history. by apply unique_keys_delete.
  - intros root. rewrite retain_runs. etrans; [apply count_where_delete|apply Hr].
  - intros root. rewrite retain_history. destruct (decide (root = rootId)) as [->|Hne].
    + rewrite delete_beyond_count by done. lia.
    + etrans; [apply count_where_delete|]. etrans; [|apply (Ha root)].
      apply (archive_fold_count rootId); [done|done|]. intros r Hin Hid.
      apply (stale_ids_In rootId d r Hu Hin) in Hid as [Hf _].
      unfold finalized, run_in in Hf. apply andb_prop in Hf as [Hf _]. by apply bool_decide_eq_true in Hf.
Qed.

Lemma retain_finalized rootId d : runs_ok d → finalized_ok (retainLatestFinalizedIndexRun rootId d) rootId ∧
  ∀ root, finalized_ok d root → finalized_ok (retainLatestFinalizedIndexRun rootId d) root.
Proof.
  intros [Hu _ _ _]. split; [by apply retain_bound|]. intros root H. unfold finalized_ok in *.
  rewrite retain_runs. etrans; [apply count_where_delete|done].
Qed.

Lemma retain_all_ok roots d : runs_ok d →
  let d' := foldl (λ d id, retainLatestFinalizedIndexRun id d) d roots in
  runs_ok d' ∧ ∀ root, (root ∈ roots ∨ finalized_ok d root) → finalized_ok d' root.
Proof.
  revert d. induction roots as [|id roots IH]; intros d Hd; simpl.
  { split; [done|]. intros root [H|H]; [by apply not_elem_of_nil in H|done]. }
  destruct (retain_finalized id d Hd) as [H1 H2].
  destruct (IH (retainLatestFinalizedIndexRun id d) (retain_ok id d Hd)) as [H3 H4].
  split; [done|]. intros root [[->|H]%elem_of_cons|H]; apply H4; auto.
Qed.

Lemma retain_all_In roots d r :
  In r (rd_runs (foldl (λ d id, retainLatestFinalizedIndexRun id d) d roots)) → In r (rd_runs d).
Proof.
  revert d. induction roots as [|id roots IH]; intros d; simpl; [done|]. intros Hin%IH.
  rewrite retain_runs in Hin. by apply delete_where_In in Hin as [? _].
Qed.

(** ** The operations *)
Lemma recover_runs_ok rootId now d : runs_ok d → (∀ root, finalized_ok d root) →
  let d' := (recoverInterruptedIndexRuns rootId now d).2 in
  runs_ok d' ∧ (∀ root, finalized_ok d' root) ∧
  (∀ root, (rootId = None ∨ rootId = Some root) →
     count_where (λ r, run_in root r && run_is run_running r) (rd_runs d') = 0%nat).
Proof.
  intros [Hu Hh Hr Ha] Hf. unfold recoverInterruptedIndexRuns. cbv zeta. simpl snd.
  set (hit r := _ && run_is run_running r).
  set (d0 := d <| rd_runs := update_where hit (interrupt_run now) (rd_runs d) |>).
  set (roots := match rootId with Some r => [r] | None => run_roots d end).
  assert (runs_ok d0) as H0.
  { constructor; simpl; [by apply unique_keys_update|done| |done].
    intros root. etrans; [|apply (Hr root)]. apply count_where_update_le. intros x. simpl.
    by rewrite andb_false_r. }
  destruct (retain_all_ok roots d0 H0) as [H1 H2]. split; [done|]. split.
  - intros root. apply H2. destruct (decide (root ∈ roots)) as [?|Hout]; [by left|right].
    unfold finalized_ok in *. simpl. rewrite count_where_update; [apply Hf|].
    intros r Hrin Hhit. unfold finalized. destruct (run_in root r) eqn:Er.
    + destruct Hout. apply bool_decide_eq_true in Er. unfold roots, hit in *. destruct rootId as [rt|].
      * apply andb_prop in Hhit as [Hrt%bool_decide_eq_true _]. rewrite <-Er, Hrt. by left.
      * unfold run_roots. rewrite elem_of_remove_dups, list_elem_of_fmap. exists r.
        by rewrite list_elem_of_In.
    + unfold run_in in *. simpl. by rewrite Er.
  - intros root Hroot. apply count_where_0. intros r Hin.
    assert (In r (rd_runs d0)) as Hin0.
    { by apply (retain_all_In roots). }
    simpl in Hin0. apply update_where_In in Hin0 as (x & Hx & ->).
    destruct (hit x) eqn:E; [by rewrite andb_false_r|]. unfold hit in E.
    destruct Hroot as [->| ->]; simpl in E; [by rewrite E, andb_false_r|done].
Qed.

Lemma finish_runs_ok runId i t d : runs_ok d → (∀ root, finalized_ok d root) →
  let d' := (finishIndexRun runId i t d).2 in runs_ok d' ∧ ∀ root, finalized_ok d' root.
Proof.
  intros [Hu Hh Hr Ha] Hf. unfold finishIndexRun.
  destruct (by_key ir_id runId (rd_runs d)) as [run|] eqn:E; [|by split].
  case_bool_decide as Hc; [by split|]. simpl snd.
  set (d0 := d <| rd_runs := update_where (live runId) (finish_run i t) (rd_runs d) |>).
  apply by_key_Some in E as [Hrun Hid].
  assert (runs_ok d0) as H0.
  { constructor; simpl; [by apply unique_keys_update|done| |done].
    intros root. etrans; [|apply (Hr root)]. apply count_where_update_le. intros x.
    unfold run_is. simpl. destruct (fi_status i); by rewrite andb_false_r. }
  split; [by apply retain_ok|]. destruct (retain_finalized (ir_root_id run) d0 H0) as [H1 H2].
  intros root. destruct (decide (root = ir_root_id run)) as [->|Hne]; [done|]. apply H2.
  unfold finalized_ok in *. simpl. rewrite count_where_update; [apply Hf|].
  intros r Hin [Hk%bool_decide_eq_true _]%andb_prop.
  assert (r = run) as -> by (apply (unique_key_eq ir_id (rd_runs d)); congruence).
  unfold finalized, run_in. simpl. by rewrite bool_decide_false.
Qed.

Lemma start_runs_ok id root kind now d : runs_ok d → (∀ root, finalized_ok d root) →
  let d' := (startIndexRun id root kind now d).2 in runs_ok d' ∧ ∀ root, finalized_ok d' root.
Proof.
  intros Hd Hf. unfold startIndexRun.
  destruct (recover_runs_ok (Some root) now d Hd Hf) as ([Hu Hh Hr Ha] & Hf' & H0).
  revert Hu Hh Hr Ha Hf' H0. generalize ((recoverInterruptedIndexRuns (Some root) now d).2).
  clear d Hd Hf. intros d Hu Hh Hr Ha Hf H0. cbv zeta.
  destruct (by_key ir_id id (rd_runs d)) eqn:Ek; [by split|]. simpl isSome. cbv iota.
  destruct (negb _); [by split|]. simpl snd. split.
  - constructor; simpl; [by apply unique_keys_insert|done| |done].
    intros root'. rewrite count_where_insert. simpl. unfold run_in at 2. simpl.
    case_bool_decide as E; [|specialize (Hr root'); simpl; lia]. subst root'.
    rewrite H0 by auto. simpl. lia.
  - intros root'. unfold finalized_ok in *. simpl. rewrite count_where_insert. unfold finalized at 2.
    simpl. rewrite andb_false_r. specialize (Hf root'). lia.
Qed.

(** Every database the repository's operations lead to. *)
Inductive runs_reachable : runs_db → Prop :=
| rreach_init roots : runs_reachable (RunsDb roots [] [] [])
| rreach_recover d root now : runs_reachable d → runs_reachable (recoverInterruptedIndexRuns root now d).2
| rreach_start d id root kind now : runs_reachable d → runs_reachable (startIndexRun id root kind now d).2
| rreach_failure d id run root p r now : runs_reachable d → runs_reachable (recordIndexFailure id run root p r now d).2
| rreach_finish d id i t : runs_reachable d → runs_reachable (finishIndexRun id i t d).2
| rreach_progress d id i t : runs_reachable d → runs_reachable (updateIndexRunProgress id i t d).2.

(** C21: The run tables stay bounded.  In every reachable database the ids of
    the runs and of the archive are unique, and each root has at most one
    running run, at most two finished runs and at most 29 archived ones. *)
Theorem index_runs_bounded d : runs_reachable d → runs_ok d ∧ ∀ root, finalized_ok d root.
Proof.
  induction 1 as [roots|d root now _ [IH1 IH2]|d id root kind now _ [IH1 IH2]|d id run root p r now _ [IH1 IH2]
    |d id i t _ [IH1 IH2]|d id i t _ [IH1 IH2]].
  - split; [|intros root; unfold finalized_ok, count_where; simpl; lia].
    constructor; simpl; [constructor|constructor|intros ?; unfold count_where; simpl; lia
      |intros ?; unfold count_where; simpl; lia].
  - destruct (recover_runs_ok root now d IH1 IH2) as (?&?&_). done.
  - by apply start_runs_ok.
  - unfold recordIndexFailure. destruct (by_key ir_id run _) as [x|]; [|done].
    destruct (match root with Some _ => _ | None => _ end); [done|].
    destruct (isSome _); [done|]. destruct IH1. by split.
  - by apply finish_runs_ok.
  - unfold updateIndexRunProgress. simpl snd. destruct IH1 as [Hu Hh Hr Ha]. split.
    + constructor; simpl; [by apply unique_keys_update|done| |done].
      intros rt. rewrite count_where_update; [apply Hr|done].
    + intros rt. unfold finalized_ok. simpl. rewrite count_where_update; [apply IH2|done].
Qed.

Definition demo_finish : finish_input :=
  FinishInput final_completed 3 2 1 0 0 0 None None None None None None None None.
Definition one_run (i : nat) (d : runs_db) : runs_db :=
  let id := String (Ascii.ascii_of_nat i) "" in
  (finishIndexRun id demo_finish (Z.of_nat i + 1) (startIndexRun id "r" None (Z.of_nat i) d).2).2.
Definition many_runs : runs_db := foldl (λ d i, one_run i d) (RunsDb ["r"] [] [] []) (seq 1 4).

Lemma one_run_reachable i d : runs_reachable d → runs_reachable (one_run i d).
Proof. intros H. unfold one_run. cbv zeta. apply rreach_finish, rreach_start, H. Qed.

Lemma index_runs_bounded_witness : finalized_ok many_runs "r".
Proof.
  refine (proj2 (index_runs_bounded many_runs _) "r"). unfold many_runs. cbn [foldl seq].
  repeat apply one_run_reachable. apply rreach_init.
Defined.

(** Retention loses nothing that matters.  When the finished runs of a
    root are trimmed, the runs that are running, belong to other roots or are
    the first or the first full one in time order stay; every run that goes
    is later than or equal to no kept one, a full run only goes when a later
    full run stays, and it is moved with its failures to the archive, where
    it gives way only to runs that started later. *)
Theorem retain_spec rootId d r :
  runs_ok d → In r (rd_runs d) →
  let d' := retainLatestFinalizedIndexRun rootId d in
  (finalized rootId r = false → In r (rd_runs d')) ∧
  (¬ In r (rd_runs d') →
     (∃ k, In k (rd_runs d') ∧ finalized rootId k = true ∧ later_run k r = true) ∧
     (is_full r = true →
        ∃ k, In k (rd_runs d') ∧ finalized rootId k = true ∧ is_full k = true ∧ later_run k r = true) ∧
     let a := Archived r (failures_of (ir_id r) d) in
     (In a (rd_history d') ∨
      ∀ k, In k (rd_history d') → archived_in rootId k = true → later_archived k a = true)).
Proof.
  intros [Hu Hh Hr Ha] Hin d'. split.
  { intros Hf. unfold d'. rewrite retain_runs. apply delete_where_In. split; [done|].
    apply bool_decide_eq_false. rewrite stale_ids_In by done. by intros [? _]; congruence. }
  intros Hgone. unfold d' in Hgone. rewrite retain_runs, delete_where_In, bool_decide_eq_false in Hgone.
  assert (ir_id r ∈ stale_ids rootId d) as Hst by (destruct (decide (ir_id r ∈ stale_ids rootId d)); tauto).
  pose proof Hst as Hst'. rewrite stale_ids_In in Hst' by done. destruct Hst' as [Hf Hnk].
  assert (∀ k, In k (finalized_runs rootId d) → ir_id k ∈ retained_ids (finalized_runs rootId d) →
    In k (rd_runs d') ∧ finalized rootId k = true) as Hkept.
  { intros k Hk Hid. apply finalized_runs_In in Hk as [Hk Hkf]. split; [|done].
    unfold d'. rewrite retain_runs. apply delete_where_In. split; [done|].
    apply bool_decide_eq_false. rewrite stale_ids_In by done. by intros [_ ?]. }
  assert (In r (finalized_runs rootId d)) as Hrf by (by apply finalized_runs_In).
  pose proof (order_by_sorted later_run later_run_total later_run_trans
    (rev (select (finalized rootId) (rd_runs d)))) as Hsort. fold (finalized_runs rootId d) in Hsort.
  split; [|split].
  - destruct (finalized_runs rootId d) as [|k l] eqn:E; [done|]. exists k.
    destruct (Hkept k) as [? ?]; [by left|unfold retained_ids; simpl; by left|]. repeat split; [done..|].
    inversion Hsort as [|? ? _ Hall]; subst. destruct Hrf as [->|Hrf].
    + by destruct (later_run_total r r).
    + by apply (Forall_In _ _ _ Hall).
  - intros Hfull. assert (∃ k, List.find is_full (finalized_runs rootId d) = Some k) as [k Hk].
    { destruct (List.find is_full (finalized_runs rootId d)) as [k|] eqn:E; [by exists k|].
      by rewrite (find_none _ _ E r Hrf) in Hfull. }
    pose proof (find_some _ _ Hk) as [Hkin Hkf]. exists k.
    destruct (Hkept k) as [? ?]; [done|unfold retained_ids; rewrite Hk, elem_of_app; right; by left|].
    repeat split; [done..|]. clear -Hsort Hrf Hk Hfull.
    induction Hsort as [|x l Hl IH Hall]; [done|]. simpl in Hk. destruct (is_full x) eqn:Ex.
    + injection Hk as ->. destruct Hrf as [->|Hrf]; [by destruct (later_run_total r r)|].
      by apply (Forall_In _ _ _ Hall).
    + destruct Hrf as [->|Hrf]; [congruence|]. by apply IH.
  - pose proof (archive_fold (stale_ids rootId d) d Hh) as [Hh1 _]. unfold d'. rewrite retain_history.
    set (a := Archived r _).
    set (h := rd_history (foldl (λ d id, archiveIndexRun id d) d (stale_ids rootId d))) in *.
    assert (In a h) as Hah.
    { apply archive_fold_In; try done. unfold finalized in Hf. apply andb_prop in Hf as [_ Hf].
      by apply negb_true_iff in Hf. }
    set (kept := delete_beyond _ _ _ _ _).
    destruct (decide (Exists (λ x, ah_id x = ah_id a) kept)) as [Hx|Hx].
    + left. apply Exists_exists in Hx as (x & Hxk & Hxa). rewrite list_elem_of_In in Hxk.
      assert (x = a) as <-; [|done].
      apply (unique_key_eq ah_id h); [done| |done|done]. by apply delete_where_In in Hxk as [? _].
    + right. intros k Hk Hkr.
      apply (delete_beyond_before ah_id later_archived (archived_in rootId) 29 h a k
        later_archived_total later_archived_trans Hh1 Hah); [|done|done].
      intros Hka. apply Hx, Exists_exists. exists a. by rewrite list_elem_of_In.
Qed.

Definition finished_run : index_run := IndexRun "1" "r" run_completed 1 (Some 2) no_counts None None None None None kind_full.
Definition retain_demo : runs_db :=
  RunsDb ["r"] [finished_run; IndexRun "2" "r" run_completed 3 (Some 4) no_counts None None None None None kind_full] [] [].

Lemma retain_spec_witness : In finished_run (rd_runs (retainLatestFinalizedIndexRun "q" retain_demo)).
Proof.
  refine (proj1 (retain_spec "q" retain_demo finished_run _ _) _); [|by left|by vm_compute].
  constructor; simpl.
  - apply (bool_decide_eq_true_1 (NoDup _)). by vm_compute.
  - constructor.
  - intros root. unfold count_where, select. simpl. rewrite !andb_false_r. simpl. lia.
  - intros root. unfold count_where. simpl. lia.
Defined.
