(* ===== verification/CoreDb.v ===== *)
(** * The tables of sessions, jobs, events and approvals

    The rows that packages/db/src/repositories/{sessions,jobs,approvals,
    approval-status,operation-notifications,file-operations,file-batches,
    docker-operations,share-operations,storage-operations,vm-operations}.ts
    read and write, the INSERT statements with the keys and references that
    SQLite checks, and the cascade of a deleted session. *)
From S2P Require Import Prelude Sql Json IndexQueue.
Open Scope Z_scope.

(** ** The enumerations of packages/shared/src/types.ts *)
Inductive JobStatus := job_queued | job_running | job_waiting_approval | job_completed | job_failed | job_cancelled.
Inductive JobKind := agent_job | file_batch_job.
Inductive AgentEventAudience := chat | notification.
Inductive OperationNotificationKind := note_file | note_docker | note_vm | note_storage | note_share.
Inductive OperationNotificationStatus :=
| note_pending_approval | note_running | note_succeeded | note_failed | note_rejected | note_cancelled.
Inductive ApprovalStatus := ap_pending | ap_approved | ap_rejected | ap_expired | ap_applied | ap_failed.
Inductive PendingApprovalKind :=
| file_operation | pi_tool_call | docker_operation | vm_operation | share_operation | storage_operation.
Inductive FileOperationStatus := fo_proposed | fo_applied | fo_rolled_back | fo_failed.
Inductive FileMutationOperation :=
| mkdir | move | copy | rename | tag | trash | restore | edit | extract | upload | download.
Definition mutation_text (op : FileMutationOperation) : string :=
  match op with
  | mkdir => "mkdir" | move => "move" | copy => "copy" | rename => "rename" | tag => "tag" | trash => "trash"
  | restore => "restore" | edit => "edit" | extract => "extract" | upload => "upload" | download => "download"
  end.
Inductive AgentEventType :=
| agent_started | agent_message | agent_completed | agent_failed
| tool_call_started | tool_call_completed | tool_call_failed
| approval_pending | ev_job_running | ev_job_completed | ev_job_failed | ev_job_cancelled.
Inductive message_role := role_user | role_assistant | role_system | role_tool.
(** The statuses of docker, share, storage and vm operations. *)
Inductive operation_status := op_proposed | op_approved | op_applied | op_failed.
Inductive FileBatchOperation := batch_move | batch_trash.
Inductive FileBatchItemStatus := item_queued | item_running | item_completed | item_failed | item_cancelled.

Global Instance JobStatus_eq_dec : EqDecision JobStatus. Proof. solve_decision. Defined.
Global Instance JobKind_eq_dec : EqDecision JobKind. Proof. solve_decision. Defined.
Global Instance OperationNotificationKind_eq_dec : EqDecision OperationNotificationKind. Proof. solve_decision. Defined.
Global Instance OperationNotificationStatus_eq_dec : EqDecision OperationNotificationStatus. Proof. solve_decision. Defined.
Global Instance ApprovalStatus_eq_dec : EqDecision ApprovalStatus. Proof. solve_decision. Defined.
Global Instance PendingApprovalKind_eq_dec : EqDecision PendingApprovalKind. Proof. solve_decision. Defined.
Global Instance FileOperationStatus_eq_dec : EqDecision FileOperationStatus. Proof. solve_decision. Defined.
Global Instance FileMutationOperation_eq_dec : EqDecision FileMutationOperation. Proof. solve_decision. Defined.
Global Instance AgentEventType_eq_dec : EqDecision AgentEventType. Proof. solve_decision. Defined.
Global Instance message_role_eq_dec : EqDecision message_role. Proof. solve_decision. Defined.
Global Instance operation_status_eq_dec : EqDecision operation_status. Proof. solve_decision. Defined.
Global Instance FileBatchOperation_eq_dec : EqDecision FileBatchOperation. Proof. solve_decision. Defined.
Global Instance FileBatchItemStatus_eq_dec : EqDecision FileBatchItemStatus. Proof. solve_decision. Defined.

(** ** Rows *)
Record AgentSessionRecord := AgentSession {
  se_id : string; se_rootId : string; se_currentPath : string; se_createdAt : Z; se_updatedAt : Z }.
Record AgentProviderSessionRecord := ProviderSession {
  ps_sessionId : string; ps_providerSessionId : string; ps_sessionFile : option string;
  ps_providerName : string; ps_model : string; ps_settingsSnapshot : json; ps_createdAt : Z; ps_updatedAt : Z }.
Record AgentMessageRecord := AgentMessage {
  me_id : string; me_sessionId : string; me_role : message_role; me_content : string; me_createdAt : Z }.
Record JobRecord := Job {
  jb_id : string; jb_sessionId : string; jb_messageId : string; jb_kind : JobKind; jb_status : JobStatus;
  jb_createdAt : Z; jb_updatedAt : Z; jb_error : option string }.
Record event_row := EventRow {
  ev_id : Z; ev_sessionId : string; ev_jobId : option string; ev_type : AgentEventType; ev_payload : json;
  ev_createdAt : Z }.
Record transcript_item := TranscriptItem {
  tr_sequence : Z; tr_sessionId : string; tr_messageId : option string; tr_eventId : option Z }.
Record approval_row := ApprovalRow {
  ar_id : string; ar_jobId : string; ar_kind : PendingApprovalKind; ar_status : ApprovalStatus;
  ar_proposal : list json; ar_createdAt : Z; ar_updatedAt : Z }.
Record OperationNotificationRecord := OperationNotification {
  no_id : string; no_jobId : string; no_sessionId : string; no_kind : OperationNotificationKind;
  no_status : OperationNotificationStatus; no_summary : string; no_error : option string;
  no_readAt : option Z; no_createdAt : Z; no_updatedAt : Z }.
Record FileOperationRecord := FileOperation {
  fo_id : string; fo_approvalId : option string; fo_operation : FileMutationOperation;
  fo_sourcePath : option string; fo_targetPath : option string; fo_status : FileOperationStatus;
  fo_metadata : list (string * json); fo_createdAt : Z; fo_updatedAt : Z }.
Record TrashEntryRecord := TrashEntry {
  te_id : string; te_rootId : string; te_originalPath : string; te_trashPath : string;
  te_metadata : list (string * json); te_createdAt : Z; te_restoredAt : option Z }.
(** A row of docker_operations, share_operations, storage_operations or
    vm_operations; only docker's has a target type. *)
Record operation_record := OperationRecord {
  or_id : string; or_approvalId : option string; or_action : string; or_targetType : option string;
  or_targetId : string; or_status : operation_status; or_metadata : list (string * json);
  or_createdAt : Z; or_updatedAt : Z }.
Inductive console_status := console_active | console_used | console_expired | console_failed.
Global Instance console_status_eq_dec : EqDecision console_status. Proof. solve_decision. Defined.
(** A row of docker_console_authorizations, with a shell, or of
    vm_console_authorizations; [co_target] is the container or the domain. *)
Record console_authorization := ConsoleAuthorization {
  co_id : string; co_operationId : string; co_approvalId : option string; co_target : string;
  co_shell : option string; co_status : console_status; co_createdAt : Z; co_expiresAt : Z; co_usedAt : option Z }.
Record health_alert := HealthAlert {
  ha_id : string; ha_code : string; ha_scope : string; ha_root_id : option string; ha_severity : string;
  ha_status : string; ha_first_seen_at : Z; ha_last_seen_at : Z; ha_resolved_at : option Z; ha_details : string }.
Record file_batch_row := FileBatchRow {
  fb_id : string; fb_jobId : string; fb_sessionId : string; fb_rootId : string; fb_storagePoolId : string;
  fb_operation : FileBatchOperation; fb_targetDirectory : option string; fb_totalCount : nat;
  fb_completedCount : nat; fb_successCount : nat; fb_failedCount : nat; fb_cancelledCount : nat;
  fb_currentSourcePath : option string; fb_createdAt : Z; fb_updatedAt : Z; fb_finishedAt : option Z }.
Record FileBatchItemRecord := FileBatchItem {
  fi_id : string; fi_batchId : string; fi_ordinal : nat; fi_sourcePath : string; fi_targetPath : option string;
  fi_trashEntryId : option string; fi_operationId : string; fi_status : FileBatchItemStatus;
  fi_error : option string; fi_createdAt : Z; fi_updatedAt : Z }.

#[export] Instance eta_session : Eta AgentSessionRecord := λ r,
  AgentSession (se_id r) (se_rootId r) (se_currentPath r) (se_createdAt r) (se_updatedAt r).
#[export] Instance eta_job : Eta JobRecord := λ r,
  Job (jb_id r) (jb_sessionId r) (jb_messageId r) (jb_kind r) (jb_status r) (jb_createdAt r) (jb_updatedAt r) (jb_error r).
#[export] Instance eta_event : Eta event_row := λ r,
  EventRow (ev_id r) (ev_sessionId r) (ev_jobId r) (ev_type r) (ev_payload r) (ev_createdAt r).
#[export] Instance eta_approval : Eta approval_row := λ r,
  ApprovalRow (ar_id r) (ar_jobId r) (ar_kind r) (ar_status r) (ar_proposal r) (ar_createdAt r) (ar_updatedAt r).
#[export] Instance eta_notification : Eta OperationNotificationRecord := λ r,
  OperationNotification (no_id r) (no_jobId r) (no_sessionId r) (no_kind r) (no_status r) (no_summary r)
    (no_error r) (no_readAt r) (no_createdAt r) (no_updatedAt r).
#[export] Instance eta_file_operation : Eta FileOperationRecord := λ r,
  FileOperation (fo_id r) (fo_approvalId r) (fo_operation r) (fo_sourcePath r) (fo_targetPath r) (fo_status r)
    (fo_metadata r) (fo_createdAt r) (fo_updatedAt r).
#[export] Instance eta_trash_entry : Eta TrashEntryRecord := λ r,
  TrashEntry (te_id r) (te_rootId r) (te_originalPath r) (te_trashPath r) (te_metadata r) (te_createdAt r) (te_restoredAt r).
#[export] Instance eta_operation : Eta operation_record := λ r,
  OperationRecord (or_id r) (or_approvalId r) (or_action r) (or_targetType r) (or_targetId r) (or_status r)
    (or_metadata r) (or_createdAt r) (or_updatedAt r).
#[export] Instance eta_console : Eta console_authorization := λ r,
  ConsoleAuthorization (co_id r) (co_operationId r) (co_approvalId r) (co_target r) (co_shell r) (co_status r)
    (co_createdAt r) (co_expiresAt r) (co_usedAt r).
#[export] Instance eta_health_alert : Eta health_alert := λ r,
  HealthAlert (ha_id r) (ha_code r) (ha_scope r) (ha_root_id r) (ha_severity r) (ha_status r) (ha_first_seen_at r)
    (ha_last_seen_at r) (ha_resolved_at r) (ha_details r).
#[export] Instance eta_file_batch : Eta file_batch_row := λ r,
  FileBatchRow (fb_id r) (fb_jobId r) (fb_sessionId r) (fb_rootId r) (fb_storagePoolId r) (fb_operation r)
    (fb_targetDirectory r) (fb_totalCount r) (fb_completedCount r) (fb_successCount r) (fb_failedCount r)
    (fb_cancelledCount r) (fb_currentSourcePath r) (fb_createdAt r) (fb_updatedAt r) (fb_finishedAt r).
#[export] Instance eta_file_batch_item : Eta FileBatchItemRecord := λ r,
  FileBatchItem (fi_id r) (fi_batchId r) (fi_ordinal r) (fi_sourcePath r) (fi_targetPath r) (fi_trashEntryId r)
    (fi_operationId r) (fi_status r) (fi_error r) (fi_createdAt r) (fi_updatedAt r).

(** ** The database *)
(** [c_event_seq] and [c_transcript_seq]: the largest AUTOINCREMENT key each
    of the two tables has ever had. *)
Record core_db := CoreDb {
  c_sessions : list AgentSessionRecord;
  c_provider_sessions : list AgentProviderSessionRecord;
  c_messages : list AgentMessageRecord;
  c_jobs : list JobRecord;
  c_events : list event_row;
  c_event_seq : Z;
  c_transcript : list transcript_item;
  c_transcript_seq : Z;
  c_approvals : list approval_row;
  c_notifications : list OperationNotificationRecord;
  c_file_operations : list FileOperationRecord;
  c_trash : list TrashEntryRecord;
  c_docker_operations : list operation_record;
  c_share_operations : list operation_record;
  c_storage_operations : list operation_record;
  c_vm_operations : list operation_record;
  c_docker_consoles : list console_authorization;
  c_vm_consoles : list console_authorization;
  c_batches : list file_batch_row;
  c_items : list FileBatchItemRecord;
  c_health_alerts : list health_alert;
  c_index : index_db
}.
#[export] Instance eta_core : Eta core_db := λ d,
  CoreDb (c_sessions d) (c_provider_sessions d) (c_messages d) (c_jobs d) (c_events d) (c_event_seq d)
    (c_transcript d) (c_transcript_seq d) (c_approvals d) (c_notifications d) (c_file_operations d) (c_trash d)
    (c_docker_operations d) (c_share_operations d) (c_storage_operations d) (c_vm_operations d)
    (c_docker_consoles d) (c_vm_consoles d) (c_batches d)
    (c_items d) (c_health_alerts d) (c_index d).
(** The ids of nas_roots; the handlers that look a root up find the enabled
    ones, and the models here take every root as enabled unless they say
    otherwise. *)
Definition c_roots (d : core_db) : list string := ix_roots (c_index d).
Definition empty_core (roots : list string) : core_db :=
  CoreDb [] [] [] [] [] 0 [] 0 [] [] [] [] [] [] [] [] [] [] [] [] [] (IndexDb roots [] [] [] []).
Notation core_prog := (prog core_db).

(** ** INSERT *)
Definition pk_error : exn := SqliteError "SQLITE_CONSTRAINT_PRIMARYKEY".
Definition unique_error : exn := SqliteError "SQLITE_CONSTRAINT_UNIQUE".
Definition fk_error : exn := SqliteError "SQLITE_CONSTRAINT_FOREIGNKEY".

Definition has_session (id : string) (d : core_db) : bool := isSome (by_key se_id id (c_sessions d)).
Definition has_message (id : string) (d : core_db) : bool := isSome (by_key me_id id (c_messages d)).
Definition has_job (id : string) (d : core_db) : bool := isSome (by_key jb_id id (c_jobs d)).
Definition has_approval (id : string) (d : core_db) : bool := isSome (by_key ar_id id (c_approvals d)).
(** A nullable reference. *)
Definition opt_ref (f : string → core_db → bool) (o : option string) (d : core_db) : bool :=
  match o with None => true | Some id => f id d end.

(** Insert a row unless its primary key is taken or a reference dangles. *)
Definition checked_insert {R} (key : R → string) (table : core_db → list R) (refs : core_db → bool) (r : R)
    (put : list R → core_db → core_db) : core_prog unit := λ d,
  if isSome (by_key key (key r) (table d)) then (inl pk_error, d)
  else if negb (refs d) then (inl fk_error, d)
  else (inr tt, put (insert_row r (table d)) d).

Lemma checked_insert_inv {R} (key : R → string) table refs r put d d' u :
  checked_insert key table refs r put d = (inr u, d') →
  by_key key (key r) (table d) = None ∧ refs d = true ∧ d' = put (insert_row r (table d)) d.
Proof.
  unfold checked_insert. destruct (by_key key (key r) (table d)); simpl; [done|].
  destruct (refs d); simpl; [|done]. by intros [= _ <-].
Qed.

Definition insert_session (r : AgentSessionRecord) : core_prog unit :=
  checked_insert se_id c_sessions (λ d, bool_decide (se_rootId r ∈ c_roots d)) r (λ t d, d <| c_sessions := t |>).
Definition insert_message (r : AgentMessageRecord) : core_prog unit :=
  checked_insert me_id c_messages (has_session (me_sessionId r)) r (λ t d, d <| c_messages := t |>).
Definition insert_job (r : JobRecord) : core_prog unit :=
  checked_insert jb_id c_jobs (λ d, has_session (jb_sessionId r) d && has_message (jb_messageId r) d) r
    (λ t d, d <| c_jobs := t |>).
Definition insert_approval (r : approval_row) : core_prog unit :=
  checked_insert ar_id c_approvals (has_job (ar_jobId r)) r (λ t d, d <| c_approvals := t |>).
Definition insert_notification (r : OperationNotificationRecord) : core_prog unit := λ d,
  if exists_where (λ x, bool_decide (no_jobId x = no_jobId r)) (c_notifications d) then (inl unique_error, d)
  else checked_insert no_id c_notifications
         (λ d, has_job (no_jobId r) d && has_session (no_sessionId r) d) r (λ t d, d <| c_notifications := t |>) d.
Definition insert_file_operation (r : FileOperationRecord) : core_prog unit :=
  checked_insert fo_id c_file_operations (opt_ref has_approval (fo_approvalId r)) r
    (λ t d, d <| c_file_operations := t |>).

(** The transcript triggers: an item names a message or an event of its
    session.  SQLite keys the row after every key it ever gave out. *)
Definition insert_transcript (sessionId : string) (messageId : option string) (eventId : option Z) : core_prog Z := λ d,
  let dangling := match messageId with
    | Some m => negb (exists_where (λ x, has_key me_id m x && bool_decide (me_sessionId x = sessionId)) (c_messages d))
    | None => false
    end || match eventId with
    | Some e => negb (exists_where (λ x, has_key ev_id e x && bool_decide (ev_sessionId x = sessionId)) (c_events d))
    | None => false
    end in
  if dangling then (inl (Exn "SqliteError" "transcript source/session mismatch" None (Some "SQLITE_CONSTRAINT_TRIGGER") []), d)
  else if Bool.eqb (isSome messageId) (isSome eventId) then (inl (SqliteError "SQLITE_CONSTRAINT_CHECK"), d)
  else if exists_where (λ x, (isSome messageId && bool_decide (tr_messageId x = messageId)) ||
                             (isSome eventId && bool_decide (tr_eventId x = eventId))) (c_transcript d)
  then (inl unique_error, d)
  else if negb (has_session sessionId d) then (inl fk_error, d)
  else let n := c_transcript_seq d + 1 in
       (inr n, d <| c_transcript := insert_row (TranscriptItem n sessionId messageId eventId) (c_transcript d) |>
                 <| c_transcript_seq := n |>).

Definition insert_event (sessionId : string) (jobId : option string) (type : AgentEventType) (payload : json) (now : Z)
    : core_prog Z := λ d,
  if negb (has_session sessionId d && opt_ref has_job jobId d) then (inl fk_error, d)
  else let n := c_event_seq d + 1 in
       (inr n, d <| c_events := insert_row (EventRow n sessionId jobId type payload now) (c_events d) |>
                 <| c_event_seq := n |>).
