(* ===== verification/Jobs.v ===== *)
(** * Sessions, jobs, events, notifications and approvals

    packages/db/src/repositories/{sessions,operation-notifications,jobs,
    approvals,approval-status}.ts, over the tables of CoreDb. *)
From S2P Require Import Prelude Sql Json CoreDb.
Open Scope Z_scope.

(** ** operation-notifications.ts *)
Definition day_ms : Z := 24 * 60 * 60 * 1000.
Definition recent_note (now : Z) (r : OperationNotificationRecord) : bool :=
  bool_decide (now - 30 * day_ms ≤ no_updatedAt r).

Definition createOperationNotification (id jobId sessionId : string) (kind : OperationNotificationKind)
    (status : OperationNotificationStatus) (summary : string) (now : Z) : core_prog OperationNotificationRecord :=
  let record := OperationNotification id jobId sessionId kind status summary None None now now in
  _ ← insert_notification record; mret record.

Definition note_of (jobId : string) (r : OperationNotificationRecord) : bool := bool_decide (no_jobId r = jobId).

Definition getOperationNotificationByJob (jobId : string) (d : core_db) : option OperationNotificationRecord :=
  get_row (note_of jobId) (c_notifications d).

Definition newest_note (a b : OperationNotificationRecord) : bool :=
  bool_decide (no_updatedAt b < no_updatedAt a) ||
  (bool_decide (no_updatedAt a = no_updatedAt b) && bool_decide (no_createdAt b ≤ no_createdAt a)).
Definition listOperationNotifications (limit : option Z) (now : Z) (d : core_db) : list OperationNotificationRecord :=
  let limit := Z.min (Z.max (limit ⁇ 100) 1) 100 in
  take (Z.to_nat limit) (order_by newest_note (select (recent_note now) (c_notifications d))).

Definition countUnreadOperationNotifications (now : Z) (d : core_db) : nat :=
  count_where (λ r, is_null (no_readAt r) && recent_note now r) (c_notifications d).

Definition set_notes (d : core_db) (t : list OperationNotificationRecord) : core_db := d <| c_notifications := t |>.

Definition markOperationNotificationRead (id : string) (now : Z) (d : core_db)
    : option OperationNotificationRecord * core_db :=
  let f r := r <| no_readAt := coalesce (no_readAt r) (Some now) |> in
  (returning (has_key no_id id) f (c_notifications d), set_notes d (update_where (has_key no_id id) f (c_notifications d))).

Definition markAllOperationNotificationsRead (now : Z) (d : core_db) : nat * core_db :=
  let unread r := is_null (no_readAt r) && recent_note now r in
  (count_where unread (c_notifications d),
   set_notes d (update_where unread (λ r, r <| no_readAt := Some now |>) (c_notifications d))).

Definition note_changes (jobId : string) (status : OperationNotificationStatus) (error : option string)
    (preserveRejected : bool) (r : OperationNotificationRecord) : bool :=
  note_of jobId r && negb (preserveRejected && bool_decide (no_status r = note_rejected)) &&
  (negb (bool_decide (no_status r = status)) || negb (bool_decide (no_error r = error))).
Definition note_update (status : OperationNotificationStatus) (error : option string) (now : Z)
    (r : OperationNotificationRecord) : OperationNotificationRecord :=
  r <| no_status := status |> <| no_error := error |> <| no_readAt := None |> <| no_updatedAt := now |>.

Definition updateOperationNotificationForJob (jobId : string) (status : OperationNotificationStatus)
    (error : option string) (preserveRejected : bool) (now : Z) (d : core_db) : core_db :=
  set_notes d (update_where (note_changes jobId status error preserveRejected) (note_update status error now)
    (c_notifications d)).

Definition pruneOperationNotifications (now : Z) (d : core_db) : nat * core_db :=
  let old r := negb (recent_note now r) in
  (count_where old (c_notifications d), set_notes d (delete_where old (c_notifications d))).

(** ** sessions.ts *)
Definition createSession (id rootId : string) (currentPath : option string) (now : Z) : core_prog AgentSessionRecord :=
  let session := AgentSession id rootId (currentPath ⁇ ".") now now in
  _ ← insert_session session; mret session.

Definition getSession (id : string) (d : core_db) : option AgentSessionRecord := by_key se_id id (c_sessions d).

Definition newest_session (a b : AgentSessionRecord) : bool := bool_decide (se_updatedAt b ≤ se_updatedAt a).
(** An empty root id is falsy: no filter. *)
Definition listSessions (rootId : option string) (limit : nat) (d : core_db) : list AgentSessionRecord :=
  let in_root r := match rootId with
                   | Some id => bool_decide (id = "") || bool_decide (se_rootId r = id)
                   | None => true
                   end in
  take limit (order_by newest_session (select in_root (c_sessions d))).

Definition touch_session (id : string) (now : Z) (d : core_db) : core_db :=
  d <| c_sessions := update_where (has_key se_id id) (λ r, r <| se_updatedAt := now |>) (c_sessions d) |>.

Definition updateSessionPath (id currentPath : string) (now : Z) (d : core_db) : option AgentSessionRecord * core_db :=
  let f r := r <| se_currentPath := currentPath |> <| se_updatedAt := now |> in
  (returning (has_key se_id id) f (c_sessions d),
   d <| c_sessions := update_where (has_key se_id id) f (c_sessions d) |>).

Definition is_active (s : JobStatus) : bool :=
  match s with job_queued | job_running | job_waiting_approval => true | _ => false end.
Definition hasActiveJobsForSession (sessionId : string) (d : core_db) : bool :=
  exists_where (λ j, bool_decide (jb_sessionId j = sessionId) && is_active (jb_status j)) (c_jobs d).

(** What ON DELETE CASCADE and SET NULL do to the rows of a session. *)
Definition deleteSession (id : string) (d : core_db) : bool * core_db :=
  let d1 := d <| c_sessions := delete_where (has_key se_id id) (c_sessions d) |> in
  let messages := me_id <$> select (λ m, bool_decide (me_sessionId m = id)) (c_messages d) in
  let gone_job j := bool_decide (jb_sessionId j = id) || bool_decide (jb_messageId j ∈ messages) in
  let jobs := jb_id <$> select gone_job (c_jobs d) in
  let gone_approval a := bool_decide (ar_jobId a ∈ jobs) in
  let approvals := ar_id <$> select gone_approval (c_approvals d) in
  let gone_event e := bool_decide (ev_sessionId e = id) in
  let events := ev_id <$> select gone_event (c_events d) in
  let gone_batch b := bool_decide (fb_sessionId b = id) || bool_decide (fb_jobId b ∈ jobs) in
  let batches := fb_id <$> select gone_batch (c_batches d) in
  let gone_console c := match co_approvalId c with Some a => bool_decide (a ∈ approvals) | None => false end in
  let clear r := r <| or_approvalId := None |> in
  let cleared := update_where (λ r, match or_approvalId r with Some a => bool_decide (a ∈ approvals) | None => false end) clear in
  (bool_decide (count_where (has_key se_id id) (c_sessions d) = 1%nat),
   if negb (exists_where (has_key se_id id) (c_sessions d)) then d else
   d1 <| c_provider_sessions := delete_where (λ p, bool_decide (ps_sessionId p = id)) (c_provider_sessions d) |>
      <| c_messages := delete_where (λ m, bool_decide (me_sessionId m = id)) (c_messages d) |>
      <| c_jobs := delete_where gone_job (c_jobs d) |>
      <| c_events := (λ e, match ev_jobId e with
                           | Some j => if bool_decide (j ∈ jobs) then e <| ev_jobId := None |> else e
                           | None => e
                           end) <$> delete_where gone_event (c_events d) |>
      <| c_transcript := delete_where (λ t, bool_decide (tr_sessionId t = id) ||
           match tr_messageId t with Some m => bool_decide (m ∈ messages) | None => false end ||
           match tr_eventId t with Some e => bool_decide (e ∈ events) | None => false end) (c_transcript d) |>
      <| c_approvals := delete_where gone_approval (c_approvals d) |>
      <| c_notifications := delete_where (λ n, bool_decide (no_sessionId n = id) || bool_decide (no_jobId n ∈ jobs))
           (c_notifications d) |>
      <| c_file_operations := update_where
           (λ r, match fo_approvalId r with Some a => bool_decide (a ∈ approvals) | None => false end)
           (λ r, r <| fo_approvalId := None |>) (c_file_operations d) |>
      <| c_docker_operations := cleared (c_docker_operations d) |>
      <| c_share_operations := cleared (c_share_operations d) |>
      <| c_storage_operations := cleared (c_storage_operations d) |>
      <| c_vm_operations := cleared (c_vm_operations d) |>
      <| c_docker_consoles := delete_where gone_console (c_docker_consoles d) |>
      <| c_vm_consoles := delete_where gone_console (c_vm_consoles d) |>
      <| c_batches := delete_where gone_batch (c_batches d) |>
      <| c_items := delete_where (λ i, bool_decide (fi_batchId i ∈ batches)) (c_items d) |>).

Definition getAgentProviderSession (sessionId : string) (d : core_db) : option AgentProviderSessionRecord :=
  by_key ps_sessionId sessionId (c_provider_sessions d).

Definition saveAgentProviderSession (sessionId providerSessionId : string) (sessionFile : option string)
    (providerName model : string) (settingsSnapshot : json) (now : Z) : core_prog AgentProviderSessionRecord := λ d,
  let existing := getAgentProviderSession sessionId d in
  let record := ProviderSession sessionId providerSessionId sessionFile providerName model settingsSnapshot
                  (from_option ps_createdAt now existing) now in
  match existing with
  | Some old =>
      (inr record, d <| c_provider_sessions := update_where (has_key ps_sessionId sessionId)
         (λ r, ProviderSession sessionId providerSessionId sessionFile providerName model settingsSnapshot
                 (ps_createdAt r) now) (c_provider_sessions d) |>)
  | None =>
      if negb (has_session sessionId d) then (inl fk_error, d)
      else (inr record, d <| c_provider_sessions := insert_row record (c_provider_sessions d) |>)
  end.

Definition oldest_message (a b : AgentMessageRecord) : bool := bool_decide (me_createdAt a ≤ me_createdAt b).
Definition listMessages (sessionId : string) (limit : nat) (d : core_db) : list AgentMessageRecord :=
  take limit (order_by oldest_message (select (λ m, bool_decide (me_sessionId m = sessionId)) (c_messages d))).

(** ** jobs.ts *)
Record created_job := CreatedJob { cj_message : AgentMessageRecord; cj_job : JobRecord; cj_transcriptSequence : Z }.

Definition createUserMessageAndJob (messageId jobId sessionId content : string) (status : option JobStatus) (now : Z)
    : core_prog created_job :=
  let message := AgentMessage messageId sessionId role_user content now in
  let job := Job jobId sessionId messageId agent_job (status ⁇ job_queued) now now None in
  transcriptSequence ← transaction
    (_ ← insert_message message;
     _ ← insert_job job;
     n ← insert_transcript sessionId (Some messageId) None;
     _ ← modify (touch_session sessionId now);
     mret n);
  mret (CreatedJob message job transcriptSequence).

(** The status of an action job. *)
Inductive action_status := action_running | action_waiting_approval.

Definition createActionMessageAndJob (messageId jobId noteId sessionId content : string)
    (kind : OperationNotificationKind) (status : action_status) (now : Z)
    : core_prog (AgentMessageRecord * JobRecord * OperationNotificationRecord) :=
  let message := AgentMessage messageId sessionId role_system content now in
  let job := Job jobId sessionId messageId agent_job
    (match status with action_running => job_running | action_waiting_approval => job_waiting_approval end) now now None in
  note ← transaction
    (_ ← insert_message message;
     _ ← insert_job job;
     note ← createOperationNotification noteId jobId sessionId kind
       (match status with action_waiting_approval => note_pending_approval | action_running => note_running end)
       content now;
     _ ← modify (touch_session sessionId now);
     mret note);
  mret (message, job, note).

Definition getMessage (id : string) (d : core_db) : option AgentMessageRecord := by_key me_id id (c_messages d).
Definition getJob (id : string) (d : core_db) : option JobRecord := by_key jb_id id (c_jobs d).

Definition job_is (s : JobStatus) (j : JobRecord) : bool := bool_decide (jb_status j = s).
Definition claimable_job (j : JobRecord) : bool := bool_decide (jb_kind j = agent_job) && job_is job_queued j.
Definition oldest_job (a b : JobRecord) : bool := bool_decide (jb_createdAt a ≤ jb_createdAt b).
Definition start_job (now : Z) (j : JobRecord) : JobRecord :=
  j <| jb_status := job_running |> <| jb_error := None |> <| jb_updatedAt := now |>.

Definition claimNextJob (now : Z) (d : core_db) : option JobRecord * core_db :=
  match first_by oldest_job claimable_job (c_jobs d) with
  | None => (None, d)
  | Some next =>
      let q j := has_key jb_id (jb_id next) j && job_is job_queued j in
      let d' := d <| c_jobs := update_where q (start_job now) (c_jobs d) |> in
      match returning q (start_job now) (c_jobs d) with
      | Some row => (Some row, updateOperationNotificationForJob (jb_id row) note_running None false now d')
      | None => (None, d')
      end
  end.

(** Every job status has one; the code's [null] is for none of them. *)
Definition notificationStatusForJob (s : JobStatus) : option OperationNotificationStatus :=
  match s with
  | job_waiting_approval => Some note_pending_approval
  | job_queued | job_running => Some note_running
  | job_completed => Some note_succeeded
  | job_failed => Some note_failed
  | job_cancelled => Some note_cancelled
  end.

Definition set_job_status (status : JobStatus) (error : option string) (now : Z) (j : JobRecord) : JobRecord :=
  j <| jb_status := status |> <| jb_error := error |> <| jb_updatedAt := now |>.
Definition expire_approval (now : Z) (a : approval_row) : approval_row :=
  a <| ar_status := ap_expired |> <| ar_updatedAt := now |>.
Definition pending_of (jobId : string) (a : approval_row) : bool :=
  bool_decide (ar_jobId a = jobId) && bool_decide (ar_status a = ap_pending).
Definition job_guard (jobId : string) (allowedFrom : list JobStatus) (j : JobRecord) : bool :=
  has_key jb_id jobId j && match allowedFrom with [] => true | _ => bool_decide (jb_status j ∈ allowedFrom) end.

(** [updateJobStatus]; no guard is the empty [allowedFrom]. *)
Definition updateJobStatus (jobId : string) (status : JobStatus) (error : option string)
    (allowedFrom : list JobStatus) (now : Z) (d : core_db) : bool * core_db :=
  let q := job_guard jobId allowedFrom in
  let changed := bool_decide (count_where q (c_jobs d) = 1%nat) in
  let d := d <| c_jobs := update_where q (set_job_status status error now) (c_jobs d) |> in
  if negb changed then (false, d) else
  let d := if bool_decide (status = job_cancelled)
           then d <| c_approvals := update_where (pending_of jobId) (expire_approval now) (c_approvals d) |>
           else d in
  (true, match notificationStatusForJob status with
         | Some s => updateOperationNotificationForJob jobId s error (bool_decide (status = job_completed)) now d
         | None => d
         end).

Definition eventAudience (jobId : option string) (d : core_db) : AgentEventAudience :=
  match jobId with
  | None => chat
  | Some id =>
      if bool_decide (id = "") then chat else
      match getJob id d ≫= λ j, getMessage (jb_messageId j) d with
      | Some m => if bool_decide (me_role m = role_system) then notification else chat
      | None => chat
      end
  end.

Record AgentEventRecord := AgentEvent {
  ae_id : Z; ae_sessionId : string; ae_jobId : option string; ae_type : AgentEventType;
  ae_audience : AgentEventAudience; ae_transcriptSequence : option Z; ae_payload : json; ae_createdAt : Z }.
Global Instance AgentEventAudience_eq_dec : EqDecision AgentEventAudience. Proof. solve_decision. Defined.

Definition in_transcript (audience : AgentEventAudience) (type : AgentEventType) : bool :=
  bool_decide (audience = chat) && (bool_decide (type = agent_message) || bool_decide (type = ev_job_failed)).

Definition appendEvent (sessionId : string) (jobId : option string) (type : AgentEventType) (payload : json) (now : Z)
    : core_prog AgentEventRecord :=
  audience ← gets (eventAudience jobId);
  result ← transaction
    (eventId ← insert_event sessionId jobId type payload now;
     if in_transcript audience type
     then n ← insert_transcript sessionId None (Some eventId); mret (eventId, Some n)
     else mret (eventId, None));
  mret (AgentEvent result.1 sessionId jobId type audience result.2 payload now).

Definition map_event (d : core_db) (e : event_row) : AgentEventRecord :=
  AgentEvent (ev_id e) (ev_sessionId e) (ev_jobId e) (ev_type e) (eventAudience (ev_jobId e) d)
    (tr_sequence <$> get_row (λ t, bool_decide (tr_eventId t = Some (ev_id e))) (c_transcript d))
    (ev_payload e) (ev_createdAt e).
Definition by_event_id (a b : event_row) : bool := bool_decide (ev_id a ≤ ev_id b).
Definition listEvents (sessionId : string) (afterId : option Z) (limit : option nat) (d : core_db)
    : list AgentEventRecord :=
  map_event d <$> take (limit ⁇ 100%nat)
    (order_by by_event_id (select (λ e, bool_decide (ev_sessionId e = sessionId) &&
                                        bool_decide (afterId ⁇ 0 < ev_id e)) (c_events d))).

(** transcript.ts *)
Record AgentTranscriptItemRecord := TranscriptRecord {
  at_sequence : Z; at_message : option AgentMessageRecord; at_event : option AgentEventRecord }.
Definition by_sequence (a b : transcript_item) : bool := bool_decide (tr_sequence a ≤ tr_sequence b).
Definition listTranscriptItems (sessionId : string) (limit : option nat) (d : core_db) : list AgentTranscriptItemRecord :=
  let rows := take (limit ⁇ 100%nat)
    (order_by by_sequence (select (λ t, bool_decide (tr_sessionId t = sessionId)) (c_transcript d))) in
  (λ t, TranscriptRecord (tr_sequence t) (tr_messageId t ≫= λ m, getMessage m d)
     ((λ e, let r := map_event d e in
            AgentEvent (ae_id r) (ae_sessionId r) (ae_jobId r) (ae_type r) (ae_audience r) (Some (tr_sequence t))
              (ae_payload r) (ae_createdAt r)) <$> (tr_eventId t ≫= λ e, by_key ev_id e (c_events d)))) <$> rows.

(** ** approvals.ts and approval-status.ts *)
Record PendingApprovalRecord := PendingApproval {
  pa_id : string; pa_jobId : string; pa_sessionId : string; pa_kind : PendingApprovalKind; pa_status : ApprovalStatus;
  pa_proposal : list json; pa_createdAt : Z; pa_updatedAt : Z }.

Definition approval_record (sessionId : string) (r : approval_row) : PendingApprovalRecord :=
  PendingApproval (ar_id r) (ar_jobId r) sessionId (ar_kind r) (ar_status r) (ar_proposal r) (ar_createdAt r) (ar_updatedAt r).

(** The fields of a file operation proposal the table copies. *)
Record FileOperationProposal := FileProposal {
  fp_operation : FileMutationOperation; fp_rootId : string; fp_storagePoolId : option string;
  fp_sourcePath : option string; fp_targetPath : option string; fp_tag : option string;
  fp_trashEntryId : option string; fp_reversible : bool; fp_json : json }.

Definition find_job (jobId : string) : core_prog JobRecord :=
  o ← gets (getJob jobId);
  match o with Some j => mret j | None => throw (Error "Job not found") end.

Fixpoint insert_proposed (ids : nat → string) (approvalId : string) (now : Z) (i : nat) (l : list FileOperationProposal)
    : core_prog unit :=
  match l with
  | [] => mret tt
  | p :: l =>
      _ ← insert_file_operation (FileOperation (ids i) (Some approvalId) (fp_operation p) (fp_sourcePath p)
            (match fp_targetPath p with
             | Some t => Some t
             | None => match fp_tag p with Some t => Some t | None => fp_trashEntryId p end
             end) fo_proposed [("proposal", fp_json p)] now now);
      insert_proposed ids approvalId now (S i) l
  end.

Definition createPendingApproval (id : string) (ids : nat → string) (jobId : string)
    (proposal : list FileOperationProposal) (now : Z) : core_prog PendingApprovalRecord :=
  job ← find_job jobId;
  let row := ApprovalRow id jobId file_operation ap_pending (fp_json <$> proposal) now now in
  _ ← transaction (_ ← insert_approval row; insert_proposed ids id now 0 proposal);
  mret (approval_record (jb_sessionId job) row).

Definition createPiToolCallApproval (id jobId : string) (proposal : json) (now : Z) : core_prog PendingApprovalRecord :=
  job ← find_job jobId;
  let row := ApprovalRow id jobId pi_tool_call ap_pending [proposal] now now in
  _ ← insert_approval row;
  mret (approval_record (jb_sessionId job) row).

(** The join with jobs drops an approval whose job is missing. *)
Definition join_job (d : core_db) (r : approval_row) : option PendingApprovalRecord :=
  (λ j, approval_record (jb_sessionId j) r) <$> getJob (ar_jobId r) d.
Definition getApproval (id : string) (d : core_db) : option PendingApprovalRecord :=
  by_key ar_id id (c_approvals d) ≫= join_job d.

Definition oldest_approval (a b : approval_row) : bool := bool_decide (ar_createdAt a ≤ ar_createdAt b).
Definition listPendingApprovals (d : core_db) : list PendingApprovalRecord :=
  omap (join_job d) (order_by oldest_approval (select (λ a, bool_decide (ar_status a = ap_pending)) (c_approvals d))).

Definition note_of_approval (s : ApprovalStatus) : OperationNotificationStatus :=
  match s with
  | ap_pending => note_pending_approval
  | ap_approved => note_running
  | ap_applied => note_succeeded
  | ap_rejected => note_rejected
  | ap_expired => note_cancelled
  | ap_failed => note_failed
  end.
Definition approval_guard (id : string) (allowedFrom : list ApprovalStatus) (a : approval_row) : bool :=
  has_key ar_id id a && match allowedFrom with [] => true | _ => bool_decide (ar_status a ∈ allowedFrom) end.
Definition set_approval_status (s : ApprovalStatus) (now : Z) (a : approval_row) : approval_row :=
  a <| ar_status := s |> <| ar_updatedAt := now |>.

Definition updateApprovalStatus (id : string) (status : ApprovalStatus) (allowedFrom : list ApprovalStatus) (now : Z)
    (d : core_db) : bool * core_db :=
  let q := approval_guard id allowedFrom in
  match returning q (set_approval_status status now) (c_approvals d) with
  | None => (false, d)
  | Some row =>
      let d := d <| c_approvals := update_where q (set_approval_status status now) (c_approvals d) |> in
      (true, updateOperationNotificationForJob (ar_jobId row) (note_of_approval status) None false now d)
  end.

(** ** Claiming a job *)
Lemma oldest_job_total a b : oldest_job a b = true ∨ oldest_job b a = true.
Proof. unfold oldest_job. rewrite !bool_decide_eq_true. lia. Qed.
Lemma oldest_job_trans a b c : oldest_job a b = true → oldest_job b c = true → oldest_job a c = true.
Proof. unfold oldest_job. rewrite !bool_decide_eq_true. lia. Qed.

Lemma note_update_other jobId s e p now d :
  let d' := updateOperationNotificationForJob jobId s e p now d in
  c_jobs d' = c_jobs d ∧ c_approvals d' = c_approvals d ∧ c_events d' = c_events d.
Proof. done. Qed.

(** The notification of job [jobId] says [s] and [e], and those of the other
    jobs are as in [d]. *)
Definition notes_say (jobId : string) (s : OperationNotificationStatus) (e : option string) (d d' : core_db) : Prop :=
  (∀ n, In n (c_notifications d') → no_jobId n = jobId → no_status n = s ∧ no_error n = e) ∧
  (∀ n, no_jobId n ≠ jobId → In n (c_notifications d') ↔ In n (c_notifications d)).

Lemma note_update_say jobId s e now d d0 : c_notifications d0 = c_notifications d →
  notes_say jobId s e d (updateOperationNotificationForJob jobId s e false now d0).
Proof.
  intros Hd0. split; unfold updateOperationNotificationForJob; simpl; rewrite Hd0.
  - intros n (x & Hx & ->)%update_where_In Hj. unfold note_changes in *. simpl.
    destruct (note_of jobId x) eqn:Ej; simpl in *.
    + destruct (bool_decide (no_status x = s)) eqn:Es; simpl in *; [|done].
      destruct (bool_decide (no_error x = e)) eqn:Ee; simpl in *; [|done].
      apply bool_decide_eq_true in Es, Ee. done.
    + apply bool_decide_eq_false in Ej. done.
  - intros n Hn. rewrite update_where_In. split.
    + intros (x & Hx & ->). unfold note_changes in *. destruct (note_of jobId x) eqn:Ej; simpl in *; [|done].
      apply bool_decide_eq_true in Ej. destruct (_ || _); [|done]. by destruct Hn.
    + intros Hin. exists n. split; [done|]. unfold note_changes, note_of. by rewrite bool_decide_false.
Qed.

(** A worker claims the oldest queued agent job.  [claimNextJob] returns
    nothing, and changes nothing, exactly when no agent job is queued;
    otherwise it returns the earliest created one, which is then running with
    no error and cannot be claimed again, while the other jobs, the approvals
    and the events are as before and its notification says running. *)
Theorem claimNextJob_spec now d :
  unique_keys jb_id (c_jobs d) →
  let '(o, d') := claimNextJob now d in
  match o with
  | None => d' = d ∧ ∀ j, In j (c_jobs d) → claimable_job j = false
  | Some t => ∃ j, In j (c_jobs d) ∧ claimable_job j = true ∧ t = start_job now j ∧
      (∀ j', In j' (c_jobs d) → claimable_job j' = true → jb_createdAt j ≤ jb_createdAt j') ∧
      getJob (jb_id j) d' = Some t ∧ claimable_job t = false ∧
      (∀ id, id ≠ jb_id j → getJob id d' = getJob id d) ∧
      c_approvals d' = c_approvals d ∧ c_events d' = c_events d ∧
      notes_say (jb_id j) note_running None d d'
  end.
Proof.
  intros Hu. unfold claimNextJob. destruct (first_by _ _ _) as [j|] eqn:E.
  2: { split; [done|]. by apply (first_by_None oldest_job). }
  apply (first_by_least oldest_job oldest_job_total oldest_job_trans) in E as (Hj & Hc & Hmin). cbv zeta.
  destruct (update_one_row jb_id (λ x, has_key jb_id (jb_id j) x && job_is job_queued x) (start_job now) (c_jobs d) j)
    as [Hret Hby]; [done..| | |].
  { unfold has_key. rewrite bool_decide_true by done. by apply andb_prop in Hc as [_ ?]. }
  { by intros x [Hx%bool_decide_eq_true _]%andb_prop. }
  rewrite Hret. exists j. split; [done|]. split; [done|]. split; [done|]. split.
  { intros j' Hj' Hc'. specialize (Hmin j' Hj' Hc'). by apply bool_decide_eq_true in Hmin. }
  split; [unfold getJob; simpl; rewrite Hby; by rewrite bool_decide_true|].
  split; [unfold claimable_job; simpl; by rewrite andb_false_r|]. split.
  { intros id Hid. unfold getJob. simpl. rewrite Hby. by rewrite bool_decide_false. }
  do 2 (split; [done|]). by apply note_update_say.
Qed.

(** ** A small database *)
Definition jobs_demo : core_db :=
  let d := (createSession "s" "r" None 0 (empty_core ["r"])).2 in
  let d := (createUserMessageAndJob "m1" "j1" "s" "hello" None 10 d).2 in
  (createActionMessageAndJob "m2" "j2" "n2" "s" "restart" note_docker action_waiting_approval 20 d).2.

Lemma claimNextJob_spec_witness :
  (claimNextJob 30 jobs_demo).1 = Some (Job "j1" "s" "m1" agent_job job_running 10 30 None) ∧
  ∃ j, In j (c_jobs jobs_demo) ∧ claimable_job j = true ∧
    Job "j1" "s" "m1" agent_job job_running 10 30 None = start_job 30 j.
Proof.
  split; [by vm_compute|].
  pose proof (claimNextJob_spec 30 jobs_demo) as H. destruct H as (j & Hj & Hc & E & _).
  - apply (bool_decide_eq_true_1 (NoDup _)). by vm_compute.
  - exists j. split; [exact Hj|]. split; [exact Hc|]. rewrite <-E. by vm_compute.
Defined.

(** ** Guarded transitions *)
Lemma updateJobStatus_stuck id status error from now d :
  (∀ r, In r (c_jobs d) → job_guard id from r = false) → updateJobStatus id status error from now d = (false, d).
Proof.
  intros H. unfold updateJobStatus. cbv zeta.
  rewrite (proj2 (count_where_0 (job_guard id from) (c_jobs d)) H). simpl.
  rewrite update_where_none; [by destruct d|]. by apply get_row_None.
Qed.

(** What it leaves alone, and the jobs it leaves. *)
Lemma updateJobStatus_frame id status error from now d : let r := updateJobStatus id status error from now d in
  r.1 = bool_decide (count_where (job_guard id from) (c_jobs d) = 1%nat) ∧
  c_jobs r.2 = update_where (job_guard id from) (set_job_status status error now) (c_jobs d) ∧
  c_batches r.2 = c_batches d ∧ c_items r.2 = c_items d ∧ c_sessions r.2 = c_sessions d ∧
  c_events r.2 = c_events d ∧ c_event_seq r.2 = c_event_seq d ∧ c_transcript r.2 = c_transcript d ∧
  c_transcript_seq r.2 = c_transcript_seq d ∧ c_messages r.2 = c_messages d.
Proof.
  unfold updateJobStatus. cbv zeta. case_bool_decide; simpl negb; cbv iota; [|by destruct d].
  destruct (bool_decide (status = job_cancelled)), (notificationStatusForJob status); done.
Qed.

Lemma count_guard id from d j : unique_keys jb_id (c_jobs d) → In j (c_jobs d) → jb_id j = id →
  match from with [] => true | _ => bool_decide (jb_status j ∈ from) end = true →
  count_where (job_guard id from) (c_jobs d) = 1%nat.
Proof.
  intros Hu Hj Hid Hf. assert (count_where (job_guard id from) (c_jobs d) ≤ 1)%nat by (by apply count_key_le_1).
  assert (0 < count_where (job_guard id from) (c_jobs d))%nat; [|lia].
  apply count_where_pos. exists j. split; [done|]. unfold job_guard, has_key. by rewrite bool_decide_true.
Qed.

(** A guarded transition happens or leaves no trace.  [updateJobStatus]
    returns false, with nothing changed, when the job does not exist or its
    status is not one the guard allows; otherwise the job, and only it, gets
    the status and the error, its notification follows - but a rejected one is
    not overwritten by a completion -, and a cancelled job's pending
    approvals expire, no other approval changing. *)
Theorem updateJobStatus_spec id status error from now d :
  unique_keys jb_id (c_jobs d) →
  match getJob id d with
  | Some j =>
      if match from with [] => true | _ => bool_decide (jb_status j ∈ from) end then
        ∃ d', updateJobStatus id status error from now d = (true, d') ∧
          getJob id d' = Some (set_job_status status error now j) ∧
          (∀ k, k ≠ id → getJob k d' = getJob k d) ∧
          c_approvals d' = (if bool_decide (status = job_cancelled)
                            then update_where (pending_of id) (expire_approval now) (c_approvals d)
                            else c_approvals d) ∧
          (status = job_cancelled → ∀ a, In a (c_approvals d') → ar_jobId a = id → ar_status a ≠ ap_pending) ∧
          (status ≠ job_completed →
             ∀ s, notificationStatusForJob status = Some s → notes_say id s error d d')
      else updateJobStatus id status error from now d = (false, d)
  | None => updateJobStatus id status error from now d = (false, d)
  end.
Proof.
  intros Hu. destruct (getJob id d) as [j|] eqn:Hg.
  - unfold getJob in Hg. pose proof Hg as [Hj Hid]%by_key_Some.
    destruct (match from with [] => true | _ => _ end) eqn:Ef.
    + unfold updateJobStatus. cbv zeta. rewrite (count_guard id from d j) by done.
      destruct (update_one_row jb_id (job_guard id from) (set_job_status status error now) (c_jobs d) j)
        as [_ Hby]; [done..| | |].
      { unfold job_guard, has_key. by rewrite bool_decide_true by done. }
      { intros x [Hx%bool_decide_eq_true _]%andb_prop. congruence. }
      rewrite (bool_decide_true (1%nat = 1%nat)) by done. cbv [negb].
      set (d1 := d <| c_jobs := update_where (job_guard id from) (set_job_status status error now) (c_jobs d) |>).
      set (d2 := if bool_decide (status = job_cancelled) then _ else d1).
      assert (c_jobs d2 = c_jobs d1 ∧ c_notifications d2 = c_notifications d ∧
        c_approvals d2 = (if bool_decide (status = job_cancelled)
           then update_where (pending_of id) (expire_approval now) (c_approvals d) else c_approvals d)) as (E1&E2&E3).
      { unfold d2. by destruct (bool_decide (status = job_cancelled)). }
      assert (∃ s, notificationStatusForJob status = Some s) as [s Hs] by (destruct status; simpl; eauto).
      rewrite Hs. eexists. split; [done|].
      destruct (note_update_other id s error (bool_decide (status = job_completed)) now d2) as (H1&H2&H3).
      unfold getJob. rewrite H1, H2, E1, E3.
      split; [simpl; rewrite Hby; by rewrite bool_decide_true by done|].
      split; [intros k Hk; simpl; rewrite Hby; by rewrite bool_decide_false by congruence|].
      split; [done|]. split.
      * intros ->. rewrite bool_decide_true by done. intros a (x & Hx & ->)%update_where_In Ha.
        destruct (pending_of id x) eqn:Ep; [done|]. intros Hp. unfold pending_of in Ep.
        rewrite Ha, Hp, !bool_decide_true in Ep by done. done.
      * intros Hc s' [= <-]. rewrite bool_decide_false by done. by apply note_update_say.
    + apply updateJobStatus_stuck. intros r Hr. unfold job_guard.
      destruct (has_key jb_id id r) eqn:Ek; [|done]. apply bool_decide_eq_true in Ek.
      by rewrite (unique_key_eq jb_id (c_jobs d) r j) by congruence.
  - apply updateJobStatus_stuck. intros r Hr. unfold job_guard, has_key.
    unfold getJob in Hg. rewrite by_key_None in Hg. by rewrite bool_decide_false by auto.
Qed.

Lemma updateJobStatus_spec_witness :
  ∃ d', updateJobStatus "j2" job_cancelled None [job_waiting_approval] 40 jobs_demo = (true, d') ∧
        getJob "j2" d' = Some (Job "j2" "s" "m2" agent_job job_cancelled 20 40 None).
Proof.
  pose proof (updateJobStatus_spec "j2" job_cancelled None [job_waiting_approval] 40 jobs_demo) as H.
  destruct H as (d' & E & Hg & _).
  - apply (bool_decide_eq_true_1 (NoDup _)). by vm_compute.
  - exists d'. split; [exact E|]. rewrite Hg. by vm_compute.
Defined.

(** ** The event log *)
(** Keys only grow: the rows are in key order and below the counters. *)
Record log_ok (d : core_db) : Prop := LogOk {
  log_events : StronglySorted (λ a b, ev_id a < ev_id b) (c_events d);
  log_event_seq : Forall (λ e, ev_id e ≤ c_event_seq d) (c_events d);
  log_transcript : StronglySorted (λ a b, tr_sequence a < tr_sequence b) (c_transcript d);
  log_transcript_seq : Forall (λ t, tr_sequence t ≤ c_transcript_seq d ∧ (tr_eventId t ⁇ 0) ≤ c_event_seq d) (c_transcript d)
}.

Lemma StronglySorted_snoc {R} (P : R → R → Prop) t x :
  StronglySorted P t → Forall (λ y, P y x) t → StronglySorted P (insert_row x t).
Proof.
  induction 1 as [|y t Ht IH Hy]; intros Hx; unfold insert_row; simpl; [repeat constructor|].
  inversion Hx; subst. constructor; [by apply IH|]. apply Forall_app; auto.
Qed.

Definition in_session_after (sessionId : string) (a : Z) (e : event_row) : bool :=
  bool_decide (ev_sessionId e = sessionId) && bool_decide (a < ev_id e).

Lemma listEvents_sorted s a n d : log_ok d →
  listEvents s (Some a) (Some n) d = map_event d <$> take n (select (in_session_after s a) (c_events d)).
Proof.
  intros [H _ _ _]. unfold listEvents. simpl. rewrite order_by_id; [done|].
  apply StronglySorted_filter. clear -H. induction H as [|x t Ht IH Hx]; constructor; [done|].
  eapply Forall_impl; [exact Hx|]. intros y Hy. apply bool_decide_eq_true. simpl in *. lia.
Qed.

(** In a log in key order, what follows a row is what has a larger key. *)
Lemma select_after_split s a t p x q :
  StronglySorted (λ a b, ev_id a < ev_id b) t →
  select (in_session_after s a) t = p ++ x :: q → select (in_session_after s (ev_id x)) t = q.
Proof.
  intros Hs E. assert (select (in_session_after s (ev_id x)) t =
    List.filter (λ e, bool_decide (ev_id x < ev_id e)) (select (in_session_after s a) t)) as ->.
  { assert (a < ev_id x) as Hax.
    { assert (In x (select (in_session_after s a) t)) as Hx by (rewrite E; apply in_app_iff; right; by left).
      apply select_In in Hx as [_ [_ Hx%bool_decide_eq_true]%andb_prop]. done. }
    unfold select. clear E Hs. induction t as [|e t IH]; [done|]. simpl.
    assert (in_session_after s (ev_id x) e =
      in_session_after s a e && bool_decide (ev_id x < ev_id e)) as ->.
    { unfold in_session_after. destruct (bool_decide (ev_sessionId e = s)); [|done]. simpl.
      apply eq_true_iff_eq. rewrite andb_true_iff, !bool_decide_eq_true. lia. }
    destruct (in_session_after s a e); simpl; [|exact IH].
    destruct (bool_decide (ev_id x < ev_id e)); [f_equal|]; exact IH. }
  apply (StronglySorted_filter _ (in_session_after s a)) in Hs. fold (select (in_session_after s a) t) in Hs.
  rewrite E in *. clear E. induction p as [|y p IH]; simpl in *.
  - rewrite bool_decide_false by lia. inversion Hs as [|? ? _ Hall]; subst. clear Hs.
    induction q as [|z q IHq]; [done|]. inversion Hall; subst. simpl. rewrite bool_decide_true by done.
    f_equal. by apply IHq.
  - inversion Hs as [|? ? Hs' Hall]; subst. rewrite bool_decide_false; [by apply IH|].
    rewrite Forall_forall in Hall. specialize (Hall x). rewrite elem_of_app, elem_of_cons in Hall.
    specialize (Hall (or_intror (or_introl eq_refl))). lia.
Qed.

(** Polling the event log misses nothing and repeats nothing: the events
    a client reads from a cursor, continued from the last id it saw, are the
    session's events from the first cursor on, in key order. *)
Theorem listEvents_pages s a n m d e :
  log_ok d → last (listEvents s (Some a) (Some n) d) = Some e →
  let page := listEvents s (Some a) (Some n) d in
  page ++ listEvents s (Some (ae_id e)) (Some m) d = listEvents s (Some a) (Some (length page + m)%nat) d.
Proof.
  intros Hok Hlast page. unfold page. rewrite !listEvents_sorted in * by done.
  set (all := select (in_session_after s a) (c_events d)) in *.
  rewrite fmap_last in Hlast. destruct (last (take n all)) as [x|] eqn:Ex; [|done]. simpl in Hlast.
  injection Hlast as <-. simpl ae_id. apply last_Some in Ex as [p Ep].
  assert (all = p ++ x :: drop n all) as E.
  { rewrite <-(take_drop n all) at 1. rewrite Ep. by rewrite <-app_assoc. }
  rewrite (select_after_split s a (c_events d) p x (drop n all) (log_events d Hok) E).
  rewrite <-fmap_app, length_fmap. f_equal. rewrite length_take.
  destruct (decide (n ≤ length all)%nat) as [Hn|Hn].
  - rewrite Nat.min_l by done. by rewrite take_take_drop.
  - rewrite (drop_ge all n) by lia. rewrite (take_ge [] m) by (simpl; lia).
    rewrite app_nil_r, !take_ge by lia. done.
Qed.

Definition logged (d : core_db) (s : string) (job : option string) (type : AgentEventType) (payload : json) (now : Z) : core_db :=
  d <| c_events := insert_row (EventRow (c_event_seq d + 1) s job type payload now) (c_events d) |>
    <| c_event_seq := c_event_seq d + 1 |>.

Lemma logged_ok d s job type payload now : log_ok d → log_ok (logged d s job type payload now).
Proof.
  intros [H1 H2 H3 H4]. constructor; simpl; [| |done|].
  - apply StronglySorted_snoc; [done|]. eapply Forall_impl; [exact H2|]. simpl. intros; lia.
  - apply insert_row_Forall; [|simpl; lia]. eapply Forall_impl; [exact H2|]. simpl. intros; lia.
  - eapply Forall_impl; [exact H4|]. simpl. intros; lia.
Qed.

(** The event just logged can enter the transcript. *)
Lemma insert_transcript_event d s job type payload now : log_ok d → has_session s d = true →
  let d1 := logged d s job type payload now in
  ∃ d', insert_transcript s None (Some (c_event_seq d + 1)) d1 = (inr (c_transcript_seq d + 1), d') ∧ log_ok d' ∧
    c_transcript d' = c_transcript d ++ [TranscriptItem (c_transcript_seq d + 1) s None (Some (c_event_seq d + 1))] ∧
    (c_events d' = c_events d1 ∧ c_jobs d' = c_jobs d ∧ c_approvals d' = c_approvals d ∧
     c_notifications d' = c_notifications d).
Proof.
  intros Hok Hs d1. pose proof (logged_ok d s job type payload now Hok) as [H1 H2 H3 H4]. fold d1 in H1, H2, H3, H4.
  unfold insert_transcript. cbv zeta.
  assert (exists_where (λ x, has_key ev_id (c_event_seq d + 1) x && bool_decide (ev_sessionId x = s)) (c_events d1) = true)
    as ->.
  { apply exists_where_true. exists (EventRow (c_event_seq d + 1) s job type payload now).
    split; [apply insert_row_In; by right|]. unfold has_key. simpl. by rewrite !bool_decide_true. }
  simpl negb. cbv iota. simpl Bool.eqb. cbv iota.
  match goal with |- context [exists_where ?p (c_transcript d1)] =>
    assert (exists_where p (c_transcript d1) = false) as -> end.
  { apply exists_where_false. intros x Hx. simpl. apply bool_decide_eq_false. intros Ex.
    destruct Hok as [_ _ _ H5]. pose proof (Forall_In _ _ _ H5 Hx) as [_ Hle]. rewrite Ex in Hle. simpl in Hle. lia. }
  assert (has_session s d1 = true) as -> by done. simpl negb. cbv iota.
  eexists. split; [done|]. split; [|done]. constructor; simpl; [done|done| |].
  - apply StronglySorted_snoc; [done|]. destruct Hok as [_ _ _ H5]. eapply Forall_impl; [exact H5|]. simpl. intros; lia.
  - apply insert_row_Forall; [|simpl; lia]. destruct Hok as [_ _ _ H5]. eapply Forall_impl; [exact H5|]. simpl. intros; lia.
Qed.

(** Only the event log and the transcript may differ. *)
Definition same_but_log (d d' : core_db) : Prop :=
  d' = d <| c_events := c_events d' |> <| c_event_seq := c_event_seq d' |> <| c_transcript := c_transcript d' |>
         <| c_transcript_seq := c_transcript_seq d' |>.

Lemma same_but_log_refl d : same_but_log d d.
Proof. by destruct d. Qed.

Lemma same_but_log_trans d1 d2 d3 : same_but_log d1 d2 → same_but_log d2 d3 → same_but_log d1 d3.
Proof. unfold same_but_log. intros -> ->. by destruct d1. Qed.

Lemma appendEvent_frame s job type payload now d : same_but_log d (appendEvent s job type payload now d).2.
Proof.
  unfold appendEvent. rewrite bind_gets. cbv zeta. set (tx := transaction _).
  assert (same_but_log d (tx d).2) as H.
  { unfold tx, transaction, mbind, prog_bind, insert_event. destruct (negb _); [apply same_but_log_refl|].
    destruct (in_transcript _ _); [|done]. unfold insert_transcript. cbv zeta.
    repeat (match goal with |- context [if ?b then _ else _] => destruct b end); try apply same_but_log_refl; done. }
  unfold mbind at 1, prog_bind at 1. by destruct (tx d) as [[?|?] ?].
Qed.

Lemma appendEvent_logs s job type payload now d :
  log_ok d → has_session s d = true → opt_ref has_job job d = true →
  ∃ r d', appendEvent s job type payload now d = (inr r, d') ∧ log_ok d' ∧ same_but_log d d' ∧
    c_events d' = c_events d ++ [EventRow (ae_id r) s job type payload now].
Proof.
  intros Hok Hs Hj. pose proof (appendEvent_frame s job type payload now d) as Hf.
  assert (∃ r d', appendEvent s job type payload now d = (inr r, d') ∧ log_ok d' ∧
    c_events d' = c_events d ++ [EventRow (ae_id r) s job type payload now]) as (r&d'&E&Hok'&Hev).
  { unfold appendEvent. rewrite bind_gets. cbv zeta. unfold transaction, mbind, prog_bind, insert_event.
    rewrite Hs, Hj. simpl negb. cbv iota. destruct (in_transcript _ _).
    - destruct (insert_transcript_event d s job type payload now Hok Hs) as (d' & Ht & Hok' & _ & He & _).
      unfold logged in Ht. rewrite Ht. eexists _, _. split; [done|]. by rewrite He.
    - eexists _, _. split; [done|]. split; [|done]. by apply (logged_ok d s job type payload now). }
  rewrite E in Hf. eauto 10.
Qed.

Lemma appendEvent_returns s job type payload now d :
  log_ok d → has_session s d = true → opt_ref has_job job d = true →
  ∃ r d', appendEvent s job type payload now d = (inr r, d') ∧ log_ok d' ∧ same_but_log d d'.
Proof. intros Hok Hs Hj. destruct (appendEvent_logs s job type payload now d Hok Hs Hj) as (r&d'&?&?&?&_). eauto. Qed.

(** Appending an event.  It fails, leaving the database as it was, only
    for an unknown session or job; otherwise the event's id is larger than
    every other, it has an entry in the transcript exactly when it is an agent
    message or a failure of a chat job, with a larger sequence number than
    every other entry, and nothing else changes. *)
Theorem appendEvent_spec s job type payload now d :
  log_ok d →
  if has_session s d && opt_ref has_job job d
  then ∃ r d', appendEvent s job type payload now d = (inr r, d') ∧
    log_ok d' ∧ Forall (λ e, ev_id e < ae_id r) (c_events d) ∧
    c_events d' = c_events d ++ [EventRow (ae_id r) s job type payload now] ∧
    ae_audience r = eventAudience job d ∧
    (if in_transcript (eventAudience job d) type
     then ∃ n, ae_transcriptSequence r = Some n ∧ Forall (λ t, tr_sequence t < n) (c_transcript d) ∧
       c_transcript d' = c_transcript d ++ [TranscriptItem n s None (Some (ae_id r))]
     else ae_transcriptSequence r = None ∧ c_transcript d' = c_transcript d) ∧
    c_jobs d' = c_jobs d ∧ c_approvals d' = c_approvals d ∧ c_notifications d' = c_notifications d
  else appendEvent s job type payload now d = (inl fk_error, d).
Proof.
  intros Hok. unfold appendEvent. rewrite bind_gets. cbv zeta. set (aud := eventAudience job d).
  destruct (has_session s d && opt_ref has_job job d) eqn:E.
  2: { unfold mbind, prog_bind, transaction, insert_event. by rewrite E. }
  set (d1 := logged d s job type payload now).
  assert (insert_event s job type payload now d = (inr (c_event_seq d + 1), d1)) as Hev.
  { unfold insert_event. by rewrite E. }
  apply andb_prop in E as [Hs _]. pose proof (logged_ok d s job type payload now Hok) as Hok1. fold d1 in Hok1.
  assert (Forall (λ e, ev_id e < c_event_seq d + 1) (c_events d)) as Hlt.
  { eapply Forall_impl; [apply (log_event_seq d Hok)|]. simpl. intros; lia. }
  destruct (in_transcript aud type) eqn:Ei.
  - destruct (insert_transcript_event d s job type payload now Hok Hs) as (d' & Ht & Hok' & Htr & Hrest).
    exists (AgentEvent (c_event_seq d + 1) s job type aud (Some (c_transcript_seq d + 1)) payload now), d'.
    split.
    { unfold transaction, mbind, prog_bind. rewrite Hev. cbv beta iota. fold d1 in Ht. by rewrite Ht. }
    simpl. destruct Hrest as (->&->&->&->). repeat split; try done; try apply Hok'.
    exists (c_transcript_seq d + 1). split; [done|]. split; [|done].
    eapply Forall_impl; [apply (log_transcript_seq d Hok)|]. simpl. intros; lia.
  - exists (AgentEvent (c_event_seq d + 1) s job type aud None payload now), d1. split.
    { unfold transaction, mbind, prog_bind. by rewrite Hev. }
    simpl. repeat split; try done; apply Hok1.
Qed.

Lemma jobs_demo_log : log_ok jobs_demo.
Proof. split; vm_compute; repeat constructor; done. Qed.

Lemma appendEvent_spec_witness :
  ∃ r d', appendEvent "s" (Some "j1") agent_message (JStr "hi") 50 jobs_demo = (inr r, d') ∧ log_ok d'.
Proof.
  pose proof (appendEvent_spec "s" (Some "j1") agent_message (JStr "hi") 50 jobs_demo jobs_demo_log) as H.
  destruct H as (r & d' & E & Hok & _). exists r, d'. split; [exact E|exact Hok].
Defined.

Definition three_events : core_db :=
  foldl (λ d t, (appendEvent "s" None agent_message (JStr "hi") t d).2) jobs_demo [50; 60; 70].
Lemma three_events_log : log_ok three_events.
Proof. split; vm_compute; repeat constructor; done. Qed.

Lemma listEvents_pages_witness :
  listEvents "s" (Some 0) (Some 2%nat) three_events ++ listEvents "s" (Some 2) (Some 5%nat) three_events =
  listEvents "s" (Some 0) (Some 7%nat) three_events.
Proof.
  exact (listEvents_pages "s" 0 2 5 three_events
    (AgentEvent 2 "s" None agent_message chat (Some 3) (JStr "hi") 60) three_events_log eq_refl).
Defined.
