(* ===== verification/Operations.v ===== *)
(** * Recorded operations

    packages/db/src/repositories/{docker,share,storage,vm}-operations.ts, the
    four tables of privileged operations with their approvals;
    {docker,vm}-console-authorizations.ts, the one-time console tickets;
    file-operations.ts, the file operations and the trash. *)
From S2P Require Import Prelude Sql Json JsString IndexQueue CoreDb Jobs.
Open Scope Z_scope.

(** ** The four operation tables *)
Record op_table := OpTable {
  op_rows : core_db → list operation_record;
  op_put : list operation_record → core_db → core_db;
  op_kind : PendingApprovalKind
}.
Definition docker_table : op_table :=
  OpTable c_docker_operations (λ t d, d <| c_docker_operations := t |>) docker_operation.
Definition share_table : op_table :=
  OpTable c_share_operations (λ t d, d <| c_share_operations := t |>) share_operation.
Definition storage_table : op_table :=
  OpTable c_storage_operations (λ t d, d <| c_storage_operations := t |>) storage_operation.
Definition vm_table : op_table :=
  OpTable c_vm_operations (λ t d, d <| c_vm_operations := t |>) vm_operation.

Definition insert_operation (T : op_table) (r : operation_record) : core_prog unit :=
  checked_insert or_id (op_rows T) (opt_ref has_approval (or_approvalId r)) r (op_put T).

Definition createOperationApproval (T : op_table) (id opId jobId : string) (proposal : json) (action : string)
    (targetType : option string) (targetId : string) (metadata : list (string * json)) (now : Z)
    : core_prog (PendingApprovalRecord * operation_record) :=
  job ← find_job jobId;
  let row := ApprovalRow id jobId (op_kind T) ap_pending [proposal] now now in
  let operation := OperationRecord opId (Some id) action targetType targetId op_proposed metadata now now in
  _ ← transaction (_ ← insert_approval row; insert_operation T operation);
  mret (approval_record (jb_sessionId job) row, operation).

Definition createOperationRecord (T : op_table) (opId jobId action : string) (targetType : option string)
    (targetId : string) (metadata : list (string * json)) (now : Z) : core_prog operation_record :=
  job ← find_job jobId;
  let operation := OperationRecord opId None action targetType targetId op_proposed metadata now now in
  _ ← insert_operation T operation;
  mret operation.

Definition getOperation (T : op_table) (id : string) (d : core_db) : option operation_record :=
  by_key or_id id (op_rows T d).
Definition newest_op (a b : operation_record) : bool := bool_decide (or_createdAt b ≤ or_createdAt a).
Definition getOperationByApproval (T : op_table) (approvalId : string) (d : core_db) : option operation_record :=
  first_by newest_op (λ r, eq_col (or_approvalId r) approvalId) (op_rows T d).

(** The session of an operation: through its approval's job, or, for docker
    and vm, the job its metadata names. *)
Definition op_session (use_metadata : bool) (r : operation_record) (d : core_db) : option string :=
  let jobId := coalesce (or_approvalId r ≫= λ a, ar_jobId <$> by_key ar_id a (c_approvals d))
                 (if use_metadata then as_string (prop (or_metadata r) "jobId") else None) in
  jb_sessionId <$> (jobId ≫= λ j, getJob j d).
Definition listOperations (T : op_table) (use_metadata : bool) (sessionId : option string) (limit : nat) (d : core_db)
    : list operation_record :=
  take limit (order_by newest_op
    (select (λ r, match sessionId with None => true | Some s => bool_decide (op_session use_metadata r d = Some s) end)
            (op_rows T d))).

Definition updateOperationStatus (T : op_table) (id : string) (status : operation_status)
    (metadata : list (string * json)) (now : Z) (d : core_db) : option operation_record * core_db :=
  match getOperation T id d with
  | None => (None, d)
  | Some existing =>
      let next := spread (or_metadata existing) metadata in
      let f r := r <| or_status := status |> <| or_metadata := next |> <| or_updatedAt := now |> in
      (returning (has_key or_id id) f (op_rows T d), op_put T (update_where (has_key or_id id) f (op_rows T d)) d)
  end.

(** The proposals are JSON objects; [as_string (prop p k)] is the optional
    string property [k]. *)
Definition str_prop (p : list (string * json)) (k : string) : option string := as_string (prop p k).

Definition dockerProposalTargetId (p : list (string * json)) : string :=
  coalesce (str_prop p "containerId") (coalesce (str_prop p "containerName") (coalesce (str_prop p "volumeName")
    (coalesce (str_prop p "networkName") (coalesce (str_prop p "composeProjectId")
      (str_prop p "composeProjectName"))))) ⁇ "docker".

Definition createDockerOperationApproval (id opId jobId : string) (p : list (string * json)) (now : Z) :=
  createOperationApproval docker_table id opId jobId (JObj p) (str_prop p "action" ⁇ "") (str_prop p "targetType")
    (dockerProposalTargetId p) [("proposal", JObj p)] now.
Definition createDockerOperationRecord (opId jobId : string) (p : list (string * json)) (now : Z) :=
  createOperationRecord docker_table opId jobId (str_prop p "action" ⁇ "") (str_prop p "targetType")
    (dockerProposalTargetId p) [("proposal", JObj p); ("jobId", JStr jobId)] now.
Definition getDockerOperation := getOperation docker_table.
Definition getDockerOperationByApproval := getOperationByApproval docker_table.
Definition listDockerOperations := listOperations docker_table true.
Definition updateDockerOperationStatus := updateOperationStatus docker_table.

Definition createShareOperationApproval (id opId jobId : string) (p : list (string * json)) (settings : json) (now : Z) :=
  createOperationApproval share_table id opId jobId (JObj p) (str_prop p "action" ⁇ "") None "share-settings"
    [("proposal", JObj p); ("settings", settings)] now.
Definition getShareOperation := getOperation share_table.
Definition getShareOperationByApproval := getOperationByApproval share_table.
Definition listShareOperations := listOperations share_table false.
Definition updateShareOperationStatus := updateOperationStatus share_table.

Definition createStorageOperationRecord (opId jobId : string) (p : list (string * json)) (now : Z) :=
  createOperationRecord storage_table opId jobId (str_prop p "action" ⁇ "") None (str_prop p "mountpoint" ⁇ "")
    [("proposal", JObj p); ("jobId", JStr jobId)] now.
Definition createStorageOperationApproval (id opId jobId : string) (p : list (string * json)) (now : Z) :=
  createOperationApproval storage_table id opId jobId (JObj p) (str_prop p "action" ⁇ "") None
    (str_prop p "mountpoint" ⁇ "") [("proposal", JObj p)] now.
Definition getStorageOperation := getOperation storage_table.
Definition getStorageOperationByApproval := getOperationByApproval storage_table.
Definition listStorageOperations := listOperations storage_table false.
Definition updateStorageOperationStatus := updateOperationStatus storage_table.

Definition createVmOperationApproval (id opId jobId : string) (p : list (string * json)) (now : Z) :=
  createOperationApproval vm_table id opId jobId (JObj p) (str_prop p "action" ⁇ "") None
    (str_prop p "domainName" ⁇ "new-vm") [("proposal", JObj p)] now.
Definition createVmOperationRecord (opId jobId : string) (p : list (string * json)) (now : Z) :=
  createOperationRecord vm_table opId jobId (str_prop p "action" ⁇ "") None
    (str_prop p "domainName" ⁇ "new-vm") [("proposal", JObj p); ("jobId", JStr jobId)] now.
Definition getVmOperation := getOperation vm_table.
Definition getVmOperationByApproval := getOperationByApproval vm_table.
Definition getProposedVmOperationForTarget (targetId : string) (d : core_db) : option operation_record :=
  first_by newest_op (λ r, bool_decide (or_targetId r = targetId) && bool_decide (or_status r = op_proposed))
    (c_vm_operations d).
Definition listVmOperations := listOperations vm_table true.
Definition updateVmOperationStatus := updateOperationStatus vm_table.

(** ** Expiry of approved consoles that were never opened *)
Definition VM_CONSOLE_AUTHORIZATION_TTL_MS : Z := 5 * 60000.
Definition EXPIRED_CONSOLE_ERROR : string := "VM console approval expired before the console was opened".

Definition stale_consoles (now : Z) (d : core_db) : list (operation_record * approval_row) :=
  omap (λ o, match or_approvalId o ≫= λ a, by_key ar_id a (c_approvals d) with
             | Some a => match getJob (ar_jobId a) d with
                         | Some j => if bool_decide (or_action o = "console") && bool_decide (or_status o = op_approved) &&
                                        bool_decide (ar_status a = ap_approved) &&
                                        bool_decide (jb_status j = job_waiting_approval) &&
                                        bool_decide (or_updatedAt o ≤ now - VM_CONSOLE_AUTHORIZATION_TTL_MS)
                                     then Some (o, a) else None
                         | None => None
                         end
             | None => None
             end) (c_vm_operations d).

Definition expire_one (now : Z) (o : operation_record) (a : approval_row) : core_prog nat := λ d,
  let qa := approval_guard (ar_id a) [ap_approved] in
  if bool_decide (count_where qa (c_approvals d) ≠ 1%nat) then (inr 0%nat, d) else
  let d := d <| c_approvals := update_where qa (expire_approval now) (c_approvals d) |> in
  let qo r := has_key or_id (or_id o) r && bool_decide (or_status r = op_approved) in
  let ops := count_where qo (c_vm_operations d) in
  let d := d <| c_vm_operations := update_where qo (λ r, r <| or_status := op_failed |>
      <| or_metadata := set_prop (set_prop (or_metadata r) "error" (JStr EXPIRED_CONSOLE_ERROR)) "failedAt" (int now) |>
      <| or_updatedAt := now |>) (c_vm_operations d) |> in
  let qj := job_guard (ar_jobId a) [job_waiting_approval] in
  let jobs := count_where qj (c_jobs d) in
  let d := d <| c_jobs := update_where qj (set_job_status job_cancelled (Some EXPIRED_CONSOLE_ERROR) now) (c_jobs d) |> in
  if bool_decide (ops ≠ 1%nat) || bool_decide (jobs ≠ 1%nat)
  then (inl (Error "Failed to expire a stale VM console operation atomically"), d)
  else (inr 1%nat, d <| c_notifications := update_where (note_of (ar_jobId a))
                       (note_update note_cancelled (Some EXPIRED_CONSOLE_ERROR) now) (c_notifications d) |>).

Definition expireStaleVmConsoleOperations (now : Z) : core_prog nat :=
  rows ← gets (stale_consoles now);
  counts ← transaction (map_m (λ p, expire_one now p.1 p.2) rows);
  mret (foldr plus 0%nat counts).

(** ** Console authorizations *)
Definition createDockerConsoleAuthorization (id operationId approvalId containerId shell : string) (ttlMs : option Z)
    (now : Z) : core_prog console_authorization := λ d,
  let approved o := has_key or_id operationId o && eq_col (or_approvalId o) approvalId &&
                    bool_decide (or_action o = "console") && bool_decide (or_status o = op_approved) in
  if negb (exists_where approved (c_docker_operations d) &&
           exists_where (λ a, has_key ar_id approvalId a && bool_decide (ar_status a = ap_approved)) (c_approvals d))
  then (inl (Error "Approved console operation not found"), d)
  else
    let r := ConsoleAuthorization id operationId (Some approvalId) containerId (Some shell) console_active now
               (now + (ttlMs ⁇ 5 * 60000)) None in
    if isSome (by_key co_id id (c_docker_consoles d)) then (inl pk_error, d)
    else (inr r, d <| c_docker_consoles := insert_row r (c_docker_consoles d) |>).

Definition set_console (s : console_status) (r : console_authorization) : console_authorization := r <| co_status := s |>.
Definition use_console (now : Z) (r : console_authorization) : console_authorization :=
  r <| co_status := console_used |> <| co_usedAt := Some now |>.
Definition active_console (id : string) (r : console_authorization) : bool :=
  has_key co_id id r && bool_decide (co_status r = console_active).

Definition consumeDockerConsoleAuthorization (id : string) (now : Z) (t : list console_authorization)
    : option console_authorization * list console_authorization :=
  match by_key co_id id t with
  | None => (None, t)
  | Some a =>
      if bool_decide (co_status a ≠ console_active) then (None, t)
      else if bool_decide (co_expiresAt a ≤ now) then (None, update_where (has_key co_id id) (set_console console_expired) t)
      else (returning (active_console id) (use_console now) t, update_where (active_console id) (use_console now) t)
  end.

Definition markDockerConsoleAuthorizationFailed (id : string) (t : list console_authorization)
    : bool * list console_authorization :=
  let q r := has_key co_id id r && bool_decide (co_status r ∈ [console_active; console_used]) in
  (bool_decide (count_where q t = 1%nat), update_where q (set_console console_failed) t).

Definition createVmConsoleAuthorization (id operationId : string) (approvalId : option string) (domainName : string)
    (now : Z) : core_prog console_authorization := λ d,
  let r := ConsoleAuthorization id operationId approvalId domainName None console_active now
             (now + VM_CONSOLE_AUTHORIZATION_TTL_MS) None in
  if isSome (by_key co_id id (c_vm_consoles d)) then (inl pk_error, d)
  else if negb (isSome (getVmOperation operationId d) && opt_ref has_approval approvalId d) then (inl fk_error, d)
  else (inr r, d <| c_vm_consoles := insert_row r (c_vm_consoles d) |>).

(** The clock is read twice. *)
Definition consumeVmConsoleAuthorization (id : string) (clock now : Z) (t : list console_authorization)
    : option console_authorization * list console_authorization :=
  match by_key co_id id t with
  | None => (None, t)
  | Some a =>
      if bool_decide (co_status a ≠ console_active) || bool_decide (co_expiresAt a ≤ clock)
      then (None, update_where (active_console id) (set_console console_expired) t)
      else (returning (active_console id) (use_console now) t, update_where (active_console id) (use_console now) t)
  end.

(** ** file-operations.ts *)
Definition indexableOperationPaths (o : FileOperationRecord) : list string :=
  let candidates := match fo_operation o with
    | move | rename => [fo_sourcePath o; fo_targetPath o]
    | edit | tag | trash => [fo_sourcePath o]
    | copy | download | extract | mkdir | restore | upload => [fo_targetPath o]
    end in
  remove_dups (omap (λ c, match c with Some s => if bool_decide (s = "") then None else Some s | None => None end) candidates).

Definition on_index {A} (m : prog index_db A) : core_prog A := λ d,
  let '(r, i) := m (c_index d) in (r, d <| c_index := i |>).

Definition recursive_operation (op : FileMutationOperation) : bool :=
  bool_decide (op ∈ [copy; extract; mkdir; move; rename; restore; trash]).

(** The alert of a path that could not be queued for the indexer. *)
Definition raise_enqueue_alert (id rootId scope message : string) (now : Z) : core_prog unit := λ d,
  let q a := bool_decide (ha_code a = "index_enqueue_failed") && bool_decide (ha_scope a = scope) in
  if exists_where q (c_health_alerts d)
  then (inr tt, d <| c_health_alerts := update_where q (λ a, a <| ha_status := "active" |> <| ha_last_seen_at := now |>
         <| ha_resolved_at := None |> <| ha_details := message |>) (c_health_alerts d) |>)
  else if isSome (by_key ha_id id (c_health_alerts d)) then (inl pk_error, d)
  else if negb (bool_decide (rootId ∈ c_roots d)) then (inl fk_error, d)
  else (inr tt, d <| c_health_alerts := insert_row
         (HealthAlert id "index_enqueue_failed" scope (Some rootId) "warning" "active" now now None message)
         (c_health_alerts d) |>).

(** [ids i]: the ids drawn for the i-th path, of its task and of its alert. *)
Fixpoint enqueue_paths (ids : nat → string * string) (rootId : string) (storagePoolId : option string) (recursive : bool)
    (now : Z) (i : nat) (paths : list string) : core_prog unit :=
  match paths with
  | [] => mret tt
  | p :: paths =>
      _ ← try_catch
            (_ ← on_index (enqueueIndexTask (ids i).1
               (EnqueueInput rootId storagePoolId (Some p) recursive (Some kind_incremental) None) now); mret tt)
            (λ e, raise_enqueue_alert (ids i).2 rootId (rootId +:+ ":" +:+ p) (exn_message e) now);
      enqueue_paths ids rootId storagePoolId recursive now (S i) paths
  end.

Definition enqueueAppliedOperationPaths (ids : nat → string * string) (o : FileOperationRecord) (now : Z) : core_prog unit :=
  match str_prop (fo_metadata o) "rootId" with
  | None => mret tt
  | Some rootId =>
      if bool_decide (rootId = "") then mret tt else
      enqueue_paths ids rootId (str_prop (fo_metadata o) "storagePoolId") (recursive_operation (fo_operation o)) now 0
        (indexableOperationPaths o)
  end.

Definition recordAppliedOperation (id : string) (ids : nat → string * string) (approvalId : option string)
    (operation : FileMutationOperation) (sourcePath targetPath : option string) (status : FileOperationStatus)
    (metadata : list (string * json)) (now : Z) : core_prog FileOperationRecord :=
  let o := FileOperation id approvalId operation sourcePath targetPath status metadata now now in
  _ ← insert_file_operation o;
  _ ← (if bool_decide (status = fo_applied) then enqueueAppliedOperationPaths ids o now else mret tt);
  mret o.

Definition getFileOperation (id : string) (d : core_db) : option FileOperationRecord := by_key fo_id id (c_file_operations d).

Definition markFileOperationRolledBack (id : string) (metadata : json) (now : Z) (d : core_db) : bool * core_db :=
  match getFileOperation id d with
  | None => (false, d)
  | Some existing =>
      if bool_decide (fo_status existing ≠ fo_applied) then (false, d) else
      let q r := has_key fo_id id r && bool_decide (fo_status r = fo_applied) in
      (bool_decide (count_where q (c_file_operations d) = 1%nat),
       d <| c_file_operations := update_where q (λ r, r <| fo_status := fo_rolled_back |>
             <| fo_metadata := set_prop (fo_metadata existing) "rollback" metadata |> <| fo_updatedAt := now |>)
             (c_file_operations d) |>)
  end.

Definition createTrashEntry (id rootId originalPath trashPath : string) (metadata : list (string * json)) (now : Z)
    : core_prog TrashEntryRecord :=
  let entry := TrashEntry id rootId originalPath trashPath metadata now None in
  _ ← checked_insert te_id c_trash (λ d, bool_decide (rootId ∈ c_roots d)) entry (λ t d, d <| c_trash := t |>);
  mret entry.
Definition getTrashEntry (id : string) (d : core_db) : option TrashEntryRecord := by_key te_id id (c_trash d).
Definition markTrashEntryRestored (id : string) (now : Z) (d : core_db) : bool * core_db :=
  let q r := has_key te_id id r && is_null (te_restoredAt r) in
  (bool_decide (count_where q (c_trash d) = 1%nat),
   d <| c_trash := update_where q (λ r, r <| te_restoredAt := Some now |>) (c_trash d) |>).

Definition newest_file_op (a b : FileOperationRecord) : bool := bool_decide (fo_createdAt b ≤ fo_createdAt a).
Definition listFileOperations (approvalId : option string) (limit : nat) (d : core_db) : list FileOperationRecord :=
  let of_approval r := match approvalId with
                       | Some a => bool_decide (a = "") || eq_col (fo_approvalId r) a
                       | None => true
                       end in
  take limit (order_by newest_file_op (select of_approval (c_file_operations d))).

(** ** Facts *)
Definition lens_ok (T : op_table) : Prop :=
  (∀ t d, op_rows T (op_put T t d) = t) ∧ (∀ t d, c_jobs (op_put T t d) = c_jobs d) ∧
  (∀ t d, c_approvals (op_put T t d) = c_approvals d) ∧ (∀ t d, c_notifications (op_put T t d) = c_notifications d) ∧
  (∀ t d, c_events (op_put T t d) = c_events d).

Lemma docker_lens : lens_ok docker_table. Proof. done. Qed.
Lemma share_lens : lens_ok share_table. Proof. done. Qed.
Lemma storage_lens : lens_ok storage_table. Proof. done. Qed.
Lemma vm_lens : lens_ok vm_table. Proof. done. Qed.

(** Updating an operation touches its row only. *)
Lemma updateOperationStatus_frame T id s m now d : lens_ok T →
  let d' := (updateOperationStatus T id s m now d).2 in
  c_jobs d' = c_jobs d ∧ c_approvals d' = c_approvals d ∧ c_notifications d' = c_notifications d ∧ c_events d' = c_events d.
Proof.
  intros (_&H1&H2&H3&H4). unfold updateOperationStatus. destruct (getOperation T id d); [|done]. simpl.
  by rewrite H1, H2, H3, H4.
Qed.

Fixpoint consume_run {A} (consume : A → list console_authorization → option console_authorization * list console_authorization)
    (times : list A) (t : list console_authorization) : list (option console_authorization) * list console_authorization :=
  match times with
  | [] => ([], t)
  | x :: times => let '(r, t') := consume x t in
                  let '(rs, t'') := consume_run consume times t' in (r :: rs, t'')
  end.

(** A way to consume a ticket that spends it. *)
Definition spends {A} (id : string) (clock : A → Z)
    (consume : A → list console_authorization → option console_authorization * list console_authorization) : Prop :=
  ∀ x t, unique_keys co_id t → let '(r, t') := consume x t in
    unique_keys co_id t' ∧
    match by_key co_id id t with
    | None => r = None ∧ by_key co_id id t' = None
    | Some a =>
        ∃ a', by_key co_id id t' = Some a' ∧
        (co_status a ≠ console_active → r = None ∧ co_status a' ≠ console_active) ∧
        (r ≠ None → co_status a = console_active ∧ clock x < co_expiresAt a ∧ co_status a' = console_used) ∧
        (co_expiresAt a ≤ clock x → r = None ∧ co_status a' ≠ console_active)
    end.

Lemma update_console id (f : console_authorization → console_authorization) (q : console_authorization → bool) t a :
  (∀ r, co_id (f r) = co_id r) → by_key co_id id t = Some a →
  by_key co_id id (update_where q f t) = Some (if q a then f a else a).
Proof. intros Hf Ha. by rewrite by_key_update, Ha. Qed.

Lemma docker_spends id : spends id (λ now, now) (consumeDockerConsoleAuthorization id).
Proof.
  intros now t Hu. unfold consumeDockerConsoleAuthorization.
  destruct (by_key co_id id t) as [a|] eqn:E; [|by repeat split].
  case_bool_decide as Ha; [simpl; split; [done|]; exists a; split_and!; intros; by split_and?|].
  assert (co_status a = console_active) as Hact by (by destruct (decide (co_status a = console_active))).
  pose proof E as [_ Hid]%by_key_Some.
  case_bool_decide as He.
  - split; [by apply unique_keys_update|].
    eexists. split; [by apply update_console|]. unfold has_key. rewrite bool_decide_true by done. simpl.
    split_and!; intros; by split_and?.
  - split; [by apply unique_keys_update|]. eexists. split; [by apply update_console|].
    assert (active_console id a = true) as Hq by by apply andb_true_intro; split; apply bool_decide_true.
    rewrite Hq. simpl. split_and!; [by intros []|by intros _; split_and!; [|lia|]|intros; lia].
Qed.

Lemma vm_spends id : spends id fst (λ p, consumeVmConsoleAuthorization id p.1 p.2).
Proof.
  intros [clock now] t Hu. simpl. unfold consumeVmConsoleAuthorization.
  destruct (by_key co_id id t) as [a|] eqn:E; [|by repeat split].
  pose proof E as [_ Hid]%by_key_Some.
  destruct (decide (co_status a = console_active)) as [Hact|Hact].
  - rewrite (bool_decide_false (co_status a ≠ console_active)) by tauto. simpl orb.
    case_bool_decide as He; (split; [by apply unique_keys_update|]); eexists;
      (split; [by apply update_console|]);
      (assert (active_console id a = true) as Hq by by apply andb_true_intro; split; apply bool_decide_true);
      rewrite Hq; simpl.
    + split_and!; intros; by split_and?.
    + split_and!; [by intros []|by intros _; split_and!; [|lia|]|intros; lia].
  - rewrite (bool_decide_true (co_status a ≠ console_active)) by done. simpl orb. cbv iota.
    split; [by apply unique_keys_update|]. eexists. split; [by apply update_console|].
    unfold active_console, has_key. rewrite (bool_decide_false (co_status a = console_active)) by done.
    rewrite andb_false_r. split_and!; intros; by split_and?.
Qed.

Lemma spent_stays {A} id clock (consume : A → _ → _ * _) times t : spends id clock consume → unique_keys co_id t →
  (∀ a, by_key co_id id t = Some a → co_status a ≠ console_active) →
  Forall (λ r, r = None) (consume_run consume times t).1.
Proof.
  intros Hs. revert t. induction times as [|x times IH]; intros t Hu Ha; simpl; [done|].
  specialize (Hs x t Hu). destruct (consume x t) as [r t']. destruct Hs as [Hu' Hs].
  destruct (consume_run consume times t') as [rs t''] eqn:Er. simpl.
  assert (Forall (λ r, r = None) (consume_run consume times t').1) as Hrs.
  { apply IH; [done|]. intros a' Ha'. destruct (by_key co_id id t) as [a|].
    - destruct Hs as (b & Hb & Hs1 & _). rewrite Ha' in Hb. injection Hb as ->. by apply Hs1, Ha.
    - destruct Hs as [_ Hs]. congruence. }
  rewrite Er in Hrs. constructor; [|done]. destruct (by_key co_id id t) as [a|]; [|tauto].
  destruct Hs as (b & _ & Hs1 & _). by apply Hs1, Ha.
Qed.

Lemma spends_once {A} id clock (consume : A → _ → _ * _) times t : spends id clock consume → unique_keys co_id t →
  (length (List.filter isSome (consume_run consume times t).1) ≤ 1)%nat.
Proof.
  intros Hs. revert t. induction times as [|x times IH]; intros t Hu; simpl; [lia|].
  pose proof (Hs x t Hu) as Hx. destruct (consume x t) as [r t'] eqn:Ec. destruct Hx as [Hu' Hx].
  pose proof (IH t' Hu') as IH'. pose proof (spent_stays id clock consume times t' Hs Hu') as Hsp.
  destruct (consume_run consume times t') as [rs t'']. simpl in *.
  destruct r as [a|]; simpl; [|done].
  assert (Forall (λ r, r = None) rs) as Hnone.
  { apply Hsp. intros b Hb. destruct (by_key co_id id t) as [a0|]; [|by destruct Hx].
    destruct Hx as (b' & Hb' & _ & Hx & _). rewrite Hb in Hb'. injection Hb' as ->.
    destruct Hx as (_&_&->); done. }
  assert (List.filter isSome rs = []) as ->; [|simpl; lia].
  clear -Hnone. induction Hnone as [|y rs Hy _ IH]; simpl; [done|]. by subst y.
Qed.

(** ** The log of file operations *)
Lemma enqueue_keeps_operations ids o now l : keeps (λ d, c_file_operations d = l) (enqueueAppliedOperationPaths ids o now).
Proof.
  unfold enqueueAppliedOperationPaths. destruct (str_prop _ _); [|apply keeps_ret].
  case_bool_decide; [apply keeps_ret|]. generalize 0%nat. induction (indexableOperationPaths o) as [|p ps IH]; intros n; simpl; [apply keeps_ret|].
  apply keeps_bind; [|intros _; apply IH]. apply keeps_try.
  - apply keeps_bind; [|intros; apply keeps_ret]. intros x Hx. unfold on_index. by destruct (enqueueIndexTask _ _ _ (c_index x)).
  - intros e x Hx. unfold raise_enqueue_alert. destruct (exists_where _ _); [done|]. destruct (isSome _); [done|]. by destruct (negb _).
Qed.

(** The row is inserted, or nothing is. *)
Lemma record_effect id ids approvalId operation source target status metadata now d :
  let o := FileOperation id approvalId operation source target status metadata now now in
  let '(r, d') := recordAppliedOperation id ids approvalId operation source target status metadata now d in
  (∀ x, r = inr x → x = o) ∧
  ((c_file_operations d' = c_file_operations d ∧ (∃ e, r = inl e) ∧
    (isSome (getFileOperation id d) || negb (opt_ref has_approval approvalId d)) = true) ∨
   (getFileOperation id d = None ∧ c_file_operations d' = insert_row o (c_file_operations d))).
Proof.
  cbv zeta. unfold recordAppliedOperation, getFileOperation. set (o := FileOperation _ _ _ _ _ _ _ _ _).
  unfold insert_file_operation, checked_insert, mbind, prog_bind. cbn [fo_id fo_approvalId o].
  destruct (by_key fo_id id (c_file_operations d)) eqn:E; cbn [isSome orb]; [split; [done|left; eauto]|].
  destruct (opt_ref has_approval approvalId d) eqn:Er; cbn [negb]; [|split; [done|left; eauto]].
  set (d1 := d <| c_file_operations := insert_row o (c_file_operations d) |>).
  set (q := if bool_decide (status = fo_applied) then enqueueAppliedOperationPaths ids o now else mret tt).
  assert (keeps (λ x, c_file_operations x = c_file_operations d1) q) as Hk
    by (unfold q; case_bool_decide; [apply enqueue_keeps_operations|apply keeps_ret]).
  specialize (Hk d1 eq_refl). destruct (q d1) as [[e|u] d2]; simpl in *; (split; [|by right]); [done|by intros x [= <-]].
Qed.

(** C10: A console ticket opens one console.  However often and whenever a
    docker or a vm console authorization is consumed, at most one call gets
    it, and only while it is active and not expired. *)
Theorem console_single_use id t :
  unique_keys co_id t →
  (∀ times, (length (List.filter isSome (consume_run (consumeDockerConsoleAuthorization id) times t).1) ≤ 1)%nat) ∧
  (∀ times, (length (List.filter isSome
     (consume_run (λ p, consumeVmConsoleAuthorization id p.1 p.2) times t).1) ≤ 1)%nat) ∧
  (∀ now r, (consumeDockerConsoleAuthorization id now t).1 = Some r →
     ∃ a, by_key co_id id t = Some a ∧ co_status a = console_active ∧ now < co_expiresAt a) ∧
  (∀ clock now r, (consumeVmConsoleAuthorization id clock now t).1 = Some r →
     ∃ a, by_key co_id id t = Some a ∧ co_status a = console_active ∧ clock < co_expiresAt a).
Proof.
  intros Hu. split; [|split; [|split]].
  - intros times. apply (spends_once id (λ now, now)); [apply docker_spends|done].
  - intros times. apply (spends_once id fst); [apply vm_spends|done].
  - intros now r Hr. pose proof (docker_spends id now t Hu) as H.
    destruct (consumeDockerConsoleAuthorization id now t) as [o t']. simpl in Hr. subst o. destruct H as [_ H].
    destruct (by_key co_id id t) as [a|]; [|by destruct H]. destruct H as (a' & _ & _ & H & _).
    destruct H as (?&?&_); [done|]. by exists a.
  - intros clock now r Hr. pose proof (vm_spends id (clock, now) t Hu) as H. simpl in H.
    destruct (consumeVmConsoleAuthorization id clock now t) as [o t']. simpl in Hr. subst o. destruct H as [_ H].
    destruct (by_key co_id id t) as [a|]; [|by destruct H]. destruct H as (a' & _ & _ & H & _).
    destruct H as (?&?&_); [done|]. by exists a.
Qed.

Definition ticket : console_authorization := ConsoleAuthorization "t" "o" (Some "a") "c" (Some "sh") console_active 0 100 None.

Lemma console_single_use_witness :
  (length (List.filter isSome (consume_run (consumeDockerConsoleAuthorization "t") [10%Z; 20%Z; 30%Z] [ticket]).1) ≤ 1)%nat.
Proof.
  refine (proj1 (console_single_use "t" [ticket] _) [10%Z; 20%Z; 30%Z]).
  apply (bool_decide_eq_true_1 (NoDup _)). by vm_compute.
Defined.
