(* ===== verification/FileBatches.v ===== *)
(** * File batches

    packages/db/src/repositories/file-batches.ts over the tables of CoreDb:
    a batch is a job of kind file_batch with its items; the runner claims one
    item at a time and finishes it, a cancelled job takes its queued items
    with it, and a restart requeues what was running.

    [new Date()] is the argument [now]; the UUIDs a creation draws are a
    [batch_ids]. *)
From stdpp Require Import pretty.
From S2P Require Import Prelude Sql Json CoreDb Jobs.
Open Scope Z_scope.

(** ** Views *)
Record FileBatchRecord := FileBatch {
  br_row : file_batch_row; br_status : JobStatus; br_error : option string; br_failures : list (string * string) }.

Definition of_batch (id : string) (i : FileBatchItemRecord) : bool := bool_decide (fi_batchId i = id).
Definition item_is (s : FileBatchItemStatus) (i : FileBatchItemRecord) : bool := bool_decide (fi_status i = s).
Definition by_ordinal (a b : FileBatchItemRecord) : bool := bool_decide (fi_ordinal a ≤ fi_ordinal b)%nat.

Definition mapFileBatch (d : core_db) (b : file_batch_row) (j : JobRecord) : FileBatchRecord :=
  let failed i := of_batch (fb_id b) i && item_is item_failed i && not_null (fi_error i) in
  FileBatch b (jb_status j) (jb_error j)
    (omap (λ i, pair (fi_sourcePath i) <$> fi_error i) (take 10 (order_by by_ordinal (select failed (c_items d))))).

(** [file_batches b JOIN jobs j ON j.id = b.job_id]. *)
Definition batch_job (d : core_db) (b : file_batch_row) : option JobRecord := by_key jb_id (fb_jobId b) (c_jobs d).

Definition getFileBatch (id : string) (d : core_db) : option FileBatchRecord :=
  b ← by_key fb_id id (c_batches d); mapFileBatch d b <$> batch_job d b.

Definition getRequiredFileBatch (id : string) : core_prog FileBatchRecord :=
  b ← gets (getFileBatch id);
  match b with Some b => mret b | None => throw (Error "File batch not found") end.

Definition newest_batch (a b : file_batch_row * JobRecord) : bool := bool_decide (fb_createdAt b.1 ≤ fb_createdAt a.1).
(** A filter of [listFileBatches]: an absent or empty one is dropped. *)
Definition matches (filter : option string) (x : string) : bool :=
  match filter with None => true | Some f => bool_decide (f = "") || bool_decide (x = f) end.
Definition listFileBatches (sessionId rootId storagePoolId : option string) (limit : option Z) (d : core_db)
    : list FileBatchRecord :=
  let limit := Z.max 1 (Z.min (limit ⁇ 50) 100) in
  let wanted b := matches sessionId (fb_sessionId b) && matches rootId (fb_rootId b) &&
                  matches storagePoolId (fb_storagePoolId b) in
  let rows := omap (λ b, pair b <$> batch_job d b) (select wanted (c_batches d)) in
  (λ r, mapFileBatch d r.1 r.2) <$> take (Z.to_nat limit) (order_by newest_batch rows).

(** ** Creation *)
Record new_item := NewItem { ni_sourcePath : string; ni_targetPath : option string; ni_trashEntryId : option string }.
Record create_batch := CreateBatch {
  cb_sessionId : string; cb_rootId : string; cb_storagePoolId : string; cb_operation : FileBatchOperation;
  cb_targetDirectory : option string; cb_summary : string; cb_items : list new_item }.
(** Of an item: its id, its trash entry's id, its operation's id. *)
Record batch_ids := BatchIds {
  bi_message : string; bi_job : string; bi_batch : string; bi_item : nat → string * string * string; bi_note : string }.

Definition FileBatchConflictError (sourcePaths : list string) : exn :=
  Exn "FileBatchConflictError" "One or more files already have an active batch operation" None None sourcePaths.

Definition busy_job (j : JobRecord) : bool := bool_decide (jb_status j = job_queued ∨ jb_status j = job_running).
(** An item of a batch of that root and pool whose job is queued or running. *)
Definition busy_item (d : core_db) (rootId storagePoolId path : string) (i : FileBatchItemRecord) : bool :=
  bool_decide (fi_sourcePath i = path) &&
  match by_key fb_id (fi_batchId i) (c_batches d) with
  | Some b => bool_decide (fb_rootId b = rootId) && bool_decide (fb_storagePoolId b = storagePoolId) &&
              match batch_job d b with Some j => busy_job j | None => false end
  | None => false
  end.
Definition duplicatePaths (d : core_db) (input : create_batch) : list string :=
  omap (λ i, match get_row (busy_item d (cb_rootId input) (cb_storagePoolId input) (ni_sourcePath i)) (c_items d) with
             | Some x => if bool_decide (fi_sourcePath x = "") then None else Some (fi_sourcePath x)
             | None => None
             end) (cb_items input).

Definition insert_batch (r : file_batch_row) : core_prog unit := λ d,
  if exists_where (λ x, bool_decide (fb_jobId x = fb_jobId r)) (c_batches d) then (inl unique_error, d)
  else if bool_decide (fb_totalCount r = 0%nat) then (inl (SqliteError "SQLITE_CONSTRAINT_CHECK"), d)
  else checked_insert fb_id c_batches (λ d, has_job (fb_jobId r) d && has_session (fb_sessionId r) d &&
         bool_decide (fb_rootId r ∈ c_roots d)) r (λ t d, d <| c_batches := t |>) d.

Definition same_slot (r x : FileBatchItemRecord) : bool :=
  bool_decide (fi_operationId x = fi_operationId r) ||
  (of_batch (fi_batchId r) x && (bool_decide (fi_sourcePath x = fi_sourcePath r) ||
                                 bool_decide (fi_ordinal x = fi_ordinal r))).
Definition insert_item (r : FileBatchItemRecord) : core_prog unit := λ d,
  if exists_where (same_slot r) (c_items d) then (inl unique_error, d)
  else checked_insert fi_id c_items (λ d, isSome (by_key fb_id (fi_batchId r) (c_batches d))) r
         (λ t d, d <| c_items := t |>) d.

Definition new_row (ids : batch_ids) (input : create_batch) (now : Z) (ordinal : nat) (i : new_item)
    : FileBatchItemRecord :=
  let '(id, trashId, operationId) := bi_item ids ordinal in
  FileBatchItem id (bi_batch ids) ordinal (ni_sourcePath i) (ni_targetPath i)
    (coalesce (ni_trashEntryId i) (if bool_decide (cb_operation input = batch_trash) then Some trashId else None))
    operationId item_queued None now now.
Definition new_rows (ids : batch_ids) (input : create_batch) (now : Z) : list FileBatchItemRecord :=
  imap (new_row ids input now) (cb_items input).

Definition new_job (ids : batch_ids) (input : create_batch) (now : Z) : JobRecord :=
  Job (bi_job ids) (cb_sessionId input) (bi_message ids) file_batch_job job_queued now now None.
Definition new_batch (ids : batch_ids) (input : create_batch) (now : Z) : file_batch_row :=
  FileBatchRow (bi_batch ids) (bi_job ids) (cb_sessionId input) (cb_rootId input) (cb_storagePoolId input)
    (cb_operation input) (cb_targetDirectory input) (length (cb_items input)) 0 0 0 0 None now now None.

Definition createFileBatch (ids : batch_ids) (input : create_batch) (now : Z) : core_prog FileBatchRecord :=
  _ ← guard_throw (bool_decide (length (cb_items input) = 0%nat)) (Error "File batch must contain at least one item");
  _ ← transaction
        (dup ← gets (λ d, duplicatePaths d input);
         _ ← guard_throw (negb (bool_decide (length dup = 0%nat))) (FileBatchConflictError (distinct dup));
         _ ← insert_message (AgentMessage (bi_message ids) (cb_sessionId input) role_system (cb_summary input) now);
         _ ← insert_job (new_job ids input now);
         _ ← insert_batch (new_batch ids input now);
         _ ← for_each insert_item (new_rows ids input now);
         _ ← createOperationNotification (bi_note ids) (bi_job ids) (cb_sessionId input) note_file note_running
               (cb_summary input) now;
         modify (touch_session (cb_sessionId input) now));
  getRequiredFileBatch (bi_batch ids).

(** ** Recovery *)
Definition running_batch_job (j : JobRecord) : bool :=
  bool_decide (jb_kind j = file_batch_job) && bool_decide (jb_status j = job_running).
Definition job_of_item (d : core_db) (i : FileBatchItemRecord) : option JobRecord :=
  by_key fb_id (fi_batchId i) (c_batches d) ≫= batch_job d.
Definition interrupted_item (d : core_db) (i : FileBatchItemRecord) : bool :=
  item_is item_running i && match job_of_item d i with Some j => running_batch_job j | None => false end.
Definition requeue_item (now : Z) (i : FileBatchItemRecord) : FileBatchItemRecord :=
  i <| fi_status := item_queued |> <| fi_error := None |> <| fi_updatedAt := now |>.
Definition batch_of_queued (d : core_db) (b : file_batch_row) : bool :=
  match batch_job d b with
  | Some j => bool_decide (jb_kind j = file_batch_job) && bool_decide (jb_status j = job_queued)
  | None => false
  end.

Definition recoverInterruptedFileBatches (now : Z) (d : core_db) : nat * core_db :=
  let items := count_where (interrupted_item d) (c_items d) in
  let d := d <| c_items := update_where (interrupted_item d) (requeue_item now) (c_items d) |> in
  let d := d <| c_jobs := update_where running_batch_job
                 (λ j, j <| jb_status := job_queued |> <| jb_updatedAt := now |>) (c_jobs d) |> in
  (items, d <| c_batches := update_where (batch_of_queued d)
                 (λ b, b <| fb_currentSourcePath := None |> <| fb_updatedAt := now |>) (c_batches d) |>).

(** ** Claim *)
Record ClaimedFileBatchItem := Claimed { cl_batch : FileBatchRecord; cl_item : FileBatchItemRecord }.

Definition claimable_item (d : core_db) (i : FileBatchItemRecord) : bool :=
  item_is item_queued i &&
  match job_of_item d i with Some j => bool_decide (jb_kind j = file_batch_job) && busy_job j | None => false end.
Definition batch_created (d : core_db) (i : FileBatchItemRecord) : Z :=
  match by_key fb_id (fi_batchId i) (c_batches d) with Some b => fb_createdAt b | None => 0 end.
Definition claim_before (d : core_db) (a b : FileBatchItemRecord) : bool :=
  bool_decide (batch_created d a < batch_created d b) ||
  (bool_decide (batch_created d a = batch_created d b) && by_ordinal a b).
Definition start_item (now : Z) (i : FileBatchItemRecord) : FileBatchItemRecord :=
  i <| fi_status := item_running |> <| fi_error := None |> <| fi_updatedAt := now |>.

Definition claimNextFileBatchItem (now : Z) : core_prog (option ClaimedFileBatchItem) :=
  transaction
    (candidate ← gets (λ d, first_by (claim_before d) (claimable_item d) (c_items d));
     match candidate with
     | None => mret None
     | Some candidate =>
         let q i := has_key fi_id (fi_id candidate) i && item_is item_queued i in
         row ← gets (λ d, returning q (start_item now) (c_items d));
         _ ← modify (λ d, d <| c_items := update_where q (start_item now) (c_items d) |>);
         match row with
         | None => mret None
         | Some row =>
             batch ← getRequiredFileBatch (fi_batchId candidate);
             let jobId := fb_jobId (br_row batch) in
             let id := fb_id (br_row batch) in
             _ ← modify (λ d, d <| c_jobs := update_where (job_guard jobId [job_queued])
                    (set_job_status job_running None now) (c_jobs d) |>);
             _ ← modify (λ d, d <| c_batches := update_where (has_key fb_id id)
                    (λ b, b <| fb_currentSourcePath := Some (fi_sourcePath row) |> <| fb_updatedAt := now |>)
                    (c_batches d) |>);
             _ ← modify (updateOperationNotificationForJob jobId note_running None false now);
             batch ← getRequiredFileBatch id;
             mret (Some (Claimed batch row))
         end
     end).

(** ** Finish and cancel *)
Definition count_items (id : string) (s : list FileBatchItemStatus) (d : core_db) : nat :=
  count_where (λ i, of_batch id i && bool_decide (fi_status i ∈ s)) (c_items d).

Definition refresh_row (id : string) (now : Z) (d : core_db) (b : file_batch_row) : file_batch_row :=
  b <| fb_completedCount := count_items id [item_completed; item_failed; item_cancelled] d |>
    <| fb_successCount := count_items id [item_completed] d |>
    <| fb_failedCount := count_items id [item_failed] d |>
    <| fb_cancelledCount := count_items id [item_cancelled] d |> <| fb_updatedAt := now |>.
Definition refreshBatchCounts (id : string) (now : Z) (d : core_db) : core_db :=
  d <| c_batches := update_where (has_key fb_id id) (refresh_row id now d) (c_batches d) |>.

Definition queued_in (id : string) (i : FileBatchItemRecord) : bool := of_batch id i && item_is item_queued i.
Definition cancel_item (now : Z) (i : FileBatchItemRecord) : FileBatchItemRecord :=
  i <| fi_status := item_cancelled |> <| fi_updatedAt := now |>.
Definition cancel_items (id : string) (now : Z) (d : core_db) : core_db :=
  d <| c_items := update_where (queued_in id) (cancel_item now) (c_items d) |>.

(** The two statuses of the input of [finishFileBatchItem]. *)
Inductive item_result := result_completed | result_failed.
Definition result_status (r : item_result) : FileBatchItemStatus :=
  match r with result_completed => item_completed | result_failed => item_failed end.

Definition finish_item (r : item_result) (error : option string) (now : Z) (i : FileBatchItemRecord)
    : FileBatchItemRecord :=
  i <| fi_status := result_status r |> <| fi_error := error |> <| fi_updatedAt := now |>.

Definition end_batch (id : string) (now : Z) (b : file_batch_row) : file_batch_row :=
  b <| fb_currentSourcePath := None |> <| fb_finishedAt := Some now |> <| fb_updatedAt := now |>.

Definition decimal (n : nat) : string := pretty n.

Definition final_status (jobStatus : JobStatus) (b : file_batch_row) : JobStatus :=
  if bool_decide (jobStatus = job_cancelled) then job_cancelled
  else if bool_decide (0 < fb_failedCount b)%nat then job_failed else job_completed.
Definition final_error (s : JobStatus) (b : file_batch_row) : option string :=
  if bool_decide (s = job_failed)
  then Some (decimal (fb_failedCount b) +:+ " of " +:+ decimal (fb_totalCount b) +:+ " file operations failed")
  else None.
Definition final_note (s : JobStatus) : OperationNotificationStatus :=
  match s with job_completed => note_succeeded | job_failed => note_failed | _ => note_cancelled end.

Definition finishFileBatchItem (itemId : string) (result : item_result) (error : option string) (now : Z)
    : core_prog (FileBatchRecord * option JobStatus) :=
  transaction
    (item ← gets (λ d, by_key fi_id itemId (c_items d));
     match item with
     | None => throw (Error "File batch item not found")
     | Some item =>
         _ ← modify (λ d, d <| c_items := update_where (λ i, has_key fi_id (fi_id item) i && item_is item_running i)
                (finish_item result error now) (c_items d) |>);
         batch ← getRequiredFileBatch (fi_batchId item);
         let id := fb_id (br_row batch) in
         let jobStatus := br_status batch in
         _ ← modify (λ d, if bool_decide (jobStatus = job_cancelled) then cancel_items id now d else d);
         _ ← modify (refreshBatchCounts id now);
         activeCount ← gets (count_items id [item_queued; item_running]);
         finalStatus ←
           (if bool_decide (activeCount = 0%nat) then
              refreshed ← getRequiredFileBatch id;
              let s := final_status jobStatus (br_row refreshed) in
              let e := final_error s (br_row refreshed) in
              let jobId := fb_jobId (br_row refreshed) in
              _ ← modify (λ d, d <| c_jobs := update_where (has_key jb_id jobId) (set_job_status s e now) (c_jobs d) |>);
              _ ← modify (λ d, d <| c_batches := update_where (has_key fb_id (fb_id (br_row refreshed)))
                     (end_batch id now) (c_batches d) |>);
              _ ← modify (updateOperationNotificationForJob jobId (final_note s) e false now);
              mret (Some s)
            else
              _ ← modify (λ d, d <| c_batches := update_where (has_key fb_id id)
                     (λ b, b <| fb_currentSourcePath := None |> <| fb_updatedAt := now |>) (c_batches d) |>);
              mret None);
         batch ← getRequiredFileBatch id;
         mret (batch, finalStatus)
     end).

Definition cancelQueuedFileBatchItems (jobId : string) (now : Z) : core_prog (option FileBatchRecord) :=
  transaction
    (row ← gets (λ d, get_row (λ b, bool_decide (fb_jobId b = jobId)) (c_batches d));
     match row with
     | None => mret None
     | Some row =>
         let id := fb_id row in
         _ ← modify (cancel_items id now);
         _ ← modify (refreshBatchCounts id now);
         running ← gets (count_items id [item_running]);
         _ ← when (bool_decide (running = 0%nat))
               (modify (λ d, d <| c_batches := update_where (has_key fb_id id)
                  (λ b, b <| fb_currentSourcePath := None |>
                          <| fb_finishedAt := coalesce (fb_finishedAt b) (Some now) |> <| fb_updatedAt := now |>)
                  (c_batches d) |>));
         Some <$> getRequiredFileBatch id
     end).

(** The cancellation of a batch by the jobs route, without its event: the
    guarded transition of the job and, when it happened, of its items. *)
Definition cancelFileBatch (jobId : string) (now : Z) (d : core_db) : core_db :=
  let '(changed, d') := updateJobStatus jobId job_cancelled None [job_queued; job_running; job_waiting_approval] now d in
  if changed then (cancelQueuedFileBatchItems jobId now d').2 else d'.

(** ** The invariant *)
Definition active_count (id : string) (d : core_db) : nat := count_items id [item_queued; item_running] d.

(** The counters of a batch are those of its items. *)
Record counts_ok (d : core_db) (b : file_batch_row) : Prop := CountsOk {
  co_total : fb_totalCount b = count_where (of_batch (fb_id b)) (c_items d);
  co_completed : fb_completedCount b = count_items (fb_id b) [item_completed; item_failed; item_cancelled] d;
  co_success : fb_successCount b = count_items (fb_id b) [item_completed] d;
  co_failed : fb_failedCount b = count_items (fb_id b) [item_failed] d;
  co_cancelled : fb_cancelledCount b = count_items (fb_id b) [item_cancelled] d }.

(** A batch and its job: the batch is finished exactly when no item is queued
    or running; then its job is not queued or running either, and a completed
    or failed job has no such item, nor a queued job a running one. *)
Record batch_ok (d : core_db) (b : file_batch_row) (j : JobRecord) : Prop := BatchOk {
  bk_kind : jb_kind j = file_batch_job;
  bk_not_waiting : jb_status j ≠ job_waiting_approval;
  bk_counts : counts_ok d b;
  bk_finished : active_count (fb_id b) d = 0%nat ↔ is_Some (fb_finishedAt b);
  bk_busy : busy_job j = true → active_count (fb_id b) d ≠ 0%nat;
  bk_ended : jb_status j = job_completed ∨ jb_status j = job_failed → active_count (fb_id b) d = 0%nat;
  bk_idle : jb_status j = job_queued → count_items (fb_id b) [item_running] d = 0%nat }.

Definition busy_path (d : core_db) (rootId storagePoolId path : string) (i : FileBatchItemRecord) : Prop :=
  busy_item d rootId storagePoolId path i = true.

Record batches_ok (d : core_db) : Prop := BatchesOk {
  bo_jobs : unique_keys jb_id (c_jobs d);
  bo_batches : unique_keys fb_id (c_batches d);
  bo_batch_jobs : unique_keys fb_jobId (c_batches d);
  bo_items : unique_keys fi_id (c_items d);
  bo_slots : ∀ i i', In i (c_items d) → In i' (c_items d) → fi_batchId i = fi_batchId i' →
    fi_sourcePath i = fi_sourcePath i' → i = i';
  bo_refs : ∀ i, In i (c_items d) → is_Some (by_key fb_id (fi_batchId i) (c_batches d));
  bo_batch : ∀ b, In b (c_batches d) → ∃ j, batch_job d b = Some j ∧ batch_ok d b j;
  (** No path is in two batches whose jobs are queued or running. *)
  bo_exclusive : ∀ root pool path i i', path ≠ "" → In i (c_items d) → In i' (c_items d) →
    busy_path d root pool path i → busy_path d root pool path i' → i = i' }.

Definition same_item (i i' : FileBatchItemRecord) : Prop :=
  fi_id i = fi_id i' ∧ fi_batchId i = fi_batchId i' ∧ fi_sourcePath i = fi_sourcePath i'.
Definition same_batch (b b' : file_batch_row) : Prop :=
  fb_id b = fb_id b' ∧ fb_jobId b = fb_jobId b' ∧ fb_rootId b = fb_rootId b' ∧ fb_storagePoolId b = fb_storagePoolId b' ∧
  fb_totalCount b = fb_totalCount b'.
Definition same_job (j j' : JobRecord) : Prop := jb_id j = jb_id j' ∧ jb_kind j = jb_kind j'.

(** An operation that rewrites rows in place, reviving no job, keeps the
    invariant if it keeps every batch right. *)
Section Evolve.
Context (d d' : core_db) (f : FileBatchItemRecord → FileBatchItemRecord) (g : JobRecord → JobRecord)
  (h : file_batch_row → file_batch_row).
Context (Hi : c_items d' = f <$> c_items d) (Hj : c_jobs d' = g <$> c_jobs d) (Hb : c_batches d' = h <$> c_batches d).
Context (Hf : ∀ i, same_item (f i) i) (Hg : ∀ j, same_job (g j) j) (Hh : ∀ b, same_batch (h b) b).
Context (Hbusy : ∀ j, busy_job (g j) = true → busy_job j = true).

Lemma evolve_batch_job b : batch_job d' (h b) = g <$> batch_job d b.
Proof using Hj Hg Hh.
  unfold batch_job. rewrite Hj, (by_key_fmap jb_id) by (intros; apply Hg).
  by replace (fb_jobId (h b)) with (fb_jobId b) by (symmetry; apply Hh).
Qed.

Lemma evolve_get_batch id : by_key fb_id id (c_batches d') = h <$> by_key fb_id id (c_batches d).
Proof using Hb Hh. rewrite Hb. apply by_key_fmap. intros; apply Hh. Qed.

Lemma evolve_busy root pool path i : busy_path d' root pool path (f i) → busy_path d root pool path i.
Proof using Hj Hb Hf Hg Hh Hbusy.
  unfold busy_path, busy_item. destruct (Hf i) as (_&->&->). rewrite evolve_get_batch.
  destruct (by_key fb_id _ _) as [b|]; simpl; [|by rewrite andb_false_r].
  rewrite evolve_batch_job. destruct (Hh b) as (_&_&->&->&_).
  destruct (batch_job d b) as [j|]; simpl; [|by rewrite !andb_false_r].
  rewrite !andb_true_iff. intros (?&(?&?)&?%Hbusy). done.
Qed.

Lemma evolve_total b : count_where (of_batch (fb_id b)) (c_items d') = count_where (of_batch (fb_id b)) (c_items d).
Proof using Hi Hf.
  rewrite Hi. apply count_where_fmap. intros i _. unfold of_batch. by destruct (Hf i) as (_&->&_).
Qed.

Lemma batches_ok_evolve :
  (∀ b j, In b (c_batches d) → batch_job d b = Some j → batch_ok d b j → batch_ok d' (h b) (g j)) →
  batches_ok d → batches_ok d'.
Proof using All.
  intros Hok [U1 U2 U3 U4 U5 U6 U7 U8].
  assert (∀ i, In i (c_items d') → ∃ i0, i = f i0 ∧ In i0 (c_items d)) as Hin.
  { intros i. rewrite Hi, <-list_elem_of_In, list_elem_of_fmap. intros (i0&->&?). exists i0. by rewrite <-list_elem_of_In. }
  split.
  - rewrite Hj. apply unique_keys_fmap; [intros; apply Hg|done].
  - rewrite Hb. apply unique_keys_fmap; [intros; apply Hh|done].
  - rewrite Hb. apply unique_keys_fmap; [intros; apply Hh|done].
  - rewrite Hi. apply unique_keys_fmap; [intros; apply Hf|done].
  - intros i i' (i0&->&H0)%Hin (i1&->&H1)%Hin. destruct (Hf i0) as (_&->&->), (Hf i1) as (_&->&->). intros. f_equal. auto.
  - intros i (i0&->&H0)%Hin. destruct (Hf i0) as (_&->&_). rewrite evolve_get_batch. by apply fmap_is_Some, U6.
  - intros b. rewrite Hb, <-list_elem_of_In, list_elem_of_fmap. intros (b0&->&H0). rewrite list_elem_of_In in H0.
    destruct (U7 b0 H0) as (j&Hbj&Hbk). exists (g j). rewrite evolve_batch_job, Hbj. split; [done|]. by apply Hok.
  - intros root pool path i i' Hp (i0&->&H0)%Hin (i1&->&H1)%Hin P0%evolve_busy P1%evolve_busy. f_equal. eauto.
Qed.
End Evolve.

Lemma getRequired_eq id d b j : by_key fb_id id (c_batches d) = Some b → batch_job d b = Some j →
  getRequiredFileBatch id d = (inr (mapFileBatch d b j), d).
Proof. intros Hb Hj. unfold getRequiredFileBatch. rewrite bind_gets. unfold getFileBatch. rewrite Hb. simpl. by rewrite Hj. Qed.

Lemma transaction_inr {S A} (m : prog S A) s a s' : m s = (inr a, s') → transaction m s = (inr a, s').
Proof. unfold transaction. by intros ->. Qed.

Lemma bind_modify {S A} (f : S → S) (k : unit → prog S A) s : (modify f ≫= k) s = k tt (f s).
Proof. done. Qed.

Lemma job_of_claimable d i : claimable_item d i = true → ∃ b j, by_key fb_id (fi_batchId i) (c_batches d) = Some b ∧
  batch_job d b = Some j ∧ jb_kind j = file_batch_job ∧ busy_job j = true ∧ fi_status i = item_queued.
Proof.
  unfold claimable_item, job_of_item. rewrite andb_true_iff. intros [Hs H].
  destruct (by_key fb_id _ _) as [b|]; [|done]. simpl in H. destruct (batch_job d b) as [j|] eqn:Hj; [|done].
  apply andb_true_iff in H as [Hk Hb]. exists b, j. by apply bool_decide_eq_true in Hk, Hs.
Qed.

(** The sessions and the log stay as they are. *)
Definition log_frame (d d' : core_db) : Prop := c_sessions d' = c_sessions d ∧ c_events d' = c_events d ∧
  c_event_seq d' = c_event_seq d ∧ c_transcript d' = c_transcript d ∧ c_transcript_seq d' = c_transcript_seq d.

Lemma log_frame_ok d d' : log_frame d d' → log_ok d → log_ok d'.
Proof. intros (_&E1&E2&E3&E4) [H1 H2 H3 H4]. split; by rewrite ?E1, ?E2, ?E3, ?E4. Qed.

(** What a claim writes. *)
Definition claim_f (now : Z) (c i : FileBatchItemRecord) : FileBatchItemRecord :=
  if has_key fi_id (fi_id c) i && item_is item_queued i then start_item now i else i.
Definition claim_g (now : Z) (jobId : string) (j : JobRecord) : JobRecord :=
  if job_guard jobId [job_queued] j then set_job_status job_running None now j else j.
Definition claim_h (now : Z) (id path : string) (b : file_batch_row) : file_batch_row :=
  if has_key fb_id id b then b <| fb_currentSourcePath := Some path |> <| fb_updatedAt := now |> else b.

Lemma claim_eq now d : batches_ok d →
  match first_by (claim_before d) (claimable_item d) (c_items d) with
  | None => claimNextFileBatchItem now d = (inr None, d)
  | Some c => ∃ b j r d', by_key fb_id (fi_batchId c) (c_batches d) = Some b ∧ batch_job d b = Some j ∧
      busy_job j = true ∧
      claimNextFileBatchItem now d = (inr (Some (Claimed r (start_item now c))), d') ∧
      br_row r = claim_h now (fb_id b) (fi_sourcePath c) b ∧ br_status r = job_running ∧
      c_items d' = claim_f now c <$> c_items d ∧ c_jobs d' = claim_g now (fb_jobId b) <$> c_jobs d ∧
      c_batches d' = claim_h now (fb_id b) (fi_sourcePath c) <$> c_batches d ∧ log_frame d d'
  end.
Proof.
  intros Hok. destruct (first_by _ _ _) as [c|] eqn:Hc.
  - pose proof Hc as [Hin Hcl]%first_by_In. destruct (job_of_claimable d c Hcl) as (b&j&Hb&Hj&Hk&Hbusy&Hq).
    pose proof Hb as [Hinb Hidb]%by_key_Some. set (q := λ i, has_key fi_id (fi_id c) i && item_is item_queued i).
    destruct (update_one_row fi_id q (start_item now) (c_items d) c) as [Hr _]; [by destruct Hok|done|done| | |].
    { unfold q, has_key, item_is. by rewrite !bool_decide_true. }
    { intros x. unfold q, has_key. rewrite andb_true_iff, bool_decide_eq_true. tauto. }
    set (d1 := d <| c_items := update_where q (start_item now) (c_items d) |>).
    set (d2 := d1 <| c_jobs := update_where (job_guard (fb_jobId b) [job_queued]) (set_job_status job_running None now) (c_jobs d) |>).
    set (d3 := d2 <| c_batches := update_where (has_key fb_id (fb_id b))
                    (λ b, b <| fb_currentSourcePath := Some (fi_sourcePath c) |> <| fb_updatedAt := now |>) (c_batches d) |>).
    set (d4 := updateOperationNotificationForJob (fb_jobId b) note_running None false now d3).
    assert (by_key fb_id (fi_batchId c) (c_batches d1) = Some b) as Hb1 by done.
    assert (batch_job d1 b = Some j) as Hj1 by done.
    assert (by_key fb_id (fb_id b) (c_batches d4) = Some (claim_h now (fb_id b) (fi_sourcePath c) b)) as Hb4.
    { simpl. rewrite by_key_update by done. rewrite Hidb, Hb. reflexivity. }
    assert (batch_job d4 (claim_h now (fb_id b) (fi_sourcePath c) b) = Some (claim_g now (fb_jobId b) j)) as Hj4.
    { unfold claim_h, has_key. rewrite bool_decide_true by done. unfold batch_job. simpl.
      rewrite by_key_update by done. unfold batch_job in Hj. by rewrite Hj. }
    exists b, j, (mapFileBatch d4 (claim_h now (fb_id b) (fi_sourcePath c) b) (claim_g now (fb_jobId b) j)), d4.
    split_and!; try done.
    + unfold claimNextFileBatchItem. apply transaction_inr. rewrite bind_gets, Hc. rewrite bind_gets. fold q.
      rewrite Hr, bind_modify. fold d1.
      erewrite bind_inr by (apply (getRequired_eq (fi_batchId c) d1 b j Hb1 Hj1)). cbn [mapFileBatch br_row].
      rewrite !bind_modify. fold d2 d3 d4. simpl fi_sourcePath.
      by erewrite bind_inr by (apply (getRequired_eq _ d4 _ _ Hb4 Hj4)).
    + simpl. unfold claim_g, job_guard, has_key. apply by_key_Some in Hj as [_ Hjid]. rewrite bool_decide_true by done.
      simpl. unfold busy_job in Hbusy. apply bool_decide_eq_true in Hbusy.
      destruct Hbusy as [Hs|Hs]; rewrite Hs; [by rewrite bool_decide_true by set_solver|].
      by rewrite bool_decide_false by set_solver.
  - unfold claimNextFileBatchItem. apply transaction_inr. by rewrite bind_gets, Hc.
Qed.

(** Items that only move between queued and running change no counter. *)
Definition shuffles (f : FileBatchItemRecord → FileBatchItemRecord) : Prop := ∀ i, same_item (f i) i ∧
  (fi_status (f i) = fi_status i ∨
   (fi_status i ∈ [item_queued; item_running] ∧ fi_status (f i) ∈ [item_queued; item_running])).

Lemma count_shuffle f d d' id s : shuffles f → c_items d' = f <$> c_items d →
  bool_decide (item_queued ∈ s) = bool_decide (item_running ∈ s) → count_items id s d' = count_items id s d.
Proof.
  intros Hf Hi Hs. unfold count_items. rewrite Hi. apply count_where_fmap. intros i _.
  destruct (Hf i) as [(_&Hb&_) Hst]. unfold of_batch. rewrite Hb. f_equal.
  destruct Hst as [->|[H1 H2]]; [done|].
  apply (bool_decide_eq_true_2 (_ ∈ _)) in H1. apply (bool_decide_eq_true_2 (_ ∈ _)) in H2. destruct (fi_status i), (fi_status (f i)); done.
Qed.

Lemma batch_ok_shuffle f d d' b b' j j' : shuffles f → c_items d' = f <$> c_items d →
  batch_ok d b j → same_batch b' b → same_job j' j →
  (fb_completedCount b' = fb_completedCount b ∧ fb_successCount b' = fb_successCount b ∧
   fb_failedCount b' = fb_failedCount b ∧ fb_cancelledCount b' = fb_cancelledCount b ∧ fb_finishedAt b' = fb_finishedAt b) →
  (jb_status j' = jb_status j ∨ (busy_job j = true ∧ busy_job j' = true)) →
  (jb_status j' = job_queued → count_items (fb_id b) [item_running] d' = 0%nat) → batch_ok d' b' j'.
Proof.
  intros Hf Hi [K1 K2 [C1 C2 C3 C4 C5] K3 K4 K5 _] (Eid&_&_&_&Et) [_ Ek] (E1&E2&E3&E4&E5) Hj Hidle.
  assert (∀ s, bool_decide (item_queued ∈ s) = bool_decide (item_running ∈ s) → count_items (fb_id b) s d' = count_items (fb_id b) s d) as Hc.
  { intros s. by apply (count_shuffle f). }
  assert (active_count (fb_id b') d' = active_count (fb_id b) d) as Ha.
  { rewrite Eid. by apply Hc. }
  assert (busy_job j' = busy_job j ∧ (jb_status j' = jb_status j ∨ busy_job j' = true)) as [Hbz Hst].
  { destruct Hj as [Hj|[Hj Hj']]; [|by rewrite Hj, Hj'; auto]. unfold busy_job. rewrite Hj. auto. }
  split.
  - congruence.
  - destruct Hst as [->|Hst]; [done|]. unfold busy_job in Hst. apply bool_decide_eq_true in Hst. intros E. rewrite E in Hst. by destruct Hst.
  - rewrite <-Eid in Hc. split; rewrite ?E1, ?E2, ?E3, ?E4, ?Hc by done; rewrite ?Eid; try done.
    rewrite Et, C1, Hi. symmetry. apply count_where_fmap. intros i _. unfold of_batch. by destruct (Hf i) as [(_&->&_) _].
  - by rewrite Ha, E5.
  - by rewrite Ha, Hbz.
  - rewrite Ha. intros He. apply K5. destruct Hst as [<-|Hst]; [done|].
    unfold busy_job in Hst. apply bool_decide_eq_true in Hst. destruct He as [E|E]; rewrite E in Hst; by destruct Hst.
  - by rewrite Eid.
Qed.

Lemma count_other f d d' id s : (∀ i, same_item (f i) i) → c_items d' = f <$> c_items d →
  (∀ i, In i (c_items d) → fi_batchId i = id → f i = i) → count_items id s d' = count_items id s d.
Proof.
  intros Hf Hi Ho. unfold count_items. rewrite Hi. apply count_where_fmap. intros i Hin. unfold of_batch.
  destruct (Hf i) as (_&->&_). case_bool_decide as E; [|done]. by rewrite Ho.
Qed.

Lemma claim_f_shuffles now c : shuffles (claim_f now c).
Proof.
  intros i. unfold claim_f, has_key, item_is. destruct (bool_decide (fi_id i = fi_id c) && _) eqn:E; [|by repeat split; left].
  apply andb_true_iff in E as [_ E%bool_decide_eq_true]. split; [done|]. right. rewrite E. split; apply (bool_decide_eq_true_1 (_ ∈ _)); reflexivity.
Qed.

Lemma batch_claim_ok now d : batches_ok d → batches_ok (claimNextFileBatchItem now d).2.
Proof.
  intros Hok. pose proof (claim_eq now d Hok) as H. destruct (first_by _ _ _) as [c|] eqn:Hfirst; [|by rewrite H].
  destruct H as (b&j&r&d'&Hb&Hj&Hbusy&->&_&_&Hi&Hjobs&Hbs&_). simpl.
  assert (∀ j, busy_job (claim_g now (fb_jobId b) j) = true → busy_job j = true) as Hg.
  { intros j'. unfold claim_g. destruct (job_guard _ _ _) eqn:E; [|done]. intros _. unfold job_guard in E.
    apply andb_true_iff in E as [_ E%bool_decide_eq_true]. unfold busy_job. apply bool_decide_eq_true. left. by apply list_elem_of_singleton in E. }
  apply (batches_ok_evolve d d' _ _ _ Hi Hjobs Hbs); [intros i; apply claim_f_shuffles| | |done| |done].
  - intros j'. unfold claim_g. by destruct (job_guard _ _ _).
  - intros b'. unfold claim_h. by destruct (has_key _ _ _).
  - intros b' j' Hinb' Hjb' Hbk. apply (batch_ok_shuffle _ d d' b' _ j' _ (claim_f_shuffles now c) Hi Hbk).
    + unfold claim_h. by destruct (has_key _ _ _).
    + unfold claim_g. by destruct (job_guard _ _ _).
    + unfold claim_h. by destruct (has_key _ _ _).
    + unfold claim_g. destruct (job_guard _ _ _) eqn:E; [|by left]. right. split; [|done].
      unfold job_guard in E. apply andb_true_iff in E as [_ E%bool_decide_eq_true].
      unfold busy_job. apply bool_decide_eq_true. left. by apply list_elem_of_singleton in E.
    + unfold claim_g. destruct (job_guard _ _ _) eqn:E; [done|]. intros Hq.
      assert (jb_id j' ≠ fb_jobId b) as Hne.
      { intros Ej. unfold job_guard, has_key in E. rewrite Ej, Hq, !bool_decide_true in E; [done|by apply list_elem_of_singleton|done]. }
      rewrite (count_other (claim_f now c) d d' _ _); [by apply Hbk|intros; apply claim_f_shuffles|done|].
      intros i Hin Hbi. unfold claim_f, has_key. rewrite bool_decide_false; [done|]. intros Eid.
      assert (i = c) as -> by (apply (unique_key_eq fi_id (c_items d)); [apply Hok|done| |done]; by apply first_by_In in Hfirst as [? _]).
      apply by_key_Some in Hb as [Hinb Hidb]. apply Hne. apply by_key_Some in Hjb' as [_ ->].
      rewrite (unique_key_eq fb_id (c_batches d) b' b); [done|apply Hok|done|done|congruence].
Qed.

Lemma batch_recover_ok now d : batches_ok d → batches_ok (recoverInterruptedFileBatches now d).2.
Proof.
  intros Hok. set (f := λ i, if interrupted_item d i then requeue_item now i else i).
  set (g := λ j, if running_batch_job j then j <| jb_status := job_queued |> <| jb_updatedAt := now |> else j).
  set (d2 := (d <| c_items := f <$> c_items d |>) <| c_jobs := g <$> c_jobs d |>).
  set (h := λ b, if batch_of_queued d2 b then b <| fb_currentSourcePath := None |> <| fb_updatedAt := now |> else b).
  assert (∀ j, g j = j ∨ (busy_job j = true ∧ busy_job (g j) = true ∧ same_job (g j) j)) as Hg.
  { intros j. unfold g, running_batch_job. destruct (bool_decide (jb_kind j = file_batch_job) && _) eqn:E; [|by left]. right.
    apply andb_true_iff in E as [_ E%bool_decide_eq_true]. split; [|done]. apply bool_decide_true. by right. }
  assert (shuffles f) as Hf.
  { intros i. unfold f, interrupted_item, item_is. destruct (bool_decide (fi_status i = item_running) && _) eqn:E; [|by repeat split; left].
    apply andb_true_iff in E as [E%bool_decide_eq_true _]. split; [done|]. right. rewrite E. split; apply (bool_decide_eq_true_1 (_ ∈ _)); reflexivity. }
  set (d3 := d2 <| c_batches := h <$> c_batches d |>). change (batches_ok d3).
  apply (batches_ok_evolve d d3 f g h); try done.
  - intros i. apply Hf.
  - intros j. destruct (Hg j) as [->|(_&_&?)]; done.
  - intros b. unfold h. by destruct (batch_of_queued _ _).
  - intros j. destruct (Hg j) as [->|(?&_&_)]; done.
  - intros b j Hinb Hjb Hbk. apply (batch_ok_shuffle f d d3 b _ j _ Hf eq_refl Hbk).
    + unfold h. by destruct (batch_of_queued _ _).
    + destruct (Hg j) as [->|(_&_&?)]; done.
    + unfold h. by destruct (batch_of_queued _ _).
    + destruct (Hg j) as [->|(?&?&_)]; auto.
    + intros Hq. unfold count_items. apply count_where_0. intros i'. change (c_items d3) with (f <$> c_items d).
      rewrite <-list_elem_of_In, list_elem_of_fmap. intros (i&->&Hin). rewrite list_elem_of_In in Hin.
      destruct (of_batch (fb_id b) (f i)) eqn:Eb; [|done]. simpl. apply bool_decide_eq_false. intros Er%list_elem_of_singleton.
      assert (f i = i ∧ interrupted_item d i = false) as [Ei Eint].
      { revert Er. unfold f. by destruct (interrupted_item d i). }
      rewrite Ei in Er, Eb. unfold of_batch in Eb. apply bool_decide_eq_true in Eb.
      unfold interrupted_item, item_is, job_of_item in Eint. rewrite (bool_decide_true (fi_status i = _)) in Eint by done.
      rewrite Eb, (by_key_unique fb_id) in Eint by (done || apply Hok). simpl in Eint. rewrite Hjb in Eint.
      destruct Hbk as [K1 _ _ _ _ _ K6]. unfold running_batch_job in Eint. rewrite (bool_decide_true (jb_kind j = _)) in Eint by done.
      simpl in Eint. apply bool_decide_eq_false in Eint. revert Hq. unfold g, running_batch_job.
      rewrite (bool_decide_false (jb_status j = job_running)), andb_false_r by done. intros Hq.
      pose proof (proj1 (count_where_0 _ _) (K6 Hq) i Hin) as H. simpl in H. unfold of_batch in H.
      rewrite Eb, Er, !bool_decide_true in H; [done|by apply list_elem_of_singleton|done].
Qed.

(** What finishing an item writes. *)
Definition finish_f (result : item_result) (error : option string) (now : Z) (item : FileBatchItemRecord)
    (cancelled : bool) (i : FileBatchItemRecord) : FileBatchItemRecord :=
  let i := if has_key fi_id (fi_id item) i && item_is item_running i then finish_item result error now i else i in
  if cancelled && queued_in (fi_batchId item) i then cancel_item now i else i.
Definition finish_g (ended : bool) (jobId : string) (s : JobStatus) (e : option string) (now : Z) (j : JobRecord) : JobRecord :=
  if ended && has_key jb_id jobId j then set_job_status s e now j else j.
Definition finish_h (ended : bool) (id : string) (now : Z) (d2 : core_db) (b : file_batch_row) : file_batch_row :=
  if has_key fb_id id b then
    let b := refresh_row id now d2 b in
    if ended then end_batch id now b else b <| fb_currentSourcePath := None |> <| fb_updatedAt := now |>
  else b.

Lemma update_where_twice {R} (p q : R → bool) f g t :
  update_where q g (update_where p f t) = (λ r, let r := if p r then f r else r in if q r then g r else r) <$> t.
Proof. unfold update_where. by rewrite <-list_fmap_compose. Qed.

Lemma finish_eq itemId result error now d item : batches_ok d → by_key fi_id itemId (c_items d) = Some item →
  ∃ b j r d', by_key fb_id (fi_batchId item) (c_batches d) = Some b ∧ batch_job d b = Some j ∧
    let d2 := d <| c_items := finish_f result error now item (bool_decide (jb_status j = job_cancelled)) <$> c_items d |> in
    let ended := bool_decide (active_count (fb_id b) d2 = 0%nat) in
    let s := final_status (jb_status j) (refresh_row (fb_id b) now d2 b) in
    let e := final_error s (refresh_row (fb_id b) now d2 b) in
    finishFileBatchItem itemId result error now d = (inr (r, if ended then Some s else None), d') ∧
    br_row r = finish_h ended (fb_id b) now d2 b ∧
    c_items d' = c_items d2 ∧ c_jobs d' = finish_g ended (fb_jobId b) s e now <$> c_jobs d ∧
    c_batches d' = finish_h ended (fb_id b) now d2 <$> c_batches d ∧ log_frame d d'.
Proof.
  intros Hok Hitem. pose proof Hitem as [Hin _]%by_key_Some.
  destruct (bo_refs d Hok item Hin) as [b Hb]. pose proof Hb as [Hinb Hidb]%by_key_Some.
  destruct (bo_batch d Hok b Hinb) as (j&Hj&_).
  set (cancelled := bool_decide (jb_status j = job_cancelled)). set (id := fb_id b).
  set (d2 := d <| c_items := finish_f result error now item cancelled <$> c_items d |>).
  set (d1 := d <| c_items := update_where (λ i, has_key fi_id (fi_id item) i && item_is item_running i)
                (finish_item result error now) (c_items d) |>).
  assert ((if cancelled then cancel_items id now d1 else d1) = d2) as E2.
  { unfold d2, d1, finish_f, id. rewrite Hidb. destruct cancelled; simpl; [|done].
    unfold cancel_items. simpl. by rewrite update_where_twice. }
  set (d3 := refreshBatchCounts id now d2). set (b3 := refresh_row id now d2 b).
  assert (by_key fb_id id (c_batches d3) = Some b3) as Hb3.
  { assert (by_key fb_id id (c_batches d) = Some b) as Hbid by (unfold id; by rewrite Hidb).
    simpl. rewrite by_key_update by done. rewrite Hbid. simpl. unfold has_key. by rewrite bool_decide_true. }
  assert (batch_job d3 b3 = Some j) as Hj3 by done.
  assert (active_count id d3 = active_count id d2) as Ea by done.
  destruct (bool_decide (active_count id d2 = 0%nat)) eqn:Hended.
  - set (s := final_status (jb_status j) b3). set (e := final_error s b3).
    set (d4 := d3 <| c_jobs := update_where (has_key jb_id (fb_jobId b)) (set_job_status s e now) (c_jobs d3) |>).
    set (d5 := d4 <| c_batches := update_where (has_key fb_id id) (end_batch id now) (c_batches d3) |>).
    set (d6 := updateOperationNotificationForJob (fb_jobId b) (final_note s) e false now d5).
    assert (by_key fb_id id (c_batches d6) = Some (end_batch id now b3)) as Hb6.
    { unfold d6, d5. cbn [c_batches updateOperationNotificationForJob set_notes with_field set_to].
      rewrite by_key_update by done. rewrite Hb3. simpl. unfold has_key. by rewrite bool_decide_true. }
    assert (batch_job d6 (end_batch id now b3) = Some (set_job_status s e now j)) as Hj6.
    { unfold batch_job in *. simpl. rewrite by_key_update by done. rewrite Hj. simpl.
      apply by_key_Some in Hj as [_ Hjid]. unfold has_key. by rewrite bool_decide_true. }
    exists b, j, (mapFileBatch d6 (end_batch id now b3) (set_job_status s e now j)), d6. split; [done|]. split; [done|].
    fold cancelled. fold d2. fold id. cbv zeta. rewrite Hended. fold b3. fold s. fold e. split_and!.
    + unfold finishFileBatchItem. apply transaction_inr. rewrite bind_gets, Hitem. rewrite bind_modify. fold d1.
      erewrite bind_inr by (apply (getRequired_eq (fi_batchId item) d1 b j Hb Hj)). cbn [mapFileBatch br_row br_status].
      fold id. rewrite bind_modify. fold cancelled. rewrite E2. rewrite bind_modify. fold d3.
      rewrite bind_gets. fold (active_count id d3). rewrite Ea, Hended.
      erewrite bind_inr; [|erewrite bind_inr by (apply (getRequired_eq id d3 b3 j Hb3 Hj3)); cbn [mapFileBatch br_row];
        fold s; fold e; rewrite !bind_modify; reflexivity].
      erewrite bind_inr by (apply (getRequired_eq id d6 _ _ Hb6 Hj6)). reflexivity.
    + simpl. unfold finish_h, has_key. by rewrite bool_decide_true.
    + done.
    + done.
    + simpl. rewrite update_where_twice. apply list_fmap_ext. intros k x _. unfold finish_h, has_key.
      destruct (decide (fb_id x = id)) as [E|E]; [|by rewrite !(bool_decide_false (fb_id x = id)) by done].
      rewrite !(bool_decide_true (fb_id x = id)) by done. by rewrite ?bool_decide_true by done.
    + done.
  - set (d4 := d3 <| c_batches := update_where (has_key fb_id id)
                     (λ b, b <| fb_currentSourcePath := None |> <| fb_updatedAt := now |>) (c_batches d3) |>).
    set (b4 := b3 <| fb_currentSourcePath := None |> <| fb_updatedAt := now |>).
    assert (by_key fb_id id (c_batches d4) = Some b4) as Hb4.
    { simpl. rewrite by_key_update by done. change (update_where (has_key fb_id id) (refresh_row id now d2) (c_batches d)) with (c_batches d3).
      rewrite Hb3. simpl. unfold has_key. by rewrite bool_decide_true. }
    assert (batch_job d4 b4 = Some j) as Hj4 by done.
    exists b, j, (mapFileBatch d4 b4 j), d4. split; [done|]. split; [done|].
    fold cancelled. fold d2. fold id. cbv zeta. rewrite Hended. fold b3. split_and!.
    + unfold finishFileBatchItem. apply transaction_inr. rewrite bind_gets, Hitem. rewrite bind_modify. fold d1.
      erewrite bind_inr by (apply (getRequired_eq (fi_batchId item) d1 b j Hb Hj)). cbn [mapFileBatch br_row br_status].
      fold id. rewrite bind_modify. fold cancelled. rewrite E2. rewrite bind_modify. fold d3.
      rewrite bind_gets. fold (active_count id d3). rewrite Ea, Hended.
      erewrite bind_inr; [|rewrite bind_modify; reflexivity].
      erewrite bind_inr by (apply (getRequired_eq id d4 _ _ Hb4 Hj4)). reflexivity.
    + simpl. unfold finish_h, has_key. by rewrite bool_decide_true.
    + done.
    + unfold finish_g. simpl. by rewrite list_fmap_id.
    + simpl. rewrite update_where_twice. apply list_fmap_ext. intros k x _. unfold finish_h, has_key.
      destruct (decide (fb_id x = id)) as [E|E]; [|by rewrite !(bool_decide_false (fb_id x = id)) by done].
      rewrite !(bool_decide_true (fb_id x = id)) by done. by rewrite ?bool_decide_true by done.
    + done.
Qed.

(** ** The operations keep the invariant *)
Lemma batch_ok_other f d d' b j : (∀ i, same_item (f i) i) → c_items d' = f <$> c_items d →
  (∀ i, In i (c_items d) → fi_batchId i = fb_id b → f i = i) → batch_ok d b j → batch_ok d' b j.
Proof.
  intros Hf Hi Ho [K1 K2 [C1 C2 C3 C4 C5] K3 K4 K5 K6].
  assert (∀ s, count_items (fb_id b) s d' = count_items (fb_id b) s d) as Hc by (intros s; by apply (count_other f)).
  assert (active_count (fb_id b) d' = active_count (fb_id b) d) as Ha by apply Hc.
  split; rewrite ?Ha, ?Hc; try done. split; rewrite ?Hc; try done.
  rewrite C1, Hi. symmetry. apply count_where_fmap. intros i _. unfold of_batch. by destruct (Hf i) as (_&->&_).
Qed.

(** An operation that makes no item queued or running again. *)
Definition settles (f : FileBatchItemRecord → FileBatchItemRecord) : Prop := ∀ i, same_item (f i) i ∧
  (fi_status (f i) = fi_status i ∨ fi_status (f i) ∉ [item_queued; item_running]).

Lemma count_settles f d d' id s : settles f → c_items d' = f <$> c_items d → (∀ x, x ∈ s → x ∈ [item_queued; item_running]) →
  (count_items id s d' ≤ count_items id s d)%nat.
Proof.
  intros Hf Hi Hs. unfold count_items. rewrite Hi.
  rewrite (count_where_fmap _ (λ i, of_batch id (f i) && bool_decide (fi_status (f i) ∈ s)) f) by done.
  apply count_where_mono. intros i _. destruct (Hf i) as [(_&Hb&_) Hst]. unfold of_batch. rewrite Hb.
  destruct Hst as [->|Hst]; [done|]. rewrite (bool_decide_false (fi_status (f i) ∈ _)), andb_false_r by auto. done.
Qed.

Lemma active_settles f d d' id : settles f → c_items d' = f <$> c_items d → (active_count id d' ≤ active_count id d)%nat.
Proof. intros Hf Hi. by apply (count_settles f). Qed.

Lemma running_settles f d d' id : settles f → c_items d' = f <$> c_items d → count_items id [item_running] d = 0%nat →
  count_items id [item_running] d' = 0%nat.
Proof.
  intros Hf Hi H0. pose proof (count_settles f d d' id [item_running] Hf Hi) as H. rewrite H0 in H.
  assert (count_items id [item_running] d' ≤ 0)%nat; [|lia]. apply H. intros x ->%list_elem_of_singleton.
  apply list_elem_of_In. simpl. auto.
Qed.

Lemma finish_f_settles result error now item c : settles (finish_f result error now item c).
Proof.
  intros i. unfold finish_f. cbv zeta. destruct (_ && item_is item_running i), (c && _); split; try done; try (by left); right;
    apply (bool_decide_eq_false_1 (_ ∈ _)); by destruct result.
Qed.

Lemma same_job_by_key d b j : unique_keys jb_id (c_jobs d) → batch_job d b = Some j → jb_id j = fb_jobId b.
Proof. intros _ H. by apply by_key_Some in H as [_ ?]. Qed.

Lemma batch_key_inj d b b' : batches_ok d → In b (c_batches d) → In b' (c_batches d) →
  fb_id b = fb_id b' ∨ fb_jobId b = fb_jobId b' → b = b'.
Proof.
  intros Hok H H' [E|E]; [by apply (unique_key_eq fb_id (c_batches d)); [apply Hok|..]|].
  by apply (unique_key_eq fb_jobId (c_batches d)); [apply Hok|..].
Qed.

Lemma final_status_idle s b : busy_job (Job "" "" "" file_batch_job (final_status s b) 0 0 None) = false ∧
  final_status s b ≠ job_waiting_approval.
Proof. unfold final_status. repeat case_bool_decide; done. Qed.

Lemma finish_ok itemId result error now d : batches_ok d → batches_ok (finishFileBatchItem itemId result error now d).2.
Proof.
  intros Hok. destruct (by_key fi_id itemId (c_items d)) as [item|] eqn:Hitem.
  2: { unfold finishFileBatchItem, transaction. rewrite bind_gets, Hitem. done. }
  destruct (finish_eq itemId result error now d item Hok Hitem) as (b&j&r&d'&Hb&Hj&H). cbv zeta in H.
  set (f := finish_f result error now item (bool_decide (jb_status j = job_cancelled))) in *.
  set (d2 := d <| c_items := f <$> c_items d |>) in *. set (id := fb_id b) in *.
  set (b2 := refresh_row id now d2 b) in *. set (s := final_status (jb_status j) b2) in *.
  set (e := final_error s b2) in *. set (ended := bool_decide (active_count id d2 = 0%nat)) in *.
  destruct H as (->&_&Hi&Hjobs&Hbs&_). simpl. pose proof Hb as [Hinb Hidb]%by_key_Some. fold id in Hidb.
  pose proof Hitem as [Hin _]%by_key_Some. pose proof (finish_f_settles result error now item (bool_decide (jb_status j = job_cancelled))) as Hset.
  fold f in Hset.
  assert (∀ i, In i (c_items d) → fi_batchId i ≠ id → f i = i) as Hother.
  { intros i Hii Hne. unfold f, finish_f. cbv zeta. unfold has_key.
    rewrite (bool_decide_false (fi_id i = fi_id item)).
    2: { intros E. apply Hne. rewrite (unique_key_eq fi_id (c_items d) i item); [done|apply Hok|done..]. }
    simpl. unfold queued_in, of_batch. rewrite (bool_decide_false (fi_batchId i = fi_batchId item)) by congruence.
    by rewrite andb_false_r. }
  assert (busy_job j = true → jb_status j = job_queued ∨ jb_status j = job_running) as Hbz by apply bool_decide_eq_true.
  pose proof (final_status_idle (jb_status j) b2) as [Hidle Hnw].
  fold s in Hidle, Hnw. assert (∀ j0, busy_job (set_job_status s e now j0) = false) as Hbf by (intros; exact Hidle).
  apply (batches_ok_evolve d d' f _ _ Hi Hjobs Hbs); [intros i; apply Hset| | | | |done].
  - intros j'. unfold finish_g. by destruct (ended && _).
  - intros b'. unfold finish_h. destruct (has_key fb_id id b'); [|done]. by destruct ended.
  - intros j'. unfold finish_g. destruct (ended && _); [|done]. by rewrite Hbf.
  - intros b' j' Hinb' Hj' Hbk. destruct (decide (fb_id b' = id)) as [Eb|Hne].
    + pose proof (batch_key_inj d b' b Hok Hinb' Hinb (or_introl Eb)) as ->. rewrite Hj in Hj'. injection Hj' as <-. destruct Hbk as [K1 K2 [C1 C2 C3 C4 C5] K3 K4 K5 K6].
      assert (∀ q, count_items id q d' = count_items id q d2) as Hc by (intros q; unfold count_items; by rewrite Hi).
      assert (active_count id d' = active_count id d2) as Ha by apply Hc.
      pose proof (active_settles f d d2 id Hset eq_refl) as Hle.
      assert (finish_h ended id now d2 b = (if ended then end_batch id now b2 else b2 <| fb_currentSourcePath := None |> <| fb_updatedAt := now |>)) as Hh
        by (unfold finish_h, has_key; by rewrite bool_decide_true).
      assert (finish_g ended (fb_jobId b) s e now j = if ended then set_job_status s e now j else j) as Hg.
      { unfold finish_g, has_key. rewrite (bool_decide_true (jb_id j = _)), andb_true_r; [done|]. by apply by_key_Some in Hj as [_ ?]. }
      assert (counts_ok d' b2) as Hcounts.
      { split; simpl; rewrite ?Hc; try done. rewrite C1. symmetry. apply evolve_total with (f := f); [done|]. intros i. apply Hset. }
      rewrite Hh, Hg. unfold ended. case_bool_decide as Hend; split; simpl; try done.
      * by destruct Hcounts.
      * fold id. rewrite Ha, Hend. split; [by eauto|done].
      * by rewrite Hbf.
      * fold id. by rewrite Ha.
      * intros Es. exfalso. revert Hidle. rewrite Es. done.
      * by destruct Hcounts.
      * fold id. rewrite Ha. split; [done|]. intros Hs. exfalso. apply K3 in Hs. fold id in Hs. lia.
      * fold id. by rewrite Ha.
      * fold id. rewrite Ha. intros Hs. apply K5 in Hs. fold id in Hs. lia.
      * fold id. intros Hq. rewrite Hc. exact (running_settles f d d2 id Hset eq_refl (K6 Hq)).
    + assert (fb_jobId b' ≠ fb_jobId b) as N2.
      { intros E. apply Hne. by rewrite (batch_key_inj d b' b Hok Hinb' Hinb (or_intror E)). }
      assert (finish_h ended id now d2 b' = b') as -> by (unfold finish_h, has_key; by rewrite bool_decide_false).
      assert (finish_g ended (fb_jobId b) s e now j' = j') as ->.
      { unfold finish_g, has_key. rewrite (bool_decide_false (jb_id j' = _)); [by rewrite andb_false_r|].
        apply by_key_Some in Hj' as [_ ->]. done. }
      apply (batch_ok_other f d d' b' j'); [intros i; apply Hset|done| |done].
      intros i Hii Hbi. apply Hother; congruence.
Qed.

Definition cancel_f (id : string) (now : Z) (i : FileBatchItemRecord) : FileBatchItemRecord :=
  if queued_in id i then cancel_item now i else i.
Definition cancel_h (id : string) (now : Z) (d2 : core_db) (b : file_batch_row) : file_batch_row :=
  if has_key fb_id id b then
    let b := refresh_row id now d2 b in
    if bool_decide (count_items id [item_running] d2 = 0%nat)
    then b <| fb_currentSourcePath := None |> <| fb_finishedAt := coalesce (fb_finishedAt b) (Some now) |> <| fb_updatedAt := now |>
    else b
  else b.

Lemma cancelQueued_eq jobId now d b j : unique_keys fb_id (c_batches d) →
  get_row (λ b, bool_decide (fb_jobId b = jobId)) (c_batches d) = Some b → batch_job d b = Some j →
  let d2 := cancel_items (fb_id b) now d in
  ∃ r d', cancelQueuedFileBatchItems jobId now d = (inr (Some r), d') ∧
    c_items d' = cancel_f (fb_id b) now <$> c_items d ∧ c_jobs d' = c_jobs d ∧
    c_batches d' = cancel_h (fb_id b) now d2 <$> c_batches d.
Proof.
  intros Hu Hrow Hj d2. pose proof Hrow as [Hinb _]%get_row_Some. set (id := fb_id b).
  pose proof (by_key_unique fb_id _ b Hu Hinb) as Hb. fold id in Hb.
  set (d3 := refreshBatchCounts id now d2). set (b3 := refresh_row id now d2 b).
  assert (by_key fb_id id (c_batches d3) = Some b3) as Hb3.
  { simpl. rewrite by_key_update by done. rewrite Hb. simpl. unfold has_key. by rewrite bool_decide_true. }
  set (last := λ b : file_batch_row, b <| fb_currentSourcePath := None |>
       <| fb_finishedAt := coalesce (fb_finishedAt b) (Some now) |> <| fb_updatedAt := now |>).
  set (d4 := if bool_decide (count_items id [item_running] d3 = 0%nat)
             then d3 <| c_batches := update_where (has_key fb_id id) last (c_batches d3) |> else d3).
  set (b4 := if bool_decide (count_items id [item_running] d3 = 0%nat) then last b3 else b3).
  assert (by_key fb_id id (c_batches d4) = Some b4) as Hb4.
  { unfold d4, b4. destruct (bool_decide (count_items _ _ _ = _)); [|done].
    cbn [c_batches with_field set_to]. rewrite by_key_update by done. rewrite Hb3. simpl. unfold has_key. by rewrite bool_decide_true. }
  assert (batch_job d4 b4 = Some j) as Hj4.
  { unfold d4, b4. by destruct (bool_decide (count_items _ _ _ = _)). }
  exists (mapFileBatch d4 b4 j), d4. split_and!.
  - unfold cancelQueuedFileBatchItems. apply transaction_inr. rewrite bind_gets, Hrow. fold id.
    rewrite bind_modify. fold d2. rewrite bind_modify. fold d3. rewrite bind_gets.
    assert (when (bool_decide (count_items id [item_running] d3 = 0%nat))
      (modify (λ d, d <| c_batches := update_where (has_key fb_id id) last (c_batches d) |>)) d3 = (inr tt, d4)) as Hw.
    { unfold d4, when. by destruct (bool_decide (count_items _ _ _ = _)). }
    erewrite bind_inr by exact Hw. unfold fmap, prog_fmap. by rewrite (getRequired_eq id d4 b4 j).
  - unfold d4. by destruct (bool_decide (count_items _ _ _ = _)).
  - unfold d4. by destruct (bool_decide (count_items _ _ _ = _)).
  - assert (count_items id [item_running] d3 = count_items id [item_running] d2) as E3 by done.
    unfold d4. rewrite E3. unfold cancel_h. destruct (bool_decide (count_items id _ _ = _)); [|done].
    simpl. rewrite update_where_twice. apply list_fmap_ext. intros k x _. unfold has_key.
    destruct (decide (fb_id x = id)) as [E|E]; [|by rewrite !(bool_decide_false (fb_id x = id)) by done].
    rewrite !(bool_decide_true (fb_id x = id)) by done. by rewrite ?bool_decide_true by done.
Qed.

Lemma active_split id d : active_count id d = (count_where (queued_in id) (c_items d) + count_items id [item_running] d)%nat.
Proof.
  unfold active_count, count_items, count_where, select, queued_in, item_is.
  induction (c_items d) as [|i t IH]; simpl; [done|]. destruct (of_batch id i); simpl; [|done].
  by destruct (fi_status i); simpl; rewrite ?IH; auto with lia.
Qed.

Lemma cancel_ok jobId now d : batches_ok d → batches_ok (cancelFileBatch jobId now d).
Proof.
  intros Hok. unfold cancelFileBatch. set (from := [job_queued; job_running; job_waiting_approval]).
  pose proof (updateJobStatus_frame jobId job_cancelled None from now d) as H. cbv zeta in H.
  destruct (updateJobStatus jobId job_cancelled None from now d) as [changed d1] eqn:Eu. simpl in H.
  destruct H as (Hc&Hj1&Hb1&Hi1&_). set (g := λ j, if job_guard jobId from j then set_job_status job_cancelled None now j else j).
  assert (∀ j, busy_job (g j) = true → busy_job j = true) as Hbusy.
  { intros j. unfold g. by destruct (job_guard _ _ _). }
  assert (∀ j, same_job (g j) j) as Hg by (intros j; unfold g; by destruct (job_guard _ _ _)).
  destruct changed.
  2: { rewrite (updateJobStatus_stuck jobId job_cancelled None from now d) in Eu; [by injection Eu as <-|].
       symmetry in Hc. apply bool_decide_eq_false in Hc. apply count_where_0.
       assert (count_where (job_guard jobId from) (c_jobs d) ≤ 1)%nat; [|lia].
       exact (count_key_le_1 jb_id jobId (λ j, bool_decide (jb_status j ∈ from)) (c_jobs d) (bo_jobs d Hok)). }
  destruct (get_row (λ b, bool_decide (fb_jobId b = jobId)) (c_batches d1)) as [b|] eqn:Hrow.
  - pose proof Hrow as [Hinb Hid%bool_decide_eq_true]%get_row_Some. rewrite Hb1 in Hinb.
    destruct (bo_batch d Hok b Hinb) as (j&Hj&Hbk).
    assert (batch_job d1 b = Some (g j)) as Hj'.
    { unfold batch_job in *. rewrite Hj1, by_key_update by done. by rewrite Hj. }
    destruct (cancelQueued_eq jobId now d1 b (g j)) as (r&d'&->&Hi&Hj2&Hb); [rewrite Hb1; apply Hok|done..|].
    simpl. set (id := fb_id b) in *. set (d2 := cancel_items id now d1) in *. rewrite Hi1 in Hi. rewrite Hb1 in Hb.
    assert (settles (cancel_f id now)) as Hset.
    { intros i. unfold cancel_f. destruct (queued_in id i); split; try done; [right|by left].
      by apply (bool_decide_eq_false_1 (_ ∈ _)). }
    apply (batches_ok_evolve d d' (cancel_f id now) g (cancel_h id now d2)); [done|by rewrite Hj2|done|intros i; apply Hset|done| |done| |done].
    + intros b'. unfold cancel_h. destruct (has_key fb_id id b'); [|done]. by destruct (bool_decide (count_items _ _ _ = _)).
    + intros b' j' Hinb' Hjb' Hbk'. destruct (decide (fb_id b' = id)) as [Eb|Hne].
      * pose proof (batch_key_inj d b' b Hok Hinb' Hinb (or_introl Eb)) as ->. rewrite Hj in Hjb'. injection Hjb' as <-.
        destruct Hbk as [K1 K2 [C1 C2 C3 C4 C5] K3 K4 K5 K6].
        assert (c_items d' = c_items d2) as Hi2 by (rewrite Hi; unfold d2; simpl; by rewrite Hi1).
        assert (∀ q, count_items id q d' = count_items id q d2) as Hcnt by (intros q; unfold count_items; by rewrite Hi2).
        assert (active_count id d' = count_items id [item_running] d2) as Ha.
        { rewrite active_split, Hcnt. rewrite (proj2 (count_where_0 _ _)); [done|]. intros x.
          rewrite Hi, <-list_elem_of_In, list_elem_of_fmap. intros (i&->&_). unfold cancel_f. destruct (queued_in id i) eqn:E; [|done].
          unfold queued_in, item_is. simpl. by rewrite andb_false_r. }
        pose proof (active_settles _ d d' id Hset Hi) as Hle.
        assert (busy_job (g j) = false ∧ jb_status (g j) ≠ job_waiting_approval ∧
                (jb_status (g j) = job_completed ∨ jb_status (g j) = job_failed → active_count id d = 0%nat)) as (G1&G2&G3).
        { unfold g. destruct (job_guard jobId from j) eqn:Eg; [split_and!; [done|done|by intros []]|].
          unfold job_guard, has_key in Eg. apply by_key_Some in Hj as [_ Hjid]. rewrite bool_decide_true in Eg by congruence. simpl in Eg.
          split_and!; [|done|done]. unfold busy_job. by destruct (jb_status j). }
        set (b2 := refresh_row id now d2 b).
        assert (counts_ok d' b2) as Hcounts.
        { split; simpl; rewrite ?Hcnt; try done. rewrite C1, Hi. symmetry. apply count_where_fmap. intros i _.
          unfold of_batch, cancel_f. by destruct (queued_in _ _). }
        assert (cancel_h id now d2 b = if bool_decide (count_items id [item_running] d2 = 0%nat)
          then b2 <| fb_currentSourcePath := None |> <| fb_finishedAt := coalesce (fb_finishedAt b2) (Some now) |> <| fb_updatedAt := now |>
          else b2) as Hh by (unfold cancel_h, has_key; by rewrite bool_decide_true).
        rewrite Hh. case_bool_decide as Er; split; simpl; try done; fold id; rewrite ?G1; try done.
        -- by destruct (Hg j) as [_ ->].
        -- by destruct Hcounts.
        -- rewrite Ha, Er. split; [|done]. by destruct (fb_finishedAt b).
        -- intros _. by rewrite Ha.
        -- intros Hq. exfalso. revert G1. unfold busy_job. by rewrite Hq.
        -- by destruct (Hg j) as [_ ->].
        -- rewrite Ha. split; [done|]. intros Hs. apply K3 in Hs. fold id in Hs. lia.
        -- intros Hs. apply G3 in Hs. lia.
        -- intros Hq. exfalso. revert G1. unfold busy_job. by rewrite Hq.
      * assert (fb_jobId b' ≠ jobId) as N2.
        { intros E. apply Hne. by rewrite (batch_key_inj d b' b Hok Hinb' Hinb (or_intror (eq_trans E (eq_sym Hid)))). }
        assert (cancel_h id now d2 b' = b') as -> by (unfold cancel_h, has_key; by rewrite bool_decide_false).
        assert (g j' = j') as ->.
        { unfold g, job_guard, has_key. rewrite (bool_decide_false (jb_id j' = _)); [done|]. by apply by_key_Some in Hjb' as [_ ->]. }
        apply (batch_ok_other (cancel_f id now) d d' b' j'); [intros i; apply Hset|done| |done].
        intros i _ Hbi. unfold cancel_f, queued_in, of_batch. rewrite bool_decide_false; [done|]. congruence.
  - assert (cancelQueuedFileBatchItems jobId now d1 = (inr None, d1)) as ->.
    { unfold cancelQueuedFileBatchItems. apply transaction_inr. by rewrite bind_gets, Hrow. }
    simpl. rewrite Hb1 in Hrow. apply (batches_ok_evolve d d1 id g id); try done.
    + by rewrite list_fmap_id.
    + by rewrite list_fmap_id.
    + intros b' j' Hinb' Hjb' Hbk'. assert (g j' = j') as ->.
      { unfold g, job_guard, has_key. rewrite (bool_decide_false (jb_id j' = _)); [done|]. apply by_key_Some in Hjb' as [_ ->].
        rewrite get_row_None in Hrow. specialize (Hrow b' Hinb'). by apply bool_decide_eq_false in Hrow. }
      apply (batch_ok_other id d d1); [done|by rewrite list_fmap_id|done|done].
Qed.

Definition slots (t : list FileBatchItemRecord) : Prop := ∀ i i', In i t → In i' t → fi_batchId i = fi_batchId i' →
  fi_sourcePath i = fi_sourcePath i' → i = i'.

Lemma insert_items_inv rows d d' u : for_each insert_item rows d = (inr u, d') →
  c_items d' = c_items d ++ rows ∧ c_jobs d' = c_jobs d ∧ c_batches d' = c_batches d ∧
  (unique_keys fi_id (c_items d) → unique_keys fi_id (c_items d')) ∧ (slots (c_items d) → slots (c_items d')).
Proof.
  revert d. induction rows as [|r rows IH]; intros d; simpl for_each; [intros [= _ <-]; by rewrite app_nil_r|].
  intros (?&d1&H1&H2)%bind_inv. destruct (IH _ H2) as (Ei&Ej&Eb&Hu&Hs). unfold insert_item in H1.
  destruct (exists_where (same_slot r) (c_items d)) eqn:Eslot; [done|]. apply checked_insert_inv in H1 as (Hn&_&->).
  simpl in *. split_and!; [by rewrite Ei; unfold insert_row; rewrite <-app_assoc|done|done| |].
  - intros U. apply Hu. by apply unique_keys_insert.
  - intros S. apply Hs. unfold insert_row.
    rewrite exists_where_false in Eslot.
    assert (∀ i, In i (c_items d) → ¬ (fi_batchId i = fi_batchId r ∧ fi_sourcePath i = fi_sourcePath r)) as Hno.
    { intros i Hin [E1 E2]. specialize (Eslot i Hin). unfold same_slot, of_batch in Eslot.
      rewrite (bool_decide_true (fi_batchId i = _)), (bool_decide_true (fi_sourcePath i = _)), orb_true_r in Eslot by done. done. }
    intros i i' [Hi|[->|[]]]%in_app_iff [Hi'|[->|[]]]%in_app_iff E1 E2; [by apply S| | |done].
    + by destruct (Hno i Hi).
    + by destruct (Hno i' Hi').
Qed.

(** A successful creation. *)
Record created (ids : batch_ids) (input : create_batch) (now : Z) (d d' : core_db) : Prop := Created {
  cr_nonempty : cb_items input ≠ [];
  cr_free : duplicatePaths d input = [];
  cr_job_fresh : by_key jb_id (bi_job ids) (c_jobs d) = None;
  cr_jobs : c_jobs d' = insert_row (new_job ids input now) (c_jobs d);
  cr_batch_fresh : by_key fb_id (bi_batch ids) (c_batches d) = None;
  cr_batch_job_fresh : by_key fb_jobId (bi_job ids) (c_batches d) = None;
  cr_batches : c_batches d' = insert_row (new_batch ids input now) (c_batches d);
  cr_items : c_items d' = c_items d ++ new_rows ids input now;
  cr_unique : unique_keys fi_id (c_items d) → unique_keys fi_id (c_items d');
  cr_slots : slots (c_items d) → slots (c_items d') }.

Lemma getRequired_reads id d : (getRequiredFileBatch id d).2 = d.
Proof. unfold getRequiredFileBatch. rewrite bind_gets. by destruct (getFileBatch id d). Qed.

Lemma insert_notification_inv r d u d' : insert_notification r d = (inr u, d') →
  c_jobs d' = c_jobs d ∧ c_batches d' = c_batches d ∧ c_items d' = c_items d.
Proof.
  unfold insert_notification. destruct (exists_where _ _); [done|]. by intros (_&_&->)%checked_insert_inv.
Qed.

Lemma create_body_inv ids input now d d' e u :
  (dup ← gets (λ d, duplicatePaths d input);
   _ ← guard_throw (negb (bool_decide (length dup = 0%nat))) (e dup);
   _ ← insert_message (AgentMessage (bi_message ids) (cb_sessionId input) role_system (cb_summary input) now);
   _ ← insert_job (new_job ids input now);
   _ ← insert_batch (new_batch ids input now);
   _ ← for_each insert_item (new_rows ids input now);
   _ ← createOperationNotification (bi_note ids) (bi_job ids) (cb_sessionId input) note_file note_running
         (cb_summary input) now;
   modify (touch_session (cb_sessionId input) now)) d = (inr u, d') →
  cb_items input ≠ [] → created ids input now d d'.
Proof.
  intros Eb Hne. rewrite bind_gets in Eb. apply bind_inv in Eb as (?&?&[Edup ->]%guard_inv&Eb).
  apply bind_inv in Eb as (?&d1&(_&_&->)%checked_insert_inv&Eb). apply bind_inv in Eb as (?&d2&(Hjf&_&->)%checked_insert_inv&Eb).
  apply bind_inv in Eb as (?&d3&Hib&Eb). apply bind_inv in Eb as (?&d4&Hii%insert_items_inv&Eb).
  apply bind_inv in Eb as (?&x6&Hn&Eb). injection Eb as _ <-.
  unfold createOperationNotification in Hn. apply bind_inv in Hn as (?&?&Hn%insert_notification_inv&[= _ ->]).
  unfold insert_batch in Hib. destruct (exists_where _ _) eqn:Ex; [done|].
  destruct (bool_decide (fb_totalCount _ = _)); [done|]. apply checked_insert_inv in Hib as (Hbf&_&->). simpl in *.
  destruct Hii as (E1&E2&E3&Hu&Hs), Hn as (N1&N2&N3). rewrite E1 in N3. rewrite E2 in N1. rewrite E3 in N2.
  split; try done.
  - destruct (duplicatePaths d input); [done|]. by simpl in Edup.
  - apply by_key_None. intros r Hr E. rewrite exists_where_false in Ex. specialize (Ex r Hr). by rewrite bool_decide_true in Ex.
  - intros U. simpl. rewrite N3, <-E1. by apply Hu.
  - intros U. simpl. rewrite N3, <-E1. by apply Hs.
Qed.

(** A creation throws and stores nothing, or returns what it stored. *)
Lemma create_inv ids input now d :
  (∃ e, createFileBatch ids input now d = (inl e, d)) ∨
  ∃ d', createFileBatch ids input now d = (inr (mapFileBatch d' (new_batch ids input now) (new_job ids input now)), d') ∧
    created ids input now d d'.
Proof.
  unfold createFileBatch. destruct (bool_decide (length (cb_items input) = 0%nat)) eqn:Elen; [left; by eauto|].
  assert (cb_items input ≠ []) as Hne by (intros E; by rewrite E in Elen).
  erewrite bind_inr by done. set (body := gets _ ≫= _). destruct (transaction body d) as [[e|[]] d'] eqn:Et.
  - left. exists e. erewrite bind_inl by exact Et. by apply transaction_throw in Et as ->.
  - right. exists d'. erewrite bind_inr by exact Et. unfold transaction in Et. destruct (body d) as [[|u] ?] eqn:Eb; [done|].
    injection Et as _ ->. apply (create_body_inv ids input now d d' (λ dup, FileBatchConflictError (distinct dup)) u) in Eb; [|done].
    split; [|done]. apply getRequired_eq.
    + rewrite (cr_batches _ _ _ _ _ Eb), (by_key_insert fb_id), (cr_batch_fresh _ _ _ _ _ Eb). unfold has_key. by rewrite bool_decide_true.
    + unfold batch_job. rewrite (cr_jobs _ _ _ _ _ Eb), (by_key_insert jb_id). simpl.
      rewrite (cr_job_fresh _ _ _ _ _ Eb). unfold has_key. by rewrite bool_decide_true.
Qed.

Lemma new_rows_In ids input now i : In i (new_rows ids input now) →
  fi_batchId i = bi_batch ids ∧ fi_status i = item_queued ∧ ∃ x, In x (cb_items input) ∧ ni_sourcePath x = fi_sourcePath i.
Proof.
  unfold new_rows. rewrite <-list_elem_of_In. intros (n&x&->&Hx)%elem_of_lookup_imap.
  unfold new_row. destruct (bi_item ids n) as [[??]?]. simpl. split; [done|]. split; [done|]. exists x.
  split; [|done]. apply list_elem_of_In. by eapply list_elem_of_lookup_2.
Qed.

Lemma count_where_app {R} (p : R → bool) t u : count_where p (t ++ u) = (count_where p t + count_where p u)%nat.
Proof. unfold count_where, select. by rewrite List.filter_app, length_app. Qed.

Lemma count_where_all {R} (p : R → bool) t : (∀ r, In r t → p r = true) → count_where p t = length t.
Proof.
  unfold count_where, select. induction t as [|x t IH]; intros H; simpl; [done|].
  rewrite (H x (or_introl eq_refl)). simpl. f_equal. apply IH. intros r Hr. apply H. by right.
Qed.

Lemma duplicate_free d input x i : duplicatePaths d input = [] → In x (cb_items input) → ni_sourcePath x ≠ "" →
  In i (c_items d) → ¬ busy_path d (cb_rootId input) (cb_storagePoolId input) (ni_sourcePath x) i.
Proof.
  intros Hd Hx Hne Hi Hb. unfold duplicatePaths in Hd.
  set (h := λ i0, match get_row (busy_item d (cb_rootId input) (cb_storagePoolId input) (ni_sourcePath i0)) (c_items d) with
                  | Some y => if bool_decide (fi_sourcePath y = "") then None else Some (fi_sourcePath y) | None => None end) in Hd.
  assert (∃ p, h x = Some p) as [p Hp].
  { unfold h. destruct (get_row_is_Some _ _ _ Hi Hb) as [y Hy]. rewrite Hy. apply get_row_Some in Hy as [_ Hy].
    unfold busy_item in Hy. apply andb_true_iff in Hy as [Hy%bool_decide_eq_true _].
    rewrite bool_decide_false by congruence. by eauto. }
  assert (p ∈ omap h (cb_items input)) as Hin by (apply list_elem_of_omap; exists x; by rewrite list_elem_of_In).
  rewrite Hd in Hin. by apply not_elem_of_nil in Hin.
Qed.

Section Create.
Context (ids : batch_ids) (input : create_batch) (now : Z) (d d' : core_db).
Context (Hok : batches_ok d) (Hcr : created ids input now d d').

Lemma created_batch id : by_key fb_id id (c_batches d) = None →
  is_Some (by_key fb_id id (c_batches d')) → id = bi_batch ids.
Proof using Hcr.
  rewrite (cr_batches _ _ _ _ _ Hcr). intros Hn. rewrite (by_key_insert fb_id), Hn. unfold has_key.
  case_bool_decide as E; [by subst|by intros [? ?]].
Qed.

Lemma created_old_batch id b : by_key fb_id id (c_batches d) = Some b → by_key fb_id id (c_batches d') = Some b.
Proof using Hcr. intros Hb. rewrite (cr_batches _ _ _ _ _ Hcr), (by_key_insert fb_id). by rewrite Hb. Qed.

Lemma created_old_job b j : batch_job d b = Some j → batch_job d' b = Some j.
Proof using Hcr. intros Hj. unfold batch_job in *. rewrite (cr_jobs _ _ _ _ _ Hcr), (by_key_insert jb_id). by rewrite Hj. Qed.

Lemma created_item i : In i (c_items d') → (In i (c_items d) ∧ fi_batchId i ≠ bi_batch ids) ∨ In i (new_rows ids input now).
Proof using Hcr Hok.
  rewrite (cr_items _ _ _ _ _ Hcr), in_app_iff. intros [Hi|Hi]; [left|by right]. split; [done|].
  intros E. destruct (bo_refs d Hok i Hi) as [b Hb]. rewrite E, (cr_batch_fresh _ _ _ _ _ Hcr) in Hb. done.
Qed.

Lemma created_count id p : id ≠ bi_batch ids →
  count_where (λ i, of_batch id i && p i) (c_items d') = count_where (λ i, of_batch id i && p i) (c_items d).
Proof using Hcr.
  intros Hne. rewrite (cr_items _ _ _ _ _ Hcr), count_where_app, (proj2 (count_where_0 _ (new_rows _ _ _))); [lia|].
  intros i Hi. unfold of_batch. apply new_rows_In in Hi as (->&_).
  by rewrite bool_decide_false by congruence.
Qed.

Lemma created_count_new p : count_where (λ i, of_batch (bi_batch ids) i && p i) (c_items d') =
  count_where p (new_rows ids input now).
Proof using Hcr Hok.
  rewrite (cr_items _ _ _ _ _ Hcr), count_where_app, (proj2 (count_where_0 _ (c_items d))); simpl.
  - unfold count_where, select. f_equal. apply filter_ext_in. intros i Hi.
    apply new_rows_In in Hi as (Hi&_). unfold of_batch. by rewrite bool_decide_true.
  - intros i Hi. unfold of_batch. rewrite bool_decide_false; [done|]. intros E.
    destruct (bo_refs d Hok i Hi) as [b Hb]. rewrite E, (cr_batch_fresh _ _ _ _ _ Hcr) in Hb. done.
Qed.

Lemma created_busy root pool path i : In i (c_items d) → busy_path d' root pool path i → busy_path d root pool path i.
Proof using Hcr Hok.
  intros Hi. unfold busy_path, busy_item. destruct (bo_refs d Hok i Hi) as [b Hb].
  rewrite (created_old_batch _ _ Hb), Hb. apply by_key_Some in Hb as [Hinb _].
  destruct (bo_batch d Hok b Hinb) as (j&Hj&_). by rewrite (created_old_job _ _ Hj), Hj.
Qed.

Lemma length_new_rows : length (new_rows ids input now) = length (cb_items input).
Proof. apply length_imap. Qed.

Lemma create_keeps : batches_ok d'.
Proof using All.
  pose proof (created_count_new) as Hcn. pose proof length_new_rows as Hlen.
  assert (∀ s, count_items (bi_batch ids) s d' = if bool_decide (item_queued ∈ s) then length (cb_items input) else 0%nat) as Hc.
  { intros s. unfold count_items. rewrite Hcn, <-Hlen. case_bool_decide as E.
    - apply count_where_all. intros i (_&->&_)%new_rows_In. by apply bool_decide_true.
    - apply count_where_0. intros i (_&->&_)%new_rows_In. by apply bool_decide_false. }
  destruct Hcr as [Hne Hfree Hjf Hjobs Hbf Hbjf Hbs His Hu Hs]. split.
  - rewrite Hjobs. by apply (unique_keys_insert jb_id _ (c_jobs d)); [apply Hok|].
  - rewrite Hbs. by apply (unique_keys_insert fb_id _ (c_batches d)); [apply Hok|].
  - rewrite Hbs. by apply (unique_keys_insert fb_jobId _ (c_batches d)); [apply Hok|].
  - apply Hu, Hok.
  - apply Hs. intros ? ?. apply Hok.
  - intros i [[Hi _]|Hi]%created_item.
    + destruct (bo_refs d Hok i Hi) as [b Hb]. exists b. by apply created_old_batch.
    + apply new_rows_In in Hi as (->&_). rewrite Hbs, (by_key_insert fb_id), Hbf. unfold has_key. by rewrite bool_decide_true.
  - intros b. rewrite Hbs. intros [Hb| ->]%insert_row_In.
    + destruct (bo_batch d Hok b Hb) as (j&Hj&[K1 K2 [C1 C2 C3 C4 C5] K3 K4 K5 K6]). exists j.
      split; [by apply created_old_job|].
      assert (fb_id b ≠ bi_batch ids) as Hnb. { intros E. rewrite by_key_None in Hbf. by apply (Hbf b). }
      assert (∀ s, count_items (fb_id b) s d' = count_items (fb_id b) s d) as Ho by (intros s; by apply created_count).
      assert (active_count (fb_id b) d' = active_count (fb_id b) d) as Ha by apply Ho.
      split; rewrite ?Ha, ?Ho; try done. split; rewrite ?Ho; try done. rewrite C1.
      pose proof (created_count (fb_id b) (λ _, true) Hnb) as H. unfold count_where, select in *.
      rewrite (filter_ext _ (of_batch (fb_id b))) in H by (intros; by rewrite andb_true_r). rewrite H. f_equal.
      apply filter_ext. intros. by rewrite andb_true_r.
    + eexists. split; [unfold batch_job; rewrite Hjobs, (by_key_insert jb_id); simpl; rewrite Hjf; unfold has_key;
        by rewrite bool_decide_true|].
      assert (active_count (bi_batch ids) d' ≠ 0%nat) as Ha.
      { unfold active_count. rewrite Hc. simpl. by destruct (cb_items input). }
      split; simpl; try done.
      * split; simpl; rewrite ?Hc; try done. pose proof (Hcn (λ _, true)) as H. unfold count_where, select in *.
        rewrite (filter_ext _ (of_batch (bi_batch ids))) in H by (intros; by rewrite andb_true_r). rewrite H, <-Hlen.
        symmetry. by apply (count_where_all (λ _, true)).
      * by intros [|].
  - intros root pool path i i' Hp Hi Hi' Hb Hb'.
    assert (∀ x y, In x (c_items d) → In y (new_rows ids input now) → busy_path d' root pool path x →
      busy_path d' root pool path y → False) as Hmix.
    { intros x y Hx Hy Bx%(created_busy _ _ _ _ Hx) By. apply new_rows_In in Hy as (Ey&_&z&Hz&Ez).
      unfold busy_path, busy_item in By. rewrite Ey, Hbs, (by_key_insert fb_id), Hbf in By. unfold has_key in By.
      simpl in By. rewrite (bool_decide_true (bi_batch ids = bi_batch ids)) in By by done. simpl in By.
      rewrite !andb_true_iff, !bool_decide_eq_true in By. destruct By as (Ep&(Er&Eo)&_).
      apply (duplicate_free d input z x Hfree Hz); [congruence|done|]. by rewrite Er, Eo, Ez, Ep. }
    destruct (created_item i Hi) as [[H1 _]|H1], (created_item i' Hi') as [[H2 _]|H2].
    + by apply (bo_exclusive d Hok root pool path); try done; apply created_busy.
    + by destruct (Hmix i i').
    + by destruct (Hmix i' i).
    + apply Hs; try done; [intros ? ?; apply Hok| |].
      * apply new_rows_In in H1 as (->&_). by apply new_rows_In in H2 as (->&_).
      * unfold busy_path, busy_item in Hb, Hb'. apply andb_true_iff in Hb as [Hb%bool_decide_eq_true _].
        apply andb_true_iff in Hb' as [Hb'%bool_decide_eq_true _]. congruence.
Qed.
End Create.

Lemma batch_create_ok ids input now d : batches_ok d → batches_ok (createFileBatch ids input now d).2.
Proof.
  intros Hok. destruct (create_inv ids input now d) as [[e ->]|(d'&->&H)]; [done|]. by eapply create_keeps.
Qed.

(** ** Any sequence of operations

    Between two operations on batches the rest of the program may do what it
    likes to the database, as long as it leaves the batches, their items and
    their jobs alone. *)
Inductive batch_step (d : core_db) : core_db → Prop :=
| step_create ids input now : batch_step d (createFileBatch ids input now d).2
| step_claim now : batch_step d (claimNextFileBatchItem now d).2
| step_finish itemId result error now : batch_step d (finishFileBatchItem itemId result error now d).2
| step_recover now : batch_step d (recoverInterruptedFileBatches now d).2
| step_cancel jobId now : batch_step d (cancelFileBatch jobId now d)
| step_other d' : c_batches d' = c_batches d → c_items d' = c_items d → unique_keys jb_id (c_jobs d') →
    (∀ b, In b (c_batches d) → batch_job d' b = batch_job d b) → batch_step d d'.

Lemma other_ok d d' : c_batches d' = c_batches d → c_items d' = c_items d → unique_keys jb_id (c_jobs d') →
  (∀ b, In b (c_batches d) → batch_job d' b = batch_job d b) → batches_ok d → batches_ok d'.
Proof.
  intros Eb Ei Hu Hj [U1 U2 U3 U4 U5 U6 U7 U8].
  assert (∀ root pool path i, In i (c_items d) → busy_path d' root pool path i → busy_path d root pool path i) as Hp.
  { intros root pool path i Hi. unfold busy_path, busy_item. rewrite Eb. destruct (by_key fb_id _ _) as [b|] eqn:E; [|done].
    apply by_key_Some in E as [Hb _]. by rewrite (Hj b Hb). }
  split; rewrite ?Eb, ?Ei; try done.
  - intros b Hb. destruct (U7 b Hb) as (j&Hbj&[K1 K2 [C1 C2 C3 C4 C5] K3 K4 K5 K6]). exists j. rewrite (Hj b Hb). split; [done|].
    assert (∀ id s, count_items id s d' = count_items id s d) as Hc by (intros; unfold count_items; by rewrite Ei).
    split; unfold active_count in *; rewrite ?Hc; try done. split; rewrite ?Hc, ?Ei; done.
  - intros root pool path i i' Hne H H' P P'. apply (U8 root pool path); try done; by apply Hp.
Qed.

Lemma step_ok d d' : batch_step d d' → batches_ok d → batches_ok d'.
Proof.
  intros [ids input now|now|itemId result error now|now|jobId now|d'' E1 E2 E3 E4] Hok;
    [by apply batch_create_ok|by apply batch_claim_ok|by apply finish_ok|by apply batch_recover_ok|by apply cancel_ok|by eapply other_ok].
Qed.

(** C6: The batch tables stay consistent.  Through any sequence of creations,
    claims, completions, cancellations, restarts and foreign writes, ids are
    unique, every item belongs to a batch and every batch to a file batch job;
    a batch's counters are those of its items; it is finished exactly when no
    item is queued or running, a queued or running job has such an item and a
    completed or failed one has none; and no path is at once in two batches
    of a root and pool whose jobs are queued or running. *)
Theorem file_batches_wf roots d : rtc batch_step (empty_core roots) d → batches_ok d.
Proof.
  assert (∀ d0, rtc batch_step d0 d → batches_ok d0 → batches_ok d) as H.
  { intros d0 Hs. induction Hs as [|x y z Hxy _ IH]; [done|]. intros Hx. by apply IH, (step_ok x). }
  intros Hs. apply (H _ Hs). split; try constructor; done.
Qed.

(** C39: Finishing an item.  The claimed item gets its result; the batch is
    ended exactly when it was the last queued or running one, and its job is
    then cancelled if it had been cancelled, failed if an item failed, and
    completed otherwise; a cancelled job keeps no queued item; and the
    counters returned are those of the items. *)
Theorem finishFileBatchItem_spec itemId result error now d item :
  batches_ok d → by_key fi_id itemId (c_items d) = Some item → fi_status item = item_running →
  ∃ r fs d' j, finishFileBatchItem itemId result error now d = (inr (r, fs), d') ∧ job_of_item d item = Some j ∧
    by_key fi_id itemId (c_items d') = Some (finish_item result error now item) ∧
    counts_ok d' (br_row r) ∧ fb_id (br_row r) = fi_batchId item ∧
    (jb_status j = job_cancelled → count_items (fi_batchId item) [item_queued] d' = 0%nat) ∧
    match fs with
    | None => active_count (fi_batchId item) d' ≠ 0%nat ∧ batch_job d' (br_row r) = Some j
    | Some s => active_count (fi_batchId item) d' = 0%nat ∧ fb_finishedAt (br_row r) = Some now ∧
        (∃ e, batch_job d' (br_row r) = Some (set_job_status s e now j)) ∧
        (s = job_cancelled ↔ jb_status j = job_cancelled) ∧
        (s = job_failed ↔ jb_status j ≠ job_cancelled ∧ count_items (fi_batchId item) [item_failed] d' ≠ 0%nat) ∧
        (s = job_completed ↔ jb_status j ≠ job_cancelled ∧ count_items (fi_batchId item) [item_failed] d' = 0%nat)
    end.
Proof.
  intros Hok Hitem Hrun. destruct (finish_eq itemId result error now d item Hok Hitem) as (b&j&r&d'&Hb&Hj&H). cbv zeta in H.
  pose proof Hb as [Hinb Hidb]%by_key_Some. rewrite Hidb in H.
  set (c := bool_decide (jb_status j = job_cancelled)) in *. set (f := finish_f result error now item c) in *.
  set (d2 := d <| c_items := f <$> c_items d |>) in *. set (id := fi_batchId item) in *.
  destruct H as (E&Hr&Hi&Hjobs&Hbs&_).
  assert (∀ s, count_items id s d' = count_items id s d2) as Hc by (intros s; unfold count_items; by rewrite Hi).
  assert (active_count id d' = active_count id d2) as Ha by apply Hc. rewrite <-Ha in *.
  eexists r, _, d', j. split; [exact E|].
  assert (fb_id (br_row r) = id ∧ fb_jobId (br_row r) = fb_jobId b) as [Er Erj].
  { rewrite Hr. unfold finish_h. destruct (has_key fb_id id b); [|done]. by destruct (bool_decide (active_count id d' = 0%nat)). }
  split; [unfold job_of_item; fold id; rewrite Hb; exact Hj|]. split.
  { rewrite Hi. simpl. assert (∀ i, fi_id (f i) = fi_id i) as Hfid by (intros i; apply finish_f_settles).
    rewrite (by_key_fmap fi_id) by done. rewrite Hitem. simpl. f_equal. unfold f, finish_f, has_key, item_is.
    rewrite (bool_decide_true (fi_id item = fi_id item)), (bool_decide_true (fi_status item = item_running)) by done. simpl.
    unfold queued_in, item_is. simpl. destruct c, result; simpl; by rewrite ?andb_false_r. }
  assert (batches_ok d') as Hok' by (pose proof (finish_ok itemId result error now d Hok) as H; by rewrite E in H).
  assert (In (br_row r) (c_batches d')) as Hinr.
  { rewrite Hbs, Hr, <-!list_elem_of_In. apply list_elem_of_fmap. exists b. by rewrite list_elem_of_In. }
  destruct (bo_batch d' Hok' _ Hinr) as (j'&Hj'&Hbk). split; [apply Hbk|]. split; [done|]. split.
  { intros Hcan. rewrite Hc. unfold count_items. apply count_where_0. intros i. simpl.
    rewrite <-list_elem_of_In, list_elem_of_fmap. intros (i0&->&_). unfold f, finish_f.
    assert (c = true) as -> by (by apply bool_decide_true). cbv zeta. simpl andb. set (i1 := if has_key fi_id (fi_id item) i0 && _ then _ else i0).
    unfold queued_in, item_is. fold id. unfold of_batch. destruct (bool_decide (fi_batchId i1 = id)) eqn:Eb; simpl; [|by rewrite Eb].
    destruct (bool_decide (fi_status i1 = item_queued)) eqn:Eq; simpl; [by rewrite andb_false_r|].
    rewrite Eb. simpl. apply bool_decide_eq_false in Eq. by destruct (fi_status i1). }
  unfold batch_job in *. rewrite Erj in Hj' |- *.
  assert (jb_id j = fb_jobId b) as Hjid by (by apply by_key_Some in Hj as [_ ?]).
  rewrite Hjobs in Hj' |- *.
  set (s := final_status (jb_status j) (refresh_row id now d2 b)) in *.
  set (e := final_error s (refresh_row id now d2 b)) in *.
  assert (∀ x j0, jb_id (finish_g x (fb_jobId b) s e now j0) = jb_id j0) as Hgid by (intros; unfold finish_g; by destruct (_ && _)).
  rewrite (by_key_fmap jb_id) in Hj' |- * by (intros; apply Hgid). rewrite Hj. simpl. unfold finish_g.
  unfold has_key. rewrite (bool_decide_true (jb_id j = _)), andb_true_r by done.
  destruct (bool_decide (active_count id d' = 0%nat)) eqn:Hend.
  - apply bool_decide_eq_true in Hend. split; [done|]. split.
    { rewrite Hr. unfold finish_h, has_key. by rewrite bool_decide_true. }
    split; [by eauto|]. rewrite Hc. change (count_items id [item_failed] d2) with (fb_failedCount (refresh_row id now d2 b)).
    unfold s, final_status. set (n := fb_failedCount _). clearbody n.
    destruct (decide (jb_status j = job_cancelled)) as [Ej|Ej]; [rewrite bool_decide_true by done|rewrite bool_decide_false by done;
      destruct (decide (n = 0%nat)) as [->|Hn]; [rewrite bool_decide_false by lia|rewrite bool_decide_true by lia]];
      split_and!; split; try done; try tauto; try lia.
  - apply bool_decide_eq_false in Hend. done.
Qed.

Lemma duplicatePaths_elem d input p : p ∈ duplicatePaths d input ↔
  p ≠ "" ∧ (∃ x, In x (cb_items input) ∧ ni_sourcePath x = p) ∧
  ∃ i, In i (c_items d) ∧ busy_path d (cb_rootId input) (cb_storagePoolId input) p i.
Proof.
  unfold duplicatePaths. rewrite list_elem_of_omap. split.
  - intros (x&Hx&H). destruct (get_row _ _) as [y|] eqn:Ey; [|done]. case_bool_decide as Ee; [done|]. injection H as <-.
    apply get_row_Some in Ey as [Hy Hb]. pose proof Hb as Hb'. unfold busy_item in Hb'.
    apply andb_true_iff in Hb' as [E%bool_decide_eq_true _]. rewrite <-E in Hb.
    split; [done|]. split; [exists x; by rewrite <-list_elem_of_In|]. by exists y.
  - intros (Hne&(x&Hx&<-)&i&Hi&Hb). exists x. split; [by apply list_elem_of_In|].
    destruct (get_row_is_Some _ _ _ Hi Hb) as [y Hy]. rewrite Hy. apply get_row_Some in Hy as [_ Hy].
    unfold busy_item in Hy. apply andb_true_iff in Hy as [E%bool_decide_eq_true _]. by rewrite E, bool_decide_false.
Qed.

(** Creating a batch is all or nothing and never doubles work.  It
    succeeds only when no requested path is already in a batch of that root
    and pool whose job is queued or running; the stored batch is queued, with
    one queued item for each requested path in order.  Otherwise nothing is
    stored, and when paths are busy the error names exactly those. *)
Theorem createFileBatch_spec ids input now d :
  let busy p := p ≠ "" ∧ (∃ x, In x (cb_items input) ∧ ni_sourcePath x = p) ∧
    ∃ i, In i (c_items d) ∧ busy_path d (cb_rootId input) (cb_storagePoolId input) p i in
  match createFileBatch ids input now d with
  | (inr r, d') => (∀ p, ¬ busy p) ∧ cb_items input ≠ [] ∧ c_items d' = c_items d ++ new_rows ids input now ∧
      br_status r = job_queued ∧ fb_id (br_row r) = bi_batch ids ∧ fb_totalCount (br_row r) = length (cb_items input)
  | (inl e, d') => d' = d ∧ (cb_items input ≠ [] → (∃ p, busy p) →
      ∃ ps, e = FileBatchConflictError ps ∧ ∀ p, p ∈ ps ↔ busy p)
  end.
Proof.
  intros busy. pose proof (duplicatePaths_elem d input) as Hdup. fold busy in Hdup.
  assert (cb_items input ≠ [] → (∃ p, busy p) → createFileBatch ids input now d =
    (inl (FileBatchConflictError (distinct (duplicatePaths d input))), d)) as Hconf.
  { intros Hne [p Hp%Hdup]. unfold createFileBatch. rewrite bool_decide_false by (by destruct (cb_items input)).
    erewrite bind_inr by done. erewrite bind_inl; [done|]. unfold transaction. rewrite bind_gets.
    rewrite bool_decide_false; [done|]. destruct (duplicatePaths d input); [by apply not_elem_of_nil in Hp|done]. }
  destruct (create_inv ids input now d) as [[e E]|(d'&E&[Hne Hfree _ _ _ _ _ His _ _])]; rewrite E.
  - split; [done|]. intros Hne Hb. rewrite (Hconf Hne Hb) in E. injection E as <-. eexists. split; [done|].
    intros p. by rewrite distinct_elem_of.
  - split; [|done]. intros p Hp%Hdup. rewrite Hfree in Hp. by apply not_elem_of_nil in Hp.
Qed.

(** ** A batch of two files *)
Definition demo_ids (n : string) : batch_ids :=
  BatchIds (n +:+ "m") (n +:+ "j") (n +:+ "b") (λ i, (n +:+ "i" +:+ pretty i, n +:+ "t" +:+ pretty i, n +:+ "o" +:+ pretty i)) (n +:+ "n").
Definition demo_batch : create_batch :=
  CreateBatch "s" "r" "p" batch_trash None "trash" [NewItem "a" None None; NewItem "b" None None].
Definition demo_sessions : core_db := empty_core ["r"] <| c_sessions := [AgentSession "s" "r" "." 0 0] |>.
Definition demo_created : core_db := (createFileBatch (demo_ids "1") demo_batch 1 demo_sessions).2.
Definition demo_claimed : core_db := (claimNextFileBatchItem 2 demo_created).2.

Lemma demo_steps : rtc batch_step (empty_core ["r"]) demo_claimed.
Proof.
  eapply rtc_l; [apply (step_other _ demo_sessions); [done|done|constructor|done]|].
  eapply rtc_l; [apply (step_create _ (demo_ids "1") demo_batch 1)|]. fold demo_created.
  eapply rtc_l; [apply (step_claim _ 2)|]. apply rtc_refl.
Qed.

Lemma file_batches_wf_witness : batches_ok demo_claimed.
Proof. refine (file_batches_wf ["r"] demo_claimed _). apply demo_steps. Defined.

Lemma demo_claimed_ok : batches_ok demo_claimed.
Proof.
  apply (step_ok demo_created); [apply (step_claim _ 2)|].
  apply (step_ok demo_sessions); [apply (step_create _ (demo_ids "1") demo_batch 1)|].
  split; try constructor; done.
Qed.

Definition demo_item : FileBatchItemRecord := Eval vm_compute in
  FileBatchItem "1i0" "1b" 0 "a" None (Some "1t0") "1o0" item_running None 1 2.

Lemma finishFileBatchItem_spec_witness :
  ∃ r d', finishFileBatchItem "1i0" result_failed (Some "no") 3 demo_claimed = (inr (r, None), d') ∧ counts_ok d' (br_row r).
Proof.
  destruct (finishFileBatchItem_spec "1i0" result_failed (Some "no") 3 demo_claimed demo_item demo_claimed_ok)
    as (r&fs&d'&j&E&_&_&Hc&_&_&Hfs); [by vm_compute|done|].
  destruct fs as [s|]; [exfalso|by exists r, d'].
  assert (option_map fst (match (finishFileBatchItem "1i0" result_failed (Some "no") 3 demo_claimed).1 with
    | inr (_, fs) => Some (fs, tt) | inl _ => None end) = Some None) as Hn by (by vm_compute).
  rewrite E in Hn. done.
Defined.

(** A restart requeues the running items of running batches only: the running
    item of a cancelled batch stays running, and its batch unfinished. *)
Lemma recover_leaves_cancelled now d i j : In i (c_items d) → fi_status i = item_running →
  job_of_item d i = Some j → jb_status j = job_cancelled →
  In i (c_items (recoverInterruptedFileBatches now d).2).
Proof.
  intros Hi Hs Hj Hc. simpl. apply update_where_In. exists i. split; [done|].
  unfold interrupted_item. rewrite Hj. unfold running_batch_job. rewrite Hc.
  by rewrite (bool_decide_false (job_cancelled = job_running)), !andb_false_r.
Qed.
