(* ===== verification/FileSystem.v ===== *)
(** * A POSIX file system

    What the calls of node:fs the program makes do, on a tree of directories,
    files and symbolic links.  An entry is known by the names on the way from
    the root directory; the map holds every entry, directories included.
    Permissions, times and hard links are left out.  A call may fail for
    reasons of its own: [dk_faults] says which of the next calls do, and with
    what error. *)
From S2P Require Import Prelude JsString.

Inductive node := Dir | File (data : string) | Link (target : string).
#[global] Instance node_eq_dec : EqDecision node. Proof. solve_decision. Defined.
Notation fs := (gmap (list string) node).

(** The rest of [p] below the directory [d]. *)
Fixpoint strip (d p : list string) : option (list string) :=
  match d, p with
  | [], _ => Some p
  | x :: d, y :: p => if bool_decide (x = y) then strip d p else None
  | _ :: _, [] => None
  end.
Definition under (d p : list string) : Prop := ∃ r, p = d ++ r.

Lemma strip_Some d p r : strip d p = Some r ↔ p = d ++ r.
Proof.
  revert p. induction d as [|x d IH]; intros p; simpl; [naive_solver|]. destruct p as [|y p]; [naive_solver|].
  case_bool_decide as E; [subst|naive_solver]. rewrite IH. naive_solver.
Qed.

Lemma strip_None d p : strip d p = None ↔ ¬ under d p.
Proof.
  split; [intros E (r & Hr%strip_Some); congruence|]. intros H.
  destruct (strip d p) as [r|] eqn:E; [|done]. exfalso. apply H. exists r. by apply strip_Some.
Qed.

Lemma strip_app d r : strip d (d ++ r) = Some r.
Proof. by apply strip_Some. Qed.

#[global] Instance under_dec d p : Decision (under d p).
Proof. destruct (strip d p) as [r|] eqn:E; [left; exists r; by apply strip_Some|right; by apply strip_None]. Defined.

(** ** Trees *)
(** What lies at and below [d], relative to it; and putting a tree there. *)
Definition subtree (d : list string) (m : fs) : fs :=
  list_to_map (omap (λ '(p, n), (λ r, (r, n)) <$> strip d p) (map_to_list m)).
Definition graft (d : list string) (t m : fs) : fs :=
  kmap (d ++.) t ∪ filter (λ '(p, _), ¬ under d p) m.
Definition prune (d : list string) (m : fs) : fs := graft d ∅ m.

Lemma strip_entries d (l : list (list string * node)) r n :
  (r, n) ∈ omap (λ '(p, n), (λ r, (r, n)) <$> strip d p) l ↔ (d ++ r, n) ∈ l.
Proof.
  rewrite list_elem_of_omap. split.
  - intros ([p n'] & Hp & H). destruct (strip d p) as [r2|] eqn:E; [|done].
    simpl in H. injection H as -> ->. by apply strip_Some in E as ->.
  - intros H. exists (d ++ r, n). split; [done|by rewrite strip_app].
Qed.

Lemma strip_NoDup d (l : list (list string * node)) : NoDup l.*1 →
  NoDup (omap (λ '(p, n), (λ r, (r, n)) <$> strip d p) l).*1.
Proof.
  induction l as [|[p n] l IH]; intros H; [constructor|]. apply NoDup_cons in H as [Hp H].
  specialize (IH H). cbn [omap list_omap]. destruct (strip d p) as [r'|] eqn:E; [|done].
  apply NoDup_cons. split; [|done]. intros Hin. apply list_elem_of_fmap in Hin as ([r2 n2]&Er&Hin).
  cbn [fst] in Er. subst r2. apply strip_entries in Hin. apply strip_Some in E as ->. apply Hp.
  apply list_elem_of_fmap. by exists (d ++ r', n2).
Qed.

Lemma subtree_lookup d m r : subtree d m !! r = m !! (d ++ r).
Proof.
  unfold subtree. set (l := omap _ _).
  assert (∀ r n, (r, n) ∈ l ↔ m !! (d ++ r) = Some n) as Hl.
  { intros r' n. unfold l. by rewrite strip_entries, elem_of_map_to_list. }
  assert (NoDup l.*1) as Hnd by apply strip_NoDup, NoDup_fst_map_to_list.
  destruct (m !! (d ++ r)) as [n|] eqn:E.
  - apply elem_of_list_to_map; [done|]. by apply Hl.
  - apply not_elem_of_list_to_map. intros Hin. apply list_elem_of_fmap in Hin as ([r2 n2]&Er&Hin). cbn [fst] in Er.
    subst r2. apply Hl in Hin. congruence.
Qed.

Lemma graft_lookup d t m p : graft d t m !! p = match strip d p with Some r => t !! r | None => m !! p end.
Proof.
  unfold graft. destruct (strip d p) as [r|] eqn:E.
  - apply strip_Some in E as ->. destruct (t !! r) as [n|] eqn:Et.
    + apply lookup_union_Some_l. by rewrite (lookup_kmap (app d)).
    + apply lookup_union_None. split; [by rewrite (lookup_kmap (app d))|]. apply map_lookup_filter_None. right.
      intros n _ H. apply H. by exists r.
  - rewrite lookup_union_r.
    + apply strip_None in E. destruct (m !! p) as [n|] eqn:Em.
      * by apply map_lookup_filter_Some.
      * apply map_lookup_filter_None. by left.
    + apply lookup_kmap_None; [apply _|]. intros r ->. by rewrite strip_app in E.
Qed.

Lemma prune_lookup d m p : prune d m !! p = if strip d p then None else m !! p.
Proof. unfold prune. rewrite graft_lookup. destruct (strip d p); [apply lookup_empty|done]. Qed.

(** ** Looking up a path *)
(** Linux gives up after this many links. *)
Definition MAX_LINKS : nat := 40.
(** From the directory [cur], every link on the way followed. *)
Fixpoint walk (links : nat) (m : fs) : list string → list string → exn + list string :=
  fix go (cur segs : list string) : exn + list string :=
    match segs with
    | [] => inr cur
    | x :: segs =>
        match m !! cur with
        | Some Dir =>
            if bool_decide (x = "" ∨ x = ".") then go cur segs
            else if bool_decide (x = "..") then go (removelast cur) segs
            else match m !! (cur ++ [x]) with
                 | None => inl (ErrnoException "ENOENT")
                 | Some (Link t) =>
                     match links with
                     | O => inl (ErrnoException "ELOOP")
                     | S links => walk links m (if isAbsolute t then [] else cur) (segments t ++ segs)
                     end
                 | Some _ => go (cur ++ [x]) segs
                 end
        | _ => inl (ErrnoException "ENOTDIR")
        end
    end.
Definition follow (m : fs) (p : string) : exn + list string := walk MAX_LINKS m [] (segments p).
(** The place of an entry, the last name not followed: for the calls that act
    on the entry itself.  The paths given to them are normalised. *)
Definition locate (m : fs) (p : string) : exn + list string :=
  match reverse (List.filter (λ x, negb (bool_decide (x = "" ∨ x = "."))) (segments p)) with
  | [] => inr []
  | x :: rev =>
      match walk MAX_LINKS m [] (reverse rev) with
      | inl e => inl e
      | inr d => match m !! d with Some Dir => inr (d ++ [x]) | _ => inl (ErrnoException "ENOTDIR") end
      end
  end.

(** ** The calls *)
Record disk := Disk { dk_fs : fs; dk_faults : list (option exn) }.
Definition call {A} (m : fs → (exn + A) * fs) : prog disk A := λ s,
  match dk_faults s with
  | Some e :: faults => (inl e, Disk (dk_fs s) faults)
  | None :: faults => let '(r, f) := m (dk_fs s) in (r, Disk f faults)
  | [] => let '(r, f) := m (dk_fs s) in (r, Disk f [])
  end.
(** A call that only looks. *)
Definition query {A} (q : fs → exn + A) : prog disk A := call (λ f, (q f, f)).

Definition realpath (p : string) : prog disk string := query (λ f,
  match follow f p with inl e => inl e | inr q => inr (rooted q) end).
Definition stat (p : string) : prog disk node := query (λ f,
  match follow f p with
  | inl e => inl e
  | inr q => match f !! q with Some n => inr n | None => inl (ErrnoException "ENOENT") end
  end).
Definition lstat (p : string) : prog disk node := query (λ f,
  match locate f p with
  | inl e => inl e
  | inr q => match f !! q with Some n => inr n | None => inl (ErrnoException "ENOENT") end
  end).

Definition is_dir (n : node) : bool := match n with Dir => true | _ => false end.
Definition is_file (n : node) : bool := match n with File _ => true | _ => false end.
Definition is_link (n : node) : bool := match n with Link _ => true | _ => false end.

(** [mkdir(p)]. *)
Definition mkdir (p : string) : prog disk unit := call (λ f,
  match locate f p with
  | inl e => (inl e, f)
  | inr q => match f !! q with
             | Some _ => (inl (ErrnoException "EEXIST"), f)
             | None => (inr tt, <[q := Dir]> f)
             end
  end).
(** [mkdir(p, { recursive: true })]: what is missing is made, level by level. *)
Fixpoint make_dirs (cur segs : list string) (f : fs) : (exn + unit) * fs :=
  match segs with
  | [] => (inr tt, f)
  | x :: segs =>
      if bool_decide (x = "" ∨ x = ".") then make_dirs cur segs f else
      match f !! (cur ++ [x]) with
      | None => make_dirs (cur ++ [x]) segs (<[cur ++ [x] := Dir]> f)
      | Some _ =>
          match walk MAX_LINKS f cur [x] with
          | inl e => (inl e, f)
          | inr q => match f !! q with
                     | Some Dir => make_dirs q segs f
                     | _ => (inl (ErrnoException (if bool_decide (segs = []) then "EEXIST" else "ENOTDIR")), f)
                     end
          end
      end
  end.
Definition mkdir_recursive (p : string) : prog disk unit := call (make_dirs [] (segments p)).

(** Does a directory hold anything? *)
Definition has_children (d : list string) (f : fs) : bool :=
  negb (bool_decide (filter (λ '(p, _), under d p ∧ p ≠ d) f = ∅)).
(** [rename(old, new)]: a file replaces a file or link, a directory an empty
    directory. *)
Definition rename (old new : string) : prog disk unit := call (λ f,
  match locate f old, locate f new with
  | inl e, _ | _, inl e => (inl e, f)
  | inr a, inr b =>
      match f !! a with
      | None => (inl (ErrnoException "ENOENT"), f)
      | Some n =>
          if bool_decide (a = b) then (inr tt, f)
          else if bool_decide (under a b) then (inl (ErrnoException "EINVAL"), f)
          else
            let moved := graft b (subtree a f) (prune a f) in
            match f !! b with
            | None => (inr tt, moved)
            | Some Dir => if negb (is_dir n) then (inl (ErrnoException "EISDIR"), f)
                          else if has_children b f then (inl (ErrnoException "ENOTEMPTY"), f) else (inr tt, moved)
            | Some _ => if is_dir n then (inl (ErrnoException "ENOTDIR"), f) else (inr tt, moved)
            end
      end
  end).
(** [cp(old, new, { recursive: true, errorOnExist: true, force: false })] where
    nothing is; the target of a relative link is made absolute. *)
Definition copied (dir : list string) (n : node) : node :=
  match n with Link t => Link (resolve (rooted dir) [t]) | n => n end.
Definition cp (old new : string) : prog disk unit := call (λ f,
  match locate f old, locate f new with
  | inl e, _ | _, inl e => (inl e, f)
  | inr a, inr b =>
      match f !! a, f !! b with
      | None, _ => (inl (ErrnoException "ENOENT"), f)
      | _, Some _ => (inl (ErrnoException "ERR_FS_CP_EEXIST"), f)
      | Some _, None =>
          if bool_decide (under a b) then (inl (ErrnoException "ERR_FS_CP_EINVAL"), f)
          else (inr tt, graft b (map_imap (λ r n, Some (copied (removelast (a ++ r)) n)) (subtree a f)) f)
      end
  end).
(** [rm(p, { recursive: true, force })]. *)
Definition rm (p : string) (force : bool) : prog disk unit := call (λ f,
  match locate f p with
  | inl e => (if force && bool_decide (exn_code e = Some "ENOENT") then inr tt else inl e, f)
  | inr q => match f !! q with
             | Some _ => (inr tt, prune q f)
             | None => (if force then inr tt else inl (ErrnoException "ENOENT"), f)
             end
  end).

(** [rm(p, { force })], not recursive. *)
Definition rm_file (p : string) (force : bool) : prog disk unit := call (λ f,
  match locate f p with
  | inl e => (if force && bool_decide (exn_code e = Some "ENOENT") then inr tt else inl e, f)
  | inr q => match f !! q with
             | Some Dir => (inl (ErrnoException "ERR_FS_EISDIR"), f)
             | Some _ => (inr tt, delete q f)
             | None => (if force then inr tt else inl (ErrnoException "ENOENT"), f)
             end
  end).
(** [open(p, "wx")]: a new file; a link is an entry too. *)
Definition open_new (p : string) : prog disk unit := call (λ f,
  match locate f p with
  | inl e => (inl e, f)
  | inr q => match f !! q with
             | Some _ => (inl (ErrnoException "EEXIST"), f)
             | None => (inr tt, <[q := File ""]> f)
             end
  end).
(** A write at the end of the file that [open_new] made. *)
Definition append (p data : string) : prog disk unit := call (λ f,
  match locate f p with
  | inl e => (inl e, f)
  | inr q => match f !! q with
             | Some (File old) => (inr tt, <[q := File (old +:+ data)]> f)
             | _ => (inl (ErrnoException "EBADF"), f)
             end
  end).
(** The names in a directory, in the order of the map. *)
Definition children (d : list string) (f : fs) : list string :=
  omap (λ '(p, _), match strip d p with Some [x] => Some x | _ => None end) (map_to_list f).
Definition readdir (p : string) : prog disk (list string) := query (λ f,
  match follow f p with
  | inl e => inl e
  | inr q => match f !! q with
             | Some Dir => inr (children q f)
             | Some _ => inl (ErrnoException "ENOTDIR")
             | None => inl (ErrnoException "ENOENT")
             end
  end).

(** ** Well-formed trees *)
Record wf (f : fs) : Prop := {
  wf_root : f !! [] = Some Dir;
  wf_parent p x n : f !! (p ++ [x]) = Some n → f !! p = Some Dir;
  wf_plain p n : f !! p = Some n → Forall plain_name p }.

(** Entry by entry. *)
Lemma wf_check f : f !! [] = Some Dir → map_Forall (λ p _, f !! removelast p = Some Dir ∧ Forall plain_name p) f → wf f.
Proof.
  intros Hr H. split; [done| |].
  - intros p x n Hn. apply H in Hn as [Hn _]. by rewrite removelast_last in Hn.
  - intros p n Hn. by apply H in Hn as [_ Hn].
Qed.

Lemma wf_above f p r n : wf f → f !! (p ++ r) = Some n → r ≠ [] → f !! p = Some Dir.
Proof.
  intros Hwf. revert n. induction r as [|x r IH] using rev_ind; intros n H Hr; [done|].
  rewrite app_assoc in H. apply wf_parent in H; [|done]. destruct r as [|y r]; [by rewrite app_nil_r in H|].
  by apply (IH Dir).
Qed.

Lemma wf_missing f p r : wf f → f !! p = None → f !! (p ++ r) = None.
Proof.
  intros Hwf H. destruct r as [|x r]; [by rewrite app_nil_r|]. destruct (f !! (p ++ x :: r)) as [n|] eqn:E; [|done].
  apply wf_above in E; [congruence|done|done].
Qed.

(** A place that holds no link is found under its own name. *)
Lemma walk_real l f cur r n : wf f → f !! (cur ++ r) = Some n → is_link n = false → walk l f cur r = inr (cur ++ r).
Proof.
  intros Hwf. revert cur. induction r as [|x r IH]; intros cur H Hn.
  - rewrite app_nil_r. by destruct l.
  - assert (f !! cur = Some Dir) as Hcur by (by eapply (wf_above f cur (x :: r) n)).
    pose proof (wf_plain f Hwf _ _ H) as Hp. apply Forall_app in Hp as [_ Hp]. apply Forall_cons in Hp as [(H1&H2&H3&_) _].
    assert (∃ n', f !! (cur ++ [x]) = Some n' ∧ is_link n' = false) as (n'&Hx&Hl').
    { replace (cur ++ x :: r) with ((cur ++ [x]) ++ r) in H by (by rewrite <-app_assoc). destruct r as [|y r].
      - rewrite app_nil_r in H. eauto.
      - exists Dir. split; [|done]. by apply (wf_above f (cur ++ [x]) (y :: r) n). }
    replace (cur ++ x :: r) with ((cur ++ [x]) ++ r) in * by (by rewrite <-app_assoc).
    rewrite <-(IH (cur ++ [x])) by done.
    destruct l; cbn [walk]; rewrite Hcur, bool_decide_false by naive_solver; rewrite bool_decide_false by done; rewrite Hx;
      destruct n'; done.
Qed.

Lemma walk_cons l f cur x segs : walk l f cur (x :: segs) =
  match f !! cur with
  | Some Dir =>
      if bool_decide (x = "" ∨ x = ".") then walk l f cur segs
      else if bool_decide (x = "..") then walk l f (removelast cur) segs
      else match f !! (cur ++ [x]) with
           | None => inl (ErrnoException "ENOENT")
           | Some (Link t) =>
               match l with
               | O => inl (ErrnoException "ELOOP")
               | S l => walk l f (if isAbsolute t then [] else cur) (segments t ++ segs)
               end
           | Some _ => walk l f (cur ++ [x]) segs
           end
  | _ => inl (ErrnoException "ENOTDIR")
  end.
Proof. by destruct l. Qed.

(** What a walk ends at exists and is no link. *)
Lemma walk_found l f cur segs q : wf f → (∃ n, f !! cur = Some n ∧ is_link n = false) →
  walk l f cur segs = inr q → ∃ n, f !! q = Some n ∧ is_link n = false.
Proof.
  intros Hwf. revert cur segs. induction l as [|l IHl]; intros cur segs; revert cur;
    (induction segs as [|x segs IH]; intros cur Hcur; [by intros [= <-]|]); rewrite walk_cons;
    (destruct (f !! cur) as [[]|] eqn:Ec; [|done|done|done]);
    (destruct (bool_decide (x = "" ∨ x = ".")); [apply IH; by eauto|]); (destruct (bool_decide (x = "..")); [apply IH|]).
  1, 3: exists Dir; split; [|done]; destruct cur as [|y cur _] using rev_ind; [done|];
    rewrite removelast_last; by eapply wf_parent.
  all: destruct (f !! (cur ++ [x])) as [[]|] eqn:Ey; try done; try (apply IH; by eauto).
  apply IHl. destruct (isAbsolute _); [exists Dir; split; [by apply wf_root|done]|by eauto].
Qed.

Lemma segments_rooted_filter p : Forall plain_name p →
  List.filter (λ x, negb (bool_decide (x = "" ∨ x = "."))) (segments (rooted p)) = p.
Proof.
  intros Hp. destruct p as [|x p]; [done|]. rewrite segments_rooted by done. simpl.
  assert (∀ l, Forall plain_name l → List.filter (λ x, negb (bool_decide (x = "" ∨ x = "."))) l = l) as H; [|by apply (H (x :: p))].
  clear. induction 1 as [|x l (H1&H2&_) Hl IH]; simpl; [done|]. rewrite bool_decide_false by naive_solver. simpl. by rewrite IH.
Qed.

Lemma follow_real f p n : wf f → f !! p = Some n → is_link n = false → follow f (rooted p) = inr p.
Proof.
  intros Hwf H Hn. unfold follow. destruct p as [|x p].
  - change (segments (rooted [])) with ([""; ""] : list string). unfold MAX_LINKS. cbn [walk]. by rewrite (wf_root f Hwf).
  - rewrite segments_rooted by (done || by eapply wf_plain).
    transitivity (walk MAX_LINKS f [] (x :: p)); [|by apply (walk_real _ _ [] (x :: p) n)].
    unfold MAX_LINKS. cbn [walk]. by rewrite (wf_root f Hwf).
Qed.

Lemma locate_child f d x : wf f → f !! d = Some Dir → plain_name x → locate f (rooted (d ++ [x])) = inr (d ++ [x]).
Proof.
  intros Hwf Hd Hx. unfold locate. rewrite segments_rooted_filter.
  - rewrite reverse_snoc, reverse_involutive, (walk_real _ f [] d Dir) by done. cbn [app]. by rewrite Hd.
  - apply Forall_app. split; [by eapply wf_plain|by constructor].
Qed.

Lemma locate_real f p n : wf f → f !! p = Some n → locate f (rooted p) = inr p.
Proof.
  intros Hwf H. destruct p as [|x p _] using rev_ind; [done|]. pose proof (wf_plain f Hwf _ _ H) as Hp.
  apply Forall_app in Hp as [_ [Hx _]%Forall_cons]. apply locate_child; [done|by eapply wf_parent|done].
Qed.

(** ** What the calls change *)
Lemma call_effect {A} (m : fs → (exn + A) * fs) s r s' : call m s = (r, s') →
  (dk_fs s' = dk_fs s ∧ ∃ e, r = inl e) ∨ m (dk_fs s) = (r, dk_fs s').
Proof.
  unfold call. destruct (dk_faults s) as [|[e|] l].
  - destruct (m (dk_fs s)) as [r0 f] eqn:E. intros [= <- <-]. by right.
  - intros [= <- <-]. left. split; [done|by exists e].
  - destruct (m (dk_fs s)) as [r0 f] eqn:E. intros [= <- <-]. by right.
Qed.

Lemma query_effect {A} (q : fs → exn + A) s r s' : query q s = (r, s') →
  dk_fs s' = dk_fs s ∧ ∀ a, r = inr a → q (dk_fs s) = inr a.
Proof.
  intros [[Hf (e&->)]|[= <- Hf]]%call_effect; [by split|]. split; [done|]. by intros a ->.
Qed.

(** A computation that does not change the tree. *)
Definition looks {A} (m : prog disk A) : Prop := ∀ s, dk_fs (m s).2 = dk_fs s.
Lemma looks_query {A} (q : fs → exn + A) : looks (query q).
Proof. intros s. destruct (query q s) as [r s'] eqn:E. by apply query_effect in E as [? _]. Qed.

(** No link at [p] or above. *)
Definition clear (f : fs) (p : list string) : Prop := ∀ s t n, p = s ++ t → f !! s = Some n → is_link n = false.

Lemma clear_dir f p : wf f → f !! p = Some Dir → clear f p.
Proof.
  intros Hwf H s t n -> Hs. destruct t as [|x t]; [rewrite app_nil_r in H; by simplify_eq|].
  rewrite (wf_above f s (x :: t) Dir) in Hs by done. by simplify_eq.
Qed.

Lemma clear_above f p r : clear f (p ++ r) → clear f p.
Proof. intros H s t n -> Hs. eapply (H s (t ++ r)); [by rewrite app_assoc|done]. Qed.

Lemma wf_insert f d x n : wf f → f !! d = Some Dir → plain_name x → f !! (d ++ [x]) = None → wf (<[d ++ [x] := n]> f).
Proof.
  intros Hwf Hd Hx Hn. pose proof Hwf as [Hr Hp Hpl]. assert (d ++ [x] ≠ []) as Hne by (by destruct d). split.
  - by rewrite lookup_insert_ne.
  - intros p y n'. rewrite lookup_insert_Some. intros [[E _]|[_ H]].
    + apply app_inj_tail in E as [<- _]. rewrite lookup_insert_ne; [done|]. intros E. apply (f_equal length) in E.
      rewrite length_app in E. simpl in E. lia.
    + rewrite lookup_insert_ne; [by eapply Hp|]. intros <-. by rewrite (wf_missing f _ [y] Hwf Hn) in H.
  - intros p n'. rewrite lookup_insert_Some. intros [[<- _]|[_ H]]; [|by eapply Hpl].
    apply Forall_app. split; [by eapply Hpl|by constructor].
Qed.

(** Writing to a file, and removing one. *)
Lemma wf_write f q old data : wf f → f !! q = Some (File old) → wf (<[q := File data]> f).
Proof.
  intros Hwf Hq. pose proof Hwf as [Hr Hp Hpl]. split.
  - rewrite lookup_insert_ne; [done|]. congruence.
  - intros p x n. rewrite lookup_insert_Some. intros H.
    assert (∃ n', f !! (p ++ [x]) = Some n') as [n' Hn] by (destruct H as [[<- _]|[_ H]]; eauto).
    apply Hp in Hn. rewrite lookup_insert_ne; congruence.
  - intros p n. rewrite lookup_insert_Some. intros [[<- _]|[_ H]]; by eapply Hpl.
Qed.
Lemma wf_delete f q : wf f → q ≠ [] → (f !! q ≠ Some Dir) → wf (delete q f).
Proof.
  intros Hwf Hne Hq. pose proof Hwf as [Hr Hp Hpl]. split.
  - by rewrite lookup_delete_ne.
  - intros p x n. rewrite lookup_delete_Some. intros [_ H%Hp]. rewrite lookup_delete_ne; congruence.
  - intros p n. rewrite lookup_delete_Some. intros [_ H]. by eapply Hpl.
Qed.

Lemma children_elem d f x : x ∈ children d f ↔ is_Some (f !! (d ++ [x])).
Proof.
  unfold children. rewrite list_elem_of_omap. split.
  - intros ([p n]&Hp&H). apply elem_of_map_to_list in Hp. destruct (strip d p) as [[|y [|? ?]]|] eqn:E; try done.
    injection H as ->. apply strip_Some in E as ->. by eexists.
  - intros [n Hn]. exists (d ++ [x], n). split; [by apply elem_of_map_to_list|]. by rewrite strip_app.
Qed.

Lemma wf_prune f q : wf f → q ≠ [] → wf (prune q f).
Proof.
  intros Hwf Hq. split.
  - rewrite prune_lookup. destruct q; [done|]. simpl. by apply wf_root.
  - intros p x n. rewrite !prune_lookup. destruct (strip q (p ++ [x])) eqn:E; [done|]. intros H.
    destruct (strip q p) as [r|] eqn:E2; [|by eapply wf_parent]. apply strip_Some in E2 as ->.
    by rewrite <-app_assoc, strip_app in E.
  - intros p n. rewrite prune_lookup. destruct (strip q p); [done|]. by apply wf_plain.
Qed.

(** Putting a tree [t] where a directory expects it. *)
Lemma wf_graft f t d x : wf f → f !! d = Some Dir → plain_name x →
  (∀ r y n, t !! (r ++ [y]) = Some n → t !! r = Some Dir) → (∀ r n, t !! r = Some n → Forall plain_name r) →
  wf (graft (d ++ [x]) t f).
Proof.
  intros Hwf Hd Hx Ht Hpl. assert (∀ p, strip (d ++ [x]) p = None ∨ ∃ r, p = (d ++ [x]) ++ r) as Hs.
  { intros p. destruct (strip (d ++ [x]) p) as [r|] eqn:E; [right; exists r; by apply strip_Some|by left]. }
  split.
  - rewrite graft_lookup. destruct (Hs []) as [->|[r E]]; [by apply wf_root|]. by destruct d.
  - intros p y n. rewrite !graft_lookup. destruct (Hs p) as [E|[r ->]].
    + rewrite E. destruct (strip (d ++ [x]) (p ++ [y])) as [r|] eqn:E2; [|by apply wf_parent].
      apply strip_Some in E2. intros _. assert (p = d) as ->; [|done].
      destruct r as [|z r _] using rev_ind; [rewrite app_nil_r in E2; by apply app_inj_tail in E2 as [-> _]|].
      rewrite app_assoc in E2. apply app_inj_tail in E2 as [-> _]. by rewrite strip_app in E.
    + rewrite strip_app, <-app_assoc, strip_app. apply Ht.
  - intros p n. rewrite graft_lookup. destruct (Hs p) as [E|[r ->]]; [rewrite E; by apply wf_plain|].
    rewrite strip_app. intros H%Hpl. rewrite !Forall_app. split_and!; [by eapply wf_plain|by constructor|done].
Qed.

(** On a way without links, a walk goes where its names say. *)
Lemma walk_clear l f cur r q : wf f → f !! cur ≠ None → clear f (cur ++ r) → Forall plain_name r →
  walk l f cur r = inr q → q = cur ++ r.
Proof.
  intros Hwf Hcur Hc Hr. revert cur Hcur Hc. induction Hr as [|x r (H1&H2&H3&_) Hr IH]; intros cur Hcur Hc.
  - destruct l; injection 1 as <-; by rewrite app_nil_r.
  - rewrite walk_cons. destruct (f !! cur) as [[]|]; try done. rewrite bool_decide_false by naive_solver.
    rewrite bool_decide_false by done.
    replace (cur ++ x :: r) with ((cur ++ [x]) ++ r) in Hc |- * by (by rewrite <-app_assoc).
    destruct (f !! (cur ++ [x])) as [n|] eqn:E; [|done].
    pose proof (Hc (cur ++ [x]) r n eq_refl E) as Hn. destruct n; [| |done]; (apply IH; [congruence|done]).
Qed.

Lemma locate_clear f d x q : wf f → clear f d → Forall plain_name d → plain_name x →
  locate f (rooted (d ++ [x])) = inr q → q = d ++ [x] ∧ f !! d = Some Dir.
Proof.
  intros Hwf Hc Hd Hx. unfold locate. rewrite segments_rooted_filter by (apply Forall_app; split; [done|by constructor]).
  rewrite reverse_snoc, reverse_involutive. destruct (walk MAX_LINKS f [] d) as [e|d'] eqn:E; [done|].
  assert (f !! [] ≠ None) as Hroot by (by rewrite (wf_root f Hwf)).
  apply (walk_clear _ f [] d d' Hwf Hroot Hc Hd) in E as ->. cbn [app].
  destruct (f !! d) as [[]|]; try done. by intros [= <-].
Qed.

(** What [make_dirs] adds. *)
Definition adds_dirs (cur segs : list string) (f f' : fs) : Prop :=
  ∀ p, f' !! p = f !! p ∨ (f !! p = None ∧ f' !! p = Some Dir ∧ ∃ s t, segs = s ++ t ∧ s ≠ [] ∧ p = cur ++ s).

Lemma make_dirs_effect cur segs f r f' : wf f → f !! cur = Some Dir → Forall plain_name segs → clear f (cur ++ segs) →
  make_dirs cur segs f = (r, f') →
  wf f' ∧ adds_dirs cur segs f f' ∧ (∀ u, r = inr u → f' !! (cur ++ segs) = Some Dir).
Proof.
  revert cur f. induction segs as [|x segs IH]; intros cur f Hwf Hcur Hpl Hclear H.
  - injection H as <- <-. rewrite app_nil_r. split_and!; [done|by left|done].
  - apply Forall_cons in Hpl as [Hx Hpl]. pose proof Hx as (H1&H2&H3&_). cbn [make_dirs] in H.
    rewrite bool_decide_false in H by naive_solver.
    assert (cur ++ x :: segs = (cur ++ [x]) ++ segs) as E by (by rewrite <-app_assoc). rewrite E in *.
    assert (∀ g g', adds_dirs (cur ++ [x]) segs g g' → (∀ p, g !! p = f !! p ∨ (f !! p = None ∧ g !! p = Some Dir ∧ p = cur ++ [x])) →
      adds_dirs cur (x :: segs) f g') as Hadd.
    { intros g g' Hg Hfg p. destruct (Hg p) as [->|(Hgp&Hg'&s&t&->&Hs&->)].
      - destruct (Hfg p) as [->|(?&?&->)]; [by left|]. right. split_and!; [done|done|]. by exists [x], segs.
      - right. destruct (Hfg ((cur ++ [x]) ++ s)) as [Ef|(?&?&?)]; [|congruence]. split_and!; [congruence|done|].
        exists (x :: s), t. split_and!; [done|done|by rewrite <-app_assoc]. }
    destruct (f !! (cur ++ [x])) as [n|] eqn:En.
    + assert (is_link n = false) as Hn by (by eapply (Hclear (cur ++ [x]) segs)).
      rewrite (walk_real _ f cur [x] n) in H by done. rewrite En in H.
      destruct n; [|by injection H as <- <-; split_and!; [done|by left|done]|done].
      destruct (IH _ _ Hwf En Hpl Hclear H) as (Hwf'&Ha&Hr). split_and!; [done| |done]. apply (Hadd f); [done|by left].
    + assert (wf (<[cur ++ [x] := Dir]> f)) as Hwf1 by (by apply wf_insert).
      destruct (IH (cur ++ [x]) (<[cur ++ [x] := Dir]> f)) as (Hwf'&Ha&Hr); [done|by rewrite lookup_insert_eq|done| |done|].
      { intros s t n Est. rewrite lookup_insert_Some. intros [[_ <-]|[_ Hs]]; [done|]. by eapply Hclear. }
      split_and!; [done| |done]. eapply Hadd; [done|]. intros p. destruct (decide (p = cur ++ [x])) as [->|Hne].
      * right. by rewrite lookup_insert_eq.
      * left. by rewrite lookup_insert_ne.
Qed.

Lemma mkdir_recursive_effect p s r s' : wf (dk_fs s) → Forall plain_name p → clear (dk_fs s) p →
  mkdir_recursive (rooted p) s = (r, s') →
  wf (dk_fs s') ∧ adds_dirs [] p (dk_fs s) (dk_fs s') ∧ (∀ u, r = inr u → dk_fs s' !! p = Some Dir).
Proof.
  intros Hwf Hp Hc [[-> (e&->)]|H]%call_effect; [by split_and!; [|by left|]|].
  apply (make_dirs_effect [] p (dk_fs s)); [done|by apply wf_root|done|done|].
  destruct p as [|x p]; [exact H|]. rewrite segments_rooted in H by done. exact H.
Qed.

(** A call that makes an entry where there is none, on a way without links. *)
Lemma make_effect d x n s r s' : wf (dk_fs s) → clear (dk_fs s) d → Forall plain_name d → plain_name x →
  call (λ f, match locate f (rooted (d ++ [x])) with
             | inl e => (inl e, f)
             | inr q => match f !! q with
                        | Some _ => (inl (ErrnoException "EEXIST"), f)
                        | None => (inr tt, <[q := n]> f)
                        end
             end) s = (r, s') →
  (dk_fs s' = dk_fs s ∧ ∃ e, r = inl e) ∨
  (r = inr tt ∧ dk_fs s !! d = Some Dir ∧ dk_fs s !! (d ++ [x]) = None ∧ dk_fs s' = <[d ++ [x] := n]> (dk_fs s)).
Proof.
  intros Hwf Hc Hd Hx [[-> He]|H]%call_effect; [by left|].
  destruct (locate (dk_fs s) (rooted (d ++ [x]))) as [e|q] eqn:E; [injection H as <- <-; left; eauto|].
  apply locate_clear in E as [-> Hdir]; [|done..].
  destruct (dk_fs s !! (d ++ [x])) eqn:En; injection H as <- <-; [left; eauto|by right].
Qed.

(** A write to an entry of a directory, and its removal. *)
Lemma append_effect d x data s r s' : wf (dk_fs s) → dk_fs s !! d = Some Dir → plain_name x →
  append (rooted (d ++ [x])) data s = (r, s') →
  dk_fs s' = dk_fs s ∨ ∃ old, dk_fs s !! (d ++ [x]) = Some (File old) ∧ dk_fs s' = <[d ++ [x] := File (old +:+ data)]> (dk_fs s).
Proof.
  intros Hwf Hd Hx [[-> _]|H]%call_effect; [by left|]. rewrite locate_child in H by done.
  destruct (dk_fs s !! (d ++ [x])) as [[]|] eqn:E; injection H as _ <-; eauto.
Qed.
Lemma rm_file_effect d x force s r s' : wf (dk_fs s) → clear (dk_fs s) d → Forall plain_name d → plain_name x →
  rm_file (rooted (d ++ [x])) force s = (r, s') →
  dk_fs s' = dk_fs s ∨
  (dk_fs s !! d = Some Dir ∧ dk_fs s !! (d ++ [x]) ≠ Some Dir ∧ dk_fs s' = delete (d ++ [x]) (dk_fs s)).
Proof.
  intros Hwf Hc Hd Hx [[-> _]|H]%call_effect; [by left|].
  destruct (locate (dk_fs s) (rooted (d ++ [x]))) as [e|q] eqn:El; [injection H as _ <-; by left|].
  apply locate_clear in El as [-> Hdir]; [|done..].
  destruct (dk_fs s !! (d ++ [x])) as [[]|] eqn:E; injection H as _ <-; (by left) || by right.
Qed.

Definition moved (a b : list string) (f : fs) : fs := graft b (subtree a f) (prune a f).

Lemma moved_lookup a b f p : moved a b f !! p =
  match strip b p with Some r => f !! (a ++ r) | None => if strip a p then None else f !! p end.
Proof.
  unfold moved. rewrite graft_lookup. destruct (strip b p); [by rewrite subtree_lookup|by rewrite prune_lookup].
Qed.

Lemma wf_moved a d x f : wf f → f !! d = Some Dir → plain_name x → ¬ under a (d ++ [x]) → wf (moved a (d ++ [x]) f).
Proof.
  intros Hwf Hd Hx Ha. assert (a ≠ []) as Hne by (intros ->; apply Ha; by exists (d ++ [x])).
  apply wf_graft; [by apply wf_prune| |done|..].
  - rewrite prune_lookup. destruct (strip a d) as [r|] eqn:E; [|done]. apply strip_Some in E as ->.
    exfalso. apply Ha. exists (r ++ [x]). by rewrite app_assoc.
  - intros r y n. rewrite !subtree_lookup, app_assoc. by apply wf_parent.
  - intros r n. rewrite subtree_lookup. intros H%wf_plain; [|done]. by apply Forall_app in H as [_ H].
Qed.

Lemma no_children b f t : has_children b f = false → t ≠ [] → f !! (b ++ t) = None.
Proof.
  unfold has_children. intros H%negb_false_iff%bool_decide_eq_true Ht. destruct (f !! (b ++ t)) as [n|] eqn:E; [|done].
  assert (filter (λ '(p, _), under b p ∧ p ≠ b) f !! (b ++ t) = Some n) as Hf.
  { apply map_lookup_filter_Some. split; [done|]. split; [by exists t|]. intros Eb. apply Ht.
    apply (app_inv_head b). by rewrite app_nil_r. }
  by rewrite H, lookup_empty in Hf.
Qed.

Lemma rename_effect a d x n s r s' : wf (dk_fs s) → dk_fs s !! a = Some n → dk_fs s !! d = Some Dir → plain_name x →
  rename (rooted a) (rooted (d ++ [x])) s = (r, s') →
  (dk_fs s' = dk_fs s ∧ (∀ u, r = inr u → a = d ++ [x])) ∨
  (¬ under a (d ++ [x]) ∧ r = inr tt ∧ dk_fs s' = moved a (d ++ [x]) (dk_fs s) ∧
   ∀ t, t ≠ [] → dk_fs s !! ((d ++ [x]) ++ t) = None).
Proof.
  intros Hwf Ha Hd Hx [[-> (e&->)]|H]%call_effect; [by left|].
  rewrite (locate_real _ a n), locate_child, Ha in H by done.
  case_bool_decide as E1; [injection H as <- <-; by left|].
  case_bool_decide as E2; [injection H as <- <-; by left|]. fold (moved a (d ++ [x]) (dk_fs s)) in H.
  assert (∀ t, t ≠ [] → dk_fs s !! (d ++ [x]) ≠ Some Dir → dk_fs s !! ((d ++ [x]) ++ t) = None) as Hleaf.
  { intros t Ht Hb. destruct (dk_fs s !! ((d ++ [x]) ++ t)) eqn:E; [|done]. by apply wf_above in E. }
  destruct (dk_fs s !! (d ++ [x])) as [[]|] eqn:Eb; repeat case_match; injection H as <- <-; try (by left); right;
    (split; [done|]); (split; [done|]); (split; [done|]); intros t Ht; try (by apply Hleaf).
  by eapply no_children.
Qed.

(** A copy, and a removal, at a place. *)
Definition copied_tree (a : list string) (f : fs) : fs := map_imap (λ r n, Some (copied (removelast (a ++ r)) n)) (subtree a f).

Lemma copied_tree_lookup a f r : copied_tree a f !! r = (λ n, copied (removelast (a ++ r)) n) <$> f !! (a ++ r).
Proof. unfold copied_tree. rewrite map_lookup_imap, subtree_lookup. by destruct (f !! (a ++ r)). Qed.

Lemma wf_copied a d x f : wf f → f !! d = Some Dir → plain_name x → wf (graft (d ++ [x]) (copied_tree a f) f).
Proof.
  intros Hwf Hd Hx. apply wf_graft; [done..| |].
  - intros r y n. rewrite !copied_tree_lookup. intros (n'&Hn&_)%fmap_Some. rewrite app_assoc in Hn.
    by rewrite (wf_parent f Hwf _ _ _ Hn).
  - intros r n. rewrite copied_tree_lookup. intros (n'&Hn&_)%fmap_Some. apply wf_plain in Hn; [|done].
    by apply Forall_app in Hn as [_ Hn].
Qed.

Lemma cp_effect a d x n s r s' : wf (dk_fs s) → dk_fs s !! a = Some n → dk_fs s !! d = Some Dir → plain_name x →
  cp (rooted a) (rooted (d ++ [x])) s = (r, s') →
  (dk_fs s' = dk_fs s ∧ ∃ e, r = inl e) ∨
  (¬ under a (d ++ [x]) ∧ r = inr tt ∧ dk_fs s !! (d ++ [x]) = None ∧
   dk_fs s' = graft (d ++ [x]) (copied_tree a (dk_fs s)) (dk_fs s)).
Proof.
  intros Hwf Ha Hd Hx [[-> (e&->)]|H]%call_effect; [left; eauto|].
  rewrite (locate_real _ a n), locate_child, Ha in H by done.
  destruct (dk_fs s !! (d ++ [x])) eqn:E; [injection H as <- <-; left; eauto|].
  case_bool_decide; injection H as <- <-; [left; eauto|by right].
Qed.

Lemma rm_effect d x force s r s' : wf (dk_fs s) → dk_fs s !! d = Some Dir → plain_name x →
  rm (rooted (d ++ [x])) force s = (r, s') →
  (dk_fs s' = dk_fs s ∧ (∀ u, r = inr u → dk_fs s !! (d ++ [x]) = None)) ∨ (r = inr tt ∧ dk_fs s' = prune (d ++ [x]) (dk_fs s)).
Proof.
  intros Hwf Hd Hx [[-> (e&->)]|H]%call_effect; [by left|]. rewrite locate_child in H by done.
  destruct (dk_fs s !! (d ++ [x])) eqn:E; injection H as <- <-; [by right|]. left. split; [done|]. by destruct force.
Qed.
