(* ===== verification/Files.v ===== *)
(** * More calls of node:fs

    Reading and writing whole files, temporary directories, what is there of a
    path; on the tree of FileSystem.  The modes of the files are not modelled:
    [chmod] and [access] only need the entry. *)
From S2P Require Import Prelude JsString FileSystem.

(** What [lstat] and [readFile] find. *)
Definition entry_at (f : fs) (p : string) : exn + node :=
  match locate f p with
  | inl e => inl e
  | inr q => match f !! q with Some n => inr n | None => inl (ErrnoException "ENOENT") end
  end.
Definition content_at (f : fs) (p : string) : exn + string :=
  match follow f p with
  | inl e => inl e
  | inr q => match f !! q with
             | Some (File data) => inr data
             | Some Dir => inl (ErrnoException "EISDIR")
             | _ => inl (ErrnoException "ENOENT")
             end
  end.
Definition readFile (p : string) : prog disk string := query (λ f, content_at f p).
(** [writeFile(p, data)]; a dangling link is not followed here. *)
Definition writeFile (p data : string) : prog disk unit := call (λ f,
  match follow f p with
  | inr q => match f !! q with
             | Some Dir => (inl (ErrnoException "EISDIR"), f)
             | _ => (inr tt, <[q := File data]> f)
             end
  | inl e =>
      if negb (bool_decide (exn_code e = Some "ENOENT")) then (inl e, f) else
      match locate f p with
      | inl e => (inl e, f)
      | inr q => if bool_decide (f !! q = None) then (inr tt, <[q := File data]> f) else (inl e, f)
      end
  end).
Definition copyFile (source destination : string) : prog disk unit := data ← readFile source; writeFile destination data.
(** [readdir(p, { withFileTypes: true })]. *)
Definition readdir_types (p : string) : prog disk (list (string * node)) := query (λ f,
  match follow f p with
  | inl e => inl e
  | inr q => match f !! q with
             | Some Dir => inr (omap (λ x, (λ n, (x, n)) <$> f !! (q ++ [x])) (children q f))
             | Some _ => inl (ErrnoException "ENOTDIR")
             | None => inl (ErrnoException "ENOENT")
             end
  end).
(** [mkdtemp(prefix)], with the characters it chose. *)
Definition mkdtemp (prefix suffix : string) : prog disk string := _ ← mkdir (prefix +:+ suffix); mret (prefix +:+ suffix).
(** [access(p)] and [chmod(p, mode)]. *)
Definition access (p : string) : prog disk unit := _ ← stat p; mret tt.
Definition chmod (p : string) : prog disk unit := _ ← stat p; mret tt.

(** [try { m } finally { h }]: what [h] throws replaces what [m] did. *)
Definition finally {S A} (m : prog S A) (h : prog S unit) : prog S A := λ s,
  let '(r, s1) := m s in let '(r2, s2) := h s1 in (match r2 with inl e => inl e | inr _ => r end, s2).
