(* ===== verification/PathSafety.v ===== *)
(** * Paths inside a root

    packages/nas-tools/src/path-safety.ts, and [resolveSafeTargetPath] and
    [assertNoSymlinkPathSegments] of mutation-tools.ts: the checks that keep
    the paths of a request inside a NAS root.  The paths they compare are
    absolute, so the working directory plays no part. *)
From Stdlib Require Import Ascii.
From S2P Require Import Prelude JsString FileSystem.

Definition PathSafetyError (message : string) : exn := Exn "PathSafetyError" message None None [].

Definition isPathInside (rootPath candidatePath : string) : bool :=
  let r := relative "/" rootPath candidatePath in
  bool_decide (r = "") || (negb (startsWith ".." r) && negb (isAbsolute r)).
Definition toRootRelative (rootPath candidatePath : string) : string :=
  let r := relative "/" rootPath candidatePath in if bool_decide (r = "") then "." else r.

Record SafePathResult := SafePath { sp_rootRealPath : string; sp_absolutePath : string; sp_realPath : string; sp_relativePath : string }.

Definition resolveSafeExistingPath (rootPath requestedPath : string) : prog disk SafePathResult :=
  if isAbsolute requestedPath then throw (PathSafetyError "Absolute paths are not allowed inside a NAS root") else
  rootRealPath ← realpath rootPath;
  let absolutePath := resolve "/" [rootRealPath; if bool_decide (requestedPath = "") then "." else requestedPath] in
  realPath ← realpath absolutePath;
  if negb (isPathInside rootRealPath realPath) then throw (PathSafetyError "Path escapes the configured NAS root") else
  mret (SafePath rootRealPath absolutePath realPath (toRootRelative rootRealPath realPath)).

(** Here [sp_realPath] is not used. *)
Record SafeTarget := SafeTargetPath { st_rootRealPath : string; st_absolutePath : string; st_relativePath : string }.
Definition resolveSafeTargetPath (rootPath requestedPath : string) : prog disk SafeTarget :=
  if bool_decide (requestedPath = "") || isAbsolute requestedPath
  then throw (PathSafetyError "Mutation target must be a relative path inside the NAS root") else
  root ← resolveSafeExistingPath rootPath ".";
  let absolutePath := resolve "/" [sp_rootRealPath root; requestedPath] in
  if negb (isPathInside (sp_rootRealPath root) absolutePath)
  then throw (PathSafetyError "Mutation target escapes the configured NAS root") else
  if negb (isPathInside (sp_rootRealPath root) (dirname absolutePath))
  then throw (PathSafetyError "Mutation target parent escapes the configured NAS root") else
  mret (SafeTargetPath (sp_rootRealPath root) absolutePath (toRootRelative (sp_rootRealPath root) absolutePath)).

(** The loop over the segments below the root; [stop]: the error codes at which
    it ends without one, [refuse]: the error for a link. *)
Fixpoint no_symlink_segments (stop : list string) (refuse : exn) (currentPath : string) (segs : list string) : prog disk unit :=
  match segs with
  | [] => mret tt
  | x :: segs =>
      let currentPath := path_join [currentPath; x] in
      ok ← try_catch
             (n ← lstat currentPath; if is_link n then throw refuse else mret true)
             (λ e, if from_option (λ c, bool_decide (c ∈ stop)) false (exn_code e) then mret false else throw e);
      if ok : bool then no_symlink_segments stop refuse currentPath segs else mret tt
  end.
Definition path_segments (rootRealPath absolutePath : string) : list string :=
  List.filter (λ x, negb (bool_decide (x = ""))) (split_on sep (relative "/" rootRealPath absolutePath)).
Definition assertNoSymlinkPathSegments (rootRealPath absolutePath : string) : prog disk unit :=
  no_symlink_segments ["ENOENT"] (Error "Refusing to transfer through a symlink") rootRealPath (path_segments rootRealPath absolutePath).

(** ** Rooted paths *)
Lemma resolve_id l : Forall plain_name l → resolve "/" [rooted l] = rooted l.
Proof.
  intros H. rewrite resolve_rooted. f_equal. cbn [resolve_from]. rewrite bool_decide_false by done.
  rewrite rooted_absolute. by apply normalizeString_rooted.
Qed.

Lemma strip_common_app a b f t : strip_common a b = (f, t) → ∃ c, a = c ++ f ∧ b = c ++ t.
Proof.
  revert b. induction a as [|x a IH]; intros b; simpl; [intros [= <- <-]; by exists []|].
  destruct b as [|y b]; [intros [= <- <-]; by exists []|]. case_bool_decide as E; [subst y|intros [= <- <-]; by exists []].
  intros (c&->&->)%IH. by exists (x :: c).
Qed.

Lemma strip_common_prefix a t : strip_common a (a ++ t) = ([], t).
Proof. induction a as [|x a IH]; simpl; [done|]. by rewrite bool_decide_true. Qed.

Lemma relative_rooted a b : Forall plain_name a → Forall plain_name b →
  relative "/" (rooted a) (rooted b) = let '(f, t) := strip_common a b in join "/" (((λ _, "..") <$> f) ++ t).
Proof. intros Ha Hb. unfold relative. by rewrite !resolve_id, !normalizeString_rooted. Qed.

(** Its first name does not start with two dots. *)
Definition dotless (t : list string) : Prop := match t with x :: _ => startsWith ".." x = false | [] => True end.

Lemma startsWith_join x t : startsWith ".." (join "/" (x :: t)) = startsWith ".." x ∨ x = ".".
Proof.
  destruct (decide (x = ".")) as [->|Hx]; [by right|left]. destruct t as [|y t]; [done|].
  change (join "/" (x :: y :: t)) with (x +:+ "/" +:+ join "/" (y :: t)).
  apply eq_true_iff_eq. rewrite !startsWith_app. split; intros [r Hr].
  - destruct x as [|c [|c' x]]; [done|by injection Hr|]. injection Hr as -> -> _. by exists x.
  - rewrite Hr. exists (r +:+ "/" +:+ join "/" (y :: t)). by rewrite string_app_assoc.
Qed.

Lemma join_nonempty x t : plain_name x → join "/" (x :: t) ≠ "" ∧ isAbsolute (join "/" (x :: t)) = false.
Proof.
  intros (Hne&_&_&Hc). destruct x as [|c x]; [done|]. apply no_char_String in Hc as [Hc _].
  assert (∃ r, join "/" (String c x :: t) = String c r) as [r ->] by (destruct t; simpl; eauto).
  split; [done|]. apply not_true_is_false. unfold isAbsolute. intros [r' [= ? _]]%startsWith_app. by subst c.
Qed.

(** What [isPathInside] means: a place at or below the root, by names that do
    not start with two dots. *)
Lemma isPathInside_rooted a b : Forall plain_name a → Forall plain_name b →
  isPathInside (rooted a) (rooted b) = true ↔ ∃ t, b = a ++ t ∧ dotless t.
Proof.
  intros Ha Hb. unfold isPathInside. rewrite relative_rooted by done.
  destruct (strip_common a b) as [f t] eqn:E. split.
  - intros H. apply strip_common_app in E as (c&->&->). destruct f as [|x f].
    + exists t. rewrite app_nil_r. split; [done|]. destruct t as [|x t]; [done|]. simpl in H.
      apply Forall_app in Hb as [_ [Hx Ht]%Forall_cons]. destruct (join_nonempty x t Hx) as [Hne _].
      rewrite bool_decide_false in H by done. apply andb_prop in H as [H%negb_true_iff _].
      destruct (startsWith_join x t) as [Ej|Ej]; [change (startsWith ".." x = false); by rewrite <-Ej|].
      destruct Hx as (_&Hx&_). done.
    + exfalso. change (((λ _, "..") <$> x :: f) ++ t) with (".." :: ((λ _, "..") <$> f) ++ t) in H.
      assert (startsWith ".." (join "/" (".." :: ((λ _, "..") <$> f) ++ t)) = true) as Hs.
      { apply startsWith_app. destruct (((λ _, "..") <$> f) ++ t); [by exists ""|by eexists]. }
      rewrite Hs in H. rewrite bool_decide_false in H; [done|]. intros E. by rewrite E in Hs.
  - intros (t'&->&Ht). rewrite strip_common_prefix in E. injection E as <- <-. simpl.
    destruct t' as [|x t']; [done|]. apply Forall_app in Hb as [_ [Hx Ht']%Forall_cons].
    destruct (join_nonempty x t' Hx) as [Hne ->]. apply orb_true_iff. right. rewrite andb_true_r, negb_true_iff.
    destruct (startsWith_join x t') as [->|E]; [done|]. destruct Hx as (_&Hx&_). done.
Qed.

Lemma dirname_rooted d x : Forall plain_name d → plain_name x → dirname (rooted (d ++ [x])) = rooted d.
Proof.
  intros Hd Hx. unfold dirname. rewrite segments_rooted; [|apply Forall_app; split; [done|by constructor]|by destruct d].
  change ("" :: d ++ [x]) with (("" :: d) ++ [x]). rewrite reverse_snoc, reverse_cons.
  destruct Hx as (Hx&_). destruct x as [|c x]; [done|]. cbn [drop_trailing_seps].
  destruct d as [|y d _] using rev_ind; [done|]. rewrite reverse_snoc. cbn [app].
  destruct (reverse d ++ [""]) as [|z l] eqn:E; [by destruct (reverse d)|]. rewrite <-E.
  assert (reverse (y :: reverse d ++ [""]) = "" :: d ++ [y]) as ->.
  { by rewrite reverse_cons, reverse_snoc, reverse_involutive. }
  apply Forall_app in Hd as [Hd [Hy _]%Forall_cons].
  assert (join "/" ("" :: d ++ [y]) = rooted (d ++ [y])) as -> by (by destruct d).
  rewrite bool_decide_false; [by destruct y|]. unfold rooted. simpl. intros [= Hj].
  destruct Hy as (Hy&_). destruct d as [|z' d]; simpl in Hj; [done|]. destruct (d ++ [y]) eqn:Ed; [by destruct d|].
  by destruct z'.
Qed.

Lemma dirname_root : dirname (rooted []) = rooted [].
Proof. done. Qed.

Lemma basename_rooted d x : Forall plain_name d → plain_name x → basename (rooted (d ++ [x])) = x.
Proof.
  intros Hd Hx. unfold basename. rewrite segments_rooted; [|apply Forall_app; split; [done|by constructor]|by destruct d].
  change ("" :: d ++ [x]) with (("" :: d) ++ [x]). rewrite reverse_snoc. destruct Hx as (Hx&_). by destruct x.
Qed.

Lemma normalizeString_app l x : Forall plain_name l → plain_name x →
  normalizeString (rooted l +:+ "/" +:+ x) false = l ++ [x].
Proof.
  intros Hl Hx. assert (rooted l +:+ "/" +:+ x = match l with [] => "//" +:+ x | _ => rooted (l ++ [x]) end) as ->.
  { destruct l as [|y l]; [done|]. unfold rooted. rewrite join_app by done. simpl. by rewrite !string_app_assoc. }
  destruct l as [|y l].
  - unfold normalizeString, segments. change ("//" +:+ x) with (String sep (String sep x)). cbn [split_on].
    rewrite !Ascii.eqb_refl, split_on_single by apply Hx. simpl. destruct Hx as (H1&H2&H3&_).
    rewrite bool_decide_false by naive_solver. by rewrite bool_decide_false.
  - apply normalizeString_rooted. apply Forall_app. split; [done|by constructor].
Qed.

Lemma normalizeString_join l t : Forall plain_name l → Forall plain_name t → t ≠ [] →
  normalizeString (rooted l +:+ "/" +:+ join "/" t) false = l ++ t.
Proof.
  intros Hl Ht Hne. unfold normalizeString, segments. change ("/" +:+ join "/" t) with (String sep (join "/" t)).
  rewrite split_on_app_all. rewrite split_join; [|done|eapply Forall_impl; [exact Ht|by intros ? (_&_&_&?)]].
  fold (segments (rooted l)). destruct l as [|y l].
  - change (segments (rooted [])) with ([""; ""] : list string). simpl. by rewrite norm_segments_id.
  - rewrite segments_rooted by done. change (("" :: y :: l) ++ t) with ("" :: (y :: l) ++ t). cbn [norm_segments].
    rewrite bool_decide_true by (by left). by rewrite norm_segments_id by (by apply Forall_app).
Qed.

Lemma last_char_app a b : b ≠ "" → last_char (a +:+ b) = last_char b.
Proof.
  intros Hb. induction a as [|c a IH]; [done|]. simpl. rewrite IH. destruct (a +:+ b) eqn:E; [|done].
  by destruct a; [simpl in E; subst|].
Qed.

Lemma last_char_no c x : no_char c x → last_char x ≠ Some c.
Proof.
  induction x as [|y x IH]; [done|]. intros [Hy Hx]%no_char_String. simpl. destruct x; [congruence|by apply IH].
Qed.

Lemma path_join_rooted l x : Forall plain_name l → plain_name x → path_join [rooted l; x] = rooted (l ++ [x]).
Proof.
  intros Hl Hx. pose proof Hx as (H1&_&_&Hc). assert (path_join [rooted l; x] = normalize (rooted l +:+ "/" +:+ x)) as ->.
  { unfold path_join. cbn [List.filter]. rewrite !bool_decide_false by done. done. }
  unfold normalize. rewrite bool_decide_false by done.
  assert (isAbsolute (rooted l +:+ "/" +:+ x) = true) as -> by (apply startsWith_app; by eexists).
  cbn [negb]. rewrite normalizeString_app by done.
  assert (endsWith_char sep (rooted l +:+ "/" +:+ x) = false) as ->.
  { unfold endsWith_char. apply bool_decide_eq_false. rewrite !last_char_app by done. by apply last_char_no. }
  rewrite bool_decide_false; [done|]. destruct l as [|y l]; [done|].
  apply Forall_cons in Hl as [Hy _]. apply (join_nonempty y (l ++ [x]) Hy).
Qed.

Lemma path_join_segments l t : Forall plain_name l → Forall plain_name t →
  foldl (λ p x, path_join [p; x]) (rooted l) t = rooted (l ++ t).
Proof.
  intros Hl Ht. revert l Hl. induction Ht as [|x t Hx Ht IH]; intros l Hl; simpl; [by rewrite app_nil_r|].
  rewrite path_join_rooted by done. rewrite IH by (apply Forall_app; split; [done|by constructor]). by rewrite <-app_assoc.
Qed.

Lemma path_segments_rooted a t : Forall plain_name a → Forall plain_name t →
  path_segments (rooted a) (rooted (a ++ t)) = t.
Proof.
  intros Ha Ht. unfold path_segments. rewrite relative_rooted by (done || by apply Forall_app).
  rewrite strip_common_prefix. cbn [fmap list_fmap app]. destruct Ht as [|x t Hx Ht]; [done|].
  rewrite split_join; [|done|].
  - assert (∀ l, Forall plain_name l → List.filter (λ x, negb (bool_decide (x = ""))) l = l) as H.
    { induction 1 as [|y l (Hy&_) _ IH]; simpl; [done|]. rewrite bool_decide_false by done. simpl. by rewrite IH. }
    apply H. by constructor.
  - constructor; [apply Hx|]. eapply Forall_impl; [done|]. by intros ? (_&_&_&?).
Qed.

Lemma toRootRelative_rooted a t : Forall plain_name (a ++ t) →
  toRootRelative (rooted a) (rooted (a ++ t)) = if bool_decide (t = []) then "." else join "/" t.
Proof.
  intros Hl. pose proof Hl as [Ha Ht]%Forall_app. unfold toRootRelative.
  rewrite relative_rooted by done. rewrite strip_common_prefix. cbn [fmap list_fmap app].
  destruct t as [|x t]; [done|]. apply Forall_cons in Ht as [Hx _].
  destruct (join_nonempty x t Hx) as [Hne _]. rewrite (bool_decide_false (x :: t = [])) by done.
  rewrite bool_decide_false by exact Hne. done.
Qed.

(** ** What the checks establish *)
Lemma realpath_effect p s r s' : wf (dk_fs s) → realpath p s = (r, s') →
  dk_fs s' = dk_fs s ∧ ∀ q, r = inr q → ∃ l n, q = rooted l ∧ Forall plain_name l ∧
    follow (dk_fs s) p = inr l ∧ dk_fs s !! l = Some n ∧ is_link n = false.
Proof.
  intros Hwf H. apply query_effect in H as [Hf Hq]. split; [done|]. intros q Er. specialize (Hq q Er).
  destruct (follow (dk_fs s) p) as [e|l] eqn:E; [done|]. injection Hq as <-.
  destruct (walk_found _ _ _ _ _ Hwf (ex_intro _ Dir (conj (wf_root _ Hwf) eq_refl)) E) as (n&Hn&Hl).
  exists l, n. split_and!; [done|by eapply wf_plain|done..].
Qed.

(** An existing path that is accepted is the real place of an entry of the
    root, which the path names. *)
Lemma resolveSafeExistingPath_effect rootPath requestedPath s r s' : wf (dk_fs s) →
  resolveSafeExistingPath rootPath requestedPath s = (r, s') →
  dk_fs s' = dk_fs s ∧ ∀ p, r = inr p → ∃ root t n, follow (dk_fs s) rootPath = inr root ∧ Forall plain_name (root ++ t) ∧
    sp_rootRealPath p = rooted root ∧ sp_realPath p = rooted (root ++ t) ∧ dotless t ∧
    dk_fs s !! (root ++ t) = Some n ∧ is_link n = false ∧
    sp_relativePath p = (if bool_decide (t = []) then "." else join "/" t).
Proof.
  intros Hwf. unfold resolveSafeExistingPath. destruct (isAbsolute requestedPath); [by intros [= <- <-]|].
  unfold mbind at 1, prog_bind at 1. destruct (realpath rootPath s) as [r1 s1] eqn:E1.
  destruct (realpath_effect _ _ _ _ Hwf E1) as [Hf1 H1]. destruct r1 as [e|rr]; [by intros [= <- <-]|].
  destruct (H1 rr eq_refl) as (root&n1&->&Hroot&Hfol&_&_). cbv zeta. unfold mbind, prog_bind.
  rewrite <-Hf1 in Hwf. destruct (realpath _ s1) as [r2 s2] eqn:E2.
  destruct (realpath_effect _ _ _ _ Hwf E2) as [Hf2 H2]. destruct r2 as [e|real]; [intros [= <- <-]; split; [congruence|done]|].
  destruct (H2 real eq_refl) as (l&n&->&Hl&_&Hn&Hlink).
  destruct (isPathInside (rooted root) (rooted l)) eqn:Ein; cbn [negb]; [|intros [= <- <-]; split; [congruence|done]].
  apply isPathInside_rooted in Ein as (t&->&Hdot); [|done..]. intros [= <- <-]. split; [congruence|]. intros p [= <-].
  exists root, t, n. rewrite Hf1 in Hn. split; [exact Hfol|]. split; [exact Hl|]. split; [reflexivity|].
  split; [reflexivity|]. split; [exact Hdot|]. split; [exact Hn|]. split; [exact Hlink|].
  by apply toRootRelative_rooted.
Qed.

Lemma resolveSafeTargetPath_effect rootPath requestedPath s r s' : wf (dk_fs s) →
  resolveSafeTargetPath rootPath requestedPath s = (r, s') →
  dk_fs s' = dk_fs s ∧ ∀ p, r = inr p → ∃ root t n, follow (dk_fs s) rootPath = inr root ∧ Forall plain_name (root ++ t) ∧
    dk_fs s !! root = Some n ∧ is_link n = false ∧ st_rootRealPath p = rooted root ∧
    st_absolutePath p = rooted (root ++ t) ∧ (t = [] → root = []) ∧ dotless t ∧
    st_relativePath p = (if bool_decide (t = []) then "." else join "/" t).
Proof.
  intros Hwf. unfold resolveSafeTargetPath. destruct (_ || _); [by intros [= <- <-]|].
  unfold mbind, prog_bind. destruct (resolveSafeExistingPath rootPath "." s) as [r1 s1] eqn:E1.
  destruct (resolveSafeExistingPath_effect _ _ _ _ _ Hwf E1) as [Hf1 H1]. destruct r1 as [e|p1]; [by intros [= <- <-]|].
  destruct (H1 p1 eq_refl) as (root&t1&n1&Hfol&Hpl1&Hroot&_&_&_&_&_). rewrite Hroot. cbv zeta.
  apply Forall_app in Hpl1 as [Hpr _].
  destruct (walk_found _ _ _ _ _ Hwf (ex_intro _ Dir (conj (wf_root _ Hwf) eq_refl)) Hfol) as (n&Hn&Hlink).
  pose proof (normalizeString_plain (resolve_from "/" [rooted root; requestedPath])) as Hl.
  rewrite resolve_rooted. set (l := normalizeString _ _) in *.
  destruct (isPathInside (rooted root) (rooted l)) eqn:E2; cbn [negb]; [|by intros [= <- <-]].
  destruct (isPathInside (rooted root) (dirname (rooted l))) eqn:E3; cbn [negb]; [|by intros [= <- <-]].
  intros [= <- <-]. split; [exact Hf1|]. intros p [= <-]. apply isPathInside_rooted in E2 as (t&El&Hdot); [|exact Hpr|exact Hl].
  exists root, t, n. rewrite <-El. split; [exact Hfol|]. split; [exact Hl|]. split; [exact Hn|]. split; [exact Hlink|].
  split; [reflexivity|]. split; [reflexivity|]. split; [|split; [exact Hdot|]].
  - intros ->. rewrite app_nil_r in El. rewrite El in E3.
    destruct root as [|x d _] using rev_ind; [done|]. apply Forall_app in Hpr as [Hd [Hx _]%Forall_cons].
    rewrite dirname_rooted in E3 by done. apply isPathInside_rooted in E3 as (t&Et&_); [|by apply Forall_app; split; [|by constructor]|done].
    apply (f_equal length) in Et. rewrite !length_app in Et. simpl in Et. lia.
  - cbn [st_relativePath]. rewrite El in Hl |- *. by apply toRootRelative_rooted.
Qed.

(** A call says ENOENT or ENOTDIR only when that is so. *)
Definition fault_ok (o : option exn) : Prop :=
  match o with Some e => exn_code e ≠ Some "ENOENT" ∧ exn_code e ≠ Some "ENOTDIR" | None => True end.
Definition faults_ok (s : disk) : Prop := Forall fault_ok (dk_faults s).

Lemma keeps_call {A} (m : fs → (exn + A) * fs) : keeps faults_ok (call m).
Proof.
  intros s Hs. unfold call, faults_ok in *. destruct (dk_faults s) as [|[e|] l]; simpl; try apply Forall_cons in Hs as [_ Hs].
  - by destruct (m (dk_fs s)).
  - done.
  - by destruct (m (dk_fs s)).
Qed.
#[export] Hint Resolve keeps_call : keeps.

Lemma call_fault {A} (m : fs → (exn + A) * fs) s r s' : faults_ok s → call m s = (r, s') →
  (dk_fs s' = dk_fs s ∧ ∃ e, r = inl e ∧ fault_ok (Some e)) ∨ m (dk_fs s) = (r, dk_fs s').
Proof.
  unfold call, faults_ok. destruct (dk_faults s) as [|[e|] l]; intros Hs.
  - destruct (m (dk_fs s)) as [r0 f] eqn:E. intros [= <- <-]. by right.
  - intros [= <- <-]. left. apply Forall_cons in Hs as [He _]. split; [done|by exists e].
  - destruct (m (dk_fs s)) as [r0 f] eqn:E. intros [= <- <-]. by right.
Qed.

Lemma lstat_child d x s r s' : wf (dk_fs s) → faults_ok s → plain_name x → Forall plain_name d →
  (∃ n, dk_fs s !! d = Some n ∧ is_link n = false) → lstat (rooted (d ++ [x])) s = (r, s') →
  dk_fs s' = dk_fs s ∧ match r with
                       | inr n => dk_fs s !! (d ++ [x]) = Some n
                       | inl e => exn_code e = Some "ENOENT" ∨ exn_code e = Some "ENOTDIR" → dk_fs s !! (d ++ [x]) = None
                       end.
Proof.
  intros Hwf Hs Hx Hd (n&Hn&Hlink) H. unfold lstat, query in H.
  destruct (call_fault _ _ _ _ Hs H) as [[-> (e&->&He1&He2)]|H']; [split; [done|]; tauto|]. clear H.
  injection H' as <- <-. split; [done|]. destruct n as [|data|]; [|clear Hlink|done].
  - rewrite locate_child by done. by destruct (dk_fs s !! (d ++ [x])) eqn:E.
  - unfold locate. rewrite segments_rooted_filter by (apply Forall_app; split; [done|by constructor]).
    rewrite reverse_snoc, reverse_involutive, (walk_real _ _ [] d (File data)) by done. cbn [app]. rewrite Hn. intros _.
    destruct (dk_fs s !! (d ++ [x])) as [n|] eqn:E; [|done]. apply wf_parent in E; [|done]. congruence.
Qed.

Lemma keeps_lstat p : keeps faults_ok (lstat p).
Proof. apply keeps_call. Qed.

Lemma clear_extend f p x : clear f p → (∀ n, f !! (p ++ [x]) = Some n → is_link n = false) → clear f (p ++ [x]).
Proof.
  intros Hp Hx s t n E Hs. destruct t as [|y t _] using rev_ind; [rewrite app_nil_r in E; subst s; by apply Hx|].
  rewrite app_assoc in E. apply app_inj_tail in E as [E _]. by eapply Hp.
Qed.

Lemma clear_missing f p r : wf f → f !! p = None → clear f p → clear f (p ++ r).
Proof.
  intros Hwf Hp Hc s t n E Hs. apply app_eq_inv in E as [(k&Ek&_)|(k&Ek&_)]; [by eapply Hc|].
  subst s. by rewrite (wf_missing f p k Hwf Hp) in Hs.
Qed.

(** The loop returns only when no link lies on the way. *)
Lemma no_symlink_effect stop refuse segs cur s r s' : wf (dk_fs s) → faults_ok s → Forall plain_name cur → Forall plain_name segs →
  (∃ n, dk_fs s !! cur = Some n ∧ is_link n = false) → exn_code refuse = None → stop ⊆ ["ENOENT"; "ENOTDIR"] →
  no_symlink_segments stop refuse (rooted cur) segs s = (r, s') →
  dk_fs s' = dk_fs s ∧ ((∃ u, r = inr u) → clear (dk_fs s) cur → clear (dk_fs s) (cur ++ segs)).
Proof.
  intros Hwf Hs Hcur Hsegs Hn Href Hstop. revert cur s Hwf Hs Hcur Hn. induction Hsegs as [|x segs Hx Hsegs IH];
    intros cur s Hwf Hs Hcur Hn H.
  - injection H as <- <-. split; [done|]. by rewrite app_nil_r.
  - cbn [no_symlink_segments] in H. cbv zeta in H. rewrite path_join_rooted in H by done.
    unfold mbind, prog_bind, try_catch in H. destruct (lstat (rooted (cur ++ [x])) s) as [r1 s1] eqn:E1.
    assert (faults_ok s1) as Hs1 by (pose proof (keeps_lstat (rooted (cur ++ [x])) s Hs) as K; by rewrite E1 in K).
    destruct (lstat_child _ _ _ _ _ Hwf Hs Hx Hcur Hn E1) as [Hf1 H1]. destruct r1 as [e|n1].
    + destruct (exn_code e) as [c|] eqn:Ec; cbn [from_option] in H; [case_bool_decide as Hc|];
        [|by injection H as <- <-; split; [|intros [? [=]]]..].
      apply Hstop in Hc. injection H as <- <-. split; [done|]. intros _ Hclear.
      assert (dk_fs s !! (cur ++ [x]) = None) as Hnone by (apply H1; set_solver). clear H1. rename Hnone into H1. rewrite cons_middle, app_assoc. apply clear_missing; [done|done|].
      apply clear_extend; [done|]. congruence.
    + destruct (is_link n1) eqn:El.
      * cbn in H. rewrite Href in H. injection H as <- <-. split; [done|]. by intros [? [=]].
      * cbn in H. rewrite <-Hf1 in Hwf. destruct (IH (cur ++ [x]) s1) as [Hf2 H2]; [done|done| | |done|].
        { apply Forall_app. split; [done|by constructor]. }
        { exists n1. by rewrite Hf1. }
        rewrite Hf1 in Hf2, H2. split; [done|]. intros Hu Hclear. rewrite cons_middle, app_assoc. apply H2; [done|].
        apply clear_extend; [done|]. intros n' Hn'. congruence.
Qed.

(** ** Names joined, and resolved against a directory *)
Lemma plain_app (a b : list string) : Forall plain_name (a ++ b) ↔ Forall plain_name a ∧ Forall plain_name b.
Proof. apply Forall_app. Qed.
Lemma segments_join l : l ≠ [] → Forall plain_name l → segments (join "/" l) = l.
Proof. intros Hne Hl. apply split_join; [done|]. eapply Forall_impl; [exact Hl|]. by intros x (_ & _ & _ & ?). Qed.
Lemma last_char_join l : l ≠ [] → Forall plain_name l → endsWith_char sep (join "/" l) = false.
Proof.
  intros Hne Hl. unfold endsWith_char. apply bool_decide_eq_false. destruct l as [|x l _] using rev_ind; [done|].
  apply plain_app in Hl as [Hl [(Hx & _ & _ & Hs) _]%Forall_cons]. destruct l as [|y l].
  - by apply last_char_no.
  - rewrite join_app by done. rewrite last_char_app; [rewrite last_char_app by done; by apply last_char_no|].
    cbn [join]. by destruct x.
Qed.
Lemma join_relative l : l ≠ [] → Forall plain_name l → join "/" l ≠ "" ∧ isAbsolute (join "/" l) = false.
Proof. intros Hne Hl. destruct l as [|x l]; [done|]. apply join_nonempty. by apply Forall_cons in Hl as [? _]. Qed.
Lemma normalize_join l : l ≠ [] → Forall plain_name l → normalize (join "/" l) = join "/" l.
Proof.
  intros Hne Hl. destruct (join_relative l Hne Hl) as [H1 H2]. unfold normalize. rewrite bool_decide_false by done.
  rewrite H2. unfold normalizeString. rewrite segments_join by done. rewrite (last_char_join l Hne Hl).
  cbn [negb]. rewrite norm_segments_id by done. cbn [reverse app]. rewrite bool_decide_false by done. done.
Qed.
Lemma path_join_names r x : Forall plain_name r → plain_name x → path_join [join "/" r; x] = join "/" (r ++ [x]).
Proof.
  intros Hr Hx. assert (Forall plain_name (r ++ [x])) as Hrx by (apply plain_app; by split; [|constructor]).
  assert (x ≠ "") as Hx0 by apply Hx. unfold path_join. destruct r as [|y r].
  - cbn [join List.filter]. rewrite (bool_decide_true (_ = "")) by done. rewrite bool_decide_false by done. cbn [negb join].
    by apply (normalize_join [x]).
  - destruct (join_relative (y :: r) ltac:(done) Hr) as [H1 _]. cbn [List.filter]. rewrite !bool_decide_false by done. cbn [negb].
    change (join "/" [join "/" (y :: r); x]) with (join "/" (y :: r) +:+ "/" +:+ x).
    rewrite <-(normalize_join ((y :: r) ++ [x])) by done. f_equal. by rewrite join_app.
Qed.

Lemma resolve_join pwd d q : Forall plain_name d → Forall plain_name q → resolve pwd [rooted d; join "/" q] = rooted (d ++ q).
Proof.
  intros Hd Hq. unfold resolve. cbn [resolve_from]. rewrite bool_decide_false by done. rewrite rooted_absolute.
  destruct q as [|x q].
  - cbn [join]. rewrite bool_decide_true by done. rewrite app_nil_r. by rewrite normalizeString_rooted.
  - destruct (join_relative (x :: q) ltac:(done) Hq) as [H1 H2]. rewrite bool_decide_false, H2 by done. cbn [resolve_from].
    by rewrite normalizeString_join.
Qed.
Lemma resolve_one pwd d : Forall plain_name d → resolve pwd [rooted d] = rooted d.
Proof.
  intros Hd. unfold resolve. cbn [resolve_from]. rewrite bool_decide_false by done. rewrite rooted_absolute. cbn [resolve_from].
  by rewrite normalizeString_rooted.
Qed.
Lemma dots_front q : q ≠ [] → Forall plain_name q → startsWith "../" (join "/" q) = false ∧ join "/" q ≠ "..".
Proof.
  intros Hne Hq. split.
  - apply not_true_is_false. intros [r Hr]%startsWith_app. pose proof (segments_join q Hne Hq) as H. rewrite Hr in H.
    change ("../" +:+ r) with (".." +:+ String sep r) in H. unfold segments in H. rewrite split_on_app in H by done.
    rewrite <-H in Hq. by apply Forall_cons in Hq as [(_ & _ & ? & _) _].
  - intros Hr. pose proof (segments_join q Hne Hq) as H. rewrite Hr in H. rewrite <-H in Hq.
    by apply Forall_cons in Hq as [(_ & _ & ? & _) _].
Qed.
(** Names made of two parts. *)
Lemma rooted_suffix d x suf : rooted (d ++ [x]) +:+ suf = rooted (d ++ [x +:+ suf]).
Proof.
  unfold rooted. destruct d as [|y d]; [done|]. rewrite !join_app by done. simpl. by rewrite !string_app_assoc.
Qed.

Lemma plain_long a b : (2 < String.length (a +:+ b))%nat → no_char sep a → no_char sep b → plain_name (a +:+ b).
Proof.
  intros Hlen Ha Hb. split_and!; [| | |by apply no_char_app]; intros E; rewrite E in Hlen; simpl in Hlen; lia.
Qed.
