(* ===== verification/Config.v ===== *)
(** * The configuration

    packages/shared/src/config.ts and paths.ts: the directories of ZOS, the
    configuration that environment variables and the configuration file make,
    and the checks that refuse one whose paths overlap or escape
    ([loadConfig_safe]).

    The TOML parser (a package) is a parameter: its result has the type the
    code gives it, [TomlConfig].  The environment is a function; what node:fs
    answers and the URL parser are parameters too. *)
From Stdlib Require Import Ascii.
From stdpp Require Import pretty.
From S2P Require Import PathSafety.
From S2P Require Import Prelude Json JsString JsonText JsNumber JsText NasRoots ShareConfig.
Open Scope Z_scope.

(** ** paths.ts *)
Record ZosPaths := Paths {
  zp_rootDir : string; zp_configDir : string; zp_stateDir : string; zp_logsDir : string; zp_homeDir : string;
  zp_dataRoot : string; zp_backupRoot : string; zp_appsRoot : string; zp_isoRoot : string; zp_vmRoot : string;
  zp_deployRoot : string; zp_systemBackupsDir : string; zp_databasePath : string; zp_defaultDataRoot : string;
  zp_hostdStateDir : string; zp_networkManagerStateDir : string; zp_dockerStateDir : string; zp_termuxHome : string;
  zp_vodPlayerStateDir : string; zp_runDir : string
}.
Definition paths_of (root : string) : ZosPaths :=
  let stateDir := path_join [root; "state"] in
  let dataRoot := path_join [root; "data"] in
  let hostdStateDir := path_join [stateDir; "hostd"] in
  Paths root (path_join [root; "config"]) stateDir (path_join [root; "logs"]) (path_join [root; "home"]) dataRoot
    (path_join [dataRoot; "backup"]) (path_join [root; "apps"]) (path_join [root; "iso"]) (path_join [root; "vm"])
    (path_join [root; "deploy"]) (path_join [root; "system-backups"]) (path_join [stateDir; "zos.sqlite"])
    (path_join [dataRoot; "primary"]) hostdStateDir (path_join [hostdStateDir; "network-manager"])
    (path_join [hostdStateDir; "docker-daemon"]) (path_join [root; "home"; "termux"]) (path_join [stateDir; "vod-player"]) "/run/zos".

(** ** The configuration file *)
Record toml_backup := TomlBackup {
  tb_enabled : option bool; tb_repository : option string; tb_repository_path : option string; tb_password_file : option string;
  tb_staging_path : option string; tb_require_mount : option bool; tb_retry_count : option number; tb_timeout_ms : option number;
  tb_keep_daily : option number; tb_keep_weekly : option number }.
Record toml_health := TomlHealth {
  th_stale_index_warning_ms : option number; th_stale_index_critical_ms : option number; th_stalled_run_ms : option number;
  th_consecutive_failure_threshold : option number; th_backup_stale_ms : option number }.
Record toml_root := TomlRoot {
  tr_id : option string; tr_name : option string; tr_path : option string; tr_mount_policy : option MountPolicy;
  tr_expected_source : option string; tr_expected_uuid : option string; tr_expected_fstype : option string }.
Record toml_docker := TomlDocker {
  tdk_enabled : option bool; tdk_socket_path : option string; tdk_compose_command : option string;
  tdk_operation_timeout_ms : option number; tdk_console_shells : option (list string) }.
Record toml_vm := TomlVm {
  tvm_enabled : option bool; tvm_libvirt_uri : option string; tvm_storage_path : option string; tvm_network_name : option string;
  tvm_iso_roots : option (list string); tvm_operation_timeout_ms : option number }.
Record toml_shares := TomlShares { tsx_enabled : option bool; tsx_account_username : option string; tsx_items : option (list toml_share) }.
Record toml_terminal := TomlTerminal {
  tt_user : option string; tt_termux_socket_path : option string; tt_session_idle_timeout_ms : option number;
  tt_connect_timeout_ms : option number; tt_max_sessions : option number }.
Record toml_vod_player := TomlVodPlayer {
  tv_enabled : option bool; tv_socket_path : option string; tv_state_path : option string; tv_command_timeout_ms : option number;
  tv_startup_timeout_ms : option number; tv_checkpoint_interval_ms : option number; tv_retry_base_delay_ms : option number;
  tv_retry_max_delay_ms : option number; tv_video_output : option string; tv_drm_connector : option string;
  tv_audio_output : option string; tv_audio_device : option string; tv_hwdec : option string; tv_user : option string }.
Record TomlConfig := Toml {
  tc_environment : option string; tc_root_dir : option string;
  tc_api_host : option string; tc_api_port : option number; tc_api_allowed_origins : option (list string);
  tc_worker_poll_ms : option number; tc_admin_display_name : option string;
  tc_model_provider : option string; tc_model_pi_command : option string; tc_model_local_endpoint : option string;
  tc_docker : option toml_docker; tc_vm : option toml_vm; tc_hostd_socket_path : option string; tc_shares : option toml_shares;
  tc_terminal : option toml_terminal; tc_vod_player : option toml_vod_player; tc_photostaff_basemap_url : option string;
  tc_nas_roots : option (list toml_root); tc_backup : option toml_backup; tc_health : option toml_health }.
Definition no_toml : TomlConfig :=
  Toml None None None None None None None None None None None None None None None None None None None None.

(** ** packages/shared/src/types.ts *)
Inductive DeploymentMode := development | production.
#[global] Instance DeploymentMode_eq_dec : EqDecision DeploymentMode. Proof. solve_decision. Defined.
Record DockerConfig := Docker {
  dk_enabled : bool; dk_socketPath : string; dk_composeCommand : string; dk_operationTimeoutMs : number; dk_consoleShells : list string }.
Record VmConfig := Vm {
  vm_enabled : bool; vm_libvirtUri : string; vm_storagePath : string; vm_networkName : string; vm_isoRoots : list string;
  vm_operationTimeoutMs : number }.
Record TerminalConfig := Terminal {
  tm_user : option string; tm_termuxSocketPath : string; tm_sessionIdleTimeoutMs : number; tm_connectTimeoutMs : number; tm_maxSessions : number }.
Record VodPlayerConfig := VodPlayer {
  vp_enabled : bool; vp_socketPath : string; vp_statePath : string; vp_commandTimeoutMs : number; vp_startupTimeoutMs : number;
  vp_checkpointIntervalMs : number; vp_retryBaseDelayMs : number; vp_retryMaxDelayMs : number; vp_drmConnector : option string;
  vp_audioDevice : option string; vp_hwdec : string; vp_user : string }.
Record BackupConfig := Backup {
  bk_enabled : bool; bk_repositoryPath : option string; bk_passwordFile : option string; bk_stagingPath : string; bk_requireMount : bool;
  bk_retryCount : number; bk_timeoutMs : number; bk_keepDaily : number; bk_keepWeekly : number }.
Record HealthConfig := Health {
  hc_staleIndexWarningMs : number; hc_staleIndexCriticalMs : number; hc_stalledRunMs : number; hc_consecutiveFailureThreshold : number;
  hc_backupStaleMs : number }.
(** [paths] holds what [rootDir], [stateDir] and the like repeat. *)
Record ZosConfig := Config {
  zc_environment : DeploymentMode; zc_paths : ZosPaths; zc_dataDir : string; zc_databasePath : string;
  zc_api_host : string; zc_api_port : number; zc_api_allowedOrigins : list string; zc_worker_pollMs : number;
  zc_admin_displayName : string; zc_model_provider : string; zc_model_piCommand : string; zc_model_localEndpoint : option string;
  zc_docker : DockerConfig; zc_vm : VmConfig; zc_hostd_socketPath : string; zc_shares : ShareConfig; zc_terminal : TerminalConfig;
  zc_vodPlayer : VodPlayerConfig; zc_photostaff_baseMapUrl : string; zc_nasRoots : list NasRootConfig; zc_backup : BackupConfig;
  zc_health : HealthConfig }.

(** ** Values *)
Definition toBoolean (value : option string) (fallback : bool) : bool :=
  match value with
  | None => fallback
  | Some s =>
      let s := toLowerCase (trim s) in
      if bool_decide (s ∈ ["1"; "true"; "yes"; "on"]) then true
      else if bool_decide (s ∈ ["0"; "false"; "no"; "off"]) then false else fallback
  end.
(** Only the text of an environment variable is checked, not the fallback. *)
Definition toPositiveInteger (value : option string) (fallback : number) : number :=
  match value with
  | None => fallback
  | Some s => let parsed := to_number s in if positive_number parsed then parsed else fallback
  end.
Definition strictBoolean (value : option (string + bool)) (fallback : bool) (name : string) : exn + bool :=
  match value with
  | None => inr fallback
  | Some (inr b) => inr b
  | Some (inl s) =>
      if bool_decide (s ∈ ["1"; "true"]) then inr true
      else if bool_decide (s ∈ ["0"; "false"]) then inr false
      else inl (Error ("VOD Player " +:+ name +:+ " must be 0 or 1"))
  end.
Definition strictPositiveInteger (value : option (string + number)) (fallback : number) (name : string) : exn + number :=
  match value with
  | None => inr fallback
  | Some v =>
      let parsed := match v with inl s => to_number s | inr n => n end in
      if positive_number parsed then inr parsed else inl (Error ("VOD Player " +:+ name +:+ " must be a positive integer"))
  end.
Definition isPrivateTemporaryPath (value : string) : bool :=
  bool_decide (value = "/tmp") || startsWith "/tmp/" value || bool_decide (value = "/var/tmp") || startsWith "/var/tmp/" value.
Definition isLoopbackHost (host : string) : bool :=
  bool_decide (toLowerCase (trim host) ∈ ["localhost"; "127.0.0.1"; "::1"; "[::1]"]).
Definition refuse_if (b : bool) (message : string) : exn + unit := if b then inl (Error message) else inr tt.
(** [a ?? b] where [b] may be absent too. *)
Definition or_else {A} (a b : option A) : option A := match a with Some _ => a | None => b end.
Infix "<|>" := or_else (at level 60, right associativity).

Section Config.
(** [process.cwd()], [env], and what lies outside: the files, the TOML parser
    and the URL parser, which gives the protocol and the text of a URL. *)
Context (pwd : string) (env : string → option string).
Context (existsSync : string → bool) (readFileSync : string → exn + string) (readable : string → bool).
Context (parse_toml : string → exn + TomlConfig) (new_url : string → option (string * string)).

Definition path_resolve (args : list string) : string := resolve pwd args.
Definition isUnder (candidate parent : string) : bool :=
  let child := path_resolve [candidate] in
  let base := path_resolve [parent] in
  bool_decide (child = base) || startsWith (base +:+ "/") child.
Definition resolveZosPaths (rootDir : string) : exn + ZosPaths :=
  let wrong := Error ("ZOS root must be an absolute non-root directory: " +:+ rootDir) in
  if negb (isAbsolute rootDir) then inl wrong else
  let root := path_resolve [rootDir] in
  if bool_decide (root = "/") then inl wrong else inr (paths_of root).
Definition assertPathInside (candidate parent label : string) : exn + string :=
  let resolved := path_resolve [candidate] in
  if isUnder resolved parent then inr resolved
  else inl (Error (label +:+ " must be inside " +:+ path_resolve [parent] +:+ ": " +:+ candidate)).

Definition loadTomlConfig (configPath : string) : exn + TomlConfig :=
  if negb (existsSync configPath) then inr no_toml else text ← readFileSync configPath; parse_toml text.
(** The nearest directory above with a package.json that has workspaces, or
    that cannot be read; [JSON.parse] gives null, or something that has
    properties.  The loop goes up to the root: [None] when [fuel] is too little. *)
Definition workspace_at (current : string) : bool :=
  let packagePath := path_join [current; "package.json"] in
  existsSync packagePath &&
  match readFileSync packagePath with
  | inl _ => true
  | inr text =>
      match JSON_parse text with
      | None | Some JNull => true
      | Some v => to_boolean (prop (recordFrom (Some v)) "workspaces")
      end
  end.
Fixpoint find_up (fuel : nat) (current start : string) : option string :=
  match fuel with
  | O => None
  | S fuel =>
      if workspace_at current then Some current else
      let parent := dirname current in
      if bool_decide (parent = current) then Some start else find_up fuel parent start
  end.
Definition findWorkspaceRoot (startPath : string) : string :=
  let start := path_resolve [startPath] in find_up (S (String.length start)) start start ⁇ start.

Definition loadEnvironment (file : TomlConfig) : DeploymentMode :=
  if bool_decide (toLowerCase (trim ((env "ZOS_ENVIRONMENT" <|> tc_environment file) ⁇ "development")) = "production")
  then production else development.
Definition resolveRootDir (file : TomlConfig) (workspaceRoot : string) (environment : DeploymentMode) : exn + string :=
  let configured := normalizeText (env "ZOS_ROOT") <|> normalizeText (tc_root_dir file) in
  let root := match configured with
              | Some c => path_resolve [workspaceRoot; c]
              | None => if bool_decide (environment = production) then "/zos" else path_resolve [workspaceRoot; ".zos"; "dev-root"]
              end in
  _ ← refuse_if (bool_decide (environment = production) && negb (bool_decide (root = "/zos")))
        ("Production ZOS root must be /zos: " +:+ root);
  _ ← refuse_if (bool_decide (root = "/")) ("ZOS root cannot be the filesystem root: " +:+ root);
  inr root.

(** *** The roots *)
(** [value.split(",")] of a variable that is set and not empty. *)
Definition env_list (name : string) : option (list string) := v ← env name; s ← nonempty v; Some (split_on "," s).
Definition or_text (a b : string) : string := if bool_decide (a = "") then b else a.
Definition parseNamedPathEnv (entry : string) (index : nat) (cwd fallbackPrefix : string) : option NasRootConfig :=
  if bool_decide (entry = "") then None else
  let fallbackId := fallbackPrefix +:+ "-" +:+ pretty (S index) in
  match split_on ":" entry with
  | id :: name :: ((_ :: _) as pathParts) =>
      Some (RootConfig (or_text id fallbackId) (or_text name (or_text id fallbackId))
              (path_resolve [cwd; join ":" pathParts]) None None None None)
  | _ =>
      let rootPath := path_resolve [cwd; entry] in
      Some (RootConfig fallbackId (or_text (basename rootPath) fallbackId) rootPath None None None None)
  end.
Definition parseNasRootEnv (entry : string) (index : nat) (cwd : string) : option NasRootConfig :=
  parseNamedPathEnv entry index cwd "root".
Definition default_policy (environment : DeploymentMode) : MountPolicy :=
  if bool_decide (environment = production) then mount_required else mount_optional.
Definition root_of_toml (cwd : string) (environment : DeploymentMode) (paths : ZosPaths) (index : nat) (r : toml_root) : NasRootConfig :=
  RootConfig (tr_id r ⁇ ("root-" +:+ pretty (S index))) ((tr_name r <|> tr_id r) ⁇ ("Root " +:+ pretty (S index)))
    (path_resolve [cwd; tr_path r ⁇ zp_defaultDataRoot paths])
    (Some (tr_mount_policy r ⁇ default_policy environment))
    (normalizeText (tr_expected_source r)) (normalizeText (tr_expected_uuid r)) (normalizeText (tr_expected_fstype r)).
Definition loadNasRoots (file : TomlConfig) (cwd : string) (environment : DeploymentMode) (paths : ZosPaths) : list NasRootConfig :=
  match env_list "ZOS_NAS_ROOTS" with
  | Some entries =>
      (λ r, RootConfig (rc_id r) (rc_name r) (rc_path r) (Some (rc_mountPolicy r ⁇ default_policy environment))
              (rc_expectedSource r) (rc_expectedUuid r) (rc_expectedFstype r)) <$>
        omap id (imap (λ index entry, parseNasRootEnv (trim entry) index cwd) entries)
  | None =>
      match tc_nas_roots file with
      | Some ((_ :: _) as roots) => imap (root_of_toml cwd environment paths) roots
      | _ => [RootConfig "primary" "Primary data" (zp_defaultDataRoot paths)
                (if bool_decide (environment = production) then Some mount_required else None) None None None]
      end
  end.

(** *** The other parts *)
Definition loadBackupConfig (file : TomlConfig) (cwd dataDir : string) (environment : DeploymentMode) : exn + BackupConfig :=
  let source := tc_backup file in
  let repositoryRaw := normalizeText (env "ZOS_BACKUP_REPOSITORY" <|> env "ZOS_BACKUP_REPOSITORY_PATH" <|>
                                      (source ≫= tb_repository_path) <|> (source ≫= tb_repository)) in
  let passwordFileRaw := normalizeText (env "ZOS_BACKUP_PASSWORD_FILE" <|> (source ≫= tb_password_file)) in
  let stagingRaw := normalizeText (env "ZOS_BACKUP_STAGING_PATH" <|> (source ≫= tb_staging_path)) in
  let result := Backup
    (toBoolean (env "ZOS_BACKUP_ENABLED") ((source ≫= tb_enabled) ⁇ isSome repositoryRaw))
    (option_map (λ p, path_resolve [cwd; p]) repositoryRaw)
    (option_map (λ p, path_resolve [cwd; p]) passwordFileRaw)
    (from_option (λ p, path_resolve [cwd; p]) (path_join [dataDir; "backup-staging"]) stagingRaw)
    (toBoolean (env "ZOS_BACKUP_REQUIRE_MOUNT") ((source ≫= tb_require_mount) ⁇ bool_decide (environment = production)))
    (toPositiveInteger (env "ZOS_BACKUP_RETRY_COUNT") ((source ≫= tb_retry_count) ⁇ lit 2))
    (toPositiveInteger (env "ZOS_BACKUP_TIMEOUT_MS") ((source ≫= tb_timeout_ms) ⁇ lit 300000))
    (toPositiveInteger (env "ZOS_BACKUP_KEEP_DAILY") ((source ≫= tb_keep_daily) ⁇ lit 7))
    (toPositiveInteger (env "ZOS_BACKUP_KEEP_WEEKLY") ((source ≫= tb_keep_weekly) ⁇ lit 4)) in
  match bk_passwordFile result with
  | Some f =>
      _ ← refuse_if (bk_enabled result && negb (bool_decide (f = "")) && negb (readable f)) ("Backup password file is not readable: " +:+ f);
      inr result
  | None => inr result
  end.
Definition loadHealthConfig (file : TomlConfig) : HealthConfig :=
  let source := tc_health file in
  Health (toPositiveInteger (env "ZOS_HEALTH_STALE_INDEX_WARNING_MS") ((source ≫= th_stale_index_warning_ms) ⁇ lit (2 * 60 * 60 * 1000)))
    (toPositiveInteger (env "ZOS_HEALTH_STALE_INDEX_CRITICAL_MS") ((source ≫= th_stale_index_critical_ms) ⁇ lit (6 * 60 * 60 * 1000)))
    (toPositiveInteger (env "ZOS_HEALTH_STALLED_RUN_MS") ((source ≫= th_stalled_run_ms) ⁇ lit (15 * 60 * 1000)))
    (toPositiveInteger (env "ZOS_HEALTH_CONSECUTIVE_FAILURE_THRESHOLD") ((source ≫= th_consecutive_failure_threshold) ⁇ lit 2))
    (toPositiveInteger (env "ZOS_HEALTH_BACKUP_STALE_MS") ((source ≫= th_backup_stale_ms) ⁇ lit (26 * 60 * 60 * 1000))).
Definition PHOTOSTAFF_BASE_MAP_RELEASE_URL : string :=
  "https://github.com/zhubby/ZOS/releases/download/map-natural-earth-ii-3.2.0/natural-earth-ii-3.2.0-raster.pmtiles".
Definition loadPhotostaffBaseMapUrl (file : TomlConfig) : exn + string :=
  let value := (normalizeText (env "ZOS_PHOTOSTAFF_BASEMAP_URL") <|> normalizeText (tc_photostaff_basemap_url file)) ⁇
               PHOTOSTAFF_BASE_MAP_RELEASE_URL in
  match new_url value with
  | None => inl (Error "Photostaff base map URL must be a valid HTTPS URL")
  | Some (protocol, href) =>
      _ ← refuse_if (negb (bool_decide (protocol = "https:"))) "Photostaff base map URL must use HTTPS";
      inr href
  end.
Definition loadHostdConfig (file : TomlConfig) : string :=
  let socketPath := (normalizeText (env "ZOS_HOSTD_SOCKET_PATH") <|> normalizeText (tc_hostd_socket_path file)) ⁇ "/run/zos/hostd.sock" in
  if isAbsolute socketPath then socketPath else "/run/zos/hostd.sock".
Definition loadVmConfig (file : TomlConfig) (cwd : string) (paths : ZosPaths) : VmConfig :=
  let vm := tc_vm file in
  let isoRoots := match env_list "ZOS_VM_ISO_ROOTS" with
                  | Some l => List.filter (λ p, negb (bool_decide (p = ""))) ((λ v, path_resolve [cwd; trim v]) <$> l)
                  | None => (λ v, path_resolve [cwd; v]) <$> ((vm ≫= tvm_iso_roots) ⁇ [zp_isoRoot paths])
                  end in
  Vm (toBoolean (env "ZOS_VM_ENABLED") ((vm ≫= tvm_enabled) ⁇ true))
    ((env "ZOS_VM_LIBVIRT_URI" <|> (vm ≫= tvm_libvirt_uri)) ⁇ "qemu:///system")
    (path_resolve [cwd; (env "ZOS_VM_STORAGE_PATH" <|> (vm ≫= tvm_storage_path)) ⁇ zp_vmRoot paths])
    ((env "ZOS_VM_NETWORK_NAME" <|> (vm ≫= tvm_network_name)) ⁇ "default")
    isoRoots (toPositiveInteger (env "ZOS_VM_OPERATION_TIMEOUT_MS") ((vm ≫= tvm_operation_timeout_ms) ⁇ lit 120000)).
Definition loadDockerConsoleShells (file : TomlConfig) : list string :=
  let rawShells := match env_list "ZOS_DOCKER_CONSOLE_SHELLS" with Some l => Some l | None => tc_docker file ≫= tdk_console_shells end in
  let shells := List.filter isAbsolute (omap (λ s, normalizeText (Some s)) (rawShells ⁇ [])) in
  match shells with [] => ["/bin/sh"; "/bin/bash"] | _ => shells end.
Definition loadDockerConfig (file : TomlConfig) : DockerConfig :=
  let docker := tc_docker file in
  Docker (toBoolean (env "ZOS_DOCKER_ENABLED") ((docker ≫= tdk_enabled) ⁇ false))
    ((env "ZOS_DOCKER_SOCKET_PATH" <|> (docker ≫= tdk_socket_path)) ⁇ "/var/run/docker.sock")
    ((normalizeText (env "ZOS_DOCKER_COMPOSE_COMMAND") <|> normalizeText (docker ≫= tdk_compose_command)) ⁇ "docker")
    (toPositiveInteger (env "ZOS_DOCKER_OPERATION_TIMEOUT_MS") ((docker ≫= tdk_operation_timeout_ms) ⁇ lit 120000))
    (loadDockerConsoleShells file).
Definition loadShareConfig (file : TomlConfig) : ShareConfig :=
  let shares := tc_shares file in
  Shares (toBoolean (env "ZOS_SHARES_ENABLED") ((shares ≫= tsx_enabled) ⁇ false))
    (ShareAccount ((normalizeText (env "ZOS_SHARE_ACCOUNT_USERNAME") <|> normalizeText (shares ≫= tsx_account_username)) ⁇ "zos-share") None)
    (omap id (imap (λ index item, normalizeShareItem item index) ((shares ≫= tsx_items) ⁇ []))).
Definition TERMINAL_SESSION_DEFAULT_IDLE_TIMEOUT_MS : Z := 30 * 60 * 1000.
Definition TERMINAL_SESSION_DEFAULT_CONNECT_TIMEOUT_MS : Z := 10 * 1000.
Definition loadTerminalConfig (file : TomlConfig) : TerminalConfig :=
  let terminal := tc_terminal file in
  Terminal (normalizeText (env "ZOS_TERMUX_USER") <|> normalizeText (terminal ≫= tt_user))
    ((normalizeText (env "ZOS_TERMUX_SOCKET_PATH") <|> normalizeText (terminal ≫= tt_termux_socket_path)) ⁇ "/run/zos/termux.sock")
    (toPositiveInteger (env "ZOS_TERMUX_SESSION_IDLE_TIMEOUT_MS")
       ((terminal ≫= tt_session_idle_timeout_ms) ⁇ lit TERMINAL_SESSION_DEFAULT_IDLE_TIMEOUT_MS))
    (toPositiveInteger (env "ZOS_TERMUX_CONNECT_TIMEOUT_MS")
       ((terminal ≫= tt_connect_timeout_ms) ⁇ lit TERMINAL_SESSION_DEFAULT_CONNECT_TIMEOUT_MS))
    (toPositiveInteger (env "ZOS_TERMUX_MAX_SESSIONS") ((terminal ≫= tt_max_sessions) ⁇ lit 32)).

Definition user_char (c : ascii) : bool := is_alnum c || bool_decide (c ∈ ["."; "_"; "-"]%char).
(** The variable, or the value of the file. *)
Definition either {A} (text : option string) (value : option A) : option (string + A) :=
  match text with Some s => Some (inl s) | None => option_map inr value end.
Definition loadVodPlayerConfig (file : TomlConfig) (paths : ZosPaths) : exn + VodPlayerConfig :=
  let player := tc_vod_player file in
  let videoOutput := (env "ZOS_VOD_PLAYER_VIDEO_OUTPUT" <|> (player ≫= tv_video_output)) ⁇ "drm" in
  let audioOutput := (env "ZOS_VOD_PLAYER_AUDIO_OUTPUT" <|> (player ≫= tv_audio_output)) ⁇ "alsa" in
  let hwdec := (env "ZOS_VOD_PLAYER_HWDEC" <|> (player ≫= tv_hwdec)) ⁇ "auto-safe" in
  let socketPath := (normalizeText (env "ZOS_VOD_PLAYER_SOCKET_PATH") <|> normalizeText (player ≫= tv_socket_path)) ⁇ "/run/zos/vod-player.sock" in
  let statePath := (normalizeText (env "ZOS_VOD_PLAYER_STATE_PATH") <|> normalizeText (player ≫= tv_state_path)) ⁇
                   path_join [zp_vodPlayerStateDir paths; "session.json"] in
  let playerUser := (normalizeText (env "ZOS_VOD_PLAYER_USER") <|> normalizeText (player ≫= tv_user)) ⁇ "zos" in
  let ms name value fallback field := strictPositiveInteger (either (env name) (player ≫= value)) (lit fallback) field in
  _ ← refuse_if (negb (isAbsolute socketPath) || negb (isAbsolute statePath)) "VOD Player socket_path and state_path must be absolute";
  _ ← refuse_if (bool_decide (playerUser = "") || negb (all_chars user_char playerUser) || bool_decide (playerUser = "root"))
        "VOD Player user must name a non-root local account";
  _ ← refuse_if (negb (bool_decide (videoOutput = "drm")) || negb (bool_decide (audioOutput = "alsa")) ||
                 negb (bool_decide (hwdec ∈ ["auto-safe"; "auto"; "no"]))) "VOD Player output configuration is invalid";
  retryBaseDelayMs ← ms "ZOS_VOD_PLAYER_RETRY_BASE_DELAY_MS" tv_retry_base_delay_ms 2000 "retry_base_delay_ms";
  retryMaxDelayMs ← ms "ZOS_VOD_PLAYER_RETRY_MAX_DELAY_MS" tv_retry_max_delay_ms 60000 "retry_max_delay_ms";
  _ ← refuse_if (num_lt retryMaxDelayMs retryBaseDelayMs) "VOD Player retry_max_delay_ms must be at least retry_base_delay_ms";
  enabled ← strictBoolean (either (env "ZOS_VOD_PLAYER_ENABLED") (player ≫= tv_enabled)) false "enabled";
  commandTimeoutMs ← ms "ZOS_VOD_PLAYER_COMMAND_TIMEOUT_MS" tv_command_timeout_ms 5000 "command_timeout_ms";
  startupTimeoutMs ← ms "ZOS_VOD_PLAYER_STARTUP_TIMEOUT_MS" tv_startup_timeout_ms 15000 "startup_timeout_ms";
  checkpointIntervalMs ← ms "ZOS_VOD_PLAYER_CHECKPOINT_INTERVAL_MS" tv_checkpoint_interval_ms 5000 "checkpoint_interval_ms";
  inr (VodPlayer enabled socketPath statePath commandTimeoutMs startupTimeoutMs checkpointIntervalMs retryBaseDelayMs retryMaxDelayMs
         (normalizeText (env "ZOS_VOD_PLAYER_DRM_CONNECTOR") <|> normalizeText (player ≫= tv_drm_connector))
         (normalizeText (env "ZOS_VOD_PLAYER_AUDIO_DEVICE") <|> normalizeText (player ≫= tv_audio_device)) hwdec playerUser).

(** *** The checks *)
Definition overlap (a b : string) : bool := isUnder a b || isUnder b a.
Definition check_root (paths : ZosPaths) (root : NasRootConfig) : exn + unit :=
  _ ← refuse_if (overlap (rc_path root) (zp_appsRoot paths)) ("Production NAS roots must not overlap " +:+ zp_appsRoot paths);
  refuse_if (negb (bool_decide (dirname (path_resolve [rc_path root]) = zp_dataRoot paths)) ||
             bool_decide (path_resolve [rc_path root] = zp_backupRoot paths))
    ("NAS roots must be direct children of " +:+ zp_dataRoot paths +:+ ": " +:+ rc_path root).
(** [for (const x of l) { ... throw ... }] *)
Fixpoint check_each {A} (f : A → exn + unit) (l : list A) : exn + unit :=
  match l with [] => inr tt | x :: l => _ ← f x; check_each f l end.
Definition check_backup (paths : ZosPaths) (dataDir : string) (nasRoots : list NasRootConfig) (backup : BackupConfig) : exn + unit :=
  if negb (bk_enabled backup) then inr tt else
  let missing := "Production backup repository must be configured under " +:+ zp_backupRoot paths in
  match bk_repositoryPath backup ≫= nonempty with
  | None => inl (Error missing)
  | Some repositoryPath =>
      _ ← refuse_if (negb (isUnder repositoryPath (zp_backupRoot paths))) missing;
      _ ← refuse_if (overlap repositoryPath dataDir) "Backup repository must not overlap dataDir";
      _ ← check_each (λ root, refuse_if (overlap repositoryPath (rc_path root) || overlap (bk_stagingPath backup) (rc_path root))
            "Backup paths must not overlap NAS roots") nasRoots;
      _ ← refuse_if (overlap repositoryPath (bk_stagingPath backup)) "Backup repository and staging paths must not overlap";
      _ ← refuse_if (negb (isUnder (bk_stagingPath backup) (zp_stateDir paths))) ("Backup staging must be under " +:+ zp_stateDir paths);
      match bk_passwordFile backup ≫= nonempty with
      | Some f => refuse_if (negb (isUnder f (zp_configDir paths))) ("Backup password file must be under " +:+ zp_configDir paths)
      | None => inr tt
      end
  end.
Definition validateConfig (environment : DeploymentMode) (apiHost configPath : string) (paths : ZosPaths) (dataDir : string)
    (nasRoots : list NasRootConfig) (backup : BackupConfig) (vm : VmConfig) (vodPlayer : VodPlayerConfig) : exn + unit :=
  let prod := bool_decide (environment = production) in
  let config_toml := path_join [zp_configDir paths; "config.toml"] in
  _ ← refuse_if (negb (isLoopbackHost apiHost)) "ZOS API must bind to a loopback host";
  _ ← refuse_if (prod && negb (bool_decide (zp_rootDir paths = "/zos"))) ("Production ZOS root must be /zos: " +:+ zp_rootDir paths);
  _ ← refuse_if (prod && negb (bool_decide (path_resolve [configPath] = config_toml))) ("Production ZOS config must be " +:+ config_toml);
  _ ← check_each (check_root paths) nasRoots;
  _ ← refuse_if (negb (isUnder (vm_storagePath vm) (zp_vmRoot paths))) ("VM storage must be under " +:+ zp_vmRoot paths);
  _ ← check_each (λ isoRoot, refuse_if (negb (isUnder isoRoot (zp_isoRoot paths))) ("VM ISO roots must be under " +:+ zp_isoRoot paths))
        (vm_isoRoots vm);
  _ ← refuse_if (negb (isUnder (vp_statePath vodPlayer) (zp_vodPlayerStateDir paths)))
        ("VOD Player state must be under " +:+ zp_vodPlayerStateDir paths);
  if negb prod then inr tt else
  _ ← refuse_if (isPrivateTemporaryPath (vp_socketPath vodPlayer) || isPrivateTemporaryPath (vp_statePath vodPlayer))
        "VOD Player socket_path and state_path cannot use /tmp or /var/tmp";
  check_backup paths dataDir nasRoots backup.

Definition loadModelProvider (envValue fileValue : option string) : string :=
  let raw := (envValue <|> fileValue) ⁇ "pi" in if bool_decide (raw ∈ ["cloud"; "local"; "pi"]) then raw else "pi".
Definition loadAllowedOrigins (file : TomlConfig) : list string :=
  match env_list "ZOS_ALLOWED_ORIGINS" with
  | Some l => List.filter (λ s, negb (bool_decide (s = ""))) (trim <$> l)
  | None => tc_api_allowed_origins file ⁇ []
  end.
Definition removed_name (name : string) : exn + unit :=
  refuse_if (isSome (env name)) (name +:+ " is no longer supported; configure ZOS_ROOT instead").
Definition loadConfig (cwd : string) : exn + ZosConfig :=
  _ ← check_each removed_name ["ZOS_DATA_DIR"; "ZOS_DATABASE_PATH"];
  let configPath := env "ZOS_CONFIG" ⁇ "/zos/config/config.toml" in
  file ← loadTomlConfig configPath;
  let workspaceRoot := findWorkspaceRoot cwd in
  let environment := loadEnvironment file in
  rootDir ← resolveRootDir file workspaceRoot environment;
  paths ← resolveZosPaths rootDir;
  let dataDir := zp_stateDir paths in
  let nasRoots := loadNasRoots file workspaceRoot environment paths in
  backup ← loadBackupConfig file workspaceRoot dataDir environment;
  let health := loadHealthConfig file in
  let apiHost := (env "ZOS_API_HOST" <|> tc_api_host file) ⁇ "127.0.0.1" in
  let vm := loadVmConfig file workspaceRoot paths in
  vodPlayer ← loadVodPlayerConfig file paths;
  _ ← validateConfig environment apiHost configPath paths dataDir nasRoots backup vm vodPlayer;
  baseMapUrl ← loadPhotostaffBaseMapUrl file;
  inr (Config environment paths dataDir (zp_databasePath paths) apiHost
         (toPositiveInteger (env "ZOS_API_PORT") (tc_api_port file ⁇ lit 3010)) (loadAllowedOrigins file)
         (toPositiveInteger (env "ZOS_WORKER_POLL_MS") (tc_worker_poll_ms file ⁇ lit 750))
         ((env "ZOS_ADMIN_DISPLAY_NAME" <|> tc_admin_display_name file) ⁇ "ZOS Admin")
         (loadModelProvider (env "ZOS_MODEL_PROVIDER") (tc_model_provider file))
         ((env "ZOS_PI_COMMAND" <|> tc_model_pi_command file) ⁇ "pi") (env "ZOS_LOCAL_ENDPOINT" <|> tc_model_local_endpoint file)
         (loadDockerConfig file) vm (loadHostdConfig file) (loadShareConfig file) (loadTerminalConfig file) vodPlayer baseMapUrl
         nasRoots backup health).

(** ** What the checks mean *)
(** The names below the root of a resolved path. *)
Definition names (p : string) : list string := normalizeString (resolve_from pwd [p]) false.
(** [p] is [base] or lies below it; no path lies below both [a] and [b]. *)
Definition below (base p : string) : Prop := ∃ t, names p = names base ++ t.
Definition apart (a b : string) : Prop := ∀ p, below a p → ¬ below b p.

Lemma names_plain p : Forall plain_name (names p).
Proof. apply normalizeString_plain. Qed.
Lemma path_resolve_names p : path_resolve [p] = rooted (names p).
Proof. done. Qed.
Lemma names_rooted l : Forall plain_name l → names (rooted l) = l.
Proof.
  intros H. unfold names. cbn [resolve_from]. rewrite bool_decide_false by done. rewrite rooted_absolute. by apply normalizeString_rooted.
Qed.
Lemma below_refl p : below p p.
Proof. exists []. by rewrite app_nil_r. Qed.

Lemma isUnder_below c p : isUnder c p = true → below p c.
Proof.
  unfold isUnder. cbv zeta. rewrite !path_resolve_names. intros [H%bool_decide_eq_true|H]%orb_prop.
  - apply rooted_inj in H; [|apply names_plain..]. exists []. by rewrite app_nil_r.
  - destruct (names p) as [|x l] eqn:E; [exists (names c); by rewrite E|]. rewrite <-E in H.
    apply rooted_prefix in H as (r & _ & Hr); [by exists r|apply names_plain..|by rewrite E].
Qed.
Lemma below_isUnder c p : names p ≠ [] → below p c → isUnder c p = true.
Proof.
  intros Hp [t Ht]. unfold isUnder. cbv zeta. rewrite !path_resolve_names. apply orb_true_iff.
  destruct t as [|x t]; [left|right]; rewrite Ht; [by rewrite app_nil_r, bool_decide_true|].
  apply rooted_prefix; [apply names_plain|rewrite <-Ht; apply names_plain|done|by exists (x :: t)].
Qed.
(** Of two places above a path one is above the other. *)
Lemma overlap_apart a b : names a ≠ [] → names b ≠ [] → overlap a b = false → apart a b.
Proof.
  intros Ha Hb [H1 H2]%orb_false_iff p [s Hs] [t Ht]. rewrite Hs in Ht.
  apply not_true_iff_false in H1, H2. apply app_eq_inv in Ht as [(r & E & _)|(r & E & _)].
  - apply H1, below_isUnder; [done|]. by exists r.
  - apply H2, below_isUnder; [done|]. by exists r.
Qed.
Lemma below_nonempty base p : names base ≠ [] → below base p → names p ≠ [].
Proof. intros Hb [t ->]. by destruct (names base). Qed.

Lemma refuse_if_inv b m u : refuse_if b m = inr u → b = false.
Proof. by destruct b. Qed.
Lemma check_each_inv {A} (f : A → exn + unit) l u : check_each f l = inr u → Forall (λ x, f x = inr tt) l.
Proof.
  induction l as [|x l IH]; [constructor|]. cbn [check_each]. intros ([] & Hx & H)%check_inv. constructor; [done|by apply IH].
Qed.

Record backup_safe (paths : ZosPaths) (dataDir : string) (nasRoots : list NasRootConfig) (b : BackupConfig) (repo : string) : Prop := BackupSafe {
  bs_repository : bk_repositoryPath b = Some repo;
  bs_below : below (zp_backupRoot paths) repo;
  bs_staging : below (zp_stateDir paths) (bk_stagingPath b);
  bs_state : apart repo dataDir;
  bs_apart : apart repo (bk_stagingPath b);
  bs_roots : Forall (λ r, apart repo (rc_path r) ∧ apart (bk_stagingPath b) (rc_path r)) nasRoots;
  bs_password : ∀ f, bk_passwordFile b = Some f → f ≠ "" → below (zp_configDir paths) f
}.
(** What an accepted configuration promises; [root] are the names of its root. *)
Record config_safe (configPath : string) (c : ZosConfig) (root : list string) : Prop := ConfigSafe {
  sf_loopback : isLoopbackHost (zc_api_host c) = true;
  sf_root : root ≠ [] ∧ Forall plain_name root ∧ zc_paths c = paths_of (rooted root) ∧ zc_dataDir c = rooted (root ++ ["state"]);
  sf_production : zc_environment c = production → root = ["zos"] ∧ path_resolve [configPath] = "/zos/config/config.toml";
  sf_roots : Forall (λ r, ∃ name, plain_name name ∧ name ≠ "backup" ∧ path_resolve [rc_path r] = rooted (root ++ ["data"; name])) (zc_nasRoots c);
  sf_vm : below (rooted (root ++ ["vm"])) (vm_storagePath (zc_vm c)) ∧
          Forall (below (rooted (root ++ ["iso"]))) (vm_isoRoots (zc_vm c));
  sf_vod : below (rooted (root ++ ["state"; "vod-player"])) (vp_statePath (zc_vodPlayer c));
  sf_backup : zc_environment c = production → bk_enabled (zc_backup c) = true →
              ∃ repo, backup_safe (zc_paths c) (zc_dataDir c) (zc_nasRoots c) (zc_backup c) repo
}.

Lemma resolveZosPaths_inv rootDir paths : resolveZosPaths rootDir = inr paths →
  ∃ root, root ≠ [] ∧ Forall plain_name root ∧ path_resolve [rootDir] = rooted root ∧ paths = paths_of (rooted root).
Proof.
  unfold resolveZosPaths. destruct (isAbsolute rootDir); [|done]. cbn [negb]. case_bool_decide as E; [done|]. intros [= <-].
  exists (names rootDir). split; [|split; [apply names_plain|by rewrite path_resolve_names]]. intros H. apply E.
  by rewrite path_resolve_names, H.
Qed.
Lemma plain_literal x : bool_decide (plain_name x) = true → plain_name x.
Proof. apply bool_decide_eq_true. Qed.
Lemma dirs_of root : Forall plain_name root →
  let p := paths_of (rooted root) in
  zp_rootDir p = rooted root ∧ zp_configDir p = rooted (root ++ ["config"]) ∧ zp_stateDir p = rooted (root ++ ["state"]) ∧
  zp_dataRoot p = rooted (root ++ ["data"]) ∧ zp_backupRoot p = rooted (root ++ ["data"; "backup"]) ∧
  zp_appsRoot p = rooted (root ++ ["apps"]) ∧ zp_isoRoot p = rooted (root ++ ["iso"]) ∧ zp_vmRoot p = rooted (root ++ ["vm"]) ∧
  zp_vodPlayerStateDir p = rooted (root ++ ["state"; "vod-player"]).
Proof.
  intros H. assert (∀ x, bool_decide (plain_name x) = true → path_join [rooted root; x] = rooted (root ++ [x])) as E.
  { intros x Hx%bool_decide_eq_true. by apply path_join_rooted. }
  assert (∀ x y, bool_decide (plain_name x) = true → bool_decide (plain_name y) = true →
    path_join [rooted (root ++ [x]); y] = rooted (root ++ [x; y])) as E2.
  { intros x y Hx%bool_decide_eq_true Hy%bool_decide_eq_true. rewrite path_join_rooted; [by rewrite <-app_assoc| |done].
    apply Forall_app. split; [done|by constructor]. }
  cbn -[path_join]. rewrite !E, !E2 by done. done.
Qed.

Lemma check_root_inv root r u : Forall plain_name root → check_root (paths_of (rooted root)) r = inr u →
  ∃ name, plain_name name ∧ name ≠ "backup" ∧ path_resolve [rc_path r] = rooted (root ++ ["data"; name]).
Proof.
  intros Hr. unfold check_root. intros ([] & _ & H)%check_inv. apply refuse_if_inv in H as [H1 H2]%orb_false_iff.
  destruct (dirs_of root Hr) as (_ & _ & _ & Ed & Eb & _). rewrite Ed, Eb in *. apply negb_false_iff, bool_decide_eq_true in H1.
  apply bool_decide_eq_false in H2. rewrite path_resolve_names in *. pose proof (names_plain (rc_path r)) as Hn.
  destruct (names (rc_path r)) as [|x l _] using rev_ind.
  - rewrite dirname_root in H1. apply (rooted_inj [] (root ++ ["data"])) in H1; [by destruct root|done|].
    apply Forall_app. split; [done|]. constructor; [by apply plain_literal|done].
  - apply Forall_app in Hn as [Hl [Hx _]%Forall_cons]. rewrite dirname_rooted in H1 by done.
    apply rooted_inj in H1; [|done|apply Forall_app; split; [done|]; constructor; [by apply plain_literal|done]]. subst l.
    exists x. rewrite <-app_assoc in *. split; [done|]. split; [|done]. intros ->. by apply H2.
Qed.
Lemma names_child root x : Forall plain_name (root ++ [x]) → names (rooted (root ++ [x])) ≠ [].
Proof. intros H. rewrite names_rooted by done. by destruct root. Qed.

Lemma check_backup_inv root dataDir nasRoots b u (Hr : Forall plain_name root) (Hd : dataDir = rooted (root ++ ["state"]))
    (Hn : Forall (λ r, names (rc_path r) ≠ []) nasRoots) :
  check_backup (paths_of (rooted root)) dataDir nasRoots b = inr u → bk_enabled b = true →
  ∃ repo, backup_safe (paths_of (rooted root)) dataDir nasRoots b repo.
Proof.
  unfold check_backup. intros H Hb. rewrite Hb in H. cbn [negb] in H. cbv zeta in H. destruct (dirs_of root Hr) as (_ & Ec & Es & _ & Eb & _).
  destruct (bk_repositoryPath b) as [repo|] eqn:Er; [|done]. cbn [mbind option_bind] in H. unfold nonempty at 1 in H.
  case_bool_decide as Hne; [done|]. apply check_inv in H as ([] & H1%refuse_if_inv & H). apply check_inv in H as ([] & H2%refuse_if_inv & H).
  apply check_inv in H as ([] & H3%check_each_inv & H). apply check_inv in H as ([] & H4%refuse_if_inv & H).
  apply check_inv in H as ([] & H5%refuse_if_inv & H). apply negb_false_iff in H1, H5. apply isUnder_below in H1, H5.
  assert (∀ x, bool_decide (plain_name x) = true → Forall plain_name (root ++ [x])) as Hp.
  { intros x Hx%bool_decide_eq_true. apply Forall_app. split; [done|by constructor]. }
  assert (names repo ≠ []) as Hrepo.
  { eapply below_nonempty; [|exact H1]. rewrite Eb. change (root ++ ["data"; "backup"]) with (root ++ (["data"] ++ ["backup"])).
    rewrite app_assoc. apply names_child, Forall_app. split; [by apply Hp|]. constructor; [by apply plain_literal|done]. }
  assert (names (bk_stagingPath b) ≠ []) as Hstaging.
  { eapply below_nonempty; [|exact H5]. rewrite Es. by apply names_child, Hp. }
  assert (names dataDir ≠ []) as Hdata by (subst dataDir; by apply names_child, Hp).
  exists repo. split; [done|done|done|by apply overlap_apart|by apply overlap_apart| |].
  - rewrite Forall_forall in *. intros r Hin. specialize (H3 r Hin). apply refuse_if_inv in H3 as [Ha Hb']%orb_false_iff.
    split; apply overlap_apart; auto.
  - intros f Hf Hfe. rewrite Hf in H. cbn [mbind option_bind] in H. unfold nonempty in H. rewrite bool_decide_false in H by done.
    apply refuse_if_inv, negb_false_iff in H. by apply isUnder_below.
Qed.

(** C23: A configuration that [loadConfig] accepts listens on the loopback
    interface only, and keeps its directories apart: each NAS root is a
    directory of its own right below the data directory and not the one for
    backups, the disks and images of machines and the state of the player are
    below their directories; in production the root is /zos, the file is the
    one below it, and an enabled backup goes to a repository below the backup
    directory that shares no path with a NAS root, the state or the staging
    directory. *)
Theorem loadConfig_safe cwd c : loadConfig cwd = inr c →
  ∃ root, config_safe (env "ZOS_CONFIG" ⁇ "/zos/config/config.toml") c root.
Proof.
  unfold loadConfig. intros ([] & _ & H)%check_inv. cbv zeta in H. set (configPath := env "ZOS_CONFIG" ⁇ _) in *.
  apply check_inv in H as (file & _ & H). set (environment := loadEnvironment file) in *. apply check_inv in H as (rootDir & _ & H).
  apply check_inv in H as (paths & (root & Hne & Hr & _ & ->)%resolveZosPaths_inv & H).
  apply check_inv in H as (backup & _ & H). apply check_inv in H as (vod & _ & H). apply check_inv in H as ([] & Hv & H).
  apply check_inv in H as (url & _ & H). injection H as <-. destruct (dirs_of root Hr) as (Ero & Ec & Es & Ed & Eb & Ea & Ei & Evm & Evo).
  unfold validateConfig in Hv. cbv zeta in Hv. apply check_inv in Hv as ([] & H1%refuse_if_inv & Hv).
  apply check_inv in Hv as ([] & H2%refuse_if_inv & Hv). apply check_inv in Hv as ([] & H3%refuse_if_inv & Hv).
  apply check_inv in Hv as ([] & H4%check_each_inv & Hv). apply check_inv in Hv as ([] & H5%refuse_if_inv & Hv).
  apply check_inv in Hv as ([] & H6%check_each_inv & Hv). apply check_inv in Hv as ([] & H7%refuse_if_inv & Hv).
  rewrite Ero, Ec, Evm, Ei, Evo in *. apply negb_false_iff in H1, H5, H7.
  assert (Forall (λ r, ∃ name, plain_name name ∧ name ≠ "backup" ∧ path_resolve [rc_path r] = rooted (root ++ ["data"; name]))
    (loadNasRoots file (findWorkspaceRoot cwd) environment (paths_of (rooted root)))) as Hroots.
  { eapply Forall_impl; [exact H4|]. intros r. by apply check_root_inv. }
  exists root. split; cbn [zc_api_host zc_paths zc_dataDir zc_environment zc_nasRoots zc_vm zc_vodPlayer zc_backup]; try done.
  - intros E. rewrite E in *. cbn [bool_decide andb] in H2, H3. rewrite bool_decide_true in H2, H3 by done.
    apply negb_false_iff, bool_decide_eq_true in H2, H3. assert (root = ["zos"]) as ->.
    { apply (rooted_inj root ["zos"]); [done|by constructor; [apply plain_literal|]|done]. }
    split; [done|]. by rewrite H3.
  - split; [by apply isUnder_below|]. eapply Forall_impl; [exact H6|]. intros p Hp%refuse_if_inv%negb_false_iff. by apply isUnder_below.
  - by apply isUnder_below.
  - intros E. clearbody environment. subst environment. rewrite (bool_decide_true (production = production)) in Hv by done. cbn [negb] in Hv.
    apply check_inv in Hv as ([] & _ & Hv). refine (check_backup_inv root _ _ _ tt Hr Es _ Hv).
    eapply Forall_impl; [exact Hroots|]. intros r (name & Hn & _ & Hp) Hnil. rewrite path_resolve_names, Hnil in Hp.
    apply (rooted_inj []) in Hp; [by destruct root|done|]. apply Forall_app. split; [done|].
    constructor; [by apply plain_literal|by constructor].
Qed.

(** ** The search for the workspace ends *)
(** With as much fuel as there are names, plus one, it finds the nearest
    directory on the way up that is one, or none and the start. *)
Lemma find_up_spec fuel l start : Forall plain_name l → (length l < fuel)%nat →
  (∃ a b, l = a ++ b ∧ find_up fuel (rooted l) start = Some (rooted a) ∧ workspace_at (rooted a) = true ∧
          ∀ b1 b2, b = b1 ++ b2 → b1 ≠ [] → workspace_at (rooted (a ++ b1)) = false) ∨
  (find_up fuel (rooted l) start = Some start ∧ ∀ a b, l = a ++ b → workspace_at (rooted a) = false).
Proof.
  revert fuel. induction l as [|x l IH] using rev_ind; intros [|fuel] Hl Hf; [lia| |lia|]; cbn [find_up].
  - destruct (workspace_at (rooted [])) eqn:E.
    + left. exists [], []. split_and!; [done|done|done|]. intros b1 b2 Hb Hne. by destruct b1.
    + right. rewrite dirname_root, bool_decide_true by done. split; [done|]. intros a b Hab. by destruct a.
  - apply Forall_app in Hl as [Hl [Hx _]%Forall_cons]. destruct (workspace_at (rooted (l ++ [x]))) eqn:E.
    + left. exists (l ++ [x]), []. rewrite app_nil_r. split_and!; [done..|]. intros b1 b2 Hb Hne. by destruct b1.
    + rewrite dirname_rooted, bool_decide_false; [|intros E'; apply rooted_inj in E'; [|done|apply Forall_app; split; [done|by constructor]];
        apply (f_equal length) in E'; rewrite length_app in E'; simpl in E'; lia|done|done].
      rewrite length_app in Hf. cbn in Hf. destruct (IH fuel Hl ltac:(lia)) as [(a & b & -> & Ef & Hw & Hb)|[Ef Hn]].
      * left. exists a, (b ++ [x]). rewrite app_assoc. split_and!; [done..|]. intros b1 b2 Eb Hne.
        destruct b2 as [|y b2 _] using rev_ind; [rewrite app_nil_r in Eb; subst b1; by rewrite app_assoc|].
        rewrite app_assoc in Eb. apply app_inj_tail in Eb as [Eb _]. by apply (Hb b1 b2).
      * right. split; [done|]. intros a b Eab. destruct b as [|y b _] using rev_ind; [rewrite app_nil_r in Eab; by subst a|].
        rewrite app_assoc in Eab. apply app_inj_tail in Eab as [Eab _]. by apply (Hn a b).
Qed.
Lemma names_fewer l : Forall plain_name l → (length l ≤ String.length (rooted l))%nat.
Proof.
  intros H. unfold rooted. rewrite length_append. cbn. induction H as [|x l (Hx & _) Hl IH]; [cbn; lia|].
  destruct l as [|y l]; [cbn; lia|]. change (join "/" (x :: y :: l)) with (x +:+ "/" +:+ join "/" (y :: l)). rewrite !length_append.
  destruct x; [done|]. cbn in *. lia.
Qed.
(** The fuel of [findWorkspaceRoot] is enough: its result is what the loop
    gives with any more. *)
Theorem findWorkspaceRoot_nearest startPath :
  let start := path_resolve [startPath] in
  (∃ a b, names startPath = a ++ b ∧ findWorkspaceRoot startPath = rooted a ∧ workspace_at (rooted a) = true ∧
          ∀ b1 b2, b = b1 ++ b2 → b1 ≠ [] → workspace_at (rooted (a ++ b1)) = false) ∨
  (findWorkspaceRoot startPath = start ∧ ∀ a b, names startPath = a ++ b → workspace_at (rooted a) = false).
Proof.
  cbv zeta. unfold findWorkspaceRoot. cbv zeta. rewrite path_resolve_names. pose proof (names_plain startPath) as Hp.
  destruct (find_up_spec (S (String.length (rooted (names startPath)))) (names startPath) (rooted (names startPath)) Hp) as [H|H].
  - pose proof (names_fewer (names startPath) Hp). lia.
  - destruct H as (a & b & E & -> & H). left. by exists a, b.
  - destruct H as [-> H]. by right.
Qed.
End Config.

Module ConfigDemo.
Definition demo_env (l : list (string * string)) (name : string) : option string := snd <$> List.find (λ p, bool_decide (p.1 = name)) l.
Definition no_file (p : string) : bool := false.
Definition no_read (p : string) : exn + string := inl (ErrnoException "ENOENT").
Definition demo_url (s : string) : option (string * string) := if startsWith "https://" s then Some ("https:", s) else None.
Definition load (vars : list (string * string)) (file : TomlConfig) : exn + ZosConfig :=
  loadConfig "/srv" (demo_env vars) (λ p, bool_decide (p = "/zos/config/config.toml")) (λ _, inr "") (λ _, true) (λ _, inr file) demo_url "/srv".
Definition prod_vars : list (string * string) :=
  [("ZOS_ENVIRONMENT", "production"); ("ZOS_NAS_ROOTS", "media:Media:/zos/data/media,/zos/data/docs/");
   ("ZOS_BACKUP_REPOSITORY", "/zos/data/backup/restic")].

Lemma loadConfig_safe_witness : ∃ c, load prod_vars no_toml = inr c ∧
  (rc_path <$> zc_nasRoots c) = ["/zos/data/media"; "/zos/data/docs"] ∧ ∃ root, config_safe "/srv" "/zos/config/config.toml" c root.
Proof.
  assert (∃ c, load prod_vars no_toml = inr c ∧ (rc_path <$> zc_nasRoots c) = ["/zos/data/media"; "/zos/data/docs"]) as (c & E & Hp).
  { vm_compute. by eexists. }
  exists c. split; [exact E|]. split; [exact Hp|].
  exact (loadConfig_safe "/srv" (demo_env prod_vars) (λ p, bool_decide (p = "/zos/config/config.toml")) (λ _, inr "") (λ _, true)
    (λ _, inr no_toml) demo_url "/srv" c E).
Defined.

(** The numbers of the file are taken as they are: only the variables are checked. *)
Example file_numbers_unchecked :
  let vm := TomlVm None None None None None (Some (lit (-5))) in
  let file := Toml None None None None None None None None None None None (Some vm) None None None None None None None None in
  match load [] file with inr c => vm_operationTimeoutMs (zc_vm c) = lit (-5) | inl _ => False end ∧
  match load [("ZOS_VM_OPERATION_TIMEOUT_MS", "-5")] no_toml with inr c => vm_operationTimeoutMs (zc_vm c) = lit 120000 | inl _ => False end.
Proof. by vm_compute. Qed.
(** A comma at the end of the list of image directories adds the workspace
    itself, since paths are resolved before the empty ones are dropped. *)
Example empty_iso_root :
  load [("ZOS_VM_ISO_ROOTS", "/srv/.zos/dev-root/iso/a,")] no_toml = inl (Error "VM ISO roots must be under /srv/.zos/dev-root/iso") ∧
  match load [("ZOS_VM_ISO_ROOTS", "/srv/.zos/dev-root/iso/a")] no_toml with inr c => vm_isoRoots (zc_vm c) = ["/srv/.zos/dev-root/iso/a"] | inl _ => False end.
Proof. by vm_compute. Qed.
(** Backups are checked in production only. *)
Example development_backup :
  match load [("ZOS_BACKUP_REPOSITORY", "/srv/.zos/dev-root/data/primary/repo")] no_toml with
  | inr c => bk_enabled (zc_backup c) = true ∧ overlap "/srv" "/srv/.zos/dev-root/data/primary/repo" "/srv/.zos/dev-root/data/primary" = true
  | inl _ => False
  end.
Proof. by vm_compute. Qed.
End ConfigDemo.
