(* ===== verification/Confinement.v ===== *)
(** * Mutations that stay inside

    What the mutations of packages/nas-tools/src/mutation-tools.ts share: the
    records they return and the check that a target is free; and, for their
    proofs, [good]: a disk that is sound and differs from the one a mutation
    began with only inside the NAS root and the trash. *)
From S2P Require Import Prelude Json JsString CoreDb Jobs.
From S2P Require Import FileSystem PathSafety.

Record NasRootRecord := NasRoot { ro_id : string; ro_path : string }.
Record AppliedMutation := Applied {
  am_proposal : FileOperationProposal; am_sourcePath : option string; am_targetPath : option string;
  am_metadata : list (string * json) }.
(** [!path]: undefined and the empty string. *)
Definition given (o : option string) : option string :=
  match o with Some s => if bool_decide (s = "") then None else Some s | None => None end.

Definition assertTargetDoesNotExist (absolutePath : string) : prog disk unit :=
  try_catch (_ ← stat absolutePath; throw (Error "Mutation target already exists"))
    (λ e, if bool_decide (exn_code e = Some "ENOENT") then mret tt else throw e).

Definition temporary (targetPath uuid : string) : string := targetPath +:+ "." +:+ uuid +:+ ".tmp".
(** ** Computations that only look *)
(** The computations that only look at the tree. *)
Lemma looks_ret {A} (a : A) : looks (mret a).
Proof. done. Qed.
Lemma looks_throw {A} e : looks (throw (A:=A) e).
Proof. done. Qed.
Lemma looks_bind {A B} (m : prog disk A) (k : A → prog disk B) : looks m → (∀ a, looks (k a)) → looks (m ≫= k).
Proof.
  intros Hm Hk s. specialize (Hm s). unfold mbind, prog_bind. destruct (m s) as [[e|a] s']; [done|]. by rewrite Hk.
Qed.
Lemma looks_try {A} (m : prog disk A) h : looks m → (∀ e, looks (h e)) → looks (try_catch m h).
Proof.
  intros Hm Hh s. specialize (Hm s). unfold try_catch. destruct (m s) as [[e|a] s']; [by rewrite Hh|done].
Qed.
Create HintDb looks.
#[export] Hint Resolve looks_ret looks_throw looks_query : looks.
#[export] Hint Unfold realpath stat lstat : looks keeps.
#[export] Hint Extern 1 (looks (realpath _)) => apply looks_query : looks.
#[export] Hint Extern 1 (looks (stat _)) => apply looks_query : looks.
#[export] Hint Extern 1 (looks (lstat _)) => apply looks_query : looks.
Ltac looks_all :=
  repeat (cbv zeta; lazymatch goal with
  | |- looks (mbind _ _) => apply looks_bind; [|intros ?]
  | |- looks (try_catch _ _) => apply looks_try; [|intros ?]
  | |- looks (match ?x with _ => _ end) => destruct x
  | |- looks _ => solve [eauto with looks]
  end).

Lemma looks_no_symlink stop refuse cur segs : looks (no_symlink_segments stop refuse cur segs).
Proof. revert cur. induction segs as [|x segs IH]; intros cur; cbn [no_symlink_segments]; looks_all. Qed.
Lemma keeps_no_symlink stop refuse cur segs : keeps faults_ok (no_symlink_segments stop refuse cur segs).
Proof. revert cur. induction segs as [|x segs IH]; intros cur; cbn [no_symlink_segments]; keeps_all. Qed.
#[export] Hint Resolve looks_no_symlink : looks.
#[export] Hint Resolve keeps_no_symlink : keeps.

Lemma looks_check a b : looks (assertNoSymlinkPathSegments a b).
Proof. apply looks_no_symlink. Qed.
Lemma keeps_check a b : keeps faults_ok (assertNoSymlinkPathSegments a b).
Proof. apply keeps_no_symlink. Qed.
#[export] Hint Resolve looks_check : looks.
#[export] Hint Resolve keeps_check : keeps.

Lemma looks_run {A} (m : prog disk A) s r s' : looks m → m s = (r, s') → dk_fs s' = dk_fs s.
Proof. intros H E. specialize (H s). by rewrite E in H. Qed.
Lemma keeps_run {A} (m : prog disk A) s r s' : keeps faults_ok m → faults_ok s → m s = (r, s') → faults_ok s'.
Proof. intros H Hs E. specialize (H s Hs). by rewrite E in H. Qed.

Lemma looks_existing a b : looks (resolveSafeExistingPath a b).
Proof. unfold resolveSafeExistingPath. looks_all. Qed.
Lemma keeps_existing a b : keeps faults_ok (resolveSafeExistingPath a b).
Proof. unfold resolveSafeExistingPath. keeps_all. Qed.
#[export] Hint Resolve looks_existing : looks.
#[export] Hint Resolve keeps_existing : keeps.
Lemma looks_target a b : looks (resolveSafeTargetPath a b).
Proof. unfold resolveSafeTargetPath. looks_all. Qed.
Lemma keeps_target a b : keeps faults_ok (resolveSafeTargetPath a b).
Proof. unfold resolveSafeTargetPath. keeps_all. Qed.
Lemma looks_absent p : looks (assertTargetDoesNotExist p).
Proof. unfold assertTargetDoesNotExist. looks_all. Qed.
Lemma keeps_absent p : keeps faults_ok (assertTargetDoesNotExist p).
Proof. unfold assertTargetDoesNotExist. keeps_all. Qed.
#[export] Hint Resolve looks_target looks_absent : looks.
#[export] Hint Resolve keeps_target keeps_absent : keeps.
(** Names the mutations make up. *)
Lemma temporary_rooted d x uuid : temporary (rooted (d ++ [x])) uuid = rooted (d ++ [x +:+ "." +:+ uuid +:+ ".tmp"]).
Proof. unfold temporary. apply rooted_suffix. Qed.

Lemma temporary_plain x uuid : plain_name x → no_char sep uuid → plain_name (x +:+ "." +:+ uuid +:+ ".tmp").
Proof.
  intros (_&_&_&Hx) Hu. apply plain_long; [|done|].
  - rewrite !length_append. simpl. lia.
  - apply (no_char_app sep "."); [done|]. by apply no_char_app.
Qed.

Section Confined.
Context (R T : list string) (f0 : fs).
Definition inside (p : list string) : Prop := under R p ∨ under T p.
(** The disk is sound, and only what lies inside has changed. *)
Record good (s : disk) : Prop := {
  go_wf : wf (dk_fs s);
  go_faults : faults_ok s;
  go_outside p : ¬ inside p → dk_fs s !! p = f0 !! p }.

Lemma under_trans a b p : under a b → under b p → under a p.
Proof. intros [r ->] [t ->]. exists (r ++ t). by rewrite app_assoc. Qed.
Lemma inside_below d p : inside d → under d p → inside p.
Proof. intros [H|H] Hp; [left|right]; by eapply under_trans. Qed.
Lemma inside_child d x : inside d → inside (d ++ [x]).
Proof. intros H. eapply inside_below; [done|]. by exists [x]. Qed.

Lemma good_eq s s' : good s → dk_fs s' = dk_fs s → faults_ok s' → good s'.
Proof. intros [Hw _ Ho] E Hf. split; [by rewrite E|done|by rewrite E]. Qed.

(** A step that looks, then the rest. *)
Lemma good_look {A B} (m : prog disk A) (k : A → prog disk B) s : looks m → keeps faults_ok m → good s →
  (∀ a s1, m s = (inr a, s1) → dk_fs s1 = dk_fs s → good s1 → good (k a s1).2) → good ((m ≫= k) s).2.
Proof.
  intros Hl Hk Hs H. specialize (Hl s). pose proof (Hk s (go_faults s Hs)) as Hf. unfold mbind, prog_bind.
  destruct (m s) as [[e|a] s1] eqn:E; simpl in *; [by eapply good_eq|]. apply H; [done|done|by eapply good_eq].
Qed.

(** A step that writes, then the rest. *)
Lemma good_write {A B} (m : prog disk A) (k : A → prog disk B) s :
  good (m s).2 → (∀ a s1, m s = (inr a, s1) → good s1 → good (k a s1).2) → good ((m ≫= k) s).2.
Proof. intros Hm H. unfold mbind, prog_bind. destruct (m s) as [[e|a] s1] eqn:E; [done|]. by apply H. Qed.

Lemma good_graft s d x t s' : good s → inside d → (∀ p, ¬ under (d ++ [x]) p → dk_fs s' !! p = dk_fs s !! p ∨ t p) →
  (∀ p, t p → inside p) → wf (dk_fs s') → faults_ok s' → good s'.
Proof.
  intros [Hw _ Ho] Hd Hp Ht Hw' Hf'. split; [done|done|]. intros p Hout.
  destruct (Hp p) as [->|Htp]; [|by apply Ho|by destruct Hout; apply Ht].
  intros Hu. apply Hout. eapply inside_below; [|exact Hu]. by apply inside_child.
Qed.

(** What holds while something is moved from [a] into the directory [d]. *)
Definition moving (d : list string) (s : disk) : Prop := good s ∧ dk_fs s !! d = Some Dir.

Lemma child_ne (d : list string) x : ¬ under (d ++ [x]) d.
Proof. intros [r E]. apply (f_equal length) in E. rewrite !length_app in E. simpl in E. lia. Qed.

Lemma moving_rm_at d q x force s : inside (q ++ [x]) → plain_name x → ¬ under (q ++ [x]) d → moving d s →
  dk_fs s !! q = Some Dir → moving d (rm (rooted (q ++ [x])) force s).2.
Proof.
  intros Hin Hx Hnd [Hs Hd] Hq. destruct (rm (rooted (q ++ [x])) force s) as [r s'] eqn:E.
  assert (faults_ok s') as Hf by (by eapply keeps_run; [apply keeps_call|by apply go_faults|]).
  destruct (rm_effect _ _ _ _ _ _ (go_wf s Hs) Hq Hx E) as [[Ef _]|[_ Ef]]; simpl; split.
  - by eapply good_eq.
  - by rewrite Ef.
  - split; [|done|].
    + rewrite Ef. apply wf_prune; [by apply go_wf|]. by destruct q.
    + intros p Hout. rewrite Ef, prune_lookup. destruct (strip (q ++ [x]) p) as [t|] eqn:Es; [|by apply go_outside].
      exfalso. apply Hout. eapply inside_below; [exact Hin|]. exists t. by apply strip_Some.
  - rewrite Ef, prune_lookup. by apply strip_None in Hnd as ->.
Qed.

Lemma moving_rm d x force : inside d → plain_name x → keeps (moving d) (rm (rooted (d ++ [x])) force).
Proof.
  intros Hin Hx s Hm. apply moving_rm_at; [by apply inside_child|done|by apply child_ne|done|apply Hm].
Qed.

Lemma strip_child_None (d : list string) x : strip (d ++ [x]) d = None.
Proof. apply strip_None, child_ne. Qed.

Lemma moving_rename a d x n s r s' : inside a → inside d → plain_name x → moving d s → dk_fs s !! a = Some n →
  rename (rooted a) (rooted (d ++ [x])) s = (r, s') →
  moving d s' ∧ ((dk_fs s' = dk_fs s ∧ ∀ u, r = inr u → a = d ++ [x]) ∨
    ((∀ t, t ≠ [] → dk_fs s !! ((d ++ [x]) ++ t) = None) ∧
     ∀ p, ¬ under (d ++ [x]) p → ¬ under a p → dk_fs s' !! p = dk_fs s !! p)).
Proof.
  intros Hia Hin Hx [Hs Hd] Ha H.
  assert (faults_ok s') as Hf by (by eapply keeps_run; [apply keeps_call|by apply go_faults|]).
  destruct (rename_effect _ _ _ _ _ _ _ (go_wf s Hs) Ha Hd Hx H) as [[Ef Hr]|(Hna&->&Ef&Hleaf)].
  - split; [|by left]. split; [by eapply good_eq|by rewrite Ef].
  - assert (∀ p, ¬ under (d ++ [x]) p → ¬ under a p → dk_fs s' !! p = dk_fs s !! p) as Hsame.
    { intros p Hp%strip_None Hpa%strip_None. by rewrite Ef, moved_lookup, Hp, Hpa. }
    split; [split|by right].
    + eapply (good_graft s d x (under a)); [done|done| | | |done].
      * intros p Hp. destruct (decide (under a p)); [by right|left; by apply Hsame].
      * intros p. by apply inside_below.
      * rewrite Ef. apply wf_moved; [by apply go_wf|done|done|done].
    + rewrite Hsame; [done|by apply child_ne|]. intros Hu. apply Hna. eapply under_trans; [done|]. by exists [x].
Qed.

(** A change at one place of the directory. *)
Lemma moving_change d x s s' : inside d → moving d s → (∀ p, ¬ under (d ++ [x]) p → dk_fs s' !! p = dk_fs s !! p) →
  wf (dk_fs s') → faults_ok s' → moving d s'.
Proof.
  intros Hin [Hs Hd] Hp Hw Hf. split.
  - eapply (good_graft s d x (λ _, False)); [done|done|by left; apply Hp|done|done|done].
  - rewrite Hp; [done|apply child_ne].
Qed.

Lemma moving_looks {A} (m : prog disk A) d : looks m → keeps faults_ok m → keeps (moving d) m.
Proof.
  intros Hl Hk s [Hs Hd]. split; [|by rewrite (Hl s)]. eapply good_eq; [exact Hs|apply Hl|]. by apply Hk, go_faults.
Qed.

Lemma good_rm_file d x force s : inside d → Forall plain_name d → plain_name x → clear (dk_fs s) d → good s →
  good (rm_file (rooted (d ++ [x])) force s).2.
Proof.
  intros Hin Hd Hx Hc Hs. destruct (rm_file (rooted (d ++ [x])) force s) as [r s'] eqn:E.
  assert (faults_ok s') as Hf by (by eapply keeps_run; [apply keeps_call|by apply go_faults|]). simpl.
  destruct (rm_file_effect _ _ _ _ _ _ (go_wf s Hs) Hc Hd Hx E) as [Ef|(Hdir&Hnd&Ef)]; [by eapply good_eq|].
  apply (moving_change d x s s' Hin (conj Hs Hdir)); [|rewrite Ef; apply wf_delete; [by apply go_wf|by destruct d|done]|done].
  intros p Hp. rewrite Ef. apply lookup_delete_ne. intros <-. apply Hp. exists []. by rewrite app_nil_r.
Qed.

Lemma absent_not_root s u s1 : wf (dk_fs s) → faults_ok s → assertTargetDoesNotExist (rooted []) s ≠ (inr u, s1).
Proof.
  intros Hwf Hf. unfold assertTargetDoesNotExist, try_catch, mbind, prog_bind.
  destruct (stat (rooted []) s) as [r s2] eqn:E. unfold stat, query in E.
  destruct (call_fault _ _ _ _ Hf E) as [[_ (e&->&He&_)]|E'].
  - by rewrite bool_decide_false by congruence.
  - rewrite (follow_real _ [] Dir), (wf_root _ Hwf) in E' by (done || by apply wf_root). by injection E' as <- _.
Qed.

(** A place below the root, as the code names it and its directory. *)
Lemma place_split base t : Forall plain_name (base ++ t) → (t = [] → base = []) →
  (base = [] ∧ t = []) ∨ ∃ t' y, t = t' ++ [y] ∧ Forall plain_name (base ++ t') ∧ plain_name y ∧
    dirname (rooted (base ++ t)) = rooted (base ++ t').
Proof.
  intros Hpl Ht. destruct t as [|y t' _] using rev_ind; [left; by rewrite Ht|right]. exists t', y.
  rewrite app_assoc in Hpl |- *. apply Forall_app in Hpl as [Hpl [Hy _]%Forall_cons].
  split_and!; [done|done|done|by apply dirname_rooted].
Qed.

Lemma clear_from_root f root t r s s' : wf (dk_fs s) → faults_ok s → dk_fs s = f → Forall plain_name (root ++ t) →
  (∃ n, f !! root = Some n ∧ is_link n = false) →
  assertNoSymlinkPathSegments (rooted root) (rooted (root ++ t)) s = (inr r, s') → clear f (root ++ t).
Proof.
  intros Hw Hf <- Hpl (n&Hn&Hl) H. apply Forall_app in Hpl as [Hr Ht]. unfold assertNoSymlinkPathSegments in H.
  rewrite path_segments_rooted in H by done.
  eapply no_symlink_effect in H as [_ H]; [|done|done|done|done|by exists n|done|set_solver]. apply H; [by exists r|].
  intros q k n' -> Hq. destruct k as [|y k]; [rewrite app_nil_r in Hn; by simplify_eq|].
  rewrite (wf_above _ q (y :: k) n) in Hq by done. by simplify_eq.
Qed.

Context (root : NasRootRecord) (Hroot : follow f0 (ro_path root) = inr R).

(** The source of a mutation, and its target, once they are resolved. *)
Lemma source_place requested s p s1 : good s → dk_fs s = f0 → resolveSafeExistingPath (ro_path root) requested s = (inr p, s1) →
  ∃ t n, sp_rootRealPath p = rooted R ∧ sp_realPath p = rooted (R ++ t) ∧ f0 !! (R ++ t) = Some n.
Proof.
  intros Hs Ef H. destruct (resolveSafeExistingPath_effect _ _ _ _ _ (go_wf s Hs) H) as [_ Hp].
  destruct (Hp p eq_refl) as (root'&t&n&Hfol&_&E1&E2&_&Hn&_). rewrite Ef, Hroot in Hfol. injection Hfol as <-.
  exists t, n. rewrite <-Ef. done.
Qed.

Lemma target_place requested s p s1 : good s → dk_fs s = f0 → resolveSafeTargetPath (ro_path root) requested s = (inr p, s1) →
  ∃ t, st_rootRealPath p = rooted R ∧ st_absolutePath p = rooted (R ++ t) ∧ Forall plain_name (R ++ t) ∧
    (∃ n, f0 !! R = Some n ∧ is_link n = false) ∧ (t = [] → R = []).
Proof.
  intros Hs Ef H. destruct (resolveSafeTargetPath_effect _ _ _ _ _ (go_wf s Hs) H) as [_ Hp].
  destruct (Hp p eq_refl) as (root'&t&n&Hfol&Hpl&Hn&Hl&E1&E2&Ht&_). rewrite Ef, Hroot in Hfol. injection Hfol as <-.
  exists t. rewrite Ef in Hn. split_and!; [done|done|done|by exists n|done].
Qed.

End Confined.
Arguments go_wf {R T f0} s _.
Arguments go_faults {R T f0} s _.
Arguments go_outside {R T f0} s _ p _.
Arguments source_place {R T f0 root} _ requested s p s1 _ _ _.
Arguments target_place {R T f0 root} _ requested s p s1 _ _ _.
Arguments inside_below {R T} d p _ _.
Arguments inside_child {R T} d x _.
Arguments good_eq {R T f0} s s' _ _ _.
Arguments good_graft {R T f0} s d x t s' _ _ _ _ _ _.
Arguments moving_rm_at {R T f0} d q x force s _ _ _ _ _.
Arguments moving_rm {R T f0} d x force _ _ _ _.
Arguments moving_rename {R T f0} a d x n s r s' _ _ _ _ _ _.
Arguments moving_change {R T f0} d x s s' _ _ _ _ _.
Arguments good_rm_file {R T f0} d x force s _ _ _ _ _.
