(* ===== verification/DockerMounts.v ===== *)
(** * The mounts of a Docker create request

    [containerMounts], [isDockerSocketPath] and [canonicalSocketPath] of
    apps/api/src/lib/docker-create.ts.  A directory of the host is bound only
    when it is the real place of an entry of an enabled, ready NAS root, and it
    is neither the engine's socket nor a directory above it.

    [db i] is the database when the i-th mount is checked: it may change
    between two of them.  The file system of the model has no sockets, so the
    check for a regular file or directory only refuses links. *)
From Stdlib Require Import Ascii QArith.
From S2P Require Import Prelude Json JsString JsonText JsNumber Sql FileSystem PathSafety Confinement NasRoots IpAddress DockerChecks DockerNetworks.
Open Scope Z_scope.

Inductive docker_mount :=
  | BindMount (rootId sourcePath source target : string) (readOnly : bool)
  | VolumeMount (source target : string) (readOnly noCopy : bool)
  | TmpfsMount (target : string) (readOnly : bool) (sizeBytes mode : option number).
Definition mount_type (m : docker_mount) : string :=
  match m with BindMount _ _ _ _ _ => "bind" | VolumeMount _ _ _ _ => "volume" | TmpfsMount _ _ _ _ => "tmpfs" end.
Definition mount_target (m : docker_mount) : string :=
  match m with BindMount _ _ _ target _ => target | VolumeMount _ target _ _ => target | TmpfsMount target _ _ _ => target end.

Definition sockets (configuredSocket : string) : list string :=
  ["/run/docker.sock"; "/var/run/docker.sock"; normalize configuredSocket].
Definition isDockerSocketPath (sourcePath configuredSocket : string) : bool :=
  let normalized := normalize sourcePath in
  existsb (λ socket, bool_decide (normalized = socket) || startsWith (normalized +:+ "/") socket) (sockets configuredSocket).
Definition canonicalSocketPath (socketPath : string) : prog disk string :=
  try_catch (realpath socketPath) (λ _,
    let parent := dirname socketPath in
    canonicalParent ← try_catch (realpath parent) (λ _, mret parent);
    mret (path_join [canonicalParent; basename socketPath])).

Section Mounts.
Context (db : nat → roots_db) (socketPath : string) (summary : DockerSummary).

Definition refuse_disk {A} (message : string) : prog disk A := check (refuse message).
Definition not_ready (r : nas_root) (d : roots_db) : bool :=
  match nr_mount_policy r with
  | mount_required => match getRootReadiness (nr_id r) d with
                      | Some rd => match rr_status rd with root_ready => false | _ => true end
                      | None => true
                      end
  | mount_optional => false
  end.
Definition bind_entry (index : nat) (mount : list (string * json)) (target : string) (readOnly : bool) : prog disk docker_mount :=
  _ ← check (allowed mount ["type"; "rootId"; "sourcePath"; "target"; "readOnly"]);
  rootId ← check (requiredString (prop mount "rootId") "Bind root" 128);
  sourcePath ← check (requiredString (prop mount "sourcePath") "Bind source path" 4096);
  match getNasRoot rootId (db index) with
  | None => refuse_disk "Bind source NAS root is unavailable"
  | Some root =>
      if not_ready root (db index) then refuse_disk "Bind source NAS root is not ready" else
      safe ← resolveSafeExistingPath (nr_path root) sourcePath;
      info ← lstat (sp_realPath safe);
      if negb (is_file info) && negb (is_dir info) then refuse_disk "Bind source must be a regular file or directory" else
      configuredSocket ← canonicalSocketPath socketPath;
      if isDockerSocketPath (sp_realPath safe) configuredSocket
      then refuse_disk "The Docker socket cannot be mounted into a container"
      else mret (BindMount rootId (sp_relativePath safe) (sp_realPath safe) target readOnly)
  end.
Definition volume_entry (mount : list (string * json)) (target : string) (readOnly : bool) : exn + docker_mount :=
  _ ← allowed mount ["type"; "source"; "target"; "readOnly"; "noCopy"];
  source ← resourceName (prop mount "source") "Volume mount source";
  _ ← refuse_unless (bool_decide (source ∈ ds_volumes summary)) ("Docker volume " +:+ source +:+ " does not exist");
  noCopy ← boolean (prop mount "noCopy") "Volume no-copy" false;
  inr (VolumeMount source target readOnly noCopy).
Definition tmpfs_entry (mount : list (string * json)) (target : string) (readOnly : bool) : exn + docker_mount :=
  _ ← allowed mount ["type"; "target"; "readOnly"; "sizeBytes"; "mode"];
  sizeBytes ← optionalInteger (prop mount "sizeBytes") "Tmpfs size" 1024 (2 ^ 40);
  mode ← optionalInteger (prop mount "mode") "Tmpfs mode" 0 4095;
  inr (TmpfsMount target readOnly sizeBytes mode).
Definition mount_entry (targets : list string) (index : nat) (raw : json) : prog disk docker_mount :=
  mount ← check (record (Some raw) (at_index "Mount " index));
  type ← check (enumValue (prop mount "type") (at_index "Mount " index +:+ " type") ["bind"; "volume"; "tmpfs"] None);
  text ← check (requiredString (prop mount "target") (at_index "Mount " index +:+ " target") 4096);
  target ← check (absoluteContainerPath text "Mount target");
  _ ← check (refuse_unless (negb (bool_decide (target ∈ targets))) "Container mount targets must be unique");
  readOnly ← check (boolean (prop mount "readOnly") "Mount read-only" (bool_decide (type = "bind")));
  if bool_decide (type = "bind") then bind_entry index mount target readOnly
  else if bool_decide (type = "volume") then check (volume_entry mount target readOnly)
  else check (tmpfs_entry mount target readOnly).
Fixpoint mount_entries (targets : list string) (index : nat) (items : list json) : prog disk (list docker_mount) :=
  match items with
  | [] => mret []
  | raw :: items =>
      m ← mount_entry targets index raw;
      ms ← mount_entries (targets ++ [mount_target m]) (S index) items;
      mret (m :: ms)
  end.
Definition containerMounts (value : option json) : prog disk (list docker_mount) :=
  items ← check (array value "Mounts"); mount_entries [] 0 items.
End Mounts.

(** ** Where a bound source is *)
Lemma check_effect {S A} (r : exn + A) (s : S) a s' : check r s = (inr a, s') → r = inr a ∧ s' = s.
Proof. unfold check. by intros [= -> ->]. Qed.

Lemma normalize_rooted l : Forall plain_name l → normalize (rooted l) = rooted l.
Proof.
  intros Hl. unfold normalize. rewrite bool_decide_false by done. rewrite rooted_absolute. cbn [negb]. cbv zeta.
  rewrite normalizeString_rooted by done. destruct l as [|x l _] using rev_ind; [done|].
  apply Forall_app in Hl as Hx. destruct Hx as [Hp [Hx _]%Forall_cons].
  assert (join "/" (l ++ [x]) ≠ "") as Hne.
  { destruct l as [|y l]; [by destruct Hx|]. apply Forall_cons in Hp as [Hy _]. by apply join_nonempty. }
  rewrite bool_decide_false by done. assert (endsWith_char sep (rooted (l ++ [x])) = false) as ->; [|done].
  unfold endsWith_char. apply bool_decide_eq_false. unfold rooted. rewrite last_char_app by done.
  destruct Hx as (Hx1 & _ & _ & Hx2). destruct l as [|y l]; [by apply last_char_no|].
  rewrite join_app by done. rewrite <-string_app_assoc, last_char_app by done. by apply last_char_no.
Qed.

(** The directories that hold a socket, the root of the file system apart. *)
Lemma socket_refused l configured q : Forall plain_name l → Forall plain_name q →
  rooted q ∈ sockets configured → isDockerSocketPath (rooted l) configured = false → q ≠ l ∧ (l ≠ [] → ¬ under l q).
Proof.
  intros Hl Hq Hin H. unfold isDockerSocketPath in H. rewrite normalize_rooted in H by done. cbv zeta in H.
  apply not_true_iff_false in H. rewrite existsb_exists in H. assert (q ≠ l) as Hne.
  { intros ->. apply H. exists (rooted l). split; [by apply list_elem_of_In|]. by rewrite bool_decide_true. }
  split; [done|]. intros Hnil [r ->]. apply H. exists (rooted (l ++ r)). split; [by apply list_elem_of_In|].
  apply orb_true_iff. right. apply rooted_prefix; [done|done|done|]. exists r. split; [|done]. intros ->. by rewrite app_nil_r in Hne.
Qed.

Lemma canonical_found socketPath s r s' q : dk_faults s = [] → follow (dk_fs s) socketPath = inr q →
  canonicalSocketPath socketPath s = (r, s') → r = inr (rooted q).
Proof.
  intros Hf Hq. unfold canonicalSocketPath, try_catch, realpath, query, call. rewrite Hf, Hq. by intros [= <- _].
Qed.
Lemma looks_canonical socketPath : looks (canonicalSocketPath socketPath).
Proof.
  apply looks_try; [apply looks_query|]. intros _. apply looks_bind; [|done]. apply looks_try; [apply looks_query|done].
Qed.

(** ** What is bound *)
Section Safety.
Context (db : nat → roots_db) (socketPath : string) (summary : DockerSummary).

(** The [i]-th mount is safe in the file system [f]: [quiet] says that no call
    of the system fails, so that the configured socket is found. *)
Definition bind_safe (f : fs) (quiet : Prop) (i : nat) (m : docker_mount) : Prop :=
  match m with
  | BindMount rootId sourcePath source _ _ => ∃ row root t n,
      getNasRoot rootId (db i) = Some row ∧ not_ready row (db i) = false ∧
      follow f (nr_path row) = inr root ∧ Forall plain_name (root ++ t) ∧ f !! (root ++ t) = Some n ∧ is_link n = false ∧
      source = rooted (root ++ t) ∧ sourcePath = (if bool_decide (t = []) then "." else join "/" t) ∧
      ∀ q, (q = ["run"; "docker.sock"] ∨ q = ["var"; "run"; "docker.sock"] ∨ (quiet ∧ follow f socketPath = inr q)) →
        q ≠ root ++ t ∧ (root ++ t ≠ [] → ¬ under (root ++ t) q)
  | VolumeMount source _ _ _ => source ∈ ds_volumes summary
  | TmpfsMount _ _ _ _ => True
  end.

Definition no_faults (s : disk) : Prop := dk_faults s = [].
Lemma keeps_quiet_call {A} (m : fs → (exn + A) * fs) : keeps no_faults (call m).
Proof. intros s Hs. unfold call. rewrite Hs. by destruct (m (dk_fs s)). Qed.
Lemma keeps_quiet_realpath p : keeps no_faults (realpath p).
Proof. apply keeps_quiet_call. Qed.
Hint Resolve keeps_quiet_realpath : keeps.
Lemma quiet_existing rootPath requested : keeps no_faults (resolveSafeExistingPath rootPath requested).
Proof. unfold resolveSafeExistingPath. keeps_all. Qed.
Lemma quiet_canonical p : keeps no_faults (canonicalSocketPath p).
Proof. unfold canonicalSocketPath. keeps_all. Qed.
Lemma keeps_after {A} (I : disk → Prop) (m : prog disk A) s r s' : keeps I m → m s = (r, s') → I s → I s'.
Proof. intros Hm E Hs. specialize (Hm s Hs). by rewrite E in Hm. Qed.

(** Mounts so far leave the tree, and no faults where there were none. *)
Definition unchanged (f : fs) (quiet : Prop) (s : disk) : Prop := dk_fs s = f ∧ (quiet → no_faults s).
Lemma unchanged_after {A} f quiet (m : prog disk A) s r s' : looks m → keeps no_faults m → m s = (r, s') →
  unchanged f quiet s → unchanged f quiet s'.
Proof.
  intros Hl Hk E [Hf Hq]. split; [rewrite <-Hf; by apply (looks_run m s r)|]. intros Hs. by apply (keeps_after _ m s r s' Hk E), Hq.
Qed.

Lemma bind_entry_safe f quiet index mount target readOnly s m s' : wf f → unchanged f quiet s →
  bind_entry db socketPath index mount target readOnly s = (inr m, s') →
  mount_target m = target ∧ unchanged f quiet s' ∧ bind_safe f quiet index m.
Proof.
  intros Hwf Hu H. unfold bind_entry in H.
  apply bind_inv in H as (u & s1 & [_ ->]%check_effect & H). apply bind_inv in H as (rootId & s1 & [_ ->]%check_effect & H).
  apply bind_inv in H as (sourcePath & s1 & [_ ->]%check_effect & H).
  destruct (getNasRoot rootId (db index)) as [row|] eqn:Erow; [|done]. destruct (not_ready row (db index)) eqn:Eready; [done|].
  apply bind_inv in H as (safe & s1 & Hsafe & H). apply bind_inv in H as (info & s2 & Hinfo & H).
  destruct (_ && _); [done|]. apply bind_inv in H as (configured & s3 & Hc & H).
  destruct (isDockerSocketPath _ _) eqn:Esock; [done|]. injection H as <- <-. split; [done|].
  pose proof (unchanged_after f quiet _ _ _ _ (looks_existing _ _) (quiet_existing _ _) Hsafe Hu) as Hu1.
  pose proof (unchanged_after f quiet _ _ _ _ (looks_query _) (keeps_quiet_call _) Hinfo Hu1) as Hu2.
  split; [by apply (unchanged_after f quiet _ _ _ _ (looks_canonical _) (quiet_canonical _) Hc)|].
  destruct Hu as [<- _], Hu2 as [F2 Hquiet]. destruct (resolveSafeExistingPath_effect _ _ _ _ _ Hwf Hsafe) as [_ H1].
  destruct (H1 safe eq_refl) as (root & t & n & Hfol & Hpl & _ & Hreal & _ & Hn & Hlink & Hrel). rewrite Hreal in *.
  exists row, root, t, n. do 8 (split; [done|]).
  assert (∀ q, Forall plain_name q → rooted q ∈ sockets configured → q ≠ root ++ t ∧ (root ++ t ≠ [] → ¬ under (root ++ t) q)) as Hall.
  { intros q Hqp Hin. by apply (socket_refused (root ++ t) configured). }
  intros q [->|[->|[Hs Hfq]]].
  - apply Hall; [by repeat constructor|]. apply list_elem_of_here.
  - apply Hall; [by repeat constructor|]. apply list_elem_of_further, list_elem_of_here.
  - assert (Forall plain_name q) as Hqp.
    { destruct (walk_found _ _ _ _ _ Hwf (ex_intro _ Dir (conj (wf_root _ Hwf) eq_refl)) Hfq) as (nq & Hnq & _). by eapply wf_plain. }
    rewrite <-F2 in Hfq. pose proof (canonical_found socketPath s2 _ _ q (Hquiet Hs) Hfq Hc) as [= ->].
    apply Hall; [done|]. unfold sockets. rewrite normalize_rooted by done. apply list_elem_of_further, list_elem_of_further, list_elem_of_here.
Qed.

Lemma mount_entry_safe f quiet targets index raw s m s' : wf f → unchanged f quiet s →
  mount_entry db socketPath summary targets index raw s = (inr m, s') →
  mount_target m ∉ targets ∧ isAbsolute (mount_target m) = true ∧ normalize (mount_target m) = mount_target m ∧
  unchanged f quiet s' ∧ bind_safe f quiet index m.
Proof.
  intros Hwf Hu H. unfold mount_entry in H.
  apply bind_inv in H as (mount & s1 & [_ ->]%check_effect & H). apply bind_inv in H as (type & s1 & [_ ->]%check_effect & H).
  apply bind_inv in H as (text & s1 & [_ ->]%check_effect & H). apply bind_inv in H as (target & s1 & [Ht ->]%check_effect & H).
  apply bind_inv in H as (u & s1 & [Hn%refuse_unless_inv ->]%check_effect & H).
  apply bind_inv in H as (readOnly & s1 & [_ ->]%check_effect & H).
  apply negb_true_iff, bool_decide_eq_false in Hn. unfold absoluteContainerPath in Ht.
  destruct (isAbsolute text) eqn:Ea; [|done]. destruct (bool_decide (normalize text = text)) eqn:En; [|done]. apply bool_decide_eq_true in En.
  destruct (has_char _ text); [done|]. injection Ht as <-.
  assert (mount_target m = text ∧ unchanged f quiet s' ∧ bind_safe f quiet index m) as (-> & ? & ?); [|done].
  destruct (bool_decide (type = "bind")); [by apply (bind_entry_safe f quiet index mount text readOnly s)|].
  destruct (bool_decide (type = "volume")); apply check_effect in H as [H ->].
  - unfold volume_entry in H. check_step H. check_step H. check_step H. check_step H. injection H as <-. split_and!; [done|done|].
    apply refuse_unless_inv in Hx1. by apply bool_decide_eq_true in Hx1.
  - unfold tmpfs_entry in H. check_step H. check_step H. check_step H. by injection H as <-.
Qed.

Lemma mount_entries_safe f quiet items : wf f → ∀ targets index s l s', unchanged f quiet s →
  mount_entries db socketPath summary targets index items s = (inr l, s') →
  NoDup (mount_target <$> l) ∧ (∀ m, m ∈ l → mount_target m ∉ targets) ∧
  Forall (λ m, isAbsolute (mount_target m) = true ∧ normalize (mount_target m) = mount_target m) l ∧ unchanged f quiet s' ∧
  ∀ i m, l !! i = Some m → bind_safe f quiet (index + i) m.
Proof.
  intros Hwf. induction items as [|raw items IH]; intros targets index s l s' Hu H; cbn [mount_entries] in H.
  { injection H as <- <-. split_and!; [constructor|by intros m Hm%elem_of_nil|constructor|done|done]. }
  apply bind_inv in H as (m & s1 & Hm & H). apply bind_inv in H as (ms & s2 & Hms & H). injection H as <- <-.
  destruct (mount_entry_safe f quiet _ _ _ _ _ _ Hwf Hu Hm) as (Hnt & Ha & Hn & Hu1 & Hs).
  destruct (IH _ _ _ _ _ Hu1 Hms) as (Hnd & Hfresh & Hpaths & Hu2 & Hsafe). split_and!.
  - cbn [fmap list_fmap]. constructor; [|done]. intros (m' & E & Hm')%list_elem_of_fmap. apply (Hfresh m' Hm').
    rewrite <-E. apply elem_of_app. right. apply list_elem_of_here.
  - intros m' [->|Hm']%elem_of_cons; [done|]. intros Hin. apply (Hfresh m' Hm'). apply elem_of_app. by left.
  - by constructor.
  - done.
  - intros [|i] m'; cbn [lookup list_lookup]; [intros [= <-]; by rewrite Nat.add_0_r|]. rewrite <-Nat.add_succ_comm. apply Hsafe.
Qed.

(** The mounts of a container that is accepted have distinct, normalized
    absolute targets.  A bound source is the real place, links followed, of an
    entry at or below a NAS root that the database of the moment enables and,
    where its mount is required, finds ready; it is no link; and neither
    of the usual sockets of the engine nor the configured one (where the system
    answers) is the source or, unless the source is the root directory itself,
    below it.  Volumes exist.  The checks change no file. *)
Theorem containerMounts_safe value s l s' (Hwf : wf (dk_fs s))
    (H : containerMounts db socketPath summary value s = (inr l, s')) :
  NoDup (mount_target <$> l) ∧
  Forall (λ m, isAbsolute (mount_target m) = true ∧ normalize (mount_target m) = mount_target m) l ∧
  dk_fs s' = dk_fs s ∧
  ∀ i m, l !! i = Some m → bind_safe (dk_fs s) (dk_faults s = []) i m.
Proof.
  unfold containerMounts in H. apply bind_inv in H as (items & s1 & [_ ->]%check_effect & H).
  destruct (mount_entries_safe (dk_fs s) (dk_faults s = []) items Hwf [] 0 s l s' (conj eq_refl (λ Hs, Hs)) H) as (Hnd & _ & Hp & [Hf _] & Hs).
  by split_and!.
Qed.
End Safety.

Module MountDemo.
Definition row (id path : string) : nas_root := NasRootRow id id path true mount_optional None None None 0 0.
Definition db : roots_db := RootsDb [row "media" "/data/media"; row "host" "/"] [].
Definition tree : fs := list_to_map
  [([], Dir); (["data"], Dir); (["data"; "media"], Dir); (["data"; "media"; "films"], Dir); (["data"; "media"; "out"], Link "/run");
   (["run"], Dir); (["run"; "docker.sock"], File "")].
Definition summary : DockerSummary := Summary (Some "1.47") None [] ["cache"] [].
Definition bind (rootId path target : string) : json :=
  JObj [("type", JStr "bind"); ("rootId", JStr rootId); ("sourcePath", JStr path); ("target", JStr target)].
Definition volume : json := JObj [("type", JStr "volume"); ("source", JStr "cache"); ("target", JStr "/cache"); ("noCopy", JBool true)].
Definition prepare (items : list json) : exn + list docker_mount :=
  (containerMounts (λ _, db) "/var/run/docker.sock" summary (Some (JArr items)) (Disk tree [])).1.

Example mounts_of_a_request :
  prepare [bind "media" "films" "/films"; volume] =
    inr [BindMount "media" "films" "/data/media/films" "/films" true; VolumeMount "cache" "/cache" false true] ∧
  prepare [bind "media" "out" "/x"] = inl (PathSafetyError "Path escapes the configured NAS root") ∧
  prepare [bind "host" "run" "/x"] = refuse "The Docker socket cannot be mounted into a container" ∧
  prepare [bind "host" "data" "/a/../b"] = refuse "Mount target must be a normalized absolute container path" ∧
  prepare [volume; volume] = refuse "Container mount targets must be unique" ∧
  prepare [bind "gone" "." "/x"] = refuse "Bind source NAS root is unavailable".
Proof. by vm_compute. Qed.

(** The root directory holds every socket and is not refused: [//] begins no
    path of a socket. *)
Example root_is_bound : prepare [bind "host" "." "/host"] = inr [BindMount "host" "." "/" "/host" true].
Proof. by vm_compute. Qed.

Lemma containerMounts_safe_witness :
  bind_safe (λ _, db) "/var/run/docker.sock" summary tree True 0 (BindMount "media" "films" "/data/media/films" "/films" true).
Proof.
  destruct (containerMounts_safe (λ _, db) "/var/run/docker.sock" summary (Some (JArr [bind "media" "films" "/films"; volume]))
    (Disk tree []) [BindMount "media" "films" "/data/media/films" "/films" true; VolumeMount "cache" "/cache" false true] (Disk tree []))
    as (_ & _ & _ & H).
  - apply wf_check; [reflexivity|]. apply (bool_decide_unpack _). vm_compute. exact I.
  - by vm_compute.
  - destruct (H 0%nat _ eq_refl) as (r & root & t & n & H1 & H2 & H3 & H4 & H5 & H6 & H7 & H8 & H9).
    exists r, root, t, n. split_and!; try done. intros q Hq. apply H9. naive_solver.
Defined.
End MountDemo.
