(* ===== verification/DockerCreate.v ===== *)
(** * Docker create requests

    apps/api/src/lib/docker-create.ts: [prepareDockerCreate], which turns a
    request into what the engine is asked for and what is recorded, and
    [executeDockerCreate], which asks the engine.

    A prepared request is kept as what its checks established; [input_of],
    [engineInput_of], [proposal_of] and [audit_of] are the objects built of it.
    The engine and the registry credentials answer in any way; an answer may
    depend on all the calls before. *)
From Stdlib Require Import Ascii QArith.
From S2P Require Import Prelude Json JsString JsonText JsNumber Sql FileSystem PathSafety NasRoots IpAddress.
From S2P Require Import DockerChecks DockerImages DockerNetworks DockerMounts.
Open Scope Z_scope.

Definition CONTAINER_KEYS : list string :=
  ["sessionId"; "action"; "targetType"; "name"; "image"; "platform"; "pullPolicy"; "start"; "hostname"; "user";
   "workingDir"; "entrypoint"; "command"; "environment"; "labels"; "tty"; "openStdin"; "init"; "stopSignal";
   "stopTimeoutSeconds"; "cpuLimit"; "cpuShares"; "cpusetCpus"; "memoryLimitBytes"; "memoryReservationBytes";
   "memorySwapBytes"; "pidsLimit"; "shmSizeBytes"; "readonlyRootfs"; "privileged"; "privilegedAcknowledged";
   "mounts"; "network"; "ports"; "publishAllPorts"; "dns"; "dnsSearch"; "extraHosts"; "restartPolicy";
   "restartMaxRetries"; "autoRemove"].
Definition VOLUME_KEYS : list string := ["sessionId"; "action"; "targetType"; "name"; "labels"].
Definition NETWORK_KEYS : list string :=
  ["sessionId"; "action"; "targetType"; "name"; "driver"; "parent"; "mode"; "internal"; "enableIpv4"; "enableIpv6"; "ipam"; "labels"].

(** ** What the checks of a request establish *)
Record image_part := ImagePart {
  ig_name : string; ig_image : string; ig_platform : option string;
  ig_labels : list (string * string); ig_environment : list (string * string);
  ig_entrypoint : list string; ig_command : list string
}.
Record endpoint_part := EndpointPart { ep_network : container_network; ep_ports : list port_binding; ep_publishAllPorts : bool }.
Record policy_part := PolicyPart { po_restartPolicy : string; po_autoRemove : bool; po_privileged : bool }.
Record resource_part := ResourcePart {
  re_memoryLimitBytes : option number; re_memoryReservationBytes : option number; re_memorySwapBytes : option number;
  re_cpuLimit : option number; re_cpusetCpus : option string
}.
Record process_part := ProcessPart {
  ps_hostname : option string; ps_workingDir : option string; ps_stopSignal : option string;
  ps_dns : list string; ps_dnsSearch : list string; ps_extraHosts : list (string * string); ps_user : option string;
  ps_stopTimeoutSeconds : option number; ps_cpuShares : option number; ps_pidsLimit : option number;
  ps_shmSizeBytes : option number; ps_restartMaxRetries : option number
}.
Record switch_part := SwitchPart {
  sw_tty : bool; sw_openStdin : bool; sw_init : bool; sw_readonlyRootfs : bool; sw_start : bool; sw_pullPolicy : string
}.
Record container_request := ContainerRequest {
  ct_image : image_part; ct_mounts : list docker_mount; ct_endpoint : endpoint_part; ct_policy : policy_part;
  ct_resources : resource_part; ct_process : process_part; ct_switches : switch_part
}.
Record network_request := NetworkRequest {
  nt_name : string; nt_driver : string; nt_labels : list (string * string); nt_parent : option string; nt_mode : option string;
  nt_enableIpv4 : bool; nt_enableIpv6 : bool; nt_ipam : list ipam_config; nt_internal : bool
}.
Inductive PreparedDockerCreate :=
  | PreparedContainer (r : container_request)
  | PreparedVolume (name : string) (labels : list (string * string))
  | PreparedNetwork (r : network_request).

(** ** Containers *)
Section Prepare.
Context (url_hostname : string → option string).

Definition imageReference (value : string) : exn + string :=
  match parseDockerImageReference url_hostname value with
  | None => refuse "Docker image reference is invalid"
  | Some _ =>
      if has_char "@" value then inr value
      else inr (if bool_decide (lastIndexOf "/" value < lastIndexOf ":" value) then value else value +:+ ":latest")
  end.

Context (source : list (string * json)) (summary : DockerSummary).

Definition image_checks : exn + image_part :=
  _ ← allowed source CONTAINER_KEYS;
  name ← resourceName (prop source "name") "Container name";
  _ ← (if bool_decide (name ∈ ds_containers summary)
       then inl (DockerCreateValidationError "Docker container already exists" 409) else inr tt);
  text ← requiredString (prop source "image") "Image" 512;
  image ← imageReference text;
  platform ← optionalString (prop source "platform") "Platform" 64;
  _ ← refuse_unless (from_option PLATFORM_PATTERN true platform) "Platform must use os/architecture[/variant] format";
  _ ← require_if (isSome platform) summary "1.32" "Platform selection";
  labels ← stringMap (prop source "labels") "Labels" true;
  environment ← stringMap (prop source "environment") "Environment" false;
  _ ← refuse_unless (forallb (λ e, ENVIRONMENT_KEY_PATTERN e.1) environment) "Environment contains an invalid variable name";
  entrypoint ← stringArray (prop source "entrypoint") "Entrypoint";
  command ← stringArray (prop source "command") "Command";
  inr (ImagePart name image platform labels environment entrypoint command).

Definition endpointConfigured (network : container_network) : bool :=
  negb (bool_decide (cn_aliases network = [])) || isSome (cn_ipv4Address network) || isSome (cn_ipv6Address network) ||
  isSome (cn_macAddress network) || isSome (cn_networkName network).
Definition endpoint_checks (mounts : list docker_mount) : exn + endpoint_part :=
  network ← containerNetwork (prop source "network") summary;
  ports ← portBindings (prop source "ports");
  publishAllPorts ← boolean (prop source "publishAllPorts") "Publish all ports" false;
  _ ← refuse_unless (negb (bool_decide (cn_mode network ∈ ["host"; "none"]) &&
                           (negb (bool_decide (length ports = 0%nat)) || publishAllPorts || endpointConfigured network)))
        "Host and none network modes cannot use ports or endpoint settings";
  _ ← require_if (isSome (cn_macAddress network)) summary "1.44" "Endpoint MAC address";
  _ ← require_if (isSome (cn_ipv4Address network) || isSome (cn_ipv6Address network)) summary "1.22" "Static network address";
  _ ← require_if (existsb (λ m, bool_decide (mount_type m = "tmpfs")) mounts) summary "1.22" "tmpfs mounts";
  inr (EndpointPart network ports publishAllPorts).

Definition policy_checks : exn + policy_part :=
  restartPolicy ← enumValue (prop source "restartPolicy") "Restart policy" ["no"; "always"; "unless-stopped"; "on-failure"] (Some "no");
  autoRemove ← boolean (prop source "autoRemove") "Auto remove" false;
  _ ← refuse_unless (negb (autoRemove && negb (bool_decide (restartPolicy = "no")))) "Auto remove cannot be combined with a restart policy";
  privileged ← boolean (prop source "privileged") "Privileged" false;
  _ ← refuse_unless (negb (privileged && negb (is_true_json (prop source "privilegedAcknowledged"))))
        "Privileged mode requires explicit acknowledgement";
  inr (PolicyPart restartPolicy autoRemove privileged).

(** Both numbers are there and the first is less than the second. *)
Definition both_less (a b : option number) : bool :=
  match a, b with Some a, Some b => num_lt a b | _, _ => false end.
Definition resource_checks : exn + resource_part :=
  memoryLimitBytes ← optionalInteger (prop source "memoryLimitBytes") "Memory limit" (4 * 1024 ^ 2) MAX_SAFE_INTEGER;
  memoryReservationBytes ← optionalInteger (prop source "memoryReservationBytes") "Memory reservation" (4 * 1024 ^ 2) MAX_SAFE_INTEGER;
  memorySwapBytes ← optionalInteger (prop source "memorySwapBytes") "Memory swap" (-1) MAX_SAFE_INTEGER;
  _ ← refuse_unless (negb (both_less memoryLimitBytes memoryReservationBytes)) "Memory reservation cannot exceed the memory limit";
  _ ← refuse_unless (negb (negb (from_option (λ n, num_eq n (lit (-1))) false memorySwapBytes) && both_less memorySwapBytes memoryLimitBytes))
        "Memory swap must be -1 or at least the memory limit";
  cpuLimit ← optionalNumber (prop source "cpuLimit") "CPU limit" (Num (1 # 100)) (lit 1024);
  cpusetCpus ← optionalString (prop source "cpusetCpus") "CPU set" 128;
  _ ← refuse_unless (from_option cpuset_pattern true cpusetCpus) "CPU set must contain CPU numbers or ranges";
  inr (ResourcePart memoryLimitBytes memoryReservationBytes memorySwapBytes cpuLimit cpusetCpus).

Definition process_checks : exn + process_part :=
  hostname ← optionalString (prop source "hostname") "Hostname" 253;
  _ ← refuse_unless (from_option HOSTNAME_PATTERN true hostname) "Hostname is invalid";
  workingDir ← optionalString (prop source "workingDir") "Working directory" 4096;
  _ ← (match workingDir with Some w => absoluteContainerPath w "Working directory" | None => inr "" end);
  stopSignal ← optionalString (prop source "stopSignal") "Stop signal" 32;
  _ ← refuse_unless (from_option stop_signal_pattern true stopSignal) "Stop signal is invalid";
  dns ← ipArray (prop source "dns") "DNS servers";
  domains ← stringArray (prop source "dnsSearch") "DNS search domains";
  dnsSearch ← check_each HOSTNAME_PATTERN "DNS search domain is invalid" domains;
  extraHosts ← extraHostEntries (prop source "extraHosts");
  user ← optionalString (prop source "user") "User" 256;
  stopTimeoutSeconds ← optionalInteger (prop source "stopTimeoutSeconds") "Stop timeout" 0 86400;
  cpuShares ← optionalInteger (prop source "cpuShares") "CPU shares" 2 262144;
  pidsLimit ← optionalInteger (prop source "pidsLimit") "PID limit" (-1) 1000000;
  shmSizeBytes ← optionalInteger (prop source "shmSizeBytes") "Shared memory size" 65536 (2 ^ 40);
  restartMaxRetries ← optionalInteger (prop source "restartMaxRetries") "Restart retries" 0 1000000;
  inr (ProcessPart hostname workingDir stopSignal dns dnsSearch extraHosts user stopTimeoutSeconds cpuShares pidsLimit
                   shmSizeBytes restartMaxRetries).

Definition resource_fields (re : resource_part) (pr : process_part) : list (string * option json) :=
  [("cpuLimit", JNum <$> re_cpuLimit re); ("cpuShares", JNum <$> ps_cpuShares pr); ("cpusetCpus", JStr <$> re_cpusetCpus re);
   ("memoryLimitBytes", JNum <$> re_memoryLimitBytes re); ("memoryReservationBytes", JNum <$> re_memoryReservationBytes re);
   ("memorySwapBytes", JNum <$> re_memorySwapBytes re); ("pidsLimit", JNum <$> ps_pidsLimit pr)].
Definition switch_checks (po : policy_part) (re : resource_part) (pr : process_part) : exn + switch_part :=
  _ ← (match getUnsupportedDockerResource (resource_fields re pr) (ds_resourceCapabilities summary) with
       | Some (field, _) => refuse ("Host resource control is unsupported or unknown: " +:+ field)
       | None => inr tt
       end);
  _ ← refuse_unless (negb (isSome (ps_restartMaxRetries pr) && negb (bool_decide (po_restartPolicy po = "on-failure"))))
        "Restart retries require the on-failure restart policy";
  tty ← boolean (prop source "tty") "TTY" false;
  openStdin ← boolean (prop source "openStdin") "Open stdin" false;
  init ← boolean (prop source "init") "Init" false;
  readonlyRootfs ← boolean (prop source "readonlyRootfs") "Read-only root filesystem" false;
  start ← boolean (prop source "start") "Start after create" true;
  pullPolicy ← enumValue (prop source "pullPolicy") "Pull policy" ["missing"; "always"; "never"] (Some "missing");
  _ ← require_if init summary "1.37" "Init process";
  _ ← require_if (isSome (ps_stopTimeoutSeconds pr)) summary "1.25" "Stop timeout";
  _ ← require_if (isSome (ps_pidsLimit pr)) summary "1.23" "PID limit";
  inr (SwitchPart tty openStdin init readonlyRootfs start pullPolicy).

Definition prepareContainer (db : nat → roots_db) (socketPath : string) : prog disk PreparedDockerCreate :=
  image ← check image_checks;
  mounts ← containerMounts db socketPath summary (prop source "mounts");
  endpoint ← check (endpoint_checks mounts);
  policy ← check policy_checks;
  resources ← check resource_checks;
  process ← check process_checks;
  switches ← check (switch_checks policy resources process);
  mret (PreparedContainer (ContainerRequest image mounts endpoint policy resources process switches)).

(** ** Volumes and networks *)
Definition prepareVolume : exn + PreparedDockerCreate :=
  _ ← allowed source VOLUME_KEYS;
  name ← resourceName (prop source "name") "Volume name";
  _ ← (if bool_decide (name ∈ ds_volumes summary)
       then inl (DockerCreateValidationError "Docker volume already exists" 409) else inr tt);
  labels ← stringMap (prop source "labels") "Labels" true;
  inr (PreparedVolume name labels).

(** [interfaces] is what [collectSystemNetwork] of the host finds: the name and
    the kind of each interface, or an error. *)
Context (interfaces : exn + list (string * string)).
Definition network_mode (driver : string) (parent : option string) : exn + option string :=
  if bool_decide (driver = "bridge") then
    _ ← refuse_unless (negb (isSome parent || isSome (prop source "mode"))) "Bridge networks do not accept parent or driver mode";
    inr None
  else
    match parent with
    | None => refuse "Parent interface is required for macvlan and ipvlan networks"
    | Some parent =>
        found ← interfaces;
        _ ← refuse_unless (existsb (λ i, bool_decide (i.1 = parent) && negb (bool_decide (i.2 = "loopback"))) found)
              "Parent interface is not available on this host";
        Some <$> (if bool_decide (driver = "macvlan")
                  then enumValue (prop source "mode") "Macvlan mode" ["bridge"; "private"; "vepa"; "passthru"] (Some "bridge")
                  else enumValue (prop source "mode") "Ipvlan mode" ["l2"; "l3"; "l3s"] (Some "l2"))
    end.
Definition prepareNetwork : exn + PreparedDockerCreate :=
  _ ← allowed source NETWORK_KEYS;
  name ← resourceName (prop source "name") "Network name";
  _ ← (if bool_decide (name ∈ ds_networks summary)
       then inl (DockerCreateValidationError "Docker network already exists" 409) else inr tt);
  driver ← enumValue (prop source "driver") "Network driver" ["bridge"; "macvlan"; "ipvlan"] (Some "bridge");
  labels ← stringMap (prop source "labels") "Labels" true;
  parent ← optionalString (prop source "parent") "Parent interface" 64;
  mode ← network_mode driver parent;
  enableIpv4 ← boolean (prop source "enableIpv4") "Enable IPv4" true;
  enableIpv6 ← boolean (prop source "enableIpv6") "Enable IPv6" false;
  _ ← require_if (negb enableIpv4) summary "1.48" "Disabling IPv4";
  _ ← refuse_unless (enableIpv4 || enableIpv6) "At least one network address family must be enabled";
  ipam ← ipamConfigs (prop source "ipam") enableIpv4 enableIpv6;
  internal ← boolean (prop source "internal") "Internal network" false;
  inr (PreparedNetwork (NetworkRequest name driver labels parent mode enableIpv4 enableIpv6 ipam internal)).
End Prepare.

Definition prepareDockerCreate url_hostname (body : option json) (db : nat → roots_db) (socketPath : string)
    (interfaces : exn + list (string * string)) (summary : DockerSummary) : prog disk PreparedDockerCreate :=
  source ← check (record body "Docker create request");
  if negb (is_str (prop source "action") "create") then refuse_disk "Docker create action is required"
  else if is_str (prop source "targetType") "container" then prepareContainer url_hostname source summary db socketPath
  else if is_str (prop source "targetType") "volume" then check (prepareVolume source summary)
  else if is_str (prop source "targetType") "network" then check (prepareNetwork source summary interfaces)
  else refuse_disk "Docker create target must be container, volume, or network".

(** ** The objects of a prepared request *)
Notation fields := (list (string * json)).
(** [...(v ? { k: v } : {})]. *)
Definition optional {A} (key : string) (f : A → json) (v : option A) : fields :=
  match v with Some v => [(key, f v)] | None => [] end.
Definition nonempty {A} (key : string) (f : A → json) (l : list A) : fields :=
  match l with [] => [] | _ => [(key, JArr (f <$> l))] end.
Definition string_map (m : list (string * string)) : json := JObj ((λ e, (e.1, JStr e.2)) <$> m).
Definition nonempty_map (key : string) (m : list (string * string)) : fields :=
  match m with [] => [] | _ => [(key, string_map m)] end.

Definition mount_input (m : docker_mount) : json :=
  JObj match m with
  | BindMount rootId sourcePath _ target readOnly =>
      [("type", JStr "bind"); ("rootId", JStr rootId); ("sourcePath", JStr sourcePath); ("target", JStr target); ("readOnly", JBool readOnly)]
  | VolumeMount source target readOnly noCopy =>
      [("type", JStr "volume"); ("source", JStr source); ("target", JStr target); ("readOnly", JBool readOnly); ("noCopy", JBool noCopy)]
  | TmpfsMount target readOnly sizeBytes mode =>
      [("type", JStr "tmpfs"); ("target", JStr target); ("readOnly", JBool readOnly)] ++
      optional "sizeBytes" JNum sizeBytes ++ optional "mode" JNum mode
  end.
Definition mount_engine (m : docker_mount) : json :=
  match m with
  | BindMount _ _ source target readOnly =>
      JObj [("type", JStr "bind"); ("source", JStr source); ("target", JStr target); ("readOnly", JBool readOnly)]
  | _ => mount_input m
  end.
Definition network_input (n : container_network) : json :=
  JObj ([("mode", JStr (cn_mode n))] ++ optional "networkName" JStr (cn_networkName n) ++ nonempty "aliases" JStr (cn_aliases n) ++
        optional "ipv4Address" JStr (cn_ipv4Address n) ++ optional "ipv6Address" JStr (cn_ipv6Address n) ++
        optional "macAddress" JStr (cn_macAddress n)).
Definition port_input (p : port_binding) : json :=
  JObj ([("containerPort", JNum (pb_containerPort p)); ("protocol", JStr (pb_protocol p))] ++
        optional "hostIp" JStr (pb_hostIp p) ++ optional "hostPort" JNum (pb_hostPort p)).
Definition host_input (h : string * string) : json := JObj [("hostname", JStr h.1); ("address", JStr h.2)].
Definition host_engine (h : string * string) : json := JStr (h.1 +:+ ":" +:+ h.2).
Definition ipam_input (auxKey : string) (c : ipam_config) : json :=
  JObj (optional "subnet" JStr (ip_subnet c) ++ optional "ipRange" JStr (ip_range c) ++ optional "gateway" JStr (ip_gateway c) ++
        nonempty_map auxKey (ip_auxAddresses c)).

Definition container_input (r : container_request) : fields :=
  let ig := ct_image r in let ep := ct_endpoint r in let po := ct_policy r in
  let re := ct_resources r in let pr := ct_process r in let sw := ct_switches r in
  [("name", JStr (ig_name ig)); ("image", JStr (ig_image ig))] ++ optional "platform" JStr (ig_platform ig) ++
  [("pullPolicy", JStr (sw_pullPolicy sw)); ("start", JBool (sw_start sw))] ++ optional "hostname" JStr (ps_hostname pr) ++
  optional "user" JStr (ps_user pr) ++ optional "workingDir" JStr (ps_workingDir pr) ++
  nonempty "entrypoint" JStr (ig_entrypoint ig) ++ nonempty "command" JStr (ig_command ig) ++
  nonempty_map "environment" (ig_environment ig) ++ nonempty_map "labels" (ig_labels ig) ++
  [("tty", JBool (sw_tty sw)); ("openStdin", JBool (sw_openStdin sw)); ("init", JBool (sw_init sw))] ++
  optional "stopSignal" JStr (ps_stopSignal pr) ++ optional "stopTimeoutSeconds" JNum (ps_stopTimeoutSeconds pr) ++
  optional "cpuLimit" JNum (re_cpuLimit re) ++ optional "cpuShares" JNum (ps_cpuShares pr) ++
  optional "cpusetCpus" JStr (re_cpusetCpus re) ++ optional "memoryLimitBytes" JNum (re_memoryLimitBytes re) ++
  optional "memoryReservationBytes" JNum (re_memoryReservationBytes re) ++ optional "memorySwapBytes" JNum (re_memorySwapBytes re) ++
  optional "pidsLimit" JNum (ps_pidsLimit pr) ++ optional "shmSizeBytes" JNum (ps_shmSizeBytes pr) ++
  [("readonlyRootfs", JBool (sw_readonlyRootfs sw)); ("privileged", JBool (po_privileged po));
   ("privilegedAcknowledged", JBool (po_privileged po))] ++
  nonempty "mounts" mount_input (ct_mounts r) ++ [("network", network_input (ep_network ep))] ++
  nonempty "ports" port_input (ep_ports ep) ++ [("publishAllPorts", JBool (ep_publishAllPorts ep))] ++
  nonempty "dns" JStr (ps_dns pr) ++ nonempty "dnsSearch" JStr (ps_dnsSearch pr) ++
  nonempty "extraHosts" host_input (ps_extraHosts pr) ++ [("restartPolicy", JStr (po_restartPolicy po))] ++
  optional "restartMaxRetries" JNum (ps_restartMaxRetries pr) ++ [("autoRemove", JBool (po_autoRemove po))].

(** [Math.round(cpuLimit * 1_000_000_000)]. *)
Definition nano_cpus (n : number) : number :=
  round match n with Num q => Num (q * inject_Z 1000000000) | n => n end.
Definition custom_name (n : container_network) : option string :=
  if bool_decide (cn_mode n = "custom") then cn_networkName n else None.
(** Without its labels, which [executeDockerCreate] replaces. *)
Definition container_engine (r : container_request) (labels : list (string * string)) : fields :=
  let ig := ct_image r in let ep := ct_endpoint r in let po := ct_policy r in
  let re := ct_resources r in let pr := ct_process r in let sw := ct_switches r in let n := ep_network ep in
  [("name", JStr (ig_name ig)); ("image", JStr (ig_image ig))] ++ optional "platform" JStr (ig_platform ig) ++
  optional "hostname" JStr (ps_hostname pr) ++ optional "user" JStr (ps_user pr) ++ optional "workingDir" JStr (ps_workingDir pr) ++
  nonempty "entrypoint" JStr (ig_entrypoint ig) ++ nonempty "command" JStr (ig_command ig) ++
  nonempty_map "environment" (ig_environment ig) ++ [("labels", string_map labels)] ++
  [("tty", JBool (sw_tty sw)); ("openStdin", JBool (sw_openStdin sw)); ("init", JBool (sw_init sw))] ++
  optional "stopSignal" JStr (ps_stopSignal pr) ++ optional "stopTimeout" JNum (ps_stopTimeoutSeconds pr) ++
  optional "nanoCpus" (λ c, JNum (nano_cpus c)) (re_cpuLimit re) ++ optional "cpuShares" JNum (ps_cpuShares pr) ++
  optional "cpusetCpus" JStr (re_cpusetCpus re) ++ optional "memory" JNum (re_memoryLimitBytes re) ++
  optional "memoryReservation" JNum (re_memoryReservationBytes re) ++ optional "memorySwap" JNum (re_memorySwapBytes re) ++
  optional "pidsLimit" JNum (ps_pidsLimit pr) ++ optional "shmSize" JNum (ps_shmSizeBytes pr) ++
  [("readOnlyRootfs", JBool (sw_readonlyRootfs sw)); ("privileged", JBool (po_privileged po))] ++
  nonempty "mounts" mount_engine (ct_mounts r) ++ [("networkMode", JStr (custom_name n ⁇ cn_mode n))] ++
  optional "networkName" JStr (custom_name n) ++ nonempty "networkAliases" JStr (cn_aliases n) ++
  optional "ipv4Address" JStr (cn_ipv4Address n) ++ optional "ipv6Address" JStr (cn_ipv6Address n) ++
  optional "macAddress" JStr (cn_macAddress n) ++ nonempty "ports" port_input (ep_ports ep) ++
  [("publishAllPorts", JBool (ep_publishAllPorts ep))] ++ nonempty "dns" JStr (ps_dns pr) ++ nonempty "dnsSearch" JStr (ps_dnsSearch pr) ++
  nonempty "extraHosts" host_engine (ps_extraHosts pr) ++ [("restartPolicy", JStr (po_restartPolicy po))] ++
  optional "restartMaximumRetryCount" JNum (ps_restartMaxRetries pr) ++ [("autoRemove", JBool (po_autoRemove po))].

Definition network_request_input (r : network_request) : fields :=
  [("name", JStr (nt_name r)); ("internal", JBool (nt_internal r)); ("enableIpv4", JBool (nt_enableIpv4 r));
   ("enableIpv6", JBool (nt_enableIpv6 r))] ++ nonempty "ipam" (ipam_input "auxAddresses") (nt_ipam r) ++
  nonempty_map "labels" (nt_labels r) ++ [("driver", JStr (nt_driver r))] ++
  (if bool_decide (nt_driver r = "bridge") then [] else optional "parent" JStr (nt_parent r) ++ optional "mode" JStr (nt_mode r)).
Definition network_engine (r : network_request) (labels : list (string * string)) : fields :=
  [("name", JStr (nt_name r)); ("driver", JStr (nt_driver r));
   ("options", JObj (if bool_decide (nt_driver r = "bridge") then [] else
                     optional "parent" JStr (nt_parent r) ++
                     optional (if bool_decide (nt_driver r = "macvlan") then "macvlan_mode" else "ipvlan_mode") JStr (nt_mode r)));
   ("internal", JBool (nt_internal r)); ("enableIPv4", JBool (nt_enableIpv4 r)); ("enableIPv6", JBool (nt_enableIpv6 r))] ++
  match nt_ipam r with
  | [] => []
  | l => [("ipam", JObj [("driver", JStr "default"); ("configs", JArr (ipam_input "auxiliaryAddresses" <$> l))])]
  end ++ [("labels", string_map labels)].

Definition input_of (p : PreparedDockerCreate) : fields :=
  match p with
  | PreparedContainer r => container_input r
  | PreparedVolume name labels => [("name", JStr name)] ++ nonempty_map "labels" labels
  | PreparedNetwork r => network_request_input r
  end.
Definition labels_of (p : PreparedDockerCreate) : list (string * string) :=
  match p with PreparedContainer r => ig_labels (ct_image r) | PreparedVolume _ labels => labels | PreparedNetwork r => nt_labels r end.
Definition engineInput_of (p : PreparedDockerCreate) (labels : list (string * string)) : fields :=
  match p with
  | PreparedContainer r => container_engine r labels
  | PreparedVolume name _ => [("name", JStr name); ("labels", string_map labels)]
  | PreparedNetwork r => network_engine r labels
  end.

Definition proposal (target nameKey name risk summary : string) : fields :=
  [("action", JStr "create"); ("targetType", JStr target); (nameKey, JStr name); ("risk", JStr risk); ("summary", JStr summary)].
Definition proposal_of (p : PreparedDockerCreate) : fields :=
  match p with
  | PreparedContainer r =>
      let name := ig_name (ct_image r) in
      proposal "container" "containerName" name (if po_privileged (ct_policy r) then "high" else "medium")
        ("Create Docker container " +:+ name +:+ " from " +:+ ig_image (ct_image r))
  | PreparedVolume name _ => proposal "volume" "volumeName" name "low" ("Create Docker volume " +:+ name)
  | PreparedNetwork r =>
      proposal "network" "networkName" (nt_name r) (if bool_decide (nt_driver r = "bridge") then "medium" else "high")
        ("Create Docker " +:+ nt_driver r +:+ " network " +:+ nt_name r)
  end.
(** [keys.sort()]. *)
Definition sorted (l : list string) : json := JArr (JStr <$> order_by String.leb l).
Definition count {A} (l : list A) : json := int (Z.of_nat (length l)).
Definition audit_of (p : PreparedDockerCreate) : fields :=
  match p with
  | PreparedContainer r =>
      let ig := ct_image r in
      [("image", JStr (ig_image ig)); ("pullPolicy", JStr (sw_pullPolicy (ct_switches r))); ("start", JBool (sw_start (ct_switches r)));
       ("privileged", JBool (po_privileged (ct_policy r))); ("environmentKeys", sorted (ig_environment ig).*1);
       ("labelKeys", sorted (ig_labels ig).*1); ("entrypointArguments", count (ig_entrypoint ig));
       ("commandArguments", count (ig_command ig)); ("mountTypes", JArr ((λ m, JStr (mount_type m)) <$> ct_mounts r));
       ("portCount", count (ep_ports (ct_endpoint r))); ("networkMode", JStr (cn_mode (ep_network (ct_endpoint r))))]
  | PreparedVolume _ labels => [("driver", JStr "local"); ("labelKeys", sorted labels.*1)]
  | PreparedNetwork r =>
      [("driver", JStr (nt_driver r)); ("internal", JBool (nt_internal r)); ("enableIpv4", JBool (nt_enableIpv4 r));
       ("enableIpv6", JBool (nt_enableIpv6 r)); ("ipamEntries", count (nt_ipam r));
       ("auxAddressKeys", sorted (nt_ipam r ≫= λ c, (ip_auxAddresses c).*1)); ("labelKeys", sorted (nt_labels r).*1)]
  end.

(** ** Asking the engine *)
(** The cause is kept in the other fields: its class and its status. *)
Definition DockerCreateExecutionError (phase : string) (cause : exn) : exn :=
  Exn "DockerCreateExecutionError" (exn_message cause) (exn_status cause) (Some phase) [exn_name cause].

Inductive engine_call :=
  | ImageExists (image : string)
  | PullImage (image : string) (registryAuth : option string)
  | CreateContainer (input : fields)
  | CreateVolume (input : fields)
  | CreateNetwork (input : fields)
  | StartContainer (id : string).
Record created_container := CreatedContainer { cc_id : string; cc_warnings : list string }.
Record created_network := CreatedNetwork { cw_id : string; cw_warning : string }.
(** What the engine answers after the calls so far, the last one included. *)
Record DockerEngineRuntime := Engine {
  en_imageExists : list engine_call → exn + bool;
  en_pullImage : list engine_call → exn + unit;
  en_createContainer : list engine_call → exn + created_container;
  en_createVolume : list engine_call → exn + string;
  en_createNetwork : list engine_call → exn + created_network;
  en_startContainer : list engine_call → exn + unit
}.
(** [created] is always true. *)
Record DockerCreateResult := CreateResult {
  dr_kind : string; dr_id : string; dr_name : string; dr_pulled : option bool; dr_started : option bool;
  dr_warnings : list string; dr_partialSuccess : bool; dr_phase : option string; dr_error : option string
}.

Notation engine_prog := (prog (list engine_call)).
Definition ask {A} (answer : list engine_call → exn + A) (c : engine_call) : engine_prog A := λ log, (answer (log ++ [c]), log ++ [c]).
Definition phase_of {A} (phase : string) (action : engine_prog A) : engine_prog A :=
  try_catch action (λ e, throw (DockerCreateExecutionError phase e)).
Definition pullPhase {A} : engine_prog A → engine_prog A := phase_of "pull".
Definition createPhase {A} : engine_prog A → engine_prog A := phase_of "create".

(** [{...labels, "io.zos.managed": ..., "io.zos.operation": ...}]. *)
Definition set_label (m : list (string * string)) (key value : string) : list (string * string) :=
  if bool_decide (key ∈ m.*1) then (λ e, if bool_decide (e.1 = key) then (key, value) else e) <$> m else m ++ [(key, value)].
Definition managed_labels (labels : list (string * string)) (operationId : string) : list (string * string) :=
  set_label (set_label labels "io.zos.managed" "true") "io.zos.operation" operationId.

Section Execute.
Context (engine : DockerEngineRuntime) (getRegistryAuth : list engine_call → exn + option string).

Definition pullImage (image : string) : engine_prog unit :=
  registryAuth ← (λ log, (getRegistryAuth log, log));
  ask (en_pullImage engine) (PullImage image match registryAuth with Some "" => None | a => a end).
(** Whether the image was pulled. *)
Definition ensure_image (policy image : string) : engine_prog bool :=
  if bool_decide (policy = "always") then _ ← pullPhase (pullImage image); mret true else
  exists_ ← pullPhase (ask (en_imageExists engine) (ImageExists image));
  if bool_decide (policy = "never") && negb exists_
  then throw (DockerCreateValidationError "Docker image is not available locally" 400)
  else if bool_decide (policy = "missing") && negb exists_ then _ ← pullPhase (pullImage image); mret true else mret false.
Definition executeDockerCreate (prepared : PreparedDockerCreate) (operationId : string) : engine_prog DockerCreateResult :=
  let input := engineInput_of prepared (managed_labels (labels_of prepared) operationId) in
  match prepared with
  | PreparedVolume _ _ =>
      created ← createPhase (ask (en_createVolume engine) (CreateVolume input));
      mret (CreateResult "volume" created created None None [] false None None)
  | PreparedNetwork r =>
      created ← createPhase (ask (en_createNetwork engine) (CreateNetwork input));
      mret (CreateResult "network" (cw_id created) (nt_name r) None None
              (if bool_decide (cw_warning created = "") then [] else [cw_warning created]) false None None)
  | PreparedContainer r =>
      let name := ig_name (ct_image r) in
      pulled ← ensure_image (sw_pullPolicy (ct_switches r)) (ig_image (ct_image r));
      created ← createPhase (ask (en_createContainer engine) (CreateContainer input));
      let result started partialSuccess phase error :=
        CreateResult "container" (cc_id created) name (Some pulled) (Some started) (cc_warnings created) partialSuccess phase error in
      if negb (sw_start (ct_switches r)) then mret (result false false None None) else
      try_catch
        (_ ← ask (en_startContainer engine) (StartContainer (cc_id created)); mret (result true false None None))
        (λ e, mret (result false true (Some "start") (Some (exn_message e))))
  end.
End Execute.

(** ** What is accepted *)
Lemma check_all_Forall {A B} (f : A → exn + B) (P : B → Prop) l l' :
  (∀ x y, f x = inr y → P y) → check_all f l = inr l' → Forall P l'.
Proof.
  intros Hf. revert l'. induction l as [|x l IH]; intros l' H; cbn [check_all] in H; [injection H as <-; constructor|].
  check_step H. check_step H. injection H as <-. constructor; [by eapply Hf|by apply IH].
Qed.

(** No label of a request is of the managed ones. *)
Definition free_label (e : string * string) : Prop := e.1 ≠ "io.zos.managed" ∧ e.1 ≠ "io.zos.operation".
Lemma map_entry_free field e x : map_entry field true e = inr x → free_label x.
Proof.
  unfold map_entry. destruct e as [key raw]. destruct (_ || _); [done|]. cbn [andb].
  destruct (startsWith "io.zos." (toLowerCase key)) eqn:E; [done|]. destruct raw; try done. destruct (_ || _); [done|].
  intros [= <-]. by split; cbn [fst]; intros ->.
Qed.
Lemma stringMap_free v field l : stringMap v field true = inr l → Forall free_label l.
Proof.
  unfold stringMap. destruct v as [v|]; [|intros [= <-]; constructor]. intros H. check_step H.
  destruct (bool_decide (MAX_ITEMS < _)); [done|]. check_step H. subst.
  apply Forall_forall. intros e He. apply list_elem_of_In, filter_In in He as [He _]. apply list_elem_of_In in He.
  apply (check_all_Forall (map_entry field true) free_label) in Hx0; [|apply map_entry_free]. by rewrite Forall_forall in Hx0; apply Hx0.
Qed.
Lemma set_label_new m key value : key ∉ m.*1 → set_label m key value = m ++ [(key, value)].
Proof. intros H. unfold set_label. by rewrite bool_decide_false. Qed.
Lemma managed_labels_free labels operationId : Forall free_label labels →
  managed_labels labels operationId = labels ++ [("io.zos.managed", "true"); ("io.zos.operation", operationId)].
Proof.
  intros H. rewrite Forall_forall in H.
  assert ("io.zos.managed" ∉ labels.*1) as H1 by (intros (e & E & He)%list_elem_of_fmap; by destruct (H e He)).
  assert ("io.zos.operation" ∉ labels.*1) as H2 by (intros (e & E & He)%list_elem_of_fmap; by destruct (H e He)).
  unfold managed_labels. rewrite (set_label_new labels), set_label_new by (done || rewrite fmap_app; set_solver).
  by rewrite <-app_assoc.
Qed.

(** An image names a tag or a digest. *)
Definition pinned (image : string) : Prop := has_char "@" image = true ∨ lastIndexOf "/" image < lastIndexOf ":" image.
Lemma lastIndexOf_app c a b i last :
  lastIndexOf_from c i last (a +:+ b) = lastIndexOf_from c (i + len a) (lastIndexOf_from c i last a) b.
Proof.
  revert i last. induction a as [|x a IH]; intros i last; [by rewrite Z.add_0_r|].
  change (String x a +:+ b) with (String x (a +:+ b)). cbn [lastIndexOf_from]. rewrite IH.
  f_equal. unfold len. cbn [String.length]. lia.
Qed.
Lemma lastIndexOf_bound c s i last : last < i → lastIndexOf_from c i last s < i + len s.
Proof.
  revert i last. induction s as [|x s IH]; intros i last H; cbn [lastIndexOf_from]; [unfold len; simpl; lia|].
  assert (len (String x s) = 1 + len s) as -> by (unfold len; cbn [String.length]; lia).
  specialize (IH (i + 1) (if Ascii.eqb x c then i else last)). destruct (Ascii.eqb x c); lia.
Qed.
Lemma imageReference_pinned url value image : imageReference url value = inr image → pinned image.
Proof.
  unfold imageReference, pinned. destruct (parseDockerImageReference url value); [|done]. destruct (has_char "@" value) eqn:E.
  { intros [= <-]. by left. }
  intros [= <-]. right. case_bool_decide as H; [done|]. unfold lastIndexOf. rewrite !lastIndexOf_app.
  pose proof (lastIndexOf_bound "/" value 0 (-1) ltac:(lia)). cbn. lia.
Qed.

Lemma image_checks_ok url source summary ig : image_checks url source summary = inr ig →
  ig_name ig ∉ ds_containers summary ∧ pinned (ig_image ig) ∧ Forall free_label (ig_labels ig).
Proof.
  unfold image_checks. intros H. repeat check_step H. injection H as <-. cbn [ig_name ig_image ig_labels].
  split_and!; [by case_bool_decide|by eapply imageReference_pinned|by eapply stringMap_free].
Qed.
Lemma endpoint_checks_ok source summary mounts ep : endpoint_checks source summary mounts = inr ep →
  cn_mode (ep_network ep) = "host" ∨ cn_mode (ep_network ep) = "none" →
  ep_ports ep = [] ∧ ep_publishAllPorts ep = false ∧ endpointConfigured (ep_network ep) = false.
Proof.
  unfold endpoint_checks. intros H Hm. repeat check_step H. injection H as <-. cbn [ep_network ep_ports ep_publishAllPorts] in *.
  match goal with E : refuse_unless _ _ = inr _ |- _ => apply refuse_unless_inv, negb_true_iff, andb_false_iff in E; rename E into HE end.
  destruct HE as [E|E].
  - apply bool_decide_eq_false in E. set_solver.
  - apply orb_false_iff in E as [E ?]. apply orb_false_iff in E as [E ?]. split_and!; [|done..].
    apply negb_false_iff, bool_decide_eq_true in E. by apply nil_length_inv.
Qed.
Lemma policy_checks_ok source po : policy_checks source = inr po →
  (po_privileged po = true → prop source "privilegedAcknowledged" = Some (JBool true)) ∧
  (po_autoRemove po = true → po_restartPolicy po = "no").
Proof.
  unfold policy_checks. intros H. repeat check_step H. injection H as <-. cbn [po_privileged po_autoRemove po_restartPolicy].
  repeat match goal with E : refuse_unless _ _ = inr _ |- _ => apply refuse_unless_inv, negb_true_iff in E end.
  split; intros ->; cbn [andb] in *; repeat match goal with E : negb _ = false |- _ => apply negb_false_iff in E end.
  - by apply is_true_Some.
  - by apply (bool_decide_eq_true (_ = "no")).
Qed.

Lemma resource_checks_ok source re : resource_checks source = inr re →
  both_less (re_memoryLimitBytes re) (re_memoryReservationBytes re) = false.
Proof.
  unfold resource_checks. intros H. repeat check_step H. injection H as <-. cbn [re_memoryLimitBytes re_memoryReservationBytes].
  match goal with E : refuse_unless (negb (both_less _ _)) _ = inr _ |- _ => by apply refuse_unless_inv, negb_true_iff in E end.
Qed.
Lemma prepareVolume_ok source summary p : prepareVolume source summary = inr p →
  ∃ name labels, p = PreparedVolume name labels ∧ name ∉ ds_volumes summary ∧ Forall free_label labels.
Proof.
  unfold prepareVolume. intros H. repeat check_step H. injection H as <-. exists x0, x2. split_and!; [done| |by eapply stringMap_free].
  by case_bool_decide.
Qed.
Lemma prepareNetwork_ok source summary interfaces p : prepareNetwork source summary interfaces = inr p →
  ∃ r, p = PreparedNetwork r ∧ nt_name r ∉ ds_networks summary ∧ Forall free_label (nt_labels r) ∧
    nt_enableIpv4 r || nt_enableIpv6 r = true ∧ (nt_driver r = "bridge" → nt_parent r = None ∧ nt_mode r = None) ∧
    (nt_driver r ≠ "bridge" → ∃ parent kind found, nt_parent r = Some parent ∧ interfaces = inr found ∧ (parent, kind) ∈ found ∧ kind ≠ "loopback").
Proof.
  unfold prepareNetwork. intros H. repeat check_step H. injection H as <-. eexists. split; [done|].
  cbn [nt_name nt_labels nt_enableIpv4 nt_enableIpv6 nt_driver nt_parent nt_mode].
  split; [by case_bool_decide|]. split; [by eapply stringMap_free|].
  split; [by match goal with E : refuse_unless _ _ = inr _ |- _ => apply refuse_unless_inv in E end|].
  match goal with E : network_mode _ _ _ _ = inr _ |- _ => rename E into Hm end. unfold network_mode in Hm.
  clear -Hm. case_bool_decide as Ed; (split; intros Ed'; try done).
  - check_step Hm. apply refuse_unless_inv, negb_true_iff, orb_false_iff in Hx as [Hp _]. injection Hm as <-. by destruct x4.
  - destruct x4 as [parent|]; [|done]. check_step Hm. check_step Hm. apply refuse_unless_inv, existsb_exists in Hx0 as ([n kind] & Hin & Hk).
    apply andb_prop in Hk as [Hk%bool_decide_eq_true Hl%negb_true_iff%bool_decide_eq_false]. cbn [fst snd] in *. subst n.
    eexists parent, kind, _. split_and!; [done|done|by apply list_elem_of_In|done].
Qed.

(** The acknowledgement that a body gives. *)
Definition acknowledges (body : option json) : Prop :=
  ∃ source, body = Some (JObj source) ∧ prop source "privilegedAcknowledged" = Some (JBool true).
Lemma record_inv v field source : record v field = inr source → v = Some (JObj source).
Proof. unfold record. destruct v as [[]|]; try done. by intros [= ->]. Qed.


(** ** What the engine is asked *)
Section Execution.
Context (engine : DockerEngineRuntime) (getRegistryAuth : list engine_call → exn + option string).

(** Pulling an image after the calls [before]: the calls after it and how it ended. *)
Inductive pull_attempt (image : string) (before : list engine_call) : list engine_call → exn + unit → Prop :=
  | no_credentials cause : getRegistryAuth before = inl cause → pull_attempt image before before (inl cause)
  | pull_asked auth : getRegistryAuth before = inr auth → auth ≠ Some "" →
      pull_attempt image before (before ++ [PullImage image auth]) (en_pullImage engine (before ++ [PullImage image auth]))
  | pull_anonymous : getRegistryAuth before = inr (Some "") →
      pull_attempt image before (before ++ [PullImage image None]) (en_pullImage engine (before ++ [PullImage image None])).
Definition pull_result (r : exn + unit) : exn + bool := match r with inl cause => inl (DockerCreateExecutionError "pull" cause) | inr _ => inr true end.
(** What a pull policy means: the calls before the creation, and whether the
    image was pulled, or why there is no image.  Another policy than the three
    only looks. *)
Inductive image_phase (policy image : string) : list engine_call → exn + bool → Prop :=
  | phase_always calls r : policy = "always" → pull_attempt image [] calls r → image_phase policy image calls (pull_result r)
  | phase_unknown cause : policy ≠ "always" → en_imageExists engine [ImageExists image] = inl cause →
      image_phase policy image [ImageExists image] (inl (DockerCreateExecutionError "pull" cause))
  | phase_found : policy ≠ "always" → en_imageExists engine [ImageExists image] = inr true → image_phase policy image [ImageExists image] (inr false)
  | phase_refused : policy = "never" → en_imageExists engine [ImageExists image] = inr false →
      image_phase policy image [ImageExists image] (inl (DockerCreateValidationError "Docker image is not available locally" 400))
  | phase_missing calls r : policy = "missing" → en_imageExists engine [ImageExists image] = inr false →
      pull_attempt image [ImageExists image] calls r → image_phase policy image calls (pull_result r)
  | phase_other : policy ∉ ["always"; "never"; "missing"] → en_imageExists engine [ImageExists image] = inr false →
      image_phase policy image [ImageExists image] (inr false).

Lemma phase_ask {A} phase (answer : list engine_call → exn + A) c log : phase_of phase (ask answer c) log =
  (match answer (log ++ [c]) with inl e => inl (DockerCreateExecutionError phase e) | inr a => inr a end, log ++ [c]).
Proof. unfold phase_of, try_catch, ask, throw. by destruct (answer _). Qed.
Lemma pull_run image before r calls : pullImage engine getRegistryAuth image before = (r, calls) → pull_attempt image before calls r.
Proof.
  unfold pullImage, ask, mbind, prog_bind. destruct (getRegistryAuth before) as [e|a] eqn:E; intros [= <- <-]; [by constructor|].
  destruct a as [[|c a]|]; [by apply pull_anonymous|by apply pull_asked..].
Qed.
Lemma pull_then image before r calls : (_ ← pullPhase (pullImage engine getRegistryAuth image); mret true) before = (r, calls) →
  ∃ r0, pull_attempt image before calls r0 ∧ r = pull_result r0.
Proof.
  unfold pullPhase, phase_of, try_catch, throw, mbind, prog_bind. destruct (pullImage engine getRegistryAuth image before) as [r0 c] eqn:E.
  apply pull_run in E. destruct r0 as [e|[]]; intros [= <- <-]; [by exists (inl e)|by exists (inr tt)].
Qed.
Lemma ensure_image_spec policy image r log : ensure_image engine getRegistryAuth policy image [] = (r, log) → image_phase policy image log r.
Proof.
  unfold ensure_image. intros H. case_bool_decide as Ea.
  { apply pull_then in H as (r0 & H & ->). by apply phase_always. }
  unfold mbind at 1, prog_bind at 1 in H. change (@pullPhase bool) with (@phase_of bool "pull") in H. rewrite phase_ask in H. cbn [app] in H.
  destruct (en_imageExists engine [ImageExists image]) as [e|[]] eqn:Ef.
  - injection H as <- <-. by apply phase_unknown.
  - cbn [negb] in H. rewrite !andb_false_r in H. injection H as <- <-. by apply phase_found.
  - cbn [negb] in H. rewrite !andb_true_r in H. case_bool_decide as En; [injection H as <- <-; by apply phase_refused|].
    case_bool_decide as Em; [apply pull_then in H as (r0 & H & ->); by apply phase_missing|]. injection H as <- <-.
    apply phase_other; [|done]. rewrite !elem_of_cons, elem_of_nil. tauto.
Qed.

Definition create_call (p : PreparedDockerCreate) (operationId : string) : engine_call :=
  let input := engineInput_of p (managed_labels (labels_of p) operationId) in
  match p with PreparedContainer _ => CreateContainer input | PreparedVolume _ _ => CreateVolume input | PreparedNetwork _ => CreateNetwork input end.
(** The identifier that the engine gives to what it creates. *)
Definition create_answer (p : PreparedDockerCreate) (log : list engine_call) : exn + string :=
  match p with
  | PreparedContainer _ => cc_id <$> en_createContainer engine log
  | PreparedVolume _ _ => en_createVolume engine log
  | PreparedNetwork _ => cw_id <$> en_createNetwork engine log
  end.
Definition starts (p : PreparedDockerCreate) : bool := match p with PreparedContainer r => sw_start (ct_switches r) | _ => false end.
Definition image_of (p : PreparedDockerCreate) : option (string * string) :=
  match p with PreparedContainer r => Some (sw_pullPolicy (ct_switches r), ig_image (ct_image r)) | _ => None end.
Definition failed {A} (r : exn + A) : bool := match r with inl _ => true | inr _ => false end.

Definition images_ready (p : PreparedDockerCreate) (pulls : list engine_call) (ready : exn + bool) : Prop :=
  match image_of p with
  | Some (policy, image) => image_phase policy image pulls ready
  | None => pulls = [] ∧ ready = inr false
  end.
(** C32: Whatever the engine answers, [executeDockerCreate] asks it for one
    resource at most, labelled as managed.  Before a container its image is
    made ready by the policy ([image_phase]): with [always] it is pulled and
    not looked for; with [missing] it is looked for, and pulled exactly when
    it is not there; with [never] it is only looked for.  If that fails
    nothing is created, and the error is that of the phase [pull] - or, when
    [never] finds no image, a refusal.  A failure to create is an error of the
    phase [create].  A container is started only after it was created, if it
    is to be, and a failure to start leaves a result, with [partialSuccess]. *)
Theorem execute_create_spec p operationId res log (H : executeDockerCreate engine getRegistryAuth p operationId [] = (res, log)) :
  ∃ pulls rest ready, log = pulls ++ rest ∧ images_ready p pulls ready ∧
  match ready, res with
  | inl e, _ => res = inl e ∧ rest = []
  | inr pulled, inr result => ∃ id, create_answer p (pulls ++ [create_call p operationId]) = inr id ∧ dr_id result = id ∧
      rest = create_call p operationId :: (if starts p then [StartContainer id] else []) ∧
      dr_pulled result = (λ _, pulled) <$> image_of p ∧
      dr_started result = (λ _, starts p && negb (failed (en_startContainer engine log))) <$> image_of p ∧
      dr_partialSuccess result = starts p && failed (en_startContainer engine log)
  | inr _, inl e => rest = [create_call p operationId] ∧
      ∃ cause, create_answer p (pulls ++ [create_call p operationId]) = inl cause ∧ e = DockerCreateExecutionError "create" cause
  end.
Proof.
  destruct p as [r|name labels|r]; unfold executeDockerCreate in H.
  - unfold mbind at 1, prog_bind at 1 in H.
    destruct (ensure_image engine getRegistryAuth (sw_pullPolicy (ct_switches r)) (ig_image (ct_image r)) []) as [r1 pulls] eqn:E1.
    apply ensure_image_spec in E1. exists pulls. destruct r1 as [e|pulled].
    { injection H as <- <-. exists [], (inl e). by rewrite app_nil_r. }
    cbv zeta in H. set (c := CreateContainer _) in H. unfold mbind at 1, prog_bind at 1, createPhase in H. rewrite phase_ask in H.
    unfold create_answer, create_call. fold c. destruct (en_createContainer engine (pulls ++ [c])) as [e|created] eqn:Ec.
    { injection H as <- <-. exists [c], (inr pulled). split_and!; [done..|]. by exists e. }
    exists (c :: if starts (PreparedContainer r) then [StartContainer (cc_id created)] else []), (inr pulled).
    unfold starts in *. destruct (sw_start (ct_switches r)) eqn:Es; cbn [negb] in H.
    + unfold try_catch, mbind, prog_bind, ask in H. rewrite <-app_assoc in H. cbn [app] in H.
      destruct (en_startContainer engine _) as [e|[]] eqn:Est; injection H as <- <-; (split; [done|]); (split; [done|]);
        exists (cc_id created); rewrite ?Est; by split_and!.
    + injection H as <- <-. split; [done|]. split; [done|]. exists (cc_id created). by split_and!.
  - cbv zeta in H. set (c := CreateVolume _) in H. unfold mbind, prog_bind, createPhase in H. rewrite phase_ask in H. exists [].
    unfold create_answer, create_call. fold c. cbn [app] in *.
    destruct (en_createVolume engine [c]) as [e|id] eqn:Ec; injection H as <- <-; exists [c], (inr false); (split; [done|]); (split; [done|]).
    + split; [done|]. by exists e.
    + exists id. by split_and!.
  - cbv zeta in H. set (c := CreateNetwork _) in H. unfold mbind, prog_bind, createPhase in H. rewrite phase_ask in H. exists [].
    unfold create_answer, create_call. fold c. cbn [app] in *.
    destruct (en_createNetwork engine [c]) as [e|created] eqn:Ec; injection H as <- <-; exists [c], (inr false); (split; [done|]); (split; [done|]).
    + split; [done|]. by exists e.
    + exists (cw_id created). by split_and!.
Qed.
End Execution.

Module CreateDemo.
Definition body : json := JObj
  [("sessionId", JStr "s1"); ("action", JStr "create"); ("targetType", JStr "container"); ("name", JStr "films");
   ("image", JStr "ghcr.io/zos/films"); ("privileged", JBool true); ("privilegedAcknowledged", JBool true);
   ("labels", JObj [("team", JStr "media")]); ("memoryLimitBytes", int 8388608); ("cpuLimit", JNum (Num (3 # 2)));
   ("mounts", JArr [MountDemo.bind "media" "films" "/films"; MountDemo.volume]);
   ("ports", JArr [JObj [("containerPort", int 80); ("hostPort", int 8080)]])].
Definition summary : DockerSummary :=
  Summary (Some "1.47") (Some {["memoryLimit" := true; "cpuQuota" := true]}) ["other"] ["cache"] [].
Definition request : container_request := ContainerRequest
  (ImagePart "films" "ghcr.io/zos/films:latest" None [("team", "media")] [] [] [])
  [BindMount "media" "films" "/data/media/films" "/films" true; VolumeMount "cache" "/cache" false true]
  (EndpointPart (ContainerNetwork "bridge" None [] None None None) [PortBinding (lit 80) "tcp" None (Some (lit 8080))] false)
  (PolicyPart "no" false true)
  (ResourcePart (Some (lit 8388608)) None None (Some (Num (3 # 2))) None)
  (ProcessPart None None None [] [] [] None None None None None None)
  (SwitchPart false false false false true "missing").
Definition prepare (body : json) : exn + PreparedDockerCreate :=
  (prepareDockerCreate Some (Some body) (λ _, MountDemo.db) "/var/run/docker.sock" (inr []) summary (Disk MountDemo.tree [])).1.
Definition with_field (k : string) (v : json) : json := match body with JObj ps => JObj (set_prop ps k v) | b => b end.

Example requests :
  prepare body = inr (PreparedContainer request) ∧
  prepare (with_field "privilegedAcknowledged" (JBool false)) = refuse "Privileged mode requires explicit acknowledgement" ∧
  prepare (with_field "labels" (JObj [("io.ZOS.managed", JStr "x")])) = refuse "Labels in the io.zos.* namespace are reserved" ∧
  prepare (with_field "network" (JObj [("mode", JStr "host")])) =
    refuse "Host and none network modes cannot use ports or endpoint settings" ∧
  prepare (with_field "pidsLimit" (int 10)) = refuse "Host resource control is unsupported or unknown: pidsLimit" ∧
  prepare (with_field "surprise" JNull) = refuse "Unsupported Docker create field: surprise".
Proof. by vm_compute. Qed.
(** An empty key hides the unknown keys after it. *)
Example empty_key : prepare (JObj (match body with JObj ps => ps | _ => [] end ++ [("", JNull); ("surprise", JNull)])) =
  inr (PreparedContainer request).
Proof. by vm_compute. Qed.

Definition engine : DockerEngineRuntime := Engine (λ _, inr false) (λ _, inr tt) (λ _, inr (CreatedContainer "c1" [])) (λ _, inr "v")
  (λ _, inr (CreatedNetwork "n" "")) (λ _, inl (Error "port in use")).
Definition calls : list engine_call :=
  [ImageExists "ghcr.io/zos/films:latest"; PullImage "ghcr.io/zos/films:latest" (Some "token");
   create_call (PreparedContainer request) "op1"; StartContainer "c1"].
Definition outcome : DockerCreateResult :=
  CreateResult "container" "c1" "films" (Some true) (Some false) [] true (Some "start") (Some "port in use").

Lemma execute_create_spec_witness :
  ∃ pulls rest, calls = pulls ++ rest ∧ images_ready engine (λ _, inr (Some "token")) (PreparedContainer request) pulls (inr true) ∧
    dr_partialSuccess outcome = true.
Proof.
  destruct (execute_create_spec engine (λ _, inr (Some "token")) (PreparedContainer request) "op1" (inr outcome) calls)
    as (pulls & rest & [e|pulled] & E & Hi & H).
  - by vm_compute.
  - by destruct H.
  - destruct H as (id & _ & _ & _ & Hp & _ & Hs). exists pulls, rest. split; [exact E|].
    assert (true = pulled) as <- by (by injection Hp). split; [exact Hi|]. rewrite Hs. by vm_compute.
Defined.
End CreateDemo.
