(* ===== verification/DockerRegistry.v ===== *)
(** * Credentials of Docker registries

    docker-registry-credentials.ts of packages/db (one row of the system
    settings holds all credentials), lib/docker-registry.ts of the API, and the
    registry handlers of routes/docker.ts with their validation.  What is shown
    in an error message hides the passwords: [redact_hides_passwords].

    [new Date().toISOString()] is a text here, since the stored records are
    checked to hold texts. *)
From Stdlib Require Import Ascii.
From S2P Require Import Prelude Sql Json JsString JsonText Http Base64 DockerImages.
Open Scope Z_scope.

(** ** packages/db *)
Record DockerRegistryCredentialRecord := Credential {
  rg_id : string; rg_name : string; rg_serverAddress : string; rg_username : string; rg_password : string;
  rg_createdAt : string; rg_updatedAt : string
}.
#[export] Instance credential_eta : Eta DockerRegistryCredentialRecord := λ r,
  Credential (rg_id r) (rg_name r) (rg_serverAddress r) (rg_username r) (rg_password r) (rg_createdAt r) (rg_updatedAt r).
(** The row of the settings, when there is one. *)
Record setting_row := SettingRow { st_value_json : json; st_updated_at : string }.
Notation registry_db := (option setting_row).
Notation registry_prog := (prog registry_db).
Definition DockerRegistryCredentialConflictError : exn :=
  Exn "DockerRegistryCredentialConflictError" "Docker registry credentials already exist for this server" None None [].

Definition registryRecord (value : json) (fallbackUpdatedAt : string) : option DockerRegistryCredentialRecord :=
  match value with
  | JObj ps =>
      id ← as_string (prop ps "id"); name ← as_string (prop ps "name"); serverAddress ← as_string (prop ps "serverAddress");
      username ← as_string (prop ps "username"); password ← as_string (prop ps "password");
      Some (Credential id name serverAddress username password
              (as_string (prop ps "createdAt") ⁇ fallbackUpdatedAt) (as_string (prop ps "updatedAt") ⁇ fallbackUpdatedAt))
  | _ => None
  end.
Definition credential_json (r : DockerRegistryCredentialRecord) : json :=
  JObj [("id", JStr (rg_id r)); ("name", JStr (rg_name r)); ("serverAddress", JStr (rg_serverAddress r));
        ("username", JStr (rg_username r)); ("password", JStr (rg_password r)); ("createdAt", JStr (rg_createdAt r));
        ("updatedAt", JStr (rg_updatedAt r))].
Definition listDockerRegistryCredentials (d : registry_db) : list DockerRegistryCredentialRecord :=
  match d with
  | Some (SettingRow (JArr l) updated_at) => omap (λ v, registryRecord v updated_at) l
  | _ => []
  end.
Definition saveRecords (records : list DockerRegistryCredentialRecord) (updatedAt : string) : registry_prog unit :=
  modify (λ _, Some (SettingRow (JArr (credential_json <$> records)) updatedAt)).
Definition assertUniqueServer (records : list DockerRegistryCredentialRecord) (serverAddress : string) (exceptId : option string) :
    registry_prog unit :=
  guard_throw (existsb (λ r, negb (bool_decide (Some (rg_id r) = exceptId)) && bool_decide (rg_serverAddress r = serverAddress)) records)
    DockerRegistryCredentialConflictError.

Record credential_input := CredentialInput { ri_name : string; ri_serverAddress : string; ri_username : string; ri_password : string }.
Definition createDockerRegistryCredential (id : string) (input : credential_input) (now : string) : registry_prog DockerRegistryCredentialRecord :=
  transaction (
    records ← gets listDockerRegistryCredentials;
    _ ← assertUniqueServer records (ri_serverAddress input) None;
    let record := Credential id (ri_name input) (ri_serverAddress input) (ri_username input) (ri_password input) now now in
    _ ← saveRecords (records ++ [record]) now;
    mret record).
Record credential_update := CredentialUpdate {
  ru_name : option string; ru_serverAddress : option string; ru_username : option string; ru_password : option string
}.
Definition credential_updated (current : DockerRegistryCredentialRecord) (input : credential_update) (updatedAt : string) :
    DockerRegistryCredentialRecord :=
  Credential (rg_id current) (ru_name input ⁇ rg_name current) (ru_serverAddress input ⁇ rg_serverAddress current)
    (ru_username input ⁇ rg_username current)
    match ru_password input with Some p => if bool_decide (trim p = "") then rg_password current else p | None => rg_password current end
    (rg_createdAt current) updatedAt.
Definition updateDockerRegistryCredential (id : string) (input : credential_update) (updatedAt : string) :
    registry_prog (option DockerRegistryCredentialRecord) :=
  transaction (
    records ← gets listDockerRegistryCredentials;
    match list_find (λ r, rg_id r = id) records with
    | None => mret None
    | Some (index, current) =>
        let updated := credential_updated current input updatedAt in
        _ ← assertUniqueServer records (rg_serverAddress updated) (Some id);
        _ ← saveRecords (<[index := updated]> records) updatedAt;
        mret (Some updated)
    end).
Definition deleteDockerRegistryCredential (id : string) (now : string) : registry_prog bool :=
  transaction (
    records ← gets listDockerRegistryCredentials;
    let remaining := List.filter (λ r, negb (bool_decide (rg_id r = id))) records in
    if bool_decide (length remaining = length records) then mret false else
    _ ← saveRecords remaining now;
    mret true).

(** ** lib/docker-registry.ts *)
Definition DockerRegistryValidationError (message : string) : exn := Exn "DockerRegistryValidationError" message None None [].
Definition refuse_registry {A} (message : string) : exn + A := inl (DockerRegistryValidationError message).
Definition requiredText (value : option json) (label : string) (maxLength : Z) : exn + string :=
  match value with
  | Some (JStr s) =>
      let normalized := trim s in
      if bool_decide (normalized = "") then refuse_registry (label +:+ " is required")
      else if bool_decide (maxLength < len normalized) then refuse_registry (label +:+ " is too long") else inr normalized
  | _ => refuse_registry (label +:+ " is required")
  end.

Section Registries.
Context (url_hostname : string → option string).
Definition normalizeDockerRegistryAddress (value : option json) : exn + string :=
  candidate ← requiredText value "Registry server address" 255;
  match normalizeDockerRegistryServerAddress url_hostname (toLowerCase candidate) with
  | Some normalized =>
      if bool_decide (normalized = "") then refuse_registry "Registry server address must be a hostname or IP with an optional port"
      else inr normalized
  | None => refuse_registry "Registry server address must be a hostname or IP with an optional port"
  end.
Definition normalizeDockerImageReference (value : option json) : exn + string :=
  reference ← requiredText value "Docker image reference" 512;
  if isSome (parseDockerImageReference url_hostname reference) then inr reference else refuse_registry "Docker image reference is invalid".
(** The second parse answers as the first. *)
Definition dockerRegistryForImage (referenceValue : option json) : exn + string :=
  reference ← normalizeDockerImageReference referenceValue;
  inr (from_option im_serverAddress "" (parseDockerImageReference url_hostname reference)).
Definition findDockerRegistryCredential (records : list DockerRegistryCredentialRecord) (imageReference : option json) :
    exn + option DockerRegistryCredentialRecord :=
  serverAddress ← dockerRegistryForImage imageReference;
  inr (List.find (λ r, bool_decide (rg_serverAddress r = serverAddress)) records).
End Registries.

Definition replace_char (c d : ascii) : string → string := map_chars (λ x, if Ascii.eqb x c then d else x).
Definition dockerRegistryAuthHeader (r : DockerRegistryCredentialRecord) : string :=
  replace_char "/" "_" (replace_char "+" "-" (to_base64 (utf8_bytes (JSON_stringify
    (JObj [("username", JStr (rg_username r)); ("password", JStr (rg_password r)); ("serveraddress", JStr (rg_serverAddress r))]))))).
Definition dockerConfigServerAddress (serverAddress : string) : string :=
  if bool_decide (serverAddress = "docker.io") then "https://index.docker.io/v1/" else serverAddress.
(** The entries, in order; of equal keys the last counts. *)
Definition dockerConfigAuths (records : list DockerRegistryCredentialRecord) : list (string * string) :=
  (λ r, (dockerConfigServerAddress (rg_serverAddress r), to_base64 (utf8_bytes (rg_username r +:+ ":" +:+ rg_password r)))) <$> records.
Record DockerRegistryCredentialSummary := CredentialSummary {
  rs_id : string; rs_name : string; rs_serverAddress : string; rs_username : string; rs_credentialConfigured : bool; rs_updatedAt : string
}.
Definition toPublicDockerRegistryCredential (r : DockerRegistryCredentialRecord) : DockerRegistryCredentialSummary :=
  CredentialSummary (rg_id r) (rg_name r) (rg_serverAddress r) (rg_username r) (negb (bool_decide (rg_password r = ""))) (rg_updatedAt r).

(** *** Hiding secrets *)
(** [message.split(p).join(mark)], for a [p] that is not empty: [skip]
    characters belong to an occurrence found before. *)
Fixpoint replace_from (p mark : string) (skip : nat) (s : string) : string :=
  match s with
  | "" => ""
  | String c s' =>
      match skip with
      | S skip => replace_from p mark skip s'
      | O => if startsWith p s then mark +:+ replace_from p mark (String.length p - 1) s' else String c (replace_from p mark 0 s')
      end
  end.
Definition replace_all (p mark : string) (s : string) : string := replace_from p mark 0 s.

(** [message.replace(pattern, ...)] with a global pattern; [m s] is what a match
    at the front of [s] becomes, and what is behind it. *)
Fixpoint replace_matches (m : string → option (string * string)) (fuel : nat) (s : string) : string :=
  match fuel, s with
  | S fuel, String c s' =>
      match m s with
      | Some (out, rest) => out +:+ replace_matches m fuel rest
      | None => String c (replace_matches m fuel s')
      end
  | _, _ => s
  end.
Definition replace_pattern (m : string → option (string * string)) (s : string) : string := replace_matches m (String.length s) s.
Fixpoint span_str (p : ascii → bool) (s : string) : string * string :=
  match s with
  | String c s' => if p c then let '(a, b) := span_str p s' in (String c a, b) else ("", s)
  | "" => ("", "")
  end.
Definition front_is (lower s : string) : bool := bool_decide (toLowerCase (take_str (String.length lower) s) = lower).
(** A run of characters that are no white space, and what is behind it. *)
Definition token (s : string) : option string :=
  let '(a, b) := span_str (λ c, negb (is_white c)) s in if bool_decide (a = "") then None else Some b.
(** [(X-Registry-Auth\s*[:=]\s* )\S+] *)
Definition auth_header_match (s : string) : option (string * string) :=
  if negb (front_is "x-registry-auth" s) then None else
  let '(w, r) := span_str is_white (drop_str 15 s) in
  match r with
  | String c r =>
      if Ascii.eqb c ":" || Ascii.eqb c "=" then
        let '(w', r) := span_str is_white r in
        rest ← token r;
        Some (take_str 15 s +:+ w +:+ String c w' +:+ "[redacted]", rest)
      else None
  | "" => None
  end.
(** [(name)\s+\S+] *)
Definition scheme_match (lower s : string) : option (string * string) :=
  if negb (front_is lower s) then None else
  let '(w, r) := span_str is_white (drop_str (String.length lower) s) in
  if bool_decide (w = "") then None else
  rest ← token r;
  Some (take_str (String.length lower) s +:+ " [redacted]", rest).
Definition basic_or_bearer (s : string) : option (string * string) :=
  match scheme_match "basic" s with Some r => Some r | None => scheme_match "bearer" s end.

(** [encodeURIComponent]. *)
Definition unreserved (c : ascii) : bool :=
  is_alnum c || bool_decide (c ∈ ["-"; "_"; "."; "!"; "~"; "*"; "'"; "("; ")"]%char).
Definition hex_upper (n : Z) : ascii := if bool_decide (n < 10) then byte (48 + n) else byte (55 + n).
Definition percent (n : Z) : string :=
  let c := byte n in if unreserved c then String c "" else String "%" (String (hex_upper (n / 16)) (String (hex_upper (n mod 16)) "")).
Definition concat_str (l : list string) : string := join "" l.
Definition encodeURIComponent (s : string) : string := concat_str ((λ c, percent (unit_of c)) <$> utf8_bytes s).

Definition representations (r : DockerRegistryCredentialRecord) : list string :=
  [rg_password r; escape (rg_password r); encodeURIComponent (rg_password r);
   to_base64 (utf8_bytes (rg_username r +:+ ":" +:+ rg_password r)); dockerRegistryAuthHeader r].
Definition hide_record (message : string) (r : DockerRegistryCredentialRecord) : string :=
  if bool_decide (rg_password r = "") then message
  else foldl (λ m secret, replace_all secret "[redacted]" m) message (distinct (representations r)).
Definition redactDockerRegistrySecrets (message : string) (records : list DockerRegistryCredentialRecord) (maxLength : nat) : string :=
  take_str maxLength (replace_pattern basic_or_bearer (replace_pattern auth_header_match (foldl hide_record message records))).

Example redacted_messages :
  let r := Credential "1" "hub" "docker.io" "ann" "p/ss+1" "" "" in
  dockerRegistryAuthHeader (Credential "1" "hub" "a.io" "ann" "??>>" "" "") =
    "eyJ1c2VybmFtZSI6ImFubiIsInBhc3N3b3JkIjoiPz8-PiIsInNlcnZlcmFkZHJlc3MiOiJhLmlvIn0=" ∧
  redactDockerRegistrySecrets "pull p/ss+1 failed: p%2Fss%2B1 (basic   abc, x-registry-auth =  tok)" [r] 500 =
    "pull [redacted] failed: [redacted] (basic [redacted] x-registry-auth =  [redacted]" ∧
  redactDockerRegistrySecrets "Bearer" [r] 500 = "Bearer" ∧ redactDockerRegistrySecrets "abcdef" [] 3 = "abc".
Proof. by vm_compute. Qed.

(** ** No password is left *)
Definition occurs (p s : string) : Prop := ∃ a b, s = a +:+ p +:+ b.
(** White space and brackets: the marks begin and end with them. *)
Definition barrier (c : ascii) : bool := is_white c || bool_decide (c ∈ ["["; "]"]%char).
Definition barrier_free (p : string) : Prop := all_chars (λ c, negb (barrier c)) p = true.
Record hidable (p : string) : Prop := Hidable {
  hi_nonempty : p ≠ "";
  hi_free : barrier_free p;
  hi_unlike : ¬ occurs p "redacted"
}.

Lemma occurs_cons p c s : occurs p (String c s) ↔ startsWith p (String c s) = true ∨ occurs p s.
Proof.
  split.
  - intros ([|d a] & b & E); [left; apply startsWith_app; by exists b|]. right. injection E as -> ->. by exists a, b.
  - intros [H|(a & b & ->)]; [apply startsWith_app in H as [b ->]; by exists "", b|]. by exists (String c a), b.
Qed.
Lemma occurs_nil p : occurs p "" → p = "".
Proof. intros ([|? ?] & b & E); [|done]. by destruct p. Qed.
Lemma occurs_app_l p a s : occurs p s → occurs p (a +:+ s).
Proof. intros (x & y & ->). exists (a +:+ x), y. by rewrite string_app_assoc. Qed.
Lemma occurs_includes p s : occurs p s → includes p s = true.
Proof.
  induction s as [|c s IH]; [by intros ->%occurs_nil|]. intros [H|H]%occurs_cons; cbn [includes]; [by rewrite H|].
  rewrite IH by done. apply orb_true_r.
Qed.
Lemma take_drop_str n s : take_str n s +:+ drop_str n s = s.
Proof. revert n. induction s as [|c s IH]; intros [|n]; [done..|]. cbn [take_str drop_str].
  change (String c (take_str n s +:+ drop_str n s) = String c s). by rewrite IH.
Qed.
Lemma occurs_take p n s : occurs p (take_str n s) → occurs p s.
Proof.
  intros (a & b & E). exists a, (b +:+ drop_str n s). rewrite <-(take_drop_str n s) at 1. rewrite E. by rewrite !string_app_assoc.
Qed.
Lemma startsWith_nil s : startsWith "" s = true.
Proof. by destruct s. Qed.
(** A character that [p] has not splits its occurrences. *)
Lemma startsWith_split p c a b : no_char c p → startsWith p (a +:+ String c b) = true → startsWith p a = true.
Proof.
  revert a. induction p as [|x p IH]; intros a Hc H; [by destruct a|]. apply no_char_String in Hc as [Hx Hc].
  apply startsWith_app in H as [r E]. destruct a as [|y a]; injection E as E1 E; [done|]. subst y.
  assert (startsWith p a = true) as [r' ->]%startsWith_app by (apply IH; [done|]; apply startsWith_app; by exists r).
  apply startsWith_app. by exists r'.
Qed.
Lemma occurs_split p c a b : p ≠ "" → no_char c p → occurs p (a +:+ String c b) → occurs p a ∨ occurs p b.
Proof.
  intros Hne Hc. induction a as [|x a IH].
  - change ("" +:+ String c b) with (String c b). rewrite occurs_cons. intros [H|H]; [left|by right].
    apply (startsWith_split p c "" b Hc) in H. apply startsWith_app in H as [r E]. by exists "", r.
  - change (String x a +:+ String c b) with (String x (a +:+ String c b)). rewrite !occurs_cons. intros [H|H].
    + left. left. by apply (startsWith_split p c (String x a) b).
    + destruct (IH H) as [Ha|Hb]; [left; by right|by right].
Qed.

(** [t] is [s] with pieces of it replaced by marks. *)
Definition mark (m : string) : Prop := m = "[redacted]" ∨ m = " [redacted]".
Inductive woven : string → string → Prop :=
  | woven_nil : woven "" ""
  | woven_copy c s t : woven s t → woven (String c s) (String c t)
  | woven_mark m x s t : mark m → woven s t → woven (x +:+ s) (m +:+ t).
Lemma woven_refl s : woven s s.
Proof. induction s; by constructor. Qed.
Lemma woven_app x s t : woven s t → woven (x +:+ s) (x +:+ t).
Proof. intros H. induction x as [|c x IH]; [done|]. by apply woven_copy. Qed.

Lemma barrier_no_char p c : barrier_free p → barrier c = true → no_char c p.
Proof.
  unfold barrier_free. intros Hp Hc. apply no_char_all. revert Hp. apply all_chars_impl. intros x Hx.
  apply negb_true_iff. apply Ascii.eqb_neq. intros ->. by rewrite Hc in Hx.
Qed.
Lemma occurs_mark p m t : hidable p → mark m → occurs p (m +:+ t) → occurs p t.
Proof.
  intros [Hne Hf Hu] Hm H. assert (∀ c, barrier c = true → no_char c p) as Hb by (intros; by apply barrier_no_char).
  assert (∀ u, occurs p ("[redacted]" +:+ u) → occurs p u) as Hr.
  { intros u Hu'. change ("[redacted]" +:+ u) with ("" +:+ String "[" ("redacted" +:+ String "]" u)) in Hu'.
    apply occurs_split in Hu' as [H0|Hu']; [by apply occurs_nil in H0|  |done|by apply Hb].
    apply occurs_split in Hu' as [H0|Hu']; [done|done|done|by apply Hb]. }
  destruct Hm as [->| ->]; [by apply Hr|]. change (" [redacted]" +:+ t) with ("" +:+ String " " ("[redacted]" +:+ t)) in H.
  apply occurs_split in H as [H0|H]; [by apply occurs_nil in H0|by apply Hr|done|by apply Hb].
Qed.
Lemma woven_prefix p s t : barrier_free p → woven s t → startsWith p t = true → startsWith p s = true.
Proof.
  intros Hp Hw. revert p Hp. induction Hw as [|c s t Hw IH|m x s t Hm Hw IH]; intros [|d p] Hp H; try apply startsWith_nil; try done.
  - apply startsWith_app in H as [r E]. injection E as -> E. apply andb_prop in Hp as [_ Hp].
    assert (startsWith p s = true) as [r' ->]%startsWith_app by (apply IH; [done|]; apply startsWith_app; by exists r).
    apply startsWith_app. by exists r'.
  - apply startsWith_app in H as [r E]. apply andb_prop in Hp as [Hd _].
    destruct Hm as [-> | ->]; injection E as <- _; done.
Qed.
Lemma woven_clean p s t : hidable p → woven s t → occurs p t → occurs p s.
Proof.
  intros Hh Hw. induction Hw as [|c s t Hw IH|m x s t Hm Hw IH]; [done| |].
  - rewrite !occurs_cons. intros [H|H]; [left|right; by apply IH].
    by apply (woven_prefix p _ (String c t)); [apply hi_free| apply woven_copy|].
  - intros H. apply occurs_app_l, IH. by apply (occurs_mark p m).
Qed.

(** What the passes do. *)
Lemma replace_skip p m k s : replace_from p m k s = replace_from p m 0 (drop_str k s).
Proof. revert k. induction s as [|c s IH]; intros [|k]; [done..|]. cbn [replace_from drop_str]. apply IH. Qed.
Lemma replace_step p m c s : p ≠ "" → replace_all p m (String c s) =
  if startsWith p (String c s) then m +:+ replace_all p m (drop_str (String.length p) (String c s)) else String c (replace_all p m s).
Proof.
  intros Hp. unfold replace_all. cbn [replace_from]. destruct (startsWith p (String c s)); [|done]. f_equal.
  rewrite replace_skip. f_equal. destruct p as [|x p]; [done|]. cbn [String.length drop_str]. f_equal. lia.
Qed.
Lemma drop_length n s : (String.length (drop_str n s) ≤ String.length s)%nat.
Proof. revert n. induction s as [|c s IH]; intros [|n]; try done. cbn [drop_str String.length]. specialize (IH n). lia. Qed.
Lemma replace_all_spec p s : p ≠ "" →
  woven s (replace_all p "[redacted]" s) ∧ (hidable p → ¬ occurs p (replace_all p "[redacted]" s)).
Proof.
  intros Hp. remember (String.length s) as n eqn:Hn. assert (String.length s ≤ n)%nat as Hle by lia. clear Hn.
  revert s Hle. induction n as [|n IH]; intros s Hle; (destruct s as [|c s]; [split; [constructor|by intros _ H%occurs_nil]|]).
  { simpl in Hle. lia. }
  rewrite replace_step by done. cbn [String.length] in Hle. destruct (startsWith p (String c s)) eqn:E.
  - set (rest := drop_str (String.length p) (String c s)). destruct (IH rest) as [Hw Hc].
    { unfold rest. destruct p as [|x p]; [done|]. cbn [String.length drop_str]. pose proof (drop_length (String.length p) s). lia. }
    split.
    + rewrite <-(take_drop_str (String.length p) (String c s)). apply woven_mark; [by left|done].
    + intros Hh H. apply (Hc Hh). by apply (occurs_mark p "[redacted]"); [|left|].
  - destruct (IH s ltac:(lia)) as [Hw Hc]. split; [by apply woven_copy|]. intros Hh. rewrite occurs_cons. intros [H|H]; [|by apply (Hc Hh)].
    apply not_true_iff_false in E. apply E. apply (woven_prefix p _ (String c (replace_all p "[redacted]" s))); [apply Hh| |done].
    by apply woven_copy.
Qed.

Definition weaves (m : string → option (string * string)) : Prop := ∀ s out rest, m s = Some (out, rest) →
  ∃ kept x mk, out = kept +:+ mk ∧ mark mk ∧ s = kept +:+ x +:+ rest.
Lemma replace_pattern_woven m s : weaves m → woven s (replace_pattern m s).
Proof.
  intros Hm. unfold replace_pattern. generalize (String.length s) as fuel. intros fuel. revert s.
  induction fuel as [|fuel IH]; intros s; [apply woven_refl|]. destruct s as [|c s]; [constructor|]. cbn [replace_matches].
  destruct (m (String c s)) as [[out rest]|] eqn:E; [|by apply woven_copy]. destruct (Hm _ _ _ E) as (kept & x & mk & -> & Hmk & ->).
  rewrite string_app_assoc. by apply woven_app, woven_mark.
Qed.
Lemma span_app p s a b : span_str p s = (a, b) → s = a +:+ b.
Proof.
  revert a b. induction s as [|c s IH]; intros a b; cbn [span_str]; [by intros [= <- <-]|]. destruct (p c); [|by intros [= <- <-]].
  destruct (span_str p s) as [a' b'] eqn:E. intros [= <- <-]. by rewrite (IH a' b' eq_refl).
Qed.
Lemma token_app s rest : token s = Some rest → ∃ x, s = x +:+ rest.
Proof.
  unfold token. destruct (span_str _ s) as [a b] eqn:E. case_bool_decide; [done|]. intros [= <-]. exists a. by apply span_app in E.
Qed.
Lemma auth_header_weaves : weaves auth_header_match.
Proof.
  intros s out rest. unfold auth_header_match. destruct (front_is _ s); [|done]. cbn [negb].
  destruct (span_str is_white (drop_str 15 s)) as [w [|c r]] eqn:E1; [done|]. destruct (_ || _); [|done].
  destruct (span_str is_white r) as [w' r'] eqn:E2. intros H. apply bind_Some in H as (rest' & [x ->]%token_app & [= <- <-]).
  exists (take_str 15 s +:+ w +:+ String c w'), x, "[redacted]". apply span_app in E1, E2.
  split; [by rewrite !string_app_assoc|]. split; [by left|]. rewrite <-(take_drop_str 15 s) at 1. rewrite E1, E2. by rewrite !string_app_assoc.
Qed.
Lemma scheme_weaves lower : weaves (scheme_match lower).
Proof.
  intros s out rest. unfold scheme_match. destruct (front_is _ s); [|done]. cbn [negb].
  destruct (span_str is_white (drop_str _ s)) as [w r] eqn:E. case_bool_decide; [done|].
  intros Hm. apply bind_Some in Hm as (rest' & [x ->]%token_app & [= <- <-]).
  exists (take_str (String.length lower) s), (w +:+ x), " [redacted]". apply span_app in E. split; [done|]. split; [by right|].
  rewrite <-(take_drop_str (String.length lower) s) at 1. rewrite E. by rewrite !string_app_assoc.
Qed.
Lemma schemes_weave : weaves basic_or_bearer.
Proof.
  intros s out rest. unfold basic_or_bearer. destruct (scheme_match "basic" s) as [[o r]|] eqn:E; [intros [= <- <-]|intros H]; by eapply scheme_weaves.
Qed.

(** The secrets of a record are not empty, so each pass weaves. *)
Lemma to_base64_nonempty b : b ≠ [] → to_base64 b ≠ "".
Proof. destruct b as [|x [|y [|z b]]]; done. Qed.
Lemma map_chars_nonempty f s : s ≠ "" → map_chars f s ≠ "".
Proof. by destruct s. Qed.
Lemma utf8_nonempty s : s ≠ "" → utf8_bytes s ≠ [].
Proof. destruct s as [|c s]; [done|]. intros _. cbn [utf8_bytes]. by case_bool_decide. Qed.
Lemma representations_nonempty r : rg_password r ≠ "" → Forall (λ s, s ≠ "") (representations r).
Proof.
  intros Hp. unfold representations. repeat constructor.
  - done.
  - destruct (rg_password r) as [|c s]; [done|]. cbn [escape]. unfold escape_char.
    repeat match goal with |- context [if ?b then _ else _] => destruct b end; done.
  - unfold encodeURIComponent. pose proof (utf8_nonempty _ Hp) as Hu. destruct (utf8_bytes (rg_password r)) as [|c l]; [done|].
    cbn [fmap list_fmap]. unfold concat_str, percent. destruct (unreserved _); destruct (_ <$> l); done.
  - apply to_base64_nonempty, utf8_nonempty. by destruct (rg_username r).
  - unfold dockerRegistryAuthHeader, replace_char. by apply map_chars_nonempty, map_chars_nonempty, to_base64_nonempty, utf8_nonempty.
Qed.

Lemma hide_all_clean p l m : hidable p → Forall (λ s, s ≠ "") l →
  let m' := foldl (λ m secret, replace_all secret "[redacted]" m) m l in
  (occurs p m' → occurs p m) ∧ (p ∈ l → ¬ occurs p m').
Proof.
  intros Hp. revert m. induction l as [|x l IH]; intros m Hl; cbn [foldl]; [split; [done|by intros H%elem_of_nil]|].
  apply Forall_cons in Hl as [Hx Hl]. destruct (IH (replace_all x "[redacted]" m) Hl) as [H1 H2].
  destruct (replace_all_spec x m Hx) as [Hw Hc]. split.
  - intros H. by apply (woven_clean p m (replace_all x "[redacted]" m)), H1.
  - intros [->|Hin]%elem_of_cons; [|by apply H2]. intros H. by apply (Hc Hp), H1.
Qed.
Lemma hide_record_clean p m r : hidable p → (occurs p (hide_record m r) → occurs p m) ∧ (rg_password r = p → ¬ occurs p (hide_record m r)).
Proof.
  intros Hp. unfold hide_record. case_bool_decide as E.
  - split; [done|]. intros <-. by destruct (hi_nonempty _ Hp).
  - assert (Forall (λ s, s ≠ "") (distinct (representations r))) as Hne.
    { pose proof (representations_nonempty r E) as H. rewrite Forall_forall in H |- *. intros s Hs. by apply H, distinct_elem_of. }
    destruct (hide_all_clean p _ m Hp Hne) as [H1 H2]. split; [done|]. intros <-. apply H2, distinct_elem_of. apply list_elem_of_here.
Qed.
Lemma hide_records_clean p records m : hidable p → let m' := foldl hide_record m records in
  (occurs p m' → occurs p m) ∧ (p ∈ rg_password <$> records → ¬ occurs p m').
Proof.
  intros Hp. revert m. induction records as [|r l IH]; intros m; cbn [foldl]; [split; [done|by intros H%elem_of_nil]|].
  destruct (IH (hide_record m r)) as [H1 H2], (hide_record_clean p m r Hp) as [H3 H4]. split; [by intros H; apply H3, H1|].
  cbn [fmap list_fmap]. intros [->|Hin]%elem_of_cons; [|by apply H2]. intros H. by apply (H4 eq_refl), H1.
Qed.

(** C27: No password of a stored credential is left in a message that
    [redactDockerRegistrySecrets] returns, wherever it was and whatever the
    other credentials are; if the password has no white space and no bracket
    and is no piece of the word that replaces it. *)
Theorem redact_hides_passwords message records maxLength p (Hp : hidable p) (Hin : p ∈ rg_password <$> records) :
  ¬ occurs p (redactDockerRegistrySecrets message records maxLength).
Proof.
  unfold redactDockerRegistrySecrets. intros H%occurs_take.
  apply (woven_clean p _ _ Hp (replace_pattern_woven _ _ schemes_weave)) in H.
  apply (woven_clean p _ _ Hp (replace_pattern_woven _ _ auth_header_weaves)) in H.
  by apply (proj2 (hide_records_clean p records message Hp) Hin).
Qed.

(** ** The stored credentials *)
Lemma list_saved l t : listDockerRegistryCredentials (Some (SettingRow (JArr (credential_json <$> l)) t)) = l.
Proof. cbn [listDockerRegistryCredentials]. induction l as [|r l IH]; [done|]. cbn. by destruct r; rewrite IH. Qed.
Lemma save_list l t d : listDockerRegistryCredentials (saveRecords l t d).2 = l.
Proof. apply list_saved. Qed.

Inductive registry_step : registry_db → registry_db → Prop :=
  | step_create id input now d : id ∉ rg_id <$> listDockerRegistryCredentials d →
      registry_step d (createDockerRegistryCredential id input now d).2
  | step_update id input now d : registry_step d (updateDockerRegistryCredential id input now d).2
  | step_delete id now d : registry_step d (deleteDockerRegistryCredential id now d).2.
(** Distinct identifiers and distinct servers. *)
Definition registry_ok (d : registry_db) : Prop :=
  NoDup (rg_id <$> listDockerRegistryCredentials d) ∧ NoDup (rg_serverAddress <$> listDockerRegistryCredentials d).

Lemma createDockerRegistryCredential_spec id input now d :
  let l := listDockerRegistryCredentials d in
  let record := Credential id (ri_name input) (ri_serverAddress input) (ri_username input) (ri_password input) now now in
  if bool_decide (ri_serverAddress input ∈ rg_serverAddress <$> l)
  then createDockerRegistryCredential id input now d = (inl DockerRegistryCredentialConflictError, d)
  else ∃ d', createDockerRegistryCredential id input now d = (inr record, d') ∧ listDockerRegistryCredentials d' = l ++ [record].
Proof.
  cbv zeta. unfold createDockerRegistryCredential, transaction. rewrite bind_gets. unfold assertUniqueServer.
  set (l := listDockerRegistryCredentials d). set (q := existsb _ l).
  assert (q = bool_decide (ri_serverAddress input ∈ rg_serverAddress <$> l)) as Hq.
  { apply eq_bool_prop_intro. unfold q. rewrite !Is_true_true, existsb_exists, bool_decide_eq_true, list_elem_of_fmap. split.
    - intros (r & Hr & [_ E%bool_decide_eq_true]%andb_prop). exists r. split; [done|]. by apply list_elem_of_In.
    - intros (r & -> & Hr). exists r. split; [by apply list_elem_of_In|]. by rewrite (bool_decide_true (rg_serverAddress r = _)) by done. }
  rewrite <-Hq. destruct q; [done|]. eexists. split; [done|]. apply (save_list _ _ d).
Qed.
Lemma existsb_same {A} (p q : A → bool) l : (∀ x, p x = q x) → existsb p l = existsb q l.
Proof. intros H. induction l as [|x l IH]; [done|]. cbn [existsb]. by rewrite H, IH. Qed.
Lemma updateDockerRegistryCredential_spec id input now d :
  let l := listDockerRegistryCredentials d in
  match list_find (λ r, rg_id r = id) l with
  | None => updateDockerRegistryCredential id input now d = (inr None, d)
  | Some (i, current) =>
      let updated := credential_updated current input now in
      if existsb (λ r, negb (bool_decide (rg_id r = id)) && bool_decide (rg_serverAddress r = rg_serverAddress updated)) l
      then updateDockerRegistryCredential id input now d = (inl DockerRegistryCredentialConflictError, d)
      else ∃ d', updateDockerRegistryCredential id input now d = (inr (Some updated), d') ∧
                 listDockerRegistryCredentials d' = <[i := updated]> l
  end.
Proof.
  cbv zeta. unfold updateDockerRegistryCredential, transaction. rewrite bind_gets.
  destruct (list_find _ _) as [[i current]|] eqn:E; [|done]. unfold assertUniqueServer.
  cbv zeta. rewrite (existsb_same _ (λ r, negb (bool_decide (Some (rg_id r) = Some id)) &&
    bool_decide (rg_serverAddress r = rg_serverAddress (credential_updated current input now)))).
  - destruct (existsb _ _); [done|]. eexists. split; [done|]. apply (save_list _ _ d).
  - intros r. do 2 f_equal. apply bool_decide_ext. naive_solver.
Qed.
Lemma deleteDockerRegistryCredential_spec id now d :
  listDockerRegistryCredentials (deleteDockerRegistryCredential id now d).2 =
    List.filter (λ r, negb (bool_decide (rg_id r = id))) (listDockerRegistryCredentials d).
Proof.
  unfold deleteDockerRegistryCredential, transaction. rewrite bind_gets. cbv zeta. case_bool_decide as E; cbn [snd mret].
  - cbn. symmetry. revert E. generalize (listDockerRegistryCredentials d) as l. induction l as [|r l IH]; intros E; [done|].
    cbn [List.filter] in *. destruct (negb _) eqn:En; cbn [length] in E; [by rewrite IH by lia|].
    pose proof (filter_length_le (λ r, negb (bool_decide (rg_id r = id))) l). lia.
  - apply (save_list _ _ d).
Qed.

Lemma update_NoDup {A} (f : DockerRegistryCredentialRecord → A) l i (r : DockerRegistryCredentialRecord) :
  NoDup (f <$> l) → (∀ j x, l !! j = Some x → j ≠ i → f x ≠ f r) → NoDup (f <$> <[i := r]> l).
Proof.
  intros Hl Hf. apply NoDup_alt. intros a b y. rewrite !list_lookup_fmap.
  assert (∀ a b x, a ≠ b → <[i:=r]> l !! a = Some x → ∀ z, <[i:=r]> l !! b = Some z → f x ≠ f z) as H; [|].
  { intros a' b' x Hne Hx z Hz. destruct (decide (a' = i)) as [->|Ha].
    - rewrite (list_lookup_insert_ne l i b' r) in Hz by done. apply list_lookup_insert_Some in Hx as [(_ & <- & _)|[? _]]; [|done].
      intros E. by apply (Hf b' z Hz); [congruence|].
    - rewrite (list_lookup_insert_ne l i a' r) in Hx by done. destruct (decide (b' = i)) as [->|Hb].
      + apply list_lookup_insert_Some in Hz as [(_ & <- & _)|[? _]]; [|done]. by apply (Hf a' x Hx).
      + rewrite (list_lookup_insert_ne l i b' r) in Hz by done. intros E. apply Hne. rewrite NoDup_alt in Hl.
        apply (Hl a' b' (f x)); rewrite list_lookup_fmap; [by rewrite Hx|]. by rewrite Hz, E. }
  intros Ha Hb. destruct (decide (a = b)) as [|Hne]; [done|]. destruct (<[i:=r]> l !! a) as [x|] eqn:Ex; [|done].
  destruct (<[i:=r]> l !! b) as [z|] eqn:Ez; [|done]. exfalso. apply (H a b x Hne Ex z Ez). cbn in *. congruence.
Qed.
Lemma registry_step_ok d d' : registry_step d d' → registry_ok d → registry_ok d'.
Proof.
  unfold registry_ok. intros Hs [Hi Hu]. destruct Hs as [id input now d Hid|id input now d|id now d].
  - pose proof (createDockerRegistryCredential_spec id input now d) as H. cbv zeta in H. case_bool_decide as E; [by rewrite H|].
    destruct H as (d' & -> & Hl). cbn [snd]. rewrite Hl, !fmap_app. cbn.
    split; apply NoDup_app; (split; [done|split; [|apply NoDup_singleton]]); by intros x Hx ->%list_elem_of_singleton.
  - pose proof (updateDockerRegistryCredential_spec id input now d) as H. cbv zeta in H.
    destruct (list_find _ _) as [[i current]|] eqn:Ef; [|by rewrite H]. destruct (existsb _ _) eqn:Ee; [by rewrite H|].
    destruct H as (d' & -> & Hl). cbn [snd]. rewrite Hl. apply list_find_Some in Ef as (Hc & Hcid & _).
    assert (∀ j x, listDockerRegistryCredentials d !! j = Some x → j ≠ i → rg_id x ≠ id) as Hother.
    { intros j x Hx Hj E. apply Hj. rewrite NoDup_alt in Hi. apply (Hi j i id); rewrite list_lookup_fmap; [by rewrite Hx, <-E|by rewrite Hc, <-Hcid]. }
    split; apply update_NoDup; try done.
    + intros j x Hx Hj. cbn [credential_updated rg_id]. rewrite Hcid. by eapply Hother.
    + intros j x Hx Hj E. apply not_true_iff_false in Ee. apply Ee, existsb_exists. exists x.
      split; [by apply list_elem_of_In, (list_elem_of_lookup_2 _ j)|]. rewrite E. rewrite (bool_decide_false (rg_id x = id)) by (by eapply Hother). by rewrite bool_decide_true.
  - rewrite deleteDockerRegistryCredential_spec. generalize dependent (listDockerRegistryCredentials d). intros l Hi Hu.
    assert (∀ {A} (f : DockerRegistryCredentialRecord → A), NoDup (f <$> l) → NoDup (f <$> List.filter (λ r, negb (bool_decide (rg_id r = id))) l)) as H; [|by split; apply H].
    intros A f. induction l as [|r l IH]; [done|]. cbn [fmap list_fmap List.filter].
    intros [Hr Hl]%NoDup_cons. apply NoDup_cons in Hi as [_ Hi], Hu as [_ Hu]. destruct (negb _); [|by apply IH]. apply NoDup_cons.
    split; [|by apply IH]. intros (x & E & Hx)%list_elem_of_fmap. apply Hr, list_elem_of_fmap. exists x. split; [done|].
    apply list_elem_of_In, filter_In in Hx as [Hx _]. by apply list_elem_of_In.
Qed.

Theorem registry_reachable_ok d : rtc registry_step None d → registry_ok d.
Proof.
  intros H. assert (registry_ok None) as H0 by (split; constructor). revert H0. induction H as [|d d' d'' Hs _ IH]; [done|].
  intros Hd. by apply IH, (registry_step_ok d).
Qed.

Module RegistryDemo.
Definition hub : DockerRegistryCredentialRecord := Credential "1" "Hub" "docker.io" "ann" "s3cret/pw" "t0" "t0".
Definition own : DockerRegistryCredentialRecord := Credential "2" "Own" "ghcr.io" "ann" "tok-42" "t0" "t0".

Lemma redact_hides_passwords_witness : ¬ occurs "tok-42" "login failed for [redacted], Bearer [redacted]".
Proof.
  pose proof (redact_hides_passwords "login failed for tok-42, Bearer tok-42" [hub; own] 500 "tok-42") as H.
  assert (redactDockerRegistrySecrets "login failed for tok-42, Bearer tok-42" [hub; own] 500 =
    "login failed for [redacted], Bearer [redacted]") as E by (by vm_compute). rewrite E in H. apply H.
  - split; [done|by vm_compute|]. intros H'%occurs_includes. by vm_compute in H'.
  - apply list_elem_of_further, list_elem_of_here.
Defined.
(** A password that is a piece of [redacted] cannot be hidden. *)
Example like_the_mark : redactDockerRegistrySecrets "bad password: red" [Credential "1" "" "" "" "red" "" ""] 500 = "bad password: [redacted]".
Proof. by vm_compute. Qed.
End RegistryDemo.

(** ** Validation, routes/docker.ts *)
Definition registryRequestRecord (body : option json) : exn + list (string * json) :=
  match body with Some (JObj ps) => inr ps | _ => refuse_registry "Docker registry request must be an object" end.
Definition assertRegistryKeys (source : list (string * json)) (allowed : list string) : exn + unit :=
  match List.find (λ k, negb (bool_decide (k ∈ allowed))) (keys source) with
  | Some unknownKey => if bool_decide (unknownKey = "") then inr tt else refuse_registry ("Unknown Docker registry field: " +:+ unknownKey)
  | None => inr tt
  end.
Definition requiredRegistryPassword (value : option json) : exn + string :=
  match value with
  | Some (JStr s) =>
      if bool_decide (trim s = "") then refuse_registry "Registry password is required"
      else if bool_decide (4096 < len s) then refuse_registry "Registry password is too long" else inr s
  | _ => refuse_registry "Registry password is required"
  end.
Definition control_char (c : ascii) : bool := bool_decide (code c < 32)%nat || bool_decide (code c = 127%nat).
Definition requiredRegistryUsername (value : option json) : exn + string :=
  username ← requiredText value "Registry username" 255;
  if has_char ":" username || negb (all_chars (λ c, negb (control_char c)) username)
  then refuse_registry "Registry username contains an invalid character" else inr username.
Definition registry_keys : list string := ["name"; "serverAddress"; "username"; "password"].
Definition validateRegistryCreateInput url_hostname (body : option json) : exn + credential_input :=
  source ← registryRequestRecord body;
  _ ← assertRegistryKeys source registry_keys;
  name ← requiredText (prop source "name") "Registry name" 128;
  serverAddress ← normalizeDockerRegistryAddress url_hostname (prop source "serverAddress");
  username ← requiredRegistryUsername (prop source "username");
  password ← requiredRegistryPassword (prop source "password");
  inr (CredentialInput name serverAddress username password).
(** [if (source.k !== undefined) update.k = ...] *)
Definition when_given {A} (value : option json) (f : option json → exn + A) : exn + option A :=
  match value with Some _ => Some <$> f value | None => inr None end.
Definition validateRegistryUpdateInput url_hostname (body : option json) : exn + credential_update :=
  source ← registryRequestRecord body;
  _ ← assertRegistryKeys source registry_keys;
  name ← when_given (prop source "name") (λ v, requiredText v "Registry name" 128);
  serverAddress ← when_given (prop source "serverAddress") (normalizeDockerRegistryAddress url_hostname);
  username ← when_given (prop source "username") requiredRegistryUsername;
  password ← match prop source "password" with
             | None => inr None
             | Some (JStr s) => if bool_decide (trim s = "") then inr None else Some <$> requiredRegistryPassword (Some (JStr s))
             | Some _ => refuse_registry "Registry password must be a string"
             end;
  if negb (isSome name || isSome serverAddress || isSome username || isSome password) && negb (isSome (prop source "password"))
  then refuse_registry "At least one Registry field is required"
  else inr (CredentialUpdate name serverAddress username password).

(** *** Handlers *)
Definition registry_json (s : DockerRegistryCredentialSummary) : json :=
  JObj [("id", JStr (rs_id s)); ("name", JStr (rs_name s)); ("serverAddress", JStr (rs_serverAddress s)); ("username", JStr (rs_username s));
        ("credentialConfigured", JBool (rs_credentialConfigured s)); ("updatedAt", JStr (rs_updatedAt s))].
Definition sendDockerRegistryMutationError (e : exn) : reply json :=
  if instance_of "DockerRegistryValidationError" e then send_error 400 (exn_message e)
  else if instance_of "DockerRegistryCredentialConflictError" e then send_error 409 (exn_message e)
  else send_error 500 "Unable to update Docker registry credentials".
Section Handlers.
Context (url_hostname : string → option string).
Definition shown (r : DockerRegistryCredentialRecord) : json := JObj [("registry", registry_json (toPublicDockerRegistryCredential r))].
Definition get_registries (d : registry_db) : reply json :=
  send (JObj [("registries", JArr ((λ r, registry_json (toPublicDockerRegistryCredential r)) <$> listDockerRegistryCredentials d))]).
Definition post_registry (body : option json) (id now : string) : registry_prog (reply json) :=
  try_catch
    (input ← check (validateRegistryCreateInput url_hostname body);
     credential ← createDockerRegistryCredential id input now;
     mret (send_status 201 (shown credential)))
    (λ e, mret (sendDockerRegistryMutationError e)).
Definition patch_registry (id : string) (body : option json) (now : string) : registry_prog (reply json) :=
  try_catch
    (input ← check (validateRegistryUpdateInput url_hostname body);
     credential ← updateDockerRegistryCredential id input now;
     match credential with
     | None => mret (send_error 404 "Docker registry credential not found")
     | Some credential => mret (send (shown credential))
     end)
    (λ e, mret (sendDockerRegistryMutationError e)).
Definition delete_registry (id now : string) : registry_prog (reply json) :=
  deleted ← deleteDockerRegistryCredential id now;
  mret (if deleted : bool then send (JObj [("deleted", JBool true)]) else send_error 404 "Docker registry credential not found").
End Handlers.
