(* ===== verification/Archives.v ===== *)
(** * Archives

    packages/nas-tools/src/mutation-tools.ts: unpacking an archive of a NAS
    root next to it.  The programs that unpack are parameters - [spawn] runs
    one and says how it ended, [gunzip] is what [gzip -dc] writes -, with what
    the code relies on as [ArchiveTools]. *)
From Stdlib Require Import Ascii.
From stdpp Require Import pretty.
From S2P Require Import Prelude Json JsString CoreDb Jobs.
From S2P Require Import FileSystem PathSafety Confinement.

(** ** Names *)
Inductive ArchiveKind := zip | tar | gzip | rar.
Definition endsWith (suffix s : string) : bool :=
  bool_decide (String.length suffix ≤ String.length s)%nat &&
  bool_decide (drop_str (String.length s - String.length suffix) s = suffix).
Definition archiveKindForPath (filePath : string) : option ArchiveKind :=
  let fileName := toLowerCase (basename filePath) in
  if endsWith ".tar.gz" fileName || endsWith ".tgz" fileName then Some tar
  else if endsWith ".zip" fileName then Some zip
  else if endsWith ".tar" fileName then Some tar
  else if endsWith ".gz" fileName then Some gzip
  else if endsWith ".rar" fileName then Some rar
  else None.
Definition MAX_ARCHIVE_ENTRIES : nat := 10000.
Definition MAX_EXTRACTED_BYTES : Z := 2 * 1024 * 1024 * 1024.

(** [path.extname] of a name; [last_dot] is where its last dot is. *)
Fixpoint last_dot (s : string) : option nat :=
  match s with
  | "" => None
  | String c s => match last_dot s with
                  | Some i => Some (S i)
                  | None => if Ascii.eqb c "." then Some 0%nat else None
                  end
  end.
Definition extname (name : string) : string :=
  match last_dot name with
  | None | Some 0%nat => ""
  | Some i => if bool_decide (name = "..") then "" else drop_str i name
  end.
(** [s.slice(0, -n)]. *)
Definition slice_end (s : string) (n : nat) : string :=
  if bool_decide (n = 0%nat) then "" else take_str (String.length s - n) s.
Definition defaultExtractionTarget (filePath : string) : option string :=
  match archiveKindForPath filePath with
  | None => None
  | Some kind =>
      let fileName := basename filePath in
      let is_tar := match kind with tar => true | _ => false end in
      let stem := if is_tar && endsWith ".tar.gz" (toLowerCase fileName) then slice_end fileName 7
                  else if is_tar && endsWith ".tgz" (toLowerCase fileName) then slice_end fileName 4
                  else slice_end fileName (String.length (extname fileName)) in
      Some (path_join [dirname filePath; if bool_decide (stem = "") then "extracted" else stem])
  end.
Example extraction_target_examples :
  defaultExtractionTarget "nested/logs.tar.gz" = Some "nested/logs" ∧ defaultExtractionTarget "document.gz" = Some "document" ∧
  defaultExtractionTarget "a/.zip" = Some "a/extracted" ∧ defaultExtractionTarget "x.TGZ" = Some "x" ∧
  defaultExtractionTarget "x.txt" = None.
Proof. by vm_compute. Qed.

(** ** The entries an archive names *)
Fixpoint unsafe_entry (entries : list string) : option string :=
  match entries with
  | [] => None
  | entry :: entries =>
      let normalized := slashed entry in
      if bool_decide (normalized = "") || has_char "000" normalized || isAbsolute normalized || drive_prefix normalized
      then Some "Archive contains an unsafe absolute path"
      else if existsb (λ x, bool_decide (x = "..")) (List.filter (λ x, negb (bool_decide (x = ""))) (split_on sep normalized))
      then Some "Archive contains a path traversal entry"
      else unsafe_entry entries
  end.
Definition validateArchiveEntries (entries : list string) : exn + unit :=
  if bool_decide (MAX_ARCHIVE_ENTRIES < length entries)%nat then inl (Error "Archive contains too many entries (limit 10000)") else
  match unsafe_entry entries with Some e => inl (Error e) | None => inr tt end.


(** [split(/\r?\n/u)]. *)
Definition newline : ascii := "010"%char.
Definition chop_cr (s : string) : string :=
  if endsWith_char "013" s then take_str (String.length s - 1) s else s.
Definition split_lines (s : string) : list string :=
  match reverse (split_on newline s) with
  | [] => []
  | last :: rest => reverse (last :: (chop_cr <$> rest))
  end.

(** ** The programs *)
Inductive process_end := process_error (e : exn) | process_closed (stdout stderr : string) (code : option Z).
(** What [gzip -dc] wrote, and how it ended: [null] when it was killed. *)
Record gunzip_end := GunzipEnd { gz_chunks : list string; gz_stderr : string; gz_exit : exn + option Z }.

Section Extract.
Context (spawn : string → list string → prog disk process_end) (gunzip : string → prog disk gunzip_end).

Definition exit_text (code : option Z) : string := from_option pretty "unknown" code.
Definition failed_with (stderr message : string) : exn :=
  Error (if bool_decide (trim stderr = "") then message else trim stderr).
Definition runCommand (command : string) (args : list string) : prog disk (string * string) :=
  ended ← spawn command args;
  match ended with
  | process_error e =>
      if bool_decide (exn_code e = Some "ENOENT") then throw (Error (command +:+ " is not installed")) else throw e
  | process_closed stdout stderr code =>
      if bool_decide (code = Some 0%Z) then mret (stdout, stderr)
      else throw (failed_with stderr (command +:+ " exited with code " +:+ exit_text code))
  end.

Definition isCommandNotFoundOrUnsupported (e : exn) : bool :=
  let message := toLowerCase (exn_message e) in
  includes "enoent" message || includes "not found" message || includes "unrecognized archive" message ||
  includes "unsupported" message.

Definition listRarEntries (sourcePath : string) : prog disk (string * string) :=
  try_catch (runCommand "bsdtar" ["-tf"; sourcePath]) (λ e,
    if negb (isCommandNotFoundOrUnsupported e) then throw e
    else try_catch (runCommand "unrar" ["lb"; sourcePath]) (λ _, runCommand "unrar" ["l"; sourcePath])).

Definition listArchiveEntries (kind : ArchiveKind) (sourcePath : string) : prog disk (list string) :=
  result ← match kind with
           | zip => runCommand "unzip" ["-Z1"; sourcePath]
           | tar => runCommand "tar" ["-tf"; sourcePath]
           | _ => listRarEntries sourcePath
           end;
  mret (List.filter (λ x, negb (bool_decide (x = ""))) (split_lines result.1)).

(** The stack of paths still to look at, its top first; [budget]: the entries
    that may still be met. *)
Fixpoint validate_tree (rootPath : string) (budget : nat) (totalBytes : Z) (pending : list string) : prog disk unit :=
  match List.filter (λ x, negb (bool_decide (x = ""))) pending with
  | [] => mret tt
  | currentPath :: pending =>
      currentStat ← lstat currentPath;
      if is_link currentStat then throw (Error "Archives containing symbolic links are not supported")
      else if negb (isPathInside rootPath currentPath) then throw (Error "Archive extraction escaped its destination")
      else match budget with
           | O => throw (Error "Archive contains too many entries (limit 10000)")
           | S budget =>
               match currentStat with
               | File data =>
                   let totalBytes := (totalBytes + len data)%Z in
                   if bool_decide (MAX_EXTRACTED_BYTES < totalBytes)%Z
                   then throw (Error "Extracted archive exceeds the size limit")
                   else validate_tree rootPath budget totalBytes pending
               | Dir =>
                   names ← readdir currentPath;
                   validate_tree rootPath budget totalBytes (reverse ((λ x, path_join [currentPath; x]) <$> names) ++ pending)
               | Link _ => throw (Error "Archives containing special files are not supported")
               end
           end
  end.
Definition validateExtractedTree (rootPath : string) : prog disk unit :=
  validate_tree rootPath MAX_ARCHIVE_ENTRIES 0 [rootPath].

(** The body of the [try]. *)
Definition unpack_into (kind : ArchiveKind) (sourcePath targetPath : string) : prog disk unit :=
  entries ← listArchiveEntries kind sourcePath;
  _ ← (λ s, (validateArchiveEntries entries, s)) : prog disk unit;
  _ ← match kind with
      | zip => runCommand "unzip" ["-q"; "-n"; sourcePath; "-d"; targetPath]
      | tar => runCommand "tar" ["-xkf"; sourcePath; "-C"; targetPath; "--no-same-owner"; "--no-same-permissions"]
      | _ =>
          try_catch
            (runCommand "bsdtar" ["-xkf"; sourcePath; "-C"; targetPath; "--no-same-owner"; "--no-same-permissions"; "--safe-writes"])
            (λ e, if negb (isCommandNotFoundOrUnsupported e) then throw e
                  else runCommand "unrar" ["x"; sourcePath; targetPath +:+ "/"])
      end;
  validateExtractedTree targetPath.
Definition extractArchiveDirectory (kind : ArchiveKind) (sourcePath targetPath : string) : prog disk unit :=
  _ ← mkdir targetPath;
  try_catch (unpack_into kind sourcePath targetPath) (λ e, _ ← rm targetPath true; throw e).

(** The limiter lets the chunks through up to the limit. *)
Fixpoint write_chunks (totalBytes : Z) (chunks : list string) (p : string) : prog disk unit :=
  match chunks with
  | [] => mret tt
  | chunk :: chunks =>
      let totalBytes := (totalBytes + len chunk)%Z in
      if bool_decide (MAX_EXTRACTED_BYTES < totalBytes)%Z then throw (Error "Extracted archive exceeds the size limit")
      else _ ← append p chunk; write_chunks totalBytes chunks p
  end.
Definition extractGzipFile (uuid sourcePath targetPath : string) : prog disk unit :=
  let temporaryPath := temporary targetPath uuid in
  child ← gunzip sourcePath;
  try_catch
    (_ ← open_new temporaryPath;
     _ ← write_chunks 0 (gz_chunks child) temporaryPath;
     match gz_exit child with
     | inl e => throw e
     | inr code =>
         let exitCode := code ⁇ (-1)%Z in
         if negb (bool_decide (exitCode = 0%Z))
         then throw (failed_with (gz_stderr child) ("gzip exited with code " +:+ pretty exitCode))
         else rename temporaryPath targetPath
     end)
    (λ e, _ ← rm_file temporaryPath true; throw e).

Definition kind_text (k : ArchiveKind) : string := match k with zip => "zip" | tar => "tar" | gzip => "gzip" | rar => "rar" end.
Definition applyExtract (uuid : string) (root : NasRootRecord) (p : FileOperationProposal) : prog disk AppliedMutation :=
  match given (fp_sourcePath p), given (fp_targetPath p) with
  | Some sourcePath, Some targetPath =>
      match archiveKindForPath sourcePath with
      | None => throw (Error "Unsupported archive format")
      | Some kind =>
          source ← resolveSafeExistingPath (ro_path root) sourcePath;
          sourceLinkStat ← lstat (sp_absolutePath source);
          if is_link sourceLinkStat then throw (Error "Refusing to extract through a symlink") else
          sourceStat ← stat (sp_realPath source);
          if negb (is_file sourceStat) then throw (Error "Archive source must be a file") else
          target ← resolveSafeTargetPath (ro_path root) targetPath;
          _ ← assertNoSymlinkPathSegments (sp_rootRealPath source) (dirname (st_absolutePath target));
          _ ← assertTargetDoesNotExist (st_absolutePath target);
          _ ← match kind with
              | gzip => extractGzipFile uuid (sp_realPath source) (st_absolutePath target)
              | _ => extractArchiveDirectory kind (sp_realPath source) (st_absolutePath target)
              end;
          mret (Applied p (Some (sp_relativePath source)) (Some (st_relativePath target))
            [("absoluteSourcePath", JStr (sp_realPath source)); ("absoluteTargetPath", JStr (st_absolutePath target));
             ("archiveKind", JStr (kind_text kind))])
      end
  | _, _ => throw (Error "extract requires sourcePath and targetPath")
  end.
End Extract.

(** When bsdtar is not installed, unrar is not tried: the message that
    [runCommand] makes of ENOENT is none of those it looks for. *)
Lemma rar_needs_bsdtar spawn p s : spawn "bsdtar" ["-tf"; p] s = (inr (process_error (ErrnoException "ENOENT")), s) →
  listRarEntries spawn p s = (inl (Error "bsdtar is not installed"), s).
Proof. intros H. unfold listRarEntries, try_catch, runCommand, mbind, prog_bind. by rewrite H. Qed.

(** ** Confinement *)
(** The command lines that list an archive, and those that unpack one into a
    directory. *)
Inductive lists_entries : string → list string → Prop :=
| list_zip p : lists_entries "unzip" ["-Z1"; p]
| list_tar p : lists_entries "tar" ["-tf"; p]
| list_bsdtar p : lists_entries "bsdtar" ["-tf"; p]
| list_rar_bare p : lists_entries "unrar" ["lb"; p]
| list_rar p : lists_entries "unrar" ["l"; p].
Inductive unpacks : string → list string → string → Prop :=
| unpack_zip p d : unpacks "unzip" ["-q"; "-n"; p; "-d"; d] d
| unpack_tar p d : unpacks "tar" ["-xkf"; p; "-C"; d; "--no-same-owner"; "--no-same-permissions"] d
| unpack_bsdtar p d :
    unpacks "bsdtar" ["-xkf"; p; "-C"; d; "--no-same-owner"; "--no-same-permissions"; "--safe-writes"] d
| unpack_rar p d : unpacks "unrar" ["x"; p; d +:+ "/"] d.
(** Listing changes nothing, unpacking into a directory changes what is below
    it and leaves it there, [gzip -dc] writes to its output only. *)
Class ArchiveTools (spawn : string → list string → prog disk process_end) (gunzip : string → prog disk gunzip_end) : Prop := {
  tools_faults command args : keeps faults_ok (spawn command args);
  tools_list command args : lists_entries command args → looks (spawn command args);
  tools_unpack command args d s : unpacks command args (rooted d) → wf (dk_fs s) → dk_fs s !! d = Some Dir →
    let s' := (spawn command args s).2 in
    wf (dk_fs s') ∧ dk_fs s' !! d = Some Dir ∧ ∀ p, ¬ under d p → dk_fs s' !! p = dk_fs s !! p;
  gunzip_faults p : keeps faults_ok (gunzip p);
  gunzip_looks p : looks (gunzip p) }.

Section Confined.
Context (spawn : string → list string → prog disk process_end) (gunzip : string → prog disk gunzip_end).
Context `{!ArchiveTools spawn gunzip}.

Lemma runCommand_end command args s : (runCommand spawn command args s).2 = (spawn command args s).2.
Proof.
  unfold runCommand, mbind, prog_bind. destruct (spawn command args s) as [[e|[e|out err code]] s']; [done|simpl..].
  all: by destruct (bool_decide _).
Qed.
Lemma keeps_runCommand command args : keeps faults_ok (runCommand spawn command args).
Proof. intros s Hs. rewrite runCommand_end. by apply tools_faults. Qed.
Lemma looks_list command args : lists_entries command args → looks (runCommand spawn command args).
Proof. intros H s. rewrite runCommand_end. by apply tools_list. Qed.
#[local] Hint Resolve keeps_runCommand : keeps.
#[local] Hint Resolve looks_list list_zip list_tar list_bsdtar list_rar_bare list_rar : looks.

Lemma looks_entries kind p : looks (listArchiveEntries spawn kind p).
Proof. unfold listArchiveEntries, listRarEntries. looks_all. Qed.
Lemma keeps_entries kind p : keeps faults_ok (listArchiveEntries spawn kind p).
Proof. unfold listArchiveEntries, listRarEntries. keeps_all. Qed.
Lemma looks_valid root budget total pending : looks (validate_tree root budget total pending).
Proof.
  revert total pending. induction budget as [|budget IH]; intros total pending; simpl; destruct (List.filter _ pending); [looks_all..|].
  apply looks_bind; [apply looks_query|]. intros n. destruct (is_link n); [apply looks_throw|]. destruct (negb _); [apply looks_throw|].
  destruct n; [apply looks_bind; [apply looks_query|done]|by destruct (bool_decide _)|apply looks_throw].
Qed.
Lemma keeps_valid root budget total pending : keeps faults_ok (validate_tree root budget total pending).
Proof.
  revert total pending. induction budget as [|budget IH]; intros total pending; simpl; destruct (List.filter _ pending); [keeps_all..|].
  apply keeps_bind; [apply keeps_call|]. intros n. destruct (is_link n); [apply keeps_throw|]. destruct (negb _); [apply keeps_throw|].
  destruct n; [apply keeps_bind; [apply keeps_call|done]|destruct (bool_decide _); [apply keeps_throw|done]|apply keeps_throw].
Qed.

Context (R T : list string) (f0 : fs).
#[local] Notation good := (good R T f0).
#[local] Notation inside := (inside R T).
#[local] Notation moving := (moving R T f0).

Lemma moving_unpack command args t : inside t → unpacks command args (rooted t) → keeps (moving t) (runCommand spawn command args).
Proof.
  intros Hin Hu s [Hs Ht]. split; [|].
  - pose proof (keeps_runCommand command args s (go_faults s Hs)) as Hf. rewrite runCommand_end in *.
    destruct (tools_unpack _ _ _ _ Hu (go_wf s Hs) Ht) as (Hw&_&Ho). split; [done|done|]. intros p Hp.
    rewrite Ho; [exact (go_outside s Hs p Hp)|]. intros Hup. by apply Hp, (inside_below t).
  - rewrite runCommand_end. by destruct (tools_unpack _ _ _ _ Hu (go_wf s Hs) Ht) as (_&Hd&_).
Qed.
#[local] Hint Constructors unpacks : unpacks.

Lemma moving_run_list command args t : lists_entries command args → keeps (moving t) (runCommand spawn command args).
Proof. intros H. apply moving_looks; [by apply looks_list|apply keeps_runCommand]. Qed.

Lemma moving_unpack_into kind p t : inside t → keeps (moving t) (unpack_into spawn kind p (rooted t)).
Proof.
  intros Hin. apply keeps_bind; [apply moving_looks; [apply looks_entries|apply keeps_entries]|]. intros entries.
  apply keeps_bind; [by intros s Hs|]. intros _.
  apply keeps_bind; [|intros _; apply moving_looks; [apply looks_valid|apply keeps_valid]].
  assert (∀ command args, unpacks command args (rooted t) → keeps (moving t) (runCommand spawn command args)) as Hu
    by (intros; by apply moving_unpack).
  destruct kind; [by apply Hu; constructor..| |];
    (apply keeps_try; [by apply Hu; constructor|]; intros e; destruct (negb _); [apply keeps_throw|by apply Hu; constructor]).
Qed.

(** Once the entry is made, the directory it is in is as before. *)
Lemma moving_made d x n s s' : inside d → plain_name x → good s → dk_fs s !! d = Some Dir → dk_fs s !! (d ++ [x]) = None →
  dk_fs s' = <[d ++ [x] := n]> (dk_fs s) → faults_ok s' → moving d s'.
Proof.
  intros Hin Hx Hs Hd Hn Ef Hf. apply (moving_change d x s); [done|done| | |done]; rewrite Ef.
  - intros q Hq. apply lookup_insert_ne. intros <-. apply Hq. exists []. by rewrite app_nil_r.
  - apply wf_insert; [by eapply go_wf|done|done|done].
Qed.

Lemma good_extractArchiveDirectory kind p d x s : inside d → Forall plain_name d → plain_name x → clear (dk_fs s) d → good s →
  good (extractArchiveDirectory spawn kind p (rooted (d ++ [x])) s).2.
Proof.
  intros Hin Hd Hx Hc Hs. unfold extractArchiveDirectory, mbind, prog_bind.
  destruct (mkdir (rooted (d ++ [x])) s) as [r s1] eqn:E.
  assert (faults_ok s1) as Hf by (by eapply keeps_run; [apply keeps_call|by eapply go_faults|]).
  destruct (make_effect _ _ _ _ _ _ (go_wf s Hs) Hc Hd Hx E) as [[Ef [e ->]]|(->&Hdir&Hnone&Ef)]; [by eapply good_eq|].
  assert (moving (d ++ [x]) s1) as Hm.
  { split; [by eapply moving_made|]. by rewrite Ef, lookup_insert_eq. }
  assert (∀ s, moving (d ++ [x]) s → moving d s) as Hup.
  { intros s' [Hs' Hd']. split; [done|]. by eapply wf_parent; [eapply go_wf|]. }
  pose proof (moving_unpack_into kind p (d ++ [x]) (inside_child d x Hin) s1 Hm) as H. unfold try_catch.
  destruct (unpack_into spawn kind p (rooted (d ++ [x])) s1) as [[e|u] s2]; [|apply H].
  pose proof (moving_rm d x true Hin Hx s2 (Hup _ H)) as H2. by destruct (rm (rooted (d ++ [x])) true s2) as [[?|?] s3], H2.
Qed.

(** While the file is written. *)
Definition writing (d : list string) (y : string) (s : disk) : Prop :=
  moving d s ∧ ∃ data, dk_fs s !! (d ++ [y]) = Some (File data).

Lemma writing_append d y data : inside d → plain_name y → keeps (writing d y) (append (rooted (d ++ [y])) data).
Proof.
  intros Hin Hy s [Hm [old Hold]]. pose proof Hm as [Hs Hd].
  destruct (append (rooted (d ++ [y])) data s) as [r s'] eqn:E. simpl.
  assert (faults_ok s') as Hf by (by eapply keeps_run; [apply keeps_call|by eapply go_faults|]).
  destruct (append_effect _ _ _ _ _ _ (go_wf s Hs) Hd Hy E) as [Ef|(old'&Hold'&Ef)].
  - split; [split; [by eapply good_eq|by rewrite Ef]|]. rewrite Ef. by eexists.
  - split; [|rewrite Ef, lookup_insert_eq; by eexists]. apply (moving_change d y s); [done|done| | |done]; rewrite Ef.
    + intros q Hq. apply lookup_insert_ne. intros <-. apply Hq. exists []. by rewrite app_nil_r.
    + eapply wf_write; [by eapply go_wf|done].
Qed.

Lemma writing_chunks d y total chunks : inside d → plain_name y →
  keeps (writing d y) (write_chunks total chunks (rooted (d ++ [y]))).
Proof.
  intros Hin Hy. revert total. induction chunks as [|c chunks IH]; intros total; simpl; [apply keeps_ret|].
  destruct (bool_decide _); [apply keeps_throw|]. apply keeps_bind; [by apply writing_append|intros _; apply IH].
Qed.

Lemma good_extractGzipFile uuid p d x s : inside d → Forall plain_name d → plain_name x → no_char sep uuid → clear (dk_fs s) d → good s →
  good (extractGzipFile gunzip uuid p (rooted (d ++ [x])) s).2.
Proof.
  intros Hin Hd Hx Hu Hc Hs. unfold extractGzipFile. rewrite temporary_rooted.
  set (y := x +:+ "." +:+ uuid +:+ ".tmp"). assert (plain_name y) as Hy by (by apply temporary_plain).
  apply good_look; [apply gunzip_looks|apply gunzip_faults|done|]. intros child s1 _ Ef1 Hs1. unfold try_catch, mbind, prog_bind.
  destruct (open_new (rooted (d ++ [y])) s1) as [r s2] eqn:E.
  assert (faults_ok s2) as Hf by (by eapply keeps_run; [apply keeps_call|by eapply go_faults|]). rewrite <-Ef1 in Hc.
  destruct (make_effect _ _ _ _ _ _ (go_wf s1 Hs1) Hc Hd Hy E) as [[Ef [e ->]]|(->&Hdir&Hnone&Ef)].
  - assert (good (rm_file (rooted (d ++ [y])) true s2).2) as Hg by (apply good_rm_file; [done..|by rewrite Ef|by eapply good_eq]).
    by destruct (rm_file (rooted (d ++ [y])) true s2) as [[?|?] s3].
  - assert (writing d y s2) as Hw.
    { split; [by eapply moving_made|]. rewrite Ef, lookup_insert_eq. by eexists. }
    assert (∀ s, moving d s → good (rm_file (rooted (d ++ [y])) true s).2) as Hrm.
    { intros s' [Hs' Hd']. apply good_rm_file; [done..|eapply clear_dir; [by eapply go_wf|done]|done]. }
    pose proof (writing_chunks d y 0 (gz_chunks child) Hin Hy s2 Hw) as Hw3.
    destruct (write_chunks 0 (gz_chunks child) (rooted (d ++ [y])) s2) as [[e|u] s3]; destruct Hw3 as [Hm3 [data Hdata]]; simpl in *.
    + specialize (Hrm s3 Hm3). by destruct (rm_file (rooted (d ++ [y])) true s3) as [[?|?] s4].
    + assert (∀ (m : prog disk unit), moving d (m s3).2 →
        good (match m s3 with
              | (inr a, s') => (inr a, s')
              | (inl e, s') => match rm_file (rooted (d ++ [y])) true s' with
                               | (inl e0, s'0) => (inl e0, s'0)
                               | (inr _, s'0) => throw e s'0
                               end
              end).2) as Hend.
      { intros m H. destruct (m s3) as [[e|v] s4]; [|apply H]. specialize (Hrm s4 H).
        by destruct (rm_file (rooted (d ++ [y])) true s4) as [[?|?] s5]. }
      apply (Hend (match gz_exit child with inl e => throw e | inr code => _ end)).
      destruct (gz_exit child) as [e|code]; [done|]. destruct (negb _); [done|].
      destruct (rename (rooted (d ++ [y])) (rooted (d ++ [x])) s3) as [r4 s4] eqn:E4.
      destruct (moving_rename (d ++ [y]) d x (File data) s3 _ _ (inside_child _ _ Hin) Hin Hx Hm3 Hdata E4) as [H _]. exact H.
Qed.

Context (root : NasRootRecord) (Hroot : follow f0 (ro_path root) = inr R).
Lemma good_applyExtract uuid p s : no_char sep uuid → good s → dk_fs s = f0 → good (applyExtract spawn gunzip uuid root p s).2.
Proof.
  intros Hu Hs Ef. unfold applyExtract. destruct (given (fp_sourcePath p)) as [sp|]; [|done].
  destruct (given (fp_targetPath p)) as [tp|]; [|done]. destruct (archiveKindForPath sp) as [kind|]; [|done].
  apply good_look; [auto with looks|auto with keeps|done|]. intros source s1 E1 Ef1 Hs1.
  destruct (source_place Hroot _ _ _ _ Hs Ef E1) as (ta&n&Hrr&Hreal&Hn).
  apply good_look; [auto with looks|apply keeps_call|done|]. intros l s2 _ Ef2 Hs2. destruct (is_link l); [done|].
  apply good_look; [auto with looks|apply keeps_call|done|]. intros l' s3 _ Ef3 Hs3. destruct (negb _); [done|].
  apply good_look; [auto with looks|auto with keeps|done|]. intros target s4 E4 Ef4 Hs4.
  destruct (target_place Hroot _ s3 _ _ Hs3 ltac:(congruence) E4) as (t&_&Habs&Hpl&(nr&Hnr&Hlr)&Ht). rewrite Hrr, Habs.
  apply good_look; [auto with looks|auto with keeps|done|]. intros v s5 E5 Ef5 Hs5.
  apply good_look; [auto with looks|auto with keeps|done|]. intros v2 s6 E6 Ef6 Hs6.
  destruct (place_split R t Hpl Ht) as [[-> ->]|(t'&y&->&Hpl'&Hy&Hdir)].
  { by apply absent_not_root in E6; [|eapply go_wf|eapply go_faults]. }
  rewrite Hdir in E5. rewrite app_assoc.
  assert (clear (dk_fs s6) (R ++ t')) as Hc.
  { replace (dk_fs s6) with f0 by congruence.
    eapply (clear_from_root f0 R t' v s4); [by eapply go_wf|by eapply go_faults|congruence|done|by exists nr|exact E5]. }
  assert (inside (R ++ t')) as Hin by (left; by eexists).
  apply good_write; [|done]. destruct kind; (by apply good_extractGzipFile) || (by apply good_extractArchiveDirectory).
Qed.
End Confined.

(** ** What an unpacked tree is *)
Lemma filter_rooted ps : List.filter (λ x, negb (bool_decide (x = ""))) (rooted <$> ps) = rooted <$> ps.
Proof. induction ps as [|p ps IH]; [done|]. cbn [fmap list_fmap List.filter]. by rewrite bool_decide_false, IH. Qed.

Lemma validate_step root budget total p ps : validate_tree root budget total (rooted <$> (p :: ps)) =
  (n ← lstat (rooted p);
   if is_link n then throw (Error "Archives containing symbolic links are not supported")
   else if negb (isPathInside root (rooted p)) then throw (Error "Archive extraction escaped its destination")
   else match budget with
        | O => throw (Error "Archive contains too many entries (limit 10000)")
        | S budget =>
            match n with
            | File data =>
                if bool_decide (MAX_EXTRACTED_BYTES < total + len data)%Z
                then throw (Error "Extracted archive exceeds the size limit")
                else validate_tree root budget (total + len data)%Z (rooted <$> ps)
            | Dir =>
                names ← readdir (rooted p);
                validate_tree root budget total (reverse ((λ x, path_join [rooted p; x]) <$> names) ++ (rooted <$> ps))
            | Link _ => throw (Error "Archives containing special files are not supported")
            end
        end).
Proof. destruct budget; cbn [validate_tree]; by rewrite filter_rooted. Qed.

Lemma readdir_real p s r s' : wf (dk_fs s) → dk_fs s !! p = Some Dir → readdir (rooted p) s = (r, s') →
  dk_fs s' = dk_fs s ∧ ∀ names, r = inr names → names = children p (dk_fs s).
Proof.
  intros Hwf Hp [Hf Hq]%query_effect. split; [done|]. intros names ->. specialize (Hq names eq_refl).
  rewrite (follow_real _ p Dir), Hp in Hq by done. by injection Hq.
Qed.

(** What the walk looks at next, as places. *)
Lemma pending_places p f ps : wf f →
  reverse ((λ x, path_join [rooted p; x]) <$> children p f) ++ (rooted <$> ps) =
  rooted <$> (reverse ((λ x, p ++ [x]) <$> children p f) ++ ps).
Proof.
  intros Hwf. rewrite fmap_app, fmap_reverse, <-list_fmap_compose. f_equal. f_equal. apply list_fmap_ext.
  intros i x Hx%list_elem_of_lookup_2. apply children_elem in Hx as [n Hn]. pose proof (wf_plain f Hwf _ _ Hn) as Hpl.
  apply Forall_app in Hpl as [Hp [Hx _]%Forall_cons]. by apply path_join_rooted.
Qed.

(** The walk has seen every entry below the places it was given, each of them
    in a directory. *)
Definition placed (f : fs) (p : list string) : Prop := ∃ d x, p = d ++ [x] ∧ f !! d = Some Dir ∧ plain_name x.
Lemma placed_children p f : wf f → f !! p = Some Dir → Forall (placed f) ((λ x, p ++ [x]) <$> children p f).
Proof.
  intros Hwf Hp. apply Forall_fmap, Forall_forall. intros x Hx. apply children_elem in Hx as [n Hn].
  pose proof (wf_plain f Hwf _ _ Hn) as Hpl. apply Forall_app in Hpl as [_ [Hx _]%Forall_cons]. by exists p, x.
Qed.
Lemma lstat_placed p s m s1 : wf (dk_fs s) → placed (dk_fs s) p → lstat (rooted p) s = (inr m, s1) →
  dk_fs s1 = dk_fs s ∧ dk_fs s !! p = Some m.
Proof.
  intros Hwf (d&x&->&Hd&Hx) [Hf Hq]%query_effect. split; [done|]. specialize (Hq m eq_refl).
  rewrite locate_child in Hq by done. destruct (dk_fs s !! (d ++ [x])); [by injection Hq as ->|done].
Qed.

Lemma validate_sound rootPath budget total ps s s' u : wf (dk_fs s) → Forall (placed (dk_fs s)) ps →
  validate_tree rootPath budget total (rooted <$> ps) s = (inr u, s') →
  ∀ p q n, p ∈ ps → under p q → dk_fs s !! q = Some n → is_link n = false.
Proof.
  revert total ps s. induction budget as [|budget IH]; intros total ps s Hwf Hps H p0 q n Hp0 Hq Hn;
    (destruct ps as [|p ps]; [by apply not_elem_of_nil in Hp0|]); rewrite validate_step in H;
    apply bind_inv in H as (m&s1&E1&H); destruct (is_link m) eqn:Em; [done| |done|]; destruct (negb _); [done|done|done|].
  apply Forall_cons in Hps as [Hp Hps]. destruct (lstat_placed _ _ _ _ Hwf Hp E1) as [Ef1 Hm].
  rewrite <-Ef1 in *. destruct m as [|data|]; [| |done].
  - apply bind_inv in H as (names&s2&E2&H). destruct (readdir_real _ _ _ _ Hwf Hm E2) as [Ef2 Hnames].
    rewrite (Hnames names eq_refl), pending_places in H by done. rewrite <-Ef2 in *.
    assert (Forall (placed (dk_fs s2)) (reverse ((λ x, p ++ [x]) <$> children p (dk_fs s2)) ++ ps)) as Hps2
      by (apply Forall_app; split; [by apply Forall_reverse, placed_children|done]).
    apply elem_of_cons in Hp0 as [->|Hp0].
    + destruct Hq as [[|x r] ->]; [rewrite app_nil_r in Hn; by simplify_eq|].
      apply (IH _ _ _ Hwf Hps2 H (p ++ [x]) (p ++ x :: r)); [|exists r; by rewrite <-app_assoc|done].
      apply elem_of_app. left. apply elem_of_reverse, list_elem_of_fmap. exists x. split; [done|]. apply children_elem.
      destruct r as [|y r]; [by eexists|]. exists Dir. apply (wf_above _ (p ++ [x]) (y :: r) n); [done| |done]. by rewrite <-app_assoc.
    + apply (IH _ _ _ Hwf Hps2 H p0 q); [|done|done]. apply elem_of_app. by right.
  - destruct (bool_decide _); [done|]. apply elem_of_cons in Hp0 as [->|Hp0]; [|by eapply IH].
    destruct Hq as [[|x r] ->]; [rewrite app_nil_r in Hn; by simplify_eq|].
    by rewrite (wf_above _ p (x :: r) n Hwf Hn) in Hm.
Qed.

Lemma looks_extracted p : looks (validateExtractedTree p).
Proof. unfold validateExtractedTree. generalize MAX_ARCHIVE_ENTRIES. intros budget. apply looks_valid. Qed.
Lemma validateExtractedTree_sound p s s' u : wf (dk_fs s) → placed (dk_fs s) p → validateExtractedTree (rooted p) s = (inr u, s') →
  dk_fs s' = dk_fs s ∧ ∀ q n, under p q → dk_fs s !! q = Some n → is_link n = false.
Proof.
  intros Hwf Hp. unfold validateExtractedTree. generalize MAX_ARCHIVE_ENTRIES as budget. intros budget H. split.
  - pose proof (looks_valid (rooted p) budget 0 [rooted p] s) as Hl. by rewrite H in Hl.
  - intros q n Hq Hn. eapply (validate_sound _ _ _ [p] s); [done|by constructor|exact H|by left|done|done].
Qed.

(** A directory that was unpacked holds directories and files only. *)
Lemma extractArchiveDirectory_checked spawn gunzip `{!ArchiveTools spawn gunzip} kind p d x s u s' :
  wf (dk_fs s) → faults_ok s → clear (dk_fs s) d → Forall plain_name d → plain_name x →
  extractArchiveDirectory spawn kind p (rooted (d ++ [x])) s = (inr u, s') →
  dk_fs s' !! (d ++ [x]) = Some Dir ∧ ∀ q n, under (d ++ [x]) q → dk_fs s' !! q = Some n → is_link n = false.
Proof.
  intros Hwf Hf Hc Hd Hx H. apply bind_inv in H as (v&s1&E1&H). unfold try_catch in H.
  destruct (unpack_into spawn kind p (rooted (d ++ [x])) s1) as [[e|w] s2] eqn:E2.
  { apply bind_inv in H as (?&?&_&H). done. }
  injection H as _ <-.
  destruct (make_effect _ _ _ _ _ _ Hwf Hc Hd Hx E1) as [[_ [? ?]]|(_&Hdir&Hnone&Ef)]; [done|].
  assert (moving (d ++ [x]) [] (dk_fs s) (d ++ [x]) s1) as Hm.
  { assert (good (d ++ [x]) [] (dk_fs s) s) as Hs by (split; done). split.
    - eapply (good_graft s d x (λ _, False)); [done|right; by exists d| |done| |by eapply keeps_run; [apply keeps_call| |]]; rewrite Ef.
      + intros q Hq. left. apply lookup_insert_ne. intros <-. apply Hq. exists []. by rewrite app_nil_r.
      + by apply wf_insert.
    - by rewrite Ef, lookup_insert_eq. }
  assert (inside (d ++ [x]) [] (d ++ [x])) as Hin by (left; exists []; by rewrite app_nil_r).
  pose proof (moving_unpack_into spawn gunzip (d ++ [x]) [] (dk_fs s) kind p (d ++ [x]) Hin s1 Hm) as [Hg Ht]. rewrite E2 in Hg, Ht.
  split; [exact Ht|]. unfold unpack_into in E2. apply bind_inv in E2 as (en&s3&_&E2). apply bind_inv in E2 as (?&s4&_&E2).
  apply bind_inv in E2 as (?&s5&_&E2).
  assert (∀ s6, dk_fs s6 = dk_fs s2 → wf (dk_fs s6) ∧ placed (dk_fs s6) (d ++ [x])) as H6.
  { intros s6 ->. pose proof (go_wf _ Hg) as Hw. split; [exact Hw|]. exists d, x. split_and!; [done|by eapply wf_parent|done]. }
  assert (dk_fs s5 = dk_fs s2) as E5.
  { pose proof (looks_extracted (rooted (d ++ [x])) s5) as Hl. by rewrite E2 in Hl. }
  destruct (H6 s5 E5) as [Hw5 Hp5]. destruct (validateExtractedTree_sound _ _ _ _ Hw5 Hp5 E2) as [_ Hno].
  by rewrite <-E5.
Qed.
