(* ===== verification/BackupRuns.v ===== *)
(** * Backup runs

    packages/db/src/repositories/backup-runs.ts: the runs of the backup command
    and what went wrong in each, next to the execution locks, the roots and
    their readiness, which a backup reads and writes too.  Times are
    milliseconds. *)
From S2P Require Import Prelude Sql Json Locks NasRoots.
Open Scope Z_scope.

(** ** packages/shared/src/types.ts *)
Inductive BackupRunKind := daily | weekly | check_run | restore_run.
Inductive BackupRunStatus := bk_validating | bk_running | bk_completed | bk_failed | bk_interrupted.
#[global] Instance BackupRunKind_eq_dec : EqDecision BackupRunKind. Proof. solve_decision. Defined.
#[global] Instance BackupRunStatus_eq_dec : EqDecision BackupRunStatus. Proof. solve_decision. Defined.
Record BackupFailure := Failure { fl_rootId : option string; fl_path : option string; fl_code : option string; fl_reason : string }.
Record BackupRunSummary := RunSummary {
  rs_id : string; rs_kind : BackupRunKind; rs_status : BackupRunStatus; rs_startedAt : Z; rs_finishedAt : option Z;
  rs_snapshotIds : list string; rs_files : number; rs_bytes : number; rs_verified : bool; rs_error : option string;
  rs_failures : list BackupFailure }.

(** ** The tables *)
Record backup_run := BackupRun {
  br_id : string; br_kind : BackupRunKind; br_status : BackupRunStatus; br_started_at : Z; br_finished_at : option Z;
  br_snapshot_ids_json : json; br_files : number; br_bytes : number; br_verified : bool; br_error : option string }.
Record backup_failure := BackupFailureRow {
  bf_id : string; bf_run_id : string; bf_root_id : option string; bf_path : option string; bf_code : option string;
  bf_reason : string; bf_created_at : Z }.
Record backup_db := BackupDb {
  bd_locks : gmap string execution_lock; bd_roots : roots_db; bd_runs : list backup_run; bd_failures : list backup_failure }.
#[export] Instance backup_db_eta : Eta backup_db := λ d, BackupDb (bd_locks d) (bd_roots d) (bd_runs d) (bd_failures d).
Notation backup_prog := (prog backup_db).

(** ** Reading *)
Definition oldest_failure (a b : backup_failure) : bool :=
  bool_decide (bf_created_at a < bf_created_at b) || (bool_decide (bf_created_at a = bf_created_at b) && String.leb (bf_id a) (bf_id b)).
(** [...(failure.root_id ? { rootId: failure.root_id } : {})] *)
Definition truthy_text (o : option string) : option string := o ≫= λ s, if bool_decide (s = "") then None else Some s.
Definition mapBackupFailure (f : backup_failure) : BackupFailure :=
  Failure (truthy_text (bf_root_id f)) (truthy_text (bf_path f)) (truthy_text (bf_code f)) (bf_reason f).
Definition mapBackupRun (d : backup_db) (r : backup_run) : BackupRunSummary :=
  RunSummary (br_id r) (br_kind r) (br_status r) (br_started_at r) (br_finished_at r)
    (match br_snapshot_ids_json r with JArr l => omap (λ v, as_string (Some v)) l | _ => [] end)
    (br_files r) (br_bytes r) (br_verified r) (br_error r)
    (mapBackupFailure <$> order_by oldest_failure (select (λ f, bool_decide (bf_run_id f = br_id r)) (bd_failures d))).
Definition getBackupRun (runId : string) (d : backup_db) : option BackupRunSummary := mapBackupRun d <$> by_key br_id runId (bd_runs d).
Definition newest_run (a b : backup_run) : bool := bool_decide (br_started_at b ≤ br_started_at a).
Definition listBackupRuns (limit : nat) (d : backup_db) : list BackupRunSummary :=
  mapBackupRun d <$> take limit (order_by newest_run (bd_runs d)).

(** ** Writing *)
Definition unfinished (r : backup_run) : bool := bool_decide (br_status r ∈ [bk_validating; bk_running]).
Definition interrupted_run (now : Z) (r : backup_run) : backup_run :=
  BackupRun (br_id r) (br_kind r) bk_interrupted (br_started_at r) (Some now) (br_snapshot_ids_json r) (br_files r) (br_bytes r)
    (br_verified r) (Some "interrupted").
Definition fresh_run (id : string) (kind : BackupRunKind) (now : Z) : backup_run :=
  BackupRun id kind bk_running now None (JArr []) (lit 0) (lit 0) false None.
Definition startBackupRun (id : string) (kind : BackupRunKind) (now : Z) : backup_prog BackupRunSummary := λ d,
  let d := d <| bd_runs := update_where unfinished (interrupted_run now) (bd_runs d) |> in
  if isSome (by_key br_id id (bd_runs d)) then (inl (SqliteError "SQLITE_CONSTRAINT_PRIMARYKEY"), d) else
  (inr (RunSummary id kind bk_running now None [] (lit 0) (lit 0) false None []),
   d <| bd_runs := insert_row (fresh_run id kind now) (bd_runs d) |>).

(** The run and, when it names one, the root must be there. *)
Definition recordBackupFailure (id runId : string) (rootId path code : option string) (reason : string) (now : Z) : backup_prog unit := λ d,
  if negb (isSome (by_key br_id runId (bd_runs d))) ||
     negb (from_option (λ r, isSome (by_key nr_id r (rt_roots (bd_roots d)))) true rootId)
  then (inl (SqliteError "SQLITE_CONSTRAINT_FOREIGNKEY"), d)
  else if bool_decide (id ∈ bf_id <$> bd_failures d) then (inl (SqliteError "SQLITE_CONSTRAINT_PRIMARYKEY"), d)
  else (inr tt, d <| bd_failures := insert_row (BackupFailureRow id runId rootId path code reason now) (bd_failures d) |>).

Inductive BackupFinish := finish_completed | finish_failed | finish_interrupted.
Definition finish_status (f : BackupFinish) : BackupRunStatus :=
  match f with finish_completed => bk_completed | finish_failed => bk_failed | finish_interrupted => bk_interrupted end.
Record backup_end := BackupEnd {
  be_status : BackupFinish; be_snapshotIds : list string; be_files : number; be_bytes : number; be_verified : bool; be_error : option string }.
Definition finished_run (e : backup_end) (finishedAt : Z) (r : backup_run) : backup_run :=
  BackupRun (br_id r) (br_kind r) (finish_status (be_status e)) (br_started_at r) (Some finishedAt) (JArr (JStr <$> be_snapshotIds e)) (be_files e)
    (be_bytes e) (be_verified e) (be_error e).
Definition finishBackupRun (runId : string) (e : backup_end) (finishedAt : Z) : backup_prog (option BackupRunSummary) := λ d,
  let p := λ r, has_key br_id runId r && unfinished r in
  let changes := count_where p (bd_runs d) in
  let d := d <| bd_runs := update_where p (finished_run e finishedAt) (bd_runs d) |> in
  (inr (if bool_decide (changes = 1%nat) then getBackupRun runId d else None), d).

(** ** What the processes do to the tables while one of them waits *)
Inductive backup_step :=
| SLock (c : lock_call)
| SStart (id : string) (kind : BackupRunKind) (now : Z)
| SRecord (id runId : string) (rootId path code : option string) (reason : string) (now : Z)
| SFinish (runId : string) (e : backup_end) (now : Z)
| SRoots (roots : roots_db).
Definition backup_step_on (d : backup_db) (s : backup_step) : backup_db :=
  match s with
  | SLock c => d <| bd_locks := (lock_step (bd_locks d) c).2 |>
  | SStart id kind now => (startBackupRun id kind now d).2
  | SRecord id runId rootId path code reason now => (recordBackupFailure id runId rootId path code reason now d).2
  | SFinish runId e now => (finishBackupRun runId e now d).2
  | SRoots roots => d <| bd_roots := roots |>
  end.

(** ** What the statements keep *)
(** Ids are distinct, at most one run is going on, what is finished says when,
    and failures belong to runs. *)
Record runs_ok (d : backup_db) : Prop := RunsOk {
  ro_unique : unique_keys br_id (bd_runs d);
  ro_single : ∀ r r', In r (bd_runs d) → In r' (bd_runs d) → unfinished r = true → unfinished r' = true → r = r';
  ro_finished : ∀ r, In r (bd_runs d) → unfinished r = false → is_Some (br_finished_at r);
  ro_failures : ∀ f, In f (bd_failures d) → is_Some (by_key br_id (bf_run_id f) (bd_runs d))
}.
(** The run [id] is over. *)
Definition run_over (id : string) (d : backup_db) : Prop := ∀ r, In r (bd_runs d) → br_id r = id → unfinished r = false.

Lemma unfinished_finished e t r : unfinished (finished_run e t r) = false.
Proof. unfold unfinished. cbn. by destruct (be_status e). Qed.
Lemma update_In {R} p (f : R → R) t x : In x (update_where p f t) → ∃ y, In y t ∧ x = if p y then f y else y.
Proof. unfold update_where. intros (y & <- & Hy)%in_map_iff. by exists y. Qed.
Lemma by_key_is_Some {R} (key : R → string) k p f t : (∀ r, key (f r) = key r) →
  is_Some (by_key key k t) → is_Some (by_key key k (update_where p f t)).
Proof. intros Hf [r Hr]. rewrite by_key_update by done. rewrite Hr. by eexists. Qed.

Lemma backup_start_ok id kind now : keeps runs_ok (startBackupRun id kind now).
Proof.
  intros d Hd. unfold startBackupRun. cbv zeta. set (rows := update_where _ _ _).
  assert (∀ x, In x rows → unfinished x = false ∧ is_Some (br_finished_at x)) as Hover.
  { intros x (y & Hy & ->)%update_In. destruct (unfinished y) eqn:E; [by split|]. split; [done|]. by apply (ro_finished d Hd). }
  assert (unique_keys br_id rows) as Hu by (by apply unique_keys_update; [|apply Hd]).
  assert (∀ f, In f (bd_failures d) → is_Some (by_key br_id (bf_run_id f) rows)) as Hf.
  { intros f Hf. apply by_key_is_Some; [done|]. by apply (ro_failures d Hd). }
  change (bd_runs (d <| bd_runs := rows |>)) with rows. destruct (by_key br_id id rows) as [x|] eqn:Ei; cbn [isSome snd].
  - split; cbn; [done| | |done].
    + intros r r' Hr _ Hr1. apply Hover in Hr as [? _]. congruence.
    + intros r Hr _. by apply Hover.
  - split; cbn.
    + by apply unique_keys_insert.
    + intros r r' Hr Hr' E E'. apply in_app_iff in Hr as [Hr|[<-|[]]]; [by apply Hover in Hr as [? _]; congruence|].
      apply in_app_iff in Hr' as [Hr'|[<-|[]]]; [by apply Hover in Hr' as [? _]; congruence|done].
    + intros r [Hr|[<-|[]]]%in_app_iff E; [by apply Hover|done].
    + intros f Hin. change (is_Some (by_key br_id (bf_run_id f) (insert_row (fresh_run id kind now) rows))). rewrite by_key_insert. destruct (Hf f Hin) as [r ->]. by eexists.
Qed.
Lemma record_runs_ok id runId rootId path code reason now : keeps runs_ok (recordBackupFailure id runId rootId path code reason now).
Proof.
  intros d Hd. unfold recordBackupFailure. destruct (_ || _) eqn:E; [done|]. case_bool_decide; [done|].
  apply orb_false_iff in E as [E%negb_false_iff%isSome_true _]. split; cbn; try apply Hd.
  intros f [Hf|[<-|[]]]%in_app_iff; [by apply (ro_failures d Hd)|done].
Qed.
Lemma backup_finish_ok id e t : keeps runs_ok (finishBackupRun id e t).
Proof.
  intros d Hd. unfold finishBackupRun. cbv zeta. set (p := λ r, _). set (rows := update_where _ _ _). cbn [snd].
  assert (∀ x, In x rows → unfinished x = true → In x (bd_runs d)) as Hold.
  { intros x (y & Hy & ->)%update_In. destruct (p y); [|done]. by rewrite unfinished_finished. }
  split; cbn.
  - apply unique_keys_update; [done|apply Hd].
  - intros r r' Hr Hr' E E'. apply (ro_single d Hd); auto.
  - intros r (y & Hy & ->)%update_In. destruct (p y); [by eexists|]. by apply (ro_finished d Hd).
  - intros f Hf. apply by_key_is_Some; [done|]. by apply (ro_failures d Hd).
Qed.
Lemma steps_runs_ok steps d : runs_ok d → runs_ok (foldl backup_step_on d steps).
Proof.
  revert d. induction steps as [|s steps IH]; intros d Hd; cbn [foldl]; [done|]. apply IH.
  destruct s; cbn [backup_step_on]; [by destruct Hd; split|by apply backup_start_ok|by apply record_runs_ok|by apply backup_finish_ok|].
  by destruct Hd; split.
Qed.

(** After a finish, the run is over, whatever it was before. *)
Lemma finish_over id e t d : run_over id (finishBackupRun id e t d).2.
Proof.
  unfold finishBackupRun. cbv zeta. cbn [snd]. intros x (y & Hy & ->)%update_In Hid. unfold has_key in *.
  destruct (bool_decide (br_id y = id) && unfinished y) eqn:E; [by rewrite unfinished_finished|].
  apply andb_false_iff in E as [E%bool_decide_eq_false|E]; done.
Qed.

Lemma count_where_one {R} (p : R → bool) t : count_where p t = 1%nat → ∃ x, In x t ∧ p x = true.
Proof.
  unfold count_where, select. intros H. destruct (List.filter p t) as [|x l] eqn:E; [done|]. exists x.
  apply filter_In. rewrite E. by left.
Qed.
(** What a finish that changed a row reports. *)
Lemma finish_reports id e t d s d' : runs_ok d → finishBackupRun id e t d = (inr (Some s), d') →
  getBackupRun id d' = Some s ∧ rs_id s = id ∧ rs_status s = finish_status (be_status e) ∧ rs_snapshotIds s = be_snapshotIds e ∧
  rs_verified s = be_verified e ∧ rs_error s = be_error e.
Proof.
  intros Hd. unfold finishBackupRun. cbv zeta. set (p := λ r, _). set (d1 := d <| bd_runs := _ |>). case_bool_decide as Hc; [|done]. intros [= E <-].
  split; [done|]. apply count_where_one in Hc as (x & Hx & Hp). apply andb_prop in Hp as [Hid%bool_decide_eq_true Hun].
  unfold getBackupRun in E. unfold d1 in E at 2. cbn [bd_runs with_field set_to] in E. rewrite by_key_update in E by done.
  rewrite <-Hid in E. rewrite (by_key_unique _ _ x) in E by (done || apply Hd). cbn [fmap option_fmap option_map] in E.
  unfold p in E. unfold has_key in E. rewrite bool_decide_true, Hun in E by done. injection E as <-. cbn.
  split_and!; try done. induction (be_snapshotIds e) as [|i l IH]; [done|]. cbn. by f_equal.
Qed.
