(* ===== verification/MountReadiness.v ===== *)
(** * Is a directory there, and on the mount it should be on?

    packages/nas-tools/src/mount-readiness.ts.  The command [findmnt] is a
    parameter: its output is a text. *)
From Stdlib Require Import Ascii.
From S2P Require Import FileSystem Files Archives.
From S2P Require Import Prelude Json JsString JsonText JsText NasRoots.
Open Scope Z_scope.

#[global] Instance RootReadinessStatus_eq_dec : EqDecision RootReadinessStatus. Proof. solve_decision. Defined.

(** [s.split(/\s+/u)]. *)
Fixpoint words (s : string) : list string :=
  match s with
  | "" => [""]
  | String c s' =>
      let ws := words s' in
      if is_white c then (if match s' with String c' _ => is_white c' | "" => false end then ws else "" :: ws)
      else match ws with w :: ws => String c w :: ws | [] => [String c ""] end
  end%string.
Record mount_identity := MountIdentity {
  mi_source : option string; mi_uuid : option string; mi_fstype : option string; mi_target : option string }.
(** The row that [findmnt] wrote; its fields are texts or null. *)
Definition findmnt_row (parsed : json) : option (list (string * json)) :=
  let first := match prop (recordFrom (Some parsed)) "filesystems" with
               | Some (JArr l) => head l
               | Some (JObj ps) => prop ps "0"
               | Some (JStr (String c _)) => Some (JStr (String c ""))
               | _ => None
               end%string in
  if to_boolean first then Some (recordFrom first) else None.
Definition parseFindmnt (output : string) : option mount_identity :=
  match JSON_parse output ≫= findmnt_row with
  | Some row =>
      Some (MountIdentity (as_string (prop row "source")) (as_string (prop row "uuid")) (as_string (prop row "fstype"))
              (as_string (prop row "target")))
  | None =>
      match List.filter (λ s, negb (bool_decide (s = ""%string))) (trim <$> split_lines output) with
      | [] => None
      | line :: _ =>
          if startsWith "SOURCE" line && match drop_str 6 line with String c _ => is_white c | "" => false end%string then None else
          let parts := words line in
          Some (MountIdentity (parts !! 0%nat) (parts !! 1%nat) (parts !! 2%nat) (parts !! 3%nat))
      end
  end.

Section Readiness.
Context (pwd : string) (findmnt : string → exn + string).

(** [root.expectedX && root.expectedX !== identity.x] *)
Definition differs (expected actual : option string) : bool :=
  match expected with Some e => negb (bool_decide (e = ""%string)) && negb (bool_decide (actual = Some e)) | None => false end.
Definition not_covering (rootPath : string) (target : option string) : bool :=
  match target ≫= nonempty with
  | None => true
  | Some t =>
      let targetPath := resolve pwd [t] in
      negb (bool_decide (rootPath = targetPath)) && negb (startsWith (targetPath +:+ "/") rootPath)
  end.
Definition mount_mismatch (root : NasRootConfig) (i : mount_identity) : bool :=
  not_covering (resolve pwd [rc_path root]) (mi_target i) || differs (rc_expectedSource root) (mi_source i) ||
  differs (rc_expectedUuid root) (mi_uuid i) || differs (rc_expectedFstype root) (mi_fstype i).
Definition checkMountReadiness (root : NasRootConfig) (checkedAt : Z) : prog disk RootReadiness :=
  let answer status reason source uuid fstype := Readiness (rc_id root) status checkedAt reason source uuid fstype in
  missing ← try_catch (_ ← access (rc_path root); mret None)
    (λ e, mret (Some (if bool_decide (exn_code e = Some "ENOENT"%string) then "path not found" else "path not accessible")%string));
  match missing : option string with
  | Some reason => mret (answer root_not_ready (Some reason) None None None)
  | None =>
      if bool_decide ((rc_mountPolicy root ⁇ mount_optional) = mount_optional) then mret (answer root_ready None None None None) else
      match findmnt (rc_path root) with
      | inl _ => mret (answer root_unknown (Some "findmnt unavailable"%string) None None None)
      | inr output =>
          match parseFindmnt output with
          | None => mret (answer root_unknown (Some "unable to parse mount identity"%string) None None None)
          | Some i =>
              let mismatch := mount_mismatch root i in
              mret (answer (if mismatch then root_not_ready else root_ready)
                      (if mismatch then Some (if not_covering (resolve pwd [rc_path root]) (mi_target i)
                                              then "path is not covered by a dedicated mount" else "mount identity mismatch")%string
                       else None)
                      (mi_source i) (mi_uuid i) (mi_fstype i))
          end
      end
  end.

(** The directory is there, and when a mount is required, it is the one that
    is expected and covers the directory. *)
Definition mounted (f : fs) (root : NasRootConfig) : Prop :=
  (∃ q, follow f (rc_path root) = inr q ∧ is_Some (f !! q)) ∧
  ((rc_mountPolicy root ⁇ mount_optional) = mount_required →
     ∃ output i, findmnt (rc_path root) = inr output ∧ parseFindmnt output = Some i ∧ mount_mismatch root i = false).

Lemma readiness_looks root t s : ∃ r s', checkMountReadiness root t s = (inr r, s') ∧ dk_fs s' = dk_fs s.
Proof.
  unfold checkMountReadiness. cbv zeta. unfold access.
  destruct (stat (rc_path root) s) as [[e|n] s1] eqn:E; pose proof E as [F _]%query_effect.
  - unfold try_catch, mbind, prog_bind. rewrite E. by eexists _, _.
  - unfold try_catch, mbind, prog_bind. rewrite E. cbn.
    case_bool_decide; [by eexists _, _|]. destruct (findmnt _); [by eexists _, _|]. destruct (parseFindmnt _); by eexists _, _.
Qed.
Lemma readiness_ready root t s r s' : checkMountReadiness root t s = (inr r, s') → rr_status r = root_ready → mounted (dk_fs s) root.
Proof.
  unfold checkMountReadiness. cbv zeta. unfold access. intros (missing & s1 & H1 & H)%bind_inv Hr.
  destruct missing as [reason|]; [by injection H as <- <-|]. unfold try_catch in H1.
  destruct ((_ ← (_ ← stat (rc_path root); mret tt); mret None) s) as [[e|o] s2] eqn:E; [done|].
  apply bind_inv in E as ([] & s3 & E & _). apply bind_inv in E as (n & s4 & E & _). apply query_effect in E as [_ E].
  specialize (E n eq_refl). destruct (follow _ _) as [|q] eqn:Ef; [done|]. split.
  - exists q. split; [done|]. destruct (dk_fs s !! q); [by eexists|done].
  - intros Hm. rewrite Hm in H. cbn in H. destruct (findmnt _) as [|output]; [by injection H as <- <-|].
    destruct (parseFindmnt output) as [i|] eqn:Ei; [|by injection H as <- <-]. injection H as <- <-. cbn in Hr.
    exists output, i. split_and!; try done. by destruct (mount_mismatch root i).
Qed.
End Readiness.

Example findmnt_outputs :
  words "a  b c" = ["a"; "b"; "c"]%string ∧
  parseFindmnt "/dev/sdb1 1-2 ext4 /data" = Some (MountIdentity (Some "/dev/sdb1") (Some "1-2") (Some "ext4") (Some "/data"))%string ∧
  parseFindmnt "SOURCE UUID" = None ∧ parseFindmnt "" = None.
Proof. by vm_compute. Qed.
