(* ===== verification/BackupManifest.v ===== *)
(** * What a backup holds of the program's own state

    apps/backup/src/backup.ts: the staging directory with a copy of the
    database and of the trash, its manifest with the checksums of the files,
    and the check of a restored one.  The hash function is a parameter.

    A directory nests less deep than a path has characters: [PATH_MAX] is the
    depth at which the system refuses a path. *)
From Stdlib Require Import Ascii QArith.
From stdpp Require Import pretty.
From S2P Require Import FileSystem Files PathSafety MountReadiness.
From S2P Require Import Prelude Json JsString JsonText JsText NasRoots Config.
Open Scope Z_scope.

Definition PATH_MAX : nat := 4096.
Definition too_long : exn := ErrnoException "ENAMETOOLONG".

(** [JSON.stringify(v, null, 2)]. *)
Definition indent (n : nat) : string := String line_feed (join "" (replicate n "  ")).
Fixpoint JSON_pretty (n : nat) (v : json) : string :=
  match v with
  | JArr [] => "[]"
  | JArr l => "[" +:+ indent (S n) +:+ join ("," +:+ indent (S n)) (JSON_pretty (S n) <$> l) +:+ indent n +:+ "]"
  | JObj [] => "{}"
  | JObj ps =>
      "{" +:+ indent (S n) +:+ join ("," +:+ indent (S n)) ((λ p, quote p.1 +:+ ": " +:+ JSON_pretty (S n) p.2) <$> ps) +:+
      indent n +:+ "}"
  | v => JSON_stringify v
  end.

(** ** Making the staging directory *)
Fixpoint copyTreeNoSymlinks (fuel : nat) (sourcePath destinationPath : string) : prog disk unit :=
  match fuel with
  | O => throw too_long
  | S fuel =>
      sourceStat ← lstat sourcePath;
      match sourceStat with
      | Link _ => mret tt
      | Dir =>
          _ ← mkdir_recursive destinationPath;
          names ← readdir sourcePath;
          for_each (λ x, copyTreeNoSymlinks fuel (path_join [sourcePath; x]) (path_join [destinationPath; x])) names
      | File _ => copyFile sourcePath destinationPath
      end
  end.

Section Manifest.
Context (pwd : string) (sha256 : string → string).

Definition hashFile (p : string) : prog disk string := sha256 <$> readFile p.
Fixpoint checksums_in (fuel : nat) (directoryPath : string) (relativeDirectory : string) : prog disk (list (string * string)) :=
  match fuel with
  | O => throw too_long
  | S fuel =>
      names ← readdir directoryPath;
      files ← map_m (λ x,
        if bool_decide (relativeDirectory = "" ∧ x = "manifest.json") then mret [] else
        let absolutePath := path_join [directoryPath; x] in
        let relativePath := path_join [relativeDirectory; x] in
        entryStat ← lstat absolutePath;
        match entryStat with
        | Link _ => mret []
        | Dir => checksums_in fuel absolutePath relativePath
        | File _ => h ← hashFile absolutePath; mret [(relativePath, h)]
        end) names;
      mret (concat files)
  end.
Definition collectChecksums (rootPath : string) : prog disk (list (string * string)) := checksums_in PATH_MAX rootPath "".

Record BackupManifest := Manifest {
  mf_runId : string; mf_createdAt : string; mf_roots : list (string * string); mf_checksums : list (string * string) }.
Definition createManifest (runId createdAt : string) (roots : list NasRootConfig) (stagingPath : string) : prog disk BackupManifest :=
  checksums ← collectChecksums stagingPath;
  mret (Manifest runId createdAt ((λ r, (rc_id r, rc_path r)) <$> roots) checksums).
Definition manifest_json (m : BackupManifest) : json :=
  JObj [("version", int 1); ("runId", JStr (mf_runId m)); ("createdAt", JStr (mf_createdAt m));
        ("roots", JArr ((λ r, JObj [("rootId", JStr r.1); ("path", JStr r.2)]) <$> mf_roots m)); ("database", JStr "zos.sqlite");
        ("checksums", JObj ((λ c, (c.1, JStr c.2)) <$> mf_checksums m))].

(** ** Checking a restored one *)
Definition is_one (v : option json) : bool := strict_eq v (Some (int 1)).
Definition manifest_like (v : json) : bool :=
  let ps := recordFrom (Some v) in is_one (prop ps "version") && is_array (prop ps "roots") && is_str (prop ps "database") "zos.sqlite".
(** The manifests below a directory: no more than two are looked for, nor any
    below the twelfth level. *)
Fixpoint manifests_in (levels : nat) (directoryPath : string) (matches : list string) : prog disk (list string) :=
  match levels with
  | O => mret matches
  | S levels =>
      if bool_decide (1 < length matches)%nat then mret matches else
      entries ← readdir_types directoryPath;
      (fix each (entries : list (string * node)) (matches : list string) : prog disk (list string) :=
         match entries with
         | [] => mret matches
         | (x, n) :: entries =>
             if bool_decide (1 < length matches)%nat then mret matches else
             let absolutePath := path_join [directoryPath; x] in
             if bool_decide (x = "manifest.json") && is_file n then
               found ← try_catch (text ← readFile absolutePath; mret (from_option manifest_like false (JSON_parse text))) (λ _, mret false);
               each entries (if found : bool then matches ++ [absolutePath] else matches)
             else if is_dir n then matches ← manifests_in levels absolutePath matches; each entries matches
             else each entries matches
         end) entries matches
  end.
Definition findManifest (rootPath : string) : prog disk (option string) :=
  matches ← manifests_in 13 rootPath [];
  mret (match matches with [p] => Some p | _ => None end).

Definition resolveManifestPath (rootPath relativePath : string) : exn + string :=
  let escapes := Error "restore manifest path escapes staging" in
  if isAbsolute relativePath then inl (Error "restore manifest path must be relative") else
  let normalized := normalize relativePath in
  if bool_decide (normalized = "..") || startsWith "../" normalized then inl escapes else
  let absolutePath := resolve pwd [rootPath; normalized] in
  let resolvedRoot := resolve pwd [rootPath] in
  if negb (bool_decide (absolutePath = resolvedRoot)) && negb (startsWith (resolvedRoot +:+ "/") absolutePath) then inl escapes
  else inr absolutePath.
Definition hex_hash (s : string) : bool := bool_decide (len s = 64) && all_chars is_hex s.

Definition check_manifest_root (config : ZosConfig) (root : json) : exn + unit :=
  let ps := recordFrom (Some root) in
  match as_string (prop ps "rootId"), as_string (prop ps "path") with
  | Some rootId, Some path =>
      match configured (zc_nasRoots config) rootId with
      | None => inl (Error ("restore manifest references unknown root: " +:+ rootId))
      | Some r =>
          if bool_decide (resolve pwd [rc_path r] = resolve pwd [path]) then inr tt
          else inl (Error ("restore manifest root path mismatch: " +:+ rootId))
      end
  | _, _ => inl (Error "restore manifest root validation failed")
  end.
(** [Object.entries(v)] of an object or array. *)
Definition entries_of (v : option json) : option (list (string * json)) :=
  match v with
  | Some (JObj ps) => Some ps
  | Some (JArr l) => Some (imap (λ i x, (pretty i, x)) l)
  | _ => None
  end.
Definition check_file (manifestRoot : string) (entry : string * json) : prog disk unit :=
  text ← check (string_of entry.2);
  _ ← guard_throw (negb (hex_hash text)) (Error "restore manifest checksum is invalid");
  absolutePath ← check (resolveManifestPath manifestRoot entry.1);
  entryStat ← try_catch (Some <$> lstat absolutePath) (λ _, mret None);
  _ ← guard_throw (negb (from_option is_file false entryStat)) (Error ("restore manifest file missing: " +:+ entry.1));
  actualHash ← hashFile absolutePath;
  guard_throw (negb (is_str (Some entry.2) actualHash)) (Error ("restore manifest checksum mismatch: " +:+ entry.1)).
Definition validateManifest (manifest : json) (manifestRoot : string) (config : ZosConfig) : prog disk unit :=
  let ps := recordFrom (Some manifest) in
  let failed := Error "restore manifest validation failed" in
  _ ← guard_throw (is_null_json (Some manifest)) (TypeError "Cannot read properties of null (reading 'version')");
  _ ← guard_throw (negb (is_one (prop ps "version") && to_boolean (prop ps "runId"))) failed;
  match prop ps "roots" with
  | Some (JArr roots) =>
      _ ← guard_throw (negb (is_str (prop ps "database") "zos.sqlite")) failed;
      _ ← check (check_each (check_manifest_root config) roots);
      match entries_of (prop ps "checksums") with
      | None => throw (Error "restore manifest checksums missing")
      | Some entries =>
          _ ← guard_throw (negb (bool_decide ("zos.sqlite" ∈ entries.*1))) (Error "restore manifest database checksum missing");
          for_each (check_file manifestRoot) entries
      end
  | _ => throw failed
  end.
End Manifest.

Lemma resolveManifestPath_join pwd d q : d ≠ [] → Forall plain_name d → q ≠ [] → Forall plain_name q →
  resolveManifestPath pwd (rooted d) (join "/" q) = inr (rooted (d ++ q)).
Proof.
  intros Hne Hd Hqe Hq. unfold resolveManifestPath. cbv zeta. destruct (join_relative q Hqe Hq) as [H1 H2]. rewrite H2.
  rewrite normalize_join by done. destruct (dots_front q Hqe Hq) as [H3 H4]. rewrite H3, bool_decide_false by done. cbn [orb].
  rewrite resolve_join, resolve_one by done.
  rewrite (proj2 (rooted_prefix d (d ++ q) Hd ltac:(by apply plain_app) Hne)) by (by exists q).
  by rewrite andb_false_r.
Qed.

(** ** The checksums *)
Section Checksums.
Context (pwd : string) (sha256 : string → string).

(** The files below [d ++ r] that the manifest records, by their path below [d]. *)
Definition recorded (f : fs) (d r : list string) (rel h : string) : Prop :=
  ∃ q data, f !! (d ++ r ++ q) = Some (File data) ∧ q ≠ [] ∧ head (r ++ q) ≠ Some "manifest.json" ∧ rel = join "/" (r ++ q) ∧ h = sha256 data.

Lemma map_m_inr {A B} (m : A → prog disk B) l s ys s' (P : A → B → Prop) :
  (∀ x s1 y s2, x ∈ l → dk_fs s1 = dk_fs s → m x s1 = (inr y, s2) → dk_fs s2 = dk_fs s ∧ P x y) →
  map_m m l s = (inr ys, s') → dk_fs s' = dk_fs s ∧ Forall2 P l ys.
Proof.
  assert (∀ F, (∀ x s1 y s2, x ∈ l → dk_fs s1 = F → m x s1 = (inr y, s2) → dk_fs s2 = F ∧ P x y) →
    ∀ s ys s', dk_fs s = F → map_m m l s = (inr ys, s') → dk_fs s' = F ∧ Forall2 P l ys) as H; [|by intros H1 H2; eapply H].
  intros F. clear s ys s'. induction l as [|x l IH]; intros Hm s ys s' Hs H; cbn [map_m] in H; [by injection H as <- <-|].
  apply bind_inv in H as (y & s1 & H1 & H). apply bind_inv in H as (ys' & s2 & H2 & H). injection H as <- <-.
  destruct (Hm x s y s1 ltac:(apply list_elem_of_here) Hs H1) as [F1 P1].
  destruct (IH ltac:(intros; eapply Hm; [by apply list_elem_of_further|done|done]) s1 ys' s2 F1 H2) as [F2 P2].
  split; [done|]. by constructor.
Qed.
Lemma lstat_at p s n s' : lstat p s = (inr n, s') → entry_at (dk_fs s) p = inr n ∧ dk_fs s' = dk_fs s.
Proof. intros [F H]%query_effect. by split; [apply H|]. Qed.
Lemma readFile_at p s data s' : readFile p s = (inr data, s') → content_at (dk_fs s) p = inr data ∧ dk_fs s' = dk_fs s.
Proof. intros [F H]%query_effect. by split; [apply H|]. Qed.
Lemma hashFile_at p s h s' : hashFile sha256 p s = (inr h, s') →
  ∃ data, content_at (dk_fs s) p = inr data ∧ h = sha256 data ∧ dk_fs s' = dk_fs s.
Proof.
  unfold hashFile, fmap, prog_fmap. destruct (readFile p s) as [[e|data] s1] eqn:E; [done|]. intros [= <- <-].
  apply readFile_at in E as [H F]. by exists data.
Qed.
Lemma entry_at_real f p n : wf f → f !! p = Some n → entry_at f (rooted p) = inr n.
Proof. intros Hwf H. unfold entry_at. by rewrite (locate_real f p n), H. Qed.
Lemma content_at_real f p data : wf f → f !! p = Some (File data) → content_at f (rooted p) = inr data.
Proof. intros Hwf H. unfold content_at. by rewrite (follow_real f p (File data)), H. Qed.

Lemma recorded_child f d r rel h : wf f → head r ≠ Some "manifest.json" →
  recorded f d r rel h ↔ ∃ x n, f !! (d ++ r ++ [x]) = Some n ∧ (r = [] → x ≠ "manifest.json") ∧
    match n with
    | File data => rel = join "/" (r ++ [x]) ∧ h = sha256 data
    | Dir => recorded f d (r ++ [x]) rel h
    | Link _ => False
    end.
Proof.
  intros Hwf Hr. split.
  - intros (q & data & Hf & Hq & Hhead & -> & ->). destruct q as [|x q]; [done|].
    assert (r = [] → x ≠ "manifest.json") as Hx by (intros ->; intros ->; by apply Hhead).
    destruct q as [|y q]; [by exists x, (File data)|]. exists x, Dir. split_and!; [|done|].
    + apply (wf_above f _ (y :: q) (File data) Hwf); [|done]. by rewrite <-!app_assoc.
    + exists (y :: q), data. rewrite <-!app_assoc. by split_and!.
  - intros (x & n & Hn & Hx & H). destruct n as [|data|]; [| |done].
    + destruct H as (q & data & Hf & Hq & Hhead & -> & ->). exists (x :: q), data. rewrite <-!app_assoc in Hf, Hhead. rewrite <-!app_assoc. by split_and!.
    + destruct H as [-> ->]. exists [x], data. split_and!; try done. destruct r as [|y r].
      * intros [= ->]. by apply Hx.
      * done.
Qed.

Lemma checksums_ok fuel d r s l s' : wf (dk_fs s) → dk_fs s !! (d ++ r) = Some Dir → head r ≠ Some "manifest.json" →
  checksums_in sha256 fuel (rooted (d ++ r)) (join "/" r) s = (inr l, s') →
  dk_fs s' = dk_fs s ∧ ∀ rel h, In (rel, h) l ↔ recorded (dk_fs s) d r rel h.
Proof.
  revert r s l s'. induction fuel as [|fuel IH]; intros r s l s' Hwf Hdir Hr H; [done|]. cbn [checksums_in] in H.
  apply bind_inv in H as (names & s1 & H1 & H). apply bind_inv in H as (files & s2 & H2 & H). injection H as <- <-.
  apply query_effect in H1 as [F1 H1]. specialize (H1 names eq_refl). rewrite (follow_real _ _ Dir) in H1 by done. rewrite Hdir in H1.
  injection H1 as <-. pose proof (wf_plain _ Hwf _ _ Hdir) as Hpl. pose proof (proj1 (plain_app d r) Hpl) as [_ Hplr].
  apply (map_m_inr _ _ _ _ _ (λ x y, ∀ rel h, In (rel, h) y ↔ ∃ n, dk_fs s !! (d ++ r ++ [x]) = Some n ∧ (r = [] → x ≠ "manifest.json") ∧
    match n with
    | File data => rel = join "/" (r ++ [x]) ∧ h = sha256 data
    | Dir => recorded (dk_fs s) d (r ++ [x]) rel h
    | Link _ => False
    end)) in H2 as [F2 H2].
  - split; [congruence|]. intros rel h. rewrite recorded_child by done. rewrite in_concat. split.
    + intros (y & Hy & Hin). apply list_elem_of_In, list_elem_of_lookup_1 in Hy as [i Hi].
      destruct (Forall2_lookup_r _ _ _ _ _ H2 Hi) as (x & _ & Hx). destruct (proj1 (Hx rel h) Hin) as (n & Hn & Hx1 & Hm). by exists x, n.
    + intros (x & n & Hn & Hx & Hm). assert (x ∈ children (d ++ r) (dk_fs s)) as Hc by (apply children_elem; rewrite <-app_assoc; by exists n).
      apply list_elem_of_lookup_1 in Hc as [i Hi]. destruct (Forall2_lookup_l _ _ _ _ _ H2 Hi) as (y & Hy & Hp).
      exists y. split; [by apply list_elem_of_In, list_elem_of_lookup_2 with i|]. apply Hp. by exists n.
  - intros x s3 y s4 Hx F3 Hm. rewrite F1 in *.
    apply children_elem in Hx as [n Hn]. rewrite <-app_assoc in Hn. pose proof (wf_plain _ Hwf _ _ Hn) as Hpx.
    apply plain_app in Hpx as [_ [_ [Hplx _]%Forall_cons]%plain_app]. case_bool_decide as Esk.
    + injection Hm as <- <-. split; [done|]. intros rel h. destruct Esk as [Er ->].
      assert (r = []) as -> by (destruct r as [|z r]; [done|]; by destruct (join_relative (z :: r) ltac:(done) Hplr)).
      split; [done|]. intros (n' & _ & Hx & _). by destruct (Hx eq_refl).
    + rewrite path_join_rooted, path_join_names in Hm by done. rewrite <-app_assoc in Hm.
      apply bind_inv in Hm as (n' & s5 & Hl & Hm). apply lstat_at in Hl as [Hl F5]. rewrite F3, (entry_at_real _ _ n) in Hl by done.
      injection Hl as <-. assert (r = [] → x ≠ "manifest.json") as Hname by (intros -> ->; by apply Esk). destruct n as [|data|target].
      * destruct (IH (r ++ [x]) s5 y s4) as [F4 H4]; [by rewrite F5, F3|by rewrite F5, F3| |done|].
        { destruct r as [|z r]; [|done]. intros [= ->]. by apply Hname. }
        split; [congruence|]. intros rel h. rewrite H4, F5, F3. split; [by exists Dir|]. intros (n' & Hn' & _ & Hrec).
        rewrite Hn in Hn'. by injection Hn' as <-.
      * apply bind_inv in Hm as (h' & s6 & Hh & Hm). injection Hm as <- <-. apply hashFile_at in Hh as (data' & Hc & -> & F6).
        rewrite F5, F3, (content_at_real _ _ data) in Hc by done. injection Hc as <-. split; [congruence|]. intros rel h. split.
        -- intros [[= <- <-]|[]]. by exists (File data).
        -- intros (n' & Hn' & _ & Hrec). rewrite Hn in Hn'. injection Hn' as <-. destruct Hrec as [-> ->]. by left.
      * injection Hm as <- <-. split; [congruence|]. intros rel h. split; [done|]. intros (n' & Hn' & _ & Hrec).
        rewrite Hn in Hn'. by injection Hn' as <-.
Qed.

Lemma map_m_total {A B} (m : A → prog disk B) l s : (∀ x, x ∈ l → ∃ y, m x s = (inr y, s)) → ∃ ys, map_m m l s = (inr ys, s).
Proof.
  induction l as [|x l IH]; intros Hm; cbn [map_m]; [by eexists|].
  destruct (Hm x ltac:(apply list_elem_of_here)) as [y Hy]. destruct IH as [ys Hys]; [intros; apply Hm; by apply list_elem_of_further|].
  rewrite (bind_inr _ _ _ _ _ Hy), (bind_inr _ _ _ _ _ Hys). by eexists.
Qed.
Lemma query_run {A} (q : fs → exn + A) f a : q f = inr a → query q (Disk f []) = (inr a, Disk f []).
Proof. intros H. unfold query, call. cbn. by rewrite H. Qed.
Lemma checksums_total fuel d r f : wf f → f !! (d ++ r) = Some Dir → (∀ q n, f !! (d ++ r ++ q) = Some n → (length q < fuel)%nat) →
  ∃ l, checksums_in sha256 fuel (rooted (d ++ r)) (join "/" r) (Disk f []) = (inr l, Disk f []).
Proof.
  revert r. induction fuel as [|fuel IH]; intros r Hwf Hdir Hdepth.
  - specialize (Hdepth [] Dir). rewrite app_nil_r in Hdepth. specialize (Hdepth Hdir). lia.
  - cbn [checksums_in]. pose proof (wf_plain _ Hwf _ _ Hdir) as Hpl. pose proof (proj1 (plain_app d r) Hpl) as [_ Hplr].
    rewrite (bind_inr _ _ _ (children (d ++ r) f) (Disk f [])); [|by apply query_run; rewrite (follow_real f _ Dir), Hdir by done].
    set (m := λ x : string, _). destruct (map_m_total m (children (d ++ r) f) (Disk f [])) as [ys Hys].
    + intros x [n Hn]%children_elem. rewrite <-app_assoc in Hn. pose proof (wf_plain _ Hwf _ _ Hn) as Hpx.
      apply plain_app in Hpx as [_ [_ [Hplx _]%Forall_cons]%plain_app]. unfold m. case_bool_decide; [by eexists|].
      rewrite path_join_rooted, path_join_names by done. rewrite <-app_assoc.
      rewrite (bind_inr _ _ _ n (Disk f [])); [|apply query_run; by apply (entry_at_real f _ n)].
      destruct n as [|data|]; [| |by eexists].
      * apply IH; [done|done|]. intros q n Hq. rewrite <-!app_assoc in Hq. specialize (Hdepth (x :: q) n Hq). cbn in Hdepth. lia.
      * unfold hashFile. rewrite (bind_inr _ _ _ (sha256 data) (Disk f [])); [by eexists|].
        unfold fmap, prog_fmap, readFile. by rewrite (query_run _ f data) by (by apply content_at_real).
    + rewrite (bind_inr _ _ _ _ _ Hys). by eexists.
Qed.
End Checksums.

(** ** Restored files *)
Section Restored.
Context (pwd : string) (sha256 : string → string).
Hypothesis sha256_hex : ∀ s, hex_hash (sha256 s) = true.

Lemma for_each_run {A} (m : A → prog disk unit) l s : (∀ x, In x l → m x s = (inr tt, s)) → for_each m l s = (inr tt, s).
Proof.
  induction l as [|x l IH]; intros Hm; cbn [for_each]; [done|]. rewrite (bind_inr _ _ _ _ _ (Hm x (or_introl eq_refl))).
  apply IH. intros. apply Hm. by right.
Qed.
Lemma check_each_inr {A} (c : A → exn + unit) l : (∀ x, In x l → c x = inr tt) → check_each c l = inr tt.
Proof. induction l as [|x l IH]; intros Hc; cbn [check_each]; [done|]. rewrite (Hc x (or_introl eq_refl)). apply IH. intros. apply Hc. by right. Qed.
Lemma check_file_run f d q data : wf f → d ≠ [] → Forall plain_name d → q ≠ [] → f !! (d ++ q) = Some (File data) →
  check_file pwd sha256 (rooted d) (join "/" q, JStr (sha256 data)) (Disk f []) = (inr tt, Disk f []).
Proof.
  intros Hwf Hne Hd Hq Hf. pose proof (wf_plain _ Hwf _ _ Hf) as [_ Hpq]%plain_app. unfold check_file. cbn [fst snd string_of].
  rewrite (bind_inr _ _ _ (sha256 data) (Disk f [])) by done. rewrite sha256_hex. rewrite (bind_inr _ _ _ tt (Disk f [])) by done.
  rewrite resolveManifestPath_join by done. rewrite (bind_inr _ _ _ (rooted (d ++ q)) (Disk f [])) by done.
  assert (lstat (rooted (d ++ q)) (Disk f []) = (inr (File data), Disk f [])) as Hl by (by apply query_run, entry_at_real).
  rewrite (bind_inr _ _ _ (Some (File data)) (Disk f [])); [|unfold try_catch, fmap, prog_fmap; by rewrite Hl].
  cbn [from_option is_file negb]. rewrite (bind_inr _ _ _ tt (Disk f [])) by done.
  assert (readFile (rooted (d ++ q)) (Disk f []) = (inr data, Disk f [])) as Hr by (by apply query_run, content_at_real).
  rewrite (bind_inr _ _ _ (sha256 data) (Disk f [])); [|unfold hashFile, fmap, prog_fmap; by rewrite Hr].
  by rewrite (proj2 (is_str_Some _ _) eq_refl).
Qed.
Lemma check_file_inr d e s s' u : check_file pwd sha256 d e s = (inr u, s') → dk_fs s' = dk_fs s ∧
  ∃ p n data, resolveManifestPath pwd d e.1 = inr p ∧ entry_at (dk_fs s) p = inr (File n) ∧ content_at (dk_fs s) p = inr data ∧ e.2 = JStr (sha256 data).
Proof.
  unfold check_file. intros (text & s1 & H1 & H)%bind_inv. injection H1 as H1 <-. apply bind_inv in H as ([] & s1 & [_ ->]%guard_inv & H).
  apply bind_inv in H as (p & s1 & Hp & H). injection Hp as Hp <-. apply bind_inv in H as (st & s2 & Hst & H).
  apply bind_inv in H as ([] & s3 & [Hfile%negb_false_iff ->]%guard_inv & H). apply bind_inv in H as (h & s3 & Hh & H).
  apply guard_inv in H as [H%negb_false_iff ->]. apply is_str_Some in H. injection H as He.
  apply hashFile_at in Hh as (data & Hc & -> & F3).
  unfold try_catch, fmap, prog_fmap in Hst. destruct (lstat p s) as [[ex|n] s4] eqn:El.
  - injection Hst as <- _. done.
  - injection Hst as <- <-. apply lstat_at in El as [El F4]. split; [congruence|]. destruct n as [|n|]; try done.
    exists p, n, data. split_and!; try done. by rewrite <-F4.
Qed.
Lemma for_each_inr {A} (m : A → prog disk unit) (P : fs → A → Prop) l s u s' :
  (∀ x s u s', m x s = (inr u, s') → dk_fs s' = dk_fs s ∧ P (dk_fs s) x) →
  for_each m l s = (inr u, s') → dk_fs s' = dk_fs s ∧ ∀ x, In x l → P (dk_fs s) x.
Proof.
  intros Hm. revert s. induction l as [|x l IH]; intros s H; cbn [for_each] in H; [by injection H as _ <-|].
  apply bind_inv in H as (v & s1 & [F1 H1]%Hm & H). apply IH in H as [F2 H2]. split; [congruence|].
  intros y [<-|Hy]; [done|]. rewrite <-F1. by apply H2.
Qed.
Lemma check_manifest_root_made config id path :
  check_manifest_root pwd config (JObj [("rootId", JStr id); ("path", JStr path)]) =
    match configured (zc_nasRoots config) id with
    | None => inl (Error ("restore manifest references unknown root: " +:+ id))
    | Some r => if bool_decide (resolve pwd [rc_path r] = resolve pwd [path]) then inr tt
                else inl (Error ("restore manifest root path mismatch: " +:+ id))
    end.
Proof. done. Qed.
(** A manifest of the code's own making is refused for its files only. *)
Lemma validate_made m d config s : mf_runId m ≠ "" → NoDup (rc_id <$> zc_nasRoots config) →
  mf_roots m = (λ r, (rc_id r, rc_path r)) <$> zc_nasRoots config → "zos.sqlite" ∈ (mf_checksums m).*1 →
  validateManifest pwd sha256 (manifest_json m) d config s =
    for_each (check_file pwd sha256 d) ((λ c, (c.1, JStr c.2)) <$> mf_checksums m) s.
Proof.
  intros Hid Hnd Hroots Hdb. unfold validateManifest. set (ps := recordFrom (Some (manifest_json m))). cbv zeta.
  assert (to_boolean (prop ps "runId") = true) as Hrun by (change (prop ps "runId") with (Some (JStr (mf_runId m))); cbn; by rewrite bool_decide_false).
  rewrite (bind_inr _ _ _ tt s) by done. rewrite Hrun. rewrite (bind_inr _ _ _ tt s) by done.
  change (prop ps "roots") with (Some (JArr ((λ r, JObj [("rootId", JStr r.1); ("path", JStr r.2)]) <$> mf_roots m))). cbv iota beta.
  rewrite (bind_inr _ _ _ tt s) by done. rewrite (bind_inr _ _ _ tt s).
  - change (entries_of (prop ps "checksums")) with (Some ((λ c, (c.1, JStr c.2)) <$> mf_checksums m)). cbv iota beta.
    rewrite (bind_inr _ _ _ tt s); [done|]. rewrite bool_decide_true; [done|]. rewrite <-list_fmap_compose. apply Hdb.
  - unfold check. f_equal. apply check_each_inr. intros x (r & <- & Hr)%in_map_iff. rewrite Hroots in Hr. apply in_map_iff in Hr as (c & <- & Hc).
    cbn [fst snd]. rewrite check_manifest_root_made, (configured_In _ c Hnd Hc). by rewrite bool_decide_true.
Qed.
Lemma validate_inr m d config s u s' : validateManifest pwd sha256 (manifest_json m) d config s = (inr u, s') →
  dk_fs s' = dk_fs s ∧ ∀ rel h, In (rel, h) (mf_checksums m) →
    ∃ p n data, resolveManifestPath pwd d rel = inr p ∧ entry_at (dk_fs s) p = inr (File n) ∧ content_at (dk_fs s) p = inr data ∧ h = sha256 data.
Proof.
  unfold validateManifest. set (ps := recordFrom (Some (manifest_json m))). cbv zeta.
  intros ([] & s1 & [_ ->]%guard_inv & H)%bind_inv. apply bind_inv in H as ([] & s1 & [_ ->]%guard_inv & H).
  change (prop ps "roots") with (Some (JArr ((λ r, JObj [("rootId", JStr r.1); ("path", JStr r.2)]) <$> mf_roots m))) in H. cbv iota beta in H.
  apply bind_inv in H as ([] & s1 & [_ ->]%guard_inv & H). apply bind_inv in H as ([] & s1 & [= _ <-] & H).
  change (entries_of (prop ps "checksums")) with (Some ((λ c, (c.1, JStr c.2)) <$> mf_checksums m)) in H. cbv iota beta in H.
  apply bind_inv in H as ([] & s1 & [_ ->]%guard_inv & H).
  apply (for_each_inr _ (λ f e, ∃ p n data, resolveManifestPath pwd d e.1 = inr p ∧ entry_at f p = inr (File n) ∧ content_at f p = inr data ∧
    e.2 = JStr (sha256 data))) in H as [F H]; [|intros x s0 u0 s0'; apply check_file_inr].
  split; [done|]. intros rel h Hin. destruct (H (rel, JStr h)) as (p & n & data & H1 & H2 & H3 & [= H4]); [|by exists p, n, data].
  apply in_map_iff. by exists (rel, h).
Qed.

(** The files of a staging directory but its manifest. *)
Definition staged (f : fs) (d q : list string) (data : string) : Prop :=
  f !! (d ++ q) = Some (File data) ∧ q ≠ [] ∧ head q ≠ Some "manifest.json".

(** C30: The manifest that a backup writes into its staging directory records
    every file there: whatever tree the staging directory is restored into,
    and wherever, the check of the restored directory succeeds when each of
    its files is back with its content, and when it succeeds, each is there as
    a regular file with the checksum of the saved one. *)
Theorem restored_state_checked f d runId createdAt config
    (Hwf : wf f) (Hd : f !! d = Some Dir) (Hdepth : ∀ q n, f !! (d ++ q) = Some n → (length q < PATH_MAX)%nat)
    (Hdb : ∃ data, staged f d ["zos.sqlite"] data) (Hid : runId ≠ "") (Hroots : NoDup (rc_id <$> zc_nasRoots config)) :
  ∃ m, createManifest sha256 runId createdAt (zc_nasRoots config) (rooted d) (Disk f []) = (inr m, Disk f []) ∧
  (∀ f' d', wf f' → d' ≠ [] → Forall plain_name d' →
     (∀ q data, staged f d q data → f' !! (d' ++ q) = Some (File data)) →
     validateManifest pwd sha256 (manifest_json m) (rooted d') config (Disk f' []) = (inr tt, Disk f' [])) ∧
  (∀ s d' u s', d' ≠ [] → Forall plain_name d' →
     validateManifest pwd sha256 (manifest_json m) (rooted d') config s = (inr u, s') →
     dk_fs s' = dk_fs s ∧ ∀ q data, staged f d q data → ∃ n data', entry_at (dk_fs s) (rooted (d' ++ q)) = inr (File n) ∧
       content_at (dk_fs s) (rooted (d' ++ q)) = inr data' ∧ sha256 data' = sha256 data).
Proof.
  destruct (checksums_total sha256 PATH_MAX d [] f) as [l Hl]; [done|by rewrite app_nil_r|done|]. rewrite app_nil_r in Hl.
  pose proof Hl as Hl2. rewrite <-(app_nil_r d) in Hl2. apply checksums_ok in Hl2 as [_ Hrec]; [|done|by rewrite app_nil_r|done].
  cbn [dk_fs] in Hrec. exists (Manifest runId createdAt ((λ r, (rc_id r, rc_path r)) <$> zc_nasRoots config) l).
  assert (∀ q data, staged f d q data → In (join "/" q, sha256 data) l) as Hin.
  { intros q data (H1 & H2 & H3). apply Hrec. exists q, data. by split_and!. }
  split; [unfold createManifest, collectChecksums; by rewrite (bind_inr _ _ _ _ _ Hl)|]. split.
  - intros f' d' Hwf' Hne Hpl Hsame. rewrite validate_made; [|done|done|done|].
    + apply for_each_run. intros x ([rel h] & <- & Hx)%in_map_iff. cbn [fst snd]. cbn [mf_checksums] in Hx.
      apply Hrec in Hx as (q & data & Hf & Hq & Hh & -> & ->). cbn [app] in *. by apply check_file_run; [..|apply Hsame].
    + destruct Hdb as [data Hdata]. apply Hin in Hdata. apply list_elem_of_fmap. exists ("zos.sqlite", sha256 data). by rewrite list_elem_of_In.
  - intros s d' u s' Hne Hpl [F H]%validate_inr. split; [done|]. cbn [mf_checksums] in H. intros q data Hst.
    destruct (H _ _ (Hin q data Hst)) as (p & n & data' & H1 & H2 & H3 & H4). destruct Hst as (Hf & Hq & _).
    pose proof (wf_plain _ Hwf _ _ Hf) as [_ Hpq]%plain_app. rewrite resolveManifestPath_join in H1 by done. injection H1 as <-.
    by exists n, data'.
Qed.
End Restored.

Module ManifestDemo.
Definition config : ZosConfig := Eval vm_compute in
  match ConfigDemo.load [("ZOS_NAS_ROOTS", "media:Media:/srv/.zos/dev-root/data/media")] no_toml as r
    return match r with inr _ => ZosConfig | inl _ => unit end with inr c => c | inl _ => tt end.
Definition tree : fs := list_to_map
  [([], Dir); (["stage"], Dir); (["stage"; "zos.sqlite"], File "db"); (["stage"; "trash"], Dir); (["stage"; "trash"; "x"], File "old");
   (["stage"; "trash"; "out"], Link "/etc")].
Definition elsewhere : fs := list_to_map
  [([], Dir); (["r"], Dir); (["r"; "s"], Dir); (["r"; "s"; "zos.sqlite"], File "db"); (["r"; "s"; "trash"], Dir); (["r"; "s"; "trash"; "x"], File "old")].
Definition sha (s : string) : string := join "" (replicate 63 "a") +:+ (if bool_decide (s = "old") then "0" else "1").

(** A name above the staging directory is not followed out of it. *)
Example manifest_paths :
  resolveManifestPath "/" "/r/s" "trash/../../x" = inl (Error "restore manifest path escapes staging") ∧
  resolveManifestPath "/" "/r/s" "/etc/passwd" = inl (Error "restore manifest path must be relative") ∧
  resolveManifestPath "/" "/r/s" "trash/./x" = inr "/r/s/trash/x".
Proof. by vm_compute. Qed.

Lemma sha_hex s : hex_hash (sha s) = true.
Proof. unfold sha. destruct (bool_decide _); by vm_compute. Qed.
Lemma saved_tree_wf : wf tree ∧ wf elsewhere.
Proof. split; (apply wf_check; [reflexivity|]; apply (bool_decide_unpack _); vm_compute; exact I). Qed.
Lemma tree_files q data : staged tree ["stage"] q data → elsewhere !! (["r"; "s"] ++ q) = Some (File data).
Proof.
  intros (H & Hq & _). unfold tree in H. apply elem_of_list_to_map_2 in H. set_unfold.
  destruct_or?; simplify_eq; try done; by vm_compute.
Qed.
Lemma restored_state_checked_witness :
  ∃ m, createManifest sha "run" "1970" (zc_nasRoots config) "/stage" (Disk tree []) = (inr m, Disk tree []) ∧
    validateManifest "/" sha (manifest_json m) "/r/s" config (Disk elsewhere []) = (inr tt, Disk elsewhere []).
Proof.
  destruct (restored_state_checked "/" sha sha_hex tree ["stage"] "run" "1970" config) as (m & Hm & Hok & _).
  - apply saved_tree_wf.
  - reflexivity.
  - intros q n Hq. unfold tree in Hq. apply elem_of_list_to_map_2 in Hq. set_unfold. destruct_or?; simplify_eq; cbn; unfold PATH_MAX; lia.
  - by exists "db".
  - done.
  - apply (bool_decide_unpack _). vm_compute. exact I.
  - exists m. split; [exact Hm|]. apply (Hok elsewhere ["r"; "s"]); [apply saved_tree_wf|done| |apply tree_files].
    apply (bool_decide_unpack _). vm_compute. exact I.
Defined.
End ManifestDemo.
