(* ===== verification/BackupStaging.v ===== *)
(** * What is put into the staging directory of a backup

    The proofs about createSqliteSnapshot, copyTreeNoSymlinks and
    createManifest of apps/backup/src/backup.ts: in a new directory on a way
    without links, the database and the manifest are there when the directory
    is filled, whatever the copy of the trash came to. *)
From Stdlib Require Import Ascii QArith.
From S2P Require Import FileSystem Files PathSafety.
From S2P Require Import Prelude Json JsString JsonText JsText NasRoots Config BackupManifest.
Open Scope Z_scope.

(** ** One file *)
Lemma follow_clear f p q : wf f → clear f p → Forall plain_name p → follow f (rooted p) = inr q → q = p ∧ is_Some (f !! p).
Proof.
  intros Hwf Hc Hp H. assert (walk MAX_LINKS f [] p = inr q) as Hw.
  { rewrite <-H. unfold follow. destruct p as [|x p].
    - change (segments (rooted [])) with ([""; ""] : list string). unfold MAX_LINKS. cbn [walk]. by rewrite (wf_root f Hwf).
    - rewrite segments_rooted by done. unfold MAX_LINKS. cbn [walk]. by rewrite (wf_root f Hwf). }
  assert (f !! [] ≠ None) as Hroot by (by rewrite (wf_root f Hwf)).
  pose proof (walk_found _ f [] p q Hwf (ex_intro _ Dir (conj (wf_root f Hwf) eq_refl)) Hw) as (n & Hn & _).
  apply (walk_clear _ f [] p q Hwf Hroot Hc Hp) in Hw. subst q. split; [done|]. by exists n.
Qed.
Lemma writeFile_clear d x data s r s' : wf (dk_fs s) → clear (dk_fs s) (d ++ [x]) → Forall plain_name d → plain_name x →
  writeFile (rooted (d ++ [x])) data s = (r, s') →
  wf (dk_fs s') ∧ (dk_fs s' = dk_fs s ∨ dk_fs s' = <[d ++ [x] := File data]> (dk_fs s)) ∧
  ∀ u, r = inr u → dk_fs s' !! (d ++ [x]) = Some (File data).
Proof.
  intros Hwf Hc Hd Hx [[-> [e ->]]|H]%call_effect; [by split_and!; [|left|]|].
  assert (Forall plain_name (d ++ [x])) as Hpl by (apply Forall_app; split; [done|by constructor]).
  destruct (follow (dk_fs s) (rooted (d ++ [x]))) as [e|q] eqn:Ef.
  - destruct (negb _); [injection H as <- <-; by split_and!; [|left|]|].
    destruct (locate (dk_fs s) (rooted (d ++ [x]))) as [e2|q] eqn:El; [injection H as <- <-; by split_and!; [|left|]|].
    apply locate_clear in El as [-> Hdir]; [|done|by eapply clear_above|done..].
    case_bool_decide as Hn; injection H as <- <-; [|by split_and!; [|left|]]. split_and!; [by apply wf_insert|by right|].
    intros u _. by rewrite lookup_insert_eq.
  - apply follow_clear in Ef as [-> [n Hn]]; [|done..]. rewrite Hn in H.
    destruct n as [|old|t]; [|..|by specialize (Hc (d ++ [x]) [] (Link t) ltac:(by rewrite app_nil_r) Hn)]; injection H as <- <-.
    + by split_and!; [|left|].
    + split_and!; [by eapply wf_write|by right|]. intros u _. by rewrite lookup_insert_eq.
Qed.

(** ** The copy of the trash *)
(** Below [d] no link, elsewhere the tree [f0]. *)
Record beside (d : list string) (f0 f : fs) : Prop := Beside {
  bs_wf : wf f;
  bs_same : ∀ p, ¬ under d p → f !! p = f0 !! p;
  bs_clear : ∀ q n, f !! (d ++ q) = Some n → is_link n = false
}.
Section Copy.
Context (D : list string) (x : string) (f0 : fs).
Context (Hf0 : wf f0) (HD : f0 !! D = Some Dir) (Hx : plain_name x).

Lemma beside_parent f : beside (D ++ [x]) f0 f → f !! D = Some Dir.
Proof.
  intros H. rewrite (bs_same _ _ _ H); [done|]. intros [r E]. apply (f_equal length) in E. rewrite !length_app in E. cbn in E. lia.
Qed.
Lemma above_or_under q s t : (D ++ [x]) ++ q = s ++ t → (∃ t', D = s ++ t') ∨ under (D ++ [x]) s.
Proof.
  intros E. rewrite <-app_assoc in E. apply app_eq_inv in E as [(k & -> & _)|(k & -> & E2)]; [left; by exists k|].
  destruct k as [|y k]; [left; exists []; by rewrite !app_nil_r|]. injection E2 as -> _. right. exists k. by rewrite <-app_assoc.
Qed.
Lemma beside_clear f q : beside (D ++ [x]) f0 f → clear f ((D ++ [x]) ++ q).
Proof.
  intros H s t n E Hs. destruct (decide (under (D ++ [x]) s)) as [[r ->]|Hn]; [by eapply bs_clear|].
  destruct (above_or_under q s t E) as [[t' Ht]|?]; [|done].
  pose proof (clear_dir f D (bs_wf _ _ _ H) (beside_parent f H)) as Hc. by eapply Hc.
Qed.
Lemma beside_insert f q n : beside (D ++ [x]) f0 f → is_link n = false → wf (<[(D ++ [x]) ++ q := n]> f) →
  beside (D ++ [x]) f0 (<[(D ++ [x]) ++ q := n]> f).
Proof.
  intros H Hn Hwf. split; [done| |].
  - intros p Hp. rewrite lookup_insert_ne; [by apply (bs_same _ _ _ H)|]. intros <-. apply Hp. by exists q.
  - intros r m. rewrite lookup_insert_Some. intros [[_ <-]|[_ Hm]]; [done|by eapply bs_clear].
Qed.
Lemma keeps_looks {A} (m : prog disk A) : looks m → keeps (λ s, beside (D ++ [x]) f0 (dk_fs s)) m.
Proof. intros Hm s Hs. by rewrite Hm. Qed.
(** Where a path below [D ++ [x]] has its parent. *)
Lemma below_split q : ∃ d y, (D ++ [x]) ++ q = d ++ [y] ∧ (Forall plain_name q → Forall plain_name d ∧ plain_name y).
Proof.
  pose proof (wf_plain _ Hf0 _ _ HD) as HDp. destruct q as [|y q _] using rev_ind.
  - exists D, x. split; [by rewrite app_nil_r|done].
  - exists ((D ++ [x]) ++ q), y. split; [by rewrite app_assoc|]. intros [Hq [Hy _]%Forall_cons]%Forall_app. split; [|done].
    apply Forall_app. split; [|done]. apply Forall_app. split; [done|by constructor].
Qed.
Lemma keeps_write q data : Forall plain_name q → keeps (λ s, beside (D ++ [x]) f0 (dk_fs s)) (writeFile (rooted ((D ++ [x]) ++ q)) data).
Proof.
  intros Hq s Hs. destruct (below_split q) as (d & y & E & Hpl). destruct (Hpl Hq) as [Hd Hy]. clear Hpl.
  pose proof (beside_clear _ q Hs) as Hc. destruct (writeFile _ _ s) as [r s'] eqn:Ew. rewrite E in Ew, Hc. cbn [snd].
  apply writeFile_clear in Ew as (Hwf & [F|F] & _); [| |by eapply bs_wf|done..]; rewrite F in *; [done|]. rewrite <-E in *. by apply beside_insert.
Qed.
Lemma keeps_mkdir q : Forall plain_name q → keeps (λ s, beside (D ++ [x]) f0 (dk_fs s)) (mkdir_recursive (rooted ((D ++ [x]) ++ q))).
Proof.
  intros Hq s Hs. pose proof (wf_plain _ Hf0 _ _ HD) as HDp. pose proof (beside_clear _ q Hs) as Hc.
  destruct (mkdir_recursive _ s) as [r s'] eqn:Em. cbn [snd].
  apply mkdir_recursive_effect in Em as (Hwf & Ha & _); [|by eapply bs_wf| |done].
  2: { rewrite <-app_assoc. apply Forall_app. split; [done|]. by constructor. }
  split; [done| |].
  - intros p Hp. rewrite <-(bs_same _ _ _ Hs p Hp). destruct (Ha p) as [->|(Hno & _ & s1 & t & E & _ & ->)]; [done|]. exfalso.
    cbn [app] in *. destruct (above_or_under q s1 t E) as [[t' Ht]|?]; [|done].
    pose proof (beside_parent _ Hs) as Hpar. rewrite Ht in Hpar. destruct t' as [|y t']; [rewrite app_nil_r in Hpar; congruence|].
    apply (wf_above _ _ (y :: t') _ (bs_wf _ _ _ Hs)) in Hpar; [congruence|done].
  - intros r' n Hn. destruct (Ha ((D ++ [x]) ++ r')) as [E|(_ & E & _)]; rewrite E in Hn; [by eapply bs_clear|by injection Hn as <-].
Qed.
Lemma listed_plain p s names s' : wf (dk_fs s) → readdir p s = (inr names, s') → Forall plain_name names.
Proof.
  intros Hwf [_ H]%query_effect. specialize (H names eq_refl). destruct (follow _ _) as [|q]; [done|]. destruct (dk_fs s !! q) as [[]|]; try done.
  injection H as <-. apply Forall_forall. intros y [n Hn]%children_elem. apply (wf_plain _ Hwf), Forall_app in Hn as [_ Hn]. by apply Forall_cons in Hn as [? _].
Qed.
Lemma keeps_copy fuel source q : Forall plain_name q →
  keeps (λ s, beside (D ++ [x]) f0 (dk_fs s)) (copyTreeNoSymlinks fuel source (rooted ((D ++ [x]) ++ q))).
Proof.
  revert source q. induction fuel as [|fuel IH]; intros source q Hq; cbn [copyTreeNoSymlinks]; [apply keeps_throw|].
  apply keeps_bind; [apply keeps_looks, looks_query|]. intros [|data|t]; [|unfold copyFile|apply keeps_ret].
  - apply keeps_bind; [by apply keeps_mkdir|]. intros _ s Hs. unfold mbind, prog_bind.
    destruct (readdir source s) as [[e|names] s1] eqn:Er; (pose proof Er as [F _]%query_effect); [cbn [snd]; by rewrite F|].
    apply listed_plain in Er; [|by eapply bs_wf]. rewrite <-F in Hs. clear F. revert s1 Hs.
    pose proof (wf_plain _ Hf0 _ _ HD) as HDp. induction Er as [|y names Hy _ IHn]; intros s1 Hs; [done|]. cbn [for_each].
    rewrite path_join_rooted; [|by rewrite <-app_assoc; apply Forall_app; split; [done|by constructor]|done]. rewrite <-(app_assoc (D ++ [x]) q [y]).
    assert (keeps (λ s, beside (D ++ [x]) f0 (dk_fs s)) (copyTreeNoSymlinks fuel (path_join [source; y]) (rooted ((D ++ [x]) ++ q ++ [y])))) as Hk.
    { apply IH. apply Forall_app. split; [done|by constructor]. }
    specialize (Hk s1 Hs). unfold mbind, prog_bind. destruct (copyTreeNoSymlinks _ _ _ s1) as [[e|[]] s2]; [done|]. by apply IHn.
  - apply keeps_bind; [apply keeps_looks, looks_query|]. intros text. by apply keeps_write.
Qed.
End Copy.

(** ** A copy that ends well is complete *)
Lemma beside_here f D x : wf f → (∀ q n, f !! ((D ++ [x]) ++ q) = Some n → is_link n = false) → beside (D ++ [x]) f f.
Proof. by split. Qed.
Lemma under_snoc_ne d (y z : string) q : y ≠ z → ¬ under (d ++ [y]) ((d ++ [z]) ++ q).
Proof. intros Hne [r E]. rewrite <-!app_assoc in E. apply app_inv_head in E. by injection E as E _. Qed.
(** The copies of the entries of one directory: when each of them copies what
    is below its source, everything below is copied. *)
Section Entries.
Context (fuel : nat) (S d : list string).
Context (Hone : ∀ y s s', wf (dk_fs s) → (∀ r, ¬ under (d ++ [y]) (S ++ r)) → dk_fs s !! d = Some Dir → plain_name y →
  (∀ q n, dk_fs s !! ((d ++ [y]) ++ q) = Some n → is_link n = false) →
  copyTreeNoSymlinks fuel (rooted (S ++ [y])) (rooted (d ++ [y])) s = (inr tt, s') →
  ∀ r data, dk_fs s !! ((S ++ [y]) ++ r) = Some (File data) → dk_fs s' !! ((d ++ [y]) ++ r) = Some (File data)).
Context (Hapart : ∀ r, ¬ under d (S ++ r)).

Lemma copy_entries names s s' : beside d (dk_fs s) (dk_fs s) → dk_fs s !! d = Some Dir → Forall plain_name S → Forall plain_name names →
  for_each (λ y, copyTreeNoSymlinks fuel (path_join [rooted S; y]) (path_join [rooted d; y])) names s = (inr tt, s') →
  ∀ y r data, (y ∈ names → dk_fs s !! ((S ++ [y]) ++ r) = Some (File data)) → (y ∉ names → dk_fs s !! ((d ++ [y]) ++ r) = Some (File data)) →
    dk_fs s' !! ((d ++ [y]) ++ r) = Some (File data).
Proof.
  intros Hb Hd HS Hn. revert s Hb Hd. induction Hn as [|z names Hz Hn IH]; intros s Hb Hd H y r data Hin Hout.
  { injection H as <-. apply Hout. by apply not_elem_of_nil. }
  cbn [for_each] in H. apply bind_inv in H as ([] & s1 & H1 & H). pose proof (bs_wf _ _ _ Hb) as Hwf. pose proof (wf_plain _ Hwf _ _ Hd) as Hdp.
  rewrite !path_join_rooted in H1 by done.
  assert (∀ q n, dk_fs s !! ((d ++ [z]) ++ q) = Some n → is_link n = false) as Hl.
  { intros q n. rewrite <-app_assoc. by apply (bs_clear _ _ _ Hb). }
  pose proof (keeps_copy d z (dk_fs s) Hwf Hd Hz fuel (rooted (S ++ [z])) [] ltac:(constructor) s (beside_here _ _ _ Hwf Hl)) as [Hw1 Hs1 Hc1].
  rewrite app_nil_r, H1 in Hw1, Hs1, Hc1. cbn [snd] in *.
  assert (∀ q, dk_fs s1 !! (S ++ q) = dk_fs s !! (S ++ q)) as HSame.
  { intros q. apply Hs1. intros [k E]. apply (Hapart q). exists (z :: k). by rewrite E, <-app_assoc. }
  assert (∀ q n, dk_fs s1 !! (d ++ q) = Some n → is_link n = false) as Hl1.
  { intros q n Hq. destruct (decide (under (d ++ [z]) (d ++ q))) as [[k E]|Hu]; [rewrite E in Hq; by eapply Hc1|].
    rewrite Hs1 in Hq by done. by apply (bs_clear _ _ _ Hb q). }
  assert (dk_fs s1 !! d = Some Dir) as Hd1.
  { rewrite Hs1; [done|]. intros [k E]. apply (f_equal length) in E. rewrite !length_app in E. cbn in E. lia. }
  apply (IH s1) with (y := y); [by split|done|done|..].
  - intros Hy. rewrite <-app_assoc, HSame, app_assoc. apply Hin. by apply list_elem_of_further.
  - intros Hy. destruct (decide (y = z)) as [->|Hne].
    + apply (Hone z s s1); [done| |done|done|done|done|apply Hin, list_elem_of_here].
      intros k Hu. apply (Hapart k). destruct Hu as [k' E]. exists (z :: k'). by rewrite E, <-app_assoc.
    + rewrite Hs1 by (by apply under_snoc_ne). apply Hout. by apply not_elem_of_cons.
Qed.
End Entries.
Lemma copy_complete fuel S D x s s' : wf (dk_fs s) → (∀ r, ¬ under (D ++ [x]) (S ++ r)) → dk_fs s !! D = Some Dir → plain_name x →
  (∀ q n, dk_fs s !! ((D ++ [x]) ++ q) = Some n → is_link n = false) →
  copyTreeNoSymlinks fuel (rooted S) (rooted (D ++ [x])) s = (inr tt, s') →
  ∀ r data, dk_fs s !! (S ++ r) = Some (File data) → dk_fs s' !! ((D ++ [x]) ++ r) = Some (File data).
Proof.
  revert S D x s s'. induction fuel as [|fuel IH]; intros S D x s s' Hwf Hap HD Hx Hl H r data Hr; [done|]. cbn [copyTreeNoSymlinks] in H.
  apply bind_inv in H as (n & s1 & H1 & H). apply lstat_at in H1 as [H1 F1].
  pose proof (wf_plain _ Hwf _ _ HD) as HDp. pose proof (wf_plain _ Hwf _ _ Hr) as Hp. apply plain_app in Hp as [HSp Hrp].
  pose proof (beside_here _ D x Hwf Hl) as Hb. destruct r as [|y r].
  - rewrite app_nil_r in Hr |- *. rewrite (entry_at_real _ _ (File data)) in H1 by done. injection H1 as <-. unfold copyFile in H.
    apply bind_inv in H as (text & s2 & H2 & H). apply readFile_at in H2 as [H2 F2]. rewrite F1, (content_at_real _ _ data) in H2 by done.
    injection H2 as <-. apply writeFile_clear in H as (_ & _ & H); [by eapply H|by rewrite F2, F1| |done|done].
    rewrite F2, F1. rewrite <-(app_nil_r (D ++ [x])). by apply (beside_clear D x (dk_fs s) HD).
  - assert (dk_fs s !! S = Some Dir) as HS by (by eapply (wf_above _ _ (y :: r))). rewrite (entry_at_real _ _ Dir) in H1 by done. injection H1 as <-.
    apply bind_inv in H as ([] & s2 & H2 & H). rewrite <-F1 in Hb, Hwf, HD.
    pose proof (keeps_mkdir D x (dk_fs s1) Hwf HD Hx [] ltac:(constructor) s1 Hb) as Hb2. rewrite app_nil_r, H2 in Hb2. cbn [snd] in Hb2.
    assert (Forall plain_name (D ++ [x])) as HDx by (apply plain_app; split; [done|by constructor]).
    apply mkdir_recursive_effect in H2 as (Hwf2 & _ & H2); [|done|done|].
    2: { rewrite <-(app_nil_r (D ++ [x])). by apply (beside_clear D x (dk_fs s1) HD). }
    specialize (H2 tt eq_refl). apply bind_inv in H as (names & s3 & H3 & H). pose proof (listed_plain _ _ _ _ Hwf2 H3) as Hnames.
    apply query_effect in H3 as [F3 H3]. specialize (H3 names eq_refl).
    assert (∀ q, dk_fs s2 !! (S ++ q) = dk_fs s !! (S ++ q)) as Hsame by (intros q; rewrite (bs_same _ _ _ Hb2), F1 by apply Hap; done).
    rewrite (follow_real _ _ Dir) in H3; [|done| |done]. 2: { specialize (Hsame []). rewrite !app_nil_r in Hsame. by rewrite Hsame. }
    specialize (Hsame []) as HS2. rewrite !app_nil_r, HS in HS2. rewrite HS2 in H3. injection H3 as <-.
    assert ((S ++ [y]) ++ r = S ++ y :: r) as Ey by (by rewrite <-app_assoc).
    replace ((D ++ [x]) ++ y :: r) with (((D ++ [x]) ++ [y]) ++ r) by (by rewrite <-(app_assoc (D ++ [x]))).
    eapply (copy_entries fuel S (D ++ [x])); [|exact Hap| | | | |exact H|..]; rewrite ?F3.
    + intros z t t' Ht1 Ht2 Ht3 Ht4 Ht5 Ht6. by apply (IH _ _ _ _ _ Ht1 ltac:(intros k; rewrite <-(app_assoc S [z] k); apply Ht2) Ht3 Ht4 Ht5 Ht6).
    + split; [done|done|by apply (bs_clear _ _ _ Hb2)].
    + done.
    + done.
    + done.
    + intros _. by rewrite Ey, Hsame.
    + intros Hy. destruct Hy. apply children_elem. destruct r as [|z r].
      * exists (File data). by rewrite <-Hr, <-Hsame.
      * exists Dir. apply (wf_above _ _ (z :: r) (File data) Hwf2); [|done]. by rewrite Ey, Hsame.
Qed.

(** ** The staging directory, filled *)
Section Filled.
Context (sha256 : string → string).
(** The manifest and the checksums, whatever the depth. *)
Lemma createManifest_eq runId createdAt roots p s : createManifest sha256 runId createdAt roots p s =
  match collectChecksums sha256 p s with
  | (inl e, s) => (inl e, s)
  | (inr l, s) => (inr (Manifest runId createdAt ((λ r, (rc_id r, rc_path r)) <$> roots) l), s)
  end.
Proof. unfold createManifest, mbind, prog_bind. generalize (collectChecksums sha256 p s). by intros [[e|l] s']. Qed.
Lemma createManifest_inr runId createdAt roots p s m s' : createManifest sha256 runId createdAt roots p s = (inr m, s') →
  ∃ fuel l, checksums_in sha256 fuel p "" s = (inr l, s') ∧ m = Manifest runId createdAt ((λ r, (rc_id r, rc_path r)) <$> roots) l.
Proof.
  rewrite createManifest_eq. unfold collectChecksums. generalize PATH_MAX. intros fuel.
  destruct (checksums_in sha256 fuel p "" s) as [[e|l] s2] eqn:E; [done|]. intros H. injection H as <- <-. by exists fuel, l.
Qed.
(** The program could not read the trash of the data directory, or not copy
    all of it: what it did ended in an error. *)
Definition trash_given_up (T t : list string) : Prop :=
  ∃ before after e, (_ ← access (rooted (T ++ ["trash"]));
                     copyTreeNoSymlinks PATH_MAX (rooted (T ++ ["trash"])) (rooted (t ++ ["trash"]))) before = (inl e, after).
(** In the tree [g], the directory [t] holds the state of the program: the
    database as [picture]; a manifest that names the run and the roots and has
    the checksum of each file in the directory but its own, and no other; and
    each regular file that the trash had in the tree [f], unless the copy was
    given up.  The data directory is [T]; its trash does not hold [t]. *)
Record staged_state (config : ZosConfig) (runId picture : string) (f : fs) (t : list string) (g : fs) : Prop := StagedState {
  ss_database : g !! (t ++ ["zos.sqlite"]) = Some (File picture);
  ss_manifest : ∃ m, g !! (t ++ ["manifest.json"]) = Some (File (JSON_pretty 0 (manifest_json m) +:+ String line_feed "")) ∧
    mf_runId m = runId ∧ mf_roots m = ((λ r, (rc_id r, rc_path r)) <$> zc_nasRoots config) ∧
    ∀ rel h, In (rel, h) (mf_checksums m) ↔ ∃ q data, staged g t q data ∧ rel = join "/" q ∧ h = sha256 data;
  ss_trash : ∀ T, zc_dataDir config = rooted T → Forall plain_name T → ¬ under (T ++ ["trash"]) t →
    trash_given_up T t ∨
    ∀ q data, f !! ((T ++ ["trash"]) ++ q) = Some (File data) → g !! ((t ++ ["trash"]) ++ q) = Some (File data)
}.
Lemma staged_elsewhere config runId picture f f' t g g' : (∀ q data, f' !! q = Some (File data) → f !! q = Some (File data)) →
  (∀ q, g' !! (t ++ q) = g !! (t ++ q)) → staged_state config runId picture f t g → staged_state config runId picture f' t g'.
Proof.
  intros Hf Hg [Hdb (m & Hm & Hid & Hroots & Hsums) Htrash]. split.
  - by rewrite Hg.
  - exists m. split_and!; [by rewrite Hg|done|done|]. intros rel h. rewrite Hsums. unfold staged.
    split; intros (q & data & (H1 & H2) & H3); exists q, data; by rewrite Hg in *.
  - intros T H1 H2 H3. destruct (Htrash T H1 H2 H3) as [H|H]; [by left|right]. intros q data Hq.
    rewrite <-app_assoc, Hg, app_assoc. by apply H, Hf.
Qed.
Lemma child_differs (t : list string) x y q : x ≠ y → t ++ [x] ≠ (t ++ [y]) ++ q.
Proof. intros Hne E. rewrite <-app_assoc in E. apply app_inv_head in E. by injection E. Qed.
Context (config : ZosConfig) (runId createdAt picture : string) (t : list string) (s0 s1 s2 s3 s4 : disk) (m : BackupManifest).
Context (Hwf : wf (dk_fs s0)) (Ht : dk_fs s0 !! t = Some Dir) (Hnew : ∀ y, dk_fs s0 !! (t ++ [y]) = None).
Context (H1 : writeFile (path_join [rooted t; "zos.sqlite"]) picture s0 = (inr tt, s1)).
Context (H2 : try_catch (_ ← access (path_join [zc_dataDir config; "trash"]);
                         copyTreeNoSymlinks PATH_MAX (path_join [zc_dataDir config; "trash"]) (path_join [rooted t; "trash"])) (λ _, mret tt) s1 = (inr tt, s2)).
Context (H3 : createManifest sha256 runId createdAt (zc_nasRoots config) (rooted t) s2 = (inr m, s3)).
Context (H4 : writeFile (path_join [rooted t; "manifest.json"]) (JSON_pretty 0 (manifest_json m) +:+ String line_feed "") s3 = (inr tt, s4)).

Lemma filled_database : wf (dk_fs s1) ∧ dk_fs s1 = <[t ++ ["zos.sqlite"] := File picture]> (dk_fs s0).
Proof.
  pose proof (wf_plain _ Hwf _ _ Ht) as Htp. rewrite path_join_rooted in H1 by (done || by apply plain_literal).
  apply writeFile_clear in H1 as (Hw & [E|E] & H); [..|done| |done|by apply plain_literal].
  - specialize (H tt eq_refl). by rewrite E, Hnew in H.
  - done.
  - intros s t' n Es Hs. destruct t' as [|y t' _] using rev_ind; [rewrite app_nil_r in Es; subst s; by rewrite Hnew in Hs|].
    rewrite app_assoc in Es. apply app_inj_tail in Es as [-> _]. by apply (clear_dir _ _ Hwf Ht s t' n).
Qed.
Lemma filled_before : beside (t ++ ["trash"]) (dk_fs s1) (dk_fs s1) ∧ dk_fs s1 !! t = Some Dir.
Proof.
  destruct filled_database as [Hw E]. split.
  - split; [done|done|]. intros q n. rewrite E, lookup_insert_ne by (by apply child_differs).
    by rewrite (wf_missing _ _ q Hwf (Hnew "trash")).
  - rewrite E, lookup_insert_ne; [done|]. intros Ex. apply (f_equal length) in Ex. rewrite length_app in Ex. cbn in Ex. lia.
Qed.
Lemma filled_beside : beside (t ++ ["trash"]) (dk_fs s1) (dk_fs s2).
Proof.
  destruct filled_before as [Hb Hd]. destruct filled_database as [Hw _]. pose proof (wf_plain _ Hw _ _ Hd) as Htp.
  assert (keeps (λ s, beside (t ++ ["trash"]) (dk_fs s1) (dk_fs s)) (try_catch (_ ← access (path_join [zc_dataDir config; "trash"]);
    copyTreeNoSymlinks PATH_MAX (path_join [zc_dataDir config; "trash"]) (path_join [rooted t; "trash"])) (λ _, mret tt))) as Hk.
  { apply keeps_try; [|intros; apply keeps_ret]. apply keeps_bind.
    - unfold access. apply keeps_bind; [apply keeps_looks, looks_query|intros; apply keeps_ret].
    - intros _. rewrite path_join_rooted by (done || by apply plain_literal). 
      pose proof (keeps_copy t "trash" (dk_fs s1) Hw Hd (plain_literal "trash" eq_refl) PATH_MAX (path_join [zc_dataDir config; "trash"]) [] ltac:(constructor)) as Hk.
      by rewrite app_nil_r in Hk. }
  specialize (Hk s1 Hb). by rewrite H2 in Hk.
Qed.
Lemma filled_manifest : dk_fs s3 = dk_fs s2 ∧ dk_fs s2 !! t = Some Dir ∧
  mf_runId m = runId ∧ mf_roots m = ((λ r, (rc_id r, rc_path r)) <$> zc_nasRoots config) ∧
  ∀ rel h, In (rel, h) (mf_checksums m) ↔ ∃ q data, staged (dk_fs s2) t q data ∧ rel = join "/" q ∧ h = sha256 data.
Proof.
  pose proof filled_beside as Hb. destruct filled_before as [_ Hd].
  assert (dk_fs s2 !! t = Some Dir) as Ht2 by (apply (beside_parent t "trash" (dk_fs s1)); done).
  destruct (createManifest_inr _ _ _ _ _ _ _ H3) as (fuel & l & Hl & Em). rewrite Em.
  pose proof (checksums_ok sha256 fuel t [] s2 l s3) as Hok. rewrite app_nil_r in Hok. change (join "/" []) with "" in Hok.
  destruct (Hok (bs_wf _ _ _ Hb) Ht2 ltac:(done) Hl) as [F Hl2]. clear Hok Hl.
  split_and!; [done..|]. intros rel h. cbn [mf_checksums]. rewrite Hl2. unfold recorded, staged. cbn [app].
  split; [intros (q & data & Hq & He & Hh & -> & ->)|intros (q & data & (Hq & He & Hh) & -> & ->)]; by exists q, data.
Qed.
Lemma filled_last : wf (dk_fs s4) ∧
  dk_fs s4 = <[t ++ ["manifest.json"] := File (JSON_pretty 0 (manifest_json m) +:+ String line_feed "")]> (dk_fs s2).
Proof.
  destruct filled_manifest as (F & Hd & _). pose proof filled_beside as Hb. pose proof (bs_wf _ _ _ Hb) as Hw. pose proof (wf_plain _ Hw _ _ Hd) as Htp.
  assert (dk_fs s2 !! (t ++ ["manifest.json"]) = None) as Hno.
  { rewrite (bs_same _ _ _ Hb) by (intros [k E]; by apply child_differs in E). destruct filled_database as [_ ->].
    rewrite lookup_insert_ne; [apply Hnew|]. intros E. apply app_inv_head in E. by injection E. }
  rewrite path_join_rooted in H4 by (done || by apply plain_literal). rewrite <-F in *.
  apply writeFile_clear in H4 as (Hw4 & [E|E] & H); [..|done| |done|by apply plain_literal].
  - specialize (H tt eq_refl). by rewrite E, Hno in H.
  - done.
  - intros s t' n Es Hs. destruct t' as [|y t' _] using rev_ind; [rewrite app_nil_r in Es; subst s; by rewrite Hno in Hs|].
    rewrite app_assoc in Es. apply app_inj_tail in Es as [-> _]. by apply (clear_dir _ _ Hw Hd s t' n).
Qed.
Lemma filled_trash T : zc_dataDir config = rooted T → Forall plain_name T → ¬ under (T ++ ["trash"]) t →
  trash_given_up T t ∨
  ∀ q data, dk_fs s0 !! ((T ++ ["trash"]) ++ q) = Some (File data) → dk_fs s2 !! ((t ++ ["trash"]) ++ q) = Some (File data).
Proof.
  intros HT HTp Hu. destruct filled_before as [Hb Hd]. destruct filled_database as [Hw E1]. pose proof (wf_plain _ Hw _ _ Hd) as Htp.
  rewrite HT, !path_join_rooted in H2 by (done || by apply plain_literal). unfold try_catch in H2.
  destruct ((_ ← access _; copyTreeNoSymlinks _ _ _) s1) as [[e|[]] s] eqn:Ec; [left; by exists s1, s, e|]. injection H2 as <-. right.
  apply bind_inv in Ec as ([] & s5 & Ha & Ec). unfold access in Ha. apply bind_inv in Ha as (n & s6 & Ha & Ha2). injection Ha2 as <-.
  apply query_effect in Ha as [F _]. intros q data Hq. rewrite <-F in *.
  assert (dk_fs s0 !! (t ++ ["trash"]) = None) as Hno by apply Hnew.
  apply (copy_complete PATH_MAX (T ++ ["trash"]) t "trash" s6); [done| |done|by apply plain_literal|by apply (bs_clear _ _ _ Hb)|done|].
  - intros r [k E]. apply app_eq_inv in E as [(k' & E & _)|(k' & E & _)].
    + rewrite E in Hq. rewrite <-app_assoc in Hq. by rewrite (wf_missing _ _ _ Hwf Hno) in Hq.
    + destruct k' as [|y k' _] using rev_ind.
      * rewrite app_nil_r in E. rewrite <-E in Hq. by rewrite (wf_missing _ _ _ Hwf Hno) in Hq.
      * rewrite app_assoc in E. apply app_inj_tail in E as [E _]. apply Hu. by exists k'.
  - rewrite E1, lookup_insert_ne; [done|]. intros E. rewrite <-E, Hnew in Hq. done.
Qed.
Lemma filled : wf (dk_fs s4) ∧ staged_state config runId picture (dk_fs s0) t (dk_fs s4).
Proof.
  destruct filled_last as [Hw E4]. destruct filled_manifest as (_ & _ & Hid & Hroots & Hsums). split; [done|]. split.
  - rewrite E4, lookup_insert_ne by (intros E; apply app_inv_head in E; by injection E).
    rewrite (bs_same _ _ _ filled_beside) by (intros [k E]; by apply child_differs in E). destruct filled_database as [_ ->]. by rewrite lookup_insert_eq.
  - exists m. split_and!; [by rewrite E4, lookup_insert_eq|done|done|]. intros rel h. rewrite Hsums.
    assert (∀ q data, staged (dk_fs s2) t q data ↔ staged (dk_fs s4) t q data) as Hst; [|split; intros (q & data & Hq & Hr); exists q, data; by rewrite Hst in *].
    intros q data. unfold staged. rewrite E4. destruct (decide (q = ["manifest.json"])) as [->|Hne]; [split; intros (_ & _ & []); done|].
    rewrite lookup_insert_ne; [done|]. intros E. apply Hne. by apply app_inv_head in E.
  - intros T HT HTp Hu. destruct (filled_trash T HT HTp Hu) as [H|H]; [by left|right]. intros q data Hq.
    rewrite E4, lookup_insert_ne; [by apply H|]. by apply child_differs.
Qed.
End Filled.
