(* ===== verification/Backup.v ===== *)
(** * The backup command

    apps/backup/src/backup.ts and restic.ts: a run that saves the roots and the
    program's state, the check of the repository, the restore of a snapshot,
    and the execution lock around them.

    [restic] is a parameter: from the calls made so far, the arguments, the
    tables and the tree, its exit, what the other processes and the timer of
    the heartbeat did to the tables meanwhile, and the tree it left.  The clock
    and the random names are functions of the machine.  A retry count of the
    configuration that is infinite is not modelled. *)
From Stdlib Require Import Ascii QArith.
From stdpp Require Import pretty.
From S2P Require Import FileSystem Files PathSafety Archives MountReadiness.
From S2P Require Import Prelude Sql Json JsString JsonText JsText Locks NasRoots Config BackupRuns BackupManifest BackupStaging.
Open Scope Z_scope.

(** ** restic.ts *)
Record restic_exit := Exit { rx_code : Z; rx_stdout : string; rx_stderr : string }.
Definition lines_of (s : string) : list string := List.filter (λ x, negb (bool_decide (x = ""))) (trim <$> split_lines s).
Definition summarizeResticOutput (value : string) : string :=
  let l := lines_of value in take_str 500 (join " | " (drop (length l - 3) l)).
Definition said (r : restic_exit) : string := summarizeResticOutput (if bool_decide (rx_stderr r = "") then rx_stdout r else rx_stderr r).

(** ** Reading what restic wrote *)
Definition parseSnapshotIds (output : string) : list string :=
  omap (λ line, v ← JSON_parse line; let ps := recordFrom (Some v) in
    id ← as_string (match prop ps "id" with None | Some JNull => prop ps "snapshot_id" | id => id end); nonempty id) (split_lines output).
(** [a ?? b ?? old] of counts, which are numbers. *)
Definition count_of (a b : option json) (old : number) : number :=
  match as_number a with Some n => n | None => as_number b ⁇ old end.
Definition parseBackupStats (output : string) : number * number :=
  foldl (λ st line,
    match JSON_parse line with
    | Some (JObj ps) =>
        if is_str (prop ps "message_type") "summary"
        then (count_of (prop ps "files_total") (prop ps "total_files_processed") st.1, count_of (prop ps "total_bytes") (prop ps "total_bytes_processed") st.2)
        else st
    | _ => st
    end) (lit 0, lit 0) (split_lines output).
(** [values.some((value) => value.id === id)], which throws at a null. *)
Fixpoint some_id (values : list json) (id : string) : option bool :=
  match values with
  | [] => Some false
  | JNull :: _ => None
  | v :: values => if is_str (prop (recordFrom (Some v)) "id") id then Some true else some_id values id
  end.
Fixpoint every_id (values : list json) (expected : list string) : option bool :=
  match expected with
  | [] => Some true
  | id :: expected => found ← some_id values id; if found : bool then every_id values expected else Some false
  end.
Definition snapshotVisible (output : string) (expected : list string) : bool :=
  let as_text := forallb (λ id, includes id output) expected in
  match JSON_parse output with
  | Some (JArr values) => every_id values expected ⁇ as_text
  | _ => as_text
  end.
Definition num_add (a b : number) : number :=
  match a, b with
  | NaN, _ | _, NaN | Infinity, NegInfinity | NegInfinity, Infinity => NaN
  | Num p, Num q => Num (p + q)
  | Infinity, _ | _, Infinity => Infinity
  | NegInfinity, _ | _, NegInfinity => NegInfinity
  end.

(** ** The machine *)
(** The tables, the tree, the calls of restic so far, and two variables of the
    command: the roots that failed and the staging directory. *)
Record machine := Machine {
  mc_db : backup_db; mc_disk : disk; mc_log : list (list string * restic_exit); mc_failures : list (string * string); mc_staging : option string }.
#[export] Instance machine_eta : Eta machine := λ s, Machine (mc_db s) (mc_disk s) (mc_log s) (mc_failures s) (mc_staging s).
Record restic_answer := Answer { an_exit : restic_exit; an_others : list backup_step; an_tree : fs }.
Definition on_db {A} (m : backup_prog A) : prog machine A := λ s,
  let '(r, d) := m (mc_db s) in (r, s <| mc_db := d |>).
Definition on_disk {A} (m : prog disk A) : prog machine A := λ s,
  let '(r, d) := m (mc_disk s) in (r, s <| mc_disk := d |>).
Definition BACKUP_LOCK_NAME : string := "backup".

Section Backup.
Context (pwd : string) (sha256 : string → string) (findmnt : string → exn + string).
Context (restic : list (list string * restic_exit) → list string → backup_db → fs → restic_answer).
(** [new Date()], [randomUUID()], the letters [mkdtemp] chooses, the time as
    text, and the file [db.backup] writes. *)
Context (clock : machine → Z) (uuid random : machine → string) (iso : Z → string) (image : backup_db → string).

Definition run_restic (args : list string) : prog machine restic_exit := λ s,
  let a := restic (mc_log s) args (mc_db s) (dk_fs (mc_disk s)) in
  (inr (an_exit a), Machine (foldl backup_step_on (mc_db s) (an_others a)) (Disk (an_tree a) (dk_faults (mc_disk s))) (mc_log s ++ [(args, an_exit a)])
                      (mc_failures s) (mc_staging s)).
(** How often the loop [attempt < retryCount] comes round. *)
Definition retries (n : number) : nat := match n with Num q => Z.to_nat (- (- Qnum q / Zpos (Qden q))) | _ => 0%nat end.
Fixpoint retry_restic (n : nat) (args : list string) (result : restic_exit) : prog machine restic_exit :=
  match n with
  | O => mret result
  | S n => if bool_decide (rx_code result = 0) then mret result else result ← run_restic args; retry_restic n args result
  end.
Definition runResticWithRetry (args : list string) (config : BackupConfig) : prog machine restic_exit :=
  result ← run_restic args; retry_restic (retries (bk_retryCount config)) args result.

(** ** Paths *)
Definition overlaps (first second : string) : bool :=
  bool_decide (first = second) || startsWith (second +:+ "/") first || startsWith (first +:+ "/") second.
Definition validateBackupPaths (config : ZosConfig) : list string :=
  let backup := zc_backup config in
  if negb (bk_enabled backup) then [] else
  match bk_repositoryPath backup ≫= nonempty with
  | None => ["repository not configured"]
  | Some r =>
      let repositoryPath := resolve pwd [r] in
      let stagingPath := resolve pwd [bk_stagingPath backup] in
      let dataDir := resolve pwd [zc_dataDir config] in
      (if overlaps repositoryPath dataDir then ["backup repository must not overlap dataDir"] else []) ++
      (if overlaps repositoryPath stagingPath then ["backup repository must not overlap staging path"] else []) ++
      (root ← zc_nasRoots config;
       let rootPath := resolve pwd [rc_path root] in
       (if overlaps repositoryPath rootPath then ["backup repository must not overlap NAS root " +:+ rc_id root] else []) ++
       (if overlaps stagingPath rootPath then ["backup staging path must not overlap NAS root " +:+ rc_id root] else []))
  end.
Definition requireBackupConfig (config : ZosConfig) : exn + BackupConfig :=
  if bk_enabled (zc_backup config) then inr (zc_backup config) else inl (Error "Backup is disabled").
Definition shouldSkipScheduledBackup (config : ZosConfig) (command : option string) : bool :=
  bool_decide (command = Some "run") && negb (bk_enabled (zc_backup config)).
(** The configuration of the command, its paths checked. *)
Definition checked_config (config : ZosConfig) : exn + BackupConfig :=
  c ← requireBackupConfig config;
  match validateBackupPaths config with [] => inr c | issues => inl (Error (join "; " issues)) end.
Definition repository_of (c : BackupConfig) : string := bk_repositoryPath c ⁇ "".

(** ** The pieces of the commands *)
(** The status of a directory, when it is not ready, and why. *)
Definition why_not (r : RootReadiness) : option string :=
  match rr_status r with
  | root_ready => None
  | root_not_ready => Some (rr_reason r ⁇ "not_ready")
  | root_unknown => Some (rr_reason r ⁇ "unknown")
  | root_config_invalid => Some (rr_reason r ⁇ "config_invalid")
  end.
Definition target_root (c : BackupConfig) (path : string) : NasRootConfig :=
  RootConfig "backup-target" "Backup target" path (Some (if bk_requireMount c then mount_required else mount_optional)) None None None.
Definition target_readiness (c : BackupConfig) (path : string) : prog machine (option string) :=
  t ← gets clock; r ← on_disk (checkMountReadiness pwd findmnt (target_root c path) t); mret (why_not r).
Definition ensureLease (owner : string) : prog machine unit :=
  held ← gets (λ s, isExecutionLockOwner (bd_locks (mc_db s)) BACKUP_LOCK_NAME owner);
  guard_throw (negb held) (Error "backup execution lease lost").
Definition acquire (owner : string) : prog machine unit :=
  t ← gets clock;
  ok ← on_db (λ d, let '(b, locks) := acquireExecutionLock (bd_locks d) BACKUP_LOCK_NAME owner None t in (inr b, d <| bd_locks := locks |>));
  guard_throw (negb ok) (Error "backup already running").
Definition release (owner : string) : prog machine unit :=
  on_db (λ d, (inr tt, d <| bd_locks := (releaseExecutionLock (bd_locks d) BACKUP_LOCK_NAME owner).2 |>)).
Definition start (kind : BackupRunKind) (now : option Z) : prog machine BackupRunSummary :=
  t ← gets clock; id ← gets uuid; on_db (startBackupRun id kind (now ⁇ t)).
Definition record (runId : string) (rootId : option string) (path code reason : string) : prog machine unit :=
  t ← gets clock; id ← gets uuid; on_db (recordBackupFailure id runId rootId (Some path) (Some code) reason t).
Definition finish (runId : string) (e : backup_end) (now : option Z) : prog machine (option BackupRunSummary) :=
  t ← gets clock; on_db (finishBackupRun runId e (now ⁇ t)).
Definition failed_end (error : string) : backup_end := BackupEnd finish_failed [] (lit 0) (lit 0) false (Some error).
(** The failure is recorded and thrown. *)
Definition fail_with {A} (runId path code reason message : string) : prog machine A :=
  _ ← record runId None path code reason; throw (Error message).

Definition root_failed (root : NasRootConfig) (runId code reason : string) : prog machine unit :=
  _ ← modify (λ s, s <| mc_failures := mc_failures s ++ [(rc_id root, reason)] |>);
  record runId (Some (rc_id root)) "." code reason.
Fixpoint roots_readiness (runId : string) (roots : list NasRootConfig) : prog machine (list NasRootConfig) :=
  match roots with
  | [] => mret []
  | root :: roots =>
      t ← gets clock;
      readiness ← on_disk (checkMountReadiness pwd findmnt root t);
      _ ← on_db (λ d, let '(r, roots) := upsertRootReadiness readiness (bd_roots d) in (r, d <| bd_roots := roots |>));
      match why_not readiness with
      | None => ready ← roots_readiness runId roots; mret (root :: ready)
      | Some reason => _ ← root_failed root runId "ROOT_NOT_READY" reason; roots_readiness runId roots
      end
  end.
Definition kind_text (k : BackupRunKind) : string := match k with daily => "daily" | weekly => "weekly" | check_run => "check" | restore_run => "restore" end.
Definition backup_args (c : BackupConfig) (kind : BackupRunKind) (path : string) : list string :=
  ["backup"; "--json"; "--repo"; repository_of c; "--tag"; kind_text kind; path].
(** The snapshots made so far and their counts. *)
Record progress := Progress { pg_snapshotIds : list string; pg_files : number; pg_bytes : number }.
Definition saved (p : progress) (result : restic_exit) (ids : list string) : progress :=
  let '(files, bytes) := parseBackupStats (rx_stdout result) in
  Progress (pg_snapshotIds p ++ ids) (num_add (pg_files p) files) (num_add (pg_bytes p) bytes).
Fixpoint save_roots (c : BackupConfig) (kind : BackupRunKind) (owner runId : string) (roots : list NasRootConfig) (p : progress) : prog machine progress :=
  match roots with
  | [] => mret p
  | root :: roots =>
      _ ← ensureLease owner;
      result ← runResticWithRetry (backup_args c kind (rc_path root)) c;
      if negb (bool_decide (rx_code result = 0)) then
        _ ← root_failed root runId "RESTIC_BACKUP_FAILED" (nonempty (said result) ⁇ "restic backup failed"); save_roots c kind owner runId roots p
      else match parseSnapshotIds (rx_stdout result) with
      | [] => _ ← root_failed root runId "SNAPSHOT_ID_MISSING" "restic backup did not return a snapshot id"; save_roots c kind owner runId roots p
      | ids => save_roots c kind owner runId roots (saved p result ids)
      end
  end.
(** The staging directory of the run: the database, the trash as far as it can
    be copied, and the manifest. *)
Definition fill_staging (config : ZosConfig) (runId runStaging : string) : prog machine unit :=
  picture ← gets (λ s, image (mc_db s));
  _ ← on_disk (writeFile (path_join [runStaging; "zos.sqlite"]) picture);
  let trashPath := path_join [zc_dataDir config; "trash"] in
  _ ← on_disk (try_catch (_ ← access trashPath; copyTreeNoSymlinks PATH_MAX trashPath (path_join [runStaging; "trash"])) (λ _, mret tt));
  t ← gets clock;
  manifest ← on_disk (createManifest sha256 runId (iso t) (zc_nasRoots config) runStaging);
  on_disk (writeFile (path_join [runStaging; "manifest.json"]) (JSON_pretty 0 (manifest_json manifest) +:+ String line_feed "")).
(** The weekly check and pruning of the repository. *)
Definition maintain (c : BackupConfig) (owner runId : string) : prog machine unit :=
  _ ← ensureLease owner;
  checked ← runResticWithRetry ["check"; "--repo"; repository_of c] c;
  _ ← (if bool_decide (rx_code checked = 0) then mret tt
       else let reason := "restic check failed: " +:+ said checked in fail_with runId "repository" "REPO_CHECK_FAILED" reason reason);
  _ ← ensureLease owner;
  pruned ← runResticWithRetry ["forget"; "--repo"; repository_of c; "--keep-daily"; number_text (bk_keepDaily c); "--keep-weekly";
                               number_text (bk_keepWeekly c); "--prune"] c;
  if bool_decide (rx_code pruned = 0) then mret tt
  else let reason := "restic prune failed: " +:+ said pruned in fail_with runId "repository" "REPO_PRUNE_FAILED" reason reason.
(** The state of the program, after the roots; the ids of all snapshots. *)
Definition save_state (c : BackupConfig) (kind : BackupRunKind) (owner runId runStaging : string) (p : progress) : prog machine progress :=
  _ ← ensureLease owner;
  result ← runResticWithRetry (backup_args c kind runStaging) c;
  if negb (bool_decide (rx_code result = 0))
  then let reason := "restic state backup failed: " +:+ said result in fail_with runId "zos-state" "STATE_SNAPSHOT_FAILED" reason reason
  else match parseSnapshotIds (rx_stdout result) with
  | [] => let reason := "restic state backup did not return a snapshot id" in fail_with runId "zos-state" "SNAPSHOT_ID_MISSING" reason reason
  | ids => let p := saved p result ids in mret (Progress (distinct (pg_snapshotIds p)) (pg_files p) (pg_bytes p))
  end.

(** ** [runBackup] *)
(** The summary when the run was taken from this process. *)
Definition own_summary (run : BackupRunSummary) (ids : list string) (error : string) (t : Z) (failures : list (string * string)) : BackupRunSummary :=
  RunSummary (rs_id run) (rs_kind run) bk_failed (rs_startedAt run) (Some t) ids (rs_files run) (rs_bytes run) (rs_verified run) (Some error)
    ((λ f, Failure (Some f.1) None None f.2) <$> failures).
Definition backup_body (config : ZosConfig) (c : BackupConfig) (kind : BackupRunKind) (owner : string) (run : BackupRunSummary) (now : option Z) :
    prog machine BackupRunSummary :=
  let id := rs_id run in
  _ ← ensureLease owner;
  target ← target_readiness c (repository_of c);
  _ ← match target with
      | None => mret tt
      | Some reason => fail_with id "repository" "BACKUP_TARGET_NOT_READY" reason ("Backup target is not ready: " +:+ reason)
      end;
  ready ← roots_readiness id (zc_nasRoots config);
  _ ← on_disk (mkdir_recursive (bk_stagingPath c));
  suffix ← gets random;
  runStaging ← on_disk (mkdtemp (path_join [bk_stagingPath c; "run-" +:+ id +:+ "-"]) suffix);
  _ ← modify (λ s, s <| mc_staging := Some runStaging |>);
  _ ← fill_staging config id runStaging;
  p ← save_roots c kind owner id ready (Progress [] (lit 0) (lit 0));
  p ← save_state c kind owner id runStaging p;
  let ids := pg_snapshotIds p in
  _ ← guard_throw (bool_decide (ids = [])) (Error "restic backup did not return a snapshot id");
  _ ← ensureLease owner;
  visible ← runResticWithRetry ["snapshots"; "--json"; "--repo"; repository_of c] c;
  _ ← guard_throw (negb (bool_decide (rx_code visible = 0)) || negb (snapshotVisible (rx_stdout visible) ids))
        (Error "restic snapshot is not visible after backup");
  failures ← gets mc_failures;
  if negb (bool_decide (failures = [])) then
    let message := "one or more roots failed" in
    failed ← finish id (BackupEnd finish_failed ids (pg_files p) (pg_bytes p) false (Some message)) None;
    t ← gets clock;
    mret (failed ⁇ own_summary run ids message t failures)
  else
  _ ← (if bool_decide (kind = weekly) then maintain c owner id else mret tt);
  finished ← finish id (BackupEnd finish_completed ids (pg_files p) (pg_bytes p) true None) now;
  match finished with Some s => mret s | None => throw (Error "backup run was interrupted") end.
Definition backup_failed (run : BackupRunSummary) (now : option Z) (e : exn) : prog machine BackupRunSummary :=
  finished ← finish (rs_id run) (failed_end (exn_message e)) now;
  t ← gets clock;
  failures ← gets mc_failures;
  mret (finished ⁇ own_summary run [] (exn_message e) t failures).
Definition cleanup (owner : string) : prog machine unit :=
  staging ← gets mc_staging;
  _ ← match staging with Some p => on_disk (rm p true) | None => mret tt end;
  release owner.
Definition runBackup (config : ZosConfig) (kind : BackupRunKind) (now : option Z) : prog machine BackupRunSummary :=
  c ← check (checked_config config);
  owner ← gets uuid;
  _ ← acquire owner;
  run ← start kind now;
  _ ← modify (λ s, s <| mc_failures := [] |> <| mc_staging := None |>);
  finally (try_catch (backup_body config c kind owner run now) (backup_failed run now)) (cleanup owner).

(** ** The other commands *)
Definition checkBackup (config : ZosConfig) : prog machine (option BackupRunSummary) :=
  c ← check (checked_config config);
  owner ← gets uuid;
  _ ← acquire owner;
  run ← start check_run None;
  finally
    (let id := rs_id run in
     _ ← ensureLease owner;
     target ← target_readiness c (repository_of c);
     match target with
     | Some reason =>
         _ ← record id None "repository" "BACKUP_TARGET_NOT_READY" reason;
         finish id (failed_end ("Backup target is not ready: " +:+ reason)) None
     | None =>
         _ ← ensureLease owner;
         result ← runResticWithRetry ["check"; "--repo"; repository_of c] c;
         if negb (bool_decide (rx_code result = 0)) then
           let reason := nonempty (said result) ⁇ "repository check failed" in
           _ ← record id None "repository" "REPO_CHECK_FAILED" reason;
           finish id (failed_end reason) None
         else finish id (BackupEnd finish_completed [] (lit 0) (lit 0) true None) None
     end)
    (release owner).
Definition restore_body (config : ZosConfig) (c : BackupConfig) (owner : string) (run : BackupRunSummary) (snapshot : string) : prog machine string :=
  let id := rs_id run in
  let or_fail result path code what :=
    if bool_decide (rx_code result = 0) then mret tt
    else let reason := what +:+ said result in fail_with id path code reason reason in
  _ ← ensureLease owner;
  checked ← runResticWithRetry ["check"; "--repo"; repository_of c] c;
  _ ← or_fail checked "repository" "REPO_CHECK_FAILED" "repository check failed: ";
  _ ← on_disk (mkdir_recursive (bk_stagingPath c));
  suffix ← gets random;
  stagingPath ← on_disk (mkdtemp (path_join [bk_stagingPath c; "restore-"]) suffix);
  _ ← ensureLease owner;
  dryRun ← runResticWithRetry ["restore"; snapshot; "--dry-run"; "--repo"; repository_of c; "--target"; stagingPath] c;
  _ ← or_fail dryRun "restore" "RESTORE_DRY_RUN_FAILED" "restore dry-run failed: ";
  _ ← ensureLease owner;
  result ← runResticWithRetry ["restore"; snapshot; "--repo"; repository_of c; "--target"; stagingPath] c;
  _ ← or_fail result "restore" "RESTORE_FAILED" "restore failed: ";
  found ← on_disk (findManifest stagingPath);
  match found with
  | None => throw (Error "restore manifest not found")
  | Some manifestPath =>
      let manifestRoot := dirname manifestPath in
      text ← on_disk (readFile manifestPath);
      match JSON_parse text with
      | None => throw (Exn "SyntaxError" "Unexpected token in JSON" None None [])
      | Some manifest =>
          _ ← on_disk (validateManifest pwd sha256 manifest manifestRoot config);
          _ ← finish id (BackupEnd finish_completed [snapshot] (lit 0) (lit 0) true None) None;
          mret stagingPath
      end
  end.
Definition restoreBackup (config : ZosConfig) (snapshot : string) : prog machine string :=
  c ← check (checked_config config);
  owner ← gets uuid;
  _ ← acquire owner;
  run ← start restore_run None;
  finally
    (try_catch (restore_body config c owner run snapshot)
       (λ e, _ ← finish (rs_id run) (BackupEnd finish_failed [snapshot] (lit 0) (lit 0) false (Some (exn_message e))) None; throw e))
    (release owner).
(** What is there of a path, for the checks before the first backup. *)
Definition isRegularFile (p : string) (otherwise : exn) : prog machine unit :=
  n ← on_disk (stat p); guard_throw (negb (is_file n)) otherwise.
Definition initBackup (config : ZosConfig) : prog machine unit :=
  c ← check (checked_config config);
  match bk_repositoryPath c ≫= nonempty, bk_passwordFile c ≫= nonempty with
  | None, _ => throw (Error "Backup repository is not configured")
  | _, None => throw (Error "Backup password file is not configured")
  | Some repositoryPath, Some passwordFile =>
      _ ← isRegularFile passwordFile (Error "Backup password file is not a regular file");
      _ ← on_disk (access passwordFile);
      repositoryExists ← try_catch (_ ← on_disk (stat repositoryPath); mret true) (λ _, mret false);
      let place := if repositoryExists : bool then repositoryPath else dirname repositoryPath in
      _ ← on_disk (access place);
      target ← target_readiness c place;
      _ ← match target with None => mret tt | Some reason => throw (Error ("Backup target is not ready: " +:+ reason)) end;
      owner ← gets uuid;
      _ ← acquire owner;
      finally
        (_ ← ensureLease owner;
         result ← runResticWithRetry ["init"; "--repo"; repositoryPath] c;
         _ ← ensureLease owner;
         guard_throw (negb (bool_decide (rx_code result = 0))) (Error ("restic init failed: " +:+ said result)))
        (release owner)
  end.
Definition validateBackup (config : ZosConfig) : prog machine (list string) :=
  let c := zc_backup config in
  let issue_when (b : bool) s := if b then [s : string] else [] in
  if negb (bk_enabled c) then mret [] else
  let repositoryPath := bk_repositoryPath c ≫= nonempty in
  let passwordFile := bk_passwordFile c ≫= nonempty in
  let issues := validateBackupPaths config ++ issue_when (negb (isSome repositoryPath)) "repository not configured" ++
                issue_when (negb (isSome passwordFile)) "password file not configured" in
  password ← match passwordFile with
             | None => mret []
             | Some p =>
                 try_catch (n ← on_disk (stat p);
                            if negb (is_file n) then mret ["password file is not a regular file"]
                            else try_catch (_ ← on_disk (access p); mret []) (λ _, mret ["password file not readable"]))
                           (λ _, mret ["password file not readable"])
             end;
  repository ← match repositoryPath with
               | None => mret []
               | Some p =>
                   reachable ← try_catch (_ ← on_disk (access p); mret []) (λ _, mret ["repository not accessible or writable"]);
                   target ← target_readiness c p;
                   mret (reachable ++ from_option (λ reason, ["backup target " +:+ reason]) [] target)
               end;
  let issues := issues ++ password ++ repository in
  if negb (bool_decide (issues = [])) then mret issues else
  result ← runResticWithRetry ["snapshots"; "--repo"; repository_of c] c;
  mret (issue_when (negb (bool_decide (rx_code result = 0)) && negb (includes "no snapshots found" (toLowerCase (rx_stderr result))))
          ("restic unavailable (" +:+ said result +:+ ")")).
Definition listBackups (d : backup_db) : list BackupRunSummary := listBackupRuns 30 d.

(** ** What every piece keeps *)
(** From [s] to [s']: the log grows, the tables stay well formed, and a
    failure that was noted stays noted. *)
Record ext (s s' : machine) : Prop := Ext {
  ext_log : ∃ l, mc_log s' = mc_log s ++ l;
  ext_runs : runs_ok (mc_db s) → runs_ok (mc_db s');
  ext_failures : mc_failures s' = [] → mc_failures s = []
}.
Lemma ext_refl s : ext s s.
Proof. split; [|done|done]. exists []. by rewrite app_nil_r. Qed.
Lemma ext_trans s1 s2 s3 : ext s1 s2 → ext s2 s3 → ext s1 s3.
Proof.
  intros [[l1 H1] R1 F1] [[l2 H2] R2 F2]. split; [|by auto|by auto]. exists (l1 ++ l2). by rewrite H2, H1, app_assoc.
Qed.
Lemma keeps_ext_one {A} s0 (m : prog machine A) : (∀ s, ext s (m s).2) → keeps (ext s0) m.
Proof. intros H s Hs. eapply ext_trans; [done|apply H]. Qed.
Lemma keeps_ext {A} (m : prog machine A) s r s' : (∀ s0, keeps (ext s0) m) → m s = (r, s') → ext s s'.
Proof. intros H E. specialize (H s s (ext_refl s)). by rewrite E in H. Qed.
Lemma keeps_on_db {A} s0 (m : backup_prog A) : keeps runs_ok m → keeps (ext s0) (on_db m).
Proof.
  intros Hm. apply keeps_ext_one. intros s. unfold on_db. destruct (m (mc_db s)) as [r d] eqn:E. cbn. split; cbn; [|intros Hr|done].
  - exists []. by rewrite app_nil_r.
  - specialize (Hm _ Hr). by rewrite E in Hm.
Qed.
Lemma keeps_on_disk {A} s0 (m : prog disk A) : keeps (ext s0) (on_disk m).
Proof.
  apply keeps_ext_one. intros s. unfold on_disk. destruct (m (mc_disk s)) as [r d]. cbn. split; [|done|done]. exists []. by rewrite app_nil_r.
Qed.
Lemma keeps_run_restic s0 args : keeps (ext s0) (run_restic args).
Proof.
  apply keeps_ext_one. intros s. unfold run_restic. cbn. split; cbn; [by eexists|apply steps_runs_ok|done].
Qed.
Lemma keeps_retry s0 n args result : keeps (ext s0) (retry_restic n args result).
Proof.
  revert result. induction n as [|n IH]; intros result; cbn [retry_restic]; [apply keeps_ret|]. case_bool_decide; [apply keeps_ret|].
  apply keeps_bind; [apply keeps_run_restic|done].
Qed.
Lemma keeps_restic s0 args c : keeps (ext s0) (runResticWithRetry args c).
Proof. apply keeps_bind; [apply keeps_run_restic|]. intros r. apply keeps_retry. Qed.
Lemma keeps_lease s0 owner : keeps (ext s0) (ensureLease owner).
Proof. unfold ensureLease. keeps_all. Qed.
Lemma ext_record s0 runId rootId path code reason : keeps (ext s0) (record runId rootId path code reason).
Proof. unfold record. keeps_all. apply keeps_on_db, record_runs_ok. Qed.
Lemma ext_finish s0 runId e now : keeps (ext s0) (finish runId e now).
Proof. unfold finish. keeps_all. apply keeps_on_db, backup_finish_ok. Qed.
Lemma keeps_root_failed s0 root runId code reason : keeps (ext s0) (root_failed root runId code reason).
Proof.
  unfold root_failed. apply keeps_bind; [|intros; apply ext_record]. apply keeps_ext_one. intros s. cbn. split; cbn; [|done|].
  - exists []. by rewrite app_nil_r.
  - intros H. by apply app_eq_nil in H as [_ ?].
Qed.

#[local] Hint Resolve keeps_on_disk keeps_restic keeps_lease ext_record ext_finish keeps_root_failed : keeps.
Lemma keeps_fail_with s0 {A} runId path code reason message : keeps (ext s0) (fail_with (A:=A) runId path code reason message).
Proof. unfold fail_with. keeps_all. Qed.
Lemma ext_target s0 c path : keeps (ext s0) (target_readiness c path).
Proof. unfold target_readiness. keeps_all. Qed.
Lemma keeps_upsert readiness : keeps runs_ok (λ d, let '(r, roots) := upsertRootReadiness readiness (bd_roots d) in (r, d <| bd_roots := roots |>)).
Proof. intros d Hd. destruct (upsertRootReadiness _ _) as [r roots]. by destruct Hd; split. Qed.
Lemma keeps_roots s0 runId roots : keeps (ext s0) (roots_readiness runId roots).
Proof.
  induction roots as [|root roots IH]; cbn [roots_readiness]; [apply keeps_ret|]. keeps_all; try done.
  apply keeps_on_db, keeps_upsert.
Qed.
Lemma keeps_fill s0 config runId runStaging : keeps (ext s0) (fill_staging config runId runStaging).
Proof. unfold fill_staging. keeps_all. Qed.
Lemma keeps_save_roots s0 c kind owner runId roots p : keeps (ext s0) (save_roots c kind owner runId roots p).
Proof.
  revert p. induction roots as [|root roots IH]; intros p; cbn [save_roots]; [apply keeps_ret|]. keeps_all; try done.
Qed.
#[local] Hint Resolve keeps_fail_with ext_target keeps_roots keeps_fill keeps_save_roots : keeps.
Lemma keeps_save_state s0 c kind owner runId runStaging p : keeps (ext s0) (save_state c kind owner runId runStaging p).
Proof. unfold save_state. keeps_all. Qed.
Lemma keeps_maintain s0 c owner runId : keeps (ext s0) (maintain c owner runId).
Proof. unfold maintain. keeps_all. Qed.
Lemma keeps_staging s0 p : keeps (ext s0) (modify (λ s, s <| mc_staging := p |>)).
Proof. apply keeps_ext_one. intros s. split; [|done|done]. exists []. by rewrite app_nil_r. Qed.
#[local] Hint Resolve keeps_save_state keeps_maintain keeps_staging : keeps.
Lemma keeps_body s0 config c kind owner run now : keeps (ext s0) (backup_body config c kind owner run now).
Proof. unfold backup_body. keeps_all. Qed.
Lemma keeps_failed s0 run now e : keeps (ext s0) (backup_failed run now e).
Proof. unfold backup_failed. keeps_all. Qed.

(** ** What the calls said *)
(** Between [s] and [s'] restic was called with [args] and ended with [r]. *)
Definition called (s s' : machine) (args : list string) (r : restic_exit) : Prop := ∃ l, mc_log s' = mc_log s ++ l ∧ In (args, r) l.
Lemma called_later s s' s'' args r : called s s' args r → ext s' s'' → called s s'' args r.
Proof. intros (l & H & Hin) [[l2 H2] _ _]. exists (l ++ l2). rewrite H2, H, app_assoc. split; [done|]. apply in_app_iff. by left. Qed.
Lemma called_earlier s0 s s' args r : ext s0 s → called s s' args r → called s0 s' args r.
Proof. intros [[l1 H1] _ _] (l & H & Hin). exists (l1 ++ l). rewrite H, H1, app_assoc. split; [done|]. apply in_app_iff. by right. Qed.
Lemma retry_called n args result s r s' : retry_restic n args result s = (inr r, s') → r = result ∨ called s s' args r.
Proof.
  revert result s. induction n as [|n IH]; intros result s; cbn [retry_restic]; [intros [= <- <-]; by left|].
  case_bool_decide as Ec; [intros [= <- <-]; by left|]. intros (r1 & s1 & H1 & H)%bind_inv. right.
  assert (called s s1 args r1) as Hc. { injection H1 as <- <-. eexists. split; [done|by left]. }
  pose proof (keeps_ext _ _ _ _ (λ s0, keeps_retry s0 n args r1) H) as He. apply IH in H as [->|H]; [by eapply called_later|].
  eapply called_earlier; [|done]. eapply (keeps_ext _ _ _ _ (λ s0, keeps_run_restic s0 args)); done.
Qed.
Lemma restic_called args c s r s' : runResticWithRetry args c s = (inr r, s') → called s s' args r.
Proof.
  intros (r1 & s1 & H1 & H)%bind_inv.
  assert (called s s1 args r1) as Hc. { injection H1 as <- <-. eexists. split; [done|by left]. }
  pose proof (keeps_ext _ _ _ _ (λ s0, keeps_retry s0 _ args r1) H) as He. apply retry_called in H as [->|H]; [by eapply called_later|].
  eapply called_earlier; [|done]. eapply (keeps_ext _ _ _ _ (λ s0, keeps_run_restic s0 args)); done.
Qed.
(** A directory was saved: restic ended well and named its snapshots, which
    are among [ids]. *)
Definition was_saved (s s' : machine) (args : list string) (ids : list string) : Prop :=
  ∃ r, called s s' args r ∧ rx_code r = 0 ∧ parseSnapshotIds (rx_stdout r) ≠ [] ∧ ∀ id, id ∈ parseSnapshotIds (rx_stdout r) → id ∈ ids.
Lemma was_saved_mono s0 s s' s'' args ids ids' : ext s0 s → ext s' s'' → (∀ id, id ∈ ids → id ∈ ids') →
  was_saved s s' args ids → was_saved s0 s'' args ids'.
Proof.
  intros H1 H2 H3 (r & Hr & Hc & Hne & Hids). exists r. split_and!; [|done|done|auto]. eapply called_earlier; [done|]. by eapply called_later.
Qed.
(** The tables but for the last check of each root. *)
Definition only_readiness (d d' : backup_db) : Prop :=
  bd_locks d' = bd_locks d ∧ bd_runs d' = bd_runs d ∧ bd_failures d' = bd_failures d ∧ rt_roots (bd_roots d') = rt_roots (bd_roots d).
Lemma upsert_only readiness d r d' : (let '(r, roots) := upsertRootReadiness readiness (bd_roots d) in (r, d <| bd_roots := roots |>)) = (r, d') →
  only_readiness d d'.
Proof.
  unfold upsertRootReadiness. intros H. destruct (isSome _); [by injection H as _ <-|]. destruct (negb _); injection H as _ <-; [|done].
  by split_and!.
Qed.
(** A check of the mount looks at the tree. *)
Lemma readiness_same root t s r s' : on_disk (checkMountReadiness pwd findmnt root t) s = (inr r, s') →
  mc_db s' = mc_db s ∧ dk_fs (mc_disk s') = dk_fs (mc_disk s).
Proof.
  unfold on_disk. destruct (readiness_looks pwd findmnt root t (mc_disk s)) as (r1 & d & E & F). rewrite E. intros H. injection H as _ <-. by split.
Qed.
Lemma roots_all_ready runId roots s ready s' : roots_readiness runId roots s = (inr ready, s') → mc_failures s' = [] →
  ready = roots ∧ only_readiness (mc_db s) (mc_db s') ∧ dk_fs (mc_disk s') = dk_fs (mc_disk s).
Proof.
  revert s ready s'. induction roots as [|root roots IH]; intros s ready s' H Hf; cbn [roots_readiness] in H; [by injection H as <- <-; split_and!|].
  apply bind_inv in H as (t & s1 & H1 & H). injection H1 as _ <-. apply bind_inv in H as (readiness & s2 & H2 & H). apply bind_inv in H as (u & s3 & H3 & H).
  destruct (why_not readiness) as [reason|].
  - apply bind_inv in H as ([] & s4 & Hr & H).
    pose proof (keeps_ext _ _ _ _ (λ s0, keeps_roots s0 runId roots) H) as [_ _ F]. specialize (F Hf).
    unfold root_failed in Hr. apply bind_inv in Hr as ([] & s5 & Hm & Hr). injection Hm as <-.
    apply (keeps_ext _ _ _ _ (λ s0, ext_record s0 _ _ _ _ _)) in Hr as [_ _ F2]. specialize (F2 F). cbn in F2. by apply app_eq_nil in F2 as [_ ?].
  - apply bind_inv in H as (l & s4 & H & H4). injection H4 as <- <-. destruct (IH _ _ _ H Hf) as (-> & Ho & F). split; [done|].
    apply readiness_same in H2 as [E2 F2]. unfold on_db in H3. destruct (upsertRootReadiness _ _) as [r3 d3] eqn:Eu. injection H3 as -> <-.
    pose proof (upsert_only readiness (mc_db s2) (inr u) (mc_db s2 <| bd_roots := d3 |>)) as Hu. rewrite Eu in Hu. specialize (Hu eq_refl).
    cbn [mc_db mc_disk] in *. rewrite E2 in *. rewrite F2 in F. split; [|exact F]. destruct Ho as (O1 & O2 & O3 & O4), Hu as (U1 & U2 & U3 & U4).
    cbn in *. split_and!; congruence.
Qed.
Lemma saved_ids p r ids : pg_snapshotIds (saved p r ids) = pg_snapshotIds p ++ ids.
Proof. unfold saved. by destruct (parseBackupStats _). Qed.
Lemma root_failed_noted root runId code reason s r s' : root_failed root runId code reason s = (r, s') → mc_failures s' ≠ [].
Proof.
  unfold root_failed. intros H Hf. unfold mbind, prog_bind in H. cbn in H.
  apply (keeps_ext _ _ _ _ (λ s0, ext_record s0 _ _ _ _ _)) in H as [_ _ F]. specialize (F Hf). cbn in F. by apply app_eq_nil in F as [_ ?].
Qed.
Lemma roots_all_saved c kind owner runId roots p s p' s' : save_roots c kind owner runId roots p s = (inr p', s') → mc_failures s' = [] →
  (∀ id, id ∈ pg_snapshotIds p → id ∈ pg_snapshotIds p') ∧
  ∀ root, In root roots → was_saved s s' (backup_args c kind (rc_path root)) (pg_snapshotIds p').
Proof.
  revert p s. induction roots as [|root roots IH]; intros p s H Hf; cbn [save_roots] in H; [by injection H as <- <-|].
  apply bind_inv in H as ([] & s1 & Hl & H). apply (keeps_ext _ _ _ _ (λ s0, keeps_lease s0 owner)) in Hl.
  apply bind_inv in H as (r & s2 & Hr & H). pose proof (keeps_ext _ _ _ _ (λ s0, keeps_restic s0 _ c) Hr) as He. apply restic_called in Hr.
  assert (∀ code reason p1, (_ ← root_failed root runId code reason; save_roots c kind owner runId roots p1) s2 = (inr p', s') → False) as Hnone.
  { intros code reason p1 (u & s3 & H1 & H2)%bind_inv. apply root_failed_noted in H1. apply H1.
    by apply (keeps_ext _ _ _ _ (λ s0, keeps_save_roots s0 _ _ _ _ _ _)) in H2 as [_ _ F]; auto. }
  destruct (negb _) eqn:Ec; [by apply Hnone in H|]. apply negb_false_iff, bool_decide_eq_true in Ec.
  destruct (parseSnapshotIds (rx_stdout r)) as [|i ids] eqn:Ei; [by apply Hnone in H|].
  pose proof (keeps_ext _ _ _ _ (λ s0, keeps_save_roots s0 _ _ _ _ _ _) H) as He2. apply IH in H as [H1 H2]; [|done]. rewrite saved_ids in H1.
  split; [intros id Hid; apply H1, elem_of_app; by left|]. intros root' [<-|Hin].
  - exists r. split_and!; [|done|by rewrite Ei|].
    + eapply called_earlier; [exact Hl|]. by eapply called_later.
    + rewrite Ei. intros id Hid. apply H1, elem_of_app. by right.
  - apply (was_saved_mono s s2 s' s' _ (pg_snapshotIds p')); [by eapply ext_trans|apply ext_refl|done|by apply H2].
Qed.

Lemma distinct_in (l : list string) id : id ∈ l → id ∈ distinct l.
Proof. by rewrite distinct_elem_of. Qed.
Lemma state_saved c kind owner runId runStaging p s p' s' : save_state c kind owner runId runStaging p s = (inr p', s') →
  (∀ id, id ∈ pg_snapshotIds p → id ∈ pg_snapshotIds p') ∧ was_saved s s' (backup_args c kind runStaging) (pg_snapshotIds p').
Proof.
  unfold save_state. intros ([] & s1 & Hl & H)%bind_inv. apply (keeps_ext _ _ _ _ (λ s0, keeps_lease s0 owner)) in Hl.
  apply bind_inv in H as (r & s2 & Hr & H). apply restic_called in Hr. destruct (negb _) eqn:Ec.
  { by apply bind_inv in H as (u & s3 & _ & H). }
  apply negb_false_iff, bool_decide_eq_true in Ec. destruct (parseSnapshotIds (rx_stdout r)) as [|i ids] eqn:Ei.
  { by apply bind_inv in H as (u & s3 & _ & H). }
  injection H as <- <-. cbn [pg_snapshotIds]. rewrite saved_ids. split.
  - intros id Hid. apply distinct_in, elem_of_app. by left.
  - exists r. split_and!; [by eapply called_earlier|done|by rewrite Ei|]. rewrite Ei. intros id Hid. apply distinct_in, elem_of_app. by right.
Qed.
(** restic ended well with these arguments. *)
Definition ran (s s' : machine) (args : list string) : Prop := ∃ r, called s s' args r ∧ rx_code r = 0.
Definition check_args (c : BackupConfig) : list string := ["check"; "--repo"; repository_of c].
Definition forget_args (c : BackupConfig) : list string :=
  ["forget"; "--repo"; repository_of c; "--keep-daily"; number_text (bk_keepDaily c); "--keep-weekly"; number_text (bk_keepWeekly c); "--prune"].
Lemma maintained c owner runId s u s' : maintain c owner runId s = (inr u, s') → ran s s' (check_args c) ∧ ran s s' (forget_args c).
Proof.
  unfold maintain. intros ([] & s1 & Hl1 & H)%bind_inv. apply (keeps_ext _ _ _ _ (λ s0, keeps_lease s0 owner)) in Hl1.
  apply bind_inv in H as (r1 & s2 & Hr1 & H). pose proof (keeps_ext _ _ _ _ (λ s0, keeps_restic s0 _ c) Hr1) as He1. apply restic_called in Hr1.
  apply bind_inv in H as ([] & s3 & Hc1 & H). case_bool_decide as Ec1; [|by apply bind_inv in Hc1 as (? & ? & _ & ?)]. injection Hc1 as <-.
  apply bind_inv in H as ([] & s3 & Hl2 & H). apply (keeps_ext _ _ _ _ (λ s0, keeps_lease s0 owner)) in Hl2.
  apply bind_inv in H as (r2 & s4 & Hr2 & H). pose proof (keeps_ext _ _ _ _ (λ s0, keeps_restic s0 _ c) Hr2) as He2. apply restic_called in Hr2.
  case_bool_decide as Ec2; [|by apply bind_inv in H as (? & ? & _ & ?)]. injection H as _ <-. split.
  - exists r1. split; [|done]. eapply called_earlier; [done|]. eapply called_later; [done|]. by eapply ext_trans.
  - exists r2. split; [|done]. eapply called_earlier; [|done]. eapply ext_trans; [done|]. by eapply ext_trans.
Qed.
Lemma finish_run runId e now s o s' : runs_ok (mc_db s) → finish runId e now s = (inr (Some o), s') →
  getBackupRun runId (mc_db s') = Some o ∧ rs_id o = runId ∧ rs_status o = finish_status (be_status e) ∧ rs_snapshotIds o = be_snapshotIds e ∧
  rs_verified o = be_verified e.
Proof.
  intros Hok. unfold finish. unfold mbind, prog_bind, gets. unfold on_db. destruct (finishBackupRun _ _ _ _) as [r d] eqn:E. intros [= -> <-].
  apply finish_reports in E as (H1 & H2 & H3 & H4 & H5 & _); [|done]. by split_and!.
Qed.

(** *** What restic was given *)
(** restic's answers keep [P] of the tree. *)
Definition restic_keeps (P : fs → Prop) : Prop := ∀ log args d f, P f → P (an_tree (restic log args d f)).
Definition tree_of (s : machine) : fs := dk_fs (mc_disk s).
(** restic was called when the machine was [call], and ended with [r]. *)
Definition called_in (call s' : machine) (args : list string) (r : restic_exit) : Prop :=
  r = an_exit (restic (mc_log call) args (mc_db call) (tree_of call)) ∧ ∃ l, mc_log s' = mc_log call ++ (args, r) :: l.
Lemma tree_run_restic (P : fs → Prop) args : restic_keeps P → keeps (λ s, P (tree_of s)) (run_restic args).
Proof. intros HP s Hs. by apply HP. Qed.
Lemma tree_restic (P : fs → Prop) args c : restic_keeps P → keeps (λ s, P (tree_of s)) (runResticWithRetry args c).
Proof.
  intros HP. apply keeps_bind; [by apply tree_run_restic|]. generalize (retries (bk_retryCount c)). intros n r. revert r.
  induction n as [|n IH]; intros r; cbn [retry_restic]; [apply keeps_ret|]. case_bool_decide; [apply keeps_ret|].
  apply keeps_bind; [by apply tree_run_restic|done].
Qed.
Lemma tree_on_db {A : Type} (P : fs → Prop) (m : backup_prog A) : keeps (λ s, P (tree_of s)) (on_db m).
Proof. intros s Hs. unfold on_db. by destruct (m (mc_db s)). Qed.
Lemma tree_save_roots (P : fs → Prop) c kind owner runId roots p : restic_keeps P → keeps (λ s, P (tree_of s)) (save_roots c kind owner runId roots p).
Proof.
  intros HP. revert p. induction roots as [|root roots IH]; intros p; cbn [save_roots]; [apply keeps_ret|].
  assert (∀ code reason, keeps (λ s, P (tree_of s)) (root_failed root runId code reason)) as Hf.
  { intros code reason. unfold root_failed, record. apply keeps_bind; [by intros s Hs|intros _]. keeps_all. apply tree_on_db. }
  apply keeps_bind; [unfold ensureLease; keeps_all|intros _]. apply keeps_bind; [by apply tree_restic|intros r].
  destruct (negb _); [by apply keeps_bind|]. destruct (parseSnapshotIds _); [by apply keeps_bind|done].
Qed.
Lemma called_in_retry n args result s r s' : retry_restic n args result s = (inr r, s') →
  (r = result ∧ s' = s) ∨ ∃ call, called_in call s' args r ∧ ∀ P, restic_keeps P → P (tree_of s) → P (tree_of call).
Proof.
  revert result s. induction n as [|n IH]; intros result s; cbn [retry_restic]; [intros [= <- <-]; by left|].
  case_bool_decide as Ec; [intros [= <- <-]; by left|]. intros (r1 & s1 & H1 & H)%bind_inv. right. apply IH in H as [[-> ->]|(call & Hc & Hp)].
  - injection H1 as <- <-. exists s. split; [|done]. split; [done|]. by exists [].
  - exists call. split; [done|]. intros P HP Hs. apply Hp; [done|]. pose proof (tree_run_restic P args HP s Hs) as Hk. by rewrite H1 in Hk.
Qed.
Lemma called_in_restic args c s r s' : runResticWithRetry args c s = (inr r, s') →
  ∃ call, called_in call s' args r ∧ ∀ P, restic_keeps P → P (tree_of s) → P (tree_of call).
Proof.
  intros (r1 & s1 & H1 & H)%bind_inv. apply called_in_retry in H as [[-> ->]|(call & Hc & Hp)].
  - injection H1 as <- <-. exists s. split; [|done]. split; [done|]. by exists [].
  - exists call. split; [done|]. intros P HP Hs. apply Hp; [done|]. pose proof (tree_run_restic P args HP s Hs) as Hk. by rewrite H1 in Hk.
Qed.
Lemma lease_same owner s s' : ensureLease owner s = (inr tt, s') → s' = s.
Proof. unfold ensureLease. intros (h & s1 & H1 & H)%bind_inv. injection H1 as _ <-. by apply guard_inv in H as [_ ->]. Qed.
Lemma state_given c kind owner runId runStaging p s p' s' : save_state c kind owner runId runStaging p s = (inr p', s') →
  ∃ call r, called_in call s' (backup_args c kind runStaging) r ∧ rx_code r = 0 ∧ parseSnapshotIds (rx_stdout r) ≠ [] ∧
    (∀ id, id ∈ parseSnapshotIds (rx_stdout r) → id ∈ pg_snapshotIds p') ∧ ∀ P, restic_keeps P → P (tree_of s) → P (tree_of call).
Proof.
  unfold save_state. intros ([] & s1 & ->%lease_same & H)%bind_inv. apply bind_inv in H as (r & s2 & Hr & H).
  apply called_in_restic in Hr as (call & Hc & Hp). destruct (negb _) eqn:Ec; [by apply bind_inv in H as (u & s3 & _ & H)|].
  apply negb_false_iff, bool_decide_eq_true in Ec. destruct (parseSnapshotIds (rx_stdout r)) as [|i ids] eqn:Ei.
  { by apply bind_inv in H as (u & s3 & _ & H). }
  injection H as <- <-. exists call, r. cbn [pg_snapshotIds]. rewrite saved_ids, Ei. split_and!; try done.
  intros id Hid. apply distinct_in, elem_of_app. by right.
Qed.

(** *** The staging directory *)
Lemma mkdtemp_made d prefix suffix s p s' : wf (dk_fs s) → dk_fs s !! d = Some Dir → plain_name prefix → plain_name (prefix +:+ suffix) →
  mkdtemp (path_join [rooted d; prefix]) suffix s = (inr p, s') →
  let t := d ++ [prefix +:+ suffix] in p = rooted t ∧ dk_fs s !! t = None ∧ dk_fs s' = <[t := Dir]> (dk_fs s) ∧ wf (dk_fs s').
Proof.
  intros Hwf Hd Hp Hx H. pose proof (wf_plain _ Hwf _ _ Hd) as Hdp. unfold mkdtemp in H. apply bind_inv in H as ([] & s1 & H1 & H). injection H as <- <-.
  rewrite path_join_rooted, rooted_suffix in * by done. apply make_effect in H1; [|done|by apply clear_dir|done|done].
  destruct H1 as [[_ [e ?]]|(_ & _ & Hno & E)]; [done|]. split_and!; [done..|]. rewrite E. by apply wf_insert.
Qed.
(** The staging path is given as the directory [d], without links in the tree
    [f]; the id of the run and the letters of the temporary name are names. *)
Record staging_known (c : BackupConfig) (runId : string) (f : fs) (d : list string) : Prop := StagingKnown {
  sk_wf : wf f; sk_path : bk_stagingPath c = rooted d; sk_plain : Forall plain_name d; sk_clear : clear f d;
  sk_id : no_char sep runId; sk_random : ∀ s, no_char sep (random s) }.
Lemma run_prefix runId : no_char sep runId → plain_name ("run-" +:+ runId +:+ "-") ∧ ∀ x, no_char sep x → plain_name (("run-" +:+ runId +:+ "-") +:+ x).
Proof.
  intros H. assert (no_char sep ("run-" +:+ runId +:+ "-")) as Hn by (apply (no_char_app sep "run-"); [done|by apply no_char_app]).
  assert (2 < String.length ("run-" +:+ runId +:+ "-"))%nat as Hlen by (rewrite !length_append; cbn; lia). split.
  - apply (plain_long "run-"); [done|done|by apply no_char_app].
  - intros x Hx. apply plain_long; [rewrite length_append; lia|done|done].
Qed.
Lemma staging_made c runId d s s1 s2 p : staging_known c runId (tree_of s) d →
  on_disk (mkdir_recursive (bk_stagingPath c)) s = (inr tt, s1) →
  on_disk (mkdtemp (path_join [bk_stagingPath c; "run-" +:+ runId +:+ "-"]) (random s1)) s1 = (inr p, s2) →
  mc_db s2 = mc_db s ∧ ∃ t, under d t ∧ p = rooted t ∧ tree_of s !! t = None ∧ wf (tree_of s2) ∧ tree_of s2 !! t = Some Dir ∧
    (∀ y, tree_of s2 !! (t ++ [y]) = None) ∧ ∀ q data, tree_of s !! q = Some (File data) → tree_of s2 !! q = Some (File data).
Proof.
  intros [Hwf Hpath Hd Hc Hid Hran]. pose proof (run_prefix runId Hid) as Hpre. revert Hpre. generalize ("run-" +:+ runId +:+ "-"). intros prefix [Hp1 Hp2] H1 H2.
  rewrite Hpath in *. unfold on_disk in H1, H2. unfold tree_of in *.
  destruct (mkdir_recursive (rooted d) (mc_disk s)) as [r1 k1] eqn:E1. injection H1 as -> <-. cbn [mc_disk mc_db] in *.
  apply mkdir_recursive_effect in E1 as (Hw1 & Ha & Hd1); [|done..]. specialize (Hd1 tt eq_refl).
  match type of H2 with (let '(r, d) := ?m in _) = _ => destruct m as [r2 k2] eqn:E2 end. injection H2 as -> <-.
  cbn [mc_disk mc_db] in *. split; [done|].
  apply mkdtemp_made in E2 as (-> & Hno & Ef & Hw2); [|done|done|done|by apply Hp2].
  set (t := d ++ _) in *. assert (∀ p n, dk_fs (mc_disk s) !! p = Some n → dk_fs k1 !! p = Some n) as Hmono.
  { intros q n Hq. destruct (Ha q) as [->|(Hq2 & _)]; [done|congruence]. }
  exists t. split_and!; [by eexists|done| |done|by rewrite Ef, lookup_insert_eq|..].
  - destruct (dk_fs (mc_disk s) !! t) as [n|] eqn:Et; [|done]. apply Hmono in Et. congruence.
  - intros y. rewrite Ef, lookup_insert_ne; [by apply wf_missing|]. intros E. apply (f_equal length) in E. rewrite length_app in E. cbn in E. lia.
  - intros q data Hq. rewrite Ef, lookup_insert_ne; [by apply Hmono|]. intros <-. apply Hmono in Hq. congruence.
Qed.
Lemma on_disk_inv {A : Type} (m : prog disk A) s r s' : on_disk m s = (r, s') →
  m (mc_disk s) = (r, mc_disk s') ∧ mc_db s' = mc_db s.
Proof. unfold on_disk. destruct (m (mc_disk s)) as [r1 k]. intros H. injection H as -> <-. by split. Qed.
Lemma fill_made config runId t s s' : wf (tree_of s) → tree_of s !! t = Some Dir → (∀ y, tree_of s !! (t ++ [y]) = None) →
  fill_staging config runId (rooted t) s = (inr tt, s') → staged_state sha256 config runId (image (mc_db s)) (tree_of s) t (tree_of s').
Proof.
  intros Hwf Ht Hnew H. unfold fill_staging in H. rewrite bind_gets in H. cbv zeta in H.
  apply bind_inv in H as ([] & s1 & [H1 _]%on_disk_inv & H). apply bind_inv in H as ([] & s2 & [H2 _]%on_disk_inv & H).
  rewrite bind_gets in H. apply bind_inv in H as (m & s3 & [H3 _]%on_disk_inv & H). apply on_disk_inv in H as [H4 _].
  by eapply filled.
Qed.

(** The last directory that was saved: the run began with the tables [started]
    in the tree [f].  restic was called with it, ended well and named
    snapshots that the report lists.  When the staging path is known and
    restic leaves what is below it alone, the directory was new and holds the
    state of the program, as the tables were [at_copy]. *)
Definition state_is_saved (config : ZosConfig) (c : BackupConfig) (kind : BackupRunKind) (started : backup_db) (f : fs) (s' : machine)
    (o : BackupRunSummary) : Prop :=
  ∃ runStaging at_copy call r, called_in call s' (backup_args c kind runStaging) r ∧ rx_code r = 0 ∧ parseSnapshotIds (rx_stdout r) ≠ [] ∧
    (∀ id, id ∈ parseSnapshotIds (rx_stdout r) → id ∈ rs_snapshotIds o) ∧ only_readiness started at_copy ∧
    ∀ d, staging_known c (rs_id o) f d → (∀ log args db g p, under d p → an_tree (restic log args db g) !! p = g !! p) →
      ∃ t, under d t ∧ f !! t = None ∧ runStaging = rooted t ∧
           staged_state sha256 config (rs_id o) (image at_copy) f t (tree_of call).

(** What a completed backup has done, between [s] and [s']; [started] and [f]
    are the tables and the tree when its run began. *)
Record completed (config : ZosConfig) (c : BackupConfig) (kind : BackupRunKind) (started : backup_db) (f : fs) (s s' : machine)
    (o : BackupRunSummary) : Prop := Completed {
  cm_roots : ∀ root, In root (zc_nasRoots config) → was_saved s s' (backup_args c kind (rc_path root)) (rs_snapshotIds o);
  cm_state : state_is_saved config c kind started f s' o;
  cm_visible : ∃ r, called s s' ["snapshots"; "--json"; "--repo"; repository_of c] r ∧ rx_code r = 0 ∧
                    snapshotVisible (rx_stdout r) (rs_snapshotIds o) = true;
  cm_weekly : kind = weekly → ran s s' (check_args c) ∧ ran s s' (forget_args c);
  cm_row : getBackupRun (rs_id o) (mc_db s') = Some o ∧ rs_verified o = true
}.
(** The calls of restic from [s] on. *)
Definition log_prefix (s s' : machine) : Prop := ∃ l, mc_log s' = mc_log s ++ l.
Lemma target_same c path s t s' : target_readiness c path s = (inr t, s') → mc_db s' = mc_db s ∧ tree_of s' = tree_of s.
Proof.
  unfold target_readiness. intros H. rewrite bind_gets in H. apply bind_inv in H as (r & s1 & H1 & H). injection H as _ <-.
  by eapply readiness_same.
Qed.
(** The state of the program, from the making of the staging directory to the
    call of restic. *)
Lemma state_staged config c kind owner runId ready s s5 runStaging s6 s8 p s9 p2 s10 started f :
  only_readiness started (mc_db s) → tree_of s = f →
  on_disk (mkdir_recursive (bk_stagingPath c)) s = (inr tt, s5) →
  on_disk (mkdtemp (path_join [bk_stagingPath c; "run-" +:+ runId +:+ "-"]) (random s5)) s5 = (inr runStaging, s6) →
  fill_staging config runId runStaging (s6 <| mc_staging := Some runStaging |>) = (inr tt, s8) →
  save_roots c kind owner runId ready (Progress [] (lit 0) (lit 0)) s8 = (inr p, s9) →
  save_state c kind owner runId runStaging p s9 = (inr p2, s10) →
  ∀ s' o, log_prefix s10 s' → rs_id o = runId → rs_snapshotIds o = pg_snapshotIds p2 → state_is_saved config c kind started f s' o.
Proof.
  intros Hstart Hf H5 H6 H8 H9 H10 s' o [l' Hl'] Hid Hids. apply state_given in H10 as (call & r & (Hr & l & Hl) & Hc & Hne & Hin & Hkeep).
  exists runStaging, (mc_db s6), call, r. rewrite Hids.
  split_and!; [|done|done|done| |].
  - split; [done|]. exists (l ++ l'). by rewrite Hl', Hl, <-app_assoc.
  - by rewrite (proj2 (on_disk_inv _ _ _ _ H6)), (proj2 (on_disk_inv _ _ _ _ H5)).
  - intros d Hknown Halone. rewrite Hid, <-Hf in *.
    destruct (staging_made _ _ _ _ _ _ _ Hknown H5 H6) as (_ & t & Hu & -> & Hno & Hw & Ht & Hnew & Hfiles). exists t. split_and!; [done..|].
    apply fill_made in H8; [|done|done|done]. eapply staged_elsewhere; [exact Hfiles| |exact H8]. intros q.
    set (P := λ g : fs, g !! (t ++ q) = tree_of s8 !! (t ++ q)). assert (restic_keeps P) as HP.
    { intros log args db g Hg. unfold P. rewrite Halone; [done|]. destruct Hu as [k ->]. exists (k ++ q). by rewrite app_assoc. }
    apply (Hkeep P HP). pose proof (tree_save_roots P c kind owner runId ready (Progress [] (lit 0) (lit 0)) HP s8 eq_refl) as Hk. by rewrite H9 in Hk.
Qed.
Lemma body_completed config c kind owner run now s o s' : runs_ok (mc_db s) → mc_failures s = [] →
  backup_body config c kind owner run now s = (inr o, s') → rs_status o = bk_completed → completed config c kind (mc_db s) (tree_of s) s s' o ∧ rs_id o = rs_id run.
Proof.
  intros Hok Hf0 H Hst. unfold backup_body in H. cbv zeta in H.
  apply bind_inv in H as ([] & s1 & ->%lease_same & H).
  apply bind_inv in H as (target & s2 & H2 & H). pose proof (target_same _ _ _ _ _ H2) as [DB2 TR2]. apply (keeps_ext _ _ _ _ (λ s0, ext_target s0 c _)) in H2.
  apply bind_inv in H as ([] & s3 & H3 & H). destruct target; [by apply bind_inv in H3 as (? & ? & _ & ?)|]. injection H3 as <-.
  apply bind_inv in H as (ready & s4 & H4 & H). pose proof (keeps_ext _ _ _ _ (λ s0, keeps_roots s0 _ _) H4) as E4.
  apply bind_inv in H as ([] & s5 & H5 & H). pose proof (keeps_ext _ _ _ _ (λ s0, keeps_on_disk s0 _) H5) as E5.
  rewrite bind_gets in H.
  apply bind_inv in H as (runStaging & s6 & H6 & H). pose proof (keeps_ext _ _ _ _ (λ s0, keeps_on_disk s0 _) H6) as E6.
  apply bind_inv in H as ([] & s7 & H7 & H). pose proof (keeps_ext _ _ _ _ (λ s0, keeps_staging s0 _) H7) as E7. injection H7 as <-.
  apply bind_inv in H as ([] & s8 & H8 & H). pose proof (keeps_ext _ _ _ _ (λ s0, keeps_fill s0 _ _ _) H8) as E8.
  apply bind_inv in H as (p & s9 & H9 & H). pose proof (keeps_ext _ _ _ _ (λ s0, keeps_save_roots s0 _ _ _ _ _ _) H9) as E9.
  apply bind_inv in H as (p2 & s10 & H10 & H). pose proof (keeps_ext _ _ _ _ (λ s0, keeps_save_state s0 _ _ _ _ _ _) H10) as E10.
  apply bind_inv in H as ([] & s11 & [_ ->]%guard_inv & H).
  apply bind_inv in H as ([] & s12 & H12 & H). apply (keeps_ext _ _ _ _ (λ s0, keeps_lease s0 owner)) in H12.
  apply bind_inv in H as (visible & s13 & H13 & H). pose proof (keeps_ext _ _ _ _ (λ s0, keeps_restic s0 _ c) H13) as E13. apply restic_called in H13.
  apply bind_inv in H as ([] & s14 & [Hvis ->]%guard_inv & H). apply orb_false_iff in Hvis as [Hv1%negb_false_iff%bool_decide_eq_true Hv2%negb_false_iff].
  apply bind_inv in H as (failures & s14 & H14 & H). injection H14 as <- <-.
  assert (ext s s4) as A4 by (by eapply ext_trans).
  assert (ext s s8) as A8 by (eapply ext_trans; [exact A4|]; do 3 (eapply ext_trans; [done|]); done).
  assert (ext s s10) as A10 by (eapply ext_trans; [exact A8|]; by eapply ext_trans).
  assert (ext s s12) as A12 by (by eapply ext_trans).
  assert (ext s s13) as A13 by (by eapply ext_trans).
  destruct (negb (bool_decide (mc_failures s13 = []))) eqn:Ef.
  - apply bind_inv in H as (failed & s14 & H14 & H). apply bind_inv in H as (t & s15 & _ & H). injection H as <- _.
    destruct failed as [o|]; [|done]. apply finish_run in H14 as (_ & _ & Hs & _); [|by apply (ext_runs _ _ A13)]. cbn in Hst. by rewrite Hs in Hst.
  - apply negb_false_iff, bool_decide_eq_true in Ef.
    apply bind_inv in H as ([] & s14 & Hm & H). apply bind_inv in H as (finished & s15 & Hfin & H).
    destruct finished as [o'|]; [|done]. injection H as -> ->.
    assert (ext s13 s14 ∧ (kind = weekly → ran s13 s14 (check_args c) ∧ ran s13 s14 (forget_args c))) as [E14 Hw].
    { case_bool_decide as Ek; [|injection Hm as <-; split; [apply ext_refl|done]].
      split; [by apply (keeps_ext _ _ _ _ (λ s0, keeps_maintain s0 _ _ _)) in Hm|]. intros _. by eapply maintained. }
    pose proof (keeps_ext _ _ _ _ (λ s0, ext_finish s0 _ _ _) Hfin) as E15.
    apply finish_run in Hfin as (Hrow & Hid & _ & Hids & Hver); [|apply (ext_runs _ _ E14); by apply (ext_runs _ _ A13)]. cbn [be_snapshotIds] in Hids.
    assert (mc_failures s10 = []) as F10 by (apply (ext_failures _ _ H12); by apply (ext_failures _ _ E13)).
    assert (mc_failures s9 = []) as F9 by (by apply (ext_failures _ _ E10)).
    assert (mc_failures s4 = []) as F4.
    { apply (ext_failures _ _ E5), (ext_failures _ _ E6), (ext_failures _ _ E7), (ext_failures _ _ E8). by apply (ext_failures _ _ E9). }
    apply roots_all_ready in H4 as (-> & Ho & T4); [|done].
    pose proof (roots_all_saved _ _ _ _ _ _ _ _ _ H9 F9) as [_ Hroots]. pose proof (state_saved _ _ _ _ _ _ _ _ _ H10) as [Hmore _].
    assert (ext s9 s') as L9 by (eapply ext_trans; [exact E10|]; do 3 (eapply ext_trans; [done|]); done).
    assert (ext s10 s') as L10 by (do 3 (eapply ext_trans; [done|]); done).
    assert (ext s13 s') as L13 by (by eapply ext_trans).
    split; [|by rewrite Hid]. split; rewrite ?Hids.
    + intros root Hin. by apply (was_saved_mono s s8 s9 s' _ (pg_snapshotIds p)), Hroots.
    + rewrite DB2 in Ho. unfold tree_of in TR2. rewrite TR2 in T4. eapply state_staged; [exact Ho|exact T4|exact H5|exact H6|exact H8|exact H9|exact H10|apply (ext_log _ _ L10)|done|done].
    + exists visible. split_and!; [|done|done]. eapply called_earlier; [exact A12|]. by eapply called_later.
    + intros [(r1 & C1 & D1) (r2 & C2 & D2)]%Hw.
      split; [exists r1|exists r2]; (split; [|done]); (eapply called_earlier; [exact A13|]); by eapply called_later.
    + by rewrite Hid.
Qed.

(** What [completed] says stands when the log began earlier, and when what
    comes after leaves the runs alone. *)
Lemma called_between s0 s s' s'' args r : log_prefix s0 s → log_prefix s' s'' → called s s' args r → called s0 s'' args r.
Proof.
  intros [l1 H1] [l2 H2] (l & H & Hin). exists (l1 ++ l ++ l2). rewrite H2, H, H1, <-!app_assoc. split; [done|].
  apply in_app_iff. right. apply in_app_iff. by left.
Qed.
Definition same_runs (s s' : machine) : Prop := bd_runs (mc_db s') = bd_runs (mc_db s) ∧ bd_failures (mc_db s') = bd_failures (mc_db s).
Lemma same_runs_get s s' id : same_runs s s' → getBackupRun id (mc_db s') = getBackupRun id (mc_db s).
Proof.
  intros [H1 H2]. unfold getBackupRun. rewrite H1. destruct (by_key br_id id (bd_runs (mc_db s))); [|done]. cbn. f_equal.
  unfold mapBackupRun. by rewrite H2.
Qed.
Lemma completed_between config c kind started f s0 s s' s'' o : log_prefix s0 s → log_prefix s' s'' → same_runs s' s'' →
  completed config c kind started f s s' o → completed config c kind started f s0 s'' o.
Proof.
  intros L1 L2 Hr [Hroots Hstate (r & Hc & Hv) Hw [Hrow Hver]].
  assert (∀ args ids, was_saved s s' args ids → was_saved s0 s'' args ids) as Hs.
  { intros args ids (r0 & H & Hrest). exists r0. split; [by eapply called_between|done]. }
  assert (∀ args, ran s s' args → ran s0 s'' args) as Hran.
  { intros args (r0 & H & Hrest). exists r0. split; [by eapply called_between|done]. }
  split; [auto| |exists r; split; [by eapply called_between|done]| |split; [by rewrite (same_runs_get _ _ _ Hr)|done]].
  - destruct Hstate as (runStaging & at_copy & call & r0 & (Hr0 & l & Hl) & Hrest). exists runStaging, at_copy, call, r0. split; [|exact Hrest].
    split; [done|]. destruct L2 as [l2 L2]. exists (l ++ l2). by rewrite L2, Hl, <-app_assoc.
  - intros Hk. destruct (Hw Hk). by split; apply Hran.
Qed.

Lemma cleanup_keeps owner s : log_prefix s (cleanup owner s).2 ∧ same_runs s (cleanup owner s).2.
Proof.
  unfold cleanup, mbind, prog_bind, gets. destruct (mc_staging s) as [p|]; cbn.
  - unfold on_disk. destruct (rm p true (mc_disk s)) as [[e|[]] d]; cbn; (split; [exists []; by rewrite app_nil_r|done]).
  - split; [exists []; by rewrite app_nil_r|done].
Qed.
(** After the checks of the configuration and the lock, the run is in the table. *)
Lemma run_started config kind now s r s' c : checked_config config = inr c → runBackup config kind now s = (r, s') →
  let owner := uuid s in
  (∃ e s1, acquire owner s = (inl e, s1) ∧ r = inl e ∧ s' = s1) ∨
  (∃ s1 e s2, acquire owner s = (inr tt, s1) ∧ start kind now s1 = (inl e, s2) ∧ r = inl e ∧ s' = s2) ∨
  ∃ s1 run s2, acquire owner s = (inr tt, s1) ∧ start kind now s1 = (inr run, s2) ∧
    finally (try_catch (backup_body config c kind owner run now) (backup_failed run now)) (cleanup owner)
      (s2 <| mc_failures := [] |> <| mc_staging := None |>) = (r, s').
Proof.
  intros Hc. unfold runBackup. rewrite (bind_inr _ _ _ c s) by (unfold check; by rewrite Hc). rewrite (bind_inr _ _ _ (uuid s) s) by done.
  destruct (acquire (uuid s) s) as [[e|[]] s1] eqn:Ea.
  - rewrite (bind_inl _ _ _ _ _ Ea). intros [= <- <-]. left. by exists e, s1.
  - rewrite (bind_inr _ _ _ _ _ Ea). destruct (start kind now s1) as [[e|run] s2] eqn:Es.
    + rewrite (bind_inl _ _ _ _ _ Es). intros [= <- <-]. right. left. by exists s1, e, s2.
    + rewrite (bind_inr _ _ _ _ _ Es). intros H. right. right. exists s1, run, s2. by split_and!.
Qed.
Lemma keeps_acquire s0 owner : keeps (ext s0) (acquire owner).
Proof.
  unfold acquire. keeps_all. apply keeps_on_db. intros d Hd. destruct (acquireExecutionLock _ _ _ _ _) as [b locks]. by destruct Hd; split.
Qed.
Lemma ext_start s0 kind now : keeps (ext s0) (start kind now).
Proof. unfold start. keeps_all. apply keeps_on_db, backup_start_ok. Qed.
Lemma failed_status run now e s o s' : runs_ok (mc_db s) → backup_failed run now e s = (inr o, s') → rs_status o = bk_failed ∧ (rs_id o = rs_id run).
Proof.
  intros Hok. unfold backup_failed. intros (fin & s1 & H1 & H)%bind_inv. apply bind_inv in H as (t & s2 & _ & H).
  apply bind_inv in H as (f & s3 & _ & H). injection H as <- _. destruct fin as [o|]; [|done].
  apply finish_run in H1 as (_ & Hid & Hs & _); [|done]. cbn. by rewrite Hs.
Qed.

Lemma on_db_tree {A : Type} (m : backup_prog A) s r s' : on_db m s = (r, s') → tree_of s' = tree_of s.
Proof. unfold on_db. destruct (m (mc_db s)) as [r1 d]. intros H. by injection H as _ <-. Qed.
Lemma tree_start owner kind now s s1 run s2 : acquire owner s = (inr tt, s1) → start kind now s1 = (inr run, s2) → tree_of s2 = tree_of s.
Proof.
  unfold acquire, start. rewrite !bind_gets. intros (ok & s3 & H1 & H)%bind_inv H2. apply guard_inv in H as [_ ->].
  apply on_db_tree in H1, H2. congruence.
Qed.


Lemma finish_run_over runId e now s r s' : finish runId e now s = (r, s') → run_over runId (mc_db s').
Proof.
  unfold finish, mbind, prog_bind, gets, on_db. pose proof (finish_over runId e (now ⁇ clock s) (mc_db s)) as H.
  destruct (finishBackupRun _ _ _ _) as [r0 d]. intros [= _ <-]. exact H.
Qed.
(** What the command reports of its run once it is over. *)
Definition reported (run : BackupRunSummary) (s' : machine) (o : BackupRunSummary) : Prop :=
  rs_id o = rs_id run ∧ rs_status o ∉ [bk_running; bk_validating] ∧ run_over (rs_id run) (mc_db s').
Lemma finish_reported run e now s o s' (f : BackupRunSummary) : runs_ok (mc_db s) → finish (rs_id run) e now s = (inr o, s') →
  rs_id f = rs_id run → rs_status f = bk_failed → reported run s' (o ⁇ f).
Proof.
  intros Hok H Hf Hs. split_and!; [| |by eapply finish_run_over].
  - destruct o as [o|]; [|done]. by apply finish_run in H as (_ & ? & _).
  - destruct o as [o|]; [|cbn; rewrite Hs; set_solver]. apply finish_run in H as (_ & _ & Hst & _); [|done]. cbn. rewrite Hst.
    destruct (be_status e); set_solver.
Qed.
Lemma body_reported config c kind owner run now s o s' : runs_ok (mc_db s) →
  backup_body config c kind owner run now s = (inr o, s') → reported run s' o.
Proof.
  intros Hok H. assert (∃ s1, runs_ok (mc_db s1) ∧ ∃ e n fin f s2, finish (rs_id run) e n s1 = (inr fin, s2) ∧ mc_db s' = mc_db s2 ∧ o = fin ⁇ f ∧
    rs_id f = rs_id run ∧ rs_status f = bk_failed) as (s1 & Hok1 & e & n & fin & f & s2 & Hfin & Hdb & -> & Hf1 & Hf2);
    [|unfold reported; rewrite Hdb; by eapply (finish_reported _ _ _ _ _ _ f) in Hfin].
  unfold backup_body in H. cbv zeta in H.
  assert (∀ A (m : prog machine A) k sx, (∀ s0, keeps (ext s0) m) → runs_ok (mc_db sx) → (m ≫= k) sx = (inr o, s') →
    ∃ a sy, runs_ok (mc_db sy) ∧ m sx = (inr a, sy) ∧ k a sy = (inr o, s')) as Hstep.
  { intros A m k sx Hm Hx (a & sy & H1 & H2)%bind_inv. exists a, sy. split_and!; try done. by apply (ext_runs _ _ (keeps_ext _ _ _ _ Hm H1)). }
  do 12 (apply Hstep in H as (? & ? & ? & _ & H); [|intros; keeps_all|done]). cbv beta in H.
  do 4 (apply Hstep in H as (? & ? & ? & _ & H); [|intros; keeps_all|done]). cbv beta in H.
  match type of H with (if ?b then _ else _) _ = _ => destruct b end.
  - apply bind_inv in H as (fin & sy & Hfin & H). apply bind_inv in H as (t & sz & [= _ <-] & H). injection H as <- <-.
    do 2 eexists; [eassumption|]. do 5 eexists. by split_and!; [exact Hfin|..].
  - apply Hstep in H as (u & sx & Hx & _ & H); [|intros; keeps_all|done]. apply bind_inv in H as (fin & sy & Hfin & H).
    destruct fin as [f|]; [|done]. injection H as <- <-. exists sx. split; [done|].
    do 3 eexists. exists (own_summary run [] "" 0 []). eexists. by split_and!; [exact Hfin|..].
Qed.
Lemma failed_reported run now e s : runs_ok (mc_db s) → ∃ o s', backup_failed run now e s = (inr o, s') ∧ reported run s' o.
Proof.
  intros Hok. unfold backup_failed. destruct (finish (rs_id run) (failed_end (exn_message e)) now s) as [[ex|fin] s1] eqn:E.
  { unfold finish, mbind, prog_bind, gets, on_db in E. unfold finishBackupRun in E. by injection E. }
  rewrite (bind_inr _ _ _ _ _ E). rewrite bind_gets, bind_gets. eexists _, _. split; [done|]. by eapply finish_reported.
Qed.
Lemma release_free owner s : isExecutionLockOwner (bd_locks (mc_db (release owner s).2)) BACKUP_LOCK_NAME owner = false.
Proof.
  change (isExecutionLockOwner (releaseExecutionLock (bd_locks (mc_db s)) BACKUP_LOCK_NAME owner).2 BACKUP_LOCK_NAME owner = false).
  unfold releaseExecutionLock. destruct (isExecutionLockOwner (bd_locks (mc_db s)) BACKUP_LOCK_NAME owner) eqn:E; cbn [snd]; [|done].
  unfold isExecutionLockOwner. by rewrite lookup_delete_eq.
Qed.

(** C29: Whatever happens while a backup runs - restic fails, the lease is
    lost, other processes write to the tables, calls of the system fail -
    the run it started is over in the end; and unless the removal of the
    staging directory failed, the command reports that run as completed,
    failed or interrupted and has given its lock back. *)
Theorem backup_settles config kind now s r s' (Hok : runs_ok (mc_db s)) (H : runBackup config kind now s = (r, s')) :
  (∃ e, r = inl e ∧ bd_locks (mc_db s') = bd_locks (mc_db s) ∧ bd_runs (mc_db s') = bd_runs (mc_db s)) ∨
  ∃ s1, acquire (uuid s) s = (inr tt, s1) ∧
    ((∃ e s2, start kind now s1 = (inl e, s2) ∧ r = inl e ∧ s' = s2) ∨
     ∃ run s2, start kind now s1 = (inr run, s2) ∧ run_over (rs_id run) (mc_db s') ∧
      ((∃ o, r = inr o ∧ rs_id o = rs_id run ∧ rs_status o ∉ [bk_running; bk_validating] ∧
         isExecutionLockOwner (bd_locks (mc_db s')) BACKUP_LOCK_NAME (uuid s) = false) ∨
       ∃ e p d, r = inl e ∧ mc_staging s' = Some p ∧ (rm p true d).1 = inl e)).
Proof.
  destruct (checked_config config) as [e|c] eqn:Hc.
  { left. exists e. unfold runBackup in H. rewrite (bind_inl _ _ _ e s) in H by (unfold check; by rewrite Hc). by injection H as <- <-. }
  destruct (run_started _ _ _ _ _ _ _ Hc H) as [(e & s1 & Ha & -> & ->)|[(s1 & e & s2 & Ha & Hs & -> & ->)|(s1 & run & s2 & Ha & Hs & Hrun)]]; clear H; try rename Hrun into H.
  - left. exists e. split; [done|]. unfold acquire, mbind, prog_bind, gets, on_db, acquireExecutionLock in Ha.
    destruct (bd_locks (mc_db s) !! BACKUP_LOCK_NAME) as [l|]; [|done].
    destruct (bool_decide _); [done|]. injection Ha as _ <-. done.
  - right. exists s1. split; [done|]. left. by exists e, s2.
  - right. exists s1. split; [done|]. right. exists run, s2. split; [done|].
    apply (keeps_ext _ _ _ _ (λ s0, keeps_acquire s0 _)) in Ha. apply (keeps_ext _ _ _ _ (λ s0, ext_start s0 _ _)) in Hs.
    set (s3 := s2 <| mc_failures := [] |> <| mc_staging := None |>) in *.
    assert (runs_ok (mc_db s3)) as Hok3 by (apply (ext_runs _ _ Hs); by apply (ext_runs _ _ Ha)).
    unfold finally in H. destruct (try_catch _ _ s3) as [r1 s4] eqn:Et.
    assert (∃ o, r1 = inr o ∧ reported run s4 o) as (o & -> & Hid & Hst & Hover).
    { unfold try_catch in Et. destruct (backup_body _ _ _ _ _ _ s3) as [[e|o] s5] eqn:Eb.
      - destruct (failed_reported run now e s5) as (o & s6 & Hf & Hrep).
        { apply (keeps_ext _ _ _ _ (λ s0, keeps_body s0 _ _ _ _ _ _)) in Eb. by apply (ext_runs _ _ Eb). }
        rewrite Hf in Et. injection Et as <- <-. by exists o.
      - injection Et as <- <-. exists o. split; [done|]. by eapply body_reported. }
    pose proof (cleanup_keeps (uuid s) s4) as [_ [Hruns _]]. destruct (cleanup (uuid s) s4) as [r2 s5] eqn:Ecl. cbn [snd] in Hruns.
    assert (s5 = s') as -> by (by destruct r2; injection H). split; [unfold run_over; by rewrite Hruns|].
    unfold cleanup in Ecl. rewrite bind_gets in Ecl. destruct (mc_staging s4) as [p|] eqn:Ep.
    + destruct (on_disk (rm p true) s4) as [[e|[]] s6] eqn:Er.
      * rewrite (bind_inl _ _ _ _ _ Er) in Ecl. injection Ecl as <- <-. right. exists e, p, (mc_disk s4). injection H as <-.
        split; [done|]. unfold on_disk in Er. destruct (rm p true (mc_disk s4)) as [r0 d]. injection Er as -> <-. by split.
      * rewrite (bind_inr _ _ _ _ _ Er) in Ecl. left. exists o. pose proof (release_free (uuid s) s6) as Hfree. rewrite Ecl in Hfree.
        cbn [snd] in Hfree. assert (r2 = inr tt) as -> by (by injection Ecl as <- _). by injection H as <-.
    + rewrite (bind_inr _ _ _ tt s4) in Ecl by done. left. exists o. pose proof (release_free (uuid s) s4) as Hfree. rewrite Ecl in Hfree.
      cbn [snd] in Hfree. assert (r2 = inr tt) as -> by (by injection Ecl as <- _). by injection H as <-.
Qed.
End Backup.

Module BackupDemo.
Definition vars : list (string * string) :=
  [("ZOS_ENVIRONMENT", "production"); ("ZOS_NAS_ROOTS", "media:Media:/zos/data/media,docs:Docs:/zos/data/docs");
   ("ZOS_BACKUP_REPOSITORY", "/zos/data/backup/restic")].
Definition config : ZosConfig := Eval vm_compute in
  match ConfigDemo.load vars no_toml as r return match r with inr _ => ZosConfig | inl _ => unit end with inr c => c | inl _ => tt end.
Definition tree : fs := list_to_map
  [([], Dir); (["zos"], Dir); (["zos"; "data"], Dir); (["zos"; "data"; "media"], Dir); (["zos"; "data"; "docs"], Dir);
   (["zos"; "data"; "backup"], Dir); (["zos"; "data"; "backup"; "restic"], Dir); (["zos"; "state"], Dir); (["zos"; "state"; "trash"], Dir);
   (["zos"; "state"; "trash"; "x"], File "old")].
Definition roots : roots_db := RootsDb [NasRootRow "media" "Media" "/zos/data/media" true mount_required None None None 0 0;
                                        NasRootRow "docs" "Docs" "/zos/data/docs" true mount_required None None None 0 0] [].
Definition begin (faults : list (option exn)) : machine := Machine (BackupDb ∅ roots [] []) (Disk tree faults) [] [] None.
Definition findmnt (p : string) : exn + string := inr ("/dev/sdb1 1-2 ext4 " +:+ p).
Definition sha (s : string) : string := join "" (replicate 63 "a") +:+ (if bool_decide (s = "") then "0" else "1").
Definition dq_text (s : string) : string := String dq (s +:+ String dq "").
Definition snapshot (id : string) : string := "{" +:+ dq_text "message_type" +:+ ":" +:+ dq_text "summary" +:+ "," +:+ dq_text "snapshot_id" +:+ ":" +:+ dq_text id +:+ "}".
(** A repository in which everything works; [refused] is the path it cannot save. *)
Definition restic (refused : string) (log : list (list string * restic_exit)) (args : list string) (d : backup_db) (f : fs) : restic_answer :=
  let ok out := Answer (Exit 0 out "") [SLock (CHeartbeat "backup" "me" 5)] f in
  match args with
  | "backup" :: args =>
      match last args with
      | Some p => if bool_decide (p = refused) then Answer (Exit 1 "" "no space") [] f else ok (snapshot ("snap" +:+ pretty (length log)))
      | None => Answer (Exit 1 "" "usage") [] f
      end
  | "snapshots" :: _ => ok "snap0 snap1 snap2 snap4"
  | _ => ok ""
  end.
Definition run (refused : string) (kind : BackupRunKind) (faults : list (option exn)) : (exn + BackupRunSummary) * machine :=
  runBackup "/" sha findmnt (restic refused) (λ _, 7) (λ s, "id" +:+ pretty (length (bd_failures (mc_db s)) + length (bd_runs (mc_db s)))%nat) (λ _, "Ab3xyz") (λ _, "1970")
    (λ _, "database") config kind None (begin faults).
Definition outcome (r : exn + BackupRunSummary) : exn + (BackupRunStatus * list string) := match r with inr o => inr (rs_status o, rs_snapshotIds o) | inl e => inl e end.
Definition locked (s : machine) : bool := isSome (bd_locks (mc_db s) !! BACKUP_LOCK_NAME).

Example runs_of_the_command :
  outcome (run "" weekly []).1 = inr (bk_completed, ["snap0"; "snap1"; "snap2"]) ∧ locked (run "" weekly []).2 = false ∧
  length (mc_log (run "" weekly []).2) = 6%nat ∧
  outcome (run "/zos/data/docs" daily []).1 = inr (bk_failed, ["snap0"; "snap4"]).
Proof. by vm_compute. Qed.

Definition fault_at (n : nat) : list (option exn) := replicate n None ++ [Some (ErrnoException "EIO")].
(** A trash that cannot be read is left out of a backup that is reported as
    completed and verified. *)
Example trash_left_out :
  outcome (run "" daily (fault_at 8)).1 = inr (bk_completed, ["snap0"; "snap1"; "snap2"]) ∧
  outcome (run "" daily (fault_at 13)).1 = inr (bk_failed, []).
Proof. by vm_compute. Qed.
(** When the staging directory cannot be removed, the run is completed in the
    table, but the command throws and keeps the lock. *)
Example removal_keeps_lock :
  outcome (run "" daily (fault_at 21)).1 = inl (ErrnoException "EIO") ∧ locked (run "" daily (fault_at 21)).2 = true ∧
  (br_status <$> bd_runs (mc_db (run "" daily (fault_at 21)).2)) = [bk_completed].
Proof. by vm_compute. Qed.

(** The staging directory of that run, restored; [spoil]: what became of it. *)
Definition staging : list string := ["zos"; "state"; "backup-staging"; "run-id0-Ab3xyz"].
Definition saved_tree : fs := subtree staging (dk_fs (mc_disk (run "" daily (fault_at 21)).2)).
Definition restorer (spoil : fs → fs) (log : list (list string * restic_exit)) (args : list string) (d : backup_db) (f : fs) : restic_answer :=
  match args, last args with
  | "restore" :: _ :: "--repo" :: _, Some target => Answer (Exit 0 "" "") [] (graft (names "/" target ++ ["run"]) (spoil saved_tree) f)
  | _, _ => Answer (Exit 0 "" "") [] f
  end.
Definition restored (spoil : fs → fs) : exn + string :=
  (restoreBackup "/" sha (restorer spoil) (λ _, 8) (λ _, "id") (λ _, "Cd4uvw") config "snap2" (begin [])).1.
Example restores :
  restored id = inr "/zos/state/backup-staging/restore-Cd4uvw" ∧
  restored (<[["trash"; "x"] := File ""]>) = inl (Error "restore manifest checksum mismatch: trash/x") ∧
  restored (delete ["zos.sqlite"]) = inl (Error "restore manifest file missing: zos.sqlite").
Proof. by vm_compute. Qed.

Lemma begin_ok faults : runs_ok (mc_db (begin faults)).
Proof. split; [constructor|by intros ? ? []|by intros ? []|by intros ? []]. Qed.
Lemma begin_known c : checked_config "/" config = inr c → staging_known (λ _, "Ab3xyz") c "id0" tree ["zos"; "state"; "backup-staging"].
Proof.
  intros Hc. split.
  - apply wf_check; [done|]. apply (bool_decide_unpack _). by vm_compute.
  - assert (match checked_config "/" config with inr c => bk_stagingPath c | inl _ => "" end = "/zos/state/backup-staging") as Hp by (by vm_compute).
    by rewrite Hc in Hp.
  - apply (bool_decide_unpack _). by vm_compute.
  - intros a b n E. destruct a as [|a1 [|a2 [|a3 [|? ?]]]]; cbn in E; simplify_eq; vm_compute; by intros [= <-].
  - reflexivity.
  - intros _. reflexivity.
Qed.
Lemma restic_apart refused log args db g : an_tree (restic refused log args db g) = g.
Proof. unfold restic. by repeat case_match. Qed.
(** Here the staging directory cannot be made. *)
Lemma backup_settles_witness : ∃ s1 b s2, start (λ _, 7) (λ s, "id" +:+ pretty (length (bd_failures (mc_db s)) + length (bd_runs (mc_db s)))%nat) daily None s1 = (inr b, s2) ∧
  run_over (rs_id b) (mc_db (run "" daily (fault_at 3)).2).
Proof.
  destruct (run "" daily (fault_at 3)) as [r s'] eqn:E. assert (r = (run "" daily (fault_at 3)).1) as Er by (by rewrite E). vm_compute in Er.
  destruct (backup_settles "/" sha findmnt (restic "") (λ _, 7)
    (λ s, "id" +:+ pretty (length (bd_failures (mc_db s)) + length (bd_runs (mc_db s)))%nat) (λ _, "Ab3xyz") (λ _, "1970")
    (λ _, "database") config daily None (begin (fault_at 3)) r s' (begin_ok _) E)
    as [(e & H & _)|(s1 & _ & [(e & s2 & _ & H & _)|(b & s2 & H & Hover & _)])]; [congruence..|].
  by exists s1, b, s2.
Defined.
End BackupDemo.
