(* ===== verification/Mutations.v ===== *)
(** * File mutations

    packages/nas-tools/src/mutation-tools.ts: the mutations of an approved
    proposal or a batch item, the restoring of a trash entry and the rollback
    of an applied operation, on the file system of FileSystem.  The
    programs that unpack archives are those of Archives.  [ids] are the values of
    [randomUUID]. *)
From Stdlib Require Import Ascii.
From S2P Require Import Prelude Json JsString CoreDb Jobs.
From S2P Require Import FileSystem PathSafety Confinement Archives.

Record RolledBackMutation := RolledBack {
  rb_operation : FileMutationOperation; rb_sourcePath : option string; rb_targetPath : option string;
  rb_metadata : list (string * json) }.

(** ** Steps the mutations share *)
Record trash_place := TrashPlace { tp_id : string; tp_relativeTrashPath : string; tp_absoluteTrashPath : string }.
Definition trashPathFor (fresh trashRootPath rootId sourcePath : string) (requestedId : option string) : trash_place :=
  let id := requestedId ⁇ fresh in
  let relativeTrashPath := path_join [rootId; id +:+ "-" +:+ basename sourcePath] in
  TrashPlace id relativeTrashPath (path_join [trashRootPath; relativeTrashPath]).

Definition assertTransferDestinationIsValid (source : SafePathResult) (targetPath : string) : prog disk unit :=
  if bool_decide (sp_realPath source = targetPath) then throw (Error "Transfer target must be different from the source") else
  _ ← assertNoSymlinkPathSegments (sp_rootRealPath source) (sp_absolutePath source);
  _ ← assertNoSymlinkPathSegments (sp_rootRealPath source) (dirname targetPath);
  sourceStat ← stat (sp_realPath source);
  if is_dir sourceStat && isPathInside (sp_realPath source) (dirname targetPath)
  then throw (Error "Cannot transfer a folder into itself") else mret tt.

Definition AggregateError (message : string) : exn := Exn "AggregateError" message None None [].
(** A rename, or a copy and a removal when the two places are on different
    devices. *)
Definition movePath (sourcePath targetPath uuid : string) : prog disk unit :=
  renamed ← try_catch (_ ← rename sourcePath targetPath; mret true)
              (λ e, if bool_decide (exn_code e = Some "EXDEV") then mret false else throw e);
  if renamed : bool then mret tt else
  let temporaryTargetPath := temporary targetPath uuid in
  try_catch
    (_ ← cp sourcePath temporaryTargetPath;
     _ ← rename temporaryTargetPath targetPath;
     try_catch (rm sourcePath false) (λ sourceRemovalError,
       _ ← try_catch (rm targetPath true) (λ _,
             throw (AggregateError "Cross-device move failed and the copied target could not be cleaned up"));
       throw sourceRemovalError))
    (λ e, _ ← rm temporaryTargetPath true; throw e).

(** ** The mutations *)
Section Mutations.
Context (spawn : string → list string → prog disk process_end) (gunzip : string → prog disk gunzip_end).

Definition applyMkdir (root : NasRootRecord) (p : FileOperationProposal) : prog disk AppliedMutation :=
  match given (fp_targetPath p) with
  | None => throw (Error "mkdir requires targetPath")
  | Some targetPath =>
      target ← resolveSafeTargetPath (ro_path root) targetPath;
      _ ← assertNoSymlinkPathSegments (st_rootRealPath target) (dirname (st_absolutePath target));
      _ ← mkdir (st_absolutePath target);
      mret (Applied p None (Some (st_relativePath target)) [("absoluteTargetPath", JStr (st_absolutePath target))])
  end.

(** [applyMove] and [applyCopy] differ in the last step. *)
Definition transfer (act : SafePathResult → SafeTarget → prog disk unit) (requires : string) (root : NasRootRecord)
    (p : FileOperationProposal) : prog disk AppliedMutation :=
  match given (fp_sourcePath p), given (fp_targetPath p) with
  | Some sourcePath, Some targetPath =>
      source ← resolveSafeExistingPath (ro_path root) sourcePath;
      target ← resolveSafeTargetPath (ro_path root) targetPath;
      _ ← assertTransferDestinationIsValid source (st_absolutePath target);
      _ ← assertTargetDoesNotExist (st_absolutePath target);
      _ ← mkdir_recursive (dirname (st_absolutePath target));
      _ ← act source target;
      mret (Applied p (Some (sp_relativePath source)) (Some (st_relativePath target))
        [("absoluteSourcePath", JStr (sp_realPath source)); ("absoluteTargetPath", JStr (st_absolutePath target))])
  | _, _ => throw (Error (requires +:+ " requires sourcePath and targetPath"))
  end.
Definition applyMove (uuid : string) (root : NasRootRecord) (p : FileOperationProposal) : prog disk AppliedMutation :=
  transfer (λ source target, movePath (sp_realPath source) (st_absolutePath target) uuid) (mutation_text (fp_operation p)) root p.
Definition applyCopy (root : NasRootRecord) (p : FileOperationProposal) : prog disk AppliedMutation :=
  transfer (λ source target, cp (sp_realPath source) (st_absolutePath target)) "copy" root p.

Definition applyEditAuthorization (root : NasRootRecord) (p : FileOperationProposal) : prog disk AppliedMutation :=
  match given (fp_sourcePath p) with
  | None => throw (Error "edit requires sourcePath")
  | Some sourcePath =>
      source ← resolveSafeExistingPath (ro_path root) sourcePath;
      sourceLinkStat ← lstat (sp_absolutePath source);
      if is_link sourceLinkStat then throw (Error "Refusing to edit through a symlink") else
      sourceStat ← stat (sp_realPath source);
      if negb (is_file sourceStat) then throw (Error "Edit target must be a file") else
      mret (Applied p (Some (sp_relativePath source)) None
        [("absoluteSourcePath", JStr (sp_realPath source)); ("authorizationOnly", JBool true)])
  end.

(** [{...proposal, trashEntryId, targetPath}]. *)
Definition trashed (p : FileOperationProposal) (t : trash_place) : FileOperationProposal :=
  FileProposal (fp_operation p) (fp_rootId p) (fp_storagePoolId p) (fp_sourcePath p) (Some (tp_relativeTrashPath t)) (fp_tag p)
    (Some (tp_id t)) (fp_reversible p)
    match fp_json p with
    | JObj ps => JObj (spread ps [("trashEntryId", JStr (tp_id t)); ("targetPath", JStr (tp_relativeTrashPath t))])
    | j => j
    end.
(** [ids]: the id of the trash entry and that of a temporary copy. *)
Definition applyTrash (ids : string * string) (root : NasRootRecord) (p : FileOperationProposal) (trashRootPath : string)
    : prog disk AppliedMutation :=
  match given (fp_sourcePath p) with
  | None => throw (Error "trash requires sourcePath")
  | Some sourcePath =>
      source ← resolveSafeExistingPath (ro_path root) sourcePath;
      let place := trashPathFor ids.1 trashRootPath (ro_id root) (sp_relativePath source) (fp_trashEntryId p) in
      _ ← assertTargetDoesNotExist (tp_absoluteTrashPath place);
      _ ← mkdir_recursive (dirname (tp_absoluteTrashPath place));
      _ ← movePath (sp_realPath source) (tp_absoluteTrashPath place) ids.2;
      mret (Applied (trashed p place)
        (Some (sp_relativePath source)) (Some (tp_relativeTrashPath place))
        [("trashEntryId", JStr (tp_id place)); ("absoluteTrashPath", JStr (tp_absoluteTrashPath place))])
  end.

Definition applyTag (root : NasRootRecord) (p : FileOperationProposal) : prog disk AppliedMutation :=
  match given (fp_sourcePath p), given (fp_tag p) with
  | Some sourcePath, Some label =>
      source ← resolveSafeExistingPath (ro_path root) sourcePath;
      mret (Applied p (Some (sp_relativePath source)) (Some label) [("tag", JStr label); ("absoluteSourcePath", JStr (sp_realPath source))])
  | _, _ => throw (Error "tag requires sourcePath and tag")
  end.

Definition applyFileMutation (ids : string * string) (root : NasRootRecord) (p : FileOperationProposal) (trashRootPath : string)
    : prog disk AppliedMutation :=
  if negb (bool_decide (fp_rootId p = ro_id root)) then throw (PathSafetyError "Proposal root does not match selected NAS root") else
  match fp_operation p with
  | CoreDb.mkdir => applyMkdir root p
  | move | CoreDb.rename => applyMove ids.2 root p
  | copy => applyCopy root p
  | trash => applyTrash ids root p trashRootPath
  | edit => applyEditAuthorization root p
  | extract => applyExtract spawn gunzip ids.2 root p
  | restore => throw (Error "Restore must use restoreTrashEntry with a persisted trash entry")
  | tag => applyTag root p
  | upload | download => throw (Error "Upload mutations are applied directly and do not use applyFileMutation")
  end.
End Mutations.

Definition restore_proposal (rootId trashPath targetPath originalPath : string) : FileOperationProposal :=
  FileProposal restore rootId None (Some trashPath) (Some targetPath) None None true
    (JObj [("operation", JStr "restore"); ("rootId", JStr rootId); ("sourcePath", JStr trashPath); ("targetPath", JStr targetPath);
           ("risk", JStr "medium"); ("reversible", JBool true); ("summary", JStr ("Restore " +:+ originalPath))]).
Definition restoreTrashPath (uuid : string) (root : NasRootRecord) (trashPath originalPath : string) : prog disk AppliedMutation :=
  entry ← resolveSafeExistingPath (dirname trashPath) (basename trashPath);
  target ← resolveSafeTargetPath (ro_path root) originalPath;
  _ ← assertNoSymlinkPathSegments (st_rootRealPath target) (dirname (st_absolutePath target));
  _ ← assertTargetDoesNotExist (st_absolutePath target);
  _ ← mkdir_recursive (dirname (st_absolutePath target));
  _ ← movePath (sp_realPath entry) (st_absolutePath target) uuid;
  mret (Applied (restore_proposal (ro_id root) trashPath (st_relativePath target) originalPath)
    (Some trashPath) (Some (st_relativePath target)) [("restoredTo", JStr (st_absolutePath target))]).

Definition rollbackMove (uuid : string) (root : NasRootRecord) (o : FileOperationRecord) : prog disk RolledBackMutation :=
  match given (fo_sourcePath o), given (fo_targetPath o) with
  | Some sourcePath, Some targetPath =>
      current ← resolveSafeExistingPath (ro_path root) targetPath;
      original ← resolveSafeTargetPath (ro_path root) sourcePath;
      _ ← assertNoSymlinkPathSegments (st_rootRealPath original) (dirname (st_absolutePath original));
      _ ← assertTargetDoesNotExist (st_absolutePath original);
      _ ← mkdir_recursive (dirname (st_absolutePath original));
      _ ← movePath (sp_realPath current) (st_absolutePath original) uuid;
      mret (RolledBack (fo_operation o) (Some (sp_relativePath current)) (Some (st_relativePath original))
        [("rollbackOf", JStr (fo_id o)); ("absoluteSourcePath", JStr (sp_realPath current));
         ("absoluteTargetPath", JStr (st_absolutePath original))])
  | _, _ => throw (Error (mutation_text (fo_operation o) +:+ " rollback requires sourcePath and targetPath"))
  end.

(** [targetPath ?? sourcePath]: only null gives way. *)
Definition rollbackByTrashingTarget (ids : string * string) (root : NasRootRecord) (o : FileOperationRecord)
    (trashRootPath : string) : prog disk RolledBackMutation :=
  match given (match fo_targetPath o with Some t => Some t | None => fo_sourcePath o end) with
  | None => throw (Error (mutation_text (fo_operation o) +:+ " rollback requires a target path"))
  | Some targetPath =>
      target ← resolveSafeExistingPath (ro_path root) targetPath;
      let place := trashPathFor ids.1 trashRootPath (ro_id root) (sp_relativePath target) None in
      _ ← mkdir_recursive (dirname (tp_absoluteTrashPath place));
      _ ← movePath (sp_realPath target) (tp_absoluteTrashPath place) ids.2;
      mret (RolledBack trash (Some (sp_relativePath target)) (Some (tp_relativeTrashPath place))
        [("rollbackOf", JStr (fo_id o)); ("trashEntryId", JStr (tp_id place));
         ("absoluteTrashPath", JStr (tp_absoluteTrashPath place))])
  end.

Definition rollbackFileMutation (ids : string * string) (root : NasRootRecord) (o : FileOperationRecord) (trashRootPath : string)
    : prog disk RolledBackMutation :=
  if bool_decide (fo_status o ≠ fo_applied) then throw (Error "Only applied operations can be rolled back") else
  match fo_operation o with
  | move | CoreDb.rename => rollbackMove ids.2 root o
  | copy | CoreDb.mkdir | restore | upload | download | extract => rollbackByTrashingTarget ids root o trashRootPath
  | trash => throw (Error "Trash rollback must restore the persisted trash entry")
  | edit => throw (Error "Edit operations cannot be rolled back")
  | tag => mret (RolledBack tag (fo_sourcePath o) (fo_targetPath o)
                [("rollbackOf", JStr (fo_id o)); ("noFilesystemChange", JBool true)])
  end.

(** ** Examples *)
Definition demo_fs : fs := list_to_map
  [([], Dir); (["nas"], Dir); (["nas"; "a"], Dir); (["nas"; "a"; "f"], File "x"); (["nas"; "out"], Link "/etc");
   (["etc"], Dir); (["etc"; "passwd"], File "p"); (["trash"], Dir)].
Definition demo_root : NasRootRecord := NasRoot "r1" "/nas".
(** Programs that unpack one file, f. *)
Definition demo_spawn (command : string) (args : list string) : prog disk process_end :=
  match args with
  | [_; _; _; _; d] =>
      let q := normalizeString d false in
      call (λ f, (inr (process_closed "" "" (Some 0%Z)),
                  if bool_decide (command = "unzip" ∧ f !! q = Some Dir ∧ f !! (q ++ ["f"]) = None)
                  then <[q ++ ["f"] := File "unpacked"]> f else f))
  | [_; _] => if bool_decide (command = "unzip") then mret (process_closed ("f" +:+ String newline "") "" (Some 0%Z))
              else mret (process_error (ErrnoException "ENOENT"))
  | _ => mret (process_error (ErrnoException "ENOENT"))
  end.
Definition demo_gunzip (p : string) : prog disk gunzip_end := mret (GunzipEnd ["unpacked"] "" (inr (Some 0%Z))).
Definition demo_move : FileOperationProposal := 
  FileProposal move "r1" None (Some "a/f") (Some "b/c/g") None None true (JObj []).
Definition demo_run : (exn + AppliedMutation) * disk :=
  applyFileMutation demo_spawn demo_gunzip ("t", "u") demo_root demo_move "/trash" (Disk demo_fs []).
Example move_example : (match demo_run.1 with inr a => am_targetPath a | inl _ => None end) = Some "b/c/g" ∧
  dk_fs demo_run.2 !! ["nas"; "b"; "c"; "g"] = Some (File "x") ∧ dk_fs demo_run.2 !! ["nas"; "a"; "f"] = None.
Proof. vm_compute. done. Qed.
(** The same move when the two places are on different devices. *)
Definition demo_faults : list (option exn) := replicate 10 None ++ [Some (ErrnoException "EXDEV")].
Definition demo_cross : (exn + AppliedMutation) * disk :=
  applyFileMutation demo_spawn demo_gunzip ("t", "u") demo_root demo_move "/trash" (Disk demo_fs demo_faults).
Example cross_example : bool_decide (dk_fs demo_cross.2 = dk_fs demo_run.2) = true ∧ dk_faults demo_cross.2 = [].
Proof. vm_compute. split; reflexivity. Qed.

Definition demo_extract : FileOperationProposal :=
  FileProposal extract "r1" None (Some "a/z.zip") (Some "a/z") None None true (JObj []).
Definition demo_unpacked : (exn + AppliedMutation) * disk :=
  applyFileMutation demo_spawn demo_gunzip ("t", "u") demo_root demo_extract "/trash" (Disk (<[["nas"; "a"; "z.zip"] := File "zip"]> demo_fs) []).
Example extract_example : (match demo_unpacked.1 with inr a => am_targetPath a | inl _ => None end) = Some "a/z" ∧
  dk_fs demo_unpacked.2 !! ["nas"; "a"; "z"; "f"] = Some (File "unpacked").
Proof. vm_compute. split; reflexivity. Qed.

(** ** Confinement *)
Lemma looks_transfer source p : looks (assertTransferDestinationIsValid source p).
Proof. unfold assertTransferDestinationIsValid, assertNoSymlinkPathSegments. looks_all. Qed.
Lemma keeps_transfer source p : keeps faults_ok (assertTransferDestinationIsValid source p).
Proof. unfold assertTransferDestinationIsValid, assertNoSymlinkPathSegments. keeps_all. Qed.
#[export] Hint Resolve looks_transfer : looks.
#[export] Hint Resolve keeps_transfer : keeps.

Lemma basename_no_sep p : no_char sep (basename p).
Proof.
  unfold basename. assert (∀ l, Forall (no_char sep) l → Forall (no_char sep) (drop_trailing_seps l)) as H.
  { induction 1 as [|x l Hx Hl IH]; simpl; [done|]. destruct x; [done|by constructor]. }
  assert (Forall (no_char sep) (drop_trailing_seps (reverse (segments p)))) as Hl
    by (apply H, Forall_reverse, split_on_no_char).
  destruct (drop_trailing_seps (reverse (segments p))) as [|x l]; [done|]. by apply Forall_cons in Hl as [Hx _].
Qed.

Lemma plain_two a b : plain_name a → plain_name b → Forall plain_name [a; b].
Proof. intros Ha Hb. constructor; [done|by constructor]. Qed.

(** Names below a place are joined to it as they are. *)
Lemma path_join_relative a b : plain_name a → plain_name b → path_join [a; b] = a +:+ "/" +:+ b.
Proof.
  intros Ha Hb. pose proof Ha as (Ha1&_&_&Hac). pose proof Hb as (Hb1&_&_&Hbc).
  assert (path_join [a; b] = normalize (a +:+ "/" +:+ b)) as ->.
  { unfold path_join. cbn [List.filter]. by rewrite !bool_decide_false by done. }
  destruct (join_nonempty a [b] Ha) as [Hne Habs]. simpl in Hne, Habs. unfold normalize.
  rewrite bool_decide_false by exact Hne. change (a +:+ String "/" b) with (a +:+ "/" +:+ b) in Habs. rewrite Habs. cbn [negb].
  assert (endsWith_char sep (a +:+ "/" +:+ b) = false) as ->.
  { unfold endsWith_char. apply bool_decide_eq_false. rewrite !last_char_app by done. by apply last_char_no. }
  assert (normalizeString (a +:+ "/" +:+ b) true = [a; b]) as ->.
  { unfold normalizeString, segments. change (a +:+ "/" +:+ b) with (join "/" [a; b]).
    rewrite split_join; [|done|by constructor; [|constructor]]. apply norm_segments_id. by apply plain_two. }
  by rewrite bool_decide_false by exact Hne.
Qed.

Lemma path_join_below l a b : Forall plain_name l → plain_name a → plain_name b →
  path_join [rooted l; path_join [a; b]] = rooted (l ++ [a; b]).
Proof.
  intros Hl Ha Hb. rewrite (path_join_relative a b) by done. pose proof Hb as (Hb1&_&_&Hbc).
  destruct (join_nonempty a [b] Ha) as [Hne _]. change (join "/" [a; b]) with (a +:+ "/" +:+ b) in Hne.
  assert (path_join [rooted l; a +:+ "/" +:+ b] = normalize (rooted l +:+ "/" +:+ a +:+ "/" +:+ b)) as ->.
  { unfold path_join. cbn [List.filter]. rewrite (bool_decide_false (rooted l = "")) by done.
    rewrite bool_decide_false by exact Hne. done. }
  unfold normalize. rewrite bool_decide_false by done.
  assert (isAbsolute (rooted l +:+ "/" +:+ a +:+ "/" +:+ b) = true) as -> by (apply startsWith_app; by eexists).
  cbn [negb]. change (a +:+ "/" +:+ b) with (join "/" [a; b]). rewrite normalizeString_join by (done || by apply plain_two).
  assert (endsWith_char sep (rooted l +:+ "/" +:+ join "/" [a; b]) = false) as ->.
  { unfold endsWith_char. apply bool_decide_eq_false. change (join "/" [a; b]) with (a +:+ "/" +:+ b).
    rewrite !last_char_app by (done || by destruct a). by apply last_char_no. }
  rewrite bool_decide_false; [done|]. destruct l as [|y l]; [exact Hne|].
  apply Forall_cons in Hl as [Hy _]. apply (join_nonempty y (l ++ [a; b]) Hy).
Qed.

Definition trash_name (id sourcePath : string) : string := id +:+ "-" +:+ basename sourcePath.
Lemma trash_name_plain id p : no_char sep id → (id ≠ "") → plain_name (trash_name id p).
Proof.
  intros Hid Hne. unfold trash_name. pose proof (basename_no_sep p) as Hb.
  split_and!; [by destruct id| | |by apply no_char_app; [|apply (no_char_app sep "-")]].
  - destruct id as [|c id]; [done|]. simpl. by destruct id.
  - destruct id as [|c [|c' id]]; [done| |]; simpl; [done|]. by destruct id.
Qed.

Section Confined.
Context (R T : list string) (f0 : fs).
#[local] Notation good := (good R T f0).
#[local] Notation inside := (inside R T).
#[local] Notation moving := (moving R T f0).

Lemma moving_cp a d y n s r s' : inside d → plain_name y → moving d s → dk_fs s !! a = Some n →
  cp (rooted a) (rooted (d ++ [y])) s = (r, s') →
  moving d s' ∧ (∀ u, r = inr u → ¬ under a (d ++ [y]) ∧ is_Some (dk_fs s' !! (d ++ [y])) ∧
    dk_fs s !! (d ++ [y]) = None ∧ ∀ p, ¬ under (d ++ [y]) p → dk_fs s' !! p = dk_fs s !! p).
Proof.
  intros Hin Hy [Hs Hd] Ha H.
  assert (faults_ok s') as Hf by (by eapply keeps_run; [apply keeps_call|by eapply go_faults|]).
  destruct (cp_effect _ _ _ _ _ _ _ (go_wf s Hs) Ha Hd Hy H) as [[Ef [e ->]]|(Hna&->&Hnone&Ef)].
  - split; [|done]. split; [by eapply good_eq|by rewrite Ef].
  - assert (∀ p, ¬ under (d ++ [y]) p → dk_fs s' !! p = dk_fs s !! p) as Hsame.
    { intros p Hp%strip_None. by rewrite Ef, graft_lookup, Hp. }
    split; [split|].
    + eapply (good_graft s d y (λ _, False)); [done|done|by left; apply Hsame|done| |done].
      rewrite Ef. apply wf_copied; [by eapply go_wf|done|done].
    + rewrite Hsame; [done|by apply child_ne].
    + intros _ _. split_and!; [done| |done|done]. rewrite Ef, graft_lookup.
      assert (strip (d ++ [y]) (d ++ [y]) = Some []) as -> by (apply strip_Some; by rewrite app_nil_r).
      rewrite copied_tree_lookup, app_nil_r, Ha. eauto.
Qed.

(** The copy and the removal. *)
Lemma moving_across a d x y n s : inside a → inside d → plain_name x → plain_name y → moving d s → dk_fs s !! a = Some n →
  moving d ((_ ← cp (rooted a) (rooted (d ++ [y]));
             _ ← rename (rooted (d ++ [y])) (rooted (d ++ [x]));
             try_catch (rm (rooted a) false) (λ e1,
               _ ← try_catch (rm (rooted (d ++ [x])) true) (λ _,
                     throw (AggregateError "Cross-device move failed and the copied target could not be cleaned up"));
               throw e1)) s).2.
Proof.
  intros Hia Hid Hx Hy Hm Ha. unfold mbind at 1, prog_bind at 1.
  destruct (cp (rooted a) (rooted (d ++ [y])) s) as [[e|u] s1] eqn:E1;
    destruct (moving_cp a d y n s _ _ Hid Hy Hm Ha E1) as [Hm1 H1]; [done|].
  destruct (H1 u eq_refl) as (Hna&[ny Hny]&Hnone&Hsame1). unfold mbind at 1, prog_bind at 1.
  destruct (rename (rooted (d ++ [y])) (rooted (d ++ [x])) s1) as [[e|u'] s2] eqn:E2;
    destruct (moving_rename (d ++ [y]) d x ny s1 _ _ (inside_child _ _ Hid) Hid Hx Hm1 Hny E2) as [Hm2 H2]; [done|].
  assert (keeps (moving d) (rm (rooted (d ++ [x])) true)) as Hrm by (by apply moving_rm).
  destruct a as [|xa q _] using rev_ind; [by destruct Hna; exists (d ++ [y])|].
  pose proof (wf_plain _ (go_wf s (proj1 Hm)) _ _ Ha) as Hpa. apply Forall_app in Hpa as [_ [Hxa _]%Forall_cons].
  pose proof (wf_parent _ (go_wf s (proj1 Hm)) _ _ _ Ha) as Hq.
  assert (¬ under (d ++ [y]) q) as Hqy.
  { intros [t ->]. by rewrite (wf_missing _ _ t (go_wf s (proj1 Hm)) Hnone) in Hq. }
  assert (dk_fs s2 !! q = Some Dir) as Hq2.
  { rewrite <-(Hsame1 q Hqy) in Hq. destruct H2 as [[-> _]|[Hleaf Hsame2]]; [done|].
    rewrite Hsame2; [done| |done]. intros [t ->].
    assert (dk_fs s1 !! ((d ++ [x]) ++ t ++ [xa]) = Some n) as Hbad.
    { rewrite app_assoc, Hsame1; [done|]. intros [t' Et]. rewrite Et in Ha.
      by rewrite (wf_missing _ _ t' (go_wf s (proj1 Hm)) Hnone) in Ha. }
    rewrite Hleaf in Hbad; [done|]. by destruct t. }
  assert (moving d (rm (rooted (q ++ [xa])) false s2).2) as Hm3.
  { apply moving_rm_at; [done|done| |done|done]. intros Hu. apply Hna. eapply under_trans; [done|]. by exists [y]. }
  unfold try_catch at 1. destruct (rm (rooted (q ++ [xa])) false s2) as [[e1|?] s3]; [|done].
  apply (keeps_bind (moving d)); [|intros ?; apply keeps_throw|done]. apply keeps_try; [done|intros ?; apply keeps_throw].
Qed.

(** Moving an entry from one place inside to another changes nothing outside,
    wherever it fails. *)
Lemma movePath_good a d x uuid n s : inside a → inside d → plain_name x → no_char sep uuid → good s →
  dk_fs s !! a = Some n → dk_fs s !! d = Some Dir → good (movePath (rooted a) (rooted (d ++ [x])) uuid s).2.
Proof.
  intros Hia Hid Hx Hu Hs Ha Hd. unfold movePath. cbv zeta. rewrite temporary_rooted.
  set (y := x +:+ "." +:+ uuid +:+ ".tmp"). assert (plain_name y) as Hy by (by apply temporary_plain).
  apply good_write.
  { unfold try_catch, mbind, prog_bind. destruct (rename _ _ s) as [[e|u] s1] eqn:E;
      destruct (moving_rename a d x n s _ _ Hia Hid Hx (conj Hs Hd) Ha E) as [[Hg _] _]; [|done].
    by destruct (bool_decide _). }
  intros renamed s1 H Hg1. destruct renamed; [done|].
  assert (dk_fs s1 !! a = Some n ∧ moving d s1) as [Ha1 Hm1].
  { unfold try_catch, mbind, prog_bind in H. destruct (rename _ _ s) as [[e|u] s1'] eqn:E; [|done].
    destruct (moving_rename a d x n s _ _ Hia Hid Hx (conj Hs Hd) Ha E) as [Hm Hcase].
    destruct (bool_decide _); [|done]. injection H as <-.
    destruct (rename_effect _ _ _ _ _ _ _ (go_wf s Hs) Ha Hd Hx E) as [[Ef _]|(_&?&_)]; [|done]. by rewrite Ef. }
  clear Hs Ha Hd s H Hg1. assert (∀ B e s, moving d s → good ((_ ← rm (rooted (d ++ [y])) true; throw (A:=B) e) s).2) as Hclean.
  { intros B e s Hm. apply (moving_rm d y true Hid Hy) in Hm. unfold mbind, prog_bind. by destruct (rm _ _ s) as [[?|?] s'], Hm. }
  pose proof (moving_across a d x y n s1 Hia Hid Hx Hy Hm1 Ha1) as Hacross. unfold try_catch at 1.
  match type of Hacross with moving _ (?b).2 => destruct b as [[e|u] s2] end; [by apply Hclean|apply Hacross].
Qed.

(** Directories made below a place that is there and inside. *)
Lemma good_mkdirs base nb t s : inside base → dk_fs s !! base = Some nb → Forall plain_name (base ++ t) →
  clear (dk_fs s) (base ++ t) → good s → ∀ r s', mkdir_recursive (rooted (base ++ t)) s = (r, s') →
  good s' ∧ (∀ u, r = inr u → dk_fs s' !! (base ++ t) = Some Dir) ∧
  (∀ p n, dk_fs s !! p = Some n → dk_fs s' !! p = Some n).
Proof.
  intros Hin Hb Hpl Hc [Hw Hf Ho] r s' H.
  destruct (mkdir_recursive_effect _ _ _ _ Hw Hpl Hc H) as (Hw'&Hadd&Hr).
  assert (faults_ok s') as Hf' by (by eapply keeps_run; [apply keeps_call| |]).
  split; [split; [done|done|]|split; [done|]].
  - intros p Hout. rewrite <-(Ho p Hout). destruct (Hadd p) as [->|(Hnone&_&q&k&E&_&->)]; [done|]. exfalso. simpl in *.
    apply app_eq_inv in E as [(k'&->&_)|(k'&->&_)].
    + destruct k' as [|y k']; [by rewrite app_nil_r in Hb; congruence|].
      rewrite (wf_above (dk_fs s) q (y :: k') nb) in Hnone by done. done.
    + apply Hout. eapply inside_below; [exact Hin|]. by exists k'.
  - intros p n Hp. destruct (Hadd p) as [->|(Hnone&_)]; [done|congruence].
Qed.

(** The end of a transfer: the missing directories, then the move. *)
Lemma good_arrive {A} (x : A) (act : prog disk unit) a base nb t n s : inside base → dk_fs s !! base = Some nb →
  Forall plain_name (base ++ t) → clear (dk_fs s) (base ++ t) → good s → dk_fs s !! a = Some n →
  (∀ s1, good s1 → dk_fs s1 !! a = Some n → dk_fs s1 !! (base ++ t) = Some Dir → good (act s1).2) →
  good ((_ ← mkdir_recursive (rooted (base ++ t)); _ ← act; mret x) s).2.
Proof.
  intros Hib Hb Hpl Hc Hs Ha Hact.
  destruct (mkdir_recursive (rooted (base ++ t)) s) as [r s1] eqn:E.
  destruct (good_mkdirs base nb t s Hib Hb Hpl Hc Hs r s1 E) as (Hg&Hdir&Hkeep).
  apply good_write; [by rewrite E|]. intros u s1' E'. rewrite E in E'. injection E' as -> <-. intros _.
  apply good_write; [|done]. apply Hact; [done|by apply Hkeep|by eapply Hdir].
Qed.

Lemma transfer_clear source targetPath s u s1 : faults_ok s → assertTransferDestinationIsValid source targetPath s = (inr u, s1) →
  ∃ s2 v s3, dk_fs s2 = dk_fs s ∧ faults_ok s2 ∧
    assertNoSymlinkPathSegments (sp_rootRealPath source) (dirname targetPath) s2 = (inr v, s3).
Proof.
  intros Hf. unfold assertTransferDestinationIsValid. destruct (bool_decide _); [done|].
  intros (v1&s2&H1&H)%bind_inv. apply bind_inv in H as (v&s3&H2&_). exists s2, v, s3. split_and!; [| |done].
  - by eapply looks_run; [apply looks_check|].
  - by eapply keeps_run; [apply keeps_check| |].
Qed.

Context (root : NasRootRecord) (Hroot : follow f0 (ro_path root) = inr R).

Lemma good_transfer act requires p s : good s → dk_fs s = f0 →
  (∀ source target a d x n s1, sp_realPath source = rooted a → st_absolutePath target = rooted (d ++ [x]) → inside a →
     inside d → plain_name x → good s1 → dk_fs s1 !! a = Some n → dk_fs s1 !! d = Some Dir → good (act source target s1).2) →
  good (transfer act requires root p s).2.
Proof.
  intros Hs Ef Hact. unfold transfer. destruct (given (fp_sourcePath p)) as [sp|]; [|done].
  destruct (given (fp_targetPath p)) as [tp|]; [|done].
  apply good_look; [auto with looks|auto with keeps|done|]. intros source s1 E1 Ef1 Hs1.
  destruct (source_place Hroot _ _ _ _ Hs Ef E1) as (ta&n&Hrr&Hreal&Hn).
  apply good_look; [auto with looks|auto with keeps|done|]. intros target s2 E2 Ef2 Hs2.
  destruct (target_place Hroot _ s1 _ _ Hs1 (eq_trans Ef1 Ef) E2) as (t&_&Habs&Hpl&Hex&Ht).
  apply good_look; [auto with looks|auto with keeps|done|]. intros u3 s3 E3 Ef3 Hs3.
  apply good_look; [auto with looks|auto with keeps|done|]. intros u4 s4 E4 Ef4 Hs4.
  destruct (place_split R t Hpl Ht) as [[-> ->]|(t'&y&->&Hpl'&Hy&Hdir)].
  { rewrite Habs in E4. by apply absent_not_root in E4; [|eapply go_wf|eapply go_faults]. }
  assert (dk_fs s4 = f0) as Ef0 by congruence. rewrite Habs, Hdir.
  destruct (transfer_clear _ _ _ _ _ (go_faults _ Hs2) E3) as (s'&v&s''&Ef'&Hf'&Hno). rewrite Hrr, Habs, Hdir in Hno.
  destruct Hex as (nr&Hnr&Hlr). rewrite app_assoc in Habs.
  eapply (good_arrive _ _ (R ++ ta) R nr t' n); [left; by exists []; rewrite app_nil_r|by rewrite Ef0|done| |done|by rewrite Ef0|].
  - rewrite Ef0. eapply (clear_from_root f0 R t' v s'); [rewrite Ef'; by eapply go_wf|done|congruence|done|by exists nr|done].
  - intros s5 Hs5 Ha5 Hd5. eapply Hact; [done|done| | |done|done|done|done]; left; by eexists.
Qed.

(** Back into the root: the end of a rollback and of a restore. *)
Lemma good_return {A} (x : A) a n t uuid s : no_char sep uuid → inside a → f0 !! a = Some n → good s → dk_fs s = f0 →
  Forall plain_name (R ++ t) → (∃ n, f0 !! R = Some n ∧ is_link n = false) → (t = [] → R = []) →
  good ((_ ← assertNoSymlinkPathSegments (rooted R) (dirname (rooted (R ++ t)));
         _ ← assertTargetDoesNotExist (rooted (R ++ t));
         _ ← mkdir_recursive (dirname (rooted (R ++ t)));
         _ ← movePath (rooted a) (rooted (R ++ t)) uuid; mret x) s).2.
Proof.
  intros Hu Hia Ha Hs Ef Hpl (nr&Hnr&Hlr) Ht.
  apply good_look; [auto with looks|auto with keeps|done|]. intros v s1 E1 Ef1 Hs1.
  apply good_look; [auto with looks|auto with keeps|done|]. intros v2 s2 E2 Ef2 Hs2.
  destruct (place_split R t Hpl Ht) as [[-> ->]|(t'&y&->&Hpl'&Hy&Hdir)].
  { by apply absent_not_root in E2; [|eapply go_wf|eapply go_faults]. }
  assert (dk_fs s2 = f0) as Ef0 by congruence. rewrite Hdir in E1 |- *. rewrite app_assoc.
  apply (good_arrive _ _ a R nr t' n); [left; by exists []; rewrite app_nil_r|by rewrite Ef0|done| |done|by rewrite Ef0|].
  - rewrite Ef0. by eapply (clear_from_root f0 R t' v s); [eapply go_wf|eapply go_faults| | |exists nr|].
  - intros s3 Hs3 Ha3 Hd3. eapply movePath_good; [done| |done..]. left. by eexists.
Qed.

Lemma good_rollbackMove uuid o s : no_char sep uuid → good s → dk_fs s = f0 → good (rollbackMove uuid root o s).2.
Proof.
  intros Hu Hs Ef. unfold rollbackMove. destruct (given (fo_sourcePath o)) as [sp|]; [|done].
  destruct (given (fo_targetPath o)) as [tp|]; [|done].
  apply good_look; [auto with looks|auto with keeps|done|]. intros source s1 E1 Ef1 Hs1.
  destruct (source_place Hroot _ _ _ _ Hs Ef E1) as (ta&n&_&->&Hn).
  apply good_look; [auto with looks|auto with keeps|done|]. intros target s2 E2 Ef2 Hs2.
  destruct (target_place Hroot _ s1 _ _ Hs1 (eq_trans Ef1 Ef) E2) as (t&->&->&Hpl&Hex&Ht).
  apply (good_return _ (R ++ ta) n); [done|left; by eexists|done|done|congruence|done..].
Qed.

Lemma good_applyMkdir p s : good s → dk_fs s = f0 → good (applyMkdir root p s).2.
Proof.
  intros Hs Ef. unfold applyMkdir. destruct (given (fp_targetPath p)) as [tp|]; [|done].
  apply good_look; [auto with looks|auto with keeps|done|]. intros target s1 E1 Ef1 Hs1.
  destruct (target_place Hroot _ s _ _ Hs Ef E1) as (t&->&->&Hpl&(nr&Hnr&Hlr)&Ht).
  apply good_look; [auto with looks|auto with keeps|done|]. intros v s2 E2 Ef2 Hs2.
  apply good_write; [|done]. assert (dk_fs s2 = f0) as Ef0 by congruence.
  destruct (mkdir (rooted (R ++ t)) s2) as [r s3] eqn:E. simpl.
  assert (faults_ok s3) as Hf3 by (by eapply keeps_run; [apply keeps_call|by eapply go_faults|]).
  destruct (place_split R t Hpl Ht) as [[-> ->]|(t'&y&->&Hpl'&Hy&Hdir)].
  - destruct (call_effect _ _ _ _ E) as [[E' _]|E']; [by eapply good_eq|]. change (locate (dk_fs s2) (rooted ([] ++ []))) with (inr [] : exn + list string) in E'.
    cbv beta iota in E'. rewrite (wf_root _ (go_wf s2 Hs2)) in E'. injection E' as _ E'. by eapply good_eq.
  - rewrite app_assoc in E. rewrite Hdir in E2.
    assert (clear (dk_fs s2) (R ++ t')) as Hc.
    { rewrite Ef0. by eapply (clear_from_root f0 R t' v s1); [eapply go_wf|eapply go_faults|congruence| |exists nr|]. }
    destruct (make_effect _ _ _ _ _ _ (go_wf s2 Hs2) Hc Hpl' Hy E) as [[E' _]|(_&Hd&Hnone&E')]; [by eapply good_eq|].
    eapply (good_graft s2 (R ++ t') y (λ _, False)); [done|left; by eexists| |done| |done]; rewrite E'.
    + intros q Hq. left. rewrite lookup_insert_ne; [done|]. intros <-. apply Hq. exists []. by rewrite app_nil_r.
    + apply wf_insert; [by eapply go_wf|done|done|done].
Qed.

Context (HT : f0 !! T = Some Dir) (Hid : plain_name (ro_id root)) (Hclear : clear f0 (T ++ [ro_id root])).

Lemma good_to_trash {A} (x : A) fresh sourcePath req uuid a n s : wf f0 → no_char sep (req ⁇ fresh) → req ⁇ fresh ≠ "" → no_char sep uuid →
  inside a → f0 !! a = Some n → good s → dk_fs s = f0 →
  let place := tp_absoluteTrashPath (trashPathFor fresh (rooted T) (ro_id root) sourcePath req) in
  good ((_ ← mkdir_recursive (dirname place); _ ← movePath (rooted a) place uuid; mret x) s).2.
Proof.
  intros Hwf Hi Hne Hu Hia Ha Hs Ef. cbv zeta. unfold trashPathFor, tp_absoluteTrashPath.
  set (id := req ⁇ fresh). fold (trash_name id sourcePath).
  pose proof (trash_name_plain id sourcePath Hi Hne) as Hn. pose proof (wf_plain f0 Hwf _ _ HT) as HTp.
  rewrite path_join_below by done. change (T ++ [ro_id root; trash_name id sourcePath]) with (T ++ [ro_id root] ++ [trash_name id sourcePath]).
  rewrite app_assoc. assert (Forall plain_name (T ++ [ro_id root])) as Hpl by (apply Forall_app; split; [done|by constructor]).
  rewrite dirname_rooted by done.
  apply (good_arrive _ _ a T Dir [ro_id root] n); [right; exists []; by rewrite app_nil_r|by rewrite Ef|done|by rewrite Ef|done|by rewrite Ef|].
  intros s1 Hs1 Ha1 Hd1. eapply movePath_good; [done| |done..]. right. by eexists.
Qed.

(** An id given by the batch or made up. *)
Definition id_ok (id : string) : Prop := no_char sep id ∧ id ≠ "".

Lemma good_applyTrash ids p s : wf f0 → id_ok (fp_trashEntryId p ⁇ ids.1) → no_char sep ids.2 → good s → dk_fs s = f0 →
  good (applyTrash ids root p (rooted T) s).2.
Proof.
  intros Hwf [Hi Hne] Hu Hs Ef. unfold applyTrash. destruct (given (fp_sourcePath p)) as [sp|]; [|done].
  apply good_look; [auto with looks|auto with keeps|done|]. intros source s1 E1 Ef1 Hs1.
  destruct (source_place Hroot _ _ _ _ Hs Ef E1) as (ta&n&_&->&Hn). cbv zeta.
  apply good_look; [auto with looks|auto with keeps|done|]. intros v s2 E2 Ef2 Hs2.
  eapply good_to_trash; [done..| |exact Hn|done|congruence]. left. by eexists.
Qed.

Lemma good_rollbackByTrashing ids o s : wf f0 → id_ok ids.1 → no_char sep ids.2 → good s → dk_fs s = f0 →
  good (rollbackByTrashingTarget ids root o (rooted T) s).2.
Proof.
  intros Hwf [Hi Hne] Hu Hs Ef. unfold rollbackByTrashingTarget. destruct (given _) as [tp|]; [|done].
  apply good_look; [auto with looks|auto with keeps|done|]. intros source s1 E1 Ef1 Hs1.
  destruct (source_place Hroot _ _ _ _ Hs Ef E1) as (ta&n&_&->&Hn). cbv zeta.
  eapply good_to_trash; [done..| |exact Hn|done|congruence]. left. by eexists.
Qed.

Lemma good_applyMove uuid p s : no_char sep uuid → good s → dk_fs s = f0 → good (applyMove uuid root p s).2.
Proof.
  intros Hu Hs Ef. eapply good_transfer; [done..|]. intros source target a d x n s1 -> -> Ha Hd Hx Hs1 Hn Hdir.
  by eapply movePath_good.
Qed.
Lemma good_applyCopy p s : good s → dk_fs s = f0 → good (applyCopy root p s).2.
Proof.
  intros Hs Ef. eapply good_transfer; [done..|]. intros source target a d x n s1 -> -> Ha Hd Hx Hs1 Hn Hdir.
  destruct (cp (rooted a) (rooted (d ++ [x])) s1) as [r s2] eqn:E. by eapply moving_cp in E as [[Hg _] _].
Qed.
Lemma good_edit p s : good s → good (applyEditAuthorization root p s).2.
Proof.
  intros Hs. unfold applyEditAuthorization. destruct (given _); [|done].
  apply good_look; [auto with looks|auto with keeps|done|]. intros source s1 _ _ Hs1.
  apply good_look; [auto with looks|apply keeps_call|done|]. intros n s2 _ _ Hs2. destruct (is_link n); [done|].
  apply good_look; [auto with looks|apply keeps_call|done|]. intros n' s3 _ _ Hs3. by destruct (negb _).
Qed.
Lemma good_tag p s : good s → good (applyTag root p s).2.
Proof.
  intros Hs. unfold applyTag. destruct (given _); [|done]. destruct (given _); [|done].
  apply good_look; [auto with looks|auto with keeps|done|]. done.
Qed.

(** A trash entry: a place inside the trash that no link leads to. *)
Definition entry_ok (trashPath : string) : Prop :=
  ∃ d x, trashPath = rooted (d ++ [x]) ∧ under T d ∧ clear f0 d ∧ Forall plain_name d ∧ plain_name x.

Lemma good_restore uuid trashPath originalPath s : entry_ok trashPath → no_char sep uuid → good s → dk_fs s = f0 →
  good (restoreTrashPath uuid root trashPath originalPath s).2.
Proof.
  intros (d&x&->&Hd&Hc&Hpl&Hx) Hu Hs Ef. unfold restoreTrashPath. rewrite dirname_rooted, basename_rooted by done.
  apply good_look; [auto with looks|auto with keeps|done|]. intros source s1 E1 Ef1 Hs1.
  destruct (resolveSafeExistingPath_effect _ _ _ _ _ (go_wf s Hs) E1) as [_ Hp].
  destruct (Hp source eq_refl) as (d'&ta&n&Hfol&_&_&->&_&Hn&_).
  assert (d' = d) as ->.
  { rewrite Ef in Hfol. destruct (f0 !! []) as [[]|] eqn:E0; [|by rewrite <-Ef, (wf_root _ (go_wf s Hs)) in E0..].
    unfold follow in Hfol. assert (walk MAX_LINKS f0 [] d = inr d') as Hw.
    { destruct d as [|y d]; [|rewrite segments_rooted in Hfol by done].
      - change (segments (rooted [])) with ([""; ""] : list string) in Hfol. rewrite !walk_cons, E0 in Hfol. exact Hfol.
      - rewrite walk_cons, E0 in Hfol. exact Hfol. }
    rewrite Ef in *. eapply walk_clear in Hw; [done| |by rewrite E0|done|done]. rewrite <-Ef. by eapply go_wf. }
  rewrite Ef in Hn.
  apply good_look; [auto with looks|auto with keeps|done|]. intros target s2 E2 Ef2 Hs2.
  destruct (target_place Hroot _ s1 _ _ Hs1 (eq_trans Ef1 Ef) E2) as (t&->&->&Htpl&Hex&Ht).
  apply (good_return _ (d ++ ta) n); [done| |done|done|congruence|done..].
  right. eapply under_trans; [exact Hd|by eexists].
Qed.
End Confined.

(** ** The requests *)
Inductive mutation_request :=
| Apply (p : FileOperationProposal)
| Rollback (o : FileOperationRecord)
| RestoreEntry (trashPath originalPath : string).
Definition run_mutation spawn gunzip (ids : string * string) (root : NasRootRecord) (trashRootPath : string)
    (q : mutation_request) : prog disk unit :=
  match q with
  | Apply p => _ ← applyFileMutation spawn gunzip ids root p trashRootPath; mret tt
  | Rollback o => _ ← rollbackFileMutation ids root o trashRootPath; mret tt
  | RestoreEntry t o => _ ← restoreTrashPath ids.2 root t o; mret tt
  end.
(** What the callers make sure of: the ids they make are names, and the trash
    path of an entry is a place inside the trash. *)
Definition request_safe (f : fs) (T : list string) (ids : string * string) (q : mutation_request) : Prop :=
  id_ok ids.1 ∧ no_char sep ids.2 ∧
  match q with
  | Apply p => id_ok (fp_trashEntryId p ⁇ ids.1)
  | Rollback _ => True
  | RestoreEntry t _ => entry_ok T f t
  end.

(** C3: File mutations are confined.  Whatever the proposal, the operation to
    roll back or the trash entry asks for - absolute paths, dots, names that
    are links out of the root -, and wherever a call of the file system fails,
    applying, rolling back or restoring changes no entry outside the real
    place of the NAS root and the trash, and leaves a well-formed tree. *)
Theorem mutation_confined spawn gunzip `{!ArchiveTools spawn gunzip} ids root R T q s :
  wf (dk_fs s) → faults_ok s → follow (dk_fs s) (ro_path root) = inr R → dk_fs s !! T = Some Dir →
  plain_name (ro_id root) → clear (dk_fs s) (T ++ [ro_id root]) → request_safe (dk_fs s) T ids q →
  let s' := (run_mutation spawn gunzip ids root (rooted T) q s).2 in
  wf (dk_fs s') ∧ ∀ p, ¬ under R p → ¬ under T p → dk_fs s' !! p = dk_fs s !! p.
Proof.
  intros Hwf Hf Hroot HT Hid Hclear (Hi&Hu&Hq). cbv zeta.
  assert (good R T (dk_fs s) s) as Hs by done.
  enough (good R T (dk_fs s) (run_mutation spawn gunzip ids root (rooted T) q s).2) as [Hw' _ Ho].
  { split; [done|]. intros p HR HT'. apply Ho. by intros [?|?]. }
  destruct q as [p|o|t orig]; cbn [run_mutation]; (apply good_write; [|done]).
  - rename Hq into Htid. unfold applyFileMutation. destruct (negb _); [done|].
    destruct (fp_operation p); try done.
    + by apply good_applyMkdir.
    + by eapply good_applyMove.
    + by eapply good_applyCopy.
    + by eapply good_applyMove.
    + by apply good_tag.
    + by eapply good_applyTrash.
    + by apply good_edit.
    + by eapply good_applyExtract.
  - unfold rollbackFileMutation. destruct (bool_decide (fo_status o ≠ fo_applied)); [done|].
    destruct (fo_operation o); try done; (by eapply good_rollbackMove) || (by eapply good_rollbackByTrashing).
  - by eapply good_restore.
Qed.

#[global] Instance demo_tools : ArchiveTools demo_spawn demo_gunzip.
Proof.
  split.
  - intros command args. unfold demo_spawn. repeat case_match; (apply keeps_call || apply keeps_ret).
  - intros command args []; intros s; simpl; by repeat case_match.
  - intros command args d s H Hwf Hd. assert (∀ e, (mret (process_error e) : prog disk _) s = (inr (process_error e), s)) as He by done.
    inversion H as [p d' E1 E2 E3|p d' E1 E2 E3|p d' E1 E2 E3|p d' E1 E2 E3]; subst; cbv zeta; [|by simpl..].
    destruct (demo_spawn _ _ s) as [r s'] eqn:E. simpl. unfold demo_spawn in E.
    rewrite normalizeString_rooted in E by (by eapply wf_plain). apply call_effect in E as [[-> _]|E]; [done|].
    case_bool_decide as Hc; injection E as _ <-; [destruct Hc as (_&_&Hn)|done]. split_and!.
    + by apply wf_insert.
    + rewrite lookup_insert_ne; [done|]. intros Eq. apply (f_equal length) in Eq. rewrite length_app in Eq. simpl in Eq. lia.
    + intros q Hq. apply lookup_insert_ne. intros <-. apply Hq. by eexists.
  - intros p. apply keeps_ret.
  - done.
Qed.

Lemma demo_wf : wf demo_fs.
Proof. apply wf_check; [reflexivity|]. apply (bool_decide_unpack _). vm_compute. exact I. Qed.
Lemma demo_clear : clear demo_fs (["trash"] ++ ["r1"]).
Proof.
  apply clear_extend; [|by vm_compute]. apply clear_dir; [exact demo_wf|reflexivity].
Qed.

(** Moving a/f to b/c/g on another device, where the copy fails. *)
Lemma mutation_confined_witness :
  let s' := (run_mutation demo_spawn demo_gunzip ("t", "u") demo_root (rooted ["trash"]) (Apply demo_move)
               (Disk demo_fs (demo_faults ++ [Some (ErrnoException "ENOSPC")]))).2 in
  dk_fs s' !! ["etc"; "passwd"] = Some (File "p").
Proof.
  destruct (mutation_confined demo_spawn demo_gunzip ("t", "u") demo_root ["nas"] ["trash"] (Apply demo_move)
              (Disk demo_fs (demo_faults ++ [Some (ErrnoException "ENOSPC")]))) as [_ H].
  - exact demo_wf.
  - unfold faults_ok. repeat constructor; done.
  - reflexivity.
  - reflexivity.
  - by split_and!.
  - exact demo_clear.
  - by split_and!.
  - cbv zeta. rewrite H; [reflexivity|by intros [? [=]]..].
Defined.
