(* ===== verification/Rollback.v ===== *)
(** * Undoing a mutation

    A move that is rolled back, and a trash entry that is restored, put the
    tree back as it was (Mutations), on a disk whose calls do not fail.  First
    what each call of the code comes to there. *)
From S2P Require Import Prelude Json JsString CoreDb Jobs.
From S2P Require Import FileSystem PathSafety Confinement Archives Mutations.

(** ** Calls on real places *)
Section Calls.
Context (f : fs) (Hwf : wf f).
#[local] Notation s := (Disk f []).

Lemma realpath_ok p q n : follow f p = inr q → f !! q = Some n → realpath p s = (inr (rooted q), s).
Proof. intros H _. unfold realpath, query, call. simpl. by rewrite H. Qed.

Lemma real_root rootPath R : follow f rootPath = inr R → ∃ n, f !! R = Some n ∧ is_link n = false.
Proof. intros H. eapply walk_found; [done| |exact H]. exists Dir. split; [by apply wf_root|done]. Qed.

Lemma resolve_below R t : Forall plain_name (R ++ t) → t ≠ [] → resolve "/" [rooted R; join "/" t] = rooted (R ++ t).
Proof.
  intros [HR Ht]%Forall_app Hne. rewrite resolve_rooted. f_equal. destruct t as [|x t]; [done|].
  apply Forall_cons in Ht as [Hx Ht]. destruct (join_nonempty x t Hx) as [Hne' Habs]. cbn [resolve_from].
  rewrite (bool_decide_false (rooted R = "")), rooted_absolute by done. cbn [resolve_from].
  rewrite bool_decide_false, Habs by done. by apply normalizeString_join; [|constructor|].
Qed.

Lemma resolve_dot R : Forall plain_name R → resolve "/" [rooted R; "."] = rooted R.
Proof.
  intros HR. rewrite resolve_rooted. f_equal. cbn [resolve_from]. rewrite (bool_decide_false (rooted R = "")), rooted_absolute by done.
  cbn [resolve_from]. rewrite bool_decide_false by done. unfold normalizeString, segments.
  change (isAbsolute ".") with false. cbv iota. change (rooted R +:+ "/" +:+ ".") with (rooted R +:+ String sep ".").
  rewrite split_on_app_all. fold (segments (rooted R)). destruct R as [|y R].
  - done.
  - rewrite segments_rooted by done. change (split_on sep ".") with ["."].
    change (("" :: y :: R) ++ ["."]) with ("" :: (y :: R) ++ ["."]). cbn [norm_segments]. rewrite bool_decide_true by (by left).
    assert (∀ l st, Forall plain_name l → norm_segments false st (l ++ ["."]) = reverse st ++ l) as H; [|by apply (H (y :: R) [])].
    clear. induction l as [|x l IH]; intros st Hl; cbn [norm_segments app].
    + rewrite bool_decide_true by (by right). by rewrite app_nil_r.
    + apply Forall_cons in Hl as [(H1&H2&H3&_) Hl]. rewrite bool_decide_false by naive_solver. rewrite bool_decide_false by done.
      rewrite IH by done. rewrite reverse_cons. by rewrite <-app_assoc.
Qed.

Lemma existing_ok rootPath R t n : follow f rootPath = inr R → Forall plain_name (R ++ t) → t ≠ [] → dotless t →
  f !! (R ++ t) = Some n → is_link n = false →
  resolveSafeExistingPath rootPath (join "/" t) s =
    (inr (SafePath (rooted R) (rooted (R ++ t)) (rooted (R ++ t)) (join "/" t)), s).
Proof.
  intros Hr Hpl Hne Hdot Hn Hl. pose proof Hpl as [HR Ht]%Forall_app. unfold resolveSafeExistingPath.
  destruct t as [|x t]; [done|]. apply Forall_cons in Ht as [Hx Ht]. destruct (join_nonempty x t Hx) as [Hne' Habs].
  rewrite Habs. destruct (real_root _ _ Hr) as (nr&Hnr&_). erewrite bind_inr by (by eapply realpath_ok). cbv beta iota zeta.
  rewrite bool_decide_false, resolve_below by done.
  erewrite bind_inr by (eapply realpath_ok; [by eapply follow_real|done]). cbv beta iota.
  assert (isPathInside (rooted R) (rooted (R ++ x :: t)) = true) as -> by (apply isPathInside_rooted; [done..|by exists (x :: t)]).
  cbn [negb]. by rewrite toRootRelative_rooted.
Qed.

Lemma target_ok rootPath R d x : follow f rootPath = inr R → Forall plain_name (R ++ d ++ [x]) → dotless (d ++ [x]) →
  resolveSafeTargetPath rootPath (join "/" (d ++ [x])) s =
    (inr (SafeTargetPath (rooted R) (rooted (R ++ d ++ [x])) (join "/" (d ++ [x]))), s).
Proof.
  intros Hr Hpl Hdot. pose proof Hpl as [HR Ht]%Forall_app. unfold resolveSafeTargetPath.
  destruct (real_root _ _ Hr) as (nr&Hnr&Hlr).
  assert (resolveSafeExistingPath rootPath "." s = (inr (SafePath (rooted R) (rooted R) (rooted R) "."), s)) as Hroot.
  { unfold resolveSafeExistingPath. change (isAbsolute ".") with false. cbv iota.
    erewrite bind_inr by (by eapply realpath_ok). cbv beta iota zeta. rewrite bool_decide_false, resolve_dot by done.
    erewrite bind_inr by (eapply realpath_ok; [by eapply follow_real|done]). cbv beta iota.
    assert (isPathInside (rooted R) (rooted R) = true) as -> by (apply isPathInside_rooted; [done..|exists []; by rewrite app_nil_r]).
    cbn [negb]. pose proof (toRootRelative_rooted R []) as E. rewrite app_nil_r in E. by rewrite E. }
  assert (∃ y u, d ++ [x] = y :: u ∧ plain_name y) as (y&u&E&Hy).
  { destruct d as [|y d]; apply Forall_cons in Ht as [Hy _]; by eexists _, _. }
  destruct (join_nonempty y u Hy) as [Hne Habs]. rewrite E in *. rewrite Habs, bool_decide_false by done. cbn [orb].
  erewrite bind_inr by exact Hroot. cbv beta iota zeta. cbn [sp_rootRealPath]. rewrite resolve_below by done.
  assert (isPathInside (rooted R) (rooted (R ++ y :: u)) = true) as -> by (apply isPathInside_rooted; [done..|by exists (y :: u)]).
  assert (isPathInside (rooted R) (dirname (rooted (R ++ y :: u))) = true) as ->.
  { rewrite <-E in *. rewrite app_assoc in Hpl |- *. apply Forall_app in Hpl as [Hpl [Hx _]%Forall_cons].
    rewrite dirname_rooted by done. apply isPathInside_rooted; [done..|]. exists d. split; [done|].
    by destruct d as [|z d]; [|injection E as -> _]. }
  cbn [negb]. by rewrite toRootRelative_rooted.
Qed.

Lemma no_symlink_ok stop refuse cur segs n : f !! (cur ++ segs) = Some n → is_link n = false →
  no_symlink_segments stop refuse (rooted cur) segs s = (inr tt, s).
Proof.
  revert cur. induction segs as [|x segs IH]; intros cur Hn Hl; [done|]. cbn [no_symlink_segments].
  rewrite cons_middle, app_assoc in Hn. pose proof (wf_plain f Hwf _ _ Hn) as [Hpl _]%Forall_app.
  pose proof Hpl as [Hc [Hx _]%Forall_cons]%Forall_app.
  assert (∃ m, f !! (cur ++ [x]) = Some m ∧ is_link m = false) as (m&Hm&Hlm).
  { destruct segs as [|y segs]; [rewrite app_nil_r in Hn; by exists n|]. exists Dir. split; [|done].
    by eapply (wf_above f _ (y :: segs) n). }
  cbv zeta. rewrite path_join_rooted by done. unfold try_catch, mbind, prog_bind, lstat, query, call. cbn [dk_fs dk_faults].
  rewrite (locate_real f _ m), Hm by done. rewrite Hlm. by apply IH.
Qed.

Lemma check_ok p R t n : p = R ++ t → f !! p = Some n → is_link n = false →
  assertNoSymlinkPathSegments (rooted R) (rooted p) s = (inr tt, s).
Proof.
  intros -> Hn Hl. pose proof (wf_plain f Hwf _ _ Hn) as [HR Ht]%Forall_app. unfold assertNoSymlinkPathSegments.
  rewrite path_segments_rooted by done. by eapply no_symlink_ok.
Qed.

Lemma follow_missing d x : f !! d = Some Dir → plain_name x → f !! (d ++ [x]) = None →
  follow f (rooted (d ++ [x])) = inl (ErrnoException "ENOENT").
Proof.
  intros Hd Hx Hn. pose proof (wf_plain f Hwf _ _ Hd) as Hpl. unfold follow.
  rewrite segments_rooted by (done || (apply Forall_app; split; [done|by constructor]) || by destruct d).
  assert (∀ l cur r, f !! (cur ++ r) = Some Dir → cur ++ r = d → walk l f cur (r ++ [x]) = inl (ErrnoException "ENOENT")) as H.
  { intros l cur r. revert cur. induction r as [|y r IH]; intros cur Hr E; cbn [app]; rewrite walk_cons.
    - rewrite app_nil_r in Hr, E. subst cur. rewrite Hd. destruct Hx as (H1&H2&H3&_).
      rewrite bool_decide_false by naive_solver. rewrite bool_decide_false by done. by rewrite Hn.
    - pose proof (wf_plain f Hwf _ _ Hr) as [_ [(H1&H2&H3&_) _]%Forall_cons]%Forall_app.
      rewrite (wf_above f cur (y :: r) Dir Hwf Hr) by done. rewrite bool_decide_false by naive_solver.
      rewrite bool_decide_false by done. rewrite cons_middle, app_assoc in Hr, E.
      assert (f !! (cur ++ [y]) = Some Dir) as ->.
      { destruct r as [|z r]; [by rewrite app_nil_r in Hr|]. by eapply (wf_above f _ (z :: r) Dir). }
      by apply IH. }
  rewrite walk_cons, (wf_root f Hwf), bool_decide_true by (by left). by apply H.
Qed.

Lemma absent_ok d x : f !! d = Some Dir → plain_name x → f !! (d ++ [x]) = None →
  assertTargetDoesNotExist (rooted (d ++ [x])) s = (inr tt, s).
Proof.
  intros Hd Hx Hn. unfold assertTargetDoesNotExist, try_catch, mbind, prog_bind, stat, query, call. cbn [dk_fs dk_faults].
  by rewrite follow_missing.
Qed.

Lemma mkdirs_ok p : f !! p = Some Dir → mkdir_recursive (rooted p) s = (inr tt, s).
Proof.
  intros Hp. unfold mkdir_recursive, call. cbn [dk_fs dk_faults].
  assert (∀ r cur, f !! (cur ++ r) = Some Dir → make_dirs cur r f = (inr tt, f)) as H.
  { induction r as [|x r IH]; intros cur Hr; [done|]. cbn [make_dirs].
    pose proof (wf_plain f Hwf _ _ Hr) as [_ [(H1&H2&H3&_) _]%Forall_cons]%Forall_app.
    rewrite bool_decide_false by naive_solver. rewrite cons_middle, app_assoc in Hr.
    assert (f !! (cur ++ [x]) = Some Dir) as Hx.
    { destruct r as [|z r]; [by rewrite app_nil_r in Hr|]. by eapply (wf_above f _ (z :: r) Dir). }
    rewrite Hx, (walk_real _ f cur [x] Dir), Hx by done. by apply IH. }
  destruct p as [|x p]; [done|]. rewrite segments_rooted by (done || by eapply wf_plain).
  assert (∀ l, make_dirs [] ("" :: l) f = make_dirs [] l f) as -> by done. by rewrite (H (x :: p) []).
Qed.

Lemma movePath_ok a d x n uuid : f !! a = Some n → f !! d = Some Dir → plain_name x → f !! (d ++ [x]) = None → ¬ under a (d ++ [x]) →
  movePath (rooted a) (rooted (d ++ [x])) uuid s = (inr tt, Disk (moved a (d ++ [x]) f) []).
Proof.
  intros Ha Hd Hx Hn Hu. unfold movePath, try_catch, mbind, prog_bind, rename, call. cbn [dk_fs dk_faults].
  rewrite (locate_real f a n), locate_child, Ha, Hn by done. rewrite bool_decide_false by congruence.
  by rewrite bool_decide_false.
Qed.
End Calls.

(** ** The way there *)
Definition calm (s : disk) : Prop := dk_faults s = [].
Lemma calm_call {A} (m : fs → (exn + A) * fs) : keeps calm (call m).
Proof. intros s Hs. unfold call, calm in *. rewrite Hs. by destruct (m (dk_fs s)). Qed.
#[local] Hint Resolve calm_call : keeps.
Lemma calm_no_symlink stop refuse cur segs : keeps calm (no_symlink_segments stop refuse cur segs).
Proof. revert cur. induction segs as [|x segs IH]; intros cur; cbn [no_symlink_segments]; keeps_all. Qed.
#[local] Hint Resolve calm_no_symlink : keeps.
Lemma calm_existing a b : keeps calm (resolveSafeExistingPath a b).
Proof. unfold resolveSafeExistingPath. keeps_all. Qed.
#[local] Hint Resolve calm_existing : keeps.
Lemma calm_target a b : keeps calm (resolveSafeTargetPath a b).
Proof. unfold resolveSafeTargetPath. keeps_all. Qed.
Lemma calm_absent p : keeps calm (assertTargetDoesNotExist p).
Proof. unfold assertTargetDoesNotExist. keeps_all. Qed.
Lemma calm_transfer a p : keeps calm (assertTransferDestinationIsValid a p).
Proof. unfold assertTransferDestinationIsValid, assertNoSymlinkPathSegments. keeps_all. Qed.
#[local] Hint Resolve calm_target calm_absent calm_transfer : keeps.

(** A step that only looks leaves a calm disk as it is. *)
Lemma look_inv {A B} (m : prog disk A) (k : A → prog disk B) f b s' : looks m → keeps calm m →
  (m ≫= k) (Disk f []) = (inr b, s') → ∃ a, m (Disk f []) = (inr a, Disk f []) ∧ k a (Disk f []) = (inr b, s').
Proof.
  intros Hl Hk (a&s1&H1&H2)%bind_inv. pose proof (Hl (Disk f [])) as El. pose proof (Hk (Disk f []) eq_refl) as Ek.
  rewrite H1 in El, Ek. destruct s1 as [f1 l1]. simpl in El, Ek. subst f1. unfold calm in Ek. simpl in Ek. subst l1. by exists a.
Qed.

(** Every link leads somewhere. *)
Definition no_dangling (f : fs) : Prop := ∀ q t, f !! q = Some (Link t) → ∃ p, follow f (rooted q) = inr p.

Lemma absent_free f q u s' : wf f → no_dangling f → Forall plain_name q →
  assertTargetDoesNotExist (rooted q) (Disk f []) = (inr u, s') → f !! q = None.
Proof.
  intros Hwf Hnd Hq H. destruct (f !! q) as [n|] eqn:E; [|done]. exfalso.
  assert (∃ p m, follow f (rooted q) = inr p ∧ f !! p = Some m) as (p&m&Hp&Hm).
  { destruct (is_link n) eqn:El; [|exists q, n; split; [by eapply follow_real|done]]. destruct n as [| |t]; try done.
    destruct (Hnd q t E) as [p Hp]. destruct (real_root f Hwf _ _ Hp) as (m&Hm&_). by exists p, m. }
  unfold assertTargetDoesNotExist, try_catch, mbind, prog_bind, stat, query, call in H. cbn [dk_fs dk_faults] in H.
  rewrite Hp, Hm in H. done.
Qed.

(** What was added are directories. *)
Definition only_dirs_added (f f' : fs) : Prop := ∀ q, f' !! q = f !! q ∨ (f !! q = None ∧ f' !! q = Some Dir).

(** A move that succeeded: [a], below the root, went to [b]. *)
Lemma arrive_inv {A} (x : A) uuid f a n base nb t y r s' : wf f → f !! a = Some n → f !! base = Some nb →
  Forall plain_name (base ++ t) → clear f (base ++ t) → plain_name y → f !! ((base ++ t) ++ [y]) = None → a ≠ (base ++ t) ++ [y] →
  (_ ← mkdir_recursive (rooted (base ++ t)); _ ← movePath (rooted a) (rooted ((base ++ t) ++ [y])) uuid; mret x) (Disk f []) = (inr r, s') →
  r = x ∧ ∃ f0, wf f0 ∧ only_dirs_added f f0 ∧ f0 !! a = Some n ∧ f0 !! (base ++ t) = Some Dir ∧
    f0 !! ((base ++ t) ++ [y]) = None ∧ ¬ under a ((base ++ t) ++ [y]) ∧ s' = Disk (moved a ((base ++ t) ++ [y]) f0) [].
Proof.
  intros Hwf Ha Hb Hpl Hc Hy Hfree Hne (u&s1&H1&H)%bind_inv. apply bind_inv in H as (u2&s2&H2&[= <- <-]). split; [done|].
  destruct (mkdir_recursive_effect (base ++ t) (Disk f []) _ _ Hwf Hpl Hc H1) as (Hw1&Hadd&Hdir). specialize (Hdir u eq_refl).
  pose proof (calm_call _ (Disk f []) eq_refl : calm (mkdir_recursive (rooted (base ++ t)) (Disk f [])).2) as Hc1.
  rewrite H1 in Hc1. destruct s1 as [f0 l]. unfold calm in Hc1. simpl in *. subst l. exists f0.
  assert (f0 !! a = Some n) as Ha0 by (destruct (Hadd a) as [->|[? _]]; congruence).
  assert (f0 !! ((base ++ t) ++ [y]) = None) as Hfree0.
  { destruct (Hadd ((base ++ t) ++ [y])) as [->|(_&_&p&q&E1&_&E2)]; [done|]. apply (f_equal length) in E1, E2.
    rewrite !length_app in *. simpl in E2. lia. }
  assert (¬ under a ((base ++ t) ++ [y])) as Hu.
  { intros Hu. unfold movePath, try_catch, mbind, prog_bind, rename, call in H2. cbn [dk_fs dk_faults] in H2.
    rewrite (locate_real f0 a n), locate_child, Ha0 in H2 by done. rewrite bool_decide_false in H2 by done.
    by rewrite bool_decide_true in H2. }
  rewrite (movePath_ok f0 Hw1 a (base ++ t) y n) in H2 by done. injection H2 as _ <-. split_and!; try done.
  intros q. destruct (Hadd q) as [?|(?&?&_)]; auto.
Qed.

(** ** The way back *)
Section Back.
Context (f0 : fs) (Hwf : wf f0) (da db : list string) (xa xb : string) (n : node).
#[local] Notation a := (da ++ [xa]).
#[local] Notation b := (db ++ [xb]).
Context (Ha : f0 !! a = Some n) (Hb : f0 !! db = Some Dir) (Hxb : plain_name xb) (Hfree : f0 !! b = None) (Hu : ¬ under a b).

Lemma back_not_under r : under b r → f0 !! r = None.
Proof. intros [t ->]. by apply wf_missing. Qed.
Lemma back_parent : f0 !! da = Some Dir.
Proof. by eapply wf_parent. Qed.
Lemma back_plain : Forall plain_name da ∧ plain_name xa.
Proof. pose proof (wf_plain f0 Hwf _ _ Ha) as [? [? _]%Forall_cons]%Forall_app. done. Qed.
Lemma back_wf : wf (moved a b f0).
Proof. by apply wf_moved. Qed.

(** Elsewhere the tree is as before. *)
Lemma back_same q m : f0 !! q = Some m → ¬ under a q → moved a b f0 !! q = Some m.
Proof.
  intros Hq Hqa. rewrite moved_lookup. destruct (strip b q) eqn:E.
  { apply strip_Some in E. rewrite (back_not_under q) in Hq; [done|by eexists]. }
  by apply strip_None in Hqa as ->.
Qed.
Lemma back_moved : moved a b f0 !! b = Some n ∧ moved a b f0 !! a = None ∧ moved a b f0 !! da = Some Dir.
Proof.
  rewrite !moved_lookup. split_and!.
  - assert (strip b b = Some []) as -> by (apply strip_Some; by rewrite app_nil_r). by rewrite app_nil_r.
  - destruct (strip b a) as [r|] eqn:E.
    + apply strip_Some in E. rewrite (back_not_under a) in Ha; [done|by eexists].
    + assert (strip a a = Some []) as -> by (apply strip_Some; by rewrite app_nil_r). done.
  - rewrite <-moved_lookup. apply back_same; [apply back_parent|apply child_ne].
Qed.

Lemma back_again : moved b a (moved a b f0) = f0.
Proof.
  apply map_eq. intros q. rewrite moved_lookup. destruct (strip a q) as [r|] eqn:Ea.
  - apply strip_Some in Ea as ->. rewrite moved_lookup, strip_app. done.
  - destruct (strip b q) as [r|] eqn:Eb.
    + apply strip_Some in Eb as ->. symmetry. apply back_not_under. by eexists.
    + by rewrite moved_lookup, Ea, Eb.
Qed.

Lemma back_ok {A} R ta (x : A) uuid : a = R ++ ta → ta ≠ [] →
  (_ ← assertNoSymlinkPathSegments (rooted R) (dirname (rooted a)); _ ← assertTargetDoesNotExist (rooted a);
   _ ← mkdir_recursive (dirname (rooted a)); _ ← movePath (rooted b) (rooted a) uuid; mret x) (Disk (moved a b f0) []) =
  (inr x, Disk f0 []).
Proof.
  intros E Hta. destruct back_plain as [Hpa Hxa]. destruct back_moved as (Hmb&Hma&Hmd). pose proof back_wf as Hw.
  destruct ta as [|z ta _] using rev_ind; [done|]. rewrite app_assoc in E. apply app_inj_tail in E as [Eda <-].
  rewrite dirname_rooted by done.
  erewrite bind_inr by (by eapply (check_ok _ Hw da R ta)).
  erewrite bind_inr by (by apply absent_ok). erewrite bind_inr by (by apply mkdirs_ok).
  assert (¬ under b a) as Hba by (intros Hba; by rewrite (back_not_under _ Hba) in Ha).
  erewrite bind_inr by (by apply (movePath_ok _ Hw b da xa n)).
  by rewrite back_again.
Qed.
End Back.

Lemma given_join l : Forall plain_name l → l ≠ [] → given (Some (join "/" l)) = Some (join "/" l).
Proof.
  intros [|x t Hx _] Hne; [done|]. destruct (join_nonempty x t Hx) as [H _]. unfold given. by rewrite bool_decide_false.
Qed.

(** ** Undoing *)
Section Undo.
Context (f : fs) (Hwf : wf f) (Hnd : no_dangling f) (root : NasRootRecord) (R : list string).
Context (Hroot : ro_path root = rooted R) (HR : f !! R = Some Dir).

Lemma root_follow g : wf g → g !! R = Some Dir → follow g (ro_path root) = inr R.
Proof. intros Hg HgR. rewrite Hroot. by eapply follow_real. Qed.

Lemma source_inv req p s1 : resolveSafeExistingPath (ro_path root) req (Disk f []) = (inr p, s1) →
  ∃ t n, sp_rootRealPath p = rooted R ∧ sp_realPath p = rooted (R ++ t) ∧ dotless t ∧ f !! (R ++ t) = Some n ∧ is_link n = false ∧
    sp_relativePath p = (if bool_decide (t = []) then "." else join "/" t).
Proof.
  intros H. destruct (resolveSafeExistingPath_effect _ _ (Disk f []) _ _ Hwf H) as [_ Hp].
  destruct (Hp p eq_refl) as (R'&t&n&HR'&_&E1&E2&Hdot&Hn&Hl&E3).
  simpl in HR'. rewrite (root_follow f Hwf HR) in HR'. injection HR' as <-. by exists t, n.
Qed.

Lemma target_inv req p s1 : resolveSafeTargetPath (ro_path root) req (Disk f []) = (inr p, s1) →
  ∃ t, st_rootRealPath p = rooted R ∧ st_absolutePath p = rooted (R ++ t) ∧ Forall plain_name (R ++ t) ∧ dotless t ∧
    (t = [] → R = []) ∧ st_relativePath p = (if bool_decide (t = []) then "." else join "/" t).
Proof.
  intros H. destruct (resolveSafeTargetPath_effect _ _ (Disk f []) _ _ Hwf H) as [_ Hp].
  destruct (Hp p eq_refl) as (R'&t&n&HR'&Hpl&Hn&Hl&E1&E2&Ht&Hdot&E3).
  simpl in HR'. rewrite (root_follow f Hwf HR) in HR'. injection HR' as <-. by exists t.
Qed.

(** The tree after [a] has gone to [b], which was free. *)
Definition went (a d : list string) (x : string) (s' : disk) : Prop := ∃ f0 n, wf f0 ∧ only_dirs_added f f0 ∧ f !! a = Some n ∧
  is_link n = false ∧ f0 !! a = Some n ∧ f0 !! d = Some Dir ∧ plain_name x ∧ f0 !! (d ++ [x]) = None ∧ ¬ under a (d ++ [x]) ∧
  s' = Disk (moved a (d ++ [x]) f0) [].

Lemma applyMove_inv uuid p am s' : applyMove uuid root p (Disk f []) = (inr am, s') →
  ∃ ta td y, ta ≠ [] ∧ dotless ta ∧ am_sourcePath am = Some (join "/" ta) ∧ dotless (td ++ [y]) ∧
    am_targetPath am = Some (join "/" (td ++ [y])) ∧ went (R ++ ta) (R ++ td) y s'.
Proof.
  intros H. unfold applyMove, transfer in H. destruct (given (fp_sourcePath p)) as [sp|]; [|done].
  destruct (given (fp_targetPath p)) as [tp|]; [|done].
  apply look_inv in H as (source&H1&H); [|auto with looks|auto with keeps]. cbv beta in H.
  apply look_inv in H as (target&H2&H); [|auto with looks|auto with keeps]. cbv beta in H.
  apply look_inv in H as (u3&H3&H); [|auto with looks|auto with keeps]. cbv beta in H.
  apply look_inv in H as (u4&H4&H); [|auto with looks|auto with keeps]. cbv beta in H.
  destruct (source_inv _ _ _ H1) as (ta&n&Err&Ereal&Hdota&Hn&Hl&Erel).
  destruct (target_inv _ _ _ H2) as (t&_&Eabs&Hpl&Hdott&Ht&Etrel). rewrite Eabs in *.
  destruct (place_split R t Hpl Ht) as [[ER ->]|(td&y&->&Hpl'&Hy&Hdir)].
  { rewrite app_nil_r in H4. apply absent_free in H4; [congruence|done|done|by eapply wf_plain]. }
  pose proof (absent_free f _ _ _ Hwf Hnd Hpl H4) as Hfree. rewrite Hdir in H.
  destruct (transfer_clear _ _ (Disk f []) _ _ (Forall_nil_2 _ : faults_ok (Disk f [])) H3) as (s2&v&s3&Ef&Hf2&Hno).
  simpl in Ef. rewrite Err, Hdir in Hno.
  assert (clear f (R ++ td)) as Hc.
  { eapply (clear_from_root f R td v s2); [by rewrite Ef|done|done|done|by exists Dir|exact Hno]. }
  rewrite Ereal, app_assoc in H. rewrite app_assoc in Hfree.
  destruct (arrive_inv _ uuid f (R ++ ta) n R Dir td y am s' Hwf Hn HR Hpl' Hc Hy Hfree ltac:(congruence) H)
    as (->&f0&Hw0&Hadd&Ha0&Hd0&Hb0&Hu&->).
  assert (ta ≠ []) as Hta.
  { intros ->. apply Hu. exists (td ++ [y]). by rewrite app_nil_r, app_assoc. }
  exists ta, td, y. rewrite bool_decide_false in Erel, Etrel by (done || by destruct td). cbn [am_sourcePath am_targetPath].
  rewrite Erel, Etrel. split_and!; try done. by exists f0, n.
Qed.

(** The names of the way back. *)
Lemma went_root a d x s' : went a d x s' → ¬ under a R → wf (dk_fs s') ∧ dk_fs s' !! R = Some Dir.
Proof.
  intros (f0&n&Hw0&Hadd&_&_&Ha0&Hd0&Hx&Hb0&Hu&->) HaR. split; [by apply wf_moved|].
  assert (f0 !! R = Some Dir) as HR0 by (destruct (Hadd R) as [->|[? _]]; congruence).
  destruct a as [|xa da _] using rev_ind; [by destruct HaR; exists R|]. by apply back_same.
Qed.

Lemma rollback_restores ids p o am s' trash : applyMove ids.2 root p (Disk f []) = (inr am, s') →
  fo_status o = fo_applied → fo_operation o = move ∨ fo_operation o = CoreDb.rename →
  fo_sourcePath o = am_sourcePath am → fo_targetPath o = am_targetPath am →
  ∃ r s2, rollbackFileMutation ids root o trash s' = (inr r, s2) ∧ only_dirs_added f (dk_fs s2).
Proof.
  intros H Hst Hop Hs Ht. destruct (applyMove_inv _ _ _ _ H) as (ta&td&y&Hta&Hdota&Esrc&Hdott&Etgt&Hwent).
  assert (¬ under (R ++ ta) R) as HaR.
  { intros [k E]. apply (f_equal length) in E. rewrite !length_app in E. destruct ta; [done|simpl in E; lia]. }
  destruct (went_root _ _ _ _ Hwent HaR) as [Hw1 HR1]. destruct Hwent as (f0&n&Hw0&Hadd&_&Hl&Ha0&Hd0&Hy&Hb0&Hu&->).
  destruct ta as [|xa da _] using rev_ind; [done|]. clear Hta. rewrite app_assoc in Ha0, Hu. simpl in Hw1, HR1.
  rewrite app_assoc in Hw1, HR1 |- *. set (a := (R ++ da) ++ [xa]) in *. set (b := (R ++ td) ++ [y]) in *.
  destruct (back_moved f0 Hw0 (R ++ da) (R ++ td) xa y n Ha0 Hb0) as (Hmb&Hma&_).
  assert (rollbackFileMutation ids root o trash (Disk (moved a b f0) []) = rollbackMove ids.2 root o (Disk (moved a b f0) [])) as ->.
  { unfold rollbackFileMutation. rewrite bool_decide_false by congruence. by destruct Hop as [->| ->]. }
  pose proof (wf_plain _ Hw0 _ _ Ha0) as Hpa. pose proof (wf_plain _ Hw1 _ _ Hmb) as Hpb.
  assert (Forall plain_name (da ++ [xa]) ∧ Forall plain_name (td ++ [y])) as [Hpa' Hpb'].
  { unfold a, b in Hpa, Hpb. rewrite <-app_assoc in Hpa, Hpb. by apply Forall_app in Hpa as [_ ?], Hpb as [_ ?]. }
  unfold rollbackMove. rewrite Hs, Ht, Esrc, Etgt, (given_join (da ++ [xa])) by (done || by destruct da).
  rewrite (given_join (td ++ [y])) by (done || by destruct td).
  assert (moved a b f0 !! (R ++ td ++ [y]) = Some n) as Hmb' by (by rewrite app_assoc).
  erewrite bind_inr by (eapply (existing_ok _ Hw1 _ R (td ++ [y]) n); [by apply root_follow|by rewrite app_assoc|by destruct td|done|done|done]).
  cbv beta. erewrite bind_inr by (eapply (target_ok _ Hw1 _ R da xa); [by apply root_follow|by rewrite app_assoc|done]).
  cbv beta. cbn [st_rootRealPath st_absolutePath sp_realPath]. rewrite !app_assoc. fold a b.
  rewrite (back_ok f0 Hw0 (R ++ da) (R ++ td) xa y n Ha0 Hd0 Hy Hb0 Hu R (da ++ [xa])); [|by rewrite app_assoc|by destruct da].
  by eexists _, _.
Qed.

Context (T : list string) (HT : f !! T = Some Dir) (Hid : plain_name (ro_id root)) (Hclear : clear f (T ++ [ro_id root])).

Lemma trash_name_dotless id p : id ≠ "" → startsWith ".." id = false → dotless [trash_name id p].
Proof.
  intros Hne Hd. unfold dotless, trash_name. apply not_true_iff_false. intros [r E]%startsWith_app. apply not_true_iff_false in Hd.
  apply Hd. apply startsWith_app. destruct id as [|c1 [|c2 id]]; [done|by injection E|]. injection E as -> -> _. by exists id.
Qed.

Lemma applyTrash_inv ids p am s' : no_char sep (fp_trashEntryId p ⁇ ids.1) → fp_trashEntryId p ⁇ ids.1 ≠ "" →
  applyTrash ids root p (rooted T) (Disk f []) = (inr am, s') → am_sourcePath am ≠ Some "." →
  ∃ ta x, ta ≠ [] ∧ dotless ta ∧ am_sourcePath am = Some (join "/" ta) ∧
    x = trash_name (fp_trashEntryId p ⁇ ids.1) (join "/" ta) ∧
    prop (am_metadata am) "absoluteTrashPath" = Some (JStr (rooted ((T ++ [ro_id root]) ++ [x]))) ∧
    went (R ++ ta) (T ++ [ro_id root]) x s'.
Proof.
  intros Hi Hne H Hdot. unfold applyTrash in H. destruct (given (fp_sourcePath p)) as [sp|]; [|done].
  apply look_inv in H as (source&H1&H); [|auto with looks|auto with keeps]. cbv beta zeta in H.
  destruct (source_inv _ _ _ H1) as (ta&n&Err&Ereal&Hdota&Hn&Hl&Erel).
  set (id := fp_trashEntryId p ⁇ ids.1) in *. set (x := trash_name id (sp_relativePath source)).
  assert (plain_name x) as Hx by (by apply trash_name_plain). pose proof (wf_plain f Hwf _ _ HT) as HTp.
  assert (trashPathFor ids.1 (rooted T) (ro_id root) (sp_relativePath source) (fp_trashEntryId p) =
          TrashPlace id (path_join [ro_id root; x]) (rooted ((T ++ [ro_id root]) ++ [x]))) as Epl.
  { unfold trashPathFor. fold id. change (id +:+ "-" +:+ basename (sp_relativePath source)) with x.
    rewrite path_join_below by done. by rewrite <-app_assoc. }
  rewrite Epl in H. cbn [tp_absoluteTrashPath tp_id tp_relativeTrashPath] in H.
  assert (Forall plain_name (T ++ [ro_id root])) as Hpl by (apply Forall_app; split; [done|by constructor]).
  rewrite dirname_rooted in H by done.
  apply look_inv in H as (u4&H4&H); [|auto with looks|auto with keeps]. cbv beta in H.
  assert (Forall plain_name ((T ++ [ro_id root]) ++ [x])) as Hpl2 by (apply Forall_app; split; [done|by constructor]).
  pose proof (absent_free f _ _ _ Hwf Hnd Hpl2 H4) as Hfree. rewrite Ereal in H.
  destruct (arrive_inv _ ids.2 f (R ++ ta) n T Dir [ro_id root] x am s' Hwf Hn HT Hpl Hclear Hx Hfree ltac:(congruence) H)
    as (->&f0&Hw0&Hadd&Ha0&Hd0&Hb0&Hu&->).
  cbn [am_sourcePath] in Hdot. assert (ta ≠ []) as Hta.
  { intros ->. apply Hdot. by rewrite Erel. }
  rewrite bool_decide_false in Erel by done. exists ta, x. cbn [am_sourcePath am_metadata]. unfold x in *. rewrite Erel in *.
  split_and!; try done. by exists f0, n.
Qed.

Lemma restore_restores ids uuid p am s' path : no_char sep (fp_trashEntryId p ⁇ ids.1) → fp_trashEntryId p ⁇ ids.1 ≠ "" →
  startsWith ".." (fp_trashEntryId p ⁇ ids.1) = false →
  applyTrash ids root p (rooted T) (Disk f []) = (inr am, s') → am_sourcePath am ≠ Some "." →
  prop (am_metadata am) "absoluteTrashPath" = Some (JStr path) →
  ∃ r s2, restoreTrashPath uuid root path (am_sourcePath am ⁇ ".") s' = (inr r, s2) ∧ only_dirs_added f (dk_fs s2).
Proof.
  intros Hi Hne Hdd H Hdot Hpath. destruct (applyTrash_inv _ _ _ _ Hi Hne H Hdot) as (ta&x&Hta&Hdota&Esrc&Ex&Emeta&Hwent).
  rewrite Emeta in Hpath. injection Hpath as <-. rewrite Esrc. cbn [default from_option id].
  pose proof (trash_name_dotless _ (join "/" ta) Hne Hdd) as Hdx. rewrite <-Ex in Hdx. clear Ex Emeta Hdot H.
  assert (¬ under (R ++ ta) R) as HaR.
  { intros [k E]. apply (f_equal length) in E. rewrite !length_app in E. destruct ta; [done|simpl in E; lia]. }
  destruct (went_root _ _ _ _ Hwent HaR) as [Hw1 HR1]. destruct Hwent as (f0&n&Hw0&Hadd&_&Hl&Ha0&Hd0&Hx&Hb0&Hu&->).
  destruct ta as [|xa da _] using rev_ind; [done|]. clear Hta. rewrite app_assoc in Ha0, Hu. simpl in Hw1, HR1.
  rewrite app_assoc in Hw1, HR1 |- *. set (d := T ++ [ro_id root]) in *.
  set (a := (R ++ da) ++ [xa]) in *. set (b := d ++ [x]) in *.
  destruct (back_moved f0 Hw0 (R ++ da) d xa x n Ha0 Hb0) as (Hmb&Hma&_).
  assert (moved a b f0 !! d = Some Dir) as Hmd.
  { apply back_same; [done..|]. intros Had. apply Hu. eapply under_trans; [done|]. by exists [x]. }
  pose proof (wf_plain _ Hw0 _ _ Ha0) as Hpa. pose proof (wf_plain _ Hw1 _ _ Hmb) as Hpb.
  pose proof (wf_plain _ Hw0 _ _ Hd0) as Hpd. unfold restoreTrashPath, b. rewrite dirname_rooted, basename_rooted by done.
  fold b. change x with (join "/" [x]) at 1.
  erewrite bind_inr by (eapply (existing_ok _ Hw1 _ d [x] n); [by eapply follow_real|done..]).
  cbv beta. erewrite bind_inr by (eapply (target_ok _ Hw1 _ R da xa); [by apply root_follow|by rewrite app_assoc|done]).
  cbv beta. cbn [st_rootRealPath st_absolutePath sp_realPath]. rewrite !app_assoc. fold a b.
  rewrite (back_ok f0 Hw0 (R ++ da) d xa x n Ha0 Hd0 Hx Hb0 Hu R (da ++ [xa])); [|by rewrite app_assoc|by destruct da].
  by eexists _, _.
Qed.
End Undo.

(** C4: What was moved or trashed can be put back.  In a root configured by
    its real path, on a disk whose calls do not fail and that has no dangling
    link, a move or rename that succeeded is rolled back, and a trash entry
    other than that of the root itself restored, successfully; the tree is
    then as it was before, but for the directories that were made on the
    way. *)
Theorem undo_restores f root R T ids p am s' :
  wf f → no_dangling f → ro_path root = rooted R → f !! R = Some Dir → f !! T = Some Dir →
  plain_name (ro_id root) → clear f (T ++ [ro_id root]) →
  (∀ o, applyMove ids.2 root p (Disk f []) = (inr am, s') → fo_status o = fo_applied →
     fo_operation o = move ∨ fo_operation o = CoreDb.rename →
     fo_sourcePath o = am_sourcePath am → fo_targetPath o = am_targetPath am →
     ∃ r s2, rollbackFileMutation ids root o (rooted T) s' = (inr r, s2) ∧ only_dirs_added f (dk_fs s2)) ∧
  (∀ path, applyTrash ids root p (rooted T) (Disk f []) = (inr am, s') → id_ok (fp_trashEntryId p ⁇ ids.1) →
     startsWith ".." (fp_trashEntryId p ⁇ ids.1) = false → am_sourcePath am ≠ Some "." →
     prop (am_metadata am) "absoluteTrashPath" = Some (JStr path) →
     ∃ r s2, restoreTrashPath ids.2 root path (am_sourcePath am ⁇ ".") s' = (inr r, s2) ∧ only_dirs_added f (dk_fs s2)).
Proof.
  intros Hwf Hnd Hroot HR HT Hid Hc. split.
  - intros o H Hst Hop Hs Ht. by eapply rollback_restores.
  - intros path H [Hi Hne] Hd Hdot Hpath. by eapply (restore_restores f Hwf Hnd root R Hroot HR T HT Hid Hc ids ids.2 p am).
Qed.

(** ** Examples *)
Definition small_fs : fs := list_to_map
  [([], Dir); (["nas"], Dir); (["nas"; "a"], Dir); (["nas"; "a"; "f"], File "x"); (["trash"], Dir)].
Lemma small_wf : wf small_fs.
Proof. apply wf_check; [reflexivity|]. apply (bool_decide_unpack _). vm_compute. exact I. Qed.
Lemma small_no_links : no_dangling small_fs.
Proof.
  assert (map_Forall (λ _ n, is_link n = false) small_fs) as H by (apply (bool_decide_unpack _); vm_compute; exact I).
  intros q t Hq. by apply H in Hq.
Qed.
Lemma small_clear : clear small_fs (["trash"] ++ ["r1"]).
Proof. apply clear_extend; [|by vm_compute]. apply clear_dir; [exact small_wf|reflexivity]. Qed.

Lemma undo_restores_witness : ∃ am s' r s2, applyMove "u" demo_root demo_move (Disk small_fs []) = (inr am, s') ∧
  rollbackFileMutation ("t", "u") demo_root
    (FileOperation "o" None move (am_sourcePath am) (am_targetPath am) fo_applied [] 0 0) (rooted ["trash"]) s' = (inr r, s2) ∧
  only_dirs_added small_fs (dk_fs s2).
Proof.
  destruct (applyMove "u" demo_root demo_move (Disk small_fs [])) as [[e|am] s'] eqn:E; [vm_compute in E; discriminate E|].
  destruct (undo_restores small_fs demo_root ["nas"] ["trash"] ("t", "u") demo_move am s' small_wf small_no_links eq_refl eq_refl
    eq_refl ltac:(by split_and!) small_clear) as [H _].
  destruct (H (FileOperation "o" None move (am_sourcePath am) (am_targetPath am) fo_applied [] 0 0) E eq_refl
    (or_introl eq_refl) eq_refl eq_refl) as (r&s2&Hr&Hs).
  exists am, s', r, s2. split; [reflexivity|]. split; [exact Hr|exact Hs].
Defined.

(** The target of a move is checked with [stat]: a dangling link counts as
    absent and is replaced. *)
Example dangling_replaced :
  let f := <[["nas"; "l"] := Link "/gone"]> small_fs in
  let p := FileProposal move "r1" None (Some "a/f") (Some "l") None None true (JObj []) in
  dk_fs (applyMove "u" demo_root p (Disk f [])).2 !! ["nas"; "l"] = Some (File "x").
Proof. vm_compute. reflexivity. Qed.

(** The root itself can be trashed, and then not restored. *)
Example root_trashed :
  let p := FileProposal trash "r1" None (Some ".") None None None true (JObj []) in
  let '(r, s) := applyTrash ("t", "u") demo_root p "/trash" (Disk small_fs []) in
  dk_fs s !! ["nas"] = None ∧ dk_fs s !! ["trash"; "r1"; "t-."; "a"; "f"] = Some (File "x") ∧
  (restoreTrashPath "u" demo_root "/trash/r1/t-." "." s).1 = inl (ErrnoException "ENOENT").
Proof. vm_compute. split_and!; reflexivity. Qed.
