(* ===== verification/StorageScope.v ===== *)
(** * Storage scopes

    packages/nas-tools/src/storage-scope.ts and
    apps/api/src/lib/storage-scope.ts: a request names a storage pool, and its
    paths must lie inside the pool's mount point and outside the pools mounted
    below it.  The summary of the pools comes from the host and is a
    parameter; that concurrent requests share one is not visible here. *)
From Stdlib Require Import Ascii.
From S2P Require Import Prelude JsString Http CoreDb Jobs.
From S2P Require Import FileSystem PathSafety Confinement.

Definition StorageScopeSafetyError (message : string) (status : Z) : exn :=
  Exn "StorageScopeSafetyError" message (Some status) None [].
Record SafeStorageScope := SafeScope {
  ss_rootPath : string; ss_rootRealPath : string; ss_mountpointRealPath : string; ss_mountpointPath : string;
  ss_nestedMountpointRealPaths : list string }.

(** The loop over the mount points of the other pools. *)
Fixpoint nested_mountpoints (mountpointPath mountpointRealPath : string) (candidates : list string) : prog disk (list string) :=
  match candidates with
  | [] => mret []
  | candidatePath :: candidates =>
      if bool_decide (candidatePath = "") || bool_decide (candidatePath = mountpointPath)
      then nested_mountpoints mountpointPath mountpointRealPath candidates else
      found ← try_catch
                (candidateRealPath ← realpath candidatePath;
                 mret (if isPathInside mountpointRealPath candidateRealPath &&
                          negb (bool_decide (candidateRealPath = mountpointRealPath))
                       then [candidateRealPath] else []))
                (λ _, mret []);
      rest ← nested_mountpoints mountpointPath mountpointRealPath candidates;
      mret (found ++ rest)
  end.

Definition createSafeStorageScope (rootPath mountpointPath : string) (siblings : list string) : prog disk SafeStorageScope :=
  real ← try_catch (a ← realpath rootPath; b ← realpath mountpointPath; mret (a, b))
           (λ _, throw (StorageScopeSafetyError "Storage pool is not mounted" 404));
  let '(rootRealPath, mountpointRealPath) := (real : string * string) in
  if negb (isPathInside rootRealPath mountpointRealPath)
  then throw (StorageScopeSafetyError "Storage pool is outside the configured NAS root" 403) else
  _ ← try_catch
        (mountStat ← stat mountpointRealPath;
         if negb (is_dir mountStat) then throw (Error "not a directory") else mret tt)
        (λ _, throw (StorageScopeSafetyError "Storage pool is not mounted" 404));
  nested ← nested_mountpoints mountpointPath mountpointRealPath siblings;
  mret (SafeScope rootPath rootRealPath mountpointRealPath (toRootRelative rootRealPath mountpointRealPath) nested).

Definition rejectStorageScopePathSyntax (requestedPath : string) : exn + unit :=
  let normalized := slashed requestedPath in
  if has_char "000"%char normalized || startsWith "/" normalized || drive_prefix normalized ||
     existsb (λ x, bool_decide (x = "..")) (split_on sep normalized)
  then inl (StorageScopeSafetyError "Path must stay inside the selected storage pool" 400) else inr tt.

Definition assertPathInsideStorageScope (scope : SafeStorageScope) (absolutePath : string) : exn + unit :=
  if negb (isPathInside (ss_mountpointRealPath scope) absolutePath)
  then inl (StorageScopeSafetyError "Path is outside the selected storage pool" 403)
  else if existsb (λ nestedPath, isPathInside nestedPath absolutePath) (ss_nestedMountpointRealPaths scope)
  then inl (StorageScopeSafetyError "Path belongs to another mounted storage pool" 403)
  else inr tt.

(** A check without effects, within a computation. *)
Definition checked {A} (r : exn + A) : prog disk A := λ s, (r, s).

(** storage-scope.ts has its own [assertNoSymlinkPathSegments]. *)
Definition assertNoSymlinkSegments (rootRealPath absolutePath : string) : prog disk unit :=
  no_symlink_segments ["ENOENT"; "ENOTDIR"] (StorageScopeSafetyError "Refusing to access through a symlink" 400)
    rootRealPath (path_segments rootRealPath absolutePath).

Definition resolveStorageScopeExistingPath (scope : SafeStorageScope) (requestedPath : string) : prog disk SafePathResult :=
  _ ← checked (rejectStorageScopePathSyntax requestedPath);
  safe ← resolveSafeExistingPath (ss_rootPath scope) requestedPath;
  _ ← checked (assertPathInsideStorageScope scope (sp_realPath safe));
  mret safe.

Definition resolveStorageScopeTargetPath (scope : SafeStorageScope) (requestedPath : string) : prog disk SafeTarget :=
  _ ← checked (rejectStorageScopePathSyntax requestedPath);
  safe ← resolveSafeTargetPath (ss_rootPath scope) requestedPath;
  _ ← checked (assertPathInsideStorageScope scope (st_absolutePath safe));
  _ ← assertNoSymlinkSegments (ss_rootRealPath scope) (st_absolutePath safe);
  mret safe.

(** ** The scope of a request *)
Definition StorageScopeError (message : string) (status : Z) : exn := Exn "StorageScopeError" message (Some status) None [].
Record SystemStoragePool := StoragePool { po_id : string; po_mountpoint : option string }.
Record StoragePoolScope := PoolScope { sc_root : NasRootRecord; sc_pool : SystemStoragePool; sc_safe : SafeStorageScope }.

Definition withStorageScopeError {A} (m : prog disk A) : prog disk A :=
  try_catch m (λ e, if instance_of "StorageScopeSafetyError" e then throw (StorageScopeError (exn_message e) (exn_status e ⁇ 400))
                    else throw e).

(** [getNasRoot]: the row the database has; [system]: the pools of the host,
    or the error of collecting them. *)
Definition resolveStoragePoolScope (getNasRoot : string → option NasRootRecord) (system : option (exn + list SystemStoragePool))
    (rootId storagePoolId : option string) : prog disk StoragePoolScope :=
  match storagePoolId with
  | None => throw (StorageScopeError "Storage pool selection is required" 400)
  | Some storagePoolId =>
      if bool_decide (trim storagePoolId = "") then throw (StorageScopeError "Storage pool selection is required" 400) else
      match given rootId ≫= getNasRoot with
      | None => throw (StorageScopeError "NAS root not found" 404)
      | Some root =>
          match system with
          | None => throw (StorageScopeError "Storage pool inventory is unavailable" 503)
          | Some (inl e) => throw e
          | Some (inr pools) =>
              match List.find (λ p, bool_decide (po_id p = storagePoolId)) pools with
              | None => throw (StorageScopeError "Storage pool is not mounted" 404)
              | Some pool =>
                  match given (po_mountpoint pool) with
                  | None => throw (StorageScopeError "Storage pool is not mounted" 404)
                  | Some mountpointPath =>
                      let siblings := omap (λ p, given (po_mountpoint p))
                                        (List.filter (λ p, negb (bool_decide (po_id p = po_id pool))) pools) in
                      safeScope ← withStorageScopeError (createSafeStorageScope (ro_path root) mountpointPath siblings);
                      mret (PoolScope root pool safeScope)
                  end
              end
          end
      end
  end.

Definition resolveScopedExistingPath (scope : StoragePoolScope) (requestedPath : string) : prog disk SafePathResult :=
  withStorageScopeError (resolveStorageScopeExistingPath (sc_safe scope) requestedPath).
Definition resolveScopedTargetPath (scope : StoragePoolScope) (requestedPath : string) : prog disk SafeTarget :=
  withStorageScopeError (resolveStorageScopeTargetPath (sc_safe scope) requestedPath).

Definition is_missing (e : exn) : bool := has_code e ["ENOENT"; "ENOTDIR"].
(** One round of the loop of [validateStoragePoolProposal]. *)
Definition validate_path (scope : StoragePoolScope) (candidatePath : option string) : prog disk unit :=
  match given candidatePath with
  | None => mret tt
  | Some candidatePath =>
      target ← resolveScopedTargetPath scope candidatePath;
      missing ← try_catch (_ ← resolveScopedExistingPath scope candidatePath; mret false)
                  (λ e, if is_missing e then mret true else throw e);
      if missing : bool then mret tt
      else withStorageScopeError (assertNoSymlinkSegments (ss_rootRealPath (sc_safe scope)) (st_absolutePath target))
  end.
Definition validateStoragePoolProposal (scope : StoragePoolScope) (sourcePath targetPath : option string) : prog disk unit :=
  _ ← validate_path scope sourcePath; validate_path scope targetPath.

(** ** Computations that only look, on a disk whose calls do not fail *)
Lemma query_calm {A} (q : fs → exn + A) s : dk_faults s = [] → query q s = (q (dk_fs s), s).
Proof. destruct s as [f l]. simpl. intros ->. done. Qed.

Lemma try_throw_inv {A} (m : prog disk A) (e : exn → exn) s a s' :
  try_catch m (λ x, throw (e x)) s = (inr a, s') → m s = (inr a, s').
Proof. unfold try_catch. destruct (m s) as [[?|?] ?]; [done|]. by intros [= -> ->]. Qed.

Lemma withStorageScopeError_inv {A} (m : prog disk A) s a s' : withStorageScopeError m s = (inr a, s') → m s = (inr a, s').
Proof.
  unfold withStorageScopeError, try_catch. destruct (m s) as [[e|?] ?]; [by destruct (instance_of _ e)|]. by intros [= -> ->].
Qed.

Lemma checked_inv {A B} (r : exn + A) (k : A → prog disk B) s b s' :
  (a ← checked r; k a) s = (inr b, s') → ∃ a, r = inr a ∧ k a s = (inr b, s').
Proof. unfold checked, mbind, prog_bind. destruct r as [e|a]; [done|]. by exists a. Qed.

Section Calm.
Context (s : disk) (Hwf : wf (dk_fs s)) (Hcalm : dk_faults s = []).
#[local] Notation f := (dk_fs s).

Lemma realpath_calm p a s' : realpath p s = (inr a, s') → s' = s ∧ ∃ q n, follow f p = inr q ∧ a = rooted q ∧ Forall plain_name q ∧
  f !! q = Some n ∧ is_link n = false.
Proof.
  intros H. pose proof (realpath_effect _ _ _ _ Hwf H) as [_ Hq]. destruct (Hq a eq_refl) as (q&n&->&Hpl&Hf&Hn&Hl).
  unfold realpath in H. rewrite query_calm in H by done. injection H as _ <-. split; [done|]. by exists q, n.
Qed.

Lemma nested_found mp mreal M cs l s' : mreal = rooted M → Forall plain_name M →
  nested_mountpoints mp mreal cs s = (inr l, s') →
  s' = s ∧ (∀ x, x ∈ l → ∃ N, x = rooted N ∧ Forall plain_name N) ∧
  ∀ c N, c ∈ cs → c ≠ "" → c ≠ mp → follow f c = inr N → N ≠ M → (∃ r, N = M ++ r ∧ dotless r) → rooted N ∈ l.
Proof.
  intros -> HM. revert l. induction cs as [|c cs IH]; intros l; cbn [nested_mountpoints].
  - intros [= <- <-]. split_and!; [done|by intros x ?%not_elem_of_nil|by intros c N ?%not_elem_of_nil].
  - destruct (bool_decide (c = "") || bool_decide (c = mp)) eqn:Eskip.
    + intros (->&Hl&Hin)%IH. split_and!; [done|done|]. intros c' N [->|Hc']%elem_of_cons; [|by apply Hin].
      apply orb_true_iff in Eskip as [?%bool_decide_eq_true|?%bool_decide_eq_true]; done.
    + intros (found&s1&H1&H)%bind_inv. apply bind_inv in H as (rest&s2&H2&[= <- <-]).
      unfold try_catch, mbind, prog_bind in H1. destruct (realpath c s) as [[e|a] s0] eqn:Er.
      * assert (s0 = s) as -> by (unfold realpath in Er; rewrite query_calm in Er by done; by injection Er as _ <-).
        injection H1 as <- <-. apply IH in H2 as (->&Hl&Hin). split_and!; [done|done|].
        intros c' N [->|Hc']%elem_of_cons; [|by apply Hin]. intros _ _ Hf.
        unfold realpath in Er. rewrite query_calm in Er by done. by rewrite Hf in Er.
      * apply realpath_calm in Er as (->&q&n&Hf&->&Hpl&_). injection H1 as <- <-. apply IH in H2 as (->&Hl&Hin).
        split_and!; [done| |].
        -- intros x [Hx|Hx]%elem_of_app; [|by apply Hl]. destruct (_ && _); [|by apply not_elem_of_nil in Hx].
           apply list_elem_of_singleton in Hx as ->. by exists q.
        -- intros c' N [->|Hc']%elem_of_cons; [|intros; apply elem_of_app; right; by eapply Hin].
           intros _ _ Hf' Hne Hr. rewrite Hf in Hf'. injection Hf' as <-. apply elem_of_app. left.
           assert (isPathInside (rooted M) (rooted q) = true) as -> by (by apply isPathInside_rooted).
           rewrite bool_decide_false; [by left|]. intros E. apply Hne. rewrite <-(normalizeString_rooted q), <-(normalizeString_rooted M) by done.
           by rewrite E.
Qed.

(** What the scope of a pool says of the disk; [other N]: the real place of
    another pool. *)
Definition scope_of (other : list string → Prop) (R M : list string) (scope : SafeStorageScope) : Prop :=
  follow f (ss_rootPath scope) = inr R ∧ Forall plain_name R ∧ Forall plain_name M ∧ f !! M = Some Dir ∧
  ss_rootRealPath scope = rooted R ∧ ss_mountpointRealPath scope = rooted M ∧
  (∀ x, x ∈ ss_nestedMountpointRealPaths scope → ∃ N, x = rooted N ∧ Forall plain_name N) ∧
  ∀ N, other N → N ≠ M → (∃ r, N = M ++ r ∧ dotless r) → rooted N ∈ ss_nestedMountpointRealPaths scope.

Lemma create_calm rp mp siblings scope s' : createSafeStorageScope rp mp siblings s = (inr scope, s') →
  s' = s ∧ ss_rootPath scope = rp ∧ ∃ R M, follow f mp = inr M ∧
    scope_of (λ N, ∃ c, c ∈ siblings ∧ c ≠ "" ∧ c ≠ mp ∧ follow f c = inr N) R M scope.
Proof.
  intros (real&s1&H1%try_throw_inv&H)%bind_inv. destruct real as [a b].
  apply bind_inv in H1 as (a'&s2&Ha&H1). apply realpath_calm in Ha as (->&R&nR&HR&->&HRpl&_).
  apply bind_inv in H1 as (b'&s2'&Hb&H1). apply realpath_calm in Hb as (->&M&nM&HM&->&HMpl&Hn&Hl). injection H1 as <- <- <-.
  destruct (negb _); [done|]. apply bind_inv in H as (u&s3&H3%try_throw_inv&H).
  apply bind_inv in H3 as (n&s4&Hst&H3). unfold stat in Hst. rewrite query_calm in Hst by done.
  rewrite (follow_real f M nM) in Hst by done. rewrite Hn in Hst. injection Hst as <- <-.
  destruct (is_dir nM) eqn:Hd; [|done]. destruct nM; try done. injection H3 as <- <-.
  apply bind_inv in H as (l&s5&Hnest&H). injection H as <- <-.
  destruct (nested_found mp (rooted M) M siblings l s5 eq_refl HMpl Hnest) as (->&Hpl&Hin).
  split_and!; [done|done|]. exists R, M. split; [done|]. unfold scope_of. simpl. split_and!; try done.
  intros N (c&Hc&Hne&Hmp&HN). by eapply Hin.
Qed.

(** Inside the pool and in no pool below it. *)
Definition allowed (other : list string → Prop) (M q : list string) : Prop :=
  (∃ t, q = M ++ t ∧ dotless t) ∧
  ∀ N, other N → N ≠ M → (∃ r, N = M ++ r ∧ dotless r) → ¬ ∃ t, q = N ++ t ∧ dotless t.

Lemma assert_allowed other R M scope q u : scope_of other R M scope → Forall plain_name q →
  assertPathInsideStorageScope scope (rooted q) = inr u → allowed other M q.
Proof.
  intros (_&_&HM&_&_&Em&Hpl&Hin) Hq. unfold assertPathInsideStorageScope. rewrite Em.
  destruct (isPathInside (rooted M) (rooted q)) eqn:E; [|done]. cbn [negb]. apply isPathInside_rooted in E; [|done..].
  destruct (existsb _ _) eqn:Ex; [done|]. intros _. split; [done|]. intros N HN Hne Hr Ht.
  specialize (Hin N HN Hne Hr). apply not_true_iff_false in Ex. apply Ex. apply existsb_exists. exists (rooted N).
  split; [by apply list_elem_of_In|]. destruct Hr as (r&->&_). destruct Ht as (t&->&Ht).
  apply isPathInside_rooted; [|done|by exists t]. by apply Forall_app in Hq as [? _].
Qed.

Lemma clear_real q n : f !! q = Some n → is_link n = false → clear f q.
Proof.
  intros Hn Hl p k n' -> Hp. destruct k as [|y k]; [rewrite app_nil_r in Hn; by simplify_eq|].
  rewrite (wf_above _ p (y :: k) n) in Hp by done. by simplify_eq.
Qed.

Lemma existing_allowed other R M scope req p s' : scope_of other R M scope →
  resolveStorageScopeExistingPath scope req s = (inr p, s') →
  ∃ q n, sp_realPath p = rooted q ∧ f !! q = Some n ∧ under R q ∧ allowed other M q.
Proof.
  intros Hsc ([]&_&H)%checked_inv. apply bind_inv in H as (p'&s1&H1&H). apply checked_inv in H as ([]&Ha&[= <- _]).
  destruct (resolveSafeExistingPath_effect _ _ _ _ _ Hwf H1) as [_ Hp].
  destruct (Hp _ eq_refl) as (R'&t&n&HR&Hpl&_&Hreal&_&Hn&_). rewrite Hreal in Ha. pose proof Hsc as (HR'&_).
  assert (R' = R) as -> by congruence. exists (R ++ t), n. split_and!; [done|done|by eexists|by eapply assert_allowed].
Qed.

Lemma target_allowed other R M scope req p s' : scope_of other R M scope →
  resolveStorageScopeTargetPath scope req s = (inr p, s') →
  ∃ q, st_absolutePath p = rooted q ∧ clear f q ∧ under R q ∧ allowed other M q.
Proof.
  intros Hsc ([]&_&H)%checked_inv. apply bind_inv in H as (p'&s1&H1&H). apply checked_inv in H as ([]&Ha&H).
  apply bind_inv in H as (u&s2&H2&[= <- _]).
  destruct (resolveSafeTargetPath_effect _ _ _ _ _ Hwf H1) as [Ef Hp].
  destruct (Hp _ eq_refl) as (R'&t&n&HR&Hpl&Hn&Hl&_&Habs&_). rewrite Habs in Ha, H2. pose proof Hsc as (HR'&_&_&_&Err&_).
  assert (R' = R) as -> by congruence. exists (R ++ t). split_and!; [done| |by eexists|by eapply assert_allowed].
  apply Forall_app in Hpl as [HRpl Htpl]. unfold assertNoSymlinkSegments in H2. rewrite Err, path_segments_rooted in H2 by done.
  assert (faults_ok s1) as Hf1 by (eapply keeps_run; [apply keeps_target|unfold faults_ok; by rewrite Hcalm|exact H1]).
  rewrite <-Ef. eapply no_symlink_effect in H2 as [_ H2]; [|by rewrite Ef|done|done|done|rewrite Ef; by exists n|done|done].
  apply H2; [by exists u|]. rewrite Ef. by eapply clear_real.
Qed.
End Calm.

(** Where the other mounted pools really are. *)
Definition other_pool (f : fs) (pools : list SystemStoragePool) (poolId mountpointPath : string) (N : list string) : Prop :=
  ∃ q c, q ∈ pools ∧ po_id q ≠ poolId ∧ po_mountpoint q = Some c ∧ c ≠ "" ∧ c ≠ mountpointPath ∧ follow f c = inr N.

(** C5: A request stays in its storage pool.  When the scope of a pool has
    been made, on a disk whose calls do not fail, every existing path it
    accepts is the real place of an entry below the mount point and the root,
    every target path is such a place that no link leads to, and neither lies
    in a pool mounted below - where a name that starts with two dots counts
    as outside. *)
Theorem scope_confined getNasRoot pools rootId poolId s scope s1 :
  wf (dk_fs s) → dk_faults s = [] →
  resolveStoragePoolScope getNasRoot (Some (inr pools)) (Some rootId) (Some poolId) s = (inr scope, s1) →
  s1 = s ∧ ∃ root mountpointPath R M,
    getNasRoot rootId = Some root ∧ StoragePool poolId (Some mountpointPath) ∈ pools ∧
    follow (dk_fs s) (ro_path root) = inr R ∧ follow (dk_fs s) mountpointPath = inr M ∧ dk_fs s !! M = Some Dir ∧
    let ok := allowed (other_pool (dk_fs s) pools poolId mountpointPath) M in
    (∀ req p s2, resolveScopedExistingPath scope req s = (inr p, s2) →
       ∃ q n, sp_realPath p = rooted q ∧ dk_fs s !! q = Some n ∧ under R q ∧ ok q) ∧
    (∀ req p s2, resolveScopedTargetPath scope req s = (inr p, s2) →
       ∃ q, st_absolutePath p = rooted q ∧ clear (dk_fs s) q ∧ under R q ∧ ok q).
Proof.
  intros Hwf Hcalm H. unfold resolveStoragePoolScope in H. destruct (bool_decide (trim poolId = "")); [done|].
  destruct (given (Some rootId) ≫= getNasRoot) as [root|] eqn:Er; [|done].
  assert (getNasRoot rootId = Some root) as Hroot by (simpl in Er; by case_bool_decide).
  destruct (List.find _ pools) as [[id o]|] eqn:Efind; [|done]. apply find_some in Efind as [Hpool Hid].
  apply bool_decide_eq_true in Hid. simpl in Hid. subst id. apply list_elem_of_In in Hpool.
  destruct (given (po_mountpoint _)) as [mp|] eqn:Emp; [|done].
  assert (o = Some mp) as -> by (destruct o as [c|]; [simpl in Emp; by case_bool_decide; simplify_eq|done]).
  apply bind_inv in H as (safe&s2&Hc%withStorageScopeError_inv&[= <- <-]).
  apply create_calm in Hc as (->&Erp&R&M&HM&Hsc); [|done..]. split; [done|]. exists root, mp, R, M.
  pose proof Hsc as (HR&_&_&HMd&_). rewrite Erp in HR. do 5 (split; [done|]). cbv zeta.
  set (other := λ N, _) in Hsc. set (others := other_pool (dk_fs s) pools poolId mp).
  assert (∀ q, allowed other M q → allowed others M q) as Hallow.
  { intros q [Hq Ho]. split; [done|]. intros N (p&c&Hp&Hid&Hpc&Hne&Hmp&HN). apply Ho. exists c. split_and!; [|done..].
    apply list_elem_of_omap. exists p. split; [|rewrite Hpc; simpl; by rewrite bool_decide_false].
    apply list_elem_of_In, filter_In. split; [by apply list_elem_of_In|]. by rewrite bool_decide_false. }
  split; intros req p s2 H%withStorageScopeError_inv.
  - destruct (existing_allowed s Hwf _ _ _ _ _ _ _ Hsc H) as (q&n&?&?&?&?). exists q, n. auto.
  - destruct (target_allowed s Hwf Hcalm _ _ _ _ _ _ _ Hsc H) as (q&?&?&?&?). exists q. auto.
Qed.

(** ** A pool mounted below another *)
Definition pools_fs : fs := list_to_map
  [([], Dir); (["nas"], Dir); (["nas"; "p"], Dir); (["nas"; "p"; "n"], Dir); (["nas"; "p"; "n"; "..x"], Dir);
   (["nas"; "p"; "a"], File "1"); (["nas"; "link"], Link "/etc"); (["etc"], Dir)].
Definition pools_root (id : string) : option NasRootRecord := if bool_decide (id = "r") then Some (NasRoot "r" "/nas") else None.
Definition demo_pools : list SystemStoragePool := [StoragePool "p" (Some "/nas/p"); StoragePool "n" (Some "/nas/p/n")].
Definition accepts (req : string) : option string :=
  let '(r, s) := resolveStoragePoolScope pools_root (Some (inr demo_pools)) (Some "r") (Some "p") (Disk pools_fs []) in
  match r with
  | inl _ => None
  | inr scope => match (resolveScopedTargetPath scope req s).1 with inr t => Some (st_absolutePath t) | inl _ => None end
  end.
(** What lies in the pool below is refused, unless its name starts with two
    dots. *)
Example scope_examples : accepts "p/a" = Some "/nas/p/a" ∧ accepts "p/n/f" = None ∧ accepts "p/../etc" = None ∧
  accepts "link/f" = None ∧ accepts "p/n/..x/f" = Some "/nas/p/n/..x/f".
Proof. by vm_compute. Qed.

Lemma pools_wf : wf pools_fs.
Proof. apply wf_check; [reflexivity|]. apply (bool_decide_unpack _). vm_compute. exact I. Qed.

Lemma scope_confined_witness : ∃ scope, (resolveStoragePoolScope pools_root (Some (inr demo_pools)) (Some "r") (Some "p")
    (Disk pools_fs [])).1 = inr scope ∧ ∀ req p s2,
  resolveScopedTargetPath scope req (Disk pools_fs []) = (inr p, s2) → ∃ q, st_absolutePath p = rooted q ∧ clear pools_fs q.
Proof.
  destruct (resolveStoragePoolScope pools_root (Some (inr demo_pools)) (Some "r") (Some "p") (Disk pools_fs [])) as [[e|scope] s1] eqn:E;
    [vm_compute in E; discriminate E|].
  exists scope. split; [reflexivity|]. intros req p s2 H.
  destruct (scope_confined pools_root demo_pools "r" "p" (Disk pools_fs []) scope s1 pools_wf eq_refl E)
    as (_&root&mp&R&M&_&_&_&_&_&_&Ht).
  destruct (Ht req p s2 H) as (q&Hq&Hc&_). exists q. split; [exact Hq|exact Hc].
Defined.
