(* ===== verification/FileBatchRunner.v ===== *)
(** * The file batch runner

    apps/api/src/lib/file-batch-runner.ts: the loop that claims one item
    after the other, applies it to the disk and finishes it, with the
    progress events it logs and the recovery of a mutation that a crash
    interrupted between the disk and the database.

    What reaches outside is a parameter: the storage scope of a root and a
    pool, the resolution of a path inside it, [stat], the validation of a
    proposal and the mutation itself.  The loop is a [prog] over the database
    and the runner's throttle; the instants it reads are those of a [times]
    per item. *)
From S2P Require Import Confinement Mutations.
From S2P Require Import Prelude Sql Json JsString Http IndexQueue CoreDb Jobs Operations FileBatches.
Open Scope Z_scope.

(** ** The loop and what it calls *)
Record times := Times { t_claim : Z; t_started : Z; t_applied : Z; t_finished : Z; t_emitted : Z }.

Record runner := Runner { rn_db : core_db; rn_last : list (string * Z) }.
#[export] Instance eta_runner : Eta runner := λ s, Runner (rn_db s) (rn_last s).
Definition on_db {A} (m : core_prog A) : prog runner A := λ s,
  let '(r, d) := m (rn_db s) in (r, s <| rn_db := d |>).

Record ProcessedFileBatchItem := Processed {
  pr_batchId : string; pr_jobId : string; pr_sessionId : string; pr_rootId : string; pr_storagePoolId : string;
  pr_completedCount : nat; pr_totalCount : nat; pr_finalStatus : option JobStatus }.
Definition processedResult (b : FileBatchRecord) (s : option JobStatus) : ProcessedFileBatchItem :=
  let r := br_row b in
  Processed (fb_id r) (fb_jobId r) (fb_sessionId r) (fb_rootId r) (fb_storagePoolId r) (fb_completedCount r) (fb_totalCount r) s.

(** [lastProgressEventAt], a Map. *)
Definition last_progress (id : string) (l : list (string * Z)) : Z :=
  match List.find (λ p, bool_decide (p.1 = id)) l with Some p => p.2 | None => 0 end.
Definition forget (id : string) (l : list (string * Z)) : list (string * Z) :=
  List.filter (λ p, negb (bool_decide (p.1 = id))) l.

Definition progress_type (s : option JobStatus) : AgentEventType :=
  match s with
  | Some job_completed => ev_job_completed
  | Some job_failed => ev_job_failed
  | Some job_cancelled => ev_job_cancelled
  | _ => ev_job_running
  end.
Definition status_text (s : JobStatus) : string :=
  match s with
  | job_queued => "queued" | job_running => "running" | job_waiting_approval => "waiting_approval"
  | job_completed => "completed" | job_failed => "failed" | job_cancelled => "cancelled"
  end.
Definition progress_payload (r : ProcessedFileBatchItem) : json :=
  JObj ([("jobId", JStr (pr_jobId r)); ("fileBatchId", JStr (pr_batchId r)); ("rootId", JStr (pr_rootId r));
         ("storagePoolId", JStr (pr_storagePoolId r)); ("completedCount", int (Z.of_nat (pr_completedCount r)));
         ("totalCount", int (Z.of_nat (pr_totalCount r)))] ++
        match pr_finalStatus r with Some s => [("status", JStr (status_text s))] | None => [] end).

Definition emitProgress (now : Z) (r : ProcessedFileBatchItem) : prog runner unit :=
  previous ← gets (λ s, last_progress (pr_batchId r) (rn_last s));
  if is_null (pr_finalStatus r) && bool_decide (now - previous < 500) then mret tt else
  _ ← modify (λ s, s <| rn_last := (pr_batchId r, now) :: forget (pr_batchId r) (rn_last s) |>);
  _ ← on_db (appendEvent (pr_sessionId r) (Some (pr_jobId r)) (progress_type (pr_finalStatus r)) (progress_payload r) now);
  if is_null (pr_finalStatus r) then mret tt
  else modify (λ s, s <| rn_last := forget (pr_batchId r) (rn_last s) |>).

(** What the loop needs of the application of an item: whether it succeeds
    or fails, it leaves the jobs, the batches, the items and the log alone. *)
Class ItemApplier (apply : Z → ClaimedFileBatchItem → core_prog unit) : Prop :=
  applier_frame : ∀ now c d, let d' := (apply now c d).2 in
    c_jobs d' = c_jobs d ∧ c_batches d' = c_batches d ∧ c_items d' = c_items d ∧ log_frame d d'.

Section Runner.
Variable apply : Z → ClaimedFileBatchItem → core_prog unit.

Definition processNextFileBatchItem (t : times) (onStarted : FileBatchRecord → prog runner unit)
    : prog runner (option ProcessedFileBatchItem) :=
  claimed ← on_db (claimNextFileBatchItem (t_claim t));
  match claimed with
  | None => mret None
  | Some claimed =>
      _ ← onStarted (cl_batch claimed);
      try_catch
        (_ ← on_db (apply (t_applied t) claimed);
         finished ← on_db (finishFileBatchItem (fi_id (cl_item claimed)) result_completed None (t_finished t));
         mret (Some (processedResult finished.1 finished.2)))
        (λ e, finished ← on_db (finishFileBatchItem (fi_id (cl_item claimed)) result_failed (Some (exn_message e)) (t_finished t));
              mret (Some (processedResult finished.1 finished.2)))
  end.

(** How a drain ends: stopped, with nothing left, or with the error it logged. *)
Inductive drain_end := stopped | drained | drain_failed (e : exn) | out_of_fuel.

Definition drain_once (t : times) : prog runner (option drain_end) :=
  try_catch
    (result ← processNextFileBatchItem t (λ b, emitProgress (t_started t) (processedResult b None));
     match result with
     | None => mret (Some drained)
     | Some r => _ ← (if is_null (pr_finalStatus r) then mret tt else emitProgress (t_emitted t) r); mret None
     end)
    (λ e, mret (Some (drain_failed e))).

(** [is_stopped i]: the runner has been stopped when the loop looks for the
    [i]-th time. *)
Fixpoint drain (fuel : nat) (is_stopped : nat → bool) (clock : nat → times) (i : nat) : prog runner drain_end :=
  match fuel with
  | O => mret out_of_fuel
  | S fuel =>
      if is_stopped i then mret stopped else
      r ← drain_once (clock i);
      match r with Some e => mret e | None => drain fuel is_stopped clock (S i) end
  end.

(** [start]: recovery, then the first drain. *)
Definition start (fuel : nat) (is_stopped : nat → bool) (clock : nat → times) (now : Z) : prog runner drain_end :=
  _ ← modify (λ s, s <| rn_db := (recoverInterruptedFileBatches now (rn_db s)).2 |>);
  drain fuel is_stopped clock 0.
End Runner.

(** ** The application of an item *)
Definition isMissingPathError (e : exn) : bool := has_code e ["ENOENT"; "ENOTDIR"].

Section Apply.
Variable dataDir : string.
(** [resolveStoragePoolScope]: the id of the scope's root. *)
Variable resolveStoragePoolScope : string → string → exn + string.
(** [resolveScopedExistingPath]: the relative and the real path. *)
Variable resolveScopedExistingPath : string → string → exn + string * string.
Variable stat : string → exn + unit.
Variable validateStoragePoolProposal : string → FileOperationProposal → exn + unit.
Variable applyFileMutation : string → FileOperationProposal → string → exn + AppliedMutation.

Definition scopedPathExists (scope : string) (candidate : option string) : exn + bool :=
  match candidate with
  | None => inr false
  | Some c =>
      if bool_decide (c = "") then inr false else
      match resolveScopedExistingPath scope c with
      | inr _ => inr true
      | inl e => if isMissingPathError e then inr false else inl e
      end
  end.
Definition pathExists (candidate : string) : exn + bool :=
  match stat candidate with
  | inr _ => inr true
  | inl e => if isMissingPathError e then inr false else inl e
  end.

(** Bind of the exceptions. *)
Local Notation "x <-? e ; k" := (match e with inl err => inl err | inr x => k end) (at level 100, e at next level, right associativity).
Definition is_empty (o : option string) : bool := negb (truthy o).

Definition recoverAppliedMutation (scope : string) (p : FileOperationProposal) (trashRoot : string)
    : exn + option AppliedMutation :=
  sourceExists <-? scopedPathExists scope (fp_sourcePath p);
  if bool_decide (fp_operation p = move) then
    targetExists <-? scopedPathExists scope (fp_targetPath p);
    if (sourceExists : bool) || negb targetExists || is_empty (fp_targetPath p) then inr None else
    target <-? resolveScopedExistingPath scope (fp_targetPath p ⁇ "");
    inr (Some (Applied p (fp_sourcePath p) (Some target.1) [("absoluteTargetPath", JStr target.2)]))
  else if negb (bool_decide (fp_operation p = trash)) || is_empty (fp_sourcePath p) || is_empty (fp_trashEntryId p)
  then inr None
  else
    let place := trashPathFor "" trashRoot scope (fp_sourcePath p ⁇ "") (fp_trashEntryId p) in
    trashExists <-? pathExists (tp_absoluteTrashPath place);
    if sourceExists && (trashExists : bool)
    then inl (Error "Trash recovery found both source and destination; refusing to overwrite either path")
    else if sourceExists || negb trashExists then inr None
    else inr (Some (Applied
           (FileProposal (fp_operation p) (fp_rootId p) (fp_storagePoolId p) (fp_sourcePath p) (Some (tp_relativeTrashPath place))
              (fp_tag p) (fp_trashEntryId p) (fp_reversible p) (fp_json p))
           (fp_sourcePath p) (Some (tp_relativeTrashPath place))
           [("trashEntryId", JStr (tp_id place)); ("absoluteTrashPath", JStr (tp_absoluteTrashPath place))])).

Definition item_proposal (b : file_batch_row) (i : FileBatchItemRecord) : exn + FileOperationProposal :=
  if bool_decide (fb_operation b = batch_move) && is_empty (fi_targetPath i)
  then inl (Error "Move batch item is missing its target path")
  else if bool_decide (fb_operation b = batch_trash) && is_empty (fi_trashEntryId i)
  then inl (Error "Trash batch item is missing its recovery id")
  else
    let base := [("rootId", JStr (fb_rootId b)); ("storagePoolId", JStr (fb_storagePoolId b));
                 ("sourcePath", JStr (fi_sourcePath i))] in
    let rest := [("risk", JStr "medium"); ("reversible", JBool true)] in
    match fb_operation b with
    | batch_move =>
        let t := fi_targetPath i ⁇ "" in
        inr (FileProposal move (fb_rootId b) (Some (fb_storagePoolId b)) (Some (fi_sourcePath i)) (Some t) None None true
          (JObj (("operation", JStr "move") :: base ++ ("targetPath", JStr t) :: rest ++
                 [("summary", JStr ("Move " +:+ fi_sourcePath i +:+ " to " +:+ t))])))
    | batch_trash =>
        let t := fi_trashEntryId i ⁇ "" in
        inr (FileProposal trash (fb_rootId b) (Some (fb_storagePoolId b)) (Some (fi_sourcePath i)) None None (Some t) true
          (JObj (("operation", JStr "trash") :: base ++ ("trashEntryId", JStr t) :: rest ++
                 [("summary", JStr ("Move " +:+ fi_sourcePath i +:+ " to ZOS trash"))])))
    end.

(** The reads and the mutation of the disk, and whether it was a recovery. *)
Definition item_mutation (scope : string) (p : FileOperationProposal) (trashRoot : string) : exn + AppliedMutation * bool :=
  recovered <-? recoverAppliedMutation scope p trashRoot;
  match recovered with
  | Some r => inr (r, true)
  | None =>
      _ <-? validateStoragePoolProposal scope p;
      r <-? applyFileMutation scope p trashRoot;
      inr (r, false)
  end.

Definition lift {A} (r : exn + A) : core_prog A := λ d, (r, d).

(** [ids]: the UUIDs of the index tasks and alerts of [recordAppliedOperation]. *)
Definition applyClaimedItem (ids : nat → string * string) (now : Z) (c : ClaimedFileBatchItem) : core_prog unit :=
  let b := br_row (cl_batch c) in
  let i := cl_item c in
  known ← gets (getFileOperation (fi_operationId i));
  if isSome known then mret tt else
  scope ← lift (resolveStoragePoolScope (fb_rootId b) (fb_storagePoolId b));
  let trashRoot := path_join [dataDir; "trash"] in
  p ← lift (item_proposal b i);
  r ← lift (item_mutation scope p trashRoot);
  let '(result, recovered) := (r : AppliedMutation * bool) in
  let batch := [("storagePoolId", JStr (fb_storagePoolId b)); ("fileBatchId", JStr (fb_id b))] in
  _ ← match fp_operation (am_proposal result), str_prop (am_metadata result) "trashEntryId", am_targetPath result with
      | trash, Some t, Some target =>
          if bool_decide (t = "") || bool_decide (target = "") then mret tt else
          entry ← gets (getTrashEntry t);
          if isSome entry then mret tt else
          _ ← createTrashEntry t scope (am_sourcePath result ⁇ fi_sourcePath i) (path_join [trashRoot; target])
                (spread (am_metadata result) batch) now;
          mret tt
      | _, _, _ => mret tt
      end;
  _ ← recordAppliedOperation (fi_operationId i) ids None (fp_operation (am_proposal result)) (am_sourcePath result)
        (am_targetPath result) fo_applied
        (spread (am_metadata result)
           ([("rootId", JStr scope); ("storagePoolId", JStr (fb_storagePoolId b)); ("reversible", JBool true);
             ("fileBatchId", JStr (fb_id b))] ++ (if recovered then [("recovered", JBool true)] else []))) now;
  mret tt.
End Apply.

(** ** The application is an applier *)
Definition batch_frame (d d' : core_db) : Prop :=
  c_jobs d' = c_jobs d ∧ c_batches d' = c_batches d ∧ c_items d' = c_items d ∧ log_frame d d'.

Lemma batch_frame_refl d : batch_frame d d.
Proof. done. Qed.

(** A write to another table. *)
Lemma keeps_checked_insert {R} d0 (key : R → string) table refs r put :
  (∀ t d, batch_frame d0 d → batch_frame d0 (put t d)) → keeps (batch_frame d0) (checked_insert key table refs r put).
Proof.
  intros Hp d Hd. unfold checked_insert. destruct (isSome _); [done|]. destruct (negb _); [done|]. simpl. by apply Hp.
Qed.

Lemma keeps_on_index {A} d0 (m : prog _ A) : keeps (batch_frame d0) (on_index m).
Proof. intros d Hd. unfold on_index. by destruct (m (c_index d)). Qed.

Lemma keeps_alert d0 id rootId scope message now : keeps (batch_frame d0) (raise_enqueue_alert id rootId scope message now).
Proof.
  intros d Hd. unfold raise_enqueue_alert. destruct (exists_where _ _); [done|]. destruct (isSome _); [done|].
  by destruct (negb _).
Qed.

Lemma keeps_enqueue_paths d0 ids rootId pool recursive now n l :
  keeps (batch_frame d0) (enqueue_paths ids rootId pool recursive now n l).
Proof.
  revert n. induction l as [|p l IH]; intros n; simpl; [apply keeps_ret|].
  apply keeps_bind; [|intros _; apply IH]. apply keeps_try; [|intros e; apply keeps_alert].
  apply keeps_bind; [apply keeps_on_index|intros; apply keeps_ret].
Qed.

Lemma keeps_record d0 id ids approvalId operation source target status metadata now :
  keeps (batch_frame d0) (recordAppliedOperation id ids approvalId operation source target status metadata now).
Proof.
  unfold recordAppliedOperation. apply keeps_bind; [by apply keeps_checked_insert|]. intros _.
  apply keeps_bind; [|intros; apply keeps_ret]. case_bool_decide; [|apply keeps_ret].
  unfold enqueueAppliedOperationPaths. destruct (str_prop _ _) as [r|]; [|apply keeps_ret].
  case_bool_decide; [apply keeps_ret|apply keeps_enqueue_paths].
Qed.

Lemma keeps_trash_entry d0 id rootId original trash metadata now :
  keeps (batch_frame d0) (createTrashEntry id rootId original trash metadata now).
Proof. unfold createTrashEntry. apply keeps_bind; [by apply keeps_checked_insert|intros; apply keeps_ret]. Qed.

Lemma keeps_lift {A} d0 (r : exn + A) : keeps (batch_frame d0) (lift r).
Proof. by intros d Hd. Qed.

Lemma keeps_apply d0 dataDir scope resolve stat validate mutate ids now c :
  keeps (batch_frame d0) (applyClaimedItem dataDir scope resolve stat validate mutate ids now c).
Proof.
  unfold applyClaimedItem. apply keeps_bind; [apply keeps_gets|]. intros known. destruct (isSome known); [apply keeps_ret|].
  apply keeps_bind; [apply keeps_lift|]. intros sc. apply keeps_bind; [apply keeps_lift|]. intros p.
  apply keeps_bind; [apply keeps_lift|]. intros [result recovered].
  apply keeps_bind; [|intros _; apply keeps_bind; [apply keeps_record|intros; apply keeps_ret]].
  destruct (fp_operation _); try apply keeps_ret. destruct (str_prop _ _) as [t|]; [|apply keeps_ret].
  destruct (am_targetPath result) as [target|]; [|apply keeps_ret]. destruct (_ || _); [apply keeps_ret|].
  apply keeps_bind; [apply keeps_gets|]. intros entry. destruct (isSome entry); [apply keeps_ret|].
  apply keeps_bind; [apply keeps_trash_entry|intros; apply keeps_ret].
Qed.

#[export] Instance applyClaimedItem_applier dataDir scope resolve stat validate mutate ids :
  ItemApplier (applyClaimedItem dataDir scope resolve stat validate mutate ids).
Proof. intros now c d. exact (keeps_apply d dataDir scope resolve stat validate mutate ids now c d (batch_frame_refl d)). Qed.

(** ** The loop comes to an end *)
Record evolves (d d' : core_db) (f : FileBatchItemRecord → FileBatchItemRecord) (g : JobRecord → JobRecord)
    (h : file_batch_row → file_batch_row) : Prop := Evolves {
  ev_items : c_items d' = f <$> c_items d;
  ev_jobs : c_jobs d' = g <$> c_jobs d;
  ev_batches : c_batches d' = h <$> c_batches d;
  ev_item : ∀ i, same_item (f i) i;
  ev_job : ∀ j, same_job (g j) j;
  ev_batch : ∀ b, same_batch (h b) b ∧ fb_sessionId (h b) = fb_sessionId b;
  ev_busy : ∀ j, busy_job (g j) = true → busy_job j = true }.

Lemma evolves_job_of_item d d' f g h i : evolves d d' f g h → job_of_item d' (f i) = g <$> job_of_item d i.
Proof.
  intros [Hi Hj Hb Hf Hg Hh Hbu]. unfold job_of_item. destruct (Hf i) as (_&->&_).
  rewrite Hb, (by_key_fmap fb_id) by (intros b; by destruct (Hh b) as [(?&_) _]).
  destruct (by_key fb_id _ _) as [b|]; simpl; [|done]. unfold batch_job.
  rewrite Hj, (by_key_fmap jb_id) by (intros j; apply Hg). by destruct (Hh b) as [(_&->&_) _].
Qed.

Lemma claim_evolves now d c b d' : c_items d' = claim_f now c <$> c_items d →
  c_jobs d' = claim_g now (fb_jobId b) <$> c_jobs d → c_batches d' = claim_h now (fb_id b) (fi_sourcePath c) <$> c_batches d →
  evolves d d' (claim_f now c) (claim_g now (fb_jobId b)) (claim_h now (fb_id b) (fi_sourcePath c)).
Proof.
  intros E1 E2 E3. split; try done.
  - intros i. apply claim_f_shuffles.
  - intros j. unfold claim_g. by destruct (job_guard _ _ _).
  - intros b'. unfold claim_h. by destruct (has_key fb_id (fb_id b) b').
  - intros j. unfold claim_g. destruct (job_guard (fb_jobId b) [job_queued] j) eqn:E; [|done]. intros _. unfold job_guard in E.
    apply andb_true_iff in E as [_ E%bool_decide_eq_true%list_elem_of_singleton]. apply bool_decide_true. by left.
Qed.

Lemma finish_evolves result error now item c ended jobId st b2 e id d d2 d' :
  c_items d' = finish_f result error now item c <$> c_items d →
  c_jobs d' = finish_g ended jobId (final_status st b2) e now <$> c_jobs d →
  c_batches d' = finish_h ended id now d2 <$> c_batches d →
  evolves d d' (finish_f result error now item c) (finish_g ended jobId (final_status st b2) e now) (finish_h ended id now d2).
Proof.
  intros E1 E2 E3. split; try done.
  - intros i. apply finish_f_settles.
  - intros j. unfold finish_g. by destruct (ended && _).
  - intros b'. unfold finish_h. destruct (has_key fb_id id b'); [|done]. by destruct ended.
  - intros j. unfold finish_g. destruct (ended && has_key jb_id jobId j); [|done].
    destruct (final_status_idle st b2) as [H _]. unfold busy_job in *. simpl in *. by rewrite H.
Qed.

(** Between two rounds: the batches are right, no item of a busy job is
    running, and the log can take the progress of every batch. *)
Record calm (d : core_db) : Prop := Calm {
  cm_ok : batches_ok d;
  cm_log : log_ok d;
  cm_sessions : ∀ b, In b (c_batches d) → has_session (fb_sessionId b) d = true;
  cm_quiet : ∀ i j, In i (c_items d) → fi_status i = item_running → job_of_item d i = Some j → busy_job j = false }.

Definition claimable_count (d : core_db) : nat := count_where (claimable_item d) (c_items d).

Lemma evolves_sessions d d' f g h : evolves d d' f g h → c_sessions d' = c_sessions d →
  (∀ b, In b (c_batches d) → has_session (fb_sessionId b) d = true) →
  ∀ b, In b (c_batches d') → has_session (fb_sessionId b) d' = true.
Proof.
  intros He Hs H b. rewrite (ev_batches _ _ _ _ _ He), <-list_elem_of_In, list_elem_of_fmap. intros (b0&->&Hb0).
  destruct (ev_batch _ _ _ _ _ He b0) as [_ ->]. unfold has_session. rewrite Hs. by apply H, list_elem_of_In.
Qed.

Lemma count_where_lt {R} (p q : R → bool) t x : (∀ r, In r t → p r = true → q r = true) →
  In x t → q x = true → p x = false → (count_where p t < count_where q t)%nat.
Proof.
  intros H Hx Hq Hp. unfold count_where, select. induction t as [|y t IH]; [done|]. simpl in *.
  assert (count_where p t ≤ count_where q t)%nat as Hle by (apply count_where_mono; auto). unfold count_where, select in Hle.
  destruct Hx as [->|Hx].
  - rewrite Hq, Hp. simpl. lia.
  - specialize (IH (λ r Hr, H r (or_intror Hr)) Hx). pose proof (H y (or_introl eq_refl)) as Hy.
    destruct (p y); [rewrite Hy by done; simpl; lia|destruct (q y); simpl; lia].
Qed.

(** An emission succeeds and only logs. *)
Lemma emitProgress_returns now r s : log_ok (rn_db s) → has_session (pr_sessionId r) (rn_db s) = true →
  has_job (pr_jobId r) (rn_db s) = true →
  ∃ s', emitProgress now r s = (inr tt, s') ∧ log_ok (rn_db s') ∧ same_but_log (rn_db s) (rn_db s').
Proof.
  intros Hl Hs Hj. unfold emitProgress. rewrite bind_gets.
  destruct (is_null (pr_finalStatus r) && _); [exists s; split; [done|]; split; [done|apply same_but_log_refl]|].
  rewrite bind_modify. set (s1 := s <| rn_last := _ |>).
  destruct (appendEvent_returns (pr_sessionId r) (Some (pr_jobId r)) (progress_type (pr_finalStatus r)) (progress_payload r)
    now (rn_db s) Hl Hs Hj) as (e&d'&E&Hl'&Hf).
  assert (on_db (appendEvent (pr_sessionId r) (Some (pr_jobId r)) (progress_type (pr_finalStatus r)) (progress_payload r) now) s1 =
    (inr e, s1 <| rn_db := d' |>)) as E1 by (unfold on_db; simpl; by rewrite E).
  erewrite bind_inr by exact E1. destruct (is_null _); eexists; (split; [done|]); done.
Qed.

Lemma calm_log d d' : same_but_log d d' → log_ok d' → calm d → calm d'.
Proof.
  intros E Hl [H1 H2 H3 H4]. assert (c_jobs d' = c_jobs d ∧ c_batches d' = c_batches d ∧ c_items d' = c_items d ∧
    c_sessions d' = c_sessions d) as (Ej&Eb&Ei&Es) by (by rewrite E).
  assert (∀ i, job_of_item d' i = job_of_item d i) as Hji by (intros i; unfold job_of_item, batch_job; by rewrite Eb, Ej).
  split; [|done|unfold has_session; by rewrite Eb, Es|intros i j; rewrite Ei, Hji; apply H4].
  apply (other_ok d); [done|done|rewrite Ej; apply H1|intros b _; unfold batch_job; by rewrite Ej|done].
Qed.

Section Round.
Context (d d3 : core_db) (c : FileBatchItemRecord) (b : file_batch_row) (j : JobRecord) (now : Z).
Context (Hcalm : calm d) (Hc : In c (c_items d)) (Hcl : claimable_item d c = true).
Context (Hb : by_key fb_id (fi_batchId c) (c_batches d) = Some b) (Hj : batch_job d b = Some j) (Hbusy : busy_job j = true).
Context (He : evolves d d3 (claim_f now c) (claim_g now (fb_jobId b)) (claim_h now (fb_id b) (fi_sourcePath c))).
Context (Hok3 : batches_ok d3) (Hlog3 : log_ok d3) (Hs3 : c_sessions d3 = c_sessions d).

Lemma claimed_item : by_key fi_id (fi_id c) (c_items d3) = Some (start_item now c).
Proof using Hcalm Hc Hcl He.
  rewrite (ev_items _ _ _ _ _ He), (by_key_fmap fi_id) by (intros; apply claim_f_shuffles).
  rewrite (by_key_unique fi_id) by (done || apply Hcalm). simpl. unfold claim_f, has_key, item_is.
  destruct (job_of_claimable d c Hcl) as (_&_&_&_&_&_&Hq). by rewrite (bool_decide_true (fi_id c = fi_id c)), bool_decide_true.
Qed.

Lemma finish_round result error now' : ∃ r fs d4,
  finishFileBatchItem (fi_id c) result error now' d3 = (inr (r, fs), d4) ∧ calm d4 ∧
  (claimable_count d4 < claimable_count d)%nat ∧
  has_session (fb_sessionId (br_row r)) d4 = true ∧ has_job (fb_jobId (br_row r)) d4 = true.
Proof using All.
  destruct (finish_eq (fi_id c) result error now' d3 (start_item now c) Hok3 claimed_item) as (b3&j3&r&d4&Hb3&Hj3&H). cbv zeta in H.
  destruct H as (E&Hr&Hi4&Hj4&Hb4&Hlf). cbn [c_items with_field set_to] in Hi4.
  pose proof (finish_evolves _ _ _ _ _ _ _ _ _ _ _ _ _ _ Hi4 Hj4 Hb4) as He4.
  set (f := finish_f result error now' (start_item now c) _) in He4, Hi4. set (g := finish_g _ _ _ _ _) in He4, Hj4.
  set (h := finish_h _ _ _ _) in He4, Hb4.
  assert (batches_ok d4) as Hok4 by (pose proof (finish_ok (fi_id c) result error now' d3 Hok3) as H; by rewrite E in H).
  assert (log_ok d4) as Hlog4 by (by eapply log_frame_ok).
  assert (∀ b, In b (c_batches d4) → has_session (fb_sessionId b) d4 = true) as Hses.
  { apply (evolves_sessions d3 d4 f g h He4); [by destruct Hlf as (->&_)|].
    apply (evolves_sessions d d3 _ _ _ He); [done|apply Hcalm]. }
  assert (∀ i, In i (c_items d) → fi_id i = fi_id c → i = c) as Huniq.
  { intros i Hi. apply (unique_key_eq fi_id (c_items d)); [apply (cm_ok d Hcalm)|done..]. }
  assert (∀ i, In i (c_items d) → fi_id i ≠ fi_id c → claim_f now c i = i) as Hsame.
  { intros i Hi Hne. unfold claim_f, has_key. by rewrite bool_decide_false. }
  assert (∀ i, fi_status (f (claim_f now c c)) ≠ item_running ∧ fi_status (f (claim_f now c c)) ≠ item_queued ∧
    (fi_status (f i) = item_running → fi_status i = item_running) ∧ (fi_status (f i) = item_queued → fi_status i = item_queued)) as Hst.
  { intros i. destruct (job_of_claimable d c Hcl) as (_&_&_&_&_&_&Hq).
    assert (claim_f now c c = start_item now c) as ->.
    { unfold claim_f, has_key, item_is. by rewrite (bool_decide_true (fi_id c = fi_id c)), bool_decide_true. }
    unfold f, finish_f. cbv zeta.
    assert (has_key fi_id (fi_id (start_item now c)) (start_item now c) && item_is item_running (start_item now c) = true) as ->.
    { unfold has_key, item_is. by rewrite !bool_decide_true. }
    split_and!.
    - destruct (_ && queued_in _ _); by destruct result.
    - destruct (_ && queued_in _ _); by destruct result.
    - destruct (has_key _ _ i && _); destruct (_ && queued_in _ _); try done; by destruct result.
    - destruct (has_key _ _ i && _); destruct (_ && queued_in _ _); try done; by destruct result. }
  assert (∀ i, job_of_item d4 (f (claim_f now c i)) = (λ x, g (claim_g now (fb_jobId b) x)) <$> job_of_item d i) as Hjob.
  { intros i. rewrite (evolves_job_of_item _ _ _ _ _ _ He4), (evolves_job_of_item _ _ _ _ _ _ He). by destruct (job_of_item d i). }
  assert (c_items d4 = (λ i, f (claim_f now c i)) <$> c_items d) as Hitems.
  { rewrite Hi4, (ev_items _ _ _ _ _ He). by rewrite <-list_fmap_compose. }
  assert (In (br_row r) (c_batches d4)) as Hin4.
  { rewrite Hb4, Hr, <-!list_elem_of_In. apply list_elem_of_fmap. exists b3. split; [done|].
    by apply by_key_Some in Hb3 as [?%list_elem_of_In _]. }
  exists r. eexists. exists d4. split; [exact E|]. split; [|split; [|split; [by apply Hses|]]].
  - split; try done. intros i' j' Hi' Hrun Hj'. rewrite Hitems, <-list_elem_of_In, list_elem_of_fmap in Hi'.
    destruct Hi' as (i&->&Hi). rewrite list_elem_of_In in Hi.
    destruct (decide (fi_id i = fi_id c)) as [Eid|Hne].
    { rewrite (Huniq i Hi Eid) in Hrun. by destruct (Hst i) as (?&_). }
    rewrite (Hsame i Hi Hne) in Hrun, Hj'. destruct (Hst i) as (_&_&Hr1&_).
    pose proof (Hjob i) as Hji. rewrite (Hsame i Hi Hne) in Hji. rewrite Hji in Hj'.
    destruct (job_of_item d i) as [j0|] eqn:Ej0; [|done]. injection Hj' as <-.
    pose proof (cm_quiet d Hcalm i j0 Hi (Hr1 Hrun) Ej0) as Hq.
    destruct (busy_job (g _)) eqn:Eb; [|done]. apply (ev_busy _ _ _ _ _ He4), (ev_busy _ _ _ _ _ He) in Eb. congruence.
  - unfold claimable_count. rewrite Hitems.
    rewrite (count_where_fmap _ (λ i, claimable_item d4 (f (claim_f now c i))) _) by done.
    apply (count_where_lt _ _ _ c); [|done|done|].
    + intros i Hi. unfold claimable_item. rewrite Hjob. unfold item_is.
      destruct (decide (fi_id i = fi_id c)) as [Eid|Hne].
      { rewrite (Huniq i Hi Eid). destruct (Hst i) as (_&?&_). by rewrite bool_decide_false. }
      rewrite (Hsame i Hi Hne). destruct (Hst i) as (_&_&_&Hq1). rewrite andb_true_iff, bool_decide_eq_true. intros [Hq Hx].
      rewrite (bool_decide_true _ (Hq1 Hq)). destruct (job_of_item d i) as [j0|]; [|done]. simpl in *.
      rewrite !andb_true_iff in *. destruct Hx as [Hk%bool_decide_eq_true Hz].
      apply (ev_busy _ _ _ _ _ He4), (ev_busy _ _ _ _ _ He) in Hz. split; [|done]. apply bool_decide_true.
      rewrite <-Hk. by destruct (ev_job _ _ _ _ _ He4 (claim_g now (fb_jobId b) j0)) as [_ ->], (ev_job _ _ _ _ _ He j0) as [_ ->].
    + unfold claimable_item, item_is. destruct (Hst c) as (_&?&_). by rewrite bool_decide_false.
  - destruct (bo_batch d4 Hok4 _ Hin4) as (j4&Hj4'&_). unfold has_job. unfold batch_job in Hj4'. by rewrite Hj4'.
Qed.
End Round.

Lemma has_job_of_batch d b : batches_ok d → In b (c_batches d) → has_job (fb_jobId b) d = true.
Proof. intros Hok Hb. destruct (bo_batch d Hok b Hb) as (j&Hj&_). unfold has_job. unfold batch_job in Hj. by rewrite Hj. Qed.

Section Drain.
Context (apply : Z → ClaimedFileBatchItem → core_prog unit) `{Happly : !ItemApplier apply}.

(** One round of the loop: nothing is claimable and nothing happens, or an
    item is done with. *)
Lemma drain_once_spec t s : calm (rn_db s) →
  (claimable_count (rn_db s) = 0%nat ∧ drain_once apply t s = (inr (Some drained), s)) ∨
  ∃ s', drain_once apply t s = (inr None, s') ∧ calm (rn_db s') ∧
    (claimable_count (rn_db s') < claimable_count (rn_db s))%nat.
Proof using Happly.
  intros Hcalm. set (d := rn_db s). pose proof (claim_eq (t_claim t) d (cm_ok d Hcalm)) as Hclaim.
  destruct (first_by (claim_before d) (claimable_item d) (c_items d)) as [c|] eqn:Hfirst.
  2: { left. split; [apply count_where_0; by apply (first_by_None (claim_before d))|].
       unfold drain_once, try_catch, processNextFileBatchItem.
       assert (on_db (claimNextFileBatchItem (t_claim t)) s = (inr None, s)) as E.
       { unfold on_db. fold d. rewrite Hclaim. by destruct s. }
       erewrite bind_inr; [|erewrite bind_inr by exact E; reflexivity]. done. }
  right. pose proof Hfirst as [Hc Hcl]%first_by_In.
  destruct Hclaim as (b&j&r&d1&Hb&Hj&Hbusy&Ecl&Hr&_&Hi1&Hj1&Hb1&Hlf1).
  pose proof (claim_evolves _ _ _ _ _ Hi1 Hj1 Hb1) as He1.
  assert (batches_ok d1) as Hok1 by (pose proof (batch_claim_ok (t_claim t) d (cm_ok d Hcalm)) as H; by rewrite Ecl in H).
  assert (log_ok d1) as Hlog1 by (eapply log_frame_ok; [exact Hlf1|apply Hcalm]).
  pose proof Hb as [Hinb Hidb]%by_key_Some.
  assert (In (br_row r) (c_batches d1)) as Hin1.
  { rewrite Hb1, Hr, <-!list_elem_of_In. apply list_elem_of_fmap. exists b. by rewrite list_elem_of_In. }
  assert (∀ b, In b (c_batches d1) → has_session (fb_sessionId b) d1 = true) as Hses1.
  { apply (evolves_sessions d d1 _ _ _ He1); [by destruct Hlf1|apply Hcalm]. }
  set (s1 := s <| rn_db := d1 |>).
  destruct (emitProgress_returns (t_started t) (processedResult r None) s1 Hlog1 (Hses1 _ Hin1) (has_job_of_batch _ _ Hok1 Hin1))
    as (s2&Eem&Hlog2&Hsb2). simpl rn_db in Hsb2.
  destruct (Happly (t_applied t) (Claimed r (start_item (t_claim t) c)) (rn_db s2)) as (Ej3&Eb3&Ei3&Hlf3).
  destruct (apply (t_applied t) (Claimed r (start_item (t_claim t) c)) (rn_db s2)) as [res d3] eqn:Eap. simpl in Ej3, Eb3, Ei3, Hlf3.
  assert (c_jobs d3 = c_jobs d1 ∧ c_batches d3 = c_batches d1 ∧ c_items d3 = c_items d1 ∧ c_sessions d3 = c_sessions d1) as (F1&F2&F3&F4).
  { destruct Hlf3 as (->&_). rewrite Ej3, Eb3, Ei3. by rewrite Hsb2. }
  assert (batches_ok d3) as Hok3.
  { apply (other_ok d1); [done|done|rewrite F1; apply Hok1|intros b0 _; unfold batch_job; by rewrite F1|done]. }
  assert (log_ok d3) as Hlog3 by (by eapply log_frame_ok).
  assert (evolves d d3 (claim_f (t_claim t) c) (claim_g (t_claim t) (fb_jobId b)) (claim_h (t_claim t) (fb_id b) (fi_sourcePath c))) as He3.
  { destruct He1. split; try done; congruence. }
  assert (c_sessions d3 = c_sessions d) as Hs3 by (rewrite F4; by destruct Hlf1).
  assert (∀ result error, ∃ s4 r4 fs, on_db (finishFileBatchItem (fi_id c) result error (t_finished t)) (s2 <| rn_db := d3 |>) =
    (inr (r4, fs), s4) ∧ calm (rn_db s4) ∧ (claimable_count (rn_db s4) < claimable_count d)%nat ∧
    has_session (fb_sessionId (br_row r4)) (rn_db s4) = true ∧ has_job (fb_jobId (br_row r4)) (rn_db s4) = true) as Hfin.
  { intros result error. destruct (finish_round d d3 c b j (t_claim t) Hcalm Hc Hcl Hb Hj Hbusy He3 Hok3 Hlog3 Hs3 result error (t_finished t))
      as (r4&fs&d4&E&Hrest). exists (s2 <| rn_db := d3 |> <| rn_db := d4 |>), r4, fs. split; [|exact Hrest].
    unfold on_db. simpl rn_db. by rewrite E. }
  assert (∃ s4 r4 fs, processNextFileBatchItem apply t (λ b, emitProgress (t_started t) (processedResult b None)) s =
    (inr (Some (processedResult r4 fs)), s4) ∧ calm (rn_db s4) ∧ (claimable_count (rn_db s4) < claimable_count d)%nat ∧
    has_session (fb_sessionId (br_row r4)) (rn_db s4) = true ∧ has_job (fb_jobId (br_row r4)) (rn_db s4) = true) as (s4&r4&fs&Ep&Hcalm4&Hlt&Hs4&Hj4).
  { assert (on_db (claimNextFileBatchItem (t_claim t)) s = (inr (Some (Claimed r (start_item (t_claim t) c))), s1)) as E1
      by (unfold on_db; fold d; by rewrite Ecl).
    assert (on_db (apply (t_applied t) (Claimed r (start_item (t_claim t) c))) s2 = (res, s2 <| rn_db := d3 |>)) as E3
      by (unfold on_db; by rewrite Eap).
    destruct res as [e|u].
    - destruct (Hfin result_failed (Some (exn_message e))) as (s4&r4&fs&E4&H). exists s4, r4, fs. split; [|exact H].
      unfold processNextFileBatchItem. erewrite bind_inr by exact E1. cbv beta iota. cbn [cl_batch]. erewrite bind_inr by exact Eem.
      unfold try_catch. erewrite bind_inl by exact E3. cbv beta iota. simpl cl_item. simpl fi_id. by erewrite bind_inr by exact E4.
    - destruct (Hfin result_completed None) as (s4&r4&fs&E4&H). exists s4, r4, fs. split; [|exact H].
      unfold processNextFileBatchItem. erewrite bind_inr by exact E1. cbv beta iota. cbn [cl_batch]. erewrite bind_inr by exact Eem.
      unfold try_catch. erewrite bind_inr by exact E3. simpl cl_item. simpl fi_id. by erewrite bind_inr by exact E4. }
  unfold drain_once, try_catch. destruct fs as [st|].
  - destruct (emitProgress_returns (t_emitted t) (processedResult r4 (Some st)) s4 (cm_log _ Hcalm4) Hs4 Hj4) as (s5&E5&Hl5&Hsb5).
    exists s5. split; [|split; [by apply (calm_log (rn_db s4))|]].
    + erewrite bind_inr by exact Ep. simpl is_null. cbv iota. by erewrite bind_inr by exact E5.
    + replace (claimable_count (rn_db s5)) with (claimable_count (rn_db s4)); [done|].
      unfold claimable_count, claimable_item, job_of_item, batch_job. by rewrite Hsb5.
  - exists s4. split; [by erewrite bind_inr by exact Ep|done].
Qed.

Lemma drain_ends fuel clock n s : calm (rn_db s) → (claimable_count (rn_db s) < fuel)%nat →
  ∃ s', drain apply fuel (λ _, false) clock n s = (inr drained, s') ∧ calm (rn_db s') ∧ claimable_count (rn_db s') = 0%nat.
Proof using Happly.
  revert n s. induction fuel as [|fuel IH]; intros n s Hcalm Hlt; [lia|]. simpl drain.
  destruct (drain_once_spec (clock n) s Hcalm) as [[H0 E]|(s1&E&Hcalm1&Hlt1)]; erewrite bind_inr by exact E.
  - by exists s.
  - apply IH; [done|lia].
Qed.
End Drain.

Lemma recover_evolves now d : batches_ok d → ∃ f g h, evolves d (recoverInterruptedFileBatches now d).2 f g h ∧
  (∀ i, fi_status (f i) = item_running → f i = i ∧ interrupted_item d i = false) ∧
  (∀ j, jb_status (g j) ≠ job_running ∨ jb_kind j ≠ file_batch_job).
Proof.
  intros Hok. eexists (λ i, if interrupted_item d i then requeue_item now i else i),
    (λ j, if running_batch_job j then j <| jb_status := job_queued |> <| jb_updatedAt := now |> else j), _. split; [|split].
  - split; [done|done|reflexivity| | | |].
    + intros i. by destruct (interrupted_item d i).
    + intros j. by destruct (running_batch_job j).
    + intros b. cbv beta. by match goal with |- context [if ?x then _ else _] => destruct x end.
    + intros j. unfold running_batch_job. destruct (bool_decide (jb_kind j = file_batch_job) && _) eqn:E; [|done].
      intros _. apply andb_true_iff in E as [_ E%bool_decide_eq_true]. apply bool_decide_true. by right.
  - intros i. by destruct (interrupted_item d i).
  - intros j. unfold running_batch_job. destruct (decide (jb_kind j = file_batch_job)) as [->|]; [left|by right].
    rewrite (bool_decide_true (file_batch_job = file_batch_job)) by done. simpl. by case_bool_decide.
Qed.

(** A restart leaves no item running under a busy job. *)
Lemma recover_calm now d : batches_ok d → log_ok d → (∀ b, In b (c_batches d) → has_session (fb_sessionId b) d = true) →
  calm (recoverInterruptedFileBatches now d).2 ∧
  (claimable_count (recoverInterruptedFileBatches now d).2 ≤ length (c_items d))%nat.
Proof.
  intros Hok Hlog Hses. destruct (recover_evolves now d Hok) as (f&g&h&He&Hf&Hg).
  set (d' := (recoverInterruptedFileBatches now d).2) in *.
  assert (length (c_items d') = length (c_items d)) as Hlen by (rewrite (ev_items _ _ _ _ _ He); apply length_fmap).
  split.
  - split; [by apply batch_recover_ok|by apply (log_frame_ok d)|by apply (evolves_sessions d d' f g h He)|].
    intros i' j' Hi' Hrun Hj'. rewrite (ev_items _ _ _ _ _ He), <-list_elem_of_In, list_elem_of_fmap in Hi'.
    destruct Hi' as (i&->&Hi). rewrite list_elem_of_In in Hi. destruct (Hf i Hrun) as [Ei Hint].
    rewrite (evolves_job_of_item _ _ _ _ _ _ He) in Hj'. rewrite Ei in Hrun.
    destruct (job_of_item d i) as [j|] eqn:Hj; [|done]. injection Hj' as <-.
    destruct (busy_job (g j)) eqn:Eb; [exfalso|done]. apply (ev_busy _ _ _ _ _ He) in Eb.
    unfold interrupted_item, item_is in Hint. rewrite Hj, (bool_decide_true (fi_status i = _)) in Hint by done. simpl in Hint.
    unfold job_of_item in Hj. destruct (by_key fb_id _ _) as [b|] eqn:Hb; [|done]. simpl in Hj. apply by_key_Some in Hb as [Hinb Hidb].
    destruct (bo_batch d Hok b Hinb) as (j0&Hj0&Hbk). rewrite Hj in Hj0. injection Hj0 as <-.
    unfold running_batch_job in Hint. rewrite (bool_decide_true (jb_kind j = _)) in Hint by apply Hbk. simpl in Hint.
    apply bool_decide_eq_false in Hint. unfold busy_job in Eb. apply bool_decide_eq_true in Eb as [Eq|]; [|done].
    pose proof (proj1 (count_where_0 _ _) (bk_idle d b j Hbk Eq) i Hi) as H. simpl in H. unfold of_batch in H.
    rewrite Hidb, Hrun, !bool_decide_true in H; [done|by apply list_elem_of_singleton|done].
  - rewrite <-Hlen. unfold claimable_count, count_where, select. apply List.filter_length_le.
Qed.

(** C18: The runner works off every batch.  Started on any consistent database
    and not stopped, it ends with nothing left to claim, whatever the single
    items come to and whatever was running when the last run crashed, within
    as many rounds as there are items: then no batch job is queued or running
    any more. *)
Theorem start_finishes_batches (apply : Z → ClaimedFileBatchItem → core_prog unit) `{!ItemApplier apply} fuel clock now s :
  batches_ok (rn_db s) → log_ok (rn_db s) →
  (∀ b, In b (c_batches (rn_db s)) → has_session (fb_sessionId b) (rn_db s) = true) →
  (length (c_items (rn_db s)) < fuel)%nat →
  ∃ s', start apply fuel (λ _, false) clock now s = (inr drained, s') ∧ batches_ok (rn_db s') ∧
    ∀ b, In b (c_batches (rn_db s')) → ∃ j, batch_job (rn_db s') b = Some j ∧
      jb_status j ∈ [job_completed; job_failed; job_cancelled].
Proof.
  intros Hok Hlog Hses Hfuel. destruct (recover_calm now (rn_db s) Hok Hlog Hses) as [Hcalm Hle].
  unfold start. rewrite bind_modify. set (s1 := s <| rn_db := _ |>).
  destruct (drain_ends apply fuel clock 0 s1 Hcalm) as (s'&E&Hcalm'&H0); [exact (Nat.le_lt_trans _ _ _ Hle Hfuel)|].
  exists s'. split; [done|]. split; [apply Hcalm'|]. intros b Hb.
  destruct (bo_batch _ (cm_ok _ Hcalm') b Hb) as (j&Hj&Hbk). exists j. split; [done|].
  assert (busy_job j = false) as Hnb.
  { destruct (busy_job j) eqn:Eb; [exfalso|done]. pose proof (bk_busy _ _ _ Hbk Eb) as Ha.
    unfold active_count, count_items in Ha. assert (∃ i, In i (c_items (rn_db s')) ∧ of_batch (fb_id b) i &&
      bool_decide (fi_status i ∈ [item_queued; item_running]) = true) as (i&Hi&H)
      by (apply (count_where_pos (λ i, of_batch (fb_id b) i && bool_decide (fi_status i ∈ [item_queued; item_running])));
          by apply Nat.neq_0_lt_0).
    apply andb_true_iff in H as [Hbi%bool_decide_eq_true Hst%bool_decide_eq_true].
    assert (job_of_item (rn_db s') i = Some j) as Hji.
    { unfold job_of_item. rewrite Hbi, (by_key_unique fb_id) by (done || apply (cm_ok _ Hcalm')). done. }
    apply list_elem_of_In in Hst as [Hst|[Hst|[]]].
    - pose proof (proj1 (count_where_0 _ _) H0 i Hi) as Hc. unfold claimable_item, item_is in Hc.
      rewrite Hji, <-Hst, Eb, (bool_decide_true (jb_kind j = _)), bool_decide_true in Hc by (done || apply Hbk). done.
    - rewrite (cm_quiet _ Hcalm' i j Hi (eq_sym Hst) Hji) in Eb. done. }
  pose proof (bk_not_waiting _ _ _ Hbk). apply list_elem_of_In. unfold busy_job in Hnb. apply bool_decide_eq_false in Hnb.
  destruct (jb_status j); simpl; tauto.
Qed.

Definition demo_apply : Z → ClaimedFileBatchItem → core_prog unit :=
  applyClaimedItem "/data" (λ root _, inr root) (λ _ _, inl (ErrnoException "ENOENT")) (λ _, inl (ErrnoException "ENOENT"))
    (λ _ _, inr tt) (λ _ p _, inr (Applied p (fp_sourcePath p) (fp_sourcePath p) [])) (λ i, ("q", "a")).
Definition demo_clock (n : nat) : times := Times 5 5 5 5 5.

Lemma start_finishes_batches_witness : ∃ s', start demo_apply 3 (λ _, false) demo_clock 4 (Runner demo_claimed []) = (inr drained, s') ∧
  batches_ok (rn_db s').
Proof.
  destruct (start_finishes_batches demo_apply 3 demo_clock 4 (Runner demo_claimed [])) as (s'&E&Hok&_).
  - exact demo_claimed_ok.
  - split; vm_compute; repeat constructor; done.
  - intros b Hb. vm_compute in Hb. destruct Hb as [<-|[]]. by vm_compute.
  - vm_compute. lia.
  - exists s'. split; [exact E|exact Hok].
Defined.

(** ** Crashes between the disk and the database *)
Lemma record_recorded id ids approvalId operation source target status metadata now d :
  getFileOperation id d = None → opt_ref has_approval approvalId d = true →
  getFileOperation id (recordAppliedOperation id ids approvalId operation source target status metadata now d).2 =
    Some (FileOperation id approvalId operation source target status metadata now now).
Proof.
  intros Hn Ha. pose proof (record_effect id ids approvalId operation source target status metadata now d) as H. cbv zeta in H.
  destruct (recordAppliedOperation id ids approvalId operation source target status metadata now d) as [r d'].
  destruct H as [_ [(_&_&H)|[_ H]]]; [by rewrite Hn, Ha in H|]. unfold getFileOperation in *. simpl.
  rewrite H, (by_key_insert fo_id), Hn. unfold has_key. by rewrite bool_decide_true.
Qed.

Lemma bind_lift {A B} (r : exn + A) (k : A → core_prog B) d :
  (lift r ≫= k) d = match r with inl e => (inl e, d) | inr a => k a d end.
Proof. by destruct r. Qed.

(** C13: A crash does not repeat a mutation.  An item whose operation is
    already recorded is left alone.  When the crash came between the two - the
    source is gone and the target, or the trash file, is there -, the item is
    recorded as applied, with its trash entry, without validating or moving
    anything again. *)
Theorem apply_is_idempotent dataDir scopes resolve stat ids now c d root :
  let i := cl_item c in let b := br_row (cl_batch c) in
  let missing r := match r : exn + string * string with inl e => isMissingPathError e | inr _ => false end in
  (∀ v m, getFileOperation (fi_operationId i) d ≠ None →
     applyClaimedItem dataDir scopes resolve stat v m ids now c d = (inr tt, d)) ∧
  (getFileOperation (fi_operationId i) d = None → scopes (fb_rootId b) (fb_storagePoolId b) = inr root →
   root ∈ c_roots d → fi_sourcePath i ≠ "" → missing (resolve root (fi_sourcePath i)) = true →
   match fb_operation b with
   | batch_move => ∃ t rel real, fi_targetPath i = Some t ∧ t ≠ "" ∧ resolve root t = inr (rel, real)
   | batch_trash => ∃ t, fi_trashEntryId i = Some t ∧ t ≠ "" ∧
       stat (trashPathFor "" (path_join [dataDir; "trash"]) root (fi_sourcePath i) (Some t)).(tp_absoluteTrashPath) = inr tt
   end →
   ∃ d' r, (∀ v m, applyClaimedItem dataDir scopes resolve stat v m ids now c d = (r, d')) ∧
     ∃ o, getFileOperation (fi_operationId i) d' = Some o ∧ fo_status o = fo_applied ∧
       fo_sourcePath o = Some (fi_sourcePath i)).
Proof.
  intros i b missing. split.
  { intros v m Hk. unfold applyClaimedItem. rewrite bind_gets. fold i. by destruct (getFileOperation (fi_operationId i) d). }
  intros Hn Hs Hroot Hne Hmiss Hcase. set (trashRoot := path_join [dataDir; "trash"]).
  assert (∃ p am, item_proposal b i = inr p ∧ (∀ v m, item_mutation resolve stat v m root p trashRoot = inr (am, true)) ∧
    am_sourcePath am = Some (fi_sourcePath i)) as (p&am&Hp&Hm&Hsrc).
  { assert (scopedPathExists resolve root (Some (fi_sourcePath i)) = inr false) as Hse.
    { unfold scopedPathExists. rewrite bool_decide_false by done. unfold missing in Hmiss.
      destruct (resolve root (fi_sourcePath i)); [|done]. by rewrite Hmiss. }
    assert (∀ t, t ≠ "" → is_empty (Some t) = false) as He by (intros t Ht; unfold is_empty; simpl; by rewrite bool_decide_false).
    unfold item_proposal. destruct (fb_operation b).
    - destruct Hcase as (t&rel&real&->&Htne&Hrt). rewrite He by done. eexists _, _. split; [reflexivity|]. split.
      { intros v m. unfold item_mutation, recoverAppliedMutation. cbn [fp_sourcePath fp_operation fp_targetPath].
      rewrite Hse, (bool_decide_true (move = move)) by done. change (Some t ⁇ "") with t. assert (scopedPathExists resolve root (Some t) = inr true) as -> by (unfold scopedPathExists; by rewrite bool_decide_false, Hrt).
      rewrite He by done. simpl. by rewrite Hrt. }
      reflexivity.
    - destruct Hcase as (t&->&Htne&Hst). rewrite (He t Htne). eexists _, _. split; [reflexivity|]. split.
      { intros v m. unfold item_mutation, recoverAppliedMutation. cbn [fp_sourcePath fp_operation fp_targetPath fp_trashEntryId].
      rewrite Hse, (bool_decide_false (trash = move)), (bool_decide_true (trash = trash)), !He by done.
      change (Some t ⁇ "") with t. change (Some (fi_sourcePath i) ⁇ "") with (fi_sourcePath i). fold trashRoot in Hst.
      unfold trashPathFor in *. change (Some t ⁇ "") with t in *. cbn [negb orb andb snd] in *.
      unfold pathExists. rewrite Hst. reflexivity. }
      reflexivity. }
  set (pre := match fp_operation (am_proposal am), str_prop (am_metadata am) "trashEntryId", am_targetPath am with
      | trash, Some t, Some target =>
          if bool_decide (t = "") || bool_decide (target = "") then mret tt else
          entry ← gets (getTrashEntry t);
          if isSome entry then mret tt else
          _ ← createTrashEntry t root (am_sourcePath am ⁇ fi_sourcePath i) (path_join [trashRoot; target])
                (spread (am_metadata am) [("storagePoolId", JStr (fb_storagePoolId b)); ("fileBatchId", JStr (fb_id b))]) now;
          mret tt
      | _, _, _ => mret tt
      end : core_prog unit).
  set (post := recordAppliedOperation (fi_operationId i) ids None (fp_operation (am_proposal am)) (am_sourcePath am)
        (am_targetPath am) fo_applied (spread (am_metadata am)
           ([("rootId", JStr root); ("storagePoolId", JStr (fb_storagePoolId b)); ("reversible", JBool true);
             ("fileBatchId", JStr (fb_id b))] ++ [("recovered", JBool true)])) now).
  set (body := pre ≫= λ _, post ≫= λ _, mret tt).
  assert (∀ v m, applyClaimedItem dataDir scopes resolve stat v m ids now c d = body d) as Hall.
  { intros v m. unfold applyClaimedItem. rewrite bind_gets. fold i b. rewrite Hn.
    change (isSome (@None FileOperationRecord)) with false. cbv iota.
    rewrite bind_lift, Hs. cbv beta iota zeta. rewrite bind_lift, Hp. cbv beta iota zeta.
    rewrite bind_lift. fold trashRoot. rewrite Hm. reflexivity. }
  assert (∃ d1, pre d = (inr tt, d1) ∧ c_file_operations d1 = c_file_operations d) as (d1&Hpre&Hf1).
  { unfold pre. destruct (fp_operation (am_proposal am)); eauto. destruct (str_prop _ _) as [t|]; [|by eauto].
    destruct (am_targetPath am) as [target|]; [|by eauto]. destruct (_ || _); [by eauto|]. rewrite bind_gets.
    destruct (getTrashEntry t d) as [e|] eqn:Et; [by eauto|]. simpl isSome. cbv iota.
    unfold createTrashEntry, checked_insert, mbind, prog_bind. unfold getTrashEntry in Et. simpl. rewrite Et. simpl.
    rewrite bool_decide_true by done. simpl. by eauto. }
  exists (body d).2, (body d).1. split; [intros v m; rewrite Hall; by destruct (body d)|].
  assert (getFileOperation (fi_operationId i) d1 = None) as Hn1 by (unfold getFileOperation; by rewrite Hf1).
  pose proof (record_recorded (fi_operationId i) ids None (fp_operation (am_proposal am)) (am_sourcePath am) (am_targetPath am)
    fo_applied (spread (am_metadata am) ([("rootId", JStr root); ("storagePoolId", JStr (fb_storagePoolId b)); ("reversible", JBool true);
             ("fileBatchId", JStr (fb_id b))] ++ [("recovered", JBool true)])) now d1 Hn1 eq_refl) as H. fold post in H.
  eexists. split.
  { etrans; [|exact H]. unfold body. erewrite bind_inr by exact Hpre. unfold mbind, prog_bind. by destruct (post d1) as [[?|?] ?]. }
  by split.
Qed.

Definition demo_claim : ClaimedFileBatchItem := Claimed (FileBatch
  (FileBatchRow "b" "j" "s" "r" "p" batch_move None 1 0 0 0 0 None 0 0 None) job_running None [])
  (FileBatchItem "i" "b" 0 "a" (Some "x/a") None "o" item_running None 0 0).
Definition demo_resolve (root path : string) : exn + string * string :=
  if bool_decide (path = "x/a") then inr ("x/a", "/r/x/a") else inl (ErrnoException "ENOENT").

Lemma apply_is_idempotent_witness : ∃ d' r, (∀ v m,
    applyClaimedItem "/data" (λ root _, inr root) demo_resolve (λ _, inl (ErrnoException "ENOENT")) v m
      (λ i, ("q", "a")) 1 demo_claim (empty_core ["r"]) = (r, d')) ∧
  ∃ o, getFileOperation "o" d' = Some o ∧ fo_status o = fo_applied ∧ fo_sourcePath o = Some "a".
Proof.
  refine (proj2 (apply_is_idempotent "/data" (λ root _, inr root) demo_resolve (λ _, inl (ErrnoException "ENOENT"))
    (λ i, ("q", "a")) 1 demo_claim (empty_core ["r"]) "r") eq_refl eq_refl _ _ eq_refl _).
  - by apply list_elem_of_singleton.
  - done.
  - exists "x/a", "x/a", "/r/x/a". done.
Defined.
