(* ===== verification/ApprovalRoutes.v ===== *)
(** * Approving and rejecting

    apps/api/src/routes/approvals.ts: the handlers of
    POST /api/approvals/:id/approve and .../reject for the six kinds of
    approvals, and POST /api/jobs/:id/cancel of apps/api/src/routes/jobs.ts.

    What an approval starts is outside the database and a parameter: the
    docker, share, storage and vm operations and the mutation of a file, with
    the redaction of their error messages.  A handler is cut where it awaits:
    [approve_begin] is what runs before, in one go, and says what is to be
    applied; [finish_operation] and [apply_files] run after.  [approve] is
    their composition.  [new Date()] is one argument [now] per segment. *)
From S2P Require Import Confinement Mutations StorageScope.
From S2P Require Import Prelude Sql Json JsString Http IndexQueue CoreDb Jobs Operations FileBatches FileBatchRunner.
Open Scope Z_scope.

(** ** Bodies *)
Definition operation_status_text (s : operation_status) : string :=
  match s with op_proposed => "proposed" | op_approved => "approved" | op_applied => "applied" | op_failed => "failed" end.
Definition approval_status_text (s : ApprovalStatus) : string :=
  match s with
  | ap_pending => "pending" | ap_approved => "approved" | ap_rejected => "rejected"
  | ap_expired => "expired" | ap_applied => "applied" | ap_failed => "failed"
  end.
Definition operation_json (r : operation_record) : json :=
  JObj ([("id", JStr (or_id r)); ("approvalId", nullable (or_approvalId r)); ("action", JStr (or_action r))] ++
        match or_targetType r with Some t => [("targetType", JStr t)] | None => [] end ++
        [("targetId", JStr (or_targetId r)); ("status", JStr (operation_status_text (or_status r)));
         ("metadata", JObj (or_metadata r)); ("createdAt", int (or_createdAt r)); ("updatedAt", int (or_updatedAt r))]).
Definition file_operation_json (o : FileOperationRecord) : json :=
  JObj [("id", JStr (fo_id o)); ("approvalId", nullable (fo_approvalId o)); ("operation", JStr (mutation_text (fo_operation o)));
        ("sourcePath", nullable (fo_sourcePath o)); ("targetPath", nullable (fo_targetPath o)); ("status", JStr "applied");
        ("metadata", JObj (fo_metadata o)); ("createdAt", int (fo_createdAt o)); ("updatedAt", int (fo_updatedAt o))].

Definition run_db {A} (f : core_db → A * core_db) : core_prog A := λ d, let '(a, d') := f d in (inr a, d').

(** ** The kinds of operations *)
(** [k_key]: the property of the completion event that holds the operation;
    [k_public]: what of the operation is shown; [k_fail_ids]: the failure event
    names the job and the approval; [k_console]: an approved console is opened
    by a later request. *)
Record op_handler := OpHandler {
  k_kind : PendingApprovalKind; k_table : op_table; k_name : string; k_key : string;
  k_public : operation_record → json; k_fail_ids : bool; k_console : bool;
  k_accepts : option json → bool;
  (** The operation, with the await of its handler. *)
  k_apply : operation_record → list (string * json) → exn + list (string * json);
  (** The message of a failure that may be shown. *)
  k_safe : exn → string }.

Definition any_action (v : option json) : bool := is_string v.
Definition the_action (s : string) (v : option json) : bool := is_str v s.

(** [dockerOperationProposal] and its like: the first proposal, if it is an
    object with an accepted action. *)
Definition operation_proposal (k : op_handler) (a : PendingApprovalRecord) : option (list (string * json)) :=
  if bool_decide (pa_kind a ≠ k_kind k) then None else
  match pa_proposal a with
  | JObj ps :: _ => if hasOwn ps "action" && k_accepts k (prop ps "action") then Some ps else None
  | _ => None
  end.

(** Where [approve_begin] leaves off. *)
Inductive begun :=
| Replied (r : reply json)
| StartOperation (k : op_handler) (a : PendingApprovalRecord) (op : operation_record) (p : list (string * json))
| StartFiles (a : PendingApprovalRecord) (ps : list (list (string * json))).

Definition already (a : PendingApprovalRecord) : reply json :=
  send_error 409 ("Approval is already " +:+ approval_status_text (pa_status a)).
Definition decided (a : PendingApprovalRecord) (s : string) (more : list (string * json)) : reply json :=
  send_status 202 (JObj ([("approvalId", JStr (pa_id a)); ("status", JStr s)] ++ more)).
Definition public_operation (k : op_handler) (o : option operation_record) : json := from_option (k_public k) JNull o.

Definition begin_operation (k : op_handler) (a : PendingApprovalRecord) (now : Z) : core_prog begun :=
  operation ← gets (getOperationByApproval (k_table k) (pa_id a));
  match operation, operation_proposal k a with
  | Some op, Some p =>
      ok ← run_db (updateApprovalStatus (pa_id a) ap_approved [ap_pending] now);
      if negb ok then mret (Replied (already a)) else
      if k_console k && is_str (prop p "action") "console" then
        approved ← run_db (updateOperationStatus (k_table k) (or_id op) op_approved [("approvedAt", int now)] now);
        mret (Replied (decided a "approved" [("operation", public_operation k approved)]))
      else mret (StartOperation k a op p)
  | _, _ => mret (Replied (send_error 400 (k_name k +:+ " approval is missing operation metadata")))
  end.

Definition isFileOperationProposal (p : json) : option (list (string * json)) :=
  match p with
  | JObj ps => if is_string (prop ps "operation") && is_string (prop ps "rootId") then Some ps else None
  | _ => None
  end.
Definition fileOperationProposals (a : PendingApprovalRecord) : list (list (string * json)) :=
  if bool_decide (pa_kind a = file_operation) then omap isFileOperationProposal (pa_proposal a) else [].

(** The four kinds.  What applies an operation - docker, systemd and samba,
    the host daemon, libvirt - and the masking of secrets in its error are
    parameters. *)
Section Kinds.
Context (apply : operation_record → list (string * json) → exn + list (string * json)) (safe : exn → string).
Definition docker_ops : op_handler :=
  OpHandler docker_operation docker_table "Docker" "dockerOperation" operation_json false true any_action apply safe.
Definition toPublicShareOperation (r : operation_record) : json :=
  operation_json (r <| or_metadata := [("proposal", prop (or_metadata r) "proposal" ⁇ JNull)] |>).
Definition share_ops : op_handler :=
  OpHandler share_operation share_table "Share" "shareOperation" toPublicShareOperation false false
    (the_action "apply_settings") apply safe.
Definition storage_ops : op_handler :=
  OpHandler storage_operation storage_table "Storage" "storageOperation" operation_json false false
    (the_action "create_pool") apply safe.
Definition vm_ops : op_handler :=
  OpHandler vm_operation vm_table "VM" "vmOperation" operation_json true true any_action apply safe.
End Kinds.

Section Approve.
Context (docker_apply share_apply storage_apply vm_apply :
  operation_record → list (string * json) → exn + list (string * json)).
Context (docker_safe share_safe storage_safe vm_safe : exn → string).
Definition kind_ops (k : PendingApprovalKind) : option op_handler :=
  match k with
  | docker_operation => Some (docker_ops docker_apply docker_safe)
  | share_operation => Some (share_ops share_apply share_safe)
  | storage_operation => Some (storage_ops storage_apply storage_safe)
  | vm_operation => Some (vm_ops vm_apply vm_safe)
  | file_operation | pi_tool_call => None
  end.

Definition approve_begin (id : string) (now : Z) : core_prog begun :=
  approval ← gets (getApproval id);
  match approval with
  | None => mret (Replied (send_error 404 "Approval not found"))
  | Some a =>
      match kind_ops (pa_kind a) with
      | Some k => begin_operation k a now
      | None =>
          ok ← run_db (updateApprovalStatus (pa_id a) ap_approved [ap_pending] now);
          mret (if negb ok then Replied (already a)
                else if bool_decide (pa_kind a = pi_tool_call) then Replied (decided a "approved" [])
                else StartFiles a (fileOperationProposals a))
      end
  end.

(** After the await of an operation that came to [r]. *)
Definition finish_operation (k : op_handler) (a : PendingApprovalRecord) (op : operation_record)
    (r : exn + list (string * json)) (now : Z) : core_prog (reply json) :=
  try_catch
    (metadata ← lift r;
     applied ← run_db (updateOperationStatus (k_table k) (or_id op) op_applied (spread metadata [("appliedAt", int now)]) now);
     _ ← run_db (updateApprovalStatus (pa_id a) ap_applied [ap_approved] now);
     _ ← run_db (updateJobStatus (pa_jobId a) job_completed None [job_waiting_approval] now);
     _ ← appendEvent (pa_sessionId a) (Some (pa_jobId a)) ev_job_completed
           (JObj [("jobId", JStr (pa_jobId a)); ("approvalId", JStr (pa_id a)); (k_key k, public_operation k applied)]) now;
     mret (decided a "applied" [("operation", public_operation k applied)]))
    (λ e,
     let message := k_safe k e in
     _ ← run_db (updateOperationStatus (k_table k) (or_id op) op_failed [("error", JStr message); ("failedAt", int now)] now);
     _ ← run_db (updateApprovalStatus (pa_id a) ap_failed [ap_approved] now);
     _ ← run_db (updateJobStatus (pa_jobId a) job_failed (Some message) [job_waiting_approval] now);
     _ ← appendEvent (pa_sessionId a) (Some (pa_jobId a)) ev_job_failed
           (JObj ((if k_fail_ids k then [("jobId", JStr (pa_jobId a)); ("approvalId", JStr (pa_id a))] else []) ++
                  [("error", JStr message)])) now;
     mret (send_error 400 message)).

(** ** File operations *)
(** [resolveStoragePoolScope] and [validateStoragePoolProposal] of a root, a
    pool and a proposal; [applyFileMutation] below a root; the photo library's
    refresh, told whether it is needed. *)
Context (validate : string → string → list (string * json) → exn + unit).
Context (applyFileMutation : string → list (string * json) → string → exn + AppliedMutation).
Context (enqueuePhotostaffRefreshIfNeeded : PendingApprovalRecord → exn + unit).
Context (dataDir : string).

(** The UUIDs one proposal draws: its operation's, and those of its index
    tasks and alerts. *)
Record file_ids := FileIds { fid_operation : string; fid_index : nat → string * string }.

Definition pool_metadata (p : list (string * json)) : list (string * json) :=
  match str_prop p "storagePoolId" with
  | Some s => if bool_decide (s = "") then [] else [("storagePoolId", JStr s)]
  | None => []
  end.

Definition apply_file (ids : file_ids) (a : PendingApprovalRecord) (p : list (string * json)) (now : Z)
    : core_prog FileOperationRecord :=
  let rootId := str_prop p "rootId" ⁇ "" in
  roots ← gets c_roots;
  _ ← guard_throw (negb (bool_decide (rootId ∈ roots))) (Error ("NAS root " +:+ rootId +:+ " is not configured"));
  _ ← match prop p "storagePoolId" with
      | None => mret tt
      | Some v =>
          let s := as_string (Some v) ⁇ "" in
          _ ← guard_throw (bool_decide (trim s = "")) (StorageScopeError "Storage pool selection is invalid" 400);
          lift (validate rootId s p)
      end;
  result ← lift (applyFileMutation rootId p (path_join [dataDir; "trash"]));
  _ ← match fp_operation (am_proposal result), str_prop (am_metadata result) "trashEntryId", am_targetPath result with
      | trash, Some t, Some target =>
          if bool_decide (t = "") || bool_decide (target = "") then mret tt else
          _ ← createTrashEntry t rootId (coalesce (am_sourcePath result) (str_prop p "sourcePath") ⁇ ".")
                (path_join [dataDir; "trash"; target]) (spread (am_metadata result) (pool_metadata p)) now;
          mret tt
      | _, _, _ => mret tt
      end;
  recordAppliedOperation (fid_operation ids) (fid_index ids) (Some (pa_id a)) (fp_operation (am_proposal result))
    (am_sourcePath result) (am_targetPath result) fo_applied
    (spread (am_metadata result) ([("rootId", JStr rootId)] ++ pool_metadata p ++
       match prop p "reversible" with Some v => [("reversible", v)] | None => [] end)) now.

(** The loop: it stops at the first error, and keeps what it applied. *)
Fixpoint apply_files (ids : nat → file_ids) (a : PendingApprovalRecord) (now : Z) (i : nat)
    (ps : list (list (string * json))) (applied : list FileOperationRecord)
    : core_prog (option exn * list FileOperationRecord) := λ d,
  match ps with
  | [] => (inr (None, applied), d)
  | p :: ps =>
      match apply_file (ids i) a p now d with
      | (inl e, d') => (inr (Some e, applied), d')
      | (inr o, d') => apply_files ids a now (S i) ps (applied ++ [o]) d'
      end
  end.

Definition getErrorStatusCode (e : exn) (fallback : Z) : Z :=
  match exn_status e with
  | Some n => if bool_decide (400 ≤ n < 500) || bool_decide (n = 503) then n else fallback
  | None => fallback
  end.

(** After the loop: it failed with an error, or applied everything. *)
Definition settle_files (a : PendingApprovalRecord) (r : option exn * list FileOperationRecord) (now : Z)
    : core_prog (reply json) :=
  match r with
  | (Some e, applied) =>
      let message := exn_message e in
      _ ← (if bool_decide (applied = []) then mret tt else lift (enqueuePhotostaffRefreshIfNeeded a));
      _ ← run_db (updateApprovalStatus (pa_id a) ap_failed [ap_approved] now);
      _ ← run_db (updateJobStatus (pa_jobId a) job_failed (Some message) [job_waiting_approval] now);
      _ ← appendEvent (pa_sessionId a) (Some (pa_jobId a)) ev_job_failed (JObj [("error", JStr message)]) now;
      mret (send_error (getErrorStatusCode e 400) message)
  | (None, applied) =>
      _ ← run_db (updateApprovalStatus (pa_id a) ap_applied [ap_approved] now);
      _ ← lift (enqueuePhotostaffRefreshIfNeeded a);
      _ ← run_db (updateJobStatus (pa_jobId a) job_completed None [job_waiting_approval] now);
      let operations := JArr (file_operation_json <$> applied) in
      _ ← appendEvent (pa_sessionId a) (Some (pa_jobId a)) ev_job_completed
            (JObj [("jobId", JStr (pa_jobId a)); ("approvalId", JStr (pa_id a)); ("applied", operations)]) now;
      mret (decided a "applied" [("operations", operations)])
  end.

Definition finish_files (ids : nat → file_ids) (a : PendingApprovalRecord) (ps : list (list (string * json))) (now : Z)
    : core_prog (reply json) :=
  r ← apply_files ids a now 0 ps [];
  settle_files a r now.

Definition approve (ids : nat → file_ids) (id : string) (now now' : Z) : core_prog (reply json) :=
  r ← approve_begin id now;
  match r with
  | Replied r => mret r
  | StartOperation k a op p => finish_operation k a op (k_apply k op p) now'
  | StartFiles a ps => finish_files ids a ps now'
  end.

(** ** Reject *)
Definition reject_operation (k : op_handler) (a : PendingApprovalRecord) (now : Z) : core_prog unit :=
  operation ← gets (getOperationByApproval (k_table k) (pa_id a));
  match operation with
  | Some op =>
      _ ← run_db (updateOperationStatus (k_table k) (or_id op) op_failed
            [("rejected", JBool true); ("rejectedAt", int now)] now);
      mret tt
  | None => mret tt
  end.

Definition reject (id : string) (now : Z) : core_prog (reply json) :=
  approval ← gets (getApproval id);
  match approval with
  | None => mret (send_error 404 "Approval not found")
  | Some a =>
      ok ← run_db (updateApprovalStatus (pa_id a) ap_rejected [ap_pending] now);
      if negb ok then mret (already a) else
      if bool_decide (pa_kind a = pi_tool_call) then mret (decided a "rejected" []) else
      _ ← match kind_ops (pa_kind a) with Some k => reject_operation k a now | None => mret tt end;
      _ ← run_db (updateJobStatus (pa_jobId a) job_completed None [job_waiting_approval] now);
      _ ← appendEvent (pa_sessionId a) (Some (pa_jobId a)) ev_job_completed
            (JObj [("jobId", JStr (pa_jobId a)); ("approvalId", JStr (pa_id a)); ("rejected", JBool true)]) now;
      mret (decided a "rejected" [])
  end.
End Approve.

(** ** routes/jobs.ts *)
Definition cancel_job (id : string) (now : Z) : core_prog (reply json) :=
  job ← gets (getJob id);
  match job with
  | None => mret (send_error 404 "Job not found")
  | Some job =>
      if bool_decide (jb_status job = job_cancelled) then mret (send (JObj [("status", JStr "cancelled")])) else
      ok ← run_db (updateJobStatus id job_cancelled None [job_queued; job_running; job_waiting_approval] now);
      if negb ok then
        mret (Reply 409 (Sent (JObj [("error", JStr ("Job is already " +:+ status_text (jb_status job)));
                                     ("status", JStr (status_text (jb_status job)))])))
      else
      _ ← (if bool_decide (jb_kind job = file_batch_job) then cancelQueuedFileBatchItems id now else mret None);
      _ ← appendEvent (jb_sessionId job) (Some id) ev_job_cancelled (JObj [("jobId", JStr id)]) now;
      mret (send_status 202 (JObj [("status", JStr "cancelled")]))
  end.
Lemma updateApprovalStatus_frame id s from now d : let r := updateApprovalStatus id s from now d in
  r.1 = isSome (get_row (approval_guard id from) (c_approvals d)) ∧
  c_approvals r.2 = update_where (approval_guard id from) (set_approval_status s now) (c_approvals d) ∧
  c_jobs r.2 = c_jobs d ∧ c_events r.2 = c_events d ∧ c_event_seq r.2 = c_event_seq d ∧
  c_transcript r.2 = c_transcript d ∧ c_transcript_seq r.2 = c_transcript_seq d ∧ c_sessions r.2 = c_sessions d ∧
  c_messages r.2 = c_messages d ∧
  c_docker_operations r.2 = c_docker_operations d ∧ c_share_operations r.2 = c_share_operations d ∧
  c_storage_operations r.2 = c_storage_operations d ∧ c_vm_operations r.2 = c_vm_operations d.
Proof.
  unfold updateApprovalStatus, returning. cbv zeta. destruct (get_row _ _) eqn:E; simpl; [done|].
  by rewrite update_where_none.
Qed.

Lemma run_db_eq {A B} (f : core_db → A * core_db) (k : A → core_prog B) d :
  (run_db f ≫= k) d = k (f d).1 (f d).2.
Proof. unfold mbind, prog_bind, run_db. by destruct (f d). Qed.

(** ** Settling an operation, its approval and its job *)
Definition op_tables (d : core_db) : list (list operation_record) :=
  [c_docker_operations d; c_share_operations d; c_storage_operations d; c_vm_operations d].
(** What an event needs. *)
Definition log_part (d : core_db) :=
  (c_sessions d, c_messages d, c_events d, c_event_seq d, c_transcript d, c_transcript_seq d).

Lemma log_part_ok d d' : log_part d' = log_part d → log_ok d → log_ok d'.
Proof. intros [= E1 E2 E3 E4 E5 E6] [H1 H2 H3 H4]. constructor; by rewrite ?E3, ?E4, ?E5, ?E6. Qed.

Lemma updateJobStatus_keeps id s e from now d : s ≠ job_cancelled → let r := updateJobStatus id s e from now d in
  c_approvals r.2 = c_approvals d ∧ op_tables r.2 = op_tables d ∧ log_part r.2 = log_part d.
Proof.
  intros Hs. unfold updateJobStatus. cbv zeta. case_bool_decide; simpl negb; cbv iota; [|by destruct d].
  rewrite (bool_decide_false (s = job_cancelled)) by done. by destruct (notificationStatusForJob s).
Qed.

Lemma updateJobStatus_approvals id s e from now d : let r := updateJobStatus id s e from now d in
  c_approvals r.2 = if r.1 && bool_decide (s = job_cancelled)
    then update_where (pending_of id) (expire_approval now) (c_approvals d) else c_approvals d.
Proof.
  unfold updateJobStatus. cbv zeta. case_bool_decide; simpl negb; cbv iota; [|by destruct d]. simpl.
  destruct (bool_decide (s = job_cancelled)), (notificationStatusForJob s); done.
Qed.

Lemma updateApprovalStatus_keeps id s from now d : let r := updateApprovalStatus id s from now d in
  op_tables r.2 = op_tables d ∧ log_part r.2 = log_part d.
Proof. unfold updateApprovalStatus. by destruct (returning _ _ _). Qed.

Lemma update_approval id s from now d a : unique_keys ar_id (c_approvals d) → by_key ar_id id (c_approvals d) = Some a →
  ar_status a ∈ from → let r := updateApprovalStatus id s from now d in
  r.1 = true ∧ by_key ar_id id (c_approvals r.2) = Some (set_approval_status s now a) ∧ unique_keys ar_id (c_approvals r.2).
Proof.
  intros Hu Ha Hs. destruct (updateApprovalStatus_frame id s from now d) as (E1&E2&_). cbv zeta. rewrite E1, E2.
  pose proof Ha as [Hin Hid]%by_key_Some.
  assert (approval_guard id from a = true) as Hg.
  { unfold approval_guard, has_key. rewrite bool_decide_true by done. destruct from; [done|]. by apply bool_decide_true. }
  split; [|split].
  - apply isSome_true. by apply (get_row_is_Some _ _ a).
  - rewrite by_key_update by done. rewrite Ha. simpl. by rewrite Hg.
  - by apply unique_keys_update.
Qed.

Lemma update_job id s e from now d j : unique_keys jb_id (c_jobs d) → getJob id d = Some j → jb_status j ∈ from →
  getJob id (updateJobStatus id s e from now d).2 = Some (set_job_status s e now j).
Proof.
  intros Hu Hj Hs. destruct (updateJobStatus_frame id s e from now d) as (_&E&_). unfold getJob in *. rewrite E.
  pose proof Hj as [_ Hid]%by_key_Some. rewrite by_key_update by done. rewrite Hj. simpl.
  unfold job_guard, has_key. rewrite bool_decide_true by done. destruct from; [done|]. by rewrite bool_decide_true.
Qed.

Definition known_table (T : op_table) : Prop :=
  T = docker_table ∨ T = share_table ∨ T = storage_table ∨ T = vm_table.

Lemma known_rows T d d' : known_table T → op_tables d' = op_tables d → op_rows T d' = op_rows T d.
Proof. intros HT [= E1 E2 E3 E4]. by destruct HT as [->|[->|[->| ->]]]. Qed.

(** The operation with its new status. *)
Definition op_settled (op : operation_record) (s : operation_status) (m : list (string * json)) (now : Z) : operation_record :=
  op <| or_status := s |> <| or_metadata := spread (or_metadata op) m |> <| or_updatedAt := now |>.

Lemma updateOperationStatus_eq T op s m now d : known_table T → getOperation T (or_id op) d = Some op →
  let r := updateOperationStatus T (or_id op) s m now d in
  r.1 = Some (op_settled op s m now) ∧ getOperation T (or_id op) r.2 = Some (op_settled op s m now) ∧
  c_approvals r.2 = c_approvals d ∧ c_jobs r.2 = c_jobs d ∧ log_part r.2 = log_part d.
Proof.
  intros HT Hop. unfold updateOperationStatus. rewrite Hop. simpl.
  assert (op_rows T (op_put T (update_where (has_key or_id (or_id op))
    (λ r, op_settled r s m now <| or_metadata := spread (or_metadata op) m |>) (op_rows T d)) d) =
    update_where (has_key or_id (or_id op)) (λ r, op_settled r s m now <| or_metadata := spread (or_metadata op) m |>)
      (op_rows T d)) as Hput by (by destruct HT as [->|[->|[->| ->]]]).
  unfold getOperation in *. split; [|split; [|by destruct HT as [->|[->|[->| ->]]]]].
  - unfold returning. unfold by_key in Hop. by rewrite Hop.
  - unfold op_settled in Hput. simpl in Hput. rewrite Hput. rewrite by_key_update by done. rewrite Hop. simpl.
    unfold has_key. by rewrite bool_decide_true.
Qed.

(** Everything an approved operation needs to be settled. *)
Record approved_operation (T : op_table) (a : PendingApprovalRecord) (op : operation_record) (row : approval_row)
    (j : JobRecord) (d : core_db) : Prop := ApprovedOperation {
  ao_table : known_table T;
  ao_operation : getOperation T (or_id op) d = Some op;
  ao_approvals : unique_keys ar_id (c_approvals d);
  ao_approval : by_key ar_id (pa_id a) (c_approvals d) = Some row;
  ao_approved : ar_status row = ap_approved;
  ao_jobs : unique_keys jb_id (c_jobs d);
  ao_job : getJob (pa_jobId a) d = Some j;
  ao_session : has_session (pa_sessionId a) d = true;
  ao_log : log_ok d }.

(** A job that still waits for the approval is settled; another, that was
    cancelled meanwhile, stays as it is. *)
Definition job_after (s : JobStatus) (err : option string) (now : Z) (j : JobRecord) : JobRecord :=
  if bool_decide (jb_status j = job_waiting_approval) then set_job_status s err now j else j.
(** The operation and its approval have a new status, and so has its job if it
    waits; the log has the event. *)
Definition all_settled (T : op_table) (a : PendingApprovalRecord) (op' : operation_record) (row : approval_row) (j : JobRecord)
    (as_ : ApprovalStatus) (js : JobStatus) (err : option string) (ev : AgentEventType) (payload : json) (now : Z)
    (d d' : core_db) : Prop :=
  getOperation T (or_id op') d' = Some op' ∧
  by_key ar_id (pa_id a) (c_approvals d') = Some (set_approval_status as_ now row) ∧
  getJob (pa_jobId a) d' = Some (job_after js err now j) ∧
  ∃ n, c_events d' = c_events d ++ [EventRow n (pa_sessionId a) (Some (pa_jobId a)) ev payload now].

Lemma update_job_after id s e now d j : unique_keys jb_id (c_jobs d) → getJob id d = Some j →
  getJob id (updateJobStatus id s e [job_waiting_approval] now d).2 = Some (job_after s e now j).
Proof.
  intros Hu Hj. unfold job_after. case_bool_decide as Hs; [by apply update_job; [..|rewrite Hs; left]|].
  destruct (updateJobStatus_frame id s e [job_waiting_approval] now d) as (_&E&_). unfold getJob in *. rewrite E.
  rewrite by_key_update by done. rewrite Hj. simpl. unfold job_guard. rewrite (bool_decide_false (jb_status j ∈ _)); [by rewrite andb_false_r|].
  by rewrite list_elem_of_singleton.
Qed.
Lemma settle_operation T a op row j d os m as_ js err ev now (pl : option operation_record → json)
    (R : option operation_record → reply json) :
  approved_operation T a op row j d → js ≠ job_cancelled →
  let op' := op_settled op os m now in
  ∃ d', (x ← run_db (updateOperationStatus T (or_id op) os m now);
         _ ← run_db (updateApprovalStatus (pa_id a) as_ [ap_approved] now);
         _ ← run_db (updateJobStatus (pa_jobId a) js err [job_waiting_approval] now);
         _ ← appendEvent (pa_sessionId a) (Some (pa_jobId a)) ev (pl x) now;
         mret (R x)) d = (inr (R (Some op')), d') ∧
    all_settled T a op' row j as_ js err ev (pl (Some op')) now d d'.
Proof.
  intros [HT Hop Hua Ha Has Huj Hj Hse Hlog] Hjc op'.
  destruct (updateOperationStatus_eq T op os m now d HT Hop) as (E1&Eop&Ea1&Ej1&El1).
  rewrite run_db_eq, E1. set (d1 := (updateOperationStatus T (or_id op) os m now d).2) in *. clearbody d1.
  rewrite <-Ea1 in Hua, Ha. rewrite run_db_eq.
  destruct (update_approval (pa_id a) as_ [ap_approved] now d1 row) as (_&Ea2&_); [done|done|by rewrite Has; left|].
  destruct (updateApprovalStatus_frame (pa_id a) as_ [ap_approved] now d1) as (_&_&Ej2&_).
  destruct (updateApprovalStatus_keeps (pa_id a) as_ [ap_approved] now d1) as [Et2 El2]. cbv zeta in Ea2, Ej2, Et2, El2.
  set (d2 := (updateApprovalStatus (pa_id a) as_ [ap_approved] now d1).2) in *. clearbody d2. rewrite run_db_eq.
  assert (getJob (pa_jobId a) d2 = Some j) as Hj2 by (unfold getJob in *; by rewrite Ej2, Ej1).
  assert (unique_keys jb_id (c_jobs d2)) as Huj2 by (by rewrite Ej2, Ej1).
  pose proof (update_job_after (pa_jobId a) js err now d2 j Huj2 Hj2) as Hj3.
  destruct (updateJobStatus_keeps (pa_jobId a) js err [job_waiting_approval] now d2 Hjc) as (Ea3&Et3&El3).
  cbv zeta in Ea3, Et3, El3. set (d3 := (updateJobStatus (pa_jobId a) js err [job_waiting_approval] now d2).2) in *.
  clearbody d3.
  assert (log_part d3 = log_part d) as El by congruence.
  destruct (appendEvent_logs (pa_sessionId a) (Some (pa_jobId a)) ev (pl (Some op')) now d3) as (r&d'&Ee&_&Hsame&Hev).
  { by apply (log_part_ok d). }
  { injection El as Es. unfold has_session. by rewrite Es. }
  { unfold opt_ref, has_job. unfold getJob in Hj3. by rewrite Hj3. }
  exists d'. split; [by erewrite bind_inr by exact Ee|]. unfold all_settled. rewrite Hev.
  injection El as _ _ Eev _ _ _. rewrite Eev. split; [|split; [|split; [|eauto]]]; rewrite Hsame; simpl.
  - unfold getOperation in *.
    transitivity (by_key or_id (or_id op) (op_rows T d3)); [by apply f_equal, known_rows|].
    rewrite (known_rows T d2 d3), (known_rows T d1 d2); done.
  - by rewrite Ea3.
  - done.
Qed.

(** Cancelling the items of a batch leaves the log alone. *)
Lemma cancelQueued_log id now d : log_frame d (cancelQueuedFileBatchItems id now d).2.
Proof.
  cut (keeps (log_frame d) (cancelQueuedFileBatchItems id now)); [intros H; by apply H|].
  unfold cancelQueuedFileBatchItems, getRequiredFileBatch. apply keeps_transaction. keeps_all;
    try apply keeps_when; by apply keeps_modify.
Qed.

Lemma cancelQueued_approvals id now d : c_approvals (cancelQueuedFileBatchItems id now d).2 = c_approvals d.
Proof.
  cut (keeps (λ d', c_approvals d' = c_approvals d) (cancelQueuedFileBatchItems id now)); [intros H; by apply H|].
  unfold cancelQueuedFileBatchItems, getRequiredFileBatch. apply keeps_transaction. keeps_all;
    try apply keeps_when; by apply keeps_modify.
Qed.

(** The request of [cancel_job] that goes through. *)
Record cancelled_job (id : string) (j : JobRecord) (now : Z) (d d' : core_db) : Prop := CancelledJob {
  cj_job : getJob id d' = Some (set_job_status job_cancelled None now j);
  cj_others : ∀ k, k ≠ id → getJob k d' = getJob k d;
  cj_approvals : c_approvals d' = update_where (pending_of id) (expire_approval now) (c_approvals d);
  cj_items : ∀ b, jb_kind j = file_batch_job → get_row (λ b, bool_decide (fb_jobId b = id)) (c_batches d) = Some b →
    ∀ i, In i (c_items d') → fi_batchId i = fb_id b → fi_status i ≠ item_queued;
  cj_event : ∃ n, c_events d' =
    c_events d ++ [EventRow n (jb_sessionId j) (Some id) ev_job_cancelled (JObj [("jobId", JStr id)]) now] }.

(** Cancelling a job.  An unknown job is 404, a cancelled one 200 and a
    finished one 409, all without a change; any other job is cancelled, no
    approval of it stays pending - so that none can be approved later - and
    no item of its file batch stays queued, while other jobs and the other
    approvals are as before. *)
Theorem cancel_job_spec id now d :
  unique_keys jb_id (c_jobs d) → unique_keys fb_id (c_batches d) → log_ok d →
  (∀ j, getJob id d = Some j → has_session (jb_sessionId j) d = true) →
  match getJob id d with
  | None => cancel_job id now d = (inr (send_error 404 "Job not found"), d)
  | Some j =>
      if bool_decide (jb_status j = job_cancelled)
      then cancel_job id now d = (inr (send (JObj [("status", JStr "cancelled")])), d)
      else if is_active (jb_status j)
      then ∃ d', cancel_job id now d = (inr (send_status 202 (JObj [("status", JStr "cancelled")])), d') ∧
                 cancelled_job id j now d d'
      else ∃ r, cancel_job id now d = (inr (Reply 409 r), d)
  end.
Proof.
  intros Hu Hub Hlog Hses. unfold cancel_job. rewrite bind_gets. destruct (getJob id d) as [j|] eqn:Hj; [|done].
  specialize (Hses j eq_refl). case_bool_decide as Hc; [done|]. rewrite run_db_eq.
  set (from := [job_queued; job_running; job_waiting_approval]).
  pose proof Hj as [Hin Hid]%by_key_Some.
  destruct (updateJobStatus_frame id job_cancelled None from now d) as (E1&Ej&Eb&Ei&Es&Ee&Ees&Et&Ets&Em). cbv zeta in *.
  pose proof (updateJobStatus_approvals id job_cancelled None from now d) as Ea. cbv zeta in Ea.
  assert ((updateJobStatus id job_cancelled None from now d).1 = is_active (jb_status j)) as Eok.
  { rewrite E1. destruct (is_active (jb_status j)) eqn:Eact.
    - apply bool_decide_true. apply (count_guard id from d j); [done..|]. unfold from. by destruct (jb_status j).
    - apply bool_decide_false. rewrite (proj2 (count_where_0 _ _)); [done|]. intros r Hr. unfold job_guard.
      destruct (has_key jb_id id r) eqn:Ek; [|done]. apply bool_decide_eq_true in Ek.
      rewrite (unique_key_eq jb_id (c_jobs d) r j) by congruence. unfold from. by destruct (jb_status j). }
  rewrite Eok in *. destruct (is_active (jb_status j)) eqn:Eact; simpl negb; cbv iota.
  2: { rewrite updateJobStatus_stuck; [eauto|]. intros r Hr. symmetry in E1. apply bool_decide_eq_false in E1.
       unfold job_guard. destruct (has_key jb_id id r) eqn:Ek; [|done]. apply bool_decide_eq_true in Ek.
       rewrite (unique_key_eq jb_id (c_jobs d) r j) by congruence. unfold from. by destruct (jb_status j). }
  pose proof (update_job id job_cancelled None from now d j Hu Hj) as Hj1.
  set (d1 := (updateJobStatus id job_cancelled None from now d).2) in *. clearbody d1.
  specialize (Hj1 ltac:(apply (bool_decide_eq_true_1 _); unfold from; by destruct (jb_status j))).
  assert (∃ o d2, (if bool_decide (jb_kind j = file_batch_job) then cancelQueuedFileBatchItems id now else mret None) d1 =
      (inr o, d2) ∧ c_jobs d2 = c_jobs d1 ∧ c_approvals d2 = c_approvals d1 ∧ log_frame d1 d2 ∧
      ∀ b, jb_kind j = file_batch_job → get_row (λ b, bool_decide (fb_jobId b = id)) (c_batches d) = Some b →
        ∀ i, In i (c_items d2) → fi_batchId i = fb_id b → fi_status i ≠ item_queued) as (o&d2&Eq&Ej2&Ea2&El2&Hq).
  { destruct (decide (jb_kind j = file_batch_job)) as [Hkind|Hkind];
      [rewrite bool_decide_true by done|rewrite bool_decide_false by done; exists None, d1; split_and!; done].
    destruct (get_row (λ b, bool_decide (fb_jobId b = id)) (c_batches d1)) as [b|] eqn:Hb.
    - pose proof Hb as [_ Hbid%bool_decide_eq_true]%get_row_Some.
      destruct (cancelQueued_eq id now d1 b (set_job_status job_cancelled None now j)) as (r&d2&E&Ei2&Ej2&_);
        [by rewrite Eb|done|unfold batch_job; by rewrite Hbid|].
      exists (Some r), d2. split; [done|]. split; [done|].
      pose proof (cancelQueued_approvals id now d1) as Ha2. pose proof (cancelQueued_log id now d1) as Hl2.
      rewrite E in Ha2, Hl2. split; [done|]. split; [done|]. intros b' _ Hb' i Hi Hbi. rewrite <-Eb, Hb in Hb'.
      injection Hb' as <-. rewrite Ei2 in Hi. apply list_elem_of_In, list_elem_of_fmap in Hi as (x&->&_).
      unfold cancel_f, queued_in, of_batch, item_is in *. destruct (bool_decide (fi_batchId x = fb_id b)) eqn:E1'; simpl in *.
      + destruct (bool_decide (fi_status x = item_queued)) eqn:E2'; [done|]. by apply bool_decide_eq_false in E2'.
      + by apply bool_decide_eq_false in E1'.
    - exists None, d1. split; [unfold cancelQueuedFileBatchItems; apply transaction_inr; by rewrite bind_gets, Hb|].
      split_and!; [done..|]. intros b _ Hb'. rewrite <-Eb in Hb'. congruence. }
  change (negb true) with false. cbv iota. rewrite (bind_inr _ _ _ _ _ Eq). cbv beta.
  assert (log_frame d d2) as Hf by (unfold log_frame in *; intuition congruence).
  destruct (appendEvent_logs (jb_sessionId j) (Some id) ev_job_cancelled (JObj [("jobId", JStr id)]) now d2)
    as (r&d'&Eev&_&Hsame&Hev).
  { by apply (log_frame_ok d). }
  { unfold has_session. by destruct Hf as (->&_). }
  { unfold opt_ref, has_job, getJob in *. by rewrite Ej2, Hj1. }
  exists d'. split; [by erewrite bind_inr by exact Eev|]. split.
  - rewrite Hsame. unfold getJob in *. simpl. by rewrite Ej2.
  - intros k Hk. rewrite Hsame. unfold getJob. simpl. rewrite Ej2, Ej, by_key_update by done.
    destruct (by_key jb_id k (c_jobs d)) as [x|] eqn:Ex; [|done]. simpl. apply by_key_Some in Ex as [_ Ex].
    unfold job_guard, has_key. by rewrite bool_decide_false by congruence.
  - rewrite Hsame. simpl. by rewrite Ea2, Ea.
  - rewrite Hsame. exact Hq.
  - rewrite Hev. destruct Hf as (_&->&_). eauto.
Qed.
Section Facts.
#[local] Set Default Proof Using "Type".
Context (docker_apply share_apply storage_apply vm_apply :
  operation_record → list (string * json) → exn + list (string * json)).
Context (docker_safe share_safe storage_safe vm_safe : exn → string).
Context (validate : string → string → list (string * json) → exn + unit).
Context (applyFileMutation : string → list (string * json) → string → exn + AppliedMutation).
Context (refresh : PendingApprovalRecord → exn + unit).
Context (dataDir : string).
Notation kind_of := (kind_ops docker_apply share_apply storage_apply vm_apply docker_safe share_safe storage_safe vm_safe).
Notation begins := (approve_begin docker_apply share_apply storage_apply vm_apply docker_safe share_safe storage_safe vm_safe).
Notation rejects := (reject docker_apply share_apply storage_apply vm_apply docker_safe share_safe storage_safe vm_safe).
Notation approves := (approve docker_apply share_apply storage_apply vm_apply docker_safe share_safe storage_safe vm_safe
  validate applyFileMutation refresh dataDir).
Notation applies_file := (apply_file validate applyFileMutation dataDir).
Lemma kind_ops_table kind k : kind_of kind = Some k → lens_ok (k_table k) ∧ k_kind k = kind ∧ op_kind (k_table k) = kind.
Proof. destruct kind; intros [= <-]; done. Qed.

Lemma kind_ops_known kind k : kind_of kind = Some k → known_table (k_table k).
Proof. unfold known_table. destruct kind; intros [= <-]; simpl; eauto. Qed.


Lemma updateApprovalStatus_refused id s now d row : unique_keys ar_id (c_approvals d) →
  by_key ar_id id (c_approvals d) = Some row → ar_status row ≠ ap_pending →
  updateApprovalStatus id s [ap_pending] now d = (false, d).
Proof.
  intros Hu Hrow Hs. unfold updateApprovalStatus, returning.
  destruct (get_row (approval_guard id [ap_pending]) (c_approvals d)) as [r|] eqn:E; [|done].
  apply get_row_Some in E as [Hin [Hk%bool_decide_eq_true Hp%bool_decide_eq_true]%andb_prop].
  apply list_elem_of_singleton in Hp. apply by_key_Some in Hrow as [Hr Hid].
  rewrite (unique_key_eq ar_id (c_approvals d) r row) in Hp by congruence. done.
Qed.

Lemma getApproval_row id d a : getApproval id d = Some a →
  ∃ row j, by_key ar_id id (c_approvals d) = Some row ∧ getJob (ar_jobId row) d = Some j ∧
    a = approval_record (jb_sessionId j) row.
Proof.
  unfold getApproval. destruct (by_key ar_id id (c_approvals d)) as [row|]; [|done]. simpl. unfold join_job.
  destruct (getJob (ar_jobId row) d) as [j|] eqn:Ej; [|done]. intros [= <-]. eauto.
Qed.

(** What is decided, or unknown, is refused without a trace: approving
    or rejecting such an approval answers 404 or 409 - or, for an approval
    without its operation, 400 - and changes nothing. *)
Theorem decision_refused ids id now now' d :
  unique_keys ar_id (c_approvals d) →
  match getApproval id d with
  | None => approves ids id now now' d = (inr (send_error 404 "Approval not found"), d) ∧
            rejects id now d = (inr (send_error 404 "Approval not found"), d)
  | Some a => pa_status a ≠ ap_pending →
      rejects id now d = (inr (already a), d) ∧
      (approves ids id now now' d = (inr (already a), d) ∨
       ∃ k, kind_of (pa_kind a) = Some k ∧
         (getOperationByApproval (k_table k) id d = None ∨ operation_proposal k a = None) ∧
         approves ids id now now' d = (inr (send_error 400 (k_name k +:+ " approval is missing operation metadata")), d))
  end.
Proof.
  intros Hu. unfold approve, approve_begin, reject. destruct (getApproval id d) as [a|] eqn:Ha.
  2: { unfold mbind, prog_bind. simpl. by rewrite Ha. }
  intros Hs. destruct (getApproval_row id d a Ha) as (row&j&Hrow&_&->). pose proof Hrow as [_ Hid]%by_key_Some.
  simpl in Hs. pose proof (λ s, updateApprovalStatus_refused id s now d row Hu Hrow Hs) as Hr.
  split.
  { rewrite bind_gets, Ha. simpl pa_id. rewrite Hid, run_db_eq, Hr. done. }
  set (a := approval_record (jb_sessionId j) row) in *.
  destruct (kind_of (pa_kind a)) as [k|] eqn:Ek.
  - destruct (getOperationByApproval (k_table k) id d) as [op|] eqn:Eo;
      [destruct (operation_proposal k a) as [p|] eqn:Ep|].
    + left. erewrite bind_inr; [|rewrite bind_gets, Ha, Ek; unfold begin_operation; rewrite bind_gets; change (pa_id a) with (ar_id row);
        rewrite Hid, Eo, Ep, run_db_eq, Hr; reflexivity]. done.
    + right. exists k. split_and!; [done|by right|]. erewrite bind_inr; [|rewrite bind_gets, Ha, Ek; unfold begin_operation;
        rewrite bind_gets; change (pa_id a) with (ar_id row); rewrite Hid, Eo, Ep; reflexivity]. done.
    + right. exists k. split_and!; [done|by left|]. erewrite bind_inr; [|rewrite bind_gets, Ha, Ek; unfold begin_operation;
        rewrite bind_gets; change (pa_id a) with (ar_id row); rewrite Hid, Eo; reflexivity]. done.
  - left. erewrite bind_inr; [|rewrite bind_gets, Ha, Ek, run_db_eq; change (pa_id a) with (ar_id row); rewrite Hid, Hr; reflexivity]. done.
Qed.

Lemma updateJobStatus_maybe id s e from now d j : unique_keys jb_id (c_jobs d) → getJob id d = Some j → from ≠ [] →
  getJob id (updateJobStatus id s e from now d).2 =
    Some (if bool_decide (jb_status j ∈ from) then set_job_status s e now j else j).
Proof.
  intros Hu Hj Hf. destruct (updateJobStatus_frame id s e from now d) as (_&E&_). unfold getJob in *. cbv zeta in E.
  rewrite E. pose proof Hj as [_ Hid]%by_key_Some. rewrite by_key_update by done. rewrite Hj. simpl.
  unfold job_guard, has_key. rewrite bool_decide_true by done. destruct from; [done|]. by destruct (bool_decide _).
Qed.

(** What [reject_operation] leaves: the failed operation, if there is one. *)
Lemma reject_operation_spec k a now d : known_table (k_table k) → unique_keys or_id (op_rows (k_table k) d) →
  ∃ d', reject_operation k a now d = (inr tt, d') ∧ c_approvals d' = c_approvals d ∧ c_jobs d' = c_jobs d ∧
    log_part d' = log_part d ∧
    (∀ op, getOperationByApproval (k_table k) (pa_id a) d = Some op → getOperation (k_table k) (or_id op) d' =
       Some (op_settled op op_failed [("rejected", JBool true); ("rejectedAt", int now)] now)).
Proof.
  intros HT Hu. unfold reject_operation. rewrite bind_gets.
  destruct (getOperationByApproval (k_table k) (pa_id a) d) as [op|] eqn:Eop; [|by exists d].
  assert (getOperation (k_table k) (or_id op) d = Some op) as Hop.
  { apply by_key_unique; [done|]. by apply first_by_In in Eop as [? _]. }
  destruct (updateOperationStatus_eq (k_table k) op op_failed [("rejected", JBool true); ("rejectedAt", int now)] now d HT Hop)
    as (_&E&Ea&Ej&El). rewrite run_db_eq. eexists. split; [done|]. split_and!; [done..|]. by intros op' [= <-].
Qed.

(** Rejecting a pending approval: it becomes rejected, its operation is
    failed and marked rejected, the job that waited for it is completed - a
    job that no longer waits keeps its status -, the log gets the event, and
    nothing is applied.  A tool call's approval is rejected and no more. *)
Theorem reject_spec row j now d :
  unique_keys ar_id (c_approvals d) → unique_keys jb_id (c_jobs d) →
  (∀ k, kind_of (ar_kind row) = Some k → unique_keys or_id (op_rows (k_table k) d)) → log_ok d →
  by_key ar_id (ar_id row) (c_approvals d) = Some row → ar_status row = ap_pending →
  getJob (ar_jobId row) d = Some j → has_session (jb_sessionId j) d = true →
  let a := approval_record (jb_sessionId j) row in
  ∃ d', rejects (ar_id row) now d = (inr (decided a "rejected" []), d') ∧
    by_key ar_id (ar_id row) (c_approvals d') = Some (set_approval_status ap_rejected now row) ∧
    (ar_kind row = pi_tool_call → c_jobs d' = c_jobs d ∧ c_events d' = c_events d) ∧
    (ar_kind row ≠ pi_tool_call →
       getJob (ar_jobId row) d' = Some (if bool_decide (jb_status j = job_waiting_approval)
                                        then set_job_status job_completed None now j else j) ∧
       ∃ n, c_events d' = c_events d ++ [EventRow n (jb_sessionId j) (Some (ar_jobId row)) ev_job_completed
         (JObj [("jobId", JStr (ar_jobId row)); ("approvalId", JStr (ar_id row)); ("rejected", JBool true)]) now]) ∧
    (∀ k op, kind_of (ar_kind row) = Some k → getOperationByApproval (k_table k) (ar_id row) d = Some op →
       getOperation (k_table k) (or_id op) d' =
         Some (op_settled op op_failed [("rejected", JBool true); ("rejectedAt", int now)] now)).
Proof.
  intros Hua Huj Huo Hlog Hrow Hp Hj Hse a.
  assert (getApproval (ar_id row) d = Some a) as Ha.
  { unfold getApproval. rewrite Hrow. simpl. unfold join_job. by rewrite Hj. }
  destruct (update_approval (ar_id row) ap_rejected [ap_pending] now d row) as (Et&Er&_); [done|done|by rewrite Hp; left|].
  destruct (updateApprovalStatus_frame (ar_id row) ap_rejected [ap_pending] now d) as (_&_&Ej&_).
  destruct (updateApprovalStatus_keeps (ar_id row) ap_rejected [ap_pending] now d) as [Eo El]. cbv zeta in *.
  unfold reject. rewrite bind_gets, Ha. change (pa_id a) with (ar_id row). change (pa_jobId a) with (ar_jobId row).
  change (pa_kind a) with (ar_kind row). change (pa_sessionId a) with (jb_sessionId j). rewrite run_db_eq, Et.
  change (negb true) with false. cbv iota.
  set (d1 := (updateApprovalStatus (ar_id row) ap_rejected [ap_pending] now d).2) in *. clearbody d1.
  destruct (decide (ar_kind row = pi_tool_call)) as [Hk|Hk].
  { rewrite bool_decide_true by done. exists d1. rewrite Hk. injection El as _ _ Ee _ _ _.
    split_and!; [done..|by intros []|by intros k op [=]]. }
  rewrite bool_decide_false by done.
  assert (∃ d2, match kind_of (ar_kind row) with Some k => reject_operation k a now | None => mret tt end d1 = (inr tt, d2) ∧
    c_approvals d2 = c_approvals d1 ∧ c_jobs d2 = c_jobs d1 ∧ log_part d2 = log_part d1 ∧
    ∀ k op, kind_of (ar_kind row) = Some k → getOperationByApproval (k_table k) (ar_id row) d1 = Some op →
      getOperation (k_table k) (or_id op) d2 =
        Some (op_settled op op_failed [("rejected", JBool true); ("rejectedAt", int now)] now)) as (d2&E2&Ea2&Ej2&El2&Hop2).
  { destruct (kind_of (ar_kind row)) as [k|] eqn:Ek; [|exists d1; by split_and!].
    pose proof (kind_ops_known _ _ Ek) as HT.
    destruct (reject_operation_spec k a now d1 HT) as (d2&?&?&?&?&?).
    { rewrite (known_rows _ d) by done. by apply Huo. }
    exists d2. split_and!; [done..|]. intros k' op [= <-]. auto. }
  rewrite (bind_inr _ _ _ _ _ E2). cbv beta. rewrite run_db_eq.
  assert (getJob (ar_jobId row) d2 = Some j) as Hj2 by (unfold getJob in *; by rewrite Ej2, Ej).
  pose proof (updateJobStatus_maybe (ar_jobId row) job_completed None [job_waiting_approval] now d2 j) as Hj3.
  rewrite Ej2, Ej in Hj3. specialize (Hj3 Huj Hj2 ltac:(done)).
  destruct (updateJobStatus_keeps (ar_jobId row) job_completed None [job_waiting_approval] now d2) as (Ea3&Et3&El3); [done|].
  cbv zeta in Ea3, Et3, El3. set (d3 := (updateJobStatus (ar_jobId row) job_completed None [job_waiting_approval] now d2).2) in *.
  clearbody d3. assert (log_part d3 = log_part d) as El' by congruence.
  destruct (appendEvent_logs (jb_sessionId j) (Some (ar_jobId row)) ev_job_completed
    (JObj [("jobId", JStr (ar_jobId row)); ("approvalId", JStr (ar_id row)); ("rejected", JBool true)]) now d3)
    as (r&d'&Ee&_&Hsame&Hev).
  { by apply (log_part_ok d). }
  { injection El' as Es. unfold has_session. by rewrite Es. }
  { unfold opt_ref, has_job. unfold getJob in Hj3. by rewrite Hj3. }
  injection El' as _ _ Eev _ _ _. exists d'. split; [by erewrite bind_inr by exact Ee|].
  split; [rewrite Hsame; simpl; by rewrite Ea3, Ea2|]. split; [done|]. split.
  - intros _. split; [|exists (ae_id r); by rewrite Hev, Eev].
    rewrite Hsame. unfold getJob in *. simpl. rewrite Hj3. by rewrite (bool_decide_ext _ _ (list_elem_of_singleton _ _)).
  - intros k op Hk' Hop. pose proof (kind_ops_known _ _ Hk') as HT. rewrite <-(Hop2 k op Hk').
    + unfold getOperation. rewrite Hsame. transitivity (by_key or_id (or_id op) (op_rows (k_table k) d3)).
      * f_equal. by apply known_rows.
      * f_equal. by apply known_rows.
    + unfold getOperationByApproval in *. by rewrite (known_rows _ d).
Qed.
End Facts.

(** ** A small database with a docker operation to approve *)
Definition approvals_demo : core_db :=
  (createDockerOperationApproval "a" "op" "j2" [("action", JStr "restart"); ("containerId", JStr "c")] 25 jobs_demo).2.
Definition no_apply (r : operation_record) (p : list (string * json)) : exn + list (string * json) := inr [].
Definition no_mutation (root : string) (p : list (string * json)) (trash : string) : exn + AppliedMutation := inl (Error "x").
Notation demo_approve := (approve no_apply no_apply no_apply no_apply exn_message exn_message exn_message exn_message
  (λ _ _ _, inr tt) no_mutation (λ _, inr tt) "/data" (λ _, FileIds "" (λ _, ("", "")))).
Notation demo_reject := (reject no_apply no_apply no_apply no_apply exn_message exn_message exn_message exn_message).
Definition demo_row : approval_row :=
  ApprovalRow "a" "j2" docker_operation ap_pending [JObj [("action", JStr "restart"); ("containerId", JStr "c")]] 25 25.
Definition demo_job : JobRecord := Job "j2" "s" "m2" agent_job job_waiting_approval 20 20 None.
Definition demo_op : operation_record :=
  OperationRecord "op" (Some "a") "restart" None "c" op_proposed
    [("proposal", JObj [("action", JStr "restart"); ("containerId", JStr "c")])] 25 25.

Lemma approvals_demo_log : log_ok approvals_demo.
Proof. split; vm_compute; repeat constructor; done. Qed.


Lemma cancel_job_spec_witness :
  ∃ d', cancel_job "j2" 40 approvals_demo = (inr (send_status 202 (JObj [("status", JStr "cancelled")])), d') ∧
    by_key ar_id "a" (c_approvals d') = Some (expire_approval 40 demo_row).
Proof.
  pose proof (cancel_job_spec "j2" 40 approvals_demo) as H.
  destruct H as (d' & E & [_ _ Ha _ _]);
    try (apply (bool_decide_eq_true_1 (NoDup _)); vm_compute; reflexivity); try exact approvals_demo_log.
  - intros j Hj. vm_compute in Hj. injection Hj as <-. reflexivity.
  - exists d'. split; [exact E|]. rewrite Ha. vm_compute. reflexivity.
Defined.

Lemma reject_spec_witness :
  ∃ d', demo_reject "a" 30 approvals_demo = (inr (decided (approval_record "s" demo_row) "rejected" []), d') ∧
    by_key ar_id "a" (c_approvals d') = Some (set_approval_status ap_rejected 30 demo_row).
Proof.
  pose proof (reject_spec no_apply no_apply no_apply no_apply exn_message exn_message exn_message exn_message
    demo_row demo_job 30 approvals_demo) as H.
  destruct H as (d' & E & Ha & _);
    try (apply (bool_decide_eq_true_1 (NoDup _)); vm_compute; reflexivity); try reflexivity; try exact approvals_demo_log.
  - intros k [= <-]. apply (bool_decide_eq_true_1 (NoDup _)). vm_compute. reflexivity.
  - exists d'. split; [exact E|exact Ha].
Defined.

Definition demo_expired : core_db := (cancel_job "j2" 40 approvals_demo).2.

(** The approval expired with its job: neither request has an effect. *)
Lemma decision_refused_witness :
  demo_reject "a" 50 demo_expired = (inr (send_error 409 "Approval is already expired"), demo_expired) ∧
  demo_reject "b" 50 demo_expired = (inr (send_error 404 "Approval not found"), demo_expired).
Proof.
  assert (unique_keys ar_id (c_approvals demo_expired)) as Hu.
  { apply (bool_decide_eq_true_1 (NoDup _)). vm_compute. reflexivity. }
  split.
  - pose proof (decision_refused no_apply no_apply no_apply no_apply exn_message exn_message exn_message exn_message
      (λ _ _ _, inr tt) no_mutation (λ _, inr tt) "/data" (λ _, FileIds "" (λ _, ("", ""))) "a" 50 60 demo_expired Hu) as H.
    destruct (getApproval "a" demo_expired) as [a|] eqn:Ea; [|by vm_compute in Ea]. vm_compute in Ea. injection Ea as <-.
    destruct H as [H _]; [done|exact H].
  - pose proof (decision_refused no_apply no_apply no_apply no_apply exn_message exn_message exn_message exn_message
      (λ _ _ _, inr tt) no_mutation (λ _, inr tt) "/data" (λ _, FileIds "" (λ _, ("", ""))) "b" 50 60 demo_expired Hu) as H.
    destruct (getApproval "b" demo_expired) as [a|] eqn:Ea; [by vm_compute in Ea|]. exact (proj2 H).
Defined.
