(* ===== verification/ApprovalHistory.v ===== *)
(** * Histories of approvals and jobs

    The handlers of ApprovalRoutes, cut at their awaits, interleaved with each
    other, with the worker's claims and guarded updates, the deletion of
    sessions and the creation of approvals and jobs: [step].  Each segment
    [settles] - nothing becomes pending, no finished job moves - or adds one
    row under a new id, from which the safety of whole histories follows. *)
From S2P Require Import Confinement Mutations.
From S2P Require Import Prelude Sql Json JsString Http IndexQueue CoreDb Jobs Operations FileBatches FileBatchRunner ApprovalRoutes.
Open Scope Z_scope.

(** ** What the handlers can do to approvals and jobs *)
(** What must not appear: a pending approval, and in a [strict] step neither an
    approved one. *)
Definition still (strict : bool) (s : ApprovalStatus) : bool :=
  match s with ap_pending => true | ap_approved => strict | _ => false end.

(** From [d] to [d'] no approval and no job appears, no approval becomes
    pending - nor, if [strict], approved - and no finished job changes its
    status. *)
Record settles (strict : bool) (d d' : core_db) : Prop := Settles {
  st_approvals : ∀ a', In a' (c_approvals d') → ∃ a, In a (c_approvals d) ∧ ar_id a = ar_id a' ∧
    (still strict (ar_status a') = true → ar_status a = ar_status a');
  st_jobs : ∀ j', In j' (c_jobs d') → ∃ j, In j (c_jobs d) ∧ jb_id j = jb_id j' ∧
    (is_active (jb_status j) = false → jb_status j' = jb_status j) }.

Lemma settles_weaken d d' : settles true d d' → settles false d d'.
Proof.
  intros [HA HJ]. split; [|done]. intros a' (a & H & E & Hs)%HA. exists a. split_and!; [done..|].
  intros Hst. apply Hs. by destruct (ar_status a').
Qed.

Lemma settles_trans {strict} d1 d2 d3 : settles strict d1 d2 → settles strict d2 d3 → settles strict d1 d3.
Proof.
  intros [A1 J1] [A2 J2]. split.
  - intros a3 (a2 & (a1 & H1 & E1 & P1)%A1 & E2 & P2)%A2. exists a1. split_and!; [done|congruence|].
    intros Hs. rewrite P1; [by apply P2|]. by rewrite P2.
  - intros j3 (j2 & (j1 & H1 & E1 & P1)%J1 & E2 & P2)%J2. exists j1. split_and!; [done|congruence|].
    intros Ha. rewrite P2; [by apply P1|]. by rewrite P1.
Qed.

Lemma settles_same {strict} d d' : c_approvals d' = c_approvals d → c_jobs d' = c_jobs d → settles strict d d'.
Proof. intros E1 E2. split; rewrite ?E1, ?E2; eauto 10. Qed.


Lemma settles_approval {strict} id s from now d : still strict s = false → settles strict d (updateApprovalStatus id s from now d).2.
Proof.
  intros Hs. destruct (updateApprovalStatus_frame id s from now d) as (_&Ea&Ej&_). split; [|rewrite Ej; eauto 10].
  rewrite Ea. intros a' (a & Ha & ->)%update_where_In. exists a.
  destruct (approval_guard _ _ _); simpl; split_and!; auto. congruence.
Qed.

Lemma settles_job {strict} id s e from now d : from ≠ [] → forallb is_active from = true →
  settles strict d (updateJobStatus id s e from now d).2.
Proof.
  intros Hne Hf. split.
  - intros a' Ha'. assert (∃ a, In a (c_approvals d) ∧ a' = (if pending_of id a then expire_approval now a else a) ∨
      In a (c_approvals d) ∧ a' = a) as (a & [[Ha ->]|[Ha ->]]);
      [| |eauto].
    { unfold updateJobStatus in Ha'. cbv zeta in Ha'. destruct (bool_decide (count_where _ _ = _)); simpl in Ha'; [|eauto].
      destruct (bool_decide (s = job_cancelled)), (notificationStatusForJob s); simpl in Ha'; eauto;
        apply update_where_In in Ha' as (a & Ha & ->); eauto. }
    exists a. by destruct (pending_of id a).
  - destruct (updateJobStatus_frame id s e from now d) as (_&Ej&_). rewrite Ej.
    intros j' (j & Hj & ->)%update_where_In. exists j. split; [done|].
    destruct (job_guard id from j) eqn:Eg; [|auto]. split; [done|]. intros Ha. unfold job_guard in Eg.
    apply andb_prop in Eg as [_ Eg]. destruct from as [|x from]; [done|].
    apply bool_decide_eq_true, list_elem_of_In in Eg.
    rewrite forallb_forall in Hf. by rewrite (Hf _ Eg) in Ha.
Qed.

Lemma settles_operation {strict} T id s m now d : lens_ok T → settles strict d (updateOperationStatus T id s m now d).2.
Proof. intros HT. destruct (updateOperationStatus_frame T id s m now d HT) as (?&?&_). by apply settles_same. Qed.

Lemma settles_event {strict} s job type payload now d : settles strict d (appendEvent s job type payload now d).2.
Proof. apply settles_same; by rewrite (appendEvent_frame s job type payload now d). Qed.

Lemma settles_claim {strict} now d : settles strict d (claimNextJob now d).2.
Proof.
  unfold claimNextJob. destruct (first_by _ _ _) as [n|]; [|by apply settles_same].
  set (q := λ j, _). cbv zeta.
  assert (settles strict d (d <| c_jobs := update_where q (start_job now) (c_jobs d) |>)) as H.
  { split; [simpl; eauto|]. intros j' (j & Hj & ->)%update_where_In. exists j. split; [done|].
    destruct (q j) eqn:Eq; [|auto]. split; [done|]. apply andb_prop in Eq as [_ Eq%bool_decide_eq_true]. by rewrite Eq. }
  destruct (returning q _ _); [|done]. apply (settles_trans _ _ _ H). by apply settles_same.
Qed.

Lemma settles_delete_session {strict} id d : settles strict d (deleteSession id d).2.
Proof.
  unfold deleteSession. cbv zeta. simpl. destruct (negb _); [by apply settles_same|]. split; simpl.
  - intros a [Ha _]%delete_where_In. eauto.
  - intros j [Hj _]%delete_where_In. eauto.
Qed.

(** ** Handlers settle *)
Lemma keeps_settles {strict} {A} (m : core_prog A) d0 : (∀ d, settles strict d (m d).2) → keeps (settles strict d0) m.
Proof. intros H d Hd. by apply (settles_trans d0 d). Qed.

Lemma keeps_run_db {strict} {A} (f : core_db → A * core_db) d0 : (∀ d, settles strict d (f d).2) → keeps (settles strict d0) (run_db f).
Proof. intros H. apply keeps_settles. intros d. unfold run_db. specialize (H d). by destruct (f d). Qed.

Lemma settles_lift {A} I (r : exn + A) : keeps I (lift r).
Proof. by intros d Hd. Qed.

Lemma keeps_event {strict} d0 s job type payload now : keeps (settles strict d0) (appendEvent s job type payload now).
Proof. apply keeps_settles. intros d. apply settles_event. Qed.

Lemma keeps_approval {strict} d0 id s from now : still strict s = false → keeps (settles strict d0) (run_db (updateApprovalStatus id s from now)).
Proof. intros Hs. apply keeps_run_db. intros d. by apply settles_approval. Qed.

Lemma keeps_job {strict} d0 id s e from now : from ≠ [] → forallb is_active from = true →
  keeps (settles strict d0) (run_db (updateJobStatus id s e from now)).
Proof. intros ??. apply keeps_run_db. intros d. by apply settles_job. Qed.

Lemma keeps_operation {strict} d0 T id s m now : lens_ok T → keeps (settles strict d0) (run_db (updateOperationStatus T id s m now)).
Proof. intros HT. apply keeps_run_db. intros d. by apply settles_operation. Qed.

#[export] Hint Resolve settles_lift keeps_event : keeps.
#[export] Hint Extern 2 (keeps _ (run_db (updateApprovalStatus _ _ _ _))) => (by apply keeps_approval) : keeps.
#[export] Hint Extern 2 (keeps _ (run_db (updateJobStatus _ _ _ _ _))) => (by apply keeps_job) : keeps.
#[export] Hint Extern 2 (keeps _ (run_db (updateOperationStatus _ _ _ _ _))) => (by apply keeps_operation) : keeps.


Lemma keeps_checked {strict} {R} (key : R → string) table refs r put d0 :
  (∀ t d, c_approvals (put t d) = c_approvals d ∧ c_jobs (put t d) = c_jobs d) →
  keeps (settles strict d0) (checked_insert key table refs r put).
Proof.
  intros H. apply keeps_settles. intros d. unfold checked_insert. destruct (isSome _); [by apply settles_same|].
  destruct (negb _); [by apply settles_same|]. apply settles_same; apply H.
Qed.

#[export] Hint Extern 2 (keeps _ (checked_insert _ _ _ _ _)) => (by apply keeps_checked) : keeps.

Lemma keeps_enqueue {strict} ids rootId pool rec now i paths d0 : keeps (settles strict d0) (enqueue_paths ids rootId pool rec now i paths).
Proof.
  revert i. induction paths as [|p paths IH]; intros i; simpl; [apply keeps_ret|]. keeps_all.
  - apply keeps_settles. intros d. unfold on_index. destruct (enqueueIndexTask _ _ _ _). by apply settles_same.
  - apply keeps_settles. intros d. unfold raise_enqueue_alert. cbv zeta.
    destruct (exists_where _ _); [by apply settles_same|]. destruct (isSome _); [by apply settles_same|].
    destruct (negb _); by apply settles_same.
Qed.

Lemma settles_record {strict} id ids a op sp tp st m now d0 : keeps (settles strict d0) (recordAppliedOperation id ids a op sp tp st m now).
Proof.
  unfold recordAppliedOperation, enqueueAppliedOperationPaths. unfold insert_file_operation.
  keeps_all; apply keeps_enqueue.
Qed.

Lemma keeps_trash {strict} id r o t m now d0 : keeps (settles strict d0) (createTrashEntry id r o t m now).
Proof. unfold createTrashEntry. keeps_all. Qed.
#[export] Hint Resolve settles_record keeps_trash : keeps.

Lemma keeps_cancel_items {strict} id now d0 : keeps (settles strict d0) (cancelQueuedFileBatchItems id now).
Proof.
  unfold cancelQueuedFileBatchItems, getRequiredFileBatch. apply keeps_transaction. keeps_all; try apply keeps_when;
    try (apply keeps_modify; intros d Hd; apply (settles_trans _ _ _ Hd); by apply settles_same).
Qed.
#[export] Hint Resolve keeps_cancel_items : keeps.

Section Facts.
#[local] Set Default Proof Using "Type".
Context (docker_apply share_apply storage_apply vm_apply :
  operation_record → list (string * json) → exn + list (string * json)).
Context (docker_safe share_safe storage_safe vm_safe : exn → string).
Context (validate : string → string → list (string * json) → exn + unit).
Context (applyFileMutation : string → list (string * json) → string → exn + AppliedMutation).
Context (refresh : PendingApprovalRecord → exn + unit).
Context (dataDir : string).
Notation kind_of := (kind_ops docker_apply share_apply storage_apply vm_apply docker_safe share_safe storage_safe vm_safe).
Notation begins := (approve_begin docker_apply share_apply storage_apply vm_apply docker_safe share_safe storage_safe vm_safe).
Notation rejects := (reject docker_apply share_apply storage_apply vm_apply docker_safe share_safe storage_safe vm_safe).
Notation approves := (approve docker_apply share_apply storage_apply vm_apply docker_safe share_safe storage_safe vm_safe
  validate applyFileMutation refresh dataDir).
Notation applies_file := (apply_file validate applyFileMutation dataDir).

Lemma settles_finish {strict} k a op r now d0 : lens_ok (k_table k) → keeps (settles strict d0) (finish_operation k a op r now).
Proof. intros HT. unfold finish_operation. keeps_all. Qed.

Lemma keeps_apply_file {strict} ids a p now d0 : keeps (settles strict d0) (applies_file ids a p now).
Proof. unfold apply_file. keeps_all. Qed.

Lemma keeps_settle_files {strict} a r now d0 : keeps (settles strict d0) (settle_files refresh a r now).
Proof. unfold settle_files. keeps_all. Qed.

Lemma keeps_begin id now d0 : keeps (settles false d0) (begins id now).
Proof.
  unfold approve_begin. keeps_step; [keeps_all|]. destruct a as [a|]; [|keeps_all].
  destruct (kind_of (pa_kind a)) as [k|] eqn:Ek; [|keeps_all].
  apply kind_ops_table in Ek as [HT _]. unfold begin_operation. keeps_all.
Qed.

Lemma keeps_reject strict id now d0 : keeps (settles strict d0) (rejects id now).
Proof.
  unfold reject. keeps_step; [keeps_all|]. destruct a as [a|]; [|keeps_all].
  destruct (kind_of (pa_kind a)) as [k|] eqn:Ek; [|keeps_all].
  apply kind_ops_table in Ek as [HT _]. unfold reject_operation. keeps_all.
Qed.

Lemma keeps_cancel {strict} id now d0 : keeps (settles strict d0) (cancel_job id now).
Proof. unfold cancel_job. keeps_all. Qed.

(** ** Histories *)
Inductive decision := Started | Rejected.
Record history := History { hs_db : core_db; hs_used : list string; hs_log : list (string * decision) }.

(** A request that was accepted: what it asks for starts, or is answered 202. *)
Definition accepted (r : exn + begun) : bool :=
  match r with
  | inr (StartOperation _ _ _ _) | inr (StartFiles _ _) => true
  | inr (Replied r) => bool_decide (rp_status r = 202)
  | inl _ => false
  end.
Definition answered_202 (r : exn + reply json) : bool :=
  match r with inr r => bool_decide (rp_status r = 202) | inl _ => false end.

(** A segment that decides nothing, of a handler or of the worker. *)
Inductive quiet (d : core_db) : core_db → Prop :=
| q_finish kind k a op r now : kind_of kind = Some k → quiet d (finish_operation k a op r now d).2
| q_apply_file ids a p now : quiet d (applies_file ids a p now d).2
| q_settle_files a r now : quiet d (settle_files refresh a r now d).2
| q_cancel id now : quiet d (cancel_job id now d).2
| q_claim now : quiet d (claimNextJob now d).2
| q_job id s e from now : from ≠ [] → forallb is_active from = true → quiet d (updateJobStatus id s e from now d).2
| q_event s job type payload now : quiet d (appendEvent s job type payload now d).2
| q_delete_session id : quiet d (deleteSession id d).2.

(** The creation of an approval or a job under the id [id]. *)
Inductive creates (id : string) (d : core_db) : core_db → Prop :=
| c_file_approval ids jobId ps now : creates id d (createPendingApproval id ids jobId ps now d).2
| c_tool_approval jobId p now : creates id d (createPiToolCallApproval id jobId p now d).2
| c_operation_approval kind k opId jobId p action tt ti m now : kind_of kind = Some k →
    creates id d (createOperationApproval (k_table k) id opId jobId p action tt ti m now d).2
| c_chat_job mid sid content s now : creates id d (createUserMessageAndJob mid id sid content s now d).2
| c_action_job mid nid sid content k s now : creates id d (createActionMessageAndJob mid id nid sid content k s now d).2.

(** An id is a new UUID. *)
Inductive step : history → history → Prop :=
| s_approve d used log id now r d' : begins id now d = (r, d') →
    step (History d used log) (History d' used (log ++ if accepted r then [(id, Started)] else []))
| s_reject d used log id now r d' : rejects id now d = (r, d') →
    step (History d used log) (History d' used (log ++ if answered_202 r then [(id, Rejected)] else []))
| s_quiet d used log d' : quiet d d' → step (History d used log) (History d' used log)
| s_create d used log id d' : id ∉ used → creates id d d' → step (History d used log) (History d' (id :: used) log).

Lemma quiet_settles strict d d' : quiet d d' → settles strict d d'.
Proof.
  assert (∀ d, settles strict d d) as Hr by (intros ?; by apply settles_same).
  destruct 1 as [kind k a op r now Hk| | | | |????????| |].
  - apply (settles_finish k); [by eapply kind_ops_table|done].
  - by apply keeps_apply_file.
  - by apply keeps_settle_files.
  - by apply keeps_cancel.
  - apply settles_claim.
  - by apply settles_job.
  - apply settles_event.
  - apply settles_delete_session.
Qed.

(** Only a row with the id [id] may be new; a new approval is pending. *)
Record adds (id : string) (d d' : core_db) : Prop := Adds {
  ad_approvals : ∀ a, In a (c_approvals d') → In a (c_approvals d) ∨ (ar_id a = id ∧ ar_status a = ap_pending);
  ad_jobs : ∀ j, In j (c_jobs d') → In j (c_jobs d) ∨ jb_id j = id }.

Lemma keeps_adds_other {R} (key : R → string) table refs r put id d0 :
  (∀ t d, c_approvals (put t d) = c_approvals d ∧ c_jobs (put t d) = c_jobs d) →
  keeps (adds id d0) (checked_insert key table refs r put).
Proof.
  intros H d [Ha Hj]. unfold checked_insert. destruct (isSome _); [done|]. destruct (negb _); [done|].
  destruct (H (insert_row r (table d)) d) as [E1 E2]. split; simpl; by rewrite ?E1, ?E2.
Qed.

Lemma keeps_adds_approval id d0 r : ar_id r = id → ar_status r = ap_pending → keeps (adds id d0) (insert_approval r).
Proof.
  intros Hid Hp d [Ha Hj]. unfold insert_approval, checked_insert. destruct (isSome _); [done|].
  destruct (negb _); [done|]. split; simpl; [|done]. intros a [Hin| ->]%insert_row_In; auto.
Qed.

Lemma keeps_adds_job id d0 r : jb_id r = id → keeps (adds id d0) (insert_job r).
Proof.
  intros Hid d [Ha Hj]. unfold insert_job, checked_insert. destruct (isSome _); [done|].
  destruct (negb _); [done|]. split; simpl; [done|]. intros a [Hin| ->]%insert_row_In; auto.
Qed.

Lemma keeps_adds_same {A} id d0 (m : core_prog A) :
  (∀ d, c_approvals (m d).2 = c_approvals d ∧ c_jobs (m d).2 = c_jobs d) → keeps (adds id d0) m.
Proof. intros H d [Ha Hj]. destruct (H d) as [E1 E2]. split; by rewrite ?E1, ?E2. Qed.

Lemma keeps_adds_proposed ids id now i l d0 x : keeps (adds x d0) (insert_proposed ids id now i l).
Proof.
  revert i. induction l as [|p l IH]; intros i; simpl; [apply keeps_ret|].
  apply keeps_bind; [|auto]. by apply keeps_adds_other.
Qed.

Lemma keeps_adds_transcript s m e id d0 : keeps (adds id d0) (insert_transcript s m e).
Proof.
  apply keeps_adds_same. intros d. unfold insert_transcript. cbv zeta.
  repeat match goal with |- context [if ?b then _ else _] => destruct b end; done.
Qed.

Lemma keeps_adds_note id d0 nid jobId sid kind s summary now :
  keeps (adds id d0) (createOperationNotification nid jobId sid kind s summary now).
Proof.
  apply keeps_adds_same. intros d. unfold createOperationNotification, mbind, prog_bind, insert_notification.
  destruct (exists_where _ _); [done|]. unfold checked_insert. destruct (isSome _); [done|]. by destruct (negb _).
Qed.

Lemma keeps_adds_find jobId id d0 : keeps (adds id d0) (find_job jobId).
Proof. unfold find_job. keeps_all. Qed.

Lemma keeps_adds_modify id d0 f :
  (∀ d, c_approvals (f d) = c_approvals d ∧ c_jobs (f d) = c_jobs d) → keeps (adds id d0) (modify f).
Proof. intros H. by apply keeps_adds_same. Qed.

#[local] Hint Resolve keeps_adds_approval keeps_adds_job keeps_adds_proposed keeps_adds_transcript keeps_adds_note
  keeps_adds_find : keeps.
#[local] Hint Extern 3 (keeps (adds _ _) (modify _)) => (by apply keeps_adds_modify) : keeps.
#[local] Hint Extern 3 (keeps (adds _ _) (insert_message _)) => (by apply keeps_adds_other) : keeps.

Lemma creates_adds id d d' : creates id d d' → adds id d d'.
Proof.
  assert (adds id d d) as Hr by (split; auto).
  destruct 1 as [| |kind k opId jobId p action tt ti m now Hk| |];
    match goal with |- adds _ _ (?m d).2 => cut (keeps (adds id d) m); [intros H; by apply H|] end.
  - unfold createPendingApproval. repeat (keeps_step || apply keeps_transaction).
  - unfold createPiToolCallApproval. keeps_all.
  - unfold createOperationApproval. apply kind_ops_table in Hk as [(_&Hj&Ha&_) _].
    keeps_step; [keeps_all|]. keeps_step; [|keeps_all]. apply keeps_transaction. keeps_step; [keeps_all|].
    by apply keeps_adds_other.
  - unfold createUserMessageAndJob. repeat (keeps_step || apply keeps_transaction).
  - unfold createActionMessageAndJob. repeat (keeps_step || apply keeps_transaction).
Qed.

(** ** Deciding *)
Definition decidable (id : string) (d : core_db) : Prop :=
  ∃ a, In a (c_approvals d) ∧ ar_id a = id ∧ ar_status a = ap_pending.
Definition not_pending (id : string) (d : core_db) : Prop :=
  ∀ a, In a (c_approvals d) → ar_id a = id → ar_status a ≠ ap_pending.

Lemma updateApprovalStatus_decides id s now d d' : s ≠ ap_pending →
  updateApprovalStatus id s [ap_pending] now d = (true, d') → decidable id d ∧ not_pending id d'.
Proof.
  intros Hs E. destruct (updateApprovalStatus_frame id s [ap_pending] now d) as (E1&E2&_). rewrite E in E1, E2.
  simpl in E1, E2. split.
  - destruct (get_row _ _) as [a|] eqn:Eg; [|done]. apply get_row_Some in Eg as [Ha Hg].
    apply andb_prop in Hg as [Hk%bool_decide_eq_true Hp%bool_decide_eq_true]. exists a.
    split_and!; [done..|]. by apply list_elem_of_singleton in Hp.
  - unfold not_pending. rewrite E2. intros a (x & Hx & ->)%update_where_In Ha.
    destruct (approval_guard id [ap_pending] x) eqn:Eg; simpl; [done|]. intros Hp. unfold approval_guard, has_key in Eg.
    rewrite Ha, Hp, bool_decide_true in Eg by done. by rewrite bool_decide_true in Eg by (by apply list_elem_of_singleton).
Qed.

Lemma getApproval_id id d a : getApproval id d = Some a → pa_id a = id.
Proof.
  unfold getApproval. destruct (by_key ar_id id (c_approvals d)) as [r|] eqn:E; [|done]. simpl. unfold join_job.
  destruct (getJob _ _); [|done]. intros [= <-]. by apply by_key_Some in E as [_ ?].
Qed.

Lemma begin_decides id now d r d' : begins id now d = (r, d') → accepted r = true → decidable id d ∧ not_pending id d'.
Proof.
  unfold approve_begin. rewrite bind_gets. destruct (getApproval id d) as [a|] eqn:Ea; [|by intros [= <- _]].
  pose proof (getApproval_id _ _ _ Ea) as Hid.
  destruct (kind_of (pa_kind a)) as [k|] eqn:Ek.
  - apply kind_ops_table in Ek as [HT _]. unfold begin_operation. rewrite bind_gets.
    destruct (getOperationByApproval _ _ _) as [op|]; [|by intros [= <- _]].
    destruct (operation_proposal k a) as [p|]; [|by intros [= <- _]]. rewrite run_db_eq.
    destruct (updateApprovalStatus _ _ _ _ _) as [ok d1] eqn:Eu. simpl. destruct ok; simpl; [|by intros [= <- _]].
    rewrite Hid in Eu. apply updateApprovalStatus_decides in Eu as [H1 H2]; [|done].
    destruct (k_console k && _); [|by intros [= <- <-]]. rewrite run_db_eq. intros [= <- <-] _. split; [done|].
    unfold not_pending. destruct (updateOperationStatus_frame (k_table k) (or_id op) op_approved [("approvedAt", int now)] now d1 HT)
      as (_&->&_). done.
  - rewrite run_db_eq. destruct (updateApprovalStatus _ _ _ _ _) as [ok d1] eqn:Eu. simpl.
    destruct ok; simpl; [|by intros [= <- _]]. rewrite Hid in Eu. apply updateApprovalStatus_decides in Eu; [|done].
    by intros [= _ <-].
Qed.

Lemma settles_not_pending id d d' : settles false d d' → not_pending id d → not_pending id d'.
Proof.
  intros [H _] Hn a' (a & Ha & E & Hp)%H Hid Hs. apply (Hn a Ha); [congruence|].
  rewrite Hp; [done|]. by rewrite Hs.
Qed.

Lemma reject_decides id now d r d' : rejects id now d = (r, d') → answered_202 r = true →
  decidable id d ∧ not_pending id d'.
Proof.
  unfold reject. rewrite bind_gets. destruct (getApproval id d) as [a|] eqn:Ea; [|by intros [= <- _]].
  pose proof (getApproval_id _ _ _ Ea) as Hid. rewrite run_db_eq.
  destruct (updateApprovalStatus _ _ _ _ _) as [ok d1] eqn:Eu. simpl. destruct ok; simpl; [|by intros [= <- _]].
  rewrite Hid in Eu. apply updateApprovalStatus_decides in Eu as [H1 H2]; [|done].
  intros E _. split; [done|]. revert H2. apply settles_not_pending.
  match type of E with ?m d1 = _ => cut (keeps (settles false d1) m) end.
  { intros H. specialize (H d1). rewrite E in H. apply H. by apply settles_same. }
  destruct (bool_decide _); [keeps_all|]. destruct (kind_of (pa_kind a)) as [k|] eqn:Ek; [|keeps_all].
  apply kind_ops_table in Ek as [HT _]. unfold reject_operation. keeps_all.
Qed.

(** ** Every step settles, or adds under a new id *)
Lemma step_shape h h' : step h h' →
  (settles false (hs_db h) (hs_db h') ∧ hs_used h' = hs_used h) ∨
  (∃ id, id ∉ hs_used h ∧ hs_used h' = id :: hs_used h ∧ adds id (hs_db h) (hs_db h') ∧ hs_log h' = hs_log h).
Proof.
  assert (∀ d, settles false d d) as Hr by (intros ?; by apply settles_same).
  destruct 1 as [d used log id now r d' E|d used log id now r d' E|d used log d' Hq|d used log id d' Hid Hc]; simpl.
  - left. split; [|done]. pose proof (keeps_begin id now d d (Hr d)) as H. by rewrite E in H.
  - left. split; [|done]. pose proof (keeps_reject false id now d d (Hr d)) as H. by rewrite E in H.
  - left. split; [|done]. by apply quiet_settles.
  - right. exists id. split_and!; [done|done| |done]. by apply creates_adds.
Qed.

Definition settled (id : string) (h : history) : Prop := id ∈ hs_used h ∧ not_pending id (hs_db h).
Definition finished (id : string) (s : JobStatus) (h : history) : Prop :=
  id ∈ hs_used h ∧ is_active s = false ∧ ∀ j, In j (c_jobs (hs_db h)) → jb_id j = id → jb_status j = s.

Lemma settled_step id h h' : step h h' → settled id h → settled id h'.
Proof.
  intros [[Hs Hu]|(x & Hx & Hu & [Ha _] & _)]%step_shape [Hin Hn]; unfold settled; rewrite Hu.
  - split; [done|]. by apply (settles_not_pending id (hs_db h)).
  - split; [by right|]. intros a [Hd|[Hax _]]%Ha Hid; [by apply Hn|]. congruence.
Qed.

Lemma finished_step id s h h' : step h h' → finished id s h → finished id s h'.
Proof.
  intros [[[_ Hj] Hu]|(x & Hx & Hu & [_ Hj] & _)]%step_shape (Hin & Ha & Hn); unfold finished; rewrite Hu.
  - split; [done|]. split; [done|]. intros j' (j & Hjd & E & Hs)%Hj Hid.
    assert (jb_status j = s) as Hst by (apply Hn; congruence). rewrite <-Hst. apply Hs. by rewrite Hst.
  - split; [by right|]. split; [done|]. intros j [Hd|Hjx]%Hj Hid; [by apply Hn|]. congruence.
Qed.

(** The ids in use are known, and what is decided is settled. *)
Record history_ok (h : history) : Prop := HistoryOk {
  ho_approvals : ∀ a, In a (c_approvals (hs_db h)) → ar_id a ∈ hs_used h;
  ho_once : NoDup (hs_log h).*1;
  ho_settled : ∀ id, id ∈ (hs_log h).*1 → settled id h }.

Lemma history_decide d used log id e d' log' : history_ok (History d used log) → settles false d d' →
  (e = true → decidable id d ∧ not_pending id d') → log'.*1 = (if e then [id] else []) →
  history_ok (History d' used (log ++ log')).
Proof.
  intros [Ha Ho Hs] Hst He Hl. simpl in *. split; simpl.
  - intros a (a0 & Hin & E & _)%(st_approvals _ _ _ Hst). rewrite <-E. by apply Ha.
  - rewrite fmap_app, Hl. destruct e; [|by rewrite app_nil_r]. destruct He as [(a & Hin & Hid & Hp) _]; [done|].
    apply NoDup_app. split_and!; [done| |apply NoDup_singleton].
    intros x Hx ->%list_elem_of_singleton. destruct (Hs _ Hx) as [_ Hn]. by apply (Hn a).
  - intros x. rewrite fmap_app, Hl, elem_of_app. intros [Hx|Hx].
    + destruct (Hs x Hx) as [Hu Hn]. split; [done|]. by apply (settles_not_pending x d).
    + destruct e; [|by apply elem_of_nil in Hx]. apply list_elem_of_singleton in Hx as ->.
      destruct He as [(a & Hin & <- & _) Hn]; [done|]. split; [by apply Ha|done].
Qed.

Lemma history_step h h' : step h h' → history_ok h → history_ok h'.
Proof.
  intros Hstep Hok. pose proof (λ id, settled_step id h h' Hstep) as Hset. pose proof (step_shape h h' Hstep) as Hsh.
  destruct Hstep as [d used log id now r d' E|d used log id now r d' E|d used log d' Hq|d used log id d' Hid Hc].
  - destruct Hsh as [[Hs _]|(x & _ & Hx & _)]; [|by apply (f_equal length) in Hx; simpl in Hx; lia].
    apply (history_decide d used log id (accepted r)); [done..| |by destruct (accepted r)].
    by apply (begin_decides id now d r d').
  - destruct Hsh as [[Hs _]|(x & _ & Hx & _)]; [|by apply (f_equal length) in Hx; simpl in Hx; lia].
    apply (history_decide d used log id (answered_202 r)); [done..| |by destruct (answered_202 r)].
    by apply (reject_decides id now d r d').
  - rewrite <-(app_nil_r log). apply (history_decide d used log "" false); [done|by apply quiet_settles|done|done].
  - destruct Hok as [Ha Ho Hs]. split; simpl in *; [|done|auto].
    intros a [Hin|[Heq _]]%(ad_approvals id d d' (creates_adds id d d' Hc)); [|rewrite Heq; by left].
    right. by apply Ha.
Qed.

(** ** What is approved was accepted *)
Definition approved_accepted (h : history) : Prop :=
  ∀ a, In a (c_approvals (hs_db h)) → ar_status a = ap_approved → (ar_id a, Started) ∈ hs_log h.

(** A request touches the approval it names. *)
Lemma update_other_approval id s from now d a : In a (c_approvals (updateApprovalStatus id s from now d).2) →
  ar_id a = id ∨ In a (c_approvals d).
Proof.
  destruct (updateApprovalStatus_frame id s from now d) as (_&->&_). intros (x & Hx & ->)%update_where_In.
  destruct (approval_guard id from x) eqn:Eg; [|by right]. left. simpl.
  by apply andb_prop in Eg as [->%bool_decide_eq_true _].
Qed.

Lemma begin_approves id now d r d' a : begins id now d = (r, d') → In a (c_approvals d') →
  In a (c_approvals d) ∨ (ar_id a = id ∧ accepted r = true).
Proof.
  unfold approve_begin. rewrite bind_gets. destruct (getApproval id d) as [p|] eqn:Ea; [|intros [= _ <-]; auto].
  pose proof (getApproval_id _ _ _ Ea) as Hid.
  destruct (kind_of (pa_kind p)) as [k|] eqn:Ek.
  - apply kind_ops_table in Ek as [HT _]. unfold begin_operation. rewrite bind_gets.
    destruct (getOperationByApproval _ _ _) as [op|]; [|intros [= _ <-]; auto].
    destruct (operation_proposal k p) as [q|]; [|intros [= _ <-]; auto]. rewrite run_db_eq, Hid.
    pose proof (update_other_approval id ap_approved [ap_pending] now d a) as Hu.
    destruct (updateApprovalStatus_frame id ap_approved [ap_pending] now d) as (E1&E2&_).
    destruct (updateApprovalStatus id ap_approved [ap_pending] now d) as [[] d1]; simpl in *.
    2: { intros [= _ <-] Ha. left. rewrite E2 in Ha. unfold isSome in E1.
         destruct (get_row _ _) eqn:Eg; [done|]. by rewrite update_where_none in Ha. }
    destruct (k_console k && _).
    + rewrite run_db_eq. intros [= <- <-].
      destruct (updateOperationStatus_frame (k_table k) (or_id op) op_approved [("approvedAt", int now)] now d1 HT) as (_&->&_).
      intros [?|?]%Hu; auto.
    + intros [= <- <-] [?|?]%Hu; auto.
  - rewrite run_db_eq, Hid. pose proof (update_other_approval id ap_approved [ap_pending] now d a) as Hu.
    destruct (updateApprovalStatus_frame id ap_approved [ap_pending] now d) as (E1&E2&_).
    destruct (updateApprovalStatus id ap_approved [ap_pending] now d) as [[] d1]; simpl in *.
    + intros [= <- <-] [?|?]%Hu; [right|by left]. split; [done|]. by destruct (bool_decide _).
    + intros [= _ <-] Ha. left. rewrite E2 in Ha. unfold isSome in E1.
      destruct (get_row _ _) eqn:Eg; [done|]. by rewrite update_where_none in Ha.
Qed.

Lemma approved_step h h' : step h h' → (∀ a, In a (c_approvals (hs_db h)) → ar_id a ∈ hs_used h) →
  approved_accepted h → approved_accepted h'.
Proof.
  destruct 1 as [d used log id now r d' E|d used log id now r d' E|d used log d' Hq|d used log id d' Hid Hc];
    intros Hused H a Ha Hs; simpl in *.
  - apply elem_of_app. destruct (begin_approves id now d r d' a E Ha) as [Hin|[-> ->]]; [left; by apply H|right; by left].
  - apply elem_of_app. left. pose proof (keeps_reject true id now d d) as Hk. rewrite E in Hk.
    destruct (Hk ltac:(by apply settles_same)) as [HA _]. destruct (HA a Ha) as (a0 & Hin & <- & Hst).
    apply H; [done|]. simpl. rewrite Hst; [done|]. by rewrite Hs.
  - destruct (quiet_settles true d d' Hq) as [HA _]. destruct (HA a Ha) as (a0 & Hin & <- & Hst).
    apply H; [done|]. simpl. rewrite Hst; [done|]. by rewrite Hs.
  - destruct (ad_approvals id d d' (creates_adds id d d' Hc) a Ha) as [Hin|[_ Hp]]; [by apply H|congruence].
Qed.

(** C2: An approval is decided at most once.  However approve and reject
    requests, the segments that run after an operation's await, cancellations,
    worker claims, session deletions and the creation of new approvals and
    jobs interleave, the requests that are accepted - that start what was
    asked for or answer 202 - name each approval at most once, so nothing is
    applied twice and nothing rejected is applied; and what was decided never
    becomes pending again. *)
Theorem approval_decided_once d h :
  rtc step (History d (ar_id <$> c_approvals d) []) h →
  NoDup (hs_log h).*1 ∧ ∀ id x, (id, x) ∈ hs_log h → not_pending id (hs_db h).
Proof.
  intros Hr. assert (history_ok (History d (ar_id <$> c_approvals d) [])) as H0.
  { split; simpl; [|apply NoDup_nil_2|by intros id ?%elem_of_nil].
    intros a Ha. apply list_elem_of_fmap. exists a. by rewrite list_elem_of_In. }
  assert (history_ok h) as [_ Ho Hs].
  { induction Hr as [|h1 h2 h3 Hstep _ IH]; [done|]. apply IH. by apply (history_step h1). }
  split; [done|]. intros id x Hx. apply Hs. apply list_elem_of_fmap. by exists (id, x).
Qed.

(** C7: A finished job stays as it finished.  Once a job is completed, failed
    or cancelled, none of the interleaved segments of the approval and job
    routes and of the worker changes its status, so an operation that was
    still being applied when its job was cancelled does not revive it. *)
Theorem finished_job_stays h h' id s :
  rtc step h h' → id ∈ hs_used h → is_active s = false →
  (∀ j, In j (c_jobs (hs_db h)) → jb_id j = id → jb_status j = s) →
  ∀ j, In j (c_jobs (hs_db h')) → jb_id j = id → jb_status j = s.
Proof.
  intros Hr Hin Ha Hj. assert (finished id s h') as (_&_&H); [|done].
  assert (finished id s h) as H by (by split_and!). clear Hin Ha Hj.
  induction Hr as [|h1 h2 h3 Hstep _ IH]; [done|]. apply IH. by apply (finished_step id s h1).
Qed.
End Facts.

Notation demo_begin := (approve_begin no_apply no_apply no_apply no_apply exn_message exn_message exn_message exn_message).
Notation demo_step := (step no_apply no_apply no_apply no_apply exn_message exn_message exn_message exn_message
  (λ _ _ _, inr tt) no_mutation (λ _, inr tt) "/data").

Definition demo_started : history := History (demo_begin "a" 30 approvals_demo).2 ["a"] [("a", Started)].

Lemma approval_decided_once_witness : NoDup (hs_log demo_started).*1 ∧ not_pending "a" (hs_db demo_started).
Proof.
  destruct (approval_decided_once no_apply no_apply no_apply no_apply exn_message exn_message exn_message
    exn_message (λ _ _ _, inr tt) no_mutation (λ _, inr tt) "/data" approvals_demo demo_started) as [H1 H2].
  - apply rtc_once. apply (s_approve _ _ _ _ _ _ _ _ _ _ _ _ approvals_demo ["a"] [] "a" 30
      (demo_begin "a" 30 approvals_demo).1 (demo_begin "a" 30 approvals_demo).2). reflexivity.
  - split; [exact H1|]. apply (H2 "a" Started). by left.
Defined.

(** The job is cancelled while its operation is applied. *)
Definition demo_cancelled : core_db := (cancel_job "j2" 40 (hs_db demo_started)).2.
Definition demo_finished : core_db :=
  match demo_begin "a" 30 approvals_demo with
  | (inr (StartOperation k a op p), _) => (finish_operation k a op (inr []) 50 demo_cancelled).2
  | _ => demo_cancelled
  end.

Lemma finished_job_stays_witness : jb_status <$> getJob "j2" demo_finished = Some job_cancelled.
Proof.
  assert (∀ d0 d, demo_step (History d0 ["j2"] []) (History d ["j2"] []) →
    (∀ j, In j (c_jobs d0) → jb_id j = "j2" → jb_status j = job_cancelled) →
    ∀ j, In j (c_jobs d) → jb_id j = "j2" → jb_status j = job_cancelled) as H.
  { intros d0 d Hs Hc.
    apply (finished_job_stays no_apply no_apply no_apply no_apply exn_message exn_message exn_message
      exn_message (λ _ _ _, inr tt) no_mutation (λ _, inr tt) "/data"
      (History d0 ["j2"] []) (History d ["j2"] []) "j2" job_cancelled);
      [by apply rtc_once|by left|reflexivity|exact Hc]. }
  assert (∀ j, In j (c_jobs demo_cancelled) → jb_id j = "j2" → jb_status j = job_cancelled) as Hc.
  { intros j Hj. apply (Forall_In (λ j, jb_id j = "j2" → jb_status j = job_cancelled) (c_jobs demo_cancelled)); [|done].
    vm_compute. repeat constructor; intros [=]. }
  assert (demo_step (History demo_cancelled ["j2"] []) (History demo_finished ["j2"] [])) as Hs.
  { apply s_quiet. unfold demo_finished.
    destruct (demo_begin "a" 30 approvals_demo) as [[e|[r|k a op p|a ps]] d1] eqn:E; try by vm_compute in E.
    apply (q_finish _ _ _ _ _ _ _ _ _ _ _ _ _ docker_operation).
    vm_compute in E. injection E as <- _ _ _ _. reflexivity. }
  specialize (H demo_cancelled demo_finished Hs Hc).
  destruct (getJob "j2" demo_finished) as [j|] eqn:E; [|by vm_compute in E].
  apply by_key_Some in E as [Hin Hid]. simpl. by rewrite (H j Hin Hid).
Defined.
