(* ===== verification/DockerRoutes.v ===== *)
(** * Docker requests with a job

    apps/api/src/routes/docker.ts: creating a resource
    (POST /api/docker/proposals with the action "create"), pulling an image,
    and the consoles of containers (POST /api/docker/console-sessions and the
    WebSocket that opens one).

    A handler is cut where it awaits.  Creating a resource is
    [create_begin], the calls of [executeDockerCreate], and [create_finish];
    opening a console is the consumption of its ticket, the calls of the
    engine, and [markConsoleStarted] or [markConsoleStartupFailed].  The
    summary of the engine and its calls are parameters; other handlers run in
    between. *)
From Stdlib Require Import Ascii.
From S2P Require Import Confinement Mutations StorageScope.
From S2P Require Import Prelude Sql Json JsString Http CoreDb Jobs Operations FileBatches FileBatchRunner ApprovalRoutes.
From S2P Require Import NasRoots DockerChecks DockerNetworks DockerMounts DockerCreate DockerRegistry.
Open Scope Z_scope.

(** ** lib/docker-service.ts *)
Definition bearer_match (s : string) : option (string * string) :=
  if negb (front_is "bearer" s) then None else
  let '(w, r) := span_str is_white (drop_str 6 s) in
  if bool_decide (w = "") then None else rest ← token r; Some ("Bearer [redacted]", rest).
Definition safeDockerMessage (message : string) : string := take_str 500 (replace_pattern bearer_match message).

(** ** Creating a resource *)
Record create_ids := CreateIds { ci_message : string; ci_job : string; ci_note : string; ci_operation : string }.
Record created_rows := CreatedRows { ce_message : AgentMessageRecord; ce_job : JobRecord; ce_operation : operation_record }.
Record create_reply := CreateReply {
  cy_message : AgentMessageRecord; cy_job : JobRecord; cy_operation : option operation_record;
  cy_result : DockerCreateResult; cy_warning : option string
}.
Definition summary_of (p : PreparedDockerCreate) : string := as_string (prop (proposal_of p) "summary") ⁇ "".

Definition create_begin (ids : create_ids) (sessionId : string) (p : PreparedDockerCreate) (now : Z) : core_prog created_rows :=
  '(message, job, _) ← createActionMessageAndJob (ci_message ids) (ci_job ids) (ci_note ids) sessionId (summary_of p)
                         note_docker action_running now;
  operation ← createDockerOperationRecord (ci_operation ids) (jb_id job) (proposal_of p) now;
  running ← run_db (updateDockerOperationStatus (or_id operation) op_proposed
              [("request", JObj (audit_of p)); ("phase", JStr "create"); ("startedAt", int now)] now);
  _ ← appendEvent sessionId (Some (jb_id job)) ev_job_running
        (JObj [("jobId", JStr (jb_id job)); ("dockerOperation", operation_json (running ⁇ operation))]) now;
  mret (CreatedRows message job (running ⁇ operation)).

(** [getRegistryAuth]; [records] are the credentials when it is called. *)
Definition registry_auth url_hostname (records : list DockerRegistryCredentialRecord) (p : PreparedDockerCreate) : exn + option string :=
  match p with
  | PreparedContainer r =>
      credential ← findDockerRegistryCredential url_hostname records (Some (JStr (ig_image (ct_image r))));
      inr (option_map dockerRegistryAuthHeader credential)
  | _ => inr None
  end.

Definition dockerCreateErrorStatus (e : exn) : Z :=
  let conflict (name : string) := bool_decide (name = "DockerRequestError") && bool_decide (exn_status e = Some 409) in
  if instance_of "DockerCreateValidationError" e then exn_status e ⁇ 400
  else if instance_of "DockerCreateExecutionError" e then if existsb conflict (exn_paths e) then 409 else 502
  else if conflict (exn_name e) then 409 else 400.
Definition failure_phase (e : exn) : string := if instance_of "DockerCreateExecutionError" e then exn_code e ⁇ "pull" else "pull".
Definition failure_audit (e : exn) : string :=
  if bool_decide (failure_phase e = "pull") then "Docker image preparation failed" else "Docker resource creation failed".
Definition partial_audit : string := "Docker container was created but could not be started".
Definition finalize_warning : string := "Docker resource was created, but operation history could not be finalized".

Definition optional_json {A} (k : string) (f : A → json) (v : option A) : list (string * json) :=
  match v with Some v => [(k, f v)] | None => [] end.
(** The result without its error. *)
Definition dockerCreateAuditResult (r : DockerCreateResult) : json :=
  JObj ([("kind", JStr (dr_kind r)); ("id", JStr (dr_id r)); ("name", JStr (dr_name r)); ("created", JBool true)] ++
        optional_json "pulled" JBool (dr_pulled r) ++ optional_json "started" JBool (dr_started r) ++
        [("warnings", JArr (JStr <$> dr_warnings r)); ("partialSuccess", JBool (dr_partialSuccess r))] ++
        optional_json "phase" JStr (dr_phase r)).
Definition public_result (r : DockerCreateResult) : DockerCreateResult :=
  CreateResult (dr_kind r) (dr_id r) (dr_name r) (dr_pulled r) (dr_started r) (dr_warnings r) (dr_partialSuccess r) (dr_phase r)
    match dr_error r with Some e => Some (if bool_decide (e = "") then e else safeDockerMessage e) | None => None end.

(** The operation, then its job, then the event. *)
Definition settle_create (rows : created_rows) (sessionId : string) (status : operation_status) (metadata : list (string * json))
    (js : JobStatus) (error : option string) (now : Z) : core_prog (option operation_record) :=
  settled ← run_db (updateDockerOperationStatus (or_id (ce_operation rows)) status metadata now);
  _ ← run_db (updateJobStatus (jb_id (ce_job rows)) js error [job_running] now);
  _ ← appendEvent sessionId (Some (jb_id (ce_job rows))) (if bool_decide (js = job_completed) then ev_job_completed else ev_job_failed)
        (JObj ([("jobId", JStr (jb_id (ce_job rows)))] ++ optional_json "error" JStr error ++
               [("dockerOperation", from_option operation_json JNull settled)])) now;
  mret settled.
Definition create_failed (rows : created_rows) (sessionId : string) (e : exn) (records : list DockerRegistryCredentialRecord) (now : Z) :
    core_prog (reply create_reply) :=
  _ ← try_catch
        (settle_create rows sessionId op_failed
           [("phase", JStr (failure_phase e)); ("partialSuccess", JBool false); ("failedAt", int now)] job_failed (Some (failure_audit e)) now)
        (λ _, mret None);
  mret (send_error (dockerCreateErrorStatus e) (redactDockerRegistrySecrets (exn_message e) records 500)).
Definition create_done (rows : created_rows) (sessionId : string) (result : DockerCreateResult) (now : Z) : core_prog (reply create_reply) :=
  let answer settled warning : core_prog (reply create_reply) :=
    job ← gets (getJob (jb_id (ce_job rows)));
    mret (send_status 202 (CreateReply (ce_message rows) (job ⁇ ce_job rows) settled (public_result result) warning)) in
  let audit := [("result", dockerCreateAuditResult result)] in
  try_catch
    (settled ← (if dr_partialSuccess result
                then settle_create rows sessionId op_failed
                       (audit ++ [("phase", JStr (dr_phase result ⁇ "start")); ("partialSuccess", JBool true); ("failedAt", int now)])
                       job_failed (Some partial_audit) now
                else settle_create rows sessionId op_applied (audit ++ [("phase", JStr "create"); ("appliedAt", int now)]) job_completed None now);
     answer settled None)
    (λ _, operation ← gets (getDockerOperation (or_id (ce_operation rows)));
          answer (Some (operation ⁇ ce_operation rows)) (Some finalize_warning)).
(** The [catch] around the handler: the request is refused before [create_begin]
    ends. *)
Definition create_refused (e : exn) : reply create_reply := send_error (dockerCreateErrorStatus e) (safeDockerMessage (exn_message e)).
(** A call that pulls, for which the credentials were read. *)
Definition is_pull (c : engine_call) : bool := match c with PullImage _ _ => true | _ => false end.
(** After the calls [log] of the engine came to [outcome]; the credentials were
    read when an image was pulled. *)
Definition create_finish (rows : created_rows) (sessionId : string) (outcome : exn + DockerCreateResult) (log : list engine_call)
    (records : list DockerRegistryCredentialRecord) (now : Z) : core_prog (reply create_reply) :=
  match outcome with
  | inl e => create_failed rows sessionId e (if existsb is_pull log then records else []) now
  | inr result => create_done rows sessionId result now
  end.

(** ** Pulling an image *)
Definition sendDockerImageError (e : exn) (records : list DockerRegistryCredentialRecord) : reply json :=
  if instance_of "DockerRegistryValidationError" e then send_error 400 (exn_message e) else
  let status := if instance_of "DockerRequestError" e && bool_decide (exn_status e ∈ [Some 404; Some 409]) then exn_status e ⁇ 502 else 502 in
  send_error status (redactDockerRegistrySecrets (exn_message e) records 500).
Definition pull_image url_hostname (enabled : bool) (engine : DockerEngineRuntime) (records : list DockerRegistryCredentialRecord)
    (reference : option json) : prog (list engine_call) (reply json) :=
  if negb enabled then mret (send_error 503 "Docker management is disabled") else
  try_catch
    (reference ← check (normalizeDockerImageReference url_hostname reference);
     credential ← check (findDockerRegistryCredential url_hostname records (Some (JStr reference)));
     _ ← ask (en_pullImage engine) (PullImage reference (option_map dockerRegistryAuthHeader credential));
     mret (send (JObj [("result", JObj [("reference", JStr reference)])])))
    (λ e, mret (sendDockerImageError e records)).

(** ** Consoles *)
Definition some_text (v : option string) : option string := match v with Some "" => None | v => v end.
Definition dockerProposalFromOperation (o : operation_record) : option (list (string * json)) :=
  match prop (or_metadata o) "proposal" with Some (JObj ps) => if hasOwn ps "action" then Some ps else None | _ => None end.
Definition post_console_session (enabled : bool) (authId : string) (operationId : option string) (now : Z) : core_prog (reply json) :=
  if negb enabled then mret (send_error 503 "Docker management is disabled") else
  operation ← gets (getDockerOperation (operationId ⁇ ""));
  match operation with
  | Some o =>
      match some_text (or_approvalId o) with
      | Some approvalId =>
          if negb (bool_decide (or_action o = "console") && bool_decide (or_status o = op_approved))
          then mret (send_error 404 "Approved console operation not found") else
          match dockerProposalFromOperation o with
          | Some ps =>
              match some_text (str_prop ps "containerId"), some_text (str_prop ps "shell") with
              | Some containerId, Some shell =>
                  authorization ← try_catch
                    (inr <$> createDockerConsoleAuthorization authId (or_id o) approvalId containerId shell None now)
                    (λ e, mret (inl (safeDockerMessage (exn_message e))));
                  match authorization with
                  | inl message => mret (send_error 404 message)
                  | inr a =>
                      _ ← run_db (updateDockerOperationStatus (or_id o) op_approved [("consoleSessionId", JStr (co_id a))] now);
                      mret (send_status 201 (JObj [("consoleSession", JObj
                        [("id", JStr (co_id a)); ("operationId", JStr (or_id o)); ("containerId", JStr (co_target a));
                         ("shell", nullable (co_shell a)); ("expiresAt", int (co_expiresAt a));
                         ("websocketUrl", JStr ("/api/docker/console/" +:+ co_id a))])]))
                  end
              | _, _ => mret (send_error 400 "Console operation is missing container or shell metadata")
              end
          | None => mret (send_error 400 "Console operation is missing container or shell metadata")
          end
      | None => mret (send_error 404 "Approved console operation not found")
      end
  | None => mret (send_error 404 "Approved console operation not found")
  end.

Definition consume_console (id : string) (now : Z) : core_prog (option console_authorization) :=
  run_db (λ d, let '(r, t) := consumeDockerConsoleAuthorization id now (c_docker_consoles d) in (r, d <| c_docker_consoles := t |>)).
Definition approval_of (auth : console_authorization) (d : core_db) : option PendingApprovalRecord :=
  co_approvalId auth ≫= λ id, getApproval id d.
Definition markConsoleStarted (auth : console_authorization) (execId : string) (now : Z) : core_prog unit :=
  applied ← run_db (updateDockerOperationStatus (co_operationId auth) op_applied
              [("consoleSessionId", JStr (co_id auth)); ("execId", JStr execId); ("openedAt", int now)] now);
  approval ← gets (approval_of auth);
  match approval with
  | None => mret tt
  | Some a =>
      _ ← run_db (updateApprovalStatus (pa_id a) ap_applied [ap_approved] now);
      _ ← run_db (updateJobStatus (pa_jobId a) job_completed None [job_waiting_approval; job_completed] now);
      _ ← appendEvent (pa_sessionId a) (Some (pa_jobId a)) ev_job_completed
            (JObj [("jobId", JStr (pa_jobId a)); ("approvalId", JStr (pa_id a));
                   ("dockerOperation", from_option operation_json JNull applied)]) now;
      mret tt
  end.
Definition markConsoleStartupFailed (auth : console_authorization) (message : string) (now : Z) : core_prog unit :=
  _ ← run_db (λ d, let '(r, t) := markDockerConsoleAuthorizationFailed (co_id auth) (c_docker_consoles d) in (r, d <| c_docker_consoles := t |>));
  failed ← run_db (updateDockerOperationStatus (co_operationId auth) op_failed [("error", JStr message); ("failedAt", int now)] now);
  approval ← gets (approval_of auth);
  match approval with
  | None => mret tt
  | Some a =>
      _ ← run_db (updateApprovalStatus (pa_id a) ap_failed [ap_approved; ap_applied] now);
      _ ← run_db (updateJobStatus (pa_jobId a) job_failed (Some message) [] now);
      _ ← appendEvent (pa_sessionId a) (Some (pa_jobId a)) ev_job_failed
            (JObj [("error", JStr message); ("approvalId", JStr (pa_id a));
                   ("dockerOperation", from_option operation_json JNull failed)]) now;
      mret tt
  end.
(** The engine's calls came to an exec or an error.  [markConsoleStarted] is
    within the [try] too. *)
Definition console_opened (auth : console_authorization) (r : exn + string) (now : Z) : core_prog unit :=
  try_catch (execId ← lift r; markConsoleStarted auth execId now)
            (λ e, markConsoleStartupFailed auth (safeDockerMessage (exn_message e)) now).

(** ** A request is settled *)
(** The rows that [create_begin] leaves, whatever has happened to the job since. *)
Record create_open (rows : created_rows) (sessionId : string) (d : core_db) : Prop := CreateOpen {
  cp_operation : getDockerOperation (or_id (ce_operation rows)) d = Some (ce_operation rows);
  cp_jobs : unique_keys jb_id (c_jobs d);
  cp_job : is_Some (getJob (jb_id (ce_job rows)) d);
  cp_session : has_session sessionId d = true;
  cp_log : log_ok d
}.

(** What settling makes of a job: it was cancelled meanwhile, or it ends. *)
Definition job_settled (js : JobStatus) (error : option string) (now : Z) (j : JobRecord) : JobRecord :=
  if bool_decide (jb_status j = job_running) then set_job_status js error now j else j.
Lemma update_running id s e now d j : unique_keys jb_id (c_jobs d) → getJob id d = Some j →
  getJob id (updateJobStatus id s e [job_running] now d).2 = Some (job_settled s e now j).
Proof.
  intros Hu Hj. unfold job_settled. destruct (decide (jb_status j = job_running)) as [Hr|Hr]; [rewrite bool_decide_true by done|rewrite bool_decide_false by done].
  - apply (update_job id s e [job_running] now d j Hu Hj). rewrite Hr. apply list_elem_of_here.
  - rewrite updateJobStatus_stuck; [done|]. intros r Hin. unfold job_guard. destruct (has_key jb_id id r) eqn:Ek; [|done].
    apply bool_decide_eq_true in Ek. apply by_key_Some in Hj as [Hj Hid]. apply bool_decide_eq_false.
    assert (r = j) as -> by (apply (unique_key_eq jb_id (c_jobs d)); congruence). by intros ?%list_elem_of_singleton.
Qed.

Lemma settle_create_spec rows sessionId status metadata js error now d j (Ho : create_open rows sessionId d)
    (Hj : getJob (jb_id (ce_job rows)) d = Some j) (Hjs : js ≠ job_cancelled) :
  let op' := op_settled (ce_operation rows) status metadata now in
  ∃ d', settle_create rows sessionId status metadata js error now d = (inr (Some op'), d') ∧
    getDockerOperation (or_id (ce_operation rows)) d' = Some op' ∧
    getJob (jb_id (ce_job rows)) d' = Some (job_settled js error now j) ∧ c_approvals d' = c_approvals d ∧
    ∃ n type payload, c_events d' = c_events d ++ [EventRow n sessionId (Some (jb_id (ce_job rows))) type payload now].
Proof.
  destruct Ho as [Hop Hu _ Hs Hlog]. intros op'. unfold settle_create.
  destruct (updateOperationStatus_eq docker_table (ce_operation rows) status metadata now d (or_introl eq_refl) Hop)
    as (E1 & Eop & Ea1 & Ej1 & El1). unfold updateDockerOperationStatus. rewrite run_db_eq, E1. fold op'.
  set (d1 := (updateOperationStatus _ _ _ _ _ d).2) in *. clearbody d1. rewrite run_db_eq.
  assert (getJob (jb_id (ce_job rows)) d1 = Some j) as Hj1 by (unfold getJob in *; by rewrite Ej1).
  pose proof (update_running (jb_id (ce_job rows)) js error now d1 j ltac:(by rewrite Ej1) Hj1) as Hj2.
  destruct (updateJobStatus_keeps (jb_id (ce_job rows)) js error [job_running] now d1 Hjs) as (Ea2 & Et2 & El2). cbv zeta in Ea2, Et2, El2.
  set (d2 := (updateJobStatus _ js error [job_running] now d1).2) in *. clearbody d2.
  assert (log_part d2 = log_part d) as El by congruence.
  match goal with |- context [appendEvent ?s ?jb ?t ?p now] =>
    destruct (appendEvent_logs s jb t p now d2) as (r & d' & Ee & _ & Hsame & Hev) end.
  { by apply (log_part_ok d). }
  { injection El as Es. unfold has_session. by rewrite Es. }
  { unfold opt_ref, has_job. unfold getJob in Hj2. by rewrite Hj2. }
  exists d'. rewrite (bind_inr _ _ _ _ _ Ee). split; [done|]. rewrite Hev. injection El as _ _ Eev _ _ _. rewrite Eev.
  split; [|split; [|split; [|by eexists _, _, _]]]; rewrite Hsame; simpl.
  - transitivity (getDockerOperation (or_id (ce_operation rows)) d1); [|done]. unfold getDockerOperation, getOperation.
    f_equal. apply (known_rows docker_table d1 d2); [by left|done].
  - done.
  - congruence.
Qed.

(** C31: Whatever the engine did - the resource is there, is there but not
    started, or an error of any kind - and whatever other requests did to its
    job meanwhile, the handler replies, and the operation is settled: applied
    exactly when there was a result without a partial failure, else failed; a
    job that still ran is completed or failed to match, and one that was
    cancelled stays so; one event is appended; no approval changes. *)
Theorem create_finish_settles rows sessionId outcome log records now d j (Ho : create_open rows sessionId d)
    (Hj : getJob (jb_id (ce_job rows)) d = Some j) :
  let full := match outcome with inr result => negb (dr_partialSuccess result) | inl _ => false end in
  ∃ r op' d', create_finish rows sessionId outcome log records now d = (inr r, d') ∧
    getDockerOperation (or_id (ce_operation rows)) d' = Some op' ∧ or_status op' = (if full then op_applied else op_failed) ∧
    (∃ error, getJob (jb_id (ce_job rows)) d' = Some (job_settled (if full then job_completed else job_failed) error now j) ∧
              (error = None ↔ full = true)) ∧
    c_approvals d' = c_approvals d ∧
    (∃ n type payload, c_events d' = c_events d ++ [EventRow n sessionId (Some (jb_id (ce_job rows))) type payload now]) ∧
    match outcome with
    | inr result => ∃ b, r = send_status 202 b ∧ cy_operation b = Some op' ∧ cy_warning b = None ∧
                         getJob (jb_id (ce_job rows)) d' = Some (cy_job b) ∧ cy_result b = public_result result
    | inl e => r = send_error (dockerCreateErrorStatus e)
                     (redactDockerRegistrySecrets (exn_message e) (if existsb is_pull log then records else []) 500)
    end.
Proof.
  destruct outcome as [e|result]; cbv zeta; unfold create_finish.
  - unfold create_failed, try_catch.
    destruct (settle_create_spec rows sessionId op_failed [("phase", JStr (failure_phase e)); ("partialSuccess", JBool false);
      ("failedAt", int now)] job_failed (Some (failure_audit e)) now d j Ho Hj) as (d' & E & Hop & Hj' & Ha & Hev); [done|].
    eexists _, _, d'. unfold mbind, prog_bind. rewrite E. split_and!; [done|exact Hop|done| |done|done|done].
    exists (Some (failure_audit e)). by split.
  - unfold create_done, try_catch. destruct (dr_partialSuccess result) eqn:Ep.
    + edestruct (settle_create_spec rows sessionId op_failed ([("result", dockerCreateAuditResult result)] ++
        [("phase", JStr (dr_phase result ⁇ "start")); ("partialSuccess", JBool true); ("failedAt", int now)])
        job_failed (Some partial_audit) now d j Ho Hj) as (d' & E & Hop & Hj' & Ha & Hev); [done|]. eexists _, _, d'. unfold mbind, prog_bind, gets. rewrite E, Hj'.
      split_and!; [done|exact Hop|done| |done|done|by eexists]. eexists. by split.
    + edestruct (settle_create_spec rows sessionId op_applied ([("result", dockerCreateAuditResult result)] ++
        [("phase", JStr "create"); ("appliedAt", int now)])
        job_completed None now d j Ho Hj) as (d' & E & Hop & Hj' & Ha & Hev); [done|]. eexists _, _, d'. unfold mbind, prog_bind, gets. rewrite E, Hj'.
      split_and!; [done|exact Hop|done| |done|done|by eexists]. eexists. by split.
Qed.

(** ** A request begins *)
Lemma transaction_inv {S A} (m : prog S A) s a s' : transaction m s = (inr a, s') → m s = (inr a, s').
Proof. unfold transaction. destruct (m s) as [[e|b] s1]; [done|]. by intros [= -> ->]. Qed.
Lemma by_key_inserted {R} (key : R → string) t r : by_key key (key r) t = None → by_key key (key r) (insert_row r t) = Some r.
Proof. intros Hnone. rewrite by_key_insert, Hnone. unfold has_key. by rewrite bool_decide_true. Qed.
Lemma insert_notification_frame n d u d' : insert_notification n d = (inr u, d') →
  c_jobs d' = c_jobs d ∧ log_frame d d' ∧ c_docker_operations d' = c_docker_operations d.
Proof. unfold insert_notification. destruct (exists_where _ _); [done|]. by intros (_ & _ & ->)%checked_insert_inv. Qed.
Lemma createActionMessageAndJob_running mid jid nid sid content kind now d m j n d' : unique_keys jb_id (c_jobs d) → log_ok d →
  createActionMessageAndJob mid jid nid sid content kind action_running now d = (inr (m, j, n), d') →
  jb_id j = jid ∧ jb_status j = job_running ∧ getJob jid d' = Some j ∧ unique_keys jb_id (c_jobs d') ∧
  has_session sid d' = true ∧ log_ok d' ∧ c_docker_operations d' = c_docker_operations d.
Proof.
  intros Hu Hlog. unfold createActionMessageAndJob. cbv zeta. intros (note & d1 & H%transaction_inv & E)%bind_inv.
  injection E as <- <- <- <-. apply bind_inv in H as (u1 & d2 & (_ & _ & E2)%checked_insert_inv & H).
  apply bind_inv in H as (u2 & d3 & (Hn & Hr & E3)%checked_insert_inv & H).
  apply bind_inv in H as (note' & d4 & (u4 & d4' & Hnote%insert_notification_frame & E4)%bind_inv & H).
  injection E4 as <- ->. apply bind_inv in H as (u5 & d5 & E5 & H). injection E5 as _ <-. injection H as <- <-.
  destruct Hnote as (Ej & Hf & Eo). apply andb_prop in Hr as [Hs _]. subst d2. cbn [jb_sessionId jb_id] in *.
  assert (c_jobs d4 = insert_row (Job jid sid mid agent_job job_running now now None) (c_jobs d)) as Ej4 by (by rewrite Ej, E3).
  split; [done|]. split; [done|]. split; [|split; [|split; [|split]]].
  - unfold getJob, touch_session. simpl. rewrite Ej4.
    by apply (by_key_inserted jb_id _ (Job jid sid mid agent_job job_running now now None)).
  - unfold touch_session. simpl. rewrite Ej4. by apply unique_keys_insert.
  - unfold has_session, touch_session. simpl. rewrite by_key_update by done. destruct Hf as (-> & _). rewrite E3. simpl.
    unfold has_session in Hs. simpl in Hs. by destruct (by_key se_id sid (c_sessions d)).
  - destruct Hf as (_ & E1 & E2 & E4 & E6), Hlog as [L1 L2 L3 L4]. rewrite E3 in E1, E2, E4, E6.
    split; unfold touch_session; simpl; by rewrite ?E1, ?E2, ?E4, ?E6.
  - unfold touch_session. simpl. by rewrite Eo, E3.
Qed.

(** The event of the begin succeeds and leaves the rows. *)
Lemma create_begin_opens ids sessionId p now d rows d' (Hu : unique_keys jb_id (c_jobs d)) (Hlog : log_ok d)
    (H : create_begin ids sessionId p now d = (inr rows, d')) :
  create_open rows sessionId d' ∧
  (∃ j, getJob (jb_id (ce_job rows)) d' = Some j ∧ jb_status j = job_running) ∧
  or_status (ce_operation rows) = op_proposed ∧ or_approvalId (ce_operation rows) = None.
Proof.
  unfold create_begin in H. apply bind_inv in H as ([[m j] n] & d1 & Hb & H).
  apply createActionMessageAndJob_running in Hb as (Hid & Hst & Hj & Hu1 & Hs & Hlog1 & _); [|done|done].
  apply bind_inv in H as (o & d2 & Ho & H). unfold createDockerOperationRecord, createOperationRecord, find_job in Ho.
  apply bind_inv in Ho as (j' & d2' & Hf & Ho). rewrite bind_gets in Hf. destruct (getJob (jb_id j) d1); [|done]. injection Hf as <- <-.
  apply bind_inv in Ho as (u & d3 & (Hnone & _ & E3)%checked_insert_inv & Ho). injection Ho as <- <-.
  set (op := OperationRecord _ _ _ _ _ _ _ _ _) in *. 
  assert (getDockerOperation (or_id op) d3 = Some op) as Hop.
  { unfold getDockerOperation, getOperation. rewrite E3. simpl. by apply (by_key_inserted or_id _ op). }
  unfold updateDockerOperationStatus in H. rewrite run_db_eq in H.
  destruct (updateOperationStatus_eq docker_table op op_proposed
    [("request", JObj (audit_of p)); ("phase", JStr "create"); ("startedAt", int now)] now d3 (or_introl eq_refl) Hop) as (E4 & Eop & _ & Ej4 & El4).
  change (updateOperationStatus docker_table (or_id op)) with (updateOperationStatus docker_table (ci_operation ids)) in E4.
  change (or_id op) with (ci_operation ids) in H.
  rewrite E4 in H. set (d4 := (updateOperationStatus _ _ _ _ _ d3).2) in *. clearbody d4. cbn [default] in H.
  assert (c_jobs d4 = c_jobs d1) as Ej by (rewrite Ej4, E3; done). assert (log_part d4 = log_part d1) as El by (rewrite El4, E3; done).
  apply bind_inv in H as (ev & d5 & Hev & H). injection H as <- <-.
  match type of Hev with appendEvent ?s ?jb ?t ?pl _ _ = _ =>
    destruct (appendEvent_logs s jb t pl now d4) as (r & d5' & Ee & Hlog5 & Hsame & _) end.
  { by apply (log_part_ok d1). }
  { injection El as Es. unfold has_session. by rewrite Es. }
  { unfold opt_ref, has_job. unfold getJob in Hj. rewrite Ej, Hid. by rewrite Hj. }
  rewrite Ee in Hev. injection Hev as _ <-. cbn [ce_job ce_operation].
  assert (getJob (jb_id j) d5' = Some j) as Hj5 by (rewrite Hsame; unfold getJob; simpl; rewrite Ej, Hid; exact Hj).
  split; [|split; [by exists j|done]]. split; cbn [ce_job ce_operation].
  - rewrite Hsame. exact Eop.
  - rewrite Hsame. simpl. by rewrite Ej.
  - by exists j.
  - rewrite Hsame. injection El as Es. unfold has_session in *. simpl. by rewrite Es.
  - done.
Qed.

(** ** Demonstrations *)
Module RoutesDemo.
Definition volume : PreparedDockerCreate := PreparedVolume "data" [].
Definition demo_ids : create_ids := CreateIds "m9" "j9" "n9" "o9".
Definition no_rows : created_rows :=
  CreatedRows (AgentMessage "" "" role_user "" 0) (Job "" "" "" agent_job job_running 0 0 None)
    (OperationRecord "" None "" None "" op_proposed [] 0 0).
Definition begun : core_db := (create_begin demo_ids "s" volume 60 jobs_demo).2.
Definition begun_rows : created_rows := match (create_begin demo_ids "s" volume 60 jobs_demo).1 with inr r => r | inl _ => no_rows end.
(** The job is cancelled while the engine creates the volume. *)
Definition cancelled : core_db := (cancel_job "j9" 65 begun).2.
Definition volume_created : DockerCreateResult := CreateResult "volume" "data" "data" None None [] false None None.
Lemma cancelled_open : create_open begun_rows "s" cancelled.
Proof.
  split; [vm_compute; reflexivity|apply (bool_decide_eq_true_1 (NoDup _)); vm_compute; reflexivity
    |vm_compute; by eexists|vm_compute; reflexivity|split; vm_compute; repeat constructor; done].
Qed.
Definition cancelled_job : JobRecord := Job "j9" "s" "m9" agent_job job_cancelled 60 65 None.
Lemma create_finish_settles_witness : ∃ r op' d',
  create_finish begun_rows "s" (inr volume_created) [] [] 70 cancelled = (inr r, d') ∧
  getDockerOperation "o9" d' = Some op' ∧ or_status op' = op_applied ∧ getJob "j9" d' = Some cancelled_job.
Proof.
  assert (getJob (jb_id (ce_job begun_rows)) cancelled = Some cancelled_job) as Hj by (vm_compute; reflexivity).
  pose proof (create_finish_settles begun_rows "s" (inr volume_created) [] [] 70 cancelled cancelled_job cancelled_open Hj) as H.
  destruct H as (r & op' & d' & E & Hop & Hs & (error & Hj' & _) & _). exists r, op', d'.
  split; [exact E|]. split; [exact Hop|]. split; [exact Hs|exact Hj'].
Defined.

(** A console whose job was cancelled after its approval: when its startup
    fails the job becomes failed, since [markConsoleStartupFailed] updates it
    whatever its status. *)
Definition console_demo : core_db :=
  let d := (createDockerOperationApproval "a" "op" "j2" [("action", JStr "console"); ("containerId", JStr "c"); ("shell", JStr "sh")] 25 jobs_demo).2 in
  let d := (updateApprovalStatus "a" ap_approved [ap_pending] 26 d).2 in
  let d := (updateDockerOperationStatus "op" op_approved [] 26 d).2 in
  let d := (post_console_session true "auth" (Some "op") 30 d).2 in
  (cancel_job "j2" 31 d).2.
Definition console_failed_demo : core_db :=
  match (consume_console "auth" 32 console_demo) with
  | (inr (Some auth), d) => (console_opened auth (inl (Error "no such shell")) 33 d).2
  | (_, d) => d
  end.
Example console_failure_overwrites :
  (jb_status <$> getJob "j2" console_demo) = Some job_cancelled ∧
  (jb_status <$> getJob "j2" console_failed_demo) = Some job_failed.
Proof. vm_compute. done. Qed.
End RoutesDemo.
