(* ===== verification/PiTools.v ===== *)
(** * The tools of the Pi agent

    packages/agent/src/pi-agent.ts: the policy of each tool, the approval a
    dangerous one waits for, and the pure helpers of the tools; the policy
    settings of packages/db/src/repositories/settings-{constants,mappers}.ts.

    The agent package knows nothing of the database: what it calls back is the
    class [ToolHost], which the worker implements (Processor).  The model
    provider and the tool loop of the Pi SDK are not modelled.  Other
    processes may write between any two callbacks: [env] says what they do at
    each point. *)
From Stdlib Require Import Ascii.
From stdpp Require Import pretty.
From S2P Require Import Prelude Json JsString CoreDb Jobs.
Open Scope Z_scope.

(** ** Policies *)
Inductive PiToolName := tool_read | tool_bash | tool_edit | tool_write | tool_grep | tool_find | tool_ls.
Inductive PiToolPolicyMode := mode_auto | mode_ask | mode_disabled.
#[global] Instance PiToolName_eq_dec : EqDecision PiToolName. Proof. solve_decision. Defined.
#[global] Instance PiToolPolicyMode_eq_dec : EqDecision PiToolPolicyMode. Proof. solve_decision. Defined.

Definition tool_text (t : PiToolName) : string :=
  match t with
  | tool_read => "read" | tool_bash => "bash" | tool_edit => "edit" | tool_write => "write"
  | tool_grep => "grep" | tool_find => "find" | tool_ls => "ls"
  end.
Definition READ_ONLY_PI_TOOLS : list PiToolName := [tool_read; tool_grep; tool_find; tool_ls].
Definition DANGEROUS_PI_TOOLS : list PiToolName := [tool_bash; tool_edit; tool_write].

Record PiToolPolicySettingsRecord := PiToolPolicy { policy_of : PiToolName → PiToolPolicyMode; policy_updatedAt : string }.
Definition DEFAULT_PI_TOOL_POLICY_SETTINGS (t : PiToolName) : PiToolPolicyMode :=
  if bool_decide (t ∈ READ_ONLY_PI_TOOLS) then mode_auto else mode_ask.

Definition parse_mode (v : json) : option PiToolPolicyMode :=
  match v with
  | JStr s => if bool_decide (s = "auto") then Some mode_auto
              else if bool_decide (s = "ask") then Some mode_ask
              else if bool_decide (s = "disabled") then Some mode_disabled else None
  | _ => None
  end.
Definition isPiToolPolicyMode (v : json) : bool := isSome (parse_mode v).
Definition isDangerousPiToolPolicyMode (v : json) : bool :=
  match parse_mode v with Some mode_ask | Some mode_disabled => true | _ => false end.

(** [settings[tool] ?? default]: null and undefined take the default. *)
Definition mode_setting (settings : list (string * json)) (t : PiToolName) : option json :=
  match prop settings (tool_text t) with Some JNull | None => None | Some v => Some v end.

(** The mode of one tool, or the error thrown for it.  [String(mode)] of a
    value that is not a string is the parameter. *)
Definition normalize_mode (show : json → string) (settings : list (string * json)) (t : PiToolName)
    : exn + PiToolPolicyMode :=
  match mode_setting settings t with
  | None => inr (DEFAULT_PI_TOOL_POLICY_SETTINGS t)
  | Some v =>
      if bool_decide (t ∈ READ_ONLY_PI_TOOLS) then
        match parse_mode v with
        | Some m => inr m
        | None => inl (Error ("Invalid policy mode for " +:+ tool_text t))
        end
      else if isDangerousPiToolPolicyMode v then inr (parse_mode v ⁇ mode_ask)
      else inl (Error ("Dangerous tool " +:+ tool_text t +:+ " cannot use policy mode " +:+
                       match v with JStr s => s | _ => show v end))
  end.

(** The loops over the two lists stop at the first tool with a bad mode. *)
Fixpoint normalize_tools (show : json → string) (settings : list (string * json)) (ts : list PiToolName)
    (acc : PiToolName → PiToolPolicyMode) : exn + (PiToolName → PiToolPolicyMode) :=
  match ts with
  | [] => inr acc
  | t :: ts =>
      match normalize_mode show settings t with
      | inl e => inl e
      | inr m => normalize_tools show settings ts (λ t', if bool_decide (t' = t) then m else acc t')
      end
  end.
Definition normalizePiToolPolicySettings (show : json → string) (settings : list (string * json)) (updatedAt : string)
    : exn + PiToolPolicySettingsRecord :=
  match normalize_tools show settings (READ_ONLY_PI_TOOLS ++ DANGEROUS_PI_TOOLS) DEFAULT_PI_TOOL_POLICY_SETTINGS with
  | inl e => inl e
  | inr f => inr (PiToolPolicy f updatedAt)
  end.

(** ** Results and arguments *)
Definition MAX_TOOL_OUTPUT_BYTES : Z := 64 * 1024.
Definition newline : string := String "010" "".
Definition truncateText (text : string) : string :=
  if bool_decide (byteLength text ≤ MAX_TOOL_OUTPUT_BYTES) then text
  else take_str (Z.to_nat MAX_TOOL_OUTPUT_BYTES) text +:+ newline +:+ newline +:+ "[Output truncated]".
Record TextToolResult := TextResult { tt_text : string; tt_details : option json }.
Definition textResult (text : string) (details : option json) : TextToolResult := TextResult (truncateText text) details.

(** Decimal notation of a byte count. *)
Definition show_Z (z : Z) : string := pretty z.

Definition redactToolArgs (toolName : PiToolName) (args : list (string * json)) : list (string * json) :=
  match toolName, prop args "content" with
  | tool_write, Some (JStr content) => spread args [("content", JStr ("[" +:+ show_Z (byteLength content) +:+ " bytes]"))]
  | _, _ => args
  end.

Inductive tool_risk := risk_low | risk_medium | risk_high.
Definition risk_text (r : tool_risk) : string :=
  match r with risk_low => "low" | risk_medium => "medium" | risk_high => "high" end.

(** The regular expression [\b(rm|mv|...)\b]: a word of the list between two
    boundaries.  [prev]: the character before [s]. *)
Definition is_word (c : ascii) : bool := is_alnum c || Ascii.eqb c "_".
Definition word_at (prev : option ascii) (w s : string) : bool :=
  startsWith w s && negb (from_option is_word false prev) &&
  match drop_str (String.length w) s with "" => true | String c _ => negb (is_word c) end.
Fixpoint has_word (prev : option ascii) (ws : list string) (s : string) : bool :=
  existsb (λ w, word_at prev w s) ws ||
  match s with "" => false | String c s => has_word (Some c) ws s end.
Definition risky_commands : list string :=
  ["rm"; "mv"; "cp"; "chmod"; "chown"; "sudo"; "curl"; "wget"; "ssh"; "scp"; "dd"; "mkfs"; "mount"; "umount"].
Definition commandRisk (command : string) : tool_risk :=
  if has_word None risky_commands command then risk_high else risk_medium.

(** [sliceLines]; 0 is falsy. *)
Definition slice {A} (start stop : Z) (l : list A) : list A :=
  take (Z.to_nat (stop - start)) (drop (Z.to_nat start) l).
Definition sliceLines (content : string) (offset limit : option Z) : string :=
  let lines := split_on "010" content in
  let start := match offset with Some o => if bool_decide (o = 0) then 0 else Z.max 0 (o - 1) | None => 0 end in
  let stop := match limit with
              | Some l => if bool_decide (l = 0) then Z.of_nat (length lines) else start + Z.max 0 l
              | None => Z.of_nat (length lines)
              end in
  join newline (slice start stop lines).

(** ** Edits *)
(** GetSubstitution of a string pattern: the dollar forms of the replacement. *)
Fixpoint get_substitution (before matched after r : string) : string :=
  match r with
  | String "$" (String "$" r) => String "$" (get_substitution before matched after r)
  | String "$" (String "&" r) => matched +:+ get_substitution before matched after r
  | String "$" (String "`" r) => before +:+ get_substitution before matched after r
  | String "$" (String "'" r) => after +:+ get_substitution before matched after r
  | String c r => String c (get_substitution before matched after r)
  | "" => ""
  end.
(** [s.replace(p, r)] of two strings: the first occurrence. *)
Definition replace (p r s : string) : string :=
  match indexOf p s with
  | None => s
  | Some n => let before := take_str n s in
              let after := drop_str (n + String.length p) s in
              before +:+ get_substitution before p after r +:+ after
  end.

(** The loop of [buildEditPreview]. *)
Fixpoint apply_edits (relativePath content : string) (edits : list (string * string)) : exn + string :=
  match edits with
  | [] => inr content
  | (oldText, newText) :: edits =>
      if bool_decide (oldText = "") then inl (Error "edit oldText cannot be empty")
      else if negb (includes oldText content) then inl (Error ("edit oldText was not found in " +:+ relativePath))
      else apply_edits relativePath (replace oldText newText content) edits
  end.

(** ** The host *)
Class ToolHost (S : Type) := {
  th_createToolApproval : json → prog S PendingApprovalRecord;
  th_markWaitingForApproval : prog S unit;
  th_emit : AgentEventType → json → prog S unit;
  th_isCancelled : S → bool;
  th_getApprovalStatus : string → S → option ApprovalStatus }.

(** The points at which another process may write. *)
Inductive point :=
| after_create | after_mark | after_emit
| in_poll (i : nat) | in_sleep (i : nat) | before_run.

(** What became of a call: nothing was run and the agent is told so, the tool
    was run, or nobody has decided within the polls allowed. *)
Inductive call_outcome (R : Type) := NotRun (r : TextToolResult) | Ran (r : R) | StillWaiting.
Arguments NotRun {R} r.
Arguments Ran {R} r.
Arguments StillWaiting {R}.

Definition approval_status_name (s : ApprovalStatus) : string :=
  match s with
  | ap_pending => "pending" | ap_approved => "approved" | ap_rejected => "rejected"
  | ap_expired => "expired" | ap_applied => "applied" | ap_failed => "failed"
  end.

Record tool_call := ToolCall {
  tc_id : string; tc_name : PiToolName; tc_args : list (string * json); tc_cwd : string; tc_risk : tool_risk; tc_summary : string }.
Definition call_proposal (c : tool_call) : json :=
  JObj [("toolCallId", JStr (tc_id c)); ("toolName", JStr (tool_text (tc_name c)));
        ("args", JObj (redactToolArgs (tc_name c) (tc_args c))); ("cwd", JStr (tc_cwd c));
        ("risk", JStr (risk_text (tc_risk c))); ("summary", JStr (tc_summary c))].

Section Approval.
Context {S R : Type} `{!ToolHost S} (env : point → S → S).

(** [None]: the polls are used up.  The loop of the code has no bound. *)
Fixpoint waitForApprovalDecision (fuel i : nat) (id : string) : prog S (option ApprovalStatus) := λ s,
  match fuel with
  | O => (inr None, s)
  | Datatypes.S fuel =>
      if th_isCancelled s then (inr (Some ap_expired), s) else
      let s := env (in_poll i) s in
      match th_getApprovalStatus id s with
      | None => (inr (Some ap_expired), s)
      | Some ap_pending => waitForApprovalDecision fuel (Datatypes.S i) id (env (in_sleep i) s)
      | Some status => (inr (Some status), s)
      end
  end.

Definition withApproval (fuel : nat) (policy : PiToolPolicySettingsRecord) (c : tool_call) (execute : prog S R)
    : prog S (call_outcome R) :=
  let name := tool_text (tc_name c) in
  if bool_decide (policy_of policy (tc_name c) = mode_disabled)
  then mret (NotRun (textResult ("ZOS policy denied " +:+ name +:+ ".") None)) else
  request ← th_createToolApproval (call_proposal c);
  _ ← modify (env after_create);
  _ ← th_markWaitingForApproval;
  _ ← modify (env after_mark);
  _ ← th_emit approval_pending
        (JObj [("approvalId", JStr (pa_id request)); ("kind", JStr "pi_tool_call");
               ("proposal", JArr (pa_proposal request)); ("summary", JStr (tc_summary c))]);
  _ ← modify (env after_emit);
  status ← waitForApprovalDecision fuel 0 (pa_id request);
  match status with
  | None => mret StillWaiting
  | Some ap_rejected =>
      mret (NotRun (textResult ("The user rejected " +:+ name +:+ ": " +:+ tc_summary c) None))
  | Some ap_approved => _ ← modify (env before_run); r ← execute; mret (Ran r)
  | Some st =>
      mret (NotRun (textResult ("ZOS stopped waiting for " +:+ name +:+ ": approval is " +:+ approval_status_name st +:+ ".") None))
  end.

(** A tool of the read-only ones: only [disabled] stops it. *)
Definition read_only_tool (policy : PiToolPolicySettingsRecord) (t : PiToolName) (body : prog S TextToolResult)
    : prog S TextToolResult :=
  if bool_decide (policy_of policy t = mode_disabled)
  then mret (textResult ("ZOS policy denied " +:+ tool_text t +:+ ".") None)
  else body.
End Approval.

(** ** Facts *)
Example edit_dollar : replace "a" "$$" "xay" = "x$y" ∧ replace "a" "<$&>" "xay" = "x<a>y" ∧ replace "a" "b" "xay" = "xby".
Proof. done. Qed.
Example risk_examples : commandRisk "rm -rf x" = risk_high ∧ commandRisk "echo format" = risk_medium ∧
  commandRisk "a;dd if=/dev/zero" = risk_high ∧ commandRisk "armature" = risk_medium.
Proof. done. Qed.
Example slice_example : sliceLines ("a" +:+ newline +:+ "b" +:+ newline +:+ "c") (Some 2) (Some 1) = "b".
Proof. done. Qed.

(** A dangerous tool never runs unattended: its mode is never [auto]. *)
Lemma normalize_tools_other show settings ts acc f t : normalize_tools show settings ts acc = inr f → t ∉ ts → f t = acc t.
Proof.
  revert acc. induction ts as [|x ts IH]; intros acc; simpl; [by intros [= ->]|].
  destruct (normalize_mode show settings x); [done|]. intros H [Hx Ht]%not_elem_of_cons. rewrite (IH _ H Ht).
  by rewrite bool_decide_false.
Qed.

Lemma normalize_tools_mode show settings ts acc f t : normalize_tools show settings ts acc = inr f → NoDup ts → t ∈ ts →
  normalize_mode show settings t = inr (f t).
Proof.
  revert acc. induction ts as [|x ts IH]; intros acc; simpl; [by intros _ _ ?%elem_of_nil|].
  destruct (normalize_mode show settings x) as [e|m] eqn:E; [done|]. intros H [Hx Hd]%NoDup_cons [->|Ht]%elem_of_cons.
  - rewrite E. rewrite (normalize_tools_other _ _ _ _ _ _ H Hx). by rewrite bool_decide_true.
  - by apply (IH _ H).
Qed.

Lemma normalize_policy_mode show settings updatedAt p t : normalizePiToolPolicySettings show settings updatedAt = inr p →
  normalize_mode show settings t = inr (policy_of p t).
Proof.
  unfold normalizePiToolPolicySettings. destruct (normalize_tools _ _ _ _) as [e|f] eqn:E; [done|]. intros [= <-].
  apply (normalize_tools_mode _ _ _ _ _ _ E); [|by destruct t; vm_compute; repeat constructor].
  apply (bool_decide_eq_true_1 _). by vm_compute.
Qed.

Lemma dangerous_mode show settings updatedAt p t : normalizePiToolPolicySettings show settings updatedAt = inr p →
  t ∈ DANGEROUS_PI_TOOLS → policy_of p t ≠ mode_auto.
Proof.
  intros H%(λ H, normalize_policy_mode show settings updatedAt p t H) Ht. unfold normalize_mode in H.
  assert (bool_decide (t ∈ READ_ONLY_PI_TOOLS) = false) as Hr.
  { apply bool_decide_eq_false. unfold DANGEROUS_PI_TOOLS, READ_ONLY_PI_TOOLS in *. set_solver. }
  rewrite Hr in H. destruct (mode_setting settings t) as [v|].
  - unfold isDangerousPiToolPolicyMode in H. destruct (parse_mode v) as [[]|]; simpl in H; congruence.
  - unfold DEFAULT_PI_TOOL_POLICY_SETTINGS in H. rewrite Hr in H. congruence.
Qed.

(** ** What runs was approved *)
Section Runs.
#[local] Set Default Proof Using "Type".
Context {S R : Type} `{!ToolHost S} (env : point → S → S).
(** A relation the host's callbacks and the others' writes stay in. *)
Context (step : S → S → Prop) `{!PreOrder step}.
Context (env_step : ∀ p s, step s (env p s)).

Lemma wait_steps fuel i id s r s' : waitForApprovalDecision env fuel i id s = (r, s') → step s s'.
Proof using All.
  revert i s. induction fuel as [|fuel IH]; intros i s; simpl; [by intros [= _ <-]|].
  destruct (th_isCancelled s); [by intros [= _ <-]|].
  assert (step s (env (in_poll i) s)) as H1 by apply env_step.
  destruct (th_getApprovalStatus id _) as [[]|]; try by intros [= _ <-].
  intros H%IH. etrans; [exact H1|]. etrans; [apply env_step|exact H].
Qed.

Lemma wait_approved fuel i id s s' : waitForApprovalDecision env fuel i id s = (inr (Some ap_approved), s') →
  th_getApprovalStatus id s' = Some ap_approved.
Proof.
  revert i s. induction fuel as [|fuel IH]; intros i s; simpl; [done|].
  destruct (th_isCancelled s); [done|].
  destruct (th_getApprovalStatus id (env (in_poll i) s)) as [[]|] eqn:E; try done; [by intros ?%IH|by intros [= <-]].
Qed.

Lemma wait_returns fuel i id s : ∃ st s', waitForApprovalDecision env fuel i id s = (inr st, s').
Proof.
  revert i s. induction fuel as [|fuel IH]; intros i s; simpl; [eauto|].
  destruct (th_isCancelled s); [eauto|]. destruct (th_getApprovalStatus id _) as [[]|]; eauto.
Qed.

(** The state of the [n]-th check, if the approval was pending until then. *)
Fixpoint poll_state (n i : nat) (s : S) : S :=
  match n with
  | O => s
  | Datatypes.S n => poll_state n (Datatypes.S i) (env (in_sleep i) (env (in_poll i) s))
  end.

(** The wait ends with the first check that finds the job cancelled or the
    approval gone or decided. *)
Lemma wait_ends fuel n i id s : (n < fuel)%nat →
  th_isCancelled (poll_state n i s) = true ∨
    th_getApprovalStatus id (env (in_poll (i + n)) (poll_state n i s)) ≠ Some ap_pending →
  ∃ st s', waitForApprovalDecision env fuel i id s = (inr (Some st), s').
Proof.
  revert n i s. induction fuel as [|fuel IH]; intros n i s Hn H; [lia|]. simpl.
  destruct (th_isCancelled s) eqn:Ec; [eauto|].
  destruct (th_getApprovalStatus id (env (in_poll i) s)) as [st|] eqn:Es; [|eauto].
  destruct (decide (st = ap_pending)) as [->|Hst]; [|destruct st; eauto; done].
  destruct n as [|n]; [destruct H as [H|H]; simpl in H; [congruence|]; by rewrite Nat.add_0_r in H|].
  apply (IH n); [lia|]. by rewrite Nat.add_succ_comm.
Qed.

Lemma withApproval_ran fuel policy c (execute : prog S R) s r s' :
  (∀ s, step s (th_markWaitingForApproval s).2) → (∀ t p s, step s (th_emit t p s).2) →
  withApproval env fuel policy c execute s = (inr (Ran r), s') →
  policy_of policy (tc_name c) ≠ mode_disabled ∧
  ∃ request s1 s2, th_createToolApproval (call_proposal c) s = (inr request, s1) ∧ step s1 s2 ∧
    th_getApprovalStatus (pa_id request) s2 = Some ap_approved ∧
    execute (env before_run s2) = (inr r, s').
Proof using All.
  intros Hm He. unfold withApproval. cbv zeta. case_bool_decide as Hp; [done|]. intros H. split; [done|].
  apply bind_inv in H as (request & s1 & E1 & H). exists request, s1.
  apply bind_inv in H as (? & t1 & [= _ <-] & H). apply bind_inv in H as (? & t2 & E2 & H).
  apply bind_inv in H as (? & t3 & [= _ <-] & H). apply bind_inv in H as (? & t4 & E4 & H).
  apply bind_inv in H as (? & t5 & [= _ <-] & H). apply bind_inv in H as (st & t6 & E6 & H).
  assert (st = Some ap_approved) as -> by (by destruct st as [[]|]).
  apply bind_inv in H as (? & t7 & [= _ <-] & H). apply bind_inv in H as (r' & t8 & E8 & [= <- <-]).
  exists t6. split; [done|]. split; [|split; [by eapply wait_approved|done]].
  pose proof (Hm (env after_create s1)) as S2. rewrite E2 in S2. simpl in S2.
  match type of E4 with th_emit ?t ?p ?x = _ => pose proof (He t p x) as S4 end. rewrite E4 in S4. simpl in S4.
  etrans; [apply (env_step after_create)|]. etrans; [exact S2|]. etrans; [apply (env_step after_mark)|].
  etrans; [exact S4|]. etrans; [apply (env_step after_emit)|]. by eapply wait_steps.
Qed.
End Runs.
