(* ===== verification/Settings.v ===== *)
(** * Stored settings

    settings.ts and settings-mappers.ts of packages/db: each kind of settings
    is one row of system_settings.  What a kind promises is the class
    [StoredSetting]: its key, how a row reads, what is written, and the law
    that what is written reads back.

    [new Date().toISOString()] is an argument, a text. *)
From Stdlib Require Import Ascii FunctionalExtensionality.
From stdpp Require Import pretty.
From S2P Require VodProtocol.
From S2P Require Import Prelude Sql Json JsString JsonText JsNumber JsText CoreDb PiTools ShareConfig.
Open Scope Z_scope.

(** ** The table *)
(** The value and the time of the last write, by key. *)
Notation settings_db := (gmap string (json * string)).
Notation settings_prog := (prog settings_db).
Definition EPOCH : string := "1970-01-01T00:00:00.000Z".

(** Properties of a parsed value: of null there are none to read. *)
Definition parsed_props (v : json) (field : string) : exn + list (string * json) :=
  match v with
  | JNull => inl (TypeError ("Cannot read properties of null (reading '" +:+ field +:+ "')"))
  | v => inr (recordFrom (Some v))
  end.

Class StoredSetting (A : Type) := {
  setting_key : string;
  (** What a row gives; it may throw, or hold no settings. *)
  setting_read : json → string → exn + option A;
  setting_json : A → json;
  setting_updatedAt : A → string;
  setting_ok : A → Prop;
  setting_law : ∀ a, setting_ok a → setting_read (setting_json a) (setting_updatedAt a) = inr (Some a)
}.
Definition get_setting {A} `{StoredSetting A} (d : settings_db) : exn + option A :=
  match d !! setting_key with Some (value, updated_at) => setting_read value updated_at | None => inr None end.
(** INSERT ... ON CONFLICT(key) DO UPDATE *)
Definition put_setting {A} `{StoredSetting A} (a : A) : settings_prog A := λ d,
  (inr a, <[setting_key := (setting_json a, setting_updatedAt a)]> d).

(** What a key holds after it was written. *)
Lemma put_setting_read {A} `{StoredSetting A} (a : A) d : setting_ok a →
  get_setting (put_setting a d).2 = inr (Some a) ∧ ∀ k, k ≠ setting_key → (put_setting a d).2 !! k = d !! k.
Proof.
  intros Ha. unfold put_setting, get_setting. cbn [snd]. rewrite lookup_insert_eq. split; [by apply setting_law|].
  intros k Hk. by rewrite lookup_insert_ne.
Qed.

(** ** Checks *)
Definition range_message (name : string) (minimum maximum : Z) : string :=
  name +:+ " must be an integer between " +:+ number_text (lit minimum) +:+ " and " +:+ number_text (lit maximum).
Definition integer (name : string) (candidate : option json) (minimum maximum : Z) : exn + Z :=
  match candidate with
  | Some (JNum n) =>
      if isSafeInteger n && negb (num_lt n (lit minimum)) && negb (num_lt (lit maximum) n) then inr (number_Z n)
      else inl (Error (range_message name minimum maximum))
  | _ => inl (Error (range_message name minimum maximum))
  end.
Definition MAX_SAFE_INTEGER : Z := 9007199254740991.
Definition row_updatedAt (parsed : list (string * json)) (updated_at : string) : string := as_string (prop parsed "updatedAt") ⁇ updated_at.

(** ** Downloads *)
Record DownloadSettingsRecord := DownloadSettings {
  ds_concurrency : Z; ds_parallelRequestsPerTask : Z; ds_segmentedDownloadMinBytes : Z; ds_maxAutoRetries : Z;
  ds_retryBaseDelayMs : Z; ds_retryMaxDelayMs : Z; ds_retryAfterMaxDelayMs : Z; ds_connectTimeoutMs : Z;
  ds_responseHeaderTimeoutMs : Z; ds_readIdleTimeoutMs : Z; ds_minFreeSpaceBytes : Z; ds_maxFileSizeBytes : option Z;
  ds_updatedAt : string }.
Definition DEFAULT_DOWNLOAD_SETTINGS : list (string * json) :=
  [("concurrency", int 1); ("parallelRequestsPerTask", int 4); ("segmentedDownloadMinBytes", int (64 * 1024 * 1024));
   ("maxAutoRetries", int 5); ("retryBaseDelayMs", int 2000); ("retryMaxDelayMs", int 300000); ("retryAfterMaxDelayMs", int 900000);
   ("connectTimeoutMs", int 15000); ("responseHeaderTimeoutMs", int 30000); ("readIdleTimeoutMs", int 60000);
   ("minFreeSpaceBytes", int 0); ("maxFileSizeBytes", JNull)].
(** A field of [{ ...defaults, ...settings }]. *)
Definition field (defaults settings : list (string * json)) (k : string) : option json :=
  match prop settings k with Some v => Some v | None => prop defaults k end.
Definition normalizeDownloadConcurrency (value : option json) : exn + Z :=
  match value with
  | Some (JNum n) =>
      if isInteger n && negb (num_lt n (lit 1)) && negb (num_lt (lit 3) n) then inr (number_Z n)
      else inl (Error "Download concurrency must be an integer between 1 and 3")
  | _ => inl (Error "Download concurrency must be an integer between 1 and 3")
  end.
Definition normalizeDownloadSettings (settings : list (string * json)) (updatedAt : string) : exn + DownloadSettingsRecord :=
  let value := field DEFAULT_DOWNLOAD_SETTINGS settings in
  concurrency ← normalizeDownloadConcurrency (value "concurrency");
  retryBaseDelayMs ← integer "Download retry base delay" (value "retryBaseDelayMs") 500 60000;
  retryMaxDelayMs ← integer "Download retry maximum delay" (value "retryMaxDelayMs") retryBaseDelayMs 1800000;
  maxFileSizeBytes ← (if is_null_json (value "maxFileSizeBytes") then inr None
                      else (Some <$> integer "Download maximum file size" (value "maxFileSizeBytes") 1 MAX_SAFE_INTEGER));
  parallelRequestsPerTask ← integer "Download parallel requests" (value "parallelRequestsPerTask") 1 8;
  segmentedDownloadMinBytes ← integer "Download segmentation threshold" (value "segmentedDownloadMinBytes") (1024 * 1024) (1024 ^ 4);
  maxAutoRetries ← integer "Download automatic retries" (value "maxAutoRetries") 0 20;
  retryAfterMaxDelayMs ← integer "Download Retry-After maximum delay" (value "retryAfterMaxDelayMs") 1000 3600000;
  connectTimeoutMs ← integer "Download connection timeout" (value "connectTimeoutMs") 1000 120000;
  responseHeaderTimeoutMs ← integer "Download response header timeout" (value "responseHeaderTimeoutMs") 5000 300000;
  readIdleTimeoutMs ← integer "Download read idle timeout" (value "readIdleTimeoutMs") 5000 900000;
  minFreeSpaceBytes ← integer "Download minimum free space" (value "minFreeSpaceBytes") 0 MAX_SAFE_INTEGER;
  inr (DownloadSettings concurrency parallelRequestsPerTask segmentedDownloadMinBytes maxAutoRetries retryBaseDelayMs retryMaxDelayMs
         retryAfterMaxDelayMs connectTimeoutMs responseHeaderTimeoutMs readIdleTimeoutMs minFreeSpaceBytes maxFileSizeBytes updatedAt).
Definition download_props (s : DownloadSettingsRecord) : list (string * json) :=
  [("concurrency", int (ds_concurrency s)); ("parallelRequestsPerTask", int (ds_parallelRequestsPerTask s));
   ("segmentedDownloadMinBytes", int (ds_segmentedDownloadMinBytes s)); ("maxAutoRetries", int (ds_maxAutoRetries s));
   ("retryBaseDelayMs", int (ds_retryBaseDelayMs s)); ("retryMaxDelayMs", int (ds_retryMaxDelayMs s));
   ("retryAfterMaxDelayMs", int (ds_retryAfterMaxDelayMs s)); ("connectTimeoutMs", int (ds_connectTimeoutMs s));
   ("responseHeaderTimeoutMs", int (ds_responseHeaderTimeoutMs s)); ("readIdleTimeoutMs", int (ds_readIdleTimeoutMs s));
   ("minFreeSpaceBytes", int (ds_minFreeSpaceBytes s)); ("maxFileSizeBytes", from_option int JNull (ds_maxFileSizeBytes s));
   ("updatedAt", JStr (ds_updatedAt s))].

(** ** Photostaff processing *)
Record PhotostaffProcessingSettingsRecord := PhotostaffProcessingSettings {
  pp_processingConcurrency : Z; pp_scanIntervalMs : Z; pp_maxAutoRetries : Z; pp_retryBaseDelayMs : Z; pp_retryMaxDelayMs : Z;
  pp_commandTimeoutMs : Z; pp_maxFileSizeBytes : Z; pp_maxXmpSizeBytes : Z; pp_maxIntermediateBytes : Z; pp_minFreeSpaceBytes : Z;
  pp_maxDecodedPixels : Z; pp_updatedAt : string }.
Definition DEFAULT_PHOTOSTAFF_PROCESSING_SETTINGS : list (string * json) :=
  [("processingConcurrency", int 1); ("scanIntervalMs", int (30 * 60 * 1000)); ("maxAutoRetries", int 5); ("retryBaseDelayMs", int 2000);
   ("retryMaxDelayMs", int 300000); ("commandTimeoutMs", int 120000); ("maxFileSizeBytes", int (512 * 1024 * 1024));
   ("maxXmpSizeBytes", int (16 * 1024 * 1024)); ("maxIntermediateBytes", int (2 * 1024 ^ 3)); ("minFreeSpaceBytes", int 0);
   ("maxDecodedPixels", int 268402689)].
Definition normalizePhotostaffProcessingSettings (settings : list (string * json)) (updatedAt : string) : exn + PhotostaffProcessingSettingsRecord :=
  let value := field DEFAULT_PHOTOSTAFF_PROCESSING_SETTINGS settings in
  retryBaseDelayMs ← integer "Photostaff retry base delay" (value "retryBaseDelayMs") 500 1800000;
  retryMaxDelayMs ← integer "Photostaff retry maximum delay" (value "retryMaxDelayMs") retryBaseDelayMs 1800000;
  processingConcurrency ← integer "Photostaff processing concurrency" (value "processingConcurrency") 1 4;
  scanIntervalMs ← integer "Photostaff scan interval" (value "scanIntervalMs") 60000 86400000;
  maxAutoRetries ← integer "Photostaff automatic retries" (value "maxAutoRetries") 0 20;
  commandTimeoutMs ← integer "Photostaff command timeout" (value "commandTimeoutMs") 5000 900000;
  maxFileSizeBytes ← integer "Photostaff maximum file size" (value "maxFileSizeBytes") (1024 ^ 2) (1024 ^ 4);
  maxXmpSizeBytes ← integer "Photostaff maximum XMP size" (value "maxXmpSizeBytes") 1024 (64 * 1024 ^ 2);
  maxIntermediateBytes ← integer "Photostaff maximum intermediate size" (value "maxIntermediateBytes") (64 * 1024 ^ 2) (8 * 1024 ^ 3);
  minFreeSpaceBytes ← integer "Photostaff minimum free space" (value "minFreeSpaceBytes") 0 (1024 ^ 4);
  maxDecodedPixels ← integer "Photostaff maximum decoded pixels" (value "maxDecodedPixels") 1000000 268402689;
  inr (PhotostaffProcessingSettings processingConcurrency scanIntervalMs maxAutoRetries retryBaseDelayMs retryMaxDelayMs commandTimeoutMs
         maxFileSizeBytes maxXmpSizeBytes maxIntermediateBytes minFreeSpaceBytes maxDecodedPixels updatedAt).
Definition photostaff_props (s : PhotostaffProcessingSettingsRecord) : list (string * json) :=
  [("processingConcurrency", int (pp_processingConcurrency s)); ("scanIntervalMs", int (pp_scanIntervalMs s));
   ("maxAutoRetries", int (pp_maxAutoRetries s)); ("retryBaseDelayMs", int (pp_retryBaseDelayMs s));
   ("retryMaxDelayMs", int (pp_retryMaxDelayMs s)); ("commandTimeoutMs", int (pp_commandTimeoutMs s));
   ("maxFileSizeBytes", int (pp_maxFileSizeBytes s)); ("maxXmpSizeBytes", int (pp_maxXmpSizeBytes s));
   ("maxIntermediateBytes", int (pp_maxIntermediateBytes s)); ("minFreeSpaceBytes", int (pp_minFreeSpaceBytes s));
   ("maxDecodedPixels", int (pp_maxDecodedPixels s)); ("updatedAt", JStr (pp_updatedAt s))].

(** ** The indexer *)
Record IndexerSettingsRecord := IndexerSettings {
  ix_scanConcurrency : Z; ix_extractionConcurrency : Z; ix_reconciliationIntervalMs : Z; ix_maxExtractedTextBytes : Z;
  ix_maxSourceDocumentBytes : Z; ix_commandTimeoutMs : Z; ix_maxPdfTextPages : Z; ix_maxOcrPages : Z; ix_ocrRootIds : list string;
  ix_updatedAt : string }.
Definition DEFAULT_INDEXER_SETTINGS : list (string * json) :=
  [("scanConcurrency", int 4); ("extractionConcurrency", int 2); ("reconciliationIntervalMs", int (30 * 60 * 1000));
   ("maxExtractedTextBytes", int (2 * 1024 * 1024)); ("maxSourceDocumentBytes", int (512 * 1024 * 1024)); ("commandTimeoutMs", int (120 * 1000));
   ("maxPdfTextPages", int 500); ("maxOcrPages", int 20); ("ocrRootIds", JArr [])].
(** The texts of an array that holds nothing else, none of them blank. *)
Definition root_ids (value : option json) : exn + list string :=
  let wrong := Error "Indexer OCR roots must be an array of root IDs" in
  match value with
  | Some (JArr l) => check_all (λ v, match v with JStr s => if bool_decide (trim s = "") then inl wrong else inr s | _ => inl wrong end) l
  | _ => inl wrong
  end.
Definition sort_texts (l : list string) : list string := order_by String.leb l.
Definition normalizeIndexerSettings (settings : list (string * json)) (updatedAt : string) : exn + IndexerSettingsRecord :=
  let value := field DEFAULT_INDEXER_SETTINGS settings in
  ocrRootIds ← root_ids (value "ocrRootIds");
  scanConcurrency ← integer "Indexer scan concurrency" (value "scanConcurrency") 1 16;
  extractionConcurrency ← integer "Indexer extraction concurrency" (value "extractionConcurrency") 1 8;
  reconciliationIntervalMs ← integer "Indexer reconciliation interval" (value "reconciliationIntervalMs") 60000 86400000;
  maxExtractedTextBytes ← integer "Indexer extracted text limit" (value "maxExtractedTextBytes") (64 * 1024) (16 * 1024 * 1024);
  maxSourceDocumentBytes ← integer "Indexer source document limit" (value "maxSourceDocumentBytes") (1024 * 1024) (2 * 1024 ^ 4);
  commandTimeoutMs ← integer "Indexer command timeout" (value "commandTimeoutMs") 5000 900000;
  maxPdfTextPages ← integer "Indexer PDF text page limit" (value "maxPdfTextPages") 1 5000;
  maxOcrPages ← integer "Indexer OCR page limit" (value "maxOcrPages") 1 100;
  inr (IndexerSettings scanConcurrency extractionConcurrency reconciliationIntervalMs maxExtractedTextBytes maxSourceDocumentBytes
         commandTimeoutMs maxPdfTextPages maxOcrPages (sort_texts (distinct (trim <$> ocrRootIds))) updatedAt).
Definition indexer_props (s : IndexerSettingsRecord) : list (string * json) :=
  [("scanConcurrency", int (ix_scanConcurrency s)); ("extractionConcurrency", int (ix_extractionConcurrency s));
   ("reconciliationIntervalMs", int (ix_reconciliationIntervalMs s)); ("maxExtractedTextBytes", int (ix_maxExtractedTextBytes s));
   ("maxSourceDocumentBytes", int (ix_maxSourceDocumentBytes s)); ("commandTimeoutMs", int (ix_commandTimeoutMs s));
   ("maxPdfTextPages", int (ix_maxPdfTextPages s)); ("maxOcrPages", int (ix_maxOcrPages s));
   ("ocrRootIds", JArr (JStr <$> ix_ocrRootIds s)); ("updatedAt", JStr (ix_updatedAt s))].

(** ** The map of Photostaff *)
Record PhotostaffMapSettingsRecord := PhotostaffMapSettings {
  pm_rootId : string; pm_storagePoolId : string; pm_path : string; pm_tileType : string; pm_minZoom : number; pm_maxZoom : number;
  pm_bounds : option (list json); pm_attribution : option string; pm_updatedAt : string }.
Definition TILE_TYPES : list string := ["png"; "jpeg"; "webp"].
Definition map_settings_of (parsed : list (string * json)) (updated_at : string) : option PhotostaffMapSettingsRecord :=
  rootId ← as_string (prop parsed "rootId");
  storagePoolId ← as_string (prop parsed "storagePoolId");
  path ← as_string (prop parsed "path");
  tileType ← as_string (prop parsed "tileType");
  if negb (bool_decide (tileType ∈ TILE_TYPES)) then None else
  minZoom ← as_number (prop parsed "minZoom");
  maxZoom ← as_number (prop parsed "maxZoom");
  Some (PhotostaffMapSettings rootId storagePoolId path tileType minZoom maxZoom
          (l ← as_array (prop parsed "bounds"); if bool_decide (length l = 4%nat) then Some l else None)
          (as_string (prop parsed "attribution")) (row_updatedAt parsed updated_at)).
Definition map_settings_props (s : PhotostaffMapSettingsRecord) : list (string * json) :=
  [("rootId", JStr (pm_rootId s)); ("storagePoolId", JStr (pm_storagePoolId s)); ("path", JStr (pm_path s));
   ("tileType", JStr (pm_tileType s)); ("minZoom", JNum (pm_minZoom s)); ("maxZoom", JNum (pm_maxZoom s));
   ("bounds", from_option JArr JNull (pm_bounds s)); ("attribution", nullable (pm_attribution s)); ("updatedAt", JStr (pm_updatedAt s))].

(** ** The model provider *)
Inductive ModelProviderName := openai | anthropic.
#[global] Instance ModelProviderName_eq_dec : EqDecision ModelProviderName. Proof. solve_decision. Defined.
Definition provider_text (p : ModelProviderName) : string := match p with openai => "openai" | anthropic => "anthropic" end.
Definition MODEL_PROVIDER_NAMES : list ModelProviderName := [openai; anthropic].
(** [isModelProviderName], with the name that is meant. *)
Definition isModelProviderName (value : option json) : option ModelProviderName :=
  s ← as_string value; List.find (λ p, bool_decide (provider_text p = trim s)) MODEL_PROVIDER_NAMES.
Definition legacyModelProviderName (provider : string) : string :=
  if bool_decide (provider = "openai-compatible") then "openai"
  else if bool_decide (provider = "anthropic-compatible") then "anthropic"
  else if bool_decide (provider ∈ ["local"; "pi"; "google"; "openrouter"]) then "openai" else provider.
Definition normalizeModelProviderName (value : option json) : ModelProviderName :=
  (s ← text_of value; isModelProviderName (Some (JStr (legacyModelProviderName s)))) ⁇ openai.
(** The stored fields are handed on as they are, whatever they hold. *)
Record ModelProviderSettingsRecord := ModelProviderSettings {
  mp_providerName : ModelProviderName; mp_baseUrl : json; mp_model : json; mp_apiKey : json; mp_updatedAt : json }.
(** [a ?? b] *)
Definition nullish (a : option json) (b : json) : json := match a with None | Some JNull => b | Some v => v end.
Definition mapModelProviderSettings (value : json) (updated_at : string) : exn + ModelProviderSettingsRecord :=
  parsed ← parsed_props value "providerName";
  inr (ModelProviderSettings (normalizeModelProviderName (Some (nullish (prop parsed "providerName") (prop parsed "provider" ⁇ JNull))))
         (nullish (prop parsed "baseUrl") JNull) (nullish (prop parsed "model") (JStr "")) (nullish (prop parsed "apiKey") JNull)
         (nullish (prop parsed "updatedAt") (JStr updated_at))).
Definition model_provider_json (s : ModelProviderSettingsRecord) : json :=
  JObj [("providerName", JStr (provider_text (mp_providerName s))); ("baseUrl", mp_baseUrl s); ("model", mp_model s);
        ("apiKey", mp_apiKey s); ("updatedAt", mp_updatedAt s)].
Definition not_a_function (what : string) : exn := TypeError (what +:+ " is not a function").
(** [v?.trim() || null], [v.trim()] *)
Definition trimmed_or_null (what : string) (v : json) : exn + json :=
  match v with
  | JNull => inr JNull
  | JStr s => inr (nullable (nonempty (trim s)))
  | _ => inl (not_a_function what)
  end.
Definition trimmed (what : string) (v : json) : exn + json :=
  match v with
  | JStr s => inr (JStr (trim s))
  | JNull => inl (TypeError "Cannot read properties of null (reading 'trim')")
  | _ => inl (not_a_function what)
  end.
Definition model_provider_record (providerName : ModelProviderName) (baseUrl model apiKey : json) (updatedAt : string) :
    exn + ModelProviderSettingsRecord :=
  baseUrl ← trimmed_or_null "settings.baseUrl?.trim" baseUrl;
  model ← trimmed "settings.model.trim" model;
  apiKey ← trimmed_or_null "settings.apiKey?.trim" apiKey;
  inr (ModelProviderSettings providerName baseUrl model apiKey (JStr updatedAt)).

(** ** Docker *)
(** The switch is stored as it was sent. *)
Record DockerSettingsRecord := DockerSettings {
  ks_enabled : json; ks_socketPath : string; ks_composeCommand : string; ks_operationTimeoutMs : number; ks_consoleShells : list string;
  ks_updatedAt : string }.
Definition normalizeDockerShells (shells : option json) : list string :=
  match shells with
  | Some (JArr l) => match omap (λ v, text_of (Some v)) l with [] => ["/bin/sh"; "/bin/bash"] | l => l end
  | _ => ["/bin/sh"; "/bin/bash"]
  end.
Definition mapDockerSettings (value : json) (updated_at : string) : exn + DockerSettingsRecord :=
  parsed ← parsed_props value "enabled";
  inr (DockerSettings (JBool (to_boolean (prop parsed "enabled"))) (text_of (prop parsed "socketPath") ⁇ "/var/run/docker.sock")
         (text_of (prop parsed "composeCommand") ⁇ "docker") (positive_of (prop parsed "operationTimeoutMs") ⁇ lit 120000)
         (normalizeDockerShells (prop parsed "consoleShells")) (text_of (prop parsed "updatedAt") ⁇ updated_at)).
Definition docker_json (s : DockerSettingsRecord) : json :=
  JObj [("enabled", ks_enabled s); ("socketPath", JStr (ks_socketPath s)); ("composeCommand", JStr (ks_composeCommand s));
        ("operationTimeoutMs", JNum (ks_operationTimeoutMs s)); ("consoleShells", JArr (JStr <$> ks_consoleShells s));
        ("updatedAt", JStr (ks_updatedAt s))].

(** ** The policy of tools *)
Definition mode_text (m : PiToolPolicyMode) : string := match m with mode_auto => "auto" | mode_ask => "ask" | mode_disabled => "disabled" end.
Definition policy_props (p : PiToolPolicySettingsRecord) : list (string * json) :=
  ((λ t, (tool_text t, JStr (mode_text (policy_of p t)))) <$> (READ_ONLY_PI_TOOLS ++ DANGEROUS_PI_TOOLS)) ++ [("updatedAt", JStr (policy_updatedAt p))].
Definition mapPiToolPolicySettings (value : json) (updated_at : string) : exn + PiToolPolicySettingsRecord :=
  parsed ← parsed_props value "updatedAt";
  normalizePiToolPolicySettings VodProtocol.to_string parsed (as_string (prop parsed "updatedAt") ⁇ updated_at).

(** ** Ranges *)
Lemma distinct_fold {A} `{EqDecision A} (l seen : list A) : NoDup seen →
  NoDup (foldl (λ s x, if bool_decide (x ∈ s) then s else s ++ [x]) seen l).
Proof.
  revert seen. induction l as [|x l IH]; intros seen Hs; [done|]. cbn [foldl]. apply IH. case_bool_decide as E; [done|].
  apply NoDup_app. split; [done|]. split; [|apply NoDup_singleton]. by intros y Hy ->%list_elem_of_singleton.
Qed.
Lemma distinct_NoDup {A} `{EqDecision A} (l : list A) : NoDup (distinct l).
Proof. apply distinct_fold. constructor. Qed.
Lemma distinct_id {A} `{EqDecision A} (l : list A) : NoDup l → distinct l = l.
Proof.
  unfold distinct. enough (∀ seen, NoDup (seen ++ l) →
    foldl (λ s x, if bool_decide (x ∈ s) then s else s ++ [x]) seen l = seen ++ l) as H by (intros; by rewrite H).
  induction l as [|x l IH]; intros seen Hn; [by rewrite app_nil_r|]. cbn [foldl]. rewrite bool_decide_false.
  - rewrite IH; by rewrite <-app_assoc.
  - apply NoDup_app in Hn as (_ & Hn & _). intros Hx. apply (Hn x Hx). by left.
Qed.
Definition within (lo hi z : Z) : Prop := lo ≤ z ≤ hi.
Record download_ok (s : DownloadSettingsRecord) : Prop := DownloadOk {
  do_concurrency : within 1 3 (ds_concurrency s);
  do_parallel : within 1 8 (ds_parallelRequestsPerTask s);
  do_segmented : within (1024 * 1024) (1024 ^ 4) (ds_segmentedDownloadMinBytes s);
  do_retries : within 0 20 (ds_maxAutoRetries s);
  do_base : within 500 60000 (ds_retryBaseDelayMs s);
  do_max : within (ds_retryBaseDelayMs s) 1800000 (ds_retryMaxDelayMs s);
  do_after : within 1000 3600000 (ds_retryAfterMaxDelayMs s);
  do_connect : within 1000 120000 (ds_connectTimeoutMs s);
  do_header : within 5000 300000 (ds_responseHeaderTimeoutMs s);
  do_idle : within 5000 900000 (ds_readIdleTimeoutMs s);
  do_free : within 0 MAX_SAFE_INTEGER (ds_minFreeSpaceBytes s);
  do_size : from_option (within 1 MAX_SAFE_INTEGER) True (ds_maxFileSizeBytes s)
}.
Record photostaff_ok (s : PhotostaffProcessingSettingsRecord) : Prop := PhotostaffOk {
  pk_base : within 500 1800000 (pp_retryBaseDelayMs s);
  pk_max : within (pp_retryBaseDelayMs s) 1800000 (pp_retryMaxDelayMs s);
  pk_concurrency : within 1 4 (pp_processingConcurrency s);
  pk_scan : within 60000 86400000 (pp_scanIntervalMs s);
  pk_retries : within 0 20 (pp_maxAutoRetries s);
  pk_command : within 5000 900000 (pp_commandTimeoutMs s);
  pk_file : within (1024 ^ 2) (1024 ^ 4) (pp_maxFileSizeBytes s);
  pk_xmp : within 1024 (64 * 1024 ^ 2) (pp_maxXmpSizeBytes s);
  pk_intermediate : within (64 * 1024 ^ 2) (8 * 1024 ^ 3) (pp_maxIntermediateBytes s);
  pk_free : within 0 (1024 ^ 4) (pp_minFreeSpaceBytes s);
  pk_pixels : within 1000000 268402689 (pp_maxDecodedPixels s)
}.
Record indexer_ok (s : IndexerSettingsRecord) : Prop := IndexerOk {
  xo_scan : within 1 16 (ix_scanConcurrency s);
  xo_extraction : within 1 8 (ix_extractionConcurrency s);
  xo_interval : within 60000 86400000 (ix_reconciliationIntervalMs s);
  xo_text : within (64 * 1024) (16 * 1024 * 1024) (ix_maxExtractedTextBytes s);
  xo_source : within (1024 * 1024) (2 * 1024 ^ 4) (ix_maxSourceDocumentBytes s);
  xo_command : within 5000 900000 (ix_commandTimeoutMs s);
  xo_pdf : within 1 5000 (ix_maxPdfTextPages s);
  xo_ocr : within 1 100 (ix_maxOcrPages s);
  xo_ids : Forall plain_text (ix_ocrRootIds s) ∧ NoDup (ix_ocrRootIds s) ∧ StronglySorted (λ a b, String.leb a b = true) (ix_ocrRootIds s)
}.
Record map_settings_ok (s : PhotostaffMapSettingsRecord) : Prop := MapSettingsOk {
  mo_tile : pm_tileType s ∈ TILE_TYPES;
  mo_zooms : isFinite (pm_minZoom s) && isFinite (pm_maxZoom s) = true;
  mo_bounds : from_option (λ l, length l = 4%nat ∧ Forall (λ v, from_option isFinite false (as_number (Some v)) = true) l) True (pm_bounds s)
}.
Record docker_in_range (s : DockerSettingsRecord) : Prop := DockerInRange {
  ko_enabled : ∃ b, ks_enabled s = JBool b;
  ko_socket : plain_text (ks_socketPath s);
  ko_command : plain_text (ks_composeCommand s);
  ko_timeout : positive_number (ks_operationTimeoutMs s) = true;
  ko_shells : ks_consoleShells s ≠ [] ∧ Forall plain_text (ks_consoleShells s)
}.
Definition docker_ok (s : DockerSettingsRecord) : Prop := docker_in_range s ∧ plain_text (ks_updatedAt s).

Lemma integer_int name z lo hi : - MAX_SAFE_INTEGER ≤ lo → hi ≤ MAX_SAFE_INTEGER → within lo hi z → integer name (Some (int z)) lo hi = inr z.
Proof.
  change (int z) with (JNum (lit z)). unfold within, MAX_SAFE_INTEGER, integer. intros Hlo Hhi [H1 H2]. unfold isSafeInteger.
  rewrite isInteger_int, !num_le_int, !bool_decide_true by lia. unfold num_lt. rewrite !num_le_int, !bool_decide_true by lia.
  cbn [andb negb]. by rewrite number_Z_int.
Qed.
Lemma integer_inv name v lo hi z : integer name v lo hi = inr z → within lo hi z.
Proof.
  unfold integer. destruct v as [[| |n| | |]|]; try done. destruct (_ && _) eqn:E; [|done]. intros [= <-].
  apply andb_prop in E as [E H2%negb_true_iff]. apply andb_prop in E as [E H1%negb_true_iff]. unfold isSafeInteger in E.
  apply andb_prop in E as [E _]. apply andb_prop in E as [E _]. by apply number_Z_bounds.
Qed.
Lemma concurrency_int z : within 1 3 z → normalizeDownloadConcurrency (Some (int z)) = inr z.
Proof.
  change (int z) with (JNum (lit z)). unfold within. intros [H1 H2]. unfold normalizeDownloadConcurrency. rewrite isInteger_int. unfold num_lt.
  rewrite !num_le_int, !bool_decide_true by lia. cbn [andb negb]. by rewrite number_Z_int.
Qed.
Lemma concurrency_inv v z : normalizeDownloadConcurrency v = inr z → within 1 3 z.
Proof.
  unfold normalizeDownloadConcurrency. destruct v as [[| |n| | |]|]; try done. destruct (_ && _) eqn:E; [|done]. intros [= <-].
  apply andb_prop in E as [E H2%negb_true_iff]. apply andb_prop in E as [E H1%negb_true_iff]. by apply number_Z_bounds.
Qed.
Ltac check_inr H := repeat (apply check_inv in H as (? & ?%integer_inv & H)).

Lemma normalizeDownloadSettings_ok ps t s : normalizeDownloadSettings ps t = inr s → download_ok s ∧ ds_updatedAt s = t.
Proof.
  unfold normalizeDownloadSettings. cbv zeta. intros (c & Hc%concurrency_inv & H)%check_inv.
  apply check_inv in H as (b & Hb%integer_inv & H). apply check_inv in H as (m & Hm%integer_inv & H).
  apply check_inv in H as (f & Hf & H). check_inr H. injection H as <-. split; [|done]. split; cbn; try done.
  destruct (is_null_json _); [by injection Hf as <-|]. apply check_map_inv in Hf as (z & Hz%integer_inv & ->). done.
Qed.
Lemma normalizePhotostaff_ok ps t s : normalizePhotostaffProcessingSettings ps t = inr s → photostaff_ok s ∧ pp_updatedAt s = t.
Proof.
  unfold normalizePhotostaffProcessingSettings. cbv zeta. intros H. check_inr H. injection H as <-. split; [|done]. by split.
Qed.
Lemma root_ids_inv v l : root_ids v = inr l → Forall (λ s, trim s ≠ "") l.
Proof.
  unfold root_ids. destruct v as [[| | | |l'|]|]; try done. revert l. induction l' as [|x l' IH]; intros l H; [by injection H as <-|].
  cbn [check_all] in H. apply check_inv in H as (s & Hx & H). apply check_inv in H as (l1 & Hl & H). injection H as <-.
  constructor; [|by apply IH]. destruct x; try done. case_bool_decide; [done|]. by injection Hx as <-.
Qed.
Lemma normalizeIndexer_ok ps t s : normalizeIndexerSettings ps t = inr s → indexer_ok s ∧ ix_updatedAt s = t.
Proof.
  unfold normalizeIndexerSettings. cbv zeta. intros (ids & Hids%root_ids_inv & H)%check_inv. check_inr H. injection H as <-.
  split; [|done]. split; cbn; try done. assert (sort_texts (distinct (trim <$> ids)) ≡ₚ distinct (trim <$> ids)) as Hp by apply order_by_perm.
  split; [|split].
  - rewrite Hp. apply Forall_forall. intros w Hx. apply distinct_elem_of, list_elem_of_fmap in Hx as (y & -> & Hy).
    rewrite Forall_forall in Hids. split; [apply trim_idem|by apply Hids].
  - rewrite Hp. apply distinct_NoDup.
  - apply order_by_sorted; [apply String.leb_total|apply string_leb_trans].
Qed.

(** *** What is written reads back *)
Lemma field_here d k v ps : field d ((k, v) :: ps) k = Some v.
Proof. unfold field. by rewrite prop_here. Qed.
Lemma field_skip d k k' v ps : k ≠ k' → field d ((k', v) :: ps) k = field d ps k.
Proof. intros H. unfold field. by rewrite prop_skip. Qed.
Ltac fields_step := repeat first [rewrite field_here | rewrite field_skip by done].
Lemma check_bind_inr {A B} (a : A) (k : A → exn + B) : ((inr a : exn + A) ≫= k) = k a.
Proof. done. Qed.
Ltac integers_step := repeat (rewrite integer_int by (done || unfold within, MAX_SAFE_INTEGER in *; lia); cbn [mbind check_bind]).

Lemma normalizeDownloadSettings_back s t : download_ok s →
  normalizeDownloadSettings (download_props s) t = inr (DownloadSettings (ds_concurrency s) (ds_parallelRequestsPerTask s)
    (ds_segmentedDownloadMinBytes s) (ds_maxAutoRetries s) (ds_retryBaseDelayMs s) (ds_retryMaxDelayMs s) (ds_retryAfterMaxDelayMs s)
    (ds_connectTimeoutMs s) (ds_responseHeaderTimeoutMs s) (ds_readIdleTimeoutMs s) (ds_minFreeSpaceBytes s) (ds_maxFileSizeBytes s) t).
Proof.
  intros []. unfold normalizeDownloadSettings, download_props. cbv zeta. fields_step.
  rewrite concurrency_int by done. cbn [mbind check_bind]. integers_step. destruct (ds_maxFileSizeBytes s) as [z|] eqn:Ez; cbn [from_option] in *.
  - cbn [is_null_json strict_eq int]. rewrite integer_int by (done || unfold within, MAX_SAFE_INTEGER in *; lia).
    change (Some <$> (inr z : exn + Z)) with (inr (Some z) : exn + option Z). cbn [mbind check_bind]. by integers_step.
  - change (is_null_json (Some JNull)) with true. cbv iota. cbn [mbind check_bind]. by integers_step.
Qed.
Lemma normalizePhotostaff_back s t : photostaff_ok s →
  normalizePhotostaffProcessingSettings (photostaff_props s) t = inr (PhotostaffProcessingSettings (pp_processingConcurrency s)
    (pp_scanIntervalMs s) (pp_maxAutoRetries s) (pp_retryBaseDelayMs s) (pp_retryMaxDelayMs s) (pp_commandTimeoutMs s) (pp_maxFileSizeBytes s)
    (pp_maxXmpSizeBytes s) (pp_maxIntermediateBytes s) (pp_minFreeSpaceBytes s) (pp_maxDecodedPixels s) t).
Proof.
  intros []. unfold normalizePhotostaffProcessingSettings, photostaff_props. cbv zeta. fields_step. by integers_step.
Qed.
Lemma root_ids_plain l : Forall plain_text l → root_ids (Some (JArr (JStr <$> l))) = inr l.
Proof.
  unfold root_ids. induction 1 as [|s l [Hs Hne] Hl IH]; [done|]. cbn [fmap list_fmap check_all].
  rewrite bool_decide_false by congruence. cbn [mbind check_bind]. change (list_fmap string json JStr l) with (JStr <$> l). by rewrite IH.
Qed.
Lemma normalizeIndexer_back s t : indexer_ok s →
  normalizeIndexerSettings (indexer_props s) t = inr (IndexerSettings (ix_scanConcurrency s) (ix_extractionConcurrency s)
    (ix_reconciliationIntervalMs s) (ix_maxExtractedTextBytes s) (ix_maxSourceDocumentBytes s) (ix_commandTimeoutMs s) (ix_maxPdfTextPages s)
    (ix_maxOcrPages s) (ix_ocrRootIds s) t).
Proof.
  intros [? ? ? ? ? ? ? ? (Hp & Hn & Hs)]. unfold normalizeIndexerSettings, indexer_props. cbv zeta. fields_step.
  rewrite root_ids_plain by done. cbn [mbind check_bind]. integers_step.
  assert (trim <$> ix_ocrRootIds s = ix_ocrRootIds s) as ->.
  { clear -Hp. induction Hp as [|x l [Hx _] Hl IH]; [done|]. cbn. by rewrite Hx, IH. }
  unfold sort_texts. by rewrite distinct_id, order_by_id.
Qed.

(** ** The kinds of settings *)
Lemma parsed_obj ps f : parsed_props (JObj ps) f = inr ps.
Proof. done. Qed.
Definition present {A} (r : exn + A) : exn + option A := match r with inl e => inl e | inr a => inr (Some a) end.
(** [try { ... } catch { return null }] *)
Definition readable_or_null {A} (r : exn + A) : exn + option A := inr match r with inl _ => None | inr a => Some a end.

Definition read_download (value : json) (updated_at : string) : exn + option DownloadSettingsRecord :=
  present (parsed ← parsed_props value "updatedAt"; normalizeDownloadSettings parsed (row_updatedAt parsed updated_at)).
Lemma read_download_back s : download_ok s → read_download (JObj (download_props s)) (ds_updatedAt s) = inr (Some s).
Proof.
  unfold read_download. intros Hs. rewrite parsed_obj; cbn [mbind check_bind]. rewrite normalizeDownloadSettings_back by done. by destruct s.
Qed.
#[export] Instance download_setting : StoredSetting DownloadSettingsRecord := {|
  setting_key := "download_settings"; setting_read := read_download; setting_json := (λ s, JObj (download_props s));
  setting_updatedAt := ds_updatedAt; setting_ok := download_ok; setting_law := read_download_back
|}.
Definition read_photostaff (value : json) (updated_at : string) : exn + option PhotostaffProcessingSettingsRecord :=
  readable_or_null (parsed ← parsed_props value "updatedAt"; normalizePhotostaffProcessingSettings parsed (row_updatedAt parsed updated_at)).
Lemma read_photostaff_back s : photostaff_ok s → read_photostaff (JObj (photostaff_props s)) (pp_updatedAt s) = inr (Some s).
Proof.
  unfold read_photostaff. intros Hs. rewrite parsed_obj; cbn [mbind check_bind]. rewrite normalizePhotostaff_back by done. by destruct s.
Qed.
#[export] Instance photostaff_setting : StoredSetting PhotostaffProcessingSettingsRecord := {|
  setting_key := "photostaff_processing_settings"; setting_read := read_photostaff; setting_json := (λ s, JObj (photostaff_props s));
  setting_updatedAt := pp_updatedAt; setting_ok := photostaff_ok; setting_law := read_photostaff_back
|}.
Definition read_indexer (value : json) (updated_at : string) : exn + option IndexerSettingsRecord :=
  readable_or_null (parsed ← parsed_props value "updatedAt"; normalizeIndexerSettings parsed (row_updatedAt parsed updated_at)).
Lemma read_indexer_back s : indexer_ok s → read_indexer (JObj (indexer_props s)) (ix_updatedAt s) = inr (Some s).
Proof.
  unfold read_indexer. intros Hs. rewrite parsed_obj; cbn [mbind check_bind]. rewrite normalizeIndexer_back by done. by destruct s.
Qed.
#[export] Instance indexer_setting : StoredSetting IndexerSettingsRecord := {|
  setting_key := "indexer_settings"; setting_read := read_indexer; setting_json := (λ s, JObj (indexer_props s));
  setting_updatedAt := ix_updatedAt; setting_ok := indexer_ok; setting_law := read_indexer_back
|}.
Definition read_map (value : json) (updated_at : string) : exn + option PhotostaffMapSettingsRecord :=
  parsed ← parsed_props value "rootId"; inr (map_settings_of parsed updated_at).
Lemma read_map_back s : map_settings_ok s → read_map (JObj (map_settings_props s)) (pm_updatedAt s) = inr (Some s).
Proof.
  unfold read_map. intros [Ht _ Hb]. rewrite parsed_obj; cbn [mbind check_bind]. unfold map_settings_of, map_settings_props, row_updatedAt. props_step.
  cbn [as_string as_number mbind option_bind]. rewrite bool_decide_true by done. cbn [negb]. destruct s as [r sp p t mi ma [b|] [a|] u]; cbn in *; try destruct Hb as [Hb _]; by rewrite ?bool_decide_true by done.
Qed.
#[export] Instance map_setting : StoredSetting PhotostaffMapSettingsRecord := {|
  setting_key := "photostaff_map_settings"; setting_read := read_map; setting_json := (λ s, JObj (map_settings_props s));
  setting_updatedAt := pm_updatedAt; setting_ok := map_settings_ok; setting_law := read_map_back
|}.
Definition read_docker (value : json) (updated_at : string) : exn + option DockerSettingsRecord :=
  present (mapDockerSettings value updated_at).
(** What a read makes of Docker settings that were stored as they came. *)
Definition docker_as_read (s : DockerSettingsRecord) : DockerSettingsRecord :=
  let shells := omap (λ x, nonempty (trim x)) (ks_consoleShells s) in
  DockerSettings (JBool (to_boolean (Some (ks_enabled s)))) (nonempty (trim (ks_socketPath s)) ⁇ "/var/run/docker.sock")
    (nonempty (trim (ks_composeCommand s)) ⁇ "docker")
    (if positive_number (ks_operationTimeoutMs s) then ks_operationTimeoutMs s else lit 120000)
    (if bool_decide (shells = []) then ["/bin/sh"; "/bin/bash"] else shells) (nonempty (trim (ks_updatedAt s)) ⁇ ks_updatedAt s).
Lemma omap_texts (l : list string) : omap (λ v, text_of (Some v)) (JStr <$> l) = omap (λ x, nonempty (trim x)) l.
Proof. induction l as [|x l IH]; [done|]. cbn [fmap list_fmap omap list_omap]. by rewrite <-IH. Qed.
Lemma read_docker_any s : read_docker (docker_json s) (ks_updatedAt s) = inr (Some (docker_as_read s)).
Proof.
  unfold read_docker, mapDockerSettings, docker_json. rewrite parsed_obj; cbn [mbind check_bind]. props_step. cbn [present]. unfold docker_as_read.
  do 3 f_equal; try done.
  - unfold positive_of. cbn. by destruct (positive_number _).
  - unfold normalizeDockerShells. rewrite omap_texts. case_bool_decide as E; [by rewrite E|]. by destruct (omap _ _).
Qed.
Lemma nonempty_trim s : plain_text s → nonempty (trim s) = Some s.
Proof. intros [E H]. unfold nonempty. by rewrite E, bool_decide_false. Qed.
Lemma omap_plain (l : list string) : Forall plain_text l → omap (λ x, nonempty (trim x)) l = l.
Proof. induction 1 as [|x l Hx Hl IH]; [done|]. cbn [omap list_omap]. by rewrite nonempty_trim, IH. Qed.
Lemma docker_as_read_id s : docker_ok s → docker_as_read s = s.
Proof.
  intros [[[b Hb] Hs Hc Ht [Hne Hf]] Hu]. unfold docker_as_read. rewrite omap_plain, !nonempty_trim, Ht, Hb, bool_decide_false by done.
  destruct s. cbn in *. by subst.
Qed.
Lemma plain_or s d : plain_text d → plain_text (nonempty (trim s) ⁇ d).
Proof.
  intros Hd. destruct (nonempty (trim s)) as [x|] eqn:E; [|done]. apply (normalizeText_plain (Some s)). exact E.
Qed.
Lemma docker_as_read_range s : docker_in_range (docker_as_read s).
Proof.
  split; cbn [docker_as_read ks_enabled ks_socketPath ks_composeCommand ks_operationTimeoutMs ks_consoleShells].
  - by eexists.
  - by apply plain_or.
  - by apply plain_or.
  - by destruct (positive_number (ks_operationTimeoutMs s)) eqn:E.
  - case_bool_decide as E; [split; [done|by repeat constructor]|]. split; [done|]. apply Forall_forall. intros x (y & _ & Hy)%list_elem_of_omap.
    by apply (normalizeText_plain (Some y)).
Qed.
Lemma read_docker_back s : docker_ok s → read_docker (docker_json s) (ks_updatedAt s) = inr (Some s).
Proof. intros Hs. by rewrite read_docker_any, docker_as_read_id. Qed.
#[export] Instance docker_setting : StoredSetting DockerSettingsRecord := {|
  setting_key := "docker_settings"; setting_read := read_docker; setting_json := docker_json;
  setting_updatedAt := ks_updatedAt; setting_ok := docker_ok; setting_law := read_docker_back
|}.
Definition read_share (value : json) (updated_at : string) : exn + option ShareSettingsRecord :=
  present (parsed ← parsed_props value "updatedAt"; inr (normalizeShareSettings parsed (text_of (prop parsed "updatedAt") ⁇ updated_at))).
Definition stored_share_ok (s : ShareSettingsRecord) : Prop := share_settings_ok s ∧ plain_text (ss_updatedAt s).
Lemma read_share_back s : stored_share_ok s → read_share (JObj (share_settings_props s)) (ss_updatedAt s) = inr (Some s).
Proof.
  unfold read_share, stored_share_ok. intros [Hs Hu]. rewrite parsed_obj; cbn [mbind check_bind]. rewrite share_settings_back by done.
  destruct s as [c u]. unfold share_settings_props. props_step. cbn [ss_updatedAt ss_config] in *. by rewrite text_of_plain.
Qed.
#[export] Instance share_setting : StoredSetting ShareSettingsRecord := {|
  setting_key := "share_settings"; setting_read := read_share; setting_json := (λ s, JObj (share_settings_props s));
  setting_updatedAt := ss_updatedAt; setting_ok := stored_share_ok; setting_law := read_share_back
|}.
Definition read_model_provider (value : json) (updated_at : string) : exn + option ModelProviderSettingsRecord :=
  present (mapModelProviderSettings value updated_at).
Definition model_provider_ok (s : ModelProviderSettingsRecord) : Prop := mp_model s ≠ JNull ∧ mp_updatedAt s ≠ JNull.
Lemma read_model_provider_back s : model_provider_ok s → read_model_provider (model_provider_json s) (as_string (Some (mp_updatedAt s)) ⁇ "") = inr (Some s).
Proof.
  unfold read_model_provider, model_provider_ok. intros [Hm Hu]. unfold mapModelProviderSettings, model_provider_json. rewrite parsed_obj; cbn [mbind check_bind]. props_step.
  destruct s as [n b m a u]. cbn [mp_providerName mp_baseUrl mp_model mp_apiKey mp_updatedAt] in *. cbn [present].
  do 3 f_equal; [by destruct n|by destruct b|by destruct m|by destruct a|by destruct u].
Qed.
#[export] Instance model_provider_setting : StoredSetting ModelProviderSettingsRecord := {|
  setting_key := "model_provider"; setting_read := read_model_provider; setting_json := model_provider_json;
  setting_updatedAt := (λ s, as_string (Some (mp_updatedAt s)) ⁇ ""); setting_ok := model_provider_ok; setting_law := read_model_provider_back
|}.
Definition read_policy (value : json) (updated_at : string) : exn + option PiToolPolicySettingsRecord :=
  present (mapPiToolPolicySettings value updated_at).
Definition policy_ok (p : PiToolPolicySettingsRecord) : Prop := ∃ settings, normalizePiToolPolicySettings VodProtocol.to_string settings (policy_updatedAt p) = inr p.
Lemma normalize_tools_inr show settings f ts acc : (∀ t, normalize_mode show settings t = inr (f t)) →
  normalize_tools show settings ts acc = inr (foldl (λ acc t t', if bool_decide (t' = t) then f t else acc t') acc ts).
Proof. intros H. revert acc. induction ts as [|t ts IH]; intros acc; [done|]. cbn [normalize_tools foldl]. by rewrite H, IH. Qed.
Lemma policy_modes_back p t : (t ∈ DANGEROUS_PI_TOOLS → policy_of p t ≠ mode_auto) →
  normalize_mode VodProtocol.to_string (policy_props p) t = inr (policy_of p t).
Proof.
  intros Hd. unfold normalize_mode.
  assert (mode_setting (policy_props p) t = Some (JStr (mode_text (policy_of p t)))) as -> by (by destruct t).
  assert (parse_mode (JStr (mode_text (policy_of p t))) = Some (policy_of p t)) as E by (by destruct (policy_of p t)).
  case_bool_decide as Hr; [by rewrite E|]. unfold isDangerousPiToolPolicyMode. rewrite E.
  destruct (policy_of p t) eqn:Em; [|done..]. exfalso. apply Hd; [|done]. destruct t; try (by apply (bool_decide_eq_true_1 _); vm_compute);
    exfalso; apply Hr; by apply (bool_decide_eq_true_1 _); vm_compute.
Qed.
Lemma read_policy_back p : policy_ok p → read_policy (JObj (policy_props p)) (policy_updatedAt p) = inr (Some p).
Proof.
  unfold read_policy, policy_ok, mapPiToolPolicySettings. intros [settings H]. rewrite parsed_obj; cbn [mbind check_bind].
  assert (prop (policy_props p) "updatedAt" = Some (JStr (policy_updatedAt p))) as -> by done.
  unfold normalizePiToolPolicySettings. rewrite (normalize_tools_inr _ _ (policy_of p)).
  - cbn [present as_string default]. do 2 f_equal. destruct p as [f u]. cbn [policy_of policy_updatedAt]. f_equal.
    apply functional_extensionality. intros t. by destruct t.
  - intros t. apply policy_modes_back. intros Ht. by apply (dangerous_mode _ _ _ _ _ H).
Qed.
#[export] Instance policy_setting : StoredSetting PiToolPolicySettingsRecord := {|
  setting_key := "pi_tool_policy"; setting_read := read_policy; setting_json := (λ p, JObj (policy_props p));
  setting_updatedAt := policy_updatedAt; setting_ok := policy_ok; setting_law := read_policy_back
|}.

(** *** Reading and saving *)
Definition getModelProviderSettings : settings_db → exn + option ModelProviderSettingsRecord := get_setting.
Definition getPiToolPolicySettings : settings_db → exn + option PiToolPolicySettingsRecord := get_setting.
Definition getDockerSettings : settings_db → exn + option DockerSettingsRecord := get_setting.
Definition getShareSettings : settings_db → exn + option ShareSettingsRecord := get_setting.
Definition getDownloadSettings : settings_db → exn + option DownloadSettingsRecord := get_setting.
Definition getIndexerSettings : settings_db → exn + option IndexerSettingsRecord := get_setting.
Definition getPhotostaffMapSettings : settings_db → exn + option PhotostaffMapSettingsRecord := get_setting.
Definition getPhotostaffProcessingSettings : settings_db → exn + option PhotostaffProcessingSettingsRecord := get_setting.

Definition saveModelProviderSettings (providerName : ModelProviderName) (baseUrl model apiKey : json) (now : string) :
    settings_prog ModelProviderSettingsRecord :=
  record ← check (model_provider_record (normalizeModelProviderName (Some (JStr (provider_text providerName)))) baseUrl model apiKey now);
  put_setting record.
Definition savePiToolPolicySettings (settings : list (string * json)) (now : string) : settings_prog PiToolPolicySettingsRecord :=
  record ← check (normalizePiToolPolicySettings VodProtocol.to_string settings now);
  put_setting record.
Definition saveDockerSettings (enabled : json) (socketPath composeCommand : string) (operationTimeoutMs : number) (consoleShells : list string)
    (now : string) : settings_prog DockerSettingsRecord :=
  put_setting (DockerSettings enabled socketPath composeCommand operationTimeoutMs consoleShells now).
Definition saveShareSettings (settings : ShareConfig) (now : string) : settings_prog ShareSettingsRecord :=
  put_setting (normalizeShareSettings (share_settings_props (ShareSettings settings now)) now).
Definition saveDownloadSettings (settings : list (string * json)) (now : string) : settings_prog DownloadSettingsRecord :=
  record ← check (normalizeDownloadSettings settings now);
  put_setting record.
Definition saveIndexerSettings (settings : list (string * json)) (now : string) : settings_prog IndexerSettingsRecord :=
  record ← check (normalizeIndexerSettings settings now);
  put_setting record.
Definition savePhotostaffMapSettings (settings : string → PhotostaffMapSettingsRecord) (now : string) : settings_prog PhotostaffMapSettingsRecord :=
  put_setting (settings now).
Definition savePhotostaffProcessingSettings (settings : list (string * json)) (now : string) : settings_prog PhotostaffProcessingSettingsRecord :=
  record ← check (normalizePhotostaffProcessingSettings settings now);
  put_setting record.

Definition defaultDownloadSettings : DownloadSettingsRecord :=
  DownloadSettings 1 4 (64 * 1024 * 1024) 5 2000 300000 900000 15000 30000 60000 0 None EPOCH.
Definition defaultPhotostaffProcessingSettings : PhotostaffProcessingSettingsRecord :=
  PhotostaffProcessingSettings 1 (30 * 60 * 1000) 5 2000 300000 120000 (512 * 1024 * 1024) (16 * 1024 * 1024) (2 * 1024 ^ 3) 0 268402689 EPOCH.
Definition defaultIndexerSettings : IndexerSettingsRecord :=
  IndexerSettings 4 2 (30 * 60 * 1000) (2 * 1024 * 1024) (512 * 1024 * 1024) (120 * 1000) 500 20 [] EPOCH.
Definition defaultPiToolPolicySettings : PiToolPolicySettingsRecord := PiToolPolicy DEFAULT_PI_TOOL_POLICY_SETTINGS EPOCH.
(** They are what the normalisers make of nothing. *)
Example defaults_normal :
  normalizeDownloadSettings [] EPOCH = inr defaultDownloadSettings ∧ normalizeIndexerSettings [] EPOCH = inr defaultIndexerSettings ∧
  normalizePhotostaffProcessingSettings [] EPOCH = inr defaultPhotostaffProcessingSettings.
Proof. by vm_compute. Qed.

(** ** What was saved is what is read *)
(** A save either throws and changes nothing, or its record is in range, the
    next read gives that record, and the other kinds are as they were. *)
Definition saved_reads_back {A} `{StoredSetting A} (m : settings_prog A) : Prop := ∀ d,
  match m d with
  | (inl _, d') => d' = d
  | (inr a, d') => setting_ok a ∧ get_setting d' = inr (Some a) ∧ ∀ k, k ≠ setting_key → d' !! k = d !! k
  end.
Lemma checked_put {A} `{StoredSetting A} (r : exn + A) : (∀ a, r = inr a → setting_ok a) → saved_reads_back (a ← check r; put_setting a).
Proof.
  intros Hr d. destruct r as [e|a]; cbn; [done|]. unfold mbind, prog_bind, check. pose proof (put_setting_read a d (Hr a eq_refl)) as [H1 H2].
  unfold put_setting in *. cbn [snd] in *. split; [by apply Hr|]. by split.
Qed.
Lemma plain_put {A} `{StoredSetting A} (a : A) : setting_ok a → saved_reads_back (put_setting a).
Proof.
  intros Ha d. pose proof (put_setting_read a d Ha) as [H1 H2]. unfold put_setting in *. cbn [snd] in *. by split.
Qed.

(** C25: What a save of settings leaves.  For downloads, the indexer, the
    processing of photos, the policy of tools, shares and the model provider:
    a save that throws changes nothing; after one that returns the settings
    are in their ranges, the next read gives the very record that was
    returned, and no other kind of settings has changed.  The settings of the
    photo map and of Docker are stored without a check.  The map's read back
    the same if the tile type is one of the three, the zooms finite and the
    bounds four finite numbers.  Docker's: whatever was given, the save
    returns it and changes no other kind, and the next read gives what
    [docker_as_read] says - the switch by its truth value, texts trimmed,
    defaults for what is blank or not positive -, which is in range, and the
    very record that was returned when that was in range. *)
Theorem saved_settings_read_back now (Hnow : plain_text now) :
  (∀ settings, saved_reads_back (saveDownloadSettings settings now)) ∧
  (∀ settings, saved_reads_back (saveIndexerSettings settings now)) ∧
  (∀ settings, saved_reads_back (savePhotostaffProcessingSettings settings now)) ∧
  (∀ settings, saved_reads_back (savePiToolPolicySettings settings now)) ∧
  (∀ settings, saved_reads_back (saveShareSettings settings now)) ∧
  (∀ providerName baseUrl model apiKey, saved_reads_back (saveModelProviderSettings providerName baseUrl model apiKey now)) ∧
  (∀ settings, map_settings_ok (settings now) → saved_reads_back (savePhotostaffMapSettings settings now)) ∧
  (∀ enabled socketPath composeCommand timeout shells d,
     let s := DockerSettings enabled socketPath composeCommand timeout shells now in
     ∃ d', saveDockerSettings enabled socketPath composeCommand timeout shells now d = (inr s, d') ∧
       (∀ k, k ≠ "docker_settings" → d' !! k = d !! k) ∧
       getDockerSettings d' = inr (Some (docker_as_read s)) ∧ docker_in_range (docker_as_read s) ∧
       (docker_in_range s → docker_as_read s = s)).
Proof.
  split_and!.
  - intros settings. apply checked_put. intros s Hs. by apply normalizeDownloadSettings_ok in Hs as [Hs _].
  - intros settings. apply checked_put. intros s Hs. by apply normalizeIndexer_ok in Hs as [Hs _].
  - intros settings. apply checked_put. intros s Hs. by apply normalizePhotostaff_ok in Hs as [Hs _].
  - intros settings. apply checked_put. intros s Hs. exists settings. unfold normalizePiToolPolicySettings in *.
    destruct (normalize_tools _ _ _ _); [done|]. by injection Hs as <-.
  - intros settings. apply plain_put. split; [apply normalized_settings_ok|done].
  - intros n b m a. apply checked_put. unfold model_provider_record. intros s Hs. apply check_inv in Hs as (b' & _ & Hs).
    apply check_inv in Hs as (m' & Hm & Hs). apply check_inv in Hs as (a' & _ & Hs). injection Hs as <-. split; [|done].
    cbn. destruct m; try done. by injection Hm as <-.
  - intros settings Hs. by apply plain_put.
  - intros e so co ti sh d s. unfold saveDockerSettings, put_setting. fold s. eexists. split; [done|]. split.
    { intros k Hk. by apply lookup_insert_ne. }
    split; [|split; [apply docker_as_read_range|intros Hs; by apply docker_as_read_id]].
    unfold getDockerSettings, get_setting. rewrite lookup_insert_eq. apply (read_docker_any s).
Qed.

Module SettingsDemo.
Lemma saved_settings_read_back_witness :
  ∃ s d, saveDownloadSettings [("concurrency", int 3); ("retryBaseDelayMs", int 1000)] "2026-01-01T00:00:00.000Z" ∅ = (inr s, d) ∧
    getDownloadSettings d = inr (Some s) ∧ ds_concurrency s = 3 ∧ ds_retryMaxDelayMs s = 300000.
Proof.
  destruct (saved_settings_read_back "2026-01-01T00:00:00.000Z" ltac:(split; [vm_compute; reflexivity|done])) as [H _].
  specialize (H [("concurrency", int 3); ("retryBaseDelayMs", int 1000)] ∅).
  destruct (saveDownloadSettings [("concurrency", int 3); ("retryBaseDelayMs", int 1000)] "2026-01-01T00:00:00.000Z" ∅) as [[e|s] d] eqn:E; [by vm_compute in E|].
  destruct H as (_ & Hg & _). exists s, d. split; [reflexivity|]. split; [exact Hg|]. vm_compute in E. by injection E as <- _.
Defined.
(** A maximum below the base delay, and a number that is a text, are refused. *)
Example refused :
  normalizeDownloadSettings [("retryBaseDelayMs", int 60000); ("retryMaxDelayMs", int 59999)] EPOCH =
    inl (Error "Download retry maximum delay must be an integer between 60000 and 1800000") ∧
  normalizeDownloadSettings [("concurrency", JStr "2")] EPOCH = inl (Error "Download concurrency must be an integer between 1 and 3").
Proof. by vm_compute. Qed.
(** The password of the account is trimmed when it is stored. *)
Example stored_trimmed :
  let p := normalizeShareProtocolConfig None "a" in
  let c := Shares true (ShareAccount "zos" (Some " secret ")) [ShareDefinition "a" "a" "r" "dir" "" p] in
  match saveShareSettings c "t" ∅ with
  | (inr s, _) => sa_password (sh_account (ss_config s)) = Some "secret"
  | (inl _, _) => False
  end.
Proof. by vm_compute. Qed.
End SettingsDemo.
