(* ===== verification/SettingsRoutes.v ===== *)
(** * The settings routes

    lib/settings.ts of the API (defaults from the configuration, what is shown
    of the settings) and the handlers of routes/settings.ts.  What a handler
    throws outside its [try] becomes a reply of status 500 of the server. *)
From Stdlib Require Import Ascii.
From stdpp Require Import pretty.
From S2P Require VodProtocol.
From S2P Require Import Prelude Json JsString JsonText JsNumber Http JsText PiTools ShareConfig Config Settings.
Open Scope Z_scope.

(** ** lib/settings.ts *)
Definition normalizeOptionalText : option json → option string := text_of.
Definition defaultModelProviderSettings (c : ZosConfig) : ModelProviderSettingsRecord :=
  ModelProviderSettings openai (nullable (zc_model_localEndpoint c)) (JStr "") JNull (JStr EPOCH).
Definition toPublicModelProviderSettings (s : ModelProviderSettingsRecord) : json :=
  JObj [("providerName", JStr (provider_text (mp_providerName s))); ("baseUrl", mp_baseUrl s); ("model", mp_model s);
        ("apiKeyConfigured", JBool (to_boolean (Some (mp_apiKey s)))); ("updatedAt", mp_updatedAt s)].
Definition defaultDockerSettings (c : ZosConfig) : DockerSettingsRecord :=
  let d := zc_docker c in
  DockerSettings (JBool (dk_enabled d)) (dk_socketPath d) (dk_composeCommand d) (dk_operationTimeoutMs d) (dk_consoleShells d) EPOCH.
Definition defaultShareSettings (c : ZosConfig) : ShareSettingsRecord := ShareSettings (zc_shares c) EPOCH.
Definition toPublicShareSettings (s : ShareSettingsRecord) : json :=
  let c := ss_config s in
  JObj [("enabled", JBool (sh_enabled c));
        ("account", JObj [("username", JStr (sa_username (sh_account c)));
                          ("passwordConfigured", JBool (match sa_password (sh_account c) with Some p => negb (bool_decide (p = "")) | None => false end))]);
        ("shares", JArr (share_json <$> sh_shares c)); ("updatedAt", JStr (ss_updatedAt s))].
(** The stored switch is a truth value once it was read. *)
Definition dockerSettingsToConfig (s : DockerSettingsRecord) : DockerConfig :=
  Docker (to_boolean (Some (ks_enabled s))) (ks_socketPath s) (ks_composeCommand s) (ks_operationTimeoutMs s) (ks_consoleShells s).
Definition effectiveDockerConfig (c : ZosConfig) (s : option DockerSettingsRecord) : DockerConfig :=
  from_option dockerSettingsToConfig (zc_docker c) s.
Definition effectiveShareConfig (c : ZosConfig) (s : option ShareSettingsRecord) : ShareConfig := from_option ss_config (zc_shares c) s.

(** ** routes/settings.ts *)
Definition shown (v : json) : reply json := send (JObj [("settings", v)]).
Definition bad_request {A} (e : exn) : settings_prog (reply A) := mret (send_error 400 (exn_message e)).
(** [get(db) ?? default] *)
Definition current {A} (get : settings_db → exn + option A) (fallback : A) : settings_prog A :=
  λ d, (match get d with inl e => inl e | inr s => inr (s ⁇ fallback) end, d).

Definition get_indexer : settings_prog (reply json) :=
  s ← current getIndexerSettings defaultIndexerSettings; mret (shown (JObj (indexer_props s))).
(** [next.ocrRootIds.some((id) => !rootIds.has(id))] *)
Definition unknown_root (rootIds : list string) (ocrRootIds : option json) : exn + bool :=
  match ocrRootIds with
  | Some (JArr l) => inr (existsb (λ v, match v with JStr s => negb (bool_decide (s ∈ rootIds)) | _ => true end) l)
  | Some JNull => inl (TypeError "Cannot read properties of null (reading 'some')")
  | None => inl (TypeError "Cannot read properties of undefined (reading 'some')")
  | Some _ => inl (TypeError "next.ocrRootIds.some is not a function")
  end.
(** [rootIds] are the enabled roots. *)
Definition patch_indexer (rootIds : list string) (body : option json) (now : string) : settings_prog (reply json) :=
  try_catch
    (existing ← current getIndexerSettings defaultIndexerSettings;
     let next := spread (indexer_props existing) (recordFrom body) in
     unknown ← check (unknown_root rootIds (prop next "ocrRootIds"));
     _ ← guard_throw unknown (Error "Indexer OCR roots must reference configured NAS roots");
     s ← saveIndexerSettings next now;
     mret (shown (JObj (indexer_props s))))
    bad_request.

Definition get_downloads : settings_prog (reply json) :=
  s ← current getDownloadSettings defaultDownloadSettings; mret (shown (JObj (download_props s))).
Definition numericKeys : list string :=
  ["concurrency"; "parallelRequestsPerTask"; "segmentedDownloadMinBytes"; "maxAutoRetries"; "retryBaseDelayMs"; "retryMaxDelayMs";
   "retryAfterMaxDelayMs"; "connectTimeoutMs"; "responseHeaderTimeoutMs"; "readIdleTimeoutMs"; "minFreeSpaceBytes"].
(** The loop over the keys: what the body holds is converted. *)
Fixpoint convert_keys (body : list (string * json)) (ks : list string) (next : list (string * json)) : exn + list (string * json) :=
  match ks with
  | [] => inr next
  | k :: ks =>
      match prop body k with
      | None | Some JNull => convert_keys body ks next
      | Some v => n ← number_of v; convert_keys body ks (set_prop next k (JNum n))
      end
  end.
Definition download_body (body existing : list (string * json)) : exn + list (string * json) :=
  next ← convert_keys body numericKeys existing;
  match prop body "maxFileSizeBytes" with
  | None => inr next
  | Some JNull => inr (set_prop next "maxFileSizeBytes" JNull)
  | Some v => n ← number_of v; inr (set_prop next "maxFileSizeBytes" (JNum n))
  end.
Definition patch_downloads (body : option json) (now : string) : settings_prog (reply json) :=
  try_catch
    (existing ← current getDownloadSettings defaultDownloadSettings;
     next ← check (download_body (recordFrom body) (download_props existing));
     s ← saveDownloadSettings next now;
     mret (shown (JObj (download_props s))))
    bad_request.

Section Configured.
Context (config : ZosConfig).
Definition get_model_provider : settings_prog (reply json) :=
  s ← current getModelProviderSettings (defaultModelProviderSettings config); mret (shown (toPublicModelProviderSettings s)).
Definition patch_model_provider (body : option json) (now : string) : settings_prog (reply json) :=
  let b := recordFrom body in
  existing ← current getModelProviderSettings (defaultModelProviderSettings config);
  let providerName := nullish (prop b "providerName") (nullish (prop b "provider") (JStr (provider_text (mp_providerName existing)))) in
  match isModelProviderName (Some providerName) with
  | None => mret (send_error 400 "Unsupported model provider")
  | Some normalizedProviderName =>
      let baseUrl := match prop b "baseUrl" with None => mp_baseUrl existing | v => nullable (normalizeOptionalText v) end in
      let model := match prop b "model" with None => mp_model existing | v => JStr (normalizeOptionalText v ⁇ "") end in
      let apiKey := if to_boolean (prop b "clearApiKey") then JNull
                    else from_option JStr (mp_apiKey existing) (normalizeOptionalText (prop b "apiKey")) in
      s ← saveModelProviderSettings normalizedProviderName baseUrl model apiKey now;
      mret (shown (toPublicModelProviderSettings s))
  end.

Definition get_pi_tool_policy : settings_prog (reply json) :=
  p ← current getPiToolPolicySettings defaultPiToolPolicySettings; mret (shown (JObj (policy_props p))).
Definition patch_pi_tool_policy (body : option json) (now : string) : settings_prog (reply json) :=
  existing ← current getPiToolPolicySettings defaultPiToolPolicySettings;
  let next := spread (spread (policy_props defaultPiToolPolicySettings) (policy_props existing)) (recordFrom body) in
  try_catch
    (p ← savePiToolPolicySettings
           (omap (λ t, option_map (pair (tool_text t)) (prop next (tool_text t))) (READ_ONLY_PI_TOOLS ++ DANGEROUS_PI_TOOLS)) now;
     mret (shown (JObj (policy_props p))))
    bad_request.

Definition get_docker : settings_prog (reply json) :=
  s ← current getDockerSettings (defaultDockerSettings config); mret (shown (docker_json s)).
Definition get_shares : settings_prog (reply json) :=
  s ← current getShareSettings (defaultShareSettings config); mret (shown (toPublicShareSettings s)).
Definition normalizeTextField (value : option json) (fallback defaultValue : string) : string :=
  or_text (normalizeOptionalText value ⁇ fallback) defaultValue.
Definition normalizePositiveInteger (value : option json) (fallback : number) : exn + number :=
  match value with
  | None | Some JNull => inr fallback
  | Some v =>
      parsed ← number_of v;
      if positive_number parsed then inr parsed else inl (Error "Docker operation timeout must be a positive integer")
  end.
(** The texts of [shells.map((shell) => shell.trim())]. *)
Definition trim_shell (v : json) : exn + string :=
  match v with
  | JStr s => inr (trim s)
  | JNull => inl (TypeError "Cannot read properties of null (reading 'trim')")
  | _ => inl (not_a_function "shell.trim")
  end.
Definition comma_or_line (c : ascii) : bool := Ascii.eqb c line_feed || Ascii.eqb c ",".
Definition split_shells (s : string) : list string := split_on "," (map_chars (λ c, if comma_or_line c then ","%char else c) s).
Definition normalizeDockerShells (value : option json) (fallback : list string) : exn + list string :=
  shells ← check_all trim_shell
             match value with Some (JArr l) => l | Some (JStr s) => JStr <$> split_shells s | _ => JStr <$> fallback end;
  let shells := List.filter (λ s, negb (bool_decide (s = ""))) shells in
  match shells with
  | [] => inr fallback
  | _ => check_all (λ s, if isAbsolute s then inr s else inl (Error ("Docker console shell must be an absolute path: " +:+ s))) shells
  end.
(** The switch is not checked. *)
Definition patch_docker (body : option json) (now : string) : settings_prog (reply json) :=
  let b := recordFrom body in
  existing ← current getDockerSettings (defaultDockerSettings config);
  try_catch
    (timeout ← check (normalizePositiveInteger (prop b "operationTimeoutMs") (ks_operationTimeoutMs existing));
     shells ← check (normalizeDockerShells (prop b "consoleShells") (ks_consoleShells existing));
     s ← saveDockerSettings (nullish (prop b "enabled") (ks_enabled existing))
           (normalizeTextField (prop b "socketPath") (ks_socketPath existing) "/var/run/docker.sock")
           (normalizeTextField (prop b "composeCommand") (ks_composeCommand existing) "docker") timeout shells now;
     mret (shown (docker_json s)))
    bad_request.
End Configured.

(** ** Every handler replies *)
Inductive settings_request :=
  | GetIndexer | PatchIndexer (rootIds : list string) (body : option json)
  | GetDownloads | PatchDownloads (body : option json)
  | GetModelProvider | PatchModelProvider (body : option json)
  | GetPolicy | PatchPolicy (body : option json)
  | GetDocker | PatchDocker (body : option json) | GetShares.
Definition handle (config : ZosConfig) (now : string) (q : settings_request) : settings_prog (reply json) :=
  match q with
  | GetIndexer => get_indexer | PatchIndexer rootIds body => patch_indexer rootIds body now
  | GetDownloads => get_downloads | PatchDownloads body => patch_downloads body now
  | GetModelProvider => get_model_provider config | PatchModelProvider body => patch_model_provider config body now
  | GetPolicy => get_pi_tool_policy | PatchPolicy body => patch_pi_tool_policy body now
  | GetDocker => get_docker config | PatchDocker body => patch_docker config body now
  | GetShares => get_shares config
  end.

(** A row holds what was made of a record with [ok], or there is none. *)
Definition holds {A} `{StoredSetting A} (ok : A → Prop) (d : settings_db) : Prop :=
  ∀ v t, d !! setting_key = Some (v, t) → ∃ a, ok a ∧ v = setting_json a ∧ t = setting_updatedAt a.
Definition text_or_null (v : json) : Prop := v = JNull ∨ ∃ s, v = JStr s.
Record model_texts (s : ModelProviderSettingsRecord) : Prop := ModelTexts {
  mt_baseUrl : text_or_null (mp_baseUrl s); mt_model : ∃ m, mp_model s = JStr m; mt_apiKey : text_or_null (mp_apiKey s);
  mt_updatedAt : ∃ t, mp_updatedAt s = JStr t
}.
Record settings_wf (d : settings_db) : Prop := SettingsWf {
  sw_downloads : holds download_ok d;
  sw_indexer : holds indexer_ok d;
  sw_policy : holds policy_ok d;
  sw_model : holds model_texts d;
  sw_docker : holds (A := DockerSettingsRecord) (λ _, True) d;
  sw_shares : holds stored_share_ok d
}.

Lemma holds_get {A} `{StoredSetting A} (ok : A → Prop) d : (∀ a, ok a → setting_ok a) → holds ok d →
  ∃ o, get_setting d = inr o ∧ from_option ok True o.
Proof.
  intros Hok Hd. unfold get_setting. destruct (d !! setting_key) as [[v t]|] eqn:E; [|by exists None].
  destruct (Hd v t E) as (a & Ha & -> & ->). exists (Some a). split; [by apply setting_law, Hok|done].
Qed.
Lemma current_holds {A} `{StoredSetting A} (ok : A → Prop) (fallback : A) d : (∀ a, ok a → setting_ok a) → ok fallback → holds ok d →
  ∃ a, current get_setting fallback d = (inr a, d) ∧ ok a.
Proof.
  intros Hok Hf Hd. destruct (holds_get ok d Hok Hd) as (o & E & Ho). exists (o ⁇ fallback). unfold current. rewrite E. split; [done|].
  by destruct o.
Qed.
Lemma put_holds {A} `{StoredSetting A} (ok : A → Prop) (a : A) d : ok a → holds ok (put_setting a d).2.
Proof. intros Ha v t. unfold put_setting. cbn [snd]. rewrite lookup_insert_eq. intros [= <- <-]. by exists a. Qed.
Lemma put_holds_other {A B} `{StoredSetting A} `{StoredSetting B} (ok : B → Prop) (a : A) d :
  setting_key (A := A) ≠ setting_key (A := B) → holds ok d → holds ok (put_setting a d).2.
Proof. intros Hk Hd v t. unfold put_setting. cbn [snd]. rewrite lookup_insert_ne by done. apply Hd. Qed.

(** The next read of each kind returns settings in range, or none. *)
Definition reads_in_range {A} `{StoredSetting A} (ok : A → Prop) (d : settings_db) : Prop := ∃ o, get_setting d = inr o ∧ from_option ok True o.
Record settings_in_range (d : settings_db) : Prop := SettingsInRange {
  ir_downloads : reads_in_range download_ok d;
  ir_indexer : reads_in_range indexer_ok d;
  ir_policy : reads_in_range policy_ok d;
  ir_model : reads_in_range model_texts d;
  ir_docker : reads_in_range docker_in_range d;
  ir_shares : reads_in_range stored_share_ok d
}.
Lemma docker_reads d : holds (A := DockerSettingsRecord) (λ _, True) d → reads_in_range docker_in_range d.
Proof.
  intros Hd. unfold reads_in_range, get_setting. destruct (d !! setting_key) as [[v t]|] eqn:E; [|by exists None].
  destruct (Hd v t E) as (a & _ & -> & ->). exists (Some (docker_as_read a)). split; [apply (read_docker_any a)|apply docker_as_read_range].
Qed.
Lemma model_setting_ok s : model_texts s → setting_ok s.
Proof. intros [_ [m Hm] _ [t Ht]]. split; congruence. Qed.
Lemma wf_in_range d : settings_wf d → settings_in_range d.
Proof.
  intros [H1 H2 H3 H4 H5 H6]. split; [by apply (holds_get download_ok)|by apply (holds_get indexer_ok)|by apply (holds_get policy_ok)| | |].
  - apply (holds_get model_texts); [apply model_setting_ok|done].
  - by apply docker_reads.
  - by apply (holds_get stored_share_ok).
Qed.
Lemma current_docker fallback d : holds (A := DockerSettingsRecord) (λ _, True) d → ∃ s, current getDockerSettings fallback d = (inr s, d).
Proof. intros Hd. destruct (docker_reads d Hd) as (o & E & _). exists (o ⁇ fallback). unfold current, getDockerSettings. by rewrite E. Qed.

(** What a put leaves of the well-formed table: only its own kind matters. *)
Ltac put_wf := intros Hwf; destruct Hwf; split; first [by apply put_holds | apply put_holds_other; [done|assumption]].
Lemma put_download_wf (s : DownloadSettingsRecord) d : download_ok s → settings_wf d → settings_wf (put_setting s d).2.
Proof. intros Hs. put_wf. Qed.
Lemma put_indexer_wf (s : IndexerSettingsRecord) d : indexer_ok s → settings_wf d → settings_wf (put_setting s d).2.
Proof. intros Hs. put_wf. Qed.
Lemma put_policy_wf (s : PiToolPolicySettingsRecord) d : policy_ok s → settings_wf d → settings_wf (put_setting s d).2.
Proof. intros Hs. put_wf. Qed.
Lemma put_model_wf (s : ModelProviderSettingsRecord) d : model_texts s → settings_wf d → settings_wf (put_setting s d).2.
Proof. intros Hs. put_wf. Qed.
Lemma put_docker_wf (s : DockerSettingsRecord) d : settings_wf d → settings_wf (put_setting s d).2.
Proof. put_wf. Qed.
Lemma put_share_wf (s : ShareSettingsRecord) d : stored_share_ok s → settings_wf d → settings_wf (put_setting s d).2.
Proof. intros Hs. put_wf. Qed.

(** The reply of a handler that refused, or saved. *)
Definition answered (d : settings_db) (res : (exn + reply json) * settings_db) : Prop :=
  ∃ r d', res = (inr r, d') ∧ settings_wf d' ∧ (rp_status r = 200 ∨ (rp_status r = 400 ∧ d' = d)).
Lemma answered_shown d v : settings_wf d → answered d (inr (shown v), d).
Proof. intros H. exists (shown v), d. split; [done|]. split; [done|]. by left. Qed.
Lemma answered_refused d e : settings_wf d → answered d (bad_request (A := json) e d).
Proof. intros H. eexists _, d. split; [done|]. split; [done|]. by right. Qed.
(** A checked save inside the [try] of a handler. *)
Lemma answered_save {A} `{StoredSetting A} (r : exn + A) (view : A → json) d :
  (∀ a, r = inr a → settings_wf (put_setting a d).2) → settings_wf d →
  answered d (try_catch (s ← (a ← check r; put_setting a); mret (shown (view s))) bad_request d).
Proof.
  intros Hr Hd. destruct r as [e|a]; [by apply answered_refused|]. eexists _, _. split; [done|]. split; [by apply (Hr a)|by left].
Qed.
Lemma default_policy_ok : policy_ok defaultPiToolPolicySettings.
Proof.
  exists []. unfold normalizePiToolPolicySettings. rewrite (normalize_tools_inr _ _ DEFAULT_PI_TOOL_POLICY_SETTINGS) by done.
  do 2 f_equal. apply FunctionalExtensionality.functional_extensionality. intros t. by destruct t.
Qed.
Lemma default_download_ok : download_ok defaultDownloadSettings.
Proof. by destruct (normalizeDownloadSettings_ok [] EPOCH defaultDownloadSettings ltac:(apply defaults_normal)) as [H _]. Qed.
Lemma default_indexer_ok : indexer_ok defaultIndexerSettings.
Proof. by destruct (normalizeIndexer_ok [] EPOCH defaultIndexerSettings ltac:(apply defaults_normal)) as [H _]. Qed.
Lemma nullable_text o : text_or_null (nullable o).
Proof. destruct o; [right; by eexists|by left]. Qed.
Lemma model_record_texts n b m a now s : model_provider_record n b m a now = inr s → model_texts s.
Proof.
  unfold model_provider_record. intros (b' & Hb & H)%check_inv. apply check_inv in H as (m' & Hm & H). apply check_inv in H as (a' & Ha & H).
  injection H as <-. split; cbn; [|by destruct m; try done; injection Hm as <-; eexists| |by eexists].
  - destruct b; try done; injection Hb as <-; [by left|apply nullable_text].
  - destruct a; try done; injection Ha as <-; [by left|apply nullable_text].
Qed.
Lemma trimmed_text w v : text_or_null v → ∃ v', trimmed_or_null w v = inr v'.
Proof. intros [->|[s ->]]; by eexists. Qed.
Lemma download_setting_ok s : download_ok s → setting_ok s.
Proof. done. Qed.
Lemma indexer_setting_ok s : indexer_ok s → setting_ok s.
Proof. done. Qed.
Lemma policy_setting_ok s : policy_ok s → setting_ok s.
Proof. done. Qed.
Lemma stored_share_setting s : stored_share_ok s → setting_ok s.
Proof. done. Qed.

Section Reply.
Context (config : ZosConfig) (now : string).

Lemma patch_indexer_answers rootIds body d : settings_wf d → answered d (patch_indexer rootIds body now d).
Proof.
  intros Hd. unfold patch_indexer, try_catch.
  destruct (current_holds indexer_ok defaultIndexerSettings d indexer_setting_ok default_indexer_ok (sw_indexer d Hd)) as (s & E & Hs).
  unfold getIndexerSettings. rewrite (bind_inr _ _ _ _ _ E). cbv zeta. set (next := spread _ _).
  destruct (unknown_root rootIds (prop next "ocrRootIds")) as [e|[]]; [by apply answered_refused|by apply answered_refused|].
  apply (answered_save (normalizeIndexerSettings next now) (λ s, JObj (indexer_props s))); [|done].
  intros a [Ha _]%normalizeIndexer_ok. by apply put_indexer_wf.
Qed.
Lemma patch_downloads_answers body d : settings_wf d → answered d (patch_downloads body now d).
Proof.
  intros Hd. unfold patch_downloads, try_catch.
  destruct (current_holds download_ok defaultDownloadSettings d download_setting_ok default_download_ok (sw_downloads d Hd)) as (s & E & Hs).
  unfold getDownloadSettings. rewrite (bind_inr _ _ _ _ _ E). destruct (download_body _ _) as [e|next]; [by apply answered_refused|].
  apply (answered_save (normalizeDownloadSettings next now) (λ s, JObj (download_props s))); [|done].
  intros a [Ha _]%normalizeDownloadSettings_ok. by apply put_download_wf.
Qed.
Lemma patch_policy_answers body d : settings_wf d → answered d (patch_pi_tool_policy body now d).
Proof.
  intros Hd. unfold patch_pi_tool_policy.
  destruct (current_holds policy_ok defaultPiToolPolicySettings d policy_setting_ok default_policy_ok (sw_policy d Hd)) as (s & E & Hs).
  unfold getPiToolPolicySettings. rewrite (bind_inr _ _ _ _ _ E). cbv zeta. set (settings := omap _ _).
  apply (answered_save (normalizePiToolPolicySettings VodProtocol.to_string settings now) (λ p, JObj (policy_props p))); [|done].
  intros a Ha. apply put_policy_wf; [|done]. exists settings. unfold normalizePiToolPolicySettings in *.
  destruct (normalize_tools _ _ _ _); [done|]. by injection Ha as <-.
Qed.
Lemma patch_model_answers body d : settings_wf d → answered d (patch_model_provider config body now d).
Proof.
  intros Hd. unfold patch_model_provider. cbv zeta.
  destruct (current_holds model_texts (defaultModelProviderSettings config) d model_setting_ok) as (s & E & [Hb [m Hm] Ha _]).
  { split; cbn; [apply nullable_text|by eexists|by left|by eexists]. }
  { apply (sw_model d Hd). }
  unfold getModelProviderSettings. rewrite (bind_inr _ _ _ _ _ E). destruct (isModelProviderName _) as [n|]; [|by apply (answered_refused d (Error "Unsupported model provider"))].
  set (baseUrl := match prop (recordFrom body) "baseUrl" with None => _ | v => _ end).
  set (model := match prop (recordFrom body) "model" with None => _ | v => _ end). set (apiKey := if to_boolean _ then _ else _).
  assert (text_or_null baseUrl) as Hb' by (unfold baseUrl; destruct (prop _ "baseUrl"); [apply nullable_text|done]).
  assert (∃ m, model = JStr m) as [m' Hm'] by (unfold model; destruct (prop _ "model"); by eexists).
  assert (text_or_null apiKey) as Ha'.
  { unfold apiKey. destruct (to_boolean _); [by left|]. destruct (normalizeOptionalText _); [right; by eexists|done]. }
  clearbody baseUrl model apiKey. subst model. unfold saveModelProviderSettings.
  destruct (model_provider_record (normalizeModelProviderName (Some (JStr (provider_text n)))) baseUrl (JStr m') apiKey now) as [e|r] eqn:Er.
  - exfalso. unfold model_provider_record in Er. destruct (trimmed_text "settings.baseUrl?.trim" baseUrl Hb') as [? E1].
    destruct (trimmed_text "settings.apiKey?.trim" apiKey Ha') as [? E2]. rewrite E1 in Er. cbn [mbind check_bind trimmed] in Er. by rewrite E2 in Er.
  - eexists _, _. split; [done|]. split; [|by left]. apply put_model_wf; [by eapply model_record_texts|done].
Qed.
Lemma patch_docker_answers body d : settings_wf d → answered d (patch_docker config body now d).
Proof.
  intros Hd. unfold patch_docker, try_catch. cbv zeta. destruct (current_docker (defaultDockerSettings config) d (sw_docker d Hd)) as [s E].
  rewrite (bind_inr _ _ _ _ _ E). destruct (normalizePositiveInteger _ _) as [e|timeout]; [by apply answered_refused|].
  destruct (normalizeDockerShells _ _) as [e|shells]; [by apply answered_refused|]. unfold saveDockerSettings.
  eexists _, _. split; [done|]. split; [by apply put_docker_wf|by left].
Qed.

End Reply.

Module SettingsRoutesDemo.
Lemma empty_wf : settings_wf ∅.
Proof. split; intros v t H; by rewrite lookup_empty in H. Qed.
Definition demo_config : ZosConfig :=
  let p := paths_of "/srv/zos" in
  Config.Config development p (zp_stateDir p) (zp_databasePath p) "127.0.0.1" (lit 3010) [] (lit 750) "Admin" "pi" "pi" None
    (Docker false "/var/run/docker.sock" "docker" (lit 120000) ["/bin/sh"]) (Vm true "qemu:///system" "/srv/zos/vm" "default" [] (lit 120000))
    "/run/zos/hostd.sock" (Shares false (ShareAccount "zos-share" None) []) (Terminal None "/run/zos/termux.sock" (lit 1) (lit 1) (lit 32))
    (VodPlayer false "/run/zos/vod-player.sock" "/srv/zos/state/vod-player/session.json" (lit 1) (lit 1) (lit 1) (lit 1) (lit 1) None None "no" "zos")
    "" [] (Backup false None None "" false (lit 1) (lit 1) (lit 1) (lit 1)) (Health (lit 1) (lit 1) (lit 1) (lit 1) (lit 1)).
(** The body may hold texts: they are converted, and a blank one is zero. *)
Example converted_body :
  match patch_downloads (Some (JObj [("concurrency", JStr "2"); ("maxAutoRetries", JStr " ")])) "t" ∅ with
  | (inr r, d) => rp_status r = 200 ∧
      match getDownloadSettings d with inr (Some s) => ds_concurrency s = 2 ∧ ds_maxAutoRetries s = 0 ∧ ds_updatedAt s = "t" | _ => False end
  | _ => False
  end.
Proof. by vm_compute. Qed.
(** The text "false" switches Docker on. *)
Example false_is_true :
  match patch_docker demo_config (Some (JObj [("enabled", JStr "false")])) "t" ∅ with
  | (inr r, d) => rp_status r = 200 ∧
      match getDockerSettings d with inr s => dk_enabled (effectiveDockerConfig demo_config s) = true | _ => False end
  | _ => False
  end.
Proof. by vm_compute. Qed.
End SettingsRoutesDemo.
