(* ===== verification/ShareSettings.v ===== *)
(** * Share settings that are accepted

    lib/share-settings.ts: the checks of the settings a request proposes;
    routes/shares.ts and lib/share-service.ts: the account of the shares, the
    proposals, and what is shown and applied.

    The shares of a request are checked one after the other here; the code
    starts all the checks and reports the first that fails.  The host daemon
    is a parameter. *)
From Stdlib Require Import Ascii.
From stdpp Require Import pretty.
From S2P Require Import FileSystem PathSafety Confinement DockerMounts.
From S2P Require Import Prelude Sql Json JsString JsonText JsNumber IpAddress Http JsText NasRoots CoreDb Jobs Operations ApprovalRoutes.
From S2P Require Import DockerRegistry ShareConfig Config Settings SettingsRoutes.
Open Scope Z_scope.

(** ** lib/share-settings.ts *)
Definition refuse_text {A} (message : string) : exn + A := inl (Error message).
Definition first_and_rest (first rest : ascii → bool) (most : Z) (s : string) : bool :=
  match s with String c s => first c && all_chars rest s && bool_decide (len s ≤ most) | "" => false end.
Definition SHARE_ID_PATTERN : string → bool :=
  first_and_rest is_alnum (λ c, is_alnum c || bool_decide (c ∈ ["_"; "."; "-"]%char)) 63.
Definition SHARE_USERNAME_PATTERN : string → bool :=
  first_and_rest (λ c, is_lower c || Ascii.eqb c "_") (λ c, is_lower c || is_digit c || bool_decide (c ∈ ["_"; "-"]%char)) 31.
Definition validateUsername (username : string) : exn + unit :=
  refuse_if (negb (SHARE_USERNAME_PATTERN username)) "Share account username must be a lowercase system-safe name".
Definition NUL : ascii := "000".
Definition validateSecret (value : string) : exn + unit :=
  refuse_if (has_char NUL value || has_char line_feed value || bool_decide (256 < len value))
    "Share account password contains unsupported characters".
Fixpoint validateUnique (seen values : list string) (message : string) : exn + unit :=
  match values with
  | [] => inr tt
  | v :: values => if bool_decide (v ∈ seen) then refuse_text message else validateUnique (v :: seen) values message
  end.
Definition normalizePort (value : option json) (fallback : Z) (label : string) : exn + number :=
  match value with
  | None | Some JNull => inr (lit fallback)
  | Some v =>
      if is_str (Some v) "" then inr (lit fallback) else
      port ← number_of v;
      if negb (isInteger port) || num_lt port (lit 1) || num_lt (lit 65535) port
      then refuse_text (label +:+ " must be between 1 and 65535") else inr port
  end.
(** [prefix.replace(/\/+/gu, "/")] *)
Fixpoint one_slash (s : string) : string :=
  match s with
  | "" => ""
  | String c s' => if Ascii.eqb c "/" && startsWith "/" s' then one_slash s' else String c (one_slash s')
  end.
Definition drop_last_slash (s : string) : string := if endsWith_char "/" s then take_str (String.length s - 1) s else s.
Definition prefix_char (c : ascii) : bool := is_alnum c || bool_decide (c ∈ ["/"; "_"; "-"]%char).
Definition normalizePathPrefix (value : string) : exn + string :=
  let prefix := if startsWith "/" value then value else "/" +:+ value in
  let normalized := or_text (drop_last_slash (one_slash prefix)) "/" in
  if negb (startsWith "/" normalized && all_chars prefix_char normalized) || includes "/../" normalized || bool_decide (normalized = "/..")
  then refuse_text "WebDAV path prefix must contain only URL path characters" else inr normalized.
Definition requestedMediaTypes (value : option json) : exn + list DlnaMediaType :=
  match value with
  | Some (JArr l) =>
      match omap (λ v, s ← as_string (Some v); isDlnaMediaType s) l with
      | [] => refuse_text "DLNA requires at least one media type"
      | l => inr (distinct l)
      end
  | _ => inr DLNA_MEDIA_TYPES
  end.
Definition identifier_char (c : ascii) : bool := is_alnum c || bool_decide (c ∈ ["_"; "."; ":"; "-"]%char).
Definition normalizeOptionalIdentifier (value : option json) : exn + option string :=
  match text_of value with
  | None => inr None
  | Some text =>
      if all_chars identifier_char text then inr (Some text)
      else refuse_text "Interface names may only contain letters, numbers, dots, colons, underscores, or hyphens"
  end.
Definition normalizeOptionalAddress (value : option json) : exn + option string :=
  match text_of value with
  | None => inr None
  | Some text => if bool_decide (isIP text = 0) then refuse_text ("Invalid bind address: " +:+ text) else inr (Some text)
  end.
Definition normalizeDisplayText (value : option json) : exn + option string :=
  match text_of value with
  | None => inr None
  | Some text =>
      if has_char line_feed text || has_char NUL text then refuse_text "Share text fields cannot contain line breaks"
      else inr (Some (take_str 160 text))
  end.
(** [const [address, prefixRaw] = value.split("/")]: what is behind a second
    slash is not looked at. *)
Definition validateCidr (value : string) : exn + unit :=
  match split_on "/" value with
  | address :: parts =>
      let family := isIP address in
      let prefix := match parts with p :: _ => to_number p | [] => NaN end in
      _ ← refuse_if (bool_decide (family = 0) || negb (isInteger prefix)) ("Invalid CIDR: " +:+ value);
      let maxPrefix := if bool_decide (family = 4) then 32 else 128 in
      refuse_if (negb (num_lt (lit 0) prefix) || num_lt (lit maxPrefix) prefix)
        ("CIDR prefix must be between 1 and " +:+ number_text (lit maxPrefix) +:+ ": " +:+ value)
  | [] => refuse_text ("Invalid CIDR: " +:+ value)
  end.

Definition normalizeProtocols (value : option json) (id name : string) : exn + ShareProtocolConfig :=
  let protocols := recordFrom value in
  let smb := recordFrom (prop protocols "smb") in
  let webdav := recordFrom (prop protocols "webdav") in
  let ftp := recordFrom (prop protocols "ftp") in
  let nfs := recordFrom (prop protocols "nfs") in
  let dlna := recordFrom (prop protocols "dlna") in
  let nfsCidrs := normalizeStringArray (prop nfs "allowedCidrs") in
  webdavPathPrefix ← normalizePathPrefix (text_of (prop webdav "pathPrefix") ⁇ ("/shares/" +:+ id));
  ftpPassivePortStart ← normalizePort (prop ftp "passivePortStart") 50000 "FTP passive port start";
  ftpPassivePortEnd ← normalizePort (prop ftp "passivePortEnd") 50100 "FTP passive port end";
  _ ← refuse_if (num_lt ftpPassivePortEnd ftpPassivePortStart) "FTP passive port start must be lower than or equal to the end port";
  webdavPort ← normalizePort (prop webdav "port") 8088 "WebDAV port";
  ftpPort ← normalizePort (prop ftp "port") 2121 "FTP port";
  mediaTypes ← requestedMediaTypes (prop dlna "mediaTypes");
  bindInterface ← normalizeOptionalIdentifier (prop dlna "bindInterface");
  bindAddress ← normalizeOptionalAddress (prop dlna "bindAddress");
  friendlyName ← normalizeDisplayText (prop dlna "friendlyName");
  let config := ShareProtocols
    (SmbShare (bool_or (prop smb "enabled") false) (bool_or (prop smb "readOnly") true)
       (bool_or (prop smb "browseable") true) (bool_or (prop smb "allowGuest") false))
    (WebDavShare (bool_or (prop webdav "enabled") false) (bool_or (prop webdav "readOnly") true)
       (bool_or (prop webdav "allowGuest") false) webdavPort webdavPathPrefix)
    (FtpShare (bool_or (prop ftp "enabled") false) (bool_or (prop ftp "readOnly") true)
       (bool_or (prop ftp "allowGuest") false) ftpPort ftpPassivePortStart ftpPassivePortEnd)
    (NfsShare (bool_or (prop nfs "enabled") false) (bool_or (prop nfs "readOnly") true) nfsCidrs (bool_or (prop nfs "rootSquash") true))
    (DlnaShare (bool_or (prop dlna "enabled") false) mediaTypes bindInterface bindAddress (friendlyName ⁇ name)) in
  _ ← refuse_if (nfs_enabled (sp_nfs config) && bool_decide (nfsCidrs = [])) ("NFS share " +:+ id +:+ " requires at least one allowed CIDR");
  _ ← check_each validateCidr nfsCidrs;
  _ ← refuse_if (dl_enabled (sp_dlna config) && negb (isSome bindInterface) && negb (isSome bindAddress))
        ("DLNA share " +:+ id +:+ " requires a bind interface or bind address");
  inr config.

(** [roots]: the map of the rows by their ids. *)
Definition root_by_id (roots : list nas_root) (id : string) : option nas_root := List.find (λ r, bool_decide (nr_id r = id)) (reverse roots).
Definition requested_share (value : json) (index : nat) (roots : list nas_root) : prog disk ShareDefinitionConfig :=
  match value with
  | JNull => throw (TypeError "Cannot read properties of null (reading 'id')")
  | _ =>
      let value := recordFrom (Some value) in
      let id := text_of (prop value "id") ⁇ ("share-" +:+ pretty (S index)) in
      _ ← check (refuse_if (negb (SHARE_ID_PATTERN id)) ("Share id is invalid: " +:+ id));
      name ← check (normalizeDisplayText (prop value "name"));
      let name := name ⁇ id in
      match text_of (prop value "rootId") with
      | None => throw (Error ("Share " +:+ id +:+ " is missing a NAS root"))
      | Some rootId =>
          match root_by_id roots rootId with
          | None => throw (Error ("NAS root " +:+ rootId +:+ " is not configured"))
          | Some root =>
              safe ← resolveSafeExistingPath (nr_path root) (text_of (prop value "path") ⁇ ".");
              targetStat ← stat (sp_realPath safe);
              _ ← guard_throw (negb (is_dir targetStat)) (Error ("Share " +:+ id +:+ " path must be a directory"));
              description ← check (normalizeDisplayText (prop value "description"));
              protocols ← check (normalizeProtocols (prop value "protocols") id name);
              mret (ShareDefinition id name (nr_id root) (sp_relativePath safe) (description ⁇ "") protocols)
          end
      end
  end.
Fixpoint requested_shares (index : nat) (values : list json) (roots : list nas_root) : prog disk (list ShareDefinitionConfig) :=
  match values with
  | [] => mret []
  | v :: values => s ← requested_share v index roots; l ← requested_shares (S index) values roots; mret (s :: l)
  end.

Definition authenticated (s : ShareDefinitionConfig) : bool :=
  let p := sd_protocols s in
  (smb_enabled (sp_smb p) && negb (smb_allowGuest (sp_smb p))) || (wd_enabled (sp_webdav p) && negb (wd_allowGuest (sp_webdav p))) ||
  (ftp_enabled (sp_ftp p) && negb (ftp_allowGuest (sp_ftp p))).
Definition has_password (password : option string) : bool := match password with Some p => negb (bool_decide (p = "")) | None => false end.
Definition validateAuthCoverage (enabled : bool) (shares : list ShareDefinitionConfig) (password : option string) : exn + unit :=
  if negb enabled then inr tt else
  refuse_if (existsb authenticated shares && negb (has_password password))
    "Share account password is required for authenticated SMB, WebDAV, or FTP shares".
Definition ftp_on (s : ShareDefinitionConfig) : bool := ftp_enabled (sp_ftp (sd_protocols s)).
Definition webdav_on (s : ShareDefinitionConfig) : bool := wd_enabled (sp_webdav (sd_protocols s)).
Definition validateFtpCapacity (shares : list ShareDefinitionConfig) : exn + unit :=
  refuse_if (bool_decide (1 < length (List.filter ftp_on shares))%nat)
    "FTP currently supports one enabled share because vsftpd has a single local root".
(** The services of a share that listen on a port of their own. *)
Definition listeners (s : ShareDefinitionConfig) : list (number * string) :=
  let p := sd_protocols s in
  (if webdav_on s then [(wd_port (sp_webdav p), "WebDAV " +:+ sd_id s)] else []) ++
  (if ftp_on s then [(ftp_port (sp_ftp p), "FTP " +:+ sd_id s)] else []).
Fixpoint check_ports (ports : list (number * string)) (l : list (number * string)) : exn + unit :=
  match l with
  | [] => inr tt
  | (port, label) :: l =>
      match List.find (λ p, num_eq p.1 port) ports with
      | Some existing => refuse_text (label +:+ " port conflicts with " +:+ existing.2)
      | None => check_ports ((port, label) :: ports) l
      end
  end.
Definition validatePortConflicts (shares : list ShareDefinitionConfig) : exn + unit := check_ports [] (l ← shares; listeners l).
Definition validateWebDavPrefixes (shares : list ShareDefinitionConfig) : exn + unit :=
  validateUnique [] ((λ s, wd_pathPrefix (sp_webdav (sd_protocols s))) <$> List.filter webdav_on shares) "WebDAV path prefix must be unique".

Definition requested_password (account : list (string * json)) (existing : option string) : option string :=
  if is_true_json (prop account "clearPassword") then None
  else match prop account "password" with Some (JStr p) => if bool_decide (p = "") then existing else Some p | _ => existing end.
(** [(input?.shares ?? existing.shares).map(...)] *)
Definition share_values (input : list (string * json)) (existing : list ShareDefinitionConfig) : exn + list json :=
  match prop input "shares" with
  | None | Some JNull => inr (share_json <$> existing)
  | Some (JArr l) => inr l
  | Some _ => inl (not_a_function "(input?.shares ?? existing.shares).map")
  end.
(** The switch is handed on as it was sent. *)
Definition normalizeShareSettingsInput (input : list (string * json)) (existing : ShareSettingsRecord) (roots : list nas_root) (now : string) :
    prog disk (json * ShareSettingsRecord) :=
  let account := recordFrom (prop input "account") in
  let old := ss_config existing in
  let username := text_of (prop account "username") ⁇ sa_username (sh_account old) in
  _ ← check (validateUsername username);
  let password := requested_password account (sa_password (sh_account old)) in
  _ ← check (match password with Some p => validateSecret p | None => inr tt end);
  values ← check (share_values input (sh_shares old));
  shares ← requested_shares 0 values roots;
  _ ← check (validateUnique [] (sd_id <$> shares) "Share id must be unique");
  let enabled := nullish (prop input "enabled") (JBool (sh_enabled old)) in
  _ ← check (validateAuthCoverage (to_boolean (Some enabled)) shares password);
  _ ← check (validateFtpCapacity shares);
  _ ← check (validatePortConflicts shares);
  _ ← check (validateWebDavPrefixes shares);
  mret (enabled, ShareSettings (Shares (to_boolean (Some enabled)) (ShareAccount username password) shares) now).

(** ** What is accepted *)
Lemma query_inv {A} (q : fs → exn + A) s a s' : query q s = (inr a, s') → q (dk_fs s) = inr a ∧ dk_fs s' = dk_fs s.
Proof.
  unfold query, call. destruct (dk_faults s) as [|[e|] l]; [| done|]; destruct (q (dk_fs s)) eqn:E; try done; by intros [= -> <-].
Qed.
Definition port_ok (n : number) : Prop := isInteger n = true ∧ 1 ≤ number_Z n ≤ 65535.
Definition cidr_ok (value : string) : Prop := ∃ address rest, split_on "/" value = address :: rest ∧ isIP address ≠ 0.
Record protocols_accepted (p : ShareProtocolConfig) : Prop := ProtocolsAccepted {
  pa_webdav : port_ok (wd_port (sp_webdav p));
  pa_prefix : startsWith "/" (wd_pathPrefix (sp_webdav p)) = true ∧ all_chars prefix_char (wd_pathPrefix (sp_webdav p)) = true;
  pa_ftp : port_ok (ftp_port (sp_ftp p)) ∧ port_ok (ftp_passivePortStart (sp_ftp p)) ∧ port_ok (ftp_passivePortEnd (sp_ftp p)) ∧
           num_lt (ftp_passivePortEnd (sp_ftp p)) (ftp_passivePortStart (sp_ftp p)) = false;
  pa_nfs : (nfs_enabled (sp_nfs p) = true → nfs_allowedCidrs (sp_nfs p) ≠ []) ∧ Forall cidr_ok (nfs_allowedCidrs (sp_nfs p));
  pa_dlna : dl_mediaTypes (sp_dlna p) ≠ [] ∧ NoDup (dl_mediaTypes (sp_dlna p)) ∧
            (dl_enabled (sp_dlna p) = true → dl_bindInterface (sp_dlna p) ≠ None ∨ dl_bindAddress (sp_dlna p) ≠ None) ∧
            ∀ a, dl_bindAddress (sp_dlna p) = Some a → isIP a ≠ 0
}.
(** The directory of a share is below its root, links followed. *)
Record share_accepted (f : fs) (roots : list nas_root) (s : ShareDefinitionConfig) : Prop := ShareAccepted {
  sx_id : SHARE_ID_PATTERN (sd_id s) = true;
  sx_path : ∃ row root t, In row roots ∧ nr_id row = sd_rootId s ∧ follow f (nr_path row) = inr root ∧ f !! (root ++ t) = Some Dir ∧
            sd_path s = (if bool_decide (t = []) then "." else join "/" t);
  sx_protocols : protocols_accepted (sd_protocols s)
}.

Lemma normalizePort_ok v fallback label n : 1 ≤ fallback ≤ 65535 → normalizePort v fallback label = inr n → port_ok n.
Proof.
  intros Hf. assert (port_ok (lit fallback)) as Hl by (split; [apply isInteger_int|by rewrite number_Z_int]).
  unfold normalizePort. destruct v as [v|]; [|by intros [= <-]]. destruct v; try (by intros [= <-]);
    (destruct (is_str _ _); [by intros [= <-]|]); intros (port & _ & H)%check_inv;
    (destruct (_ || num_lt (lit 65535) port) eqn:E; [done|]); injection H as <-;
    apply orb_false_iff in E as [[Ei%negb_false_iff E1]%orb_false_iff E2]; (split; [done|]); by apply number_Z_bounds.
Qed.
Lemma validateCidr_ok v u : validateCidr v = inr u → cidr_ok v.
Proof.
  unfold validateCidr. destruct (split_on "/" v) as [|a l] eqn:E; [done|]. cbv zeta. intros ([] & H%refuse_if_inv & _)%check_inv.
  apply orb_false_iff in H as [H%bool_decide_eq_false _]. by exists a, l.
Qed.
Lemma requestedMediaTypes_ok v l : requestedMediaTypes v = inr l → l ≠ [] ∧ NoDup l.
Proof.
  assert (DLNA_MEDIA_TYPES ≠ [] ∧ NoDup DLNA_MEDIA_TYPES) as Hall.
  { split; [done|]. apply (bool_decide_eq_true_1 (NoDup _)). by vm_compute. }
  unfold requestedMediaTypes. destruct v as [[| | | |l'|]|]; try (by intros [= <-]). destruct (omap _ _) as [|m ms] eqn:E; [done|]. intros [= <-].
  split; [|apply distinct_NoDup]. intros Hn. assert (m ∈ distinct (m :: ms)) as Hin by (apply distinct_elem_of, list_elem_of_here).
  rewrite Hn in Hin. by apply elem_of_nil in Hin.
Qed.
Lemma normalizePathPrefix_ok v p : normalizePathPrefix v = inr p → startsWith "/" p = true ∧ all_chars prefix_char p = true.
Proof.
  unfold normalizePathPrefix. cbv zeta. set (n := or_text _ _). destruct (_ || bool_decide (n = "/..")) eqn:E; [done|]. intros [= <-].
  apply orb_false_iff in E as [[E%negb_false_iff _]%orb_false_iff _]. by apply andb_prop in E.
Qed.
Lemma normalizeOptionalAddress_ok v o a : normalizeOptionalAddress v = inr o → o = Some a → isIP a ≠ 0.
Proof.
  unfold normalizeOptionalAddress. destruct (text_of v) as [t|]; [|by intros [= <-]]. case_bool_decide; [done|]. by intros [= <-] [= <-].
Qed.
Lemma normalizeProtocols_ok v id name p : normalizeProtocols v id name = inr p → protocols_accepted p.
Proof.
  unfold normalizeProtocols. cbv zeta. intros (prefix & Hprefix%normalizePathPrefix_ok & H)%check_inv.
  apply check_inv in H as (start & Hstart%normalizePort_ok & H); [|done]. apply check_inv in H as (end_ & Hend%normalizePort_ok & H); [|done].
  apply check_inv in H as ([] & Horder%refuse_if_inv & H). apply check_inv in H as (wport & Hw%normalizePort_ok & H); [|done].
  apply check_inv in H as (fport & Hfp%normalizePort_ok & H); [|done]. apply check_inv in H as (media & Hm%requestedMediaTypes_ok & H).
  apply check_inv in H as (iface & _ & H). apply check_inv in H as (addr & Ha & H). apply check_inv in H as (friendly & _ & H).
  apply check_inv in H as ([] & Hn%refuse_if_inv & H). apply check_inv in H as ([] & Hc%check_each_inv & H).
  apply check_inv in H as ([] & Hd%refuse_if_inv & H). injection H as <-. cbn [sp_nfs sp_dlna nfs_enabled dl_enabled] in Hn, Hd.
  split; cbn [sp_webdav sp_ftp sp_nfs sp_dlna wd_port wd_pathPrefix ftp_port ftp_passivePortStart ftp_passivePortEnd nfs_enabled nfs_allowedCidrs
    dl_mediaTypes dl_enabled dl_bindInterface dl_bindAddress]; try done.
  - split; [|eapply Forall_impl; [exact Hc|]; intros x; apply validateCidr_ok]. intros E. rewrite E in Hn.
    by apply bool_decide_eq_false in Hn.
  - split; [by apply Hm|]. split; [by apply Hm|]. split; [|intros a; by apply (normalizeOptionalAddress_ok _ _ a Ha)].
    intros E. rewrite E in Hd. destruct iface; [by left|]. destruct addr; [by right|]. done.
Qed.

Lemma root_by_id_In roots id row : root_by_id roots id = Some row → In row roots ∧ nr_id row = id.
Proof.
  unfold root_by_id. intros [H1 H2%bool_decide_eq_true]%find_some. split; [|done]. apply list_elem_of_In.
  apply list_elem_of_In in H1. by apply elem_of_reverse.
Qed.
Lemma requested_share_ok v index roots s r s' : wf (dk_fs s) → requested_share v index roots s = (inr r, s') →
  dk_fs s' = dk_fs s ∧ share_accepted (dk_fs s) roots r.
Proof.
  intros Hwf H. unfold requested_share in H. destruct v as [|b|n|t|l|ps]; [done|..]; cbv zeta in H;
    (apply bind_inv in H as ([] & s1 & [Hid%refuse_if_inv%negb_false_iff ->]%DockerMounts.check_effect & H));
    (apply bind_inv in H as (name & s1 & [_ ->]%DockerMounts.check_effect & H));
    (destruct (text_of (prop _ "rootId")) as [rootId|]; [|done]); (destruct (root_by_id roots rootId) as [row|] eqn:Erow; [|done]);
    (apply bind_inv in H as (safe & s1 & Hsafe & H)); (apply bind_inv in H as (info & s2 & Hinfo & H));
    (apply bind_inv in H as ([] & s3 & [Hdir%negb_false_iff ->]%guard_inv & H));
    (apply bind_inv in H as (description & s3 & [_ ->]%DockerMounts.check_effect & H));
    (apply bind_inv in H as (protocols & s3 & [Hp%normalizeProtocols_ok ->]%DockerMounts.check_effect & H)); injection H as <- <-;
    destruct (resolveSafeExistingPath_effect _ _ _ _ _ Hwf Hsafe) as [F1 H1];
    destruct (H1 safe eq_refl) as (root & t' & n' & Hfol & Hpl & _ & Hreal & _ & Hn & Hlink & Hrel);
    apply query_inv in Hinfo as [Hinfo F2]; rewrite F1, Hreal in Hinfo; rewrite (follow_real _ _ n') in Hinfo by done;
    rewrite Hn in Hinfo; injection Hinfo as ->; apply root_by_id_In in Erow as [Hin Hrid];
    (split; [congruence|]); (split; cbn [sd_id sd_rootId sd_path sd_protocols]; [done| |done]);
    exists row, root, t'; split_and!; try done; by destruct info.
Qed.
Lemma requested_shares_ok values : ∀ index roots s l s', wf (dk_fs s) → requested_shares index values roots s = (inr l, s') →
  dk_fs s' = dk_fs s ∧ Forall (share_accepted (dk_fs s) roots) l.
Proof.
  induction values as [|v values IH]; intros index roots s l s' Hwf H; cbn [requested_shares] in H; [by injection H as <- <-|].
  apply bind_inv in H as (r & s1 & H1 & H). apply bind_inv in H as (l' & s2 & H2 & H). injection H as <- <-.
  destruct (requested_share_ok _ _ _ _ _ _ Hwf H1) as [F1 Hr]. destruct (IH _ _ _ _ _ ltac:(by rewrite F1) H2) as [F2 Hl].
  rewrite F1 in Hl. split; [congruence|]. by constructor.
Qed.
Lemma validateUnique_ok seen values m u : validateUnique seen values m = inr u → NoDup values ∧ ∀ v, v ∈ values → v ∉ seen.
Proof.
  revert seen. induction values as [|v values IH]; intros seen; cbn [validateUnique]; [intros _; split; [constructor|by intros v ?%elem_of_nil]|].
  case_bool_decide as E; [done|]. intros H%IH. destruct H as [Hn Hs]. split.
  - constructor; [|done]. intros Hin. apply (Hs v Hin), list_elem_of_here.
  - intros w [->|Hw]%elem_of_cons; [done|]. intros Hin. apply (Hs w Hw). by apply list_elem_of_further.
Qed.
(** No two listeners have the same port. *)
Definition ports_apart : list (number * string) → Prop := ForallOrdPairs (λ a b, num_eq a.1 b.1 = false).
Lemma check_ports_ok ports l u : check_ports ports l = inr u →
  ports_apart l ∧ ∀ p q, p ∈ ports → q ∈ l → num_eq p.1 q.1 = false.
Proof.
  revert ports. induction l as [|[port label] l IH]; intros ports; cbn [check_ports]; [intros _; split; [constructor|by intros p q _ ?%elem_of_nil]|].
  destruct (List.find _ ports) eqn:E; [done|]. intros H%IH. destruct H as [Hl Hs]. split.
  - constructor; [|done]. apply List.Forall_forall. intros q Hq%list_elem_of_In. apply (Hs (port, label) q); [apply list_elem_of_here|done].
  - intros p q Hp [->|Hq]%elem_of_cons; [|apply Hs; [by apply list_elem_of_further|done]].
    apply list_elem_of_In in Hp. by apply (find_none _ _ E) in Hp.
Qed.

(** C24: Share settings that a request proposes are accepted only when they can
    be served: the name of the account and the password are safe to write into
    a configuration; the ids are distinct; each share is a directory at or
    below its configured NAS root, links followed; ports are ports, no two
    services that are on listen on the same one, at most one share is served
    by FTP and no two by WebDAV under one prefix; NFS has networks with an
    address each and DLNA an interface or an address; and when the shares are
    on and one of them asks for a password, there is one.  Nothing on the disk
    changes. *)
Theorem share_settings_accepted input existing roots now s e r s' (Hwf : wf (dk_fs s))
    (H : normalizeShareSettingsInput input existing roots now s = (inr (e, r), s')) :
  let c := ss_config r in
  SHARE_USERNAME_PATTERN (sa_username (sh_account c)) = true ∧
  (∀ p, sa_password (sh_account c) = Some p → has_char NUL p = false ∧ has_char line_feed p = false ∧ len p ≤ 256) ∧
  NoDup (sd_id <$> sh_shares c) ∧ Forall (share_accepted (dk_fs s) roots) (sh_shares c) ∧
  ports_apart (sh_shares c ≫= listeners) ∧ (length (List.filter ftp_on (sh_shares c)) ≤ 1)%nat ∧
  NoDup ((λ s, wd_pathPrefix (sp_webdav (sd_protocols s))) <$> List.filter webdav_on (sh_shares c)) ∧
  (sh_enabled c = true → existsb authenticated (sh_shares c) = true → has_password (sa_password (sh_account c)) = true) ∧
  dk_fs s' = dk_fs s.
Proof.
  unfold normalizeShareSettingsInput in H. cbv zeta in H.
  apply bind_inv in H as ([] & s1 & [Hu%refuse_if_inv%negb_false_iff ->]%DockerMounts.check_effect & H).
  set (on := to_boolean _) in *. clearbody on. set (password := requested_password _ _) in *. apply bind_inv in H as ([] & s1 & [Hp ->]%DockerMounts.check_effect & H).
  apply bind_inv in H as (values & s1 & [_ ->]%DockerMounts.check_effect & H). apply bind_inv in H as (shares & s1 & Hs & H).
  apply bind_inv in H as ([] & s2 & [[Hids _]%validateUnique_ok ->]%DockerMounts.check_effect & H).
  apply bind_inv in H as ([] & s2 & [Hauth ->]%DockerMounts.check_effect & H).
  apply bind_inv in H as ([] & s2 & [Hftp%refuse_if_inv%bool_decide_eq_false ->]%DockerMounts.check_effect & H).
  apply bind_inv in H as ([] & s2 & [[Hports _]%check_ports_ok ->]%DockerMounts.check_effect & H).
  apply bind_inv in H as ([] & s2 & [[Hwd _]%validateUnique_ok ->]%DockerMounts.check_effect & H). injection H as <- <- <-.
  destruct (requested_shares_ok _ _ _ _ _ _ Hwf Hs) as [F Hshares]. cbv zeta. cbn [ss_config sh_account sh_shares sh_enabled sa_username sa_password].
  split_and!; try done; [|lia|].
  - intros p E. rewrite E in Hp. apply refuse_if_inv, orb_false_iff in Hp as [[H1 H2]%orb_false_iff H3%bool_decide_eq_false]. split_and!; [done..|lia].
  - intros He Ha. unfold validateAuthCoverage in Hauth. rewrite He in Hauth. cbn [negb] in Hauth. apply refuse_if_inv in Hauth.
    rewrite Ha in Hauth. by apply negb_false_iff in Hauth.
Qed.

(** ** lib/share-service.ts *)
Definition quote_char (c : ascii) : bool := bool_decide (code c ∈ [34; 39]%nat).
(** [password["']?\s*[:=]\s*["'][^"']+["']] *)
Definition password_match (s : string) : option (string * string) :=
  if negb (front_is "password" s) then None else
  let r := drop_str 8 s in
  let r := match r with String c r' => if quote_char c then r' else r | "" => "" end in
  match span_str is_white r with
  | (_, String c r) =>
      if negb (Ascii.eqb c ":" || Ascii.eqb c "=") then None else
      match span_str is_white r with
      | (_, String q r) =>
          if negb (quote_char q) then None else
          match span_str (λ c, negb (quote_char c)) r with
          | (String _ _, String _ rest) => Some ("password: [redacted]", rest)
          | _ => None
          end
      | _ => None
      end
  | _ => None
  end.
Definition authorization_match (s : string) : option (string * string) :=
  if negb (front_is "authorization:" s) then None else
  rest ← token (span_str is_white (drop_str 14 s)).2; Some ("Authorization: [redacted]", rest).
Definition safeShareMessage (message : string) : string :=
  take_str 500 (replace_pattern authorization_match (replace_pattern password_match message)).
Definition isShareSettingsRecord (value : option json) : bool :=
  match value with
  | Some (JObj ps) => is_boolean (prop ps "enabled") && is_string (prop (recordFrom (prop ps "account")) "username") && is_array (prop ps "shares")
  | _ => false
  end.
Definition shareSettingsFromOperation (o : operation_record) : exn + json :=
  match prop (or_metadata o) "settings" with
  | Some settings => if isShareSettingsRecord (Some settings) then inr settings else refuse_text "Share approval is missing settings metadata"
  | None => refuse_text "Share approval is missing settings metadata"
  end.
Definition protocol_on (p : ShareProtocol) (s : ShareDefinitionConfig) : bool :=
  let c := sd_protocols s in
  match p with
  | p_smb => smb_enabled (sp_smb c) | p_webdav => wd_enabled (sp_webdav c) | p_ftp => ftp_enabled (sp_ftp c)
  | p_nfs => nfs_enabled (sp_nfs c) | p_dlna => dl_enabled (sp_dlna c)
  end.
Definition enabledShareCount (s : ShareSettingsRecord) (p : ShareProtocol) : nat := length (List.filter (protocol_on p) (sh_shares (ss_config s))).
Definition enabledProtocolsForShare (s : ShareDefinitionConfig) : list ShareProtocol := List.filter (λ p, protocol_on p s) SHARE_PROTOCOLS.
Definition bool_count (l : list bool) : nat := length (List.filter id l).
Definition authenticatedProtocolCount (s : ShareSettingsRecord) : nat :=
  foldr (λ s n, n + let p := sd_protocols s in
    bool_count [smb_enabled (sp_smb p) && negb (smb_allowGuest (sp_smb p)); wd_enabled (sp_webdav p) && negb (wd_allowGuest (sp_webdav p));
                ftp_enabled (sp_ftp p) && negb (ftp_allowGuest (sp_ftp p))])%nat 0%nat (sh_shares (ss_config s)).
Definition normalizeServiceStatus (value : string) : string := if bool_decide (value ∈ ["active"; "inactive"; "failed"]) then value else "unknown".

(** ** routes/shares.ts *)
Definition ShareAccountUpdateError (status : Z) (message : string) : exn := Exn "ShareAccountUpdateError" message (Some status) None [].
Record account_input := AccountInput { ai_username : string; ai_password : option string; ai_expectedUpdatedAt : string }.
Definition account_body (body : option json) : exn + account_input :=
  let b := recordFrom body in
  match prop b "username", prop b "expectedUpdatedAt" with
  | Some (JStr username), Some (JStr expected) =>
      if bool_decide (expected = "") then inl (ShareAccountUpdateError 400 "Username and expected settings revision are required") else
      match prop b "password" with
      | None => inr (AccountInput username None expected)
      | Some (JStr p) => inr (AccountInput username (nonempty p) expected)
      | Some _ => inl (ShareAccountUpdateError 400 "Password must be a string")
      end
  | _, _ => inl (ShareAccountUpdateError 400 "Username and expected settings revision are required")
  end.
Section Account.
Context (config : ZosConfig).
(** Up to the call of the host daemon.  [settings] is the table and [roots]
    are the rows when it runs. *)
Definition account_begin (body : option json) (settings : settings_db) (roots : list nas_root) (now : string) : prog disk ShareSettingsRecord :=
  input ← check (account_body body);
  stored ← check (getShareSettings settings);
  let existing := stored ⁇ defaultShareSettings config in
  _ ← guard_throw (negb (bool_decide (ss_updatedAt existing = ai_expectedUpdatedAt input)))
        (ShareAccountUpdateError 409 "Share settings changed; reload before saving the account");
  '(_, s) ← try_catch
    (normalizeShareSettingsInput
       [("account", JObj (("username", JStr (ai_username input)) :: from_option (λ p, [("password", JStr p)]) [] (ai_password input)))]
       existing roots now)
    (λ e, throw (ShareAccountUpdateError 400 (safeShareMessage (exn_message e))));
  mret s.
(** The daemon answered with the time it applied the settings, or an error. *)
Definition account_end (s : ShareSettingsRecord) (applied : exn + string) (now : string) : settings_prog (reply json) :=
  match applied with
  | inl e =>
      throw (ShareAccountUpdateError (if instance_of "HostdRequestError" e && bool_decide (exn_status e = Some 503) then 503 else 502)
               (safeShareMessage (exn_message e)))
  | inr appliedAt =>
      saved ← saveShareSettings (ss_config s) now;
      mret (send (JObj [("settings", toPublicShareSettings saved); ("appliedAt", JStr appliedAt)]))
  end.
Definition account_error (e : exn) : option (reply json) :=
  if instance_of "ShareAccountUpdateError" e then Some (send_error (exn_status e ⁇ 500) (exn_message e)) else None.
End Account.

Definition plural (n : nat) : string := if bool_decide (n = 1%nat) then "" else "s".
Definition shareProposalSummary (s : ShareSettingsRecord) : string :=
  let shares := sh_shares (ss_config s) in
  let n := foldr (λ s n, length (enabledProtocolsForShare s) + n)%nat 0%nat shares in
  "Apply share services configuration for " +:+ pretty (length shares) +:+ " share" +:+ plural (length shares) +:+ " and " +:+
  pretty n +:+ " enabled protocol" +:+ plural n.
(** The settings with the switch as it was sent. *)
Definition proposed_json (enabled : json) (s : ShareSettingsRecord) : json := JObj (set_prop (share_settings_props s) "enabled" enabled).
Definition proposed_public (enabled : json) (s : ShareSettingsRecord) : json :=
  match toPublicShareSettings s with JObj ps => JObj (set_prop ps "enabled" enabled) | v => v end.
Record proposal_ids := ProposalIds { pi_message : string; pi_job : string; pi_note : string; pi_approval : string; pi_operation : string }.
(** After the checks of the settings came to [normalized]; what throws here is
    caught by the handler, which replies 400. *)
Definition share_proposal (ids : proposal_ids) (sessionId : string) (normalized : exn + (json * ShareSettingsRecord)) (now : Z) :
    core_prog (reply (AgentMessageRecord * JobRecord * PendingApprovalRecord * json)) :=
  try_catch
    ('(enabled, settings) ← check normalized;
     let summary := shareProposalSummary settings in
     let proposal := [("action", JStr "apply_settings"); ("risk", JStr "high"); ("summary", JStr summary);
                      ("settings", proposed_public enabled settings)] in
     '(message, job, _) ← createActionMessageAndJob (pi_message ids) (pi_job ids) (pi_note ids) sessionId summary note_share
                            action_waiting_approval now;
     '(approval, operation) ← createShareOperationApproval (pi_approval ids) (pi_operation ids) (jb_id job) proposal
                                (proposed_json enabled settings) now;
     _ ← appendEvent sessionId (Some (jb_id job)) approval_pending
           (JObj [("approvalId", JStr (pa_id approval)); ("proposal", JArr (pa_proposal approval));
                  ("summary", JStr ("Created share approval " +:+ pa_id approval +:+ ": " +:+ summary +:+ ". No share service was changed."))]) now;
     mret (send_status 202 (message, job, approval, toPublicShareOperation operation)))
    (λ e, mret (send_error 400 (safeShareMessage (exn_message e)))).

(** routes/approvals.ts: what is applied and stored when a proposal is approved. *)
Definition approved_share_settings (proposed : ShareSettingsRecord) (current : option ShareSettingsRecord) : ShareSettingsRecord :=
  match current with
  | Some c => ShareSettings (Shares (sh_enabled (ss_config proposed)) (sh_account (ss_config c)) (sh_shares (ss_config proposed))) (ss_updatedAt proposed)
  | None => proposed
  end.

Module ShareDemo.
Definition root_row : nas_root := NasRootRow "r" "Data" "/data" true mount_optional None None None 0 0.
Definition tree : fs := list_to_map
  [([], Dir); (["data"], Dir); (["data"; "films"], Dir); (["data"; "notes"], File ""); (["data"; "out"], Link "/etc"); (["etc"], Dir)].
Definition no_settings : ShareSettingsRecord := ShareSettings (Shares false (ShareAccount "zos" None) []) "t0".
Definition share (id path : string) (protocols : list (string * json)) : json :=
  JObj [("id", JStr id); ("rootId", JStr "r"); ("path", JStr path); ("protocols", JObj protocols)].
Definition on (more : list (string * json)) : json := JObj (("enabled", JBool true) :: more).
Definition demo_input (password : string) (shares : list json) : list (string * json) :=
  [("enabled", JBool true); ("account", JObj [("password", JStr password)]); ("shares", JArr shares)].
Definition propose (password : string) (shares : list json) : (exn + (json * ShareSettingsRecord)) * disk :=
  normalizeShareSettingsInput (demo_input password shares) no_settings [root_row] "t1" (Disk tree []).
Definition smb_films : json := share "films" "films" [("smb", on [])].
Definition accepted (r : (exn + (json * ShareSettingsRecord)) * disk) : option ShareSettingsRecord :=
  match r.1 with inr (_, s) => Some s | inl _ => None end.

Example proposals_refused :
  (propose "" [smb_films]).1 = refuse_text "Share account password is required for authenticated SMB, WebDAV, or FTP shares" ∧
  (propose "pw" [share "films" "out" [("smb", on [])]]).1 = inl (PathSafetyError "Path escapes the configured NAS root") ∧
  (propose "pw" [share "films" "notes" [("smb", on [])]]).1 = refuse_text "Share films path must be a directory" ∧
  (propose "pw" [share "a" "." [("webdav", on [])]; share "b" "films" [("ftp", on [("port", JNum (lit 8088))])]]).1 =
    refuse_text "FTP b port conflicts with WebDAV a" ∧
  (propose "pw" [share "a" "." [("ftp", on [])]; share "b" "films" [("ftp", on [])]]).1 =
    refuse_text "FTP currently supports one enabled share because vsftpd has a single local root".
Proof. by vm_compute. Qed.

(** Text behind a second slash of a network is not looked at here. *)
Example cidr_rest_ignored : validateCidr "10.0.0.0/24/ x" = inr tt ∧ validateCidr "10.0.0.0/33" ≠ inr tt.
Proof. by vm_compute. Qed.

(** Approving replaces the account of the proposal by the stored one: the
    password the proposal was accepted for is gone. *)
Example approval_drops_account :
  ∃ s, accepted (propose "pw" [smb_films]) = Some s ∧
    sa_password (sh_account (ss_config s)) = Some "pw" ∧
    let applied := ss_config (approved_share_settings s (Some no_settings)) in
    sh_enabled applied = true ∧ existsb authenticated (sh_shares applied) = true ∧ sa_password (sh_account applied) = None.
Proof. eexists. split; [by vm_compute|]. by vm_compute. Qed.

Lemma tree_wf : wf tree.
Proof. apply wf_check; [reflexivity|]. apply (bool_decide_unpack _). vm_compute. exact I. Qed.
Lemma share_settings_accepted_witness :
  ∃ s, accepted (propose "pw" [smb_films]) = Some s ∧ Forall (share_accepted tree [root_row]) (sh_shares (ss_config s)).
Proof.
  destruct (propose "pw" [smb_films]) as [r d] eqn:E. pose proof E as E2. vm_compute in E2. injection E2 as <- _.
  eexists. split; [reflexivity|].
  apply (share_settings_accepted (demo_input "pw" [smb_films]) no_settings [root_row] "t1" (Disk tree []) _ _ _ tree_wf E).
Defined.
End ShareDemo.
