(* ===== verification/Processor.v ===== *)
(** * The worker

    apps/worker/src/processor.ts: [processNextJob] claims a job, runs an agent
    turn and settles the job; the callbacks it gives the agent.
    apps/worker/src/index.ts: the ticks and the shutdown of the process.

    The agent turn is a parameter, a computation over the database: whatever
    it writes, and whatever the other processes write while it runs. *)
From S2P Require Import Confinement Mutations.
From S2P Require Import Prelude Sql Json JsString Http IndexQueue CoreDb Jobs Operations FileBatches FileBatchRunner.
From S2P Require Import ApprovalRoutes ApprovalHistory PiTools.
Open Scope Z_scope.

Inductive turn_status := turn_completed | turn_failed | turn_cancelled | turn_waiting_approval.
Record AgentTurnResult := TurnResult { tr_status : turn_status; tr_error : option string }.
#[global] Instance turn_status_eq_dec : EqDecision turn_status. Proof. solve_decision. Defined.

Section Processor.
Context (turn : AgentSessionRecord → AgentMessageRecord → JobRecord → core_prog AgentTurnResult).

Definition fail_job (session : AgentSessionRecord) (job : JobRecord) (error : string) (now : Z) : core_prog unit :=
  ok ← run_db (updateJobStatus (jb_id job) job_failed (Some error) [job_running; job_waiting_approval] now);
  if negb ok then mret tt else
  _ ← appendEvent (se_id session) (Some (jb_id job)) ev_job_failed (JObj [("error", JStr error)]) now;
  mret tt.

(** What follows the turn, inside the [try]. *)
Definition settle_turn (session : AgentSessionRecord) (job : JobRecord) (result : AgentTurnResult) (now : Z) : core_prog unit :=
  current ← gets (getJob (jb_id job));
  if bool_decide (tr_status result = turn_cancelled) ||
     match current with Some j => bool_decide (jb_status j = job_cancelled) | None => false end
  then mret tt else
  match tr_status result with
  | turn_failed => fail_job session job (tr_error result ⁇ "Agent turn failed") now
  | turn_waiting_approval => _ ← run_db (updateJobStatus (jb_id job) job_waiting_approval None [job_running] now); mret tt
  | _ =>
      ok ← run_db (updateJobStatus (jb_id job) job_completed None [job_running; job_waiting_approval] now);
      if negb ok then mret tt else
      _ ← appendEvent (se_id session) (Some (jb_id job)) ev_job_completed (JObj [("jobId", JStr (jb_id job))]) now;
      mret tt
  end.

(** A job whose session, message or root is gone. *)
Definition missing_reference (session : option AgentSessionRecord) (job : JobRecord) (now : Z) : core_prog unit :=
  let error := "Job references missing session, message, or NAS root" in
  failed ← run_db (updateJobStatus (jb_id job) job_failed (Some error) [job_running] now);
  match failed, session with
  | true, Some session =>
      _ ← appendEvent (se_id session) (Some (jb_id job)) ev_job_failed (JObj [("error", JStr error)]) now; mret tt
  | _, _ => mret tt
  end.

(** [now]: the clock of the claim; [now']: the clock after the turn. *)
Definition processNextJob (now now' : Z) : core_prog bool :=
  job ← run_db (claimNextJob now);
  match job with
  | None => mret false
  | Some job =>
      session ← gets (getSession (jb_sessionId job));
      message ← gets (getMessage (jb_messageId job));
      roots ← gets c_roots;
      match session, message with
      | Some session, Some message =>
          if bool_decide (se_rootId session ∈ roots) then
            _ ← appendEvent (se_id session) (Some (jb_id job)) ev_job_running (JObj [("jobId", JStr (jb_id job))]) now;
            _ ← try_catch (result ← turn session message job; settle_turn session job result now')
                  (λ e, fail_job session job (exn_message e) now');
            mret true
          else
            _ ← missing_reference (Some session) job now; mret true
      | session, _ => _ ← missing_reference session job now; mret true
      end
  end.

(** ** Settling a turn *)
(** What a turn asks of its job: a status, an error, and the statuses it may be
    changed from. *)
Definition verdict (r : exn + AgentTurnResult) : option (JobStatus * option string * list JobStatus) :=
  match r with
  | inl e => Some (job_failed, Some (exn_message e), [job_running; job_waiting_approval])
  | inr r =>
      match tr_status r with
      | turn_cancelled => None
      | turn_failed => Some (job_failed, Some (tr_error r ⁇ "Agent turn failed"), [job_running; job_waiting_approval])
      | turn_waiting_approval => Some (job_waiting_approval, None, [job_running])
      | turn_completed => Some (job_completed, None, [job_running; job_waiting_approval])
      end
  end.
(** The event of a status. *)
Definition terminal_event (job : JobRecord) (s : JobStatus) (error : option string) : option (AgentEventType * json) :=
  match s with
  | job_failed => Some (ev_job_failed, JObj [("error", JStr (error ⁇ ""))])
  | job_completed => Some (ev_job_completed, JObj [("jobId", JStr (jb_id job))])
  | _ => None
  end.
Definition settle_result (session : AgentSessionRecord) (job : JobRecord) (r : exn + AgentTurnResult) (now : Z) : core_prog unit :=
  try_catch (result ← lift r; settle_turn session job result now) (λ e, fail_job session job (exn_message e) now).
End Processor.

(** A guarded update that goes through, and its event. *)
Lemma settle_job session job s e from now d j ev payload :
  unique_keys jb_id (c_jobs d) → log_ok d → has_session (se_id session) d = true → getJob (jb_id job) d = Some j →
  jb_status j ∈ from → s ≠ job_cancelled →
  ∃ r d1 d', updateJobStatus (jb_id job) s e from now d = (true, d1) ∧
    appendEvent (se_id session) (Some (jb_id job)) ev payload now d1 = (inr r, d') ∧
    getJob (jb_id job) d' = Some (set_job_status s e now j) ∧ log_ok d' ∧
    c_events d' = c_events d ++ [EventRow (ae_id r) (se_id session) (Some (jb_id job)) ev payload now].
Proof.
  intros Hu Hlog Hs Hj Hf Hne. destruct (updateJobStatus_frame (jb_id job) s e from now d) as (E1&_&_&_&Es&_).
  destruct (updateJobStatus_keeps (jb_id job) s e from now d Hne) as (_&_&El).
  pose proof (update_job (jb_id job) s e from now d j Hu Hj Hf) as Hj1. cbv zeta in *.
  pose proof Hj as [Hin Hid]%by_key_Some. rewrite (count_guard (jb_id job) from d j) in E1; [|done..|].
  2: { destruct from; [done|]. by apply bool_decide_true. }
  destruct (updateJobStatus (jb_id job) s e from now d) as [ok d1]. simpl in *. subst ok.
  assert (log_ok d1) as Hlog1 by (by apply (log_part_ok d)).
  destruct (appendEvent_logs (se_id session) (Some (jb_id job)) ev payload now d1 Hlog1) as (r&d'&Ee&Hl&Hsame&Hev).
  { unfold has_session. by rewrite Es. }
  { simpl. unfold has_job, getJob in *. by rewrite Hj1. }
  exists r, d1, d'. split; [done|]. split; [done|]. split; [rewrite Hsame; exact Hj1|]. split; [done|].
  rewrite Hev. by injection El as _ _ -> _ _ _.
Qed.

Lemma update_refused id s e (from : list JobStatus) now d : from ≠ [] →
  (∀ r, In r (c_jobs d) → jb_id r = id → jb_status r ∉ from) → updateJobStatus id s e from now d = (false, d).
Proof.
  intros Hf H. apply updateJobStatus_stuck. intros r Hr. unfold job_guard.
  destruct (has_key jb_id id r) eqn:Ek; [|done]. apply bool_decide_eq_true in Ek. destruct from; [done|].
  apply bool_decide_false. by apply H.
Qed.

Lemma job_not_from id d (from : list JobStatus) : unique_keys jb_id (c_jobs d) →
  match getJob id d with Some j => jb_status j ∉ from | None => True end →
  ∀ r, In r (c_jobs d) → jb_id r = id → jb_status r ∉ from.
Proof.
  intros Hu H r Hr <-. unfold getJob in H. by rewrite (by_key_unique jb_id _ r Hu Hr) in H.
Qed.

(** The job after a turn that came to [r], in a database where it is [o]. *)
Definition settled_as (session : AgentSessionRecord) (job : JobRecord) (r : exn + AgentTurnResult) (now : Z)
    (d d' : core_db) : Prop :=
  match verdict r, getJob (jb_id job) d with
  | Some (s, e, from), Some j =>
      if bool_decide (jb_status j ∈ from)
      then getJob (jb_id job) d' = Some (set_job_status s e now j) ∧
           match terminal_event job s e with
           | Some (ev, payload) =>
               ∃ n, c_events d' = c_events d ++ [EventRow n (se_id session) (Some (jb_id job)) ev payload now]
           | None => c_events d' = c_events d
           end
      else d' = d
  | _, _ => d' = d
  end.

Lemma fail_job_spec session job msg now d :
  unique_keys jb_id (c_jobs d) → log_ok d → has_session (se_id session) d = true →
  ∃ d', fail_job session job msg now d = (inr tt, d') ∧
    match getJob (jb_id job) d with
    | Some j => if bool_decide (jb_status j ∈ [job_running; job_waiting_approval])
                then getJob (jb_id job) d' = Some (set_job_status job_failed (Some msg) now j) ∧
                  ∃ n, c_events d' = c_events d ++
                    [EventRow n (se_id session) (Some (jb_id job)) ev_job_failed (JObj [("error", JStr msg)]) now]
                else d' = d
    | None => d' = d
    end.
Proof.
  intros Hu Hlog Hs. unfold fail_job. rewrite run_db_eq.
  destruct (getJob (jb_id job) d) as [j|] eqn:Hj; [case_bool_decide as Hf|].
  - destruct (settle_job session job job_failed (Some msg) _ now d j ev_job_failed (JObj [("error", JStr msg)])
      Hu Hlog Hs Hj Hf) as (r&d1&d'&E1&E2&Hj'&_&Hev); [done|]. rewrite E1. simpl.
    exists d'. split; [by erewrite bind_inr by exact E2|]. eauto.
  - rewrite update_refused; [by exists d|done|]. apply job_not_from; [done|]. by rewrite Hj.
  - rewrite update_refused; [by exists d|done|]. apply job_not_from; [done|]. by rewrite Hj.
Qed.

Lemma settle_result_spec session job r now d :
  unique_keys jb_id (c_jobs d) → log_ok d → has_session (se_id session) d = true →
  ∃ d', settle_result session job r now d = (inr tt, d') ∧ settled_as session job r now d d'.
Proof.
  intros Hu Hlog Hs. unfold settle_result, settled_as, try_catch. destruct r as [e|r].
  { simpl. destruct (fail_job_spec session job (exn_message e) now d Hu Hlog Hs) as (d'&E&H). exists d'. split; [done|].
    by destruct (getJob (jb_id job) d). }
  rewrite bind_lift. unfold settle_turn. rewrite bind_gets.
  assert (∀ (m : core_prog unit) h d', m d = (inr tt, d') →
    match m d with (inr a, s') => (inr a, s') | (inl e, s') => (h e : core_prog unit) s' end = (inr tt, d')) as Hin
    by (by intros m h d' ->).
  destruct (bool_decide (tr_status r = turn_cancelled) || _) eqn:Ec.
  { exists d. split; [done|]. apply orb_prop in Ec as [Ec%bool_decide_eq_true|Ec].
    - simpl. by rewrite Ec.
    - simpl. destruct (getJob (jb_id job) d) as [j|]; [|done]. apply bool_decide_eq_true in Ec.
      by destruct (tr_status r); rewrite ?bool_decide_false by (rewrite Ec; set_solver). }
  apply orb_false_iff in Ec as [Ec%bool_decide_eq_false _]. simpl verdict.
  destruct (tr_status r) eqn:Et; [| |done|].
  - destruct (getJob (jb_id job) d) as [j|] eqn:Hj; [case_bool_decide as Hf|].
    + destruct (settle_job session job job_completed None _ now d j ev_job_completed (JObj [("jobId", JStr (jb_id job))])
        Hu Hlog Hs Hj Hf) as (a&d1&d'&E1&E2&Hj'&_&Hev); [done|].
      exists d'. split; [apply Hin; rewrite run_db_eq, E1; simpl; by erewrite bind_inr by exact E2|].
      split; [done|]. simpl. eauto.
    + exists d. split; [|done]. apply Hin. rewrite run_db_eq, update_refused; [done|done|]. apply job_not_from; [done|]. by rewrite Hj.
    + exists d. split; [|done]. apply Hin. rewrite run_db_eq, update_refused; [done|done|]. apply job_not_from; [done|]. by rewrite Hj.
  - destruct (fail_job_spec session job (tr_error r ⁇ "Agent turn failed") now d Hu Hlog Hs) as (d'&E&H).
    exists d'. split; [by apply Hin|]. by destruct (getJob (jb_id job) d).
  - destruct (getJob (jb_id job) d) as [j|] eqn:Hj; [case_bool_decide as Hf|].
    + eexists. split; [apply Hin; by rewrite run_db_eq|]. split; [by apply update_job|].
      by destruct (updateJobStatus_frame (jb_id job) job_waiting_approval None [job_running] now d) as (_&_&_&_&_&?&_).
    + exists d. split; [|done]. apply Hin. rewrite run_db_eq, update_refused; [done|done|]. apply job_not_from; [done|]. by rewrite Hj.
    + exists d. split; [|done]. apply Hin. rewrite run_db_eq, update_refused; [done|done|]. apply job_not_from; [done|]. by rewrite Hj.
Qed.

(** ** The claim *)
Definition queued_agent_jobs (d : core_db) : nat := count_where claimable_job (c_jobs d).

Lemma claim_next now d : let '(o, d0) := claimNextJob now d in
  match o with
  | None => d0 = d ∧ queued_agent_jobs d = 0%nat
  | Some job => jb_status job = job_running ∧ In job (c_jobs d0) ∧ (queued_agent_jobs d0 < queued_agent_jobs d)%nat ∧
      log_part d0 = log_part d ∧ c_roots d0 = c_roots d ∧ (unique_keys jb_id (c_jobs d) → unique_keys jb_id (c_jobs d0))
  end.
Proof.
  unfold claimNextJob. destruct (first_by oldest_job claimable_job (c_jobs d)) as [n|] eqn:E.
  2: { split; [done|]. apply count_where_0. by apply (first_by_None oldest_job). }
  apply first_by_In in E as [Hin Hc]. set (q := λ j, _). cbv zeta.
  assert (q n = true) as Hq.
  { unfold q, has_key. rewrite bool_decide_true by done. by apply andb_prop in Hc as [_ ?]. }
  unfold returning. destruct (get_row q (c_jobs d)) as [r|] eqn:Er.
  2: { rewrite get_row_None in Er. by rewrite (Er n Hin) in Hq. }
  apply get_row_Some in Er as [Hr Hqr]. simpl. split; [done|]. split.
  { apply update_where_In. exists r. by rewrite Hqr. }
  split.
  { apply (count_where_update_lt _ _ _ _ n); [done..| |]; unfold claimable_job; simpl; [by rewrite andb_false_r|].
    intros x. by rewrite andb_false_r. }
  split; [done|]. split; [done|]. intros Hu. by apply unique_keys_update.
Qed.

(** [job] is, as it runs, the queued agent job of [d] created first. *)
Definition queued_agent_job (j : JobRecord) : Prop := jb_kind j = agent_job ∧ jb_status j = job_queued.
Definition claims_first (now : Z) (d : core_db) (job : JobRecord) (d0 : core_db) : Prop :=
  ∃ j, In j (c_jobs d) ∧ queued_agent_job j ∧
    (∀ j', In j' (c_jobs d) → queued_agent_job j' → jb_createdAt j ≤ jb_createdAt j') ∧
    job = j <| jb_status := job_running |> <| jb_error := None |> <| jb_updatedAt := now |> ∧
    getJob (jb_id job) d0 = Some job ∧ ∀ id, id ≠ jb_id job → getJob id d0 = getJob id d.
Lemma claimable_queued j : claimable_job j = true ↔ queued_agent_job j.
Proof. unfold claimable_job, job_is. by rewrite andb_true_iff, !bool_decide_eq_true. Qed.
Lemma claim_first now d : unique_keys jb_id (c_jobs d) → let '(o, d0) := claimNextJob now d in
  match o with
  | None => ∀ j, In j (c_jobs d) → ¬ queued_agent_job j
  | Some job => claims_first now d job d0
  end.
Proof.
  intros Hu. pose proof (claimNextJob_spec now d Hu) as H. destruct (claimNextJob now d) as [[job|] d0].
  - destruct H as (j & Hj & Hc%claimable_queued & -> & Hmin & Hg & _ & Hother & _). exists j. split_and!; [done|done| |done|done|done].
    intros j' Hj' Hq%claimable_queued. by apply Hmin.
  - intros j Hj Hq%claimable_queued. destruct H as [_ H]. by rewrite (H j Hj) in Hq.
Qed.

Section Spec.
#[local] Set Default Proof Using "Type".
Context (turn : AgentSessionRecord → AgentMessageRecord → JobRecord → core_prog AgentTurnResult).

Lemma missing_reference_spec session job now d j :
  unique_keys jb_id (c_jobs d) → log_ok d → (∀ s, session = Some s → has_session (se_id s) d = true) →
  getJob (jb_id job) d = Some j → jb_status j = job_running →
  ∃ d', missing_reference session job now d = (inr tt, d') ∧
    getJob (jb_id job) d' =
      Some (set_job_status job_failed (Some "Job references missing session, message, or NAS root") now j).
Proof.
  intros Hu Hlog Hs Hj Hr. unfold missing_reference. cbv zeta. rewrite run_db_eq.
  set (msg := "Job references missing session, message, or NAS root").
  assert (jb_status j ∈ [job_running]) as Hf by (rewrite Hr; by left).
  destruct session as [s|].
  - destruct (settle_job s job job_failed (Some msg) _ now d j ev_job_failed (JObj [("error", JStr msg)])
      Hu Hlog (Hs s eq_refl) Hj Hf) as (a&d1&d'&E1&E2&Hj'&_&_); [done|].
    exists d'. rewrite E1. simpl. split; [by erewrite bind_inr by exact E2|done].
  - pose proof (update_job (jb_id job) job_failed (Some msg) _ now d j Hu Hj Hf) as Hj'.
    destruct (updateJobStatus _ _ _ _ _ _) as [[] d1]; eauto.
Qed.

(** C17: The worker settles what it claims.  With no queued agent job a tick
    does nothing.  Otherwise it claims the queued agent job that was created
    first, which is then running, and leaves the other jobs alone; if its
    session, message or root is gone the job fails; else the agent turn runs,
    and its result - a throw is a failure - is written to the job, with its
    event, exactly when the job is still in a status that allows it: a job
    cancelled meanwhile stays as it is, without a further event. *)
Theorem processNextJob_spec now now' d :
  unique_keys jb_id (c_jobs d) → log_ok d →
  match claimNextJob now d with
  | (None, _) => processNextJob turn now now' d = (inr false, d) ∧ ∀ j, In j (c_jobs d) → ¬ queued_agent_job j
  | (Some job, d0) => claims_first now d job d0 ∧
      match getSession (jb_sessionId job) d0, getMessage (jb_messageId job) d0, bool_decide
        (from_option se_rootId "" (getSession (jb_sessionId job) d0) ∈ c_roots d) with
      | Some session, Some message, true =>
          ∃ e d1, appendEvent (se_id session) (Some (jb_id job)) ev_job_running (JObj [("jobId", JStr (jb_id job))]) now d0 =
              (inr e, d1) ∧
            let '(r, d2) := turn session message job d1 in
            unique_keys jb_id (c_jobs d2) → log_ok d2 → has_session (se_id session) d2 = true →
            ∃ d', processNextJob turn now now' d = (inr true, d') ∧ settled_as session job r now' d2 d'
      | _, _, _ =>
          ∃ d', processNextJob turn now now' d = (inr true, d') ∧ getJob (jb_id job) d' =
            Some (set_job_status job_failed (Some "Job references missing session, message, or NAS root") now job)
      end
  end.
Proof.
  intros Hu Hlog. pose proof (claim_next now d) as Hc. pose proof (claim_first now d Hu) as Hfirst.
  destruct (claimNextJob now d) as [[job|] d0] eqn:Ec.
  2: { destruct Hc as [-> _]. split; [|done]. unfold processNextJob. by rewrite run_db_eq, Ec. }
  split; [done|]. destruct Hc as (Hst & Hin & _ & El & Er & Hu0). specialize (Hu0 Hu). assert (log_ok d0) as Hlog0 by (by apply (log_part_ok d)).
  assert (getJob (jb_id job) d0 = Some job) as Hj0 by (by apply by_key_unique).
  assert (∀ s, getSession (jb_sessionId job) d0 = Some s → has_session (se_id s) d0 = true) as Hses.
  { intros s Hs. pose proof Hs as [_ Hid]%by_key_Some. unfold has_session. rewrite Hid.
    unfold getSession in Hs. by rewrite Hs. }
  unfold processNextJob. rewrite run_db_eq, Ec. cbn [fst snd]. rewrite !bind_gets, Er.
  destruct (getSession (jb_sessionId job) d0) as [s|] eqn:Es;
    [destruct (getMessage (jb_messageId job) d0) as [m|] eqn:Em|]; simpl from_option.
  - destruct (bool_decide (se_rootId s ∈ c_roots d)) eqn:Eroot.
    + destruct (appendEvent_logs (se_id s) (Some (jb_id job)) ev_job_running (JObj [("jobId", JStr (jb_id job))]) now d0)
        as (e&d1&Ee&_&_&_); [done|by apply Hses|simpl; unfold has_job, getJob in *; by rewrite Hj0|].
      exists e, d1. split; [done|]. destruct (turn s m job d1) as [r d2] eqn:Et. intros Hu2 Hlog2 Hs2.
      destruct (settle_result_spec s job r now' d2 Hu2 Hlog2 Hs2) as (d'&E&H). exists d'. split; [|done].
      rewrite (bind_inr _ _ _ _ _ Ee). cbv beta. unfold settle_result, try_catch in E. rewrite bind_lift in E.
      erewrite bind_inr; [reflexivity|]. unfold try_catch, mbind, prog_bind. rewrite Et. by destruct r.
    + destruct (missing_reference_spec (Some s) job now d0 job Hu0 Hlog0) as (d'&E&H); [|done..|].
      { intros ? [= <-]. by apply Hses. }
      exists d'. split; [by erewrite bind_inr by exact E|done].
  - destruct (missing_reference_spec (Some s) job now d0 job Hu0 Hlog0) as (d'&E&H); [|done..|].
    { intros ? [= <-]. by apply Hses. }
    exists d'. split; [by erewrite bind_inr by exact E|]. done.
  - destruct (missing_reference_spec None job now d0 job Hu0 Hlog0) as (d'&E&H); [done..|].
    exists d'. split; [by erewrite bind_inr by exact E|done].
Qed.
End Spec.

(** ** Ticks *)
(** index.ts: a tick logs what [processNextJob] throws; the interval runs the
    next one.  [None]: [fuel] ticks were not enough to find nothing to do. *)
Fixpoint ticks (turn : AgentSessionRecord → AgentMessageRecord → JobRecord → core_prog AgentTurnResult)
    (clock : nat → Z * Z) (fuel i : nat) (d : core_db) : option core_db :=
  match fuel with
  | O => None
  | S fuel =>
      match processNextJob turn (clock i).1 (clock i).2 d with
      | (inr false, d') => Some d'
      | (_, d') => ticks turn clock fuel (S i) d'
      end
  end.

(** What the worker needs of a turn: it queues no further agent job. *)
Class QuietTurn (turn : AgentSessionRecord → AgentMessageRecord → JobRecord → core_prog AgentTurnResult) : Prop :=
  quiet_turn : ∀ s m j n, keeps (λ d, queued_agent_jobs d ≤ n)%nat (turn s m j).

Lemma keeps_queued_job id s e from now n : s ≠ job_queued →
  keeps (λ d, queued_agent_jobs d ≤ n)%nat (run_db (updateJobStatus id s e from now)).
Proof.
  intros Hs d Hd. unfold run_db. destruct (updateJobStatus_frame id s e from now d) as (_&Ej&_).
  destruct (updateJobStatus id s e from now d) as [ok d']. simpl in *. unfold queued_agent_jobs in *. rewrite Ej.
  etrans; [|exact Hd]. apply count_where_update_le. intros r. unfold claimable_job, job_is. simpl.
  rewrite (bool_decide_false (s = job_queued)) by done. by rewrite andb_false_r.
Qed.

Lemma keeps_queued_event s job type payload now n :
  keeps (λ d, queued_agent_jobs d ≤ n)%nat (appendEvent s job type payload now).
Proof.
  intros d Hd. unfold queued_agent_jobs in *. by rewrite (appendEvent_frame s job type payload now d).
Qed.
#[export] Hint Resolve keeps_queued_event : keeps.
#[export] Hint Extern 2 (keeps _ (run_db (updateJobStatus _ _ _ _ _))) => (by apply keeps_queued_job) : keeps.
#[export] Hint Extern 2 (keeps _ (_ _ _ _)) => (by apply quiet_turn) : keeps.

(** A tick that finds a job leaves fewer. *)
Lemma tick_decreases turn `{!QuietTurn turn} now now' d r d' : processNextJob turn now now' d = (r, d') →
  (r = inr false ∧ queued_agent_jobs d' = 0%nat) ∨ (r ≠ inr false ∧ (queued_agent_jobs d' < queued_agent_jobs d)%nat).
Proof.
  unfold processNextJob. rewrite run_db_eq. pose proof (claim_next now d) as Hc.
  destruct (claimNextJob now d) as [[job|] d0].
  2: { destruct Hc as [-> Hn]. intros [= <- <-]. by left. }
  destruct Hc as (_&_&Hlt&_). intros E. right. cbn [fst snd] in E. split.
  { intros ->. rewrite !bind_gets in E.
    destruct (getSession (jb_sessionId job) d0) as [s|]; [destruct (getMessage (jb_messageId job) d0) as [m|]|];
      [destruct (bool_decide (se_rootId s ∈ c_roots d0))|..];
      repeat (apply bind_inv in E as (?&?&_&E)); discriminate E. }
  match type of E with ?m d0 = _ => assert (keeps (λ x, queued_agent_jobs x ≤ queued_agent_jobs d0)%nat m) as Hk end.
  { unfold missing_reference, settle_turn, fail_job. keeps_all. }
  specialize (Hk d0 (le_n _)). rewrite E in Hk. simpl in Hk. lia.
Qed.

(** C19: The worker works its queue off.  Whatever the turns of the jobs come
    to - success, failure, a throw, a cancellation -, as long as no new agent
    job is queued, at most one tick per queued job and one more find nothing
    left to do. *)
Theorem worker_drains turn `{!QuietTurn turn} clock i d :
  ∃ d', ticks turn clock (S (queued_agent_jobs d)) i d = Some d' ∧ queued_agent_jobs d' = 0%nat.
Proof.
  cut (∀ n i d, (queued_agent_jobs d < n)%nat → ∃ d', ticks turn clock n i d = Some d' ∧ queued_agent_jobs d' = 0%nat).
  { intros H. apply H. lia. }
  clear i d. intros n. induction n as [|n IH]; intros i d Hn; [lia|]. simpl.
  destruct (processNextJob turn (clock i).1 (clock i).2 d) as [r d'] eqn:E.
  destruct (tick_decreases turn _ _ _ _ _ E) as [[-> H0]|[Hr Hlt]]; [by exists d'|].
  destruct (IH (S i) d' ltac:(lia)) as (d''&E''&H''). destruct r as [e|[]]; [eauto..|done].
Qed.

(** ** The callbacks of a turn *)
(** The worker's side of [ToolHost], over histories: what the callbacks write
    is a step of the history.  [approvalId]: the UUID of the approval. *)
Definition on_db {A} (m : core_prog A) : prog history A := λ h,
  let '(r, d) := m (hs_db h) in (r, History d (hs_used h) (hs_log h)).

Definition createToolApproval (approvalId jobId : string) (now : Z) (proposal : json) : prog history PendingApprovalRecord := λ h,
  let '(r, d) := createPiToolCallApproval approvalId jobId proposal now (hs_db h) in
  (r, History d (approvalId :: hs_used h) (hs_log h)).
Definition markWaitingForApproval (jobId : string) (now : Z) : core_prog unit :=
  _ ← run_db (updateJobStatus jobId job_waiting_approval None [job_running] now); mret tt.
Definition emit (sessionId jobId : string) (now : Z) (type : AgentEventType) (payload : json) : core_prog unit :=
  _ ← appendEvent sessionId (Some jobId) type payload now; mret tt.
Definition isCancelled (jobId : string) (d : core_db) : bool :=
  match getJob jobId d with None => true | Some j => bool_decide (jb_status j = job_cancelled) end.
Definition getApprovalStatus (approvalId : string) (d : core_db) : option ApprovalStatus :=
  pa_status <$> getApproval approvalId d.

Definition worker_host (approvalId jobId sessionId : string) (now : Z) : ToolHost history := {|
  th_createToolApproval := createToolApproval approvalId jobId now;
  th_markWaitingForApproval := on_db (markWaitingForApproval jobId now);
  th_emit := λ type payload, on_db (emit sessionId jobId now type payload);
  th_isCancelled := λ h, isCancelled jobId (hs_db h);
  th_getApprovalStatus := λ id h, getApprovalStatus id (hs_db h) |}.

Section Tools.
#[local] Set Default Proof Using "Type".
Context (docker_apply share_apply storage_apply vm_apply :
  operation_record → list (string * json) → exn + list (string * json)).
Context (docker_safe share_safe storage_safe vm_safe : exn → string).
Context (validate : string → string → list (string * json) → exn + unit).
Context (applyFileMutation : string → list (string * json) → string → exn + AppliedMutation).
Context (refresh : PendingApprovalRecord → exn + unit).
Context (dataDir : string).
Notation hstep := (step docker_apply share_apply storage_apply vm_apply docker_safe share_safe storage_safe vm_safe
  validate applyFileMutation refresh dataDir).

Lemma rtc_history h h' : rtc hstep h h' → history_ok h → approved_accepted h → history_ok h' ∧ approved_accepted h'.
Proof.
  induction 1 as [|h1 h2 h3 Hs _ IH]; [done|]. intros Hok Hacc. apply IH; [by eapply history_step|].
  eapply approved_step; [done| |done]. by apply ho_approvals.
Qed.

Lemma on_db_quiet {A} (m : core_prog A) h :
  quiet docker_apply share_apply storage_apply vm_apply docker_safe share_safe storage_safe vm_safe validate
    applyFileMutation refresh dataDir (hs_db h) (m (hs_db h)).2 → rtc hstep h (on_db m h).2.
Proof.
  unfold on_db. destruct h as [d used log]. simpl. destruct (m d) as [r d']. simpl. intros H. apply rtc_once. by apply s_quiet.
Qed.

(** C1: The agent runs no dangerous tool that the user has not approved.
    When a bash, edit or write call runs - whatever the other processes do
    between the agent's callbacks, in segments of the approval and job routes
    -, its policy is not disabled, the approval it created is a new one, and
    before it ran exactly one approve request for it was accepted while it was
    pending. *)
Theorem dangerous_tool_approved {R} (env : point → history → history) fuel policy c (execute : prog history R)
    approvalId jobId sessionId now h r h' :
  (∀ p h, rtc hstep h (env p h)) → history_ok h → approved_accepted h → approvalId ∉ hs_used h →
  @withApproval history R (worker_host approvalId jobId sessionId now) env fuel policy c execute h = (inr (Ran r), h') →
  policy_of policy (tc_name c) ≠ mode_disabled ∧
  ∃ h2, rtc hstep h h2 ∧ approvalId ∉ (hs_log h).*1 ∧ (approvalId, Started) ∈ hs_log h2 ∧ NoDup (hs_log h2).*1 ∧
    execute (env before_run h2) = (inr r, h').
Proof.
  intros Henv Hok Hacc Hnew H.
  apply (withApproval_ran env (rtc hstep) Henv) in H as (Hp & a & h1 & h2 & Hc & H12 & Hst & Hex).
  2: { intros s. apply on_db_quiet. unfold markWaitingForApproval. rewrite run_db_eq. by apply q_job. }
  2: { intros t p s. apply on_db_quiet. unfold emit.
       pose proof (q_event docker_apply share_apply storage_apply vm_apply docker_safe share_safe storage_safe vm_safe
         validate applyFileMutation refresh dataDir (hs_db s) sessionId (Some jobId) t p now) as Hq.
       unfold mbind, prog_bind. by destruct (appendEvent _ _ _ _ _ _) as [[?|?] ?]. }
  split; [done|]. exists h2.
  assert (hstep h h1 ∧ pa_id a = approvalId) as [Hs1 Hid].
  { change (createToolApproval approvalId jobId now (call_proposal c) h = (inr a, h1)) in Hc.
    unfold createToolApproval in Hc. destruct h as [d used log]. simpl in *.
    pose proof (c_tool_approval docker_apply share_apply storage_apply vm_apply docker_safe share_safe storage_safe
      vm_safe approvalId d jobId (call_proposal c) now) as Hcr.
    destruct (createPiToolCallApproval approvalId jobId (call_proposal c) now d) as [x d'] eqn:E. simpl in Hcr.
    injection Hc as -> <-. split; [by apply s_create|]. unfold createPiToolCallApproval in E.
    apply bind_inv in E as (j & d1 & _ & E). cbv zeta in E. apply bind_inv in E as (? & d2 & _ & [= <- _]). done. }
  assert (rtc hstep h h2) as H02 by (by eapply rtc_l).
  destruct (rtc_history h h2 H02 Hok Hacc) as [Hok2 Hacc2]. split; [done|]. split; [|split; [|split; [by apply ho_once|done]]].
  - intros Hin. apply Hnew. by apply (ho_settled h Hok approvalId).
  - change (getApprovalStatus (pa_id a) (hs_db h2) = Some ap_approved) in Hst. rewrite Hid in Hst.
    unfold getApprovalStatus in Hst. destruct (getApproval approvalId (hs_db h2)) as [b|] eqn:Eb; [|done].
    destruct (getApproval_row _ _ _ Eb) as (row & j & Hrow & _ & ->). simpl in Hst. injection Hst as Hst.
    apply by_key_Some in Hrow as [Hin <-]. by apply Hacc2.
Qed.
End Tools.

(** ** The process of the worker *)
(** The variables of index.ts, and how often [db.close()] was called. *)
Record worker := Worker { wk_shuttingDown : bool; wk_activeTicks : nat; wk_databaseClosed : bool; wk_closes : nat }.
Definition closeDatabaseWhenIdle (w : worker) : worker :=
  if wk_shuttingDown w && bool_decide (wk_activeTicks w = 0%nat) && negb (wk_databaseClosed w)
  then Worker true 0 true (S (wk_closes w)) else w.
(** The two halves of [tick], around the await, and [shutdown]. *)
Definition tick_begin (w : worker) : worker :=
  if wk_shuttingDown w then w else Worker (wk_shuttingDown w) (S (wk_activeTicks w)) (wk_databaseClosed w) (wk_closes w).
Definition tick_end (w : worker) : worker :=
  closeDatabaseWhenIdle (Worker (wk_shuttingDown w) (pred (wk_activeTicks w)) (wk_databaseClosed w) (wk_closes w)).
Definition shutdown (w : worker) : worker :=
  closeDatabaseWhenIdle (Worker true (wk_activeTicks w) (wk_databaseClosed w) (wk_closes w)).

Inductive worker_step : worker → worker → Prop :=
| w_begin w : worker_step w (tick_begin w)
| w_end w : wk_activeTicks w ≠ 0%nat → worker_step w (tick_end w)
| w_shutdown w : worker_step w (shutdown w).

(** The database is closed once, when the worker shuts down and no tick is
    under way; and then it is. *)
Lemma worker_closes_once w : rtc worker_step (Worker false 0 false 0) w →
  (wk_databaseClosed w = true ↔ wk_shuttingDown w = true ∧ wk_activeTicks w = 0%nat) ∧
  wk_closes w = if wk_databaseClosed w then 1%nat else 0%nat.
Proof.
  intros H. assert (∀ a b, rtc worker_step a b →
    (wk_databaseClosed a = true ↔ wk_shuttingDown a = true ∧ wk_activeTicks a = 0%nat) ∧
      wk_closes a = (if wk_databaseClosed a then 1%nat else 0%nat) →
    (wk_databaseClosed b = true ↔ wk_shuttingDown b = true ∧ wk_activeTicks b = 0%nat) ∧
      wk_closes b = if wk_databaseClosed b then 1%nat else 0%nat) as Hinv; [|apply (Hinv _ _ H); simpl; naive_solver].
  clear. induction 1 as [|a b c Hs _ IH]; [done|]. intros [H1 H2]. apply IH. clear IH.
  destruct Hs as [[sd n cl k]|[sd n cl k] Hn|[sd n cl k]]; unfold tick_begin, tick_end, shutdown, closeDatabaseWhenIdle; simpl in *.
  - destruct sd; simpl; [done|]. destruct cl; [by destruct H1 as [[] _]|]. naive_solver.
  - destruct cl; [by destruct H1 as [[_ ->] _]|]. destruct sd; simpl; [|naive_solver].
    case_bool_decide as E; simpl; naive_solver.
  - destruct cl; simpl; rewrite ?andb_false_r; simpl; [naive_solver|].
    destruct (bool_decide (n = 0%nat)) eqn:E; simpl; [naive_solver|]. apply bool_decide_eq_false in E. naive_solver.
Qed.

(** ** A turn that answers, a user who approves *)
Definition answering_turn (s : AgentSessionRecord) (m : AgentMessageRecord) (j : JobRecord) : core_prog AgentTurnResult :=
  _ ← appendEvent (se_id s) (Some (jb_id j)) agent_message (JStr "done") 100;
  mret (TurnResult turn_completed None).

#[export] Instance answering_turn_quiet : QuietTurn answering_turn.
Proof. intros s m j n. unfold answering_turn. keeps_all. Qed.

Definition demo_clock (i : nat) : Z * Z := (30 + Z.of_nat i * 10, 35 + Z.of_nat i * 10).

Lemma worker_drains_witness :
  ∃ d', ticks answering_turn demo_clock 2 0 jobs_demo = Some d' ∧ queued_agent_jobs d' = 0%nat.
Proof. exact (worker_drains answering_turn demo_clock 0 jobs_demo). Defined.

Lemma processNextJob_spec_witness :
  ∃ d', processNextJob answering_turn 30 40 jobs_demo = (inr true, d') ∧
    jb_status <$> getJob "j1" d' = Some job_completed.
Proof.
  pose proof (processNextJob_spec answering_turn 30 40 jobs_demo) as H.
  destruct (claimNextJob 30 jobs_demo) as [[job|] d0] eqn:Ec; vm_compute in Ec; [|by discriminate Ec].
  injection Ec as <- <-.
  specialize (H ltac:(apply (bool_decide_eq_true_1 (NoDup _)); by vm_compute) jobs_demo_log).
  cbv beta iota in H. destruct H as [_ H].
  match type of H with match ?x with _ => _ end => destruct x as [s|] eqn:Es end; vm_compute in Es; [|by discriminate Es].
  injection Es as <-. match type of H with match ?x with _ => _ end => destruct x as [m|] eqn:Em end; vm_compute in Em; [|by discriminate Em].
  injection Em as <-. match type of H with match ?x with _ => _ end => destruct x eqn:Eb end; [|by vm_compute in Eb].
  destruct H as (e & d1 & Ee & H). vm_compute in Ee. injection Ee as _ <-.
  match type of H with let '(_, _) := ?t in _ => destruct t as [r d2] eqn:Et end. vm_compute in Et. injection Et as <- <-.
  destruct H as (d' & E & H).
  - apply (bool_decide_eq_true_1 (NoDup _)). by vm_compute.
  - split; vm_compute; repeat constructor; done.
  - done.
  - exists d'. split; [exact E|]. unfold settled_as in H. simpl in H. destruct H as [H _]. rewrite H. done.
Defined.

(** The user approves while the agent polls for the first time. *)
Definition approve_step (id : string) (now : Z) (h : history) : history :=
  let '(r, d) := demo_begin id now (hs_db h) in
  History d (hs_used h) (hs_log h ++ if accepted r then [(id, Started)] else []).
Definition approving_env (p : point) (h : history) : history :=
  match p with in_poll 0 => approve_step "x" 60 h | _ => h end.
Definition ls_call : tool_call := ToolCall "c1" tool_bash [("command", JStr "ls")] "/r" risk_medium "Run shell command: ls".
Definition ask_policy : PiToolPolicySettingsRecord := PiToolPolicy DEFAULT_PI_TOOL_POLICY_SETTINGS "".
Definition tool_history : history := History (processNextJob answering_turn 30 40 jobs_demo).2 [] [].

Notation demo_run := (@withApproval history string (worker_host "x" "j1" "s" 50) approving_env 3 ask_policy ls_call
  (mret "ran") tool_history).
Definition tool_end : history := demo_run.2.
Lemma demo_ran : demo_run = (inr (Ran "ran"), tool_end).
Proof. vm_compute. reflexivity. Qed.

Lemma tool_history_ok : history_ok tool_history ∧ approved_accepted tool_history.
Proof.
  split; [split; [by vm_compute|apply NoDup_nil_2|by intros id ?%elem_of_nil]|]. intros a Ha. by vm_compute in Ha.
Qed.

Lemma approving_env_steps p h : rtc demo_step h (approving_env p h).
Proof.
  destruct h as [d used log]. unfold approving_env. destruct p as [| | |[|i]|i|]; try reflexivity.
  apply rtc_once. unfold approve_step. simpl.
  destruct (demo_begin "x" 60 d) as [r d'] eqn:Eb. by apply (s_approve _ _ _ _ _ _ _ _ _ _ _ _ d used log "x" 60).
Qed.

Lemma dangerous_tool_approved_witness : ∃ h2, ("x", Started) ∈ hs_log h2 ∧ (inr "ran", h2) = (inr "ran" : exn + string, tool_end).
Proof.
  destruct (dangerous_tool_approved no_apply no_apply no_apply no_apply exn_message exn_message exn_message exn_message
    (λ _ _ _, inr tt) no_mutation (λ _, inr tt) "/data" approving_env 3 ask_policy ls_call
    (mret "ran") "x" "j1" "s" 50 tool_history "ran" tool_end
    approving_env_steps (proj1 tool_history_ok) (proj2 tool_history_ok) (not_elem_of_nil "x") demo_ran)
    as [_ (h2 & _ & _ & Hin & _ & Hex)].
  exists h2. split; [exact Hin|exact Hex].
Defined.
