(* ===== verification/FileOperationRoutes.v ===== *)
(** * Restoring and rolling back

    apps/api/src/lib/operations.ts and apps/api/src/routes/operations.ts: the
    requests that restore a trash entry and roll an operation back, over the
    database and the disk.  [root_path] gives the path of a NAS root that is
    enabled, which no code here writes; [system] the pools of the host.  The UUIDs a
    request draws are a [rollback_ids]. *)
From S2P Require Import Prelude Sql Json JsString Http CoreDb Jobs Operations.
From S2P Require Import FileSystem PathSafety Confinement Archives Mutations StorageScope ApprovalRoutes.
Open Scope Z_scope.

Record nas := Nas { na_db : core_db; na_disk : disk }.
Definition on_core {A} (m : core_prog A) : prog nas A := λ w, let '(r, d) := m (na_db w) in (r, Nas d (na_disk w)).
Definition on_disk {A} (m : prog disk A) : prog nas A := λ w, let '(r, s) := m (na_disk w) in (r, Nas (na_db w) s).

(** The record of the operation, its index tasks and alerts, and what a
    mutation draws. *)
Record rollback_ids := RollbackIds { ri_operation : string; ri_index : nat → string * string; ri_mutation : string * string }.

Definition TrashRestoreError (message : string) (status : Z) : exn := Exn "TrashRestoreError" message (Some status) None [].
Definition file_status_text (s : FileOperationStatus) : string :=
  match s with fo_proposed => "proposed" | fo_applied => "applied" | fo_rolled_back => "rolled_back" | fo_failed => "failed" end.

(** [typeof value === "string" ? value : null], then tested for truth. *)
Definition getStringMetadata (metadata : list (string * json)) (key : string) : option string := str_prop metadata key.
Definition getOperationRootId (o : FileOperationRecord) : option string :=
  match given (getStringMetadata (fo_metadata o) "rootId") with
  | Some rootId => Some rootId
  | None => match prop (fo_metadata o) "proposal" with
            | Some (JObj proposal) => str_prop proposal "rootId"
            | _ => None
            end
  end.

Section Routes.
Context (root_path : string → option string) (system : option (exn + list SystemStoragePool)) (dataDir : string).

Definition getNasRoot (id : string) (d : core_db) : option NasRootRecord :=
  if bool_decide (id ∈ c_roots d) then NasRoot id <$> root_path id else None.
Definition scope_for (rootId storagePoolId : string) : prog nas StoragePoolScope := λ w,
  on_disk (resolveStoragePoolScope (λ id, getNasRoot id (na_db w)) system (Some rootId) (Some storagePoolId)) w.

Definition restoreTrashEntry (ids : rollback_ids) (trashEntryId : string) (now : Z)
    : prog nas (TrashEntryRecord * NasRootRecord * AppliedMutation) :=
  entry ← gets (λ w, getTrashEntry trashEntryId (na_db w));
  match entry with
  | None => throw (TrashRestoreError "Trash entry not found" 404)
  | Some entry =>
      if isSome (te_restoredAt entry) then throw (TrashRestoreError "Trash entry is already restored" 409) else
      root ← gets (λ w, getNasRoot (te_rootId entry) (na_db w));
      match root with
      | None => throw (TrashRestoreError "NAS root not found" 404)
      | Some root =>
          _ ← match given (getStringMetadata (te_metadata entry) "storagePoolId") with
              | Some storagePoolId =>
                  scope ← scope_for (ro_id root) storagePoolId;
                  _ ← on_disk (resolveScopedTargetPath scope (te_originalPath entry)); mret tt
              | None => mret tt
              end;
          restored ← on_disk (restoreTrashPath (ri_mutation ids).2 root (te_trashPath entry) (te_originalPath entry));
          _ ← on_core (run_db (markTrashEntryRestored (te_id entry) now));
          mret (entry, root, restored)
      end
  end.

Definition pool_part (storagePoolId : option string) : list (string * json) :=
  match given storagePoolId with Some id => [("storagePoolId", JStr id)] | None => [] end.

Definition rollbackTrashOperation (ids : rollback_ids) (o : FileOperationRecord) (now : Z) : prog nas RolledBackMutation :=
  match given (getStringMetadata (fo_metadata o) "trashEntryId") with
  | None => throw (Error "Trash operation is missing trash entry metadata")
  | Some trashEntryId =>
      r ← restoreTrashEntry ids trashEntryId now;
      let '(entry, root, restored) := (r : TrashEntryRecord * NasRootRecord * AppliedMutation) in
      mret (RolledBack restore (Some (te_trashPath entry)) (am_targetPath restored)
        (spread (am_metadata restored)
           ([("rootId", JStr (ro_id root)); ("rollbackOf", JStr (fo_id o)); ("trashEntryId", JStr (te_id entry))] ++
            pool_part (getStringMetadata (fo_metadata o) "storagePoolId"))))
  end.

Definition rollbackRegularOperation (ids : rollback_ids) (o : FileOperationRecord) (trashRootPath : string) (now : Z)
    : prog nas RolledBackMutation :=
  match given (getOperationRootId o) with
  | None => throw (Error "Operation is missing NAS root metadata")
  | Some rootId =>
      root ← gets (λ w, getNasRoot rootId (na_db w));
      match root with
      | None => throw (Error "NAS root not found")
      | Some root =>
          let storagePoolId := getStringMetadata (fo_metadata o) "storagePoolId" in
          _ ← match given storagePoolId with
              | Some poolId =>
                  scope ← scope_for (ro_id root) poolId;
                  on_disk (validateStoragePoolProposal scope
                    (if bool_decide (fo_operation o = restore) then None else given (fo_sourcePath o)) (given (fo_targetPath o)))
              | None => mret tt
              end;
          rolledBack ← on_disk (rollbackFileMutation (ri_mutation ids) root o trashRootPath);
          _ ← match rb_operation rolledBack, given (str_prop (rb_metadata rolledBack) "trashEntryId"), given (rb_targetPath rolledBack) with
              | trash, Some t, Some target =>
                  _ ← on_core (createTrashEntry t (ro_id root) (rb_sourcePath rolledBack ⁇ ".") (path_join [trashRootPath; target])
                        (spread (rb_metadata rolledBack) ([("rootId", JStr (ro_id root))] ++ pool_part storagePoolId)) now);
                  mret tt
              | _, _, _ => mret tt
              end;
          mret (RolledBack (rb_operation rolledBack) (rb_sourcePath rolledBack) (rb_targetPath rolledBack)
            (spread (rb_metadata rolledBack) ([("rootId", JStr (ro_id root))] ++ pool_part storagePoolId)))
      end
  end.

(** POST /api/trash/:id/restore; what it throws is left to the server. *)
Definition post_trash_restore (ids : rollback_ids) (id : string) (now : Z) : prog nas (reply json) :=
  r ← restoreTrashEntry ids id now;
  let '(entry, root, restored) := (r : TrashEntryRecord * NasRootRecord * AppliedMutation) in
  operation ← on_core (recordAppliedOperation (ri_operation ids) (ri_index ids) None restore (Some (te_trashPath entry))
    (am_targetPath restored) fo_applied
    (spread (am_metadata restored)
       ([("rootId", JStr (ro_id root))] ++
        match str_prop (te_metadata entry) "storagePoolId" with Some p => [("storagePoolId", JStr p)] | None => [] end ++
        [("trashEntryId", JStr (te_id entry)); ("reversible", JBool true)])) now);
  mret (send_status 202 (JObj [("trashEntryId", JStr (te_id entry)); ("operation", file_operation_json operation)])).

(** POST /api/operations/:id/rollback. *)
Definition post_rollback (ids : rollback_ids) (id : string) (now : Z) : prog nas (reply json) :=
  operation ← gets (λ w, getFileOperation id (na_db w));
  match operation with
  | None => mret (send_error 404 "File operation not found")
  | Some o =>
      if bool_decide (fo_status o ≠ fo_applied)
      then mret (send_error 409 ("Operation is already " +:+ file_status_text (fo_status o))) else
      let trashRootPath := path_join [dataDir; "trash"] in
      try_catch
        (rolledBack ← (if bool_decide (fo_operation o = trash) then rollbackTrashOperation ids o now
                       else rollbackRegularOperation ids o trashRootPath now);
         rollbackRecord ← on_core (recordAppliedOperation (ri_operation ids) (ri_index ids) None (rb_operation rolledBack)
           (rb_sourcePath rolledBack) (rb_targetPath rolledBack) fo_applied
           (spread (rb_metadata rolledBack) [("rollbackAction", JBool true); ("reversible", JBool false)]) now);
         _ ← on_core (run_db (markFileOperationRolledBack (fo_id o)
               (JObj (spread (rb_metadata rolledBack) [("rollbackOperationId", JStr (fo_id rollbackRecord))])) now));
         mret (send_status 202 (JObj [("operationId", JStr (fo_id o)); ("status", JStr "rolled_back");
                                      ("rollbackOperation", file_operation_json rollbackRecord)])))
        (λ e, mret (send_error (getErrorStatusCode e 400) (exn_message e)))
  end.
End Routes.

(** ** What the requests leave of the log *)
Lemma on_core_keeps {A} (I : core_db → Prop) (m : core_prog A) : keeps I m → keeps (λ w, I (na_db w)) (on_core m).
Proof. intros H w Hw. specialize (H _ Hw). unfold on_core. by destruct (m (na_db w)). Qed.
Lemma on_disk_keeps {A} (I : core_db → Prop) (m : prog disk A) : keeps (λ w, I (na_db w)) (on_disk m).
Proof. intros w Hw. unfold on_disk. by destruct (m (na_disk w)). Qed.
#[local] Hint Resolve on_disk_keeps : keeps.

Section Spec.
Context (root_path : string → option string) (system : option (exn + list SystemStoragePool)) (dataDir : string).
(** The operations are [l]. *)
Definition operations_are (l : list FileOperationRecord) (d : core_db) : Prop := c_file_operations d = l.
#[local] Notation unchanged l := (λ w, operations_are l (na_db w)).

Lemma mark_restored_keeps l id now : keeps (operations_are l) (run_db (markTrashEntryRestored id now)).
Proof. by intros d Hd. Qed.
Lemma create_trash_keeps l a b c d e now : keeps (operations_are l) (createTrashEntry a b c d e now).
Proof.
  unfold createTrashEntry. apply keeps_bind; [|intros _; apply keeps_ret]. intros x Hx. unfold checked_insert.
  destruct (isSome _); [done|]. by destruct (negb _).
Qed.
Lemma scope_keeps l a b : keeps (unchanged l) (scope_for root_path system a b).
Proof. intros w Hw. by apply (on_disk_keeps (operations_are l)). Qed.

Lemma restore_keeps l ids id now : keeps (unchanged l) (restoreTrashEntry root_path system ids id now).
Proof.
  unfold restoreTrashEntry. apply keeps_bind; [apply keeps_gets|]. intros [e|]; [|apply keeps_throw].
  destruct (isSome _); [apply keeps_throw|]. apply keeps_bind; [apply keeps_gets|]. intros [r|]; [|apply keeps_throw].
  apply keeps_bind.
  { destruct (given _); [|apply keeps_ret]. apply keeps_bind; [apply scope_keeps|]. intros sc.
    apply keeps_bind; [apply on_disk_keeps|intros _; apply keeps_ret]. }
  intros _. apply keeps_bind; [apply on_disk_keeps|]. intros a. apply keeps_bind; [apply on_core_keeps, mark_restored_keeps|].
  intros _. apply keeps_ret.
Qed.

Lemma rollback_keeps l ids o now : keeps (unchanged l)
  (if bool_decide (fo_operation o = trash) then rollbackTrashOperation root_path system ids o now
   else rollbackRegularOperation root_path system ids o (path_join [dataDir; "trash"]) now).
Proof.
  case_bool_decide.
  - unfold rollbackTrashOperation. destruct (given _); [|apply keeps_throw]. apply keeps_bind; [apply restore_keeps|].
    intros [[? ?] ?]. apply keeps_ret.
  - unfold rollbackRegularOperation. destruct (given _); [|apply keeps_throw]. apply keeps_bind; [apply keeps_gets|].
    intros [r|]; [|apply keeps_throw]. cbv zeta. apply keeps_bind.
    { destruct (given _); [|apply keeps_ret]. apply keeps_bind; [apply scope_keeps|]. intros sc. apply on_disk_keeps. }
    intros _. apply keeps_bind; [apply on_disk_keeps|]. intros rb. apply keeps_bind; [|intros _; apply keeps_ret].
    destruct (rb_operation rb); try apply keeps_ret. destruct (given _); [|apply keeps_ret]. destruct (given _); [|apply keeps_ret].
    apply keeps_bind; [apply on_core_keeps, create_trash_keeps|intros _; apply keeps_ret].
Qed.

Lemma getErrorStatusCode_range e : let n := getErrorStatusCode e 400 in 400 ≤ n < 500 ∨ n = 503.
Proof.
  unfold getErrorStatusCode. destruct (exn_status e) as [n|]; cbn [from_option]; [|lia].
  destruct (_ || _) eqn:E; [|lia]. apply orb_true_iff in E as [?%bool_decide_eq_true|?%bool_decide_eq_true]; lia.
Qed.

(** The log after a rollback that was recorded. *)
Definition rolled_back (ids : rollback_ids) (id : string) (w w' : nas) : Prop :=
  ∃ old new, getFileOperation id (na_db w') = Some old ∧ fo_status old = fo_rolled_back ∧
    getFileOperation (ri_operation ids) (na_db w) = None ∧ getFileOperation (ri_operation ids) (na_db w') = Some new ∧
    fo_status new = fo_applied ∧ prop (fo_metadata new) "rollbackAction" = Some (JBool true) ∧
    prop (fo_metadata new) "reversible" = Some (JBool false).

Lemma mark_rolled_back id meta now d o : by_key fo_id id (c_file_operations d) = Some o → fo_status o = fo_applied →
  let d' := (markFileOperationRolledBack id meta now d).2 in
  (∃ o', getFileOperation id d' = Some o' ∧ fo_status o' = fo_rolled_back) ∧
  ∀ k, k ≠ id → getFileOperation k d' = getFileOperation k d.
Proof.
  intros Ho Hst. unfold markFileOperationRolledBack, getFileOperation. rewrite Ho, bool_decide_false by auto. simpl.
  split; [|intros k Hk]; rewrite (by_key_update fo_id) by done.
  - rewrite Ho. simpl. pose proof (by_key_Some fo_id _ _ _ Ho) as [_ Eid]. unfold has_key.
    rewrite !bool_decide_true by done. simpl. eauto.
  - destruct (by_key fo_id k (c_file_operations d)) as [r|] eqn:E; [|done]. simpl.
    pose proof (by_key_Some fo_id _ _ _ E) as [_ Eid]. unfold has_key. by rewrite bool_decide_false by congruence.
Qed.

Lemma post_rollback_cases ids id now w o : getFileOperation id (na_db w) = Some o → fo_status o = fo_applied →
  ∃ r w', post_rollback root_path system dataDir ids id now w = (inr r, w') ∧
    ((rp_status r = 202 ∧ rolled_back ids id w w') ∨
     (∃ e, r = send_error (getErrorStatusCode e 400) (exn_message e) ∧ getFileOperation id (na_db w') = Some o)).
Proof.
  intros Ho Hst. unfold post_rollback. rewrite bind_gets, Ho, bool_decide_false by auto. cbv zeta. unfold try_catch.
  unfold mbind at 1, prog_bind at 1.
  pose proof (rollback_keeps (c_file_operations (na_db w)) ids o now w eq_refl) as Hk.
  match type of Hk with context [(?m w).2] => destruct (m w) as [[e|rb] w1] end; unfold operations_are in Hk; simpl in Hk.
  { eexists _, w1. split; [done|]. right. exists e. split; [done|]. unfold getFileOperation. by rewrite Hk. }
  unfold mbind, prog_bind, on_core.
  pose proof (record_effect (ri_operation ids) (ri_index ids) None (rb_operation rb) (rb_sourcePath rb) (rb_targetPath rb) fo_applied
    (spread (rb_metadata rb) [("rollbackAction", JBool true); ("reversible", JBool false)]) now (na_db w1)) as H. cbv zeta in H.
  destruct (recordAppliedOperation _ _ _ _ _ _ _ _ _ (na_db w1)) as [[e|x] d2]; cbn [na_db na_disk].
  - eexists _, _. split; [done|]. right. exists e. split; [done|]. cbn [na_db]. unfold getFileOperation in *.
    destruct H as [_ [(->&_)|[_ ->]]]; rewrite Hk; [done|]. by rewrite (by_key_insert fo_id), Ho.
  - destruct H as [Hx [(_&[? ?]&_)|[Hnone H]]]; [done|]. specialize (Hx x eq_refl). subst x.
    unfold getFileOperation in Hnone. rewrite Hk in Hnone.
    assert (by_key fo_id id (c_file_operations d2) = Some o) as Ho2.
    { rewrite H, (by_key_insert fo_id), Hk. unfold getFileOperation in Ho. by rewrite Ho. }
    pose proof (by_key_Some fo_id _ _ _ Ho2) as [_ Eid].
    assert (ri_operation ids ≠ id) as Hne by (intros E; unfold getFileOperation in Ho; congruence).
    unfold run_db. set (meta := JObj _). rewrite Eid.
    destruct (mark_rolled_back id meta now d2 o Ho2 Hst) as [(o'&Ho'&Hst') Hother].
    destruct (markFileOperationRolledBack id meta now d2) as [b d3]. simpl in Ho', Hother.
    eexists _, _. split; [done|]. left. split; [done|]. unfold rolled_back. cbn [na_db].
    match type of H with _ = insert_row ?x _ => exists o', x end.
    split; [exact Ho'|]. split; [exact Hst'|]. split; [exact Hnone|].
    split; [|split; [done|]; cbn [fo_metadata spread foldl fst snd]; unfold spread; by rewrite !set_prop_lookup]. rewrite Hother by done. unfold getFileOperation. rewrite H, (by_key_insert fo_id), Hk, Hnone. unfold has_key. by rewrite bool_decide_true.
Qed.
End Spec.

(** POST /api/operations/:id/rollback on every branch.  It always
    answers.  An unknown operation is answered 404 and one that is not applied
    409, with nothing changed.  Otherwise the answer is 202, the operation is
    rolled back, the rollback is itself recorded as a new operation that
    cannot be reversed, and asking again is answered 409; or the answer is an
    error and the operation is as it was. *)
Theorem post_rollback_spec root_path system dataDir ids ids' id now now' w :
  let run := post_rollback root_path system dataDir in
  ∃ r w', run ids id now w = (inr r, w') ∧
  match getFileOperation id (na_db w) with
  | None => r = send_error 404 "File operation not found" ∧ w' = w
  | Some o =>
      (fo_status o ≠ fo_applied ∧ r = send_error 409 ("Operation is already " +:+ file_status_text (fo_status o)) ∧ w' = w) ∨
      (fo_status o = fo_applied ∧ rp_status r = 202 ∧ rolled_back ids id w w' ∧
       run ids' id now' w' = (inr (send_error 409 "Operation is already rolled_back"), w')) ∨
      (fo_status o = fo_applied ∧ (400 ≤ rp_status r < 500 ∨ rp_status r = 503) ∧ (∃ m, rp_body r = ErrorBody m) ∧
       getFileOperation id (na_db w') = Some o)
  end.
Proof.
  cbv zeta. destruct (getFileOperation id (na_db w)) as [o|] eqn:Ho.
  - destruct (decide (fo_status o = fo_applied)) as [Hst|Hst].
    + destruct (post_rollback_cases root_path system dataDir ids id now w o Ho Hst) as (r&w'&E&H). exists r, w'. split; [done|].
      right. destruct H as [[H202 H]|(e&->&H)].
      * left. split_and!; [done|done|done|]. destruct H as (old&new&Hold&Hst'&_). unfold post_rollback.
        rewrite bind_gets, Hold, bool_decide_true by (by rewrite Hst'). by rewrite Hst'.
      * right. split_and!; [done|apply getErrorStatusCode_range|by eexists|done].
    + eexists _, w. split; [|left; split; [exact Hst|by split]]. unfold post_rollback.
      by rewrite bind_gets, Ho, bool_decide_true.
  - eexists _, w. split; [|by split]. unfold post_rollback. by rewrite bind_gets, Ho.
Qed.
