(* ===== verification/Migrations.v ===== *)
(** * Schema migrations

    packages/db/src/schema.ts and the lists of packages/db/src/migrations/:
    [runMigrations] brings a database file up to the release of the process
    that opens it.  Several processes of several releases (an older release
    knows fewer migrations) do so at once; only the transaction of a migration
    is atomic.  The SQL text of the migrations is a parameter: what running it
    on a connection makes of the schema.  The refinement theorem says that the
    file goes through one sequence of schemas, whoever runs the migrations. *)
From S2P Require Import Prelude.
Open Scope Z_scope.

(** The processes keep these two pragmas on their connection. *)
Record conn := Conn { foreign_keys : bool; legacy_alter_table : bool }.
Record Migration := Mig { mg_id : string; mg_disableForeignKeys : bool }.

Definition coreMigrations : list Migration :=
  [Mig "001_initial" false; Mig "002_nas_roots_enabled" false; Mig "003_system_settings" false;
   Mig "004_pi_sessions_and_tool_approvals" false].
Definition operationMigrations : list Migration :=
  [Mig "005_docker_management" true; Mig "006_share_management" true; Mig "006a_storage_management" true;
   Mig "006b_vm_management" true].
Definition indexerMigrations : list Migration :=
  [Mig "007_indexer_status" false; Mig "008_index_failure_root_guard" false].
Definition productionMigrations : list Migration :=
  [Mig "009_p0_operations" false; Mig "010_index_run_history_archive" false; Mig "011_storage_pool_delete" true;
   Mig "012_docker_resource_create" true; Mig "013_download_tasks" false; Mig "014_operation_notifications" false;
   Mig "015_terminal_tabs" false; Mig "016_hostd_config" false; Mig "017_photo_library" false;
   Mig "018_photo_upload_reservations" false; Mig "019_photo_metadata_index" false;
   Mig "020_docker_compose_apps" false; Mig "021_vm_direct_actions" true; Mig "022_downloader_reliability" false;
   Mig "023_photostaff_reliability" true; Mig "024_rust_indexer" false; Mig "025_ops_runs" false;
   Mig "026_file_batches" false; Mig "027_agent_transcript_sequence" false].
Definition migrations : list Migration :=
  coreMigrations ++ operationMigrations ++ indexerMigrations ++ productionMigrations.

Arguments migrations : simpl never.

(** No two migrations share an id. *)
Lemma migration_ids_NoDup : NoDup (mg_id <$> migrations).
Proof. apply (bool_decide_unpack _). by vm_compute. Qed.

(** [db.exec(migration.sql)] on a connection with these pragmas: it throws or
    leaves a schema, and sets [legacy_alter_table].  A PRAGMA foreign_keys
    does nothing inside a transaction. *)
Definition migration_sql (Schema : Type) : Type := string → conn → Schema → (exn + Schema) * bool.
(** Only the migrations with [disableForeignKeys] contain a PRAGMA. *)
Class PlainSql {Schema} (sql : migration_sql Schema) : Prop :=
  plain_sql m c s : m ∈ migrations → mg_disableForeignKeys m = false → (sql (mg_id m) c s).2 = legacy_alter_table c.

Section Run.
Context {Schema : Type} (sql : migration_sql Schema).

(** The database file: [fl_rows] is the table schema_migrations. *)
Record file := File { fl_schema : Schema; fl_rows : option (list (string * Z)) }.
Definition store : Type := conn * file.

(** CREATE TABLE IF NOT EXISTS schema_migrations. *)
Definition create_table (f : file) : file := File (fl_schema f) (Some (fl_rows f ⁇ [])).
Definition hasMigration (id : string) (f : file) : bool := bool_decide (id ∈ (fl_rows f ⁇ []).*1).
Definition insertMigration (id : string) (now : Z) (f : file) : file :=
  File (fl_schema f) (Some ((fl_rows f ⁇ []) ++ [(id, now)])).

Definition exec (id : string) : prog store unit := λ '(c, f),
  let '(r, legacy) := sql id c (fl_schema f) in
  let c := Conn (foreign_keys c) legacy in
  match r with
  | inl e => (inl e, (c, f))
  | inr s => (inr tt, (c, File s (fl_rows f)))
  end.
(** [db.transaction(body).immediate()]: BEGIN IMMEDIATE fails with [lock]
    when the write lock is not free in time; a throw rolls the file back, and
    not the pragmas. *)
Definition immediate (lock : option exn) (body : prog store unit) : prog store unit := λ s,
  match lock with
  | Some e => (inl e, s)
  | None => match body s with
            | (inl e, (c, _)) => (inl e, (c, s.2))
            | r => r
            end
  end.
Definition apply (lock : option exn) (now : Z) (m : Migration) : prog store unit :=
  immediate lock (
    has ← gets (λ s, hasMigration (mg_id m) s.2);
    if has : bool then mret tt else
    _ ← exec (mg_id m);
    modify (λ '(c, f), (c, insertMigration (mg_id m) now f))).

(** [db.pragma("foreign_keys = OFF")], and the [finally] block. *)
Definition foreign_keys_off (c : conn) : conn := Conn false (legacy_alter_table c).
Definition finally {A} (m : prog store A) (cleanup : conn → conn) : prog store A := λ s,
  let '(r, (c, f)) := m s in (r, (cleanup c, f)).

Definition migrate (lock : option exn) (now : Z) (m : Migration) : prog store unit :=
  has ← gets (λ s, hasMigration (mg_id m) s.2);
  if has : bool then mret tt else
  if mg_disableForeignKeys m then
    saved ← gets fst;
    _ ← modify (λ '(c, f), (foreign_keys_off c, f));
    finally (apply lock now m) (λ _, saved)
  else apply lock now m.
(** [ms]: the migrations of the release. *)
Definition runMigrations (lock : option exn) (now : Z) (ms : list Migration) : prog store unit :=
  _ ← modify (λ '(c, f), (c, create_table f));
  for_each (migrate lock now) ms.

(** ** Many processes *)
(** Where a process is: before CREATE TABLE, before the check of the next
    migration, before its transaction (with the pragmas to restore), at the
    end, or stopped by an error. *)
Inductive place :=
| Opening
| Looking (ms : list Migration)
| Waiting (m : Migration) (saved : option conn) (ms : list Migration)
| Stopped (e : exn).
Record process := Process { pr_release : list Migration; pr_conn : conn; pr_at : place }.

(** The next access of a process to the file. *)
Definition process_step (lock : option exn) (now : Z) (p : process) (f : file) : process * file :=
  let go := Process (pr_release p) in
  let c := pr_conn p in
  match pr_at p with
  | Opening => (go c (Looking (pr_release p)), create_table f)
  | Looking [] | Stopped _ => (p, f)
  | Looking (m :: ms) =>
      if hasMigration (mg_id m) f then (go c (Looking ms), f)
      else if mg_disableForeignKeys m then (go (foreign_keys_off c) (Waiting m (Some c) ms), f)
      else (go c (Waiting m None ms), f)
  | Waiting m saved ms =>
      let '(r, (c', f')) := apply lock now m (c, f) in
      (go (saved ⁇ c') (match r with inl e => Stopped e | inr _ => Looking ms end), f')
  end.

Record world := World { wo_file : file; wo_processes : list process }.
Definition world_step (i : nat) (lock : option exn) (now : Z) (w : world) : world :=
  match wo_processes w !! i with
  | Some p => let '(p', f') := process_step lock now p (wo_file w) in World f' (<[i := p']> (wo_processes w))
  | None => w
  end.
(** Any process goes on; one that has crashed just never does again. *)
Inductive step : world → world → Prop :=
| step_process i lock now w : step w (world_step i lock now w).

(** ** The specification: the next migration, or nothing *)
(** The pragmas a migration runs under. *)
Definition migration_conn (m : Migration) : conn := Conn (negb (mg_disableForeignKeys m)) false.
Record version := Version { ve_schema : Schema; ve_count : nat }.
Inductive upgrade : version → version → Prop :=
| upgrade_next m s n s' legacy : migrations !! n = Some m → sql (mg_id m) (migration_conn m) s = (inr s', legacy) →
    upgrade (Version s n) (Version s' (S n)).

(** A process of release [k] that has seen the first [j] migrations applied. *)
Definition opened : conn := Conn true false.
Definition seen (n : nat) (p : process) (ms : list Migration) : Prop := ∃ j, ms = drop j (pr_release p) ∧ (j ≤ n)%nat.
Definition process_ok (n : nat) (p : process) : Prop :=
  (∃ k, pr_release p = take k migrations) ∧
  match pr_at p with
  | Opening | Stopped _ => pr_conn p = opened
  | Looking ms => pr_conn p = opened ∧ seen n p ms
  | Waiting m saved ms =>
      pr_conn p = migration_conn m ∧ saved = (if mg_disableForeignKeys m then Some opened else None) ∧ seen n p (m :: ms)
  end.
(** What the file and the processes are at a version. *)
Record implements (w : world) (v : version) : Prop := {
  im_schema : fl_schema (wo_file w) = ve_schema v;
  im_rows : (fl_rows (wo_file w) ⁇ []).*1 = mg_id <$> take (ve_count v) migrations;
  im_count : (ve_count v ≤ length migrations)%nat;
  im_processes : Forall (process_ok (ve_count v)) (wo_processes w) }.
End Run.
Arguments File {Schema} _ _.
Arguments World {Schema} _ _.
Arguments Version {Schema} _ _.

(** ** Proofs *)
Lemma seen_mono n n' p ms : (n ≤ n')%nat → seen n p ms → seen n' p ms.
Proof. intros Hn (j&->&Hj). exists j. split; [done|lia]. Qed.

Lemma process_ok_mono n n' p : (n ≤ n')%nat → process_ok n p → process_ok n' p.
Proof.
  intros Hn [Hk H]. split; [done|]. destruct (pr_at p); [done|..|done].
  - destruct H as [? H]. split; [done|by eapply seen_mono].
  - destruct H as (?&?&H). split_and!; [done|done|by eapply seen_mono].
Qed.

(** The first of the migrations a process has yet to see. *)
Lemma seen_lookup n p k m ms : pr_release p = take k migrations → seen n p (m :: ms) →
  ∃ j, migrations !! j = Some m ∧ (j ≤ n)%nat ∧ ms = drop (S j) (pr_release p).
Proof.
  intros Hk (j & Hj & Hle). assert (pr_release p !! j = Some m) as Hm.
  { rewrite <-(Nat.add_0_r j), <-lookup_drop, <-Hj. done. }
  exists j. split_and!; [|done|].
  - rewrite Hk in Hm. by apply lookup_take_Some in Hm as [? _].
  - by apply drop_S in Hm as E; rewrite E in Hj; injection Hj.
Qed.

Section Refine.
Context {Schema : Type} (sql : migration_sql Schema) `{!PlainSql sql}.
Implicit Types (w : @world Schema) (f : @file Schema) (v : @version Schema).

Lemma applied_lookup f n j m : (fl_rows f ⁇ []).*1 = mg_id <$> take n migrations → migrations !! j = Some m →
  hasMigration (mg_id m) f = bool_decide (j < n)%nat.
Proof.
  intros E Hm. unfold hasMigration. rewrite E. apply bool_decide_ext. rewrite list_elem_of_lookup. split.
  - intros (i & Hi). rewrite list_lookup_fmap in Hi. destruct (take n migrations !! i) as [m'|] eqn:Hi'; [|done].
    apply lookup_take_Some in Hi' as [Hi' Hn]. injection Hi as Hi.
    assert (i = j) as <-; [|done]. apply (NoDup_lookup _ _ _ (mg_id m) migration_ids_NoDup).
    + rewrite list_lookup_fmap, Hi'. simpl. by rewrite Hi.
    + by rewrite list_lookup_fmap, Hm.
  - intros Hj. exists j. rewrite list_lookup_fmap, lookup_take_lt by done. by rewrite Hm.
Qed.

(** The pragmas after a transaction, once restored. *)
Lemma apply_conn lock now m f r c' f' : m ∈ migrations → apply sql lock now m (migration_conn m, f) = (r, (c', f')) →
  (if mg_disableForeignKeys m then Some opened else None) ⁇ c' = opened.
Proof.
  intros Hm H. destruct (mg_disableForeignKeys m) eqn:Hd; [done|]. simpl.
  assert (migration_conn m = opened) as Ec by (unfold migration_conn; by rewrite Hd). rewrite Ec in H.
  unfold apply, immediate in H. destruct lock; [by injection H as _ <- _|].
  rewrite bind_gets in H. cbn [snd] in H. destruct (hasMigration (mg_id m) f); [by injection H as _ <- _|].
  unfold exec, mbind, prog_bind, modify in H. cbv beta iota in H.
  pose proof (plain_sql m opened (fl_schema f) Hm Hd) as Hl. destruct (sql _ _ _) as [[e|s'] l]; simpl in *;
    subst l; by injection H as _ <- _.
Qed.

(** The transaction of a migration: it leaves the file, or is the next step
    of the specification. *)
Lemma apply_file lock now m j f v r c' f' :
  fl_schema f = ve_schema v → (fl_rows f ⁇ []).*1 = mg_id <$> take (ve_count v) migrations →
  migrations !! j = Some m → (j ≤ ve_count v)%nat → apply sql lock now m (migration_conn m, f) = (r, (c', f')) →
  (f' = f ∧ (∀ u, r = inr u → (j < ve_count v)%nat)) ∨
  (j = ve_count v ∧ r = inr tt ∧ ∃ s', f' = insertMigration (mg_id m) now (File s' (fl_rows f)) ∧
   upgrade sql v (Version s' (S j))).
Proof.
  intros Hs Hrows Hm Hj H. unfold apply, immediate in H. destruct lock as [e|]; [injection H as <- _ <-; by left|].
  rewrite bind_gets in H. cbn [snd] in H. rewrite (applied_lookup f _ j m Hrows Hm) in H.
  case_bool_decide as Hlt; [injection H as <- _ <-; by left|]. assert (j = ve_count v) as -> by lia.
  unfold exec, mbind, prog_bind, modify in H. cbv beta iota in H.
  destruct (sql (mg_id m) (migration_conn m) (fl_schema f)) as [[e|s'] l] eqn:E.
  - injection H as <- _ <-. by left.
  - injection H as <- _ <-. right. split_and!; [done|done|]. exists s'. split; [done|].
    destruct v as [s n]. simpl in *. subst s. by eapply upgrade_next.
Qed.

Lemma implements_insert w v i p p' : implements w v → wo_processes w !! i = Some p → process_ok (ve_count v) p' →
  implements (World (wo_file w) (<[i := p']> (wo_processes w))) v.
Proof. intros [Hs Hr Hc Hp] Hi Hp'. split; [done..|]. simpl. by apply Forall_insert. Qed.

(** One access of one process. *)
Lemma step_refines w w' v : step sql w w' → implements w v → ∃ v', rtc (upgrade sql) v v' ∧ implements w' v'.
Proof.
  intros [i lock now w0] Him. unfold world_step. destruct (wo_processes w0 !! i) as [p|] eqn:Hi; [|by exists v].
  pose proof Him as [Hs Hrows Hc Hps]. pose proof (Forall_lookup_1 _ _ _ _ Hps Hi) as [[k Hk] Hat].
  unfold process_step. destruct (pr_at p) as [|[|m ms]|m saved ms|e] eqn:Ep.
  - exists v. split; [done|]. split; [done|done|done|]. simpl. apply Forall_insert; [done|].
    split; [by exists k|]. simpl. split; [done|]. exists 0%nat. split; [done|lia].
  - exists v. split; [done|]. rewrite list_insert_id by done. by destruct w0.
  - destruct Hat as [Hco Hseen]. destruct (seen_lookup _ _ _ _ _ Hk Hseen) as (j&Hm&Hj&Hms).
    rewrite (applied_lookup _ _ j m Hrows Hm). exists v. split; [done|].
    case_bool_decide as Hlt; [|destruct (mg_disableForeignKeys m) eqn:Hd]; (eapply implements_insert; [done..|]);
      (split; [by exists k|]); simpl.
    + split; [done|]. by exists (S j).
    + unfold migration_conn. rewrite Hd, Hco. by split_and!.
    + unfold migration_conn. rewrite Hd, Hco. by split_and!.
  - destruct Hat as (Hco&->&Hseen). destruct (seen_lookup _ _ _ _ _ Hk Hseen) as (j&Hm&Hj&Hms). rewrite Hco.
    destruct (apply sql lock now m (migration_conn m, wo_file w0)) as [r [c' f']] eqn:Ea.
    pose proof (apply_conn _ _ _ _ _ _ _ (list_elem_of_lookup_2 _ _ _ Hm) Ea) as Hc'. rewrite Hc'.
    destruct (apply_file _ _ _ _ _ _ _ _ _ Hs Hrows Hm Hj Ea) as [[-> Hr]|(->&->&s'&->&Hup)].
    + exists v. split; [done|]. eapply implements_insert; [done..|]. split; [by exists k|]. simpl.
      destruct r as [e|u]; [done|]. split; [done|]. exists (S j). split; [done|]. pose proof (Hr u eq_refl). lia.
    + exists (Version s' (S (ve_count v))). split; [by apply rtc_once|].
      split; cbn [fl_rows fl_schema wo_file wo_processes insertMigration ve_schema ve_count from_option]; [done|..].
      * rewrite (take_S_r _ _ m Hm), (fmap_app mg_id), <-Hrows. exact (fmap_app fst _ _).
      * apply lookup_lt_Some in Hm. lia.
      * apply Forall_insert; [eapply Forall_impl; [done|]; intros q; apply process_ok_mono; lia|].
        split; [by exists k|]. simpl. split; [done|]. exists (S (ve_count v)). by split.
  - exists v. split; [done|]. rewrite list_insert_id by done. by destruct w0.
Qed.
End Refine.

(** Processes of any releases that are about to open a file. *)
Definition starting (releases : list nat) : list process :=
  (λ k, Process (take k migrations) opened Opening) <$> releases.

(** C11: Database start-up refines a single upgrade path.  However the
    processes of any releases that open a new file interleave, wait for the
    lock, fail or stop, the file has the schema of the first n migrations run
    once each in order from the empty one, and lists exactly these; every
    process that is through has all its migrations in it, and no process that
    is not inside a migration is left with other pragmas than it opened with. *)
Theorem migrations_refine {Schema} (sql : migration_sql Schema) `{!PlainSql sql} s0 releases w :
  rtc (step sql) (World (File s0 None) (starting releases)) w →
  ∃ s n, rtc (upgrade sql) (Version s0 0) (Version s n) ∧ fl_schema (wo_file w) = s ∧
    (fl_rows (wo_file w) ⁇ []).*1 = mg_id <$> take n migrations ∧ (n ≤ length migrations)%nat ∧
    ∀ i p, wo_processes w !! i = Some p →
      (pr_at p = Looking [] → (length (pr_release p) ≤ n)%nat) ∧
      ((∀ m saved ms, pr_at p ≠ Waiting m saved ms) → pr_conn p = opened).
Proof.
  intros H.
  assert (∀ w0 w v0, rtc (step sql) w0 w → implements w0 v0 → ∃ v, rtc (upgrade sql) v0 v ∧ implements w v) as Hsim.
  { clear -PlainSql0. intros w0 w v0 Hw. revert v0. induction Hw as [|w0 w1 w2 Hs _ IH]; intros v0 Him; [by exists v0|].
    destruct (step_refines sql _ _ _ Hs Him) as (v1&H01&Him1).
    destruct (IH _ Him1) as (v2&H12&Him2). exists v2. split; [by etrans|done]. }
  destruct (Hsim _ _ (Version s0 0) H) as ([s n]&Hup&[Hs Hr Hc Hp]).
  { split; [done|done|simpl; lia|]. apply Forall_fmap, Forall_true. intros k. split; [by exists k|done]. }
  exists s, n. split_and!; [done..|]. intros i p Hi. pose proof (Forall_lookup_1 _ _ _ _ Hp Hi) as [[k Hk] Hat]. split.
  - intros E. rewrite E in Hat. destruct Hat as [_ (j&Hj&Hle)]. symmetry in Hj. apply skipn_all_iff in Hj. simpl in *. lia.
  - intros Hno. destruct (pr_at p) as [|ms|m saved ms|e]; [done|by destruct Hat|by edestruct Hno|done].
Qed.

(** ** One process alone *)
Section Alone.
Context {Schema : Type} (sql : migration_sql Schema).
Implicit Types (f : @file Schema) (c : conn).

(** [runMigrations] is what the accesses of a process amount to when no other
    process comes between them. *)
Definition alone (lock : option exn) (now : Z) (n : nat) (p : process) f : process * file :=
  Nat.iter n (λ '(p, f), process_step sql lock now p f) (p, f).

Lemma alone_add lock now a b p f : alone lock now (a + b) p f = let '(p, f) := alone lock now b p f in alone lock now a p f.
Proof. unfold alone. rewrite Nat.iter_add. by destruct (Nat.iter b _ _). Qed.

Lemma migrate_alone lock now rel m ms c f : ∃ n,
  alone lock now n (Process rel c (Looking (m :: ms))) f =
  let '(r, (c', f')) := migrate sql lock now m (c, f) in
  (Process rel c' (match r with inl e => Stopped e | inr _ => Looking ms end), f').
Proof.
  unfold migrate. rewrite bind_gets. change (snd (c, f)) with f.
  destruct (hasMigration (mg_id m) f) eqn:Hh; [exists 1%nat; unfold alone, process_step; cbn -[hasMigration]; by rewrite Hh|].
  exists 2%nat. unfold alone, process_step. cbn -[hasMigration apply]. rewrite Hh.
  destruct (mg_disableForeignKeys m); cbn -[hasMigration apply].
  - unfold finally, modify, mbind, prog_bind, gets. cbn. by destruct (apply _ _ _ _ _) as [r [c' f']].
  - by destruct (apply _ _ _ _ _) as [r [c' f']].
Qed.

Lemma runMigrations_alone lock now ms c f : ∃ n,
  alone lock now n (Process ms c Opening) f =
  let '(r, (c', f')) := runMigrations sql lock now ms (c, f) in
  (Process ms c' (match r with inl e => Stopped e | inr _ => Looking [] end), f').
Proof.
  unfold runMigrations.
  assert (∀ rel l c f, ∃ n, alone lock now n (Process rel c (Looking l)) f =
    let '(r, (c', f')) := for_each (migrate sql lock now) l (c, f) in
    (Process rel c' (match r with inl e => Stopped e | inr _ => Looking [] end), f')) as H.
  { intros rel l. induction l as [|m l IH]; intros c0 f0; [by exists 0%nat|]. simpl.
    destruct (migrate_alone lock now rel m l c0 f0) as [a Ha].
    destruct (migrate sql lock now m (c0, f0)) as [[e|u] [c1 f1]] eqn:E.
    - exists a. rewrite Ha. unfold mbind, prog_bind. by rewrite E.
    - destruct (IH c1 f1) as [b Hb]. exists (b + a)%nat. rewrite alone_add, Ha. unfold mbind, prog_bind. by rewrite E. }
  destruct (H ms ms c (create_table f)) as [n Hn]. exists (n + 1)%nat. rewrite alone_add. exact Hn.
Qed.
End Alone.

(** ** A run of two releases *)
(** SQL that only appends its name to the schema. *)
Definition log_sql : migration_sql (list string) := λ id c s, (inr (s ++ [id]), legacy_alter_table c).
#[export] Instance log_sql_plain : PlainSql log_sql.
Proof. by intros m c s. Qed.

Fixpoint run_schedule (l : list nat) (w : @world (list string)) : @world (list string) :=
  match l with [] => w | i :: l => run_schedule l (world_step log_sql i None 0 w) end.
Lemma run_schedule_steps l w : rtc (step log_sql) w (run_schedule l w).
Proof. revert w. induction l as [|i l IH]; intros w; simpl; [done|]. eapply rtc_l; [constructor|apply IH]. Qed.

(** An old release and a new one, turn by turn. *)
Definition two_releases : @world (list string) :=
  run_schedule (concat (replicate 80 [0; 1]%nat)) (World (File [] None) (starting [8; 29]%nat)).

Lemma migrations_refine_witness : ∃ s n, rtc (upgrade log_sql) (Version [] 0) (Version s n) ∧
  fl_schema (wo_file two_releases) = s ∧ s = mg_id <$> migrations ∧
  (fl_rows (wo_file two_releases) ⁇ []).*1 = mg_id <$> take n migrations.
Proof.
  destruct (migrations_refine log_sql [] [8; 29]%nat two_releases (run_schedule_steps _ _)) as (s&n&Hup&Hs&Hr&_).
  exists s, n. split_and!; [exact Hup|exact Hs| |exact Hr]. rewrite <-Hs. vm_compute. reflexivity.
Defined.
